(* ===== verification/_CoqProject ===== *)
-Q . S2P
Prelude.v
RingBuf.v
Bitmap.v
UDiv.v
DList.v
TimerWheel.v
CString.v
SortSearch.v
Sync.v
Ipc.v
MsgQueue.v
RBTree.v
RBTreeInv.v
RBTreeDel.v
Pfa.v
PfaInv.v
PfaCpu.v
Heap.v
HeapInv.v
PageSource.v
Slab.v
SlabInv.v
HashChain.v
MemIface.v
Vma.v
VmaInv.v
Kalloc.v
X86Paging.v
Paging.v
FrameStep.v
PagingInv.v
PagingCow.v
PagingOps.v
PageFault.v
Isolation.v
HrTimer.v
Sched.v
SchedInv.v
SleepWheel.v
Scheduling.v
Bytes.v
NetBuf.v
NetStack.v
NetApps.v
NetRx.v
NetSend.v
NetInv.v
NetSafe.v
NetOps.v
NetInit.v
NetFlow.v
NetExamples.v
FatTable.v
FatInv.v
FatName.v
FatNameInv.v
Printk.v
PrintkInv.v
Fdt.v
FdtInv.v
Console.v
