(* ===== verification/Prelude.v ===== *)
(** * Verification of the JohnSunshine OS kernel

    The program is a C kernel for x86 (32 and 64 bit) and arm64.  Its parts build on
    each other: data structures ([dsa/], [common/]); physical memory
    ([kernel/page_frame_allocator.c]); kernel memory on top of it
    ([kernel/memory_manager.c]: a heap, slab caches, and the front ends that choose
    between them); address spaces ([kernel/vma.c]) over the red-black tree, slab
    objects and page tables ([kernel/paging.c], [arch/x86/paging.c]); and tasks with the primitives they wait on
    ([kernel/sync.c], [kernel/ipc.c]).  The network stack ([net/]) allocates its packet
    buffers there and keeps handlers and sockets in hash tables.  File systems, drivers
    and architecture code use these.

    The development follows that layering.  Machine words are integers with every
    wrap written out; where the code depends on the configuration (pointer size, page
    table levels, address map) the model is that of the 32-bit x86 build.  Operations
    are executable functions from a state to [option] of a new state and a result:
    [None] stands for what must not happen (a wild pointer, an index out of bounds,
    the halt loop after a failed internal check, or a loop that did not end within
    its fuel), so theorems that give [Some] exclude it.  Code that runs under one lock
    is one step.  For slab caches, semaphores, mutexes and pipes, where locks are given up
    in between or fields are read outside them, the sections are definitions of their own
    and the theorems speak about all interleavings.  The heap has its sections as
    definitions, but its theorems, like those of the scheduler, are about operations that
    run to their end one at a time; examples show interleavings that fail.

    ** Files and the code they model

    - [Prelude]: machine integers, arrays, automation shared by all files.
    - [RingBuf]: [dsa/ringbuf.c].  [Bitmap]: [dsa/bitmap.c], [jlos_popcount32].
      [UDiv]: [common/lib/udivdi3.c].  [CString]: memory and string routines of
      [common/types.c].  [SortSearch]: [dsa/sort.c], [dsa/search.c].
    - [DList]: [dsa/list.h], [dsa/list_lru.h] on a heap of list heads; later files use
      lists as the sequences it proves them to be.  [TimerWheel]:
      [dsa/timer_wheel.c] on that heap.
    - [RBTree]: [dsa/rbtree.c] on a heap of nodes; [RBTreeInv] (rotations, insertion),
      [RBTreeDel] (removal, searches, traversal).
    - [HashChain]: [dsa/hash_chain.c] with its back pointers in memory.
    - [Sync]: [kernel/sync.c] with the task states it changes.  [Ipc]: the pipes,
      [MsgQueue]: the message queues of [kernel/ipc.c].
    - [Pfa]: [kernel/page_frame_allocator.c]; [PfaInv] (buddy lists), [PfaCpu]
      (per-processor caches, reference counts, boot).
    - [Heap]: the heap of [kernel/memory_manager.c]; [HeapInv].
    - [PageSource]: the contract single pages are handed out under (a class), met by
      [Pfa].  [Slab]: the slab caches of [kernel/memory_manager.c] against that
      contract; [SlabInv].
    - [MemIface]: the contracts of slab objects and of paging towards address spaces.
      [Vma]: [kernel/vma.c] against them; [VmaInv].
    - [Kalloc]: [jlos_kvalloc], [jlos_kalloc] and their releases over the three
      allocators.
    - [X86Paging]: the two-level page tables of [arch/x86/paging.c]; [Paging]:
      [kernel/paging.c] over them.  [FrameStep]: the frame allocator as page tables
      use it.  [PagingInv] (tables and counts as a map from pages to frames),
      [PagingCow] (sharing on write), [PagingOps] (mapping; the tables as an instance
      of the contract of [MemIface]).  [PageFault]: the fault handler and
      [kernel/exception_recover.c].  [Isolation]: the steps of kernel and tasks.
    - [HrTimer]: clocks ([kernel/timek.c], [hal/clocksource.c]) and the timers of
      [kernel/hrtimer.c] over the red-black tree.
    - [Sched]: tasks, run queues, sleeping, waking, exit, wait, signals and the
      scheduler of [kernel/multitask.c], against a contract for the sleep wheel (a
      class); [SchedInv]; [SleepWheel]: the timer wheel as an instance of it;
      [Scheduling]: the operations of the scheduler as steps of the processors, one at a time.
    - [Bytes]: words in memory as bytes, shared by network and file system.
    - [NetBuf]: packet buffers ([net/skbuff.c]), byte order and the checksum of
      [net/ipv4.c].  [NetStack]: the state of the stack and everything that sends
      ([net/etherframe.c], [net/arp.c], [net/ipv4.c], [net/icmp.c], [net/udp.c],
      [net/tcp.c]).  [NetApps]: DHCP client and DNS resolver ([net/dhcp.c],
      [net/dns.c]).  [NetRx]: initialisation and everything that receives, up to the
      handlers of applications, which are parameters.  [NetSend] (what each sending
      function puts on the wire), [NetInv] (the invariant), [NetSafe] (receiving keeps
      it), [NetOps] (sockets and requests keep it, any order of operations), [NetInit]
      (initialisation), [NetFlow] (from one stack to another), [NetExamples] (two
      hosts; what the code does with malformed frames).
    - [FatTable]: the allocation table of [fs/fat32.c] over the bytes of the volume;
      [FatInv]: the table as a list of files, each a chain of clusters.  [FatName]: short
      and long names, the entries of a name, the scan of a directory; [FatNameInv].
    - [Printk]: formatted output ([kernel/printk.c]); [PrintkInv].  [Fdt]: the device
      tree ([common/hardware/fdt.c]); [FdtInv].  [Console]: the console ([kernel/console.c]).

    ** What the theorems show

    - Containers refine what they stand for: ring buffer and pipe a queue of bytes,
      message queue a queue of messages, lists and hash tables sequences, the
      red-black tree an ordered sequence with its balance invariant, the timer wheel a
      set of timers that fire in the order of their ticks.
    - Memory is never handed out twice and never lost: frames ([PfaInv], [PfaCpu]),
      heap blocks ([HeapInv]), slab objects under every interleaving of processors
      ([SlabInv]), area objects and frames of address spaces ([VmaInv]).
    - Concurrency: mutual exclusion of the mutex, first come first served semaphores
      and condition variables, pipes that lose no wake-up for data or space.
    - Address spaces: disjoint areas; removal, growth, lookup, search for free ranges,
      demand paging and cloning change exactly the range concerned.
    - Paging: tables, present counts and reference counts agree with the map from
      pages to frames; page tables implement the contract address spaces are proved
      against; sharing on write and write faults change nothing that a page shows;
      under every sequence of steps that fits the 8-bit counters a page changes only by a write to itself.
    - Scheduling: under every sequence of whole operations on all processors exactly the ready
      tasks are queued, each once; the scheduler runs the first task of the best level,
      else one of the busiest other processor;
      exit and wait meet in either order.
    - Time: the timer interrupt runs exactly what is due in order; the range in which
      the clock is right.
    - Network: whatever well-formed frames and calls drive the stack, in any order and
      whichever allocations fail after the initialisation, every operation returns, stays
      within its buffers and releases them ([NetInit.network_init_correct]); a datagram arrives as it was sent and the
      three segments of a connection leave both ends in agreement ([NetFlow]); stored
      checksums verify; the wait for an address ends.
    - File system: the allocation table implements a list of files that share no
      cluster, in every copy; allocation, extension and release change exactly the
      file concerned, and no two blocks of files are mapped to one sector ([FatInv]); a name is found
      again by the entries that were written for it ([FatNameInv]).
    - Output and device tree: format strings print as a specification of C's directives
      says, dates stand for the clock ([PrintkInv]); a flattened tree is read back ([FdtInv]);
      the console and its history ring refine a screen over unbounded text, away from two
      faults that lemmas show ([Console]).
    - Arithmetic and searching routines agree with their definitions.

    Where the code does not do what its callers may expect, a theorem shows the
    behaviour it has (for example [HeapInv.heap_oversize], [Sync.mutex_kill_breaks_exclusion],
    [PfaCpu.alloc_n_overcounts], [HashChain.hash_chain_init_correct],
    [Isolation.present_count_wraps], [HrTimer.monotonic_clock_bounds],
    [Scheduling.one_task_two_processors], [Scheduling.interleaved_put_prev],
    [HeapInv.heap_race], [Ipc.close_lost], [PrintkInv.zeros_before_sign],
    [Console.view_top_overwritten], [NetExamples.ihl_overrun],
    [NetExamples.ack_storm], [NetExamples.dns_gives_up], [FatNameInv.digit_not_found],
    [FdtInv.nop_hides_sibling]).

    ** Fuel

    Loops that are not structural take fuel: 65 rounds for the 64-bit division, 32
    doublings for the hash table size, the length of the sequence for walks of lists,
    chains and trees (one more than the number of nodes where a tree operation needs
    it), the number of objects of a page for the carving of slab pages, the length of the
    message for the walks over DHCP options and DNS names, three rounds for the checksum's
    folding, one round for each sector of the allocation table and
    each page of a directory, one for each token of a device tree, one for each character of
    a format string, 64 for the digits of a number and 200 for the years of a date, and the code's own limit of 5,000,000 rounds for the wait for an address.
    Every theorem gives a result for that much fuel.

    ** Not modelled

    Drivers, interrupt and architecture code (registers, assembly, device memory), the
    start-up order and tests; the hardware abstraction layer
    (tables of function pointers); system call dispatch.  Work queues, the virtual file system,
    the page cache, and of FAT32 the search for free directory slots, reading and
    writing of files and mounting are not modelled.  The network
    stack's device is its addresses and the list of frames handed to it.  Locks are
    assumed to exclude each other; memory ordering of the processors, and interleavings
    inside an operation of the scheduler, are not modelled. *)

(** ** Machine integers, arrays and automation *)
(** ** Machine integers, arrays and automation *)
From stdpp Require Export base gmap list numbers sorting.
From Stdlib Require Export ZArith Lia Bool.
#[export] Set Default Goal Selector "!".
#[export] Set Warnings "-clear-no-such-hyp".
#[global] Open Scope Z_scope.

(** ** Notations *)

Declare Scope jlos_scope.
Delimit Scope jlos_scope with jlos.
#[global] Open Scope jlos_scope.

(** ** Machine integers

    A [w]-bit unsigned C value is a [Z] in [0, 2^w); every arithmetic result
    that C reduces modulo [2^w] is wrapped explicitly. *)

Definition wrap (w x : Z) : Z := x `mod` 2 ^ w.
Definition u8 (x : Z) : Z := wrap 8 x.
Definition u16 (x : Z) : Z := wrap 16 x.
Definition u32 (x : Z) : Z := wrap 32 x.
Definition u64 (x : Z) : Z := wrap 64 x.

(** The value of a [w]-bit pattern read as two's complement: the C cast
    [(intw_t)x]. *)
Definition sgn (w x : Z) : Z :=
  if wrap w x <? 2 ^ (w - 1) then wrap w x else wrap w x - 2 ^ w.
Definition s32 (x : Z) : Z := sgn 32 x.

(** [~x] on a 32-bit operand. *)
Definition not32 (x : Z) : Z := u32 (Z.lnot x).

(** [JLOS_EXCEPT_CEIL] and [JLOS_ALIGN_UP] of [common/types.h], on values for
    which the intermediate sum does not wrap; the width is added by callers. *)
Definition ceil_div (a b : Z) : Z := (a + b - 1) `div` b.

Lemma wrap_range w x : 0 <= w -> 0 <= wrap w x < 2 ^ w.
Proof. intros. apply Z.mod_pos_bound. lia. Qed.

Lemma wrap_small w x : 0 <= x < 2 ^ w -> wrap w x = x.
Proof. intros. by apply Z.mod_small. Qed.

Lemma wrap_wrap w x : 0 <= w -> wrap w (wrap w x) = wrap w x.
Proof. intros. apply wrap_small, wrap_range; lia. Qed.

Lemma u32_range x : 0 <= u32 x < 2 ^ 32.
Proof. by apply wrap_range. Qed.
Lemma u8_range x : 0 <= u8 x < 2 ^ 8.
Proof. by apply wrap_range. Qed.
Lemma u16_range x : 0 <= u16 x < 2 ^ 16.
Proof. by apply wrap_range. Qed.
Lemma u64_range x : 0 <= u64 x < 2 ^ 64.
Proof. by apply wrap_range. Qed.

Lemma u32_small x : 0 <= x < 2 ^ 32 -> u32 x = x.
Proof. apply wrap_small. Qed.
Lemma u16_small x : 0 <= x < 2 ^ 16 -> u16 x = x.
Proof. apply wrap_small. Qed.
Lemma u8_small x : 0 <= x < 2 ^ 8 -> u8 x = x.
Proof. apply wrap_small. Qed.
Lemma u64_small x : 0 <= x < 2 ^ 64 -> u64 x = x.
Proof. apply wrap_small. Qed.

Lemma u32_u32 x : u32 (u32 x) = u32 x.
Proof. by apply wrap_wrap. Qed.

(** Wrapping is a ring morphism: inner wraps can be dropped. *)
Lemma u32_add_l x y : u32 (u32 x + y) = u32 (x + y).
Proof. unfold u32, wrap. by rewrite Zplus_mod_idemp_l. Qed.
Lemma u32_add_r x y : u32 (x + u32 y) = u32 (x + y).
Proof. unfold u32, wrap. by rewrite Zplus_mod_idemp_r. Qed.
Lemma u32_sub_l x y : u32 (u32 x - y) = u32 (x - y).
Proof. unfold u32, wrap. by rewrite Zminus_mod_idemp_l. Qed.
Lemma u32_sub_r x y : u32 (x - u32 y) = u32 (x - y).
Proof. unfold u32, wrap. by rewrite Zminus_mod_idemp_r. Qed.

Create HintDb jlos.
Create Rewrite HintDb wrap.
#[export] Hint Rewrite u32_u32 u32_add_l u32_add_r u32_sub_l u32_sub_r : wrap.
#[export] Hint Resolve u8_range u16_range u32_range u64_range : jlos.

(** A value modulo [2^32] keeps its residue modulo a smaller power of two. *)
Lemma u32_mod_pow2 x k : 0 <= k <= 32 -> u32 x `mod` 2 ^ k = x `mod` 2 ^ k.
Proof.
  intros Hk. unfold u32, wrap.
  replace (2 ^ 32) with (2 ^ k * 2 ^ (32 - k)).
  - rewrite Z.rem_mul_r by lia.
    rewrite Z.mul_comm, Z_mod_plus_full. apply Zmod_mod.
  - rewrite <- Z.pow_add_r by lia. f_equal. lia.
Qed.

(** Masking with [2^k - 1] is reduction modulo [2^k]. *)
Lemma land_mask x k : 0 <= k -> Z.land x (2 ^ k - 1) = x `mod` 2 ^ k.
Proof. intros. rewrite <- Z.land_ones by lia. by rewrite Z.ones_equiv. Qed.

(** Simplify wraps, then close linear goals over [mod] and [div]. *)
Ltac wrap_simpl := autorewrite with wrap in *.
Ltac zmod := unfold u8, u16, u32, u64, wrap, ceil_div in *;
             Z.div_mod_to_equations; lia.
Ltac zcases :=
  repeat match goal with
  | |- context [?a <? ?b] => destruct (Z.ltb_spec a b)
  | |- context [?a <=? ?b] => destruct (Z.leb_spec a b)
  | |- context [?a =? ?b] => destruct (Z.eqb_spec a b)
  | H : context [?a <? ?b] |- _ => destruct (Z.ltb_spec a b)
  | H : context [?a <=? ?b] |- _ => destruct (Z.leb_spec a b)
  | H : context [?a =? ?b] |- _ => destruct (Z.eqb_spec a b)
  end.

(** Case analysis on a decision of the goal only. *)
Ltac goal_decide := match goal with |- context [decide ?P] => destruct (decide P) end.

(** The cast to [int32_t] of a value that fits. *)
Lemma s32_small x : - 2 ^ 31 <= x < 2 ^ 31 -> s32 x = x.
Proof.
  intros Hx. unfold s32, sgn. change (2 ^ (32 - 1)) with (2 ^ 31).
  destruct (Z.leb_spec 0 x).
  - rewrite wrap_small by lia. zcases; [done|lia].
  - assert (wrap 32 x = x + 2 ^ 32) as ->.
    { unfold wrap. rewrite <- (Z_mod_plus_full _ 1), Z.mod_small; lia. }
    zcases; lia.
Qed.

(** ** Lists indexed by machine integers *)

(** Length as a [Z], the type of every C size. *)
Abbreviation zlen l := (Z.of_nat (length l)) (only parsing).

(** Read and write of one array element; [None] is an out-of-bounds access. *)
Definition geti {A} (l : list A) (i : Z) : option A :=
  if i <? 0 then None else l !! Z.to_nat i.
Definition seti {A} (l : list A) (i : Z) (x : A) : option (list A) :=
  if (0 <=? i) && (i <? zlen l) then Some (<[Z.to_nat i := x]> l) else None.

(** Read and write of a run of elements, the effect of [jlos_memcpy] on an
    array; [None] is an out-of-bounds access. *)
Definition read_run {A} (l : list A) (off n : Z) : option (list A) :=
  if (0 <=? off) && (0 <=? n) && (off + n <=? zlen l)
  then Some (take (Z.to_nat n) (drop (Z.to_nat off) l)) else None.
Definition write_run {A} (l : list A) (off : Z) (bs : list A) : option (list A) :=
  if (0 <=? off) && (off + zlen bs <=? zlen l)
  then Some (list_inserts (Z.to_nat off) bs l) else None.

Lemma geti_Some {A} (l : list A) i :
  0 <= i < zlen l -> exists x, geti l i = Some x /\ l !! Z.to_nat i = Some x.
Proof.
  intros Hi. destruct (lookup_lt_is_Some_2 l (Z.to_nat i)) as [x Hx]; [lia|].
  exists x. split; [|done]. unfold geti. destruct (Z.ltb_spec i 0); [lia|done].
Qed.

Lemma seti_Some {A} (l : list A) i x :
  0 <= i < zlen l -> seti l i x = Some (<[Z.to_nat i := x]> l).
Proof. intros. unfold seti. zcases; [done|lia..]. Qed.

Lemma read_run_Some {A} (l : list A) off n :
  0 <= off -> 0 <= n -> off + n <= zlen l ->
  read_run l off n = Some (take (Z.to_nat n) (drop (Z.to_nat off) l)).
Proof. intros. unfold read_run. zcases; [done|lia..]. Qed.

Lemma write_run_Some {A} (l : list A) off bs :
  0 <= off -> off + zlen bs <= zlen l ->
  write_run l off bs = Some (list_inserts (Z.to_nat off) bs l).
Proof. intros. unfold write_run. zcases; [done|lia..]. Qed.

Lemma lookup_inserts_in {A} (l bs : list A) off j :
  (off <= j < off + length bs)%nat -> (off + length bs <= length l)%nat ->
  list_inserts off bs l !! j = bs !! (j - off)%nat.
Proof.
  intros. by rewrite list_lookup_inserts by lia.
Qed.

Lemma lookup_inserts_out {A} (l bs : list A) off j :
  ~ (off <= j < off + length bs)%nat ->
  list_inserts off bs l !! j = l !! j.
Proof.
  intros. destruct (decide (j < off)%nat).
  - by rewrite list_lookup_inserts_lt.
  - rewrite list_lookup_inserts_ge by lia. done.
Qed.

(** Adding less than one period to a residue wraps at most once. *)
Lemma mod_add_small a t m :
  0 < m -> 0 <= t < m ->
  (a + t) `mod` m = (if a `mod` m + t <? m then a `mod` m + t else a `mod` m + t - m).
Proof.
  intros Hm Ht. pose proof (Z.mod_pos_bound a m Hm).
  rewrite <- Zplus_mod_idemp_l. zcases.
  - apply Z.mod_small. lia.
  - rewrite <- (Z_mod_plus_full _ (-1)). apply Z.mod_small. lia.
Qed.

(** ** Bit fields *)

Lemma testbit_above k a i : 0 <= a < 2^k -> 0 <= k <= i -> Z.testbit a i = false.
Proof. intros. rewrite <- (Z.mod_small a (2^k)) by lia. apply Z.mod_pow2_bits_high. lia. Qed.
Lemma land_range k a m : 0 <= k -> 0 <= a < 2^k -> 0 <= m -> 0 <= Z.land a m < 2^k.
Proof.
  intros Hk Ha Hm. replace (Z.land a m) with (Z.land a m `mod` 2^k); [apply Z.mod_pos_bound; lia|].
  apply Z.bits_inj'. intros i Hi. destruct (Z.ltb_spec i k).
  - by rewrite Z.mod_pow2_bits_low by lia.
  - by rewrite Z.mod_pow2_bits_high, Z.land_spec, (testbit_above k a) by lia.
Qed.

(** Masking with the complement of [2^k - 1] rounds down to a multiple of [2^k]. *)
Lemma land_not_mask x k : 0 <= x < 2 ^ 32 -> 0 <= k <= 32 -> Z.land x (not32 (2 ^ k - 1)) = x - x `mod` 2 ^ k.
Proof.
  intros Hx Hk. transitivity (Z.ldiff x (Z.ones k)).
  - apply Z.bits_inj'. intros i Hi. rewrite Z.land_spec, Z.ldiff_spec. unfold not32, u32, wrap.
    replace (2 ^ k - 1) with (Z.ones k) by (rewrite Z.ones_equiv; lia).
    destruct (Z.lt_ge_cases i 32).
    + by rewrite Z.mod_pow2_bits_low, Z.lnot_spec by lia.
    + by rewrite (testbit_above 32 x) by lia.
  - rewrite Z.ldiff_ones_r, Z.shiftl_mul_pow2, Z.shiftr_div_pow2 by lia. pose proof (Z.div_mod x (2 ^ k) ltac:(lia)). lia.
Qed.
Lemma testbit_concat k x y i : 0 <= k -> 0 <= x < 2^k ->
  Z.testbit (x + 2^k*y) i = if i <? k then Z.testbit x i else Z.testbit y (i-k).
Proof.
  intros Hk Hx. destruct (Z.ltb_spec i k).
  - destruct (Z.ltb_spec i 0). { by rewrite !Z.testbit_neg_r by lia. }
    rewrite <- (Z.mod_pow2_bits_low _ k i), <- (Z.mod_pow2_bits_low x k i) by lia. f_equal.
    rewrite Z.mul_comm, Z_mod_plus_full. done.
  - replace y with ((x + 2^k*y) / 2^k) at 2; [rewrite Z.div_pow2_bits by lia; f_equal; lia|].
    rewrite Z.mul_comm, Z.div_add, Z.div_small by lia. done.
Qed.
Lemma land_concat k a b m n : 0 <= k -> 0 <= a < 2^k -> 0 <= m < 2^k ->
  Z.land (a + 2^k * b) (m + 2^k * n) = Z.land a m + 2^k * Z.land b n.
Proof.
  intros. apply Z.bits_inj. intros i.
  rewrite Z.land_spec, !(testbit_concat k) by (try done; apply land_range; lia).
  rewrite !Z.land_spec. by destruct (i <? k).
Qed.

(** A decidable property of bytes is proved by evaluating it on all of them. *)
Lemma byte_ind (P : Z -> Prop) `{!forall a, Decision (P a)} :
  forallb (fun a => bool_decide (P a)) (seqZ 0 256) = true ->
  forall a, 0 <= a < 256 -> P a.
Proof.
  intros Hall a Ha. rewrite forallb_forall in Hall.
  apply (bool_decide_eq_true_1 (P a)), Hall, list_elem_of_In, elem_of_seqZ. lia.
Qed.

(** ** Sorted lists *)

Lemma StronglySorted_forall {A} (R : A -> A -> Prop) l :
  (forall x y, x ∈ l -> y ∈ l -> R x y) -> StronglySorted R l.
Proof.
  induction l as [|x l IH]; intros H; constructor.
  - apply IH. set_solver.
  - apply Forall_forall. intros y Hy. apply H; set_solver.
Qed.

Lemma StronglySorted_impl_elem {A} (R R' : A -> A -> Prop) l :
  (forall x y, x ∈ l -> y ∈ l -> R x y -> R' x y) -> StronglySorted R l -> StronglySorted R' l.
Proof.
  induction l as [|x l IH]; intros H Hs; [constructor|].
  apply StronglySorted_inv in Hs as [Hs Hx]. constructor.
  - apply IH; [|done]. set_solver.
  - rewrite Forall_forall in *. intros y Hy. apply H; [set_solver..|by apply Hx].
Qed.

(** ** Removing an element *)

Lemma filter_absent (x : Z) (l : list Z) : x ∉ l -> filter (fun y => y <> x) l = l.
Proof.
  induction l as [|y l IH]; intros Hni; [done|]. rewrite filter_cons, decide_True by set_solver.
  f_equal. apply IH. set_solver.
Qed.

Lemma map_id_ext {A} (f : A -> A) l : (forall x, x ∈ l -> f x = x) -> map f l = l.
Proof.
  induction l as [|x l IH]; intros Hf; simpl; [done|]. rewrite Hf by set_solver.
  f_equal. apply IH. set_solver.
Qed.

Lemma filter_ext_elem {A} (P Q : A -> Prop) `{!forall x, Decision (P x), !forall x, Decision (Q x)} (l : list A) :
  (forall x, x ∈ l -> P x <-> Q x) -> filter P l = filter Q l.
Proof.
  induction l as [|x l IH]; intros Hpq; [done|]. rewrite !filter_cons.
  rewrite IH by (intros y Hy; apply Hpq; by constructor).
  assert (P x <-> Q x) by (apply Hpq; constructor). repeat case_decide; tauto || done.
Qed.
