(* ===== verification/RingBuf.v ===== *)
(** * Byte ring buffer ([dsa/ringbuf.h], [dsa/ringbuf.c])

    The buffer is an array of bytes, [rb_in] and [rb_out] are free-running
    32-bit counters.  Reads and writes of the array go through [read_run] and
    [write_run], whose [None] is an out-of-bounds access, so the refinement
    theorems also show that no access leaves the array. *)
From S2P Require Import Prelude.

(** [jlos_ringbuf_t] *)
Record ringbuf := RingBuf {
  rb_buffer : list Z;
  rb_size : Z;
  rb_mask : Z;
  rb_in : Z;
  rb_out : Z;
}.

Definition jlos_ringbuf_init (buffer : list Z) (size : Z) : ringbuf :=
  RingBuf buffer size (u32 (size - 1)) 0 0.

Definition jlos_ringbuf_reset (rf : ringbuf) : ringbuf :=
  RingBuf (rb_buffer rf) (rb_size rf) (rb_mask rf) 0 0.

Definition jlos_ringbuf_count (rf : ringbuf) : Z := u32 (rb_in rf - rb_out rf).

Definition jlos_ringbuf_free (rf : ringbuf) : Z :=
  u32 (rb_size rf - jlos_ringbuf_count rf).

Definition jlos_ringbuf_is_empty (rf : ringbuf) : bool := rb_in rf =? rb_out rf.

Definition jlos_ringbuf_is_full (rf : ringbuf) : bool :=
  jlos_ringbuf_count rf =? rb_size rf.

Definition jlos_ringbuf_write (rf : ringbuf) (data : list Z) (len : Z)
  : option (ringbuf * Z) :=
  let free := jlos_ringbuf_free rf in
  let len := if free <? len then free else len in
  let off := Z.land (rb_in rf) (rb_mask rf) in
  let l := u32 (rb_size rf - off) in
  buffer ←
    (if l <? len then
       d1 ← read_run data 0 l;
       b1 ← write_run (rb_buffer rf) off d1;
       d2 ← read_run data l (u32 (len - l));
       write_run b1 0 d2
     else
       d ← read_run data 0 len;
       write_run (rb_buffer rf) off d);
  Some (RingBuf buffer (rb_size rf) (rb_mask rf) (u32 (rb_in rf + len)) (rb_out rf), len).

(** The copy shared by [jlos_ringbuf_read] and [jlos_ringbuf_peek]: the bytes
    stored in the caller's buffer, and the clamped length. *)
Definition jlos_ringbuf_peek (rf : ringbuf) (len : Z) : option (list Z * Z) :=
  let count := jlos_ringbuf_count rf in
  let len := if count <? len then count else len in
  let off := Z.land (rb_out rf) (rb_mask rf) in
  let l := u32 (rb_size rf - off) in
  data ←
    (if l <? len then
       d1 ← read_run (rb_buffer rf) off l;
       d2 ← read_run (rb_buffer rf) 0 (u32 (len - l));
       Some (d1 ++ d2)
     else
       read_run (rb_buffer rf) off len);
  Some (data, len).

Definition jlos_ringbuf_read (rf : ringbuf) (len : Z) : option (ringbuf * list Z * Z) :=
  '(data, len) ← jlos_ringbuf_peek rf len;
  Some (RingBuf (rb_buffer rf) (rb_size rf) (rb_mask rf) (rb_in rf) (u32 (rb_out rf + len)),
        data, len).

(** ** The abstract queue *)

(** A well-formed ring has a power-of-two capacity and holds at most that many
    bytes; the counters are 32-bit values. *)
Record ringbuf_wf (rf : ringbuf) : Prop := {
  wf_size : exists k, 0 <= k <= 31 /\ rb_size rf = 2 ^ k;
  wf_mask : rb_mask rf = rb_size rf - 1;
  wf_buffer : zlen (rb_buffer rf) = rb_size rf;
  wf_in : 0 <= rb_in rf < 2 ^ 32;
  wf_out : 0 <= rb_out rf < 2 ^ 32;
  wf_count : jlos_ringbuf_count rf <= rb_size rf;
}.

(** Slot of the byte at distance [i] from the read counter. *)
Definition ring_slot (rf : ringbuf) (i : nat) : nat :=
  Z.to_nat ((rb_out rf + Z.of_nat i) `mod` rb_size rf).

(** The bytes waiting to be read, oldest first. *)
Definition ringbuf_contents (rf : ringbuf) : list Z :=
  map (fun i => rb_buffer rf !!! ring_slot rf i)
      (seq 0 (Z.to_nat (jlos_ringbuf_count rf))).

Section wf.
Context (rf : ringbuf) (Hwf : ringbuf_wf rf).

Lemma size_pos : 0 < rb_size rf <= 2 ^ 31.
Proof using Hwf.
  destruct (wf_size _ Hwf) as (k & Hk & ->). split; [lia|].
  apply Z.pow_le_mono_r; lia.
Qed.

Lemma count_range : 0 <= jlos_ringbuf_count rf <= rb_size rf.
Proof using Hwf.
  split; [apply u32_range | apply Hwf].
Qed.

Lemma land_mask_size x : Z.land x (rb_mask rf) = x `mod` rb_size rf.
Proof using Hwf.
  destruct (wf_size _ Hwf) as (k & Hk & E).
  rewrite (wf_mask _ Hwf), E. apply land_mask. lia.
Qed.

Lemma u32_mod_size x : u32 x `mod` rb_size rf = x `mod` rb_size rf.
Proof using Hwf.
  destruct (wf_size _ Hwf) as (k & Hk & E). rewrite E. apply u32_mod_pow2. lia.
Qed.

(** The write position is the read position advanced by the count. *)
Lemma in_mod_size :
  rb_in rf `mod` rb_size rf
  = (rb_out rf + jlos_ringbuf_count rf) `mod` rb_size rf.
Proof using Hwf.
  rewrite <- (u32_mod_size (_ + _)). unfold jlos_ringbuf_count. wrap_simpl.
  rewrite u32_mod_size. f_equal. lia.
Qed.

Lemma ring_slot_lt i : (ring_slot rf i < length (rb_buffer rf))%nat.
Proof using Hwf.
  pose proof size_pos. pose proof (wf_buffer _ Hwf).
  pose proof (Z.mod_pos_bound (rb_out rf + Z.of_nat i) (rb_size rf)).
  unfold ring_slot. lia.
Qed.

Lemma length_contents : zlen (ringbuf_contents rf) = jlos_ringbuf_count rf.
Proof using Hwf.
  pose proof count_range. unfold ringbuf_contents.
  rewrite length_map, length_seq. lia.
Qed.

Lemma contents_lookup i :
  Z.of_nat i < jlos_ringbuf_count rf ->
  ringbuf_contents rf !! i = rb_buffer rf !! ring_slot rf i.
Proof using Hwf.
  intros Hi. unfold ringbuf_contents. rewrite list_lookup_fmap, lookup_seq_lt by lia.
  simpl. symmetry. apply list_lookup_lookup_total_lt, ring_slot_lt.
Qed.
End wf.

(** The slot of logical position [i], seen from the slot [off] of the write
    counter: positions before the count lie behind it, the others ahead. *)
Lemma ring_slot_from_in rf i :
  ringbuf_wf rf -> Z.of_nat i < rb_size rf ->
  let c := jlos_ringbuf_count rf in
  let off := rb_in rf `mod` rb_size rf in
  let t := if Z.of_nat i <? c then rb_size rf - c + Z.of_nat i else Z.of_nat i - c in
  Z.of_nat (ring_slot rf i) = (if off + t <? rb_size rf then off + t else off + t - rb_size rf).
Proof.
  intros Hwf Hi c off t. pose proof (size_pos _ Hwf). pose proof (count_range _ Hwf).
  unfold ring_slot. rewrite Z2Nat.id by (apply Z.mod_pos_bound; lia).
  unfold off. rewrite <- mod_add_small by (subst t c; zcases; lia).
  rewrite <- (Zplus_mod_idemp_l (rb_in rf)), in_mod_size, Zplus_mod_idemp_l by done.
  subst t c. zcases.
  - rewrite <- (Z_mod_plus_full (rb_out rf + Z.of_nat i) 1). f_equal. lia.
  - f_equal. lia.
Qed.

(** The array left by a write of the [n] bytes [d]. *)
Definition write_result (rf : ringbuf) (d : list Z) : list Z :=
  let off := Z.to_nat (rb_in rf `mod` rb_size rf) in
  let l := (Z.to_nat (rb_size rf) - off)%nat in
  if decide (l < length d)%nat
  then list_inserts 0 (drop l d) (list_inserts off (take l d) (rb_buffer rf))
  else list_inserts off d (rb_buffer rf).

Lemma length_write_result rf d : length (write_result rf d) = length (rb_buffer rf).
Proof. unfold write_result. case_decide; by rewrite !length_inserts. Qed.

Lemma write_result_slot rf d i :
  ringbuf_wf rf -> zlen d <= rb_size rf - jlos_ringbuf_count rf ->
  Z.of_nat i < rb_size rf ->
  let c := Z.to_nat (jlos_ringbuf_count rf) in
  write_result rf d !! ring_slot rf i
  = if decide (c <= i < c + length d)%nat then d !! (i - c)%nat
    else rb_buffer rf !! ring_slot rf i.
Proof.
  intros Hwf Hd Hi c. pose proof (size_pos _ Hwf). pose proof (count_range _ Hwf).
  pose proof (ring_slot_from_in rf i Hwf Hi) as Hs. simpl in Hs.
  pose proof (Z.mod_pos_bound (rb_in rf) (rb_size rf) ltac:(lia)) as Ho.
  pose proof (wf_buffer _ Hwf) as Hb.
  remember (rb_in rf `mod` rb_size rf) as off eqn:Eoff.
  unfold write_result. rewrite <- Eoff.
  subst c. zcases; repeat case_decide; try lia;
    rewrite ?(lookup_inserts_out (list_inserts _ _ _)), ?lookup_inserts_out
      by (rewrite ?length_take, ?length_drop; lia);
    try done.
  all: first
    [ rewrite lookup_inserts_in by (rewrite ?length_inserts, ?length_drop; lia);
      rewrite ?lookup_drop; f_equal; lia
    | rewrite lookup_inserts_in by (rewrite ?length_take; lia);
      rewrite lookup_take_lt by lia; f_equal; lia ].
Qed.

(** The clamped length of a write. *)
Lemma write_len_clamp rf len :
  ringbuf_wf rf -> 0 <= len ->
  (if jlos_ringbuf_free rf <? len then jlos_ringbuf_free rf else len)
  = Z.min len (rb_size rf - jlos_ringbuf_count rf).
Proof.
  intros Hwf Hl. pose proof (count_range _ Hwf). pose proof (size_pos _ Hwf).
  unfold jlos_ringbuf_free. rewrite u32_small by lia. zcases; lia.
Qed.

Lemma write_eval rf data len :
  ringbuf_wf rf -> 0 <= len <= zlen data ->
  let n := Z.min len (rb_size rf - jlos_ringbuf_count rf) in
  jlos_ringbuf_write rf data len
  = Some (RingBuf (write_result rf (take (Z.to_nat n) data)) (rb_size rf) (rb_mask rf)
            (u32 (rb_in rf + n)) (rb_out rf), n).
Proof.
  intros Hwf Hl n. pose proof (count_range _ Hwf). pose proof (size_pos _ Hwf).
  pose proof (wf_buffer _ Hwf).
  pose proof (Z.mod_pos_bound (rb_in rf) (rb_size rf) ltac:(lia)) as Ho.
  unfold jlos_ringbuf_write. rewrite write_len_clamp by (done || lia). fold n.
  rewrite land_mask_size by done. rewrite (u32_small (_ - _ `mod` _)) by lia.
  unfold write_result. rewrite length_take.
  zcases; case_decide; try lia; rewrite ?(u32_small (n - _)) by lia;
    rewrite !read_run_Some by lia; simpl;
    repeat (rewrite write_run_Some by (rewrite ?length_inserts, ?length_take, ?length_drop; lia);
            simpl); [|done].
  rewrite take_drop_commute, take_take. repeat f_equal; lia.
Qed.

(** Writing to a well-formed ring appends to its queue of bytes: for every
    state, data and requested length, [jlos_ringbuf_write] accesses no byte
    outside its arrays, takes [min len free] bytes, and the queue afterwards is
    the old one followed by exactly that prefix of the data. *)
Lemma write_spec rf data len :
  ringbuf_wf rf -> 0 <= len <= zlen data ->
  exists rf' n,
    jlos_ringbuf_write rf data len = Some (rf', n) /\
    n = Z.min len (rb_size rf - zlen (ringbuf_contents rf)) /\
    ringbuf_wf rf' /\ rb_size rf' = rb_size rf /\
    ringbuf_contents rf' = ringbuf_contents rf ++ take (Z.to_nat n) data.
Proof.
  intros Hwf Hl. pose proof (count_range _ Hwf). pose proof (size_pos _ Hwf).
  rewrite (write_eval rf data len Hwf Hl), (length_contents _ Hwf).
  set (n := Z.min len (rb_size rf - jlos_ringbuf_count rf)).
  set (d := take (Z.to_nat n) data).
  assert (length d = Z.to_nat n) as Hd by (subst d; rewrite length_take; lia).
  eexists _, _. split; [done|]. split; [done|].
  assert (jlos_ringbuf_count
    (RingBuf (write_result rf d) (rb_size rf) (rb_mask rf) (u32 (rb_in rf + n)) (rb_out rf))
    = jlos_ringbuf_count rf + n) as Hc.
  { unfold jlos_ringbuf_count at 1. simpl. wrap_simpl.
    replace (rb_in rf + n - rb_out rf) with (rb_in rf - rb_out rf + n) by lia.
    rewrite <- u32_add_l. fold (jlos_ringbuf_count rf). apply u32_small. lia. }
  assert (ringbuf_wf (RingBuf (write_result rf d) (rb_size rf) (rb_mask rf)
    (u32 (rb_in rf + n)) (rb_out rf))) as Hwf'.
  { destruct Hwf. split; simpl; auto with jlos.
    - by rewrite length_write_result.
    - rewrite Hc. lia. }
  split; [done|]. split; [done|]. apply list_eq. intros i.
  destruct (decide (Z.of_nat i < jlos_ringbuf_count rf + n)) as [Hi|Hi].
  - rewrite contents_lookup by (done || lia). simpl.
    change (ring_slot (RingBuf _ _ _ _ _) i) with (ring_slot rf i).
    rewrite write_result_slot by (done || lia).
    case_decide.
    + rewrite lookup_app_r; pose proof (length_contents _ Hwf); [f_equal; lia|lia].
    + rewrite lookup_app_l by (pose proof (length_contents _ Hwf); lia).
      by rewrite contents_lookup by (done || lia).
  - rewrite !lookup_ge_None_2; [done|..].
    + rewrite length_app. fold d. rewrite Hd. pose proof (length_contents _ Hwf). lia.
    + pose proof (length_contents _ Hwf'). lia.
Qed.

(** The bytes a peek of [n] copies out are the first [n] of the queue. *)
Lemma peek_eval rf len :
  ringbuf_wf rf -> 0 <= len ->
  let n := Z.min len (jlos_ringbuf_count rf) in
  jlos_ringbuf_peek rf len = Some (take (Z.to_nat n) (ringbuf_contents rf), n).
Proof.
  intros Hwf Hl n. pose proof (count_range _ Hwf). pose proof (size_pos _ Hwf).
  pose proof (wf_buffer _ Hwf).
  pose proof (Z.mod_pos_bound (rb_out rf) (rb_size rf) ltac:(lia)) as Ho.
  unfold jlos_ringbuf_peek.
  replace (if _ <? len then _ else len) with n by (subst n; zcases; lia).
  rewrite land_mask_size by done. rewrite (u32_small (_ - _ `mod` _)) by lia.
  assert (forall i, Z.of_nat i < n -> ringbuf_contents rf !! i
    = rb_buffer rf !! Z.to_nat (if rb_out rf `mod` rb_size rf + Z.of_nat i <? rb_size rf
        then rb_out rf `mod` rb_size rf + Z.of_nat i
        else rb_out rf `mod` rb_size rf + Z.of_nat i - rb_size rf)) as Hs.
  { intros i Hi. rewrite contents_lookup by (done || lia). unfold ring_slot.
    by rewrite mod_add_small by lia. }
  pose proof (length_contents _ Hwf) as Hlen.
  destruct (Z.ltb_spec (rb_size rf - rb_out rf `mod` rb_size rf) n);
    rewrite !read_run_Some by (rewrite ?u32_small by lia; lia); simpl; do 2 f_equal;
    apply list_eq; intros i;
    (destruct (decide (i < Z.to_nat n)%nat);
      [rewrite (lookup_take_lt (ringbuf_contents rf)), Hs by lia
      |rewrite (lookup_take_ge (ringbuf_contents rf)) by lia]).
  - destruct (decide (rb_out rf `mod` rb_size rf + Z.of_nat i < rb_size rf)).
    + rewrite lookup_app_l by (rewrite length_take, length_drop; lia).
      rewrite lookup_take_lt, lookup_drop by lia. zcases; [f_equal; lia|lia].
    + rewrite lookup_app_r by (rewrite length_take, length_drop; lia).
      rewrite length_take, length_drop, u32_small by lia.
      rewrite lookup_take_lt, lookup_drop by lia. zcases; [lia|f_equal; lia].
  - apply lookup_ge_None_2. rewrite length_app, !length_take, !length_drop, u32_small by lia. lia.
  - rewrite lookup_take_lt, lookup_drop by lia. zcases; [f_equal; lia|lia].
  - apply lookup_ge_None_2. rewrite length_take, length_drop. lia.
Qed.

(** Reading from a well-formed ring dequeues: [jlos_ringbuf_read] stays
    inside the array, returns the oldest [min len count] bytes of the queue in
    order, and leaves exactly the remaining ones. *)
Lemma read_spec rf len :
  ringbuf_wf rf -> 0 <= len ->
  exists rf' n,
    jlos_ringbuf_read rf len
      = Some (rf', take (Z.to_nat n) (ringbuf_contents rf), n) /\
    n = Z.min len (zlen (ringbuf_contents rf)) /\
    ringbuf_wf rf' /\
    ringbuf_contents rf' = drop (Z.to_nat n) (ringbuf_contents rf).
Proof.
  intros Hwf Hl. pose proof (count_range _ Hwf). pose proof (size_pos _ Hwf).
  unfold jlos_ringbuf_read. rewrite (peek_eval rf len Hwf Hl). simpl.
  rewrite (length_contents _ Hwf).
  set (n := Z.min len (jlos_ringbuf_count rf)).
  eexists _, _. split; [done|]. split; [done|].
  assert (jlos_ringbuf_count
    (RingBuf (rb_buffer rf) (rb_size rf) (rb_mask rf) (rb_in rf) (u32 (rb_out rf + n)))
    = jlos_ringbuf_count rf - n) as Hc.
  { unfold jlos_ringbuf_count at 1. simpl. wrap_simpl.
    replace (rb_in rf - (rb_out rf + n)) with (rb_in rf - rb_out rf - n) by lia.
    rewrite <- u32_sub_l. fold (jlos_ringbuf_count rf). apply u32_small. lia. }
  assert (ringbuf_wf (RingBuf (rb_buffer rf) (rb_size rf) (rb_mask rf) (rb_in rf)
    (u32 (rb_out rf + n)))) as Hwf'.
  { destruct Hwf. split; simpl; auto with jlos. rewrite Hc. lia. }
  split; [done|]. apply list_eq. intros i. rewrite lookup_drop.
  destruct (decide (Z.of_nat i < jlos_ringbuf_count rf - n)) as [Hi|Hi].
  - rewrite !contents_lookup by (done || lia). unfold ring_slot. simpl. f_equal. f_equal.
    rewrite <- Zplus_mod_idemp_l, (u32_mod_size rf Hwf), Zplus_mod_idemp_l. f_equal. lia.
  - pose proof (length_contents _ Hwf). pose proof (length_contents _ Hwf').
    rewrite !lookup_ge_None_2; [done|lia..].
Qed.

(** ** Concrete rings *)

(** A freshly initialised ring of any power-of-two size is a well-formed empty
    queue. *)
Lemma ringbuf_init_wf buffer k :
  0 <= k <= 31 -> zlen buffer = 2 ^ k ->
  ringbuf_wf (jlos_ringbuf_init buffer (2 ^ k)) /\
  ringbuf_contents (jlos_ringbuf_init buffer (2 ^ k)) = [].
Proof.
  intros Hk Hb. assert (2 ^ k <= 2 ^ 31) by (apply Z.pow_le_mono_r; lia).
  split; [|done]. split; simpl; [by exists k|rewrite u32_small; lia|done|lia..|].
  change (jlos_ringbuf_count _) with 0. simpl. lia.
Qed.

(** A well-formed ring implements a bounded queue of bytes, for every state,
    data and length, without an access outside its arrays.  A write takes
    [min len free] bytes and appends exactly that prefix of the data; a read takes
    [min len count] bytes, returns exactly that prefix of the queue and removes it.
    The counters may wrap around [2^32] at any point. *)
Theorem ringbuf_refines (rf : ringbuf) :
  ringbuf_wf rf ->
  (forall data len, 0 <= len <= zlen data ->
     exists rf' n, jlos_ringbuf_write rf data len = Some (rf', n) /\
       n = Z.min len (rb_size rf - zlen (ringbuf_contents rf)) /\
       ringbuf_wf rf' /\ rb_size rf' = rb_size rf /\
       ringbuf_contents rf' = ringbuf_contents rf ++ take (Z.to_nat n) data) /\
  (forall len, 0 <= len ->
     exists rf' n, jlos_ringbuf_read rf len = Some (rf', take (Z.to_nat n) (ringbuf_contents rf), n) /\
       n = Z.min len (zlen (ringbuf_contents rf)) /\
       ringbuf_wf rf' /\ ringbuf_contents rf' = drop (Z.to_nat n) (ringbuf_contents rf)).
Proof. intros Hwf. split; intros; [by apply write_spec|by apply read_spec]. Qed.

(** A ring of four bytes whose counters have wrapped around [2^32]. *)
Definition ring_wrapped : ringbuf := RingBuf [13; 14; 11; 12] 4 3 1 (2 ^ 32 - 2).

Lemma ring_wrapped_wf : ringbuf_wf ring_wrapped.
Proof. split; simpl; try lia; [by exists 2|vm_compute; discriminate]. Qed.

Lemma ringbuf_refines_witness :
  ringbuf_contents ring_wrapped = [11; 12; 13] /\
  (exists rf' n, jlos_ringbuf_write ring_wrapped [7; 8; 9] 3 = Some (rf', n) /\
     ringbuf_contents rf' = ringbuf_contents ring_wrapped ++ take (Z.to_nat n) [7; 8; 9]) /\
  (exists rf' n, jlos_ringbuf_read ring_wrapped 2 = Some (rf', take (Z.to_nat n) (ringbuf_contents ring_wrapped), n)).
Proof.
  split; [reflexivity|]. destruct (ringbuf_refines ring_wrapped ring_wrapped_wf) as [Hw Hr]. split.
  - destruct (Hw [7; 8; 9] 3) as (rf' & n & E & _ & _ & _ & E2); [simpl; lia|]. exists rf', n. split; [exact E|exact E2].
  - destruct (Hr 2) as (rf' & n & E & _); [lia|]. exists rf', n. exact E.
Defined.
