(* ===== verification/Bitmap.v ===== *)
(** * Bitmap ([dsa/bitmap.h], [dsa/bitmap.c]) and [jlos_popcount32]
    ([common/types.c])

    A bitmap is an array of 32-bit words with a bit count.  Array accesses use
    [geti] and [seti], whose [None] is an out-of-bounds access. *)
From S2P Require Import Prelude.

(** [jlos_bitmap_t] *)
Record bitmap := Bitmap {
  bm_bits : list Z;
  bm_count : Z;
  bm_words : Z;
}.

(** [popcount32] of [bitmap.c] and [jlos_popcount32] of [types.c] have the same
    body. *)
Definition jlos_popcount32 (x : Z) : Z :=
  let x := u32 (x - Z.land (Z.shiftr x 1) 0x55555555) in
  let x := u32 (Z.land x 0x33333333 + Z.land (Z.shiftr x 2) 0x33333333) in
  let x := Z.land (u32 (x + Z.shiftr x 4)) 0x0F0F0F0F in
  Z.shiftr (u32 (x * 0x01010101)) 24.

(** [__builtin_ctz] on a non-zero 32-bit operand (undefined on zero). *)
Fixpoint ctz_from (fuel : nat) (i x : Z) : option Z :=
  match fuel with
  | O => None
  | S fuel => if Z.testbit x i then Some i else ctz_from fuel (i + 1) x
  end.
Definition ctz32 (x : Z) : option Z := ctz_from 32 0 x.

Definition jlos_bitmap_init (bits : list Z) (count : Z) : bitmap :=
  Bitmap bits count (u32 (u32 (count + 32) - 1) `div` 32).

Definition jlos_bitmap_set (bm : bitmap) (i : Z) : option bitmap :=
  if i <? bm_count bm then
    w ← geti (bm_bits bm) (i `div` 32);
    bits ← seti (bm_bits bm) (i `div` 32) (Z.lor w (u32 (Z.shiftl 1 (i `mod` 32))));
    Some (Bitmap bits (bm_count bm) (bm_words bm))
  else Some bm.

Definition jlos_bitmap_clear (bm : bitmap) (i : Z) : option bitmap :=
  if i <? bm_count bm then
    w ← geti (bm_bits bm) (i `div` 32);
    bits ← seti (bm_bits bm) (i `div` 32)
             (Z.land w (not32 (u32 (Z.shiftl 1 (i `mod` 32)))));
    Some (Bitmap bits (bm_count bm) (bm_words bm))
  else Some bm.

(** The word index really is [i % JLOS_BITMAP_BITS_PER_WORD]. *)
Definition jlos_bitmap_test (bm : bitmap) (i : Z) : option bool :=
  if bm_count bm <=? i then Some false
  else
    w ← geti (bm_bits bm) (i `mod` 32);
    Some (negb (Z.land w (u32 (Z.shiftl 1 (i `mod` 32))) =? 0)).

(** [jlos_memset] over the first [words] words. *)
Definition jlos_bitmap_set_all (bm : bitmap) : option bitmap :=
  bits ← write_run (bm_bits bm) 0 (replicate (Z.to_nat (bm_words bm)) 0xFFFFFFFF);
  Some (Bitmap bits (bm_count bm) (bm_words bm)).
Definition jlos_bitmap_clear_all (bm : bitmap) : option bitmap :=
  bits ← write_run (bm_bits bm) 0 (replicate (Z.to_nat (bm_words bm)) 0);
  Some (Bitmap bits (bm_count bm) (bm_words bm)).

(** The loop over words shared by the two zero searches, from word [w]. *)
Fixpoint find_zero_from (fuel : nat) (bm : bitmap) (w : Z) : option Z :=
  match fuel with
  | O => None
  | S fuel =>
      if w <? bm_words bm then
        x ← geti (bm_bits bm) w;
        if negb (x =? 0xFFFFFFFF) then
          c ← ctz32 (not32 x);
          let bit := u32 (u32 (w * 32) + c) in
          if bit <? bm_count bm then Some bit else find_zero_from fuel bm (u32 (w + 1))
        else find_zero_from fuel bm (u32 (w + 1))
      else Some (bm_count bm)
  end.

Definition jlos_bitmap_find_first_zero (bm : bitmap) : option Z :=
  find_zero_from (S (Z.to_nat (bm_words bm))) bm 0.

Definition jlos_bitmap_find_next_zero (bm : bitmap) (start : Z) : option Z :=
  if bm_count bm <=? start then Some (bm_count bm)
  else
    let w := start `div` 32 in
    let bit_int_word := start `mod` 32 in
    let mask := not32 (u32 (u32 (Z.shiftl 1 bit_int_word) - 1)) in
    x ← geti (bm_bits bm) w;
    let masked := Z.land x mask in
    if negb (masked =? mask) then
      c ← ctz32 (not32 masked);
      let bit := u32 (u32 (w * 32) + c) in
      if bit <? bm_count bm then Some bit
      else find_zero_from (S (Z.to_nat (bm_words bm))) bm (u32 (w + 1))
    else find_zero_from (S (Z.to_nat (bm_words bm))) bm (u32 (w + 1)).

(** The bound of the loop really is [bm->count], not [bm->words]. *)
Fixpoint find_set_from (fuel : nat) (bm : bitmap) (w : Z) : option Z :=
  match fuel with
  | O => None
  | S fuel =>
      if w <? bm_count bm then
        x ← geti (bm_bits bm) w;
        if negb (x =? 0) then
          c ← ctz32 x;
          let bit := u32 (u32 (w * 32) + c) in
          if bit <? bm_count bm then Some bit else find_set_from fuel bm (u32 (w + 1))
        else find_set_from fuel bm (u32 (w + 1))
      else Some (bm_count bm)
  end.

Definition jlos_bitmap_find_first_set (bm : bitmap) : option Z :=
  find_set_from (S (Z.to_nat (bm_count bm))) bm 0.

Fixpoint count_set_from (fuel : nat) (bm : bitmap) (w total : Z) : option Z :=
  match fuel with
  | O => None
  | S fuel =>
      if w <? bm_words bm then
        x ← geti (bm_bits bm) w;
        count_set_from fuel bm (u32 (w + 1)) (u32 (total + jlos_popcount32 x))
      else Some total
  end.

Definition jlos_bitmap_count_set (bm : bitmap) : option Z :=
  count_set_from (S (Z.to_nat (bm_words bm))) bm 0 0.

(** ** Population count *)

(** Number of bits set among the low [n]. *)
Fixpoint pop (n : nat) (x : Z) : Z :=
  match n with
  | O => 0
  | S n => Z.b2z (Z.testbit x (Z.of_nat n)) + pop n x
  end.

Definition swar1 (m x : Z) : Z := x - Z.land (Z.shiftr x 1) m.
Definition swar2 (m x : Z) : Z := Z.land x m + Z.land (Z.shiftr x 2) m.
Definition swar3 (m x : Z) : Z := Z.land (x + Z.shiftr x 4) m.

Lemma pop_range n x : 0 <= pop n x <= Z.of_nat n.
Proof. induction n; simpl pop; [lia|]. destruct (Z.testbit _ _); simpl Z.b2z; lia. Qed.
Lemma pop_ext n x y :
  (forall i, 0 <= i < Z.of_nat n -> Z.testbit x i = Z.testbit y i) -> pop n x = pop n y.
Proof.
  induction n as [|n IH]; intros H; [done|]. cbn [pop].
  rewrite H by lia. rewrite IH; [done|]. intros. apply H. lia.
Qed.
Lemma pop_concat n a b : 0 <= a < 256 -> pop (8 + n) (a + 256 * b) = pop 8 a + pop n b.
Proof.
  intros Ha. induction n as [|n IH].
  - rewrite Nat.add_0_r, Z.add_0_r. apply pop_ext. intros i Hi.
    change 256 with (2 ^ 8). rewrite testbit_concat by lia. by zcases; [|lia].
  - change (8 + S n)%nat with (S (8 + n)). cbn [pop]. rewrite IH. change 256 with (2 ^ 8).
    rewrite (testbit_concat 8) by lia. zcases; [lia|].
    replace (Z.of_nat (8 + n) - 8) with (Z.of_nat n) by lia. cbn [pop]. lia.
Qed.

Lemma shiftr_concat a b k : 0 <= a < 256 -> 0 <= k <= 8 ->
  Z.shiftr (a + 256 * b) k = (Z.shiftr a k + 2 ^ (8 - k) * (b `mod` 2 ^ k)) + 256 * Z.shiftr b k.
Proof.
  intros Ha Hk. rewrite !Z.shiftr_div_pow2 by lia.
  assert (256 = 2 ^ k * 2 ^ (8 - k)) as E by (rewrite <- Z.pow_add_r by lia; rewrite Zplus_minus; done).
  rewrite (Z.div_mod b (2 ^ k)) at 1 by lia.
  replace (a + 256 * (2 ^ k * (b `div` 2 ^ k) + b `mod` 2 ^ k))
    with (a + (2 ^ (8-k) * (b `mod` 2 ^ k) + 256 * (b `div` 2 ^ k)) * 2 ^ k) by (rewrite E; ring).
  rewrite Z.div_add by lia. lia.
Qed.
Lemma swar1_concat m a b : 0 <= a < 256 ->
  swar1 (0x55 + 256 * m) (a + 256 * b) = swar1 0x55 a + 256 * swar1 m b.
Proof.
  intros Ha. unfold swar1. rewrite shiftr_concat by lia. change (2 ^ 1) with 2.
  change 256 with (2^8). pose proof (Z.mod_pos_bound b 2).
  assert (0 <= Z.shiftr a 1 < 128) by (rewrite Z.shiftr_div_pow2 by lia; zmod).
  rewrite land_concat by (change (2^(8-1)) with 128; lia).
  assert (forall t, 0 <= t < 2 -> Z.land (Z.shiftr a 1 + 2 ^ (8-1) * t) 0x55 = Z.land (Z.shiftr a 1) 0x55) as ->; [|lia..].
  intros t Ht. change (0x55) with (0x55 + 2 ^ (8-1) * 0) at 1. rewrite land_concat by lia. rewrite Z.land_0_r. lia.
Qed.
Lemma swar2_concat m a b : 0 <= a < 256 ->
  swar2 (0x33 + 256 * m) (a + 256 * b) = swar2 0x33 a + 256 * swar2 m b.
Proof.
  intros Ha. unfold swar2. rewrite shiftr_concat by lia. change (2 ^ 2) with 4.
  change 256 with (2^8). pose proof (Z.mod_pos_bound b 4).
  assert (0 <= Z.shiftr a 2 < 64) by (rewrite Z.shiftr_div_pow2 by lia; zmod).
  rewrite !land_concat by (change (2^(8-2)) with 64; lia).
  assert (Z.land (Z.shiftr a 2 + 2 ^ (8-2) * (b `mod` 4)) 0x33 = Z.land (Z.shiftr a 2) 0x33) as ->; [|lia].
  change (0x33) with (0x33 + 2 ^ (8-2) * 0) at 1. rewrite land_concat by lia. rewrite Z.land_0_r. lia.
Qed.
Lemma swar3_concat m a b : 0 <= a <= 0x44 -> 0 <= b `mod` 16 <= 4 ->
  swar3 (0x0F + 256 * m) (a + 256 * b) = swar3 0x0F a + 256 * swar3 m b.
Proof.
  intros Ha Hb. unfold swar3. rewrite shiftr_concat by lia.
  assert (0 <= Z.shiftr a 4 <= 4) by (rewrite Z.shiftr_div_pow2 by lia; zmod).
  change (2 ^ (8 - 4)) with 16. change (2 ^ 4) with 16.
  replace (a + 256 * b + (Z.shiftr a 4 + 16 * (b `mod` 16) + 256 * Z.shiftr b 4))
    with ((a + Z.shiftr a 4 + 16 * (b `mod` 16)) + 2 ^ 8 * (b + Z.shiftr b 4)) by lia.
  change 256 with (2 ^ 8). rewrite land_concat by lia. f_equal.
  change 15 with (2 ^ 4 - 1). rewrite !land_mask by lia. change (2 ^ 4) with 16.
  rewrite Z.mul_comm. by rewrite Z_mod_plus_full.
Qed.
Lemma swar_byte a : 0 <= a < 256 ->
  0 <= swar1 0x55 a < 256 /\ 0 <= swar2 0x33 (swar1 0x55 a) <= 0x44 /\
  swar2 0x33 (swar1 0x55 a) `mod` 16 <= 4 /\
  swar3 0x0F (swar2 0x33 (swar1 0x55 a)) = pop 8 a.
Proof.
  revert a. apply (byte_ind (fun a =>
    0 <= swar1 0x55 a < 256 /\ 0 <= swar2 0x33 (swar1 0x55 a) <= 0x44 /\
    swar2 0x33 (swar1 0x55 a) `mod` 16 <= 4 /\
    swar3 0x0F (swar2 0x33 (swar1 0x55 a)) = pop 8 a)).
  vm_compute. reflexivity.
Qed.
(** Multiplying by [0x01010101] gathers the four byte counts in the top byte. *)
Lemma bytes_sum p0 p1 p2 p3 :
  0 <= p0 <= 8 -> 0 <= p1 <= 8 -> 0 <= p2 <= 8 -> 0 <= p3 <= 8 ->
  u32 ((p0 + 256 * (p1 + 256 * (p2 + 256 * p3))) * 0x01010101) `div` 2 ^ 24
  = p0 + (p1 + (p2 + p3)).
Proof.
  intros. unfold u32, wrap.
  rewrite <- (Z.mod_unique_pos _ _ (p1 + p2 + p3 + 256 * (p2 + p3) + 65536 * p3)
    ((p0 + p1 + p2 + p3) * 2 ^ 24 + (p0 + (p0 + p1) * 256 + (p0 + p1 + p2) * 65536))) by lia.
  symmetry. apply Z.div_unique_pos with (p0 + (p0 + p1) * 256 + (p0 + p1 + p2) * 65536); lia.
Qed.

(** [jlos_popcount32] counts the set bits of every 32-bit word. *)
Lemma popcount32_correct x : 0 <= x < 2 ^ 32 -> jlos_popcount32 x = pop 32 x.
Proof.
  intros Hx.
  assert (exists a0 a1 a2 a3, 0 <= a0 < 256 /\ 0 <= a1 < 256 /\ 0 <= a2 < 256 /\ 0 <= a3 < 256 /\
    x = a0 + 256 * (a1 + 256 * (a2 + 256 * a3))) as (a0 & a1 & a2 & a3 & H0 & H1 & H2 & H3 & Hx').
  { exists (x `mod` 256), ((x `div` 256) `mod` 256), ((x `div` 65536) `mod` 256), (x `div` 16777216).
    clear - Hx. Z.div_mod_to_equations. lia. }
  destruct (swar_byte a0 H0) as (? & ? & ? & E0). destruct (swar_byte a1 H1) as (? & ? & ? & E1).
  destruct (swar_byte a2 H2) as (? & ? & ? & E2). destruct (swar_byte a3 H3) as (? & ? & ? & E3).
  pose proof (pop_range 8 a0). pose proof (pop_range 8 a1).
  pose proof (pop_range 8 a2). pose proof (pop_range 8 a3).
  assert (forall y1 y2, u32 (swar1 (0x55 + 256 * (0x55 + 256 * (0x55 + 256 * 0x55))) x) = y1 ->
    u32 (swar2 (0x33 + 256 * (0x33 + 256 * (0x33 + 256 * 0x33))) y1) = y2 ->
    0 <= y2 + Z.shiftr y2 4 < 2 ^ 32 ->
    jlos_popcount32 x = Z.shiftr (u32 (swar3 (0x0F + 256 * (0x0F + 256 * (0x0F + 256 * 0x0F))) y2
                                   * 0x01010101)) 24) as Hp.
  { intros y1 y2 <- <- Hy. unfold swar3. by rewrite <- (u32_small _ Hy). }
  remember (swar2 0x33 (swar1 0x55 a0)) as t0 eqn:T0.
  remember (swar2 0x33 (swar1 0x55 a1)) as t1 eqn:T1.
  remember (swar2 0x33 (swar1 0x55 a2)) as t2 eqn:T2.
  remember (swar2 0x33 (swar1 0x55 a3)) as t3 eqn:T3.
  rewrite (Hp (swar1 0x55 a0 + 256 * (swar1 0x55 a1 + 256 * (swar1 0x55 a2 + 256 * swar1 0x55 a3)))
              (t0 + 256 * (t1 + 256 * (t2 + 256 * t3)))); clear Hp.
  - rewrite swar3_concat, swar3_concat, swar3_concat by zmod. rewrite E0, E1, E2, E3, Hx'.
    change 32%nat with (8 + (8 + (8 + 8)))%nat. rewrite 3!pop_concat by lia.
    rewrite Z.shiftr_div_pow2 by lia. apply bytes_sum; lia.
  - rewrite Hx', 3!swar1_concat by lia. apply u32_small. lia.
  - rewrite 3!swar2_concat by lia. rewrite <- T0, <- T1, <- T2, <- T3.
    apply u32_small. lia.
  - rewrite Z.shiftr_div_pow2 by lia.
    match goal with |- 0 <= ?y + _ < _ => assert (0 <= y <= 0x44444444) as Hy by lia; revert Hy;
      generalize y end.
    clear. intros. zmod.
Qed.

(** ** The bitmap as a set of bits *)

(** Bit [j] of the word array. *)
Definition bit (bm : bitmap) (j : Z) : bool :=
  match bm_bits bm !! Z.to_nat (j `div` 32) with
  | Some w => Z.testbit w (j `mod` 32)
  | None => false
  end.

Record bitmap_wf (bm : bitmap) : Prop := {
  bwf_count : 0 <= bm_count bm <= 2 ^ 32 - 32;
  bwf_words : bm_words bm = ceil_div (bm_count bm) 32;
  bwf_bits : bm_words bm <= zlen (bm_bits bm);
  bwf_word : Forall (fun w => 0 <= w < 2 ^ 32) (bm_bits bm);
}.

Lemma bitmap_init_wf bits count :
  0 <= count <= 2 ^ 32 - 32 -> ceil_div count 32 <= zlen bits ->
  Forall (fun w => 0 <= w < 2 ^ 32) bits -> bitmap_wf (jlos_bitmap_init bits count).
Proof.
  intros Hc Hb Hw.
  assert (bm_words (jlos_bitmap_init bits count) = ceil_div count 32) as E.
  { unfold jlos_bitmap_init, ceil_div. simpl.
    rewrite u32_sub_l, u32_small by lia. done. }
  split; [done|done| |done]. by rewrite E.
Qed.

Lemma ctz_from_spec fuel i x c :
  ctz_from fuel i x = Some c ->
  i <= c < i + Z.of_nat fuel /\ Z.testbit x c = true /\
  forall j, i <= j < c -> Z.testbit x j = false.
Proof.
  revert i. induction fuel as [|fuel IH]; intros i H; [done|]. simpl in H.
  destruct (Z.testbit x i) eqn:E; simplify_eq.
  - split; [lia|]. split; [done|]. lia.
  - apply IH in H as (? & ? & Hj). split; [lia|]. split; [done|].
    intros j ?. destruct (decide (j = i)) as [->|]; [done|]. apply Hj. lia.
Qed.

Lemma ctz_from_None fuel i x :
  ctz_from fuel i x = None -> forall j, i <= j < i + Z.of_nat fuel -> Z.testbit x j = false.
Proof.
  revert i. induction fuel as [|fuel IH]; intros i H j Hj; [lia|]. simpl in H.
  destruct (Z.testbit x i) eqn:E; [done|].
  destruct (decide (j = i)) as [->|]; [done|]. apply (IH (i + 1)); [done|lia].
Qed.

(** [__builtin_ctz] is defined on every non-zero word and finds its lowest bit. *)
Lemma ctz32_spec x :
  0 < x < 2 ^ 32 -> exists c, ctz32 x = Some c /\ 0 <= c < 32 /\
    Z.testbit x c = true /\ forall j, 0 <= j < c -> Z.testbit x j = false.
Proof.
  intros Hx. unfold ctz32. destruct (ctz_from 32 0 x) as [c|] eqn:E.
  - exists c. apply ctz_from_spec in E as (? & ? & ?). split_and!; (done || lia).
  - exfalso. assert (x = 0); [|lia]. apply Z.bits_inj_0. intros j.
    destruct (Z.ltb_spec j 0); [by apply Z.testbit_neg_r|].
    destruct (Z.ltb_spec j 32); [apply (ctz_from_None _ _ _ E); lia|].
    apply (testbit_above 32); lia.
Qed.

Lemma not32_spec x i : 0 <= i < 32 -> Z.testbit (not32 x) i = negb (Z.testbit x i).
Proof.
  intros Hi. unfold not32, u32, wrap. rewrite Z.mod_pow2_bits_low by lia.
  apply Z.lnot_spec. lia.
Qed.

Lemma not32_pos x : 0 <= x < 2 ^ 32 -> x <> 0xFFFFFFFF -> 0 < not32 x < 2 ^ 32.
Proof.
  intros Hx Hn. pose proof (u32_range (Z.lnot x)).
  unfold not32 in *. assert (u32 (Z.lnot x) = 2 ^ 32 - 1 - x); [|lia].
  unfold u32, wrap, Z.lnot. symmetry. apply Z.mod_unique_pos with (-1); lia.
Qed.

Lemma bit_word bm w x j :
  bm_bits bm !! Z.to_nat w = Some x -> 0 <= w -> w * 32 <= j < (w + 1) * 32 ->
  bit bm j = Z.testbit x (j - w * 32).
Proof.
  intros Hx Hw Hj. unfold bit.
  replace (j `div` 32) with w by zmod. rewrite Hx. f_equal. zmod.
Qed.

(** The lowest clear bit below the bit count, or the count when there is none. *)
Definition least_zero (bm : bitmap) (i : Z) : Prop :=
  0 <= i <= bm_count bm /\ (forall j, 0 <= j < i -> bit bm j = true) /\
  (i < bm_count bm -> bit bm i = false).

Lemma find_zero_from_spec fuel bm w :
  bitmap_wf bm -> 0 <= w <= bm_words bm -> (Z.to_nat (bm_words bm - w) < fuel)%nat ->
  (forall j, 0 <= j < Z.min (w * 32) (bm_count bm) -> bit bm j = true) ->
  exists i, find_zero_from fuel bm w = Some i /\ least_zero bm i.
Proof.
  intros Hwf. pose proof (bwf_count _ Hwf). pose proof (bwf_bits _ Hwf).
  pose proof (bwf_words _ Hwf) as Ew.
  revert w. induction fuel as [|fuel IH]; intros w Hw Hf Hset; [lia|]. simpl.
  destruct (Z.ltb_spec w (bm_words bm)) as [Hlt|Hge].
  2:{ exists (bm_count bm). split; [done|]. split; [lia|]. split; [|lia].
      intros j Hj. apply Hset. zmod. }
  assert (u32 (w + 1) = w + 1) as -> by (apply u32_small; zmod).
  destruct (geti_Some (bm_bits bm) w) as (x & -> & Hx); [lia|]. simpl.
  assert (0 <= x < 2 ^ 32) as Hxr.
  { pose proof (bwf_word _ Hwf) as HF. rewrite Forall_lookup in HF. eauto. }
  destruct (Z.eqb_spec x 0xFFFFFFFF) as [->|Hne]; simpl.
  - apply IH; [lia..|]. intros j Hj. destruct (decide (j < w * 32)); [apply Hset; lia|].
    rewrite (bit_word _ _ _ _ Hx) by lia.
    change 0xFFFFFFFF with (Z.ones 32). apply Z.ones_spec_low. lia.
  - destruct (ctz32_spec (not32 x)) as (c & -> & Hc & Hbit & Hlow).
    { by apply not32_pos. }
    simpl. rewrite not32_spec in Hbit by lia. apply negb_true_iff in Hbit.
    assert (forall j, w * 32 <= j < w * 32 + c -> bit bm j = true) as Hw32.
    { intros j Hj. rewrite (bit_word _ _ _ _ Hx) by lia. specialize (Hlow (j - w * 32)).
      rewrite not32_spec in Hlow by lia. apply negb_false_iff, Hlow. lia. }
    rewrite (u32_small (w * 32)) by zmod. rewrite u32_small by zmod.
    destruct (Z.ltb_spec (w * 32 + c) (bm_count bm)).
    + exists (w * 32 + c). split; [done|]. split; [lia|]. split.
      * intros j Hj. destruct (decide (j < w * 32)); [apply Hset; lia|apply Hw32; lia].
      * intros _. rewrite (bit_word _ _ _ _ Hx) by lia.
        by replace (w * 32 + c - w * 32) with c by lia.
    + apply IH; [lia..|]. intros j Hj.
      destruct (decide (j < w * 32)); [apply Hset; lia|apply Hw32; lia].
Qed.

(** [jlos_bitmap_find_first_zero] terminates inside the word array and
    returns the least clear bit below the bit count, or the count when every
    such bit is set. *)
Theorem find_first_zero_least bm :
  bitmap_wf bm -> exists i, jlos_bitmap_find_first_zero bm = Some i /\ least_zero bm i.
Proof.
  intros Hwf. pose proof (bwf_count _ Hwf). pose proof (bwf_words _ Hwf) as E.
  apply find_zero_from_spec; [done|zmod|lia|lia].
Qed.

Lemma testbit_pow2 i j : 0 <= i < 32 -> Z.testbit (u32 (Z.shiftl 1 i)) j = bool_decide (i = j).
Proof.
  intros Hi. rewrite Z.shiftl_1_l, u32_small.
  - rewrite Z.pow2_bits_eqb by lia. by destruct (Z.eqb_spec i j); case_bool_decide.
  - split; [lia|]. apply Z.pow_lt_mono_r; lia.
Qed.

(** Replacing one word changes the bits of that word only. *)
Lemma bit_set_word bm w x y j :
  bm_bits bm !! Z.to_nat w = Some x -> 0 <= w -> 0 <= j ->
  bit (Bitmap (<[Z.to_nat w := y]> (bm_bits bm)) (bm_count bm) (bm_words bm)) j
  = if j `div` 32 =? w then Z.testbit y (j `mod` 32) else bit bm j.
Proof.
  intros Hx Hw Hj. unfold bit. simpl. destruct (Z.eqb_spec (j `div` 32) w) as [->|Hne].
  - rewrite list_lookup_insert_eq; [done|]. by apply lookup_lt_Some in Hx.
  - rewrite list_lookup_insert_ne; [done|]. zmod.
Qed.

(** Setting or clearing bit [i] of a well-formed bitmap changes that bit and
    no other when [i] is below the bit count, and nothing otherwise; no word
    outside the array is accessed. *)
Lemma bitmap_set_clear bm i :
  bitmap_wf bm -> 0 <= i ->
  exists bs bc,
    jlos_bitmap_set bm i = Some bs /\ jlos_bitmap_clear bm i = Some bc /\
    forall j, 0 <= j ->
      bit bs j = (if (i =? j) && (i <? bm_count bm) then true else bit bm j) /\
      bit bc j = (if (i =? j) && (i <? bm_count bm) then false else bit bm j).
Proof.
  intros Hwf Hi. pose proof (bwf_count _ Hwf). pose proof (bwf_words _ Hwf) as Ew.
  pose proof (bwf_bits _ Hwf). unfold jlos_bitmap_set, jlos_bitmap_clear.
  destruct (Z.ltb_spec i (bm_count bm)) as [Hlt|Hge].
  2:{ exists bm, bm. split_and!; [done..|]. intros j Hj. by rewrite andb_false_r. }
  destruct (geti_Some (bm_bits bm) (i `div` 32)) as (x & -> & Hx); [zmod|]. simpl.
  rewrite !seti_Some by zmod. simpl. eexists _, _. split_and!; [done..|].
  intros j Hj. rewrite andb_true_r.
  rewrite !(bit_set_word bm (i `div` 32) x) by (done || zmod).
  assert (bit bm j = Z.testbit x (j `mod` 32) \/ j `div` 32 <> i `div` 32) as Hb.
  { destruct (decide (j `div` 32 = i `div` 32)) as [E|]; [left|by right].
    unfold bit. by rewrite E, Hx. }
  rewrite Z.lor_spec, Z.land_spec, not32_spec, testbit_pow2 by zmod.
  destruct (Z.eqb_spec (j `div` 32) (i `div` 32)) as [E|E];
    destruct (Z.eqb_spec i j) as [->|Hij]; try congruence.
  - rewrite bool_decide_true by done. by rewrite orb_true_r, andb_false_r.
  - rewrite bool_decide_false by zmod. rewrite orb_false_r, andb_true_r.
    destruct Hb as [->|]; [done|congruence].
  - done.
Qed.

(** ** Concrete bitmaps *)

(** 40 bits over two words; bits 0 to 33 set. *)
Definition bitmap40 : bitmap := jlos_bitmap_init [0xFFFFFFFF; 3] 40.

Lemma bitmap40_wf : bitmap_wf bitmap40.
Proof.
  apply bitmap_init_wf; [lia|vm_compute; discriminate|].
  repeat constructor; lia.
Qed.

Lemma find_first_zero_least_witness :
  exists i, jlos_bitmap_find_first_zero bitmap40 = Some i /\ least_zero bitmap40 i.
Proof. apply (find_first_zero_least bitmap40 bitmap40_wf). Defined.

(** [jlos_bitmap_test] indexes the word array with [i % 32]: bit 2 of this map
    is clear and the function reports it as set. *)
Example bitmap_test_wrong_word :
  bit (jlos_bitmap_init [0; 0; 0xFFFFFFFF] 96) 2 = false /\
  jlos_bitmap_test (jlos_bitmap_init [0; 0; 0xFFFFFFFF] 96) 2 = Some true.
Proof. split; reflexivity. Qed.

(** [jlos_bitmap_find_next_zero] counts the masked-off low bits as clear: asked
    for a clear bit from 3 on, it returns bit 0, which is set. *)
Example find_next_zero_before_start :
  bit (jlos_bitmap_init [0xFFFFFFDF] 32) 0 = true /\
  bit (jlos_bitmap_init [0xFFFFFFDF] 32) 5 = false /\
  jlos_bitmap_find_next_zero (jlos_bitmap_init [0xFFFFFFDF] 32) 3 = Some 0.
Proof. split_and!; reflexivity. Qed.

(** [jlos_bitmap_find_first_set] walks [count] words instead of [words]: on an
    empty 64-bit map it reads past the two words of the array. *)
Example find_first_set_out_of_bounds :
  jlos_bitmap_find_first_set (jlos_bitmap_init [0; 0] 64) = None.
Proof. reflexivity. Qed.

(** [jlos_bitmap_count_set] also counts the padding bits of the last word. *)
Example count_set_padding :
  (bm ← jlos_bitmap_set_all (jlos_bitmap_init [0] 5); jlos_bitmap_count_set bm) = Some 32.
Proof. reflexivity. Qed.
