(* ===== verification/UDiv.v ===== *)
(** * 64-bit unsigned division ([common/lib/udivdi3.c])

    The compiler runtime of the 32-bit builds: shift-and-subtract division.
    Both loops carry fuel; [None] is running out of it, and the correctness
    theorem shows that 65 rounds are always enough. *)
From S2P Require Import Prelude.

(** [while (divisor < dividend && !(divisor & 0x8000000000000000ULL))] *)
Fixpoint udiv_normalize (fuel : nat) (dividend divisor bit : Z) : option (Z * Z) :=
  match fuel with
  | O => None
  | S fuel =>
      if (divisor <? dividend) && (Z.land divisor 0x8000000000000000 =? 0)
      then udiv_normalize fuel dividend (u64 (Z.shiftl divisor 1)) (u64 (Z.shiftl bit 1))
      else Some (divisor, bit)
  end.

(** [while (bit != 0)]: the quotient and what is left of the dividend. *)
Fixpoint udiv_subtract (fuel : nat) (dividend divisor bit quotient : Z) : option (Z * Z) :=
  match fuel with
  | O => None
  | S fuel =>
      if bit =? 0 then Some (quotient, dividend)
      else
        let '(dividend, quotient) :=
          if divisor <=? dividend then (u64 (dividend - divisor), Z.lor quotient bit)
          else (dividend, quotient) in
        udiv_subtract fuel dividend (Z.shiftr divisor 1) (Z.shiftr bit 1) quotient
  end.

Definition udivdi3_generic (dividend divisor : Z) : option Z :=
  if divisor =? 0 then Some 0
  else
    '(divisor, bit) ← udiv_normalize 65 dividend divisor 1;
    '(quotient, _) ← udiv_subtract 65 dividend divisor bit 0;
    Some quotient.

(** Returns the quotient and the value stored through [remainder], which is
    only written when the pointer is not null. *)
Definition udivmoddi4_generic (dividend divisor : Z) (remainder : bool)
  : option (Z * option Z) :=
  if divisor =? 0 then Some (0, if remainder then Some 0 else None)
  else
    '(divisor, bit) ← udiv_normalize 65 dividend divisor 1;
    '(quotient, dividend) ← udiv_subtract 65 dividend divisor bit 0;
    Some (quotient, if remainder then Some dividend else None).

(** ** Correctness *)

Lemma top_bit_clear x : 0 <= x < 2 ^ 64 -> (Z.land x 0x8000000000000000 =? 0) = (x <? 2 ^ 63).
Proof.
  intros Hx. change 0x8000000000000000 with (2 ^ 63).
  assert (Z.land x (2 ^ 63) = if x <? 2 ^ 63 then 0 else 2 ^ 63) as ->.
  2:{ by destruct (x <? 2 ^ 63). }
  apply Z.bits_inj'. intros i Hi. rewrite Z.land_spec, Z.pow2_bits_eqb by lia.
  destruct (Z.eqb_spec 63 i) as [<-|Hne].
  - rewrite andb_true_r, Z.testbit_eqb by lia. zcases; try reflexivity; exfalso; zmod.
  - rewrite andb_false_r. destruct (x <? 2 ^ 63); [by rewrite Z.testbit_0_l|].
    rewrite Z.pow2_bits_eqb by lia. by destruct (Z.eqb_spec 63 i).
Qed.

Lemma normalize_spec fuel n d k :
  0 <= n < 2 ^ 64 -> 0 < d -> 0 <= k -> d * 2 ^ k < 2 ^ 64 -> 64 - k < Z.of_nat fuel ->
  exists k', k <= k' <= 63 /\
    udiv_normalize fuel n (d * 2 ^ k) (2 ^ k) = Some (d * 2 ^ k', 2 ^ k') /\
    d * 2 ^ k' < 2 ^ 64 /\ n < 2 * (d * 2 ^ k').
Proof.
  intros Hn Hd. revert k. induction fuel as [|fuel IH]; intros k Hk Hlt Hf;
    (assert (k <= 63);
      [apply Z.nlt_ge; intros Hk63;
       assert (2 ^ 64 <= 2 ^ k) by (apply Z.pow_le_mono_r; lia); nia|]); [lia|].
  assert (0 < d * 2 ^ k) by nia.
  cbn [udiv_normalize]. rewrite top_bit_clear by lia.
  destruct (Z.ltb_spec (d * 2 ^ k) n); destruct (Z.ltb_spec (d * 2 ^ k) (2 ^ 63)); simpl;
    try (exists k; split_and!; (done || lia)).
  assert (k < 63).
  { apply Z.nle_gt. intros Hk63. assert (2 ^ 63 <= 2 ^ k) by (apply Z.pow_le_mono_r; lia). nia. }
  assert (2 ^ (k + 1) = 2 * 2 ^ k) as E by (rewrite Z.pow_add_r; lia).
  assert (2 ^ (k + 1) <= 2 ^ 63) by (apply Z.pow_le_mono_r; lia).
  rewrite !Z.shiftl_mul_pow2 by lia. rewrite !u64_small by lia.
  destruct (IH (k + 1)) as (k' & ? & IHeq & ? & ?); [lia..|].
  exists k'. split; [lia|]. split; [|done]. rewrite <- IHeq. f_equal; lia.
Qed.

Lemma lor_disjoint q k : 0 <= q -> 0 <= k -> Z.lor (q * 2 ^ (k + 1)) (2 ^ k) = q * 2 ^ (k + 1) + 2 ^ k.
Proof.
  intros Hq Hk. pose proof (Z.add_lor_land (q * 2 ^ (k + 1)) (2 ^ k)).
  enough (Z.land (q * 2 ^ (k + 1)) (2 ^ k) = 0) by lia.
   apply Z.bits_inj_0. intros i. rewrite Z.land_spec, Z.pow2_bits_eqb by lia.
  destruct (Z.eqb_spec k i) as [<-|]; [|by rewrite andb_false_r].
  by rewrite Z.mul_pow2_bits_low by lia.
Qed.

Lemma subtract_spec (k : nat) : forall fuel n d q r,
  0 < d -> 0 <= q -> 0 <= r < 2 * (d * 2 ^ Z.of_nat k) -> 0 <= r < 2 ^ 64 ->
  n = d * (q * 2 ^ (Z.of_nat k + 1)) + r -> (k + 1 < fuel)%nat ->
  udiv_subtract fuel r (d * 2 ^ Z.of_nat k) (2 ^ Z.of_nat k) (q * 2 ^ (Z.of_nat k + 1))
  = Some (n `div` d, n `mod` d).
Proof.
  induction k as [|k IH]; intros fuel n d q r Hd Hq Hr Hr64 Hn Hf;
    (destruct fuel as [|fuel]; [lia|]); cbn [udiv_subtract].
  - change (Z.of_nat 0) with 0 in *. rewrite Z.pow_0_r, Z.mul_1_r in *.
    change (1 =? 0) with false. cbn iota. change (0 + 1) with 1 in *.
    change (Z.shiftr 1 1) with 0. destruct fuel as [|fuel]; [lia|].
    change 1 with (2 ^ 0) at 2. change 1 with (0 + 1) at 1. rewrite lor_disjoint by lia.
    destruct (Z.leb_spec d r); cbn [udiv_subtract Z.eqb]; do 2 f_equal.
    + apply Z.div_unique_pos with (r - d); lia.
    + rewrite u64_small by lia. apply Z.mod_unique_pos with (q * 2 ^ 1 + 1); lia.
    + apply Z.div_unique_pos with r; lia.
    + apply Z.mod_unique_pos with (q * 2 ^ 1); lia.
  - replace (Z.of_nat (S k)) with (Z.of_nat k + 1) in * by lia.
    assert (2 ^ (Z.of_nat k + 1) = 2 * 2 ^ Z.of_nat k) as E by (rewrite Z.pow_add_r; lia).
    assert (2 ^ (Z.of_nat k + 1 + 1) = 2 * 2 ^ (Z.of_nat k + 1)) as E2 by (rewrite Z.pow_add_r; lia).
    destruct (Z.eqb_spec (2 ^ (Z.of_nat k + 1)) 0); [lia|].
    rewrite lor_disjoint by lia. rewrite !Z.shiftr_div_pow2 by lia.
    replace (d * 2 ^ (Z.of_nat k + 1)) with (d * 2 ^ Z.of_nat k * 2 ^ 1) by lia.
    replace (2 ^ (Z.of_nat k + 1) `div` 2 ^ 1) with (2 ^ Z.of_nat k)
      by (rewrite E, Z.mul_comm; symmetry; by apply Z.div_mul).
    rewrite Z.div_mul by lia.
    destruct (Z.leb_spec (d * 2 ^ Z.of_nat k * 2 ^ 1) r).
    + rewrite u64_small by lia.
      replace (q * 2 ^ (Z.of_nat k + 1 + 1) + 2 ^ (Z.of_nat k + 1))
        with ((2 * q + 1) * 2 ^ (Z.of_nat k + 1)) by lia.
      apply IH; lia.
    + replace (q * 2 ^ (Z.of_nat k + 1 + 1)) with (2 * q * 2 ^ (Z.of_nat k + 1)) by lia.
      apply IH; lia.
Qed.

Lemma udiv_loops n d :
  0 <= n < 2 ^ 64 -> 0 < d < 2 ^ 64 ->
  exists D b, udiv_normalize 65 n d 1 = Some (D, b) /\
              udiv_subtract 65 n D b 0 = Some (n `div` d, n `mod` d).
Proof.
  intros Hn Hd. destruct (normalize_spec 65 n d 0) as (k & Hk & E & ? & ?); [lia..|].
  rewrite Z.pow_0_r, Z.mul_1_r in E. eexists _, _. split; [exact E|].
  pose proof (subtract_spec (Z.to_nat k) 65 n d 0 n) as Hs.
  rewrite Z2Nat.id in Hs by lia. apply Hs; lia.
Qed.

(** C33. The shift-and-subtract division is exact on the whole 64-bit range: it
    terminates and returns the true quotient and remainder, with quotient and
    remainder 0 for a zero divisor, and the two entry points agree. *)
Theorem udivmod_correct n d :
  0 <= n < 2 ^ 64 -> 0 <= d < 2 ^ 64 ->
  udivmoddi4_generic n d true
    = Some (if d =? 0 then 0 else n `div` d, Some (if d =? 0 then 0 else n `mod` d)) /\
  udivmoddi4_generic n d false = Some (if d =? 0 then 0 else n `div` d, None) /\
  udivdi3_generic n d = Some (if d =? 0 then 0 else n `div` d).
Proof.
  intros Hn Hd. unfold udivmoddi4_generic, udivdi3_generic.
  destruct (Z.eqb_spec d 0); [done|].
  destruct (udiv_loops n d) as (D & b & -> & E); [lia..|].
  cbn [mbind option_bind]. rewrite E. done.
Qed.

Lemma udivmod_correct_witness :
  udivmoddi4_generic (2 ^ 64 - 1) 10 true
    = Some (if 10 =? 0 then 0 else (2 ^ 64 - 1) `div` 10,
            Some (if 10 =? 0 then 0 else (2 ^ 64 - 1) `mod` 10)) /\
  udivmoddi4_generic (2 ^ 64 - 1) 10 false
    = Some (if 10 =? 0 then 0 else (2 ^ 64 - 1) `div` 10, None) /\
  udivdi3_generic (2 ^ 64 - 1) 10 = Some (if 10 =? 0 then 0 else (2 ^ 64 - 1) `div` 10).
Proof. apply (udivmod_correct (2 ^ 64 - 1) 10); lia. Defined.
