(* ===== verification/DList.v ===== *)
(** * Intrusive circular lists ([dsa/list.h]) and the LRU list over them
    ([dsa/list_lru.h])

    The heap maps the address of a [jlos_list_head_t] to its two pointers.
    Every dereference of an address that holds no list head is [None]
    (undefined behaviour in C), so the refinement theorems include memory
    safety. *)
From S2P Require Import Prelude.

(** [jlos_list_head_t] *)
Record lnode := LNode { l_next : Z; l_prev : Z }.
Abbreviation lheap := (gmap Z lnode).

Definition next_of (h : lheap) (p : Z) : option Z := l_next <$> h !! p.
Definition prev_of (h : lheap) (p : Z) : option Z := l_prev <$> h !! p.

(** [p->next = v] and [p->prev = v] *)
Definition set_next (h : lheap) (p v : Z) : option lheap :=
  n ← h !! p; Some (<[p := LNode v (l_prev n)]> h).
Definition set_prev (h : lheap) (p v : Z) : option lheap :=
  n ← h !! p; Some (<[p := LNode (l_next n) v]> h).

Definition jlos_list_init (h : lheap) (p : Z) : option lheap :=
  h ← set_next h p p; set_prev h p p.

Definition jlos_list_empty (h : lheap) (p : Z) : option bool :=
  n ← next_of h p; Some (bool_decide (n = p)).

Definition jlos_list_add_1 (h : lheap) (add prev next : Z) : option lheap :=
  h ← set_prev h next add;
  h ← set_next h add next;
  h ← set_prev h add prev;
  set_next h prev add.

Definition jlos_list_add (h : lheap) (add head : Z) : option lheap :=
  n ← next_of h head; jlos_list_add_1 h add head n.

Definition jlos_list_add_tail (h : lheap) (add head : Z) : option lheap :=
  p ← prev_of h head; jlos_list_add_1 h add p head.

Definition jlos_list_del_1 (h : lheap) (prev next : Z) : option lheap :=
  h ← set_prev h next prev; set_next h prev next.

Definition jlos_list_del (h : lheap) (entry : Z) : option lheap :=
  p ← prev_of h entry; n ← next_of h entry;
  h ← jlos_list_del_1 h p n;
  h ← set_next h entry entry;
  set_prev h entry entry.

Definition jlos_list_del_init (h : lheap) (entry : Z) : option lheap :=
  p ← prev_of h entry; n ← next_of h entry;
  h ← jlos_list_del_1 h p n;
  jlos_list_init h entry.

Definition jlos_list_move (h : lheap) (entry head : Z) : option lheap :=
  p ← prev_of h entry; n ← next_of h entry;
  h ← jlos_list_del_1 h p n;
  jlos_list_add h entry head.

Definition jlos_list_move_tail (h : lheap) (entry head : Z) : option lheap :=
  p ← prev_of h entry; n ← next_of h entry;
  h ← jlos_list_del_1 h p n;
  jlos_list_add_tail h entry head.

Definition jlos_list_is_first (h : lheap) (entry head : Z) : option bool :=
  p ← prev_of h entry; Some (bool_decide (p = head)).

Definition jlos_list_is_last (h : lheap) (entry head : Z) : option bool :=
  n ← next_of h entry; Some (bool_decide (n = head)).

(** [jlos_list_for_each]: the entries visited from [pos] on, [None] when the
    walk does not return to the head within the fuel. *)
Fixpoint for_each_from (fuel : nat) (h : lheap) (pos head : Z) : option (list Z) :=
  match fuel with
  | O => None
  | S fuel =>
      if bool_decide (pos = head) then Some []
      else n ← next_of h pos; r ← for_each_from fuel h n head; Some (pos :: r)
  end.
Definition jlos_list_for_each (fuel : nat) (h : lheap) (head : Z) : option (list Z) :=
  n ← next_of h head; for_each_from fuel h n head.

(** ** Representation of a list *)

Definition links (h : lheap) (a b : Z) : Prop :=
  next_of h a = Some b /\ prev_of h b = Some a.

Fixpoint chain (h : lheap) (a : Z) (l : list Z) (b : Z) : Prop :=
  match l with
  | [] => links h a b
  | x :: l => links h a x /\ chain h x l b
  end.

(** The circular list with head [hd] holds exactly the entries [l], in order. *)
Definition dlist (h : lheap) (hd : Z) (l : list Z) : Prop :=
  NoDup (hd :: l) /\ chain h hd l hd.

(** Two heaps agree on the list heads at the addresses in [ps]. *)
Definition same_on (ps : list Z) (h h' : lheap) : Prop := forall p, p ∈ ps -> h' !! p = h !! p.

Lemma chain_frame h h' a l b :
  (forall x, x ∈ a :: l -> next_of h' x = next_of h x) ->
  (forall x, x ∈ l ++ [b] -> prev_of h' x = prev_of h x) ->
  chain h a l b -> chain h' a l b.
Proof.
  revert a. induction l as [|x l IH]; intros a Hn Hp; simpl.
  - intros [? ?]. split; [rewrite Hn by set_solver|rewrite Hp by set_solver]; done.
  - intros [[? ?] Hc]. split; [split; [rewrite Hn by set_solver|rewrite Hp by set_solver]; done|].
    apply IH; [| |done]; intros y Hy; [apply Hn|apply Hp]; set_solver.
Qed.

(** Lists that share no address with the modified ones are untouched. *)
Lemma dlist_frame h h' hd l :
  same_on (hd :: l) h h' -> dlist h hd l -> dlist h' hd l.
Proof.
  intros Hs [Hnd Hc]. split; [done|]. revert Hc.
  apply chain_frame; intros x Hx; unfold next_of, prev_of; rewrite (Hs x); set_solver.
Qed.

Lemma chain_app h a l1 x l2 b :
  chain h a (l1 ++ x :: l2) b <-> chain h a l1 x /\ chain h x l2 b.
Proof.
  revert a. induction l1 as [|y l1 IH]; intros a; simpl; [done|]. rewrite IH. tauto.
Qed.

(** Predecessor and successor of the cut between [l1] and [l2]. *)
Definition cut_prev (hd : Z) (l1 : list Z) : Z := default hd (last l1).
Definition cut_next (hd : Z) (l2 : list Z) : Z := default hd (head l2).

Lemma chain_cut h a l1 l2 b :
  chain h a (l1 ++ l2) b -> links h (cut_prev a l1) (cut_next b l2).
Proof.
  revert a. induction l1 as [|x l1 IH]; intros a; simpl.
  - destruct l2; simpl; [done|]. by intros [? _].
  - intros [_ Hc]. apply IH in Hc. unfold cut_prev in *.
    rewrite last_cons. by destruct (last l1).
Qed.

Lemma cut_prev_cons a x l : cut_prev a (x :: l) = cut_prev x l.
Proof. unfold cut_prev. rewrite last_cons. by destruct (last l). Qed.

Lemma cut_prev_elem hd l1 : cut_prev hd l1 ∈ hd :: l1.
Proof.
  unfold cut_prev. destruct (last l1) as [x|] eqn:E; simpl; [|set_solver].
  right. apply last_Some_elem_of in E. done.
Qed.

Lemma cut_next_elem hd l2 : cut_next hd l2 ∈ l2 ++ [hd].
Proof. destruct l2; simpl; set_solver. Qed.

(** Re-linking the cut: if only the links across the cut change, inserting [x]
    between the two halves gives a chain again. *)
Lemma chain_insert h h' a l1 l2 b x :
  NoDup (a :: l1 ++ l2) -> b ∉ l1 ++ l2 ->
  chain h a (l1 ++ l2) b ->
  links h' (cut_prev a l1) x -> links h' x (cut_next b l2) ->
  (forall y, y ∈ a :: l1 ++ l2 -> y <> cut_prev a l1 -> next_of h' y = next_of h y) ->
  (forall y, y ∈ (l1 ++ l2) ++ [b] -> y <> cut_next b l2 -> prev_of h' y = prev_of h y) ->
  chain h' a (l1 ++ x :: l2) b.
Proof.
  revert a. induction l1 as [|y l1 IH]; intros a Hnd Hb Hc Hpx Hxn Hn Hp; simpl in *.
  - split; [done|]. destruct l2 as [|z l2]; simpl in *; [done|].
    destruct Hc as [_ Hc]. split; [done|]. revert Hc. apply chain_frame.
    + intros w Hw. apply Hn; [set_solver|]. unfold cut_prev. simpl.
      apply NoDup_cons in Hnd as [? _]. set_solver.
    + intros w Hw. apply Hp; [set_solver|]. unfold cut_next. simpl.
      apply NoDup_cons in Hnd as [_ Hnd]. apply NoDup_cons in Hnd as [? _]. set_solver.
  - destruct Hc as [[Ha Hy] Hc]. rewrite cut_prev_cons in *.
    apply NoDup_cons in Hnd as [Hay Hnd].
    pose proof (cut_prev_elem y l1) as Hcp. pose proof (cut_next_elem b l2) as Hcn.
    apply NoDup_cons in Hnd as Hnd'. destruct Hnd' as [Hyl _].
    split.
    + split; [rewrite Hn by set_solver|rewrite Hp by set_solver]; done.
    + apply IH; [done|set_solver|done|done|done| |]; intros w Hw; [apply Hn|apply Hp]; set_solver.
Qed.

(** Removing [x] from between the two halves. *)
Lemma chain_remove h h' a l1 l2 b x :
  NoDup (a :: l1 ++ x :: l2) -> b ∉ l1 ++ x :: l2 ->
  chain h a (l1 ++ x :: l2) b ->
  links h' (cut_prev a l1) (cut_next b l2) ->
  (forall y, y ∈ a :: l1 ++ l2 -> y <> cut_prev a l1 -> next_of h' y = next_of h y) ->
  (forall y, y ∈ (l1 ++ l2) ++ [b] -> y <> cut_next b l2 -> prev_of h' y = prev_of h y) ->
  chain h' a (l1 ++ l2) b.
Proof.
  revert a. induction l1 as [|y l1 IH]; intros a Hnd Hb Hc Hpn Hn Hp; simpl in *.
  - destruct Hc as [_ Hc]. destruct l2 as [|z l2]; simpl in *; [done|].
    destruct Hc as [_ Hc]. split; [done|]. revert Hc.
    apply NoDup_cons in Hnd as [? Hnd]. apply NoDup_cons in Hnd as [? Hnd].
    apply NoDup_cons in Hnd as [? _]. apply chain_frame.
    + intros w Hw. apply Hn; unfold cut_prev; simpl; set_solver.
    + intros w Hw. apply Hp; unfold cut_next; simpl; set_solver.
  - destruct Hc as [[Ha Hy] Hc]. rewrite cut_prev_cons in *.
    apply NoDup_cons in Hnd as [Hay Hnd].
    pose proof (cut_prev_elem y l1) as Hcp. pose proof (cut_next_elem b l2) as Hcn.
    apply NoDup_cons in Hnd as Hnd'. destruct Hnd' as [Hyl _].
    split.
    + split; [rewrite Hn by set_solver|rewrite Hp by set_solver]; done.
    + apply IH; [done|set_solver|done|done| |]; intros w Hw; [apply Hn|apply Hp]; set_solver.
Qed.

(** ** Effect of the pointer writes

    A list heap is determined by [next_of] and [prev_of]; each operation is
    characterised by what it does to these two functions. *)

Lemma heap_eq h h' x :
  next_of h' x = next_of h x -> prev_of h' x = prev_of h x -> h' !! x = h !! x.
Proof.
  unfold next_of, prev_of.
  destruct (h' !! x) as [[? ?]|], (h !! x) as [[? ?]|]; simpl; congruence.
Qed.

Lemma prev_is_Some h x : is_Some (prev_of h x) <-> is_Some (next_of h x).
Proof. unfold prev_of, next_of. by rewrite !fmap_is_Some. Qed.

Definition upd (f : Z -> option Z) (p v : Z) : Z -> option Z :=
  fun x => if decide (x = p) then Some v else f x.

Lemma upd_eq f p v : upd f p v p = Some v.
Proof. unfold upd. by destruct (decide (p = p)). Qed.
Lemma upd_ne f p v x : x <> p -> upd f p v x = f x.
Proof. unfold upd. by destruct (decide (x = p)). Qed.
Lemma upd_is_Some f p v x : is_Some (f x) -> is_Some (upd f p v x).
Proof. unfold upd. destruct (decide (x = p)); [by eexists|done]. Qed.

(** [h'] has exactly the pointers given by [N] and [P]. *)
Definition heap_is (h' : lheap) (N P : Z -> option Z) : Prop :=
  (forall x, next_of h' x = N x) /\ (forall x, prev_of h' x = P x).

Lemma heap_is_refl h : heap_is h (next_of h) (prev_of h).
Proof. done. Qed.

Lemma set_next_spec h N P p v :
  heap_is h N P -> is_Some (N p) ->
  exists h', set_next h p v = Some h' /\ heap_is h' (upd N p v) P.
Proof.
  intros [HN HP] Hs. rewrite <- HN in Hs. unfold next_of in Hs. apply fmap_is_Some in Hs as [n Hn].
  unfold set_next. rewrite Hn. simpl. eexists. split; [done|].
  split; intros x; unfold upd; rewrite <- ?HN, <- ?HP; unfold next_of, prev_of;
    destruct (decide (x = p)) as [->|]; by simplify_map_eq.
Qed.

Lemma set_prev_spec h N P p v :
  heap_is h N P -> is_Some (P p) ->
  exists h', set_prev h p v = Some h' /\ heap_is h' N (upd P p v).
Proof.
  intros [HN HP] Hs. rewrite <- HP in Hs. unfold prev_of in Hs. apply fmap_is_Some in Hs as [n Hn].
  unfold set_prev. rewrite Hn. simpl. eexists. split; [done|].
  split; intros x; unfold upd; rewrite <- ?HN, <- ?HP; unfold next_of, prev_of;
    destruct (decide (x = p)) as [->|]; by simplify_map_eq.
Qed.

(** Run the pending pointer writes of a goal [exists h', m = Some h' /\ _]. *)
Ltac run_writes :=
  repeat match goal with
  | H : heap_is ?h ?N ?P |- context [set_next ?h ?p ?v] =>
      let h1 := fresh "h" in let E := fresh "E" in let H1 := fresh "Hh" in
      destruct (set_next_spec h N P p v H) as (h1 & E & H1);
      [repeat apply upd_is_Some; eauto with jlos|rewrite E; clear E; simpl]
  | H : heap_is ?h ?N ?P |- context [set_prev ?h ?p ?v] =>
      let h1 := fresh "h" in let E := fresh "E" in let H1 := fresh "Hh" in
      destruct (set_prev_spec h N P p v H) as (h1 & E & H1);
      [repeat apply upd_is_Some; eauto with jlos|rewrite E; clear E; simpl]
  end.

Lemma add_1_spec h N P a p n :
  heap_is h N P -> is_Some (P n) -> is_Some (P a) -> is_Some (N a) -> is_Some (N p) ->
  exists h', jlos_list_add_1 h a p n = Some h' /\
             heap_is h' (upd (upd N a n) p a) (upd (upd P n a) a p).
Proof. intros. unfold jlos_list_add_1. run_writes. eauto. Qed.

Lemma del_1_spec h N P p n :
  heap_is h N P -> is_Some (P n) -> is_Some (N p) ->
  exists h', jlos_list_del_1 h p n = Some h' /\
             heap_is h' (upd N p n) (upd P n p).
Proof. intros. unfold jlos_list_del_1. run_writes. eauto. Qed.

Lemma init_spec h N P p :
  heap_is h N P -> is_Some (N p) -> is_Some (P p) ->
  exists h', jlos_list_init h p = Some h' /\ heap_is h' (upd N p p) (upd P p p).
Proof. intros. unfold jlos_list_init. run_writes. eauto. Qed.

(** ** Refinement of sequences *)

Lemma dlist_is_Some h hd l x : dlist h hd l -> x ∈ hd :: l -> is_Some (next_of h x).
Proof.
  intros [_ Hc]. revert Hc. generalize hd at 1 3. revert hd.
  induction l as [|y l IH]; intros b a; simpl.
  - intros [E _] Hx. apply list_elem_of_singleton in Hx as ->. by eexists.
  - intros [[E _] Hc] [->|Hx]%elem_of_cons; [by eexists|]. by eapply IH.
Qed.

Lemma dlist_links h hd l1 l2 :
  dlist h hd (l1 ++ l2) -> links h (cut_prev hd l1) (cut_next hd l2).
Proof. intros [_ Hc]. by apply chain_cut in Hc. Qed.

Lemma dlist_prev h hd l : dlist h hd l -> prev_of h hd = Some (cut_prev hd l).
Proof.
  intros Hd. rewrite <- (app_nil_r l) in Hd at 1. by apply dlist_links in Hd as [_ ?].
Qed.
Lemma dlist_next h hd l : dlist h hd l -> next_of h hd = Some (cut_next hd l).
Proof. intros Hd. by apply (dlist_links h hd [] l) in Hd as [? _]. Qed.

Lemma dlist_at h hd l1 x l2 :
  dlist h hd (l1 ++ x :: l2) ->
  prev_of h x = Some (cut_prev hd l1) /\ next_of h x = Some (cut_next hd l2).
Proof.
  intros Hd. split; [by apply (dlist_links h hd l1 (x :: l2)) in Hd as [_ ?]|].
  rewrite cons_middle, app_assoc in Hd. apply dlist_links in Hd as [Hn _].
  unfold cut_prev in Hn. by rewrite last_snoc in Hn.
Qed.

Section add_del.
Context (h : lheap) (hd : Z) (l1 l2 : list Z) (x : Z).

Lemma add_1_between :
  dlist h hd (l1 ++ l2) -> is_Some (next_of h x) -> x ∉ hd :: l1 ++ l2 ->
  exists h', jlos_list_add_1 h x (cut_prev hd l1) (cut_next hd l2) = Some h' /\
    dlist h' hd (l1 ++ x :: l2) /\
    (forall y, y ∉ hd :: l1 ++ x :: l2 -> h' !! y = h !! y).
Proof.
  intros Hd Hx Hni. pose proof (dlist_links _ _ _ _ Hd) as [Hp Hn].
  pose proof (cut_prev_elem hd l1). pose proof (cut_next_elem hd l2).
  assert (x <> cut_prev hd l1) by set_solver. assert (x <> cut_next hd l2) by set_solver.
  destruct (add_1_spec h _ _ x (cut_prev hd l1) (cut_next hd l2) (heap_is_refl h))
    as (h' & -> & HN & HP); [by eexists|by apply prev_is_Some|done|by eexists|].
  exists h'. split; [done|]. destruct Hd as [Hnd Hc]. split.
  - split; [by rewrite <- Permutation_middle, (Permutation_swap x), NoDup_cons|].
    apply (chain_insert h); [done| |done|..].
    + by apply NoDup_cons in Hnd as [? _].
    + split; rewrite ?HN, ?HP; unfold upd; by repeat case_decide.
    + split; rewrite ?HN, ?HP; unfold upd; by repeat case_decide.
    + intros y Hy Hne. rewrite HN. rewrite !upd_ne; [done| |done]. set_solver.
    + intros y Hy Hne. rewrite HP. rewrite !upd_ne; [done|done|]. set_solver.
  - intros y Hy. apply heap_eq; rewrite ?HN, ?HP; rewrite !upd_ne; [done|set_solver..].
Qed.

Lemma del_1_between :
  dlist h hd (l1 ++ x :: l2) ->
  exists h', jlos_list_del_1 h (cut_prev hd l1) (cut_next hd l2) = Some h' /\
    dlist h' hd (l1 ++ l2) /\
    (forall y, y ∉ hd :: l1 ++ l2 -> h' !! y = h !! y).
Proof.
  intros Hd. pose proof (dlist_links _ _ _ _ Hd) as [Hp _].
  pose proof (dlist_at _ _ _ _ _ Hd) as [_ Hxn].
  pose proof (cut_prev_elem hd l1). pose proof (cut_next_elem hd l2).
  assert (cut_next hd l2 ∈ hd :: l1 ++ x :: l2) by set_solver.
  destruct (del_1_spec h _ _ (cut_prev hd l1) (cut_next hd l2) (heap_is_refl h))
    as (h' & -> & HN & HP).
  { apply prev_is_Some. by eapply dlist_is_Some. }
  { by eexists. }
  exists h'. split; [done|]. destruct Hd as [Hnd Hc]. split.
  - split; [rewrite <- Permutation_middle, (Permutation_swap x), NoDup_cons in Hnd; tauto|].
    apply (chain_remove h _ _ _ _ _ x); [done| |done|..].
    + by apply NoDup_cons in Hnd as [? _].
    + split; rewrite ?HN, ?HP; by rewrite upd_eq.
    + intros y Hy Hne. by rewrite HN, !upd_ne.
    + intros y Hy Hne. by rewrite HP, !upd_ne.
  - intros y Hy. apply heap_eq; rewrite ?HN, ?HP; rewrite !upd_ne; [done|set_solver..].
Qed.
End add_del.

(** Addresses outside [ps] keep their contents. *)
Definition only_changes (ps : list Z) (h h' : lheap) : Prop :=
  forall y, y ∉ ps -> h' !! y = h !! y.

Lemma only_changes_dlist ps h h' hd l :
  only_changes ps h h' -> (forall y, y ∈ hd :: l -> y ∉ ps) -> dlist h hd l -> dlist h' hd l.
Proof. intros Hf Hd. apply dlist_frame. intros p Hp. by apply Hf, Hd. Qed.

Lemma only_changes_trans ps h1 h2 h3 :
  only_changes ps h1 h2 -> only_changes ps h2 h3 -> only_changes ps h1 h3.
Proof. intros H1 H2 y Hy. by rewrite H2, H1. Qed.

Lemma only_changes_mono ps qs h h' :
  (forall y, y ∈ ps -> y ∈ qs) -> only_changes ps h h' -> only_changes qs h h'.
Proof. intros Hs H y Hy. apply H. auto. Qed.

Lemma cut_next_self hd l : NoDup (hd :: l) -> cut_next hd l = hd <-> l = [].
Proof.
  rewrite NoDup_cons. intros [Hni _]. destruct l as [|y l]; simpl; [done|].
  unfold cut_next. simpl. split; [intros ->; set_solver|done].
Qed.

Lemma add_correct h hd l a :
  dlist h hd l -> is_Some (next_of h a) -> a ∉ hd :: l ->
  exists h', jlos_list_add h a hd = Some h' /\ dlist h' hd (a :: l) /\
             only_changes (hd :: a :: l) h h'.
Proof.
  intros Hd Ha Hni. unfold jlos_list_add. rewrite (dlist_next _ _ _ Hd). simpl.
  by apply (add_1_between h hd [] l a).
Qed.

Lemma add_tail_correct h hd l a :
  dlist h hd l -> is_Some (next_of h a) -> a ∉ hd :: l ->
  exists h', jlos_list_add_tail h a hd = Some h' /\ dlist h' hd (l ++ [a]) /\
             only_changes (hd :: a :: l) h h'.
Proof.
  intros Hd Ha Hni. unfold jlos_list_add_tail. rewrite (dlist_prev _ _ _ Hd). simpl.
  destruct (add_1_between h hd l [] a) as (h' & E & Hd' & Hf); rewrite ?app_nil_r; [done..|].
  exists h'. split; [done|]. split; [done|]. revert Hf. apply only_changes_mono. set_solver.
Qed.

Lemma del_init_correct h hd l1 x l2 :
  dlist h hd (l1 ++ x :: l2) ->
  exists h', jlos_list_del_init h x = Some h' /\ dlist h' hd (l1 ++ l2) /\ dlist h' x [] /\
             only_changes (hd :: l1 ++ x :: l2) h h'.
Proof.
  intros Hd. unfold jlos_list_del_init.
  destruct (dlist_at _ _ _ _ _ Hd) as [-> ->]. simpl.
  destruct (del_1_between h hd l1 l2 x Hd) as (h1 & -> & Hd1 & Hf1). simpl.
  assert (x ∉ hd :: l1 ++ l2) as Hni.
  { destruct Hd as [Hnd _]. rewrite <- Permutation_middle, (Permutation_swap x) in Hnd.
    by apply NoDup_cons in Hnd as [? _]. }
  assert (is_Some (next_of h1 x)) as Hx.
  { unfold next_of. rewrite (Hf1 x Hni). eapply (dlist_is_Some h); [exact Hd|]. clear; set_solver. }
  destruct (init_spec h1 _ _ x (heap_is_refl h1)) as (h' & -> & HN & HP);
    [done|by apply prev_is_Some|].
  assert (only_changes [x] h1 h') as Hf2.
  { intros y Hy. apply heap_eq; rewrite ?HN, ?HP, upd_ne; set_solver. }
  exists h'. split; [done|]. split_and!.
  - eapply only_changes_dlist; [done| |done]. set_solver.
  - split; [apply NoDup_singleton|]. split; rewrite ?HN, ?HP; apply upd_eq.
  - eapply only_changes_trans; [eapply only_changes_mono; [|exact Hf1]|
      eapply only_changes_mono; [|exact Hf2]]; set_solver.
Qed.

(** Adding at the head or the tail of a list whose entries are [l] yields
    the list [a :: l] or [l ++ [a]]; every pointer dereferenced is valid and no
    list head outside the list and [a] is written. *)
Lemma list_add_refines h hd l a :
  dlist h hd l -> is_Some (next_of h a) -> a ∉ hd :: l ->
  (exists h', jlos_list_add h a hd = Some h' /\ dlist h' hd (a :: l) /\
              only_changes (hd :: a :: l) h h') /\
  (exists h', jlos_list_add_tail h a hd = Some h' /\ dlist h' hd (l ++ [a]) /\
              only_changes (hd :: a :: l) h h').
Proof. split; [by apply add_correct|by apply add_tail_correct]. Qed.

(** Deleting an entry, with either deletion operation, leaves the list with
    exactly the other entries in their order, the deleted entry as an empty
    list of its own (so deleting or testing it again is safe), and writes
    nothing outside the list. *)
Lemma list_del_refines h hd l1 x l2 :
  dlist h hd (l1 ++ x :: l2) ->
  exists h', jlos_list_del h x = Some h' /\ jlos_list_del_init h x = Some h' /\
    dlist h' hd (l1 ++ l2) /\ dlist h' x [] /\
    jlos_list_empty h' x = Some true /\
    only_changes (hd :: l1 ++ x :: l2) h h'.
Proof.
  intros Hd. destruct (del_init_correct h hd l1 x l2 Hd) as (h' & E & Hd' & Hx & Hf).
  exists h'. split_and!; [exact E|done..| |done].
  unfold jlos_list_empty. rewrite (dlist_next _ _ _ Hx). simpl. by rewrite bool_decide_true.
Qed.

(** Entry [x] of list [hd] moved to the head or tail of another list [hd']. *)
Lemma move_correct (tail : bool) h hd l1 x l2 hd' l' :
  dlist h hd (l1 ++ x :: l2) -> dlist h hd' l' ->
  (forall y, y ∈ hd' :: l' -> y ∉ hd :: l1 ++ x :: l2) ->
  exists h', (if tail then jlos_list_move_tail else jlos_list_move) h x hd' = Some h' /\
    dlist h' hd (l1 ++ l2) /\ dlist h' hd' (if tail then l' ++ [x] else x :: l').
Proof.
  intros Hd Hd' Hdis.
  destruct (dlist_at _ _ _ _ _ Hd) as [Ep En].
  destruct (del_1_between h hd l1 l2 x Hd) as (h1 & E1 & Hd1 & Hf1).
  assert (x ∉ hd :: l1 ++ l2) as Hni.
  { destruct Hd as [Hnd _]. rewrite <- Permutation_middle, (Permutation_swap x) in Hnd.
    by apply NoDup_cons in Hnd as [? _]. }
  assert (dlist h1 hd' l') as Hd1'.
  { eapply only_changes_dlist; [exact Hf1| |done]. set_solver. }
  assert (is_Some (next_of h1 x)) as Hx.
  { unfold next_of. rewrite (Hf1 x Hni). eapply (dlist_is_Some h); [exact Hd|]. clear; set_solver. }
  destruct tail; unfold jlos_list_move, jlos_list_move_tail; rewrite Ep, En; simpl; rewrite E1; simpl.
  - destruct (add_tail_correct h1 hd' l' x) as (h' & -> & Ht & Hf); [done|done|set_solver|].
    exists h'. split; [done|]. split; [|done].
    eapply only_changes_dlist; [exact Hf| |done]. set_solver.
  - destruct (add_correct h1 hd' l' x) as (h' & -> & Ht & Hf); [done|done|set_solver|].
    exists h'. split; [done|]. split; [|done].
    eapply only_changes_dlist; [exact Hf| |done]. set_solver.
Qed.

Lemma for_each_from_chain h b l a :
  b ∉ l -> chain h a l b -> forall fuel, (length l < fuel)%nat ->
  for_each_from fuel h (cut_next b l) b = Some l.
Proof.
  revert a. induction l as [|x l IH]; intros a Hni Hc fuel Hf; destruct fuel as [|fuel]; simpl in *; try lia.
  - unfold cut_next. simpl. by rewrite bool_decide_true.
  - destruct Hc as [_ Hc]. unfold cut_next at 1. simpl. rewrite bool_decide_false by set_solver.
    pose proof (chain_cut h x [] l b Hc) as [Hn _]. simpl in Hn.
    unfold cut_next at 2. simpl. change (cut_prev x []) with x in Hn. rewrite Hn. simpl.
    erewrite IH; [done|set_solver|done|lia].
Qed.

(** Iteration over a list terminates and visits exactly its entries, in
    order; the emptiness, first and last tests answer for the sequence. *)
Lemma list_observers h hd l :
  dlist h hd l ->
  (forall fuel, (length l < fuel)%nat -> jlos_list_for_each fuel h hd = Some l) /\
  jlos_list_empty h hd = Some (bool_decide (l = [])) /\
  (forall x, x ∈ l ->
     jlos_list_is_first h x hd = Some (bool_decide (head l = Some x)) /\
     jlos_list_is_last h x hd = Some (bool_decide (last l = Some x))).
Proof.
  intros Hd. pose proof Hd as [Hnd Hc]. apply NoDup_cons in Hnd as Hnd'.
  destruct Hnd' as [Hni Hndl]. split_and!.
  - intros fuel Hf. unfold jlos_list_for_each. rewrite (dlist_next _ _ _ Hd). simpl.
    by eapply for_each_from_chain.
  - unfold jlos_list_empty. rewrite (dlist_next _ _ _ Hd). simpl. f_equal.
    apply bool_decide_ext. by apply cut_next_self.
  - intros x [l1 [l2 ->]]%list_elem_of_split.
    destruct (dlist_at _ _ _ _ _ Hd) as [Ep En].
    unfold jlos_list_is_first, jlos_list_is_last. rewrite Ep, En. simpl.
    split; f_equal; apply bool_decide_ext.
    + destruct l1 as [|y l1]; [done|]. simpl. rewrite cut_prev_cons.
      pose proof (cut_prev_elem y l1). apply NoDup_cons in Hndl as [? ?].
      split; [intros ?|intros [=]]; set_solver.
    + rewrite last_app_cons, last_cons. pose proof (cut_next_elem hd l2).
      apply NoDup_app in Hndl as (_ & _ & Hndl). apply NoDup_cons in Hndl as [? ?].
      destruct l2 as [|y l2]; [done|]. rewrite last_cons. split.
      * unfold cut_next. simpl. set_solver.
      * intros [= E]. destruct (last l2) eqn:El; [apply last_Some_elem_of in El|]; set_solver.
Qed.

(** Moving an entry from one list to another takes it out of the first and
    puts it at the head, or the tail, of the second; both stay lists. *)
Lemma list_move_refines h hd l1 x l2 hd' l' :
  dlist h hd (l1 ++ x :: l2) -> dlist h hd' l' ->
  (forall y, y ∈ hd' :: l' -> y ∉ hd :: l1 ++ x :: l2) ->
  (exists h', jlos_list_move h x hd' = Some h' /\
     dlist h' hd (l1 ++ l2) /\ dlist h' hd' (x :: l')) /\
  (exists h', jlos_list_move_tail h x hd' = Some h' /\
     dlist h' hd (l1 ++ l2) /\ dlist h' hd' (l' ++ [x])).
Proof.
  intros Hd Hd' Hdis. split.
  - by apply (move_correct false h hd l1 x l2 hd' l').
  - by apply (move_correct true h hd l1 x l2 hd' l').
Qed.

(** ** The LRU list ([dsa/list_lru.h]) *)

(** [jlos_list_lru_t]: the address of its embedded list head, and the count. *)
Record lru := Lru { lru_list : Z; lru_count : Z }.

Definition jlos_list_lru_init (h : lheap) (r : lru) : option (lheap * lru) :=
  h ← jlos_list_init h (lru_list r);
  Some (h, Lru (lru_list r) 0).

Definition jlos_list_lru_add_tail (h : lheap) (r : lru) (node : Z) : option (lheap * lru) :=
  h ← jlos_list_add_tail h node (lru_list r);
  Some (h, Lru (lru_list r) (u32 (lru_count r + 1))).

Definition jlos_list_lru_del (h : lheap) (r : lru) (node : Z) : option (lheap * lru) :=
  h ← jlos_list_del_init h node;
  Some (h, Lru (lru_list r) (u32 (lru_count r - 1))).

Definition jlos_list_lru_is_empty (r : lru) : bool := lru_count r =? 0.

(** The victim is [None] for [nullptr]. *)
Definition jlos_list_lru_evict (h : lheap) (r : lru) : option (lheap * lru * option Z) :=
  e ← jlos_list_empty h (lru_list r);
  if (e : bool) then Some (h, r, None)
  else
    victim ← next_of h (lru_list r);
    h ← jlos_list_del_init h victim;
    Some (h, Lru (lru_list r) (u32 (lru_count r - 1)), Some victim).

(** The LRU list holds [l], oldest entry first. *)
Definition lru_rep (h : lheap) (r : lru) (l : list Z) : Prop :=
  dlist h (lru_list r) l /\ lru_count r = zlen l /\ zlen l < 2 ^ 32.

(** The LRU list is a queue: after [init] it is empty, [add_tail] makes
    the node the most recent entry, [del] takes out the given entry, [evict]
    takes out and returns the oldest entry ([nullptr] when there is none), and
    the count, on which [is_empty] relies, always equals the length. *)
Theorem lru_refines h r l :
  lru_rep h r l ->
  jlos_list_lru_is_empty r = bool_decide (l = []) /\
  (exists h' r', jlos_list_lru_init h r = Some (h', r') /\ lru_rep h' r' []) /\
  (forall a, is_Some (next_of h a) -> a ∉ lru_list r :: l -> zlen l + 1 < 2 ^ 32 ->
     exists h' r', jlos_list_lru_add_tail h r a = Some (h', r') /\ lru_rep h' r' (l ++ [a])) /\
  (forall l1 x l2, l = l1 ++ x :: l2 ->
     exists h' r', jlos_list_lru_del h r x = Some (h', r') /\ lru_rep h' r' (l1 ++ l2)) /\
  (exists h' r', jlos_list_lru_evict h r = Some (h', r', head l) /\ lru_rep h' r' (tail l)).
Proof.
  intros (Hd & Hc & Hb).
  assert (Hdel : forall l1 x l2, l = l1 ++ x :: l2 ->
    exists h', jlos_list_del_init h x = Some h' /\
      lru_rep h' (Lru (lru_list r) (u32 (lru_count r - 1))) (l1 ++ l2)).
  { intros l1 x l2 ->. destruct (del_init_correct h _ l1 x l2 Hd) as (h' & E & Hd' & _ & _).
    exists h'. split; [done|]. split; [done|]. simpl.
    rewrite length_app in *. simpl in *. rewrite Hc. split; [rewrite u32_small; lia|lia]. }
  assert (is_Some (next_of h (lru_list r))) as Hh by (eapply dlist_is_Some; [done|set_solver]).
  split_and!.
  - unfold jlos_list_lru_is_empty. rewrite Hc. by destruct l.
  - unfold jlos_list_lru_init.
    destruct (init_spec h _ _ (lru_list r) (heap_is_refl h)) as (h' & -> & HN & HP);
      [done|by apply prev_is_Some|].
    eexists _, _. split; [done|]. split; [|done]. split; [apply NoDup_singleton|].
    split; rewrite ?HN, ?HP; apply upd_eq.
  - intros a Ha Hni Hlt. unfold jlos_list_lru_add_tail.
    destruct (add_tail_correct h _ l a Hd Ha Hni) as (h' & -> & Hd' & _). simpl.
    eexists _, _. split; [done|]. split; [done|]. simpl. rewrite length_app. simpl.
    rewrite u32_small; lia.
  - intros l1 x l2 Hl. unfold jlos_list_lru_del.
    destruct (Hdel _ _ _ Hl) as (h' & -> & ?). by eexists _, _.
  - unfold jlos_list_lru_evict, jlos_list_empty.
    rewrite (dlist_next _ _ _ Hd). simpl. pose proof Hd as [Hnd _].
    destruct l as [|x l]; [rewrite bool_decide_true by done; by eexists _, _|].
    rewrite bool_decide_false by (rewrite cut_next_self; [done..]).
    unfold cut_next. simpl. destruct (Hdel [] x l eq_refl) as (h' & -> & ?). by eexists _, _.
Qed.

(** The circular list implements a sequence.  Adding at the head or the tail
    puts the entry there; deleting, with either operation, takes out exactly the
    entry and leaves it as an empty list of its own; moving takes it to an end of
    another list; only heads of the lists involved are written.  Iteration ends
    and visits the entries in order, and the tests answer for the sequence. *)
Theorem list_refines h hd l :
  dlist h hd l ->
  (forall a, is_Some (next_of h a) -> a ∉ hd :: l ->
     (exists h', jlos_list_add h a hd = Some h' /\ dlist h' hd (a :: l) /\ only_changes (hd :: a :: l) h h') /\
     (exists h', jlos_list_add_tail h a hd = Some h' /\ dlist h' hd (l ++ [a]) /\ only_changes (hd :: a :: l) h h')) /\
  (forall l1 x l2, l = l1 ++ x :: l2 ->
     exists h', jlos_list_del h x = Some h' /\ jlos_list_del_init h x = Some h' /\
       dlist h' hd (l1 ++ l2) /\ dlist h' x [] /\ jlos_list_empty h' x = Some true /\ only_changes (hd :: l) h h') /\
  (forall l1 x l2 hd' l', l = l1 ++ x :: l2 -> dlist h hd' l' -> (forall y, y ∈ hd' :: l' -> y ∉ hd :: l) ->
     (exists h', jlos_list_move h x hd' = Some h' /\ dlist h' hd (l1 ++ l2) /\ dlist h' hd' (x :: l')) /\
     (exists h', jlos_list_move_tail h x hd' = Some h' /\ dlist h' hd (l1 ++ l2) /\ dlist h' hd' (l' ++ [x]))) /\
  (forall fuel, (length l < fuel)%nat -> jlos_list_for_each fuel h hd = Some l) /\
  jlos_list_empty h hd = Some (bool_decide (l = [])) /\
  (forall x, x ∈ l ->
     jlos_list_is_first h x hd = Some (bool_decide (head l = Some x)) /\
     jlos_list_is_last h x hd = Some (bool_decide (last l = Some x))).
Proof.
  intros Hd. split; [|split; [|split; [|by apply list_observers]]].
  - intros a. by apply list_add_refines.
  - intros l1 x l2 ->. by apply list_del_refines.
  - intros l1 x l2 hd' l' -> Hd' Hdis. by apply list_move_refines.
Qed.

(** ** Concrete lists *)

(** Lists [1 -> 10 -> 20] and [2 -> 30], and an unlinked node [40]. *)
Definition sample_heap : lheap := list_to_map
  [(1, LNode 10 20); (10, LNode 20 1); (20, LNode 1 10);
   (2, LNode 30 30); (30, LNode 2 2); (40, LNode 40 40)].

Lemma sample_dlist1 : dlist sample_heap 1 [10; 20].
Proof. split; [apply (bool_decide_unpack _); by vm_compute|by vm_compute]. Qed.
Lemma sample_dlist2 : dlist sample_heap 2 [30].
Proof. split; [apply (bool_decide_unpack _); by vm_compute|by vm_compute]. Qed.

Lemma list_refines_witness :
  (exists h', jlos_list_del sample_heap 10 = Some h' /\ dlist h' 1 [20]) /\
  (exists h', jlos_list_move sample_heap 20 2 = Some h' /\ dlist h' 1 [10] /\ dlist h' 2 [20; 30]).
Proof.
  destruct (list_refines sample_heap 1 [10; 20]) as (_ & Hdel & Hmove & _); [exact sample_dlist1|]. split.
  - destruct (Hdel [] 10 [20] eq_refl) as (h' & E & _ & Hd & _). by exists h'.
  - destruct (Hmove [10] 20 [] 2 [30] eq_refl) as [Hm _]; [exact sample_dlist2|set_solver|exact Hm].
Defined.

Lemma lru_refines_witness :
  exists h' r', jlos_list_lru_evict sample_heap (Lru 1 2) = Some (h', r', Some 10) /\ lru_rep h' r' [20].
Proof.
  apply (lru_refines sample_heap (Lru 1 2) [10; 20]).
  split; [apply sample_dlist1|done].
Defined.
