(* ===== verification/TimerWheel.v ===== *)
(** * The hierarchical timer wheel ([dsa/timer_wheel.c])

    Five vectors of list heads, at the address of the wheel; a timer node's
    list head is its first member, so [container_of] is the identity on
    addresses.  The model runs on the pointer heap of [DList].  The theorem is
    that advancing the wheel fires exactly the timers that are due, each once,
    in the order of their due ticks, whatever level of the wheel they sit in. *)
From S2P Require Import Prelude DList.

(** [jlos_timer_wheel_t] at address [tw_base], with the [expires] field of the
    nodes.  The list heads of [vec1] .. [vec5] are numbered 0 .. 511 in the order
    of their declaration. *)
Record wheel := Wheel {
  tw_base : Z;
  tw_heap : lheap;
  tw_expires : gmap Z Z;
  tw_jiffies : Z
}.

Definition with_heap (w : wheel) (h : lheap) : wheel :=
  Wheel (tw_base w) h (tw_expires w) (tw_jiffies w).
Definition with_jiffies (w : wheel) (j : Z) : wheel :=
  Wheel (tw_base w) (tw_heap w) (tw_expires w) j.

(** Address of list head number [k]. *)
Definition slot_addr (base k : Z) : Z := base + 8 * k.

Definition vec1 (i : Z) : Z := i.
Definition vec2 (i : Z) : Z := 256 + i.
Definition vec3 (i : Z) : Z := 320 + i.
Definition vec4 (i : Z) : Z := 384 + i.
Definition vec5 (i : Z) : Z := 448 + i.

(** The list head that [timer_wheel_slot] returns, as its number. *)
Definition timer_wheel_slot (expires jiffies : Z) : Z :=
  let delta := s32 (u32 (expires - jiffies)) in
  if delta <? 0 then vec1 (Z.land jiffies 255)
  else
    let idx := u32 delta in
    if idx <? 256 then vec1 (Z.land expires 255)
    else if idx <? 2 ^ 14 then vec2 (Z.land (Z.shiftr expires 8) 63)
    else if idx <? 2 ^ 20 then vec3 (Z.land (Z.shiftr expires 14) 63)
    else if idx <? 2 ^ 26 then vec4 (Z.land (Z.shiftr expires 20) 63)
    else vec5 (Z.land (Z.shiftr expires 26) 63).

Fixpoint init_all (h : lheap) (ps : list Z) : option lheap :=
  match ps with
  | [] => Some h
  | p :: ps => h ← jlos_list_init h p; init_all h ps
  end.

Definition jlos_timer_wheel_init (w : wheel) (jiffies : Z) : option wheel :=
  let a := slot_addr (tw_base w) in
  h ← init_all (tw_heap w) (map (fun i => a (vec1 i)) (seqZ 0 256));
  h ← init_all h (seqZ 0 64 ≫= fun i => [a (vec2 i); a (vec3 i); a (vec4 i); a (vec5 i)]);
  Some (with_jiffies (with_heap w h) jiffies).

Definition jlos_timer_wheel_add (w : wheel) (node : Z) : option wheel :=
  e ← tw_expires w !! node;
  h ← jlos_list_add_tail (tw_heap w) node
        (slot_addr (tw_base w) (timer_wheel_slot e (tw_jiffies w)));
  Some (with_heap w h).

Definition jlos_timer_wheel_del (w : wheel) (node : Z) : option wheel :=
  h ← jlos_list_del_init (tw_heap w) node; Some (with_heap w h).

(** [jlos_list_for_each_safe] over the list at [head] of the wheel, in a state
    [S] that contains the wheel: the successor is read before the body runs. *)
Section for_each_safe.
Context {S : Type} (wheel_of : S -> wheel) (body : S -> Z -> option S) (head : Z).

Fixpoint for_each_safe_from (fuel : nat) (s : S) (pos n : Z) : option S :=
  match fuel with
  | O => None
  | Datatypes.S fuel =>
      if bool_decide (pos = head) then Some s
      else
        s ← body s pos;
        n' ← next_of (tw_heap (wheel_of s)) n;
        for_each_safe_from fuel s n n'
  end.

Definition for_each_safe (fuel : nat) (s : S) : option S :=
  pos ← next_of (tw_heap (wheel_of s)) head;
  n ← next_of (tw_heap (wheel_of s)) pos;
  for_each_safe_from fuel s pos n.
End for_each_safe.

Definition timer_wheel_cascade (fuel : nat) (w : wheel) (k : Z) : option wheel :=
  for_each_safe (fun w => w)
    (fun w node => w ← jlos_timer_wheel_del w node; jlos_timer_wheel_add w node)
    (slot_addr (tw_base w) k) fuel w.

(** The cascades of one tick, from the second level up. *)
Definition cascade_levels (fuel : nat) (w : wheel) : option wheel :=
  let j := tw_jiffies w in
  let i1 := Z.land j 255 in
  if i1 =? 0 then
    let i2 := Z.land (Z.shiftr j 8) 63 in
    w ← timer_wheel_cascade fuel w (vec2 i2);
    if i2 =? 0 then
      let i3 := Z.land (Z.shiftr j 14) 63 in
      w ← timer_wheel_cascade fuel w (vec3 i3);
      if i3 =? 0 then
        let i4 := Z.land (Z.shiftr j 20) 63 in
        w ← timer_wheel_cascade fuel w (vec4 i4);
        if i4 =? 0 then
          let i5 := Z.land (Z.shiftr j 26) 63 in
          timer_wheel_cascade fuel w (vec5 i5)
        else Some w
      else Some w
    else Some w
  else Some w.

(** [jlos_timer_wheel_advance]; the callback is an argument and may use the
    wheel and its own context. *)
Section advance.
Context {C : Type} (expire : wheel -> C -> Z -> option (wheel * C)).

Definition advance_tick (fuel : nat) (w : wheel) (ctx : C) : option (wheel * C) :=
  let i1 := Z.land (tw_jiffies w) 255 in
  w ← cascade_levels fuel w;
  let w := with_jiffies w (u32 (tw_jiffies w + 1)) in
  for_each_safe fst
    (fun '(w, ctx) node => w ← jlos_timer_wheel_del w node; expire w ctx node)
    (slot_addr (tw_base w) (vec1 i1)) fuel (w, ctx).

Fixpoint jlos_timer_wheel_advance (ticks fuel : nat) (w : wheel) (now : Z) (ctx : C)
    : option (wheel * C) :=
  if s32 (u32 (now - tw_jiffies w)) <? 0 then Some (w, ctx)
  else
    match ticks with
    | O => None
    | Datatypes.S ticks =>
        '(w, ctx) ← advance_tick fuel w ctx;
        jlos_timer_wheel_advance ticks fuel w now ctx
    end.
End advance.

(** ** The lists of the wheel *)

Definition is_slot (k : Z) : Prop := 0 <= k < 512.

(** Slot [k] holds the nodes [W k]; no address is used twice. *)
Definition wheel_lists (h : lheap) (base : Z) (W : Z -> list Z) : Prop :=
  (forall k, is_slot k -> dlist h (slot_addr base k) (W k)) /\
  (forall k k' x, is_slot k -> is_slot k' -> k <> k' ->
     x ∈ slot_addr base k :: W k -> x ∉ slot_addr base k' :: W k').

Definition unlinked (base : Z) (W : Z -> list Z) (x : Z) : Prop :=
  forall k, is_slot k -> x ∉ slot_addr base k :: W k.

(** A node is linked into a slot or linked to itself. *)
Definition free_ok (h : lheap) (base : Z) (W : Z -> list Z) (x : Z) : Prop := unlinked base W x -> dlist h x [].

Definition setW (W : Z -> list Z) (k : Z) (l : list Z) : Z -> list Z :=
  fun k' => if decide (k' = k) then l else W k'.

Lemma setW_eq W k l : setW W k l k = l.
Proof. unfold setW. by rewrite decide_True. Qed.
Lemma setW_ne W k l k' : k' <> k -> setW W k l k' = W k'.
Proof. intros. unfold setW. by rewrite decide_False. Qed.

Lemma wheel_lists_ext h base W W' :
  (forall k, is_slot k -> W' k = W k) -> wheel_lists h base W -> wheel_lists h base W'.
Proof.
  intros He [Hd Hx]. split; intros; rewrite ?He in * by done; eauto.
Qed.

(** Only slot [k] changes, to a list of nodes that were in it or unlinked. *)
Lemma wheel_lists_set h h' base W k l ps :
  wheel_lists h base W -> is_slot k ->
  dlist h' (slot_addr base k) l ->
  (forall x, x ∈ l -> x ∈ W k \/ unlinked base W x) ->
  only_changes ps h h' ->
  (forall x, x ∈ ps -> x ∈ slot_addr base k :: W k \/ unlinked base W x) ->
  wheel_lists h' base (setW W k l).
Proof.
  intros [Hd Hx] Hk Hdk Hl Hf Hps. split.
  - intros k' Hk'. destruct (decide (k' = k)) as [->|Hne]; [by rewrite setW_eq|].
    rewrite setW_ne by done. eapply only_changes_dlist; [exact Hf| |by apply Hd].
    intros y Hy Hyp. destruct (Hps y Hyp) as [Hyk|Hyu]; [by apply (Hx k' k y)|by apply (Hyu k')].
  - intros k1 k2 x Hk1 Hk2 Hne. unfold setW.
    destruct (decide (k1 = k)) as [->|], (decide (k2 = k)) as [->|]; [done|..|by apply Hx].
    + intros [->|Hxl]%elem_of_cons; [apply (Hx k k2); [done..|]; constructor|].
      destruct (Hl x Hxl) as [?|Hu]; [by apply (Hx k k2); [..|constructor]|by apply Hu].
    + intros Hx1 [->|Hxl]%elem_of_cons; [eapply (Hx k1 k); [done..|]; constructor|].
      destruct (Hl x Hxl) as [?|Hu]; [by eapply (Hx k1 k); [..|constructor]|by apply (Hu k1)].
Qed.

Lemma wheel_lists_add h base W k a :
  wheel_lists h base W -> is_slot k -> is_Some (next_of h a) -> unlinked base W a ->
  exists h', jlos_list_add_tail h a (slot_addr base k) = Some h' /\
    wheel_lists h' base (setW W k (W k ++ [a])) /\
    (forall x, free_ok h base W x -> free_ok h' base (setW W k (W k ++ [a])) x).
Proof.
  intros HW Hk Ha Hu. pose proof HW as [Hd _].
  destruct (add_tail_correct h _ _ a (Hd k Hk) Ha (Hu k Hk)) as (h' & E & Hd' & Hf).
  exists h'. split; [done|]. split.
  2: { intros x Hx Hux. pose proof (Hux k Hk) as Hxk. rewrite setW_eq in Hxk. eapply only_changes_dlist; [exact Hf| |apply Hx].
       - intros y ->%list_elem_of_singleton. set_solver.
       - intros k' Hk'. pose proof (Hux k' Hk') as Hx'. destruct (decide (k' = k)) as [->|Hne]; [set_solver|by rewrite setW_ne in Hx']. }
  eapply wheel_lists_set; [done..| |exact Hf|].
  - intros x [?|Hz%list_elem_of_singleton]%elem_of_app; subst; auto.
  - intros x [->|[->|?]%elem_of_cons]%elem_of_cons; [left; constructor|by right|left; by constructor].
Qed.

Lemma wheel_lists_del h base W k l1 x l2 :
  wheel_lists h base W -> is_slot k -> W k = l1 ++ x :: l2 ->
  exists h', jlos_list_del_init h x = Some h' /\
    wheel_lists h' base (setW W k (l1 ++ l2)) /\
    is_Some (next_of h' x) /\ unlinked base (setW W k (l1 ++ l2)) x /\
    (forall y, free_ok h base W y -> free_ok h' base (setW W k (l1 ++ l2)) y).
Proof.
  intros HW Hk Hl. pose proof HW as [Hd Hx]. pose proof (Hd k Hk) as Hdk. rewrite Hl in Hdk.
  destruct (del_init_correct h _ l1 x l2 Hdk) as (h' & E & Hd' & Hs & Hf).
  assert (x ∉ slot_addr base k :: l1 ++ l2) as Hni.
  { destruct Hdk as [Hnd _]. rewrite <- Permutation_middle, (Permutation_swap x) in Hnd.
    by apply NoDup_cons in Hnd as [? _]. }
  exists h'. split_and!; [done| | | |].
  - eapply wheel_lists_set; [done..| |exact Hf|].
    + intros y Hy. left. rewrite Hl. set_solver.
    + intros y Hy. left. by rewrite Hl.
  - eapply dlist_is_Some; [exact Hs|constructor].
  - intros k' Hk'. destruct (decide (k' = k)) as [->|]; [by rewrite setW_eq|].
    rewrite setW_ne by done. apply (Hx k k'); [done..|]. rewrite Hl. clear; set_solver.
  - intros y Hy Huy. destruct (decide (y = x)) as [->|Hyx]; [exact Hs|]. eapply only_changes_dlist; [exact Hf| |apply Hy].
    + intros z ->%list_elem_of_singleton. pose proof (Huy k Hk) as Hyk. rewrite setW_eq in Hyk. set_solver.
    + intros k' Hk'. pose proof (Huy k' Hk') as Hy'. destruct (decide (k' = k)) as [->|Hne]; [rewrite setW_eq in Hy'; rewrite Hl; set_solver|by rewrite setW_ne in Hy'].
Qed.
Lemma free_ok_ext h base W W' x : (forall k, is_slot k -> W' k = W k) -> free_ok h base W x -> free_ok h base W' x.
Proof. intros He Hf Hu. apply Hf. intros k Hk. rewrite <- He by done. by apply Hu. Qed.

(** ** [timer_wheel_cascade] *)

(** Slot [k] is emptied and its nodes appended, in order, to their new slots. *)
Definition spread (idx : Z -> Z) (W : Z -> list Z) (k : Z) : Z -> list Z :=
  fun k' => if decide (k' = k) then [] else W k' ++ filter (fun x => idx x = k') (W k).

Lemma slot_range e j : is_slot (timer_wheel_slot e j).
Proof.
  unfold timer_wheel_slot, is_slot, vec1, vec2, vec3, vec4, vec5.
  change 255 with (2 ^ 8 - 1). change 63 with (2 ^ 6 - 1). rewrite !land_mask by lia.
  pose proof (Z.mod_pos_bound e (2 ^ 8)). pose proof (Z.mod_pos_bound j (2 ^ 8)).
  assert (forall a, 0 <= a `mod` 2 ^ 6 < 2 ^ 6) as Hm by (intros; apply Z.mod_pos_bound; lia).
  pose proof (Hm (Z.shiftr e 8)). pose proof (Hm (Z.shiftr e 14)).
  pose proof (Hm (Z.shiftr e 20)). pose proof (Hm (Z.shiftr e 26)).
  repeat case_match; lia.
Qed.

Section cascade.
Context (w : wheel) (k : Z) (idx : Z -> Z).
Hypothesis Hk : is_slot k.

Lemma cascade_loop fuel l W h :
  wheel_lists h (tw_base w) W -> W k = l -> (length l < fuel)%nat ->
  (forall x, x ∈ l -> exists e, tw_expires w !! x = Some e /\
     timer_wheel_slot e (tw_jiffies w) = idx x /\ idx x <> k) ->
  exists h', timer_wheel_cascade fuel (with_heap w h) k = Some (with_heap w h') /\
    wheel_lists h' (tw_base w) (spread idx W k) /\
    (forall y, free_ok h (tw_base w) W y -> free_ok h' (tw_base w) (spread idx W k) y).
Proof.
  revert W h fuel. induction l as [|x l IH]; intros W h fuel HW Hl Hfuel Hidx;
    unfold timer_wheel_cascade, for_each_safe; simpl;
    pose proof HW as [Hd _]; pose proof (Hd k Hk) as Hdk; rewrite Hl in Hdk;
    rewrite (dlist_next _ _ _ Hdk); simpl.
  - exists h. change (cut_next ?a []) with a. rewrite (dlist_next _ _ _ Hdk). simpl.
    destruct fuel as [|fuel]; [simpl in *; lia|]. simpl.
    rewrite bool_decide_true by done. split; [done|].
    assert (forall k', is_slot k' -> spread idx W k k' = W k') as Hsame.
    { intros k' _. unfold spread. rewrite Hl. destruct (decide (k' = k)) as [->|]; [done|]. by rewrite app_nil_r. }
    split; [by eapply wheel_lists_ext|]. intros y. by apply free_ok_ext.
  - destruct (dlist_at _ _ [] x l Hdk) as [_ En].
    unfold cut_next at 1 2. simpl. rewrite En. simpl.
    destruct fuel as [|fuel]; [simpl in *; lia|]. simpl.
    destruct Hdk as [Hnd _]. apply NoDup_cons in Hnd as [Hni Hnd].
    rewrite bool_decide_false by set_solver.
    unfold jlos_timer_wheel_del. simpl.
    destruct (wheel_lists_del h _ W k [] x l HW Hk Hl) as (h1 & -> & HW1 & Hx1 & Hu1 & HF1). simpl in *.
    unfold jlos_timer_wheel_add. simpl.
    destruct (Hidx x) as (e & -> & Es & Hne); [constructor|]. simpl. rewrite Es.
    destruct (wheel_lists_add h1 _ _ (idx x) x HW1) as (h2 & -> & HW2 & HF2);
      [rewrite <- Es; apply slot_range|done|done|]. simpl.
    assert (Hl2 : setW (setW W k l) (idx x) (setW W k l (idx x) ++ [x]) k = l).
    { rewrite setW_ne by done. apply setW_eq. }
    destruct (IH _ h2 fuel HW2 Hl2) as (h' & Ec & HW' & HF').
    { simpl in *. lia. }
    { intros y Hy. apply Hidx. by constructor. }
    unfold timer_wheel_cascade, for_each_safe in Ec. simpl in Ec.
    pose proof HW2 as [Hd2 _]. pose proof (Hd2 k Hk) as Hdk2. rewrite Hl2 in Hdk2.
    rewrite (dlist_next _ _ _ Hdk2) in Ec. simpl in Ec.
    destruct (next_of h2 (cut_next (slot_addr (tw_base w) k) l)) as [n'|] eqn:En2;
      simpl in *; [|done].
    assert (forall k', is_slot k' -> spread idx W k k' = spread idx (setW (setW W k l) (idx x) (setW W k l (idx x) ++ [x])) k k') as Hsame.
    { intros k' _. unfold spread. rewrite Hl2, Hl, filter_cons.
      destruct (decide (k' = k)) as [->|Hk']; [done|].
      destruct (decide (idx x = k')) as [<-|Hx].
      - rewrite setW_eq, setW_ne by done. by rewrite <- app_assoc.
      - by rewrite !setW_ne by done. }
    exists h'. split; [exact Ec|]. split; [by eapply wheel_lists_ext|].
    intros y Hy. eapply free_ok_ext; [exact Hsame|]. by apply HF', HF2, HF1.
Qed.
End cascade.

(** ** Where a timer sits *)

(** Ticks from [j] until [due], on the 32-bit tick counter. *)
Definition ticks_to (j due : Z) : Z := u32 (due - j).

(** Granularity (as a shift) and first slot of [vec2] .. [vec5]. *)
Definition levels : list (Z * Z) := [(8, 256); (14, 320); (20, 384); (26, 448)].

(** A timer due at [due] may sit in slot [k] at tick [j]: in [vec1] within 256
    ticks, or in a coarser vector whose slot is cascaded before it is due.
    Equality is allowed only for the levels above [S], still to be cascaded in
    this tick. *)
Definition placed (j S due k : Z) : Prop :=
  (k = due `mod` 256 /\ ticks_to j due < 256) \/
  (exists s off, (s, off) ∈ levels /\ k = off + (due / 2 ^ s) `mod` 64 /\
     ticks_to j due < 2 ^ (s + 6) /\
     (due `mod` 2 ^ s < ticks_to j due \/ S < s /\ due `mod` 2 ^ s = ticks_to j due)).

Ltac levels_cases H :=
  unfold levels in H; rewrite ?elem_of_cons, ?elem_of_nil in H;
  destruct H as [H|[H|[H|[H|[]]]]]; simplify_eq.
Ltac in_levels := unfold levels; rewrite !elem_of_cons; naive_solver.

Lemma slot_mod e j : timer_wheel_slot e j =
  if 2 ^ 31 <=? ticks_to j e then j `mod` 256
  else if ticks_to j e <? 2 ^ 8 then e `mod` 256
  else if ticks_to j e <? 2 ^ 14 then 256 + (e / 2 ^ 8) `mod` 64
  else if ticks_to j e <? 2 ^ 20 then 320 + (e / 2 ^ 14) `mod` 64
  else if ticks_to j e <? 2 ^ 26 then 384 + (e / 2 ^ 20) `mod` 64
  else 448 + (e / 2 ^ 26) `mod` 64.
Proof.
  unfold timer_wheel_slot, s32, sgn. fold (u32 (u32 (e - j))). wrap_simpl.
  pose proof (u32_range (e - j)) as Hr. fold (ticks_to j e) in *.
  rewrite !Z.shiftr_div_pow2 by lia.
  change 255 with (2 ^ 8 - 1). change 63 with (2 ^ 6 - 1). rewrite !land_mask by lia.
  change (2 ^ (32 - 1)) with (2 ^ 31).
  destruct (Z.ltb_spec (ticks_to j e) (2 ^ 31)).
  - rewrite (u32_small (ticks_to j e)) by lia. zcases; first [lia|reflexivity].
  - zcases; first [lia|reflexivity].
Qed.

Section ticks.
Context (j due : Z).
Hypothesis Hj : 0 <= j < 2 ^ 32.
Hypothesis Hdue : 0 <= due < 2 ^ 32.

Lemma ticks_eq : ticks_to j due = if j <=? due then due - j else due - j + 2 ^ 32.
Proof.
  unfold ticks_to. zcases; [apply u32_small; lia|].
  unfold u32, wrap. rewrite <- (Z_mod_plus_full _ 1), Z.mod_small; lia.
Qed.

Lemma slot_placed S : ticks_to j due < 2 ^ 31 -> placed j S due (timer_wheel_slot due j).
Proof.
  intros Hd. rewrite slot_mod. pose proof (u32_range (due - j)). fold (ticks_to j due) in *.
  assert (forall s, 0 <= s -> due `mod` 2 ^ s < 2 ^ s) as Hm by (intros; apply Z.mod_pos_bound; lia).
  destruct (Z.leb_spec (2 ^ 31) (ticks_to j due)); [lia|].
  destruct (Z.ltb_spec (ticks_to j due) (2 ^ 8)); [by left|right].
  destruct (Z.ltb_spec (ticks_to j due) (2 ^ 14));
    [|destruct (Z.ltb_spec (ticks_to j due) (2 ^ 20));
    [|destruct (Z.ltb_spec (ticks_to j due) (2 ^ 26))]].
  - exists 8, 256. split_and!; [in_levels|done|lia|]. left. specialize (Hm 8). lia.
  - exists 14, 320. split_and!; [in_levels|done|lia|]. left. specialize (Hm 14). lia.
  - exists 20, 384. split_and!; [in_levels|done|lia|]. left. specialize (Hm 20). lia.
  - exists 26, 448. split_and!; [in_levels|done|lia|]. left. specialize (Hm 26). lia.
Qed.

Lemma slot_below s off : (s, off) ∈ levels -> ticks_to j due < 2 ^ s -> timer_wheel_slot due j < off.
Proof.
  intros Hl Hd. rewrite slot_mod. levels_cases Hl; zcases; zmod.
Qed.

(** The slot that is cascaded at [j] holds only timers due within one
    granule. *)
Lemma cascade_hit S s off :
  (s, off) ∈ levels -> j `mod` 2 ^ s = 0 ->
  placed j S due (off + (j / 2 ^ s) `mod` 64) -> ticks_to j due < 2 ^ s.
Proof.
  intros Hl Hm [[Hk Hd]|(s' & off' & Hl' & Hk & Hd & _)].
  - levels_cases Hl; zmod.
  - rewrite ticks_eq in *.
    levels_cases Hl; levels_cases Hl'; zcases; zmod.
Qed.

(** The timers still at equality on level [s] are in the cascaded slot. *)
Lemma placed_next S s off k :
  (s, off) ∈ levels -> (forall s' off', (s', off') ∈ levels -> S < s' -> s <= s') ->
  j `mod` 2 ^ s = 0 -> k <> off + (j / 2 ^ s) `mod` 64 ->
  placed j S due k -> placed j s due k.
Proof.
  intros Hl Hmin Hm Hk [?|(s' & off' & Hl' & Hk' & Hd & Hs)]; [by left|right].
  exists s', off'. split_and!; [done..|].
  destruct Hs as [?|[HS He]]; [by left|]. specialize (Hmin _ _ Hl' HS).
  destruct (decide (s < s')); [by right|]. assert (s' = s) as -> by lia. exfalso. apply Hk. rewrite Hk'.
  rewrite ticks_eq in *. clear Hk Hk'. clear Hmin.
  levels_cases Hl; levels_cases Hl'; f_equal; f_equal; zcases; zmod.
Qed.

Lemma placed_skip S s off k :
  (s, off) ∈ levels -> (forall s' off', (s', off') ∈ levels -> S < s' -> s <= s') ->
  j `mod` 2 ^ s <> 0 -> placed j S due k -> placed j 26 due k.
Proof.
  intros Hl Hmin Hm [?|(s' & off' & Hl' & Hk' & Hd & Hs)]; [by left|right].
  exists s', off'. split_and!; [done..|]. left.
  destruct Hs as [?|[HS He]]; [done|]. specialize (Hmin _ _ Hl' HS).
  exfalso. rewrite ticks_eq in *.
  levels_cases Hl; levels_cases Hl'; zcases; zmod.
Qed.

Lemma placed_due k : placed j 26 due k -> k = j `mod` 256 -> due = j.
Proof.
  intros [[Hk Hd]|(s & off & Hl & Hk & Hd & Hs)] Hkj.
  - rewrite ticks_eq in *. zcases; zmod.
  - exfalso. levels_cases Hl; zmod.
Qed.

Lemma placed_not_due k : placed j 26 due k -> k <> j `mod` 256 -> due <> j.
Proof.
  intros [[Hk Hd]|(s & off & Hl & Hk & Hd & Hs)] Hkj He; [by subst|].
  rewrite ticks_eq in *. levels_cases Hl; zcases; zmod.
Qed.

Lemma ticks_step : due <> j -> ticks_to (u32 (j + 1)) due = ticks_to j due - 1.
Proof. intros. unfold ticks_to. unfold u32, wrap in *. Z.div_mod_to_equations. lia. Qed.

Lemma placed_step k :
  placed j 26 due k -> due <> j -> placed (u32 (j + 1)) 0 due k.
Proof.
  intros Hp Hne. unfold placed. rewrite ticks_step by done.
  destruct Hp as [[Hk Hd]|(s & off & Hl & Hk & Hd & Hs)]; [left; lia|right].
  exists s, off. split_and!; [done..|lia|].
  assert (0 < s /\ s <= 26) by (levels_cases Hl; lia). lia.
Qed.
End ticks.

(** ** The invariant of the wheel *)

(** A value of the 32-bit tick counter. *)
Definition is_tick (t : Z) : Prop := 0 <= t < 2 ^ 32.

(** The wheel holds the timers [P], a map from node to due tick, in lists [W].
    The cascades of the current tick are done up to level [S]. *)
Record wheel_inv (S : Z) (w : wheel) (W : Z -> list Z) (P : gmap Z Z) : Prop := {
  wi_lists : wheel_lists (tw_heap w) (tw_base w) W;
  wi_jiffies : is_tick (tw_jiffies w);
  wi_placed k x : is_slot k -> x ∈ W k ->
    exists due, P !! x = Some due /\ is_tick due /\
      placed (tw_jiffies w) S due k /\ (256 <= k -> tw_expires w !! x = Some due);
  wi_pending x due : P !! x = Some due -> exists k, is_slot k /\ x ∈ W k;
  wi_free x : is_Some (tw_expires w !! x) -> free_ok (tw_heap w) (tw_base w) W x
}.

(** A wheel between ticks. *)
Definition wheel_rep (w : wheel) (P : gmap Z Z) : Prop := exists W, wheel_inv 0 w W P.

Lemma slot_length S w W P k : wheel_inv S w W P -> is_slot k -> (length (W k) <= size P)%nat.
Proof.
  intros [[Hd _] _ Hp _] Hk. destruct (Hd k Hk) as [Hnd _]. apply NoDup_cons in Hnd as [_ Hnd].
  rewrite <- size_dom, <- (size_list_to_set (C := gset Z) (W k)) by done.
  apply subseteq_size. intros x Hx%elem_of_list_to_set. apply elem_of_dom.
  destruct (Hp k x Hk Hx) as (due & ? & _). by eexists.
Qed.

Lemma cascade_inv S s off w W P fuel :
  wheel_inv S w W P -> (s, off) ∈ levels ->
  (forall s' off', (s', off') ∈ levels -> S < s' -> s <= s') ->
  tw_jiffies w `mod` 2 ^ s = 0 -> (size P < fuel)%nat ->
  exists h W', timer_wheel_cascade fuel w (off + (tw_jiffies w / 2 ^ s) `mod` 64)
                 = Some (with_heap w h) /\ wheel_inv s (with_heap w h) W' P.
Proof.
  intros HI Hl Hmin Hj Hfuel. pose proof HI as [HW Hjr Hp Hq Hfr].
  set (k := off + (tw_jiffies w / 2 ^ s) `mod` 64).
  assert (is_slot k /\ 256 <= off) as [Hk Hoff].
  { unfold is_slot, k. pose proof (Z.mod_pos_bound (tw_jiffies w / 2 ^ s) 64).
    levels_cases Hl; lia. }
  set (idx := fun x => timer_wheel_slot (default 0 (P !! x)) (tw_jiffies w)).
  assert (Hin : forall x, x ∈ W k -> exists due, P !! x = Some due /\ is_tick due /\
    tw_expires w !! x = Some due /\ idx x = timer_wheel_slot due (tw_jiffies w) /\
    ticks_to (tw_jiffies w) due < 2 ^ s /\ idx x < k).
  { intros x Hx. destruct (Hp k x Hk Hx) as (due & E & Hd & Hpl & He). exists due.
    assert (ticks_to (tw_jiffies w) due < 2 ^ s) by (by eapply cascade_hit).
    assert (idx x = timer_wheel_slot due (tw_jiffies w)) as Ei by (unfold idx; by rewrite E).
    assert (0 <= (tw_jiffies w / 2 ^ s) `mod` 64) by (apply Z.mod_pos_bound; lia).
    split_and!; [done..|apply He; lia|done|done|].
    rewrite Ei. assert (timer_wheel_slot due (tw_jiffies w) < off) by (by eapply slot_below). lia. }
  destruct (cascade_loop w k idx Hk fuel (W k) W (tw_heap w)) as (h & E & HW' & HF'); [done|done|..].
  { pose proof (slot_length _ _ _ _ k HI Hk). lia. }
  { intros x Hx. destruct (Hin x Hx) as (due & ? & ? & ? & ? & ? & ?). exists due. split_and!; [done..|lia]. }
  exists h, (spread idx W k). split; [by destruct w|]. split; [done|done| | |]; simpl.
  - intros k' x Hk'. unfold spread. destruct (decide (k' = k)) as [|Hne]; [set_solver|].
    intros [Hx|[Hx1 Hx2]%list_elem_of_filter]%elem_of_app.
    + destruct (Hp k' x Hk' Hx) as (due & ? & ? & ? & ?). exists due. split_and!; [done..| |done].
      by eapply placed_next.
    + destruct (Hin x Hx2) as (due & ? & ? & ? & Ei & ? & ?). exists due.
      split_and!; [done..| |done]. rewrite <- Hx1, Ei. apply slot_placed; [done..|].
      assert (2 ^ s < 2 ^ 31) by (levels_cases Hl; lia). lia.
  - intros x due Hx. destruct (Hq x due Hx) as (k' & Hk' & Hxk).
    destruct (decide (k' = k)) as [->|Hne].
    + exists (idx x). destruct (Hin x Hxk) as (? & ? & ? & ? & ? & ? & ?).
      split; [apply slot_range|]. unfold spread. rewrite decide_False by lia.
      apply elem_of_app. right. by apply list_elem_of_filter.
    + exists k'. split; [done|]. unfold spread. rewrite decide_False by done. set_solver.
  - intros x Hx. by apply HF', Hfr.
Qed.

Lemma skip_inv S s off w W P :
  wheel_inv S w W P -> (s, off) ∈ levels ->
  (forall s' off', (s', off') ∈ levels -> S < s' -> s <= s') ->
  tw_jiffies w `mod` 2 ^ s <> 0 -> wheel_inv 26 w W P.
Proof.
  intros [HW Hjr Hp Hq Hfr] Hl Hmin Hj. split; [done|done| |done|done].
  intros k x Hk Hx. destruct (Hp k x Hk Hx) as (due & ? & ? & ? & ?).
  exists due. split_and!; [done..| |done]. by eapply placed_skip.
Qed.

(** One level of [cascade_levels]: the nested test fails ([level_skip]) or the
    cascade of the level runs ([level_run]). *)
Ltac level_min := let Hl := fresh in intros ? ? Hl ?; levels_cases Hl; lia.
Ltac level_skip S s off h W :=
  exists h, W; split; [first [done|match goal with |- Some ?w = _ => by destruct w end]|];
  eapply (skip_inv S s off); [done|in_levels|level_min|]; simpl; zmod.
Tactic Notation "level_run" constr(S) constr(s) constr(off) constr(HI) constr(fuel)
    "as" ident(h) ident(W) ident(HI') :=
  let E := fresh "E" in
  destruct (fun Hl Hm => cascade_inv S s off _ _ _ fuel HI Hl Hm) as (h & W & E & HI');
  [in_levels|level_min|simpl; zmod|done|];
  simpl in E; rewrite E; clear E; simpl.

Lemma cascade_levels_inv w W P fuel :
  wheel_inv 0 w W P -> (size P < fuel)%nat ->
  exists h W', cascade_levels fuel w = Some (with_heap w h) /\ wheel_inv 26 (with_heap w h) W' P.
Proof.
  intros HI Hfuel. unfold cascade_levels, vec2, vec3, vec4, vec5.
  rewrite !Z.shiftr_div_pow2 by lia.
  change 255 with (2 ^ 8 - 1). change 63 with (2 ^ 6 - 1). rewrite !land_mask by lia.
  change (2 ^ 6) with 64.
  assert (w = with_heap w (tw_heap w)) as Hw by (by destruct w).
  destruct (Z.eqb_spec (tw_jiffies w `mod` 2 ^ 8) 0) as [H1|H1].
  2: { rewrite Hw in HI. level_skip 0 8 256 (tw_heap w) W. }
  level_run 0 8 256 HI fuel as h1 W1 HI1.
  destruct (Z.eqb_spec ((tw_jiffies w / 2 ^ 8) `mod` 64) 0) as [H2|H2]; [|level_skip 8 14 320 h1 W1].
  level_run 8 14 320 HI1 fuel as h2 W2 HI2.
  destruct (Z.eqb_spec ((tw_jiffies w / 2 ^ 14) `mod` 64) 0) as [H3|H3]; [|level_skip 14 20 384 h2 W2].
  level_run 14 20 384 HI2 fuel as h3 W3 HI3.
  destruct (Z.eqb_spec ((tw_jiffies w / 2 ^ 20) `mod` 64) 0) as [H4|H4]; [|level_skip 20 26 448 h3 W3].
  level_run 20 26 448 HI3 fuel as h4 W4 HI4.
  by eexists _, _.
Qed.

(** ** One tick and [jlos_timer_wheel_advance] *)

Section fire.
Context {C : Type} (expire : wheel -> C -> Z -> option (wheel * C)) (f : C -> Z -> C).
(** The callback leaves the wheel alone, as [sleep_expire] of
    [kernel/multitask.c] does: it only wakes the task. *)
Hypothesis expire_ctx : forall w c n, expire w c n = Some (w, f c n).

Lemma expire_loop w k fuel l W h ctx :
  is_slot k -> wheel_lists h (tw_base w) W -> W k = l -> (length l < fuel)%nat ->
  exists h',
    for_each_safe fst
      (fun '(w, ctx) node => w ← jlos_timer_wheel_del w node; expire w ctx node)
      (slot_addr (tw_base w) k) fuel (with_heap w h, ctx)
    = Some (with_heap w h', foldl f ctx l) /\
    wheel_lists h' (tw_base w) (setW W k []) /\
    (forall y, free_ok h (tw_base w) W y -> free_ok h' (tw_base w) (setW W k []) y).
Proof.
  intros Hk. revert W h fuel ctx. induction l as [|x l IH]; intros W h fuel ctx HW Hl Hfuel;
    unfold for_each_safe; simpl;
    pose proof HW as [Hd _]; pose proof (Hd k Hk) as Hdk; rewrite Hl in Hdk;
    rewrite (dlist_next _ _ _ Hdk); simpl.
  - exists h. change (cut_next ?a []) with a. rewrite (dlist_next _ _ _ Hdk). simpl.
    destruct fuel as [|fuel]; [simpl in *; lia|]. simpl.
    rewrite bool_decide_true by done. split; [done|].
    assert (forall k', is_slot k' -> setW W k [] k' = W k') as Hsame by (intros k' _; destruct (decide (k' = k)) as [->|]; [by rewrite setW_eq|by rewrite setW_ne]).
    split; [by eapply wheel_lists_ext|]. intros y. by apply free_ok_ext.
  - destruct (dlist_at _ _ [] x l Hdk) as [_ En].
    unfold cut_next at 1 2. simpl. rewrite En. simpl.
    destruct fuel as [|fuel]; [simpl in *; lia|]. simpl.
    destruct Hdk as [Hnd _]. apply NoDup_cons in Hnd as [Hni Hnd].
    rewrite bool_decide_false by set_solver.
    unfold jlos_timer_wheel_del. simpl.
    destruct (wheel_lists_del h _ W k [] x l HW Hk Hl) as (h1 & -> & HW1 & _ & _ & HF1). simpl in *.
    rewrite expire_ctx. simpl.
    destruct (IH _ h1 fuel (f ctx x) HW1 (setW_eq W k l)) as (h' & Ec & HW' & HF'); [lia|].
    unfold for_each_safe in Ec. simpl in Ec.
    pose proof HW1 as [Hd1 _]. pose proof (Hd1 k Hk) as Hdk1. rewrite setW_eq in Hdk1.
    rewrite (dlist_next _ _ _ Hdk1) in Ec. simpl in Ec.
    destruct (next_of h1 (cut_next (slot_addr (tw_base w) k) l)) as [n'|] eqn:En2;
      simpl in *; [|done].
    assert (forall k', is_slot k' -> setW W k [] k' = setW (setW W k l) k [] k') as Hsame by (intros k' _; destruct (decide (k' = k)) as [->|]; [by rewrite !setW_eq|by rewrite !setW_ne]).
    exists h'. split; [exact Ec|]. split; [by eapply wheel_lists_ext|].
    intros y Hy. eapply free_ok_ext; [exact Hsame|]. by apply HF', HF1.
Qed.

(** The timers that stay when those due at tick [j] are taken out. *)
Definition not_due (j : Z) (P : gmap Z Z) : gmap Z Z := filter (fun p => p.2 <> j) P.

Lemma advance_tick_spec w P fuel ctx :
  wheel_rep w P -> (size P < fuel)%nat ->
  exists w' fired,
    advance_tick expire fuel w ctx = Some (w', foldl f ctx fired) /\
    NoDup fired /\ (forall x, x ∈ fired <-> P !! x = Some (tw_jiffies w)) /\
    wheel_rep w' (not_due (tw_jiffies w) P) /\
    tw_jiffies w' = u32 (tw_jiffies w + 1) /\ tw_base w' = tw_base w /\
    tw_expires w' = tw_expires w.
Proof.
  intros [W HI] Hfuel.
  destruct (cascade_levels_inv w W P fuel HI Hfuel) as (h & W' & E & HI').
  pose proof HI' as [HW Hjr Hp Hq Hfr]. simpl in *.
  unfold advance_tick. rewrite E. simpl. unfold vec1.
  change 255 with (2 ^ 8 - 1). rewrite !land_mask by lia.
  set (j := tw_jiffies w) in *. set (k := j `mod` 2 ^ 8).
  assert (is_slot k) as Hk by (unfold is_slot, k; pose proof (Z.mod_pos_bound j (2 ^ 8)); lia).
  destruct (expire_loop (with_jiffies w (u32 (j + 1))) k fuel (W' k) W' h ctx Hk HW eq_refl)
    as (h' & E' & HW' & HF').
  { pose proof (slot_length _ _ _ _ k HI' Hk). lia. }
  simpl in E'. unfold with_jiffies, with_heap in *. simpl in *. rewrite E'.
  assert (Hdue : forall k' x due, is_slot k' -> x ∈ W' k' -> P !! x = Some due ->
                   due = j <-> k' = k).
  { intros k' x due Hk' Hx Hpx. destruct (Hp k' x Hk' Hx) as (due' & ? & ? & Hpl & _).
    simplify_eq. split.
    - intros ->. destruct (decide (k' = k)); [done|]. exfalso. by eapply placed_not_due.
    - intros ->. by eapply placed_due. }
  eexists _, (W' k). split; [done|]. split_and!; [| | |done..].
  - destruct HW as [Hd _]. destruct (Hd k Hk) as [Hnd _]. by apply NoDup_cons in Hnd as [_ ?].
  - intros x. split.
    + intros Hx. destruct (Hp k x Hk Hx) as (due & Hpx & _).
      by rewrite (proj2 (Hdue k x due Hk Hx Hpx)) in Hpx.
    + intros Hpx. destruct (Hq x j Hpx) as (k' & Hk' & Hx).
      by rewrite (proj1 (Hdue k' x j Hk' Hx Hpx) eq_refl) in Hx.
  - exists (setW W' k []). split; simpl; [done|apply u32_range| | |].
    + intros k' x Hk'. destruct (decide (k' = k)) as [->|Hne]; [rewrite setW_eq; set_solver|].
      rewrite setW_ne by done. intros Hx.
      destruct (Hp k' x Hk' Hx) as (due & Hpx & Hdr & Hpl & He). exists due.
      assert (due <> j) by (intros Hj; by apply (Hdue k' x due) in Hj).
      split_and!; [|done|by apply placed_step|done].
      by apply map_lookup_filter_Some.
    + intros x due [Hpx Hne]%map_lookup_filter_Some. destruct (Hq x due Hpx) as (k' & Hk' & Hx).
      exists k'. split; [done|]. rewrite setW_ne; [done|]. intros ->.
      by apply Hne, (Hdue k x due).
    + intros x Hx. by apply HF', Hfr.
Qed.
End fire.

Lemma s32_neg x : (s32 (u32 x) <? 0) = (2 ^ 31 <=? u32 x).
Proof.
  unfold s32, sgn. fold (u32 (u32 x)). wrap_simpl. pose proof (u32_range x).
  change (2 ^ (32 - 1)) with (2 ^ 31). zcases; lia.
Qed.

(** Ticks until the timer of node [x] is due. *)
Definition remaining (j : Z) (P : gmap Z Z) (x : Z) : Z := default 0 (ticks_to j <$> P !! x).

Lemma not_due_size j P : (size (not_due j P) <= size P)%nat.
Proof.
  rewrite <- !size_dom. apply subseteq_size. intros x [d Hd]%elem_of_dom.
  apply map_lookup_filter_Some in Hd as [? _]. by apply elem_of_dom_2 in H.
Qed.

Lemma advance_correct {C} (expire : wheel -> C -> Z -> option (wheel * C)) (f : C -> Z -> C)
    (expire_ctx : forall w c n, expire w c n = Some (w, f c n)) ticks fuel w P now ctx :
  wheel_rep w P -> is_tick now ->
  (forall x due, P !! x = Some due -> is_tick due) -> is_tick (tw_jiffies w) ->
  ticks_to (tw_jiffies w) now < 2 ^ 31 ->
  ticks_to (tw_jiffies w) now < Z.of_nat ticks -> (size P < fuel)%nat ->
  exists w' fired,
    jlos_timer_wheel_advance expire ticks fuel w now ctx = Some (w', foldl f ctx fired) /\
    tw_jiffies w' = u32 (now + 1) /\
    NoDup fired /\
    (forall x, x ∈ fired <->
       exists due, P !! x = Some due /\ ticks_to (tw_jiffies w) due <= ticks_to (tw_jiffies w) now) /\
    StronglySorted (fun x y => remaining (tw_jiffies w) P x <= remaining (tw_jiffies w) P y) fired /\
    wheel_rep w' (filter (fun p => ticks_to (tw_jiffies w) now < ticks_to (tw_jiffies w) p.2) P).
Proof.
  revert w P ctx. induction ticks as [|ticks IH]; intros w P ctx HR Hnow HP Hj Hlt Hticks Hfuel.
  { unfold ticks_to in *. pose proof (u32_range (now - tw_jiffies w)). lia. }
  simpl. rewrite s32_neg. fold (ticks_to (tw_jiffies w) now).
  destruct (Z.leb_spec (2 ^ 31) (ticks_to (tw_jiffies w) now)); [lia|].
  destruct (advance_tick_spec expire f expire_ctx w P fuel ctx HR Hfuel)
    as (w1 & l & -> & Hndl & Hl & HR1 & Hj1 & _ & _). simpl.
  set (j := tw_jiffies w) in *. set (P1 := not_due j P) in *.
  assert (Hstep : forall due, is_tick due -> due <> j ->
            ticks_to (tw_jiffies w1) due = ticks_to j due - 1) by (intros; rewrite Hj1; by apply ticks_step).
  assert (Hz : ticks_to j j = 0) by (unfold ticks_to; by rewrite Z.sub_diag).
  assert (Hpos : forall due, is_tick due -> due <> j -> 1 <= ticks_to j due).
  { intros due ? ?. rewrite ticks_eq by done. unfold is_tick in *. zcases; lia. }
  assert (HP1 : forall x due, P1 !! x = Some due <-> P !! x = Some due /\ due <> j)
    by (intros; apply map_lookup_filter_Some).
  destruct (decide (now = j)) as [->|Hne].
  - assert (Hstop : jlos_timer_wheel_advance expire ticks fuel w1 j (foldl f ctx l)
                      = Some (w1, foldl f ctx l)).
    { assert ((s32 (u32 (j - tw_jiffies w1)) <? 0) = true) as Hs.
      { rewrite s32_neg, Hj1. wrap_simpl. replace (j - (j + 1)) with (-1) by lia. done. }
      destruct ticks; simpl; by rewrite Hs. }
    exists w1, l. split; [done|]. rewrite Hz. split_and!; [done|done| | |].
    + intros x. rewrite Hl. split; [intros; exists j; split; [done|lia]|].
      intros (due & Hpx & Hd). destruct (decide (due = j)) as [->|Hd']; [done|].
      pose proof (Hpos due (HP x due Hpx) Hd'). lia.
    + apply StronglySorted_forall. intros x y Hx%Hl Hy%Hl. unfold remaining. rewrite Hx, Hy. done.
    + eapply eq_ind; [exact HR1|]. apply map_eq. intros x. apply option_eq. intros due.
      unfold P1, not_due. rewrite !map_lookup_filter_Some. simpl.
      split; (intros [Hpx Hd]; split; [done|]).
      * pose proof (Hpos due (HP x due Hpx) Hd). lia.
      * intros ->. lia.
  - destruct (IH w1 P1 (foldl f ctx l)) as (w' & l' & E & Hj' & Hnd' & Hl' & Hs' & HR');
      [done|done|..].
    { intros x due [Hpx _]%HP1. by eapply HP. }
    { rewrite Hj1. apply u32_range. }
    { rewrite Hstep by done. lia. }
    { rewrite Hstep by done. lia. }
    { pose proof (not_due_size j P). unfold P1. lia. }
    assert (Hrem : forall x, x ∈ l' -> remaining (tw_jiffies w1) P1 x = remaining j P x - 1 /\
                                     1 <= remaining j P x).
    { intros x (due & Hpx & _)%Hl'. unfold remaining. rewrite Hpx.
      apply HP1 in Hpx as [Hpx Hd]. rewrite Hpx. simpl.
      rewrite Hstep by eauto. pose proof (Hpos due (HP x due Hpx) Hd). lia. }
    exists w', (l ++ l'). rewrite E, foldl_app. split; [done|]. split_and!; [done|..].
    + apply NoDup_app. split_and!; [done| |done]. intros x Hx (due & Hpx & _)%Hl'.
      apply HP1 in Hpx as [Hpx Hd]. apply Hl in Hx. by simplify_eq.
    + intros x. rewrite elem_of_app, Hl, Hl'. rewrite (Hstep now) by done. split.
      * intros [Hx|(due & [Hpx Hd]%HP1 & Hle)].
        -- exists j. pose proof (Hpos now Hnow Hne). split; [done|lia].
        -- exists due. split; [done|]. rewrite Hstep in Hle by eauto. lia.
      * intros (due & Hpx & Hle). destruct (decide (due = j)) as [->|Hd]; [by left|right].
        exists due. split; [by apply HP1|]. rewrite Hstep by eauto. lia.
    + apply StronglySorted_app_2.
      * intros x y Hx%Hl Hy%Hrem.
        assert (remaining j P x = 0) by (unfold remaining; rewrite Hx; exact Hz).
        cbv beta. lia.
      * apply StronglySorted_forall. intros x y Hx%Hl Hy%Hl. unfold remaining. by rewrite Hx, Hy.
      * eapply StronglySorted_impl_elem; [|exact Hs']. intros x y Hx%Hrem Hy%Hrem. cbv beta. lia.
    + eapply eq_ind; [exact HR'|]. apply map_eq. intros x. apply option_eq. intros due.
      unfold P1, not_due. rewrite !map_lookup_filter_Some. simpl. rewrite (Hstep now) by done.
      pose proof (Hpos now Hnow Hne). split.
      * intros [[Hpx Hd] Hlt']. split; [done|]. rewrite Hstep in Hlt' by eauto. lia.
      * intros [Hpx Hlt']. assert (due <> j) by (intros ->; lia).
        split; [done|]. rewrite Hstep by eauto. lia.
Qed.

Lemma rep_ticks w P :
  wheel_rep w P -> is_tick (tw_jiffies w) /\ forall x due, P !! x = Some due -> is_tick due.
Proof.
  intros [W [_ Hj Hp Hq _]]. split; [done|]. intros x due Hx.
  destruct (Hq x due Hx) as (k & Hk & Hxk). destruct (Hp k x Hk Hxk) as (? & ? & ? & _). by simplify_eq.
Qed.

(** C21. Advancing the wheel to [now] terminates and calls the callback exactly
    once for every pending timer whose due tick has been reached, in the order
    of the due ticks and across any number of cascades between the levels; all
    other timers stay pending, and the wheel stands at tick [now + 1].  When
    [now] is behind the wheel (signed 32-bit comparison) nothing happens. *)
Theorem timer_wheel_advance_fires {C} (expire : wheel -> C -> Z -> option (wheel * C))
    (f : C -> Z -> C) ticks fuel w P now ctx :
  (forall w c n, expire w c n = Some (w, f c n)) ->
  wheel_rep w P -> is_tick now ->
  ticks_to (tw_jiffies w) now < Z.of_nat ticks \/ 2 ^ 31 <= ticks_to (tw_jiffies w) now ->
  (size P < fuel)%nat ->
  let j := tw_jiffies w in
  if 2 ^ 31 <=? ticks_to j now
  then jlos_timer_wheel_advance expire ticks fuel w now ctx = Some (w, ctx)
  else exists w' fired,
    jlos_timer_wheel_advance expire ticks fuel w now ctx = Some (w', foldl f ctx fired) /\
    tw_jiffies w' = u32 (now + 1) /\
    NoDup fired /\
    (forall x, x ∈ fired <-> exists due, P !! x = Some due /\ ticks_to j due <= ticks_to j now) /\
    StronglySorted (fun x y => remaining j P x <= remaining j P y) fired /\
    wheel_rep w' (filter (fun p => ticks_to j now < ticks_to j p.2) P).
Proof.
  intros Hcb HR Hnow Hticks Hfuel j. destruct (rep_ticks w P HR) as [Hj HP].
  destruct (Z.leb_spec (2 ^ 31) (ticks_to j now)).
  - assert ((s32 (u32 (now - tw_jiffies w)) <? 0) = true) as Hs.
    { rewrite s32_neg. apply Z.leb_le. done. }
    destruct ticks; simpl; by rewrite Hs.
  - unfold j in *. apply advance_correct; [done|done|done|done|done|lia|lia|done].
Qed.

(** ** Arming and disarming *)

Lemma init_all_spec h ps :
  (forall p, p ∈ ps -> is_Some (next_of h p)) -> NoDup ps ->
  exists h', init_all h ps = Some h' /\ (forall p, p ∈ ps -> dlist h' p []) /\
    only_changes ps h h'.
Proof.
  revert h. induction ps as [|p ps IH]; intros h Hv Hnd; simpl.
  - exists h. split; [done|]. split; [set_solver|done].
  - apply NoDup_cons in Hnd as [Hni Hnd].
    assert (is_Some (next_of h p)) as Hp by (apply Hv; constructor).
    destruct (init_spec h _ _ p (heap_is_refl h)) as (h1 & -> & HN & HP);
      [done|by apply prev_is_Some|]. simpl.
    assert (only_changes [p] h h1) as Hf1.
    { intros y Hy. apply heap_eq; rewrite ?HN, ?HP, upd_ne; set_solver. }
    destruct (IH h1) as (h' & -> & Hd & Hf); [|done|].
    { intros q Hq. rewrite HN. apply upd_is_Some, Hv. by constructor. }
    exists h'. split; [done|]. split.
    + intros q [->|Hq]%elem_of_cons; [|by apply Hd].
      apply (only_changes_dlist ps h1); [done|set_solver|].
      split; [apply NoDup_singleton|]. split; rewrite ?HN, ?HP; apply upd_eq.
    + eapply only_changes_trans; eapply only_changes_mono; [|exact Hf1| |exact Hf]; set_solver.
Qed.

(** The tick at which a timer armed at [j] with expiry [e] fires: an expiry in
    the past fires at the next tick processed. *)
Definition due_tick (j e : Z) : Z := if 2 ^ 31 <=? ticks_to j e then j else e.

Lemma armed_placed j e :
  is_tick j -> is_tick e -> placed j 0 (due_tick j e) (timer_wheel_slot e j) /\
  (256 <= timer_wheel_slot e j -> due_tick j e = e).
Proof.
  intros Hj He. unfold due_tick. destruct (Z.leb_spec (2 ^ 31) (ticks_to j e)).
  - rewrite slot_mod. rewrite (proj2 (Z.leb_le _ _)) by done. split.
    + left. split; [done|]. unfold ticks_to. by rewrite Z.sub_diag.
    + intros. pose proof (Z.mod_pos_bound j 256). lia.
  - split; [|done]. by apply slot_placed.
Qed.

Lemma add_rep w P n e :
  wheel_rep w P -> tw_expires w !! n = Some e -> is_tick e ->
  is_Some (next_of (tw_heap w) n) -> P !! n = None ->
  (forall k, is_slot k -> n <> slot_addr (tw_base w) k) ->
  exists w', jlos_timer_wheel_add w n = Some w' /\
    wheel_rep w' (<[n := due_tick (tw_jiffies w) e]> P) /\ tw_jiffies w' = tw_jiffies w.
Proof.
  intros [W [HW Hj Hp Hq Hfr]] He Her Hn HPn Hns.
  assert (unlinked (tw_base w) W n) as Hu.
  { intros k Hk [?|Hx]%elem_of_cons; [by eapply Hns|]. destruct (Hp k n Hk Hx) as (? & ? & _). congruence. }
  set (k := timer_wheel_slot e (tw_jiffies w)). pose proof (slot_range e (tw_jiffies w)) as Hk. fold k in Hk.
  destruct (wheel_lists_add _ _ _ k n HW Hk Hn Hu) as (h' & E & HW' & HF').
  unfold jlos_timer_wheel_add. rewrite He. simpl. fold k. rewrite E. simpl.
  eexists. split; [done|]. split; [|done]. destruct (armed_placed _ _ Hj Her) as [Hpl Hlate].
  exists (setW W k (W k ++ [n])). split; simpl; [done|done| | |].
  - intros k' x Hk'. destruct (decide (x = n)) as [->|Hxn].
    + intros Hx. exists (due_tick (tw_jiffies w) e). rewrite lookup_insert_eq.
      destruct (decide (k' = k)) as [->|Hne].
      * split_and!; [done|unfold due_tick; by case_match|done|]. intros Hk256. by rewrite He, Hlate.
      * rewrite setW_ne in Hx by done. exfalso. eapply Hu; [exact Hk'|by constructor].
    + rewrite lookup_insert_ne by done. intros Hx. apply Hp; [done|].
      destruct (decide (k' = k)) as [->|]; [rewrite setW_eq in Hx; set_solver|by rewrite setW_ne in Hx].
  - intros x due Hx. destruct (decide (x = n)) as [->|Hxn].
    + exists k. rewrite setW_eq. set_solver.
    + rewrite lookup_insert_ne in Hx by done. destruct (Hq x due Hx) as (k' & Hk' & Hxk).
      exists k'. split; [done|]. destruct (decide (k' = k)) as [->|]; [rewrite setW_eq; set_solver|by rewrite setW_ne].
  - intros x Hx. by apply HF', Hfr.
Qed.

Lemma del_rep w P n due :
  wheel_rep w P -> P !! n = Some due ->
  exists w', jlos_timer_wheel_del w n = Some w' /\ wheel_rep w' (delete n P) /\
    tw_jiffies w' = tw_jiffies w.
Proof.
  intros [W [HW Hj Hp Hq Hfr]] Hn. destruct (Hq n due Hn) as (k & Hk & Hnk).
  apply list_elem_of_split in Hnk as (l1 & l2 & Hl).
  destruct (wheel_lists_del _ _ W k l1 n l2 HW Hk Hl) as (h' & E & HW' & _ & Hu & HF').
  unfold jlos_timer_wheel_del. rewrite E. simpl. eexists. split; [done|]. split; [|done].
  exists (setW W k (l1 ++ l2)). split; simpl; [done|done| | |].
  - intros k' x Hk' Hx. assert (x <> n) by (intros ->; eapply Hu; [exact Hk'|by constructor]).
    rewrite lookup_delete_ne by done. apply Hp; [done|].
    destruct (decide (k' = k)) as [->|]; [rewrite setW_eq in Hx; rewrite Hl; set_solver|by rewrite setW_ne in Hx].
  - intros x d [Hne Hx]%lookup_delete_Some. destruct (Hq x d Hx) as (k' & Hk' & Hxk).
    exists k'. split; [done|]. destruct (decide (k' = k)) as [->|]; [|by rewrite setW_ne].
    rewrite setW_eq. rewrite Hl in Hxk. set_solver.
  - intros x Hx. by apply HF', Hfr.
Qed.

Lemma slot_addr_inj base k k' : slot_addr base k = slot_addr base k' -> k = k'.
Proof. unfold slot_addr. lia. Qed.

(** The order in which [jlos_timer_wheel_init] visits the slots. *)
Definition init_order : list Z :=
  map vec1 (seqZ 0 256) ++ (seqZ 0 64 ≫= fun i => [vec2 i; vec3 i; vec4 i; vec5 i]).

Lemma init_order_all k : k ∈ init_order <-> is_slot k.
Proof.
  assert (bool_decide (list_to_set init_order = (list_to_set (seqZ 0 512) : gset Z)) = true) as He
    by (by vm_compute).
  apply bool_decide_eq_true_1 in He.
  rewrite <- (elem_of_list_to_set (C := gset Z)), He, elem_of_list_to_set, elem_of_seqZ.
  unfold is_slot. lia.
Qed.

Lemma init_order_NoDup : NoDup init_order.
Proof. apply (bool_decide_unpack _). by vm_compute. Qed.

(** The timer nodes are initialised and apart from the wheel. *)
Definition nodes_ready (w : wheel) : Prop :=
  forall x, is_Some (tw_expires w !! x) -> dlist (tw_heap w) x [] /\ forall k, is_slot k -> x <> slot_addr (tw_base w) k.

Lemma init_rep w j :
  (forall k, is_slot k -> is_Some (next_of (tw_heap w) (slot_addr (tw_base w) k))) -> nodes_ready w -> is_tick j ->
  exists w', jlos_timer_wheel_init w j = Some w' /\ wheel_rep w' ∅ /\
    tw_jiffies w' = j /\ tw_base w' = tw_base w /\ tw_expires w' = tw_expires w /\
    (forall p, (forall k, is_slot k -> p <> slot_addr (tw_base w) k) -> tw_heap w' !! p = tw_heap w !! p).
Proof.
  intros Hv Hnr Hj. set (a := slot_addr (tw_base w)).
  assert (jlos_timer_wheel_init w j =
            (h ← init_all (tw_heap w) (map a init_order); Some (with_jiffies (with_heap w h) j))) as ->.
  { unfold jlos_timer_wheel_init, init_order. fold a. rewrite map_app, map_map.
    generalize (tw_heap w). generalize (seqZ 0 256). intros l.
    replace (map a (seqZ 0 64 ≫= fun i => [vec2 i; vec3 i; vec4 i; vec5 i])) with
      (seqZ 0 64 ≫= fun i => [a (vec2 i); a (vec3 i); a (vec4 i); a (vec5 i)]) by reflexivity.
    generalize (seqZ 0 64 ≫= fun i => [a (vec2 i); a (vec3 i); a (vec4 i); a (vec5 i)]). intros l'.
    induction l as [|i l IH]; intros h; simpl; [done|].
    destruct (jlos_list_init h (a (vec1 i))); simpl; [apply IH|done]. }
  destruct (init_all_spec (tw_heap w) (map a init_order)) as (h' & -> & Hd & Hf).
  { intros p (k & -> & Hk%init_order_all)%list_elem_of_fmap. by apply Hv. }
  { apply (NoDup_fmap_2_strong a); [|apply init_order_NoDup]. intros. by eapply slot_addr_inj. }
  eexists. split; [done|]. split; [|split_and!; [done..|]].
  - exists (fun _ => []). split; [|done| | |].
    2: { by intros k x _ Hx%elem_of_nil. }
    2: { by intros x due Hx%lookup_empty_Some. }
    2: { intros x Hx _. destruct (Hnr x Hx) as [Hdx Hns]. eapply only_changes_dlist; [exact Hf| |exact Hdx].
         intros y ->%list_elem_of_singleton (k & E & Hk%init_order_all)%list_elem_of_fmap. by apply (Hns k). }
    split.
    + intros k Hk. apply Hd. apply list_elem_of_fmap. exists k. by rewrite init_order_all.
    + intros k k' x _ _ Hne Hx Hx'. apply list_elem_of_singleton in Hx, Hx'. subst.
      by apply Hne, (slot_addr_inj (tw_base w)).
  - intros p Hp. apply Hf. intros (k & -> & Hk%init_order_all)%list_elem_of_fmap. by apply (Hp k).
Qed.

(** The wheel keeps a set of armed timers: [init] makes it empty, [add]
    arms one more timer, due at its expiry tick or, when that lies in the past,
    at the next tick, and [del] disarms one, whatever slot it sits in. *)
Theorem timer_wheel_arming w :
  ((forall k, is_slot k -> is_Some (next_of (tw_heap w) (slot_addr (tw_base w) k))) ->
   nodes_ready w -> forall j, is_tick j ->
   exists w', jlos_timer_wheel_init w j = Some w' /\ wheel_rep w' ∅ /\ tw_jiffies w' = j) /\
  (forall P n e, wheel_rep w P -> tw_expires w !! n = Some e -> is_tick e ->
     is_Some (next_of (tw_heap w) n) -> P !! n = None ->
     (forall k, is_slot k -> n <> slot_addr (tw_base w) k) ->
     exists w', jlos_timer_wheel_add w n = Some w' /\
       wheel_rep w' (<[n := due_tick (tw_jiffies w) e]> P)) /\
  (forall P n due, wheel_rep w P -> P !! n = Some due ->
     exists w', jlos_timer_wheel_del w n = Some w' /\ wheel_rep w' (delete n P)).
Proof.
  split_and!.
  - intros Hv Hnr j Hj. destruct (init_rep w j Hv Hnr Hj) as (w' & ? & ? & ? & _). eauto.
  - intros P n e ? ? ? ? ? ?. destruct (add_rep w P n e) as (w' & ? & ? & _); [done..|]. eauto.
  - intros P n due ? ?. destruct (del_rep w P n due) as (w' & ? & ? & _); [done..|]. eauto.
Qed.

(** ** A concrete wheel: base 1000, one node at 9000 expiring at tick 300 *)

Definition sample_wheel : wheel :=
  Wheel 1000
    (<[9000 := LNode 9000 9000]> (list_to_map (map (fun k => (slot_addr 1000 k, LNode 0 0)) (seqZ 0 512))))
    {[9000 := 300]} 0.

Lemma sample_wheel_slots k :
  is_slot k -> is_Some (next_of (tw_heap sample_wheel) (slot_addr (tw_base sample_wheel) k)).
Proof.
  intros Hk. assert (Forall (fun k => is_Some (next_of (tw_heap sample_wheel) (slot_addr 1000 k))) (seqZ 0 512)) as HF.
  { apply (bool_decide_unpack _). by vm_compute. }
  rewrite Forall_forall in HF. apply HF, elem_of_seqZ. unfold is_slot in Hk. lia.
Qed.

Lemma sample_nodes : nodes_ready sample_wheel.
Proof.
  intros x [e He]. simpl in He. apply lookup_singleton_Some in He as [<- _]. split; [|unfold is_slot, slot_addr; simpl; lia].
  split; [apply NoDup_singleton|]. by split.
Qed.

Lemma sample_armed :
  exists w1 w2, jlos_timer_wheel_init sample_wheel 0 = Some w1 /\
    jlos_timer_wheel_add w1 9000 = Some w2 /\ wheel_rep w2 {[9000 := 300]} /\ tw_jiffies w2 = 0.
Proof.
  destruct (init_rep sample_wheel 0 sample_wheel_slots sample_nodes) as (w1 & E1 & HR1 & Hj1 & Hb & He & Hh); [done|].
  assert (Hns : forall k, is_slot k -> 9000 <> slot_addr (tw_base sample_wheel) k)
    by (unfold is_slot, slot_addr; simpl; lia).
  destruct (add_rep w1 ∅ 9000 300) as (w2 & E2 & HR2 & Hj2);
    [exact HR1|by rewrite He|unfold is_tick; lia| |reflexivity|by rewrite Hb|].
  { unfold next_of. rewrite Hh by exact Hns. by eexists. }
  exists w1, w2. rewrite Hj1 in *. split_and!; [exact E1|exact E2|exact HR2|exact Hj2].
Qed.

(** A callback that logs the nodes it is called for. *)
Definition log_expire (w : wheel) (log : list Z) (n : Z) : option (wheel * list Z) :=
  Some (w, n :: log).

Lemma timer_wheel_advance_fires_witness :
  exists w1 w2 w' fired, jlos_timer_wheel_init sample_wheel 0 = Some w1 /\
    jlos_timer_wheel_add w1 9000 = Some w2 /\
    jlos_timer_wheel_advance log_expire 301 2 w2 300 [] = Some (w', foldl (fun l n => n :: l) [] fired) /\
    9000 ∈ fired.
Proof.
  destruct sample_armed as (w1 & w2 & E1 & E2 & HR & Hj).
  assert (H := timer_wheel_advance_fires log_expire (fun l n => n :: l) 301 2 w2 {[9000 := 300]} 300 []).
  cbv zeta in H. rewrite Hj in H. change (2 ^ 31 <=? ticks_to 0 300) with false in H.
  destruct H as (w' & fired & E & _ & _ & Hf & _).
  - reflexivity.
  - exact HR.
  - unfold is_tick. lia.
  - left. reflexivity.
  - rewrite map_size_singleton. lia.
  - exists w1, w2, w', fired. split_and!; [exact E1|exact E2|exact E|].
    apply Hf. exists 300. split; [apply lookup_singleton_eq|reflexivity].
Defined.

Lemma timer_wheel_arming_witness :
  exists w', jlos_timer_wheel_init sample_wheel 5 = Some w' /\ wheel_rep w' ∅ /\ tw_jiffies w' = 5.
Proof. apply (proj1 (timer_wheel_arming sample_wheel)); [exact sample_wheel_slots|exact sample_nodes|unfold is_tick; lia]. Defined.
