(* ===== verification/CString.v ===== *)
(** * Memory and string routines ([common/types.c])

    Byte-addressed memory; an access to an unmapped address is [None].  The
    loops work on bytes up to a 4-byte boundary of the destination and on
    little-endian words after that, exactly as the C code does; sizes are the
    loop counters. *)
From S2P Require Import Prelude.

Abbreviation mem := (gmap Z Z).

Definition storeb (m : mem) (a v : Z) : option mem :=
  match m !! a with Some _ => Some (<[a := v]> m) | None => None end.

Definition load32 (m : mem) (a : Z) : option Z :=
  b0 ← m !! a; b1 ← m !! (a + 1); b2 ← m !! (a + 2); b3 ← m !! (a + 3);
  Some (b0 + Z.shiftl b1 8 + Z.shiftl b2 16 + Z.shiftl b3 24).

Definition byte_of (v i : Z) : Z := Z.land (Z.shiftr v (8 * i)) 255.

Definition store32 (m : mem) (a v : Z) : option mem :=
  m ← storeb m a (byte_of v 0);
  m ← storeb m (a + 1) (byte_of v 1);
  m ← storeb m (a + 2) (byte_of v 2);
  storeb m (a + 3) (byte_of v 3).

(** ** [jlos_memset] *)

(** The loop that stops at alignment, then the word loop, then the tail. *)
Fixpoint memset_head (m : mem) (p v : Z) (size : nat) : option (mem * Z * nat) :=
  match size with
  | S size' =>
      if Z.land p 3 =? 0 then Some (m, p, size)
      else m ← storeb m p v; memset_head m (p + 1) v size'
  | O => Some (m, p, O)
  end.
Fixpoint memset_words (m : mem) (p v : Z) (size : nat) : option (mem * Z * nat) :=
  match size with
  | S (S (S (S size'))) => m ← store32 m p v; memset_words m (p + 4) v size'
  | _ => Some (m, p, size)
  end.
Fixpoint memset_tail (m : mem) (p v : Z) (size : nat) : option mem :=
  match size with
  | S size' => m ← storeb m p v; memset_tail m (p + 1) v size'
  | O => Some m
  end.

Definition jlos_memset (m : mem) (ptr value : Z) (size : nat) : option mem :=
  '(m, p, size) ← memset_head m ptr value size;
  let val32 := Z.lor (Z.lor (Z.lor value (Z.shiftl value 8)) (Z.shiftl value 16))
                     (Z.shiftl value 24) in
  '(m, p, size) ← memset_words m p val32 size;
  memset_tail m p value size.

(** ** [jlos_memcpy] and [jlos_memmove] *)

Fixpoint memcpy_head (m : mem) (d s : Z) (size : nat) : option (mem * Z * Z * nat) :=
  match size with
  | S size' =>
      if Z.land d 3 =? 0 then Some (m, d, s, size)
      else b ← m !! s; m ← storeb m d b; memcpy_head m (d + 1) (s + 1) size'
  | O => Some (m, d, s, O)
  end.
Fixpoint memcpy_words (m : mem) (d s : Z) (size : nat) : option (mem * Z * Z * nat) :=
  match size with
  | S (S (S (S size'))) =>
      v ← load32 m s; m ← store32 m d v; memcpy_words m (d + 4) (s + 4) size'
  | _ => Some (m, d, s, size)
  end.
Fixpoint memcpy_tail (m : mem) (d s : Z) (size : nat) : option mem :=
  match size with
  | S size' => b ← m !! s; m ← storeb m d b; memcpy_tail m (d + 1) (s + 1) size'
  | O => Some m
  end.

Definition jlos_memcpy (m : mem) (dst src : Z) (size : nat) : option mem :=
  '(m, d, s, size) ← memcpy_head m dst src size;
  '(m, d, s, size) ← memcpy_words m d s size;
  memcpy_tail m d s size.

(** The backward loop of [jlos_memmove]; [d] and [s] point past the run. *)
Fixpoint memmove_back (m : mem) (d s : Z) (n : nat) : option mem :=
  match n with
  | S n' => b ← m !! (s - 1); m ← storeb m (d - 1) b; memmove_back m (d - 1) (s - 1) n'
  | O => Some m
  end.

Definition jlos_memmove (m : mem) (dst src : Z) (n : nat) : option mem :=
  if dst <? src then jlos_memcpy m dst src n
  else if src <? dst then memmove_back m (dst + Z.of_nat n) (src + Z.of_nat n) n
  else Some m.

(** ** Strings *)

Fixpoint strlen_from (fuel : nat) (m : mem) (p s : Z) : option Z :=
  match fuel with
  | O => None
  | S fuel => b ← m !! p; if b =? 0 then Some (p - s) else strlen_from fuel m (p + 1) s
  end.
Definition jlos_strlen (fuel : nat) (m : mem) (s : Z) : option Z := strlen_from fuel m s s.

(** The copying loop of [jlos_strlcpy]; it ends when [nleft] reaches zero or
    after a zero byte was copied. *)
Fixpoint strlcpy_copy (m : mem) (dst src : Z) (nleft : nat) : option (mem * Z * Z * nat) :=
  match nleft with
  | O => Some (m, dst, src, O)
  | S O => Some (m, dst, src, O)
  | S nleft' =>
      b ← m !! src; m ← storeb m dst b;
      if b =? 0 then Some (m, dst + 1, src + 1, nleft')
      else strlcpy_copy m (dst + 1) (src + 1) nleft'
  end.
Fixpoint skip_string (fuel : nat) (m : mem) (src : Z) : option Z :=
  match fuel with
  | O => None
  | S fuel => b ← m !! src; if b =? 0 then Some (src + 1) else skip_string fuel m (src + 1)
  end.
Definition jlos_strlcpy (fuel : nat) (m : mem) (dst src : Z) (dsize : nat) : option (mem * Z) :=
  '(m, d, s, nleft) ← strlcpy_copy m dst src dsize;
  if (nleft =? 0)%nat then
    m ← (if (dsize =? 0)%nat then Some m else storeb m d 0);
    s ← skip_string fuel m s;
    Some (m, s - src - 1)
  else Some (m, s - src - 1).

Fixpoint jlos_strcmp (fuel : nat) (m : mem) (a b : Z) : option Z :=
  match fuel with
  | O => None
  | S fuel =>
      x ← m !! a; y ← m !! b;
      if negb (x =? 0) && (x =? y) then jlos_strcmp fuel m (a + 1) (b + 1)
      else Some (u8 x - u8 y)
  end.

Fixpoint jlos_strncmp (m : mem) (a b : Z) (n : nat) : option Z :=
  match n with
  | O => Some 0
  | S n =>
      x ← m !! a; y ← m !! b;
      if negb (x =? 0) && (x =? y) then jlos_strncmp m (a + 1) (b + 1) n
      else Some (u8 x - u8 y)
  end.

(** [Some None] is the null result. *)
Fixpoint jlos_strchr (fuel : nat) (m : mem) (s c : Z) : option (option Z) :=
  match fuel with
  | O => None
  | S fuel =>
      b ← m !! s;
      if b =? 0 then Some (if c =? 0 then Some s else None)
      else if b =? c then Some (Some s) else jlos_strchr fuel m (s + 1) c
  end.

Fixpoint jlos_memcmp (m : mem) (a b : Z) (n : nat) : option Z :=
  match n with
  | O => Some 0
  | S n =>
      x ← m !! a; y ← m !! b;
      if x =? y then jlos_memcmp m (a + 1) (b + 1) n else Some (x - y)
  end.

(** ** Reference semantics *)

Definition valid (m : mem) (a : Z) (n : Z) : Prop := forall i, a <= i < a + n -> is_Some (m !! i).
Definition bytes_ok (m : mem) : Prop := forall a v, m !! a = Some v -> 0 <= v < 256.

(** [m'] is [m] with the [n] bytes at [s] copied to [d], read before written. *)
Definition moved (m m' : mem) (d s n : Z) : Prop :=
  forall a, m' !! a = if (d <=? a) && (a <? d + n) then m !! (a - d + s) else m !! a.

(** [m'] is [m] with [n] bytes at [p] set to [v]. *)
Definition filled (m m' : mem) (p v n : Z) : Prop :=
  forall a, m' !! a = if (p <=? a) && (a <? p + n) then Some v else m !! a.

Lemma storeb_spec m a v : is_Some (m !! a) -> storeb m a v = Some (<[a := v]> m).
Proof. unfold storeb. by intros [? ->]. Qed.

Lemma lookup_ins (m : mem) a v x : <[a := v]> m !! x = if a =? x then Some v else m !! x.
Proof.
  destruct (Z.eqb_spec a x) as [->|]; [by rewrite lookup_insert_eq|by rewrite lookup_insert_ne].
Qed.

Ltac mem_cases :=
  zcases; simpl; try lia; try done; try (f_equal; lia).

Section forward.
Lemma moved_0 m d s : moved m m d s 0.
Proof. intros a. zcases; [lia|done..]. Qed.

(** A run may be copied in pieces upwards unless the destination starts
    inside the source. *)
Lemma moved_trans m m1 m2 d s k n :
  0 <= k -> 0 <= n -> d <= s \/ s + (k + n) <= d ->
  moved m m1 d s k -> moved m1 m2 (d + k) (s + k) n -> moved m m2 d s (k + n).
Proof.
  intros Hk Hn Hf H1 H2 a. rewrite H2, !H1. mem_cases.
Qed.

Lemma moved_valid m m' d s n a k :
  moved m m' d s n -> valid m s n -> valid m a k -> valid m' a k.
Proof. intros Hm Hs Ha i Hi. rewrite Hm. zcases; simpl; auto. apply Hs. lia. Qed.

Lemma moved_bytes m m' d s n : moved m m' d s n -> bytes_ok m -> bytes_ok m'.
Proof. intros Hm Hb a v. rewrite Hm. case_match; apply Hb. Qed.

Lemma byte_step m d s :
  is_Some (m !! s) -> is_Some (m !! d) ->
  exists m', (b ← m !! s; storeb m d b) = Some m' /\ moved m m' d s 1.
Proof.
  intros [b Hb] Hd. rewrite Hb. simpl. rewrite storeb_spec by done. eexists. split; [done|].
  intros a. rewrite lookup_ins. mem_cases. subst. by rewrite Z.sub_diag.
Qed.
End forward.

Lemma byte_of_word b0 b1 b2 b3 :
  0 <= b0 < 256 -> 0 <= b1 < 256 -> 0 <= b2 < 256 -> 0 <= b3 < 256 ->
  let v := b0 + Z.shiftl b1 8 + Z.shiftl b2 16 + Z.shiftl b3 24 in
  byte_of v 0 = b0 /\ byte_of v 1 = b1 /\ byte_of v 2 = b2 /\ byte_of v 3 = b3.
Proof.
  intros H0 H1 H2 H3 v. unfold byte_of, v. change 255 with (2 ^ 8 - 1).
  rewrite !land_mask, !Z.shiftl_mul_pow2, !Z.shiftr_div_pow2 by lia. repeat split; zmod.
Qed.

(** Four byte stores, in any valid memory. *)
Lemma store32_spec m d v :
  valid m d 4 ->
  store32 m d v = Some (<[d + 3 := byte_of v 3]> (<[d + 2 := byte_of v 2]>
                   (<[d + 1 := byte_of v 1]> (<[d := byte_of v 0]> m)))).
Proof.
  intros Hd. unfold store32.
  assert (forall i, 0 <= i < 4 -> is_Some (m !! (d + i))) as Hv by (intros; apply Hd; lia).
  rewrite storeb_spec by (rewrite <- (Z.add_0_r d); apply Hv; lia). simpl.
  do 3 (rewrite storeb_spec by (rewrite !lookup_ins; zcases; try lia; apply Hv; lia); simpl).
  done.
Qed.

Lemma word_step m d s :
  bytes_ok m -> valid m s 4 -> valid m d 4 ->
  exists m', (v ← load32 m s; store32 m d v) = Some m' /\ moved m m' d s 4.
Proof.
  intros Hb Hs Hd.
  assert (forall i, 0 <= i < 4 -> exists b, m !! (s + i) = Some b /\ 0 <= b < 256) as Hv.
  { intros i Hi. destruct (Hs (s + i)) as [b E]; [lia|]. eauto. }
  destruct (Hv 0) as (b0 & E0 & ?); [lia|]. destruct (Hv 1) as (b1 & E1 & ?); [lia|].
  destruct (Hv 2) as (b2 & E2 & ?); [lia|]. destruct (Hv 3) as (b3 & E3 & ?); [lia|].
  rewrite Z.add_0_r in E0. unfold load32. rewrite E0, E1, E2, E3. simpl.
  rewrite store32_spec by done. eexists. split; [done|].
  destruct (byte_of_word b0 b1 b2 b3) as (-> & -> & -> & ->); [done..|].
  intros a. rewrite !lookup_ins.
  destruct (decide (d <= a < d + 4)) as [Ha|Ha].
  - assert (a = d \/ a = d + 1 \/ a = d + 2 \/ a = d + 3) as [-> | [-> | [-> | ->]]] by lia;
      zcases; try lia; simpl; [replace (d - d + s) with s by lia|replace (d + 1 - d + s) with (s + 1) by lia|
      replace (d + 2 - d + s) with (s + 2) by lia|replace (d + 3 - d + s) with (s + 3) by lia]; done.
  - mem_cases.
Qed.

Lemma valid_sub m a n b k : valid m a n -> a <= b -> b + k <= a + n -> valid m b k.
Proof. intros H ? ? i Hi. apply H. lia. Qed.
#[export] Hint Resolve moved_bytes : jlos.

(** The three loops of [jlos_memcpy], each copying a prefix. *)
Section memcpy.
Lemma memcpy_tail_spec n : forall m d s,
  d <= s \/ s + Z.of_nat n <= d -> valid m s (Z.of_nat n) -> valid m d (Z.of_nat n) ->
  exists m', memcpy_tail m d s n = Some m' /\ moved m m' d s (Z.of_nat n).
Proof.
  induction n as [|n IH]; intros m d s Hf Hs Hd; simpl; [eauto using moved_0|].
  destruct (byte_step m d s) as (m1 & E & H1); [apply Hs; lia|apply Hd; lia|].
  destruct (m !! s) as [b|]; simpl in *; [|done]. rewrite E. simpl.
  destruct (IH m1 (d + 1) (s + 1)) as (m' & E' & H2); [lia|..].
  { eapply valid_sub; [eapply moved_valid; [done| |exact Hs]|lia..]. eapply valid_sub; [exact Hs|lia..]. }
  { eapply valid_sub; [eapply moved_valid; [done| |exact Hd]|lia..]. eapply valid_sub; [exact Hs|lia..]. }
  exists m'. split; [done|]. replace (Z.of_nat (S n)) with (1 + Z.of_nat n) by lia.
  eapply moved_trans; [lia|lia| |done..]. lia.
Qed.

Lemma memcpy_head_spec n : forall m d s,
  d <= s \/ s + Z.of_nat n <= d -> valid m s (Z.of_nat n) -> valid m d (Z.of_nat n) ->
  exists m' k r, memcpy_head m d s n = Some (m', d + k, s + k, r) /\
    0 <= k /\ Z.of_nat n = k + Z.of_nat r /\ moved m m' d s k.
Proof.
  induction n as [|n IH]; intros m d s Hf Hs Hd; simpl.
  { exists m, 0, O. rewrite !Z.add_0_r. split_and!; [done|lia|lia|apply moved_0]. }
  destruct (Z.eqb_spec (Z.land d 3) 0).
  { exists m, 0, (S n). rewrite !Z.add_0_r. split_and!; [done|lia|lia|apply moved_0]. }
  destruct (byte_step m d s) as (m1 & E & H1); [apply Hs; lia|apply Hd; lia|].
  destruct (m !! s) as [b|]; simpl in *; [|done]. rewrite E. simpl.
  destruct (IH m1 (d + 1) (s + 1)) as (m' & k & r & E' & Hk & Hr & H2); [lia|..].
  { eapply valid_sub; [eapply moved_valid; [done| |exact Hs]|lia..]. eapply valid_sub; [exact Hs|lia..]. }
  { eapply valid_sub; [eapply moved_valid; [done| |exact Hd]|lia..]. eapply valid_sub; [exact Hs|lia..]. }
  exists m', (1 + k), r. rewrite !Z.add_assoc. split; [done|]. split_and!; [lia|lia|].
  eapply moved_trans; [lia|lia| |done..]. lia.
Qed.

Lemma memcpy_words_spec n : forall m d s,
  bytes_ok m -> d <= s \/ s + Z.of_nat n <= d -> valid m s (Z.of_nat n) -> valid m d (Z.of_nat n) ->
  exists m' k r, memcpy_words m d s n = Some (m', d + k, s + k, r) /\
    0 <= k /\ Z.of_nat n = k + Z.of_nat r /\ moved m m' d s k.
Proof.
  induction n as [n IH] using lt_wf_ind; intros m d s Hb Hf Hs Hd.
  destruct n as [|[|[|[|n]]]]; simpl;
    [exists m, 0, 0%nat|exists m, 0, 1%nat|exists m, 0, 2%nat|exists m, 0, 3%nat|];
    [rewrite !Z.add_0_r; split_and!; [done|lia|lia|apply moved_0]..|].
  destruct (word_step m d s) as (m1 & E & H1);
    [done|eapply valid_sub; [exact Hs|lia..]|eapply valid_sub; [exact Hd|lia..]|].
  destruct (load32 m s) as [v|]; simpl in *; [|done]. rewrite E. simpl.
  destruct (IH n ltac:(lia) m1 (d + 4) (s + 4)) as (m' & k & r & E' & Hk & Hr & H2);
    [by eauto with jlos|lia|..].
  { eapply valid_sub; [eapply moved_valid; [done| |exact Hs]|lia..]. eapply valid_sub; [exact Hs|lia..]. }
  { eapply valid_sub; [eapply moved_valid; [done| |exact Hd]|lia..]. eapply valid_sub; [exact Hs|lia..]. }
  exists m', (4 + k), r. rewrite !Z.add_assoc. split; [done|]. split_and!; [lia|lia|].
  eapply moved_trans; [lia|lia| |done..]. lia.
Qed.

Lemma memcpy_spec m d s n :
  bytes_ok m -> d <= s \/ s + Z.of_nat n <= d -> valid m s (Z.of_nat n) -> valid m d (Z.of_nat n) ->
  exists m', jlos_memcpy m d s n = Some m' /\ moved m m' d s (Z.of_nat n).
Proof.
  intros Hb Hf Hs Hd. unfold jlos_memcpy.
  destruct (memcpy_head_spec n m d s Hf Hs Hd) as (m1 & k1 & r1 & -> & Hk1 & Hr1 & M1). simpl.
  assert (valid m s k1) by (eapply valid_sub; [exact Hs|lia..]).
  destruct (memcpy_words_spec r1 m1 (d + k1) (s + k1)) as (m2 & k2 & r2 & -> & Hk2 & Hr2 & M2);
    [by eauto with jlos|lia| | |].
  { eapply valid_sub; [eapply moved_valid; [done|done|exact Hs]|lia..]. }
  { eapply valid_sub; [eapply moved_valid; [done|done|exact Hd]|lia..]. }
  simpl. assert (moved m m2 d s (k1 + k2)) as M12 by (eapply moved_trans; [lia|lia|lia|done..]).
  assert (valid m s (k1 + k2)) by (eapply valid_sub; [exact Hs|lia..]).
  destruct (memcpy_tail_spec r2 m2 (d + k1 + k2) (s + k1 + k2)) as (m3 & -> & M3); [lia|..].
  { eapply valid_sub; [eapply moved_valid; [done|done|exact Hs]|lia..]. }
  { eapply valid_sub; [eapply moved_valid; [done|done|exact Hd]|lia..]. }
  exists m3. split; [done|]. replace (Z.of_nat n) with ((k1 + k2) + Z.of_nat r2) by lia.
  eapply moved_trans; [lia|lia|lia|done|]. by rewrite !Z.add_assoc in *.
Qed.
End memcpy.

Lemma memmove_back_spec n : forall m d s,
  s < d -> valid m (s - Z.of_nat n) (Z.of_nat n) -> valid m (d - Z.of_nat n) (Z.of_nat n) ->
  exists m', memmove_back m d s n = Some m' /\
    moved m m' (d - Z.of_nat n) (s - Z.of_nat n) (Z.of_nat n).
Proof.
  induction n as [|n IH]; intros m d s Hlt Hs Hd; simpl; [eauto using moved_0|].
  destruct (byte_step m (d - 1) (s - 1)) as (m1 & E & H1); [apply Hs; lia|apply Hd; lia|].
  destruct (m !! (s - 1)) as [b|] eqn:Eb; simpl in *; [|done]. rewrite E. simpl.
  assert (valid m (s - 1) 1) by (intros i Hi; replace i with (s - 1) by lia; by eexists).
  destruct (IH m1 (d - 1) (s - 1)) as (m' & E' & H2); [lia|..].
  { eapply valid_sub; [eapply moved_valid; [done|done|exact Hs]|lia..]. }
  { eapply valid_sub; [eapply moved_valid; [done|done|exact Hd]|lia..]. }
  exists m'. split; [done|]. intros a. rewrite H2, !H1. mem_cases.
Qed.

(** [jlos_memmove] copies correctly for every overlap of the two runs, and
    [jlos_memcpy] whenever the destination does not start inside the source:
    the destination holds the old bytes of the source, nothing else changes,
    and no byte outside the two runs is accessed. *)
Theorem memmove_correct m dst src n :
  bytes_ok m -> valid m src (Z.of_nat n) -> valid m dst (Z.of_nat n) ->
  (exists m', jlos_memmove m dst src n = Some m' /\ moved m m' dst src (Z.of_nat n)) /\
  (dst <= src \/ src + Z.of_nat n <= dst ->
   exists m', jlos_memcpy m dst src n = Some m' /\ moved m m' dst src (Z.of_nat n)).
Proof.
  intros Hb Hs Hd. split; [|intros; by apply memcpy_spec]. unfold jlos_memmove.
  destruct (Z.ltb_spec dst src); [apply memcpy_spec; [done|lia|done..]|].
  destruct (Z.ltb_spec src dst).
  - destruct (memmove_back_spec n m (dst + Z.of_nat n) (src + Z.of_nat n)) as (m' & E & Hm);
      rewrite ?Z.add_simpl_r in *; [lia|done..|]. eauto.
  - exists m. split; [done|]. assert (src = dst) as -> by lia. intros a. mem_cases.
Qed.

Lemma filled_0 m p v : filled m m p v 0.
Proof. intros a. zcases; [lia|done..]. Qed.
Lemma filled_trans m m1 m2 p v k n :
  0 <= k -> 0 <= n -> filled m m1 p v k -> filled m1 m2 (p + k) v n -> filled m m2 p v (k + n).
Proof. intros ? ? H1 H2 a. rewrite H2, !H1. mem_cases. Qed.
Lemma filled_valid m m' p v n a k : filled m m' p v n -> valid m a k -> valid m' a k.
Proof. intros Hm Ha i Hi. rewrite Hm. case_match; [by eexists|by apply Ha]. Qed.

Lemma storeb_filled m p v : is_Some (m !! p) ->
  exists m', storeb m p v = Some m' /\ filled m m' p v 1.
Proof.
  intros Hp. rewrite storeb_spec by done. eexists. split; [done|].
  intros a. rewrite lookup_ins. mem_cases.
Qed.

Lemma memset_word value :
  0 <= value < 256 ->
  let v := Z.lor (Z.lor (Z.lor value (Z.shiftl value 8)) (Z.shiftl value 16)) (Z.shiftl value 24) in
  byte_of v 0 = value /\ byte_of v 1 = value /\ byte_of v 2 = value /\ byte_of v 3 = value.
Proof. intros Hv v. subst v. revert value Hv. apply (byte_ind _). by vm_compute. Qed.

Section memset.
Context (value w : Z).
Hypothesis Hw : byte_of w 0 = value /\ byte_of w 1 = value /\ byte_of w 2 = value /\ byte_of w 3 = value.

Lemma memset_tail_spec n : forall m p, valid m p (Z.of_nat n) ->
  exists m', memset_tail m p value n = Some m' /\ filled m m' p value (Z.of_nat n).
Proof.
  induction n as [|n IH]; intros m p Hp; simpl; [eauto using filled_0|].
  destruct (storeb_filled m p value) as (m1 & -> & H1); [apply Hp; lia|]. simpl.
  destruct (IH m1 (p + 1)) as (m' & E' & H2).
  { eapply valid_sub; [eapply filled_valid; [done|exact Hp]|lia..]. }
  exists m'. split; [done|]. replace (Z.of_nat (S n)) with (1 + Z.of_nat n) by lia.
  eapply filled_trans; [lia|lia|done..].
Qed.

Lemma memset_head_spec n : forall m p, valid m p (Z.of_nat n) ->
  exists m' k r, memset_head m p value n = Some (m', p + k, r) /\
    0 <= k /\ Z.of_nat n = k + Z.of_nat r /\ filled m m' p value k.
Proof.
  induction n as [|n IH]; intros m p Hp; simpl.
  { exists m, 0, O. rewrite !Z.add_0_r. split_and!; [done|lia|lia|apply filled_0]. }
  destruct (Z.eqb_spec (Z.land p 3) 0).
  { exists m, 0, (S n). rewrite !Z.add_0_r. split_and!; [done|lia|lia|apply filled_0]. }
  destruct (storeb_filled m p value) as (m1 & -> & H1); [apply Hp; lia|]. simpl.
  destruct (IH m1 (p + 1)) as (m' & k & r & E' & Hk & Hr & H2).
  { eapply valid_sub; [eapply filled_valid; [done|exact Hp]|lia..]. }
  exists m', (1 + k), r. rewrite !Z.add_assoc. split; [done|]. split_and!; [lia|lia|].
  eapply filled_trans; [lia|lia|done..].
Qed.

Lemma memset_words_spec n : forall m p, valid m p (Z.of_nat n) ->
  exists m' k r, memset_words m p w n = Some (m', p + k, r) /\
    0 <= k /\ Z.of_nat n = k + Z.of_nat r /\ filled m m' p value k.
Proof.
  induction n as [n IH] using lt_wf_ind; intros m p Hp.
  destruct n as [|[|[|[|n]]]]; simpl;
    [exists m, 0, 0%nat|exists m, 0, 1%nat|exists m, 0, 2%nat|exists m, 0, 3%nat|];
    [rewrite !Z.add_0_r; split_and!; [done|lia|lia|apply filled_0]..|].
  rewrite store32_spec by (eapply valid_sub; [exact Hp|lia..]). simpl.
  destruct Hw as (-> & -> & -> & ->).
  set (m1 := <[p + 3 := value]> _).
  assert (filled m m1 p value 4) as H1.
  { intros a. unfold m1. rewrite !lookup_ins. mem_cases. }
  destruct (IH n ltac:(lia) m1 (p + 4)) as (m' & k & r & E' & Hk & Hr & H2).
  { eapply valid_sub; [eapply filled_valid; [done|exact Hp]|lia..]. }
  exists m', (4 + k), r. rewrite !Z.add_assoc. split; [done|]. split_and!; [lia|lia|].
  eapply filled_trans; [lia|lia|done..].
Qed.
End memset.

(** [jlos_memset] sets exactly the [n] bytes of its run to the value. *)
Lemma memset_correct m p value n :
  0 <= value < 256 -> valid m p (Z.of_nat n) ->
  exists m', jlos_memset m p value n = Some m' /\ filled m m' p value (Z.of_nat n).
Proof.
  intros Hv Hp. unfold jlos_memset.
  destruct (memset_head_spec value n m p Hp) as (m1 & k1 & r1 & -> & Hk1 & Hr1 & M1). simpl.
  destruct (fun H => memset_words_spec value _ (memset_word value Hv) r1 m1 (p + k1) H)
    as (m2 & k2 & r2 & -> & Hk2 & Hr2 & M2).
  { eapply valid_sub; [eapply filled_valid; [done|exact Hp]|lia..]. }
  simpl. destruct (memset_tail_spec value r2 m2 (p + k1 + k2)) as (m3 & -> & M3).
  { eapply valid_sub; [eapply filled_valid; [done|eapply filled_valid; [done|exact Hp]]|lia..]. }
  exists m3. split; [done|]. replace (Z.of_nat n) with (k1 + (k2 + Z.of_nat r2)) by lia.
  eapply filled_trans; [lia|lia|done|]. eapply filled_trans; [lia|lia|done..].
Qed.

(** ** C strings *)

(** The string [s] (non-zero bytes) is stored at [a], with its terminator. *)
Fixpoint cstr (m : mem) (a : Z) (s : list Z) : Prop :=
  match s with
  | [] => m !! a = Some 0
  | c :: s => m !! a = Some c /\ 0 < c < 256 /\ cstr m (a + 1) s
  end.

(** Lexicographic order of byte strings. *)
Fixpoint str_lt (s t : list Z) : bool :=
  match s, t with
  | [], [] => false
  | [], _ :: _ => true
  | _ :: _, [] => false
  | x :: s, y :: t => (x <? y) || ((x =? y) && str_lt s t)
  end.

(** A comparison result orders [s] and [t]. *)
Definition orders (r : Z) (s t : list Z) : Prop := (r = 0 <-> s = t) /\ (r < 0 <-> str_lt s t = true).

Lemma orders_cons r x s t : orders r s t -> orders r (x :: s) (x :: t).
Proof.
  intros [H1 H2]. split; [rewrite H1; split; [by intros ->|by intros [=]]|].
  simpl. rewrite Z.ltb_irrefl, Z.eqb_refl. done.
Qed.

Lemma cstr_frame m m' a s :
  (forall i, a <= i <= a + zlen s -> m' !! i = m !! i) -> cstr m a s -> cstr m' a s.
Proof.
  revert a. induction s as [|c s IH]; intros a He; simpl in *; [by rewrite He by lia|].
  intros (Hc & Hr & Hs). rewrite He by lia. split_and!; [done|lia|lia|].
  apply IH; [|done]. intros. apply He. lia.
Qed.

Lemma strlen_spec m s a b fuel :
  cstr m a s -> (length s < fuel)%nat -> strlen_from fuel m a b = Some (a - b + zlen s).
Proof.
  revert a fuel. induction s as [|c s IH]; intros a fuel Hs Hf; destruct fuel as [|fuel]; simpl in *; try lia.
  - rewrite Hs. simpl. f_equal. lia.
  - destruct Hs as (-> & Hc & Hs). simpl. destruct (Z.eqb_spec c 0); [lia|].
    rewrite IH by (done || lia). f_equal. lia.
Qed.

Lemma strcmp_spec m s t a b fuel :
  cstr m a s -> cstr m b t -> (length s < fuel)%nat ->
  exists r, jlos_strcmp fuel m a b = Some r /\ orders r s t.
Proof.
  revert t a b fuel. induction s as [|c s IH]; intros t a b fuel Hs Ht Hf;
    destruct fuel as [|fuel]; simpl in *; try lia; destruct t as [|d t]; simpl in *.
  - rewrite Hs, Ht. simpl. exists 0. split; [done|]. split; [done|]. simpl. split; [lia|done].
  - destruct Ht as (Ed & Hd & _). rewrite Hs, Ed. simpl. eexists. split; [done|].
    rewrite !u8_small by lia. split; simpl; split; [lia|done|done|lia].
  - destruct Hs as (Ec & Hc & _). rewrite Ec, Ht. simpl.
    destruct (Z.eqb_spec c 0); [lia|]. simpl. eexists. split; [done|].
    rewrite !u8_small by lia. split; simpl; split; [lia|done|lia|done].
  - destruct Hs as (Ec & Hc & Hs), Ht as (Ed & Hd & Ht). rewrite Ec, Ed. simpl.
    destruct (Z.eqb_spec c 0); [lia|]. simpl. destruct (Z.eqb_spec c d) as [->|Hne]; simpl.
    + destruct (IH t (a + 1) (b + 1) fuel) as (r & -> & Hr); [done|done|lia|].
      exists r. split; [done|]. by apply orders_cons.
    + eexists. split; [done|]. rewrite !u8_small by lia. split.
      * split; [lia|by intros [=]].
      * simpl. destruct (Z.eqb_spec c d); [done|]. rewrite andb_false_l, orb_false_r. lia.
Qed.

Lemma strncmp_spec m s t a b n :
  cstr m a s -> cstr m b t ->
  exists r, jlos_strncmp m a b n = Some r /\ orders r (take n s) (take n t).
Proof.
  revert s t a b. induction n as [|n IH]; intros s t a b Hs Ht; simpl.
  { exists 0. split; [done|]. split; [done|]. simpl. split; [lia|done]. }
  destruct s as [|c s], t as [|d t]; simpl in *.
  - rewrite Hs, Ht. simpl. exists 0. split; [done|]. split; [done|]. simpl. split; [lia|done].
  - destruct Ht as (Ed & Hd & _). rewrite Hs, Ed. simpl. eexists. split; [done|].
    rewrite !u8_small by lia. split; simpl; split; [lia|done|done|lia].
  - destruct Hs as (Ec & Hc & _). rewrite Ec, Ht. simpl.
    destruct (Z.eqb_spec c 0); [lia|]. simpl. eexists. split; [done|].
    rewrite !u8_small by lia. split; simpl; split; [lia|done|lia|done].
  - destruct Hs as (Ec & Hc & Hs), Ht as (Ed & Hd & Ht). rewrite Ec, Ed. simpl.
    destruct (Z.eqb_spec c 0); [lia|]. simpl. destruct (Z.eqb_spec c d) as [->|Hne]; simpl.
    + destruct (IH s t (a + 1) (b + 1)) as (r & -> & Hr); [done..|].
      exists r. split; [done|]. by apply orders_cons.
    + eexists. split; [done|]. rewrite !u8_small by lia. split.
      * split; [lia|by intros [=]].
      * simpl. destruct (Z.eqb_spec c d); [done|]. rewrite andb_false_l, orb_false_r. lia.
Qed.

(** The position of the first [c] in [s], its length for the terminator. *)
Fixpoint index_of (c : Z) (s : list Z) : option Z :=
  match s with
  | [] => if c =? 0 then Some 0 else None
  | x :: s => if x =? c then Some 0 else Z.succ <$> index_of c s
  end.

Lemma strchr_spec m s a c fuel :
  cstr m a s -> (length s < fuel)%nat ->
  jlos_strchr fuel m a c = Some (Z.add a <$> index_of c s).
Proof.
  revert a fuel. induction s as [|x s IH]; intros a fuel Hs Hf; destruct fuel as [|fuel]; simpl in *; try lia.
  - rewrite Hs. simpl. case_match; simpl; [do 2 f_equal; lia|done].
  - destruct Hs as (-> & Hx & Hs). simpl. destruct (Z.eqb_spec x 0); [lia|].
    destruct (Z.eqb_spec x c); simpl; [do 2 f_equal; lia|].
    rewrite (IH (a + 1) fuel) by (done || lia). f_equal. destruct (index_of c s); simpl; [f_equal; lia|done].
Qed.

(** The string observers compute their textbook results and terminate:
    length, first occurrence, and comparison whose sign is the lexicographic
    order (of the first [n] characters for [jlos_strncmp]). *)
Lemma string_observers m s t a b c n fuel :
  cstr m a s -> cstr m b t -> (length s < fuel)%nat ->
  jlos_strlen fuel m a = Some (zlen s) /\
  jlos_strchr fuel m a c = Some (Z.add a <$> index_of c s) /\
  (exists r, jlos_strcmp fuel m a b = Some r /\ orders r s t) /\
  (exists r, jlos_strncmp m a b n = Some r /\ orders r (take n s) (take n t)).
Proof.
  intros Hs Ht Hf. split_and!.
  - unfold jlos_strlen. rewrite (strlen_spec m s) by done. f_equal. lia.
  - by apply strchr_spec.
  - by apply strcmp_spec.
  - by apply strncmp_spec.
Qed.

Lemma skip_string_spec m s a fuel :
  cstr m a s -> (length s < fuel)%nat -> skip_string fuel m a = Some (a + zlen s + 1).
Proof.
  revert a fuel. induction s as [|c s IH]; intros a fuel Hs Hf; destruct fuel as [|fuel]; simpl in *; try lia.
  - rewrite Hs. simpl. f_equal. lia.
  - destruct Hs as (-> & Hc & Hs). simpl. destruct (Z.eqb_spec c 0); [lia|].
    rewrite IH by (done || lia). f_equal. lia.
Qed.

(** Bytes outside [a, a+n) are unchanged. *)
Definition outside_same (m m' : mem) (a n : Z) : Prop := forall i, ~ a <= i < a + n -> m' !! i = m !! i.

(** The copying loop: either the whole string with its terminator fits, or
    exactly [n - 1] characters were copied and room for the terminator is left. *)
Lemma strlcpy_copy_spec n : forall m d src s,
  cstr m src s -> valid m d (Z.of_nat (S n)) ->
  src + zlen s < d \/ d + Z.of_nat (S n) <= src ->
  exists m' nl, strlcpy_copy m d src (S n) =
      Some (m', d + Z.of_nat (Nat.min n (S (length s))), src + Z.of_nat (Nat.min n (S (length s))), nl) /\
    (nl = 0%nat <-> (n <= length s)%nat) /\
    outside_same m m' d (Z.of_nat (Nat.min n (S (length s)))) /\
    (forall i c, (i < n)%nat -> s !! i = Some c -> m' !! (d + Z.of_nat i) = Some c) /\
    ((length s < n)%nat -> m' !! (d + zlen s) = Some 0).
Proof.
  induction n as [|n IH]; intros m d src s Hs Hd Hdis.
  { exists m, 0%nat. simpl. rewrite !Z.add_0_r. split_and!; [done|lia|done|lia|lia]. }
  remember (S n) as n'. simpl. rewrite Heqn'. rewrite Heqn' in *. clear n' Heqn'.
  destruct s as [|c s]; simpl in Hs.
  - rewrite Hs. simpl. rewrite storeb_spec by (apply Hd; lia). simpl.
    exists (<[d := 0]> m), (S n). replace (Nat.min n 0) with 0%nat by lia.
    split_and!; [done|simpl; lia| |simpl; done|].
    + intros i Hi. rewrite lookup_ins. zcases; [lia|done].
    + intros _. rewrite lookup_ins. simpl. zcases; [done|lia].
  - destruct Hs as (Hc & Hcr & Hs). rewrite Hc. simpl. rewrite storeb_spec by (apply Hd; lia). simpl.
    destruct (Z.eqb_spec c 0); [lia|]. simpl in Hdis.
    assert (Hlk : forall i, i <> d -> <[d := c]> m !! i = m !! i) by (intros; rewrite lookup_ins; zcases; [lia|done]).
    destruct (IH (<[d := c]> m) (d + 1) (src + 1) s) as (m' & nl & E & Hnl & Ho & Hcp & Hz).
    { eapply cstr_frame; [|exact Hs]. intros i Hi. apply Hlk. lia. }
    { intros i Hi. destruct (decide (i = d)) as [->|]; [lia|]. rewrite Hlk by done. apply Hd. lia. }
    { lia. }
    exists m', nl. simpl. split_and!.
    + simpl in E. rewrite E.
      match goal with |- Some (_, ?b, ?c, _) = Some (_, ?b', ?c', _) =>
        replace b' with b by lia; replace c' with c by lia end. done.
    + rewrite Hnl. simpl. lia.
    + intros i Hi. rewrite Ho by (simpl in *; lia). apply Hlk. simpl in Hi. lia.
    + intros [|i] x Hi Hx; simpl in Hx.
      * simplify_eq. rewrite Ho by lia. rewrite lookup_ins. zcases; [done|lia].
      * rewrite <- (Hcp i x) by (done || lia). f_equal. lia.
    + intros Hl. rewrite <- Hz by (simpl in *; lia). f_equal. lia.
Qed.

Lemma cstr_intro m a s :
  (forall i c, s !! i = Some c -> m !! (a + Z.of_nat i) = Some c /\ 0 < c < 256) ->
  m !! (a + zlen s) = Some 0 -> cstr m a s.
Proof.
  revert a. induction s as [|c s IH]; intros a Hc Hz; simpl in *; [by rewrite Z.add_0_r in Hz|].
  destruct (Hc 0%nat c eq_refl) as [E ?]. simpl in E. rewrite Z.add_0_r in E. split_and!; [done|lia|lia|].
  apply IH; [|rewrite <- Hz; f_equal; lia].
  intros i x Hx. destruct (Hc (S i) x Hx) as [<- ?]. split; [f_equal; lia|done].
Qed.

Lemma cstr_chars m a s i c : cstr m a s -> s !! i = Some c -> 0 < c < 256.
Proof.
  revert a i. induction s as [|x s IH]; intros a i Hs Hi; [done|]. destruct Hs as (_ & Hx & Hs).
  destruct i; simpl in Hi; [by simplify_eq|]. by eapply IH.
Qed.

Lemma cstr_drop m a s n : cstr m a s -> (n <= length s)%nat -> cstr m (a + Z.of_nat n) (drop n s).
Proof.
  revert a n. induction s as [|x s IH]; intros a [|n] Hs Hn; simpl in *; rewrite ?Z.add_0_r; try done; [lia|].
  destruct Hs as (_ & _ & Hs). replace (a + Z.of_nat (S n)) with (a + 1 + Z.of_nat n) by lia.
  apply IH; [done|lia].
Qed.

(** [jlos_strlcpy] stores the longest prefix of the source that fits in
    [dsize] bytes together with a terminator, never writes beyond [dsize]
    bytes, and returns the length of the source, so that truncation can be
    detected; with [dsize = 0] nothing is written. *)
Theorem strlcpy_correct m dst src s dsize fuel :
  cstr m src s -> valid m dst (Z.of_nat dsize) ->
  src + zlen s < dst \/ dst + Z.of_nat dsize <= src -> (length s < fuel)%nat ->
  exists m', jlos_strlcpy fuel m dst src dsize = Some (m', zlen s) /\
    outside_same m m' dst (Z.of_nat dsize) /\
    (dsize <> 0%nat -> cstr m' dst (take (dsize - 1) s)).
Proof.
  intros Hs Hd Hdis Hf. unfold jlos_strlcpy. destruct dsize as [|n].
  { simpl. rewrite (skip_string_spec m s) by done. simpl. exists m. split_and!; [do 2 f_equal; lia|done|done]. }
  destruct (strlcpy_copy_spec n m dst src s Hs Hd Hdis) as (m' & nl & -> & Hnl & Ho & Hc & Hz).
  set (k := Z.of_nat (Nat.min n (S (length s)))) in *. simpl. rewrite Nat.sub_0_r.
  assert (Hch : forall i c, take n s !! i = Some c -> 0 < c < 256).
  { intros i c [Hi _]%lookup_take_Some. by eapply cstr_chars. }
  destruct (Nat.eqb_spec nl 0) as [H0|H0].
  - apply Hnl in H0. assert (k = Z.of_nat n) as Hk by (unfold k; lia).
    assert (valid m' dst (Z.of_nat (S n))) as Hv.
    { intros i Hi. destruct (decide (i < dst + k)) as [Hlt|]; [|rewrite Ho by lia; apply Hd; lia].
      destruct (lookup_lt_is_Some_2 s (Z.to_nat (i - dst))) as [c Hc']; [lia|].
      replace i with (dst + Z.of_nat (Z.to_nat (i - dst))) by lia. exists c. apply Hc; [lia|done]. }
    rewrite storeb_spec by (apply Hv; lia). simpl.
    rewrite (skip_string_spec _ (drop n s)); [|..].
    + simpl. eexists. rewrite length_drop. split_and!; [do 2 f_equal; lia| |].
      * intros i Hi. rewrite lookup_ins. destruct (Z.eqb_spec (dst + k) i); [lia|]. apply Ho. lia.
      * intros _. apply cstr_intro; [|rewrite length_take_le, lookup_ins by lia; zcases; [done|lia]].
        intros i c Hi. split; [|by eapply Hch]. apply lookup_take_Some in Hi as [Hi Hin].
        rewrite lookup_ins. destruct (Z.eqb_spec (dst + k) (dst + Z.of_nat i)); [lia|]. by apply Hc.
    + rewrite Hk. eapply cstr_frame; [|by apply (cstr_drop m src s n)].
      intros i Hi. rewrite length_drop in Hi. rewrite lookup_ins.
      destruct (Z.eqb_spec (dst + Z.of_nat n) i); [lia|]. apply Ho. lia.
    + rewrite length_drop. lia.
  - assert (length s < n)%nat as Hlt by lia. assert (k = Z.of_nat (S (length s))) as Hk by (unfold k; lia).
    exists m'. split_and!.
    + do 2 f_equal. lia.
    + intros i Hi. apply Ho. lia.
    + intros _. rewrite take_ge by lia. apply cstr_intro; [|by apply Hz].
      intros i c Hi. split; [|by eapply cstr_chars]. apply Hc; [|done]. apply lookup_lt_Some in Hi. lia.
Qed.

(** ** Witnesses: two strings and a work area *)

(** ["ab"] at 100, ["abc"] at 110, and the bytes 120 .. 139. *)
Definition sample_mem : mem := list_to_map
  ([(100, 97); (101, 98); (102, 0); (110, 97); (111, 98); (112, 99); (113, 0)] ++
   map (fun a => (a, a - 100)) (seqZ 120 20)).

Lemma sample_valid a n : 120 <= a -> a + n <= 140 -> valid sample_mem a n.
Proof.
  intros Ha Hn i Hi.
  assert (Forall (fun i => is_Some (sample_mem !! i)) (seqZ 120 20)) as HF
    by (apply (bool_decide_unpack _); by vm_compute).
  rewrite Forall_forall in HF. apply HF, elem_of_seqZ. lia.
Qed.

Lemma sample_bytes : bytes_ok sample_mem.
Proof.
  assert (map_Forall (fun _ v => 0 <= v < 256) sample_mem) as HF
    by (apply (bool_decide_unpack _); by vm_compute).
  intros a v Hv. by apply (HF a v).
Qed.

Lemma memmove_correct_witness :
  exists m', jlos_memmove sample_mem 123 121 10 = Some m' /\ moved sample_mem m' 123 121 10.
Proof.
  apply (memmove_correct sample_mem 123 121 10); [apply sample_bytes|apply sample_valid; lia..].
Defined.

Lemma strlcpy_correct_witness :
  exists m', jlos_strlcpy 4 sample_mem 120 110 3 = Some (m', 3) /\
    outside_same sample_mem m' 120 3 /\ (3%nat <> 0%nat -> cstr m' 120 [97; 98]).
Proof.
  apply (strlcpy_correct sample_mem 120 110 [97; 98; 99] 3 4);
    [vm_compute; tauto|apply sample_valid; lia|simpl; lia|simpl; lia].
Defined.
