(* ===== verification/SortSearch.v ===== *)
(** * Sorting and searching ([dsa/sort.c], [dsa/search.c])

    The array is the list of its elements, each a block of [size] bytes; the
    comparison function is an argument.  An index beyond the array is [None]. *)
From S2P Require Import Prelude.

Abbreviation block := (list Z).

(** [jlos_sort_swap]: byte-wise exchange of two elements. *)
Fixpoint jlos_sort_swap (a b : block) : block * block :=
  match a, b with
  | x :: a, y :: b => let '(a', b') := jlos_sort_swap a b in (y :: a', x :: b')
  | _, _ => (a, b)
  end.

Section sort.
Context (cmp : block -> block -> Z).

(** [cmp(base + i * size, base + j * size)] *)
Definition cmp_at (arr : list block) (i j : nat) : option Z :=
  x ← arr !! i; y ← arr !! j; Some (cmp x y).
Definition swap_at (arr : list block) (i j : nat) : option (list block) :=
  x ← arr !! i; y ← arr !! j;
  let '(x', y') := jlos_sort_swap x y in Some (<[j := y']> (<[i := x']> arr)).

Fixpoint jlos_heap_sift_down (fuel : nat) (arr : list block) (root count : nat)
    : option (list block) :=
  if (root * 2 + 1 <? count)%nat then
    match fuel with
    | O => None
    | S fuel =>
        let child := (root * 2 + 1)%nat in
        child ← (if (child + 1 <? count)%nat
                 then c ← cmp_at arr child (child + 1);
                      Some (if c <? 0 then (child + 1)%nat else child)
                 else Some child);
        c ← cmp_at arr root child;
        if c <? 0 then
          arr ← swap_at arr root child; jlos_heap_sift_down fuel arr child count
        else Some arr
    end
  else Some arr.

(** [for (start = count / 2; start > 0; start--)] *)
Fixpoint build_heap (fuel : nat) (arr : list block) (start count : nat) : option (list block) :=
  match start with
  | O => Some arr
  | S start' => arr ← jlos_heap_sift_down fuel arr start' count; build_heap fuel arr start' count
  end.
(** [for (end = count - 1; end > 0; end--)] *)
Fixpoint drain_heap (fuel : nat) (arr : list block) (end_ : nat) : option (list block) :=
  match end_ with
  | O => Some arr
  | S end' =>
      arr ← swap_at arr 0 end_;
      arr ← jlos_heap_sift_down fuel arr 0 end_;
      drain_heap fuel arr end'
  end.
Definition jlos_heap_sort (arr : list block) (count size : nat) : option (list block) :=
  if (count <? 2)%nat || (size =? 0)%nat then Some arr
  else
    arr ← build_heap count arr (Nat.div count 2) count;
    drain_heap count arr (count - 1).

(** The inner loop, from [j] downwards. *)
Fixpoint insertion_inner (arr : list block) (j : nat) : option (list block) :=
  match j with
  | O => Some arr
  | S j' =>
      c ← cmp_at arr j' j;
      if 0 <? c then arr ← swap_at arr j' j; insertion_inner arr j' else Some arr
  end.
(** [for (i = 1; i < count; i++)], [todo] iterations from [i]. *)
Fixpoint insertion_outer (arr : list block) (i todo : nat) : option (list block) :=
  match todo with
  | O => Some arr
  | S todo => arr ← insertion_inner arr i; insertion_outer arr (S i) todo
  end.
Definition jlos_insertion_sort (arr : list block) (count size : nat) : option (list block) :=
  insertion_outer arr 1 (count - 1).
End sort.

(** ** Searching: element indices stand for the pointers [base + i * size] *)
Section search.
Context {K : Type} (cmp : K -> block -> Z).

Fixpoint bound_loop (strict : bool) (fuel : nat) (key : K) (arr : list block) (lo n : nat)
    : option nat :=
  if (n =? 0)%nat then Some lo
  else
    match fuel with
    | O => None
    | S fuel =>
        let half := Nat.div n 2 in
        let mid := (lo + half)%nat in
        x ← arr !! mid;
        if (if strict then 0 <? cmp key x else 0 <=? cmp key x)
        then bound_loop strict fuel key arr (mid + 1) (n - (half + 1))
        else bound_loop strict fuel key arr lo half
    end.
(** The loops of the two functions differ only in [>] and [>=]. *)
Definition jlos_lower_bound (key : K) (arr : list block) (count : nat) : option nat :=
  bound_loop true count key arr 0 count.
Definition jlos_upper_bound (key : K) (arr : list block) (count : nat) : option nat :=
  bound_loop false count key arr 0 count.

Definition jlos_bsearch (key : K) (arr : list block) (count : nat) : option (option nat) :=
  found ← jlos_lower_bound key arr count;
  if (found <? count)%nat then
    x ← arr !! found; Some (if cmp key x =? 0 then Some found else None)
  else Some None.
End search.

(** ** Exchange of elements *)

Lemma sort_swap_eq a b : length a = length b -> jlos_sort_swap a b = (b, a).
Proof.
  revert b. induction a as [|x a IH]; intros [|y b] Hl; simpl in *; try done.
  by rewrite IH by lia.
Qed.

(** The array after exchanging elements [i] and [j]. *)
Definition swapped (arr : list block) (i j : nat) : list block :=
  <[j := arr !!! i]> (<[i := arr !!! j]> arr).

(** Every element is a block of [size] bytes. *)
Definition blocks (size : nat) (arr : list block) : Prop := Forall (fun b => length b = size) arr.

Lemma swap_at_eq size arr i j :
  blocks size arr -> (i < length arr)%nat -> (j < length arr)%nat ->
  swap_at arr i j = Some (swapped arr i j).
Proof.
  intros Hb Hi Hj. unfold swap_at, swapped.
  destruct (lookup_lt_is_Some_2 arr i Hi) as [x Ex]. destruct (lookup_lt_is_Some_2 arr j Hj) as [y Ey].
  rewrite Ex, Ey. simpl. rewrite (list_lookup_total_correct _ _ _ Ex), (list_lookup_total_correct _ _ _ Ey).
  rewrite sort_swap_eq; [done|]. unfold blocks in Hb. rewrite Forall_lookup in Hb.
  by rewrite (Hb i x Ex), (Hb j y Ey).
Qed.

Lemma swapped_length arr i j : length (swapped arr i j) = length arr.
Proof. unfold swapped. by rewrite !length_insert. Qed.

Lemma swapped_lookup arr i j k :
  (i < length arr)%nat -> (j < length arr)%nat ->
  swapped arr i j !!! k = if decide (k = j) then arr !!! i else if decide (k = i) then arr !!! j else arr !!! k.
Proof.
  intros Hi Hj. unfold swapped.
  destruct (decide (k = j)) as [->|]; [by rewrite list_lookup_total_insert_eq by (by rewrite length_insert)|].
  rewrite list_lookup_total_insert_ne by done.
  destruct (decide (k = i)) as [->|]; [by rewrite list_lookup_total_insert_eq|].
  by rewrite list_lookup_total_insert_ne.
Qed.

Lemma swapped_perm arr i j :
  (i < length arr)%nat -> (j < length arr)%nat -> swapped arr i j ≡ₚ arr.
Proof.
  intros Hi Hj. unfold swapped.
  destruct (lookup_lt_is_Some_2 arr i Hi) as [x Ex]. destruct (lookup_lt_is_Some_2 arr j Hj) as [y Ey].
  rewrite (list_lookup_total_correct _ _ _ Ex), (list_lookup_total_correct _ _ _ Ey).
  by apply Permutation_insert_swap.
Qed.

(** Exchange inside a prefix permutes that prefix only. *)
Lemma swapped_prefix arr i j n :
  (i < n)%nat -> (j < n)%nat -> (n <= length arr)%nat ->
  take n (swapped arr i j) ≡ₚ take n arr /\ drop n (swapped arr i j) = drop n arr.
Proof.
  intros Hi Hj Hn.
  assert (take n (swapped arr i j) = swapped (take n arr) i j) as ->.
  { unfold swapped. rewrite !take_insert_lt by done. by rewrite !lookup_total_take_lt. }
  split; [apply swapped_perm; rewrite length_take; lia|].
  unfold swapped. by rewrite !drop_insert_lt.
Qed.

Lemma blocks_perm size arr arr' : arr' ≡ₚ arr -> blocks size arr -> blocks size arr'.
Proof. unfold blocks. by intros ->. Qed.

Lemma perm_split {A} (l l' : list A) n :
  take n l' ≡ₚ take n l -> drop n l' = drop n l -> l' ≡ₚ l.
Proof. intros Ht Hd. rewrite <- (take_drop n l'), <- (take_drop n l). by rewrite Ht, Hd. Qed.

(** ** Correctness of the sorts

    The comparison function is a total preorder, as the C contract of
    [jlos_sort_cmp_t] demands. *)
Section sort_correct.
Context (cmp : block -> block -> Z).
Definition le_by (a b : block) : Prop := cmp a b <= 0.
Hypothesis cmp_swap : forall a b, cmp a b < 0 <-> 0 < cmp b a.
Hypothesis le_trans : forall a b c, le_by a b -> le_by b c -> le_by a c.

Lemma le_flip a b : ~ cmp a b < 0 <-> le_by b a.
Proof. unfold le_by. rewrite cmp_swap. lia. Qed.
Lemma lt_le a b : cmp a b < 0 -> le_by a b.
Proof. unfold le_by. lia. Qed.
Lemma le_refl a : le_by a a.
Proof. apply le_flip. intros H. pose proof (proj1 (cmp_swap a a) H). lia. Qed.

Lemma cmp_at_eq arr i j :
  (i < length arr)%nat -> (j < length arr)%nat ->
  cmp_at cmp arr i j = Some (cmp (arr !!! i) (arr !!! j)).
Proof.
  intros Hi Hj. unfold cmp_at.
  destruct (lookup_lt_is_Some_2 arr i Hi) as [x Ex]. destruct (lookup_lt_is_Some_2 arr j Hj) as [y Ey].
  rewrite Ex, Ey. simpl. by rewrite (list_lookup_total_correct _ _ _ Ex), (list_lookup_total_correct _ _ _ Ey).
Qed.

Definition child_of (c i : nat) : Prop := c = (i * 2 + 1)%nat \/ c = (i * 2 + 2)%nat.

(** Max-heap order of the nodes from [lo] on, in the first [count] elements,
    except below node [r], whose children are still below its parent. *)
Definition heap_but (lo r : nat) (arr : list block) (count : nat) : Prop :=
  (forall i c, (lo <= i)%nat -> i <> r -> child_of c i -> (c < count)%nat -> le_by (arr !!! c) (arr !!! i)) /\
  (forall i c, (lo <= i)%nat -> child_of r i -> child_of c r -> (c < count)%nat -> le_by (arr !!! c) (arr !!! i)).
Definition heap (lo : nat) (arr : list block) (count : nat) : Prop :=
  forall i c, (lo <= i)%nat -> child_of c i -> (c < count)%nat -> le_by (arr !!! c) (arr !!! i).

Lemma sift_down_heap lo size fuel : forall arr r count,
  heap_but lo r arr count -> (lo <= r)%nat -> (count <= length arr)%nat -> blocks size arr ->
  (count <= r + fuel)%nat ->
  exists arr', jlos_heap_sift_down cmp fuel arr r count = Some arr' /\
    heap lo arr' count /\ take count arr' ≡ₚ take count arr /\ drop count arr' = drop count arr.
Proof.
  induction fuel as [|fuel IH]; intros arr r count [Hh Hg] Hlo Hn Hb Hf; simpl;
    (destruct (Nat.ltb_spec (r * 2 + 1) count) as [Hc|Hc]; [try lia|]).
  1,3: exists arr; split; [done|]; split; [|done]; intros i c Hi Hci Hcc;
    (destruct (decide (i = r)) as [->|]; [destruct Hci; lia|by apply Hh]).
  set (child := if decide ((r * 2 + 2 < count)%nat /\ cmp (arr !!! (r * 2 + 1)%nat) (arr !!! (r * 2 + 2)%nat) < 0)
                then (r * 2 + 2)%nat else (r * 2 + 1)%nat).
  match goal with |- context [?m ≫= _] => assert (m = Some child) as -> end.
  { unfold child. replace (r * 2 + 1 + 1)%nat with (r * 2 + 2)%nat by lia.
    destruct (Nat.ltb_spec (r * 2 + 2) count).
    - rewrite cmp_at_eq by lia. simpl. zcases; case_decide; try done; lia.
    - rewrite decide_False by lia. done. }
  assert (child_of child r /\ (child < count)%nat) as [Hcr Hcl].
  { unfold child, child_of. case_decide; lia. }
  assert (forall c, child_of c r -> (c < count)%nat -> le_by (arr !!! c) (arr !!! child)) as Hmax.
  { intros c [->| ->] Hcc; unfold child; case_decide as Hd; try apply le_refl; [apply lt_le; tauto|].
    apply le_flip. intros ?. apply Hd. tauto. }
  simpl. rewrite cmp_at_eq by lia. simpl.
  destruct (Z.ltb_spec (cmp (arr !!! r) (arr !!! child)) 0) as [Hlt|Hge].
  - rewrite (swap_at_eq size) by (done || lia). simpl.
    assert (r <> child) by (unfold child_of in *; lia).
    destruct (swapped_prefix arr r child count) as [Hp Hd]; [lia|lia|done|].
    destruct (IH (swapped arr r child) child count) as (arr' & -> & Hh' & Hp' & Hd').
    + split; intros i c Hi.
      * intros Hic Hci Hcc. rewrite !swapped_lookup by lia. rewrite (decide_False (P := i = child)) by done.
        destruct (decide (i = r)) as [->|Hir], (decide (c = child)) as [->|Hcch].
        -- by apply lt_le.
        -- rewrite decide_False by (unfold child_of in *; lia). by apply Hmax.
        -- unfold child_of in *; lia.
        -- destruct (decide (c = r)) as [->|]; [by apply Hg|by apply Hh].
      * intros Hi2 Hc2 Hcc. assert (i = r) as -> by (unfold child_of in *; lia).
        rewrite !swapped_lookup by lia. unfold child_of in *.
        repeat case_decide; try lia. apply Hh; [lia|lia|by unfold child_of|done].
    + unfold child_of in *. lia.
    + by rewrite swapped_length.
    + eapply blocks_perm; [eapply swapped_perm|]; [lia|lia|done].
    + unfold child_of in *. lia.
    + exists arr'. split; [done|]. split; [done|]. by rewrite Hp', Hp, Hd', Hd.
  - exists arr. split; [done|]. split; [|done]. intros i c Hi Hci Hcc.
    destruct (decide (i = r)) as [->|]; [|by apply Hh].
    eapply le_trans; [by apply Hmax|]. apply le_flip. lia.
Qed.
Lemma build_heap_heap size fuel start : forall arr count,
  heap start arr count -> (count <= length arr)%nat -> blocks size arr -> (count <= fuel)%nat ->
  exists arr', build_heap cmp fuel arr start count = Some arr' /\
    heap 0 arr' count /\ take count arr' ≡ₚ take count arr /\ drop count arr' = drop count arr.
Proof.
  induction start as [|s IH]; intros arr count Hh Hn Hb Hf; simpl; [by eauto|].
  destruct (sift_down_heap s size fuel arr s count) as (arr1 & -> & Hh1 & Hp1 & Hd1); [|lia|done|done|lia|].
  { split; [|unfold child_of; lia]. intros i c Hi Hne Hci Hcc. apply Hh; [lia|done|done]. }
  simpl. pose proof (perm_split _ _ _ Hp1 Hd1) as Hperm.
  destruct (IH arr1 count) as (arr' & -> & Hh' & Hp' & Hd');
    [done|by rewrite Hperm|by eapply blocks_perm|done|].
  exists arr'. split; [done|]. split; [done|]. by rewrite Hp', Hp1, Hd', Hd1.
Qed.

(** The root of a heap is its maximum. *)
Lemma heap_max arr n i : heap 0 arr n -> (i < n)%nat -> le_by (arr !!! i) (arr !!! 0%nat).
Proof.
  intros Hh. induction i as [i IH] using lt_wf_ind. intros Hi.
  destruct i as [|i]; [apply le_refl|].
  pose proof (Nat.div_mod_eq i 2). pose proof (Nat.mod_upper_bound i 2).
  eapply le_trans; [|apply (IH (Nat.div i 2)); lia].
  apply Hh; [lia|unfold child_of; lia|done].
Qed.

(** Everything from position [n] on is sorted and above the first [n]. *)
Definition sorted_above (n : nat) (arr : list block) : Prop :=
  StronglySorted le_by (drop n arr) /\
  forall x y, x ∈ take n arr -> y ∈ drop n arr -> le_by x y.

Lemma sorted_above_perm n arr arr' :
  take n arr' ≡ₚ take n arr -> drop n arr' = drop n arr -> sorted_above n arr -> sorted_above n arr'.
Proof. intros Hp Hd [Hs Ha]. split; [by rewrite Hd|]. intros x y. rewrite Hp, Hd. apply Ha. Qed.

(** Moving the root of the heap of size [e + 1] to position [e]. *)
Lemma swap_root_sorted arr e :
  (e < length arr)%nat -> heap 0 arr (S e) -> sorted_above (S e) arr ->
  sorted_above e (swapped arr 0 e) /\ (heap_but 0 0 (swapped arr 0 e) e).
Proof.
  intros He Hh [Hs Ha].
  destruct (swapped_prefix arr 0 e (S e)) as [Hp Hd]; [lia|lia|lia|].
  assert (drop e (swapped arr 0 e) = arr !!! 0%nat :: drop (S e) arr) as Ed.
  { rewrite <- Hd. rewrite (drop_S _ (arr !!! 0%nat) e); [done|].
    rewrite list_lookup_lookup_total_lt by (rewrite swapped_length; lia).
    by rewrite swapped_lookup, decide_True by lia. }
  assert (forall x, x ∈ take (S e) arr -> le_by x (arr !!! 0%nat)) as Hmax.
  { intros x [i Hi]%list_elem_of_lookup. apply lookup_take_Some in Hi as [Hi Hlt].
    rewrite <- (list_lookup_total_correct _ _ _ Hi). by eapply heap_max. }
  assert (arr !!! 0%nat ∈ take (S e) arr) as H0.
  { apply list_elem_of_lookup. exists 0%nat. rewrite lookup_take_lt by lia.
    apply list_lookup_lookup_total_lt. lia. }
  split.
  - split; rewrite Ed.
    + constructor; [done|]. apply Forall_forall. intros y Hy. by apply Ha.
    + intros x y Hx Hy. assert (x ∈ take (S e) arr) as Hx'.
      { rewrite <- Hp. apply list_elem_of_lookup in Hx as [i Hi]. apply list_elem_of_lookup. exists i.
        apply lookup_take_Some in Hi as [Hi ?]. apply lookup_take_Some. split; [done|lia]. }
      apply elem_of_cons in Hy as [->|Hy]; [by apply Hmax|by apply Ha].
  - split; [|unfold child_of; lia]. intros i c _ Hi Hci Hc.
    rewrite !swapped_lookup by lia. unfold child_of in *.
    rewrite !decide_False by lia. apply Hh; [lia|done|lia].
Qed.

Lemma drain_heap_sorted size fuel e : forall arr,
  (e < length arr)%nat -> (length arr <= fuel)%nat -> blocks size arr ->
  heap 0 arr (S e) -> sorted_above (S e) arr ->
  exists arr', drain_heap cmp fuel arr e = Some arr' /\ arr' ≡ₚ arr /\ StronglySorted le_by arr'.
Proof.
  induction e as [|e IH]; intros arr He Hf Hb Hh Hs; cbn [drain_heap].
  - exists arr. split; [done|]. split; [done|]. destruct Hs as [Hs Ha].
    destruct arr as [|x arr]; [done|]. simpl in *. constructor; [by rewrite drop_0 in Hs|].
    apply Forall_forall. intros y Hy. apply Ha; [set_solver|by rewrite drop_0].
  - rewrite (swap_at_eq size) by (done || lia). cbn [mbind option_bind].
    destruct (swap_root_sorted arr (S e)) as [Hs1 Hh1]; [done..|].
    pose proof (swapped_perm arr 0 (S e)) as Hp1.
    destruct (sift_down_heap 0 size fuel (swapped arr 0 (S e)) 0 (S e))
      as (arr2 & -> & Hh2 & Hp2 & Hd2);
      [done|lia|rewrite swapped_length; lia|eapply blocks_perm; [apply Hp1; lia|done]|lia|].
    cbn [mbind option_bind]. pose proof (perm_split _ _ _ Hp2 Hd2) as Hperm.
    assert (length arr2 = length arr) as El by (by rewrite Hperm, swapped_length).
    destruct (IH arr2) as (arr' & -> & Hp' & Hs');
      [lia|lia| |done|by eapply sorted_above_perm|].
    { eapply blocks_perm; [by rewrite Hperm, Hp1 by lia|done]. }
    exists arr'. split; [done|]. split; [|done]. by rewrite Hp', Hperm, Hp1 by lia.
Qed.

Lemma heap_sort_sorted size arr :
  blocks size arr -> size <> 0%nat ->
  exists arr', jlos_heap_sort cmp arr (length arr) size = Some arr' /\
    arr' ≡ₚ arr /\ StronglySorted le_by arr'.
Proof.
  intros Hb Hz. unfold jlos_heap_sort. destruct (Nat.ltb_spec (length arr) 2) as [Hlt|Hge]; cbn [orb].
  { exists arr. split; [done|]. split; [done|].
    destruct arr as [|x [|y arr]]; simpl in *; [constructor|repeat constructor|lia]. }
  destruct (Nat.eqb_spec size 0); [done|].
  pose proof (Nat.div_mod_eq (length arr) 2). pose proof (Nat.mod_upper_bound (length arr) 2).
  destruct (build_heap_heap size (length arr) (Nat.div (length arr) 2) arr (length arr))
    as (arr1 & -> & Hh1 & Hp1 & Hd1); [unfold heap, child_of; lia|done|done|done|].
  cbn [mbind option_bind]. pose proof (perm_split _ _ _ Hp1 Hd1) as Hperm.
  assert (length arr1 = length arr) as El by (by rewrite Hperm).
  destruct (drain_heap_sorted size (length arr) (length arr - 1) arr1) as (arr' & -> & Hp' & Hs').
  - lia.
  - lia.
  - by eapply blocks_perm.
  - by replace (S (length arr - 1)) with (length arr) by lia.
  - replace (S (length arr - 1)) with (length arr1) by lia.
    split; rewrite drop_all; [constructor|set_solver].
  - exists arr'. split; [done|]. split; [by rewrite Hp'|done].
Qed.

(** *** Insertion sort *)

(** The first [n] elements are sorted except that element [j] may be too
    small for its place. *)
Definition sorted_but (j n : nat) (arr : list block) : Prop :=
  forall a b, (a < b)%nat -> (b < n)%nat -> b <> j -> le_by (arr !!! a) (arr !!! b).

Lemma insertion_inner_sorted size n j : forall arr,
  sorted_but j n arr -> (j < n)%nat -> (n <= length arr)%nat -> blocks size arr ->
  exists arr', insertion_inner cmp arr j = Some arr' /\ arr' ≡ₚ arr /\
    drop n arr' = drop n arr /\
    (forall a b, (a < b)%nat -> (b < n)%nat -> le_by (arr' !!! a) (arr' !!! b)).
Proof.
  induction j as [|j IH]; intros arr Hs Hj Hn Hb; cbn [insertion_inner].
  { exists arr. split_and!; [done..|]. intros a b Hab Hbn. apply Hs; lia. }
  rewrite cmp_at_eq by lia. cbn [mbind option_bind].
  destruct (Z.ltb_spec 0 (cmp (arr !!! j) (arr !!! S j))) as [Hgt|Hle].
  - rewrite (swap_at_eq size) by (done || lia). cbn [mbind option_bind].
    destruct (swapped_prefix arr j (S j) n) as [Hp Hd]; [lia..|].
    pose proof (perm_split _ _ _ Hp Hd) as Hperm.
    apply cmp_swap in Hgt. apply lt_le in Hgt.
    destruct (IH (swapped arr j (S j))) as (arr' & -> & Hp' & Hd' & Hs').
    + intros a b Hab Hbn Hbj. rewrite !swapped_lookup by lia.
      destruct (decide (b = S j)) as [->|]; [|rewrite (decide_False (P := b = j)) by done].
      * rewrite (decide_False (P := a = S j)) by lia. case_decide; [done|]. apply Hs; lia.
      * case_decide; [apply Hs; lia|]. case_decide; [|by apply Hs].
        subst a. apply Hs; lia.
    + lia.
    + by rewrite swapped_length.
    + by eapply blocks_perm.
    + exists arr'. split_and!; [done|by rewrite Hp'|by rewrite Hd'|done].
  - exists arr. split_and!; [done..|]. intros a b Hab Hbn.
    destruct (decide (b = S j)) as [->|]; [|by apply Hs].
    destruct (decide (a = j)) as [->|]; [unfold le_by; lia|].
    eapply le_trans; [apply (Hs a j); lia|unfold le_by; lia].
Qed.
Lemma insertion_outer_sorted size todo : forall arr i,
  (forall a b, (a < b)%nat -> (b < i)%nat -> le_by (arr !!! a) (arr !!! b)) ->
  (i + todo <= length arr)%nat -> blocks size arr ->
  exists arr', insertion_outer cmp arr i todo = Some arr' /\ arr' ≡ₚ arr /\
    (forall a b, (a < b)%nat -> (b < i + todo)%nat -> le_by (arr' !!! a) (arr' !!! b)).
Proof.
  induction todo as [|todo IH]; intros arr i Hs Hn Hb; cbn [insertion_outer].
  { exists arr. split_and!; [done..|]. by rewrite Nat.add_0_r. }
  destruct (insertion_inner_sorted size (S i) i arr) as (arr1 & -> & Hp1 & _ & Hs1);
    [intros a b ? ? ?; apply Hs; lia|lia|lia|done|].
  cbn [mbind option_bind].
  destruct (IH arr1 (S i)) as (arr' & -> & Hp' & Hs');
    [done|rewrite Hp1; lia|by eapply blocks_perm|].
  exists arr'. split_and!; [done|by rewrite Hp'|]. intros a b Hab Hbn. apply Hs'; lia.
Qed.

Lemma pairwise_sorted arr :
  (forall a b, (a < b)%nat -> (b < length arr)%nat -> le_by (arr !!! a) (arr !!! b)) ->
  StronglySorted le_by arr.
Proof.
  induction arr as [|x arr IH]; intros Hs; constructor.
  - apply IH. intros a b Hab Hb. apply (Hs (S a) (S b)); simpl; lia.
  - apply Forall_lookup. intros i y Hi. rewrite <- (list_lookup_total_correct _ _ _ Hi).
    apply lookup_lt_Some in Hi. apply (Hs 0%nat (S i)); simpl; lia.
Qed.

Lemma insertion_sort_sorted size arr :
  blocks size arr ->
  exists arr', jlos_insertion_sort cmp arr (length arr) size = Some arr' /\
    arr' ≡ₚ arr /\ StronglySorted le_by arr'.
Proof.
  intros Hb. unfold jlos_insertion_sort. destruct (decide (length arr = 0%nat)) as [E|E].
  { destruct arr; [|done]. exists []. split_and!; [done..|constructor]. }
  destruct (insertion_outer_sorted size (length arr - 1) arr 1) as (arr' & -> & Hp & Hs);
    [lia|lia|done|].
  exists arr'. split_and!; [done..|]. apply pairwise_sorted.
  intros a b Hab Hbn. rewrite Hp in Hbn. apply Hs; lia.
Qed.
End sort_correct.

(** Both sorts terminate without leaving the array and return an ordered
    permutation of their input, for every comparison function that is a total
    preorder. *)
Theorem sorts_correct cmp size arr :
  (forall a b, cmp a b < 0 <-> 0 < cmp b a) ->
  (forall a b c, le_by cmp a b -> le_by cmp b c -> le_by cmp a c) ->
  blocks size arr -> size <> 0%nat ->
  (exists arr', jlos_heap_sort cmp arr (length arr) size = Some arr' /\
     arr' ≡ₚ arr /\ StronglySorted (le_by cmp) arr') /\
  (exists arr', jlos_insertion_sort cmp arr (length arr) size = Some arr' /\
     arr' ≡ₚ arr /\ StronglySorted (le_by cmp) arr').
Proof.
  intros. split; [by apply heap_sort_sorted|by apply insertion_sort_sorted].
Qed.

(** ** Correctness of the searches *)
Section search_correct.
Context {K : Type} (cmp : K -> block -> Z) (key : K) (arr : list block).

(** [p] holds of a prefix of the array. *)
Definition prefix_pred (p : block -> bool) : Prop :=
  forall i j, (i < j)%nat -> (j < length arr)%nat -> p (arr !!! j) = true -> p (arr !!! i) = true.
Definition splits_at (p : block -> bool) (r : nat) : Prop :=
  (r <= length arr)%nat /\ (forall i, (i < r)%nat -> p (arr !!! i) = true) /\
  (forall i, (r <= i < length arr)%nat -> p (arr !!! i) = false).

Lemma bound_loop_splits (strict : bool) fuel : forall lo n,
  let p := fun x => if strict then 0 <? cmp key x else 0 <=? cmp key x in
  prefix_pred p -> (lo + n <= length arr)%nat -> (n <= fuel)%nat ->
  (forall i, (i < lo)%nat -> p (arr !!! i) = true) ->
  (forall i, (lo + n <= i < length arr)%nat -> p (arr !!! i) = false) ->
  exists r, bound_loop cmp strict fuel key arr lo n = Some r /\ splits_at p r.
Proof.
  induction fuel as [|fuel IH]; intros lo n p Hp Hn Hf Hlo Hhi; simpl;
    (destruct (Nat.eqb_spec n 0) as [->|]; [exists lo; rewrite Nat.add_0_r in *; by split_and!|try lia]).
  pose proof (Nat.div_mod_eq n 2). pose proof (Nat.mod_upper_bound n 2).
  change (fst (Nat.divmod n 1 0 1)) with (Nat.div n 2). set (half := Nat.div n 2) in *.
  rewrite (list_lookup_lookup_total_lt arr (lo + half)) by lia. simpl.
  destruct (if strict then _ else _) eqn:Ep; change (p (arr !!! (lo + half)%nat) = true) in Ep ||
    change (p (arr !!! (lo + half)%nat) = false) in Ep.
  - apply IH; [done|lia|lia| |].
    + intros i Hi. destruct (decide (i = (lo + half)%nat)) as [->|]; [done|]. apply (Hp i (lo + half)%nat); [lia|lia|done].
    + intros i Hi. apply Hhi. lia.
  - apply IH; [done|lia|lia|done|].
    intros i Hi. destruct (decide (i = (lo + half)%nat)) as [->|]; [done|].
    destruct (p (arr !!! i)) eqn:Ei; [|done]. assert (p (arr !!! (lo + half)%nat) = true) by (apply (Hp _ i); [lia|lia|done]). congruence.
Qed.
End search_correct.

(** The first element equal to the key. *)
Lemma bsearch_spec {K} (cmp : K -> block -> Z) key arr :
  prefix_pred arr (fun x => 0 <? cmp key x) -> prefix_pred arr (fun x => 0 <=? cmp key x) ->
  exists f, jlos_bsearch cmp key arr (length arr) = Some f /\
    match f with
    | Some i => (i < length arr)%nat /\ cmp key (arr !!! i) = 0 /\
                forall j, (j < i)%nat -> cmp key (arr !!! j) <> 0
    | None => forall j, (j < length arr)%nat -> cmp key (arr !!! j) <> 0
    end.
Proof.
  intros Hgt Hge. unfold jlos_bsearch, jlos_lower_bound.
  destruct (bound_loop_splits cmp key arr true (length arr) 0 (length arr)) as (r & Er & Hr);
    [done|lia|lia|lia|lia|].
  rewrite Er. cbn [mbind option_bind]. destruct Hr as (Hle & Hlo & Hhi).
  assert (forall j, (j < r)%nat -> cmp key (arr !!! j) <> 0) as Hbelow.
  { intros j Hj. specialize (Hlo j Hj). lia. }
  destruct (Nat.ltb_spec r (length arr)) as [Hlt|Hge'].
  - rewrite (list_lookup_lookup_total_lt arr r) by done. simpl. specialize (Hhi r) as Hr0.
    destruct (Z.eqb_spec (cmp key (arr !!! r)) 0); eexists; (split; [done|]); [done|].
    intros j Hj. destruct (decide (j < r)%nat); [by apply Hbelow|]. intros H0.
    destruct (decide (j = r)) as [->|]; [done|].
    assert ((0 <=? cmp key (arr !!! r)) = true) by (apply (Hge r j); lia). lia.
  - eexists. split; [done|]. simpl. intros j Hj. apply Hbelow. lia.
Qed.

(** On an array ordered for the key, [jlos_lower_bound] and
    [jlos_upper_bound] return the end of the elements below, respectively not
    above, the key, and [jlos_bsearch] returns the first element equal to the
    key if there is one and null otherwise. *)
Theorem searches_correct {K} (cmp : K -> block -> Z) key arr :
  prefix_pred arr (fun x => 0 <? cmp key x) -> prefix_pred arr (fun x => 0 <=? cmp key x) ->
  (exists r, jlos_lower_bound cmp key arr (length arr) = Some r /\
     splits_at arr (fun x => 0 <? cmp key x) r) /\
  (exists r, jlos_upper_bound cmp key arr (length arr) = Some r /\
     splits_at arr (fun x => 0 <=? cmp key x) r) /\
  (exists f, jlos_bsearch cmp key arr (length arr) = Some f /\
     match f with
     | Some i => (i < length arr)%nat /\ cmp key (arr !!! i) = 0 /\
                 forall j, (j < i)%nat -> cmp key (arr !!! j) <> 0
     | None => forall j, (j < length arr)%nat -> cmp key (arr !!! j) <> 0
     end).
Proof.
  intros Hgt Hge. unfold jlos_lower_bound, jlos_upper_bound.
  split_and!; [..|by apply bsearch_spec]; apply bound_loop_splits; done || lia.
Qed.

(** ** Witnesses: three one-byte elements compared as numbers *)

Definition byte_cmp (a b : block) : Z := hd 0 a - hd 0 b.

Lemma sorts_correct_witness :
  (exists arr', jlos_heap_sort byte_cmp [[3]; [1]; [2]] 3 1 = Some arr' /\
     arr' ≡ₚ [[3]; [1]; [2]] /\ StronglySorted (le_by byte_cmp) arr') /\
  (exists arr', jlos_insertion_sort byte_cmp [[3]; [1]; [2]] 3 1 = Some arr' /\
     arr' ≡ₚ [[3]; [1]; [2]] /\ StronglySorted (le_by byte_cmp) arr').
Proof.
  apply (sorts_correct byte_cmp 1 [[3]; [1]; [2]]).
  - unfold byte_cmp. lia.
  - unfold le_by, byte_cmp. lia.
  - repeat constructor.
  - lia.
Defined.

Lemma searches_correct_witness :
  exists f, jlos_bsearch byte_cmp [2] [[1]; [2]; [2]] 3 = Some f /\
    match f with
    | Some i => (i < 3)%nat /\ byte_cmp [2] ([[1]; [2]; [2]] !!! i) = 0 /\
                forall j, (j < i)%nat -> byte_cmp [2] ([[1]; [2]; [2]] !!! j) <> 0
    | None => forall j, (j < 3)%nat -> byte_cmp [2] ([[1]; [2]; [2]] !!! j) <> 0
    end.
Proof.
  apply (searches_correct byte_cmp [2] [[1]; [2]; [2]]);
    intros i j Hij Hj; simpl in Hj; destruct j as [|[|[|j]]]; try lia; destruct i as [|[|i]]; try lia; done.
Defined.
