(* ===== verification/Sync.v ===== *)
(** * Semaphores, mutexes and condition variables ([kernel/sync.c])

    Every operation runs under the spin lock of its object with interrupts
    disabled, so it is one atomic step; a blocking operation ends by giving up
    the processor and resumes when the task is scheduled again.  The wait
    queues are the sequences that [DList] proves the intrusive lists to be. *)
From S2P Require Import Prelude.

(** Task states of [kernel/multitask.h] (the ones these objects use). *)
Inductive task_status := READY | RUNNING | BLOCKED | WAITING | ZOMBIE.
#[export] Instance task_status_eq_dec : EqDecision task_status.
Proof. solve_decision. Defined.

(** What the objects see of the scheduler: the status of each task and the
    order in which tasks were put on the run queue. *)
Record sched := Sched { status : gmap Z task_status; ready_queue : list Z }.

Definition set_blocked (s : sched) (t : Z) : sched :=
  Sched (<[t := BLOCKED]> (status s)) (filter (fun x => x <> t) (ready_queue s)).

(** [jlos_task_wakeup], without the timer wheel. *)
Definition jlos_task_wakeup (s : sched) (t : Z) : sched :=
  if decide (status s !! t = Some BLOCKED)
  then Sched (<[t := READY]> (status s)) (ready_queue s ++ [t])
  else s.

Definition wait_enqueue (q : list Z) (t : Z) : list Z := q ++ [t].
Definition wait_dequeue (q : list Z) : option Z * list Z :=
  match q with [] => (None, []) | t :: q => (Some t, q) end.

(** Wake the dequeued task if it is still blocked. *)
Definition wake_waiter (s : sched) (w : option Z) : sched :=
  match w with
  | Some t => if decide (status s !! t = Some BLOCKED) then jlos_task_wakeup s t else s
  | None => s
  end.

(** ** Semaphores *)

Record semaphore := Semaphore { resource_count : Z; sem_queue : list Z }.

Definition jlos_semaphore_init (init_count : Z) : semaphore := Semaphore init_count [].

(** [current] is the running task, [None] before the scheduler started; the
    result tells whether the caller gave up the processor. *)
Definition jlos_semaphore_wait (sem : semaphore) (s : sched) (current : option Z)
    : semaphore * sched * bool :=
  match current with
  | None => (sem, s, false)
  | Some t =>
      let c := s32 (resource_count sem - 1) in
      if 0 <=? c then (Semaphore c (sem_queue sem), s, false)
      else (Semaphore c (wait_enqueue (sem_queue sem) t), set_blocked s t, true)
  end.

Definition jlos_semaphore_post (sem : semaphore) (s : sched) : semaphore * sched :=
  let c := s32 (resource_count sem + 1) in
  if 0 <? c then (Semaphore c (sem_queue sem), s)
  else
    let '(w, q) := wait_dequeue (sem_queue sem) in
    (Semaphore c q, wake_waiter s w).

(** ** Mutexes *)

Record mutex := Mutex {
  locked : bool; owner : option Z; recursion : Z; mx_queue : list Z }.

Definition jlos_mutex_init : mutex := Mutex false None 0 [].

Definition jlos_mutex_lock (m : mutex) (s : sched) (current : option Z) : mutex * sched * bool :=
  match current with
  | None => (m, s, false)
  | Some t =>
      if decide (owner m = Some t) then
        (Mutex (locked m) (owner m) (u32 (recursion m + 1)) (mx_queue m), s, false)
      else if negb (locked m) then
        (Mutex true (Some t) 1 (mx_queue m), s, false)
      else
        (Mutex (locked m) (owner m) (recursion m) (wait_enqueue (mx_queue m) t), set_blocked s t, true)
  end.

Definition jlos_mutex_unlock (m : mutex) (s : sched) (current : option Z) : mutex * sched :=
  if decide (current = None \/ owner m <> current) then (m, s)
  else
    let r := u32 (recursion m - 1) in
    if 0 <? r then (Mutex (locked m) (owner m) r (mx_queue m), s)
    else
      let '(w, q) := wait_dequeue (mx_queue m) in
      match w with
      | Some t =>
          if decide (status s !! t = Some BLOCKED)
          then (Mutex true (Some t) 1 q, jlos_task_wakeup s t)
          else (Mutex false None r q, s)
      | None => (Mutex false None r q, s)
      end.

(** ** Condition variables *)

(** [jlos_cond_wait] up to the point where the caller gives up the processor;
    when scheduled again it calls [jlos_mutex_lock]. *)
Definition jlos_cond_wait (cond : list Z) (m : mutex) (s : sched) (current : option Z)
    : list Z * mutex * sched * bool :=
  match current with
  | None => (cond, m, s, false)
  | Some t =>
      let cond := wait_enqueue cond t in
      let s := set_blocked s t in
      let '(m, s) := jlos_mutex_unlock m s current in
      (cond, m, s, true)
  end.

Definition jlos_cond_signal (cond : list Z) (s : sched) : list Z * sched :=
  let '(w, q) := wait_dequeue cond in (q, wake_waiter s w).

Fixpoint jlos_cond_broadcast (cond : list Z) (s : sched) : list Z * sched :=
  match cond with
  | [] => ([], s)
  | t :: q => jlos_cond_broadcast q (wake_waiter s (Some t))
  end.

(** ** Semaphore accounting *)

(** The count is the number of free units, or minus the number of waiters; the
    waiters are blocked. *)
Definition sem_inv (sem : semaphore) (s : sched) : Prop :=
  zlen (sem_queue sem) = Z.max 0 (- resource_count sem) /\
  - 2 ^ 31 <= resource_count sem < 2 ^ 31 /\
  NoDup (sem_queue sem) /\
  forall t, t ∈ sem_queue sem -> status s !! t = Some BLOCKED.

Lemma semaphore_wait_spec sem s t :
  sem_inv sem s -> status s !! t = Some RUNNING -> - 2 ^ 31 < resource_count sem ->
  exists sem' s' b, jlos_semaphore_wait sem s (Some t) = (sem', s', b) /\ sem_inv sem' s' /\
    b = bool_decide (resource_count sem <= 0) /\
    resource_count sem' = resource_count sem - 1 /\
    sem_queue sem' = (if b then sem_queue sem ++ [t] else sem_queue sem) /\
    status s' = (if b then <[t := BLOCKED]> (status s) else status s).
Proof.
  intros (Hq & Hr & Hnd & Hbl) Ht Hlo.
  assert (t ∉ sem_queue sem) as Hnt by (intros Hin%Hbl; congruence).
  unfold jlos_semaphore_wait. rewrite s32_small by lia.
  destruct (Z.leb_spec 0 (resource_count sem - 1)).
  - eexists _, _, false. split; [done|]. split; [split_and!; simpl; [lia|lia|lia|done|done]|].
    rewrite bool_decide_false by lia. done.
  - eexists _, _, true. split; [done|].
    split; [|rewrite bool_decide_true by lia; done].
    unfold wait_enqueue. split_and!; simpl.
    + rewrite length_app. simpl. lia.
    + lia.
    + lia.
    + apply NoDup_app. split_and!; [done|set_solver|apply NoDup_singleton].
    + intros x Hx. destruct (decide (x = t)) as [->|]; [by rewrite lookup_insert_eq|].
      rewrite lookup_insert_ne by done. apply Hbl. set_solver.
Qed.

Lemma semaphore_post_spec sem s :
  sem_inv sem s -> resource_count sem < 2 ^ 31 - 1 ->
  exists sem' s', jlos_semaphore_post sem s = (sem', s') /\ sem_inv sem' s' /\
    resource_count sem' = resource_count sem + 1 /\
    match sem_queue sem with
    | w :: q => sem_queue sem' = q /\ status s' = <[w := READY]> (status s)
    | [] => sem_queue sem' = [] /\ s' = s
    end.
Proof.
  intros (Hq & Hr & Hnd & Hbl) Hhi. unfold jlos_semaphore_post. rewrite s32_small by lia.
  destruct (Z.ltb_spec 0 (resource_count sem + 1)).
  - eexists _, _. split; [done|]. destruct (sem_queue sem) as [|w q] eqn:Eq; [|simpl in *; lia].
    split; [|done]. split_and!; simpl; [lia|lia|lia|done|done].
  - destruct (sem_queue sem) as [|w q] eqn:Eq; [simpl in *; lia|]. simpl.
    pose proof (Hbl w) as Hw. rewrite decide_True by (apply Hw; set_solver).
    unfold jlos_task_wakeup. rewrite decide_True by (apply Hw; set_solver).
    eexists _, _. split; [done|]. split; [|done].
    apply NoDup_cons in Hnd as [Hni Hnd]. split_and!; simpl in *; [lia|lia|lia|done|].
    intros x Hx. rewrite lookup_insert_ne by set_solver. apply Hbl. set_solver.
Qed.

(** A semaphore counts: [wait] takes a unit or, when there is none, queues
    and blocks the caller, and only then; [post] returns a unit or wakes
    exactly the task that has waited longest.  The count, the queue and the
    task states agree after every operation. *)
Theorem semaphore_refines sem s t :
  sem_inv sem s -> status s !! t = Some RUNNING ->
  (- 2 ^ 31 < resource_count sem ->
   exists sem' s' b, jlos_semaphore_wait sem s (Some t) = (sem', s', b) /\ sem_inv sem' s' /\
     b = bool_decide (resource_count sem <= 0) /\
     resource_count sem' = resource_count sem - 1 /\
     sem_queue sem' = (if b then sem_queue sem ++ [t] else sem_queue sem) /\
     status s' = (if b then <[t := BLOCKED]> (status s) else status s)) /\
  (resource_count sem < 2 ^ 31 - 1 ->
   exists sem' s', jlos_semaphore_post sem s = (sem', s') /\ sem_inv sem' s' /\
     resource_count sem' = resource_count sem + 1 /\
     match sem_queue sem with
     | w :: q => sem_queue sem' = q /\ status s' = <[w := READY]> (status s)
     | [] => sem_queue sem' = [] /\ s' = s
     end).
Proof. intros. split; [by apply semaphore_wait_spec|by apply semaphore_post_spec]. Qed.

(** ** Mutual exclusion

    Tasks call [jlos_mutex_lock] and [jlos_mutex_unlock]; [held] counts, for
    each task, the calls of [lock] that have returned and are not yet undone by
    [unlock], and [in_lock] marks the tasks suspended inside [lock]. *)
Record msys := MSys { mx : mutex; sc : sched; held : Z -> Z; in_lock : Z -> bool }.

Definition fset {B} (f : Z -> B) (t : Z) (v : B) : Z -> B := fun x => if decide (x = t) then v else f x.

Lemma fset_eq {B} (f : Z -> B) t v : fset f t v t = v.
Proof. unfold fset. by rewrite decide_True. Qed.
Lemma fset_ne {B} (f : Z -> B) t v x : x <> t -> fset f t v x = f x.
Proof. intros. unfold fset. by rewrite decide_False. Qed.

Definition set_status (s : sched) (t : Z) (st : task_status) : sched :=
  Sched (<[t := st]> (status s)) (ready_queue s).

Inductive mstep : msys -> msys -> Prop :=
| step_lock t m s h il m' s' b :
    status s !! t = Some RUNNING -> il t = false -> h t < 2 ^ 32 - 1 ->
    jlos_mutex_lock m s (Some t) = (m', s', b) ->
    mstep (MSys m s h il)
      (if b : bool then MSys m' s' h (fset il t true) else MSys m' s' (fset h t (h t + 1)) il)
| step_unlock t m s h il m' s' :
    status s !! t = Some RUNNING -> il t = false ->
    jlos_mutex_unlock m s (Some t) = (m', s') ->
    mstep (MSys m s h il) (MSys m' s' (if 0 <? h t then fset h t (h t - 1) else h) il)
| step_run t m s h il :
    status s !! t = Some READY ->
    mstep (MSys m s h il)
      (MSys m (set_status s t RUNNING) (if il t then fset h t (h t + 1) else h) (fset il t false))
| step_preempt t m s h il :
    status s !! t = Some RUNNING ->
    mstep (MSys m s h il) (MSys m (set_status s t READY) h il).

(** The owner either returned from [lock], or was handed the mutex and has not
    run yet; every task suspended in [lock] is queued behind an owner, or is
    that owner. *)
Record minv (y : msys) : Prop := {
  mi_locked : locked (mx y) = bool_decide (owner (mx y) <> None);
  mi_held t : 0 <= held y t < 2 ^ 32;
  mi_held_owner t : 0 < held y t -> owner (mx y) = Some t;
  mi_owner t : owner (mx y) = Some t ->
    if in_lock y t
    then recursion (mx y) = 1 /\ held y t = 0 /\ status (sc y) !! t = Some READY
    else recursion (mx y) = held y t /\ 0 < held y t;
  mi_free : owner (mx y) = None -> mx_queue (mx y) = [];
  mi_nodup : NoDup (mx_queue (mx y));
  mi_queue t : t ∈ mx_queue (mx y) <-> in_lock y t = true /\ owner (mx y) <> Some t;
  mi_blocked t : t ∈ mx_queue (mx y) -> status (sc y) !! t = Some BLOCKED
}.

Lemma minv_init s : minv (MSys jlos_mutex_init s (fun _ => 0) (fun _ => false)).
Proof.
  split; simpl; [done|lia|lia|done|done|constructor| |set_solver].
  intros t. split; [set_solver|]. by intros [? _].
Qed.

Lemma minv_lock t m s h il m' s' b :
  minv (MSys m s h il) -> status s !! t = Some RUNNING -> il t = false -> h t < 2 ^ 32 - 1 ->
  jlos_mutex_lock m s (Some t) = (m', s', b) ->
  minv (if b : bool then MSys m' s' h (fset il t true) else MSys m' s' (fset h t (h t + 1)) il).
Proof.
  intros [Hl Hh Hho Ho Hf Hnd Hq Hb] Hrun Hil Hlt E. simpl in *.
  unfold jlos_mutex_lock in E. destruct (decide (owner m = Some t)) as [Eo|Eo].
  - simplify_eq. simpl. pose proof (Ho t Eo) as Ho'. rewrite Hil in Ho'. pose proof (Hh t).
    split; simpl; try done.
    + intros x. unfold fset. case_decide; [lia|apply Hh].
    + intros x. unfold fset. case_decide; [by subst|apply Hho].
    + intros x Ex. assert (x = t) as -> by congruence. rewrite Hil, fset_eq, u32_small by lia. lia.
  - destruct (locked m) eqn:El; simpl in E; simplify_eq; simpl.
    + symmetry in Hl. apply bool_decide_eq_true_1 in Hl.
      assert (t ∉ mx_queue m) as Hnt by (intros Hin%Hb; congruence).
      split; simpl; try done.
      * by rewrite bool_decide_true.
      * intros x Ex. rewrite fset_ne by congruence. rewrite lookup_insert_ne by congruence. by apply Ho.
      * unfold wait_enqueue. apply NoDup_app. split_and!; [done|set_solver|apply NoDup_singleton].
      * intros x. unfold wait_enqueue. rewrite elem_of_app, list_elem_of_singleton, Hq. unfold fset.
        case_decide; [subst; tauto|]. split; [by intros [?|?]|by left].
      * intros x. unfold wait_enqueue. rewrite elem_of_app, list_elem_of_singleton.
        destruct (decide (x = t)) as [->|]; [by rewrite lookup_insert_eq|].
        rewrite lookup_insert_ne by done. intros [?|?]; [by apply Hb|done].
    + assert (owner m = None) as En.
      { symmetry in Hl. apply bool_decide_eq_false_1 in Hl. destruct (owner m); [|done]. exfalso. by apply Hl. }
      assert (forall x, h x = 0) as Hz.
      { intros x. pose proof (Hh x). destruct (decide (0 < h x)) as [Hp|]; [|lia]. apply Hho in Hp. congruence. }
      split; simpl; try done.
      * intros x. unfold fset. case_decide; [rewrite Hz; lia|apply Hh].
      * intros x. unfold fset. case_decide; [by subst|rewrite Hz; lia].
      * intros x [= <-]. rewrite Hil, fset_eq, Hz. lia.
      * intros x. rewrite Hq. rewrite (Hf En) in Hq. split; [|intros [? ?]; split; [done|congruence]].
        intros Hx. apply Hq in Hx. set_solver.
Qed.

Lemma minv_unlock t m s h il m' s' :
  minv (MSys m s h il) -> status s !! t = Some RUNNING -> il t = false ->
  jlos_mutex_unlock m s (Some t) = (m', s') ->
  minv (MSys m' s' (if 0 <? h t then fset h t (h t - 1) else h) il).
Proof.
  intros [Hl Hh Hho Ho Hf Hnd Hq Hb] Hrun Hil E. simpl in *. unfold jlos_mutex_unlock in E.
  destruct (decide (Some t = None \/ owner m <> Some t)) as [Hne|Heq].
  - simplify_eq. assert (owner m' <> Some t) as Hno by (destruct Hne; [done|done]).
    destruct (Z.ltb_spec 0 (h t)) as [Hp|]; [by apply Hho in Hp|]. by split.
  - assert (owner m = Some t) as Eo by (destruct (decide (owner m = Some t)); [done|tauto]).
    pose proof (Ho t Eo) as Ho'. rewrite Hil in Ho'. destruct Ho' as [Er Hp]. pose proof (Hh t).
    destruct (Z.ltb_spec 0 (h t)); [|lia]. rewrite Er, u32_small in E by lia.
    assert (forall x, x <> t -> h x = 0) as Hz.
    { intros x Hx. pose proof (Hh x). destruct (decide (0 < h x)) as [Hpx|]; [|lia]. apply Hho in Hpx. congruence. }
    assert (forall x, 0 <= fset h t (h t - 1) x < 2 ^ 32) as Hh'.
    { intros x. unfold fset. case_decide; [lia|apply Hh]. }
    destruct (Z.ltb_spec 0 (h t - 1)) as [H1|H1]; [|destruct (mx_queue m) as [|w q] eqn:Eq].
    + simplify_eq. split; simpl; try done.
      * intros x. unfold fset. case_decide; [by subst|apply Hho].
      * intros x Ex. assert (x = t) as -> by congruence. rewrite Hil, fset_eq. lia.
    + simpl in E. simplify_eq. assert (h t = 1) as E1 by lia. split; simpl; try done.
      * intros x. unfold fset. case_decide; [lia|]. rewrite Hz by done. lia.
      * intros x. rewrite Hq. split; [|intros [? _]; split; [done|]].
        -- intros Hx. apply Hq in Hx. set_solver.
        -- intros ?. assert (x = t) as -> by congruence. congruence.
    + simpl in E. rewrite decide_True in E by (apply Hb; set_solver).
      unfold jlos_task_wakeup in E. rewrite decide_True in E by (apply Hb; set_solver). simplify_eq.
      apply NoDup_cons in Hnd as [Hni Hnd].
      destruct (proj1 (Hq w)) as [Hiw How]; [set_solver|]. assert (w <> t) by congruence.
      split; simpl; try done.
      * intros x. unfold fset. case_decide; [lia|]. rewrite Hz by done. lia.
      * intros x [= <-]. rewrite Hiw, fset_ne, Hz, lookup_insert_eq by done. done.
      * intros x. split.
        -- intros Hx. destruct (proj1 (Hq x)) as [? ?]; [set_solver|]. split; [done|]. intros [= ->]. done.
        -- intros [Hx Hxw]. assert (x ∈ w :: q) as Hxq; [|apply elem_of_cons in Hxq as [->|]; [done|done]].
           apply Hq. split; [done|]. intros ?. assert (x = t) as -> by congruence. congruence.
      * intros x Hx. rewrite lookup_insert_ne by set_solver. apply Hb. set_solver.
Qed.

Lemma minv_step y y' : minv y -> mstep y y' -> minv y'.
Proof.
  intros HI Hs. destruct Hs as [t m s h il m' s' b ? ? ? ?|t m s h il m' s' ? ? ?|t m s h il Hr|t m s h il Hr].
  - by eapply minv_lock.
  - by eapply minv_unlock.
  - destruct HI as [Hl Hh Hho Ho Hf Hnd Hq Hb]. simpl in *.
    assert (t ∉ mx_queue m) as Hnt by (intros Hin%Hb; congruence).
    assert (il t = true -> owner m = Some t) as Hio.
    { intros Hi. destruct (decide (owner m = Some t)); [done|]. exfalso. by apply Hnt, Hq. }
    split; simpl; try done.
    + intros x. destruct (il t) eqn:Ei; [|apply Hh]. unfold fset. case_decide; [|apply Hh].
      pose proof (Ho t (Hio eq_refl)) as Hot. rewrite Ei in Hot. lia.
    + intros x. destruct (il t) eqn:Ei; [|apply Hho]. unfold fset. case_decide; [|apply Hho]. subst. auto.
    + intros x Ex. pose proof (Ho x Ex) as Hox. destruct (decide (x = t)) as [->|Hxt].
      * rewrite fset_eq. destruct (il t) eqn:Ei; [rewrite fset_eq; lia|lia].
      * rewrite fset_ne by done. rewrite lookup_insert_ne by done.
        destruct (il t) eqn:Ei; [|done]. rewrite fset_ne by done. done.
    + intros x. rewrite Hq. destruct (decide (x = t)) as [->|]; [|by rewrite fset_ne].
      rewrite fset_eq. split; [|by intros [? _]]. intros [Hi ?]. by apply Hio in Hi.
    + intros x Hx. rewrite lookup_insert_ne by congruence. by apply Hb.
  - destruct HI as [Hl Hh Hho Ho Hf Hnd Hq Hb]. simpl in *.
    split; simpl; try done.
    + intros x Ex. pose proof (Ho x Ex) as Hox. destruct (il x); [|done].
      destruct (decide (x = t)) as [->|]; [destruct Hox as (_ & _ & ?); congruence|by rewrite lookup_insert_ne].
    + intros x Hx. rewrite lookup_insert_ne; [by apply Hb|]. intros ->. apply Hb in Hx. congruence.
Qed.

Lemma minv_reachable s y :
  rtc mstep (MSys jlos_mutex_init s (fun _ => 0) (fun _ => false)) y -> minv y.
Proof.
  intros Hr. remember (MSys _ _ _ _) as y0 eqn:E in Hr.
  assert (minv y0) as H0 by (subst; apply minv_init). clear E.
  induction Hr as [|y0 y1 y2 Hs _ IH]; [done|]. apply IH. by eapply minv_step.
Qed.

(** C29. In every interleaving of lock and unlock calls (recursive ones
    included, to a depth below 2^32 - 1), preemptions and context switches, with no
    task killed or woken from elsewhere while it waits, at most one task is between a
    return from [jlos_mutex_lock] and its [jlos_mutex_unlock]; it is the recorded
    owner, and the recursion count is the number of its calls.  The recorded owner is
    that task, or a waiter that was handed the mutex and is on its way to run.  No
    waiter is forgotten: a task suspended in [lock] is this new owner, or queued
    behind a present owner. *)
Theorem mutex_exclusion s y :
  rtc mstep (MSys jlos_mutex_init s (fun _ => 0) (fun _ => false)) y ->
  (forall t1 t2, 0 < held y t1 -> 0 < held y t2 -> t1 = t2) /\
  (forall t, 0 < held y t -> locked (mx y) = true /\ owner (mx y) = Some t /\ recursion (mx y) = held y t) /\
  (forall t, owner (mx y) = Some t -> 0 < held y t \/ in_lock y t = true /\ status (sc y) !! t = Some READY) /\
  (forall t, in_lock y t = true ->
     owner (mx y) = Some t /\ status (sc y) !! t = Some READY \/
     t ∈ mx_queue (mx y) /\ exists o, owner (mx y) = Some o /\ o <> t).
Proof.
  intros HI%minv_reachable. destruct HI as [Hl Hh Hho Ho Hf Hnd Hq Hb]. split_and!.
  - intros t1 t2 H1%Hho H2%Hho. congruence.
  - intros t Ht. pose proof (Hho t Ht) as Eo. pose proof (Ho t Eo) as Hot. rewrite Hl, Eo. split; [done|]. split; [done|]. destruct (in_lock y t); lia.
  - intros t Eo. pose proof (Ho t Eo) as Hot. destruct (in_lock y t); [right|left]; tauto.
  - intros t Hi. destruct (decide (owner (mx y) = Some t)) as [Eo|Eo].
    + left. pose proof (Ho t Eo) as Hot. rewrite Hi in Hot. tauto.
    + right. assert (t ∈ mx_queue (mx y)) as Hin by (by apply Hq). split; [done|].
      destruct (owner (mx y)) as [o|] eqn:E; [exists o; split; [done|congruence]|].
      rewrite Hf in Hin by done. set_solver.
Qed.

(** ** Killing a waiter

    [jlos_signal_send] with SIGKILL wakes a blocked task directly
    ([kernel/multitask.c]); [jlos_mutex_lock] does not look at the mutex again
    when it resumes. *)
Inductive kstep : msys -> msys -> Prop :=
| kstep_step y y' : mstep y y' -> kstep y y'
| kstep_kill t m s h il : kstep (MSys m s h il) (MSys m (jlos_task_wakeup s t) h il).

Definition three_running : sched := Sched (<[1 := RUNNING]> (<[2 := RUNNING]> {[3 := RUNNING]})) [].

(** With SIGKILL, two tasks are inside the critical section at once: task 2,
    killed while it waits for the mutex of task 1, returns from
    [jlos_mutex_lock] without owning it. *)
Theorem mutex_kill_breaks_exclusion :
  exists y, rtc kstep (MSys jlos_mutex_init three_running (fun _ => 0) (fun _ => false)) y /\
    0 < held y 1 /\ 0 < held y 2.
Proof.
  eexists. split.
  - eapply rtc_l; [apply kstep_step, (step_lock 1); done|]. simpl.
    eapply rtc_l; [apply kstep_step, (step_lock 2); done|]. simpl.
    eapply rtc_l; [apply (kstep_kill 2)|].
    eapply rtc_l; [apply kstep_step, (step_run 2); done|]. apply rtc_refl.
  - done.
Qed.

(** The killed task's stale entry absorbs the hand-over of the next unlock: the
    mutex is free, no task holds it, and task 3 still sleeps on it. *)
Theorem mutex_kill_loses_wakeup :
  exists y, rtc kstep (MSys jlos_mutex_init three_running (fun _ => 0) (fun _ => false)) y /\
    owner (mx y) = None /\ 3 ∈ mx_queue (mx y) /\ status (sc y) !! 3 = Some BLOCKED.
Proof.
  eexists. split.
  - eapply rtc_l; [apply kstep_step, (step_lock 1); done|]. simpl.
    eapply rtc_l; [apply kstep_step, (step_lock 2); done|]. simpl.
    eapply rtc_l; [apply kstep_step, (step_lock 3); done|]. simpl.
    eapply rtc_l; [apply (kstep_kill 2)|].
    eapply rtc_l; [apply kstep_step, (step_unlock 1); done|]. apply rtc_refl.
  - simpl. split_and!; [done|set_solver|done].
Qed.

(** ** Condition variables *)

Lemma cond_broadcast_wakes cond : forall s,
  NoDup cond -> (forall t, t ∈ cond -> status s !! t = Some BLOCKED) ->
  exists s', jlos_cond_broadcast cond s = ([], s') /\
    ready_queue s' = ready_queue s ++ cond /\
    forall t, status s' !! t = if decide (t ∈ cond) then Some READY else status s !! t.
Proof.
  induction cond as [|w q IH]; intros s Hnd Hb; simpl.
  - exists s. rewrite app_nil_r. split_and!; [done..|]. intros t. repeat case_decide; set_solver.
  - apply NoDup_cons in Hnd as [Hni Hnd].
    assert (status s !! w = Some BLOCKED) as Hw by (apply Hb; set_solver).
    unfold jlos_task_wakeup. rewrite !decide_True by done.
    destruct (IH (Sched (<[w := READY]> (status s)) (ready_queue s ++ [w]))) as (s' & E & Hr & Hs).
    { done. }
    { intros t Ht. simpl. rewrite lookup_insert_ne by set_solver. apply Hb. set_solver. }
    exists s'. simpl in *. split_and!; [done|by rewrite Hr, <- app_assoc|].
    intros t. rewrite Hs. destruct (decide (t = w)) as [->|].
    + rewrite lookup_insert_eq. repeat case_decide; try done. set_solver.
    + rewrite lookup_insert_ne by done. repeat case_decide; set_solver.
Qed.

(** [jlos_cond_wait] releases the mutex exactly as [jlos_mutex_unlock]
    would, with the caller already queued and blocked, so a signal sent once
    the mutex is free finds it; [jlos_cond_signal] wakes the task that has
    waited longest and [jlos_cond_broadcast] all of them, in that order. *)
Theorem cond_refines cond m s t :
  NoDup (cond ++ [t]) -> (forall x, x ∈ cond -> status s !! x = Some BLOCKED) ->
  owner m = Some t -> recursion m = 1 -> mx_queue m = [] ->
  exists s1, jlos_cond_wait cond m s (Some t) = (cond ++ [t], Mutex false None 0 [], s1, true) /\
    status s1 !! t = Some BLOCKED /\
    (exists s2, jlos_cond_signal (cond ++ [t]) s1 = (tail (cond ++ [t]), s2) /\
       status s2 = <[hd t cond := READY]> (status s1)) /\
    (exists s3, jlos_cond_broadcast (cond ++ [t]) s1 = ([], s3) /\
       ready_queue s3 = ready_queue s1 ++ cond ++ [t] /\
       forall x, status s3 !! x = if decide (x ∈ cond ++ [t]) then Some READY else status s1 !! x).
Proof.
  intros Hnd Hb Ho Hr Hq. unfold jlos_cond_wait, jlos_mutex_unlock.
  rewrite decide_False by (intros [?|?]; congruence). rewrite Hr, Hq. simpl.
  eexists. split; [done|]. assert (forall x, x ∈ cond ++ [t] -> status (set_blocked s t) !! x = Some BLOCKED) as Hb'.
  { intros x Hx. simpl. destruct (decide (x = t)) as [->|]; [by rewrite lookup_insert_eq|].
    rewrite lookup_insert_ne by done. apply Hb. set_solver. }
  split_and!; [apply Hb'; set_solver| |by apply cond_broadcast_wakes].
  unfold jlos_cond_signal. destruct cond as [|w q]; cbn [app wait_dequeue wake_waiter tail hd] in *;
    unfold jlos_task_wakeup; rewrite !decide_True by (apply Hb'; set_solver); eauto.
Qed.

(** ** Witnesses *)

Lemma semaphore_refines_witness :
  exists sem' s' b, jlos_semaphore_wait (Semaphore 0 []) three_running (Some 1) = (sem', s', b) /\
    sem_inv sem' s' /\ b = bool_decide (0 <= 0) /\ resource_count sem' = 0 - 1 /\
    sem_queue sem' = (if b then [] ++ [1] else []) /\
    status s' = (if b then <[1 := BLOCKED]> (status three_running) else status three_running).
Proof.
  apply (semaphore_refines (Semaphore 0 []) three_running 1); [|done|done].
  split_and!; simpl; [done|lia|lia|constructor|set_solver].
Defined.

Lemma mutex_exclusion_witness :
  exists y, rtc mstep (MSys jlos_mutex_init three_running (fun _ => 0) (fun _ => false)) y /\
    owner (mx y) = Some 1 /\ in_lock y 2 = true /\
    (forall t1 t2, 0 < held y t1 -> 0 < held y t2 -> t1 = t2).
Proof.
  assert (exists y, rtc mstep (MSys jlos_mutex_init three_running (fun _ => 0) (fun _ => false)) y /\
    owner (mx y) = Some 1 /\ in_lock y 2 = true) as (y & Hr & Ho & Hi).
  - eexists. split; [|].
    + eapply rtc_l; [apply (step_lock 1); done|]. simpl.
      eapply rtc_l; [apply (step_lock 2); done|]. apply rtc_refl.
    + done.
  - exists y. split_and!; [exact Hr|done|done|]. apply (mutex_exclusion _ _ Hr).
Defined.

Lemma cond_refines_witness :
  exists s1, jlos_cond_wait [] (Mutex true (Some 1) 1 []) three_running (Some 1)
      = ([1], Mutex false None 0 [], s1, true) /\ status s1 !! 1 = Some BLOCKED.
Proof.
  destruct (cond_refines [] (Mutex true (Some 1) 1 []) three_running 1) as (s1 & E & Hb & _).
  - repeat constructor. set_solver.
  - set_solver.
  - done.
  - done.
  - done.
  - by exists s1.
Defined.
