(* ===== verification/Ipc.v ===== *)
(** * Pipes and message queues ([kernel/ipc.c])

    The body of each loop of [jlos_pipe_write] and [jlos_pipe_read] is split at
    the points where other tasks can run: the semaphore wait, each test of a field
    of the pipe outside the mutex, the section under
    the pipe's mutex (atomic by [Sync.mutex_exclusion]), each post.  [jlos_pipe_close]
    is split at its store and its two posts.  A thread
    is an automaton over these points, and the system steps any thread. *)
From S2P Require Import Prelude Sync.

(** ** The byte ring of a pipe *)

Record pipe := Pipe {
  p_buffer : list Z;
  p_buf_size : Z;
  p_read_pos : Z;
  p_write_pos : Z;
  p_count : Z;
  p_closed : bool
}.

(** [jlos_pipe_init]: the clamped size; the buffer comes from [jlos_kalloc] and
    is zeroed.  [None] when the allocation failed: the pipe is then left as it
    was, without a buffer. *)
Definition pipe_size (buf_size : Z) : Z :=
  let buf_size := if buf_size =? 0 then 4096 else buf_size in
  if 65536 <? buf_size then 65536 else buf_size.
Definition jlos_pipe_init (kalloc_ok : bool) (buf_size : Z) : option (pipe * semaphore * semaphore * mutex) :=
  let n := pipe_size buf_size in
  if kalloc_ok then
    Some (Pipe (replicate (Z.to_nat n) 0) n 0 0 0 false,
          jlos_semaphore_init n, jlos_semaphore_init 0, jlos_mutex_init)
  else None.

(** [JLOS_ARRAY_LIMIT_RANGE] *)
Definition next_pos (pos size : Z) : Z := u32 (pos + 1) `mod` size.

(** The copy loop of [jlos_pipe_write], [n] bytes from offset [off] of [buf]. *)
Fixpoint write_bytes (n : nat) (buffer : list Z) (pos size : Z) (buf : list Z) (off : Z)
    : option (list Z * Z) :=
  match n with
  | O => Some (buffer, pos)
  | S n =>
      b ← geti buf off;
      buffer ← seti buffer pos b;
      write_bytes n buffer (next_pos pos size) size buf (off + 1)
  end.

(** The section of [jlos_pipe_write] under the mutex; also returns the number
    of bytes taken. *)
Definition write_chunk (p : pipe) (buf : list Z) (written len : Z) : option (pipe * Z) :=
  let slot := u32 (p_buf_size p - p_count p) in
  let free_contig := u32 (p_buf_size p - p_write_pos p) in
  let can_write := u32 (len - written) in
  let can_write := if slot <? can_write then slot else can_write in
  let can_write := if free_contig <? can_write then free_contig else can_write in
  '(buffer, pos) ← write_bytes (Z.to_nat can_write) (p_buffer p) (p_write_pos p) (p_buf_size p) buf written;
  Some (Pipe buffer (p_buf_size p) (p_read_pos p) pos (u32 (p_count p + can_write)) (p_closed p), can_write).

(** The copy loop of [jlos_pipe_read]. *)
Fixpoint read_bytes (n : nat) (buffer : list Z) (pos size : Z) : option (list Z * Z) :=
  match n with
  | O => Some ([], pos)
  | S n =>
      b ← geti buffer pos;
      '(bs, pos) ← read_bytes n buffer (next_pos pos size) size;
      Some (b :: bs, pos)
  end.

Definition read_chunk (p : pipe) (read len : Z) : option (pipe * list Z) :=
  let avail := p_count p in
  let avail_contig := u32 (p_buf_size p - p_read_pos p) in
  let can_read := u32 (len - read) in
  let can_read := if avail <? can_read then avail else can_read in
  let can_read := if avail_contig <? can_read then avail_contig else can_read in
  '(bs, pos) ← read_bytes (Z.to_nat can_read) (p_buffer p) (p_read_pos p) (p_buf_size p);
  Some (Pipe (p_buffer p) (p_buf_size p) pos (p_write_pos p) (u32 (p_count p - can_read)) (p_closed p), bs).

Definition set_closed (p : pipe) : pipe :=
  Pipe (p_buffer p) (p_buf_size p) (p_read_pos p) (p_write_pos p) (p_count p) true.

(** ** Threads inside [jlos_pipe_write] and [jlos_pipe_read] *)

Inductive pc :=
| Loop                (* at the loop condition *)
| Waiting             (* suspended in the semaphore wait *)
| Granted             (* the wait has returned; before the test of [closed] *)
| Tested              (* reader: [closed] was set; before the test of [count] *)
| Enter               (* before the section under the mutex *)
| Refund              (* before the post that returns the unit *)
| Copied (k : Z)      (* left the mutex after [k] bytes (reader: before the closed test) *)
| Posting (k : Z)     (* [k] posts left *)
| CloseFlag           (* [jlos_pipe_close]: before the store to [closed] *)
| CloseRead           (* before the post for the readers *)
| CloseWrite          (* before the post for the writers *)
| Done.

Record thread := Thread {
  t_writer : bool;
  t_buf : list Z;      (* bytes to write, or bytes read so far *)
  t_len : Z;
  t_pos : Z;           (* [written] or [read] *)
  t_pc : pc
}.
Definition at_pc (th : thread) (c : pc) : thread := Thread (t_writer th) (t_buf th) (t_len th) (t_pos th) c.

Record psys := PSys {
  pp : pipe; wsem : semaphore; rsem : semaphore; psc : sched; threads : list thread }.
Definition set_thread (y : psys) (i : nat) (th : thread) : psys :=
  PSys (pp y) (wsem y) (rsem y) (psc y) (<[i := th]> (threads y)).
Definition set_pipe (y : psys) (p : pipe) : psys := PSys p (wsem y) (rsem y) (psc y) (threads y).

(** Wait and post on the semaphore of the writers ([true]) or the readers. *)
Definition sys_wait (y : psys) (w : bool) (i : nat) : psys * bool :=
  let '(sem, s, b) := jlos_semaphore_wait (if w then wsem y else rsem y) (psc y) (Some (Z.of_nat i)) in
  (if w then PSys (pp y) sem (rsem y) s (threads y) else PSys (pp y) (wsem y) sem s (threads y), b).
Definition sys_post (y : psys) (w : bool) : psys :=
  let '(sem, s) := jlos_semaphore_post (if w then wsem y else rsem y) (psc y) in
  if w then PSys (pp y) sem (rsem y) s (threads y) else PSys (pp y) (wsem y) sem s (threads y).

(** One step of thread [i]; [None] when it cannot run. *)
Definition thread_step (y : psys) (i : nat) : option psys :=
  th ← threads y !! i;
  match t_pc th with
  | Loop =>
      if t_pos th <? t_len th then
        let '(y, b) := sys_wait y (t_writer th) i in
        Some (set_thread y i (at_pc th (if b : bool then Waiting else Granted)))
      else Some (set_thread y i (at_pc th Done))
  | Waiting =>
      if decide (status (psc y) !! Z.of_nat i = Some READY)
      then Some (set_thread (PSys (pp y) (wsem y) (rsem y) (set_status (psc y) (Z.of_nat i) RUNNING) (threads y))
                   i (at_pc th Granted))
      else None
  | Granted =>
      Some (set_thread y i (at_pc th
        (if p_closed (pp y) then (if t_writer th then Refund else Tested) else Enter)))
  | Tested => Some (set_thread y i (at_pc th (if p_count (pp y) =? 0 then Refund else Enter)))
  | Refund => Some (set_thread (sys_post y (t_writer th)) i (at_pc th Done))
  | Enter =>
      if t_writer th then
        '(p, k) ← write_chunk (pp y) (t_buf th) (t_pos th) (t_len th);
        Some (set_thread (set_pipe y p) i (Thread true (t_buf th) (t_len th) (u32 (t_pos th + k)) (Posting k)))
      else
        '(p, bs) ← read_chunk (pp y) (t_pos th) (t_len th);
        Some (set_thread (set_pipe y p) i
                (Thread false (t_buf th ++ bs) (t_len th) (u32 (t_pos th + zlen bs)) (Copied (zlen bs))))
  | Copied k =>
      Some (set_thread y i (at_pc th (if p_closed (pp y) then Loop else Posting k)))
  | Posting k =>
      if k =? 0 then Some (set_thread y i (at_pc th Loop))
      else Some (set_thread (sys_post y (negb (t_writer th))) i (at_pc th (Posting (k - 1))))
  | CloseFlag => Some (set_thread (set_pipe y (set_closed (pp y))) i (at_pc th CloseRead))
  | CloseRead => Some (set_thread (sys_post y false) i (at_pc th CloseWrite))
  | CloseWrite => Some (set_thread (sys_post y true) i (at_pc th Done))
  | Done => None
  end.

(** The three calls; a task that makes one is a running thread.  [jlos_pipe_write] tests
    [closed] when it is entered. *)
Definition jlos_pipe_close (y : psys) : psys :=
  PSys (pp y) (wsem y) (rsem y)
    (set_status (psc y) (zlen (threads y)) RUNNING)
    (threads y ++ [Thread false [] 0 0 CloseFlag]).
Definition jlos_pipe_write (y : psys) (buf : list Z) (len : Z) : psys :=
  PSys (pp y) (wsem y) (rsem y)
    (set_status (psc y) (zlen (threads y)) RUNNING)
    (threads y ++ [Thread true buf len 0 (if p_closed (pp y) then Done else Loop)]).
Definition jlos_pipe_read (y : psys) (len : Z) : psys :=
  PSys (pp y) (wsem y) (rsem y)
    (set_status (psc y) (zlen (threads y)) RUNNING)
    (threads y ++ [Thread false [] len 0 Loop]).

(** References: the pipe is destroyed when the last one is dropped. *)
Definition jlos_pipe_ref_inc (refcount : Z) : Z := s32 (refcount + 1).
Definition jlos_pipe_ref_dec (refcount : Z) : Z * bool :=
  let r := s32 (refcount - 1) in (r, r =? 0).

(** ** Contents of a pipe *)

(** The [c] bytes from position [rp] of a ring of [size] bytes. *)
Definition ring (buffer : list Z) (size rp : Z) (c : nat) : list Z :=
  map (fun i => buffer !!! Z.to_nat ((rp + Z.of_nat i) `mod` size)) (seq 0 c).

Definition pipe_contents (p : pipe) : list Z :=
  ring (p_buffer p) (p_buf_size p) (p_read_pos p) (Z.to_nat (p_count p)).

Record pipe_wf (p : pipe) : Prop := {
  pw_size : 0 < p_buf_size p <= 65536;
  pw_buffer : zlen (p_buffer p) = p_buf_size p;
  pw_read : 0 <= p_read_pos p < p_buf_size p;
  pw_count : 0 <= p_count p <= p_buf_size p;
  pw_write : p_write_pos p = (p_read_pos p + p_count p) `mod` p_buf_size p
}.

Lemma ring_S buffer size rp c :
  ring buffer size rp (S c) = ring buffer size rp c ++ [buffer !!! Z.to_nat ((rp + Z.of_nat c) `mod` size)].
Proof. unfold ring. by rewrite seq_S, map_app. Qed.

Lemma next_pos_mod x size :
  0 < size <= 65536 -> next_pos (x `mod` size) size = (x + 1) `mod` size.
Proof.
  intros Hs. unfold next_pos. pose proof (Z.mod_pos_bound x size).
  rewrite u32_small by lia. by rewrite Zplus_mod_idemp_l.
Qed.

Lemma length_ring buffer size rp c : length (ring buffer size rp c) = c.
Proof. unfold ring. by rewrite length_map, length_seq. Qed.

(** Writing just past the contents leaves the contents alone. *)
Lemma ring_insert buffer size rp c b :
  0 < size -> 0 <= rp -> Z.of_nat c < size ->
  ring (<[Z.to_nat ((rp + Z.of_nat c) `mod` size) := b]> buffer) size rp c = ring buffer size rp c.
Proof.
  intros Hs Hrp Hc. unfold ring. apply list_fmap_ext. intros i x [-> Hi]%lookup_seq.
  apply list_lookup_total_insert_ne. intros E.
  pose proof (Z.mod_pos_bound (rp + Z.of_nat c) size Hs).
  pose proof (Z.mod_pos_bound (rp + Z.of_nat (0 + i)) size Hs).
  assert ((rp + Z.of_nat c) `mod` size = (rp + Z.of_nat (0 + i)) `mod` size) as E' by lia.
  replace (rp + Z.of_nat c) with (rp + Z.of_nat (0 + i) + (Z.of_nat c - Z.of_nat i)) in E' by lia.
  rewrite mod_add_small in E' by lia. destruct (Z.ltb_spec ((rp + Z.of_nat (0 + i)) `mod` size + (Z.of_nat c - Z.of_nat i)) size); lia.
Qed.

Lemma write_bytes_spec n : forall buffer size rp c buf off,
  0 < size <= 65536 -> zlen buffer = size -> 0 <= rp -> Z.of_nat (c + n) <= size ->
  0 <= off -> off + Z.of_nat n <= zlen buf ->
  exists buffer', write_bytes n buffer ((rp + Z.of_nat c) `mod` size) size buf off
      = Some (buffer', (rp + Z.of_nat (c + n)) `mod` size) /\
    length buffer' = length buffer /\
    ring buffer' size rp (c + n) = ring buffer size rp c ++ take n (drop (Z.to_nat off) buf).
Proof.
  induction n as [|n IH]; intros buffer size rp c buf off Hs Hb Hrp Hc Ho Hl; simpl.
  { exists buffer. rewrite Nat.add_0_r, take_0, app_nil_r. done. }
  destruct (geti_Some buf off) as (b & -> & Hb'); [lia|]. simpl.
  pose proof (Z.mod_pos_bound (rp + Z.of_nat c) size).
  rewrite seti_Some by lia. simpl. rewrite next_pos_mod by lia.
  replace (rp + Z.of_nat c + 1) with (rp + Z.of_nat (S c)) by lia.
  destruct (IH (<[Z.to_nat ((rp + Z.of_nat c) `mod` size) := b]> buffer) size rp (S c) buf (off + 1))
    as (buffer' & -> & Hl' & Hr); [lia|by rewrite length_insert|lia|lia|lia|lia|].
  exists buffer'. rewrite length_insert in Hl'. replace (c + S n)%nat with (S c + n)%nat by lia.
  split_and!; [done|done|]. rewrite Hr, ring_S, ring_insert by lia.
  rewrite list_lookup_total_insert_eq by lia. rewrite <- app_assoc. f_equal.
  rewrite (drop_S buf b (Z.to_nat off)) by done. simpl.
  by replace (Z.to_nat (off + 1)) with (S (Z.to_nat off)) by lia.
Qed.

Lemma write_chunk_spec p buf written len :
  pipe_wf p -> 0 <= written <= len -> len <= zlen buf -> len < 2 ^ 32 ->
  exists p' k, write_chunk p buf written len = Some (p', k) /\ pipe_wf p' /\
    0 <= k <= len - written /\ p_count p' = p_count p + k /\ p_buf_size p' = p_buf_size p /\
    p_closed p' = p_closed p /\
    (k = 0 -> written = len \/ p_count p = p_buf_size p) /\
    pipe_contents p' = pipe_contents p ++ take (Z.to_nat k) (drop (Z.to_nat written) buf).
Proof.
  intros [Hs Hb Hr Hc Hw] Hwr Hl Hlt. unfold write_chunk.
  pose proof (Z.mod_pos_bound (p_read_pos p + p_count p) (p_buf_size p)).
  rewrite (u32_small (p_buf_size p - p_count p)), (u32_small (p_buf_size p - p_write_pos p)),
    (u32_small (len - written)) by lia.
  set (k := if _ <? (if _ <? _ then _ else _) then _ else _).
  assert (0 <= k <= len - written /\ k <= p_buf_size p - p_count p /\
          (k = 0 -> written = len \/ p_count p = p_buf_size p)) as (Hk1 & Hk2 & Hk3).
  { unfold k. zcases; lia. }
  destruct (write_bytes_spec (Z.to_nat k) (p_buffer p) (p_buf_size p) (p_read_pos p)
    (Z.to_nat (p_count p)) buf written) as (buffer' & E & Hl' & Hring); [lia..|].
  rewrite Z2Nat.id in E by lia. rewrite Hw, E. simpl.
  eexists _, _. split; [done|]. rewrite u32_small by lia.
  replace (Z.of_nat (Z.to_nat (p_count p) + Z.to_nat k)) with (p_count p + k) by lia.
  split; [split; simpl; try lia; done|]. split_and!; try done; try lia.
  unfold pipe_contents. simpl. rewrite <- Hring. f_equal. lia.
Qed.

Lemma ring_shift buffer size rp c n :
  0 < size -> drop n (ring buffer size rp c) = ring buffer size ((rp + Z.of_nat n) `mod` size) (c - n).
Proof.
  intros Hs. apply list_eq. intros i. rewrite lookup_drop. unfold ring.
  rewrite !list_lookup_fmap. destruct (decide (n + i < c)%nat).
  - rewrite !lookup_seq_lt by lia. simpl. do 2 f_equal. rewrite Zplus_mod_idemp_l. f_equal. f_equal. lia.
  - rewrite !lookup_seq_ge by lia. done.
Qed.

Lemma read_bytes_spec n : forall buffer size rp c,
  0 < size <= 65536 -> zlen buffer = size -> (n <= c)%nat ->
  read_bytes n buffer (rp `mod` size) size
    = Some (take n (ring buffer size rp c), (rp + Z.of_nat n) `mod` size).
Proof.
  induction n as [|n IH]; intros buffer size rp c Hs Hb Hc; simpl; [by rewrite Z.add_0_r|].
  pose proof (Z.mod_pos_bound rp size).
  destruct (geti_Some buffer (rp `mod` size)) as (b & -> & Hb'); [lia|]. simpl.
  rewrite next_pos_mod by lia. rewrite (IH buffer size (rp + 1) (c - 1)%nat) by lia. simpl.
  destruct c as [|c]; [lia|]. rewrite Nat.sub_succ, Nat.sub_0_r.
  do 2 f_equal; [|f_equal; lia]. unfold ring at 2. simpl. rewrite Z.add_0_r.
  rewrite (list_lookup_total_correct _ _ _ Hb'). f_equal. f_equal. unfold ring.
  rewrite <- (fmap_S_seq 0 c). rewrite map_map. apply list_fmap_ext. intros ? i _. do 3 f_equal. lia.
Qed.

Lemma read_chunk_spec p read len :
  pipe_wf p -> 0 <= read <= len -> len < 2 ^ 32 ->
  exists p' bs, read_chunk p read len = Some (p', bs) /\ pipe_wf p' /\
    zlen bs <= len - read /\ p_count p' = p_count p - zlen bs /\ p_buf_size p' = p_buf_size p /\
    p_closed p' = p_closed p /\ zlen bs <= p_count p /\
    (bs = [] -> read = len \/ p_count p = 0) /\
    pipe_contents p = bs ++ pipe_contents p'.
Proof.
  intros [Hs Hb Hr Hc Hw] Hrd Hlt. unfold read_chunk.
  rewrite (u32_small (p_buf_size p - p_read_pos p)), (u32_small (len - read)) by lia.
  set (k := if _ <? (if _ <? _ then _ else _) then _ else _).
  assert (0 <= k <= len - read /\ k <= p_count p /\ (k = 0 -> read = len \/ p_count p = 0)) as (Hk1 & Hk2 & Hk3).
  { unfold k. zcases; lia. }
  pose proof (read_bytes_spec (Z.to_nat k) (p_buffer p) (p_buf_size p) (p_read_pos p) (Z.to_nat (p_count p))) as E.
  rewrite (Z.mod_small (p_read_pos p)) in E by lia. rewrite E by lia. clear E. simpl.
  assert (zlen (take (Z.to_nat k) (ring (p_buffer p) (p_buf_size p) (p_read_pos p) (Z.to_nat (p_count p)))) = k) as Ek.
  { rewrite length_take, length_ring. lia. }
  pose proof (Z.mod_pos_bound (p_read_pos p + Z.of_nat (Z.to_nat k)) (p_buf_size p)).
  eexists _, _. split; [done|]. rewrite u32_small by lia. rewrite Ek. split.
  - split; simpl; try lia. rewrite Hw, Zplus_mod_idemp_l. f_equal. lia.
  - split_and!; simpl; try done; try lia.
    + intros E. apply (f_equal length) in E. simpl in E. lia.
    + unfold pipe_contents. simpl. replace (Z.to_nat (p_count p - k)) with (Z.to_nat (p_count p) - Z.to_nat k)%nat by lia.
      rewrite <- ring_shift by lia. by rewrite take_drop.
Qed.

(** ** Runs of the system *)

(** Bytes that a step of thread [i] put into, and took out of, the pipe. *)
Definition put (y y' : psys) (i : nat) : list Z :=
  match threads y !! i, threads y' !! i with
  | Some th, Some th' =>
      if t_writer th
      then take (Z.to_nat (t_pos th' - t_pos th)) (drop (Z.to_nat (t_pos th)) (t_buf th)) else []
  | _, _ => []
  end.
Definition got (y y' : psys) (i : nat) : list Z :=
  match threads y !! i, threads y' !! i with
  | Some th, Some th' => if t_writer th then [] else drop (length (t_buf th)) (t_buf th')
  | _, _ => []
  end.

(** The semaphore counters have not reached their 32-bit limits. *)
Definition sem_room (sem : semaphore) : Prop := - 2 ^ 31 < resource_count sem < 2 ^ 31 - 2.
Definition room (y : psys) : Prop := sem_room (wsem y) /\ sem_room (rsem y).

(** A history of the pipe: calls, closes and steps of any thread in any order,
    with all the bytes that went in and came out, in order. *)
Inductive prun (n : Z) : psys -> list Z -> list Z -> Prop :=
| prun_init p ws rs m s :
    jlos_pipe_init true n = Some (p, ws, rs, m) -> prun n (PSys p ws rs s []) [] []
| prun_write y ins outs buf len :
    prun n y ins outs -> 0 <= len <= zlen buf -> len < 2 ^ 32 ->
    prun n (jlos_pipe_write y buf len) ins outs
| prun_read y ins outs len :
    prun n y ins outs -> 0 <= len < 2 ^ 32 -> prun n (jlos_pipe_read y len) ins outs
| prun_close y ins outs :
    prun n y ins outs -> prun n (jlos_pipe_close y) ins outs
| prun_step y ins outs i y' :
    prun n y ins outs -> room y -> thread_step y i = Some y' ->
    prun n y' (ins ++ put y y' i) (outs ++ got y y' i).

(** ** Accounting of the semaphores *)

(** Units of the readers' ([w = false]) or writers' semaphore that a thread
    holds or still has to post. *)
Definition units (w : bool) (th : thread) : Z :=
  match t_pc th with
  | Waiting | Granted | Tested | Enter | Refund => if Bool.eqb (t_writer th) w then 1 else 0
  | Copied k | Posting k => if Bool.eqb (t_writer th) w then 0 else k
  | _ => 0
  end.
Definition in_flight (w : bool) (l : list thread) : Z := foldr (fun th n => units w th + n) 0 l.

Lemma in_flight_app w l l' : in_flight w (l ++ l') = in_flight w l + in_flight w l'.
Proof. induction l; simpl; lia. Qed.

Lemma in_flight_insert w l i th th' :
  l !! i = Some th -> in_flight w (<[i := th']> l) = in_flight w l - units w th + units w th'.
Proof.
  revert i. induction l as [|x l IH]; intros [|i] Hi; simpl in *; [done|done|simplify_eq; lia|].
  rewrite (IH i Hi). lia.
Qed.

Definition pc_ok (th : thread) (c : pc) : Prop :=
  match c with
  | Waiting | Granted | Enter => t_pos th < t_len th
  | Tested => t_pos th < t_len th /\ t_writer th = false
  | Copied k => 0 <= k /\ t_writer th = false
  | Posting k => 0 <= k
  | _ => True
  end.
Definition thread_ok (th : thread) : Prop :=
  0 <= t_pos th <= t_len th /\ t_len th < 2 ^ 32 /\
  (t_writer th = true -> t_len th <= zlen (t_buf th)) /\ pc_ok th (t_pc th).

(** Status of thread [i]: suspended threads are queued on their semaphore until
    it wakes them. *)
Definition thread_status (y : psys) (i : nat) (th : thread) : Prop :=
  match t_pc th with
  | Waiting =>
      status (psc y) !! Z.of_nat i = Some READY \/
      Z.of_nat i ∈ sem_queue (if t_writer th then wsem y else rsem y)
  | _ => status (psc y) !! Z.of_nat i = Some RUNNING
  end.

(** The invariant, with slack [dr] and [dw] in the two counting inequalities
    for the middle of a step: every byte in the pipe is covered by a unit of the
    readers' semaphore or one in flight, every free slot by one of the
    writers'. *)
Record pinv (y : psys) (dr dw : Z) : Prop := {
  pi_pipe : pipe_wf (pp y);
  pi_wsem : sem_inv (wsem y) (psc y);
  pi_rsem : sem_inv (rsem y) (psc y);
  pi_thread i th : threads y !! i = Some th -> thread_ok th /\ thread_status y i th;
  pi_queue w x : x ∈ sem_queue (if w : bool then wsem y else rsem y) ->
    exists i th, x = Z.of_nat i /\ threads y !! i = Some th /\ t_pc th = Waiting /\ t_writer th = w;
  pi_items : p_count (pp y) <= resource_count (rsem y) + in_flight false (threads y) + dr;
  pi_slots : p_closed (pp y) = false ->
    p_buf_size (pp y) - p_count (pp y) <= resource_count (wsem y) + in_flight true (threads y) + dw
}.

Lemma sem_inv_sched sem s s' :
  (forall t, t ∈ sem_queue sem -> status s' !! t = status s !! t) -> sem_inv sem s -> sem_inv sem s'.
Proof. intros He (? & ? & ? & Hb). do 3 (split; [done|]). intros t Ht. rewrite He by done. by apply Hb. Qed.

(** Effect of a wait on the counters, queue and states. *)
Lemma wait_effect sem s t :
  sem_inv sem s -> sem_room sem -> status s !! t = Some RUNNING ->
  exists sem' s' b, jlos_semaphore_wait sem s (Some t) = (sem', s', b) /\
    sem_inv sem' s' /\ resource_count sem' = resource_count sem - 1 /\
    sem_queue sem' = (if b then sem_queue sem ++ [t] else sem_queue sem) /\
    status s' !! t = Some (if b then BLOCKED else RUNNING) /\
    (forall x, x <> t -> status s' !! x = status s !! x).
Proof.
  intros Hi Hr Ht. unfold sem_room in Hr.
  destruct (semaphore_wait_spec sem s t Hi Ht) as (sem' & s' & b & E & Hi' & _ & Hc & Hq & Hs); [lia|].
  exists sem', s', b. rewrite Hs, Hc, Hq. do 2 (split; [done|]). split_and!; [done..| |].
  - destruct b; [by rewrite lookup_insert_eq|done].
  - intros x Hx. destruct b; [by rewrite lookup_insert_ne|done].
Qed.

Lemma post_effect sem s :
  sem_inv sem s -> sem_room sem ->
  exists sem' s', jlos_semaphore_post sem s = (sem', s') /\
    sem_inv sem' s' /\ resource_count sem' = resource_count sem + 1 /\
    (forall x, x ∈ sem_queue sem' -> x ∈ sem_queue sem) /\
    (forall x, x ∈ sem_queue sem -> x ∈ sem_queue sem' \/ status s' !! x = Some READY) /\
    (forall x, x ∉ sem_queue sem -> status s' !! x = status s !! x).
Proof.
  intros Hi Hr. unfold sem_room in Hr.
  destruct (semaphore_post_spec sem s Hi) as (sem' & s' & E & Hi' & Hc & Hm); [lia|].
  exists sem', s'. do 2 (split; [done|]). split_and!; [done..| | |]; destruct (sem_queue sem) as [|w q]; destruct Hm as [Hq' Hs];
    rewrite ?Hq', ?Hs; try set_solver.
  - intros x [->|Hx]%elem_of_cons; [right; by rewrite lookup_insert_eq|by left].
  - intros x Hx. rewrite lookup_insert_ne by set_solver. done.
Qed.

Lemma queued_once y dr dw w x :
  pinv y dr dw -> x ∈ sem_queue (if w : bool then wsem y else rsem y) ->
  x ∉ sem_queue (if w then rsem y else wsem y).
Proof.
  intros HI Hx Hx'. destruct (pi_queue _ _ _ HI w x Hx) as (i & th & -> & Hi & _ & Hw).
  destruct (pi_queue _ _ _ HI (negb w) (Z.of_nat i)) as (i' & th' & Hii & Hi' & _ & Hw').
  { by destruct w. }
  assert (i' = i) as -> by lia. assert (th' = th) as -> by congruence. destruct w; simpl in *; congruence.
Qed.

Lemma awake_not_queued y dr dw i th w :
  pinv y dr dw -> threads y !! i = Some th -> t_pc th <> Waiting ->
  Z.of_nat i ∉ sem_queue (if w : bool then wsem y else rsem y).
Proof.
  intros HI Hi Hpc Hx. destruct (pi_queue _ _ _ HI w _ Hx) as (i' & th' & Hii & Hi' & ? & _).
  assert (i' = i) as -> by lia. by simplify_eq.
Qed.

(** A post leaves every thread in a legal state and adds a unit. *)
Lemma pinv_post y dr dw (w : bool) :
  pinv y dr dw -> sem_room (if w then wsem y else rsem y) ->
  pinv (sys_post y w) (if w then dr else dr - 1) (if w then dw - 1 else dw).
Proof.
  intros HI Hroom. pose proof HI as [Hp Hws Hrs Ht Hq Hit Hsl]. unfold sys_post.
  destruct (post_effect (if w then wsem y else rsem y) (psc y)) as (sem' & s' & -> & Hi' & Hc & Hsub & Hwk & Hkeep);
    [by destruct w|done|].
  assert (forall x, x ∈ sem_queue (if w then rsem y else wsem y) -> status s' !! x = status (psc y) !! x) as Hoth.
  { intros x Hx. apply Hkeep. intros Hx'. by eapply (queued_once y dr dw w x). }
  assert (forall i th, threads y !! i = Some th ->
    thread_ok th /\ thread_status (if w then PSys (pp y) sem' (rsem y) s' (threads y)
                                   else PSys (pp y) (wsem y) sem' s' (threads y)) i th) as Ht'.
  { intros i th Hi. destruct (Ht i th Hi) as [Hok Hst]. split; [done|]. unfold thread_status in *.
    destruct (t_pc th) eqn:Epc;
      try (assert (status s' !! Z.of_nat i = Some RUNNING) as Er;
        [rewrite Hkeep; [done|eapply (awake_not_queued y dr dw i th w); [done..|congruence]]|by destruct w]).
    destruct (decide (Z.of_nat i ∈ sem_queue (if w then wsem y else rsem y))) as [Hin|Hin].
    - assert (t_writer th = w) as Ew.
      { destruct (Hq w _ Hin) as (i' & th' & ? & ? & _ & ?). assert (i' = i) as -> by lia. congruence. }
      rewrite Ew. destruct (Hwk _ Hin) as [?|?]; [right; by destruct w|left; by destruct w].
    - destruct Hst as [Hst|Hst].
      + left. assert (status s' !! Z.of_nat i = Some READY) by (by rewrite Hkeep). by destruct w.
      + right. destruct w, (t_writer th); simpl in *; done. }
  assert (forall w0 x, x ∈ sem_queue (if w0 : bool then (if w then sem' else wsem y) else (if w then rsem y else sem')) ->
    exists i th, x = Z.of_nat i /\ threads y !! i = Some th /\ t_pc th = Waiting /\ t_writer th = w0) as Hq'.
  { intros w0 x Hx. apply Hq. destruct w, w0; auto. }
  destruct w; split; simpl; try done; try (eapply sem_inv_sched; [exact Hoth|done]); try lia;
    try (intros Hcl; specialize (Hsl Hcl); lia).
Qed.

(** A thread that is not queued may change its local state; its units move into
    the slack. *)
Lemma pinv_set_thread y dr dw i th th' :
  pinv y dr dw -> threads y !! i = Some th -> t_pc th <> Waiting ->
  thread_ok th' -> thread_status y i th' ->
  pinv (set_thread y i th') (dr + units false th - units false th') (dw + units true th - units true th').
Proof.
  intros HI Hi Hpc Hok Hst. pose proof HI as [Hp Hws Hrs Ht Hq Hit Hsl].
  pose proof (lookup_lt_Some _ _ _ Hi) as Hlt.
  split; simpl; try done.
  - intros j th2 Hj. destruct (decide (j = i)) as [->|Hne].
    + rewrite list_lookup_insert_eq in Hj by done. by simplify_eq.
    + rewrite list_lookup_insert_ne in Hj by done. by apply Ht.
  - intros w x Hx. destruct (Hq w x Hx) as (j & th2 & -> & Hj & Hpc2 & Hw).
    exists j, th2. split_and!; [done| |done..]. rewrite list_lookup_insert_ne; [done|]. intros ->. congruence.
  - rewrite (in_flight_insert false _ _ _ th' Hi). lia.
  - intros Hcl. rewrite (in_flight_insert true _ _ _ th' Hi). specialize (Hsl Hcl). lia.
Qed.

Lemma pinv_set_pipe y dr dw p :
  pinv y dr dw -> pipe_wf p -> p_buf_size p = p_buf_size (pp y) -> p_closed p = p_closed (pp y) ->
  pinv (set_pipe y p) (dr + (p_count p - p_count (pp y))) (dw - (p_count p - p_count (pp y))).
Proof.
  intros [Hp Hws Hrs Ht Hq Hit Hsl] Hwf Hs Hc. split; simpl; try done; [lia|].
  intros Hcl. rewrite Hc in Hcl. specialize (Hsl Hcl). lia.
Qed.

Lemma pinv_weaken y dr dw dr' dw' : pinv y dr dw -> dr <= dr' -> dw <= dw' -> pinv y dr' dw'.
Proof.
  intros [Hp Hws Hrs Ht Hq Hit Hsl] H1 H2. split; try done; [lia|]. intros Hcl. specialize (Hsl Hcl). lia.
Qed.

(** The semaphore wait at the head of a loop. *)
Lemma pinv_wait y i th y' b :
  pinv y 0 0 -> room y -> threads y !! i = Some th -> t_pc th = Loop -> t_pos th < t_len th ->
  sys_wait y (t_writer th) i = (y', b) ->
  pp y' = pp y /\ threads y' = threads y /\
  pinv (set_thread y' i (at_pc th (if b then Waiting else Granted))) 0 0.
Proof.
  intros HI [Hrw Hrr] Hi Hpc Hlen E. pose proof HI as [Hp Hws Hrs Ht Hq Hit Hsl].
  destruct (Ht i th Hi) as [Hok Hst]. unfold thread_status in Hst. rewrite Hpc in Hst.
  pose proof (lookup_lt_Some _ _ _ Hi) as Hlt.
  assert (forall w, Z.of_nat i ∉ sem_queue (if w : bool then wsem y else rsem y)) as Hni.
  { intros w. eapply awake_not_queued; [done|done|congruence]. }
  unfold sys_wait in E. remember (t_writer th) as w eqn:Ew0.
  destruct (wait_effect (if w then wsem y else rsem y) (psc y) (Z.of_nat i))
    as (sem' & s' & b' & Ew & Hi' & Hc & Hqq & Hsi & Hso); [by destruct w|by destruct w|done|].
  rewrite Ew in E. assert (b' = b) as -> by (by destruct w; simplify_eq).
  assert (y' = if w then PSys (pp y) sem' (rsem y) s' (threads y) else PSys (pp y) (wsem y) sem' s' (threads y))
    as -> by (by destruct w; simplify_eq).
  split; [by destruct w|]. split; [by destruct w|].
  assert (sem_inv (if w then rsem y else wsem y) s') as Hoth.
  { eapply sem_inv_sched; [|by destruct w]. intros x Hx. apply Hso. intros ->.
    apply (Hni (negb w)). by destruct w. }
  assert (Hfl : forall w0, in_flight w0 (<[i := at_pc th (if b then Waiting else Granted)]> (threads y))
    = in_flight w0 (threads y) + (if Bool.eqb w w0 then 1 else 0)).
  { intros w0. rewrite (in_flight_insert w0 _ _ _ _ Hi). unfold units, at_pc. simpl. rewrite Hpc.
    rewrite <- Ew0. destruct b, (Bool.eqb w w0); lia. }
  assert (Hqe : forall w0 x, x ∈ sem_queue (if w0 : bool then (if w then sem' else wsem y) else (if w then rsem y else sem')) ->
    exists j th2, x = Z.of_nat j /\ <[i := at_pc th (if b then Waiting else Granted)]> (threads y) !! j = Some th2 /\
      t_pc th2 = Waiting /\ t_writer th2 = w0).
  { intros w0 x Hx. destruct (decide (x = Z.of_nat i)) as [->|Hxi].
    - exists i. rewrite list_lookup_insert_eq by done. eexists. split; [done|]. split; [done|].
      assert (w0 = w) as ->.
      { destruct w, w0; try done; exfalso; [by apply (Hni false)|by apply (Hni true)]. }
      destruct b; [by rewrite Ew0|]. exfalso. apply (Hni w). destruct w; by rewrite <- Hqq.
    - destruct (Hq w0 x) as (j & th2 & -> & Hj & Hw2).
      { destruct b, w, w0; rewrite ?Hqq in Hx; set_solver. }
      exists j, th2. rewrite list_lookup_insert_ne by (intros ->; lia). done. }
  assert (Hst' : forall j th2, <[i := at_pc th (if b then Waiting else Granted)]> (threads y) !! j = Some th2 ->
    thread_ok th2 /\ thread_status (set_thread (if w then PSys (pp y) sem' (rsem y) s' (threads y)
       else PSys (pp y) (wsem y) sem' s' (threads y)) i (at_pc th (if b then Waiting else Granted))) j th2).
  { intros j th2 Hj. destruct (decide (j = i)) as [->|Hne].
    - rewrite list_lookup_insert_eq in Hj by done. apply (inj Some) in Hj. rewrite <- Hj. split.
      + destruct Hok as (? & ? & ? & _). unfold thread_ok, at_pc. simpl. by destruct b.
      + unfold thread_status, at_pc. simpl. rewrite <- Ew0. destruct b; [right|by destruct w].
        assert (Z.of_nat i ∈ sem_queue sem') by (rewrite Hqq; set_solver). by destruct w.
    - rewrite list_lookup_insert_ne in Hj by done. destruct (Ht j th2 Hj) as [? Hs2]. split; [done|].
      unfold thread_status in *. assert (status s' !! Z.of_nat j = status (psc y) !! Z.of_nat j) as Es by (apply Hso; lia).
      destruct (t_pc th2); try (destruct w; simpl; by rewrite Es).
      destruct Hs2 as [Hs2|Hs2]; [left; destruct w; simpl; by rewrite Es|right].
      destruct b, w, (t_writer th2); simpl in *; rewrite ?Hqq; try done; apply elem_of_app; by left. }
  destruct w; split; simpl in *; try done; try (rewrite !Hfl; simpl; try (intros Hcl; specialize (Hsl Hcl)); lia).
Qed.

(** Which state component a post touches. *)
Lemma sys_post_same y w :
  pp (sys_post y w) = pp y /\ threads (sys_post y w) = threads y /\
  (w = true -> rsem (sys_post y w) = rsem y) /\ (w = false -> wsem (sys_post y w) = wsem y).
Proof.
  unfold sys_post. destruct (jlos_semaphore_post _ _) as [sem s]. by destruct w.
Qed.

(** A step moves bytes only through the pipe. *)
Definition conserves (y y' : psys) (i : nat) : Prop :=
  pipe_contents (pp y) ++ put y y' i = got y y' i ++ pipe_contents (pp y').

Lemma conserves_local y y' i th th' :
  threads y !! i = Some th -> threads y' !! i = Some th' -> pp y' = pp y ->
  t_pos th' = t_pos th -> t_buf th' = t_buf th -> conserves y y' i.
Proof.
  intros Hi Hi' Hp Hpos Hbuf. unfold conserves, put, got. rewrite Hi, Hi', Hp, Hpos, Hbuf, Z.sub_diag, drop_all.
  destruct (t_writer th); by rewrite ?app_nil_r.
Qed.

Lemma set_thread_lookup y i th th' : threads y !! i = Some th -> threads (set_thread y i th') !! i = Some th'.
Proof. intros Hi. simpl. apply list_lookup_insert_eq. by eapply lookup_lt_Some. Qed.

(** Local moves: the program counter changes, no other component does. *)
Lemma pinv_local y dr dw i th c :
  pinv y dr dw -> threads y !! i = Some th -> t_pc th <> Waiting -> c <> Waiting ->
  pc_ok th c ->
  pinv (set_thread y i (at_pc th c)) (dr + units false th - units false (at_pc th c))
    (dw + units true th - units true (at_pc th c)).
Proof.
  intros HI Hi Hpc Hc Hk. pose proof HI as [_ _ _ Ht _ _ _]. destruct (Ht i th Hi) as [(? & ? & ? & _) Hst].
  apply pinv_set_thread; [done|done|done| |].
  - unfold thread_ok, at_pc. simpl. done.
  - unfold thread_status, at_pc in *. simpl. destruct c; try done; destruct (t_pc th); done.
Qed.

(** The threads that hold a unit are at least as many as any set of them. *)
Lemma in_flight_ge w q : forall l,
  NoDup q ->
  (forall x, x ∈ q -> exists i th, x = Z.of_nat i /\ l !! i = Some th /\ 1 <= units w th) ->
  (forall i th, l !! i = Some th -> 0 <= units w th) -> zlen q <= in_flight w l.
Proof.
  induction q as [|x q IH]; intros l Hnd Hq Hpos; simpl.
  - clear Hq Hnd. induction l as [|th l IHl]; simpl; [lia|].
    pose proof (Hpos 0%nat th eq_refl). assert (Z.of_nat 0 <= in_flight w l); [|lia].
    apply IHl. intros j th' Hj. by apply (Hpos (S j)).
  - apply NoDup_cons in Hnd as [Hni Hnd].
    destruct (Hq x) as (i & th & -> & Hi & Hu); [set_solver|].
    set (dead := Thread true [] 0 0 Done). pose proof (lookup_lt_Some _ _ _ Hi) as Hlt.
    assert (zlen q <= in_flight w (<[i := dead]> l)) as Hle.
    { apply IH; [done|..].
      - intros z Hz. destruct (Hq z) as (j & th' & -> & Hj & Hu'); [set_solver|].
        exists j, th'. rewrite list_lookup_insert_ne by (intros ->; done). done.
      - intros j th' Hj. destruct (decide (j = i)) as [->|].
        + rewrite list_lookup_insert_eq in Hj by done. by simplify_eq.
        + rewrite list_lookup_insert_ne in Hj by done. by eapply Hpos. }
    rewrite (in_flight_insert w l i th dead Hi) in Hle. unfold dead, units at 2 in Hle. simpl in Hle. lia.
Qed.

Lemma units_pos w th : thread_ok th -> 0 <= units w th.
Proof.
  intros (_ & _ & _ & Hk). unfold units. destruct (t_pc th); simpl in *; try done; destruct (Bool.eqb _ _); lia.
Qed.

(** A thread before its section leaves a non-negative balance of units. *)
Lemma granted_balance y dr dw i th :
  pinv y dr dw -> threads y !! i = Some th -> t_pc th = Enter ->
  0 <= resource_count (if t_writer th then wsem y else rsem y) + in_flight (t_writer th) (threads y) - 1.
Proof.
  intros HI Hi Hpc. pose proof HI as [_ Hws Hrs Ht Hq _ _]. set (w := t_writer th).
  assert (sem_inv (if w then wsem y else rsem y) (psc y)) as (Hl & _ & Hnd & _) by (by destruct w).
  assert (zlen (Z.of_nat i :: sem_queue (if w then wsem y else rsem y)) <= in_flight w (threads y)) as Hle.
  { apply in_flight_ge.
    - apply NoDup_cons. split; [|done]. eapply awake_not_queued; [done|done|congruence].
    - intros x [->|Hx]%elem_of_cons.
      + exists i, th. split_and!; [done..|]. unfold units. rewrite Hpc. unfold w. by rewrite eqb_reflx.
      + destruct (Hq w x Hx) as (j & th' & -> & Hj & Hpc' & Hw'). exists j, th'. split_and!; [done..|].
        unfold units. rewrite Hpc', Hw'. by rewrite eqb_reflx.
    - intros j th' Hj. apply units_pos. by apply (Ht j th'). }
  simpl in Hle. lia.
Qed.

Section step.
Context (y : psys) (i : nat) (th : thread).
Hypothesis HI : pinv y 0 0.
Hypothesis Hroom : room y.
Hypothesis Hi : threads y !! i = Some th.

Lemma step_post (w : bool) c :
  t_pc th <> Waiting -> c <> Waiting -> pc_ok th c ->
  (if w then units false (at_pc th c) = units false th /\ units true th - 1 <= units true (at_pc th c)
   else units true (at_pc th c) = units true th /\ units false th - 1 <= units false (at_pc th c)) ->
  let y' := set_thread (sys_post y w) i (at_pc th c) in pinv y' 0 0 /\ conserves y y' i.
Proof.
  intros Hpc Hc Hk Hu y'. subst y'. destruct (sys_post_same y w) as (Hp & Ht & _ & _).
  assert (threads (sys_post y w) !! i = Some th) as Hi1 by (by rewrite Ht).
  split; [|by eapply conserves_local; [exact Hi|by eapply set_thread_lookup|..]].
  pose proof (pinv_post y 0 0 w HI) as HI1.
  eapply pinv_weaken; [apply pinv_local; [apply HI1; destruct Hroom; by destruct w|done..]| |];
    destruct w; lia.
Qed.

Lemma step_local c :
  t_pc th <> Waiting -> c <> Waiting -> pc_ok th c ->
  units false (at_pc th c) = units false th -> (p_closed (pp y) = false -> units true (at_pc th c) = units true th) ->
  let y' := set_thread y i (at_pc th c) in pinv y' 0 0 /\ conserves y y' i.
Proof.
  intros Hpc Hc Hk Hf Ht y'. subst y'.
  split; [|by eapply conserves_local; [exact Hi|by eapply set_thread_lookup|..]].
  pose proof (pinv_local y 0 0 i th c HI Hi Hpc Hc Hk) as [Hp Hws Hrs Htt Hq Hit Hsl].
  split; try done; [lia|]. intros Hcl. specialize (Hsl Hcl). rewrite (Ht Hcl) in Hsl. lia.
Qed.

Lemma step_write p k :
  t_pc th = Enter -> t_writer th = true ->
  write_chunk (pp y) (t_buf th) (t_pos th) (t_len th) = Some (p, k) ->
  let y' := set_thread (set_pipe y p) i
              (Thread true (t_buf th) (t_len th) (u32 (t_pos th + k)) (Posting k)) in
  pinv y' 0 0 /\ conserves y y' i.
Proof.
  intros Hpc Hw E y'. subst y'. pose proof HI as [Hp Hws Hrs Ht Hq Hit Hsl].
  destruct (Ht i th Hi) as [(Hpos & Hlen & Hbuf & Hlt) Hst]. specialize (Hbuf Hw). rewrite Hpc in Hlt. simpl in Hlt.
  destruct (write_chunk_spec (pp y) (t_buf th) (t_pos th) (t_len th) Hp) as
    (p' & k' & E' & Hwf' & Hk & Hcnt & Hsz & Hcl & Hz & Hcont); [lia..|]. simplify_eq.
  assert (u32 (t_pos th + k) = t_pos th + k) as Eu by (apply u32_small; lia).
  pose proof (granted_balance y 0 0 i th HI Hi Hpc) as Hbal. rewrite Hw in Hbal.
  split.
  - pose proof (pinv_set_pipe y 0 0 p HI Hwf' Hsz Hcl) as HI1.
    eapply (pinv_set_thread _ _ _ i th) in HI1 as [? ? ? Ht' ? Hit' Hsl'];
      [split; try done|done|congruence| |].
    + unfold units in Hit'. simpl in Hit'. rewrite Hpc, Hw in Hit'. simpl in *. lia.
    + intros Hclf. unfold units in Hsl'. simpl in Hsl'. rewrite Hpc, Hw in Hsl'. simpl in *.
      specialize (Hsl' Hclf). rewrite (in_flight_insert true _ _ _ _ Hi) in *.
      unfold units in *. simpl in *. rewrite Hpc, Hw in *. simpl in *.
      specialize (Hsl ltac:(congruence)).
      destruct (decide (k = 0)); lia.
    + unfold thread_ok. simpl. rewrite Eu. split_and!; lia.
    + unfold thread_status in *. simpl. by rewrite Hpc in Hst.
  - unfold conserves, put, got. rewrite Hi, (set_thread_lookup _ i th) by done. simpl. rewrite Hw, Eu.
    replace (t_pos th + k - t_pos th) with k by lia. by rewrite <- Hcont.
Qed.

Lemma step_read p bs :
  t_pc th = Enter -> t_writer th = false ->
  read_chunk (pp y) (t_pos th) (t_len th) = Some (p, bs) ->
  let y' := set_thread (set_pipe y p) i
              (Thread false (t_buf th ++ bs) (t_len th) (u32 (t_pos th + zlen bs)) (Copied (zlen bs))) in
  pinv y' 0 0 /\ conserves y y' i.
Proof.
  intros Hpc Hw E y'. subst y'. pose proof HI as [Hp Hws Hrs Ht Hq Hit Hsl].
  destruct (Ht i th Hi) as [(Hpos & Hlen & _ & Hlt) Hst]. rewrite Hpc in Hlt. simpl in Hlt.
  destruct (read_chunk_spec (pp y) (t_pos th) (t_len th) Hp) as
    (p' & bs' & E' & Hwf' & Hk & Hcnt & Hsz & Hcl & Hle & Hz & Hcont); [lia..|]. simplify_eq.
  assert (u32 (t_pos th + zlen bs) = t_pos th + zlen bs) as Eu by (apply u32_small; lia).
  pose proof (granted_balance y 0 0 i th HI Hi Hpc) as Hbal. rewrite Hw in Hbal.
  split.
  - pose proof (pinv_set_pipe y 0 0 p HI Hwf' Hsz Hcl) as HI1.
    eapply (pinv_set_thread _ _ _ i th) in HI1 as [? ? ? Ht' ? Hit' Hsl'];
      [split; try done|done|congruence| |].
    + simpl in *. rewrite (in_flight_insert false _ _ _ _ Hi) in *.
      unfold units in *. simpl in *. rewrite Hpc, Hw in *. simpl in *.
      destruct bs as [|b bs]; simpl in *; [|lia]. destruct Hz; [done|lia|lia].
    + intros Hclf. specialize (Hsl' Hclf). simpl in *.
      unfold units in Hsl'. simpl in Hsl'. rewrite Hpc, Hw in Hsl'. simpl in *. lia.
    + unfold thread_ok. simpl. rewrite Eu. split_and!; try done; lia.
    + unfold thread_status in *. simpl. by rewrite Hpc in Hst.
  - unfold conserves, put, got. rewrite Hi, (set_thread_lookup _ i th) by done. simpl. rewrite Hw.
    rewrite drop_app_length, app_nil_r. done.
Qed.

Lemma step_close : t_pc th = CloseFlag ->
  let y' := set_thread (set_pipe y (set_closed (pp y))) i (at_pc th CloseRead) in pinv y' 0 0 /\ conserves y y' i.
Proof.
  intros Hpc y'. subst y'. pose proof HI as [Hp Hws Hrs Ht Hq Hit Hsl]. split.
  - assert (pinv (set_pipe y (set_closed (pp y))) 0 0) as HI1 by (split; simpl; try done; destruct Hp; by split).
    assert (threads (set_pipe y (set_closed (pp y))) !! i = Some th) as Hi1 by exact Hi.
    pose proof (pinv_local _ 0 0 i th CloseRead HI1 Hi1 ltac:(congruence) ltac:(done) I) as HI2.
    eapply pinv_weaken; [exact HI2|unfold units; simpl; rewrite Hpc; lia..].
  - unfold conserves, put, got. rewrite Hi, (set_thread_lookup _ i th) by done. simpl. rewrite Z.sub_diag, drop_all, Tauto.if_same, app_nil_r. by destruct (t_writer th).
Qed.

(** A thread whose semaphore woke it resumes. *)
Lemma step_resume :
  t_pc th = Waiting -> status (psc y) !! Z.of_nat i = Some READY ->
  let y' := set_thread (PSys (pp y) (wsem y) (rsem y) (set_status (psc y) (Z.of_nat i) RUNNING) (threads y))
              i (at_pc th Granted) in
  pinv y' 0 0 /\ conserves y y' i.
Proof.
  intros Hpc Hrd y'. subst y'. pose proof HI as [Hp Hws Hrs Ht Hq Hit Hsl].
  split; [|by eapply conserves_local; [exact Hi|by eapply set_thread_lookup|..]].
  destruct (Ht i th Hi) as [(Hpos & Hlen & Hbuf & Hlt) Hst]. rewrite Hpc in Hlt. simpl in Hlt.
  pose proof (lookup_lt_Some _ _ _ Hi) as Hil.
  assert (forall w, Z.of_nat i ∉ sem_queue (if w : bool then wsem y else rsem y)) as Hni.
  { intros [] Hin; [destruct Hws as (_ & _ & _ & Hb)|destruct Hrs as (_ & _ & _ & Hb)]; apply Hb in Hin; congruence. }
  assert (Hfl : forall w0, in_flight w0 (<[i := at_pc th Granted]> (threads y)) = in_flight w0 (threads y)).
  { intros w0. rewrite (in_flight_insert w0 _ _ _ _ Hi). unfold units, at_pc. simpl. rewrite Hpc. lia. }
  split; simpl; try done.
  - eapply sem_inv_sched; [|done]. intros x Hx. simpl. rewrite lookup_insert_ne; [done|].
    intros <-. by apply (Hni true).
  - eapply sem_inv_sched; [|done]. intros x Hx. simpl. rewrite lookup_insert_ne; [done|].
    intros <-. by apply (Hni false).
  - intros j th2 Hj. destruct (decide (j = i)) as [->|Hne].
    + rewrite list_lookup_insert_eq in Hj by done. apply (inj Some) in Hj. rewrite <- Hj.
      split; [done|]. unfold thread_status. simpl. by rewrite lookup_insert_eq.
    + rewrite list_lookup_insert_ne in Hj by done. destruct (Ht j th2 Hj) as [? Hs2]. split; [done|].
      unfold thread_status in *. simpl. rewrite lookup_insert_ne by lia. done.
  - intros w x Hx. destruct (Hq w x Hx) as (j & th2 & -> & Hj & Hpc2 & Hw).
    exists j, th2. split_and!; [done| |done..]. rewrite list_lookup_insert_ne; [done|]. intros ->. by apply (Hni w).
  - rewrite Hfl. done.
  - intros Hcl. rewrite Hfl. by apply Hsl.
Qed.
End step.

Lemma thread_step_inv y i y' :
  pinv y 0 0 -> room y -> thread_step y i = Some y' -> pinv y' 0 0 /\ conserves y y' i.
Proof.
  intros HI Hroom E. unfold thread_step in E.
  destruct (threads y !! i) as [th|] eqn:Hi; simpl in E; [|done].
  pose proof HI as [_ _ _ Ht _ _ _]. destruct (Ht i th Hi) as [(Hpos & Hlen & Hbuf & Hpk) _].
  destruct (t_pc th) as [| | | | | |k|k| | | |] eqn:Hpc; simpl in Hpk.
  - destruct (Z.ltb_spec (t_pos th) (t_len th)); simplify_eq.
    + destruct (sys_wait y (t_writer th) i) as [y1 b] eqn:Ew. simplify_eq.
      destruct (pinv_wait y i th y1 b) as (Hp1 & Ht1 & HI1); [done..|]. split; [done|].
      eapply conserves_local; [exact Hi|eapply set_thread_lookup; by rewrite Ht1|by destruct b..].
    + apply step_local; [done|done|by rewrite Hpc|done|done|..]; unfold units; simpl; by rewrite Hpc.
  - case_decide; simplify_eq. by apply step_resume.
  - simplify_eq. destruct (p_closed (pp y)), (t_writer th) eqn:Hw;
      (apply step_local; [done|done|by rewrite Hpc|done|done|..]; unfold units; simpl; by rewrite Hpc).
  - simplify_eq. destruct (p_count (pp y) =? 0);
      (apply step_local; [done|done|by rewrite Hpc|done|simpl; tauto|..]; unfold units; simpl; by rewrite Hpc).
  - destruct (t_writer th) eqn:Hw.
    + destruct (write_chunk _ _ _ _) as [[p k]|] eqn:Ec; simplify_eq/=. by apply step_write.
    + destruct (read_chunk _ _ _) as [[p bs]|] eqn:Ec; simplify_eq/=. by apply step_read.
  - simplify_eq. apply step_post; [done|done|done|by rewrite Hpc|done|done|]. unfold units; simpl. rewrite Hpc. destruct (t_writer th); simpl; lia.
  - destruct Hpk as [Hk Hw]. simplify_eq. destruct (p_closed (pp y)) eqn:Hcl;
      (apply step_local; [done|done|by rewrite Hpc|done|done|..]; unfold units; simpl; rewrite Hpc, Hw; first [done|congruence]).
  - destruct (Z.eqb_spec k 0) as [->|]; simplify_eq.
    + apply step_local; [done|done|by rewrite Hpc|done|done|..]; unfold units; simpl; rewrite Hpc;
        by destruct (Bool.eqb _ _).
    + apply step_post; [done|done|done|by rewrite Hpc|done|simpl; lia|]. unfold units; simpl. rewrite Hpc.
      destruct (t_writer th); simpl; lia.
  - simplify_eq. by apply step_close.
  - simplify_eq. apply step_post; [done|done|done|by rewrite Hpc|done|done|]. unfold units; simpl. rewrite Hpc. lia.
  - simplify_eq. apply step_post; [done|done|done|by rewrite Hpc|done|done|]. unfold units; simpl. rewrite Hpc. lia.
  - done.
Qed.

Lemma pinv_spawn y th :
  pinv y 0 0 -> thread_ok th -> t_pc th = Loop \/ t_pc th = Done \/ t_pc th = CloseFlag ->
  pinv (PSys (pp y) (wsem y) (rsem y) (set_status (psc y) (zlen (threads y)) RUNNING) (threads y ++ [th])) 0 0.
Proof.
  intros [Hp Hws Hrs Ht Hq Hit Hsl] Hok Hpc.
  assert (forall w x, x ∈ sem_queue (if w : bool then wsem y else rsem y) -> zlen (threads y) <> x) as Hne.
  { intros w x (i & th' & -> & Hi & _)%Hq. apply lookup_lt_Some in Hi. lia. }
  assert (forall w, in_flight w (threads y ++ [th]) = in_flight w (threads y)) as Hfl.
  { intros w. rewrite in_flight_app. simpl. unfold units. destruct Hpc as [-> |[-> | ->]]; lia. }
  split; simpl; try done.
  - eapply sem_inv_sched; [|done]. intros x Hx. simpl. rewrite lookup_insert_ne; [done|by apply (Hne true)].
  - eapply sem_inv_sched; [|done]. intros x Hx. simpl. rewrite lookup_insert_ne; [done|by apply (Hne false)].
  - intros i th' [Hi|[Hlen Hi]]%lookup_app_Some.
    + destruct (Ht i th' Hi) as [? Hst]. split; [done|]. apply lookup_lt_Some in Hi.
      unfold thread_status in *. simpl. rewrite lookup_insert_ne by lia. done.
    + apply list_lookup_singleton_Some in Hi as [Hi <-]. split; [done|].
      assert (i = length (threads y)) as -> by lia.
      unfold thread_status. simpl. destruct Hpc as [-> |[-> | ->]]; by rewrite lookup_insert_eq.
  - intros w x Hx. destruct (Hq w x Hx) as (i & th' & -> & Hi & ? & ?). exists i, th'.
    split_and!; [done| |done..]. by apply lookup_app_l_Some.
  - rewrite Hfl. done.
  - rewrite Hfl. done.
Qed.

Lemma pipe_size_range n : 0 <= n -> 0 < pipe_size n <= 65536.
Proof. intros Hn. unfold pipe_size. zcases; lia. Qed.

Lemma prun_inv n y ins outs :
  0 <= n -> prun n y ins outs -> pinv y 0 0 /\ ins = outs ++ pipe_contents (pp y).
Proof.
  intros Hn. induction 1 as [p ws rs m s E|y ins outs buf len Hr IH Hl1 Hl2|y ins outs len Hr IH Hl
    |y ins outs Hr IH|y ins outs i y' Hr IH Hroom E].
  - unfold jlos_pipe_init in E. simplify_eq. pose proof (pipe_size_range n Hn). split; [|done].
    split; simpl; try done.
    + split; simpl; [lia|rewrite length_replicate; lia|lia|lia|by rewrite Zmod_0_l].
    + split_and!; simpl; [lia|lia|lia|constructor|set_solver].
    + split_and!; simpl; [lia|lia|lia|constructor|set_solver].
    + intros []; set_solver.
    + lia.
  - destruct IH as [HI ->]. split; [|done]. apply pinv_spawn; [done| |destruct (p_closed (pp y)); auto].
    unfold thread_ok. simpl. split_and!; [lia|lia|lia|lia|]. by destruct (p_closed (pp y)).
  - destruct IH as [HI ->]. split; [|done]. apply pinv_spawn; [done| |by auto].
    unfold thread_ok. simpl. split_and!; try done; lia.
  - destruct IH as [HI ->]. split; [|done]. apply pinv_spawn; [done| |by auto].
    unfold thread_ok. simpl. split_and!; try done; lia.
  - destruct IH as [HI ->]. destruct (thread_step_inv y i y' HI Hroom E) as [HI' Hc].
    split; [done|]. unfold conserves in Hc. by rewrite <- !app_assoc, Hc.
Qed.

(** C30. A pipe is a FIFO channel: in every history of calls, closes and thread
    steps, whatever the interleaving of readers and writers, the bytes taken out
    followed by the bytes in the buffer are exactly the bytes put in, in order,
    and the buffer never overflows. *)
Theorem pipe_fifo n y ins outs :
  0 <= n -> prun n y ins outs ->
  ins = outs ++ pipe_contents (pp y) /\
  p_count (pp y) = zlen (pipe_contents (pp y)) /\
  0 <= p_count (pp y) <= p_buf_size (pp y).
Proof.
  intros Hn Hr. destruct (prun_inv n y ins outs Hn Hr) as [HI Hc]. destruct (pi_pipe _ _ _ HI) as [? ? ? ? ?].
  split; [done|]. unfold pipe_contents at 1. rewrite length_ring. lia.
Qed.

Lemma in_flight_le w q l :
  (forall i th, l !! i = Some th -> units w th <= 0 \/ units w th = 1 /\ Z.of_nat i ∈ q) ->
  in_flight w l <= zlen q.
Proof.
  revert q. induction l as [|th l IH] using rev_ind; intros q Hu; simpl; [lia|].
  rewrite in_flight_app. simpl.
  destruct (Hu (length l) th) as [Hle|[H1 Hin]]; [by rewrite lookup_app_r, Nat.sub_diag by lia|..].
  - assert (in_flight w l <= zlen q); [|lia]. apply IH. intros i th' Hi. apply Hu. by apply lookup_app_l_Some.
  - apply elem_of_Permutation in Hin as [q' Hq']. rewrite Hq'. simpl.
    assert (in_flight w l <= zlen q'); [|lia]. apply IH. intros i th' Hi.
    apply lookup_lt_Some in Hi as Hlt. destruct (Hu i th') as [?|[? Hin]]; [by apply lookup_app_l_Some|by left|].
    right. split; [done|]. rewrite Hq' in Hin. apply elem_of_cons in Hin as [?|?]; [lia|done].
Qed.

(** C31. No wake-up for data or space is lost on a pipe, as long as the semaphore counts stay
    away from the limits of 32 bits: when every thread is outside the calls,
    between two iterations or asleep, a sleeping reader implies that the pipe
    is empty, and a sleeping writer on an open pipe implies that it is full.
    (The wake-up that closing sends can be lost: [close_lost].) *)
Theorem pipe_no_lost_wakeup n y ins outs i th :
  0 <= n -> prun n y ins outs ->
  (forall j th', threads y !! j = Some th' ->
     t_pc th' = Loop \/ t_pc th' = Done \/
     t_pc th' = Waiting /\ status (psc y) !! Z.of_nat j = Some BLOCKED) ->
  threads y !! i = Some th -> t_pc th = Waiting ->
  if t_writer th then p_closed (pp y) = false -> p_count (pp y) = p_buf_size (pp y)
  else p_count (pp y) = 0.
Proof.
  intros Hn Hr Hquiet Hi Hpc. destruct (prun_inv n y ins outs Hn Hr) as [HI _].
  pose proof HI as [Hp Hws Hrs Ht Hq Hit Hsl]. destruct Hp as [? ? ? Hcnt ?].
  assert (Hin : forall j th', threads y !! j = Some th' -> t_pc th' = Waiting ->
    Z.of_nat j ∈ sem_queue (if t_writer th' then wsem y else rsem y)).
  { intros j th' Hj Hw. destruct (Ht j th' Hj) as [_ Hst]. unfold thread_status in Hst. rewrite Hw in Hst.
    destruct Hst as [Hst|]; [|done]. destruct (Hquiet j th' Hj) as [?|[?|[_ ?]]]; congruence. }
  assert (Hfl : forall w, in_flight w (threads y) <= zlen (sem_queue (if w : bool then wsem y else rsem y))).
  { intros w. apply in_flight_le. intros j th' Hj. unfold units.
    destruct (Hquiet j th' Hj) as [-> |[-> |[Hw _]]]; [by left..|]. pose proof (Hin j th' Hj Hw) as Hjq. rewrite Hw.
    destruct (t_writer th') eqn:Etw, w; simpl; auto; lia. }
  specialize (Hin i th Hi Hpc). apply list_elem_of_split in Hin as (q1 & q2 & Hq12).
  destruct (t_writer th).
  - intros Hcl. specialize (Hsl Hcl). specialize (Hfl true). simpl in Hfl. destruct Hws as (Hlen & _).
    rewrite Hq12 in *. rewrite length_app in *. simpl in *. lia.
  - specialize (Hfl false). simpl in Hfl. destruct Hrs as (Hlen & _).
    rewrite Hq12 in *. rewrite length_app in *. simpl in *. lia.
Qed.

(** ** Concrete runs *)

Instance sem_room_dec sem : Decision (sem_room sem).
Proof. unfold sem_room. apply _. Defined.
Instance room_dec y : Decision (room y).
Proof. unfold room. apply _. Defined.

(** Step the given threads in turn. *)
Fixpoint run (y : psys) (ins outs : list Z) (js : list nat) : option (psys * list Z * list Z) :=
  match js with
  | [] => Some (y, ins, outs)
  | i :: js =>
      if decide (room y) then
        y' ← thread_step y i; run y' (ins ++ put y y' i) (outs ++ got y y' i) js
      else None
  end.

Lemma prun_run n js : forall y ins outs y' ins' outs',
  prun n y ins outs -> run y ins outs js = Some (y', ins', outs') -> prun n y' ins' outs'.
Proof.
  induction js as [|i js IH]; intros y ins outs y' ins' outs' Hr E; simpl in E; [by simplify_eq|].
  case_decide; [|done]. destruct (thread_step y i) as [y1|] eqn:E1; simpl in E; [|done].
  eapply IH; [|exact E]. by econstructor.
Qed.

Definition empty_sched : sched := Sched ∅ [].
Definition sample_pipe : psys :=
  PSys (Pipe (replicate 4 0) 4 0 0 0 false) (Semaphore 4 []) (Semaphore 0 []) empty_sched [].

Lemma sample_prun : prun 4 sample_pipe [] [].
Proof. by eapply prun_init. Qed.

(** The reader consumes one unit of its semaphore per iteration but the writer
    posts one per byte: after a transfer of four bytes in one iteration each,
    the pipe is empty and the readers' semaphore is left at three, so later
    reads of the empty pipe iterate without blocking. *)
Theorem pipe_surplus_units :
  exists y, prun 4 y [1; 2; 3; 4] [1; 2; 3; 4] /\ p_count (pp y) = 0 /\
    resource_count (rsem y) = 3 /\ forall i th, threads y !! i = Some th -> t_pc th = Done.
Proof.
  assert (prun 4 (jlos_pipe_write sample_pipe [1; 2; 3; 4] 4) [] []) as H1
    by (apply prun_write; [apply sample_prun|simpl; lia|lia]).
  eapply (prun_run 4 [0; 0; 0; 0; 0; 0; 0; 0; 0]%nat) in H1; [|vm_compute; reflexivity].
  eapply (prun_read 4 _ _ _ 4) in H1; [|lia].
  eapply (prun_run 4 [1; 1; 1; 1; 1; 1; 1; 1; 1; 1]%nat) in H1; [|vm_compute; reflexivity].
  eexists. split; [exact H1|]. split_and!; [reflexivity..|].
  intros [|[|i]] th; simpl; intros; by simplify_eq/=.
Qed.

(** Two readers (1, 2) wait on an empty pipe; a writer puts in one byte and the pipe is
    closed (3).  Both readers are woken, find the pipe closed but not empty, and go on; the
    first takes the byte and ends; the second finds nothing, has not returned its
    unit, and sleeps for ever on a closed pipe. *)
Theorem close_lost :
  exists y, prun 4 y [9] [9] /\ p_closed (pp y) = true /\ p_count (pp y) = 0 /\ (t_pc <$> threads y) = [Done; Done; Waiting; Done] /\
    status (psc y) !! 2 = Some BLOCKED.
Proof.
  assert (prun 4 (jlos_pipe_write sample_pipe [9] 1) [] []) as H1 by (apply prun_write; [apply sample_prun|simpl; lia|lia]).
  eapply (prun_read 4 _ _ _ 1) in H1; [|lia]. eapply (prun_read 4 _ _ _ 1) in H1; [|lia]. eapply prun_close in H1.
  eapply (prun_run 4 [1; 2; 0; 0; 0; 0; 0; 0; 3; 3; 3; 1; 2; 1; 2; 1; 2; 1; 1; 1; 2; 2; 2]%nat) in H1; [|vm_compute; reflexivity].
  eexists. split; [exact H1|]. split_and!; reflexivity.
Qed.

Lemma pipe_fifo_witness :
  exists y, prun 4 y [7; 8] [] /\ [7; 8] = [] ++ pipe_contents (pp y) /\
    p_count (pp y) = zlen (pipe_contents (pp y)) /\ 0 <= p_count (pp y) <= p_buf_size (pp y).
Proof.
  assert (exists y, prun 4 y [7; 8] []) as [y Hy].
  - assert (prun 4 (jlos_pipe_write sample_pipe [7; 8] 2) [] []) as H1
      by (apply prun_write; [apply sample_prun|simpl; lia|lia]).
    eapply (prun_run 4 [0; 0; 0]%nat) in H1; [|vm_compute; reflexivity]. eexists. exact H1.
  - exists y. split; [exact Hy|]. apply (pipe_fifo 4 y [7; 8] [] ltac:(lia) Hy).
Defined.

Lemma pipe_no_lost_wakeup_witness :
  exists y, prun 4 y [] [] /\ (t_pc <$> threads y !! 0%nat) = Some Waiting /\ p_count (pp y) = 0.
Proof.
  assert (exists y, prun 4 y [] [] /\
    threads y = [Thread false [] 1 0 Waiting] /\ status (psc y) !! 0 = Some BLOCKED) as (y & Hy & Ht & Hs).
  - assert (prun 4 (jlos_pipe_read sample_pipe 1) [] []) as H1
      by (apply prun_read; [apply sample_prun|lia]).
    eapply (prun_run 4 [0]%nat) in H1; [|vm_compute; reflexivity].
    eexists. split; [exact H1|]. split; reflexivity.
  - exists y. split; [exact Hy|]. rewrite Ht. split; [reflexivity|].
    apply (pipe_no_lost_wakeup 4 y [] [] 0 (Thread false [] 1 0 Waiting) ltac:(lia) Hy).
    + rewrite Ht. intros [|j] th' Hj; simpl in Hj; [|done]. simplify_eq. right. right. done.
    + by rewrite Ht.
    + reflexivity.
Defined.
