(* ===== verification/MsgQueue.v ===== *)
(** * Message queues ([kernel/ipc.c], [jlos_mq_*])

    A singly linked list of message nodes with a tail pointer; address 0 is the
    null pointer and an access to an unallocated node is [None].  The critical
    sections run under the queue's mutex; [jlos_mq_recv] is modelled from the
    point where its semaphore wait has returned. *)
From S2P Require Import Prelude Sync.

(** [jlos_msg_node_t] *)
Record mnode := MNode { m_len : Z; m_next : Z; m_data : list Z }.

(** [jlos_mq_t] with the allocated message nodes. *)
Record mq := Mq {
  mq_head : Z; mq_tail : Z; mq_count : Z;
  mq_sem : semaphore; mq_nodes : gmap Z mnode }.

Definition jlos_mq_init (nodes : gmap Z mnode) : mq := Mq 0 0 0 (jlos_semaphore_init 0) nodes.

(** The walk of [jlos_mq_destroy] that frees every node. *)
Fixpoint free_nodes (fuel : nat) (nodes : gmap Z mnode) (node : Z) : option (gmap Z mnode) :=
  if node =? 0 then Some nodes
  else match fuel with
  | O => None
  | S fuel => n ← nodes !! node; free_nodes fuel (delete node nodes) (m_next n)
  end.
Definition jlos_mq_destroy (fuel : nat) (q : mq) : option mq :=
  nodes ← free_nodes fuel (mq_nodes q) (mq_head q);
  Some (Mq 0 0 0 (mq_sem q) nodes).

(** [jlos_mq_send]; [addr] is the result of [jlos_kalloc].  Returns the new
    queue, the scheduler after the post, and the length sent. *)
Definition jlos_mq_send (q : mq) (s : sched) (addr : Z) (buf : list Z) (len : Z)
    : option (mq * sched * Z) :=
  if len =? 0 then Some (q, s, 0)
  else
    let len := if 256 <? len then 256 else len in
    if addr =? 0 then Some (q, s, 0)
    else
      data ← read_run buf 0 len;
      let nodes := <[addr := MNode len 0 data]> (mq_nodes q) in
      '(head, nodes) ← (if negb (mq_tail q =? 0) then
                          t ← nodes !! mq_tail q;
                          Some (mq_head q, <[mq_tail q := MNode (m_len t) addr (m_data t)]> nodes)
                        else Some (addr, nodes));
      let '(sem, s) := jlos_semaphore_post (mq_sem q) s in
      Some (Mq head addr (u32 (mq_count q + 1)) sem nodes, s, len).

(** [jlos_mq_recv] after the semaphore wait; the bytes copied out. *)
Definition jlos_mq_recv (q : mq) (max_len : Z) : option (mq * list Z) :=
  if max_len =? 0 then Some (q, [])
  else
    let node := mq_head q in
    if node =? 0 then Some (q, [])
    else
      n ← mq_nodes q !! node;
      let head := m_next n in
      let tail := if head =? 0 then 0 else mq_tail q in
      let copy_len := if m_len n <? max_len then m_len n else max_len in
      data ← read_run (m_data n) 0 copy_len;
      Some (Mq head tail (u32 (mq_count q - 1)) (mq_sem q) (delete node (mq_nodes q)), data).

(** ** The abstract queue of messages *)

(** The nodes from address [a] on carry the messages [ms], at addresses [l]. *)
Fixpoint mchain (nodes : gmap Z mnode) (a : Z) (l : list Z) (ms : list (list Z)) : Prop :=
  match l, ms with
  | [], [] => a = 0
  | x :: l, m :: ms =>
      a = x /\ x <> 0 /\
      exists n, nodes !! x = Some n /\ m_data n = m /\ m_len n = zlen m /\ mchain nodes (m_next n) l ms
  | _, _ => False
  end.

Record mq_rep (q : mq) (l : list Z) (ms : list (list Z)) : Prop := {
  mr_chain : mchain (mq_nodes q) (mq_head q) l ms;
  mr_nodup : NoDup l;
  mr_tail : mq_tail q = default 0 (last l);
  mr_count : mq_count q = zlen ms;
  mr_bound : zlen ms < 2 ^ 32
}.

Lemma mchain_length nodes a l ms : mchain nodes a l ms -> length l = length ms.
Proof.
  revert a ms. induction l as [|x l IH]; intros a [|m ms]; simpl; try done.
  intros (_ & _ & n & _ & _ & _ & Hc). f_equal. by eapply IH.
Qed.

Lemma mchain_frame nodes nodes' a l ms :
  (forall x, x ∈ l -> nodes' !! x = nodes !! x) -> mchain nodes a l ms -> mchain nodes' a l ms.
Proof.
  revert a ms. induction l as [|x l IH]; intros a [|m ms] He; simpl; try done.
  intros (-> & Hx & n & Hn & Hd & Hl & Hc). split_and!; [done..|]. exists n.
  rewrite He by set_solver. split_and!; [done..|]. apply IH; [set_solver|done].
Qed.

Lemma mchain_nonzero nodes a l ms x : mchain nodes a l ms -> x ∈ l -> x <> 0 /\ is_Some (nodes !! x).
Proof.
  revert a ms. induction l as [|y l IH]; intros a [|m ms]; simpl; [set_solver|done|done|].
  intros (-> & Hy & n & Hn & _ & _ & Hc) [->|Hx]%elem_of_cons; [by split; [|eexists]|]. by eapply IH.
Qed.

(** Linking a fresh node behind the last one appends its message. *)
Lemma mchain_snoc nodes a l ms t addr len data :
  mchain nodes a l ms -> NoDup l -> addr ∉ l -> addr <> 0 -> last l = Some t -> len = zlen data ->
  exists n, nodes !! t = Some n /\
    mchain (<[t := MNode (m_len n) addr (m_data n)]> (<[addr := MNode len 0 data]> nodes))
      a (l ++ [addr]) (ms ++ [data]).
Proof.
  intros Hc Hnd Hni Hz Hl ->. revert a ms Hc. induction l as [|x l IH]; intros a [|m ms] Hc; try done.
  destruct Hc as (-> & Hx & n & Hn & Hd & Hln & Hc).
  apply NoDup_cons in Hnd as [Hxl Hnd]. rewrite last_cons in Hl.
  destruct l as [|y l].
  - simpl in Hl. simplify_eq. destruct ms; [|done]. exists n. split; [done|]. simpl.
    split_and!; [done..|]. exists (MNode (m_len n) addr (m_data n)). rewrite lookup_insert_eq.
    split_and!; [done..|]. simpl. exists (MNode (zlen data) 0 data).
    rewrite lookup_insert_ne by set_solver. by rewrite lookup_insert_eq.
  - assert (last (y :: l) = Some t) as Hl'.
    { destruct (last (y :: l)) eqn:El; [done|]. by apply last_None in El. }
    destruct (IH Hnd) with (a := m_next n) (ms := ms) as (nt & Hnt & Hc'); [set_solver|done|done|].
    exists nt. split; [done|]. assert (t ∈ y :: l) as Ht by (by apply last_Some_elem_of).
    split_and!; [done..|]. exists n. rewrite !lookup_insert_ne by set_solver. done.
Qed.

(** A message queue is FIFO and keeps message boundaries: [jlos_mq_send]
    appends one message, cut to 256 bytes, and posts the semaphore once;
    [jlos_mq_recv] takes out the oldest message, copies at most [max_len] bytes
    of it, and frees its node. *)
Theorem mq_refines q l ms s :
  mq_rep q l ms ->
  (forall addr buf len, addr <> 0 -> addr ∉ l -> 0 < len <= zlen buf -> zlen ms + 1 < 2 ^ 32 ->
     let m := take (Z.to_nat (Z.min len 256)) buf in
     exists q' s', jlos_mq_send q s addr buf len = Some (q', s', zlen m) /\
       mq_rep q' (l ++ [addr]) (ms ++ [m]) /\
       jlos_semaphore_post (mq_sem q) s = (mq_sem q', s')) /\
  (forall max_len, 0 < max_len ->
     match l, ms with
     | x :: l', m :: ms' =>
         exists q', jlos_mq_recv q max_len = Some (q', take (Z.to_nat max_len) m) /\
           mq_rep q' l' ms' /\ mq_nodes q' !! x = None
     | _, _ => jlos_mq_recv q max_len = Some (q, [])
     end).
Proof.
  intros [Hc Hnd Ht Hcnt Hb]. split.
  - intros addr buf len Ha Hni Hlen Hroom m.
    assert (zlen m = Z.min len 256) as Em by (unfold m; rewrite length_take; lia).
    unfold jlos_mq_send. destruct (Z.eqb_spec len 0); [lia|]. destruct (Z.eqb_spec addr 0); [done|].
    replace (if 256 <? len then 256 else len) with (Z.min len 256) by (zcases; lia).
    rewrite read_run_Some by lia. cbn [mbind option_bind]. rewrite drop_0. fold m. rewrite <- Em.
    destruct (jlos_semaphore_post (mq_sem q) s) as [sem s'] eqn:Es.
    rewrite Ht. destruct (last l) as [t|] eqn:El; simpl.
    + destruct (mchain_nonzero _ _ _ _ t Hc) as [Htz _]; [by apply last_Some_elem_of|].
      destruct (Z.eqb_spec t 0); [done|]. simpl.
      destruct (mchain_snoc _ _ _ _ t addr (zlen m) m Hc Hnd Hni Ha El eq_refl) as (nd & Hnd' & Hc').
      assert (t ∈ l) by (by apply last_Some_elem_of).
      rewrite lookup_insert_ne, Hnd' by set_solver. simpl. eexists _, _. split; [done|]. split; [|done].
      split; simpl; [done| |by rewrite last_snoc| |].
      * apply NoDup_app. split_and!; [done|set_solver|apply NoDup_singleton].
      * rewrite length_app, u32_small; simpl; lia.
      * rewrite length_app. simpl. lia.
    + eexists _, _. split; [done|]. split; [|done]. apply last_None in El. subst l.
      destruct ms; [|done]. simpl in *. split; simpl.
      * split_and!; [done..|]. eexists. by rewrite lookup_insert_eq.
      * apply NoDup_singleton.
      * done.
      * rewrite Hcnt, u32_small; lia.
      * lia.
  - intros max_len Hm. unfold jlos_mq_recv. destruct (Z.eqb_spec max_len 0); [lia|].
    destruct l as [|x l], ms as [|m ms]; simpl in Hc; try done.
    + rewrite Hc. done.
    + destruct Hc as (Hx & Hxz & nd & Hn & Hd & Hl & Hc). rewrite Hx, Hn. destruct (Z.eqb_spec x 0); [done|].
      simpl. rewrite read_run_Some by (rewrite ?Hd, ?Hl; zcases; lia). simpl.
      eexists. split; [do 2 f_equal; rewrite drop_0, Hd, Hl; zcases; [by rewrite !take_ge by lia|done]|].
      split; [|simpl; apply lookup_delete_eq]. apply NoDup_cons in Hnd as [Hxl Hnd]. simpl in *. split; simpl.
      * eapply mchain_frame; [|done]. intros y Hy. rewrite lookup_delete_ne by set_solver. done.
      * done.
      * pose proof (mchain_length _ _ _ _ Hc). destruct l as [|y l]; simpl in *.
        -- destruct ms; [|done]. by rewrite Hc.
        -- destruct ms as [|m' ms]; [done|]. destruct Hc as (-> & Hy & _).
           destruct (Z.eqb_spec y 0); [done|]. by rewrite Ht.
      * rewrite Hcnt. rewrite u32_small; lia.
      * lia.
Qed.

Lemma mq_init_rep nodes : mq_rep (jlos_mq_init nodes) [] [].
Proof. split; simpl; [done|constructor|done|done|lia]. Qed.

Lemma mq_refines_witness :
  exists q' s', jlos_mq_send (jlos_mq_init ∅) (Sched ∅ []) 5 [1; 2; 3] 2 = Some (q', s', 2) /\
    mq_rep q' [5] [[1; 2]] /\
    jlos_semaphore_post (mq_sem (jlos_mq_init ∅)) (Sched ∅ []) = (mq_sem q', s').
Proof.
  apply (proj1 (mq_refines (jlos_mq_init ∅) [] [] (Sched ∅ []) (mq_init_rep ∅)) 5 [1; 2; 3] 2);
    [lia|set_solver|simpl; lia|simpl; lia].
Defined.
