(* ===== verification/RBTree.v ===== *)
(** * The intrusive red-black tree ([dsa/rbtree.c])

    Nodes are addresses in a heap of node records; the sentinel [tree->nil] has the
    address [nil].  The while loops take fuel; [None] is running out of it, which
    the theorems of [RBTreeInv] exclude. *)
From S2P Require Import Prelude.

(** [jlos_rbtree_node_t] *)
Record rbnode := RBNode { parent : Z; left : Z; right : Z; red : bool }.

(** [jlos_rbtree_t], with the memory its nodes live in. *)
Record rbtree := RBTree { root : Z; heap : Z -> rbnode }.

(** [&tree->nil] *)
Definition nil : Z := 0.

Definition upd (h : Z -> rbnode) (x : Z) (n : rbnode) : Z -> rbnode := fun y => if y =? x then n else h y.
Definition with_parent (p : Z) (n : rbnode) : rbnode := RBNode p (left n) (right n) (red n).
Definition with_left (l : Z) (n : rbnode) : rbnode := RBNode (parent n) l (right n) (red n).
Definition with_right (r : Z) (n : rbnode) : rbnode := RBNode (parent n) (left n) r (red n).
Definition with_red (c : bool) (n : rbnode) : rbnode := RBNode (parent n) (left n) (right n) c.
Definition modify (t : rbtree) (x : Z) (g : rbnode -> rbnode) : rbtree :=
  RBTree (root t) (upd (heap t) x (g (heap t x))).
Definition set_root (t : rbtree) (x : Z) : rbtree := RBTree x (heap t).

Definition rbtree_left_rotate (t : rbtree) (x : Z) : rbtree :=
  let y := right (heap t x) in
  let t := modify t x (with_right (left (heap t y))) in
  let t := if left (heap t y) =? nil then t else modify t (left (heap t y)) (with_parent x) in
  let t := modify t y (with_parent (parent (heap t x))) in
  let t := if parent (heap t x) =? nil then set_root t y
           else if x =? left (heap t (parent (heap t x))) then modify t (parent (heap t x)) (with_left y)
           else modify t (parent (heap t x)) (with_right y) in
  let t := modify t y (with_left x) in
  modify t x (with_parent y).

Definition rbtree_right_rotate (t : rbtree) (x : Z) : rbtree :=
  let y := left (heap t x) in
  let t := modify t x (with_left (right (heap t y))) in
  let t := if right (heap t y) =? nil then t else modify t (right (heap t y)) (with_parent x) in
  let t := modify t y (with_parent (parent (heap t x))) in
  let t := if parent (heap t x) =? nil then set_root t y
           else if x =? right (heap t (parent (heap t x))) then modify t (parent (heap t x)) (with_right y)
           else modify t (parent (heap t x)) (with_left y) in
  let t := modify t y (with_right x) in
  modify t x (with_parent y).

Definition par (t : rbtree) (x : Z) : Z := parent (heap t x).
Definition is_red (t : rbtree) (x : Z) : bool := red (heap t x).
Definition set_red (t : rbtree) (x : Z) (c : bool) : rbtree := modify t x (with_red c).

(** The loop body of [rbtree_insert_fixup].  A red uncle [y]: recolour and go up
    two levels. *)
Definition insert_recolour (t : rbtree) (z y : Z) : rbtree * Z :=
  let t := set_red t (par t z) false in
  let t := set_red t y false in
  let t := set_red t (par t (par t z)) true in
  (t, par t (par t z)).

(** The parent is a left child. *)
Definition insert_turn_left (t : rbtree) (z : Z) : rbtree * Z :=
  if z =? right (heap t (par t z)) then let z := par t z in (rbtree_left_rotate t z, z) else (t, z).
Definition insert_lift_right (t : rbtree) (z : Z) : rbtree :=
  let t := set_red t (par t z) false in
  let t := set_red t (par t (par t z)) true in
  rbtree_right_rotate t (par t (par t z)).
Definition insert_case_left (t : rbtree) (z : Z) : rbtree * Z :=
  let y := right (heap t (par t (par t z))) in
  if is_red t y then insert_recolour t z y
  else let '(t, z) := insert_turn_left t z in (insert_lift_right t z, z).

(** The parent is a right child. *)
Definition insert_turn_right (t : rbtree) (z : Z) : rbtree * Z :=
  if z =? left (heap t (par t z)) then let z := par t z in (rbtree_right_rotate t z, z) else (t, z).
Definition insert_lift_left (t : rbtree) (z : Z) : rbtree :=
  let t := set_red t (par t z) false in
  let t := set_red t (par t (par t z)) true in
  rbtree_left_rotate t (par t (par t z)).
Definition insert_case_right (t : rbtree) (z : Z) : rbtree * Z :=
  let y := left (heap t (par t (par t z))) in
  if is_red t y then insert_recolour t z y
  else let '(t, z) := insert_turn_right t z in (insert_lift_left t z, z).

Fixpoint rbtree_insert_fixup_loop (fuel : nat) (t : rbtree) (z : Z) : option rbtree :=
  match fuel with
  | O => None
  | S fuel =>
      if is_red t (par t z) then
        let '(t, z) := if par t z =? left (heap t (par t (par t z)))
                       then insert_case_left t z else insert_case_right t z in
        rbtree_insert_fixup_loop fuel t z
      else Some t
  end.
Definition rbtree_insert_fixup (fuel : nat) (t : rbtree) (z : Z) : option rbtree :=
  t ← rbtree_insert_fixup_loop fuel t z; Some (set_red t (root t) false).

Definition rbtree_transplant (t : rbtree) (u v : Z) : rbtree :=
  let t := if par t u =? nil then set_root t v
           else if u =? left (heap t (par t u)) then modify t (par t u) (with_left v)
           else modify t (par t u) (with_right v) in
  modify t v (with_parent (par t u)).

(** The loop body of [rbtree_delete_fixup]. *)
(** The node is a left child: a red sibling [w] is rotated up; *)
Definition delete_sibling_left (t : rbtree) (x : Z) : rbtree * Z :=
  let w := right (heap t (par t x)) in
  if is_red t w then
    let t := set_red t w false in
    let t := set_red t (par t x) true in
    let t := rbtree_left_rotate t (par t x) in
    (t, right (heap t (par t x)))
  else (t, w).
(** the far child of [w] is made red; *)
Definition delete_turn_left (t : rbtree) (x w : Z) : rbtree * Z :=
  if negb (is_red t (right (heap t w))) then
    let t := set_red t (left (heap t w)) false in
    let t := set_red t w true in
    let t := rbtree_right_rotate t w in
    (t, right (heap t (par t x)))
  else (t, w).
(** and [w] takes the place of the parent. *)
Definition delete_lift_left (t : rbtree) (x w : Z) : rbtree :=
  let t := set_red t w (is_red t (par t x)) in
  let t := set_red t (par t x) false in
  let t := set_red t (right (heap t w)) false in
  rbtree_left_rotate t (par t x).
Definition delete_case_left (t : rbtree) (x : Z) : rbtree * Z :=
  let '(t, w) := delete_sibling_left t x in
  if negb (is_red t (left (heap t w))) && negb (is_red t (right (heap t w))) then
    let t := set_red t w true in (t, par t x)
  else
    let '(t, w) := delete_turn_left t x w in
    let t := delete_lift_left t x w in (t, root t).

(** The node is a right child: a red sibling [w] is rotated up; *)
Definition delete_sibling_right (t : rbtree) (x : Z) : rbtree * Z :=
  let w := left (heap t (par t x)) in
  if is_red t w then
    let t := set_red t w false in
    let t := set_red t (par t x) true in
    let t := rbtree_right_rotate t (par t x) in
    (t, left (heap t (par t x)))
  else (t, w).
(** the far child of [w] is made red; *)
Definition delete_turn_right (t : rbtree) (x w : Z) : rbtree * Z :=
  if negb (is_red t (left (heap t w))) then
    let t := set_red t (right (heap t w)) false in
    let t := set_red t w true in
    let t := rbtree_left_rotate t w in
    (t, left (heap t (par t x)))
  else (t, w).
(** and [w] takes the place of the parent. *)
Definition delete_lift_right (t : rbtree) (x w : Z) : rbtree :=
  let t := set_red t w (is_red t (par t x)) in
  let t := set_red t (par t x) false in
  let t := set_red t (left (heap t w)) false in
  rbtree_right_rotate t (par t x).
Definition delete_case_right (t : rbtree) (x : Z) : rbtree * Z :=
  let '(t, w) := delete_sibling_right t x in
  if negb (is_red t (right (heap t w))) && negb (is_red t (left (heap t w))) then
    let t := set_red t w true in (t, par t x)
  else
    let '(t, w) := delete_turn_right t x w in
    let t := delete_lift_right t x w in (t, root t).

Fixpoint rbtree_delete_fixup_loop (fuel : nat) (t : rbtree) (x : Z) : option (rbtree * Z) :=
  match fuel with
  | O => None
  | S fuel =>
      if negb (x =? root t) && negb (is_red t x) then
        let '(t, x) := if x =? left (heap t (par t x)) then delete_case_left t x else delete_case_right t x in
        rbtree_delete_fixup_loop fuel t x
      else Some (t, x)
  end.
Definition rbtree_delete_fixup (fuel : nat) (t : rbtree) (x : Z) : option rbtree :=
  '(t, x) ← rbtree_delete_fixup_loop fuel t x; Some (set_red t x false).

Fixpoint rbtree_minimum (fuel : nat) (t : rbtree) (x : Z) : option Z :=
  match fuel with
  | O => None
  | S fuel => if left (heap t x) =? nil then Some x else rbtree_minimum fuel t (left (heap t x))
  end.
Fixpoint rbtree_maximum (fuel : nat) (t : rbtree) (x : Z) : option Z :=
  match fuel with
  | O => None
  | S fuel => if right (heap t x) =? nil then Some x else rbtree_maximum fuel t (right (heap t x))
  end.

Definition jlos_rbtree_init (h : Z -> rbnode) : rbtree := RBTree nil (upd h nil (RBNode nil nil nil false)).

Section compare.
(** [jlos_rbtree_compare_fn] on two nodes. *)
Variable cmp : Z -> Z -> Z.

(** The descent of [jlos_rbtree_insert]: the parent of the new node. *)
Fixpoint insert_descend (fuel : nat) (t : rbtree) (z y x : Z) : option Z :=
  match fuel with
  | O => None
  | S fuel =>
      if x =? nil then Some y
      else insert_descend fuel t z x (if cmp z x <? 0 then left (heap t x) else right (heap t x))
  end.
Definition jlos_rbtree_insert (fuel : nat) (t : rbtree) (z : Z) : option rbtree :=
  y ← insert_descend fuel t z nil (root t);
  let t := modify t z (with_parent y) in
  let t := if y =? nil then set_root t z
           else if cmp z y <? 0 then modify t y (with_left z) else modify t y (with_right z) in
  let t := modify t z (with_left nil) in
  let t := modify t z (with_right nil) in
  let t := set_red t z true in
  rbtree_insert_fixup fuel t z.

Fixpoint find_loop (fuel : nat) (t : rbtree) (key x : Z) : option (option Z) :=
  match fuel with
  | O => None
  | S fuel =>
      if x =? nil then Some None
      else let r := cmp key x in
           if r <? 0 then find_loop fuel t key (left (heap t x))
           else if 0 <? r then find_loop fuel t key (right (heap t x)) else Some (Some x)
  end.
Definition jlos_rbtree_find (fuel : nat) (t : rbtree) (key : Z) : option (option Z) :=
  find_loop fuel t key (root t).

Fixpoint find_le_loop (fuel : nat) (t : rbtree) (key x : Z) (best : option Z) : option (option Z) :=
  match fuel with
  | O => None
  | S fuel =>
      if x =? nil then Some best
      else if cmp x key <=? 0 then find_le_loop fuel t key (right (heap t x)) (Some x)
      else find_le_loop fuel t key (left (heap t x)) best
  end.
Definition jlos_rbtree_find_le (fuel : nat) (t : rbtree) (key : Z) : option (option Z) :=
  find_le_loop fuel t key (root t) None.
End compare.

Section compare_key.
(** [jlos_rbtree_cmp_key_fn]: a node against a key of the client's type. *)
Context {K : Type} (cmp : Z -> K -> Z).

Fixpoint find_key_loop (fuel : nat) (t : rbtree) (key : K) (x : Z) : option (option Z) :=
  match fuel with
  | O => None
  | S fuel =>
      if x =? nil then Some None
      else let r := cmp x key in
           if r <? 0 then find_key_loop fuel t key (right (heap t x))
           else if 0 <? r then find_key_loop fuel t key (left (heap t x)) else Some (Some x)
  end.
Definition jlos_rbtree_find_key (fuel : nat) (t : rbtree) (key : K) : option (option Z) :=
  find_key_loop fuel t key (root t).

Fixpoint find_key_le_loop (fuel : nat) (t : rbtree) (key : K) (x : Z) (best : option Z) : option (option Z) :=
  match fuel with
  | O => None
  | S fuel =>
      if x =? nil then Some best
      else if cmp x key <=? 0 then find_key_le_loop fuel t key (right (heap t x)) (Some x)
      else find_key_le_loop fuel t key (left (heap t x)) best
  end.
Definition jlos_rbtree_find_key_le (fuel : nat) (t : rbtree) (key : K) : option (option Z) :=
  find_key_le_loop fuel t key (root t) None.
End compare_key.

Definition jlos_rbtree_remove (fuel : nat) (t : rbtree) (z : Z) : option rbtree :=
  '(t, x, y_original_red) ←
    (if left (heap t z) =? nil then
       Some (rbtree_transplant t z (right (heap t z)), right (heap t z), is_red t z)
     else if right (heap t z) =? nil then
       Some (rbtree_transplant t z (left (heap t z)), left (heap t z), is_red t z)
     else
       y ← rbtree_minimum fuel t (right (heap t z));
       let y_original_red := is_red t y in
       let x := right (heap t y) in
       let t := if par t y =? z then modify t x (with_parent y)
                else let t := rbtree_transplant t y (right (heap t y)) in
                     let t := modify t y (with_right (right (heap t z))) in
                     modify t (right (heap t y)) (with_parent y) in
       let t := rbtree_transplant t z y in
       let t := modify t y (with_left (left (heap t z))) in
       let t := modify t (left (heap t y)) (with_parent y) in
       Some (set_red t y (is_red t z), x, y_original_red));
  if (y_original_red : bool) then Some t else rbtree_delete_fixup fuel t x.

Definition jlos_rbtree_first (fuel : nat) (t : rbtree) : option (option Z) :=
  if root t =? nil then Some None else Some <$> rbtree_minimum fuel t (root t).
Definition jlos_rbtree_last (fuel : nat) (t : rbtree) : option (option Z) :=
  if root t =? nil then Some None else Some <$> rbtree_maximum fuel t (root t).

(** The climbing loops of [jlos_rbtree_next] and [jlos_rbtree_prev]. *)
Fixpoint climb_right (fuel : nat) (t : rbtree) (x y : Z) : option Z :=
  match fuel with
  | O => None
  | S fuel => if negb (y =? nil) && (x =? right (heap t y)) then climb_right fuel t y (par t y) else Some y
  end.
Fixpoint climb_left (fuel : nat) (t : rbtree) (x y : Z) : option Z :=
  match fuel with
  | O => None
  | S fuel => if negb (y =? nil) && (x =? left (heap t y)) then climb_left fuel t y (par t y) else Some y
  end.
Definition jlos_rbtree_next (fuel : nat) (t : rbtree) (x : Z) : option (option Z) :=
  if negb (right (heap t x) =? nil) then Some <$> rbtree_minimum fuel t (right (heap t x))
  else y ← climb_right fuel t x (par t x); Some (if y =? nil then None else Some y).
Definition jlos_rbtree_prev (fuel : nat) (t : rbtree) (x : Z) : option (option Z) :=
  if negb (left (heap t x) =? nil) then Some <$> rbtree_maximum fuel t (left (heap t x))
  else y ← climb_left fuel t x (par t x); Some (if y =? nil then None else Some y).

Definition jlos_rbtree_empty (t : rbtree) : bool := root t =? nil.
