(* ===== verification/RBTreeInv.v ===== *)
(** * Correctness of the red-black tree

    A heap represents a tree when every node's fields are those of its place in the
    tree ([is_tree]).  Positions inside a tree are a subtree and a context, so the
    pointer surgery of rotations and transplants is a rewriting of contexts.  Both
    directions of every operation are treated at once: [dir] says which child. *)
From S2P Require Import Prelude RBTree.

Inductive tree := E | N (c : bool) (l : tree) (x : Z) (r : tree).

Definition rt (T : tree) : Z := match T with E => nil | N _ _ x _ => x end.
Fixpoint elems (T : tree) : list Z := match T with E => [] | N _ l x r => elems l ++ x :: elems r end.

Inductive dir := L | R.
#[export] Instance dir_eq_dec : EqDecision dir.
Proof. solve_decision. Defined.
Definition opp (d : dir) : dir := match d with L => R | R => L end.
Definition child (d : dir) (n : rbnode) : Z := match d with L => left n | R => right n end.
Definition with_child (d : dir) (v : Z) : rbnode -> rbnode := match d with L => with_left v | R => with_right v end.
(** The tree with [d]-child [a] and other child [b]. *)
Definition node (d : dir) (c : bool) (a : tree) (x : Z) (b : tree) : tree :=
  match d with L => N c a x b | R => N c b x a end.
Definition mk (d : dir) (p a b : Z) (c : bool) : rbnode :=
  match d with L => RBNode p a b c | R => RBNode p b a c end.

(** Contexts, innermost frame first: the direction of the hole, colour, node,
    and the sibling subtree. *)
Record frame := Frame { f_dir : dir; f_red : bool; f_node : Z; f_sib : tree }.
Definition ctx := list frame.
Definition fill (T : tree) (f : frame) : tree := node (f_dir f) (f_red f) T (f_node f) (f_sib f).
Definition plug (k : ctx) (T : tree) : tree := foldl fill T k.
Definition top (k : ctx) : Z := match k with [] => nil | f :: _ => f_node f end.
Definition knodes (k : ctx) : list Z := concat (map (fun f => f_node f :: elems (f_sib f)) k).

Fixpoint rep (h : Z -> rbnode) (p : Z) (T : tree) : Prop :=
  match T with
  | E => True
  | N c l x r => x <> nil /\ h x = RBNode p (rt l) (rt r) c /\ rep h x l /\ rep h x r
  end.
Fixpoint krep (h : Z -> rbnode) (k : ctx) (v : Z) : Prop :=
  match k with
  | [] => True
  | f :: k => f_node f <> nil /\ h (f_node f) = mk (f_dir f) (top k) v (rt (f_sib f)) (f_red f) /\
              rep h (f_node f) (f_sib f) /\ krep h k (f_node f)
  end.

Record is_tree (t : rbtree) (T : tree) : Prop := {
  it_root : root t = rt T;
  it_rep : rep (heap t) nil T;
  it_nodup : NoDup (elems T);
  it_nil : red (heap t nil) = false
}.

(** ** Structure *)

Lemma rep_node h p d c a x b :
  rep h p (node d c a x b) <-> x <> nil /\ h x = mk d p (rt a) (rt b) c /\ rep h x a /\ rep h x b.
Proof. destruct d; simpl; tauto. Qed.
Lemma rt_node d c a x b : rt (node d c a x b) = x.
Proof. by destruct d. Qed.
Lemma elems_node d c a x b : elems (node d c a x b) ≡ₚ x :: elems a ++ elems b.
Proof. destruct d; simpl; [|rewrite (Permutation_app_comm (elems b))]; solve_Permutation. Qed.

Lemma plug_cons f k T : plug (f :: k) T = plug k (fill T f).
Proof. done. Qed.

Lemma rep_plug h k : forall T, rep h nil (plug k T) <-> rep h (top k) T /\ krep h k (rt T).
Proof.
  induction k as [|f k IH]; intros T; simpl; [tauto|].
  fold (plug k (fill T f)). rewrite IH. unfold fill. rewrite rep_node, rt_node. tauto.
Qed.

Lemma elems_plug k : forall T, elems (plug k T) ≡ₚ elems T ++ knodes k.
Proof.
  induction k as [|f k IH]; intros T; [by rewrite app_nil_r|]. rewrite plug_cons, IH.
  unfold fill. rewrite elems_node. unfold knodes. simpl. solve_Permutation.
Qed.

Lemma elems_plug_eq k : forall T T', elems T = elems T' -> elems (plug k T) = elems (plug k T').
Proof.
  induction k as [|f k IH]; intros T T' HT; [done|]. rewrite !plug_cons. apply IH.
  unfold fill. destruct (f_dir f); simpl; by rewrite HT.
Qed.

Lemma rt_plug f k : forall T T', rt (plug (f :: k) T) = rt (plug (f :: k) T').
Proof.
  revert f. induction k as [|g k IH]; intros f T T'; [simpl; unfold fill; by rewrite !rt_node|].
  rewrite !plug_cons, <- !plug_cons. apply IH.
Qed.

Lemma top_nil h k v : krep h k v -> (top k =? nil) = bool_decide (k = []).
Proof. destruct k as [|f k]; [done|]. intros (Hne & _). simpl. by apply Z.eqb_neq. Qed.

Lemma rep_elems_ne h p T : rep h p T -> forall x, x ∈ elems T -> x <> nil.
Proof.
  revert p. induction T as [|c l IHl x r IHr]; intros p; simpl; [set_solver|].
  intros (Hx & _ & Hl & Hr) y Hy. apply elem_of_app in Hy as [Hy|[->|Hy]%elem_of_cons]; eauto.
Qed.
Lemma rt_elem T : T = E \/ rt T ∈ elems T.
Proof. destruct T; [by left|right]. simpl. apply elem_of_app. right. constructor. Qed.
Lemma rt_in T : rt T <> nil -> rt T ∈ elems T.
Proof. destruct (rt_elem T) as [->|]; done. Qed.
Lemma rt_E h p T : rep h p T -> rt T = nil -> T = E.
Proof. destruct T; [done|]. intros (? & _). done. Qed.

(** ** Frame rules *)

Lemma rep_ext h h' T : forall p, (forall x, x ∈ elems T -> h' x = h x) -> rep h p T -> rep h' p T.
Proof.
  induction T as [|c l IHl x r IHr]; intros p Heq; simpl; [done|]. intros (? & Hx & Hl & Hr).
  split_and!; [done| | |].
  - rewrite Heq; [done|]. set_solver.
  - apply IHl; [|done]. set_solver.
  - apply IHr; [|done]. set_solver.
Qed.

Lemma krep_ext h h' k : forall v, (forall x, x ∈ knodes k -> h' x = h x) -> krep h k v -> krep h' k v.
Proof.
  induction k as [|f k IH]; intros v Heq; simpl; [done|]. intros (? & Hx & Hs & Hk). unfold knodes in Heq. simpl in Heq.
  split_and!; [done| | |].
  - rewrite Heq; [done|]. set_solver.
  - eapply rep_ext; [|done]. set_solver.
  - apply IH; [|done]. intros y Hy. apply Heq. unfold knodes in Hy. set_solver.
Qed.

(** The parent pointer of a subtree's root changes. *)
Lemma rep_reparent h h' p q T :
  rep h p T -> NoDup (elems T) ->
  (forall x, x ∈ elems T -> x <> rt T -> h' x = h x) ->
  (T <> E -> h' (rt T) = with_parent q (h (rt T))) -> rep h' q T.
Proof.
  destruct T as [|c l x r]; [done|]. simpl. intros (Hne & Hx & Hl & Hr) Hnd Heq Hrt.
  apply NoDup_app in Hnd as (_ & Hd & [Hxr _]%NoDup_cons).
  split_and!; [done| | |].
  - rewrite Hrt by done. by rewrite Hx.
  - eapply rep_ext; [|done]. intros y Hy. apply Heq; [set_solver|]. intros ->. apply (Hd x Hy). constructor.
  - eapply rep_ext; [|done]. intros y Hy. apply Heq; [set_solver|]. by intros ->.
Qed.

(** The hole of a context gets another root. *)
Lemma krep_rehole h h' k v v' :
  krep h k v -> NoDup (knodes k) ->
  (forall x, x ∈ knodes k -> x <> top k -> h' x = h x) ->
  (forall f k', k = f :: k' -> h' (f_node f) = with_child (f_dir f) v' (h (f_node f))) -> krep h' k v'.
Proof.
  destruct k as [|f k]; [done|]. simpl. intros (Hne & Hx & Hs & Hk) Hnd Heq Hrt.
  unfold knodes in Hnd, Heq. simpl in Hnd, Heq. apply NoDup_cons in Hnd as [Hxn Hnd]. apply NoDup_app in Hnd as (_ & Hd & _).
  split_and!; [done| | |].
  - rewrite (Hrt f k) by done. rewrite Hx. by destruct (f_dir f).
  - eapply rep_ext; [|done]. intros y Hy. apply Heq; [set_solver|]. intros ->. set_solver.
  - eapply krep_ext; [|done]. unfold knodes. intros y Hy. apply Heq; [set_solver|]. intros ->. set_solver.
Qed.

(** ** Rotations *)

Lemma rt_ne T x : x <> nil -> x ∉ elems T -> rt T <> x.
Proof. intros Hx Hn <-. by apply Hn, rt_in. Qed.
Lemma top_ne k x : x <> nil -> x ∉ knodes k -> top k <> x.
Proof. intros Hx Hn <-. destruct k; [done|]. apply Hn. unfold knodes. simpl. constructor. Qed.

Definition relink (d : dir) (t : rbtree) (u v p : Z) : rbtree :=
  if p =? nil then set_root t v
  else if u =? child d (heap t p) then modify t p (with_child d v) else modify t p (with_child (opp d) v).
(** The writes of a rotation, in order. *)
Definition rot_down (d : dir) (t : rbtree) (x y : Z) : rbtree :=
  modify t x (with_child (opp d) (child d (heap t y))).
Definition rot_inner (d : dir) (t : rbtree) (x y : Z) : rbtree :=
  if child d (heap t y) =? nil then t else modify t (child d (heap t y)) (with_parent x).
Definition rot_up (t : rbtree) (x y : Z) : rbtree := modify t y (with_parent (parent (heap t x))).
Definition rot_swap (d : dir) (t : rbtree) (x y : Z) : rbtree := modify (modify t y (with_child d x)) x (with_parent y).
Definition rotate (d : dir) (t : rbtree) (x : Z) : rbtree :=
  let y := child (opp d) (heap t x) in
  let t := rot_up (rot_inner d (rot_down d t x y) x y) x y in
  rot_swap d (relink d t x y (parent (heap t x))) x y.

Lemma left_rotate_eq t x : rbtree_left_rotate t x = rotate L t x.
Proof. done. Qed.
Lemma right_rotate_eq t x : rbtree_right_rotate t x = rotate R t x.
Proof. done. Qed.

Lemma heap_modify t x g z : heap (modify t x g) z = if decide (z = x) then g (heap t x) else heap t z.
Proof. unfold modify, upd. simpl. case_decide; [subst; by rewrite Z.eqb_refl|]. by rewrite (proj2 (Z.eqb_neq _ _)). Qed.
Lemma root_modify t x g : root (modify t x g) = root t.
Proof. done. Qed.

(** Evaluation of a heap after updates, given the distinctness of addresses. *)
Ltac hp := rewrite ?heap_modify; repeat first [rewrite decide_True by congruence | rewrite decide_False by congruence].

Definition rehole_root (t : rbtree) (k : ctx) (v : Z) : Z := match k with [] => v | _ => root t end.

Lemma relink_spec d t u v k :
  krep (heap t) k u -> u <> nil -> u ∉ knodes k ->
  root (relink d t u v (top k)) = rehole_root t k v /\
  (forall z, z <> top k -> heap (relink d t u v (top k)) z = heap t z) /\
  (forall f k', k = f :: k' -> heap (relink d t u v (top k)) (f_node f) = with_child (f_dir f) v (heap t (f_node f))) /\
  (k = [] -> heap (relink d t u v (top k)) = heap t).
Proof.
  intros Hk Hu Hn. unfold relink. rewrite (top_nil _ _ _ Hk). destruct k as [|f k]; simpl; [by split_and!|].
  destruct Hk as (Hne & Hf & Hs & _).
  assert (u <> rt (f_sib f)) as Hsib.
  { intros ->. apply Hn. unfold knodes. simpl. apply rt_in in Hu. set_solver. }
  assert ((if u =? child d (heap t (f_node f)) then modify t (f_node f) (with_child d v)
           else modify t (f_node f) (with_child (opp d) v)) = modify t (f_node f) (with_child (f_dir f) v)) as ->.
  { rewrite Hf. destruct d, (f_dir f); simpl; rewrite ?Z.eqb_refl, ?(proj2 (Z.eqb_neq _ _) Hsib); done. }
  split_and!; [done| | |done].
  - intros z Hz. by hp.
  - intros g k' [= <- <-]. by hp.
Qed.

(** The heap after a rotation, node by node. *)
Record rotated (h h' : Z -> rbnode) (d : dir) (k : ctx) (x y a b f : Z) (c e : bool) : Prop := {
  ro_x : h' x = mk d y a b c;
  ro_y : h' y = mk d (top k) x f e;
  ro_b : b <> nil -> h' b = with_parent x (h b);
  ro_k g k' : k = g :: k' -> h' (f_node g) = with_child (f_dir g) y (h (f_node g));
  ro_other z : z <> x -> z <> y -> (z = b -> b = nil) -> (z = top k -> k = []) -> h' z = h z
}.

Lemma rotate_heap d t k x y a b f c e :
  let h := heap t in
  h x = mk d (top k) a y c -> h y = mk d x b f e -> krep h k x ->
  x <> nil -> y <> nil -> x <> y -> b <> x -> b <> y -> top k <> x -> top k <> y -> (b <> nil -> top k <> b) ->
  x ∉ knodes k -> y ∉ knodes k -> (b <> nil -> b ∉ knodes k) ->
  rotated h (heap (rotate d t x)) d k x y a b f c e /\ root (rotate d t x) = rehole_root t k y.
Proof.
  intros h Ex Ey Hk Hx Hy Dxy Dbx Dby Dkx Dky Dkb Nx Ny Nb. unfold rotate. fold h.
  assert (child (opp d) (h x) = y) as -> by (rewrite Ex; by destruct d).
  cbv zeta. set (t1 := rot_down d t x y).
  assert (child d (h y) = b) as Eb0 by (rewrite Ey; by destruct d).
  assert (E1 : forall z, heap t1 z = if decide (z = x) then mk d (top k) a b c else h z).
  { intros z. unfold t1, rot_down. fold h. rewrite Eb0, heap_modify. case_decide; [|done]. fold h. rewrite Ex. by destruct d. }
  set (t2 := rot_inner d t1 x y).
  assert (t2 = if b =? nil then t1 else modify t1 b (with_parent x)) as Et2.
  { unfold t2, rot_inner. by rewrite E1, decide_False, Eb0 by done. }
  assert (E2 : forall z, heap t2 z = if decide (z = x) then mk d (top k) a b c
                         else if decide (z = b /\ b <> nil) then with_parent x (h b) else h z).
  { intros z. rewrite Et2. destruct (Z.eqb_spec b nil) as [Eb|Eb]; rewrite ?heap_modify, ?E1; repeat case_decide; first [tauto | done | congruence]. }
  assert (root t2 = root t) as R2 by (rewrite Et2; by destruct (b =? nil)).
  clearbody t2. clear E1 Et2 t1.
  assert (parent (heap t2 x) = top k) as Ep by (rewrite E2, decide_True by done; by destruct d).
  set (t3 := rot_up t2 x y).
  assert (E3 : forall z, heap t3 z = if decide (z = x) then mk d (top k) a b c
                         else if decide (z = y) then mk d (top k) b f e
                         else if decide (z = b /\ b <> nil) then with_parent x (h b) else h z).
  { intros z. unfold t3, rot_up. rewrite Ep, heap_modify, !E2. repeat case_decide; destruct_and?;
      try first [done | congruence | tauto | by rewrite Ey; destruct d]. }
  assert (root t3 = root t) as R3 by done. clearbody t3. clear E2 Ep R2 t2.
  assert (parent (heap t3 x) = top k) as -> by (rewrite E3, decide_True by done; by destruct d).
  assert (krep (heap t3) k x) as Hk3.
  { eapply krep_ext; [|exact Hk]. intros z Hz. rewrite E3.
    rewrite !decide_False; [done|intros [-> Hb]; by apply Nb|by intros ->|by intros ->]. }
  destruct (relink_spec d t3 x y k Hk3 Hx Nx) as (R4 & E4 & E4k & E4n). set (t4 := relink d t3 x y (top k)) in *.
  clearbody t4. unfold rot_swap. split; [|by rewrite !root_modify, R4; unfold rehole_root; rewrite R3].
  assert (Hkx : forall g k', k = g :: k' -> f_node g = top k) by (intros; by subst).
  split.
  - hp. rewrite E4, E3, decide_True by congruence. by destruct d.
  - hp. rewrite E4, E3, decide_False, decide_True by congruence. by destruct d.
  - intros Hb. hp. rewrite E4, E3 by (intros ?; by apply Dkb). rewrite !decide_False by congruence. by rewrite decide_True.
  - intros g k' Hg. pose proof (Hkx g k' Hg) as Eg. hp. rewrite (E4k g k' Hg), E3, Eg.
    rewrite !decide_False; [done|intros [? Hb]; by apply Dkb|done|done].
  - intros z Hzx Hzy Hzb Hzk. hp. destruct (decide (z = top k)) as [Ez|Ez].
    + rewrite (E4n (Hzk Ez)), E3. rewrite !decide_False by tauto. done.
    + rewrite E4, E3 by done. rewrite !decide_False by tauto. done.
Qed.

Lemma rotate_spec d t k c a x e b y f :
  is_tree t (plug k (node d c a x (node d e b y f))) ->
  is_tree (rotate d t x) (plug k (node d e (node d c a x b) y f)) /\ heap (rotate d t x) nil = heap t nil.
Proof.
  intros [Hroot Hrep Hnd Hnil]. apply rep_plug in Hrep as [Hrep Hk]. rewrite rt_node in Hk.
  apply rep_node in Hrep as (Hx & Ex & Ra & Ry). rewrite rt_node in Ex.
  apply rep_node in Ry as (Hy & Ey & Rb & Rf).
  assert (NoDup (x :: y :: elems a ++ elems b ++ elems f ++ knodes k)) as Hd.
  { rewrite elems_plug, !elems_node in Hnd. eapply NoDup_Permutation_proper; [|exact Hnd]. solve_Permutation. }
  assert (NoDup (elems (plug k (node d e (node d c a x b) y f)))) as Hnd'.
  { rewrite elems_plug, !elems_node. eapply NoDup_Permutation_proper; [|exact Hd]. solve_Permutation. }
  apply NoDup_cons in Hd as [[Dxy Nx]%not_elem_of_cons [Ny Hd]%NoDup_cons].
  rewrite !not_elem_of_app in Nx, Ny. destruct Nx as (Nxa & Nxb & Nxf & Nxk), Ny as (Nya & Nyb & Nyf & Nyk).
  apply NoDup_app in Hd as (Nda & Da & Hd). apply NoDup_app in Hd as (Ndb & Db & Hd). apply NoDup_app in Hd as (Ndf & Df & Ndk).
  setoid_rewrite not_elem_of_app in Da. setoid_rewrite not_elem_of_app in Da. setoid_rewrite not_elem_of_app in Db.
  assert (Hbk : rt b <> nil -> rt b ∉ knodes k) by (intros Hb; apply Db, rt_in, Hb).
  destruct (rotate_heap d t k x y (rt a) (rt b) (rt f) c e Ex Ey Hk Hx Hy Dxy) as ([Rx Ry' Rb' Rk Ro] & Rr);
    auto using rt_ne, top_ne.
  assert (Hout : forall z, z <> nil -> z <> x -> z <> y -> z ∉ elems b \/ z <> rt b -> z ∉ knodes k ->
    heap (rotate d t x) z = heap t z).
  { intros z Hz H1 H2 H3 H4. apply Ro; [done|done| |].
    - intros ->. destruct (decide (rt b = nil)); [done|]. destruct H3 as [H3|H3]; [|done]. by destruct H3; apply rt_in.
    - intros ->. by destruct (top_ne k _ Hz H4). }
  assert (Hnn : heap (rotate d t x) nil = heap t nil).
  { apply Ro; [done|done|done|]. intros Ht. destruct k as [|g k]; [done|]. by destruct Hk as (? & _). }
  split; [|done]. split; [| |done|by rewrite Hnn].
  - rewrite Rr. unfold rehole_root. destruct k; [simpl; by rewrite rt_node|]. rewrite Hroot. apply rt_plug.
  - apply rep_plug. rewrite rt_node. split.
    + apply rep_node. rewrite rt_node. split_and!; [done|done| |].
      * apply rep_node. split_and!; [done|done| |].
        -- eapply rep_ext; [|exact Ra]. intros z Hz. destruct (Da z Hz) as (? & ? & ?).
           apply Hout; [exact (rep_elems_ne _ _ _ Ra z Hz)|congruence|congruence|by left|done].
        -- eapply rep_reparent; [exact Rb|done| |].
           ++ intros z Hz Hzb. destruct (Db z Hz) as (? & ?).
              apply Hout; [exact (rep_elems_ne _ _ _ Rb z Hz)|congruence|congruence|by right|done].
           ++ intros Hbe. apply Rb'. intros E. by apply Hbe, (rt_E _ _ _ Rb).
      * eapply rep_ext; [|exact Rf]. intros z Hz. pose proof (Df z Hz).
        apply Hout; [exact (rep_elems_ne _ _ _ Rf z Hz)|congruence|congruence|left|done]. intros Hzb. by destruct (Db z Hzb).
    + eapply krep_rehole; [exact Hk|done| |exact Rk]. intros z Hz Hzt. apply Ro; [congruence|congruence| |done].
      intros ->. destruct (decide (rt b = nil)); [done|]. by destruct Hbk.
Qed.

(** ** Reading and colouring *)

Definition colour (T : tree) : bool := match T with E => false | N c _ _ _ => c end.

Lemma node_opp d c a x b : node (opp d) c a x b = node d c b x a.
Proof. by destruct d. Qed.
Lemma node_cases d c l x r : exists a b, N c l x r = node d c a x b.
Proof. destruct d; [by exists l, r|by exists r, l]. Qed.
Lemma elems_rotate d c a x e b y f :
  elems (node d e (node d c a x b) y f) = elems (node d c a x (node d e b y f)).
Proof. destruct d; simpl; by rewrite <- app_assoc. Qed.
Lemma elems_colour d c c' a x b : elems (node d c a x b) = elems (node d c' a x b).
Proof. by destruct d. Qed.
Lemma elems_node_eq d c c' a a' x b b' :
  elems a = elems a' -> elems b = elems b' -> elems (node d c a x b) = elems (node d c' a' x b').
Proof. intros Ha Hb. destruct d; simpl; by rewrite Ha, Hb. Qed.

Lemma read_node t k d c a x b :
  is_tree t (plug k (node d c a x b)) -> heap t x = mk d (top k) (rt a) (rt b) c /\ x <> nil.
Proof. intros [_ Hr _ _]. apply rep_plug in Hr as [Hr _]. apply rep_node in Hr. tauto. Qed.
Lemma read_ctx t f k T :
  is_tree t (plug (f :: k) T) ->
  heap t (f_node f) = mk (f_dir f) (top k) (rt T) (rt (f_sib f)) (f_red f) /\ f_node f <> nil.
Proof. apply read_node. Qed.
Lemma read_par t k T : is_tree t (plug k T) -> T <> E -> par t (rt T) = top k.
Proof.
  destruct T as [|c l x r]; [done|]. intros Ht _. destruct (read_node t k L c l x r Ht) as [E _].
  unfold par. simpl. by rewrite E.
Qed.
Lemma read_red t k T : is_tree t (plug k T) -> is_red t (rt T) = colour T.
Proof.
  destruct T as [|c l x r]; intros Ht; [apply Ht|]. destruct (read_node t k L c l x r Ht) as [E _].
  unfold is_red. simpl. by rewrite E.
Qed.
Lemma read_child t k d c a x b :
  is_tree t (plug k (node d c a x b)) -> child d (heap t x) = rt a /\ child (opp d) (heap t x) = rt b.
Proof. intros Ht. destruct (read_node _ _ _ _ _ _ _ Ht) as [-> _]. by destruct d. Qed.

(** The test whether the hole is the [d]-child. *)
Lemma hole_dir t f k T d :
  is_tree t (plug (f :: k) T) -> rt T <> rt (f_sib f) ->
  (rt T =? child d (heap t (f_node f))) = bool_decide (f_dir f = d).
Proof.
  intros Ht Hne. destruct (read_ctx t f k T Ht) as [-> _].
  destruct d, (f_dir f); simpl; rewrite ?Z.eqb_refl, ?(proj2 (Z.eqb_neq _ _) Hne); done.
Qed.
Lemma rt_sib_ne t f k T : is_tree t (plug (f :: k) T) -> T <> E \/ f_sib f <> E -> rt T <> rt (f_sib f).
Proof.
  intros [_ Hr Hnd _] Hne E. rewrite plug_cons in *. apply rep_plug in Hr as [Hr _]. unfold fill in Hr.
  apply rep_node in Hr as (_ & _ & H1 & H2). rewrite elems_plug in Hnd. unfold fill in Hnd. rewrite elems_node in Hnd.
  apply NoDup_app in Hnd as ([_ Hnd]%NoDup_cons & _). apply NoDup_app in Hnd as (_ & Hd & _).
  destruct (decide (rt T = nil)) as [En|En].
  - destruct Hne as [Hne|Hne]; apply Hne; [by apply (rt_E _ _ _ H1)|apply (rt_E _ _ _ H2); congruence].
  - apply (Hd (rt T)); [by apply rt_in|]. rewrite E in *. by apply rt_in.
Qed.

Lemma set_red_spec t k d c a x b c' :
  is_tree t (plug k (node d c a x b)) -> is_tree (set_red t x c') (plug k (node d c' a x b)).
Proof.
  intros Ht. destruct (read_node _ _ _ _ _ _ _ Ht) as [Ex Hx]. destruct Ht as [Hroot Hrep Hnd Hnil].
  assert (Hel : forall z, heap (set_red t x c') z = if decide (z = x) then mk d (top k) (rt a) (rt b) c' else heap t z).
  { intros z. unfold set_red. rewrite heap_modify. case_decide; [|done]. rewrite Ex. by destruct d. }
  split.
  - simpl. rewrite Hroot. destruct k; [simpl; by rewrite !rt_node|]. apply rt_plug.
  - apply rep_plug in Hrep as [Hrep Hk]. rewrite rt_node in Hk. apply rep_plug. rewrite rt_node.
    apply rep_node in Hrep as (_ & _ & Ra & Rb). rewrite elems_plug, elems_node in Hnd.
    apply NoDup_app in Hnd as ([Hn _]%NoDup_cons & Hdk & _). rewrite not_elem_of_app in Hn. destruct Hn as [Na Nb]. split.
    + apply rep_node. split_and!; [done|by rewrite Hel, decide_True| |];
        (eapply rep_ext; [|done]; intros z Hz; rewrite Hel, decide_False; congruence).
    + eapply krep_ext; [|done]. intros z Hz. rewrite Hel, decide_False; [done|]. intros ->. apply (Hdk x); [constructor|done].
  - by rewrite (elems_plug_eq k _ _ (elems_colour d c' c a x b)).
  - by rewrite Hel, decide_False by done.
Qed.

(** ** Colour invariants *)

(** [rbt c n T]: root colour [c], black height [n], no red node with a red child. *)
Inductive rbt : bool -> nat -> tree -> Prop :=
| rbt_E : rbt false 0 E
| rbt_R n l x r : rbt false n l -> rbt false n r -> rbt true n (N true l x r)
| rbt_B n c1 c2 l x r : rbt c1 n l -> rbt c2 n r -> rbt false (S n) (N false l x r).

(** A context that accepts a subtree of colour [c] and black height [n]. *)
Inductive kok : bool -> nat -> ctx -> Prop :=
| kok_nil n : kok false n []
| kok_R n d x s k : rbt false n s -> kok true n k -> kok false n (Frame d true x s :: k)
| kok_B n c c' d x s k : rbt c' n s -> kok false (S n) k -> kok c n (Frame d false x s :: k).

Lemma rbt_node_R d n a x b : rbt false n a -> rbt false n b -> rbt true n (node d true a x b).
Proof. destruct d; by constructor. Qed.
Lemma rbt_node_B d n c1 c2 a x b : rbt c1 n a -> rbt c2 n b -> rbt false (S n) (node d false a x b).
Proof. destruct d; by econstructor. Qed.
Lemma rbt_colour c n T : rbt c n T -> colour T = c.
Proof. by destruct 1. Qed.
Lemma kok_false c n k : kok c n k -> kok false n k.
Proof. destruct 1; by econstructor. Qed.
Lemma kok_plug k : forall c n T, kok c n k -> rbt c n T -> k <> [] \/ c = false -> exists m, rbt false m (plug k T).
Proof.
  induction k as [|f k IH]; intros c n T Hk HT Hne; inversion Hk; subst; [by exists n|..]; rewrite plug_cons; unfold fill; simpl.
  - eapply (IH true n); [done|by apply rbt_node_R|]. left. intros ->. by inversion H4.
  - eapply (IH false (S n)); [done|by eapply rbt_node_B|by right].
Qed.

Create HintDb rb.
#[export] Hint Resolve rbt_node_R rbt_node_B rbt_E : rb.

(** ** Repair after an insertion *)

(** Moving the focus to the sibling. *)
Lemma plug_opp d c x s k T : plug (Frame (opp d) c x s :: k) T = plug k (node d c s x T).
Proof. rewrite plug_cons. unfold fill. simpl. by rewrite node_opp. Qed.

Lemma read_par_ctx t f k T : is_tree t (plug (f :: k) T) -> par t (f_node f) = top k.
Proof. intros Ht. unfold par. destruct (read_ctx t f k T Ht) as [-> _]. by destruct (f_dir f). Qed.
Lemma read_grand t f g k T :
  is_tree t (plug (f :: g :: k) T) -> T <> E -> par t (rt T) = f_node f /\ par t (f_node f) = f_node g /\ par t (par t (rt T)) = f_node g.
Proof. intros Ht HT. rewrite (read_par t _ T Ht HT). simpl. by rewrite (read_par_ctx t f (g :: k) T Ht). Qed.

(** One iteration of [rbtree_insert_fixup], for the parent being the [d]-child of
    the grandparent. *)
Definition ifix_turn (d : dir) (t : rbtree) (z : Z) : rbtree * Z :=
  if z =? child (opp d) (heap t (par t z)) then let z := par t z in (rotate d t z, z) else (t, z).
Definition ifix_top (d : dir) (t : rbtree) (z : Z) : rbtree :=
  let t := set_red t (par t z) false in
  let t := set_red t (par t (par t z)) true in
  rotate (opp d) t (par t (par t z)).
Definition ifix_step (d : dir) (t : rbtree) (z : Z) : rbtree * Z :=
  let y := child (opp d) (heap t (par t (par t z))) in
  if is_red t y then insert_recolour t z y
  else let '(t, z) := ifix_turn d t z in (ifix_top d t z, z).

Lemma insert_case_left_eq t z : insert_case_left t z = ifix_step L t z.
Proof. reflexivity. Qed.
Lemma insert_case_right_eq t z : insert_case_right t z = ifix_step R t z.
Proof. reflexivity. Qed.

Lemma insert_fixup_unfold fuel t z :
  rbtree_insert_fixup_loop (S fuel) t z =
    if is_red t (par t z) then
      let '(t, z) := ifix_step (if par t z =? left (heap t (par t (par t z))) then L else R) t z in
      rbtree_insert_fixup_loop fuel t z
    else Some t.
Proof.
  cbn [rbtree_insert_fixup_loop]. destruct (par t z =? left (heap t (par t (par t z))));
    [rewrite insert_case_left_eq|rewrite insert_case_right_eq]; reflexivity.
Qed.

(** Case 1: a red uncle. *)
Lemma ifix_recolour_spec t k d g df p s l z r ul u ur :
  is_tree t (plug k (node d false (node df true (N true l z r) p s) g (N true ul u ur))) ->
  exists t', insert_recolour t z u = (t', g) /\
  is_tree t' (plug k (node d true (node df false (N true l z r) p s) g (N false ul u ur))).
Proof.
  intros Ht. unfold insert_recolour.
  change (node d false (node df true (N true l z r) p s) g (N true ul u ur)) with
    (plug [Frame df true p s; Frame d false g (N true ul u ur)] (N true l z r)) in Ht.
  destruct (read_grand t _ _ k _ Ht ltac:(done)) as (Ep & _). simpl in Ep. rewrite Ep.
  pose proof (set_red_spec t (Frame d false g (N true ul u ur) :: k) df true (N true l z r) p s false Ht) as H1.
  set (t1 := set_red t p false) in *.
  pose proof (set_red_spec t1 (Frame (opp d) false g (node df false (N true l z r) p s) :: k) L true ul u ur false) as H2.
  rewrite !plug_opp in H2. specialize (H2 H1).
  set (t2 := set_red t1 u false) in *.
  assert (Hp : forall t c1 c2 c3, is_tree t (plug k (node d c1 (node df c2 (N true l z r) p s) g (N c3 ul u ur))) ->
    par t (par t z) = g).
  { intros t' c1 c2 c3 Ht'. by destruct (read_grand t' (Frame df c2 p s) (Frame d c1 g (N c3 ul u ur)) k (N true l z r) Ht') as (_ & _ & ?). }
  rewrite (Hp _ _ _ _ H2). pose proof (set_red_spec t2 k d false _ g _ true H2) as H3.
  exists (set_red t2 g true). by rewrite (Hp _ _ _ _ H3).
Qed.

(** Cases 2 and 3, after the turn: the hole, its parent and grandparent in line. *)
Lemma ifix_top_spec t k d A p B g u :
  is_tree t (plug k (node d false (node d true A p B) g u)) -> A <> E ->
  is_tree (ifix_top d t (rt A)) (plug k (node d false A p (node d true B g u))).
Proof.
  intros Ht HA. unfold ifix_top. cbv zeta.
  assert (par t (rt A) = p) as -> by exact (read_par t (Frame d true p B :: Frame d false g u :: k) A Ht HA).
  pose proof (set_red_spec t (Frame d false g u :: k) d true A p B false Ht) as H1. set (t1 := set_red t p false) in *.
  assert (Hp : forall t c, is_tree t (plug k (node d c (node d false A p B) g u)) -> par t (par t (rt A)) = g).
  { intros t' c Ht'. by destruct (read_grand t' (Frame d false p B) (Frame d c g u) k A Ht' HA) as (_ & _ & ?). }
  rewrite (Hp _ _ H1). pose proof (set_red_spec t1 k d false _ g u true H1) as H2. set (t2 := set_red t1 g true) in *.
  rewrite (Hp _ _ H2). pose proof (rotate_spec (opp d) t2 k true u g false B p A) as H3. rewrite !node_opp in H3.
  by apply H3.
Qed.

(** The turn brings the inner grandchild to the outside. *)
Lemma ifix_turn_spec t k d df p s l z r g u :
  is_tree t (plug k (node d false (node df true (N true l z r) p s) g u)) ->
  exists t' z' A B p', ifix_turn d t z = (t', z') /\ z' = rt A /\ A <> E /\
    is_tree t' (plug k (node d false (node d true A p' B) g u)) /\
    elems (node d true A p' B) = elems (node df true (N true l z r) p s) /\
    (forall n, rbt false n l -> rbt false n r -> rbt false n s -> rbt true n A /\ rbt false n B).
Proof.
  intros Ht. unfold ifix_turn. set (Zt := N true l z r) in *.
  assert (par t z = p) as -> by exact (read_par t (Frame df true p s :: Frame d false g u :: k) Zt Ht ltac:(done)).
  assert ((z =? child (opp d) (heap t p)) = bool_decide (df = opp d)) as ->.
  { apply (hole_dir t (Frame df true p s) (Frame d false g u :: k) Zt (opp d) Ht).
    by eapply (rt_sib_ne t (Frame df true p s) (Frame d false g u :: k) Zt Ht); left. }
  case_bool_decide as Ed.
  - subst df. destruct (node_cases d true l z r) as (a & b & Ez). fold Zt in Ez.
    rewrite node_opp, Ez in Ht. destruct (rotate_spec d t (Frame d false g u :: k) true s p true a z b Ht) as [Hr _].
    exists (rotate d t p), p, (node d true s p a), b, z. split_and!; [done|by rewrite rt_node|by destruct d|done| |].
    + rewrite node_opp, Ez. apply elems_rotate.
    + intros n Hl Hr' Hs. unfold Zt in Ez. destruct d; simpl in Ez; injection Ez as <- <-; split; try done; by constructor.
  - assert (df = d) as -> by (destruct d, df; done).
    exists t, z, Zt, s, p. split_and!; try done. intros n Hl Hr Hs. split; [by constructor|done].
Qed.

Lemma insert_fixup_loop_spec fuel : forall t k l z r n,
  is_tree t (plug k (N true l z r)) -> kok false n k -> rbt false n l -> rbt false n r -> (length k < fuel)%nat ->
  exists t' T' c m, rbtree_insert_fixup_loop fuel t z = Some t' /\ is_tree t' T' /\ rbt c m T' /\
    elems T' = elems (plug k (N true l z r)).
Proof.
  induction fuel as [|fuel IH]; intros t k l z r n Ht Hk Hl Hr Hfuel; [lia|]. rewrite insert_fixup_unfold.
  assert (par t z = top k) as -> by exact (read_par t k (N true l z r) Ht ltac:(done)).
  destruct k as [|f k].
  { simpl top. assert (is_red t nil = false) as -> by apply Ht.
    exists t, (N true l z r), true, n. split_and!; try done. by constructor. }
  destruct (read_ctx t f k _ Ht) as [Ef Hf]. simpl top. unfold is_red at 1. rewrite Ef.
  assert (red (mk (f_dir f) (top k) (rt (N true l z r)) (rt (f_sib f)) (f_red f)) = f_red f) as -> by (by destruct (f_dir f)).
  inversion Hk as [|n' df p s k' Hs Hk'|n' c c' df p s k' Hs Hk']; subst; simpl f_red; cbn match.
  2: { destruct (kok_plug (Frame df false p s :: k) true n (N true l z r)) as [m Hm]; [by econstructor|by constructor|by left|].
       exists t, (plug (Frame df false p s :: k) (N true l z r)), false, m. done. }
  inversion Hk' as [| |n' c c' d g u k2 Hu Hk2]; subst. simpl f_node.
  assert (par t p = g) as ->.
  { exact (read_par_ctx t (Frame df true p s) (Frame d false g u :: k2) _ Ht). }
  assert ((p =? left (heap t g)) = bool_decide (d = L)) as ->.
  { rewrite <- (rt_node df true (N true l z r) p s). apply (hole_dir t (Frame d false g u) k2 _ L Ht).
    eapply rt_sib_ne; [exact Ht|]. left. by destruct df. }
  assert ((if bool_decide (d = L) then L else R) = d) as -> by (by destruct d).
  unfold ifix_step. destruct (read_grand t _ _ k2 _ Ht ltac:(done)) as (_ & _ & Eg). simpl in Eg. rewrite Eg. clear Eg.
  destruct (read_child t k2 d false _ g u Ht) as [_ ->].
  assert (is_red t (rt u) = colour u) as ->.
  { apply (read_red t (Frame (opp d) false g (node df true (N true l z r) p s) :: k2)). by rewrite plug_opp. }
  rewrite (rbt_colour _ _ _ Hu). destruct c'.
  - inversion Hu as [|n' ul uy ur Hul Hur|]; subst. cbn [rt].
    destruct (ifix_recolour_spec t k2 d g df p s l z r ul uy ur Ht) as (t' & -> & Ht').
    assert (exists l' r', node d true (node df false (N true l z r) p s) g (N false ul uy ur) = N true l' g r' /\
      rbt false (S n) l' /\ rbt false (S n) r') as (l' & r' & E & Hl' & Hr').
    { assert (rbt false (S n) (node df false (N true l z r) p s)) by (eapply rbt_node_B; [by constructor|done]).
      assert (rbt false (S n) (N false ul uy ur)) by (by econstructor). destruct d; simpl; eauto. }
    rewrite E in Ht'. destruct (IH t' k2 l' g r' (S n) Ht' Hk2 Hl' Hr') as (t2 & T2 & c2 & m & E2 & Ht2 & Hm & Hel).
    { simpl in Hfuel. lia. }
    exists t2, T2, c2, m. split_and!; [done..|]. rewrite Hel, <- E. apply (elems_plug_eq k2).
    apply elems_node_eq; [apply elems_colour|done].
  - destruct (ifix_turn_spec t k2 d df p s l z r g u Ht) as (t1 & z1 & A & B & p1 & -> & -> & HA & Ht1 & Hel & Hrb).
    destruct (Hrb n Hl Hr Hs) as [HrA HrB]. pose proof (ifix_top_spec t1 k2 d A p1 B g u Ht1 HA) as Ht2.
    set (t2 := ifix_top d t1 (rt A)) in *. set (T2 := plug k2 (node d false A p1 (node d true B g u))) in *.
    assert (rbtree_insert_fixup_loop fuel t2 (rt A) = Some t2) as E2.
    { destruct fuel as [|fuel]; [simpl in Hfuel; lia|]. rewrite insert_fixup_unfold.
      rewrite (read_par t2 (Frame d false p1 (node d true B g u) :: k2) A Ht2 HA). simpl top. unfold is_red.
      destruct (read_node t2 k2 d false A p1 _ Ht2) as [-> _]. by destruct d. }
    destruct (kok_plug k2 false (S n) (node d false A p1 (node d true B g u)) Hk2) as [m Hm];
      [eapply rbt_node_B; [done|by apply rbt_node_R]|by right|].
    exists t2, T2, false, m. split_and!; [done..|]. apply (elems_plug_eq k2).
    transitivity (elems (node d true (node d true A p1 B) g u)); [|by apply elems_node_eq].
    pose proof (elems_rotate d true A p1 true B g u) as Er. rewrite Er. apply elems_colour.
Qed.

(** Colouring the root black. *)
Lemma blacken_root t T c n :
  is_tree t T -> rbt c n T -> T <> E ->
  exists T' m, is_tree (set_red t (root t) false) T' /\ rbt false m T' /\ elems T' = elems T.
Proof.
  intros Ht HT HE. rewrite (it_root _ _ Ht). destruct T as [|c0 l x r]; [done|]. simpl rt.
  pose proof (set_red_spec t [] L c0 l x r false Ht) as H1.
  assert (exists m, rbt false m (N false l x r)) as [m Hm] by (inversion HT; subst; eexists; econstructor; eauto).
  by exists (N false l x r), m.
Qed.

Lemma insert_fixup_spec fuel t k l z r n :
  is_tree t (plug k (N true l z r)) -> kok false n k -> rbt false n l -> rbt false n r -> (length k < fuel)%nat ->
  exists t' T' m, rbtree_insert_fixup fuel t z = Some t' /\ is_tree t' T' /\ rbt false m T' /\
    elems T' = elems (plug k (N true l z r)).
Proof.
  intros Ht Hk Hl Hr Hf. destruct (insert_fixup_loop_spec fuel t k l z r n Ht Hk Hl Hr Hf) as (t1 & T1 & c & m & E & Ht1 & Hm & Hel).
  unfold rbtree_insert_fixup. rewrite E. cbn [mbind option_bind].
  destruct (blacken_root t1 T1 c m Ht1 Hm) as (T' & m' & Ht' & Hm' & Hel').
  { intros ->.
    assert (z ∈ elems (plug k (N true l z r))) as Hin by (rewrite elems_plug; simpl; set_solver).
    rewrite <- Hel in Hin. set_solver. }
  eexists _, T', m'. split_and!; [done|done|done|congruence].
Qed.

(** ** Positions in the in-order sequence *)

Definition before (f : frame) : list Z := match f_dir f with L => [] | R => elems (f_sib f) ++ [f_node f] end.
Definition after (f : frame) : list Z := match f_dir f with L => f_node f :: elems (f_sib f) | R => [] end.
Definition kleft (k : ctx) : list Z := foldr (fun f acc => acc ++ before f) [] k.
Definition kright (k : ctx) : list Z := concat (map after k).

Lemma elems_split k : forall T, elems (plug k T) = kleft k ++ elems T ++ kright k.
Proof.
  induction k as [|f k IH]; intros T; [simpl; by rewrite app_nil_r|]. rewrite plug_cons, IH.
  unfold kleft, kright, fill, before, after. simpl. fold (kleft k).
  destruct (f_dir f); simpl; rewrite ?app_nil_r, <- ?app_assoc; simpl; rewrite <- ?app_assoc; done.
Qed.

Lemma ctx_length k T : (length k <= length (elems (plug k T)))%nat.
Proof.
  rewrite elems_plug, length_app. enough (length k <= length (knodes k))%nat by lia.
  induction k as [|f k IH]; [done|]. unfold knodes in *. simpl. rewrite length_app. lia.
Qed.

(** The tree as its client sees it: a sequence of nodes held by a balanced tree. *)
Definition rb_tree (t : rbtree) (l : list Z) : Prop := exists T n, is_tree t T /\ rbt false n T /\ elems T = l.

(** ** Insertion *)

(** Hanging a new red leaf into the hole of a context. *)
Lemma attach_spec t k z (g : bool) :
  is_tree t (plug k E) -> z <> nil -> z ∉ elems (plug k E) ->
  (forall f k', k = f :: k' -> g = bool_decide (f_dir f = L)) ->
  let t1 := modify t z (with_parent (top k)) in
  let t2 := if top k =? nil then set_root t1 z
            else if g then modify t1 (top k) (with_left z) else modify t1 (top k) (with_right z) in
  is_tree (set_red (modify (modify t2 z (with_left nil)) z (with_right nil)) z true) (plug k (N true E z E)).
Proof.
  intros [Hroot Hrep Hnd Hnil] Hz Hn Hg t1 t2. apply rep_plug in Hrep as [_ Hk]. simpl in Hk.
  rewrite elems_plug in Hn, Hnd. simpl in Hn, Hnd. pose proof (top_ne k z Hz Hn) as Dkz.
  assert (E1 : forall x, heap t1 x = if decide (x = z) then with_parent (top k) (heap t z) else heap t x)
    by (intros; apply heap_modify).
  assert (root t2 = rehole_root t k z /\ (forall x, x <> top k -> heap t2 x = heap t1 x) /\
    (forall f k', k = f :: k' -> heap t2 (f_node f) = with_child (f_dir f) z (heap t (f_node f))) /\
    (k = [] -> heap t2 = heap t1)) as (R2 & E2 & E2k & E2n).
  { unfold t2. rewrite (top_nil _ _ _ Hk). destruct k as [|f k]; simpl; [by split_and!|]. rewrite (Hg f k eq_refl).
    assert (forall d, heap (modify t1 (f_node f) (with_child d z)) (f_node f) = with_child d z (heap t (f_node f)) /\
      forall x, x <> f_node f -> heap (modify t1 (f_node f) (with_child d z)) x = heap t1 x) as Hm.
    { intros d. split; [|intros x Hx; by hp]. hp. rewrite E1. by rewrite decide_False. }
    case_bool_decide as Ed; [destruct (Hm L) as [H1 H2]|destruct (Hm R) as [H1 H2]];
      (split_and!; [done|exact H2| |done]); intros f' k' [= <- <-]; [rewrite Ed|destruct (f_dir f)]; done. }
  clearbody t2. set (t5 := set_red (modify (modify t2 z (with_left nil)) z (with_right nil)) z true).
  assert (Ez : heap t5 z = RBNode (top k) nil nil true).
  { unfold t5, set_red. hp. rewrite E2, E1, decide_True by congruence. done. }
  assert (Eo : forall x, x <> z -> heap t5 x = heap t2 x) by (intros x Hx; unfold t5, set_red; by hp).
  assert (root t5 = root t2) as R5 by done. clearbody t5. split.
  - rewrite R5, R2. unfold rehole_root. destruct k; [done|]. rewrite Hroot. apply rt_plug.
  - apply rep_plug. simpl. split_and!; [done|done|done|done|].
    eapply krep_rehole; [exact Hk|done| |].
    + intros x Hx Hxt. rewrite Eo by congruence. rewrite E2 by done. rewrite E1, decide_False; congruence.
    + intros f k' Hf. rewrite Eo by (subst k; exact Dkz). by apply (E2k f k').
  - rewrite elems_plug. simpl. by apply NoDup_cons.
  - rewrite Eo by done. destruct (decide (nil = top k)) as [Ek|Ek].
    + assert (k = []) as Hkn by (destruct k; [done|]; by destruct Hk as (? & _)). rewrite (E2n Hkn), E1, decide_False; done.
    + rewrite E2, E1, decide_False by done. done.
Qed.

Section order.
Variable cmp : Z -> Z -> Z.
Hypothesis cmp_antisym : forall a b, cmp a b < 0 <-> 0 < cmp b a.
Hypothesis cmp_trans : forall a b c, cmp a b <= 0 -> cmp b c <= 0 -> cmp a c <= 0.
Definition ordered (l : list Z) : Prop := StronglySorted (fun a b => cmp a b <= 0) l.

Lemma cmp_lt_le a b c : cmp a b < 0 -> cmp b c <= 0 -> cmp a c < 0.
Proof using cmp_antisym cmp_trans.
  intros H1 H2. destruct (Z.lt_ge_cases (cmp a c) 0) as [|H3]; [done|]. exfalso.
  assert (cmp c a <= 0) as H4 by (destruct (Z.le_gt_cases (cmp c a) 0); [done|]; assert (cmp a c < 0) by (by apply cmp_antisym); lia).
  pose proof (cmp_trans b c a H2 H4). apply cmp_antisym in H1. lia.
Qed.
Lemma cmp_ge_flip a b : 0 <= cmp a b <-> cmp b a <= 0.
Proof using cmp_antisym. pose proof (cmp_antisym a b). pose proof (cmp_antisym b a). lia. Qed.

Lemma insert_descend_spec t z fuel : forall k T c n,
  is_tree t (plug k T) -> ordered (elems T) -> kok c n k -> rbt c n T -> (length (elems T) < fuel)%nat ->
  (forall x, x ∈ kleft k -> 0 <= cmp z x) -> (forall x, x ∈ kright k -> cmp z x < 0) ->
  (forall f k', k = f :: k' -> (cmp z (f_node f) <? 0) = bool_decide (f_dir f = L)) ->
  exists k', insert_descend cmp fuel t z (top k) (rt T) = Some (top k') /\ plug k' E = plug k T /\ kok false 0 k' /\
    (forall x, x ∈ kleft k' -> 0 <= cmp z x) /\ (forall x, x ∈ kright k' -> cmp z x < 0) /\
    (forall f k0, k' = f :: k0 -> (cmp z (f_node f) <? 0) = bool_decide (f_dir f = L)).
Proof using cmp_antisym cmp_trans.
  induction fuel as [|fuel IH]; intros k T c n Ht Hs Hk HT Hf Hl Hr Hdir; [lia|]. cbn [insert_descend].
  destruct T as [|c0 l x r].
  { simpl. exists k. split_and!; try done. inversion HT; subst. done. }
  destruct (read_node t k L c0 l x r Ht) as [Ex Hx]. simpl rt. rewrite (proj2 (Z.eqb_neq _ _) Hx), Ex. cbn [left right mk].
  simpl in Hs, Hf. rewrite length_app in Hf. simpl in Hf.
  apply StronglySorted_app in Hs as (Hs12 & Hsl & [Hsr Hxr]%StronglySorted_inv). rewrite Forall_forall in Hxr.
  destruct (Z.ltb_spec (cmp z x) 0) as [Hlt|Hge].
  - assert (exists c' n', kok c' n' (Frame L c0 x r :: k) /\ rbt c' n' l) as (c' & n' & Hk' & Hl').
    { inversion HT; subst; eexists _, _; (split; [|done]); by econstructor. }
    apply (IH (Frame L c0 x r :: k) l c' n'); try done; [lia|..].
    + intros y Hy. apply Hl. unfold kleft in Hy. simpl in Hy. by rewrite app_nil_r in Hy.
    + intros y Hy. unfold kright in Hy. simpl in Hy. apply elem_of_cons in Hy as [->|[Hy|Hy]%elem_of_app]; [done| |by apply Hr].
      eapply cmp_lt_le; [done|]. by apply Hxr.
    + intros f k' [= <- <-]. simpl. by apply Z.ltb_lt.
  - assert (exists c' n', kok c' n' (Frame R c0 x l :: k) /\ rbt c' n' r) as (c' & n' & Hk' & Hr').
    { inversion HT; subst; eexists _, _; (split; [|done]); by econstructor. }
    apply (IH (Frame R c0 x l :: k) r c' n'); try done; [lia|..].
    + intros y Hy. unfold kleft in Hy. simpl in Hy. apply elem_of_app in Hy as [Hy|[Hy|Hy]%elem_of_app]; [by apply Hl| |set_solver].
      destruct (Z.lt_ge_cases (cmp z y) 0) as [Hc|]; [|done]. exfalso.
      assert (cmp y x <= 0) as Hyx by (apply Hs12; [done|constructor]). pose proof (cmp_lt_le z y x Hc Hyx). lia.
    + intros f k' [= <- <-]. simpl. apply Z.ltb_ge. done.
Qed.

Lemma ordered_insert l1 l2 z :
  ordered (l1 ++ l2) -> (forall x, x ∈ l1 -> 0 <= cmp z x) -> (forall x, x ∈ l2 -> cmp z x < 0) -> ordered (l1 ++ z :: l2).
Proof using cmp_antisym.
  intros Hs H1 H2. apply StronglySorted_app in Hs as (H12 & Hs1 & Hs2). apply StronglySorted_app. split_and!; [|done|].
  - intros x y Hx [->|Hy]%elem_of_cons; [by apply cmp_ge_flip, H1|by apply H12].
  - constructor; [done|]. apply Forall_forall. intros y Hy. apply H2 in Hy. lia.
Qed.
End order.

Lemma rbtree_insert_spec (cmp : Z -> Z -> Z) (t : rbtree) (l : list Z) (z : Z) (fuel : nat) :
  (forall a b, cmp a b < 0 <-> 0 < cmp b a) ->
  (forall a b c, cmp a b <= 0 -> cmp b c <= 0 -> cmp a c <= 0) ->
  rb_tree t l -> ordered cmp l -> z <> nil -> z ∉ l -> (length l < fuel)%nat ->
  exists t' l1 l2, jlos_rbtree_insert cmp fuel t z = Some t' /\ l = l1 ++ l2 /\
    rb_tree t' (l1 ++ z :: l2) /\ ordered cmp (l1 ++ z :: l2) /\
    (forall x, x ∈ l1 -> 0 <= cmp z x) /\ (forall x, x ∈ l2 -> cmp z x < 0).
Proof.
  intros Hanti Htrans (T & n & Ht & HT & <-) Hord Hz Hn Hf. unfold jlos_rbtree_insert. rewrite (it_root _ _ Ht).
  destruct (insert_descend_spec cmp Hanti Htrans t z fuel [] T false n Ht Hord (kok_nil n) HT Hf) as
    (k & Ed & Hplug & Hk & Hl & Hr & Hdir); [set_solver|set_solver|done|]. simpl in Hplug.
  change (top []) with nil in Ed. rewrite Ed. cbn [mbind option_bind]. rewrite <- Hplug in *.
  assert (z ∉ elems (plug k E)) as Hn' by done.
  assert (Hg : forall f k', k = f :: k' -> (cmp z (top k) <? 0) = bool_decide (f_dir f = L)).
  { intros f k' ->. by apply (Hdir f k'). }
  pose proof (attach_spec t k z (cmp z (top k) <? 0) Ht Hz Hn' Hg) as Ha. cbv zeta in Ha |- *.
  destruct (insert_fixup_spec fuel _ k E z E 0 Ha Hk rbt_E rbt_E) as (t' & T' & m & -> & Ht' & Hm & Hel).
  { pose proof (ctx_length k E). lia. }
  rewrite elems_split in Hel, Hord |- *. simpl in Hel, Hord |- *.
  exists t', (kleft k), (kright k). split_and!; [done|done|by exists T', m|by apply ordered_insert|done|done].
Qed.

(** C19. Inserting into a balanced tree whose nodes are in order, with a comparison
    that is a total preorder, terminates and yields a balanced tree again (no red
    node with a red child, equal black heights, black root) whose in-order sequence
    is the old one with the new node behind every node that does not compare
    greater, hence in order and stable. *)
Theorem rbtree_insert_correct (cmp : Z -> Z -> Z) (t : rbtree) (l : list Z) (z : Z) (fuel : nat) :
  (forall a b, cmp a b < 0 <-> 0 < cmp b a) ->
  (forall a b c, cmp a b <= 0 -> cmp b c <= 0 -> cmp a c <= 0) ->
  rb_tree t l -> ordered cmp l -> z <> nil -> z ∉ l -> (length l < fuel)%nat ->
  exists t' l1 l2, jlos_rbtree_insert cmp fuel t z = Some t' /\ l = l1 ++ l2 /\
    rb_tree t' (l1 ++ z :: l2) /\ ordered cmp (l1 ++ z :: l2) /\
    (forall x, x ∈ l1 -> 0 <= cmp z x) /\ (forall x, x ∈ l2 -> cmp z x < 0).
Proof. apply rbtree_insert_spec. Qed.
