(* ===== verification/RBTreeDel.v ===== *)
(** * Removal from the red-black tree, and its queries

    Built on the representation of [RBTreeInv]: the repair after a removal, the
    removal itself in its three cases, and the searches and traversals as functions
    of the in-order sequence. *)
From S2P Require Import Prelude RBTree RBTreeInv.

(** ** Repair after a removal *)

(** One iteration of [rbtree_delete_fixup], for the node being the [d]-child. *)
Definition dfix_sibling (d : dir) (t : rbtree) (x : Z) : rbtree * Z :=
  let w := child (opp d) (heap t (par t x)) in
  if is_red t w then
    let t := set_red t w false in
    let t := set_red t (par t x) true in
    let t := rotate d t (par t x) in
    (t, child (opp d) (heap t (par t x)))
  else (t, w).
Definition dfix_turn (d : dir) (t : rbtree) (x w : Z) : rbtree * Z :=
  if negb (is_red t (child (opp d) (heap t w))) then
    let t := set_red t (child d (heap t w)) false in
    let t := set_red t w true in
    let t := rotate (opp d) t w in
    (t, child (opp d) (heap t (par t x)))
  else (t, w).
Definition dfix_lift (d : dir) (t : rbtree) (x w : Z) : rbtree :=
  let t := set_red t w (is_red t (par t x)) in
  let t := set_red t (par t x) false in
  let t := set_red t (child (opp d) (heap t w)) false in
  rotate d t (par t x).
Definition dfix_step (d : dir) (t : rbtree) (x : Z) : rbtree * Z :=
  let '(t, w) := dfix_sibling d t x in
  if negb (is_red t (child d (heap t w))) && negb (is_red t (child (opp d) (heap t w))) then
    let t := set_red t w true in (t, par t x)
  else
    let '(t, w) := dfix_turn d t x w in
    let t := dfix_lift d t x w in (t, root t).

Lemma delete_case_left_eq t x : delete_case_left t x = dfix_step L t x.
Proof. reflexivity. Qed.
Lemma delete_case_right_eq t x : delete_case_right t x = dfix_step R t x.
Proof. reflexivity. Qed.

Lemma delete_fixup_unfold fuel t x :
  rbtree_delete_fixup_loop (S fuel) t x =
    if negb (x =? root t) && negb (is_red t x) then
      let '(t, x) := dfix_step (if x =? left (heap t (par t x)) then L else R) t x in
      rbtree_delete_fixup_loop fuel t x
    else Some (t, x).
Proof.
  cbn [rbtree_delete_fixup_loop]. destruct (x =? left (heap t (par t x)));
    [rewrite delete_case_left_eq|rewrite delete_case_right_eq]; reflexivity.
Qed.

(** The position the loop works at; the parent pointer of the hole is right even
    when the hole is the sentinel. *)
Record hole (t : rbtree) (k : ctx) (T : tree) : Prop := {
  ho_tree : is_tree t (plug k T);
  ho_par : par t (rt T) = top k
}.

Lemma hole_intro t t' k T k' :
  par t (rt T) = top k -> is_tree t' (plug k' T) -> (T = E -> heap t' nil = heap t nil) -> (T = E -> top k' = top k) ->
  hole t' k' T.
Proof.
  intros Hp Ht Hn Hk. split; [done|]. destruct T as [|c l x r]; [|by apply read_par].
  unfold par in *. simpl in *. by rewrite Hn, Hp, Hk.
Qed.

Lemma set_red_nil t x c : x <> nil -> heap (set_red t x c) nil = heap t nil.
Proof. intros Hx. unfold set_red. by hp. Qed.

Lemma sibling_spec t k d c p s T n :
  hole t (Frame d c p s :: k) T -> kok false (S n) (Frame d c p s :: k) ->
  exists t' c' s' k', dfix_sibling d t (rt T) = (t', rt s') /\ hole t' (Frame d c' p s' :: k') T /\
    rbt false (S n) s' /\ kok false (S n) (Frame d c' p s' :: k') /\ (c' = false -> k' = k) /\
    elems (plug (Frame d c' p s' :: k') T) = elems (plug (Frame d c p s :: k) T).
Proof.
  intros [Ht Hp] Hk. unfold dfix_sibling. rewrite Hp. simpl top. destruct (read_ctx t _ k T Ht) as [_ Hpn]. simpl in Hpn.
  destruct (read_child t k d c T p s Ht) as [_ ->].
  assert (is_red t (rt s) = colour s) as ->.
  { apply (read_red t (Frame (opp d) c p T :: k)). by rewrite plug_opp. }
  assert (exists cs, rbt cs (S n) s) as [cs Hs] by (inversion Hk; subst; eauto).
  rewrite (rbt_colour _ _ _ Hs). destruct cs; [|by exists t, c, s, k].
  assert (c = false) as -> by (inversion Hk as [|? ? ? ? ? Hs'|]; subst; [apply rbt_colour in Hs, Hs'; congruence|done]).
  assert (kok false (S (S n)) k) as Hk' by (by inversion Hk).
  inversion Hs as [|? l w r Hl Hr|]; subst. destruct (node_cases d true l w r) as (sa & sb & Es).
  assert (rbt false (S n) sa /\ rbt false (S n) sb) as [Hsa Hsb] by (destruct d; injection Es as <- <-; done).
  rewrite Es in *. rewrite rt_node.
  pose proof (set_red_spec t (Frame (opp d) false p T :: k) d true sa w sb false) as H1. rewrite !plug_opp in H1. specialize (H1 Ht).
  destruct (read_node t (Frame (opp d) false p T :: k) d true sa w sb) as [_ Hw]; [by rewrite plug_opp|].
  set (t1 := set_red t w false) in *.
  assert (hole t1 (Frame d false p (node d false sa w sb) :: k) T) as [_ Hp1].
  { eapply hole_intro; [exact Hp|exact H1|intros _; by apply set_red_nil|done]. }
  rewrite Hp1. simpl top.
  pose proof (set_red_spec t1 k d false T p _ true H1) as H2. set (t2 := set_red t1 p true) in *.
  assert (hole t2 (Frame d true p (node d false sa w sb) :: k) T) as [_ Hp2].
  { eapply hole_intro; [exact Hp1|exact H2|intros _; by apply set_red_nil|done]. }
  rewrite Hp2. simpl top.
  destruct (rotate_spec d t2 k true T p false sa w sb H2) as [H3 Hn3]. set (t3 := rotate d t2 p) in *.
  assert (hole t3 (Frame d true p sa :: Frame d false w sb :: k) T) as Hh3.
  { eapply hole_intro; [exact Hp2|exact H3|done|done]. }
  rewrite (ho_par _ _ _ Hh3). simpl top.
  destruct (read_child t3 (Frame d false w sb :: k) d true T p sa H3) as [_ ->].
  exists t3, true, sa, (Frame d false w sb :: k). split_and!; [done|done|done| |done|].
  - constructor; [done|]. by econstructor.
  - apply (elems_plug_eq k). etransitivity; [apply (elems_rotate d true T p false sa w sb)|]. apply elems_node_eq; [done|apply elems_colour].
Qed.

Lemma read_red_child t k d c a x b :
  is_tree t (plug k (node d c a x b)) -> is_red t (rt a) = colour a /\ is_red t (rt b) = colour b.
Proof.
  intros Ht. split.
  - exact (read_red t (Frame d c x b :: k) a Ht).
  - apply (read_red t (Frame (opp d) c x a :: k)). by rewrite plug_opp.
Qed.

(** Focus on the sibling. *)
Lemma focus_sibling t k d c p s T : hole t (Frame d c p s :: k) T -> is_tree t (plug (Frame (opp d) c p T :: k) s).
Proof. intros [Ht _]. by rewrite plug_opp. Qed.
Lemma unfocus_sibling t t' k d c p s s' T :
  hole t (Frame d c p s :: k) T -> is_tree t' (plug (Frame (opp d) c p T :: k) s') -> heap t' nil = heap t nil ->
  hole t' (Frame d c p s' :: k) T.
Proof. intros [Ht Hp] Ht' Hn. rewrite plug_opp in Ht'. eapply hole_intro; [exact Hp|exact Ht'|done|done]. Qed.

Lemma turn_spec t k d c p wa w wb T ca cb n :
  hole t (Frame d c p (node d false wa w wb) :: k) T -> rbt ca n wa -> rbt cb n wb -> ca || cb = true ->
  exists t' A v B ca', dfix_turn d t (rt T) w = (t', v) /\ hole t' (Frame d c p (node d false A v B) :: k) T /\
    rbt ca' n A /\ rbt true n B /\ elems (node d false A v B) = elems (node d false wa w wb).
Proof.
  intros Hh Ha Hb Hab. unfold dfix_turn. pose proof (focus_sibling _ _ _ _ _ _ _ Hh) as Hf.
  set (k1 := Frame (opp d) c p T :: k) in *.
  destruct (read_child t k1 d false wa w wb Hf) as [-> ->]. destruct (read_red_child t k1 d false wa w wb Hf) as [_ ->].
  destruct (read_node t k1 d false wa w wb Hf) as [_ Hw].
  rewrite (rbt_colour _ _ _ Hb). destruct cb; cbn [negb]; [by exists t, wa, w, wb, ca|].
  rewrite orb_false_r in Hab. subst ca. inversion Ha as [|? l v r Hl Hr|]; subst.
  destruct (node_cases d true l v r) as (a1 & a2 & Es).
  assert (rbt false n a1 /\ rbt false n a2) as [H1 H2] by (destruct d; injection Es as <- <-; done).
  rewrite Es in *. rewrite rt_node.
  pose proof (set_red_spec t (Frame d false w wb :: k1) d true a1 v a2 false Hf) as Hf1.
  destruct (read_node t (Frame d false w wb :: k1) d true a1 v a2 Hf) as [_ Hv]. set (t1 := set_red t v false) in *.
  pose proof (set_red_spec t1 k1 d false _ w wb true Hf1) as Hf2. set (t2 := set_red t1 w true) in *.
  pose proof (rotate_spec (opp d) t2 k1 true wb w false a2 v a1) as Hr3. rewrite !node_opp in Hr3.
  destruct (Hr3 Hf2) as [Hf3 Hn3]. set (t3 := rotate (opp d) t2 w) in *.
  assert (hole t3 (Frame d c p (node d false a1 v (node d true a2 w wb)) :: k) T) as Hh3.
  { eapply unfocus_sibling; [exact Hh|exact Hf3|]. rewrite Hn3. unfold t2, t1. by rewrite !set_red_nil. }
  rewrite (ho_par _ _ _ Hh3). simpl top.
  destruct (read_child t3 k d c T p _ (ho_tree _ _ _ Hh3)) as [_ ->]. cbn [f_sib]. rewrite rt_node.
  exists t3, a1, v, (node d true a2 w wb), false. split_and!; [done|done|done|by apply rbt_node_R|].
  symmetry. etransitivity; [apply (elems_rotate d true a1 v false a2 w wb)|]. apply elems_node_eq; [done|apply elems_colour].
Qed.

Lemma lift_spec t k d c p A w bl b br T :
  hole t (Frame d c p (node d false A w (N true bl b br)) :: k) T ->
  is_tree (dfix_lift d t (rt T) w) (plug k (node d c (node d false T p A) w (N false bl b br))).
Proof.
  intros Hh. unfold dfix_lift. pose proof (focus_sibling _ _ _ _ _ _ _ Hh) as Hf. pose proof (ho_tree _ _ _ Hh) as Ht.
  destruct (read_ctx t _ k T Ht) as [_ Hpn]. simpl in Hpn.
  rewrite (ho_par _ _ _ Hh). simpl top. assert (is_red t p = c) as ->.
  { unfold is_red. destruct (read_node t k d c T p _ Ht) as [-> _]. by destruct d. }
  pose proof (set_red_spec t _ d false A w _ c Hf) as Hf1. destruct (read_node t _ d false A w _ Hf) as [_ Hw].
  set (t1 := set_red t w c) in *.
  pose proof (unfocus_sibling t t1 k d c p _ _ T Hh Hf1 (set_red_nil t w c Hw)) as Hh1.
  rewrite (ho_par _ _ _ Hh1). simpl top.
  pose proof (set_red_spec t1 k d c T p _ false (ho_tree _ _ _ Hh1)) as Ht2. set (t2 := set_red t1 p false) in *.
  assert (hole t2 (Frame d false p (node d c A w (N true bl b br)) :: k) T) as Hh2.
  { eapply hole_intro; [exact (ho_par _ _ _ Hh1)|exact Ht2|intros _; by apply set_red_nil|done]. }
  pose proof (focus_sibling _ _ _ _ _ _ _ Hh2) as Hf2. destruct (read_child t2 _ d c A w _ Hf2) as [_ ->]. simpl rt.
  pose proof (set_red_spec t2 (Frame (opp d) c w A :: Frame (opp d) false p T :: k) L true bl b br false) as Hf3.
  rewrite !plug_opp in Hf3. rewrite plug_opp in Hf2. specialize (Hf3 Hf2).
  destruct (read_node t2 (Frame (opp d) c w A :: Frame (opp d) false p T :: k) L true bl b br) as [_ Hb]; [by rewrite !plug_opp|].
  set (t3 := set_red t2 b false) in *.
  assert (hole t3 (Frame d false p (node d c A w (N false bl b br)) :: k) T) as Hh3.
  { eapply hole_intro; [exact (ho_par _ _ _ Hh2)|exact Hf3|intros _; by apply set_red_nil|done]. }
  rewrite (ho_par _ _ _ Hh3). simpl top. by apply (rotate_spec d t3 k false T p c A w (N false bl b br)).
Qed.

(** The hole is not the root when there is a context. *)
Lemma hole_not_root t f k T : is_tree t (plug (f :: k) T) -> rt T <> root t.
Proof.
  intros Ht. rewrite (it_root _ _ Ht). destruct Ht as [_ Hr Hnd _]. apply rep_plug in Hr as [HT Hk].
  rewrite elems_plug in Hnd. apply NoDup_app in Hnd as (_ & Hd & _).
  assert (rt (plug (f :: k) T) ∈ knodes (f :: k) /\ rt (plug (f :: k) T) <> nil) as [Hin Hne].
  { clear Hd HT. revert f T Hk. induction k as [|g k IH]; intros f T Hk.
    - simpl. unfold fill. rewrite rt_node. destruct Hk as (? & _). unfold knodes. simpl. split; [constructor|done].
    - destruct Hk as (_ & _ & _ & Hk). rewrite plug_cons. destruct (IH g (fill T f)) as [Hin Hn].
      { unfold fill. by rewrite rt_node. }
      split; [|done]. unfold knodes in *. set_solver. }
  intros E. rewrite <- E in *. by apply (Hd (rt T)); [apply rt_in|].
Qed.

(** What the repair achieves: colouring the node it stops at black gives a
    balanced tree with the same sequence. *)
Definition repaired (l : list Z) (t : rbtree) (x : Z) : Prop := rb_tree (set_red t x false) l.

Lemma set_red_self t k T :
  is_tree t (plug k T) -> colour T = false -> is_tree (set_red t (rt T) false) (plug k T).
Proof.
  destruct T as [|c l x r]; intros Ht Hc.
  - assert (forall z, heap (set_red t nil false) z = heap t z) as He.
    { intros z. unfold set_red. rewrite heap_modify. case_decide; [subst|done]. pose proof (it_nil _ _ Ht).
      destruct (heap t nil) as [? ? ? []]; simpl in *; done. }
    simpl rt. destruct Ht as [Hr Hrep Hnd Hnil]. split; [done| |done|by rewrite He].
    eapply rep_ext; [|exact Hrep]. intros z _. apply He.
  - simpl in Hc. subst c. exact (set_red_spec t k L false l x r false Ht).
Qed.

(** Stopping at the root, or at a red node. *)
Lemma repaired_root t T c n : is_tree t T -> rbt c n T -> repaired (elems T) t (root t).
Proof.
  intros Ht HT. unfold repaired. destruct T as [|c0 l x r].
  - rewrite (it_root _ _ Ht). exists E, 0%nat. split_and!; [exact (set_red_self t [] E Ht eq_refl)|constructor|done].
  - destruct (blacken_root t _ c n Ht HT ltac:(done)) as (T' & m & H1 & H2 & H3). by exists T', m.
Qed.
Lemma repaired_black t k d c a x b n c1 c2 :
  is_tree t (plug k (node d c a x b)) -> rbt c1 n a -> rbt c2 n b -> kok false (S n) k ->
  repaired (elems (plug k (node d c a x b))) t x.
Proof.
  intros Ht Ha Hb Hk. pose proof (set_red_spec t k d c a x b false Ht) as Ht'.
  destruct (kok_plug k false (S n) (node d false a x b) Hk) as [m Hm]; [by eapply rbt_node_B|by right|].
  exists (plug k (node d false a x b)), m. split_and!; [done|done|]. apply elems_plug_eq, elems_colour.
Qed.

(** The last two cases of an iteration: the loop ends at the root. *)
Lemma dfix_end_spec t k d c p wa w wb T ca cb cT n :
  hole t (Frame d c p (node d false wa w wb) :: k) T -> rbt ca n wa -> rbt cb n wb -> ca || cb = true ->
  rbt cT n T -> kok c (S n + if c then 0 else 1) k ->
  exists t', (let '(t, w) := dfix_turn d t (rt T) w in let t := dfix_lift d t (rt T) w in (t, root t)) = (t', root t') /\
    repaired (elems (plug (Frame d c p (node d false wa w wb) :: k) T)) t' (root t').
Proof.
  intros Hh Ha Hb Hab HT Hk.
  destruct (turn_spec t k d c p wa w wb T ca cb n Hh Ha Hb Hab) as (t1 & A & v & B & ca' & -> & Hh1 & HA & HB & Hel).
  inversion HB as [|? bl b br Hbl Hbr|]; subst. pose proof (lift_spec t1 k d c p A v bl b br T Hh1) as Ht2.
  set (t2 := dfix_lift d t1 (rt T) v) in *. exists t2. split; [done|].
  assert (rbt false (S n) (node d false T p A)) as H1 by (by eapply rbt_node_B).
  assert (rbt false (S n) (N false bl b br)) as H2 by (by econstructor).
  set (T2 := node d c (node d false T p A) v (N false bl b br)) in *.
  assert (exists m, rbt false m (plug k T2)) as [m Hm].
  { destruct c.
    - rewrite Nat.add_0_r in Hk. eapply kok_plug; [exact Hk|by apply rbt_node_R|]. left. intros ->. by inversion Hk.
    - eapply kok_plug; [exact Hk|rewrite Nat.add_1_r; by eapply rbt_node_B|by right]. }
  assert (elems (plug (Frame d c p (node d false wa w wb) :: k) T) = elems (plug k T2)) as ->.
  { apply (elems_plug_eq k). unfold fill. simpl. rewrite (elems_node_eq d c false T T p _ (node d c A v (N true bl b br))).
    - rewrite <- elems_rotate. by apply elems_node_eq.
    - done.
    - rewrite <- Hel. apply elems_colour. }
  by eapply repaired_root.
Qed.

(** A sibling with black children is painted red. *)
Lemma paint_sibling_spec t k d c p wa w wb T :
  hole t (Frame d c p (node d false wa w wb) :: k) T ->
  let t' := set_red t w true in
  let T' := node d c T p (node d true wa w wb) in
  par t' (rt T) = p /\ is_tree t' (plug k T') /\
  elems (plug (Frame d c p (node d false wa w wb) :: k) T) = elems (plug k T').
Proof.
  intros Hh t' T'. pose proof (focus_sibling _ _ _ _ _ _ _ Hh) as Hf.
  pose proof (set_red_spec t _ d false wa w wb true Hf) as Hf2. destruct (read_node t _ d false wa w wb Hf) as [_ Hw].
  destruct (unfocus_sibling _ _ _ _ _ _ _ _ _ Hh Hf2 (set_red_nil t w true Hw)) as [H1 H2]. split_and!; [done|done|].
  apply (elems_plug_eq k). apply elems_node_eq; [done|apply elems_colour].
Qed.

Lemma delete_fixup_loop_spec fuel : forall t k T c n,
  hole t k T -> rbt c n T -> kok false (S n) k -> (length k + 1 < fuel)%nat ->
  exists t' x', rbtree_delete_fixup_loop fuel t (rt T) = Some (t', x') /\ repaired (elems (plug k T)) t' x'.
Proof.
  induction fuel as [|fuel IH]; intros t k T c n Hh HT Hk Hfuel; [lia|]. rewrite delete_fixup_unfold.
  pose proof (ho_tree _ _ _ Hh) as Ht. rewrite (read_red t k T Ht), (rbt_colour _ _ _ HT).
  destruct k as [|[d cf p s] k].
  { assert (rt T = root t) as E by (symmetry; apply Ht). rewrite E, Z.eqb_refl. exists t, (root t). split; [done|].
    by eapply repaired_root. }
  rewrite (proj2 (Z.eqb_neq _ _) (hole_not_root t _ k T Ht)). destruct c; cbn [negb andb].
  { inversion HT; subst. exists t, x. split; [done|]. eapply (repaired_black t _ L true l x r n); done. }
  assert (exists cs, rbt cs (S n) s) as [cs Hs] by (inversion Hk; subst; eauto).
  rewrite (ho_par _ _ _ Hh). simpl top.
  assert ((rt T =? left (heap t p)) = bool_decide (d = L)) as ->.
  { apply (hole_dir t (Frame d cf p s) k T L Ht). eapply rt_sib_ne; [exact Ht|]. right. simpl. by inversion Hs. }
  assert ((if bool_decide (d = L) then L else R) = d) as -> by (by destruct d).
  unfold dfix_step.
  destruct (sibling_spec t k d cf p s T n Hh Hk) as (t1 & c1 & s1 & k1 & -> & Hh1 & Hs1 & Hk1 & Hkk & Hel). rewrite <- Hel.
  inversion Hs1 as [| |? ca cb l w r Hl Hr]; subst. destruct (node_cases d false l w r) as (wa & wb & Es).
  assert (exists ca cb, rbt ca n wa /\ rbt cb n wb) as (ca' & cb' & Hwa & Hwb) by (destruct d; injection Es as <- <-; eauto).
  rewrite Es in *. rewrite rt_node. pose proof (focus_sibling _ _ _ _ _ _ _ Hh1) as Hf1.
  destruct (read_child t1 _ d false wa w wb Hf1) as [-> ->]. destruct (read_red_child t1 _ d false wa w wb Hf1) as [-> ->].
  rewrite (rbt_colour _ _ _ Hwa), (rbt_colour _ _ _ Hwb).
  assert (kok c1 (S n + if c1 then 0 else 1) k1) as Hkc.
  { inversion Hk1; subst; [by rewrite Nat.add_0_r|by rewrite Nat.add_1_r]. }
  destruct (ca' || cb') eqn:Eab.
  - assert (negb ca' && negb cb' = false) as -> by (by destruct ca', cb').
    destruct (dfix_end_spec t1 k1 d c1 p wa w wb T ca' cb' false n Hh1 Hwa Hwb Eab HT Hkc) as (t2 & E2 & Hrep).
    revert E2. destruct (dfix_turn d t1 (rt T) w) as [t1' w']. intros E2. injection E2 as -> _.
    exists t2, (root t2). split; [|done]. destruct fuel; [simpl in Hfuel; lia|]. rewrite delete_fixup_unfold. by rewrite Z.eqb_refl.
  - apply orb_false_iff in Eab as [-> ->]. cbn [negb andb].
    destruct (paint_sibling_spec t1 k1 d c1 p wa w wb T Hh1) as (Hp2 & Ht2 & ->). cbv zeta. rewrite Hp2.
    set (t2 := set_red t1 w true) in *. set (T2 := node d c1 T p (node d true wa w wb)) in *.
    assert (rbt true n (node d true wa w wb)) as Hrw by (by apply rbt_node_R).
    destruct c1.
    + rewrite Nat.add_0_r in Hkc. exists t2, p. split; [|by eapply repaired_black; [exact Ht2|done|done|by apply kok_false in Hkc]].
      destruct fuel; [simpl in Hfuel; lia|]. rewrite delete_fixup_unfold.
      assert (is_red t2 p = true) as ->; [|by rewrite andb_false_r].
      unfold is_red. destruct (read_node t2 k1 d true T p _ Ht2) as [-> _]. by destruct d.
    + rewrite (Hkk eq_refl) in *. rewrite Nat.add_1_r in Hkc.
      assert (rbt false (S n) T2) as HT2 by (by eapply rbt_node_B).
      destruct (IH t2 k T2 false (S n)) as (t3 & x3 & E3 & H3); [|done|done|simpl in Hfuel; lia|].
      { split; [done|]. apply read_par; [done|]. unfold T2. by destruct d. }
      unfold T2 in E3 at 1. rewrite rt_node in E3. exists t3, x3. done.
Qed.

Lemma delete_fixup_spec fuel t k T c n :
  hole t k T -> rbt c n T -> kok false (S n) k -> (length k + 1 < fuel)%nat ->
  exists t', rbtree_delete_fixup fuel t (rt T) = Some t' /\ rb_tree t' (elems (plug k T)).
Proof.
  intros Hh HT Hk Hf. destruct (delete_fixup_loop_spec fuel t k T c n Hh HT Hk Hf) as (t' & x & E & Hr).
  unfold rbtree_delete_fixup. rewrite E. simpl. eauto.
Qed.

(** ** Transplants *)

Lemma top_in f k : top (f :: k) ∈ knodes (f :: k).
Proof. unfold knodes. simpl. constructor. Qed.

Lemma knodes_ne h k v : krep h k v -> forall x, x ∈ knodes k -> x <> nil.
Proof.
  revert v. induction k as [|f k IH]; intros v; [set_solver|]. intros (Hne & _ & Hs & Hk) x Hx.
  unfold knodes in Hx. simpl in Hx. apply elem_of_cons in Hx as [->|[Hx|Hx]%elem_of_app]; [done| |by eapply IH].
  by apply (rep_elems_ne _ _ _ Hs).
Qed.

(** [v] takes the place of [u] below [u]'s parent. *)
Record transplanted (t t' : rbtree) (k : ctx) (v : Z) : Prop := {
  tr_root : root t' = rehole_root t k v;
  tr_v : heap t' v = with_parent (top k) (heap t v);
  tr_k f k' : k = f :: k' -> heap t' (f_node f) = with_child (f_dir f) v (heap t (f_node f));
  tr_other x : x <> v -> (x = top k -> k = []) -> heap t' x = heap t x
}.

Lemma transplant_heap t u v k :
  krep (heap t) k u -> par t u = top k -> u <> nil -> u ∉ knodes k -> (v = nil \/ v ∉ knodes k) ->
  transplanted t (rbtree_transplant t u v) k v.
Proof.
  intros Hk Hp Hu Hn Hv. pose proof (top_ne k u Hu Hn) as Dku.
  change (rbtree_transplant t u v) with
    (let t1 := relink L t u v (par t u) in modify t1 v (with_parent (par t1 u))). rewrite Hp.
  destruct (relink_spec L t u v k Hk Hu Hn) as (R1 & E1 & E1k & E1n). set (t1 := relink L t u v (top k)) in *. clearbody t1.
  cbv zeta. assert (par t1 u = top k) as -> by (unfold par in *; by rewrite E1).
  assert (Dv : forall f k', k = f :: k' -> v <> f_node f).
  { intros f k' ->. destruct Hv as [->|Hv]; [by destruct Hk as (? & _)|]. intros ->. apply Hv, (top_in f k'). }
  split.
  - by rewrite root_modify.
  - hp. destruct k as [|f k]; [by rewrite E1n|]. rewrite E1; [done|]. by apply (Dv f k).
  - intros f k' Hf. pose proof (Dv f k' Hf). hp. by apply (E1k f k').
  - intros x Hx Hxk. hp. destruct (decide (x = top k)) as [Ex|Ex]; [by rewrite (E1n (Hxk Ex))|]. by apply E1.
Qed.

Lemma transplanted_krep t t' k u v :
  transplanted t t' k v -> krep (heap t) k u -> NoDup (knodes k) -> (v = nil \/ v ∉ knodes k) -> krep (heap t') k v.
Proof.
  intros [_ _ Hk' Ho] Hk Hnd Hv. eapply krep_rehole; [exact Hk|done| |exact Hk'].
  intros x Hx Hxt. apply Ho; [|done]. intros ->. destruct Hv as [->|Hv]; [|done].
  by apply (knodes_ne _ _ _ Hk nil).
Qed.

(** Removing a node with at most one child: the child moves up. *)
Lemma one_child_spec t k d c T z :
  is_tree t (plug k (node d c T z E)) -> hole (rbtree_transplant t z (rt T)) k T.
Proof.
  intros Ht. destruct (read_node t k d c T z E Ht) as [Ez Hz].
  pose proof (read_par t k _ Ht ltac:(by destruct d)) as Hp. rewrite rt_node in Hp.
  destruct Ht as [Hroot Hrep Hnd Hnil]. apply rep_plug in Hrep as [Hrep Hk]. rewrite rt_node in Hk.
  apply rep_node in Hrep as (_ & _ & HT & _). rewrite elems_plug, elems_node in Hnd. simpl in Hnd. rewrite app_nil_r in Hnd.
  apply NoDup_cons in Hnd as [Hzn Hnd]. rewrite not_elem_of_app in Hzn. destruct Hzn as [HzT Hzk].
  apply NoDup_app in Hnd as (HndT & Hd & Hndk).
  assert (rt T = nil \/ rt T ∉ knodes k) as Hv by (destruct (decide (rt T = nil)); [by left|right; by apply Hd, rt_in]).
  pose proof (transplant_heap t z (rt T) k Hk Hp Hz Hzk Hv) as Htr.
  pose proof (transplanted_krep t _ k z (rt T) Htr Hk Hndk Hv) as Hk'. destruct Htr as [R1 R2 R3 R4].
  split; [|unfold par; by rewrite R2]. split.
  - rewrite R1. unfold rehole_root. destruct k; [done|]. rewrite Hroot. apply rt_plug.
  - apply rep_plug. split; [|done]. eapply rep_reparent; [exact HT|done| |done].
    intros x Hx Hxr. apply R4; [done|]. intros ->. destruct k as [|f k]; [done|]. exfalso. apply (Hd _ Hx), top_in.
  - rewrite elems_plug. by apply NoDup_app.
  - destruct (decide (nil = rt T)) as [E|E]; [rewrite E, R2; simpl; by rewrite <- E|]. rewrite R4; [done|done|].
    intros Ek. destruct k as [|f k]; [done|]. by destruct Hk as (? & _).
Qed.

(** ** Removing a node with two children *)

Lemma plug_app k1 k2 T : plug (k1 ++ k2) T = plug k2 (plug k1 T).
Proof. apply foldl_app. Qed.

(** The successor [y] of [z] has been cut out and holds the remaining right
    subtree [Rr]; [z] is still in its place. *)
Record swap_ready (t : rbtree) (k : ctx) (c : bool) (l : tree) (z y : Z) (Rr : tree) : Prop := {
  sr_root : root t = rt (plug k (N c l z E));
  sr_y : y <> nil /\ right (heap t y) = rt Rr;
  sr_z : z <> nil /\ parent (heap t z) = top k /\ left (heap t z) = rt l /\ red (heap t z) = c;
  sr_R : rep (heap t) y Rr;
  sr_l : rep (heap t) z l /\ l <> E;
  sr_k : krep (heap t) k z;
  sr_nd : NoDup (y :: z :: elems l ++ elems Rr ++ knodes k);
  sr_nil : red (heap t nil) = false
}.

(** The end of [jlos_rbtree_remove]: [y] takes [z]'s place. *)
Definition swap (t : rbtree) (z y : Z) : rbtree :=
  let t := rbtree_transplant t z y in
  let t := modify t y (with_left (left (heap t z))) in
  let t := modify t (left (heap t y)) (with_parent y) in
  set_red t y (is_red t z).

Lemma swap_spec t k c l z y Rr :
  swap_ready t k c l z y Rr -> is_tree (swap t z y) (plug k (N c l y Rr)) /\ heap (swap t z y) nil = heap t nil.
Proof.
  intros [Hroot [Hy Hyr] (Hz & Hzp & Hzl & Hzc) HR [Hl Hle] Hk Hnd Hnil].
  apply NoDup_cons in Hnd as [[Dyz Ny]%not_elem_of_cons [Nz Hnd]%NoDup_cons]. rewrite !not_elem_of_app in Ny, Nz.
  destruct Ny as (Nyl & NyR & Nyk), Nz as (Nzl & NzR & Nzk).
  apply NoDup_app in Hnd as (Ndl & Dl & Hnd). apply NoDup_app in Hnd as (NdR & DR & Ndk).
  setoid_rewrite not_elem_of_app in Dl.
  pose proof (transplant_heap t z y k Hk Hzp Hz Nzk (or_intror Nyk)) as Htr.
  pose proof (transplanted_krep t _ k z y Htr Hk Ndk (or_intror Nyk)) as Hk1. destruct Htr as [R1 R2 R3 R4].
  unfold swap. set (t1 := rbtree_transplant t z y) in *. clearbody t1.
  assert (Htop : forall x, x <> nil -> x ∉ knodes k -> x = top k -> k = []).
  { intros x Hx Hn ->. destruct k; [done|]. by destruct Hn; apply top_in. }
  assert (heap t1 z = heap t z) as Ez by (apply R4; [congruence|by apply Htop]). rewrite Ez, Hzl.
  set (t2 := modify t1 y (with_left (rt l))).
  assert (left (heap t2 y) = rt l) as -> by (unfold t2; by hp).
  set (t3 := modify t2 (rt l) (with_parent y)).
  assert (rt l <> nil /\ rt l ∈ elems l) as [Hln Hlin].
  { assert (rt l <> nil) by (intros E; by apply Hle, (rt_E _ _ _ Hl)). split; [done|by apply rt_in]. }
  assert (rt l <> y /\ rt l <> z) as [Dly Dlz] by (split; congruence).
  assert (is_red t3 z = c) as ->.
  { unfold is_red, t3, t2. hp. by rewrite Ez. }
  set (t4 := set_red t3 y c).
  assert (Ey : heap t4 y = RBNode (top k) (rt l) (rt Rr) c).
  { unfold t4, set_red, t3, t2. hp. rewrite R2. by rewrite <- Hyr. }
  assert (El : heap t4 (rt l) = with_parent y (heap t (rt l))).
  { unfold t4, set_red, t3, t2. hp. rewrite R4; [done|done|]. apply Htop; [done|by destruct (Dl _ Hlin)]. }
  assert (Eo : forall x, x <> y -> x <> rt l -> heap t4 x = heap t1 x).
  { intros x H1 H2. unfold t4, set_red, t3, t2. by hp. }
  assert (Enil : heap t4 nil = heap t nil).
  { rewrite Eo by congruence. apply R4; [congruence|]. intros E. destruct k; [done|]. by destruct Hk as (? & _). }
  assert (root t4 = root t1) as R5 by done. clearbody t4. split; [|done]. split.
  - rewrite R5, R1. unfold rehole_root. destruct k; [done|]. rewrite Hroot. apply rt_plug.
  - apply rep_plug. split; [|simpl; eapply krep_ext; [|exact Hk1]].
    + split_and!; [done|done| |].
      * eapply rep_reparent; [exact Hl|done| |done]. intros x Hx Hxr. rewrite Eo by congruence.
        apply R4; [congruence|]. apply Htop; [exact (rep_elems_ne _ _ _ Hl x Hx)|by destruct (Dl x Hx)].
      * eapply rep_ext; [|exact HR]. intros x Hx.
        assert (x <> rt l) by (intros ->; by destruct (Dl _ Hlin)). rewrite Eo by congruence.
        apply R4; [congruence|]. apply Htop; [exact (rep_elems_ne _ _ _ HR x Hx)|by apply DR].
    + intros x Hx. apply Eo; [congruence|]. intros ->. by destruct (Dl _ Hlin).
  - rewrite elems_plug. simpl. rewrite <- app_assoc. simpl. rewrite <- Permutation_middle. apply NoDup_cons.
    rewrite !not_elem_of_app. split; [done|]. apply NoDup_app. split_and!; [done| |by apply NoDup_app].
    intros x Hx. rewrite not_elem_of_app. by apply Dl.
  - by rewrite Enil.
Qed.

(** Cutting the successor out: it is the right child of [z]. *)
Lemma cut_near_spec t k c l z cy y yr :
  is_tree t (plug k (N c l z (N cy E y yr))) -> l <> E ->
  swap_ready (modify t (rt yr) (with_parent y)) k c l z y yr /\ par (modify t (rt yr) (with_parent y)) (rt yr) = y.
Proof.
  intros Ht Hl. pose proof Ht as [Hroot Hrep Hnd Hnil]. apply rep_plug in Hrep as [Hrep Hk].
  destruct Hrep as (Hz & Ez & Rl & Hy & Ey & _ & Ryr). simpl rt in *.
  rewrite elems_plug in Hnd. simpl in Hnd. rewrite <- app_assoc in Hnd. simpl in Hnd.
  assert (NoDup (y :: z :: elems l ++ elems yr ++ knodes k)) as Hd.
  { eapply NoDup_Permutation_proper; [|exact Hnd]. solve_Permutation. }
  assert (forall x, heap (modify t (rt yr) (with_parent y)) x = heap t x \/
    x = nil /\ heap (modify t (rt yr) (with_parent y)) x = with_parent y (heap t x)) as He.
  { intros x. rewrite heap_modify. case_decide; [subst x|by left]. destruct yr as [|c0 l0 x0 r0]; [by right|left].
    destruct Ryr as (_ & E & _). simpl rt. rewrite E. done. }
  assert (forall x, x <> nil -> heap (modify t (rt yr) (with_parent y)) x = heap t x) as Hne by (intros x Hx; destruct (He x); tauto).
  split; [|unfold par; by hp]. split.
  - rewrite root_modify, Hroot. destruct k; [done|]. apply rt_plug.
  - rewrite Hne by done. by rewrite Ey.
  - rewrite Hne by done. by rewrite Ez.
  - eapply rep_ext; [|exact Ryr]. intros x Hx. apply Hne, (rep_elems_ne _ _ _ Ryr x Hx).
  - split; [|done]. eapply rep_ext; [|exact Rl]. intros x Hx. apply Hne, (rep_elems_ne _ _ _ Rl x Hx).
  - eapply krep_ext; [|exact Hk]. intros x Hx. apply Hne, (knodes_ne _ _ _ Hk x Hx).
  - done.
  - destruct (He nil) as [->|[_ ->]]; done.
Qed.

(** Cutting the successor out from deeper in the right subtree. *)
Lemma cut_far_spec t k c l z f ky cy y yr :
  is_tree t (plug (f :: ky ++ Frame R c z l :: k) (N cy E y yr)) -> l <> E ->
  let t1 := rbtree_transplant t y (rt yr) in
  let t2 := modify t1 y (with_right (right (heap t1 z))) in
  let t3 := modify t2 (right (heap t2 y)) (with_parent y) in
  swap_ready t3 k c l z y (plug (f :: ky) yr) /\ (yr = E -> par t3 nil = f_node f).
Proof.
  intros Ht Hl t1 t2 t3. set (K := f :: ky ++ Frame R c z l :: k) in *.
  assert (Hy0 : y <> nil) by (destruct (read_node t K R cy yr y E Ht); done).
  pose proof (it_nodup _ _ Ht) as Hnd. rewrite elems_plug in Hnd. simpl in Hnd. apply NoDup_cons in Hnd as [Hyn _].
  rewrite not_elem_of_app in Hyn. destruct Hyn as [Hyyr HyK].
  destruct (one_child_spec t K R cy yr y Ht) as [Ht1 Hp1]. fold t1 in Ht1, Hp1.
  set (R' := plug (f :: ky) yr).
  assert (plug K yr = plug k (N c l z R')) as EK by (unfold K; rewrite app_comm_cons, plug_app; done). rewrite EK in Ht1.
  assert (y ∉ elems (plug k (N c l z R'))) as Hyn by (rewrite <- EK, elems_plug, not_elem_of_app; done).
  assert (R' <> E) as HR'.
  { unfold R'. rewrite plug_cons. intros E. assert (f_node f ∈ elems (plug ky (fill yr f))) as Hin; [|rewrite E in Hin; set_solver].
    rewrite elems_plug. unfold fill. rewrite elems_node. set_solver. }
  destruct (read_node t1 k L c l z R' Ht1) as [Ez Hz]. destruct Ht1 as [Hroot Hrep Hnd Hnil]. clearbody t1.
  apply rep_plug in Hrep as [(_ & _ & Rl & RR) Hk]. simpl rt in Hk.
  rewrite elems_plug in Hyn, Hnd. simpl in Hyn, Hnd. rewrite <- app_assoc in Hyn, Hnd. simpl in Hyn, Hnd.
  assert (NoDup (y :: z :: elems l ++ elems R' ++ knodes k)) as Hd.
  { apply NoDup_cons. split; [rewrite not_elem_of_cons, !not_elem_of_app in *; set_solver|].
    eapply NoDup_Permutation_proper; [|exact Hnd]. solve_Permutation. }
  assert (right (heap t1 z) = rt R') as Er by (by rewrite Ez). unfold t3, t2. rewrite Er.
  assert (right (heap (modify t1 y (with_right (rt R'))) y) = rt R') as -> by (by hp).
  pose proof Hd as [[Dyz Ny]%not_elem_of_cons [Nz Hd']%NoDup_cons]%NoDup_cons. rewrite !not_elem_of_app in Ny, Nz.
  assert (rt R' <> nil) as HRn by (intros E; by apply HR', (rt_E _ _ _ RR)).
  assert (rt R' ∈ elems R') as HRin by (by apply rt_in).
  assert (rt R' <> y /\ rt R' <> z) as [DRy DRz] by (split; intros E; rewrite E in HRin; tauto).
  apply NoDup_app in Hd' as (_ & Dl & Hd'). apply NoDup_app in Hd' as (NdR & DR & _). setoid_rewrite not_elem_of_app in Dl.
  set (t4 := modify (modify t1 y (with_right (rt R'))) (rt R') (with_parent y)).
  assert (E4y : right (heap t4 y) = rt R') by (unfold t4; by hp).
  assert (E4R : heap t4 (rt R') = with_parent y (heap t1 (rt R'))) by (unfold t4; by hp).
  assert (E4 : forall x, x <> y -> x <> rt R' -> heap t4 x = heap t1 x) by (intros x H1 H2; unfold t4; by hp).
  assert (root t4 = root t1) as R4 by done. clearbody t4. split; [split|].
  - rewrite R4, Hroot. destruct k; [done|]. apply rt_plug.
  - done.
  - rewrite E4 by congruence. by rewrite Ez.
  - eapply rep_reparent; [exact RR|done| |done]. intros x Hx Hxr. apply E4; [|done]. intros ->. tauto.
  - split; [|done]. eapply rep_ext; [|exact Rl]. intros x Hx. apply E4; intros ->; [tauto|]. by destruct (Dl _ Hx).
  - eapply krep_ext; [|exact Hk]. intros x Hx. apply E4; intros ->; [tauto|]. by apply (DR _ HRin).
  - done.
  - rewrite E4 by congruence. done.
  - intros ->. unfold par in *. simpl in Hp1. rewrite E4 by congruence. exact Hp1.
Qed.

(** ** Removal *)

Definition all_dir (d : dir) (k : ctx) : Prop := Forall (fun f => f_dir f = d) k.

(** The leftmost node of a subtree, with the path of left children to it. *)
Lemma minimum_spec t fuel : forall k T,
  is_tree t (plug k T) -> T <> E -> (length (elems T) <= fuel)%nat ->
  exists ky cy y yr, rbtree_minimum fuel t (rt T) = Some y /\ T = plug ky (N cy E y yr) /\ all_dir L ky.
Proof.
  induction fuel as [|fuel IH]; intros k T Ht HT Hf; (destruct T as [|c l x r]; [done|]); simpl in Hf; rewrite length_app in Hf; simpl in Hf; [lia|].
  cbn [rbtree_minimum]. destruct (read_node t k L c l x r Ht) as [Ex _]. simpl rt. rewrite Ex. cbn [left mk].
  destruct l as [|c0 l0 x0 r0] eqn:El.
  - simpl. exists [], c, x, r. split_and!; [done|done|constructor].
  - rewrite <- El in *. destruct (read_node t (Frame L c x r :: k) L c0 l0 x0 r0) as [_ Hx0]; [by rewrite El in Ht|].
    assert (rt l = x0) as Erl by (by rewrite El). rewrite Erl, (proj2 (Z.eqb_neq _ _) Hx0), <- Erl.
    destruct (IH (Frame L c x r :: k) l Ht) as (ky & cy & y & yr & -> & E & Hky); [by rewrite El|lia|].
    exists (ky ++ [Frame L c x r]), cy, y, yr. rewrite plug_app, <- E. split_and!; [done|done|].
    apply Forall_app. split; [done|]. by repeat constructor.
Qed.

Lemma kleft_L k : all_dir L k -> kleft k = [].
Proof.
  induction 1 as [|f k Hf _ IH]; [done|]. unfold kleft in *. simpl. rewrite IH. unfold before. by rewrite Hf.
Qed.

Lemma rbt_unplug k : forall T n, rbt false n (plug k T) -> exists c m, kok c m k /\ rbt c m T.
Proof.
  enough (forall T c n k0, rbt c n (plug k T) -> kok c n k0 -> exists c' m, kok c' m (k ++ k0) /\ rbt c' m T) as H.
  { intros T n HT. destruct (H T false n [] HT (kok_nil n)) as (c & m & H1 & H2). rewrite app_nil_r in H1. eauto. }
  induction k as [|[d cf x s] k IH]; intros T c n k0 HT Hk; [by exists c, n|].
  destruct (IH _ _ _ _ HT Hk) as (c' & m & Hk' & HT'). unfold fill in HT'. simpl in *.
  destruct d; inversion HT'; subst; eexists _, _; (split; [|eassumption]); by econstructor.
Qed.

Lemma kok_rename c n ky d cf x y s k :
  kok c n (ky ++ Frame d cf x s :: k) -> kok c n (ky ++ Frame d cf y s :: k).
Proof.
  revert c n. induction ky as [|f ky IH]; intros c n Hk; simpl in *; inversion Hk; subst; econstructor; eauto.
Qed.

Lemma locate T x : x ∈ elems T -> exists k c l r, T = plug k (N c l x r).
Proof.
  induction T as [|c l IHl y r IHr]; simpl; [set_solver|]. intros [Hx|[->|Hx]%elem_of_cons]%elem_of_app.
  - destruct (IHl Hx) as (k & c' & l' & r' & E). exists (k ++ [Frame L c y r]), c', l', r'. by rewrite plug_app, <- E.
  - by exists [], c, l, r.
  - destruct (IHr Hx) as (k & c' & l' & r' & E). exists (k ++ [Frame R c y l]), c', l', r'. by rewrite plug_app, <- E.
Qed.

(** The pointer surgery of a removal: node [z] leaves the tree; the hole that is
    left has lost a black level exactly when the removed position was black. *)
Definition removed_hole (t : rbtree) (x : Z) (was_red : bool) (l1 l2 : list Z) : Prop :=
  exists k T c n, hole t k T /\ x = rt T /\ rbt c n T /\ elems (plug k T) = l1 ++ l2 /\
    if was_red then kok c n k else kok false (S n) k.

Lemma removed_one t k d cz T z n :
  is_tree t (plug k (node d cz T z E)) -> rbt false n (plug k (node d cz T z E)) ->
  removed_hole (rbtree_transplant t z (rt T)) (rt T) (is_red t z)
    (match d with L => kleft k ++ elems T | R => kleft k end) (match d with L => kright k | R => elems T ++ kright k end).
Proof.
  intros Ht Hrb. pose proof (one_child_spec t k d cz T z Ht) as Hh. destruct (rbt_unplug k _ n Hrb) as (c & m & Hk & HT).
  assert (is_red t z = cz) as ->.
  { unfold is_red. destruct (read_node t k d cz T z E Ht) as [-> _]. by destruct d. }
  assert (elems (plug k T) = (match d with L => kleft k ++ elems T | R => kleft k end) ++
    (match d with L => kright k | R => elems T ++ kright k end)) as Hel.
  { rewrite elems_split. destruct d; [by rewrite app_assoc|done]. }
  destruct cz.
  - exists k, T, false, m. split_and!; [done|done| |done|]; destruct d; inversion HT; subst; done || by eapply kok_false.
  - assert (exists c' m', rbt c' m' T /\ m = S m' /\ c = false) as (c' & m' & HT' & -> & ->) by (destruct d; inversion HT; subst; eauto).
    by exists k, T, c', m'.
Qed.

(** The first half of the two-children case. *)
Definition cut_successor (t : rbtree) (z y : Z) : rbtree :=
  if par t y =? z then modify t (right (heap t y)) (with_parent y)
  else let t := rbtree_transplant t y (right (heap t y)) in
       let t := modify t y (with_right (right (heap t z))) in
       modify t (right (heap t y)) (with_parent y).

Lemma cut_successor_spec t k c l z ky cy y yr :
  is_tree t (plug (ky ++ Frame R c z l :: k) (N cy E y yr)) -> l <> E ->
  let t' := cut_successor t z y in
  right (heap t y) = rt yr /\ is_red t y = cy /\
  swap_ready t' k c l z y (plug ky yr) /\ (yr = E -> par t' nil = top (ky ++ Frame R c y l :: k)).
Proof.
  intros Ht Hl t'. destruct (read_node t _ R cy yr y E Ht) as [Ey Hy]. split; [by rewrite Ey|].
  split; [unfold is_red; by rewrite Ey|]. unfold t', cut_successor.
  assert (right (heap t y) = rt yr) as -> by (by rewrite Ey).
  assert (par t y = top (ky ++ Frame R c z l :: k)) as -> by exact (read_par t _ (N cy E y yr) Ht ltac:(done)).
  destruct ky as [|f ky].
  - simpl. rewrite Z.eqb_refl. destruct (cut_near_spec t k c l z cy y yr Ht Hl) as [H1 H2]. split; [done|]. by intros ->.
  - change (top ((f :: ky) ++ _ :: k)) with (f_node f). assert (f_node f <> z) as Hne.
    { pose proof (it_nodup _ _ Ht) as Hnd. rewrite elems_plug in Hnd. apply NoDup_app in Hnd as (_ & _ & Hnd).
      unfold knodes in Hnd. rewrite <- app_comm_cons in Hnd. simpl in Hnd. apply NoDup_cons in Hnd as [Hn _]. intros E. apply Hn.
      rewrite map_app, concat_app, E. simpl. set_solver. }
    rewrite (proj2 (Z.eqb_neq _ _) Hne). exact (cut_far_spec t k c l z f ky cy y yr Ht Hl).
Qed.

Lemma removed_two t k c l z ky cy y yr n :
  is_tree t (plug k (N c l z (plug ky (N cy E y yr)))) -> rbt false n (plug k (N c l z (plug ky (N cy E y yr)))) ->
  l <> E -> all_dir L ky ->
  removed_hole (swap (cut_successor t z y) z y) (right (heap t y)) (is_red t y)
    (kleft k ++ elems l) (elems (plug ky (N cy E y yr)) ++ kright k).
Proof.
  intros Ht Hrb Hl Hky. set (K := ky ++ Frame R c z l :: k).
  assert (EK : forall x T, plug (ky ++ Frame R c x l :: k) T = plug k (N c l x (plug ky T))) by (intros; by rewrite plug_app).
  rewrite <- EK in Ht, Hrb. destruct (cut_successor_spec t k c l z ky cy y yr Ht Hl) as (-> & -> & Hsr & Hnil).
  destruct (swap_spec _ _ _ _ _ _ _ Hsr) as [Ht' Hn']. rewrite <- EK in Ht'.
  set (t' := swap (cut_successor t z y) z y) in *. set (K' := ky ++ Frame R c y l :: k) in *.
  assert (hole t' K' yr) as Hh.
  { split; [done|]. destruct yr as [|c0 l0 x0 r0]; [|by apply read_par]. unfold par in *. simpl rt. rewrite Hn'. by apply Hnil. }
  destruct (rbt_unplug _ _ n Hrb) as (c1 & m & Hk & HT). apply (kok_rename _ _ ky R c z y l k) in Hk. fold K' in Hk.
  assert (elems (plug K' yr) = (kleft k ++ elems l) ++ elems (plug ky (N cy E y yr)) ++ kright k) as Hel.
  { unfold K'. rewrite EK, !elems_split. simpl. rewrite (kleft_L ky Hky). simpl. rewrite elems_split, (kleft_L ky Hky). simpl.
    rewrite <- !app_assoc. simpl. by rewrite <- !app_assoc. }
  destruct cy.
  - inversion HT; subst. exists K', yr, false, m. split_and!; [done|done|done|done|]. by eapply kok_false.
  - inversion HT as [| |m' ca cb ? ? ? Ha Hb]; subst. exists K', yr, cb, m'. done.
Qed.

Lemma split_unique {A} (x : A) : forall l1 l2 a b, NoDup (l1 ++ x :: l2) -> l1 ++ x :: l2 = a ++ x :: b -> l1 = a /\ l2 = b.
Proof.
  induction l1 as [|y l1 IH]; intros l2 a b Hnd E; (destruct a as [|z a]; simpl in *); simplify_eq.
  - done.
  - apply NoDup_cons in Hnd as [Hn _]. set_solver.
  - apply NoDup_cons in Hnd as [Hn _]. set_solver.
  - apply NoDup_cons in Hnd as [_ Hnd]. destruct (IH l2 a b Hnd) as [-> ->]; done.
Qed.

(** The three cases of [jlos_rbtree_remove] before the repair. *)
Lemma remove_surgery fuel t T n z :
  is_tree t T -> rbt false n T -> z ∈ elems T -> (length (elems T) < fuel)%nat ->
  exists t' x wr l1 l2, elems T = l1 ++ z :: l2 /\ removed_hole t' x wr l1 l2 /\
    jlos_rbtree_remove fuel t z = if (wr : bool) then Some t' else rbtree_delete_fixup fuel t' x.
Proof.
  intros Ht Hrb Hz Hf. destruct (locate T z Hz) as (k & c & l & r & ->).
  destruct (read_node t k L c l z r Ht) as [Ez _]. unfold jlos_rbtree_remove. rewrite Ez. cbn [left right mk].
  assert (Hnil : forall T', rep (heap t) z T' -> (rt T' =? nil) = match T' with E => true | _ => false end).
  { intros [|c' l' x' r'] HT'; [done|]. destruct HT' as (? & _). by apply Z.eqb_neq. }
  pose proof (it_rep _ _ Ht) as Hrep. apply rep_plug in Hrep as [(_ & _ & Rl & Rr) _]. rewrite !Hnil by done.
  assert (Hsplit : elems (plug k (N c l z r)) = (kleft k ++ elems l) ++ z :: elems r ++ kright k).
  { rewrite elems_split. simpl. rewrite <- !app_assoc. simpl. done. }
  destruct l as [|cl ll xl rl] eqn:El; [|destruct r as [|cr lr xr rr] eqn:Er].
  - pose proof (removed_one t k R c r z n Ht Hrb) as Hrm. cbn [mbind option_bind].
    eexists _, _, _, _, _. split; [exact Hsplit|]. rewrite app_nil_r. by split; [exact Hrm|].
  - rewrite <- El in *. pose proof (removed_one t k L c l z n Ht Hrb) as Hrm. cbn [mbind option_bind].
    eexists _, _, _, _, _. split; [exact Hsplit|]. by split; [exact Hrm|].
  - rewrite <- Er, <- El in *.
    destruct (minimum_spec t fuel (Frame R c z l :: k) r Ht) as (ky & cy & y & yr & -> & -> & Hky);
      [by rewrite Er|rewrite Hsplit, !length_app in Hf; simpl in Hf; rewrite length_app in Hf; lia|].
    pose proof (removed_two t k c l z ky cy y yr n Ht Hrb ltac:(by rewrite El) Hky) as Hrm. cbn [mbind option_bind].
    eexists _, _, _, _, _. split; [exact Hsplit|]. split; [exact Hrm|]. reflexivity.
Qed.

Lemma rbtree_remove_spec (t : rbtree) (l1 l2 : list Z) (z : Z) (fuel : nat) :
  rb_tree t (l1 ++ z :: l2) -> (length (l1 ++ z :: l2) < fuel)%nat ->
  exists t', jlos_rbtree_remove fuel t z = Some t' /\ rb_tree t' (l1 ++ l2).
Proof.
  intros (T & n & Ht & Hrb & E) Hf. assert (z ∈ elems T) as Hz by (rewrite E; set_solver). rewrite <- E in Hf.
  destruct (remove_surgery fuel t T n z Ht Hrb Hz Hf) as (t1 & x & wr & a & b & Es & (k & T1 & c & m & Hh & -> & HT1 & Hel & Hk) & ->).
  destruct (split_unique z l1 l2 a b) as [-> ->]; [rewrite <- E; apply Ht|congruence|]. rewrite <- Hel. destruct wr.
  - exists t1. split; [done|]. destruct (kok_plug k c m T1 Hk HT1) as [m' Hm'].
    { destruct k as [|f k]; [right|by left]. by inversion Hk. }
    exists (plug k T1), m'. split_and!; [apply Hh|done|done].
  - destruct (delete_fixup_spec fuel t1 k T1 c m Hh HT1 Hk) as (t' & -> & Ht'); [|by exists t'].
    pose proof (ctx_length k T1) as Hlen. rewrite Hel in Hlen. rewrite Es in Hf. rewrite !length_app in *. simpl in *. lia.
Qed.

(** C20. Removing a node of a balanced tree terminates and yields a balanced tree
    whose in-order sequence is the old one without that node: nothing else is lost,
    added or reordered. *)
Theorem rbtree_remove_correct (t : rbtree) (l1 l2 : list Z) (z : Z) (fuel : nat) :
  rb_tree t (l1 ++ z :: l2) -> (length (l1 ++ z :: l2) < fuel)%nat ->
  exists t', jlos_rbtree_remove fuel t z = Some t' /\ rb_tree t' (l1 ++ l2).
Proof. apply rbtree_remove_spec. Qed.

(** ** Traversal *)

Lemma maximum_spec t fuel : forall k T,
  is_tree t (plug k T) -> T <> E -> (length (elems T) <= fuel)%nat ->
  exists ky cy y yl, rbtree_maximum fuel t (rt T) = Some y /\ T = plug ky (N cy yl y E) /\ all_dir R ky.
Proof.
  induction fuel as [|fuel IH]; intros k T Ht HT Hf; (destruct T as [|c l x r]; [done|]); simpl in Hf; rewrite length_app in Hf; simpl in Hf; [lia|].
  cbn [rbtree_maximum]. destruct (read_node t k L c l x r Ht) as [Ex _]. simpl rt. rewrite Ex. cbn [right mk].
  destruct r as [|c0 l0 x0 r0] eqn:Er.
  - simpl. exists [], c, x, l. split_and!; [done|done|constructor].
  - rewrite <- Er in *. destruct (read_node t (Frame R c x l :: k) L c0 l0 x0 r0) as [_ Hx0]; [by rewrite Er in Ht|].
    assert (rt r = x0) as Err by (by rewrite Er). rewrite Err, (proj2 (Z.eqb_neq _ _) Hx0), <- Err.
    destruct (IH (Frame R c x l :: k) r Ht) as (ky & cy & y & yl & -> & E & Hky); [by rewrite Er|lia|].
    exists (ky ++ [Frame R c x l]), cy, y, yl. rewrite plug_app, <- E. split_and!; [done|done|].
    apply Forall_app. split; [done|]. by repeat constructor.
Qed.

Lemma kright_R k : all_dir R k -> kright k = [].
Proof.
  induction 1 as [|f k Hf _ IH]; [done|]. unfold kright in *. simpl. rewrite IH. unfold after. by rewrite Hf.
Qed.

Lemma minimum_head t k T fuel :
  is_tree t (plug k T) -> T <> E -> (length (elems T) <= fuel)%nat -> rbtree_minimum fuel t (rt T) = head (elems T).
Proof.
  intros Ht HT Hf. destruct (minimum_spec t fuel k T Ht HT Hf) as (ky & cy & y & yr & -> & -> & Hky).
  rewrite elems_split, (kleft_L ky Hky). done.
Qed.
Lemma maximum_last t k T fuel :
  is_tree t (plug k T) -> T <> E -> (length (elems T) <= fuel)%nat -> rbtree_maximum fuel t (rt T) = last (elems T).
Proof.
  intros Ht HT Hf. destruct (maximum_spec t fuel k T Ht HT Hf) as (ky & cy & y & yl & -> & -> & Hky).
  rewrite elems_split, (kright_R ky Hky), app_nil_r. simpl. rewrite app_assoc. by rewrite last_snoc.
Qed.

Lemma climb_right_spec t fuel : forall k T,
  is_tree t (plug k T) -> T <> E -> (length k < fuel)%nat ->
  exists y, climb_right fuel t (rt T) (top k) = Some y /\ (if y =? nil then None else Some y) = head (kright k).
Proof.
  induction fuel as [|fuel IH]; intros k T Ht HT Hf; [lia|]. cbn [climb_right]. destruct k as [|f k].
  { exists nil. done. }
  destruct (read_ctx t f k T Ht) as [_ Hn]. change (top (f :: k)) with (f_node f). rewrite (proj2 (Z.eqb_neq _ _) Hn). cbn [negb andb].
  assert ((rt T =? right (heap t (f_node f))) = bool_decide (f_dir f = R)) as ->.
  { apply (hole_dir t f k T R Ht). eapply rt_sib_ne; [exact Ht|by left]. }
  unfold kright. simpl. fold (kright k). unfold after. destruct (f_dir f) eqn:Ed; simpl.
  - exists (f_node f). by rewrite (proj2 (Z.eqb_neq _ _) Hn).
  - rewrite (read_par_ctx t f k T Ht). destruct (IH k (fill T f) Ht) as (y & Ey & Hy);
      [unfold fill; by rewrite Ed|simpl in Hf; lia|]. exists y. split; [|done]. rewrite <- Ey. unfold fill. by rewrite rt_node.
Qed.

Lemma climb_left_spec t fuel : forall k T,
  is_tree t (plug k T) -> T <> E -> (length k < fuel)%nat ->
  exists y, climb_left fuel t (rt T) (top k) = Some y /\ (if y =? nil then None else Some y) = last (kleft k).
Proof.
  induction fuel as [|fuel IH]; intros k T Ht HT Hf; [lia|]. cbn [climb_left]. destruct k as [|f k].
  { exists nil. done. }
  destruct (read_ctx t f k T Ht) as [_ Hn]. change (top (f :: k)) with (f_node f). rewrite (proj2 (Z.eqb_neq _ _) Hn). cbn [negb andb].
  assert ((rt T =? left (heap t (f_node f))) = bool_decide (f_dir f = L)) as ->.
  { apply (hole_dir t f k T L Ht). eapply rt_sib_ne; [exact Ht|by left]. }
  unfold kleft. simpl. fold (kleft k). unfold before. destruct (f_dir f) eqn:Ed; simpl.
  - rewrite app_nil_r, (read_par_ctx t f k T Ht). destruct (IH k (fill T f) Ht) as (y & Ey & Hy);
      [unfold fill; by rewrite Ed|simpl in Hf; lia|]. exists y. split; [|done]. rewrite <- Ey. unfold fill. by rewrite rt_node.
  - exists (f_node f). rewrite (proj2 (Z.eqb_neq _ _) Hn). split; [done|]. by rewrite app_assoc, last_snoc.
Qed.

Lemma rbtree_traversal_spec (t : rbtree) (l : list Z) (fuel : nat) :
  rb_tree t l -> (length l < fuel)%nat ->
  jlos_rbtree_empty t = bool_decide (l = []) /\
  jlos_rbtree_first fuel t = Some (head l) /\ jlos_rbtree_last fuel t = Some (last l) /\
  (forall l1 x l2, l = l1 ++ x :: l2 ->
     jlos_rbtree_next fuel t x = Some (head l2) /\ jlos_rbtree_prev fuel t x = Some (last l1)).
Proof.
  intros (T & n & Ht & _ & <-) Hf. unfold jlos_rbtree_empty, jlos_rbtree_first, jlos_rbtree_last. rewrite (it_root _ _ Ht).
  assert ((rt T =? nil) = bool_decide (elems T = [])) as ->.
  { destruct T as [|c l x r]; [done|]. destruct (it_rep _ _ Ht) as (Hx & _). simpl. rewrite (proj2 (Z.eqb_neq _ _) Hx).
    symmetry. apply bool_decide_eq_false. by destruct (elems l). }
  split; [done|]. assert (HE : elems T <> [] -> T <> E) by (by intros ? ->). split_and!.
  - case_bool_decide as El; [by rewrite El|]. rewrite (minimum_head t [] T fuel Ht (HE El) ltac:(lia)).
    destruct (elems T); done.
  - case_bool_decide as El; [by rewrite El|]. rewrite (maximum_last t [] T fuel Ht (HE El) ltac:(lia)).
    destruct (last (elems T)) eqn:Ela; [done|]. by apply last_None in Ela.
  - intros l1 x l2 El. destruct (locate T x) as (k & c & lx & rx & ET); [rewrite El; set_solver|]. rewrite ET in *.
    assert (elems (plug k (N c lx x rx)) = (kleft k ++ elems lx) ++ x :: elems rx ++ kright k) as Es.
    { rewrite elems_split. simpl. by rewrite <- !app_assoc. }
    rewrite Es in El, Hf. destruct (split_unique x _ _ l1 l2 ltac:(rewrite <- Es; apply Ht) El) as [<- <-].
    destruct (read_node t k L c lx x rx Ht) as [Ex _]. pose proof (read_par t k _ Ht ltac:(done)) as Hp. simpl rt in Hp.
    pose proof (ctx_length k (N c lx x rx)) as Hk. rewrite Es in Hk. rewrite !length_app in *. simpl in *. rewrite !length_app in *.
    unfold jlos_rbtree_next, jlos_rbtree_prev. rewrite Ex, Hp. cbn [left right mk].
    assert (Hnil : forall d T', is_tree t (plug (Frame d c x (match d with L => rx | R => lx end) :: k) T') -> negb (rt T' =? nil) = bool_decide (elems T' <> [])).
    { intros d [|c' l' x' r'] HT'; [done|]. destruct (read_node t _ L c' l' x' r' HT') as [_ Hx']. simpl. rewrite (proj2 (Z.eqb_neq _ _) Hx').
      symmetry. apply bool_decide_eq_true. by destruct (elems l'). }
    rewrite (Hnil R rx Ht), (Hnil L lx Ht). split; case_bool_decide as Ee.
    + rewrite (minimum_head t (Frame R c x lx :: k) rx fuel Ht); [by destruct (elems rx)|by intros ->|lia].
    + destruct (climb_right_spec t fuel k (N c lx x rx) Ht ltac:(done) ltac:(lia)) as (y & Ey & Hy). cbn [rt] in Ey.
      rewrite Ey. simpl. rewrite Hy.
      by destruct (elems rx).
    + rewrite (maximum_last t (Frame L c x rx :: k) lx fuel Ht); [|by intros ->|lia].
      destruct (elems lx) as [|e el] eqn:Eel; [done|]. rewrite last_app. by destruct (last (e :: el)) eqn:Ela; [|apply last_None in Ela].
    + destruct (climb_left_spec t fuel k (N c lx x rx) Ht ltac:(done) ltac:(lia)) as (y & Ey & Hy). cbn [rt] in Ey.
      rewrite Ey. simpl. rewrite Hy.
      destruct (elems lx); [by rewrite app_nil_r|done].
Qed.

(** ** Searches *)

(** Along the sequence the comparison with the key goes from negative over zero to
    positive. *)
Definition ascending {K} (cmp : Z -> K -> Z) (key : K) (l : list Z) : Prop :=
  StronglySorted (fun x y => Z.sgn (cmp x key) <= Z.sgn (cmp y key)) l.

Section search.
Context {K : Type} (cmp : Z -> K -> Z) (key : K).

Lemma ascending_node l x r :
  ascending cmp key (l ++ x :: r) ->
  ascending cmp key l /\ ascending cmp key r /\
  (forall y, y ∈ l -> Z.sgn (cmp y key) <= Z.sgn (cmp x key)) /\
  (forall y, y ∈ r -> Z.sgn (cmp x key) <= Z.sgn (cmp y key)).
Proof.
  intros (H1 & H2 & [H3 H4]%StronglySorted_inv)%StronglySorted_app. rewrite Forall_forall in H4.
  split_and!; [done|done| |done]. intros y Hy. apply H1; [done|constructor].
Qed.

Lemma find_key_loop_spec t fuel : forall k T,
  is_tree t (plug k T) -> ascending cmp key (elems T) -> (length (elems T) < fuel)%nat ->
  exists r, find_key_loop cmp fuel t key (rt T) = Some r /\
    match r with
    | Some x => x ∈ elems T /\ cmp x key = 0
    | None => forall x, x ∈ elems T -> cmp x key <> 0
    end.
Proof.
  induction fuel as [|fuel IH]; intros k T Ht Hs Hf; [lia|]. cbn [find_key_loop].
  destruct T as [|c l x r]; [exists None; split; [done|set_solver]|].
  destruct (read_node t k L c l x r Ht) as [Ex Hx]. simpl rt. rewrite (proj2 (Z.eqb_neq _ _) Hx), Ex. cbn [left right mk].
  simpl in Hf. rewrite length_app in Hf. simpl in Hf. destruct (ascending_node _ _ _ Hs) as (Hsl & Hsr & Hlx & Hxr).
  destruct (Z.ltb_spec (cmp x key) 0) as [Hlt|Hge]; [|destruct (Z.ltb_spec 0 (cmp x key)) as [Hgt|Hle]].
  - destruct (IH (Frame R c x l :: k) r Ht Hsr ltac:(lia)) as (res & -> & Hres). exists res. split; [done|].
    destruct res as [y|]; [split; [set_solver|tauto]|]. simpl. intros y [Hy|[->|Hy]%elem_of_cons]%elem_of_app; [|lia|by apply Hres].
    specialize (Hlx y Hy). lia.
  - destruct (IH (Frame L c x r :: k) l Ht Hsl ltac:(lia)) as (res & -> & Hres). exists res. split; [done|].
    destruct res as [y|]; [split; [set_solver|tauto]|]. simpl. intros y [Hy|[->|Hy]%elem_of_cons]%elem_of_app; [by apply Hres|lia|].
    specialize (Hxr y Hy). lia.
  - exists (Some x). split; [done|]. split; [set_solver|lia].
Qed.

Lemma find_key_le_loop_spec t fuel : forall k T best,
  is_tree t (plug k T) -> ascending cmp key (elems T) -> (length (elems T) < fuel)%nat ->
  exists r, find_key_le_loop cmp fuel t key (rt T) best = Some r /\
    ((r = best /\ forall x, x ∈ elems T -> 0 < cmp x key) \/
     exists l1 x l2, r = Some x /\ elems T = l1 ++ x :: l2 /\ cmp x key <= 0 /\ forall y, y ∈ l2 -> 0 < cmp y key).
Proof.
  induction fuel as [|fuel IH]; intros k T best Ht Hs Hf; [lia|]. cbn [find_key_le_loop].
  destruct T as [|c l x r]; [exists best; split; [done|left; split; [done|set_solver]]|].
  destruct (read_node t k L c l x r Ht) as [Ex Hx]. simpl rt. rewrite (proj2 (Z.eqb_neq _ _) Hx), Ex. cbn [left right mk].
  simpl in Hf. rewrite length_app in Hf. simpl in Hf. destruct (ascending_node _ _ _ Hs) as (Hsl & Hsr & Hlx & Hxr).
  destruct (Z.leb_spec (cmp x key) 0) as [Hle|Hgt].
  - destruct (IH (Frame R c x l :: k) r (Some x) Ht Hsr ltac:(lia)) as (res & -> & Hres). exists res. split; [done|]. right.
    destruct Hres as [[-> Hr]|(l1 & y & l2 & -> & E & H1 & H2)].
    + by exists (elems l), x, (elems r).
    + exists (elems l ++ x :: l1), y, l2. split_and!; [done| |done|done]. simpl. by rewrite E, <- app_assoc.
  - destruct (IH (Frame L c x r :: k) l best Ht Hsl ltac:(lia)) as (res & -> & Hres). exists res. split; [done|].
    assert (forall y, y ∈ x :: elems r -> 0 < cmp y key) as Hxr'.
    { intros y [->|Hy]%elem_of_cons; [done|]. specialize (Hxr y Hy). lia. }
    destruct Hres as [[-> Hl]|(l1 & y & l2 & -> & E & H1 & H2)].
    + left. split; [done|]. simpl. intros y [Hy|Hy]%elem_of_app; auto.
    + right. exists l1, y, (l2 ++ x :: elems r). split_and!; [done| |done|].
      * simpl. by rewrite E, <- app_assoc.
      * intros z [Hz|Hz]%elem_of_app; auto.
Qed.
End search.

Lemma find_loop_key cmp fuel t key x : find_loop cmp fuel t key x = find_key_loop (fun a k => - cmp k a) fuel t key x.
Proof.
  revert x. induction fuel as [|fuel IH]; intros x; [done|]. simpl. destruct (x =? nil); [done|].
  destruct (Z.ltb_spec (cmp key x) 0), (Z.ltb_spec (- cmp key x) 0); try lia;
    destruct (Z.ltb_spec 0 (cmp key x)), (Z.ltb_spec 0 (- cmp key x)); try lia; auto.
Qed.

Lemma rbtree_search_spec {K} (cmp : Z -> K -> Z) (cmpn : Z -> Z -> Z) (t : rbtree) (l : list Z) (key : K) (keyn : Z) (fuel : nat) :
  rb_tree t l -> (length l < fuel)%nat ->
  let found (g : Z -> Z) (r : option Z) :=
    match r with Some x => x ∈ l /\ g x = 0 | None => forall x, x ∈ l -> g x <> 0 end in
  let found_le (g : Z -> Z) (r : option Z) :=
    match r with
    | Some x => exists l1 l2, l = l1 ++ x :: l2 /\ g x <= 0 /\ forall y, y ∈ l2 -> 0 < g y
    | None => forall x, x ∈ l -> 0 < g x
    end in
  (ascending cmp key l ->
     (exists r, jlos_rbtree_find_key cmp fuel t key = Some r /\ found (fun x => cmp x key) r) /\
     (exists r, jlos_rbtree_find_key_le cmp fuel t key = Some r /\ found_le (fun x => cmp x key) r)) /\
  (ascending (fun a k => - cmpn k a) keyn l ->
     exists r, jlos_rbtree_find cmpn fuel t keyn = Some r /\ found (fun x => cmpn keyn x) r) /\
  (ascending cmpn keyn l ->
     exists r, jlos_rbtree_find_le cmpn fuel t keyn = Some r /\ found_le (fun x => cmpn x keyn) r).
Proof.
  intros (T & n & Ht & _ & <-) Hf found found_le.
  assert (Hle : forall K (cmp : Z -> K -> Z) key, ascending cmp key (elems T) ->
    exists r, find_key_le_loop cmp fuel t key (root t) None = Some r /\ found_le (fun x => cmp x key) r).
  { intros K' cmp' key' Hs. rewrite (it_root _ _ Ht).
    destruct (find_key_le_loop_spec cmp' key' t fuel [] T None Ht Hs Hf) as (r & -> & Hr). exists r. split; [done|].
    destruct Hr as [[-> Hr]|(l1 & x & l2 & -> & ? & ? & ?)]; [done|]. by exists l1, l2. }
  split_and!.
  - intros Hs. split; [|by apply Hle]. unfold jlos_rbtree_find_key. rewrite (it_root _ _ Ht).
    exact (find_key_loop_spec cmp key t fuel [] T Ht Hs Hf).
  - intros Hs. unfold jlos_rbtree_find. rewrite (it_root _ _ Ht), find_loop_key.
    destruct (find_key_loop_spec _ keyn t fuel [] T Ht Hs Hf) as (r & -> & Hr). exists r. split; [done|].
    unfold found. destruct r as [x|]; [destruct Hr; split; [done|lia]|]. intros x Hx. specialize (Hr x Hx). cbv beta in *. lia.
  - intros Hs. apply (Hle Z cmpn keyn Hs).
Qed.

(** Queries, on a balanced tree, always terminate.  [first] and [last] return the
    ends of the in-order sequence, [next] and [prev] the neighbours of a node, each
    null exactly where the sequence ends, and [empty] tells whether there is a node.
    Where the nodes ascend relative to the key, [find_key] (and [find], its variant
    with a node for key) returns a node that compares equal, or null when there is
    none; [find_key_le] (and [find_le]) returns the last node that does not compare
    greater, or null when all compare greater. *)
Theorem rbtree_query_correct {K} (cmp : Z -> K -> Z) (cmpn : Z -> Z -> Z) (t : rbtree) (l : list Z) (key : K) (keyn : Z) (fuel : nat) :
  rb_tree t l -> (length l < fuel)%nat ->
  let found (g : Z -> Z) (r : option Z) :=
    match r with Some x => x ∈ l /\ g x = 0 | None => forall x, x ∈ l -> g x <> 0 end in
  let found_le (g : Z -> Z) (r : option Z) :=
    match r with
    | Some x => exists l1 l2, l = l1 ++ x :: l2 /\ g x <= 0 /\ forall y, y ∈ l2 -> 0 < g y
    | None => forall x, x ∈ l -> 0 < g x
    end in
  (jlos_rbtree_empty t = bool_decide (l = []) /\
   jlos_rbtree_first fuel t = Some (head l) /\ jlos_rbtree_last fuel t = Some (last l) /\
   (forall l1 x l2, l = l1 ++ x :: l2 ->
      jlos_rbtree_next fuel t x = Some (head l2) /\ jlos_rbtree_prev fuel t x = Some (last l1))) /\
  (ascending cmp key l ->
     (exists r, jlos_rbtree_find_key cmp fuel t key = Some r /\ found (fun x => cmp x key) r) /\
     (exists r, jlos_rbtree_find_key_le cmp fuel t key = Some r /\ found_le (fun x => cmp x key) r)) /\
  (ascending (fun a k => - cmpn k a) keyn l ->
     exists r, jlos_rbtree_find cmpn fuel t keyn = Some r /\ found (fun x => cmpn keyn x) r) /\
  (ascending cmpn keyn l ->
     exists r, jlos_rbtree_find_le cmpn fuel t keyn = Some r /\ found_le (fun x => cmpn x keyn) r).
Proof. intros Ht Hl found found_le. split; [by apply rbtree_traversal_spec|by apply rbtree_search_spec]. Qed.

(** An initialised tree is empty and balanced. *)
Lemma rbtree_init_rb h : rb_tree (jlos_rbtree_init h) [].
Proof. exists E, 0%nat. split_and!; [|constructor|done]. split; try done. constructor. Qed.

(** ** Witnesses *)

(** The tree of three nodes 1, 2, 3, and an empty one. *)
Definition tree3 : rbtree := RBTree 2 (fun x =>
  if x =? 2 then RBNode 0 1 3 false else if x =? 1 then RBNode 2 0 0 true
  else if x =? 3 then RBNode 2 0 0 true else RBNode 0 0 0 false).
Lemma tree3_rb : rb_tree tree3 [1; 2; 3].
Proof.
  exists (N false (N true E 1 E) 2 (N true E 3 E)), 1%nat. split_and!; [|repeat econstructor|done].
  split; [done| | |done].
  - simpl. unfold nil. repeat split; lia.
  - simpl. repeat (apply NoDup_cons; split; [set_solver by lia|]). constructor.
Qed.

Lemma rbtree_insert_correct_witness :
  exists t' l1 l2, jlos_rbtree_insert (fun a b => a - b) 10 tree3 4 = Some t' /\ [1; 2; 3] = l1 ++ l2 /\
    rb_tree t' (l1 ++ 4 :: l2) /\ ordered (fun a b => a - b) (l1 ++ 4 :: l2) /\
    (forall x, x ∈ l1 -> 0 <= 4 - x) /\ (forall x, x ∈ l2 -> 4 - x < 0).
Proof.
  apply (rbtree_insert_correct (fun a b => a - b) tree3 [1; 2; 3] 4 10);
    [intros; lia|intros; lia|exact tree3_rb| |discriminate| |simpl; lia].
  - repeat constructor; lia.
  - set_solver by lia.
Defined.

Lemma rbtree_remove_correct_witness : exists t', jlos_rbtree_remove 10 tree3 2 = Some t' /\ rb_tree t' ([1] ++ [3]).
Proof. apply (rbtree_remove_correct tree3 [1] [3] 2 10); [exact tree3_rb|simpl; lia]. Defined.

Lemma rbtree_query_correct_witness :
  jlos_rbtree_first 10 tree3 = Some (head [1; 2; 3]) /\ jlos_rbtree_next 10 tree3 1 = Some (head [2; 3]) /\
  exists r, jlos_rbtree_find_le (fun a b => a - b) 10 tree3 2 = Some r.
Proof.
  destruct (rbtree_query_correct (fun (a b : Z) => a - b) (fun a b => a - b) tree3 [1; 2; 3] 2 2 10) as ((_ & H1 & _ & H3) & _ & _ & H);
    [exact tree3_rb|simpl; lia|]. split; [exact H1|]. split; [apply (H3 [] 1 [2; 3]); reflexivity|].
  destruct H as (r & H & _); [repeat constructor; simpl; lia|]. exists r. exact H.
Defined.
