(* ===== verification/Pfa.v ===== *)
(** * The page frame allocator ([kernel/page_frame_allocator.c])

    A buddy system over the frames of physical memory, with per-processor
    caches of single frames.  The free lists are the sequences that [DList]
    proves the intrusive lists to be.  Each operation runs under the buddy lock
    (or with interrupts off on its processor's cache), hence is one step.
    [None] is the halt loop the code enters when an internal check fails. *)
From S2P Require Import Prelude Bitmap.

Definition MAX_ORDER : Z := 10.
Definition ORDER_INVALID : Z := 255.
Definition FRAME_SIZE : Z := 4096.

(** [jlos_page_t], the fields the allocator uses. *)
Record page := Page {
  pg_flags : Z; pg_type : Z; pg_order : Z; pg_pt_present : Z; pg_refcount : Z; pg_owner : Z }.

Definition occupied (p : page) : bool := negb (Z.land (pg_flags p) 1 =? 0).

(** The static variables of the allocator. *)
Record pfa := Pfa {
  s_total_frames : Z;
  s_start_addr : Z;
  s_pages : list page;
  s_free_area : list (list Z);
  s_free_order_bitmap : Z;
  s_free_frames : Z;
  s_percpu : list (list Z * Z)   (* [jlos_pfa_percpu_t]: free list and count *)
}.

Definition with_pages (s : pfa) (ps : list page) : pfa :=
  Pfa (s_total_frames s) (s_start_addr s) ps (s_free_area s) (s_free_order_bitmap s) (s_free_frames s) (s_percpu s).
Definition with_area (s : pfa) (a : list (list Z)) (bm : Z) : pfa :=
  Pfa (s_total_frames s) (s_start_addr s) (s_pages s) a bm (s_free_frames s) (s_percpu s).
Definition with_free (s : pfa) (n : Z) : pfa :=
  Pfa (s_total_frames s) (s_start_addr s) (s_pages s) (s_free_area s) (s_free_order_bitmap s) n (s_percpu s).
Definition with_percpu (s : pfa) (pc : list (list Z * Z)) : pfa :=
  Pfa (s_total_frames s) (s_start_addr s) (s_pages s) (s_free_area s) (s_free_order_bitmap s) (s_free_frames s) pc.

Definition set_order (o : Z) (p : page) : page :=
  Page (pg_flags p) (pg_type p) o (pg_pt_present p) (pg_refcount p) (pg_owner p).

Definition upd_page (s : pfa) (frame : Z) (g : page -> page) : option pfa :=
  pg ← geti (s_pages s) frame;
  ps ← seti (s_pages s) frame (g pg);
  Some (with_pages s ps).

Definition order_to_frames (order : Z) : Z := u32 (Z.shiftl 1 order).

(** The bit-length loop of [frames_to_order]. *)
Fixpoint bit_length (fuel : nat) (v : Z) : Z :=
  match fuel with
  | O => 0
  | S fuel => if v =? 0 then 0 else 1 + bit_length fuel (Z.shiftr v 1)
  end.
Definition frames_to_order (n : Z) : Z := if n <=? 1 then 0 else bit_length 32 (n - 1).

Definition buddy_mergeable (s : pfa) (frame order : Z) : option bool :=
  let block := order_to_frames order in
  let buddy := Z.lxor frame block in
  if s_total_frames s <=? buddy then Some false
  else
    let merged_start := if buddy <? frame then buddy else frame in
    if s_total_frames s <? u32 (merged_start + u32 (block * 2)) then Some false
    else
      pg ← geti (s_pages s) buddy;
      Some ((pg_order pg =? order) && negb (occupied pg)).

Definition buddy_insert (s : pfa) (frame order : Z) : option pfa :=
  let block := order_to_frames order in
  if (s_total_frames s <=? frame) || (s_total_frames s <? u32 (frame + block)) then None
  else if negb (Z.land frame (u32 (block - 1)) =? 0) then None
  else
    pg ← geti (s_pages s) frame;
    if occupied pg then None
    else if negb (pg_order pg =? ORDER_INVALID) && negb (pg_order pg =? order) then None
    else
      l ← geti (s_free_area s) order;
      let bm := if bool_decide (l = []) then Z.lor (s_free_order_bitmap s) (order_to_frames order)
                else s_free_order_bitmap s in
      a ← seti (s_free_area s) order (frame :: l);
      upd_page (with_area s a bm) frame (set_order (u8 order)).

(** A frame whose list node is linked somewhere. *)
Definition linked (s : pfa) (frame : Z) : bool :=
  existsb (fun l => bool_decide (frame ∈ l)) (s_free_area s ++ map fst (s_percpu s)).

(** [jlos_list_del] takes the node out of the list that holds it. *)
Definition unlink (s : pfa) (frame : Z) : pfa :=
  let del := filter (fun x => x <> frame) in
  with_percpu (with_area s (map del (s_free_area s)) (s_free_order_bitmap s))
    (map (fun pc => (del pc.1, pc.2)) (s_percpu s)).

Definition buddy_remove (s : pfa) (frame order : Z) : option pfa :=
  let block := order_to_frames order in
  if (s_total_frames s <=? frame) || (s_total_frames s <? u32 (frame + block)) then None
  else
    pg ← geti (s_pages s) frame;
    if negb (pg_order pg =? u8 order) || (pg_order pg =? ORDER_INVALID) || negb (linked s frame) then None
    else
      let s := unlink s frame in
      l ← geti (s_free_area s) order;
      let bm := if bool_decide (l = [])
                then Z.land (s_free_order_bitmap s) (not32 (order_to_frames order))
                else s_free_order_bitmap s in
      upd_page (with_area s (s_free_area s) bm) frame (set_order ORDER_INVALID).

(** [jlos_page_frame_order_split] from order [target_order + n]. *)
Fixpoint order_split (s : pfa) (frame target_order : Z) (n : nat) : option pfa :=
  match n with
  | O => Some s
  | S n =>
      let order := target_order + Z.of_nat n in
      s ← buddy_insert s (Z.lor frame (order_to_frames order)) order;
      order_split s frame target_order n
  end.
Definition jlos_page_frame_order_split (s : pfa) (frame order target_order : Z) : option pfa :=
  order_split s frame target_order (Z.to_nat (order - target_order)).

Definition recycle_page (p : page) : page :=
  Page (Z.land (pg_flags p) 254) (pg_type p) ORDER_INVALID (pg_pt_present p) 0 (pg_owner p).
Definition jlos_page_frame_mark_recycle (s : pfa) (frame : Z) : option pfa :=
  if s_total_frames s <=? frame then Some s else upd_page s frame recycle_page.

Definition reserve_page (p : page) : page :=
  Page (Z.lor (pg_flags p) 1) 0 ORDER_INVALID 0 1 (pg_owner p).
Definition jlos_page_frame_mark_reserve (s : pfa) (frame : Z) : option pfa :=
  if s_total_frames s <=? frame then Some s else upd_page s frame reserve_page.

(** The merging loop of [buddy_free_nolock]. *)
Fixpoint merge_up (fuel : nat) (s : pfa) (frame order : Z) : option (pfa * Z * Z) :=
  match fuel with
  | O => None
  | S fuel =>
      if order <? MAX_ORDER then
        m ← buddy_mergeable s frame order;
        if (m : bool) then
          let buddy := Z.lxor frame (order_to_frames order) in
          s ← buddy_remove s buddy order;
          merge_up fuel s (if buddy <? frame then buddy else frame) (order + 1)
        else Some (s, frame, order)
      else Some (s, frame, order)
  end.
Definition buddy_free_nolock (s : pfa) (frame order : Z) : option pfa :=
  let freed_frames := order_to_frames order in
  '(s, frame, order) ← merge_up 11 s frame order;
  s ← buddy_insert s frame order;
  Some (with_free s (s32 (s_free_frames s + freed_frames))).

(** ** Per-processor caches *)

Definition set_percpu (s : pfa) (cpu : Z) (pc : list Z * Z) : option pfa :=
  l ← seti (s_percpu s) cpu pc; Some (with_percpu s l).

(** [n] iterations of the loop of [percpu_drain]. *)
Fixpoint drain_loop (n : nat) (s : pfa) (cpu : Z) : option pfa :=
  match n with
  | O => Some s
  | S n =>
      pc ← geti (s_percpu s) cpu;
      match pc.1 with
      | [] => None
      | frame :: _ =>
          let s := unlink s frame in
          pc' ← geti (s_percpu s) cpu;
          s ← set_percpu s cpu (pc'.1, u32 (pc.2 - 1));
          s ← buddy_free_nolock s frame 0;
          drain_loop n s cpu
      end
  end.
Definition percpu_drain (s : pfa) (cpu : Z) : option pfa :=
  pc ← geti (s_percpu s) cpu;
  let drain_count := if pc.2 <? 8 then pc.2 else 8 in
  drain_loop (Z.to_nat drain_count) s cpu.

Definition cached_page (p : page) : page := Page 0 0 ORDER_INVALID (pg_pt_present p) 0 (pg_owner p).

(** The loop of [percpu_refill]. *)
Fixpoint refill_loop (fuel : nat) (s : pfa) (cpu : Z) : option pfa :=
  match fuel with
  | O => None
  | S fuel =>
      pc ← geti (s_percpu s) cpu;
      if pc.2 <? 8 then
        if s_free_order_bitmap s =? 0 then Some s
        else
          order ← ctz32 (s_free_order_bitmap s);
          l ← geti (s_free_area s) order;
          match l with
          | [] => None
          | frame :: _ =>
              s ← buddy_remove s frame order;
              s ← jlos_page_frame_order_split s frame order 0;
              s ← upd_page s frame cached_page;
              s ← set_percpu s cpu (frame :: pc.1, u32 (pc.2 + 1));
              refill_loop fuel (with_free s (s32 (s_free_frames s - 1))) cpu
          end
      else Some s
  end.
Definition percpu_refill (s : pfa) (cpu : Z) : option pfa := refill_loop 9 s cpu.

(** Physical address of a frame.  The C functions return it through the direct
    map ([PHYS_TO_VIRT]), a constant offset. *)
Definition frame_addr (s : pfa) (frame : Z) : Z := u32 (s_start_addr s + u32 (frame * FRAME_SIZE)).

Definition take_page (p : page) : page :=
  Page (Z.lor (pg_flags p) 1) (pg_type p) (pg_order p) (pg_pt_present p) 1 (pg_owner p).

(** [Some (s, None)] is the null result. *)
Definition jlos_page_frame_malloc (s : pfa) (cpu : Z) : option (pfa * option Z) :=
  pc ← geti (s_percpu s) cpu;
  s ← (if pc.2 =? 0 then percpu_refill s cpu else Some s);
  pc ← geti (s_percpu s) cpu;
  if 0 <? pc.2 then
    match pc.1 with
    | [] => None
    | frame :: _ =>
        let s := unlink s frame in
        pc' ← geti (s_percpu s) cpu;
        s ← set_percpu s cpu (pc'.1, u32 (pc.2 - 1));
        s ← upd_page s frame take_page;
        Some (s, Some (frame_addr s frame))
    end
  else Some (s, None).

(** ** Freeing ranges *)

Definition free_page (p : page) : page :=
  Page (Z.land (pg_flags p) 254) 0 ORDER_INVALID 0 (pg_refcount p) (pg_owner p).

(** Largest order of a block that starts at [base_frame] and fits in [len]. *)
Fixpoint range_order (fuel : nat) (base_frame len order : Z) : Z :=
  match fuel with
  | O => order
  | S fuel =>
      if (order_to_frames (order + 1) <=? len) &&
         (Z.land base_frame (u32 (order_to_frames (order + 1) - 1)) =? 0)
      then range_order fuel base_frame len (order + 1) else order
  end.

Fixpoint upd_pages (s : pfa) (frame : Z) (n : nat) (g : page -> page) : option pfa :=
  match n with
  | O => Some s
  | S n => s ← upd_page s frame g; upd_pages s (frame + 1) n g
  end.

Fixpoint buddy_free_range (fuel : nat) (s : pfa) (base_frame len : Z) : option pfa :=
  if len =? 0 then Some s
  else match fuel with
  | O => None
  | S fuel =>
      let order := range_order 32 base_frame len 0 in
      let block := order_to_frames order in
      s ← upd_pages s base_frame (Z.to_nat block) free_page;
      s ← buddy_free_nolock s base_frame order;
      buddy_free_range fuel s (base_frame + block) (len - block)
  end.

Definition pfa_phys_to_frame (s : pfa) (p : Z) : Z := u32 (p - s_start_addr s) / FRAME_SIZE.

(** ** Reference counts *)

Definition set_refcount (r : Z) (p : page) : page :=
  Page (pg_flags p) (pg_type p) (pg_order p) (pg_pt_present p) r (pg_owner p).

Definition jlos_page_frame_refcount_inc (s : pfa) (phys : Z) : option pfa :=
  let frame := pfa_phys_to_frame s phys in
  if s_total_frames s <=? frame then Some s
  else
    pg ← geti (s_pages s) frame;
    if (0 <? pg_refcount pg) && (pg_refcount pg <? 255)
    then upd_page s frame (set_refcount (pg_refcount pg + 1)) else None.

Definition jlos_page_frame_refcount_dec (s : pfa) (cpu phys : Z) : option pfa :=
  let frame := pfa_phys_to_frame s phys in
  if s_total_frames s <=? frame then Some s
  else
    pg ← geti (s_pages s) frame;
    let old := pg_refcount pg in
    if 0 <? old then
      s ← upd_page s frame (set_refcount (old - 1));
      if old =? 1 then
        s ← upd_page s frame (fun p => set_refcount 0 (free_page p));
        pc ← geti (s_percpu s) cpu;
        s ← set_percpu s cpu (frame :: pc.1, u32 (pc.2 + 1));
        if 16 <? u32 (pc.2 + 1) then percpu_drain s cpu else Some s
      else Some s
    else None.

Definition jlos_page_frame_free (s : pfa) (cpu phys : Z) : option pfa :=
  jlos_page_frame_refcount_dec s cpu phys.

Definition jlos_page_frame_refcount_get (s : pfa) (phys : Z) : option Z :=
  let frame := pfa_phys_to_frame s phys in
  if s_total_frames s <=? frame then Some 0
  else pg ← geti (s_pages s) frame; Some (u8 (pg_refcount pg)).

(** ** Several frames at once *)

(** The first loop of [jlos_page_frame_free_n]: drop one reference of each frame
    and collect those that reached zero. *)
Fixpoint drop_refs (n : nat) (s : pfa) (phys : Z) (acc : list Z) : option (pfa * list Z) :=
  match n with
  | O => Some (s, acc)
  | S n =>
      let frame := pfa_phys_to_frame s phys in
      let next := u32 (phys + FRAME_SIZE) in
      if s_total_frames s <=? frame then drop_refs n s next acc
      else
        pg ← geti (s_pages s) frame;
        let old := pg_refcount pg in
        if old =? 0 then None
        else if 0 <? old then
          s ← upd_page s frame (set_refcount (old - 1));
          if old =? 1 then
            if (length acc =? 1024)%nat then None else drop_refs n s next (acc ++ [frame])
          else drop_refs n s next acc
        else drop_refs n s next acc
  end.

(** The insertion sort of the collected frames, and the loop that frees each run
    of consecutive frames. *)
Fixpoint sort_insert (v : Z) (l : list Z) : list Z :=
  match l with
  | [] => [v]
  | x :: l => if v <? x then v :: x :: l else x :: sort_insert v l
  end.
Definition sort_frames (l : list Z) : list Z := foldl (fun acc v => sort_insert v acc) [] l.

Fixpoint free_runs (s : pfa) (start len : Z) (l : list Z) : option pfa :=
  match l with
  | [] => buddy_free_range (Z.to_nat len) s start len
  | f :: l =>
      if f =? u32 (start + len) then free_runs s start (len + 1) l
      else s ← buddy_free_range (Z.to_nat len) s start len; free_runs s f 1 l
  end.

Definition jlos_page_frame_free_n (s : pfa) (phys num_frames : Z) : option pfa :=
  let head_frame := pfa_phys_to_frame s phys in
  '(s, frames) ← drop_refs (Z.to_nat num_frames) s phys [];
  match sort_frames frames with
  | [] => Some s
  | f :: l =>
      bad ← (if head_frame <? s_total_frames s then
               pg ← geti (s_pages s) head_frame;
               Some (negb (pg_order pg =? ORDER_INVALID) && (order_to_frames (pg_order pg) <? num_frames))
             else Some false);
      if (bad : bool) then None else free_runs s f 1 l
  end.

Definition jlos_page_frame_alloc_n (s : pfa) (num_frames : Z) : option (pfa * option Z) :=
  if (num_frames =? 0) || (s_total_frames s <? num_frames) then Some (s, None)
  else
    let target_order := frames_to_order num_frames in
    let masked := Z.land (s_free_order_bitmap s) (u32 (Z.shiftl (2 ^ 32 - 1) target_order)) in
    if masked =? 0 then Some (s, None)
    else
      order ← ctz32 masked;
      l ← geti (s_free_area s) order;
      match l with
      | [] => None
      | frame :: _ =>
          s ← buddy_remove s frame order;
          s ← (if target_order <? order then jlos_page_frame_order_split s frame order target_order
               else Some s);
          let extra := u32 (order_to_frames target_order - num_frames) in
          s ← (if extra =? 0 then Some s
               else buddy_free_range (Z.to_nat extra) s (frame + num_frames) extra);
          s ← upd_pages s frame (Z.to_nat num_frames) reserve_page;
          s ← upd_page s frame (set_order (u8 target_order));
          let s := with_free s (s32 (s_free_frames s - num_frames)) in
          Some (s, Some (frame_addr s frame))
      end.

Definition jlos_page_frame_alloc_order (s : pfa) (order : Z) : option (pfa * option Z) :=
  if MAX_ORDER <? order then Some (s, None) else jlos_page_frame_alloc_n s (order_to_frames order).
Definition jlos_page_frame_free_order (s : pfa) (phys order : Z) : option pfa :=
  if MAX_ORDER <? order then Some s else jlos_page_frame_free_n s phys (order_to_frames order).

(** ** Queries and owner records *)

Definition jlos_page_frame_get_type (s : pfa) (phys : Z) : option Z :=
  if phys <? s_start_addr s then Some 0
  else let f := pfa_phys_to_frame s phys in
       if f <? s_total_frames s then pg_type <$> geti (s_pages s) f else Some 0.
Definition jlos_page_frame_get_owner (s : pfa) (phys : Z) : option Z :=
  if phys <? s_start_addr s then Some 0
  else let f := pfa_phys_to_frame s phys in
       if f <? s_total_frames s then pg_owner <$> geti (s_pages s) f else Some 0.
Definition jlos_page_frame_set_owner_type (s : pfa) (phys owner type : Z) : option pfa :=
  if phys <? s_start_addr s then Some s
  else
    let f := pfa_phys_to_frame s phys in
    if s_total_frames s <=? f then Some s
    else
      pg ← geti (s_pages s) f;
      if occupied pg
      then upd_page s f (fun p => Page (pg_flags p) (u8 type) (pg_order p) (pg_pt_present p) (pg_refcount p) owner)
      else None.
Definition jlos_page_frame_clear_owner_type (s : pfa) (phys : Z) : option pfa :=
  jlos_page_frame_set_owner_type s phys 0 0.

Definition jlos_page_frame_get_total (s : pfa) : Z := s_total_frames s.
Definition jlos_page_frame_get_free (s : pfa) (num_cpus : Z) : Z :=
  foldl (fun n pc => u32 (n + pc.2)) (u32 (s_free_frames s)) (take (Z.to_nat num_cpus) (s_percpu s)).
Definition jlos_page_frame_contains_phys (s : pfa) (phys : Z) : bool :=
  (s_start_addr s <=? phys) && (u32 (phys - s_start_addr s) / FRAME_SIZE <? s_total_frames s).

Definition jlos_page_frame_start_phys (s : pfa) : Z := s_start_addr s.

(** [jlos_page_frame_to_page] and [jlos_page_frame_page_addr]: a page is named by
    its frame number; both addresses are physical. *)
Definition jlos_page_frame_to_page (s : pfa) (phys : Z) : option Z :=
  if phys <? s_start_addr s then None
  else let frame := pfa_phys_to_frame s phys in
       if s_total_frames s <=? frame then None else Some frame.
Definition jlos_page_frame_page_addr (s : pfa) (frame : Z) : option Z :=
  if s_total_frames s <=? frame then None else Some (frame_addr s frame).

(** ** Present counts of page tables *)

Definition set_present (c : Z) (p : page) : page :=
  Page (pg_flags p) (pg_type p) (pg_order p) c (pg_refcount p) (pg_owner p).
Definition jlos_page_frame_pt_present_count_set (s : pfa) (phys count : Z) : option pfa :=
  let f := pfa_phys_to_frame s phys in
  if s_total_frames s <=? f then Some s else upd_page s f (set_present count).
Definition jlos_page_frame_pt_present_count_get (s : pfa) (phys : Z) : option Z :=
  let f := pfa_phys_to_frame s phys in
  if s_total_frames s <=? f then Some 0 else pg_pt_present <$> geti (s_pages s) f.
Definition jlos_page_frame_pt_present_count_inc (s : pfa) (phys : Z) : option pfa :=
  let f := pfa_phys_to_frame s phys in
  if s_total_frames s <=? f then Some s
  else upd_page s f (fun p => set_present (u8 (pg_pt_present p + 1)) p).
Definition jlos_page_frame_pt_present_count_dec (s : pfa) (phys : Z) : option pfa :=
  let f := pfa_phys_to_frame s phys in
  if f <? s_total_frames s then
    upd_page s f (fun p => if 0 <? pg_pt_present p then set_present (pg_pt_present p - 1) p else p)
  else Some s.

(** ** The boot allocator: a bump pointer, [s_boot_heap_ptr] *)

Definition page_align_up (x : Z) : Z := Z.land (u32 (x + (FRAME_SIZE - 1))) (not32 (FRAME_SIZE - 1)).
Definition jlos_pfa_boot_alloc_init (start_phys : Z) : Z := page_align_up start_phys.
Definition jlos_pfa_boot_alloc (heap size : Z) : Z * Z := (u32 (heap + page_align_up size), heap).
Definition jlos_pfa_boot_alloc_page (heap : Z) : Z * Z := jlos_pfa_boot_alloc heap FRAME_SIZE.
Definition jlos_pfa_boot_alloc_get_end (heap : Z) : Z := heap.

(** ** Initialisation *)

(** The loop of [jlos_page_frame_mark_occupied] over [n] frames. *)
Fixpoint occupy_loop (n : nat) (s : pfa) (i : Z) : option pfa :=
  match n with
  | O => Some s
  | S n =>
      pg ← geti (s_pages s) i;
      if occupied pg then occupy_loop n s (i + 1)
      else
        s ← (if negb (pg_order pg =? ORDER_INVALID) then
               s ← buddy_remove s i (pg_order pg);
               Some (with_free s (s32 (s_free_frames s - order_to_frames (pg_order pg))))
             else Some s);
        s ← jlos_page_frame_mark_reserve s i;
        occupy_loop n s (i + 1)
  end.
Definition jlos_page_frame_mark_occupied (s : pfa) (phys_start phys_end : Z) : option pfa :=
  if phys_end <=? phys_start then Some s
  else
    let start_frame := pfa_phys_to_frame s phys_start in
    let end_frame := u32 (u32 (phys_end - s_start_addr s) + FRAME_SIZE - 1) / FRAME_SIZE in
    if s_total_frames s <=? start_frame then Some s
    else
      let end_frame := if s_total_frames s <? end_frame then s_total_frames s else end_frame in
      occupy_loop (Z.to_nat (end_frame - start_frame)) s start_frame.

(** [for (i = lo; i < hi && i < total; i++)] *)
Fixpoint mark_range (g : pfa -> Z -> option pfa) (n : nat) (s : pfa) (i : Z) : option pfa :=
  match n with
  | O => Some s
  | S n => s ← g s i; mark_range g n s (i + 1)
  end.
Definition mark_frames (g : pfa -> Z -> option pfa) (s : pfa) (lo hi : Z) : option pfa :=
  mark_range g (Z.to_nat (Z.min hi (s_total_frames s) - lo)) s lo.

(** The reserved regions of the boot memory map. *)
Fixpoint occupy_regions (s : pfa) (phys_start phys_end : Z) (mem : list (Z * Z * bool)) : option pfa :=
  match mem with
  | [] => Some s
  | (addr, size, usable) :: mem =>
      let start := addr in
      let end_ := u64 (start + size) in
      s ← (if usable || (end_ <=? phys_start) || (phys_end <=? start) then Some s
           else
             let s32' := if start <? phys_start then phys_start else u32 start in
             let e32 := if phys_end <? end_ then phys_end else u32 end_ in
             if s32' <? e32 then jlos_page_frame_mark_occupied s s32' e32 else Some s);
      occupy_regions s phys_start phys_end mem
  end.

(** Step 1: every free frame becomes a block of order 0. *)
Definition insert_free (s : pfa) (frame : Z) : option pfa :=
  pg ← geti (s_pages s) frame;
  if negb (occupied pg) && (pg_order pg =? ORDER_INVALID) then buddy_insert s frame 0 else Some s.

(** Step 2: one pass over the buddy pairs of an order. *)
Fixpoint merge_pairs (n : nat) (s : pfa) (frame order : Z) : option pfa :=
  match n with
  | O => Some s
  | S n =>
      let block := order_to_frames order in
      pg ← geti (s_pages s) frame;
      m ← (if pg_order pg =? u8 order then buddy_mergeable s frame order else Some false);
      s ← (if (m : bool) then
             let buddy := Z.lxor frame block in
             s ← buddy_remove s buddy order;
             s ← buddy_remove s frame order;
             buddy_insert s (if buddy <? frame then buddy else frame) (order + 1)
           else Some s);
      merge_pairs n s (frame + block * 2) order
  end.
Fixpoint merge_orders (orders : list Z) (s : pfa) : option pfa :=
  match orders with
  | [] => Some s
  | o :: orders =>
      s ← merge_pairs (Z.to_nat (s_total_frames s / (2 * order_to_frames o))) s 0 o;
      merge_orders orders s
  end.

Definition count_free (s : pfa) : Z :=
  foldr (fun '(o, l) n => order_to_frames (Z.of_nat o) * zlen l + n) 0
    (zip (seq 0 11) (s_free_area s)).

(** [jlos_arch_paging_free_boot_tables]: on x86 the table the loader switched paging on
    with ([boot_pml4] or [boot_page_dir], at this address) loses its reference; on
    arm64 there is none and nothing happens. *)
Definition jlos_arch_paging_free_boot_tables (s : pfa) (cpu : Z) (boot_table : option Z) : option pfa :=
  match boot_table with
  | Some phys => jlos_page_frame_refcount_dec s cpu phys
  | None => Some s
  end.

Definition jlos_page_frame_allocator_init (num_cpus : nat) (cpu : Z) (boot_table : option Z) (phys_start phys_end kernel_end boot_end
    boot_alloc_end : Z) (mem : list (Z * Z * bool)) : option pfa :=
  let total := u32 (phys_end - phys_start) / FRAME_SIZE in
  let s := Pfa total phys_start (replicate (Z.to_nat total) (Page 0 0 ORDER_INVALID 0 0 0))
             (replicate 11 []) 0 0 (replicate num_cpus ([], 0)) in
  let kernel_frames := u32 (kernel_end - phys_start) / FRAME_SIZE in
  let boot_frames := u32 (boot_end - phys_start) / FRAME_SIZE in
  let boot_alloc_end_frame := u32 (u32 (boot_alloc_end - phys_start) + FRAME_SIZE - 1) / FRAME_SIZE in
  s ← mark_frames jlos_page_frame_mark_reserve s 0 kernel_frames;
  s ← mark_frames jlos_page_frame_mark_recycle s kernel_frames boot_frames;
  s ← mark_frames jlos_page_frame_mark_reserve s kernel_frames boot_alloc_end_frame;
  s ← (if 0 <? phys_start then jlos_page_frame_mark_occupied s 0 phys_start else Some s);
  s ← occupy_regions s phys_start phys_end mem;
  s ← mark_range insert_free (Z.to_nat total) s 0;
  s ← merge_orders (seqZ 0 10) s;
  jlos_arch_paging_free_boot_tables (with_free s (s32 (count_free s))) cpu boot_table.
