(* ===== verification/PfaInv.v ===== *)
(** * Correctness of the page frame allocator

    The invariant of the buddy system of [Pfa] and the theorems that every
    operation keeps it: blocks on the free lists are aligned, inside memory,
    disjoint and unoccupied, the order bitmap mirrors the lists, and a frame is
    never handed out twice. *)
From S2P Require Import Prelude Bitmap Pfa.

#[export] Instance page_inhabited : Inhabited page := populate (Page 0 0 0 0 0 0).

Definition pgt (s : pfa) (x : Z) : page := s_pages s !!! Z.to_nat x.
Definition area (s : pfa) (o : Z) : list Z := s_free_area s !!! Z.to_nat o.
Definition is_order (o : Z) : Prop := 0 <= o <= 10.
Definition in_block (f o x : Z) : Prop := f <= x < f + 2 ^ o.

(** Frame [x] belongs to a block on a free list. *)
Definition free (s : pfa) (x : Z) : Prop := exists o f, is_order o /\ f ∈ area s o /\ in_block f o x.
(** Frame [x] is in the cache of some processor. *)
Definition cached (s : pfa) (x : Z) : Prop := exists pc, pc ∈ s_percpu s /\ x ∈ pc.1.

Record pfa_inv (s : pfa) : Prop := {
  pi_total : 0 <= s_total_frames s < 2 ^ 20;
  pi_pages : zlen (s_pages s) = s_total_frames s;
  pi_areas : length (s_free_area s) = 11%nat;
  pi_block o f : is_order o -> f ∈ area s o ->
    0 <= f /\ f `mod` 2 ^ o = 0 /\ f + 2 ^ o <= s_total_frames s /\ pg_order (pgt s f) = o /\
    forall x, in_block f o x -> occupied (pgt s x) = false;
  pi_disjoint o o' f f' x : is_order o -> is_order o' -> f ∈ area s o -> f' ∈ area s o' ->
    in_block f o x -> in_block f' o' x -> o = o' /\ f = f';
  pi_nodup o : is_order o -> NoDup (area s o);
  pi_heads x : 0 <= x < s_total_frames s -> occupied (pgt s x) = false ->
    pg_order (pgt s x) <> ORDER_INVALID -> is_order (pg_order (pgt s x)) /\ x ∈ area s (pg_order (pgt s x));
  pi_bitmap o : 0 <= o -> Z.testbit (s_free_order_bitmap s) o = true <-> is_order o /\ area s o <> [];
  pi_bm_range : 0 <= s_free_order_bitmap s;
  pi_cached x : cached s x ->
    0 <= x < s_total_frames s /\ occupied (pgt s x) = false /\ pg_order (pgt s x) = ORDER_INVALID /\ ~ free s x;
  pi_cpu pc : pc ∈ s_percpu s -> NoDup pc.1 /\ pc.2 = zlen pc.1;
  pi_cpus i j pc pc' x : s_percpu s !! i = Some pc -> s_percpu s !! j = Some pc' ->
    x ∈ pc.1 -> x ∈ pc'.1 -> i = j
}.

(** A frame that is neither allocated, nor on a free list, nor cached. *)
Definition limbo (s : pfa) (x : Z) : Prop :=
  0 <= x < s_total_frames s /\ occupied (pgt s x) = false /\ ~ free s x /\ ~ cached s x.

Lemma otf o : 0 <= o < 32 -> order_to_frames o = 2 ^ o.
Proof.
  intros Ho. unfold order_to_frames. rewrite Z.shiftl_mul_pow2, Z.mul_1_l by lia.
  apply u32_small. split; [lia|]. apply Z.pow_lt_mono_r; lia.
Qed.

Lemma pow_order o : is_order o -> 1 <= 2 ^ o <= 1024.
Proof.
  intros Ho. unfold is_order in Ho. split; [lia|]. change 1024 with (2 ^ 10). apply Z.pow_le_mono_r; lia.
Qed.

Lemma in_block_self f o : is_order o -> in_block f o f.
Proof. intros Ho%pow_order. unfold in_block. lia. Qed.

Lemma limbo_order s x : pfa_inv s -> limbo s x -> pg_order (pgt s x) = ORDER_INVALID.
Proof.
  intros HI (Hx & Ho & Hf & _). destruct (decide (pg_order (pgt s x) = ORDER_INVALID)) as [|Hne]; [done|].
  destruct (pi_heads _ HI x Hx Ho Hne) as [Hor Hin]. exfalso. apply Hf. exists (pg_order (pgt s x)), x.
  split_and!; [done..|]. by apply in_block_self.
Qed.

Lemma geti_page s x : pfa_inv s -> 0 <= x < s_total_frames s -> geti (s_pages s) x = Some (pgt s x).
Proof.
  intros HI Hx. pose proof (pi_pages _ HI). unfold geti. destruct (Z.ltb_spec x 0); [lia|].
  apply list_lookup_lookup_total_lt. lia.
Qed.

Lemma geti_area s o : pfa_inv s -> is_order o -> geti (s_free_area s) o = Some (area s o).
Proof.
  intros HI Ho. pose proof (pi_areas _ HI). unfold is_order in Ho. unfold geti.
  destruct (Z.ltb_spec o 0); [lia|]. apply list_lookup_lookup_total_lt. lia.
Qed.

Lemma upd_page_eq s x g :
  zlen (s_pages s) = s_total_frames s -> 0 <= x < s_total_frames s ->
  upd_page s x g = Some (with_pages s (<[Z.to_nat x := g (pgt s x)]> (s_pages s))).
Proof.
  intros Hl Hx. unfold upd_page, geti. destruct (Z.ltb_spec x 0); [lia|].
  rewrite list_lookup_lookup_total_lt by lia. simpl. rewrite seti_Some by lia. done.
Qed.

Lemma pgt_set s x y pg :
  zlen (s_pages s) = s_total_frames s -> 0 <= x < s_total_frames s -> 0 <= y ->
  pgt (with_pages s (<[Z.to_nat x := pg]> (s_pages s))) y = if decide (y = x) then pg else pgt s y.
Proof.
  intros Hl Hx Hy. unfold pgt. simpl. case_decide as E.
  - subst. rewrite list_lookup_total_insert_eq by lia. done.
  - rewrite list_lookup_total_insert_ne by lia. done.
Qed.

Lemma area_set s o l o' bm :
  length (s_free_area s) = 11%nat -> is_order o -> is_order o' ->
  area (with_area s (<[Z.to_nat o := l]> (s_free_area s)) bm) o' = if decide (o' = o) then l else area s o'.
Proof.
  intros Hl Ho Ho'. unfold area, is_order in *. simpl. case_decide as E.
  - subst. rewrite list_lookup_total_insert_eq by lia. done.
  - rewrite list_lookup_total_insert_ne by lia. done.
Qed.

(** Aligned blocks are nested or disjoint. *)
Lemma blocks_nested f o f' o' x :
  0 <= o <= o' -> f `mod` 2 ^ o = 0 -> f' `mod` 2 ^ o' = 0 -> in_block f o x -> in_block f' o' x ->
  f' <= f /\ f + 2 ^ o <= f' + 2 ^ o'.
Proof.
  intros Ho Hf Hf' [Hx1 Hx2] [Hx3 Hx4].
  assert (2 ^ o' = 2 ^ (o' - o) * 2 ^ o) as E by (rewrite <- Z.pow_add_r by lia; f_equal; lia).
  apply Z.mod_divide in Hf as [q ->]; [|lia]. apply Z.mod_divide in Hf' as [q' Hq']; [|lia].
  rewrite E in Hq', Hx4 |- *. assert (0 < 2 ^ o) by lia.
  rewrite Hq' in *. set (m := 2 ^ o) in *. set (k := 2 ^ (o' - o)) in *.
  assert (q' * k <= q /\ q + 1 <= q' * k + k) by nia. nia.
Qed.

Lemma land_low f o : is_order o -> (Z.land f (u32 (order_to_frames o - 1)) =? 0) = bool_decide (f `mod` 2 ^ o = 0).
Proof.
  intros Ho. pose proof (pow_order o Ho). rewrite otf by (unfold is_order in Ho; lia).
  rewrite u32_small by lia. rewrite land_mask by (unfold is_order in Ho; lia).
  case_bool_decide; lia.
Qed.

(** What every list operation leaves alone: everything but the orders of page
    heads, the free lists and the bitmap. *)
Definition same_page (p q : page) : Prop :=
  pg_flags p = pg_flags q /\ pg_type p = pg_type q /\ pg_pt_present p = pg_pt_present q /\
  pg_refcount p = pg_refcount q /\ pg_owner p = pg_owner q.
Record same_but_lists (s s' : pfa) : Prop := {
  sb_total : s_total_frames s' = s_total_frames s;
  sb_start : s_start_addr s' = s_start_addr s;
  sb_percpu : s_percpu s' = s_percpu s;
  sb_pages x : 0 <= x -> same_page (pgt s' x) (pgt s x)
}.

Lemma same_page_refl p : same_page p p.
Proof. done. Qed.
Lemma same_page_trans p q r : same_page p q -> same_page q r -> same_page p r.
Proof. unfold same_page. intuition congruence. Qed.
Lemma same_refl s : same_but_lists s s.
Proof. by split. Qed.
Lemma same_trans s1 s2 s3 : same_but_lists s1 s2 -> same_but_lists s2 s3 -> same_but_lists s1 s3.
Proof.
  intros [H1 H2 H3 H4] [G1 G2 G3 G4]. split; try congruence.
  intros x Hx. eapply same_page_trans; eauto.
Qed.
Lemma same_occ p q : same_page p q -> occupied p = occupied q.
Proof. unfold occupied. by intros (-> & _). Qed.
Lemma same_cached s s' x : same_but_lists s s' -> cached s' x <-> cached s x.
Proof. intros H. unfold cached. by rewrite (sb_percpu _ _ H). Qed.

Lemma testbit_pow2' o i : 0 <= o -> 0 <= i -> Z.testbit (2 ^ o) i = bool_decide (i = o).
Proof.
  intros. case_bool_decide; [subst; by apply Z.pow2_bits_true|]. by apply Z.pow2_bits_false.
Qed.

Section insert.
Context (s : pfa) (f o : Z).
Hypothesis HI : pfa_inv s.
Hypothesis Ho : is_order o.
Hypothesis Hf : 0 <= f.
Hypothesis Hal : f `mod` 2 ^ o = 0.
Hypothesis Hin : f + 2 ^ o <= s_total_frames s.
Hypothesis Hlimbo : forall x, in_block f o x -> limbo s x.

Definition inserted : pfa :=
  let l := area s o in
  let bm := if bool_decide (l = []) then Z.lor (s_free_order_bitmap s) (2 ^ o) else s_free_order_bitmap s in
  with_pages (with_area s (<[Z.to_nat o := f :: l]> (s_free_area s)) bm)
    (<[Z.to_nat f := set_order o (pgt s f)]> (s_pages s)).

Lemma buddy_insert_eq : buddy_insert s f o = Some inserted.
Proof using HI Ho Hf Hal Hin Hlimbo.
  pose proof (pi_total _ HI). pose proof (pi_areas _ HI). pose proof (pow_order o Ho).
  destruct (Hlimbo f) as (Hfr & Hocc & _); [by apply in_block_self|].
  unfold buddy_insert. rewrite land_low by done. rewrite bool_decide_true by done.
  rewrite otf by (unfold is_order in Ho; lia). rewrite (u32_small (f + 2 ^ o)) by lia.
  destruct (Z.leb_spec (s_total_frames s) f); [lia|].
  destruct (Z.ltb_spec (s_total_frames s) (f + 2 ^ o)); [lia|]. simpl.
  rewrite geti_page by done. simpl. rewrite Hocc.
  rewrite (limbo_order s f HI) by (apply Hlimbo; by apply in_block_self). simpl.
  rewrite geti_area by done. simpl. rewrite seti_Some by (unfold is_order in Ho; lia). simpl.
  rewrite upd_page_eq by (simpl; first [by apply pi_pages|lia]).
  rewrite u8_small by (unfold is_order in Ho; lia). done.
Qed.

Lemma inserted_area o' : is_order o' -> area inserted o' = if decide (o' = o) then f :: area s o else area s o'.
Proof using HI Ho. intros Ho'. by apply area_set; [apply HI|..]. Qed.

Lemma inserted_elem o' f' :
  is_order o' -> f' ∈ area inserted o' <-> f' ∈ area s o' \/ o' = o /\ f' = f.
Proof using HI Ho. intros Ho'. rewrite inserted_area by done. clear Hlimbo Hin Hf Hal. case_decide; set_solver. Qed.

Lemma inserted_pgt x : 0 <= x -> pgt inserted x = if decide (x = f) then set_order o (pgt s f) else pgt s x.
Proof using HI Ho Hf Hin.
  intros Hx. pose proof (pow_order o Ho).
  refine (pgt_set (with_area s _ _) f x _ (pi_pages _ HI) _ Hx). simpl. lia.
Qed.

Lemma inserted_free x : free inserted x <-> free s x \/ in_block f o x.
Proof using HI Ho.
  unfold free. split.
  - intros (o' & f' & Ho' & Hf' & Hx). rewrite inserted_area in Hf' by done. case_decide as E.
    + subst. apply elem_of_cons in Hf' as [->|?]; [by right|left; eauto].
    + left; eauto.
  - intros [(o' & f' & Ho' & Hf' & Hx)|Hx].
    + exists o', f'. rewrite inserted_area by done. split_and!; [done| |done]. case_decide; [subst; by constructor|done].
    + exists o, f. rewrite inserted_area, decide_True by done. split_and!; [done|constructor|done].
Qed.

Lemma inserted_same : same_but_lists s inserted.
Proof using HI Ho Hf Hin.
  split; try done. intros x Hx. rewrite inserted_pgt by done. case_decide; [subst|]; done.
Qed.

Lemma inserted_inv : pfa_inv inserted.
Proof using HI Ho Hf Hal Hin Hlimbo.
  pose proof (pow_order o Ho) as Hpow.
  assert (forall x, 0 <= x -> occupied (pgt inserted x) = occupied (pgt s x)) as Hocc
    by (intros; apply same_occ, (sb_pages _ _ inserted_same); done).
  assert (Hnf : forall x, in_block f o x -> ~ free s x) by (intros x Hx; apply Hlimbo, Hx).
  split; try by apply HI.
  - simpl. rewrite length_insert. apply HI.
  - simpl. rewrite length_insert. apply HI.
  - intros o' f' Ho' Hf'. destruct (proj1 (inserted_elem o' f' Ho') Hf') as [Hold|[-> ->]].
    + destruct (pi_block _ HI o' f' Ho' Hold) as (? & ? & ? & Hord & Hoc).
      split_and!; [done..| |].
      * rewrite inserted_pgt by done. goal_decide; [|done]. subst f'. exfalso. apply (Hnf f (in_block_self f o Ho)).
        exists o', f. split_and!; [done..|]. by apply in_block_self.
      * intros x Hx. rewrite Hocc by (unfold in_block in Hx; lia). by apply Hoc.
    + split_and!; [done..| |].
      * rewrite inserted_pgt by done. by rewrite decide_True.
      * intros x Hx. destruct (Hlimbo x Hx) as (? & ? & _). rewrite Hocc by lia. done.
  - intros o1 o2 f1 f2 x Ho1 Ho2 Hf1 Hf2 Hx1 Hx2.
    destruct (proj1 (inserted_elem o1 f1 Ho1) Hf1) as [H1|[-> ->]],
      (proj1 (inserted_elem o2 f2 Ho2) Hf2) as [H2|[-> ->]].
    + by eapply (pi_disjoint _ HI).
    + exfalso. apply (Hnf x Hx2). by exists o1, f1.
    + exfalso. apply (Hnf x Hx1). by exists o2, f2.
    + done.
  - intros o' Ho'. rewrite inserted_area by done. case_decide; [|by apply HI]. subst o'.
    apply NoDup_cons. split; [|by apply HI]. intros Hin'. apply (Hnf f (in_block_self f o Ho)).
    exists o, f. split_and!; [done..|]. by apply in_block_self.
  - intros x Hx Ho1. simpl in Hx. rewrite Hocc in Ho1 by lia. rewrite inserted_pgt by lia. case_decide as E.
    + subst x. simpl. intros _. split; [done|]. rewrite inserted_area, decide_True by done. constructor.
    + intros Hne. destruct (pi_heads _ HI x Hx Ho1 Hne) as [? ?]. split; [done|].
      rewrite inserted_area by done. case_decide as E'; [rewrite <- E'; by constructor|done].
  - intros o' Ho'. simpl. assert (area inserted o' <> [] /\ is_order o' <-> (is_order o' /\ area s o' <> []) \/ o' = o) as Ha.
    { destruct (decide (is_order o')) as [Hoo|Hoo]; [rewrite inserted_area by done; case_decide; subst; naive_solver|].
      split; [tauto|]. intros [[? _]| ->]; done. }
    assert (is_order o' /\ area inserted o' <> [] <-> (is_order o' /\ area s o' <> []) \/ o' = o) as -> by tauto.
    rewrite <- (pi_bitmap _ HI o' Ho'). case_bool_decide as El.
    + rewrite Z.lor_spec, testbit_pow2' by (unfold is_order in Ho; lia). case_bool_decide; rewrite ?orb_true_r, ?orb_false_r; tauto.
    + split; [tauto|]. intros [?| ->]; [done|]. by apply HI.
  - simpl. pose proof (pi_bm_range _ HI). case_bool_decide; [|done]. apply Z.lor_nonneg. lia.
  - intros x Hx. pose proof (proj1 (same_cached _ _ x inserted_same) Hx) as Hx'.
    destruct (pi_cached _ HI x Hx') as (? & ? & ? & ?). split_and!; simpl; [lia|lia| | |].
    + rewrite Hocc by lia. done.
    + rewrite inserted_pgt by lia. case_decide; [|done]. subst x.
      destruct (Hlimbo f (in_block_self f o Ho)) as (_ & _ & _ & Hnc). done.
    + rewrite inserted_free. intros [?|Hb]; [done|]. destruct (Hlimbo x Hb) as (_ & _ & _ & Hnc). done.
Qed.
End insert.

Section remove.
Context (s : pfa) (f o : Z).
Hypothesis HI : pfa_inv s.
Hypothesis Ho : is_order o.
Hypothesis Hf : f ∈ area s o.

Definition removed : pfa :=
  let l := filter (fun x => x <> f) (area s o) in
  let bm := if bool_decide (l = []) then Z.land (s_free_order_bitmap s) (not32 (2 ^ o)) else s_free_order_bitmap s in
  with_pages (with_area s (<[Z.to_nat o := l]> (s_free_area s)) bm)
    (<[Z.to_nat f := set_order ORDER_INVALID (pgt s f)]> (s_pages s)).

Lemma head_unique o' : is_order o' -> f ∈ area s o' -> o' = o.
Proof using HI Ho Hf.
  intros Ho' Hf'. by eapply (pi_disjoint _ HI o' o f f f); [..|apply in_block_self|apply in_block_self].
Qed.

Lemma head_not_cached : ~ cached s f.
Proof using HI Ho Hf.
  intros Hc. apply (pi_cached _ HI f Hc). exists o, f. split_and!; [done..|]. by apply in_block_self.
Qed.

Lemma unlink_eq :
  unlink s f = with_area s (<[Z.to_nat o := filter (fun x => x <> f) (area s o)]> (s_free_area s)) (s_free_order_bitmap s).
Proof using HI Ho Hf.
  pose proof (pi_areas _ HI) as Hl. unfold unlink, with_percpu, with_area. simpl. f_equal.
  - apply list_eq. intros i. rewrite list_lookup_fmap.
    destruct (decide (i < 11)%nat) as [Hi|Hi].
    + destruct (decide (i = Z.to_nat o)) as [->|Hne].
      * rewrite list_lookup_insert_eq by (unfold is_order in Ho; lia).
        rewrite list_lookup_lookup_total_lt by (unfold is_order in Ho; lia). done.
      * rewrite list_lookup_insert_ne by done. rewrite list_lookup_lookup_total_lt by lia. simpl. f_equal.
        apply filter_absent. intros Hx.
        apply Hne. assert (f ∈ area s (Z.of_nat i)) as Hx' by (unfold area; by rewrite Nat2Z.id).
        apply head_unique in Hx'; [lia|unfold is_order; lia].
    + rewrite !lookup_ge_None_2; [done|rewrite length_insert; lia|lia].
  - apply map_id_ext. intros [l c] Hpc. simpl. f_equal. apply filter_absent. intros Hx.
    apply head_not_cached. by exists (l, c).
Qed.

Lemma buddy_remove_eq : buddy_remove s f o = Some removed.
Proof using HI Ho Hf.
  pose proof (pi_total _ HI). pose proof (pi_areas _ HI). pose proof (pow_order o Ho).
  destruct (pi_block _ HI o f Ho Hf) as (Hf0 & Hal & Hft & Hord & Hocc).
  unfold buddy_remove. rewrite otf by (unfold is_order in Ho; lia). rewrite (u32_small (f + 2 ^ o)) by lia.
  destruct (Z.leb_spec (s_total_frames s) f); [lia|].
  destruct (Z.ltb_spec (s_total_frames s) (f + 2 ^ o)); [lia|]. cbn [orb].
  rewrite geti_page by (done || lia). cbn [mbind option_bind]. rewrite Hord, u8_small by (unfold is_order in Ho; lia).
  rewrite Z.eqb_refl. unfold ORDER_INVALID. destruct (Z.eqb_spec o 255); [unfold is_order in Ho; lia|]. cbn [orb negb].
  assert (linked s f = true) as ->.
  { unfold linked. apply existsb_exists. exists (area s o). split; [|by apply bool_decide_eq_true].
    apply in_or_app. left. apply list_elem_of_In. apply list_elem_of_lookup. exists (Z.to_nat o).
    apply list_lookup_lookup_total_lt. unfold is_order in Ho. lia. }
  cbn [orb negb]. rewrite unlink_eq.
  assert (geti (s_free_area (with_area s (<[Z.to_nat o:=filter (fun x => x <> f) (area s o)]> (s_free_area s))
    (s_free_order_bitmap s))) o = Some (filter (fun x => x <> f) (area s o))) as Eg.
  { unfold geti, is_order in *. destruct (Z.ltb_spec o 0); [lia|]. simpl.
    rewrite list_lookup_insert_eq by lia. done. }
  rewrite Eg. cbn [mbind option_bind]. rewrite upd_page_eq by (simpl; first [by apply pi_pages|lia]). done.
Qed.

Lemma removed_elem o' f' :
  is_order o' -> f' ∈ area removed o' <-> f' ∈ area s o' /\ f' <> f.
Proof using HI Ho Hf.
  intros Ho'. unfold removed. change (area (with_pages ?a _) o') with (area a o').
  rewrite area_set by (done || apply HI). case_decide as E; [subst; rewrite list_elem_of_filter; tauto|].
  split; [|tauto]. intros Hf'. split; [done|]. intros ->. by apply E, head_unique.
Qed.

Lemma removed_pgt x :
  0 <= x -> pgt removed x = if decide (x = f) then set_order ORDER_INVALID (pgt s f) else pgt s x.
Proof using HI Ho Hf.
  intros Hx. destruct (pi_block _ HI o f Ho Hf) as (Hf0 & _ & Hft & _). pose proof (pow_order o Ho).
  refine (pgt_set (with_area s _ _) f x _ (pi_pages _ HI) _ Hx). simpl. lia.
Qed.

Lemma removed_free x : free removed x <-> free s x /\ ~ in_block f o x.
Proof using HI Ho Hf.
  unfold free. split.
  - intros (o' & f' & Ho' & Hf' & Hx). apply removed_elem in Hf' as [Hf' Hne]; [|done]. split; [eauto|].
    intros Hx'. apply Hne. by eapply (pi_disjoint _ HI o' o).
  - intros [(o' & f' & Ho' & Hf' & Hx) Hnb]. exists o', f'. split_and!; [done| |done].
    apply removed_elem; [done|]. split; [done|]. intros ->. apply Hnb. by rewrite <- (head_unique o' Ho' Hf').
Qed.

Lemma removed_same : same_but_lists s removed.
Proof using HI Ho Hf.
  split; try done. intros x Hx. rewrite removed_pgt by done. goal_decide; [subst|]; done.
Qed.

Lemma removed_bitmap o' : 0 <= o' ->
  Z.testbit (s_free_order_bitmap removed) o' = true <-> is_order o' /\ area removed o' <> [].
Proof using HI Ho Hf.
  intros Ho'. unfold removed. change (area (with_pages ?a _) o') with (area a o'). simpl.
  destruct (decide (is_order o')) as [Hoo|Hoo].
  2: { split; [|tauto]. intros Hb. exfalso. apply Hoo.
       assert (Z.testbit (s_free_order_bitmap s) o' = true) as Hb'.
       { case_bool_decide; [|done]. rewrite Z.land_spec in Hb. by apply andb_true_iff in Hb as [? _]. }
       by apply (pi_bitmap _ HI o' Ho') in Hb' as [? _]. }
  rewrite area_set by (done || apply HI). pose proof (pi_bitmap _ HI o' Ho') as Hb.
  assert (0 <= 2 ^ o < 2 ^ 32) as Hp by (pose proof (pow_order o Ho); lia).
  case_bool_decide as El.
  - rewrite Z.land_spec, (not32_spec (2 ^ o) o') by (unfold is_order in *; lia).
    rewrite testbit_pow2' by (unfold is_order in *; lia).
    case_bool_decide; case_decide; simplify_eq; rewrite ?andb_true_r, ?andb_false_r; [|done].
    split; [done|]. by intros [_ ?].
  - case_decide; [|done]. subst. rewrite Hb. split; [done|]. intros _. split; [done|].
    intros E. rewrite E in Hf. set_solver.
Qed.

Lemma removed_inv : pfa_inv removed.
Proof using HI Ho Hf.
  pose proof (pow_order o Ho) as Hpow.
  assert (forall x, 0 <= x -> occupied (pgt removed x) = occupied (pgt s x)) as Hocc
    by (intros; apply same_occ, (sb_pages _ _ removed_same); done).
  split; try by apply HI.
  - simpl. rewrite length_insert. apply HI.
  - simpl. rewrite length_insert. apply HI.
  - intros o' f' Ho' Hf'. apply removed_elem in Hf' as [Hf' Hne]; [|done].
    destruct (pi_block _ HI o' f' Ho' Hf') as (? & ? & ? & Hord & Hoc). split_and!; [done..| |].
    + rewrite removed_pgt by done. by rewrite decide_False.
    + intros x Hx. rewrite Hocc by (unfold in_block in Hx; lia). by apply Hoc.
  - intros o1 o2 f1 f2 x Ho1 Ho2 Hf1 Hf2. apply removed_elem in Hf1 as [? _]; [|done].
    apply removed_elem in Hf2 as [? _]; [|done]. by apply (pi_disjoint _ HI).
  - intros o' Ho'. unfold removed. change (area (with_pages ?a _) o') with (area a o').
    rewrite area_set by (done || apply HI). goal_decide; [apply NoDup_filter|]; by apply HI.
  - intros x Hx Ho1. simpl in Hx. rewrite Hocc in Ho1 by lia. rewrite removed_pgt by lia. goal_decide.
    + done.
    + intros Hne. destruct (pi_heads _ HI x Hx Ho1 Hne) as [? ?]. split; [done|]. by apply removed_elem.
  - apply removed_bitmap.
  - simpl. pose proof (pi_bm_range _ HI). case_bool_decide; [|done]. apply Z.land_nonneg. by left.
  - intros x Hx. pose proof (proj1 (same_cached _ _ x removed_same) Hx) as Hx'.
    destruct (pi_cached _ HI x Hx') as (? & ? & ? & ?). split_and!; simpl; [lia|lia| | |].
    + rewrite Hocc by lia. done.
    + rewrite removed_pgt by lia. by goal_decide.
    + rewrite removed_free. tauto.
Qed.
End remove.

(** ** Buddies *)

Lemma buddy_cases f o :
  0 <= f -> is_order o -> f `mod` 2 ^ o = 0 ->
  let b := Z.lxor f (2 ^ o) in
  (b = f + 2 ^ o /\ f `mod` 2 ^ (o + 1) = 0) \/ (b = f - 2 ^ o /\ b `mod` 2 ^ (o + 1) = 0 /\ 0 <= b).
Proof.
  intros Hf Ho Hal b. pose proof (pow_order o Ho). unfold is_order in Ho.
  apply Z.mod_divide in Hal as [q ->]; [|lia].
  assert (Hb : b = Z.lxor q 1 * 2 ^ o).
  { unfold b. rewrite <- !Z.shiftl_mul_pow2 by lia. rewrite <- (Z.mul_1_l (2 ^ o)), <- Z.shiftl_mul_pow2 by lia.
    by rewrite <- Z.shiftl_lxor. }
  assert (0 <= q) by nia. rewrite Z.pow_add_r, Z.pow_1_r by lia.
  destruct (Z.even q) eqn:Eq.
  - left. apply Z.even_spec in Eq as [k ->]. assert (Z.lxor (2 * k) 1 = 2 * k + 1) as E.
    { destruct k; [done|done|lia]. }
    split; [rewrite Hb, E; lia|]. apply Z.mod_divide; [lia|]. exists k. lia.
  - right. assert (Z.odd q = true) as Eo by (rewrite <- Z.negb_even; by rewrite Eq).
    apply Z.odd_spec in Eo as [k ->]. assert (Z.lxor (2 * k + 1) 1 = 2 * k) as E.
    { destruct k; [done|done|lia]. }
    split_and!; [rewrite Hb, E; lia|rewrite Hb, E; apply Z.mod_divide; [lia|]; exists k; lia|rewrite Hb, E; nia].
Qed.

(** The union of a block and its buddy. *)
Lemma buddy_union f o :
  0 <= f -> is_order o -> f `mod` 2 ^ o = 0 ->
  let b := Z.lxor f (2 ^ o) in
  let m := if b <? f then b else f in
  0 <= b /\ 0 <= m /\ b `mod` 2 ^ o = 0 /\ m `mod` 2 ^ (o + 1) = 0 /\ m + 2 ^ (o + 1) = Z.max f b + 2 ^ o /\
  m = Z.min f b /\ (forall x, in_block m (o + 1) x <-> in_block f o x \/ in_block b o x).
Proof.
  intros Hf Ho Hal b m. pose proof (pow_order o Ho).
  assert (2 ^ (o + 1) = 2 * 2 ^ o) as E by (rewrite Z.pow_add_r by (unfold is_order in Ho; lia); lia).
  assert (m = Z.min f b) as Em by (unfold m; zcases; lia).
  assert (Hmod : (f + 2 ^ o) `mod` 2 ^ o = 0 /\ (f - 2 ^ o) `mod` 2 ^ o = 0).
  { replace (f + 2 ^ o) with (f + 1 * 2 ^ o) by lia. replace (f - 2 ^ o) with (f + (-1) * 2 ^ o) by lia.
    by rewrite !Z_mod_plus_full. }
  rewrite Em. destruct (buddy_cases f o Hf Ho Hal) as [[Hb Hm]|(Hb & Hm & Hb0)]; fold b in Hb; fold b in Hm.
  - rewrite Hb in *. rewrite Z.min_l, Z.max_r by lia.
    split_and!; [lia|lia|tauto|done|lia|lia|]. unfold in_block. intros x. lia.
  - fold b in Hb0. rewrite Hb in *. rewrite Z.min_r, Z.max_l by lia.
    split_and!; [lia|lia|tauto|done|lia|lia|]. unfold in_block. intros x. lia.
Qed.

(** A block ready to be put on a free list. *)
Record block_ok (s : pfa) (f o : Z) : Prop := {
  bo_order : is_order o;
  bo_nonneg : 0 <= f;
  bo_aligned : f `mod` 2 ^ o = 0;
  bo_bound : f + 2 ^ o <= s_total_frames s;
  bo_limbo x : in_block f o x -> limbo s x
}.

Lemma buddy_mergeable_spec s f o :
  pfa_inv s -> is_order o -> 0 <= f -> f `mod` 2 ^ o = 0 -> f + 2 ^ o <= s_total_frames s -> o < 10 ->
  exists m, buddy_mergeable s f o = Some m /\
    (m = true -> Z.lxor f (2 ^ o) ∈ area s o /\ Z.min f (Z.lxor f (2 ^ o)) + 2 ^ (o + 1) <= s_total_frames s).
Proof.
  intros HI Ho Hf Hal Hb Hlt. pose proof (pow_order o Ho). pose proof (pi_total _ HI).
  destruct (buddy_union f o Hf Ho Hal) as (Hb0 & Hm0 & _ & _ & Hmx & Hmin & _).
  set (b := Z.lxor f (2 ^ o)) in *.
  assert (2 ^ (o + 1) = 2 ^ o * 2) as E by (rewrite Z.pow_add_r by (unfold is_order in Ho; lia); lia).
  unfold buddy_mergeable. rewrite otf by (unfold is_order in Ho; lia). fold b.
  destruct (Z.leb_spec (s_total_frames s) b); [by exists false|].
  rewrite (u32_small (2 ^ o * 2)) by lia. rewrite u32_small by lia.
  destruct (Z.ltb_spec (s_total_frames s) ((if b <? f then b else f) + 2 ^ o * 2)); [by exists false|].
  rewrite geti_page by (done || lia). simpl. eexists. split; [done|].
  intros [Hord Hocc]%andb_true_iff. apply negb_true_iff in Hocc. apply Z.eqb_eq in Hord.
  destruct (pi_heads _ HI b) as [_ Hin]; [lia|done|rewrite Hord; unfold ORDER_INVALID, is_order in *; lia|].
  rewrite Hord in Hin. split; [done|lia].
Qed.

(** After its buddy left the free lists, the double block is ready. *)
Lemma block_ok_double s f o :
  pfa_inv s -> block_ok s f o -> o < 10 -> Z.lxor f (2 ^ o) ∈ area s o ->
  Z.min f (Z.lxor f (2 ^ o)) + 2 ^ (o + 1) <= s_total_frames s ->
  let b := Z.lxor f (2 ^ o) in
  block_ok (removed s b o) (if b <? f then b else f) (o + 1).
Proof.
  intros HI [Ho Hf Hal Hb Hl] Hlt Hin Hbd b0. subst b0.
  destruct (buddy_union f o Hf Ho Hal) as (Hb0 & Hm0 & _ & Hmm & _ & Hmin & Hun).
  set (b := Z.lxor f (2 ^ o)) in *.
  destruct (pi_block _ HI o b Ho Hin) as (_ & _ & Hbt & _ & Hocc).
  pose proof (removed_same s b o HI Ho Hin) as Hsame.
  split; [unfold is_order in *; lia|done|done|simpl; lia|].
  intros x Hx. apply Hun in Hx.
  assert (0 <= x < s_total_frames s) as Hxr by (unfold in_block in Hx; lia).
  split; [done|]. split; [|split].
  - rewrite (same_occ _ _ (sb_pages _ _ Hsame x ltac:(lia))).
    destruct Hx as [Hx|Hx]; [by apply Hl|by apply Hocc].
  - rewrite removed_free by done. intros [Hfr Hnb]. destruct Hx as [Hx|Hx]; [|done]. by destruct (Hl x Hx) as (_ & _ & ? & _).
  - rewrite (same_cached _ _ x Hsame). intros Hc. destruct Hx as [Hx|Hx]; [by destruct (Hl x Hx) as (_ & _ & _ & ?)|].
    apply (pi_cached _ HI x Hc). by exists o, b.
Qed.

Lemma merge_up_spec fuel : forall s f o,
  pfa_inv s -> block_ok s f o -> 11 - o <= Z.of_nat fuel ->
  exists s' f' o', merge_up fuel s f o = Some (s', f', o') /\ pfa_inv s' /\ block_ok s' f' o' /\
    same_but_lists s s' /\ s_free_frames s' = s_free_frames s /\
    (forall x, free s' x \/ in_block f' o' x <-> free s x \/ in_block f o x).
Proof.
  induction fuel as [|fuel IH]; intros s f o HI Hok Hfuel; pose proof (bo_order _ _ _ Hok) as Ho.
  { unfold is_order in Ho. lia. }
  simpl. unfold MAX_ORDER. destruct (Z.ltb_spec o 10) as [Hlt|]; [|by exists s, f, o; eauto using same_refl].
  destruct (buddy_mergeable_spec s f o HI Ho) as (m & -> & Hm); [by apply Hok..|done|]. simpl.
  destruct m; [|by exists s, f, o; eauto using same_refl].
  destruct (Hm eq_refl) as [Hin Hbd]. rewrite otf by (unfold is_order in Ho; lia).
  set (b := Z.lxor f (2 ^ o)) in *.
  rewrite (buddy_remove_eq s b o HI Ho Hin). simpl.
  pose proof (block_ok_double s f o HI Hok Hlt Hin Hbd) as Hok1. fold b in Hok1. simpl in Hok1.
  destruct (IH (removed s b o) (if b <? f then b else f) (o + 1)) as
    (s' & f' & o' & -> & HI' & Hok' & Hsame & Hff & Hfree); [by apply removed_inv|done|lia|].
  exists s', f', o'. split_and!; [done|done|done| |by rewrite Hff|].
  - eapply same_trans; [by apply (removed_same s b o)|done].
  - intros x. rewrite Hfree, removed_free by done.
    destruct (buddy_union f o (bo_nonneg _ _ _ Hok) Ho (bo_aligned _ _ _ Hok)) as (_ & _ & _ & _ & _ & _ & Hun).
    fold b in Hun. rewrite Hun. assert (in_block b o x -> free s x) by (intros; by exists o, b).
    destruct (decide (in_block b o x)) as [Hd|Hd]; [tauto|]. tauto.
Qed.

Lemma buddy_free_spec s f o :
  pfa_inv s -> block_ok s f o ->
  exists s', buddy_free_nolock s f o = Some s' /\ pfa_inv s' /\ same_but_lists s s' /\
    s_free_frames s' = s32 (s_free_frames s + 2 ^ o) /\
    (forall x, free s' x <-> free s x \/ in_block f o x).
Proof.
  intros HI Hok. pose proof (bo_order _ _ _ Hok) as Ho. unfold buddy_free_nolock.
  destruct (merge_up_spec 11 s f o HI Hok) as (s1 & f' & o' & -> & HI1 & [Ho' Hf' Hal' Hb' Hl'] & Hsame & Hff & Hfree);
    [unfold is_order in Ho; lia|]. simpl.
  rewrite buddy_insert_eq by done. simpl. rewrite otf by (unfold is_order in Ho; lia).
  pose proof (inserted_inv s1 f' o' HI1 Ho' Hf' Hal' Hb' Hl') as HI2.
  pose proof (inserted_same s1 f' o' HI1 Ho' Hf' Hb') as Hs2.
  eexists. split; [done|]. split_and!.
  - destruct HI2. by split.
  - destruct Hs2 as [? ? ? Hp2], Hsame as [? ? ? Hp]. split; simpl; try congruence.
    intros x Hx. eapply same_page_trans; [|by apply Hp]. by apply (Hp2 x).
  - simpl. by rewrite Hff.
  - intros x. rewrite <- Hfree. exact (inserted_free s1 f' o' HI1 Ho' x).
Qed.

(** ** Changes of page records *)

(** Only page records differ. *)
Record same_lists (s s' : pfa) : Prop := {
  sl_total : s_total_frames s' = s_total_frames s;
  sl_start : s_start_addr s' = s_start_addr s;
  sl_area : s_free_area s' = s_free_area s;
  sl_bitmap : s_free_order_bitmap s' = s_free_order_bitmap s;
  sl_ff : s_free_frames s' = s_free_frames s;
  sl_percpu : s_percpu s' = s_percpu s;
  sl_len : length (s_pages s') = length (s_pages s)
}.

Lemma same_lists_free s s' x : same_lists s s' -> free s' x <-> free s x.
Proof. intros H. unfold free, area. by rewrite (sl_area _ _ H). Qed.
Lemma same_lists_cached s s' x : same_lists s s' -> cached s' x <-> cached s x.
Proof. intros H. unfold cached. by rewrite (sl_percpu _ _ H). Qed.

(** The records of frames outside the free lists and caches may change, as long
    as an unoccupied one carries no order. *)
Lemma inv_pages s s' :
  pfa_inv s -> same_lists s s' ->
  (forall x, 0 <= x < s_total_frames s -> pgt s' x = pgt s x \/
     ~ free s x /\ ~ cached s x /\ (occupied (pgt s' x) = true \/ pg_order (pgt s' x) = ORDER_INVALID)) ->
  pfa_inv s'.
Proof.
  intros HI Hsl Hpg. pose proof Hsl as [Et Es Ea Eb _ Ep El].
  assert (Harea : forall o, area s' o = area s o) by (intros; unfold area; by rewrite Ea).
  assert (Hfr : forall x, 0 <= x < s_total_frames s -> free s x -> pgt s' x = pgt s x).
  { intros x Hx Hf. destruct (Hpg x Hx) as [?|[? _]]; done. }
  assert (Hblk : forall o f x, is_order o -> f ∈ area s o -> in_block f o x -> pgt s' x = pgt s x).
  { intros o f x Ho Hf Hx. destruct (pi_block _ HI o f Ho Hf) as (? & _ & ? & _).
    apply Hfr; [unfold in_block in Hx; lia|]. by exists o, f. }
  split; rewrite ?Et, ?El, ?Ea, ?Eb, ?Ep; try by apply HI.
  - intros o f Ho Hf. rewrite Harea in Hf. destruct (pi_block _ HI o f Ho Hf) as (? & ? & ? & ? & Hocc).
    rewrite (Hblk o f f Ho Hf) by (by apply in_block_self). split_and!; [done..|].
    intros x Hx. rewrite (Hblk o f x Ho Hf Hx). by apply Hocc.
  - intros o o' f f' x. rewrite !Harea. apply (pi_disjoint _ HI).
  - intros o. rewrite Harea. apply (pi_nodup _ HI).
  - intros x Hx Hocc Hord. rewrite Harea. destruct (Hpg x Hx) as [E|(_ & _ & [?|?])]; [|congruence..].
    rewrite E in *. by apply (pi_heads _ HI).
  - intros o. rewrite Harea. apply (pi_bitmap _ HI).
  - apply (pi_bm_range _ HI).
  - intros x Hc. rewrite (same_lists_cached s s' x Hsl) in Hc. rewrite (same_lists_free s s' x Hsl).
    destruct (pi_cached _ HI x Hc) as (Hx & ? & ? & ?).
    destruct (Hpg x Hx) as [->|(_ & ? & _)]; [done|]. tauto.
Qed.

Lemma upd_page_spec s x g :
  pfa_inv s -> 0 <= x < s_total_frames s ->
  exists s', upd_page s x g = Some s' /\ same_lists s s' /\
    forall y, 0 <= y -> pgt s' y = if decide (y = x) then g (pgt s x) else pgt s y.
Proof.
  intros HI Hx. rewrite upd_page_eq by (done || apply HI). eexists. split; [done|]. split.
  - split; try done. simpl. by rewrite length_insert.
  - intros y Hy. by apply pgt_set; [apply HI|..].
Qed.

Lemma same_lists_trans s1 s2 s3 : same_lists s1 s2 -> same_lists s2 s3 -> same_lists s1 s3.
Proof. intros [? ? ? ? ? ? ?] [? ? ? ? ? ? ?]. split; congruence. Qed.
Lemma same_lists_refl s : same_lists s s.
Proof. by split. Qed.

(** Writing the records of a run of frames outside the lists. *)
Lemma upd_pages_spec g n : forall s f,
  pfa_inv s -> 0 <= f -> f + Z.of_nat n <= s_total_frames s ->
  (forall x, f <= x < f + Z.of_nat n -> ~ free s x /\ ~ cached s x) ->
  (forall p, occupied (g p) = true \/ pg_order (g p) = ORDER_INVALID) ->
  exists s', upd_pages s f n g = Some s' /\ pfa_inv s' /\ same_lists s s' /\
    forall y, 0 <= y -> pgt s' y = if decide (f <= y < f + Z.of_nat n) then g (pgt s y) else pgt s y.
Proof.
  induction n as [|n IH]; intros s f HI Hf Hb Hnf Hg; simpl.
  { exists s. split_and!; [done|done|apply same_lists_refl|]. intros y Hy. rewrite decide_False by lia. done. }
  destruct (upd_page_spec s f g HI) as (s1 & -> & Hsl1 & Hp1); [lia|]. simpl.
  assert (pfa_inv s1) as HI1.
  { eapply inv_pages; [done|done|]. intros x Hx. rewrite Hp1 by lia. goal_decide; [|by left].
    subst x. right. destruct (Hnf f) as [? ?]; [lia|]. by split_and!. }
  destruct (IH s1 (f + 1)) as (s' & -> & HI' & Hsl' & Hp'); [done|lia|rewrite (sl_total _ _ Hsl1); lia| |done|].
  { intros x Hx. rewrite (same_lists_free s s1), (same_lists_cached s s1) by done. apply Hnf. lia. }
  exists s'. split_and!; [done|done|by eapply same_lists_trans|].
  intros y Hy. rewrite Hp', !Hp1 by done. repeat case_decide; try lia; subst; done.
Qed.

(** ** Splitting *)

Lemma order_bit_disjoint f o : 0 <= o -> f `mod` 2 ^ (o + 1) = 0 -> Z.lor f (2 ^ o) = f + 2 ^ o.
Proof.
  intros Ho Hm. apply Z.mod_divide in Hm as [q ->]; [|lia].
  assert (Z.land (q * 2 ^ (o + 1)) (2 ^ o) = 0) as Hl.
  { apply Z.bits_inj'. intros i Hi. rewrite Z.land_spec, testbit_pow2', Z.bits_0 by lia.
    case_bool_decide; [|by rewrite andb_false_r]. subst. rewrite Z.mul_pow2_bits_low by lia. done. }
  by rewrite (Z.add_nocarry_lxor _ _ Hl), (Z.lxor_lor _ _ Hl).
Qed.

Lemma order_split_spec t n : forall s f,
  pfa_inv s -> 0 <= t -> block_ok s f (t + Z.of_nat n) ->
  exists s', order_split s f t n = Some s' /\ pfa_inv s' /\ same_but_lists s s' /\
    s_free_frames s' = s_free_frames s /\ block_ok s' f t /\
    (forall x, free s' x <-> free s x \/ f + 2 ^ t <= x < f + 2 ^ (t + Z.of_nat n)).
Proof.
  induction n as [|n IH]; intros s f HI Ht Hok; simpl.
  { exists s. rewrite Z.add_0_r in *. split_and!; [done|done|apply same_refl|done|done|]. intros x.
    split; [by left|]. intros [?|?]; [done|lia]. }
  destruct Hok as [Ho Hf Hal Hb Hl]. set (o := t + Z.of_nat n).
  assert (is_order o) as Ho' by (unfold is_order, o in *; lia).
  assert (t + Z.of_nat (S n) = o + 1) as Eo by (unfold o; lia). rewrite Eo in *.
  assert (2 ^ (o + 1) = 2 ^ o + 2 ^ o) as E2 by (rewrite Z.pow_add_r by (unfold is_order in Ho'; lia); lia).
  pose proof (pow_order o Ho').
  assert (2 ^ t <= 2 ^ o) by (apply Z.pow_le_mono_r; unfold o; lia).
  rewrite otf by (unfold is_order in Ho'; lia). rewrite order_bit_disjoint by (unfold is_order in Ho'; done || lia).
  assert (f `mod` 2 ^ o = 0 /\ (f + 2 ^ o) `mod` 2 ^ o = 0) as [Hal1 Hal2].
  { apply Z.mod_divide in Hal as [q Hq]; [|lia]. rewrite E2 in Hq.
    split; apply Z.mod_divide; [lia| |lia|]; [exists (q * 2)|exists (q * 2 + 1)]; lia. }
  assert (forall x, in_block (f + 2 ^ o) o x -> limbo s x) as Hl2 by (intros x Hx; apply Hl; unfold in_block in *; lia).
  rewrite (buddy_insert_eq s (f + 2 ^ o) o HI Ho') by (done || lia). simpl.
  pose proof (inserted_inv s (f + 2 ^ o) o HI Ho' ltac:(lia) Hal2 ltac:(lia) Hl2) as HI1.
  pose proof (inserted_same s (f + 2 ^ o) o HI Ho' ltac:(lia) ltac:(lia)) as Hs1.
  pose proof (inserted_free s (f + 2 ^ o) o HI Ho') as Hfr1.
  destruct (IH (inserted s (f + 2 ^ o) o) f HI1 Ht) as (s' & -> & HI' & Hs' & Hff & Hok' & Hfr).
  { split; [done|done|done|simpl; fold o; lia|]. intros x Hx. fold o in Hx.
    destruct (Hl x) as (? & Hocc & Hnf & Hnc); [unfold in_block in *; lia|]. split; [done|]. split; [|split].
    - rewrite (same_occ _ _ (sb_pages _ _ Hs1 x ltac:(lia))). done.
    - rewrite Hfr1. intros [?|?]; [done|]. unfold in_block in *. lia.
    - by rewrite (same_cached _ _ x Hs1). }
  exists s'. split_and!; [done|done|by eapply same_trans|by rewrite Hff|done|].
  intros x. rewrite Hfr, Hfr1. fold o. unfold in_block. split; [intros [[?|?]|?]; auto; right; lia|].
  intros [?|?]; [auto|]. destruct (decide (x < f + 2 ^ o)); [right; lia|left; right; lia].
Qed.

(** ** Freeing a run of frames *)

Lemma occ_clear p : occupied (free_page p) = false.
Proof.
  unfold occupied, free_page. simpl. rewrite <- Z.land_assoc. change (Z.land 254 1) with 0. by rewrite Z.land_0_r.
Qed.
Lemma occ_set p : occupied (reserve_page p) = true.
Proof.
  unfold occupied, reserve_page. simpl. apply negb_true_iff, Z.eqb_neq. intros E.
  assert (Z.testbit (Z.land (Z.lor (pg_flags p) 1) 1) 0 = false) as Hb by (by rewrite E).
  rewrite Z.land_spec, Z.lor_spec in Hb. simpl in Hb. by rewrite orb_true_r in Hb.
Qed.

Lemma range_order_spec base len fuel : forall o,
  0 <= base -> 0 < len <= 1024 -> is_order o -> base `mod` 2 ^ o = 0 -> 2 ^ o <= len ->
  let r := range_order fuel base len o in is_order r /\ base `mod` 2 ^ r = 0 /\ 2 ^ r <= len.
Proof.
  induction fuel as [|fuel IH]; intros o Hb Hl Ho Hm Hle; simpl; [done|].
  destruct (Z.leb_spec (order_to_frames (o + 1)) len) as [Hlt|]; simpl; [|done].
  rewrite otf in Hlt by (unfold is_order in Ho; lia).
  assert (is_order (o + 1)) as Ho1.
  { unfold is_order in *. destruct (decide (o = 10)) as [->|]; [simpl in Hlt; lia|lia]. }
  rewrite land_low by done. case_bool_decide; [|done]. by apply IH.
Qed.

(** A run of frames that no list holds. *)
Definition detached (s : pfa) (f n : Z) : Prop :=
  0 <= f /\ f + n <= s_total_frames s /\ forall x, f <= x < f + n -> ~ free s x /\ ~ cached s x.

Lemma buddy_free_range_spec fuel : forall s f n,
  pfa_inv s -> detached s f n -> 0 <= n <= 1024 -> n <= Z.of_nat fuel ->
  exists s', buddy_free_range fuel s f n = Some s' /\ pfa_inv s' /\
    s_total_frames s' = s_total_frames s /\ s_start_addr s' = s_start_addr s /\ s_percpu s' = s_percpu s /\
    (- 2 ^ 31 <= s_free_frames s -> s_free_frames s + n < 2 ^ 31 -> s_free_frames s' = s_free_frames s + n) /\
    (forall x, free s' x <-> free s x \/ f <= x < f + n) /\
    (forall x, 0 <= x -> pg_refcount (pgt s' x) = pg_refcount (pgt s x) /\
       occupied (pgt s' x) = if decide (f <= x < f + n) then false else occupied (pgt s x)).
Proof.
  induction fuel as [|fuel IH]; intros s f n HI (Hf & Hb & Hd) Hn Hfuel; cbn [buddy_free_range];
    (destruct (Z.eqb_spec n 0) as [->|Hz];
      [exists s; split_and!; try done; [lia|intros x; split; [by left|intros [?|?]; [done|lia]]|
         intros x _; rewrite decide_False by lia; done]|]); [lia|].
  destruct (range_order_spec f n 32 0) as (Ho & Hal & Hle); [lia|lia|unfold is_order; lia|by rewrite Z.mod_1_r|lia|].
  set (o := range_order 32 f n 0) in *. pose proof (pow_order o Ho).
  rewrite otf by (unfold is_order in Ho; lia).
  destruct (upd_pages_spec free_page (Z.to_nat (2 ^ o)) s f) as (s1 & -> & HI1 & Hsl1 & Hp1);
    [done|done|lia|intros x Hx; apply Hd; lia|by right|]. simpl. rewrite Z2Nat.id in Hp1 by lia.
  pose proof (sl_total _ _ Hsl1) as Et1.
  destruct (buddy_free_spec s1 f o HI1) as (s2 & -> & HI2 & Hs2 & Hff2 & Hfr2).
  { split; [done|done|done|lia|]. intros x Hx. unfold in_block in Hx. split; [lia|].
    rewrite Hp1, decide_True, occ_clear by lia. split; [done|].
    rewrite (same_lists_free s s1), (same_lists_cached s s1) by done. apply Hd. lia. }
  simpl. pose proof (sb_total _ _ Hs2) as Et2.
  destruct (IH s2 (f + 2 ^ o) (n - 2 ^ o)) as (s' & -> & HI' & Et' & Es' & Ep' & Hff' & Hfr' & Hpg'); [done| |lia|lia|].
  { split; [lia|]. split; [lia|]. intros x Hx. rewrite Hfr2, (same_cached _ _ x Hs2).
    rewrite (same_lists_free s s1), (same_lists_cached s s1) by done. unfold in_block.
    destruct (Hd x) as [? ?]; [lia|]. split; [|done]. intros [?|?]; [done|lia]. }
  exists s'. split; [done|]. split; [done|]. split_and!.
  - congruence.
  - rewrite Es', (sb_start _ _ Hs2). apply (sl_start _ _ Hsl1).
  - rewrite Ep', (sb_percpu _ _ Hs2). apply (sl_percpu _ _ Hsl1).
  - intros Hlo Hhi. rewrite (sl_ff _ _ Hsl1) in Hff2. rewrite s32_small in Hff2 by lia.
    rewrite Hff' by lia. lia.
  - intros x. rewrite Hfr', Hfr2, (same_lists_free s s1) by done. unfold in_block.
    split; [intros [[?|?]|?]; auto; right; lia|]. intros [?|?]; [auto|].
    destruct (decide (x < f + 2 ^ o)); [left; right; lia|right; lia].
  - intros x Hx. destruct (Hpg' x Hx) as [-> ->].
    destruct (sb_pages _ _ Hs2 x Hx) as (E1 & _ & _ & E4 & _). rewrite E4.
    rewrite (same_occ _ _ (sb_pages _ _ Hs2 x Hx)). rewrite Hp1 by done.
    split; [by goal_decide|]. repeat case_decide; try lia; try done. apply occ_clear.
Qed.

(** ** Allocation of several frames *)

Lemma bit_length_spec fuel : forall v, 0 <= v < 2 ^ Z.of_nat fuel ->
  0 <= bit_length fuel v /\ v < 2 ^ bit_length fuel v /\ (0 < v -> 2 ^ bit_length fuel v <= 2 * v).
Proof.
  induction fuel as [|fuel IH]; intros v Hv; simpl; [simpl in Hv; lia|].
  destruct (Z.eqb_spec v 0) as [->|Hz]; [simpl; lia|].
  replace (Z.of_nat (S fuel)) with (Z.of_nat fuel + 1) in Hv by lia. rewrite Z.pow_add_r, Z.pow_1_r in Hv by lia.
  rewrite Z.shiftr_div_pow2, Z.pow_1_r by lia.
  destruct (IH (v / 2)) as (H1 & H2 & H3); [split; [apply Z.div_pos; lia|apply Z.div_lt_upper_bound; lia]|].
  rewrite Z.pow_add_r, Z.pow_1_r by lia. pose proof (Z.div_mod v 2 ltac:(lia)). pose proof (Z.mod_pos_bound v 2 ltac:(lia)).
  split_and!; [lia|lia|]. intros _. destruct (decide (v = 1)) as [->|].
  - change (1 / 2) with 0. destruct fuel; simpl; lia.
  - assert (0 < v / 2) by (apply Z.div_str_pos; lia). specialize (H3 H4). lia.
Qed.

(** [frames_to_order n] is the least order whose blocks hold [n] frames. *)
Lemma frames_to_order_spec n :
  0 < n <= 2 ^ 20 -> let t := frames_to_order n in
  0 <= t < 32 /\ n <= 2 ^ t /\ (1 < n -> 2 ^ t < 2 * n) /\ (n = 1 -> t = 0).
Proof.
  intros Hn t. unfold t, frames_to_order. destruct (Z.leb_spec n 1).
  { assert (n = 1) as -> by lia. simpl. lia. }
  destruct (bit_length_spec 32 (n - 1)) as (H1 & H2 & H3); [simpl; lia|]. specialize (H3 ltac:(lia)).
  split_and!; try lia. destruct (Z.ltb_spec (bit_length 32 (n - 1)) 32); [done|].
  assert (2 ^ 32 <= 2 ^ bit_length 32 (n - 1)) by (apply Z.pow_le_mono_r; lia). lia.
Qed.

Lemma order_mask_spec t i : 0 <= t < 32 -> 0 <= i ->
  Z.testbit (u32 (Z.shiftl (2 ^ 32 - 1) t)) i = bool_decide (t <= i < 32).
Proof.
  intros Ht Hi. unfold u32, wrap. replace (2 ^ 32 - 1) with (Z.ones 32) by done.
  destruct (decide (i < 32)).
  - rewrite Z.mod_pow2_bits_low by lia. rewrite Z.shiftl_spec by lia.
    case_bool_decide; [rewrite Z.ones_spec_low by lia; done|]. apply Z.testbit_neg_r. lia.
  - rewrite Z.mod_pow2_bits_high by lia. symmetry. apply bool_decide_eq_false. lia.
Qed.

(** The masked bitmap finds the least sufficient order that has a free block. *)
Lemma masked_order_spec s t :
  pfa_inv s -> 0 <= t < 32 ->
  let masked := Z.land (s_free_order_bitmap s) (u32 (Z.shiftl (2 ^ 32 - 1) t)) in
  (masked = 0 -> forall o, is_order o -> t <= o -> area s o = []) /\
  (masked <> 0 -> exists o f l, ctz32 masked = Some o /\ t <= o /\ is_order o /\ area s o = f :: l).
Proof.
  intros HI Ht masked. pose proof (pi_bm_range _ HI).
  assert (Hbit : forall i, 0 <= i -> Z.testbit masked i = true <-> t <= i /\ is_order i /\ area s i <> []).
  { intros i Hi. unfold masked. rewrite Z.land_spec, order_mask_spec, andb_true_iff, bool_decide_eq_true by lia.
    rewrite (pi_bitmap _ HI i Hi). unfold is_order. split; intros; split_and!; try tauto; lia. }
  split.
  - intros Hz o Ho Hto. destruct (area s o) as [|f l] eqn:Ea; [done|].
    assert (Z.testbit masked o = true) as Hb by (apply Hbit; [unfold is_order in Ho; lia|by rewrite Ea]).
    rewrite Hz, Z.bits_0 in Hb. done.
  - intros Hnz. assert (0 < masked < 2 ^ 32) as Hr.
    { assert (0 <= masked) by (apply Z.land_nonneg; by left). split; [lia|].
      assert (masked = masked mod 2 ^ 32) as ->; [|apply Z.mod_pos_bound; lia].
      symmetry. apply Z.bits_inj'. intros i Hi. destruct (decide (i < 32)); [by apply Z.mod_pow2_bits_low; lia|].
      rewrite Z.mod_pow2_bits_high by lia. destruct (Z.testbit masked i) eqn:Eb; [|done].
      apply Hbit in Eb as (_ & Ho & _); [|done]. unfold is_order in Ho. lia. }
    destruct (ctz32_spec masked Hr) as (o & Ec & Hc & Hb & _).
    apply Hbit in Hb as (Hto & Ho & Ha); [|lia]. destruct (area s o) as [|f l] eqn:Ea; [done|].
    by exists o, f, l.
Qed.

Lemma removed_ok s f o : pfa_inv s -> is_order o -> f ∈ area s o -> block_ok (removed s f o) f o.
Proof.
  intros HI Ho Hin. destruct (pi_block _ HI o f Ho Hin) as (? & ? & Hb & _ & Hocc).
  split; [done..|]. intros x Hx. split; [simpl; unfold in_block in Hx; lia|].
  pose proof (removed_same s f o HI Ho Hin) as Hs. split; [|split].
  - rewrite (same_occ _ _ (sb_pages _ _ Hs x ltac:(unfold in_block in Hx; lia))). by apply Hocc.
  - rewrite removed_free by done. tauto.
  - rewrite (same_cached _ _ x Hs). intros Hc. apply (pi_cached _ HI x Hc). by exists o, f.
Qed.

(** Reserving a run of frames that no list holds, its head marked with an order. *)
Lemma reserve_run_spec s f n t :
  pfa_inv s -> detached s f n -> 0 < n ->
  exists s', (s ← upd_pages s f (Z.to_nat n) reserve_page; upd_page s f (set_order t)) = Some s' /\
    pfa_inv s' /\ same_lists s s' /\
    (forall x, f <= x < f + n -> occupied (pgt s' x) = true /\ pg_refcount (pgt s' x) = 1) /\
    (forall x, 0 <= x -> ~ f <= x < f + n -> pgt s' x = pgt s x) /\ pg_order (pgt s' f) = t.
Proof.
  intros HI (Hf & Hb & Hd) Hn.
  destruct (upd_pages_spec reserve_page (Z.to_nat n) s f) as (s1 & -> & HI1 & Hsl1 & Hp1);
    [done|done|lia|intros x Hx; apply Hd; lia|intros p; left; apply occ_set|]. simpl. rewrite Z2Nat.id in Hp1 by lia.
  pose proof (sl_total _ _ Hsl1) as Et1.
  destruct (upd_page_spec s1 f (set_order t) HI1) as (s2 & -> & Hsl2 & Hp2); [lia|].
  assert (Hin : forall x, f <= x < f + n -> occupied (pgt s2 x) = true /\ pg_refcount (pgt s2 x) = 1).
  { intros x Hx. rewrite Hp2, !Hp1 by lia. rewrite !(decide_True (P := f <= _ < _)) by lia.
    goal_decide; (split; [|done]); apply occ_set. }
  exists s2. split; [done|]. split_and!; [|by eapply same_lists_trans|done| |by rewrite Hp2, decide_True by lia].
  - eapply inv_pages; [exact HI1|done|]. intros x Hx. rewrite Hp2 by lia. goal_decide; [subst x|by left].
    right. rewrite (same_lists_free s s1), (same_lists_cached s s1) by done.
    destruct (Hd f) as [? ?]; [lia|]. split_and!; [done..|]. left.
    destruct (Hin f) as [Ho _]; [lia|]. by rewrite Hp2, decide_True in Ho by lia.
  - intros x Hx Hnx. by rewrite Hp2, decide_False, Hp1, decide_False by lia.
Qed.

(** What a successful allocation of frames [f .. f+n-1] does to the allocator. *)
Record allocated (s s' : pfa) (f n : Z) : Prop := {
  al_range : 0 <= f /\ f + n <= s_total_frames s;
  al_was_free x : f <= x < f + n -> free s x;
  al_taken x : f <= x < f + n -> occupied (pgt s' x) = true /\ pg_refcount (pgt s' x) = 1;
  al_free x : free s' x <-> free s x /\ ~ f <= x < f + n;
  al_others x : 0 <= x -> ~ f <= x < f + n ->
    occupied (pgt s' x) = occupied (pgt s x) /\ pg_refcount (pgt s' x) = pg_refcount (pgt s x);
  al_static : s_total_frames s' = s_total_frames s /\ s_start_addr s' = s_start_addr s /\
    s_percpu s' = s_percpu s;
  al_head : n <= order_to_frames (pg_order (pgt s' f)) <= 1024
}.

(** Taking a block off its list and splitting it down to order [t]. *)
Lemma carve_spec s f o t :
  pfa_inv s -> is_order o -> f ∈ area s o -> 0 <= t <= o ->
  exists s', (s ← buddy_remove s f o; if t <? o then jlos_page_frame_order_split s f o t else Some s) = Some s' /\
    pfa_inv s' /\ same_but_lists s s' /\ s_free_frames s' = s_free_frames s /\ block_ok s' f t /\
    (forall x, in_block f t x -> free s x) /\
    (forall x, free s' x <-> free s x /\ ~ in_block f t x).
Proof.
  intros HI Ho Hin Ht.
  assert (Hto : 2 ^ t <= 2 ^ o) by (apply Z.pow_le_mono_r; lia).
  assert (Hblk : forall x, in_block f o x -> free s x) by (intros x Hx; by exists o, f).
  rewrite (buddy_remove_eq s f o HI Ho Hin). cbn [mbind option_bind].
  pose proof (removed_inv s f o HI Ho Hin) as HI1. pose proof (removed_same s f o HI Ho Hin) as Hs1.
  pose proof (removed_free s f o HI Ho Hin) as Hf1. pose proof (removed_ok s f o HI Ho Hin) as Hok1.
  set (s1 := removed s f o) in *.
  destruct (order_split_spec t (Z.to_nat (o - t)) s1 f HI1) as (s2 & E2 & HI2 & Hs2 & Hff & Hok2 & Hf2);
    [lia|by replace (t + Z.of_nat (Z.to_nat (o - t))) with o by lia|].
  replace (t + Z.of_nat (Z.to_nat (o - t))) with o in Hf2 by lia.
  exists s2. split_and!; [|done|by eapply same_trans|by rewrite Hff|done| |].
  - destruct (Z.ltb_spec t o); [done|]. rewrite <- E2. by replace (o - t) with 0 by lia.
  - intros x Hx. apply Hblk. unfold in_block in *. lia.
  - intros x. rewrite Hf2, Hf1. specialize (Hblk x). unfold in_block in *.
    destruct (decide (f <= x < f + 2 ^ o)); intuition lia.
Qed.

(** The part of [jlos_page_frame_alloc_n] after a block has been chosen. *)
Lemma take_run_spec s f o t n :
  pfa_inv s -> is_order o -> f ∈ area s o -> 0 <= t <= o -> 0 < n <= 2 ^ t ->
  exists s', (s ← (s ← buddy_remove s f o; if t <? o then jlos_page_frame_order_split s f o t else Some s);
      let extra := u32 (order_to_frames t - n) in
      s ← (if extra =? 0 then Some s else buddy_free_range (Z.to_nat extra) s (f + n) extra);
      s ← upd_pages s f (Z.to_nat n) reserve_page;
      upd_page s f (set_order (u8 t))) = Some s' /\ pfa_inv s' /\ allocated s s' f n /\ f mod 2 ^ t = 0.
Proof.
  intros HI Ho Hin Ht Hn. pose proof (pi_total _ HI).
  assert (is_order t) as Hot by (unfold is_order in *; lia). pose proof (pow_order t Hot).
  destruct (carve_spec s f o t HI Ho Hin Ht) as (s2 & -> & HI2 & Hs2 & _ & [_ Hf Hal Hb Hlim] & Hblk & Hf2).
  cbn [mbind option_bind]. rewrite otf by (unfold is_order in Hot; lia). rewrite (u32_small (2 ^ t - n)) by lia.
  pose proof (sb_total _ _ Hs2).
  destruct (buddy_free_range_spec (Z.to_nat (2 ^ t - n)) s2 (f + n) (2 ^ t - n)) as
    (s3 & E3 & HI3 & Et3 & Es3 & Ep3 & _ & Hf3 & Hp3); [done| |lia|lia|].
  { split; [lia|]. split; [lia|]. intros x Hx.
    destruct (Hlim x) as (_ & _ & ? & ?); [unfold in_block; lia|done]. }
  assert ((if 2 ^ t - n =? 0 then Some s2 else buddy_free_range (Z.to_nat (2 ^ t - n)) s2 (f + n) (2 ^ t - n)) = Some s3) as ->.
  { destruct (Z.eqb_spec (2 ^ t - n) 0) as [E|]; [|done]. by rewrite E in E3. }
  cbn [mbind option_bind].
  assert (Hfree3 : forall x, free s3 x <-> free s x /\ ~ f <= x < f + n).
  { intros x. rewrite Hf3, Hf2. unfold in_block in *. specialize (Hblk x).
    destruct (decide (f <= x < f + 2 ^ t)); intuition lia. }
  destruct (reserve_run_spec s3 f n (u8 t) HI3) as (s4 & E4 & HI4 & Hsl4 & Hin4 & Hout4 & Hord4); [|lia|].
  { split; [done|]. split; [lia|]. intros x Hx. rewrite Hfree3. split; [lia|].
    unfold cached. rewrite Ep3. destruct (Hlim x) as (_ & _ & _ & ?); [unfold in_block; lia|done]. }
  exists s4. split; [exact E4|]. split; [done|]. split; [|done]. split.
  - lia.
  - intros x Hx. apply Hblk. unfold in_block. lia.
  - done.
  - intros x. by rewrite (same_lists_free s3 s4).
  - intros x Hx Hnx. rewrite Hout4 by done. destruct (Hp3 x Hx) as [-> ->].
    pose proof (sb_pages _ _ Hs2 x Hx) as Hsp. rewrite <- (same_occ _ _ Hsp).
    destruct Hsp as (_ & _ & _ & -> & _). split; [|done].
    goal_decide; [|done]. symmetry. destruct (Hlim x) as (_ & ? & _); [unfold in_block; lia|done].
  - rewrite (sl_total _ _ Hsl4), (sl_start _ _ Hsl4), (sl_percpu _ _ Hsl4), Et3, Es3, Ep3.
    rewrite (sb_start _ _ Hs2), (sb_percpu _ _ Hs2). split_and!; done || lia.
  - rewrite Hord4, u8_small, otf by (unfold is_order in Hot; lia). lia.
Qed.

Lemma with_free_inv s n : pfa_inv s -> pfa_inv (with_free s n).
Proof. intros []. by split. Qed.

(** The start of every allocator: no block on a list, no frame cached, no order
    on a page. *)
Definition blank (s : pfa) : Prop :=
  0 <= s_total_frames s < 2 ^ 20 /\ zlen (s_pages s) = s_total_frames s /\
  s_free_area s = replicate 11 [] /\ s_free_order_bitmap s = 0 /\
  (forall pc, pc ∈ s_percpu s -> pc = ([], 0)) /\
  (forall x, 0 <= x < s_total_frames s -> pg_order (pgt s x) = ORDER_INVALID).

Lemma blank_area s o : blank s -> is_order o -> area s o = [].
Proof.
  intros (_ & _ & Ha & _) Ho. unfold area. rewrite Ha. apply lookup_total_replicate_2. unfold is_order in Ho. lia.
Qed.
Lemma blank_free s x : blank s -> ~ free s x.
Proof. intros Hb (o & f & Ho & Hf & _). rewrite (blank_area s o Hb Ho) in Hf. set_solver. Qed.
Lemma blank_cached s x : blank s -> ~ cached s x.
Proof. intros (_ & _ & _ & _ & Hp & _) (pc & Hpc & Hx). rewrite (Hp pc Hpc) in Hx. set_solver. Qed.

Lemma blank_inv s : blank s -> pfa_inv s.
Proof.
  intros Hb. pose proof Hb as (Ht & Hl & Ha & Hbm & Hp & Ho). split; try done.
  - by rewrite Ha.
  - intros o f Hoo Hf. rewrite (blank_area s o Hb Hoo) in Hf. set_solver.
  - intros o o' f f' x Hoo _ Hf. rewrite (blank_area s o Hb Hoo) in Hf. set_solver.
  - intros o Hoo. rewrite (blank_area s o Hb Hoo). constructor.
  - intros x Hx _ Hne. by apply Ho in Hx.
  - intros o Hoo. rewrite Hbm, Z.bits_0. split; [done|]. intros [Hio Hne]. by rewrite blank_area in Hne.
  - by rewrite Hbm.
  - intros x Hx. by apply blank_cached in Hx.
  - intros pc Hpc. rewrite (Hp pc Hpc). split; [constructor|done].
  - intros i j pc pc' x Hi _ Hx. apply list_elem_of_lookup_2 in Hi. rewrite (Hp pc Hi) in Hx. set_solver.
Qed.

(** [blank] states and single-frame caches, used by the witnesses. *)
Definition blank_state (n : Z) (cpus : nat) : pfa :=
  Pfa n 0 (replicate (Z.to_nat n) (Page 0 0 ORDER_INVALID 0 0 0)) (replicate 11 []) 0 0 (replicate cpus ([], 0)).

Lemma blank_state_blank n cpus : 0 <= n < 2 ^ 20 -> blank (blank_state n cpus).
Proof.
  intros Hn. split_and!; simpl; try done || lia.
  - rewrite length_replicate. lia.
  - intros pc Hpc. apply elem_of_replicate in Hpc. tauto.
  - intros x Hx. unfold pgt. simpl. by rewrite lookup_total_replicate_2 by lia.
Qed.

(** One free block of 16 frames. *)
Definition one_block : pfa := inserted (blank_state 16 2) 0 4.
Lemma one_block_inv : pfa_inv one_block.
Proof.
  pose proof (blank_state_blank 16 2 ltac:(lia)) as Hb. pose proof (blank_inv _ Hb) as HI.
  apply inserted_inv; [done|unfold is_order; lia|done|done|done|]. intros x Hx. unfold in_block in Hx. simpl in Hx. split; [simpl; lia|]. split; [|split].
  - unfold pgt. simpl. assert (exists k, (k < 16)%nat /\ Z.to_nat x = k) as (k & Hk & ->) by (exists (Z.to_nat x); lia).
    do 16 (destruct k; [done|]). lia.
  - by apply blank_free.
  - by apply blank_cached.
Qed.

Lemma alloc_n_spec (s : pfa) (n : Z) :
  pfa_inv s -> 0 <= n < 2 ^ 32 ->
  exists s' r, jlos_page_frame_alloc_n s n = Some (s', r) /\ pfa_inv s' /\
    match r with
    | None => s' = s /\ (n = 0 \/ s_total_frames s < n \/
                forall o, is_order o -> frames_to_order n <= o -> area s o = [])
    | Some a => exists f, a = frame_addr s f /\ allocated s s' f n /\ f mod 2 ^ frames_to_order n = 0
    end.
Proof.
  intros HI Hn. unfold jlos_page_frame_alloc_n. pose proof (pi_total _ HI).
  destruct (Z.eqb_spec n 0); [by exists s, None; cbn; auto|].
  destruct (Z.ltb_spec (s_total_frames s) n); [by exists s, None; cbn; auto 6|].
  cbn [orb]. destruct (frames_to_order_spec n ltac:(lia)) as (Ht & Hnt & _).
  set (t := frames_to_order n) in *. destruct (masked_order_spec s t HI Ht) as [Hz Hnz].
  destruct (Z.eqb_spec (Z.land (s_free_order_bitmap s) (u32 (Z.shiftl (2 ^ 32 - 1) t))) 0) as [E|E].
  { exists s, None. split_and!; eauto. }
  destruct (Hnz E) as (o & f & l & -> & Hto & Ho & Ea). cbn [mbind option_bind].
  rewrite (geti_area s o HI Ho). cbn [mbind option_bind]. rewrite Ea.
  destruct (take_run_spec s f o t n HI Ho) as (s' & Es & HI' & Hal & Hmod); [rewrite Ea; constructor|lia|lia|].
  revert Es. destruct (buddy_remove s f o) as [s1|]; cbn [mbind option_bind]; [|done].
  destruct (if t <? o then _ else _) as [s2|]; cbn [mbind option_bind]; [|done].
  destruct (if _ =? 0 then _ else _) as [s3|]; cbn [mbind option_bind]; [|done].
  destruct (upd_pages _ _ _ _) as [s4|]; cbn [mbind option_bind]; [|done]. intros ->. cbn [mbind option_bind].
  eexists _, _. split; [done|]. split; [by apply with_free_inv|]. exists f. destruct Hal as [? ? ? ? ? Hst ?].
  destruct Hst as (? & Hst & ?). split; [unfold frame_addr; simpl; by rewrite Hst|]. split; [|done]. by split.
Qed.

(** C15. [jlos_page_frame_alloc_n] on a consistent allocator never halts and keeps
    it consistent.  It either fails, changing nothing, because the request is
    empty, larger than memory, or no free list of a sufficient order has a block;
    or it returns the address of [n] consecutive frames, aligned to the block
    size, that were all free and are now occupied with one reference, and takes
    exactly those frames off the free lists, leaving every other frame's
    occupancy and count and the processor caches as they were.  Hence no frame is
    handed out twice. *)
Theorem alloc_n_correct (s : pfa) (n : Z) :
  pfa_inv s -> 0 <= n < 2 ^ 32 ->
  exists s' r, jlos_page_frame_alloc_n s n = Some (s', r) /\ pfa_inv s' /\
    match r with
    | None => s' = s /\ (n = 0 \/ s_total_frames s < n \/
                forall o, is_order o -> frames_to_order n <= o -> area s o = [])
    | Some a => exists f, a = frame_addr s f /\ allocated s s' f n /\ f mod 2 ^ frames_to_order n = 0
    end.
Proof. apply alloc_n_spec. Qed.

Lemma alloc_n_correct_witness :
  exists s' r, jlos_page_frame_alloc_n one_block 3 = Some (s', r) /\ pfa_inv s' /\
    match r with
    | None => s' = one_block /\ (3 = 0 \/ s_total_frames one_block < 3 \/
                forall o, is_order o -> frames_to_order 3 <= o -> area one_block o = [])
    | Some a => exists f, a = frame_addr one_block f /\ allocated one_block s' f 3 /\ f mod 2 ^ frames_to_order 3 = 0
    end.
Proof. apply (alloc_n_correct one_block 3); [exact one_block_inv|lia]. Defined.

(** ** Freeing several frames *)

Lemma occupied_detached s x :
  pfa_inv s -> 0 <= x < s_total_frames s -> occupied (pgt s x) = true -> ~ free s x /\ ~ cached s x.
Proof.
  intros HI Hx Ho. split.
  - intros (o & f & Hor & Hf & Hb). destruct (pi_block _ HI o f Hor Hf) as (_ & _ & _ & _ & Hn).
    by rewrite Hn in Ho.
  - intros Hc. destruct (pi_cached _ HI x Hc) as (_ & Hn & _). by rewrite Hn in Ho.
Qed.

Lemma phys_to_frame_addr s f :
  0 <= s_start_addr s -> 0 <= f < s_total_frames s -> s_start_addr s + s_total_frames s * FRAME_SIZE < 2 ^ 32 ->
  pfa_phys_to_frame s (frame_addr s f) = f /\ frame_addr s f = s_start_addr s + f * FRAME_SIZE /\
  u32 (frame_addr s f + FRAME_SIZE) = frame_addr s (f + 1).
Proof.
  intros Hs Hf Hm. unfold pfa_phys_to_frame, frame_addr, FRAME_SIZE in *.
  rewrite !(u32_small (_ * 4096)) by lia. rewrite (u32_small (s_start_addr s + f * 4096)) by lia. split_and!; [|done|].
  - replace (s_start_addr s + f * 4096 - s_start_addr s) with (f * 4096) by lia.
    rewrite u32_small by lia. apply Z.div_mul. lia.
  - f_equal. lia.
Qed.

Lemma set_refcount_inv s x r :
  pfa_inv s -> 0 <= x < s_total_frames s -> occupied (pgt s x) = true ->
  exists s', upd_page s x (set_refcount r) = Some s' /\ pfa_inv s' /\ same_lists s s' /\
    forall y, 0 <= y -> pgt s' y = if decide (y = x) then set_refcount r (pgt s x) else pgt s y.
Proof.
  intros HI Hx Ho. destruct (upd_page_spec s x (set_refcount r) HI Hx) as (s' & -> & Hsl & Hp).
  exists s'. split_and!; [done| |done|done]. eapply inv_pages; [done|done|]. intros y Hy. rewrite Hp by lia.
  goal_decide; [subst y; right|by left]. destruct (occupied_detached s x HI Hx Ho) as [? ?]. by split_and!; [..|left].
Qed.

(** The frames that lose their last reference, in the order they are collected. *)
Definition last_refs (s : pfa) (h n : Z) : list Z := filter (fun x => pg_refcount (pgt s x) = 1) (seqZ h n).

Lemma drop_refs_spec n : forall s h acc,
  pfa_inv s -> 0 <= s_start_addr s -> s_start_addr s + s_total_frames s * FRAME_SIZE < 2 ^ 32 ->
  0 <= h -> h + Z.of_nat n <= s_total_frames s -> (length acc + n <= 1024)%nat ->
  (forall x, h <= x < h + Z.of_nat n -> occupied (pgt s x) = true /\ 0 < pg_refcount (pgt s x)) ->
  exists s', drop_refs n s (frame_addr s h) acc = Some (s', acc ++ last_refs s h (Z.of_nat n)) /\
    pfa_inv s' /\ same_lists s s' /\
    forall y, 0 <= y -> pgt s' y = if decide (h <= y < h + Z.of_nat n)
                                   then set_refcount (pg_refcount (pgt s y) - 1) (pgt s y) else pgt s y.
Proof.
  induction n as [|n IH]; intros s h acc HI Hst Hm Hh Hb Hacc Hocc; cbn [drop_refs].
  { exists s. unfold last_refs. simpl. rewrite app_nil_r. split_and!; [done|done|apply same_lists_refl|].
    intros y Hy. by rewrite decide_False by lia. }
  destruct (phys_to_frame_addr s h Hst ltac:(lia) Hm) as (-> & _ & ->).
  destruct (Z.leb_spec (s_total_frames s) h); [lia|]. rewrite geti_page by (done || lia). cbn [mbind option_bind].
  destruct (Hocc h ltac:(lia)) as [Ho Hr]. destruct (Z.eqb_spec (pg_refcount (pgt s h)) 0); [lia|].
  destruct (Z.ltb_spec 0 (pg_refcount (pgt s h))); [|lia].
  destruct (set_refcount_inv s h (pg_refcount (pgt s h) - 1) HI ltac:(lia) Ho) as (s1 & -> & HI1 & Hsl1 & Hp1).
  cbn [mbind option_bind]. pose proof Hsl1 as [Et1 Es1 _ _ _ _ _].
  assert (Hsame : forall y, h + 1 <= y < h + 1 + Z.of_nat n -> pgt s1 y = pgt s y).
  { intros y Hy. by rewrite Hp1, decide_False by lia. }
  assert (Hlast : last_refs s h (Z.of_nat (S n)) =
    (if decide (pg_refcount (pgt s h) = 1) then [h] else []) ++ last_refs s1 (h + 1) (Z.of_nat n)).
  { unfold last_refs. rewrite seqZ_cons by lia. rewrite filter_cons. replace (Z.pred (Z.of_nat (S n))) with (Z.of_nat n) by lia.
    replace (Z.succ h) with (h + 1) by lia.
    assert (filter (fun x => pg_refcount (pgt s x) = 1) (seqZ (h + 1) (Z.of_nat n)) =
            filter (fun x => pg_refcount (pgt s1 x) = 1) (seqZ (h + 1) (Z.of_nat n))) as ->; [|by case_decide].
    apply filter_ext_elem. intros x Hx%elem_of_seqZ. by rewrite Hsame by lia. }
  assert (Haddr : frame_addr s (h + 1) = frame_addr s1 (h + 1)) by (unfold frame_addr; by rewrite Es1).
  set (acc' := acc ++ (if decide (pg_refcount (pgt s h) = 1) then [h] else [])).
  destruct (IH s1 (h + 1) acc') as (s' & E & HI' & Hsl' & Hp'); try lia; [done| | |].
  { unfold acc'. case_decide; rewrite length_app; simpl; lia. }
  { intros x Hx. rewrite Hsame by lia. apply Hocc. lia. }
  exists s'. split_and!; [|done|by eapply same_lists_trans|].
  - rewrite Hlast, app_assoc, Haddr. fold acc'. rewrite <- E. unfold acc'.
    destruct (Z.eqb_spec (pg_refcount (pgt s h)) 1) as [E1|E1].
    + rewrite decide_True by done. destruct (Nat.eqb_spec (length acc) 1024); [lia|done].
    + rewrite decide_False by done. by rewrite app_nil_r.
  - intros y Hy. rewrite Hp' by done. destruct (decide (y = h)) as [->|Hne].
    + rewrite (decide_False (P := h + 1 <= _ < _)) by lia. rewrite Hp1 by done. rewrite !decide_True by lia. done.
    + rewrite Hp1 by done. rewrite (decide_False (P := y = h)) by done. repeat case_decide; try lia; done.
Qed.

Lemma seqZ_sorted h n : StronglySorted Z.lt (seqZ h n).
Proof.
  destruct (decide (0 <= n)) as [Hn|]; [|rewrite seqZ_nil by lia; constructor]. revert h.
  replace n with (Z.of_nat (Z.to_nat n)) by lia. generalize (Z.to_nat n). clear Hn n.
  induction n as [|n IH]; intros h; [constructor|]. rewrite seqZ_cons by lia.
  replace (Z.pred (Z.of_nat (S n))) with (Z.of_nat n) by lia. constructor; [apply IH|].
  apply Forall_forall. intros x Hx%elem_of_seqZ. lia.
Qed.

Lemma sorted_filter {A} (R : A -> A -> Prop) (P : A -> Prop) `{!forall x, Decision (P x)} (l : list A) :
  StronglySorted R l -> StronglySorted R (filter P l).
Proof.
  induction 1 as [|x l Hs IH Hf]; [constructor|]. rewrite filter_cons. case_decide; [|done].
  constructor; [done|]. apply Forall_forall. intros y Hy%list_elem_of_filter. rewrite Forall_forall in Hf. apply Hf, Hy.
Qed.

(** The insertion sort does nothing to frames collected in order. *)
Lemma sort_frames_sorted l : StronglySorted Z.lt l -> sort_frames l = l.
Proof.
  assert (Hi : forall acc v, (forall x, x ∈ acc -> x < v) -> sort_insert v acc = acc ++ [v]).
  { induction acc as [|y acc IH]; intros v Hv; [done|]. simpl.
    assert (y < v) by (apply Hv; constructor). destruct (Z.ltb_spec v y); [lia|].
    f_equal. apply IH. intros x Hx. apply Hv. by constructor. }
  assert (H : forall l acc, StronglySorted Z.lt l -> (forall x y, x ∈ acc -> y ∈ l -> x < y) ->
    foldl (fun acc v => sort_insert v acc) acc l = acc ++ l); [|intros Hs; apply (H l [] Hs); set_solver].
  clear l. induction l as [|v l IH]; intros acc Hs Hlt; simpl; [by rewrite app_nil_r|].
  apply StronglySorted_inv in Hs as [Hs Hf]. rewrite Forall_forall in Hf.
  rewrite Hi by (intros; apply Hlt; [done|constructor]). rewrite IH; [by rewrite <- app_assoc|done|].
  intros x y Hx Hy. apply elem_of_app in Hx as [Hx| ->%list_elem_of_singleton]; [|by apply Hf].
  apply Hlt; [done|by constructor].
Qed.

(** Frames made free, everything else as it was. *)
Record freed (s s' : pfa) (P : Z -> Prop) : Prop := {
  fr_static : s_total_frames s' = s_total_frames s /\ s_start_addr s' = s_start_addr s /\ s_percpu s' = s_percpu s;
  fr_free x : free s' x <-> free s x \/ P x;
  fr_refcount x : 0 <= x -> pg_refcount (pgt s' x) = pg_refcount (pgt s x);
  fr_clear x : 0 <= x -> P x -> occupied (pgt s' x) = false;
  fr_occ x : 0 <= x -> ~ P x -> occupied (pgt s' x) = occupied (pgt s x)
}.

Lemma freed_trans s1 s2 s3 P Q :
  (forall x, Decision (Q x)) -> freed s1 s2 P -> freed s2 s3 Q -> freed s1 s3 (fun x => P x \/ Q x).
Proof.
  intros Hd [(A1 & A2 & A3) A4 A5 A6 A7] [(B1 & B2 & B3) B4 B5 B6 B7]. split.
  - split_and!; congruence.
  - intros x. rewrite B4, A4. tauto.
  - intros x Hx. by rewrite B5, A5.
  - intros x Hx Hp. destruct (decide (Q x)) as [|Hq]; [by apply B6|]. rewrite B7 by done. apply A6; tauto.
  - intros x Hx Hp. rewrite B7, A7 by tauto. done.
Qed.
Lemma freed_ext s s' P Q : (forall x, P x <-> Q x) -> freed s s' P -> freed s s' Q.
Proof. intros H [? H1 ? H2 H3]. split; try done; intros x; rewrite <- H; auto. Qed.

Lemma buddy_free_range_freed s f n :
  pfa_inv s -> detached s f n -> 0 <= n <= 1024 ->
  exists s', buddy_free_range (Z.to_nat n) s f n = Some s' /\ pfa_inv s' /\ freed s s' (fun x => f <= x < f + n).
Proof.
  intros HI Hd Hn. destruct (buddy_free_range_spec (Z.to_nat n) s f n HI Hd Hn ltac:(lia)) as
    (s' & -> & HI' & H1 & H2 & H3 & _ & H4 & H5). exists s'. split_and!; [done..|].
  split; [done|done|apply H5| |]; intros x Hx Hp; destruct (H5 x Hx) as [_ ->];
    [by rewrite decide_True by exact Hp|by rewrite decide_False by exact Hp].
Qed.

Lemma free_runs_spec l : forall s start len,
  pfa_inv s -> detached s start len -> 1 <= len -> len + zlen l <= 1024 -> StronglySorted Z.lt l ->
  (forall x, x ∈ l -> start + len <= x < s_total_frames s /\ ~ free s x /\ ~ cached s x) ->
  exists s', free_runs s start len l = Some s' /\ pfa_inv s' /\
    freed s s' (fun x => start <= x < start + len \/ x ∈ l).
Proof.
  induction l as [|f l IH]; intros s start len HI Hd Hlen Hn Hs Hl; cbn [free_runs].
  { destruct (buddy_free_range_freed s start len HI Hd ltac:(simpl in Hn; lia)) as (s' & -> & HI' & Hfr).
    exists s'. split_and!; [done..|]. eapply freed_ext; [|done]. intros x. rewrite elem_of_nil. tauto. }
  apply StronglySorted_inv in Hs as [Hs Hf]. rewrite Forall_forall in Hf. simpl in Hn.
  destruct (Hl f ltac:(constructor)) as (Hfr & Hnf & Hnc). pose proof (pi_total _ HI). pose proof Hd as (Hd0 & _ & Hd2).
  rewrite u32_small by lia. destruct (Z.eqb_spec f (start + len)) as [->|Hne].
  - destruct (IH s start (len + 1)) as (s' & -> & HI' & Hfrd); try done; try lia.
    { split; [done|]. split; [lia|]. intros x Hx. destruct (decide (x = start + len)) as [->|]; [done|]. apply Hd2. lia. }
    { intros x Hx. specialize (Hf x Hx). destruct (Hl x) as (? & ? & ?); [by constructor|]. split; [lia|done]. }
    exists s'. split_and!; [done..|]. eapply freed_ext; [|done]. intros x. rewrite elem_of_cons. intuition lia.
  - destruct (buddy_free_range_freed s start len HI Hd ltac:(lia)) as (s1 & -> & HI1 & Hfr1). cbn [mbind option_bind].
    pose proof Hfr1 as [(Et & _ & Ep) Hfree1 _ _ _].
    assert (Hkeep : forall x, start + len <= x -> ~ free s x -> ~ cached s x -> ~ free s1 x /\ ~ cached s1 x).
    { intros x Hx H1 H2. unfold cached. rewrite Ep, Hfree1. split; [|done]. intros [?|?]; [done|lia]. }
    destruct (IH s1 f 1) as (s' & -> & HI' & Hfrd); try done; try lia.
    { split; [lia|]. split; [lia|]. intros x Hx. assert (x = f) as -> by lia. by apply Hkeep; [lia|..]. }
    { intros x Hx. specialize (Hf x Hx). destruct (Hl x) as (? & ? & ?); [by constructor|]. split; [lia|].
      by apply Hkeep; [lia|..]. }
    exists s'. split_and!; [done..|]. eapply freed_ext; [|by eapply freed_trans; [|exact Hfr1|exact Hfrd]; intros; apply _].
    intros x. cbn beta. rewrite elem_of_cons. intuition lia.
Qed.

(** The second half of [jlos_page_frame_free_n]: freeing a sorted set of frames. *)
Lemma free_collected_spec s l :
  pfa_inv s -> StronglySorted Z.lt l -> zlen l <= 1024 ->
  (forall x, x ∈ l -> 0 <= x < s_total_frames s /\ ~ free s x /\ ~ cached s x) ->
  exists s', match l with [] => Some s | f :: l => free_runs s f 1 l end = Some s' /\ pfa_inv s' /\
    freed s s' (fun x => x ∈ l).
Proof.
  intros HI Hs Hlen Hl. destruct l as [|f l].
  - exists s. split_and!; [done..|]. split; try done; [intros x; split; [by left|]|intros x _]; set_solver.
  - apply StronglySorted_inv in Hs as [Hs Hf]. rewrite Forall_forall in Hf.
    destruct (Hl f ltac:(constructor)) as (Hfr & Hnf & Hnc). simpl in Hlen.
    destruct (free_runs_spec l s f 1) as (s' & -> & HI' & Hfrd); try done; try lia.
    + split; [lia|]. split; [lia|]. intros x Hx. assert (x = f) as -> by lia. done.
    + intros x Hx. specialize (Hf x Hx). destruct (Hl x) as (? & ? & ?); [by constructor|]. by split; [lia|].
    + exists s'. split_and!; [done..|]. eapply freed_ext; [|done]. intros x. rewrite elem_of_cons. intuition lia.
Qed.

Lemma free_n_spec (s : pfa) (h n : Z) :
  pfa_inv s -> 0 <= s_start_addr s -> s_start_addr s + s_total_frames s * FRAME_SIZE < 2 ^ 32 ->
  0 <= h -> 0 <= n <= 1024 -> h + n <= s_total_frames s ->
  (forall x, h <= x < h + n -> occupied (pgt s x) = true /\ 0 < pg_refcount (pgt s x)) ->
  (pg_order (pgt s h) = ORDER_INVALID \/ n <= order_to_frames (pg_order (pgt s h))) ->
  exists s', jlos_page_frame_free_n s (frame_addr s h) n = Some s' /\ pfa_inv s' /\
    (forall x, free s' x <-> free s x \/ h <= x < h + n /\ pg_refcount (pgt s x) = 1) /\
    (forall x, h <= x < h + n -> pg_refcount (pgt s' x) = pg_refcount (pgt s x) - 1 /\
       occupied (pgt s' x) = negb (pg_refcount (pgt s x) =? 1)) /\
    (forall x, 0 <= x -> ~ h <= x < h + n ->
       pg_refcount (pgt s' x) = pg_refcount (pgt s x) /\ occupied (pgt s' x) = occupied (pgt s x)) /\
    s_percpu s' = s_percpu s /\ s_total_frames s' = s_total_frames s /\ s_start_addr s' = s_start_addr s.
Proof.
  intros HI Hst Hm Hh Hn Hb Hocc Hhd. unfold jlos_page_frame_free_n.
  destruct (drop_refs_spec (Z.to_nat n) s h [] HI Hst Hm Hh) as (s1 & -> & HI1 & Hsl1 & Hp1); [lia|simpl; lia| |].
  { intros x Hx. apply Hocc. lia. }
  rewrite Z2Nat.id in * by lia. cbn [mbind option_bind app].
  assert (Hel : forall x, x ∈ last_refs s h n <-> h <= x < h + n /\ pg_refcount (pgt s x) = 1).
  { intros x. unfold last_refs. rewrite list_elem_of_filter, elem_of_seqZ. tauto. }
  assert (Hsorted : StronglySorted Z.lt (last_refs s h n)) by (apply sorted_filter, seqZ_sorted).
  assert (zlen (last_refs s h n) <= n).
  { unfold last_refs. pose proof (length_filter (fun x => pg_refcount (pgt s x) = 1) (seqZ h n)) as Hle.
    rewrite length_seqZ in Hle. lia. }
  assert (Hdet : forall x, x ∈ last_refs s h n -> ~ free s1 x /\ ~ cached s1 x).
  { intros x [Hx _]%Hel. rewrite (same_lists_free s s1), (same_lists_cached s s1) by done.
    apply occupied_detached; [done|lia|]. by apply Hocc. }
  rewrite sort_frames_sorted by done. pose proof (sl_total _ _ Hsl1) as Et. pose proof (sl_percpu _ _ Hsl1) as Ep.
  destruct (free_collected_spec s1 (last_refs s h n) HI1 Hsorted ltac:(lia)) as (s' & E & HI' & Hfrd).
  { intros x Hx. split; [|by apply Hdet]. destruct (proj1 (Hel x) Hx) as [? _]. lia. }
  apply (freed_ext _ _ _ _ Hel) in Hfrd as [(Et' & Es' & Ep') F1 F2 F3 F4].
  pose proof (sl_start _ _ Hsl1) as Es. exists s'. split_and!; [|done| | | |congruence..].
  - rewrite <- E. destruct (last_refs s h n) as [|f l] eqn:El; [done|]. assert (0 < n) by (simpl in *; lia).
    assert (pfa_phys_to_frame s (frame_addr s h) = h) as -> by (apply phys_to_frame_addr; done || lia).
    destruct (Z.ltb_spec h (s_total_frames s1)); [|lia]. rewrite geti_page by (done || lia). cbn [mbind option_bind].
    rewrite Hp1, decide_True by lia. cbn [pg_order set_refcount].
    destruct Hhd as [->|?]; [done|]. destruct (Z.ltb_spec (order_to_frames (pg_order (pgt s h))) n); [lia|].
    by rewrite andb_false_r.
  - intros x. by rewrite F1, (same_lists_free s s1).
  - intros x Hx. rewrite F2, Hp1, decide_True by lia. split; [done|]. destruct (Hocc x Hx) as [Ho _].
    destruct (Z.eqb_spec (pg_refcount (pgt s x)) 1); [by apply F3; [lia|]|].
    rewrite F4 by (lia || tauto). by rewrite Hp1, decide_True by lia.
  - intros x Hx Hnx. rewrite F2, F4, Hp1, decide_False by (lia || tauto). done.
Qed.

(** C16. [jlos_page_frame_free_n] on a run of allocated frames never halts, drops
    one reference of each, and returns exactly the frames that lost their last
    reference to the free lists, coalesced with their buddies; frames still shared
    stay occupied, every other frame and the processor caches are untouched, and
    the allocator stays consistent.  The run may not be longer than the block its
    head was allocated as (the corruption check of the code) nor than the 1024
    entries of the code's local array. *)
Theorem free_n_correct (s : pfa) (h n : Z) :
  pfa_inv s -> 0 <= s_start_addr s -> s_start_addr s + s_total_frames s * FRAME_SIZE < 2 ^ 32 ->
  0 <= h -> 0 <= n <= 1024 -> h + n <= s_total_frames s ->
  (forall x, h <= x < h + n -> occupied (pgt s x) = true /\ 0 < pg_refcount (pgt s x)) ->
  (pg_order (pgt s h) = ORDER_INVALID \/ n <= order_to_frames (pg_order (pgt s h))) ->
  exists s', jlos_page_frame_free_n s (frame_addr s h) n = Some s' /\ pfa_inv s' /\
    (forall x, free s' x <-> free s x \/ h <= x < h + n /\ pg_refcount (pgt s x) = 1) /\
    (forall x, h <= x < h + n -> pg_refcount (pgt s' x) = pg_refcount (pgt s x) - 1 /\
       occupied (pgt s' x) = negb (pg_refcount (pgt s x) =? 1)) /\
    (forall x, 0 <= x -> ~ h <= x < h + n ->
       pg_refcount (pgt s' x) = pg_refcount (pgt s x) /\ occupied (pgt s' x) = occupied (pgt s x)) /\
    s_percpu s' = s_percpu s.
Proof.
  intros HI Hst Hm Hh Hn Hb Hocc Hhd.
  destruct (free_n_spec s h n HI Hst Hm Hh Hn Hb Hocc Hhd) as (s' & H1 & H2 & H3 & H4 & H5 & H6 & _). by exists s'.
Qed.

(** Sixteen frames, all allocated. *)
Definition used_state : pfa :=
  Pfa 16 0 (replicate 16 (Page 1 0 ORDER_INVALID 0 1 0)) (replicate 11 []) 0 0 (replicate 2 ([], 0)).
Lemma used_state_page x : 0 <= x < 16 -> pgt used_state x = Page 1 0 ORDER_INVALID 0 1 0.
Proof. intros Hx. apply (lookup_total_replicate_2 16). lia. Qed.
Lemma used_state_inv : pfa_inv used_state.
Proof.
  apply blank_inv. split_and!; try done.
  - intros pc Hpc. apply (elem_of_replicate 2 ([], 0)) in Hpc. tauto.
  - intros x Hx. by rewrite used_state_page.
Qed.

Lemma free_n_correct_witness :
  exists s', jlos_page_frame_free_n used_state (frame_addr used_state 2) 5 = Some s' /\ pfa_inv s' /\
    (forall x, free s' x <-> free used_state x \/ 2 <= x < 2 + 5 /\ pg_refcount (pgt used_state x) = 1) /\
    (forall x, 2 <= x < 2 + 5 -> pg_refcount (pgt s' x) = pg_refcount (pgt used_state x) - 1 /\
       occupied (pgt s' x) = negb (pg_refcount (pgt used_state x) =? 1)) /\
    (forall x, 0 <= x -> ~ 2 <= x < 2 + 5 ->
       pg_refcount (pgt s' x) = pg_refcount (pgt used_state x) /\
       occupied (pgt s' x) = occupied (pgt used_state x)) /\
    s_percpu s' = s_percpu used_state.
Proof.
  apply (free_n_correct used_state 2 5);
    [exact used_state_inv|simpl; lia|simpl; unfold FRAME_SIZE; lia|lia|lia|simpl; lia| |left; reflexivity].
  intros x Hx. rewrite used_state_page by lia. split; [reflexivity|simpl; lia].
Defined.
