(* ===== verification/PfaCpu.v ===== *)
(** * Single frames and boot of the page frame allocator

    The processor caches in front of the buddy system of [Pfa]: popping, pushing,
    refilling and draining move frames between the caches and the free lists, and
    the single-frame operations built on them neither lose a frame nor hand one
    out twice.  Last, the boot sequence establishes the invariant of [PfaInv]. *)
From S2P Require Import Prelude Bitmap Pfa PfaInv.

(** The frames the allocator can still hand out. *)
Definition pool (s : pfa) (x : Z) : Prop := free s x \/ cached s x.

(** A step that moves frames between lists and caches: occupancy and the records of
    allocated frames stay. *)
Record moves (s s' : pfa) : Prop := {
  mv_total : s_total_frames s' = s_total_frames s;
  mv_start : s_start_addr s' = s_start_addr s;
  mv_cpus : length (s_percpu s') = length (s_percpu s);
  mv_occ x : 0 <= x -> occupied (pgt s' x) = occupied (pgt s x);
  mv_page x : 0 <= x -> occupied (pgt s x) = true -> same_page (pgt s' x) (pgt s x)
}.

(** Neither the frames nor the processors change. *)
Definition same_shape (s s' : pfa) : Prop :=
  s_total_frames s' = s_total_frames s /\ s_start_addr s' = s_start_addr s /\
  length (s_percpu s') = length (s_percpu s).

Lemma moves_refl s : moves s s.
Proof. by split. Qed.
Lemma moves_trans s1 s2 s3 : moves s1 s2 -> moves s2 s3 -> moves s1 s3.
Proof.
  intros [A1 A2 A3 A4 A5] [B1 B2 B3 B4 B5]. split; try congruence.
  - intros x Hx. by rewrite B4, A4.
  - intros x Hx Ho. eapply same_page_trans; [apply B5; [done|]; by rewrite A4|by apply A5].
Qed.
Lemma same_moves s s' : same_but_lists s s' -> moves s s'.
Proof.
  intros [H1 H2 H3 H4]. split; [done|done|by rewrite H3| |].
  - intros x Hx. by apply same_occ, H4.
  - intros x Hx _. by apply H4.
Qed.

Lemma in_pool s x : pfa_inv s -> pool s x -> 0 <= x < s_total_frames s /\ occupied (pgt s x) = false.
Proof.
  intros HI [(o & f & Ho & Hf & Hx)|Hc].
  - destruct (pi_block _ HI o f Ho Hf) as (? & _ & ? & _ & Hocc). split; [unfold in_block in Hx; lia|by apply Hocc].
  - destruct (pi_cached _ HI x Hc) as (? & ? & _). done.
Qed.

(** ** The cache of one processor *)

Lemma nodup_range (l : list Z) (n : Z) : NoDup l -> (forall x, x ∈ l -> 0 <= x < n) -> zlen l <= Z.max 0 n.
Proof.
  intros Hnd Hr. assert (l ⊆+ seqZ 0 n) as Hs%submseteq_length.
  { apply NoDup_submseteq; [done|]. intros x Hx. apply elem_of_seqZ. apply Hr in Hx. lia. }
  rewrite length_seqZ in Hs. lia.
Qed.

Section cache.
Context (s : pfa) (i : nat) (l : list Z) (c : Z).
Hypothesis HI : pfa_inv s.
Hypothesis Hi : s_percpu s !! i = Some (l, c).

Lemma cache_count : c = zlen l /\ 0 <= c < 2 ^ 20.
Proof using HI Hi.
  apply list_elem_of_lookup_2 in Hi as Hel. destruct (pi_cpu _ HI _ Hel) as [Hnd Hc]. simpl in *. split; [done|].
  pose proof (pi_total _ HI). assert (zlen l <= Z.max 0 (s_total_frames s)); [|lia].
  apply nodup_range; [done|]. intros x Hx. apply (pi_cached _ HI). by exists (l, c).
Qed.

Lemma cached_set l' c' x :
  cached (with_percpu s (<[i := (l', c')]> (s_percpu s))) x <->
  x ∈ l' \/ exists j pc, j <> i /\ s_percpu s !! j = Some pc /\ x ∈ pc.1.
Proof using Hi.
  unfold cached. simpl. split.
  - intros (pc & Hpc & Hx). apply list_elem_of_lookup in Hpc as [j Hj].
    destruct (decide (j = i)) as [->|Hne].
    + rewrite list_lookup_insert_eq in Hj by (eapply lookup_lt_Some; done). simplify_eq. by left.
    + rewrite list_lookup_insert_ne in Hj by done. right. by exists j, pc.
  - intros [Hx|(j & pc & Hne & Hj & Hx)].
    + exists (l', c'). split; [|done]. apply list_elem_of_lookup. exists i.
      apply list_lookup_insert_eq. by eapply lookup_lt_Some.
    + exists pc. split; [|done]. apply list_elem_of_lookup. exists j. by rewrite list_lookup_insert_ne.
Qed.

Lemma cached_split x : cached s x <-> x ∈ l \/ exists j pc, j <> i /\ s_percpu s !! j = Some pc /\ x ∈ pc.1.
Proof using Hi.
  rewrite <- (cached_set l c). unfold with_percpu, cached. simpl. by rewrite list_insert_id.
Qed.

(** Replacing the cache of processor [i] by frames that are limbo or were in it. *)
Lemma recache_inv l' :
  NoDup l' -> (forall x, x ∈ l' -> x ∈ l \/ limbo s x) ->
  pfa_inv (with_percpu s (<[i := (l', zlen l')]> (s_percpu s))).
Proof using HI Hi.
  intros Hnd Hl. assert (Hlt : (i < length (s_percpu s))%nat) by (by eapply lookup_lt_Some).
  assert (Hother : forall j pc x, j <> i -> s_percpu s !! j = Some pc -> x ∈ pc.1 -> x ∈ l' -> False).
  { intros j pc x Hne Hj Hx Hx'. destruct (Hl x Hx') as [Hin|(_ & _ & _ & Hnc)].
    - apply Hne. by eapply (pi_cpus _ HI j i).
    - apply Hnc. exists pc. split; [by eapply list_elem_of_lookup_2|done]. }
  assert (Hsplit := cached_split).
  split; try by apply HI. { apply (pi_bm_range _ HI). }
  - intros x Hx. apply cached_set in Hx as [Hx|Hx]; [|by apply (pi_cached _ HI), Hsplit; right].
    destruct (Hl x Hx) as [Hin|Hlim]; [by apply (pi_cached _ HI), Hsplit; left|].
    pose proof (limbo_order s x HI Hlim). by destruct Hlim as (? & ? & ? & _).
  - intros pc Hpc. apply list_elem_of_lookup in Hpc as [j Hj]. simpl in Hj. destruct (decide (j = i)) as [->|Hne].
    + rewrite list_lookup_insert_eq in Hj by done. by simplify_eq.
    + rewrite list_lookup_insert_ne in Hj by done. apply (pi_cpu _ HI). by eapply list_elem_of_lookup_2.
  - intros j k pc pc' x Hj Hk Hx Hx'. simpl in Hj, Hk.
    destruct (decide (j = i)) as [->|Hj'], (decide (k = i)) as [->|Hk']; [done|..];
      rewrite ?list_lookup_insert_eq in * by done; rewrite ?list_lookup_insert_ne in * by done; simplify_eq.
    + exfalso. by eapply (Hother k).
    + exfalso. by eapply (Hother j).
    + by eapply (pi_cpus _ HI).
Qed.
End cache.

Definition with_cache (s : pfa) (i : nat) (l : list Z) : pfa :=
  with_percpu s (<[i := (l, zlen l)]> (s_percpu s)).

Lemma with_cache_moves s i l : moves s (with_cache s i l).
Proof. split; try done. simpl. apply length_insert. Qed.

Lemma set_percpu_eq s i pc : (i < length (s_percpu s))%nat ->
  set_percpu s (Z.of_nat i) pc = Some (with_percpu s (<[i := pc]> (s_percpu s))).
Proof. intros Hi. unfold set_percpu. rewrite seti_Some by lia. simpl. by rewrite Nat2Z.id. Qed.

Lemma geti_percpu s i : geti (s_percpu s) (Z.of_nat i) = s_percpu s !! i.
Proof. unfold geti. destruct (Z.ltb_spec (Z.of_nat i) 0); [lia|]. by rewrite Nat2Z.id. Qed.

Lemma push_spec s i l c x :
  pfa_inv s -> s_percpu s !! i = Some (l, c) -> limbo s x ->
  set_percpu s (Z.of_nat i) (x :: l, u32 (c + 1)) = Some (with_cache s i (x :: l)) /\
  pfa_inv (with_cache s i (x :: l)) /\ (forall y, pool (with_cache s i (x :: l)) y <-> pool s y \/ y = x).
Proof.
  intros HI Hi Hx. destruct (cache_count s i l c HI Hi) as [-> Hc]. split_and!.
  - rewrite set_percpu_eq by (by eapply lookup_lt_Some). rewrite u32_small by lia. unfold with_cache.
    do 4 f_equal. simpl. lia.
  - apply (recache_inv s i l (zlen l)); [done|done| |].
    + apply NoDup_cons. split; [|apply (pi_cpu _ HI (l, zlen l)); by eapply list_elem_of_lookup_2].
      intros Hin. destruct Hx as (_ & _ & _ & Hnc). apply Hnc. exists (l, zlen l).
      split; [by eapply list_elem_of_lookup_2|done].
    + intros y [->|Hy]%elem_of_cons; [by right|by left].
  - intros y. unfold pool, with_cache. rewrite (cached_set s i l (zlen l) Hi), (cached_split s i l (zlen l) Hi).
    rewrite elem_of_cons. unfold free, area. simpl. tauto.
Qed.

Lemma unlink_cached s i x l c :
  pfa_inv s -> s_percpu s !! i = Some (x :: l, c) ->
  unlink s x = with_percpu s (<[i := (l, c)]> (s_percpu s)).
Proof.
  intros HI Hi. pose proof (list_elem_of_lookup_2 _ _ _ Hi) as Hel.
  destruct (pi_cpu _ HI _ Hel) as [[Hx Hnd]%NoDup_cons _].
  assert (cached s x) as Hc by (exists (x :: l, c); split; [done|constructor]).
  destruct (pi_cached _ HI x Hc) as (_ & _ & _ & Hnf).
  unfold unlink, with_area, with_percpu. simpl. f_equal.
  - apply map_id_ext. intros a Ha. apply filter_absent. intros Hxa. apply Hnf.
    apply list_elem_of_lookup in Ha as [o Ho]. pose proof (pi_areas _ HI) as Hl. pose proof (lookup_lt_Some _ _ _ Ho).
    assert (is_order (Z.of_nat o)) by (unfold is_order; lia). exists (Z.of_nat o), x.
    split_and!; [done| |by apply in_block_self]. unfold area. rewrite Nat2Z.id. by erewrite list_lookup_total_correct.
  - apply list_eq. intros j. rewrite list_lookup_fmap. destruct (decide (j = i)) as [->|Hne].
    + rewrite list_lookup_insert_eq by (by eapply lookup_lt_Some). rewrite Hi. simpl. do 2 f_equal.
      rewrite filter_cons, decide_False by tauto. by apply filter_absent.
    + rewrite list_lookup_insert_ne by done. destruct (s_percpu s !! j) as [[l' c']|] eqn:Ej; [|done]. simpl.
      do 2 f_equal. apply filter_absent. intros Hx'. apply Hne. eapply (pi_cpus _ HI j i _ _ x Ej Hi); [done|constructor].
Qed.

Lemma pop_spec s i x l c :
  pfa_inv s -> s_percpu s !! i = Some (x :: l, c) ->
  (pc' ← geti (s_percpu (unlink s x)) (Z.of_nat i);
   set_percpu (unlink s x) (Z.of_nat i) (pc'.1, u32 (c - 1))) = Some (with_cache s i l) /\
  pfa_inv (with_cache s i l) /\ limbo (with_cache s i l) x /\
  (forall y, pool (with_cache s i l) y <-> pool s y /\ y <> x).
Proof.
  intros HI Hi. destruct (cache_count s i _ c HI Hi) as [-> Hc]. pose proof (lookup_lt_Some _ _ _ Hi) as Hlt.
  pose proof (list_elem_of_lookup_2 _ _ _ Hi) as Hel. destruct (pi_cpu _ HI _ Hel) as [[Hx Hnd]%NoDup_cons _].
  assert (cached s x) as Hcx by (exists (x :: l, zlen (x :: l)); split; [done|constructor]).
  destruct (pi_cached _ HI x Hcx) as (Hxr & Hxo & _ & Hxf).
  assert (Hcached : forall y, cached (with_cache s i l) y <-> cached s y /\ y <> x).
  { intros y. unfold with_cache. rewrite (cached_set s i _ _ Hi), (cached_split s i _ _ Hi), elem_of_cons.
    split; [|tauto]. intros [Hy|(j & pc & Hj & Hpc & Hy)].
    - split; [tauto|]. by intros ->.
    - split; [right; eauto|]. intros ->. apply Hj. eapply (pi_cpus _ HI j i _ _ x Hpc Hi); [done|constructor]. }
  split_and!.
  - rewrite (unlink_cached s i x l _ HI Hi), geti_percpu. simpl. rewrite list_lookup_insert_eq by done. simpl.
    rewrite set_percpu_eq by (simpl; by rewrite length_insert). simpl in *. rewrite u32_small by lia. unfold with_cache.
    simpl. unfold with_percpu at 1. simpl. rewrite list_insert_insert_eq. do 4 f_equal. lia.
  - apply (recache_inv s i (x :: l) (zlen (x :: l))); [done|done|done|]. intros y Hy. left. by constructor.
  - split; [done|]. split; [done|]. split; [done|]. rewrite Hcached. tauto.
  - intros y. unfold pool. rewrite Hcached. change (free (with_cache s i l) y) with (free s y).
    split; [|tauto]. intros [Hy|?]; [|tauto]. split; [tauto|]. by intros ->.
Qed.

(** ** Draining and refilling *)

Lemma in_block_0 x y : in_block x 0 y <-> y = x.
Proof. unfold in_block. simpl. lia. Qed.

Lemma single_block_ok s x : limbo s x -> block_ok s x 0.
Proof.
  intros Hx. pose proof Hx as (Hr & _). split; [unfold is_order; lia|lia|apply Z.mod_1_r|simpl; lia|].
  intros y ->%in_block_0. done.
Qed.

Lemma same_pool s s' P :
  same_but_lists s s' -> (forall x, free s' x <-> P x) -> forall x, pool s' x <-> P x \/ cached s x.
Proof. intros Hs Hf x. unfold pool. by rewrite Hf, (same_cached _ _ x Hs). Qed.

Lemma drain_loop_spec i n : forall s l c,
  pfa_inv s -> s_percpu s !! i = Some (l, c) -> (n <= length l)%nat ->
  exists s', drain_loop n s (Z.of_nat i) = Some s' /\ pfa_inv s' /\ moves s s' /\ (forall y, pool s' y <-> pool s y).
Proof.
  induction n as [|n IH]; intros s l c HI Hi Hn; cbn [drain_loop].
  { exists s. eauto using moves_refl. }
  rewrite geti_percpu, Hi. cbn [mbind option_bind fst snd]. destruct l as [|x l]; simpl in Hn; [lia|].
  destruct (pop_spec s i x l c HI Hi) as (E & HI1 & Hlim & Hp1). revert E. rewrite geti_percpu.
  destruct (s_percpu (unlink s x) !! i) as [pc'|]; cbn [mbind option_bind fst snd]; [|done]. intros ->. cbn [mbind option_bind].
  destruct (buddy_free_spec (with_cache s i l) x 0 HI1 (single_block_ok _ _ Hlim)) as (s2 & -> & HI2 & Hs2 & _ & Hf2).
  cbn [mbind option_bind]. pose proof (same_pool _ _ _ Hs2 Hf2) as Hp2.
  destruct (IH s2 l (zlen l)) as (s' & -> & HI' & Hmv & Hp'); [done| |lia|].
  { rewrite (sb_percpu _ _ Hs2). apply list_lookup_insert_eq. by eapply lookup_lt_Some. }
  exists s'. split_and!; [done..| |].
  - eapply moves_trans; [apply with_cache_moves|]. eapply moves_trans; [by apply same_moves|done].
  - intros y. rewrite Hp', Hp2, in_block_0. specialize (Hp1 y). unfold pool in *.
    destruct (decide (y = x)) as [->|]; [|tauto]. split; [|tauto]. intros _. right. exists (x :: l, c).
    split; [by eapply list_elem_of_lookup_2|constructor].
Qed.

Lemma percpu_drain_spec s i l c :
  pfa_inv s -> s_percpu s !! i = Some (l, c) ->
  exists s', percpu_drain s (Z.of_nat i) = Some s' /\ pfa_inv s' /\ moves s s' /\ (forall y, pool s' y <-> pool s y).
Proof.
  intros HI Hi. unfold percpu_drain. rewrite geti_percpu, Hi. cbn [mbind option_bind fst snd].
  destruct (cache_count s i l c HI Hi) as [-> _]. eapply drain_loop_spec; [done..|]. zcases; lia.
Qed.

(** Detaching one frame for a cache: from the smallest block, split down. *)
Lemma refill_step s :
  pfa_inv s -> s_free_order_bitmap s <> 0 ->
  exists o f l s', ctz32 (s_free_order_bitmap s) = Some o /\ geti (s_free_area s) o = Some (f :: l) /\
    (s ← buddy_remove s f o; s ← jlos_page_frame_order_split s f o 0; upd_page s f cached_page) = Some s' /\
    pfa_inv s' /\ moves s s' /\ s_percpu s' = s_percpu s /\ limbo s' f /\ free s f /\
    (forall y, free s' y <-> free s y /\ y <> f).
Proof.
  intros HI Hbm. destruct (masked_order_spec s 0 HI ltac:(lia)) as [_ Hnz].
  assert (Z.land (s_free_order_bitmap s) (u32 (Z.shiftl (2 ^ 32 - 1) 0)) = s_free_order_bitmap s) as E.
  { pose proof (pi_bm_range _ HI). apply Z.bits_inj'. intros i Hi. rewrite Z.land_spec, order_mask_spec by lia.
    destruct (Z.testbit (s_free_order_bitmap s) i) eqn:Eb; [|done].
    apply (pi_bitmap _ HI i Hi) in Eb as [Ho _]. unfold is_order in Ho. apply bool_decide_eq_true. lia. }
  rewrite E in Hnz. destruct (Hnz Hbm) as (o & f & l & Hc & Ho0 & Ho & Ea).
  destruct (carve_spec s f o 0 HI Ho) as (s2 & E2 & HI2 & Hs2 & _ & Hok2 & Hblk & Hf2); [rewrite Ea; constructor|lia|].
  assert (limbo s2 f) as Hl2 by (apply Hok2; by apply in_block_0). pose proof Hl2 as (Hfr & Hfo & Hff & Hfc).
  destruct (upd_page_spec s2 f cached_page HI2 Hfr) as (s3 & E3 & Hsl3 & Hp3).
  exists o, f, l, s3. split_and!; [done|by rewrite geti_area, Ea| | | | | |apply Hblk; by apply in_block_0|].
  - revert E2. destruct (buddy_remove s f o) as [s1|]; cbn [mbind option_bind]; [|done]. intros E2.
    assert (jlos_page_frame_order_split s1 f o 0 = Some s2) as ->; [|done].
    destruct (Z.ltb_spec 0 o); [done|]. assert (o = 0) as -> by lia. done.
  - eapply inv_pages; [exact HI2|done|]. intros y Hy. rewrite Hp3 by lia. goal_decide; [subst y; right|by left]. tauto.
  - eapply moves_trans; [by apply same_moves|]. destruct Hsl3. split; try congruence.
    + intros y Hy. rewrite Hp3 by done. goal_decide; [subst y|done]. by rewrite Hfo.
    + intros y Hy Ho'. rewrite Hp3 by done. goal_decide; [subst y|done]. congruence.
  - rewrite (sl_percpu _ _ Hsl3). apply (sb_percpu _ _ Hs2).
  - split; [by rewrite (sl_total _ _ Hsl3)|]. rewrite Hp3, decide_True by lia. split; [done|].
    by rewrite (same_lists_free s2 s3), (same_lists_cached s2 s3).
  - intros y. rewrite (same_lists_free s2 s3), Hf2, in_block_0 by done. done.
Qed.

Lemma bitmap_zero s : pfa_inv s -> s_free_order_bitmap s = 0 -> forall x, ~ free s x.
Proof.
  intros HI Hz x (o & f & Ho & Hf & _). assert (Z.testbit (s_free_order_bitmap s) o = true) as Hb.
  { apply (pi_bitmap _ HI); [unfold is_order in Ho; lia|]. split; [done|]. intros E. rewrite E in Hf. set_solver. }
  rewrite Hz, Z.bits_0 in Hb. done.
Qed.

Lemma refill_loop_spec i fuel : forall s l c,
  pfa_inv s -> s_percpu s !! i = Some (l, c) -> 9 - c <= Z.of_nat fuel -> 0 < Z.of_nat fuel ->
  exists s' l' c', refill_loop fuel s (Z.of_nat i) = Some s' /\ pfa_inv s' /\ moves s s' /\
    (forall y, pool s' y <-> pool s y) /\ s_percpu s' !! i = Some (l', c') /\
    (c' < 8 -> forall x, ~ free s' x) /\ c <= c' /\ (c' = c -> s' = s).
Proof.
  induction fuel as [|fuel IH]; intros s l c HI Hi Hfuel H0; [lia|]. cbn [refill_loop].
  rewrite geti_percpu, Hi. cbn [mbind option_bind fst snd].
  destruct (Z.ltb_spec c 8) as [Hlt|]; [|by exists s, l, c; split_and!; eauto using moves_refl; lia].
  destruct (Z.eqb_spec (s_free_order_bitmap s) 0) as [Hz|Hnz];
    [by exists s, l, c; split_and!; eauto using moves_refl, bitmap_zero with lia|].
  destruct (refill_step s HI Hnz) as (o & f & la & s3 & -> & Ea & E3 & HI3 & Hmv3 & Hpc3 & Hlim3 & Hff & Hfr3).
  cbn [mbind option_bind]. rewrite Ea. cbn [mbind option_bind].
  revert E3. destruct (buddy_remove s f o) as [s1|]; cbn [mbind option_bind]; [|done].
  destruct (jlos_page_frame_order_split s1 f o 0) as [s2|]; cbn [mbind option_bind]; [|done]. intros ->. cbn [mbind option_bind].
  assert (s_percpu s3 !! i = Some (l, c)) as Hi3 by (by rewrite Hpc3).
  destruct (push_spec s3 i l c f HI3 Hi3 Hlim3) as (-> & HI4 & Hp4). cbn [mbind option_bind].
  set (s4 := with_cache s3 i (f :: l)) in *. destruct (cache_count s i l c HI Hi) as [Ec _].
  destruct (IH (with_free s4 (s32 (s_free_frames s4 - 1))) (f :: l) (zlen (f :: l))) as (s' & l' & c' & -> & HI' & Hmv' & Hp' & Hi' & Hc' & Hge & _).
  { by apply with_free_inv. }
  { simpl. apply list_lookup_insert_eq. by eapply lookup_lt_Some. }
  { simpl. lia. } { lia. }
  exists s', l', c'. simpl in Hge. split_and!; [done|done| | |done|done|lia|lia].
  - eapply moves_trans; [exact Hmv3|]. eapply moves_trans; [|exact Hmv']. by destruct (with_cache_moves s3 i (f :: l)).
  - intros y. rewrite Hp'. change (pool (with_free _ _) y) with (pool s4 y). rewrite Hp4. unfold pool. rewrite Hfr3.
    unfold cached. rewrite Hpc3. destruct (decide (y = f)) as [->|]; tauto.
Qed.

(** ** Single frames *)

Lemma occ_take p : occupied (take_page p) = true.
Proof.
  unfold occupied, take_page. simpl. apply negb_true_iff, Z.eqb_neq. intros E.
  assert (Z.testbit (Z.land (Z.lor (pg_flags p) 1) 1) 0 = false) as Hb by (by rewrite E).
  rewrite Z.land_spec, Z.lor_spec in Hb. simpl in Hb. by rewrite orb_true_r in Hb.
Qed.

(** Handing the first frame of a cache to the caller. *)
Lemma take_cached_spec s i f l c :
  pfa_inv s -> s_percpu s !! i = Some (f :: l, c) ->
  exists s', (pc' ← geti (s_percpu (unlink s f)) (Z.of_nat i);
              s ← set_percpu (unlink s f) (Z.of_nat i) (pc'.1, u32 (c - 1)); upd_page s f take_page) = Some s' /\
    pfa_inv s' /\ same_shape s s' /\
    occupied (pgt s' f) = true /\ pg_refcount (pgt s' f) = 1 /\
    (forall y, pool s' y <-> pool s y /\ y <> f) /\ (forall y, 0 <= y -> y <> f -> pgt s' y = pgt s y).
Proof.
  intros HI Hi. destruct (pop_spec s i f l c HI Hi) as (E & HI1 & Hlim & Hp1). revert E.
  destruct (geti (s_percpu (unlink s f)) (Z.of_nat i)) as [pc'|]; cbn [mbind option_bind]; [|done]. intros ->.
  cbn [mbind option_bind]. pose proof Hlim as (Hr & _ & Hnf & Hnc).
  destruct (upd_page_spec _ f take_page HI1 Hr) as (s2 & -> & Hsl & Hp2). exists s2.
  split; [done|]. assert (occupied (pgt s2 f) = true) as Ho by (rewrite Hp2, decide_True by lia; apply occ_take). split_and!.
  - eapply inv_pages; [exact HI1|done|]. intros y Hy. rewrite Hp2 by lia. goal_decide; [subst y|by left].
    right. split_and!; [done..|]. left. apply occ_take.
  - split; [apply (sl_total _ _ Hsl)|]. split; [apply (sl_start _ _ Hsl)|]. rewrite (sl_percpu _ _ Hsl). apply length_insert.
  - done.
  - by rewrite Hp2, decide_True by lia.
  - intros y. rewrite <- Hp1. unfold pool. by rewrite (same_lists_free _ _ y Hsl), (same_lists_cached _ _ y Hsl).
  - intros y Hy Hne. by rewrite Hp2, decide_False.
Qed.

Lemma malloc_spec (s : pfa) (i : nat) (l : list Z) (c : Z) :
  pfa_inv s -> s_percpu s !! i = Some (l, c) ->
  exists s' r, jlos_page_frame_malloc s (Z.of_nat i) = Some (s', r) /\ pfa_inv s' /\ same_shape s s' /\
    match r with
    | None => s' = s /\ l = [] /\ (forall x, ~ free s x)
    | Some a => exists f, a = frame_addr s f /\ pool s f /\
        occupied (pgt s' f) = true /\ pg_refcount (pgt s' f) = 1 /\
        (forall y, pool s' y <-> pool s y /\ y <> f) /\
        (forall y, 0 <= y -> y <> f -> occupied (pgt s' y) = occupied (pgt s y)) /\
        (forall y, 0 <= y -> occupied (pgt s y) = true -> same_page (pgt s' y) (pgt s y))
    end.
Proof.
  intros HI Hi. unfold jlos_page_frame_malloc. rewrite geti_percpu, Hi. cbn [mbind option_bind fst snd].
  destruct (cache_count s i l c HI Hi) as [Ec Hc].
  assert (exists s1 l1 c1, (if c =? 0 then percpu_refill s (Z.of_nat i) else Some s) = Some s1 /\ pfa_inv s1 /\ moves s s1 /\
    (forall y, pool s1 y <-> pool s y) /\ s_percpu s1 !! i = Some (l1, c1) /\
    (c1 = 0 -> s1 = s /\ l = [] /\ forall x, ~ free s x)) as (s1 & l1 & c1 & -> & HI1 & Hmv & Hpool & Hi1 & Hz).
  { destruct (Z.eqb_spec c 0) as [E|E]; [|by exists s, l, c; eauto using moves_refl with lia].
    destruct (refill_loop_spec i 9 s l c HI Hi ltac:(lia) ltac:(lia)) as (s1 & l1 & c1 & E1 & HI1 & Hmv & Hp & Hi1 & Hnf & _ & Hsame).
    exists s1, l1, c1. split_and!; [exact E1|done..|]. intros Hc1. assert (s1 = s) as E' by (apply Hsame; lia). split_and!; [done| |].
    - apply length_zero_iff_nil. lia.
    - rewrite <- E'. apply Hnf. lia. }
  cbn [mbind option_bind]. rewrite geti_percpu, Hi1. cbn [mbind option_bind fst snd].
  destruct (cache_count s1 i l1 c1 HI1 Hi1) as [Ec1 Hc1]. destruct (Z.ltb_spec 0 c1).
  2: { exists s1, None. split; [done|]. split; [done|]. split; [by destruct Hmv|]. apply Hz. lia. }
  destruct l1 as [|f l1]; [simpl in Ec1; lia|].
  destruct (take_cached_spec s1 i f l1 c1 HI1 Hi1) as (s2 & E & HI2 & Hsh & Ho2 & Hr2 & Hp2 & Hother). revert E.
  destruct (geti (s_percpu (unlink s1 f)) (Z.of_nat i)) as [pc'|]; cbn [mbind option_bind]; [|done].
  destruct (set_percpu _ _ _) as [s3|]; cbn [mbind option_bind]; [|done]. intros ->. cbn [mbind option_bind].
  assert (pool s f) as Hpf.
  { apply Hpool. right. exists (f :: l1, c1). split; [by eapply list_elem_of_lookup_2|constructor]. }
  exists s2, (Some (frame_addr s2 f)). split; [done|]. split; [done|].
  split; [destruct Hmv, Hsh as (? & ? & ?); split_and!; congruence|]. exists f. split_and!; try done.
  - destruct Hsh as (_ & Es & _). unfold frame_addr. by rewrite Es, (mv_start _ _ Hmv).
  - intros y. by rewrite Hp2, Hpool.
  - intros y Hy Hne. rewrite Hother by done. by apply (mv_occ _ _ Hmv).
  - intros y Hy Ho. rewrite Hother; [by apply (mv_page _ _ Hmv)|done|]. intros ->.
    destruct (in_pool s f HI Hpf) as [_ Hn]. congruence.
Qed.

(** C14. [jlos_page_frame_malloc] never halts on a consistent allocator and keeps
    it consistent.  It fails only when this processor's cache and every free list
    are empty, and then changes nothing; otherwise it returns the address of a
    frame that was available (free or cached), which is now occupied with one
    reference and no longer available, while every other available frame stays
    available and every allocated frame keeps its record. *)
Theorem malloc_correct (s : pfa) (i : nat) (l : list Z) (c : Z) :
  pfa_inv s -> s_percpu s !! i = Some (l, c) ->
  exists s' r, jlos_page_frame_malloc s (Z.of_nat i) = Some (s', r) /\ pfa_inv s' /\
    match r with
    | None => s' = s /\ l = [] /\ (forall x, ~ free s x)
    | Some a => exists f, a = frame_addr s f /\ pool s f /\
        occupied (pgt s' f) = true /\ pg_refcount (pgt s' f) = 1 /\
        (forall y, pool s' y <-> pool s y /\ y <> f) /\
        (forall y, 0 <= y -> y <> f -> occupied (pgt s' y) = occupied (pgt s y)) /\
        (forall y, 0 <= y -> occupied (pgt s y) = true -> same_page (pgt s' y) (pgt s y))
    end.
Proof.
  intros HI Hi. destruct (malloc_spec s i l c HI Hi) as (s' & r & H1 & H2 & _ & H3). by exists s', r.
Qed.

Lemma malloc_correct_witness :
  exists s' r, jlos_page_frame_malloc one_block (Z.of_nat 1) = Some (s', r) /\ pfa_inv s' /\
    match r with
    | None => s' = one_block /\ @nil Z = [] /\ (forall x, ~ free one_block x)
    | Some a => exists f, a = frame_addr one_block f /\ pool one_block f /\
        occupied (pgt s' f) = true /\ pg_refcount (pgt s' f) = 1 /\
        (forall y, pool s' y <-> pool one_block y /\ y <> f) /\
        (forall y, 0 <= y -> y <> f -> occupied (pgt s' y) = occupied (pgt one_block y)) /\
        (forall y, 0 <= y -> occupied (pgt one_block y) = true -> same_page (pgt s' y) (pgt one_block y))
    end.
Proof. apply (malloc_correct one_block 1 [] 0); [exact one_block_inv|reflexivity]. Defined.

(** The last reference of [x] goes: the frame enters the cache, which is drained
    when it has grown past 16. *)
Lemma release_spec s i x l c :
  pfa_inv s -> s_percpu s !! i = Some (l, c) -> 0 <= x < s_total_frames s -> occupied (pgt s x) = true ->
  exists s', (s ← upd_page s x (set_refcount (pg_refcount (pgt s x) - 1));
              s ← upd_page s x (fun p => set_refcount 0 (free_page p));
              pc ← geti (s_percpu s) (Z.of_nat i);
              s ← set_percpu s (Z.of_nat i) (x :: pc.1, u32 (pc.2 + 1));
              if 16 <? u32 (pc.2 + 1) then percpu_drain s (Z.of_nat i) else Some s) = Some s' /\
    pfa_inv s' /\ same_shape s s' /\ (forall y, pool s' y <-> pool s y \/ y = x) /\ occupied (pgt s' x) = false /\
    (forall y, 0 <= y -> y <> x -> occupied (pgt s' y) = occupied (pgt s y)) /\
    (forall y, 0 <= y -> y <> x -> occupied (pgt s y) = true -> same_page (pgt s' y) (pgt s y)) /\
    (c < 16 -> forall y, free s' y <-> free s y).
Proof.
  intros HI Hi Hx Ho. destruct (occupied_detached s x HI Hx Ho) as [Hnf Hnc].
  destruct (set_refcount_inv s x (pg_refcount (pgt s x) - 1) HI Hx Ho) as (s1 & -> & HI1 & Hsl1 & Hp1).
  cbn [mbind option_bind].
  destruct (upd_page_spec s1 x (fun p => set_refcount 0 (free_page p)) HI1) as (s2 & -> & Hsl2 & Hp2);
    [by rewrite (sl_total _ _ Hsl1)|]. cbn [mbind option_bind].
  pose proof (same_lists_trans _ _ _ Hsl1 Hsl2) as Hsl.
  assert (limbo s2 x) as Hlim.
  { split; [by rewrite (sl_total _ _ Hsl)|]. rewrite Hp2, decide_True by lia. split; [apply occ_clear|].
    by rewrite (same_lists_free s s2), (same_lists_cached s s2). }
  assert (pfa_inv s2) as HI2.
  { eapply inv_pages; [exact HI1|done|]. intros y Hy. rewrite Hp2 by lia. goal_decide; [subst y; right|by left].
    rewrite (same_lists_free s s1), (same_lists_cached s s1) by done. split_and!; [done..|]. by right. }
  assert (s_percpu s2 !! i = Some (l, c)) as Hi2 by (by rewrite (sl_percpu _ _ Hsl)).
  rewrite geti_percpu, Hi2. cbn [mbind option_bind fst snd].
  destruct (push_spec s2 i l c x HI2 Hi2 Hlim) as (-> & HI3 & Hp3). cbn [mbind option_bind].
  set (s3 := with_cache s2 i (x :: l)) in *.
  assert (exists s', (if 16 <? u32 (c + 1) then percpu_drain s3 (Z.of_nat i) else Some s3) = Some s' /\ pfa_inv s' /\
    moves s3 s' /\ (forall y, pool s' y <-> pool s3 y) /\ (c < 16 -> s' = s3))
    as (s' & -> & HI' & [Ht Hst Hcp Hmo Hmr] & Hp' & Hsame).
  { destruct (cache_count s i l c HI Hi) as [Ec Hc]. destruct (Z.ltb_spec 16 (u32 (c + 1))) as [Hlt|Hge].
    - destruct (percpu_drain_spec s3 i (x :: l) (zlen (x :: l)) HI3) as (s' & ? & ? & ? & ?);
        [apply list_lookup_insert_eq; by eapply lookup_lt_Some|].
      exists s'. split_and!; try done. intros. rewrite u32_small in Hlt; unfold zlen in *; lia.
    - exists s3. split_and!; done || apply moves_refl. }
  assert (Hpg : forall y, 0 <= y -> y <> x -> pgt s3 y = pgt s y).
  { intros y Hy Hne. change (pgt s3 y) with (pgt s2 y). by rewrite Hp2, decide_False, Hp1, decide_False. }
  exists s'. split; [done|]. split; [done|]. split.
  { unfold same_shape. rewrite Ht, Hst, Hcp. simpl. rewrite length_insert, (sl_total _ _ Hsl), (sl_start _ _ Hsl), (sl_percpu _ _ Hsl). done. }
  split_and!.
  - intros y. rewrite Hp', Hp3. unfold pool. by rewrite (same_lists_free s s2), (same_lists_cached s s2).
  - rewrite Hmo by lia. by destruct Hlim as (_ & ? & _).
  - intros y Hy Hne. by rewrite Hmo, Hpg.
  - intros y Hy Hne Hoy. rewrite <- (Hpg y Hy Hne). apply Hmr; [done|]. by rewrite Hpg.
  - intros Hc y. rewrite (Hsame Hc). change (free s3 y) with (free s2 y). by rewrite (same_lists_free s s2).
Qed.

(** The facts about both operations, with the shape of the allocator. *)
Lemma refcount_spec (s : pfa) (i : nat) (l : list Z) (c x : Z) :
  pfa_inv s -> s_percpu s !! i = Some (l, c) -> 0 <= s_start_addr s ->
  s_start_addr s + s_total_frames s * FRAME_SIZE < 2 ^ 32 -> 0 <= x < s_total_frames s ->
  (occupied (pgt s x) = true -> 0 < pg_refcount (pgt s x) ->
   exists s', jlos_page_frame_refcount_dec s (Z.of_nat i) (frame_addr s x) = Some s' /\ pfa_inv s' /\ same_shape s s' /\
     (forall y, pool s' y <-> pool s y \/ y = x /\ pg_refcount (pgt s x) = 1) /\
     occupied (pgt s' x) = negb (pg_refcount (pgt s x) =? 1) /\
     (pg_refcount (pgt s x) <> 1 -> pg_refcount (pgt s' x) = pg_refcount (pgt s x) - 1) /\
     (forall y, 0 <= y -> y <> x -> occupied (pgt s' y) = occupied (pgt s y)) /\
     (forall y, 0 <= y -> y <> x -> occupied (pgt s y) = true -> same_page (pgt s' y) (pgt s y))) /\
  (pg_refcount (pgt s x) <= 0 -> jlos_page_frame_refcount_dec s (Z.of_nat i) (frame_addr s x) = None) /\
  (occupied (pgt s x) = true -> 0 < pg_refcount (pgt s x) < 255 ->
   exists s', jlos_page_frame_refcount_inc s (frame_addr s x) = Some s' /\ pfa_inv s' /\ same_lists s s' /\
     forall y, 0 <= y ->
       pgt s' y = if decide (y = x) then set_refcount (pg_refcount (pgt s x) + 1) (pgt s x) else pgt s y) /\
  (~ 0 < pg_refcount (pgt s x) < 255 -> jlos_page_frame_refcount_inc s (frame_addr s x) = None).
Proof.
  intros HI Hi Hst Hm Hx. unfold jlos_page_frame_refcount_dec, jlos_page_frame_refcount_inc.
  destruct (phys_to_frame_addr s x Hst Hx Hm) as (-> & _ & _).
  destruct (Z.leb_spec (s_total_frames s) x); [lia|]. rewrite (geti_page s x HI Hx). cbn [mbind option_bind].
  set (r := pg_refcount (pgt s x)). split_and!.
  - intros Ho Hr. destruct (Z.ltb_spec 0 r); [|lia]. destruct (Z.eqb_spec r 1) as [E1|E1].
    + destruct (release_spec s i x l c HI Hi Hx Ho) as (s' & E & HI' & Hsh & Hp & Ho' & Hoo & Hrr & _).
      exists s'. split; [exact E|]. split_and!; try done. intros y. rewrite Hp. tauto.
    + destruct (set_refcount_inv s x (r - 1) HI Hx Ho) as (s1 & -> & HI1 & Hsl1 & Hp1). cbn [mbind option_bind].
      exists s1. assert (same_shape s s1) by (split_and!; [apply Hsl1..|by rewrite (sl_percpu _ _ Hsl1)]). split_and!; try done.
      * intros y. unfold pool. rewrite (same_lists_free s s1), (same_lists_cached s s1) by done. tauto.
      * by rewrite Hp1, decide_True by lia.
      * intros _. by rewrite Hp1, decide_True by lia.
      * intros y Hy Hne. by rewrite Hp1, decide_False.
      * intros y Hy Hne _. by rewrite Hp1, decide_False.
  - intros Hr. destruct (Z.ltb_spec 0 r); [lia|done].
  - intros Ho Hr. destruct (Z.ltb_spec 0 r); [|lia]. destruct (Z.ltb_spec r 255); [|lia]. cbn [andb].
    by apply set_refcount_inv.
  - intros Hr. destruct (Z.ltb_spec 0 r); [|done]. destruct (Z.ltb_spec r 255); [lia|done].
Qed.

(** Reference counts.  [jlos_page_frame_refcount_dec] (and hence
    [jlos_page_frame_free]) on an allocated frame: a shared frame only loses a
    reference; the last reference makes the frame available again and nothing
    else becomes or stops being available; other frames keep occupancy and the
    allocated ones their counts; the allocator stays consistent.  Dropping a
    reference of a frame that has none halts.  [jlos_page_frame_refcount_inc] adds
    one reference, and halts on a frame without references or with 255. *)
Theorem refcount_correct (s : pfa) (i : nat) (l : list Z) (c x : Z) :
  pfa_inv s -> s_percpu s !! i = Some (l, c) -> 0 <= s_start_addr s ->
  s_start_addr s + s_total_frames s * FRAME_SIZE < 2 ^ 32 -> 0 <= x < s_total_frames s ->
  (occupied (pgt s x) = true -> 0 < pg_refcount (pgt s x) ->
   exists s', jlos_page_frame_refcount_dec s (Z.of_nat i) (frame_addr s x) = Some s' /\ pfa_inv s' /\
     (forall y, pool s' y <-> pool s y \/ y = x /\ pg_refcount (pgt s x) = 1) /\
     occupied (pgt s' x) = negb (pg_refcount (pgt s x) =? 1) /\
     (pg_refcount (pgt s x) <> 1 -> pg_refcount (pgt s' x) = pg_refcount (pgt s x) - 1) /\
     (forall y, 0 <= y -> y <> x -> occupied (pgt s' y) = occupied (pgt s y)) /\
     (forall y, 0 <= y -> y <> x -> occupied (pgt s y) = true -> same_page (pgt s' y) (pgt s y))) /\
  (pg_refcount (pgt s x) <= 0 -> jlos_page_frame_refcount_dec s (Z.of_nat i) (frame_addr s x) = None) /\
  (occupied (pgt s x) = true -> 0 < pg_refcount (pgt s x) < 255 ->
   exists s', jlos_page_frame_refcount_inc s (frame_addr s x) = Some s' /\ pfa_inv s' /\ same_lists s s' /\
     forall y, 0 <= y ->
       pgt s' y = if decide (y = x) then set_refcount (pg_refcount (pgt s x) + 1) (pgt s x) else pgt s y) /\
  (~ 0 < pg_refcount (pgt s x) < 255 -> jlos_page_frame_refcount_inc s (frame_addr s x) = None).
Proof.
  intros HI Hi Hst Hm Hx. destruct (refcount_spec s i l c x HI Hi Hst Hm Hx) as (Hd & Hrest). split; [|exact Hrest].
  intros Ho Hr. destruct (Hd Ho Hr) as (s' & H1 & H2 & _ & H3). by exists s'.
Qed.

Lemma refcount_correct_witness :
  exists s', jlos_page_frame_refcount_dec used_state (Z.of_nat 0) (frame_addr used_state 7) = Some s' /\
    pfa_inv s' /\ (forall y, pool s' y <-> pool used_state y \/ y = 7 /\ pg_refcount (pgt used_state 7) = 1).
Proof.
  destruct (refcount_correct used_state 0 [] 0 7) as [Hdec _];
    [exact used_state_inv|reflexivity|simpl; lia|simpl; unfold FRAME_SIZE; lia|simpl; lia|].
  destruct Hdec as (s' & H1 & H2 & H3 & _); [reflexivity|reflexivity|].
  exists s'. split; [exact H1|]. split; [exact H2|exact H3].
Defined.

(** ** Boot *)

(** Every occupied frame has exactly one reference. *)
Definition one_ref (s : pfa) : Prop :=
  forall x, 0 <= x < s_total_frames s -> occupied (pgt s x) = true -> pg_refcount (pgt s x) = 1.

(** Steps of the first phase of the boot: page records are written, no list exists. *)
Record marked (s s' : pfa) (occ : Z -> bool -> bool) : Prop := {
  mk_blank : blank s';
  mk_total : s_total_frames s' = s_total_frames s;
  mk_start : s_start_addr s' = s_start_addr s;
  mk_cpus : s_percpu s' = s_percpu s;
  mk_ref : one_ref s -> one_ref s';
  mk_occ x : 0 <= x < s_total_frames s -> occupied (pgt s' x) = occ x (occupied (pgt s x))
}.

Lemma marked_id s : blank s -> marked s s (fun _ b => b).
Proof. by split. Qed.
Lemma marked_trans s1 s2 s3 p q : marked s1 s2 p -> marked s2 s3 q -> marked s1 s3 (fun x b => q x (p x b)).
Proof.
  intros [A1 A2 A3 A4 A5 A6] [B1 B2 B3 B4 B5 B6]. split; try congruence; [tauto|]. intros x Hx. rewrite B6, A6; [done|done|lia].
Qed.
Lemma marked_ext s s' p q :
  (forall x b, 0 <= x < s_total_frames s -> p x b = q x b) -> marked s s' p -> marked s s' q.
Proof. intros H [? ? ? ? ? Ho]. split; try done. intros x Hx. by rewrite Ho, H. Qed.

Lemma blank_upd s x g (o : bool) :
  blank s -> 0 <= x < s_total_frames s -> (forall p, pg_order (g p) = ORDER_INVALID) ->
  (forall p, occupied (g p) = o) -> (forall p, occupied (g p) = true -> pg_refcount (g p) = 1) ->
  exists s', upd_page s x g = Some s' /\ marked s s' (fun y b => if decide (y = x) then o else b).
Proof.
  intros Hb Hx Hg Ho Hr. destruct (upd_page_spec s x g (blank_inv s Hb) Hx) as (s' & -> & Hsl & Hp).
  exists s'. split; [done|]. destruct Hsl as [Et Es Ea Ebm _ Epc El].
  destruct Hb as (H1 & H2 & H3 & H4 & H5 & H6). split; [|done|done|done| |].
  - split_and!; rewrite ?Et, ?El, ?Ea, ?Ebm, ?Epc; try done; [lia|lia|].
    intros y Hy. rewrite Hp by lia. case_decide; [by rewrite Hg|by apply H6].
  - intros H y Hy. rewrite Et in Hy. rewrite Hp by lia. case_decide; [apply Hr|by apply H].
  - intros y Hy. rewrite Hp by lia. case_decide; [by rewrite Ho|done].
Qed.

Lemma occ_recycle p : occupied (recycle_page p) = false.
Proof.
  unfold occupied, recycle_page. simpl. rewrite <- Z.land_assoc. change (Z.land 254 1) with 0. by rewrite Z.land_0_r.
Qed.

Definition in_run (lo hi x : Z) : bool := (lo <=? x) && (x <? hi).

(** A loop that sets the occupancy of each frame of a run. *)
Lemma mark_range_spec mark (o : bool) n : forall s lo,
  (forall s x, blank s -> 0 <= x < s_total_frames s ->
     exists s', mark s x = Some s' /\ marked s s' (fun y b => if decide (y = x) then o else b)) ->
  blank s -> 0 <= lo -> lo + Z.of_nat n <= s_total_frames s ->
  exists s', mark_range mark n s lo = Some s' /\
    marked s s' (fun y b => if in_run lo (lo + Z.of_nat n) y then o else b).
Proof.
  induction n as [|n IH]; intros s lo Hm Hb Hlo Hn; cbn [mark_range].
  { exists s. split; [done|]. eapply marked_ext; [|by apply marked_id]. intros x b _. cbn beta. unfold in_run. zcases; lia || done. }
  destruct (Hm s lo Hb ltac:(lia)) as (s1 & -> & M1). cbn [mbind option_bind].
  destruct (IH s1 (lo + 1)) as (s' & -> & M2); [done|apply M1|lia|rewrite (mk_total _ _ _ M1); lia|].
  exists s'. split; [done|]. eapply marked_ext; [|by eapply marked_trans]. intros x b _. cbn beta. unfold in_run.
  case_decide; zcases; simpl; lia || done.
Qed.

Lemma mark_frames_spec mark (o : bool) s lo hi :
  (forall s x, blank s -> 0 <= x < s_total_frames s ->
     exists s', mark s x = Some s' /\ marked s s' (fun y b => if decide (y = x) then o else b)) ->
  blank s -> 0 <= lo ->
  exists s', mark_frames mark s lo hi = Some s' /\ marked s s' (fun y b => if in_run lo hi y then o else b).
Proof.
  intros Hm Hb Hlo. unfold mark_frames. set (n := Z.to_nat (Z.min hi (s_total_frames s) - lo)).
  destruct (decide (lo + Z.of_nat n <= s_total_frames s)) as [Hn|Hn].
  - destruct (mark_range_spec mark o n s lo Hm Hb Hlo Hn) as (s' & -> & M). exists s'. split; [done|].
    eapply marked_ext; [|done]. intros x b Hx. cbn beta. unfold in_run, n. zcases; lia || done.
  - assert (n = 0%nat) as -> by lia. exists s. split; [done|]. eapply marked_ext; [|by apply marked_id].
    intros x b Hx. cbn beta. unfold in_run. zcases; lia || done.
Qed.

Lemma reserve_marks s x : blank s -> 0 <= x < s_total_frames s ->
  exists s', jlos_page_frame_mark_reserve s x = Some s' /\ marked s s' (fun y b => if decide (y = x) then true else b).
Proof.
  intros Hb Hx. unfold jlos_page_frame_mark_reserve. destruct (Z.leb_spec (s_total_frames s) x); [lia|].
  by apply blank_upd; [..|apply occ_set|].
Qed.
Lemma recycle_marks s x : blank s -> 0 <= x < s_total_frames s ->
  exists s', jlos_page_frame_mark_recycle s x = Some s' /\ marked s s' (fun y b => if decide (y = x) then false else b).
Proof.
  intros Hb Hx. unfold jlos_page_frame_mark_recycle. destruct (Z.leb_spec (s_total_frames s) x); [lia|].
  apply blank_upd; [done|done|done|apply occ_recycle|]. intros p. by rewrite occ_recycle.
Qed.

Lemma occupy_loop_spec n : forall s lo,
  blank s -> 0 <= lo -> lo + Z.of_nat n <= s_total_frames s ->
  exists s', occupy_loop n s lo = Some s' /\
    marked s s' (fun y b => if in_run lo (lo + Z.of_nat n) y then true else b).
Proof.
  induction n as [|n IH]; intros s lo Hb Hlo Hn; cbn [occupy_loop].
  { exists s. split; [done|]. eapply marked_ext; [|by apply marked_id]. intros x b _. cbn beta. unfold in_run. zcases; lia || done. }
  rewrite geti_page by (lia || by apply blank_inv). cbn [mbind option_bind].
  assert (exists s1, (if occupied (pgt s lo) then Some s else jlos_page_frame_mark_reserve s lo) = Some s1 /\
    marked s s1 (fun y b => if decide (y = lo) then true else b)) as (s1 & E1 & M1).
  { destruct (occupied (pgt s lo)) eqn:Eo; [|by apply reserve_marks; [|lia]].
    exists s. split; [done|]. split; try done. intros x Hx. case_decide; [by subst|done]. }
  destruct (IH s1 (lo + 1)) as (s' & E' & M2); [apply M1|lia|rewrite (mk_total _ _ _ M1); lia|].
  exists s'. split.
  - assert (pg_order (pgt s lo) = ORDER_INVALID) as -> by (apply Hb; lia). rewrite <- E'. simpl.
    destruct (occupied (pgt s lo)); [by simplify_eq|]. by rewrite E1.
  - eapply marked_ext; [|by eapply marked_trans]. intros x b _. cbn beta. unfold in_run. case_decide; zcases; simpl; lia || done.
Qed.

Lemma mark_occupied_spec s ps pe :
  blank s ->
  exists s', jlos_page_frame_mark_occupied s ps pe = Some s' /\
    marked s s' (fun y b => (ps <? pe) && in_run (pfa_phys_to_frame s ps)
      (u32 (u32 (pe - s_start_addr s) + FRAME_SIZE - 1) / FRAME_SIZE) y || b).
Proof.
  intros Hb. unfold jlos_page_frame_mark_occupied. destruct (Z.leb_spec pe ps).
  { exists s. split; [done|]. eapply marked_ext; [|by apply marked_id]. intros x b _. zcases; done || lia. }
  set (lo := pfa_phys_to_frame s ps). set (hi := u32 (u32 (pe - s_start_addr s) + FRAME_SIZE - 1) / FRAME_SIZE).
  assert (0 <= lo) by (unfold lo, pfa_phys_to_frame, FRAME_SIZE; apply Z.div_pos; [apply Z.mod_pos_bound|]; lia).
  destruct (Z.leb_spec (s_total_frames s) lo).
  { exists s. split; [done|]. eapply marked_ext; [|by apply marked_id]. intros x b Hx. unfold in_run. zcases; done || lia. }
  set (hi' := if s_total_frames s <? hi then s_total_frames s else hi). set (n := Z.to_nat (hi' - lo)).
  assert (hi' = Z.min hi (s_total_frames s)) by (unfold hi'; zcases; lia).
  destruct (occupy_loop_spec n s lo Hb) as (s' & -> & M); [done|lia|]. exists s'. split; [done|].
  eapply marked_ext; [|done]. intros x b Hx. unfold in_run, n. zcases; done || lia.
Qed.

(** The frames a reserved region of the memory map covers. *)
Definition region_covers (phys_start phys_end y : Z) (m : Z * Z * bool) : bool :=
  let '(addr, size, usable) := m in
  negb usable && (phys_start <? u64 (addr + size)) && (addr <? phys_end) &&
  (let lo := if addr <? phys_start then phys_start else u32 addr in
   let hi := if phys_end <? u64 (addr + size) then phys_end else u32 (u64 (addr + size)) in
   (lo <? hi) && in_run (u32 (lo - phys_start) / FRAME_SIZE) (u32 (u32 (hi - phys_start) + FRAME_SIZE - 1) / FRAME_SIZE) y).

Lemma occupy_regions_spec ps pe mem : forall s,
  blank s -> s_start_addr s = ps ->
  exists s', occupy_regions s ps pe mem = Some s' /\
    marked s s' (fun y b => existsb (region_covers ps pe y) mem || b).
Proof.
  induction mem as [|[[addr size] usable] mem IH]; intros s Hb Hs; cbn [occupy_regions].
  { exists s. split; [done|]. by apply marked_id. }
  assert (exists s1, (if usable || (u64 (addr + size) <=? ps) || (pe <=? addr) then Some s
           else
             let s32' := if addr <? ps then ps else u32 addr in
             let e32 := if pe <? u64 (addr + size) then pe else u32 (u64 (addr + size)) in
             if s32' <? e32 then jlos_page_frame_mark_occupied s s32' e32 else Some s) = Some s1 /\
    marked s s1 (fun y b => region_covers ps pe y (addr, size, usable) || b)) as (s1 & E1 & M1).
  { unfold region_covers. rewrite (Z.ltb_antisym (u64 (addr + size)) ps), (Z.ltb_antisym pe addr).
    destruct usable; [by exists s; split; [|apply marked_id]|].
    destruct (u64 (addr + size) <=? ps); [by exists s; split; [|apply marked_id]|].
    destruct (pe <=? addr); [by exists s; split; [|apply marked_id]|]. cbn [orb negb andb].
    set (lo := if addr <? ps then ps else u32 addr). set (hi := if pe <? u64 (addr + size) then pe else _).
    destruct (mark_occupied_spec s lo hi Hb) as (s1 & E1 & M1). unfold pfa_phys_to_frame in M1. rewrite Hs in M1.
    cbv zeta. destruct (lo <? hi); [by exists s1|]. exists s. split; [done|]. by apply marked_id. }
  cbv zeta in E1 |- *. rewrite E1. cbn [mbind option_bind].
  destruct (IH s1) as (s' & -> & M'); [apply M1|by rewrite (mk_start _ _ _ M1)|]. exists s'. split; [done|].
  eapply marked_ext; [|by eapply marked_trans]. intros x b _. cbn [existsb].
  destruct (region_covers ps pe x (addr, size, usable)), (existsb (region_covers ps pe x) mem); done.
Qed.

(** A frame of memory that a reserved region touches is covered. *)
Lemma region_covers_touching ps pe y addr size :
  0 <= ps -> ps < pe < 2 ^ 32 -> pe - ps <= 2 ^ 32 - 4096 -> 0 <= y < (pe - ps) / FRAME_SIZE ->
  0 <= addr -> 0 < size -> addr + size < 2 ^ 64 ->
  addr < ps + (y + 1) * FRAME_SIZE -> ps + y * FRAME_SIZE < addr + size ->
  region_covers ps pe y (addr, size, false) = true.
Proof.
  unfold region_covers, FRAME_SIZE, in_run. intros Hps Hpe Hd Hy Ha Hsz Hov H1 H2.
  assert ((y + 1) * 4096 <= pe - ps) by (pose proof (Z.mul_div_le (pe - ps) 4096 ltac:(lia)); lia).
  rewrite (u64_small (addr + size)) by lia. cbn [negb andb].
  destruct (Z.ltb_spec ps (addr + size)); [|lia]. destruct (Z.ltb_spec addr pe); [|lia]. cbn [andb].
  set (lo := if addr <? ps then ps else u32 addr). set (hi := if pe <? addr + size then pe else u32 (addr + size)).
  assert (lo = Z.max addr ps) as -> by (unfold lo; destruct (Z.ltb_spec addr ps); [lia|rewrite u32_small; lia]).
  assert (hi = Z.min (addr + size) pe) as -> by (unfold hi; destruct (Z.ltb_spec pe (addr + size)); [lia|rewrite u32_small; lia]).
  rewrite (u32_small (Z.max addr ps - ps)), (u32_small (Z.min (addr + size) pe - ps)), u32_small by lia.
  apply andb_true_iff. split; [lia|]. apply andb_true_iff. split.
  - apply Z.leb_le. apply Z.lt_succ_r, Z.div_lt_upper_bound; lia.
  - apply Z.ltb_lt.
    assert (y + 1 <= (Z.min (addr + size) pe - ps + 4096 - 1) / 4096); [|lia]. apply Z.div_le_lower_bound; lia.
Qed.

(** From the second phase on: no cached frame, no order on an occupied page. *)
Record booting (s s' : pfa) : Prop := {
  bt_inv : pfa_inv s';
  bt_total : s_total_frames s' = s_total_frames s;
  bt_start : s_start_addr s' = s_start_addr s;
  bt_cpus : s_percpu s' = s_percpu s;
  bt_cached x : ~ cached s' x;
  bt_order x : 0 <= x < s_total_frames s -> occupied (pgt s' x) = true -> pg_order (pgt s' x) = ORDER_INVALID;
  bt_occ x : 0 <= x -> occupied (pgt s' x) = occupied (pgt s x);
  bt_ref x : 0 <= x -> pg_refcount (pgt s' x) = pg_refcount (pgt s x)
}.

Lemma booting_blank s : blank s -> booting s s.
Proof. intros Hb. split; try done; [by apply blank_inv|by intros x; apply blank_cached|]. intros x Hx _. by apply Hb. Qed.

(** A change of the lists that writes orders only on unoccupied heads. *)
Lemma booting_step s0 s s' :
  booting s0 s -> pfa_inv s' -> same_but_lists s s' ->
  (forall x, 0 <= x < s_total_frames s -> occupied (pgt s x) = true -> pg_order (pgt s' x) = pg_order (pgt s x)) ->
  booting s0 s'.
Proof.
  intros [B1 B2 B3 Bc B4 B5 B6 B7] HI Hs Hord. split; [done| | | | | | |].
  - by rewrite (sb_total _ _ Hs).
  - by rewrite (sb_start _ _ Hs).
  - by rewrite (sb_percpu _ _ Hs).
  - intros x. rewrite (same_cached _ _ x Hs). apply B4.
  - intros x Hx Ho. rewrite (same_occ _ _ (sb_pages _ _ Hs x ltac:(lia))) in Ho. rewrite Hord by (done || lia). by apply B5.
  - intros x Hx. rewrite (same_occ _ _ (sb_pages _ _ Hs x Hx)). by apply B6.
  - intros x Hx. destruct (sb_pages _ _ Hs x Hx) as (_ & _ & _ & -> & _). by apply B7.
Qed.

Lemma booting_insert s0 s f o :
  booting s0 s -> block_ok s f o -> booting s0 (inserted s f o) /\ buddy_insert s f o = Some (inserted s f o).
Proof.
  intros Hbt [Ho Hf Hal Hb Hl]. pose proof (bt_inv _ _ Hbt) as HI. split; [|by apply buddy_insert_eq].
  eapply booting_step; [done|by apply inserted_inv|by apply inserted_same|]. intros x Hx Hocc.
  rewrite inserted_pgt by (done || lia). case_decide; [subst x|done].
  destruct (Hl f (in_block_self f o Ho)) as (_ & Hn & _). congruence.
Qed.

Lemma booting_remove s0 s f o :
  booting s0 s -> is_order o -> f ∈ area s o ->
  booting s0 (removed s f o) /\ buddy_remove s f o = Some (removed s f o).
Proof.
  intros Hbt Ho Hf. pose proof (bt_inv _ _ Hbt) as HI. split; [|by apply buddy_remove_eq].
  eapply booting_step; [done|by apply removed_inv|by apply removed_same|]. intros x Hx Hocc.
  rewrite removed_pgt by (done || lia). goal_decide; [subst x|done].
  destruct (pi_block _ HI o f Ho Hf) as (_ & _ & _ & _ & Hn). rewrite Hn in Hocc by (by apply in_block_self). done.
Qed.

Lemma limbo_removed s f o x :
  pfa_inv s -> is_order o -> f ∈ area s o -> limbo s x -> limbo (removed s f o) x.
Proof.
  intros HI Ho Hf (Hx & Hocc & Hnf & Hnc). pose proof (removed_same s f o HI Ho Hf) as Hs. split; [done|].
  rewrite (same_occ _ _ (sb_pages _ _ Hs x ltac:(lia))). split; [done|].
  rewrite removed_free, (same_cached _ _ x Hs) by done. tauto.
Qed.

Lemma insert_free_spec s0 s k :
  booting s0 s -> 0 <= k < s_total_frames s ->
  (forall x, free s x <-> 0 <= x < k /\ occupied (pgt s x) = false) ->
  exists s', insert_free s k = Some s' /\ booting s0 s' /\ s_total_frames s' = s_total_frames s /\
    (forall x, free s' x <-> 0 <= x < k + 1 /\ occupied (pgt s' x) = false).
Proof.
  intros Hbt Hk Hf. pose proof (bt_inv _ _ Hbt) as HI. unfold insert_free. rewrite geti_page by done. cbn [mbind option_bind].
  destruct (occupied (pgt s k)) eqn:Eo; cbn [negb andb].
  { exists s. split_and!; [done..|]. intros x. rewrite Hf. destruct (decide (x = k)) as [->|]; [|intuition lia].
    rewrite Eo. intuition lia || done. }
  assert (limbo s k) as Hlim.
  { split; [done|]. split; [done|]. rewrite Hf. split; [lia|]. apply (bt_cached _ _ Hbt). }
  rewrite (limbo_order s k HI Hlim), Z.eqb_refl.
  destruct (booting_insert s0 s k 0 Hbt (single_block_ok s k Hlim)) as [Hbt' ->].
  exists (inserted s k 0). split_and!; [done..|]. intros x. rewrite inserted_free, in_block_0, Hf by (done || unfold is_order; lia).
  destruct (decide (0 <= x)) as [Hx|Hx]; [|intuition lia].
  rewrite (bt_occ _ _ Hbt' x Hx), <- (bt_occ _ _ Hbt x Hx). destruct (decide (x = k)) as [->|]; [|intuition lia].
  rewrite Eo. intuition lia || done.
Qed.

Lemma insert_all_spec s0 n : forall s k,
  booting s0 s -> 0 <= k -> k + Z.of_nat n = s_total_frames s ->
  (forall x, free s x <-> 0 <= x < k /\ occupied (pgt s x) = false) ->
  exists s', mark_range insert_free n s k = Some s' /\ booting s0 s' /\
    (forall x, free s' x <-> 0 <= x < s_total_frames s /\ occupied (pgt s' x) = false).
Proof.
  induction n as [|n IH]; intros s k Hbt Hk Hn Hf; cbn [mark_range].
  { exists s. split_and!; [done..|]. replace (s_total_frames s) with k by lia. done. }
  destruct (insert_free_spec s0 s k Hbt ltac:(lia) Hf) as (s1 & -> & Hbt1 & Et & Hf1). cbn [mbind option_bind].
  rewrite <- Et. apply (IH s1 (k + 1)); [done|lia|lia|done].
Qed.

(** Merging one pair of buddies whose lower half is [f]. *)
Lemma merge_pair_spec s0 s f o :
  booting s0 s -> 0 <= o < 10 -> 0 <= f -> f `mod` 2 ^ (o + 1) = 0 ->
  f + 2 ^ (o + 1) <= s_total_frames s -> f ∈ area s o -> f + 2 ^ o ∈ area s o ->
  exists s', (s ← buddy_remove s (f + 2 ^ o) o; s ← buddy_remove s f o; buddy_insert s f (o + 1)) = Some s' /\
    booting s0 s' /\ s_total_frames s' = s_total_frames s /\ (forall x, free s' x <-> free s x).
Proof.
  intros Hbt Ho Hf Hal Hb Hfa Hba. assert (is_order o) as Hoo by (unfold is_order; lia). pose proof (pow_order o Hoo).
  assert (2 ^ (o + 1) = 2 ^ o + 2 ^ o) as E2 by (rewrite Z.pow_add_r by lia; lia).
  set (b := f + 2 ^ o) in *. pose proof (bt_inv _ _ Hbt) as HI.
  destruct (booting_remove s0 s b o Hbt Hoo Hba) as [Hbt1 ->]. cbn [mbind option_bind].
  pose proof (bt_inv _ _ Hbt1) as HI1. pose proof (removed_free s b o HI Hoo Hba) as Hf1.
  assert (f ∈ area (removed s b o) o) as Hfa1 by (apply removed_elem; [done..|]; split; [done|unfold b; lia]).
  destruct (booting_remove s0 _ f o Hbt1 Hoo Hfa1) as [Hbt2 ->]. cbn [mbind option_bind].
  pose proof (removed_free _ f o HI1 Hoo Hfa1) as Hf2.
  assert (block_ok (removed (removed s b o) f o) f (o + 1)) as Hok.
  { split; [unfold is_order; lia|done|done|simpl; lia|]. intros x Hx.
    destruct (decide (x < b)) as [Hlt|Hge].
    - apply (removed_ok (removed s b o) f o HI1 Hoo Hfa1). unfold in_block, b in *. lia.
    - apply limbo_removed; [done..|]. apply (removed_ok s b o HI Hoo Hba). unfold in_block, b in *. lia. }
  destruct (booting_insert s0 _ f (o + 1) Hbt2 Hok) as [Hbt3 ->].
  eexists. split; [done|]. split; [done|]. split; [done|]. intros x.
  rewrite (inserted_free _ f (o + 1) (bt_inv _ _ Hbt2) (bo_order _ _ _ Hok)). rewrite Hf2, Hf1. unfold in_block. rewrite E2.
  assert (f <= x < f + (2 ^ o + 2 ^ o) -> free s x) as Hin.
  { intros Hx. destruct (decide (x < b)); [exists o, f|exists o, b]; (split_and!; [done..|]); unfold in_block, b in *; lia. }
  destruct (decide (f <= x < f + (2 ^ o + 2 ^ o))); [tauto|]. unfold b. intuition lia.
Qed.

Lemma merge_pairs_spec s0 o n : forall s f,
  booting s0 s -> 0 <= o < 10 -> 0 <= f -> f `mod` 2 ^ (o + 1) = 0 ->
  f + Z.of_nat n * 2 ^ (o + 1) <= s_total_frames s ->
  exists s', merge_pairs n s f o = Some s' /\ booting s0 s' /\ s_total_frames s' = s_total_frames s /\
    (forall x, free s' x <-> free s x).
Proof.
  induction n as [|n IH]; intros s f Hbt Ho Hf Hal Hn; cbn [merge_pairs]; [by exists s|].
  assert (is_order o) as Hoo by (unfold is_order; lia). pose proof (pow_order o Hoo).
  assert (2 ^ (o + 1) = 2 ^ o * 2) as E2 by (rewrite Z.pow_add_r by lia; lia).
  pose proof (bt_inv _ _ Hbt) as HI. rewrite geti_page by (done || nia). cbn [mbind option_bind].
  assert (f `mod` 2 ^ o = 0) as Hal0.
  { apply Z.mod_divide in Hal as [q Hq]; [|lia]. apply Z.mod_divide; [lia|]. exists (q * 2). lia. }
  assert (Z.lxor f (2 ^ o) = f + 2 ^ o) as Ebuddy.
  { destruct (buddy_cases f o Hf Hoo Hal0) as [[? _]|(Hb & Hbm & ?)]; [done|]. exfalso.
    rewrite Hb in Hbm. apply Z.mod_divide in Hbm as [q Hq]; [|lia]. apply Z.mod_divide in Hal as [q' Hq']; [|lia].
    rewrite E2 in Hq, Hq'. assert (2 ^ o * (2 * (q' - q) - 1) = 0) as Hz by lia. apply Z.eq_mul_0 in Hz. lia. }
  assert (Hnext : (f + 2 ^ o * 2) `mod` 2 ^ (o + 1) = 0).
  { rewrite <- E2. replace (f + 2 ^ (o + 1)) with (f + 1 * 2 ^ (o + 1)) by lia. by rewrite Z_mod_plus_full. }
  rewrite !otf by lia. rewrite u8_small by lia. rewrite Ebuddy.
  assert (exists m, (if pg_order (pgt s f) =? o then buddy_mergeable s f o else Some false) = Some m /\
    (m = true -> f ∈ area s o /\ f + 2 ^ o ∈ area s o)) as (m & -> & Hm).
  { destruct (Z.eqb_spec (pg_order (pgt s f)) o) as [Eo|]; [|by exists false].
    destruct (buddy_mergeable_spec s f o HI Hoo) as (m & -> & Hm); [done|done|nia|lia|]. exists m. split; [done|].
    intros Ht. destruct (Hm Ht) as [Hin _]. rewrite Ebuddy in Hin. split; [|done].
    destruct (occupied (pgt s f)) eqn:Eocc.
    - rewrite (bt_order _ _ Hbt f) in Eo; [unfold ORDER_INVALID in Eo; lia| |done].
      rewrite <- (bt_total _ _ Hbt). nia.
    - rewrite <- Eo. apply (pi_heads _ HI); [nia|done|rewrite Eo; unfold ORDER_INVALID; lia]. }
  cbn [mbind option_bind]. destruct (Z.ltb_spec (f + 2 ^ o) f); [lia|].
  assert (exists s1, (if m then s ← buddy_remove s (f + 2 ^ o) o; s ← buddy_remove s f o; buddy_insert s f (o + 1)
                      else Some s) = Some s1 /\ booting s0 s1 /\ s_total_frames s1 = s_total_frames s /\
    (forall x, free s1 x <-> free s x)) as (s1 & E1 & Hbt1 & Et1 & Hf1).
  { destruct m; [|by exists s]. destruct (Hm eq_refl). apply merge_pair_spec; done || nia. }
  rewrite E1. cbn [mbind option_bind].
  destruct (IH s1 (f + 2 ^ o * 2)) as (s' & -> & Hbt' & Et' & Hf'); [done|lia|lia|done|lia|].
  exists s'. split_and!; [done|done|lia|]. intros x. by rewrite Hf', Hf1.
Qed.

Lemma merge_orders_spec s0 os : forall s,
  booting s0 s -> (forall o, o ∈ os -> 0 <= o < 10) ->
  exists s', merge_orders os s = Some s' /\ booting s0 s' /\ (forall x, free s' x <-> free s x).
Proof.
  induction os as [|o os IH]; intros s Hbt Hos; cbn [merge_orders]; [by exists s|].
  assert (0 <= o < 10) as Ho by (apply Hos; constructor). pose proof (pi_total _ (bt_inv _ _ Hbt)).
  assert (is_order o) as Hoo by (unfold is_order; lia). pose proof (pow_order o Hoo).
  assert (2 ^ (o + 1) = 2 * 2 ^ o) as E2 by (rewrite Z.pow_add_r by lia; lia).
  rewrite otf by lia.
  destruct (merge_pairs_spec s0 o (Z.to_nat (s_total_frames s / (2 * 2 ^ o))) s 0) as (s1 & -> & Hbt1 & Et1 & Hf1);
    [done|done|lia|done| |].
  { rewrite Z2Nat.id by (apply Z.div_pos; lia). rewrite E2.
    pose proof (Z.mul_div_le (s_total_frames s) (2 * 2 ^ o) ltac:(lia)). lia. }
  cbn [mbind option_bind]. destruct (IH s1) as (s' & -> & Hbt' & Hf'); [done|intros; apply Hos; by constructor|].
  exists s'. split_and!; [done..|]. intros x. by rewrite Hf', Hf1.
Qed.

(** The first phase of the boot on [total] frames. *)
Lemma boot_marks s ps kf bf baf pe mem :
  blank s -> 0 <= kf -> 0 <= ps -> s_start_addr s = ps ->
  exists s', (s ← mark_frames jlos_page_frame_mark_reserve s 0 kf;
      s ← mark_frames jlos_page_frame_mark_recycle s kf bf;
      s ← mark_frames jlos_page_frame_mark_reserve s kf baf;
      s ← (if 0 <? ps then jlos_page_frame_mark_occupied s 0 ps else Some s);
      occupy_regions s ps pe mem) = Some s' /\
    marked s s' (fun x b => existsb (region_covers ps pe x) mem || (x <? kf) || (x <? baf) ||
                            negb (in_run kf bf x) && b).
Proof.
  intros Hb Hkf Hps Hst.
  destruct (mark_frames_spec _ true s 0 kf reserve_marks Hb) as (s1 & -> & M1); [lia|]. cbn [mbind option_bind].
  destruct (mark_frames_spec _ false s1 kf bf recycle_marks (mk_blank _ _ _ M1)) as (s2 & -> & M2); [lia|]. cbn [mbind option_bind].
  destruct (mark_frames_spec _ true s2 kf baf reserve_marks (mk_blank _ _ _ M2)) as (s3 & -> & M3); [lia|]. cbn [mbind option_bind].
  assert (s_start_addr s3 = ps) as E3 by (by rewrite (mk_start _ _ _ M3), (mk_start _ _ _ M2), (mk_start _ _ _ M1)).
  assert (exists s4, (if 0 <? ps then jlos_page_frame_mark_occupied s3 0 ps else Some s3) = Some s4 /\
    marked s3 s4 (fun _ b => b)) as (s4 & E4 & M4).
  { destruct (0 <? ps); [|by exists s3; split; [|apply marked_id; apply M3]].
    destruct (mark_occupied_spec s3 0 ps (mk_blank _ _ _ M3)) as (s4 & -> & M4). exists s4. split; [done|].
    eapply marked_ext; [|done]. intros x b Hx. cbn beta. rewrite E3, Z.sub_diag. change (u32 (u32 0 + FRAME_SIZE - 1) / FRAME_SIZE) with 0.
    unfold in_run. zcases; done || lia. }
  rewrite E4. cbn [mbind option_bind].
  assert (s_start_addr s4 = ps) as E5 by (by rewrite (mk_start _ _ _ M4)).
  destruct (occupy_regions_spec ps pe mem s4 (mk_blank _ _ _ M4) E5) as (s5 & -> & M5). exists s5. split; [done|].
  eapply marked_ext; [|eapply marked_trans; [exact M1|eapply marked_trans; [exact M2|eapply marked_trans;
    [exact M3|eapply marked_trans; [exact M4|exact M5]]]]].
  intros x b Hx. cbn beta. destruct (existsb (region_covers ps pe x) mem); [done|]. cbn [orb].
  unfold in_run. destruct b; zcases; done || lia.
Qed.

Definition kernel_frames_of (phys_start kernel_end : Z) : Z := u32 (kernel_end - phys_start) / FRAME_SIZE.
Definition boot_alloc_frames_of (phys_start boot_alloc_end : Z) : Z :=
  u32 (u32 (boot_alloc_end - phys_start) + FRAME_SIZE - 1) / FRAME_SIZE.

(** The frames the boot sets aside: the kernel image, the boot allocator and the
    frames covered by reserved regions of the memory map. *)
Definition set_aside (phys_start phys_end kernel_end boot_alloc_end : Z) (mem : list (Z * Z * bool)) (x : Z) : bool :=
  existsb (region_covers phys_start phys_end x) mem ||
  (x <? kernel_frames_of phys_start kernel_end) || (x <? boot_alloc_frames_of phys_start boot_alloc_end).

(** [x] is the frame of the loader's table. *)
Definition boot_table_at (phys_start : Z) (boot_table : option Z) (x : Z) : Prop :=
  exists phys, boot_table = Some phys /\ u32 (phys - phys_start) / FRAME_SIZE = x.
#[global] Instance boot_table_at_dec phys_start boot_table x : Decision (boot_table_at phys_start boot_table x).
Proof.
  destruct boot_table as [phys|]; [|right; intros (p & [=] & _)].
  destruct (decide (u32 (phys - phys_start) / FRAME_SIZE = x)) as [E|E]; [left; by exists phys|right].
  intros (p & [= <-] & H). done.
Defined.

(** Initialisation up to the release of the loader's table. *)
Lemma boot_lists (cpus : nat) (phys_start phys_end kernel_end boot_end boot_alloc_end : Z) (mem : list (Z * Z * bool))
    (cpu : Z) (boot_table : option Z) :
  0 <= phys_start < phys_end -> phys_end < 2 ^ 32 -> phys_end - phys_start <= 2 ^ 32 - FRAME_SIZE ->
  exists s,
    jlos_page_frame_allocator_init cpus cpu boot_table phys_start phys_end kernel_end boot_end boot_alloc_end mem =
      jlos_arch_paging_free_boot_tables s cpu boot_table /\
    pfa_inv s /\ s_total_frames s = (phys_end - phys_start) / FRAME_SIZE /\ s_start_addr s = phys_start /\
    s_percpu s = replicate cpus ([], 0) /\ one_ref s /\
    (forall x, ~ cached s x) /\
    (forall x, free s x <-> 0 <= x < s_total_frames s /\ occupied (pgt s x) = false) /\
    (forall x, 0 <= x < s_total_frames s ->
       occupied (pgt s x) = set_aside phys_start phys_end kernel_end boot_alloc_end mem x).
Proof.
  intros Hps Hpe Hd. unfold jlos_page_frame_allocator_init. cbv zeta.
  fold (kernel_frames_of phys_start kernel_end). fold (boot_alloc_frames_of phys_start boot_alloc_end).
  set (bf := u32 (boot_end - phys_start) / FRAME_SIZE). rewrite (u32_small (phys_end - phys_start)) by lia.
  set (total := (phys_end - phys_start) / FRAME_SIZE).
  assert (0 <= total < 2 ^ 20) as Ht.
  { unfold total, FRAME_SIZE. split; [apply Z.div_pos; lia|apply Z.div_lt_upper_bound; lia]. }
  set (s0 := Pfa total phys_start _ _ _ _ _).
  assert (blank s0) as Hb0 by exact (blank_state_blank total cpus Ht).
  assert (0 <= kernel_frames_of phys_start kernel_end) as Hkf.
  { unfold kernel_frames_of, FRAME_SIZE. apply Z.div_pos; [apply Z.mod_pos_bound|]; lia. }
  destruct (boot_marks s0 phys_start _ bf (boot_alloc_frames_of phys_start boot_alloc_end) phys_end mem Hb0 Hkf) as (s1 & E1 & M1); [lia|done|].
  assert (Hocc0 : forall x, 0 <= x < total -> occupied (pgt s0 x) = false).
  { intros x Hx. assert (pgt s0 x = Page 0 0 ORDER_INVALID 0 0 0) as ->; [|done].
    apply lookup_total_replicate_2. lia. }
  destruct (insert_all_spec s1 (Z.to_nat total) s1 0) as (s2 & E2 & B2 & F2).
  { apply booting_blank, M1. } { lia. } { rewrite (mk_total _ _ _ M1). simpl. lia. }
  { intros x. split; [|lia]. intros Hf. by apply blank_free in Hf; [|apply M1]. }
  destruct (merge_orders_spec s1 (seqZ 0 10) s2 B2) as (s3 & E3 & B3 & F3); [intros o Ho%elem_of_seqZ; lia|].
  exists (with_free s3 (s32 (count_free s3))). split.
  { revert E1. destruct (mark_frames _ s0 _ _) as [a1|]; cbn [mbind option_bind]; [|done].
    destruct (mark_frames _ a1 _ _) as [a2|]; cbn [mbind option_bind]; [|done].
    destruct (mark_frames _ a2 _ _) as [a3|]; cbn [mbind option_bind]; [|done].
    destruct (if 0 <? phys_start then _ else _) as [a4|]; cbn [mbind option_bind]; [|done]. intros ->. cbn [mbind option_bind].
    rewrite E2. cbn [mbind option_bind]. by rewrite E3. }
  assert (s_total_frames s3 = total) as Et by (by rewrite (bt_total _ _ B3), (mk_total _ _ _ M1)).
  unfold one_ref. cbn [with_free s_total_frames s_start_addr s_percpu]. change (pgt (with_free s3 _)) with (pgt s3).
  rewrite Et. split_and!.
  - apply with_free_inv, B3.
  - done.
  - by rewrite (bt_start _ _ B3), (mk_start _ _ _ M1).
  - by rewrite (bt_cpus _ _ B3), (mk_cpus _ _ _ M1).
  - intros x Hx. rewrite (bt_occ _ _ B3), (bt_ref _ _ B3) by lia. apply (mk_ref _ _ _ M1); [|by rewrite (mk_total _ _ _ M1)].
    intros y Hy. by rewrite Hocc0.
  - apply (bt_cached _ _ B3).
  - intros x. change (free (with_free s3 _) x) with (free s3 x). rewrite F3, F2, (mk_total _ _ _ M1). cbn [s_total_frames s0].
    destruct (decide (0 <= x)); [|intuition lia]. by rewrite (bt_occ _ _ B2), (bt_occ _ _ B3).
  - intros x Hx. rewrite (bt_occ _ _ B3) by lia. rewrite (mk_occ _ _ _ M1 x Hx), (Hocc0 x Hx). by rewrite andb_false_r, orb_false_r.
Qed.

(** The last reference of an allocated frame, dropped on a processor whose cache has
    room, puts the frame into that cache and changes no list. *)
Lemma drop_last_ref s (i : nat) l c phys :
  pfa_inv s -> s_percpu s !! i = Some (l, c) -> c < 16 -> 
  let x := pfa_phys_to_frame s phys in
  x < s_total_frames s -> occupied (pgt s x) = true -> pg_refcount (pgt s x) = 1 ->
  exists s', jlos_page_frame_refcount_dec s (Z.of_nat i) phys = Some s' /\ pfa_inv s' /\ same_shape s s' /\
    (forall y, pool s' y <-> pool s y \/ y = x) /\ (forall y, free s' y <-> free s y) /\
    (forall y, 0 <= y -> occupied (pgt s' y) = if decide (y = x) then false else occupied (pgt s y)).
Proof.
  intros HI Hi Hc x Hx Ho Hr.
  assert (0 <= x) by (unfold x, pfa_phys_to_frame, FRAME_SIZE; apply Z.div_pos; [apply Z.mod_pos_bound|]; lia).
  unfold jlos_page_frame_refcount_dec. fold x. destruct (Z.leb_spec (s_total_frames s) x); [lia|].
  rewrite (geti_page s x HI) by lia. cbn [mbind option_bind]. rewrite Hr. change (0 <? 1) with true. change (1 =? 1) with true. cbv iota.
  destruct (release_spec s i x l c HI Hi) as (s' & E & HI' & Hsh & Hp & Ho' & Hoo & _ & Hf); [lia|done|].
  rewrite Hr in E. exists s'. split_and!; try done; [by apply Hf|].
  intros y Hy. case_decide; [by subst|by apply Hoo].
Qed.

(** The release of the loader's table when no frame is cached. *)
Lemma free_boot_tables_spec s (cpu : nat) boot_table :
  pfa_inv s -> (forall x, ~ cached s x) -> one_ref s -> s_percpu s !! cpu = Some ([], 0) ->
  (forall x, boot_table_at (s_start_addr s) boot_table x -> 0 <= x < s_total_frames s -> occupied (pgt s x) = true) ->
  exists s', jlos_arch_paging_free_boot_tables s (Z.of_nat cpu) boot_table = Some s' /\ pfa_inv s' /\ same_shape s s' /\
    (forall x, cached s' x <-> 0 <= x < s_total_frames s /\ boot_table_at (s_start_addr s) boot_table x) /\
    (forall x, free s' x <-> free s x) /\
    (forall x, 0 <= x < s_total_frames s ->
       occupied (pgt s' x) = occupied (pgt s x) && negb (bool_decide (boot_table_at (s_start_addr s) boot_table x))).
Proof.
  intros HI Hnc Hone Hcpu Hbt. destruct boot_table as [phys|].
  2: { exists s. assert (forall x, ~ boot_table_at (s_start_addr s) None x) as Hno by (intros x (? & [=] & _)).
       split_and!; try done; [by intros x; specialize (Hnc x); specialize (Hno x); tauto|].
       intros x Hx. rewrite bool_decide_eq_false_2 by apply Hno. by rewrite andb_true_r. }
  set (b := pfa_phys_to_frame s phys).
  assert (Hat : forall x, boot_table_at (s_start_addr s) (Some phys) x <-> x = b).
  { intros x. unfold boot_table_at. split; [by intros (? & [= <-] & <-)|intros ->; by eexists]. }
  assert (0 <= b) by (unfold b, pfa_phys_to_frame, FRAME_SIZE; apply Z.div_pos; [apply Z.mod_pos_bound|]; lia).
  cbn [jlos_arch_paging_free_boot_tables]. destruct (decide (b < s_total_frames s)) as [Hin|Hout].
  - assert (occupied (pgt s b) = true) as Hoc by (apply Hbt; [by apply Hat|lia]).
    destruct (drop_last_ref s cpu [] 0 phys HI) as (s' & -> & HI' & Hsh & Hp & Hf & Ho); [done|lia|done|done|by apply Hone|].
    fold b in Hp, Ho. destruct (occupied_detached s b HI) as [Hnf _]; [lia|done|].
    exists s'. split_and!; try done.
    + intros x. rewrite Hat. specialize (Hp x). specialize (Hf x). specialize (Hnc x). unfold pool in Hp.
      pose proof (pi_cached _ HI' x). split; [intros Hc; assert (x = b) by tauto; lia|intros [Hx ->]; tauto].
    + intros x Hx. rewrite Ho by lia. case_decide as Hd'.
      * rewrite bool_decide_eq_true_2 by (by rewrite Hat). by rewrite andb_false_r.
      * rewrite bool_decide_eq_false_2 by (by rewrite Hat). by rewrite andb_true_r.
  - exists s. unfold jlos_page_frame_refcount_dec. fold b. destruct (Z.leb_spec (s_total_frames s) b); [|lia].
    split_and!; try done.
    + intros x. rewrite Hat. specialize (Hnc x). intuition lia.
    + intros x Hx. rewrite bool_decide_eq_false_2 by (rewrite Hat; lia). by rewrite andb_true_r.
Qed.

(** C32. [jlos_page_frame_allocator_init], called on one of the processors with a
    loader's table that lies in frames set aside for the kernel (or outside the
    managed memory, or with none, as on arm64), never halts and leaves a consistent
    allocator.  A frame is occupied exactly when it belongs to the kernel image or
    the boot allocator or is covered by a reserved region of the boot memory map, and
    is not the loader's table, whose frame the last call gives back: that frame is the only cached one and
    all other unoccupied frames are in the buddy lists, coalesced.  In particular
    every frame that a reserved region touches even partly is occupied, so it can
    never be handed out, unless the loader's table is there. *)
Theorem init_correct (cpus cpu : nat) (boot_table : option Z) (phys_start phys_end kernel_end boot_end boot_alloc_end : Z)
    (mem : list (Z * Z * bool)) :
  0 <= phys_start < phys_end -> phys_end < 2 ^ 32 -> phys_end - phys_start <= 2 ^ 32 - FRAME_SIZE ->
  (cpu < cpus)%nat ->
  (forall x, boot_table_at phys_start boot_table x -> x < (phys_end - phys_start) / FRAME_SIZE ->
     set_aside phys_start phys_end kernel_end boot_alloc_end mem x = true) ->
  exists s,
    jlos_page_frame_allocator_init cpus (Z.of_nat cpu) boot_table phys_start phys_end kernel_end boot_end boot_alloc_end mem = Some s /\
    pfa_inv s /\ s_total_frames s = (phys_end - phys_start) / FRAME_SIZE /\ s_start_addr s = phys_start /\
    (forall x, cached s x <-> 0 <= x < s_total_frames s /\ boot_table_at phys_start boot_table x) /\
    (forall x, free s x <-> 0 <= x < s_total_frames s /\ occupied (pgt s x) = false /\ ~ boot_table_at phys_start boot_table x) /\
    (forall x, 0 <= x < s_total_frames s ->
       occupied (pgt s x) = set_aside phys_start phys_end kernel_end boot_alloc_end mem x &&
                            negb (bool_decide (boot_table_at phys_start boot_table x))) /\
    (forall x addr size, 0 <= x < s_total_frames s -> (addr, size, false) ∈ mem ->
       0 <= addr -> 0 < size -> addr + size < 2 ^ 64 ->
       addr < phys_start + (x + 1) * FRAME_SIZE -> phys_start + x * FRAME_SIZE < addr + size ->
       ~ boot_table_at phys_start boot_table x -> occupied (pgt s x) = true).
Proof.
  intros Hps Hpe Hd Hcpu Hbt.
  destruct (boot_lists cpus phys_start phys_end kernel_end boot_end boot_alloc_end mem (Z.of_nat cpu) boot_table Hps Hpe Hd)
    as (s1 & -> & HI & Ht & Hst & Hcp & Hone & Hnc & Hfree & Hocc).
  destruct (free_boot_tables_spec s1 cpu boot_table HI Hnc Hone) as (s & E & HI' & (Et & Es & _) & Hc' & Hf' & Ho').
  { rewrite Hcp. by apply lookup_replicate_2. }
  { intros x Hx Hr. rewrite Hst in Hx. rewrite Hocc by exact Hr. apply Hbt; [exact Hx|rewrite <- Ht; apply Hr]. }
  rewrite Hst in Hc', Ho'.
  rewrite E. exists s. rewrite Et.
  assert (Hfin : forall x, 0 <= x < s_total_frames s1 -> occupied (pgt s x) =
    set_aside phys_start phys_end kernel_end boot_alloc_end mem x && negb (bool_decide (boot_table_at phys_start boot_table x)))
    by (intros x Hx; by rewrite Ho', Hocc).
  split_and!; [done|done|done|congruence|exact Hc'| |exact Hfin|].
  - intros x. rewrite Hf', Hfree. split.
    + intros [Hx Hun]. rewrite Ho', Hun by done. split_and!; try done; try lia. intros Hat. rewrite Hocc, Hbt in Hun by (done || lia). done.
    + intros (Hx & Hun & Hat). split; [done|]. rewrite Ho' in Hun by done. rewrite bool_decide_eq_false_2 in Hun by done. by rewrite andb_true_r in Hun.
  - intros x addr size Hx Hin Ha Hsz Hov H1 H2 Hno. rewrite Hfin by done. rewrite bool_decide_eq_false_2 by done.
    rewrite andb_true_r. unfold set_aside. apply orb_true_iff. left. apply orb_true_iff. left.
    apply existsb_exists. exists (addr, size, false). split; [by apply list_elem_of_In|].
    apply region_covers_touching; unfold FRAME_SIZE in *; done || lia.
Qed.

Lemma init_correct_witness :
  exists s, jlos_page_frame_allocator_init 2 (Z.of_nat 0) (Some 8192) 4096 135168 20480 28672 36864 [(81920, 5000, false)] = Some s /\
    pfa_inv s /\ s_total_frames s = (135168 - 4096) / FRAME_SIZE /\ occupied (pgt s 20) = true /\ cached s 1.
Proof.
  destruct (init_correct 2 0 (Some 8192) 4096 135168 20480 28672 36864 [(81920, 5000, false)]) as
    (s & H1 & H2 & H3 & H4 & H5 & H6 & H7 & H8); [lia|lia|unfold FRAME_SIZE; lia|lia| |].
  { intros x (p & [= <-] & <-) _. vm_compute. reflexivity. }
  exists s. split; [exact H1|]. split; [exact H2|]. split; [exact H3|]. split.
  - apply (H8 20 81920 5000); [rewrite H3; split; [discriminate|reflexivity]|by left|unfold FRAME_SIZE; lia..|].
    intros (p & [= <-] & [=]).
  - apply H5. rewrite H3. split; [split; [discriminate|reflexivity]|]. exists 8192. split; reflexivity.
Defined.

(** Taking 3 of 16 frames leaves 13, but [s_free_frames], which counts the frames
    of the free lists, reports 14: the frame cut off the 4-frame block is added by
    [buddy_free_range] although it was never subtracted. *)
Theorem alloc_n_overcounts :
  (s ← jlos_page_frame_allocator_init 1 0 None 0 (16 * FRAME_SIZE) 0 0 0 [];
   '(s', _) ← jlos_page_frame_alloc_n s 3;
   Some (s_free_frames s, count_free s, s_free_frames s', count_free s')) = Some (16, 16, 14, 13).
Proof. vm_compute. reflexivity. Qed.
