(* ===== verification/Heap.v ===== *)
(** * The kernel heap ([kernel/memory_manager.c], first half)

    A heap manager keeps the chunks of its address range in a list ordered by
    address, and the free ones in 32 lists by size class, mirrored in a bitmap.
    The lists are the sequences [DList] proves the intrusive lists to be; a chunk
    header is named by its address.  Release runs under the heap lock; allocation
    takes the lock up to three times, and what it does under it each time is a definition
    of its own ([mm_take], [mm_grow], [mm_claim] with [mm_split]), so that calls of
    different processors can be interleaved between them.
    [None] is a chunk pointer that names no chunk. *)
From S2P Require Import Prelude Bitmap Pfa PfaInv.

Definition JLOS_MM_MIN_ALLOC : Z := 16.
Definition JLOS_MM_CLASS_COUNT : Z := 32.
Definition TYPE_KV_HEAP : Z := 3.
(** [sizeof(jlos_memory_chunk_t)] on the 32-bit target, 16-aligned. *)
Definition HDR : Z := 32.

Record chunk := Chunk { c_addr : Z; c_size : Z; c_alloc : bool }.

(** [jlos_memory_manager_t] *)
Record mm := MM {
  chunk_head : list chunk;
  tail : option Z;
  heap_start : Z;
  heap_end : Z;
  heap_current : Z;
  size_bitmap : Z;
  max_class : Z;
  class_head : list (list Z)
}.

Definition with_chunks (s : mm) (cs : list chunk) : mm :=
  MM cs (tail s) (heap_start s) (heap_end s) (heap_current s) (size_bitmap s) (max_class s) (class_head s).
Definition with_tail (s : mm) (t : option Z) : mm :=
  MM (chunk_head s) t (heap_start s) (heap_end s) (heap_current s) (size_bitmap s) (max_class s) (class_head s).
Definition with_current (s : mm) (a : Z) : mm :=
  MM (chunk_head s) (tail s) (heap_start s) (heap_end s) a (size_bitmap s) (max_class s) (class_head s).
Definition with_classes (s : mm) (bm : Z) (cl : list (list Z)) : mm :=
  MM (chunk_head s) (tail s) (heap_start s) (heap_end s) (heap_current s) bm (max_class s) cl.

(** [__builtin_clz] of a non-zero word. *)
Definition clz32 (x : Z) : Z := 32 - bit_length 32 x.

Definition mm_size_to_class (size max_class : Z) : Z :=
  if size <=? JLOS_MM_MIN_ALLOC then 0
  else let cls := JLOS_MM_CLASS_COUNT - clz32 (u32 (size - 1)) - 4 in
       if max_class <? cls then max_class else cls.

Definition class_bit (cls : Z) : Z := u32 (Z.shiftl 1 cls).

Definition mm_class_add (s : mm) (cls a : Z) : option mm :=
  l ← geti (class_head s) cls;
  cl ← seti (class_head s) cls (a :: l);
  Some (with_classes s (Z.lor (size_bitmap s) (class_bit cls)) cl).

(** Taking the chunk at [a] out of the list that holds it. *)
Definition free_unlink (s : mm) (a : Z) : list (list Z) := map (filter (fun b => b <> a)) (class_head s).

Definition mm_class_remove_chunk (s : mm) (cls a : Z) : option mm :=
  let cl := free_unlink s a in
  l ← geti cl cls;
  Some (with_classes s (if bool_decide (l = []) then Z.land (size_bitmap s) (not32 (class_bit cls)) else size_bitmap s) cl).

Definition mm_class_remove_head (s : mm) (cls : Z) : option (mm * option Z) :=
  l ← geti (class_head s) cls;
  match l with
  | [] => Some (s, None)
  | a :: _ => s ← mm_class_remove_chunk s cls a; Some (s, Some a)
  end.

(** The class found, [None] for the code's -1. *)
Definition mm_bitmap_find (s : mm) (min_class : Z) : option Z :=
  let mask := if 32 <=? min_class then 2 ^ 32 - 1 else u32 (Z.shiftl (2 ^ 32 - 1) min_class) in
  let masked := Z.land (size_bitmap s) mask in
  if masked =? 0 then None else ctz32 masked.

(** ** Chunk headers *)

Fixpoint find_chunk (cs : list chunk) (a : Z) : option chunk :=
  match cs with
  | [] => None
  | c :: cs => if c_addr c =? a then Some c else find_chunk cs a
  end.
Definition upd_chunk (cs : list chunk) (a : Z) (g : chunk -> chunk) : list chunk :=
  map (fun c => if c_addr c =? a then g c else c) cs.
(** [jlos_list_add (&c->link, &x->link)] for the chunk [x] at [a]. *)
Fixpoint insert_after (cs : list chunk) (a : Z) (c : chunk) : list chunk :=
  match cs with
  | [] => []
  | x :: cs => if c_addr x =? a then x :: c :: cs else x :: insert_after cs a c
  end.
Definition remove_chunk (cs : list chunk) (a : Z) : list chunk := filter (fun c => c_addr c <> a) cs.
Fixpoint prev_chunk (cs : list chunk) (a : Z) : option chunk :=
  match cs with
  | x :: cs' =>
      match cs' with
      | y :: _ => if c_addr y =? a then Some x else prev_chunk cs' a
      | [] => None
      end
  | [] => None
  end.
Fixpoint next_chunk (cs : list chunk) (a : Z) : option chunk :=
  match cs with
  | x :: cs' => if c_addr x =? a then head cs' else next_chunk cs' a
  | [] => None
  end.
Definition set_size (n : Z) (c : chunk) : chunk := Chunk (c_addr c) n (c_alloc c).
Definition set_alloc (b : bool) (c : chunk) : chunk := Chunk (c_addr c) (c_size c) b.

(** ** Operations *)

(** The loop of [mm_init] that bounds the classes. *)
Fixpoint max_class_loop (fuel : nat) (s max_alloc cls : Z) : Z :=
  match fuel with
  | O => cls
  | S fuel => if (s <? max_alloc) && (cls <? JLOS_MM_CLASS_COUNT - 1)
              then max_class_loop fuel (u32 (Z.shiftl s 1)) max_alloc (cls + 1) else cls
  end.
Definition mm_init (start size : Z) : option mm :=
  let max_alloc := u32 (size - HDR) in
  let s := MM [] None start (u32 (start + size)) (u32 (start + size)) 0
             (max_class_loop 32 JLOS_MM_MIN_ALLOC max_alloc 0) (replicate 32 []) in
  if HDR <=? size then
    let s := with_chunks s [Chunk start (u32 (size - HDR)) false] in
    let s := with_tail s (Some start) in
    mm_class_add s (mm_size_to_class (u32 (size - HDR)) (max_class s)) start
  else Some s.

(** The frames behind a heap extension, taken from the page frame allocator.
    [map va phys size] is the outcome of [jlos_paging_map_range] in the active
    paging context; a false outcome also stands for there being no context. *)
Fixpoint claim_frames (n : nat) (p : pfa) (phys owner : Z) : option pfa :=
  match n with
  | O => Some p
  | S n =>
      p ← jlos_page_frame_set_owner_type p phys owner TYPE_KV_HEAP;
      p ← jlos_page_frame_refcount_inc p phys;
      claim_frames n p (u32 (phys + FRAME_SIZE)) owner
  end.
Definition heap_pages (map : Z -> Z -> Z -> bool) (p : pfa) (owner va pages : Z) : option (pfa * bool) :=
  '(p, r) ← jlos_page_frame_alloc_n p pages;
  match r with
  | None => Some (p, false)
  | Some phys =>
      if map va phys (u32 (pages * FRAME_SIZE)) then
        p ← claim_frames (Z.to_nat pages) p phys owner; Some (p, true)
      else p ← jlos_page_frame_free_n p phys pages; Some (p, false)
  end.

(** The chunk made of the new pages, merged into a free last chunk. *)
Definition mm_append (s : mm) (new_chunk_size : Z) : option (mm * Z * Z) :=
  let new := heap_current s in
  match (t ← tail s; c ← find_chunk (chunk_head s) t; if c_alloc c then None else Some c) with
  | Some c =>
      s ← mm_class_remove_chunk s (mm_size_to_class (c_size c) (max_class s)) (c_addr c);
      let sz := u32 (c_size c + (u32 (new_chunk_size - HDR) + HDR)) in
      Some (with_chunks s (upd_chunk (chunk_head s) (c_addr c) (set_size sz)), c_addr c, sz)
  | None =>
      let sz := u32 (new_chunk_size - HDR) in
      Some (with_tail (with_chunks s (chunk_head s ++ [Chunk new sz false])) (Some new), new, sz)
  end.

Definition pages_needed (size : Z) : Z := u32 (u32 (size + FRAME_SIZE) - 1) / FRAME_SIZE.

(** The part of the expansion under the heap lock. *)
Definition mm_grow (s : mm) (new_chunk_size : Z) : option (mm * Z) :=
  '(s, a, sz) ← mm_append s new_chunk_size;
  s ← mm_class_add s (mm_size_to_class sz (max_class s)) a;
  Some (with_current s (u32 (heap_current s + new_chunk_size)), a).

Definition jlos_memory_manager_expand_heap (ctx : bool) (map : Z -> Z -> Z -> bool) (owner : Z)
    (s : mm) (p : pfa) (size : Z) : option (mm * pfa * option Z) :=
  if negb ctx then Some (s, p, None)
  else
    '(p, ok) ← heap_pages map p owner (heap_current s) (pages_needed size);
    if negb ok then Some (s, p, None)
    else
      '(s, a) ← mm_grow s (u32 (pages_needed size * FRAME_SIZE));
      Some (s, p, Some a).

(** The second half of [jlos_memory_manager_malloc]: splitting the chunk [c] and
    marking it allocated. *)
Definition mm_cut (s : mm) (c : chunk) (size : Z) : option mm :=
  let a := c_addr c in
  let temp := u32 (u32 (a + HDR) + size) in
  let tsize := u32 (u32 (c_size c - size) - HDR) in
  let cs := insert_after (chunk_head s) a (Chunk temp tsize false) in
  let s := with_chunks s (upd_chunk cs a (set_size size)) in
  let s := if bool_decide (tail s = Some a) then with_tail s (Some temp) else s in
  mm_class_add s (mm_size_to_class tsize (max_class s)) temp.
Definition mm_split (s : mm) (a size : Z) : option mm :=
  c ← find_chunk (chunk_head s) a;
  s ← (if u32 (u32 (size + HDR) + JLOS_MM_MIN_ALLOC) <=? c_size c then mm_cut s c size else Some s);
  Some (with_chunks s (upd_chunk (chunk_head s) a (set_alloc true))).

(** The first section under the lock: a free chunk of the class or a larger one is taken
    out of the index. *)
Definition mm_take (s : mm) (size : Z) : option (mm * option Z) :=
  match mm_bitmap_find s (mm_size_to_class size (max_class s)) with
  | Some cls => mm_class_remove_head s cls
  | None => Some (s, None)
  end.
(** The lock is taken again after an expansion: the new chunk is taken out of the
    index. *)
Definition mm_claim (s : mm) (a : Z) : option mm :=
  c ← find_chunk (chunk_head s) a;
  mm_class_remove_chunk s (mm_size_to_class (c_size c) (max_class s)) a.

(** A call that no other call of the heap interleaves with. *)
Definition jlos_memory_manager_malloc (ctx : bool) (map : Z -> Z -> Z -> bool) (owner : Z)
    (s : mm) (p : pfa) (size : Z) : option (mm * pfa * option Z) :=
  let size := Z.max size JLOS_MM_MIN_ALLOC in
  '(s, result) ← mm_take s size;
  match result with
  | Some a => s ← mm_split s a size; Some (s, p, Some (u32 (a + HDR)))
  | None =>
      '(s, p, result) ← jlos_memory_manager_expand_heap ctx map owner s p size;
      match result with
      | None => Some (s, p, None)
      | Some a => s ← mm_claim s a; s ← mm_split s a size; Some (s, p, Some (u32 (a + HDR)))
      end
  end.

(** Chunk [x] absorbs its successor [y]. *)
Definition mm_join (s : mm) (x y : chunk) : mm :=
  let cs := upd_chunk (chunk_head s) (c_addr x) (set_size (u32 (c_size x + u32 (c_size y + HDR)))) in
  let s := with_chunks s (remove_chunk cs (c_addr y)) in
  if bool_decide (tail s = Some (c_addr y)) then with_tail s (Some (c_addr x)) else s.

(** The two merges of [jlos_memory_manager_free]; the first returns the chunk to
    go on with. *)
Definition mm_merge_prev (s : mm) (a : Z) : option (mm * Z) :=
  match prev_chunk (chunk_head s) a with
  | Some p =>
      if c_alloc p then Some (s, a)
      else
        c ← find_chunk (chunk_head s) a;
        s ← mm_class_remove_chunk s (mm_size_to_class (c_size p) (max_class s)) (c_addr p);
        Some (mm_join s p c, c_addr p)
  | None => Some (s, a)
  end.
Definition mm_merge_next (s : mm) (a : Z) : option mm :=
  match next_chunk (chunk_head s) a with
  | Some n =>
      if c_alloc n then Some s
      else
        c ← find_chunk (chunk_head s) a;
        s ← mm_class_remove_chunk s (mm_size_to_class (c_size n) (max_class s)) (c_addr n);
        Some (mm_join s c n)
  | None => Some s
  end.

Definition jlos_memory_manager_free (s : mm) (ptr : Z) : option mm :=
  if (ptr =? 0) || (ptr <? heap_start s) || (heap_current s <=? ptr) then Some s
  else
    let a := u32 (ptr - HDR) in
    _ ← find_chunk (chunk_head s) a;
    let s := with_chunks s (upd_chunk (chunk_head s) a (set_alloc false)) in
    '(s, a) ← mm_merge_prev s a;
    s ← mm_merge_next s a;
    c ← find_chunk (chunk_head s) a;
    mm_class_add s (mm_size_to_class (c_size c) (max_class s)) a.
