(* ===== verification/HeapInv.v ===== *)
(** * Correctness of the kernel heap

    The chunks of a heap tile its address range, the class lists index exactly the
    free chunks, and two free chunks are never neighbours.  Allocation and release
    keep this and change the sequence of allocated chunks by exactly one. *)
From S2P Require Import Prelude Bitmap Pfa PfaInv Heap.

(** ** Chunk sequences *)

(** The chunks tile the addresses from [a] to [e]. *)
Fixpoint tiles (a : Z) (cs : list chunk) (e : Z) : Prop :=
  match cs with
  | [] => a = e
  | c :: cs => c_addr c = a /\ 0 <= c_size c /\ tiles (a + HDR + c_size c) cs e
  end.

Lemma tiles_le a cs e : tiles a cs e -> a <= e.
Proof.
  revert a. induction cs as [|c cs IH]; simpl; intros a; [lia|]. intros (? & ? & H%IH). unfold HDR in *. lia.
Qed.
Lemma tiles_app a l1 l2 e : tiles a (l1 ++ l2) e <-> exists m, tiles a l1 m /\ tiles m l2 e.
Proof.
  revert a. induction l1 as [|c l1 IH]; intros a; simpl.
  - split; [by exists a|]. by intros (m & -> & ?).
  - rewrite IH. naive_solver.
Qed.
Lemma tiles_mid a l1 x l2 e :
  tiles a (l1 ++ x :: l2) e <->
  tiles a l1 (c_addr x) /\ 0 <= c_size x /\ tiles (c_addr x + HDR + c_size x) l2 e.
Proof.
  rewrite tiles_app. simpl. split; [intros (m & H1 & <- & H2 & H3); done|]. intros (H1 & H2 & H3). by exists (c_addr x).
Qed.
Lemma tiles_range a cs e c : tiles a cs e -> c ∈ cs -> a <= c_addr c /\ 0 <= c_size c /\ c_addr c + HDR + c_size c <= e.
Proof.
  intros Ht (l1 & l2 & ->)%list_elem_of_split. apply tiles_mid in Ht as (H1 & H2 & H3).
  apply tiles_le in H1, H3. lia.
Qed.

Definition fresh (a : Z) (cs : list chunk) : Prop := forall c, c ∈ cs -> c_addr c <> a.

Lemma tiles_fresh a l1 x l2 e : tiles a (l1 ++ x :: l2) e -> fresh (c_addr x) l1 /\ fresh (c_addr x) l2.
Proof.
  intros (H1 & H2 & H3)%tiles_mid. split; intros c Hc.
  - apply (tiles_range _ _ _ c H1) in Hc. unfold HDR in *. lia.
  - apply (tiles_range _ _ _ c H3) in Hc. unfold HDR in *. lia.
Qed.

Lemma fresh_cons a c cs : fresh a (c :: cs) <-> c_addr c <> a /\ fresh a cs.
Proof. unfold fresh. split; [intros H; split; [|intros]; apply H; by constructor|]. intros [? ?] c' [->|?]%elem_of_cons; auto. Qed.

Section zipper.
Context (x : chunk) (a : Z) (l1 l2 : list chunk).
Hypothesis Hx : c_addr x = a.
Hypothesis H1 : fresh a l1.
Hypothesis H2 : fresh a l2.

Lemma find_mid : find_chunk (l1 ++ x :: l2) a = Some x.
Proof using Hx H1.
  induction l1 as [|c l IH]; simpl; [by rewrite Hx, Z.eqb_refl|].
  apply fresh_cons in H1 as [Hc H1']. rewrite (proj2 (Z.eqb_neq _ _) Hc). by apply IH.
Qed.
Lemma upd_fresh g l : fresh a l -> upd_chunk l a g = l.
Proof using.
  induction l as [|c l IH]; [done|]. intros [Hc Hl]%fresh_cons. simpl. rewrite (proj2 (Z.eqb_neq _ _) Hc).
  f_equal. by apply IH.
Qed.
Lemma upd_mid g : upd_chunk (l1 ++ x :: l2) a g = l1 ++ g x :: l2.
Proof using Hx H1 H2.
  unfold upd_chunk. rewrite map_app. simpl. rewrite Hx, Z.eqb_refl. f_equal; [by apply upd_fresh|]. f_equal. by apply upd_fresh.
Qed.
Lemma insert_after_mid c : insert_after (l1 ++ x :: l2) a c = l1 ++ x :: c :: l2.
Proof using Hx H1.
  induction l1 as [|y l IH]; simpl; [by rewrite Hx, Z.eqb_refl|].
  apply fresh_cons in H1 as [Hc H1']. rewrite (proj2 (Z.eqb_neq _ _) Hc). by rewrite IH.
Qed.
Lemma remove_fresh l : fresh a l -> remove_chunk l a = l.
Proof using.
  induction l as [|c l IH]; [done|]. intros [Hc Hl]%fresh_cons. unfold remove_chunk in *. rewrite filter_cons, decide_True by done.
  f_equal. by apply IH.
Qed.
Lemma remove_mid : remove_chunk (l1 ++ x :: l2) a = l1 ++ l2.
Proof using Hx H1 H2.
  unfold remove_chunk. rewrite filter_app, filter_cons, decide_False by tauto. f_equal; by apply remove_fresh.
Qed.
Lemma next_mid : next_chunk (l1 ++ x :: l2) a = head l2.
Proof using Hx H1.
  induction l1 as [|y l IH]; simpl; [by rewrite Hx, Z.eqb_refl|].
  apply fresh_cons in H1 as [Hc H1']. rewrite (proj2 (Z.eqb_neq _ _) Hc). by apply IH.
Qed.
Lemma prev_mid : prev_chunk (l1 ++ x :: l2) a = last l1.
Proof using Hx H1 H2.
  induction l1 as [|y l IH].
  - simpl. destruct l2 as [|z l]; [done|]. apply fresh_cons in H2 as [Hc H2']. rewrite (proj2 (Z.eqb_neq _ _) Hc).
    clear -H2'. revert z. induction l as [|w l IH]; intros z; [done|]. simpl in *. apply fresh_cons in H2' as [Hc H2'].
    rewrite (proj2 (Z.eqb_neq _ _) Hc). by apply IH.
  - apply fresh_cons in H1 as [Hc H1']. destruct l as [|z l]; simpl; [by rewrite Hx, Z.eqb_refl|].
    pose proof H1' as [Hz _]%fresh_cons. rewrite (proj2 (Z.eqb_neq _ _) Hz). simpl in IH. by rewrite IH.
Qed.
End zipper.

Lemma find_chunk_Some cs a x : find_chunk cs a = Some x -> c_addr x = a /\ x ∈ cs.
Proof.
  induction cs as [|c cs IH]; [done|]. simpl. destruct (Z.eqb_spec (c_addr c) a); [intros [= <-]; split; [done|constructor]|].
  intros [? ?]%IH. split; [done|by constructor].
Qed.

(** ** Size classes *)

Definition class_of (mx : Z) (c : chunk) : Z := mm_size_to_class (c_size c) mx.

Lemma size_class_range size mx : 0 <= mx <= 31 -> 0 <= size < 2 ^ 32 -> 0 <= mm_size_to_class size mx <= mx.
Proof.
  intros Hm Hs. unfold mm_size_to_class, JLOS_MM_MIN_ALLOC, JLOS_MM_CLASS_COUNT, clz32.
  destruct (Z.leb_spec size 16); [lia|]. rewrite u32_small by lia.
  destruct (bit_length_spec 32 (size - 1)) as (H1 & H2 & H3); [change (Z.of_nat 32) with 32; lia|].
  set (b := bit_length 32 (size - 1)) in *.
  assert (4 < b).
  { destruct (Z.lt_ge_cases 4 b) as [|Hlt]; [done|]. assert (2 ^ b <= 2 ^ 4) by (apply Z.pow_le_mono_r; lia).
    change (2 ^ 4) with 16 in *. lia. }
  destruct (Z.ltb_spec mx (32 - (32 - b) - 4)); lia.
Qed.

(** A larger class holds only chunks at least as large as every size of a smaller one. *)
Lemma size_class_mono a b mx :
  0 <= mx <= 31 -> 0 <= a < 2 ^ 32 -> 0 <= b < 2 ^ 32 -> mm_size_to_class a mx < mm_size_to_class b mx -> a <= b.
Proof.
  intros Hm Ha Hb. destruct (Z.le_gt_cases a b) as [|Hlt]; [done|]. intros Hc. exfalso. revert Hc.
  unfold mm_size_to_class, JLOS_MM_MIN_ALLOC, JLOS_MM_CLASS_COUNT, clz32.
  destruct (Z.leb_spec b 16), (Z.leb_spec a 16); try lia; rewrite !u32_small by lia.
  - destruct (bit_length_spec 32 (a - 1)) as (H1 & H2 & H3); [change (Z.of_nat 32) with 32; lia|].
    set (k := bit_length 32 (a - 1)) in *. assert (4 <= k).
    { destruct (Z.lt_ge_cases k 4) as [Hk|]; [|done]. assert (2 ^ k <= 2 ^ 3) by (apply Z.pow_le_mono_r; lia).
      change (2 ^ 3) with 8 in *. lia. }
    destruct (Z.ltb_spec mx (32 - (32 - k) - 4)); lia.
  - destruct (bit_length_spec 32 (a - 1)) as (H1 & H2 & _); [change (Z.of_nat 32) with 32; lia|].
    destruct (bit_length_spec 32 (b - 1)) as (G1 & _ & G3); [change (Z.of_nat 32) with 32; lia|]. specialize (G3 ltac:(lia)).
    set (ka := bit_length 32 (a - 1)) in *. set (kb := bit_length 32 (b - 1)) in *.
    assert (kb <= ka).
    { destruct (Z.lt_ge_cases ka kb) as [Hk|]; [|done]. assert (2 ^ (ka + 1) <= 2 ^ kb) as Hp by (apply Z.pow_le_mono_r; lia).
      rewrite Z.pow_add_r, Z.pow_1_r in Hp by lia. lia. }
    destruct (Z.ltb_spec mx (32 - (32 - ka) - 4)), (Z.ltb_spec mx (32 - (32 - kb) - 4)); lia.
Qed.

(** ** The index of free chunks *)

(** Address [a] is listed in class [k]: it names a free chunk of that class. *)
Definition entry (mx : Z) (cs : list chunk) (a k : Z) : Prop :=
  exists c, c ∈ cs /\ c_addr c = a /\ c_alloc c = false /\ class_of mx c = k.

Record indexed (mx bm : Z) (cl : list (list Z)) (cs : list chunk) : Prop := {
  ix_len : length cl = 32%nat;
  ix_max : 0 <= mx <= 31;
  ix_size c : c ∈ cs -> 0 <= c_size c < 2 ^ 32;
  ix_nodup k : 0 <= k < 32 -> NoDup (cl !!! Z.to_nat k);
  ix_list k a : 0 <= k < 32 -> a ∈ cl !!! Z.to_nat k <-> entry mx cs a k;
  ix_bit k : 0 <= k < 32 -> Z.testbit bm k = true <-> cl !!! Z.to_nat k <> [];
  ix_bm : 0 <= bm < 2 ^ 32
}.

Lemma entry_mid mx l1 x l2 a k :
  entry mx (l1 ++ x :: l2) a k <-> entry mx (l1 ++ l2) a k \/ a = c_addr x /\ c_alloc x = false /\ class_of mx x = k.
Proof.
  unfold entry. split.
  - intros (c & Hc & <- & Ha & Hk). apply elem_of_app in Hc as [Hc|[->|Hc]%elem_of_cons]; [| by right |];
      left; exists c; (split; [apply elem_of_app; auto|done]).
  - intros [(c & Hc & ? & ? & ?)|(-> & ? & ?)].
    + exists c. split; [|done]. apply elem_of_app in Hc as [?|?]; apply elem_of_app; [by left|right; by constructor].
    + exists x. split; [|done]. apply elem_of_app. right. by constructor.
Qed.
Lemma entry_fresh mx cs a k : fresh a cs -> ~ entry mx cs a k.
Proof. intros Hf (c & Hc & Ha & _). by apply (Hf c). Qed.

Lemma fresh_app a l1 l2 : fresh a (l1 ++ l2) <-> fresh a l1 /\ fresh a l2.
Proof. unfold fresh. setoid_rewrite elem_of_app. naive_solver. Qed.

(** Allocated chunks do not appear in the index. *)
Lemma indexed_alloc mx bm cl l1 x l2 :
  c_alloc x = true -> 0 <= c_size x < 2 ^ 32 -> indexed mx bm cl (l1 ++ x :: l2) <-> indexed mx bm cl (l1 ++ l2).
Proof.
  intros Ha Hs. assert (forall a k, entry mx (l1 ++ x :: l2) a k <-> entry mx (l1 ++ l2) a k) as E.
  { intros a k. rewrite entry_mid. naive_solver congruence. }
  split; intros [H1 H2 H3 H4 H5 H6 H7]; split; try done.
  - intros c Hc. apply H3. apply elem_of_app in Hc as [?|?]; apply elem_of_app; [by left|right; by constructor].
  - intros k a Hk. by rewrite <- E, H5.
  - intros c Hc. apply elem_of_app in Hc as [Hc|[->|Hc]%elem_of_cons]; [|done|]; apply H3, elem_of_app; auto.
  - intros k a Hk. by rewrite E, H5.
Qed.

Lemma class_bit_spec k i : 0 <= k < 32 -> 0 <= i -> Z.testbit (class_bit k) i = bool_decide (i = k).
Proof.
  intros Hk Hi. unfold class_bit. rewrite Z.shiftl_mul_pow2, Z.mul_1_l by lia.
  rewrite u32_small by (split; [lia|apply Z.pow_lt_mono_r; lia]).
  apply testbit_pow2'; lia.
Qed.
Lemma lor_class_bit bm k i : 0 <= k < 32 -> 0 <= i ->
  Z.testbit (Z.lor bm (class_bit k)) i = Z.testbit bm i || bool_decide (i = k).
Proof. intros. by rewrite Z.lor_spec, class_bit_spec. Qed.
Lemma land_class_bit bm k i : 0 <= k < 32 -> 0 <= i < 32 ->
  Z.testbit (Z.land bm (not32 (class_bit k))) i = Z.testbit bm i && negb (bool_decide (i = k)).
Proof. intros. by rewrite Z.land_spec, not32_spec, class_bit_spec by lia. Qed.
Lemma lor_range_32 a b : 0 <= a < 2 ^ 32 -> 0 <= b < 2 ^ 32 -> 0 <= Z.lor a b < 2 ^ 32.
Proof.
  intros Ha Hb. assert (0 <= Z.lor a b) by (apply Z.lor_nonneg; lia). split; [done|].
  assert (Z.lor a b = Z.lor a b mod 2 ^ 32) as ->; [|apply Z.mod_pos_bound; lia]. symmetry. apply Z.bits_inj'.
  intros i Hi. destruct (decide (i < 32)); [by apply Z.mod_pow2_bits_low; lia|].
  by rewrite Z.mod_pow2_bits_high, Z.lor_spec, !(testbit_above 32) by lia.
Qed.
Lemma class_bit_range k : 0 <= class_bit k < 2 ^ 32.
Proof. apply u32_range. Qed.

Lemma class_list (cl : list (list Z)) k : length cl = 32%nat -> 0 <= k < 32 -> geti cl k = Some (cl !!! Z.to_nat k).
Proof.
  intros Hl Hk. destruct (geti_Some cl k) as (l & -> & Hl'); [lia|]. f_equal. symmetry. by apply list_lookup_total_correct.
Qed.
Lemma class_list_set (cl : list (list Z)) k l j : length cl = 32%nat -> 0 <= k < 32 -> 0 <= j < 32 ->
  <[Z.to_nat k := l]> cl !!! Z.to_nat j = if decide (j = k) then l else cl !!! Z.to_nat j.
Proof.
  intros Hl Hk Hj. goal_decide; [subst; apply list_lookup_total_insert_eq; lia|]. apply list_lookup_total_insert_ne. lia.
Qed.

Lemma class_add_spec s l1 x l2 :
  indexed (max_class s) (size_bitmap s) (class_head s) (l1 ++ l2) -> fresh (c_addr x) (l1 ++ l2) ->
  c_alloc x = false -> 0 <= c_size x < 2 ^ 32 ->
  exists bm cl, mm_class_add s (class_of (max_class s) x) (c_addr x) = Some (with_classes s bm cl) /\
    indexed (max_class s) bm cl (l1 ++ x :: l2).
Proof.
  intros [H1 H2 H3 H4 H5 H6 H7] Hf Ha Hs. pose proof (size_class_range (c_size x) (max_class s) H2 Hs) as Hk.
  fold (class_of (max_class s) x) in Hk. set (k := class_of (max_class s) x) in *.
  unfold mm_class_add. rewrite class_list by (done || lia). cbn [mbind option_bind].
  rewrite seti_Some by lia. cbn [mbind option_bind]. eexists _, _. split; [done|]. split.
  - by rewrite length_insert.
  - done.
  - intros c Hc. apply elem_of_app in Hc as [Hc|[->|Hc]%elem_of_cons]; [|done|]; apply H3, elem_of_app; auto.
  - intros j Hj. rewrite class_list_set by (done || lia). goal_decide; [subst j|by apply H4].
    constructor; [|by apply H4]. rewrite H5 by done. by apply entry_fresh.
  - intros j a Hj. rewrite class_list_set, entry_mid, <- H5 by (done || lia). fold k.
    goal_decide; [subst j; rewrite elem_of_cons|]; naive_solver.
  - intros j Hj. rewrite class_list_set, lor_class_bit, orb_true_iff, bool_decide_eq_true, H6 by (done || lia).
    goal_decide; [subst j; naive_solver|]. tauto.
  - apply lor_range_32; [done|apply class_bit_range].
Qed.

Lemma class_remove_spec s l1 x l2 :
  indexed (max_class s) (size_bitmap s) (class_head s) (l1 ++ x :: l2) ->
  fresh (c_addr x) (l1 ++ l2) -> c_alloc x = false ->
  exists bm cl, mm_class_remove_chunk s (class_of (max_class s) x) (c_addr x) = Some (with_classes s bm cl) /\
    indexed (max_class s) bm cl (l1 ++ l2).
Proof.
  intros [H1 H2 H3 H4 H5 H6 H7] Hf Ha.
  assert (0 <= c_size x < 2 ^ 32) as Hs by (apply H3, elem_of_app; right; by constructor).
  pose proof (size_class_range (c_size x) (max_class s) H2 Hs) as Hk.
  fold (class_of (max_class s) x) in Hk. set (k := class_of (max_class s) x) in *.
  set (a := c_addr x) in *. unfold mm_class_remove_chunk, free_unlink.
  assert (Hlen : length (map (filter (fun b => b <> a)) (class_head s)) = 32%nat) by (by rewrite length_map).
  assert (Hget : forall j, 0 <= j < 32 ->
    map (filter (fun b => b <> a)) (class_head s) !!! Z.to_nat j = filter (fun b => b <> a) (class_head s !!! Z.to_nat j)).
  { intros j Hj. apply list_lookup_total_correct. rewrite list_lookup_fmap.
    by rewrite (list_lookup_lookup_total_lt (class_head s)) by lia. }
  rewrite class_list by (done || lia). cbn [mbind option_bind]. eexists _, _. split; [done|].
  assert (Hmem : forall j b, 0 <= j < 32 ->
    b ∈ map (filter (fun b => b <> a)) (class_head s) !!! Z.to_nat j <-> entry (max_class s) (l1 ++ l2) b j).
  { intros j b Hj. rewrite Hget, list_elem_of_filter, H5, entry_mid by lia. fold a k. split.
    - intros [Hne [?|(? & _)]]; [done|congruence].
    - intros He. split; [|by left]. intros ->. by apply (entry_fresh (max_class s) (l1 ++ l2) a j). }
  assert (Hother : forall j, 0 <= j < 32 -> j <> k ->
    map (filter (fun b => b <> a)) (class_head s) !!! Z.to_nat j = class_head s !!! Z.to_nat j).
  { intros j Hj Hne. rewrite Hget by lia. apply filter_absent. rewrite H5, entry_mid by lia. fold a k.
    intros [He|(_ & _ & ?)]; [by apply (entry_fresh (max_class s) (l1 ++ l2) a j)|congruence]. }
  split; try done.
  - intros c Hc. apply H3. apply elem_of_app in Hc as [?|?]; apply elem_of_app; [by left|right; by constructor].
  - intros j Hj. rewrite Hget by lia. apply NoDup_filter. by apply H4.
  - intros j Hj. case_bool_decide as E.
    + rewrite land_class_bit by lia. destruct (decide (j = k)) as [->|Hne].
      * rewrite bool_decide_true, andb_false_r by done. naive_solver.
      * rewrite bool_decide_false, andb_true_r, H6, Hother by done. done.
    + destruct (decide (j = k)) as [->|Hne].
      * rewrite H6 by lia. split; [done|]. intros _ En. apply E. rewrite Hget, En by lia. done.
      * by rewrite H6, Hother.
  - case_bool_decide; [|done]. apply land_range; [lia|done|]. apply u32_range.
Qed.

Lemma bitmap_find_spec s cs k :
  indexed (max_class s) (size_bitmap s) (class_head s) cs -> 0 <= k < 32 ->
  match mm_bitmap_find s k with
  | None => forall j a, k <= j < 32 -> ~ entry (max_class s) cs a j
  | Some j => k <= j < 32 /\ class_head s !!! Z.to_nat j <> []
  end.
Proof.
  intros [H1 H2 H3 H4 H5 H6 H7] Hk. unfold mm_bitmap_find. destruct (Z.leb_spec 32 k); [lia|].
  set (masked := Z.land (size_bitmap s) (u32 (Z.shiftl (2 ^ 32 - 1) k))).
  assert (Hbit : forall i, 0 <= i < 32 -> Z.testbit masked i = true <-> k <= i /\ class_head s !!! Z.to_nat i <> []).
  { intros i Hi. unfold masked. rewrite Z.land_spec, order_mask_spec, andb_true_iff, bool_decide_eq_true, H6 by lia.
    split; intros; split_and!; try tauto; lia. }
  destruct (Z.eqb_spec masked 0) as [E|E].
  - intros j a Hj He. rewrite <- H5 in He by lia.
    assert (Z.testbit masked j = true) as Hb.
    { apply Hbit; [lia|]. split; [lia|]. intros En. rewrite En in He. by apply elem_of_nil in He. }
    by rewrite E, Z.bits_0 in Hb.
  - assert (0 <= masked < 2 ^ 32) by (apply land_range; [lia|done|apply u32_range]).
    destruct (ctz32_spec masked) as (o & -> & Ho & Hb & _); [lia|]. apply Hbit in Hb; [|done]. lia || (destruct Hb; split; [lia|done]).
Qed.

(** ** The heap invariant *)

Definition busy (o : option chunk) : Prop := match o with Some c => c_alloc c = true | None => True end.

(** No two neighbouring chunks are free. *)
Fixpoint quiet (cs : list chunk) : Prop :=
  match cs with
  | [] => True
  | x :: cs => (c_alloc x = true \/ busy (head cs)) /\ quiet cs
  end.

Lemma quiet_mid l1 x l2 :
  quiet (l1 ++ x :: l2) <-> quiet l1 /\ quiet l2 /\ (c_alloc x = true \/ busy (last l1) /\ busy (head l2)).
Proof.
  induction l1 as [|y l1 IH]; [simpl; tauto|]. change ((y :: l1) ++ x :: l2) with (y :: (l1 ++ x :: l2)).
  cbn [quiet]. rewrite IH. destruct l1 as [|z l1]; [simpl; tauto|].
  change (last (y :: z :: l1)) with (last (z :: l1)). simpl. tauto.
Qed.
Lemma quiet_set_size l1 x n l2 : quiet (l1 ++ x :: l2) -> quiet (l1 ++ set_size n x :: l2).
Proof. by rewrite !quiet_mid. Qed.

Record mm_inv (s : mm) : Prop := {
  mi_range : 0 <= heap_start s /\ heap_current s < 2 ^ 32;
  mi_tiles : tiles (heap_start s) (chunk_head s) (heap_current s);
  mi_tail : tail s = c_addr <$> last (chunk_head s);
  mi_index : indexed (max_class s) (size_bitmap s) (class_head s) (chunk_head s);
  mi_quiet : quiet (chunk_head s)
}.

(** The same, with the chunk [x] between [l1] and [l2] taken out of the index. *)
Record ready (s : mm) (l1 : list chunk) (x : chunk) (l2 : list chunk) : Prop := {
  rd_range : 0 <= heap_start s /\ heap_current s < 2 ^ 32;
  rd_chunks : chunk_head s = l1 ++ x :: l2;
  rd_tiles : tiles (heap_start s) (l1 ++ x :: l2) (heap_current s);
  rd_tail : tail s = c_addr <$> last (chunk_head s);
  rd_index : indexed (max_class s) (size_bitmap s) (class_head s) (l1 ++ l2);
  rd_quiet : quiet l1 /\ quiet l2
}.

(** The blocks handed out: address of the payload and its size. *)
Definition allocs (cs : list chunk) : list (Z * Z) :=
  (fun c => (c_addr c + HDR, c_size c)) <$> filter (fun c => c_alloc c = true) cs.

Lemma allocs_app l1 l2 : allocs (l1 ++ l2) = allocs l1 ++ allocs l2.
Proof. unfold allocs. by rewrite filter_app, fmap_app. Qed.
Lemma allocs_busy x l : c_alloc x = true -> allocs (x :: l) = (c_addr x + HDR, c_size x) :: allocs l.
Proof. intros Ha. unfold allocs. by rewrite filter_cons, decide_True. Qed.
Lemma allocs_free x l : c_alloc x = false -> allocs (x :: l) = allocs l.
Proof. intros Ha. unfold allocs. rewrite filter_cons, decide_False by congruence. done. Qed.

Lemma last_mid {A} (l1 : list A) x l2 : last (l1 ++ x :: l2) = Some (default x (last l2)).
Proof.
  rewrite last_app, last_cons. by destruct (last l2).
Qed.

Lemma ready_facts s l1 x l2 : ready s l1 x l2 ->
  fresh (c_addr x) l1 /\ fresh (c_addr x) l2 /\ fresh (c_addr x) (l1 ++ l2) /\
  0 <= c_addr x /\ 0 <= c_size x /\ c_addr x + HDR + c_size x < 2 ^ 32.
Proof.
  intros [Hr _ Ht _ _ _]. destruct (tiles_fresh _ _ _ _ _ Ht) as [H1 H2]. rewrite fresh_app.
  destruct (tiles_range _ _ _ x Ht) as (? & ? & ?); [apply elem_of_app; right; constructor|]. split_and!; try done; lia.
Qed.

(** Putting the chunk back into the index, or marking it allocated, restores the invariant. *)
Lemma ready_index s l1 x l2 :
  ready s l1 x l2 -> c_alloc x = false -> busy (last l1) -> busy (head l2) ->
  exists bm cl, mm_class_add s (class_of (max_class s) x) (c_addr x) = Some (with_classes s bm cl) /\
    mm_inv (with_classes s bm cl).
Proof.
  intros Hrd Ha H1 H2. destruct (ready_facts _ _ _ _ Hrd) as (_ & _ & Hf & ? & ? & ?). unfold HDR in *.
  destruct (class_add_spec s l1 x l2) as (bm & cl & E & Hix); [apply Hrd|done|done|lia|].
  exists bm, cl. split; [done|]. destruct Hrd as [A1 A2 A3 A4 _ [A5 A6]]. split; simpl; try done; rewrite ?A2; try done.
  apply quiet_mid. tauto.
Qed.
Lemma ready_alloc s l1 x l2 :
  ready s l1 x l2 -> mm_inv (with_chunks s (upd_chunk (chunk_head s) (c_addr x) (set_alloc true))).
Proof.
  intros Hrd. destruct (ready_facts _ _ _ _ Hrd) as (F1 & F2 & _ & ? & ? & ?). unfold HDR in *.
  destruct Hrd as [A1 A2 A3 A4 A5 [A6 A7]]. rewrite A2, upd_mid by done.
  split; simpl; try done.
  - apply tiles_mid. apply tiles_mid in A3. done.
  - rewrite A4, A2, !last_mid. by destruct (last l2).
  - apply indexed_alloc; [done|simpl; lia|done].
  - apply quiet_mid. split_and!; try done. by left.
Qed.

(** Cutting a chunk in two. *)
Definition cut (x : chunk) (size : Z) : chunk := Chunk (c_addr x + HDR + size) (c_size x - size - HDR) false.

Lemma tiles_cut a l1 x l2 e size :
  tiles a (l1 ++ x :: l2) e -> 0 <= size -> size + HDR <= c_size x ->
  tiles a (l1 ++ set_size size x :: cut x size :: l2) e.
Proof.
  intros (H1 & H2 & H3)%tiles_mid Hs Hc. apply tiles_mid. simpl. unfold HDR in *. split_and!; try done; try lia.
  replace (c_addr x + 32 + size + 32 + (c_size x - size - 32)) with (c_addr x + 32 + c_size x) by lia. done.
Qed.

Lemma split_chunk_spec s l1 x l2 size :
  ready s l1 x l2 -> busy (head l2) -> 16 <= size -> size + 48 <= c_size x ->
  exists s', mm_cut s x size = Some s' /\
    ready s' l1 (set_size size x) (cut x size :: l2) /\
    heap_start s' = heap_start s /\ heap_current s' = heap_current s /\ max_class s' = max_class s.
Proof.
  intros Hrd Hh Hs Hc. destruct (ready_facts _ _ _ _ Hrd) as (F1 & F2 & F3 & ? & ? & ?). unfold mm_cut, HDR in *.
  destruct Hrd as [A1 A2 A3 A4 A5 [A6 A7]].
  pose proof (tiles_cut _ _ _ _ _ size A3 ltac:(lia) ltac:(unfold HDR; lia)) as Ht.
  cbv zeta. rewrite (u32_small (c_addr x + 32)), (u32_small (c_size x - size)), !u32_small by lia.
  rewrite A2, insert_after_mid by done. rewrite upd_mid; [|done|done|].
  2: { apply fresh_cons. simpl. split; [lia|done]. }
  change (Chunk _ _ false) with (cut x size).
  change (c_addr x + 32 + size) with (c_addr (cut x size)). change (c_size x - size - 32) with (c_size (cut x size)).
  set (cs := l1 ++ set_size size x :: cut x size :: l2) in *.
  set (s1 := if bool_decide _ then _ else _).
  assert (heap_start s1 = heap_start s /\ heap_current s1 = heap_current s /\ max_class s1 = max_class s /\
    chunk_head s1 = cs /\ size_bitmap s1 = size_bitmap s /\ class_head s1 = class_head s /\
    tail s1 = c_addr <$> last cs) as (B1 & B2 & B3 & B4 & B5 & B6 & B7).
  { assert (last cs = Some (default (cut x size) (last l2))) as Hl.
    { unfold cs. rewrite last_mid, last_cons. by destruct (last l2). }
    rewrite Hl. rewrite A2, last_mid in A4. subst s1. simpl. case_bool_decide as E; simpl; split_and!; try done.
    - destruct (last l2) as [y|] eqn:El; [|done]. rewrite A4 in E. simpl in E. exfalso.
      apply (F2 y); [|congruence]. by apply last_Some_elem_of.
    - rewrite A4. destruct (last l2) as [y|] eqn:El; [done|]. exfalso. apply E. by rewrite A4. }
  clearbody s1. destruct (tiles_fresh (heap_start s) (l1 ++ [set_size size x]) (cut x size) l2 (heap_current s)) as [G1 G2].
  { rewrite <- app_assoc. exact Ht. }
  apply fresh_app in G1 as [G1 _].
  destruct (class_add_spec s1 l1 (cut x size) l2) as (bm & cl & E & Hix).
  - by rewrite B3, B5, B6.
  - apply fresh_app. done.
  - done.
  - cbn [cut c_size]. unfold HDR. lia.
  - unfold class_of in E. rewrite E. eexists. split; [done|]. split; [|done]. split; simpl; rewrite ?B1, ?B2, ?B4; try done.
    + split; [done|]. split; [right; done|done].
Qed.

Lemma mm_split_spec s l1 x l2 size :
  ready s l1 x l2 -> c_alloc x = false -> busy (last l1) -> busy (head l2) -> 16 <= size < 2 ^ 32 - 48 ->
  exists s', mm_split s (c_addr x) size = Some s' /\ mm_inv s' /\ heap_start s' = heap_start s /\
    heap_current s' = heap_current s /\
    allocs (chunk_head s') =
      allocs l1 ++ (c_addr x + HDR, if size + 48 <=? c_size x then size else c_size x) :: allocs l2.
Proof.
  intros Hrd Ha H1 H2 Hs. destruct (ready_facts _ _ _ _ Hrd) as (F1 & F2 & F3 & ? & ? & ?).
  unfold mm_split.
  assert (find_chunk (chunk_head s) (c_addr x) = Some x) as -> by (rewrite (rd_chunks _ _ _ _ Hrd); by apply find_mid).
  cbn [mbind option_bind].
  unfold JLOS_MM_MIN_ALLOC. rewrite (u32_small (size + HDR)), u32_small by (unfold HDR; lia).
  replace (size + HDR + 16) with (size + 48) by (unfold HDR; lia).
  destruct (Z.leb_spec (size + 48) (c_size x)) as [Hc|Hc].
  - destruct (split_chunk_spec s l1 x l2 size Hrd H2 ltac:(lia) Hc) as (s' & -> & Hrd' & E1 & E2 & E3).
    cbn [mbind option_bind]. eexists. split; [done|]. split; [exact (ready_alloc _ _ _ _ Hrd')|].
    split; [done|]. split; [done|]. simpl. rewrite (rd_chunks _ _ _ _ Hrd').
    destruct (ready_facts _ _ _ _ Hrd') as (G1 & G2 & _). change (c_addr (set_size size x)) with (c_addr x) in *.
    rewrite upd_mid by done. by rewrite allocs_app, allocs_busy, allocs_free by done.
  - cbn [mbind option_bind]. eexists. split; [done|]. split; [exact (ready_alloc _ _ _ _ Hrd)|].
    split; [done|]. split; [done|]. simpl. rewrite (rd_chunks _ _ _ _ Hrd), upd_mid by done.
    rewrite allocs_app, allocs_busy by done. done.
Qed.

(** ** Release *)

(** The chunk that two neighbours are merged into. *)
Definition join (x y : chunk) : chunk := Chunk (c_addr x) (c_size x + c_size y + HDR) (c_alloc x).

Lemma tiles_join a l1 x y l2 e : tiles a (l1 ++ x :: y :: l2) e -> tiles a (l1 ++ join x y :: l2) e.
Proof.
  rewrite !tiles_mid. simpl. unfold HDR. intros (H1 & H2 & H3 & H4 & H5). split_and!; [done|lia|].
  replace (c_addr x + 32 + (c_size x + c_size y + 32)) with (c_addr x + 32 + c_size x + 32 + c_size y) by lia. done.
Qed.

(** [y] is merged into its predecessor [x], both out of the index. *)
Lemma mm_join_spec s l1 x y l2 :
  0 <= heap_start s /\ heap_current s < 2 ^ 32 -> chunk_head s = l1 ++ x :: y :: l2 ->
  tiles (heap_start s) (l1 ++ x :: y :: l2) (heap_current s) -> tail s = c_addr <$> last (chunk_head s) ->
  indexed (max_class s) (size_bitmap s) (class_head s) (l1 ++ l2) -> quiet l1 -> quiet l2 ->
  ready (mm_join s x y) l1 (join x y) l2 /\ heap_start (mm_join s x y) = heap_start s /\
  heap_current (mm_join s x y) = heap_current s.
Proof.
  intros Hr Hc Ht Htl Hix Hq1 Hq2. unfold mm_join. cbv zeta. rewrite Hc.
  destruct (tiles_fresh _ _ _ _ _ Ht) as [F1 F2]. apply fresh_cons in F2 as [F2 F3].
  destruct (tiles_fresh (heap_start s) (l1 ++ [x]) y l2 (heap_current s)) as [G1 G2]; [by rewrite <- app_assoc|].
  apply fresh_app in G1 as [G1 _].
  destruct (tiles_range _ _ _ x Ht) as (? & ? & ?); [apply elem_of_app; right; constructor|].
  destruct (tiles_range _ _ _ y Ht) as (? & ? & Hye); [apply elem_of_app; right; constructor; constructor|].
  assert (c_addr y = c_addr x + HDR + c_size x) as Hy by (apply tiles_mid in Ht as (_ & _ & ? & _); done).
  rewrite Hy in Hye. unfold HDR in *. rewrite (u32_small (c_size y + 32)), u32_small by lia.
  rewrite upd_mid; [|done|done|apply fresh_cons; done].
  replace (set_size _ x) with (join x y) by (unfold join, set_size, HDR; f_equal; lia).
  replace (l1 ++ join x y :: y :: l2) with ((l1 ++ [join x y]) ++ y :: l2) by (by rewrite <- app_assoc).
  rewrite remove_mid; [|done| |done].
  2: { apply fresh_app. split; [done|]. apply fresh_cons. split; [simpl; lia|]. intros c []%elem_of_nil. }
  rewrite <- app_assoc. simpl.
  assert (Htail : (if bool_decide (tail s = Some (c_addr y)) then Some (c_addr x) else tail s) =
    c_addr <$> last (l1 ++ join x y :: l2)).
  { rewrite Htl, Hc. rewrite !last_mid, last_cons. destruct (last l2) as [w|] eqn:El; simpl.
    - rewrite bool_decide_false; [done|]. intros [= Ew]. apply (G2 w); [by apply last_Some_elem_of|done].
    - by rewrite bool_decide_true. }
  apply tiles_join in Ht. case_bool_decide; (split; [|done]); split; simpl; try done.
Qed.

Lemma last_split {A} (l : list A) x : last l = Some x -> exists l', l = l' ++ [x].
Proof. intros (l' & ->)%last_Some. by exists l'. Qed.

Lemma merge_prev_spec s l1 x l2 :
  ready s l1 x l2 -> c_alloc x = false ->
  exists s' l1' x', mm_merge_prev s (c_addr x) = Some (s', c_addr x') /\ ready s' l1' x' l2 /\
    busy (last l1') /\ c_alloc x' = false /\ allocs l1' = allocs l1 /\
    heap_start s' = heap_start s /\ heap_current s' = heap_current s.
Proof.
  intros Hrd Ha. destruct (ready_facts _ _ _ _ Hrd) as (F1 & F2 & F3 & _). unfold mm_merge_prev.
  rewrite (rd_chunks _ _ _ _ Hrd), prev_mid, find_mid by done.
  destruct (last l1) as [p|] eqn:El; [|by exists s, l1, x; rewrite El].
  destruct (c_alloc p) eqn:Ep; [by exists s, l1, x; rewrite El|]. cbn [mbind option_bind].
  apply last_split in El as (l & ->). destruct Hrd as [A1 A2 A3 A4 A5 [A6 A7]]. rewrite <- !app_assoc in *. simpl in A2, A3, A5.
  apply quiet_mid in A6 as (Q1 & _ & Q2). destruct Q2 as [?|[Q2 _]]; [congruence|].
  destruct (tiles_fresh _ _ _ _ _ A3) as [G1 G2]. apply fresh_cons in G2 as [_ G2].
  destruct (class_remove_spec s l p l2 A5) as (bm & cl & E & Hix); [by apply fresh_app|done|].
  unfold class_of in E. rewrite E. cbn [mbind option_bind].
  destruct (mm_join_spec (with_classes s bm cl) l p x l2) as (J & J1 & J2); try done.
  eexists _, l, (join p x). split_and!; try done. by rewrite allocs_app, allocs_free, app_nil_r by done.
Qed.

Lemma merge_next_spec s l1 x l2 :
  ready s l1 x l2 -> c_alloc x = false ->
  exists s' l2' x', mm_merge_next s (c_addr x) = Some s' /\ c_addr x' = c_addr x /\ ready s' l1 x' l2' /\
    busy (head l2') /\ c_alloc x' = false /\ allocs l2' = allocs l2 /\
    heap_start s' = heap_start s /\ heap_current s' = heap_current s.
Proof.
  intros Hrd Ha. destruct (ready_facts _ _ _ _ Hrd) as (F1 & F2 & F3 & _). unfold mm_merge_next.
  rewrite (rd_chunks _ _ _ _ Hrd), next_mid, find_mid by done.
  destruct l2 as [|n l2]; [by exists s, [], x|]. simpl.
  destruct (c_alloc n) eqn:En; [by exists s, (n :: l2), x|]. cbn [mbind option_bind].
  destruct Hrd as [A1 A2 A3 A4 A5 [A6 A7]]. destruct A7 as [[?|Q2] Q3]; [congruence|].
  destruct (tiles_fresh (heap_start s) (l1 ++ [x]) n l2 (heap_current s)) as [G1 G2]; [by rewrite <- app_assoc|].
  apply fresh_app in G1 as [G1 _].
  destruct (class_remove_spec s l1 n l2 A5) as (bm & cl & E & Hix); [by apply fresh_app|done|].
  unfold class_of in E. rewrite E. cbn [mbind option_bind].
  destruct (mm_join_spec (with_classes s bm cl) l1 x n l2) as (J & J1 & J2); try done.
  eexists _, l2, (join x n). split_and!; try done. by rewrite allocs_free.
Qed.

Lemma free_spec s l1 x l2 :
  mm_inv s -> chunk_head s = l1 ++ x :: l2 -> c_alloc x = true -> c_addr x + HDR < heap_current s ->
  exists s', jlos_memory_manager_free s (c_addr x + HDR) = Some s' /\ mm_inv s' /\
    allocs (chunk_head s') = allocs l1 ++ allocs l2 /\
    heap_start s' = heap_start s /\ heap_current s' = heap_current s.
Proof.
  intros [A1 A2 A3 A4 A5] Hc Ha Hp. rewrite Hc in A2, A4, A5.
  destruct (tiles_fresh _ _ _ _ _ A2) as [F1 F2].
  destruct (tiles_range _ _ _ x A2) as (? & ? & ?); [apply elem_of_app; right; constructor|].
  unfold jlos_memory_manager_free. unfold HDR in *.
  destruct (Z.eqb_spec (c_addr x + 32) 0); [lia|]. destruct (Z.ltb_spec (c_addr x + 32) (heap_start s)); [lia|].
  destruct (Z.leb_spec (heap_current s) (c_addr x + 32)); [lia|]. cbn [orb]. cbv zeta. rewrite u32_small by lia.
  replace (c_addr x + 32 - 32) with (c_addr x) by lia. rewrite Hc, find_mid by done. cbn [mbind option_bind].
  rewrite upd_mid by done. apply quiet_mid in A5 as (Q1 & Q2 & _).
  set (s1 := with_chunks s _). set (x1 := set_alloc false x).
  assert (ready s1 l1 x1 l2) as R1.
  { split; simpl; try done.
    - apply tiles_mid. by apply tiles_mid in A2.
    - rewrite A3, Hc, !last_mid. by destruct (last l2).
    - apply (indexed_alloc _ _ _ _ x); [done|lia|done]. }
  destruct (merge_prev_spec s1 l1 x1 l2 R1 eq_refl) as (s2 & l1' & x2 & E2 & R2 & B2 & Al2 & Eq2 & S2 & C2).
  change (c_addr x1) with (c_addr x) in E2. rewrite E2. cbn [mbind option_bind].
  destruct (merge_next_spec s2 l1' x2 l2 R2 Al2) as (s3 & l2' & x3 & E3 & Ax & R3 & B3 & Al3 & Eq3 & S3 & C3).
  rewrite E3. cbn [mbind option_bind]. rewrite <- Ax.
  assert (find_chunk (chunk_head s3) (c_addr x3) = Some x3) as ->.
  { rewrite (rd_chunks _ _ _ _ R3). apply find_mid; [done|]. by apply (ready_facts _ _ _ _ R3). }
  cbn [mbind option_bind]. destruct (ready_index s3 l1' x3 l2' R3 Al3 B2 B3) as (bm & cl & E & HI).
  unfold class_of in E. rewrite E.
  eexists. split; [done|]. split; [done|]. simpl. rewrite (rd_chunks _ _ _ _ R3), allocs_app, allocs_free by done.
  split_and!; [congruence|by rewrite S3, S2|by rewrite C3, C2].
Qed.

(** ** The frames behind the heap *)

(** A consistent frame allocator whose frames have 32-bit addresses. *)
Definition frames_ok (p : pfa) : Prop :=
  pfa_inv p /\ 0 <= s_start_addr p /\ s_start_addr p + s_total_frames p * FRAME_SIZE < 2 ^ 32.

Lemma upd_occupied_inv s x g :
  pfa_inv s -> 0 <= x < s_total_frames s -> occupied (pgt s x) = true -> occupied (g (pgt s x)) = true ->
  exists s', upd_page s x g = Some s' /\ pfa_inv s' /\ same_lists s s' /\
    forall y, 0 <= y -> pgt s' y = if decide (y = x) then g (pgt s x) else pgt s y.
Proof.
  intros HI Hx Ho Hg. destruct (upd_page_spec s x g HI Hx) as (s' & -> & Hsl & Hp).
  exists s'. split_and!; [done| |done|done]. eapply inv_pages; [done|done|]. intros y Hy. rewrite Hp by lia.
  goal_decide; [subst y; right|by left]. destruct (occupied_detached s x HI Hx Ho) as [? ?]. by split_and!; [..|left].
Qed.

Lemma same_lists_frames s s' : frames_ok s -> same_lists s s' -> pfa_inv s' -> frames_ok s'.
Proof. intros (_ & H1 & H2) Hsl HI. split; [done|]. by rewrite (sl_start _ _ Hsl), (sl_total _ _ Hsl). Qed.

Lemma claim_one_spec p f owner :
  frames_ok p -> 0 <= f < s_total_frames p -> occupied (pgt p f) = true -> 0 < pg_refcount (pgt p f) < 255 ->
  exists p', (p1 ← jlos_page_frame_set_owner_type p (frame_addr p f) owner TYPE_KV_HEAP;
      jlos_page_frame_refcount_inc p1 (frame_addr p f)) = Some p' /\
    frames_ok p' /\ same_lists p p' /\ forall y, 0 <= y -> y <> f -> pgt p' y = pgt p y.
Proof.
  intros Hok Hf Ho Hr. pose proof Hok as (HI & Hst & Hm). unfold jlos_page_frame_set_owner_type.
  destruct (phys_to_frame_addr p f Hst Hf Hm) as (E1 & E2 & _). unfold FRAME_SIZE in *.
  destruct (Z.ltb_spec (frame_addr p f) (s_start_addr p)); [lia|]. cbv zeta. rewrite E1.
  destruct (Z.leb_spec (s_total_frames p) f); [lia|]. rewrite (geti_page p f HI Hf). cbn [mbind option_bind]. rewrite Ho.
  destruct (upd_occupied_inv p f (fun q => Page (pg_flags q) (u8 TYPE_KV_HEAP) (pg_order q) (pg_pt_present q) (pg_refcount q) owner)
    HI Hf Ho Ho) as (p1 & -> & HI1 & Hsl1 & Hp1). cbn [mbind option_bind].
  assert (pfa_phys_to_frame p1 (frame_addr p f) = f) as E1'
    by (unfold pfa_phys_to_frame in *; by rewrite (sl_start _ _ Hsl1)).
  unfold jlos_page_frame_refcount_inc. cbv zeta. rewrite E1', (sl_total _ _ Hsl1). destruct (Z.leb_spec (s_total_frames p) f); [lia|].
  rewrite geti_page by (done || by rewrite (sl_total _ _ Hsl1)). cbn [mbind option_bind].
  assert (pgt p1 f = Page (pg_flags (pgt p f)) (u8 TYPE_KV_HEAP) (pg_order (pgt p f)) (pg_pt_present (pgt p f)) (pg_refcount (pgt p f)) owner) as Ef
    by (by rewrite Hp1, decide_True by lia).
  rewrite Ef. cbn [pg_refcount]. destruct (Z.ltb_spec 0 (pg_refcount (pgt p f))); [|lia].
  destruct (Z.ltb_spec (pg_refcount (pgt p f)) 255); [|lia]. cbn [andb].
  destruct (set_refcount_inv p1 f (pg_refcount (pgt p f) + 1) HI1) as (p2 & -> & HI2 & Hsl2 & Hp2);
    [by rewrite (sl_total _ _ Hsl1)|by rewrite Ef|].
  exists p2. pose proof (same_lists_trans _ _ _ Hsl1 Hsl2) as Hsl. split; [done|].
  split; [by eapply same_lists_frames|]. split; [done|]. intros y Hy Hne. by rewrite Hp2, decide_False, Hp1, decide_False.
Qed.

Lemma claim_frames_spec owner n : forall p f,
  frames_ok p -> 0 <= f -> f + Z.of_nat n <= s_total_frames p ->
  (forall x, f <= x < f + Z.of_nat n -> occupied (pgt p x) = true /\ 0 < pg_refcount (pgt p x) < 255) ->
  exists p', claim_frames n p (frame_addr p f) owner = Some p' /\ frames_ok p' /\ same_lists p p'.
Proof.
  induction n as [|n IH]; intros p f Hok Hf Hb Hocc; [by exists p; split_and!; try apply same_lists_refl|].
  destruct (Hocc f ltac:(lia)) as [Ho Hr]. pose proof Hok as (HI & Hst & Hm).
  destruct (phys_to_frame_addr p f Hst ltac:(lia) Hm) as (_ & _ & E).
  destruct (claim_one_spec p f owner Hok ltac:(lia) Ho Hr) as (p1 & E1 & Hok1 & Hsl1 & Hp1).
  cbn [claim_frames]. destruct (jlos_page_frame_set_owner_type _ _ _ _) as [q|]; cbn [mbind option_bind] in *; [|done].
  rewrite E1. cbn [mbind option_bind]. rewrite E.
  replace (frame_addr p (f + 1)) with (frame_addr p1 (f + 1)) by (unfold frame_addr; by rewrite (sl_start _ _ Hsl1)).
  destruct (IH p1 (f + 1)) as (p2 & E2 & Hok2 & Hsl2); [done|lia|rewrite (sl_total _ _ Hsl1); lia| |].
  - intros x Hx. rewrite Hp1 by lia. apply Hocc. lia.
  - exists p2. split_and!; [done|done|by eapply same_lists_trans].
Qed.

(** No run of [n] frames is free, or the pages could not be mapped. *)
Definition no_pages (map : Z -> Z -> Z -> bool) (p : pfa) (va n : Z) : Prop :=
  (exists p', jlos_page_frame_alloc_n p n = Some (p', None)) \/
  exists p' phys, jlos_page_frame_alloc_n p n = Some (p', Some phys) /\ map va phys (u32 (n * FRAME_SIZE)) = false.
Lemma heap_pages_spec map p owner va n :
  frames_ok p -> 0 <= n < 2 ^ 32 ->
  exists p' b, heap_pages map p owner va n = Some (p', b) /\ frames_ok p' /\
    s_start_addr p' = s_start_addr p /\ s_total_frames p' = s_total_frames p /\ (b = false -> no_pages map p va n).
Proof.
  intros Hok Hn. pose proof Hok as (HI & Hst & Hm). unfold heap_pages, no_pages.
  destruct (alloc_n_spec p n HI Hn) as (p1 & r & En & HI1 & Hr). rewrite En. cbn [mbind option_bind].
  destruct r as [a|]; [|destruct Hr as [-> _]; exists p, false; split_and!; try done; intros _; left; by exists p].
  destruct Hr as (f & -> & Hal & _). pose proof (al_range _ _ _ _ Hal). pose proof (al_head _ _ _ _ Hal).
  destruct (al_static _ _ _ _ Hal) as (Et & Es & _).
  assert (frames_ok p1) as Hok1 by (split; [done|]; by rewrite Et, Es).
  replace (frame_addr p f) with (frame_addr p1 f) by (unfold frame_addr; by rewrite Es).
  destruct (map va _ _) eqn:Emap.
  - destruct (claim_frames_spec owner (Z.to_nat n) p1 f Hok1) as (p2 & -> & Hok2 & Hsl); [lia|lia| |].
    + intros x Hx. destruct (al_taken _ _ _ _ Hal x) as [-> ->]; [lia|]. split; [done|lia].
    + cbn [mbind option_bind]. exists p2, true. split_and!; [done..| | |done]; [by rewrite (sl_start _ _ Hsl)|by rewrite (sl_total _ _ Hsl)].
  - destruct (free_n_spec p1 f n HI1) as (p2 & -> & HI2 & _ & _ & _ & _ & Et2 & Es2);
      [by rewrite Es|by rewrite Es, Et|lia|lia|lia| |right; lia|].
    + intros x Hx. destruct (al_taken _ _ _ _ Hal x Hx) as [-> ->]. split; [done|lia].
    + cbn [mbind option_bind]. exists p2, false. unfold frames_ok. rewrite Et2, Es2, Et, Es. split_and!; try done. intros _. right. by exists p1, (frame_addr p1 f).
Qed.

(** ** Allocation *)

Lemma pages_needed_spec size : 16 <= size -> size + 4096 < 2 ^ 32 ->
  let n := u32 (pages_needed size * FRAME_SIZE) in
  0 <= pages_needed size < 2 ^ 32 /\ size <= n < size + 4096 /\ 4096 <= n.
Proof.
  intros H1 H2. unfold pages_needed, FRAME_SIZE. rewrite (u32_small (size + 4096)), (u32_small (size + 4096 - 1)) by lia.
  pose proof (Z.div_mod (size + 4096 - 1) 4096 ltac:(lia)). pose proof (Z.mod_pos_bound (size + 4096 - 1) 4096 ltac:(lia)).
  set (q := (size + 4096 - 1) / 4096) in *. cbv zeta. rewrite u32_small by lia. lia.
Qed.

(** The tail chunk found by [mm_append]. *)
Lemma tail_chunk_spec s :
  mm_inv s ->
  (t ← tail s; c ← find_chunk (chunk_head s) t; if c_alloc c then None else Some c) =
  c ← last (chunk_head s); if c_alloc c then None else Some c.
Proof.
  intros HI. rewrite (mi_tail _ HI). destruct (last (chunk_head s)) as [c|] eqn:E; [|done]. simpl.
  apply last_split in E as (l & E). pose proof (mi_tiles _ HI) as Ht. rewrite E in *.
  destruct (tiles_fresh _ _ _ _ _ Ht) as [F1 F2]. by rewrite find_mid.
Qed.

Lemma tiles_snoc a cs e n : tiles a cs e -> 0 <= n -> tiles a (cs ++ [Chunk e n false]) (e + HDR + n).
Proof. intros Ht Hn. apply tiles_app. exists e. by split; [|simpl]. Qed.

Lemma append_spec s n :
  mm_inv s -> 4096 <= n -> heap_current s + n < 2 ^ 32 ->
  exists s' l x, mm_append s n = Some (s', c_addr x, c_size x) /\ heap_current s' = heap_current s /\
    heap_start s' = heap_start s /\ max_class s' = max_class s /\
    ready (with_current s' (heap_current s + n)) l x [] /\ c_alloc x = false /\ busy (last l) /\
    allocs l = allocs (chunk_head s) /\ n - HDR <= c_size x.
Proof.
  intros HI Hn Hc. pose proof HI as [A1 A2 A3 A4 A5]. unfold mm_append. rewrite tail_chunk_spec by done.
  pose proof (tiles_le _ _ _ A2). rewrite (u32_small (n - HDR)) by (unfold HDR; lia).
  assert (Hnew : forall l, l = chunk_head s -> busy (last l) -> exists s' l x,
    Some (with_tail (with_chunks s (chunk_head s ++ [Chunk (heap_current s) (n - HDR) false])) (Some (heap_current s)),
          heap_current s, n - HDR) = Some (s', c_addr x, c_size x) /\ heap_current s' = heap_current s /\
    heap_start s' = heap_start s /\ max_class s' = max_class s /\
    ready (with_current s' (heap_current s + n)) l x [] /\ c_alloc x = false /\ busy (last l) /\
    allocs l = allocs (chunk_head s) /\ n - HDR <= c_size x).
  { intros l -> Hb. eexists _, _, (Chunk (heap_current s) (n - HDR) false). split_and!; try done. split; simpl; try done.
    - lia.
    - replace (heap_current s + n) with (heap_current s + HDR + (n - HDR)) by lia. apply tiles_snoc; [done|unfold HDR; lia].
    - by rewrite last_snoc.
    - by rewrite app_nil_r. }
  destruct (last (chunk_head s)) as [c|] eqn:El; cbn [mbind option_bind]; [|apply (Hnew _ eq_refl); by rewrite El].
  destruct (c_alloc c) eqn:Ea; [apply (Hnew _ eq_refl); by rewrite El|]. clear Hnew.
  apply last_split in El as (l & El). rewrite El in *. destruct (tiles_fresh _ _ _ _ _ A2) as [F1 F2].
  destruct (class_remove_spec s l c [] A4) as (bm & cl & E & Hix); [by rewrite app_nil_r|done|].
  unfold class_of in E. rewrite E. cbn [mbind option_bind].
  destruct (tiles_range _ _ _ c A2) as (? & ? & ?); [apply elem_of_app; right; constructor|]. unfold HDR in *.
  rewrite u32_small by lia. simpl. rewrite El, upd_mid by done.
  apply quiet_mid in A5 as (Q1 & _ & [?|[Q2 _]]); [congruence|].
  eexists _, l, (set_size (c_size c + (n - 32 + 32)) c). split_and!; try done.
  - split; simpl; try done.
    + lia.
    + apply tiles_mid in A2 as (T1 & T2 & T3). simpl in T3. apply tiles_mid. simpl. unfold HDR in *. split_and!; [done|lia|lia].
    + by rewrite A3, !last_snoc.
  - by rewrite allocs_app, allocs_free, app_nil_r.
  - simpl. lia.
Qed.

(** What [mm_pick] leaves: a free chunk [x], out of the index, and the allocated
    blocks unchanged. *)
Record picked (s s' : mm) (a : Z) (l1 : list chunk) (x : chunk) (l2 : list chunk) : Prop := {
  pk_addr : c_addr x = a;
  pk_ready : ready s' l1 x l2;
  pk_free : c_alloc x = false;
  pk_busy : busy (last l1) /\ busy (head l2);
  pk_allocs : allocs l1 ++ allocs l2 = allocs (chunk_head s);
  pk_heap : heap_start s' = heap_start s /\ heap_current s <= heap_current s'
}.

(** A chunk shorter than the request comes from the request's own class, or is
    new and lacks at most its header. *)
Definition big_enough (mx size n : Z) : Prop :=
  size <= n \/ mm_size_to_class n mx = mm_size_to_class size mx \/ size <= n + HDR.

(** The heap cannot be extended for a request: there is no paging context, or there are
    no pages. *)
Definition cannot_grow (ctx : bool) (map : Z -> Z -> Z -> bool) (s : mm) (p : pfa) (size : Z) : Prop :=
  ctx = false \/ no_pages map p (heap_current s) (pages_needed size).

Lemma expand_spec ctx map owner s p size :
  mm_inv s -> frames_ok p -> 16 <= size -> heap_current s + size + 4096 < 2 ^ 32 ->
  exists s' p' r, jlos_memory_manager_expand_heap ctx map owner s p size = Some (s', p', r) /\ frames_ok p' /\
    match r with
    | None => s' = s /\ cannot_grow ctx map s p size
    | Some a => exists l x, size <= c_size x + HDR /\
        exists bm cl, mm_claim s' a = Some (with_classes s' bm cl) /\
          picked s (with_classes s' bm cl) a l x []
    end.
Proof.
  intros HI Hok Hs Hc. pose proof (tiles_le _ _ _ (mi_tiles _ HI)). pose proof (mi_range _ HI).
  destruct (pages_needed_spec size ltac:(lia) ltac:(lia)) as (Hn & Hn1 & Hn2).
  unfold jlos_memory_manager_expand_heap. destruct ctx; cbn [negb]; [|exists s, p, None; split_and!; try done; by left].
  destruct (heap_pages_spec map p owner (heap_current s) (pages_needed size) Hok Hn) as (p' & b & -> & Hok' & _ & _ & Hno).
  cbn [mbind option_bind]. destruct b; cbn [negb]; [|exists s, p', None; split_and!; try done; right; by apply Hno]. unfold mm_grow.
  set (n := u32 (pages_needed size * FRAME_SIZE)) in *.
  destruct (append_spec s n HI Hn2 ltac:(lia)) as (s1 & l & x & -> & E1 & E2 & E3 & R & Ax & B & Al & Sz).
  cbn [mbind option_bind]. destruct (ready_facts _ _ _ _ R) as (F1 & _ & F2 & ? & ? & Hx). simpl in Hx.
  destruct (class_add_spec s1 l x []) as (bm & cl & E & Hix); [apply R|done|done|unfold HDR in *; lia|].
  unfold class_of in E. rewrite E. cbn [mbind option_bind]. simpl. rewrite E1, u32_small by lia.
  eexists _, p', _. split; [done|]. split; [done|]. exists l, x. simpl. pose proof (rd_chunks _ _ _ _ R) as Ech. simpl in Ech.
  split; [lia|]. unfold mm_claim. cbn [chunk_head with_current with_classes]. rewrite Ech, (find_mid x (c_addr x) l [] eq_refl F1). cbn [mbind option_bind].
  destruct (class_remove_spec (with_current (with_classes s1 bm cl) (heap_current s + n)) l x []) as (bm' & cl' & E' & Hix');
    [done|done|done|]. exists bm', cl'. split; [exact E'|].
  destruct R as [R1 R2 R3 R4 R5 R6]. split; try done; [by rewrite app_nil_r|simpl; rewrite E2; lia].
Qed.

Lemma found_spec s size j :
  mm_inv s -> 16 <= size < 2 ^ 32 -> mm_bitmap_find s (mm_size_to_class size (max_class s)) = Some j ->
  exists s' a l1 x l2, mm_class_remove_head s j = Some (s', Some a) /\ picked s s' a l1 x l2 /\
    big_enough (max_class s) size (c_size x).
Proof.
  intros HI Hs Ej. pose proof (mi_index _ HI) as Hix. pose proof Hix as [H1 H2 H3 H4 H5 _ _].
  pose proof (size_class_range size _ H2 ltac:(lia)) as Hk.
  pose proof (bitmap_find_spec s (chunk_head s) (mm_size_to_class size (max_class s)) Hix ltac:(lia)) as Hf.
  rewrite Ej in Hf. destruct Hf as [Hj Hne]. unfold mm_class_remove_head. rewrite class_list by (done || lia).
  cbn [mbind option_bind]. destruct (class_head s !!! Z.to_nat j) as [|a l] eqn:El; [done|].
  assert (entry (max_class s) (chunk_head s) a j) as (x & Hx & Ea & Hfr & Hcl) by (apply H5; [lia|]; rewrite El; constructor).
  pose proof (H3 x Hx) as Hsx. apply list_elem_of_split in Hx as (l1 & l2 & Ech).
  pose proof HI as [A1 A2 A3 A4 A5]. rewrite Ech in A2, A4, A5.
  destruct (tiles_fresh _ _ _ _ _ A2) as [F1 F2].
  destruct (class_remove_spec s l1 x l2 A4) as (bm & cl & E & Hix'); [by apply fresh_app|done|].
  rewrite Hcl, Ea in E. rewrite E. cbn [mbind option_bind]. apply quiet_mid in A5 as (Q1 & Q2 & [?|Q3]); [congruence|].
  eexists _, a, l1, x, l2. split; [done|]. split.
  - split; try done. by rewrite Ech, allocs_app, allocs_free.
  - unfold big_enough. destruct (Z.lt_ge_cases (mm_size_to_class size (max_class s)) j) as [Hlt|Hge].
    + left. eapply size_class_mono; [exact H2|lia|done|]. unfold class_of in Hcl. lia.
    + right. left. unfold class_of in Hcl. lia.
Qed.

(** The blocks of a sequence lie in order between [lo] and [hi], a header apart. *)
Fixpoint separated (lo : Z) (bs : list (Z * Z)) (hi : Z) : Prop :=
  match bs with
  | [] => lo <= hi
  | (a, n) :: bs => lo + HDR <= a /\ 0 <= n /\ separated (a + n) bs hi
  end.

Lemma separated_weaken lo lo' bs hi : separated lo bs hi -> lo' <= lo -> separated lo' bs hi.
Proof. destruct bs as [|[a n] bs]; simpl; [lia|]. intros (? & ? & ?) ?. split_and!; try done. lia. Qed.
Lemma tiles_separated a cs e : tiles a cs e -> separated a (allocs cs) e.
Proof.
  revert a. induction cs as [|c cs IH]; intros a; [simpl; lia|]. intros (Ha & Hs & Ht).
  destruct (c_alloc c) eqn:E.
  - rewrite allocs_busy by done. simpl. split_and!; [lia|done|]. rewrite Ha. by apply IH.
  - rewrite allocs_free by done. eapply separated_weaken; [by apply IH|unfold HDR; lia].
Qed.

Lemma allocs_split cs B1 q n B2 :
  allocs cs = B1 ++ (q, n) :: B2 ->
  exists l1 x l2, cs = l1 ++ x :: l2 /\ c_alloc x = true /\ q = c_addr x + HDR /\ n = c_size x /\
    allocs l1 = B1 /\ allocs l2 = B2.
Proof.
  revert B1. induction cs as [|c cs IH]; intros B1 E; [by destruct B1|].
  destruct (c_alloc c) eqn:Ec.
  - rewrite allocs_busy in E by done. destruct B1 as [|b B1].
    + injection E as E1 E2 E3. exists [], c, cs. by split_and!.
    + injection E as <- E. destruct (IH B1 E) as (l1 & x & l2 & -> & ? & ? & ? & H1 & ?).
      exists (c :: l1), x, l2. split_and!; try done. rewrite allocs_busy by done. by f_equal.
  - rewrite allocs_free in E by done. destruct (IH B1 E) as (l1 & x & l2 & -> & ? & ? & ? & H1 & ?).
    exists (c :: l1), x, l2. split_and!; try done. by rewrite allocs_free.
Qed.

Lemma take_none s size : mm_inv s -> 16 <= size < 2 ^ 32 -> mm_bitmap_find s (mm_size_to_class size (max_class s)) = None ->
  forall c, c ∈ chunk_head s -> c_alloc c = false -> class_of (max_class s) c < mm_size_to_class size (max_class s).
Proof.
  intros HI Hs Ej c Hc Hfr. pose proof (mi_index _ HI) as Hix. pose proof (ix_max _ _ _ _ Hix) as H2. pose proof (size_class_range size _ H2 ltac:(lia)) as Hk.
  pose proof (bitmap_find_spec s (chunk_head s) (mm_size_to_class size (max_class s)) Hix ltac:(lia)) as Hf. rewrite Ej in Hf.
  pose proof (size_class_range (c_size c) _ H2 (ix_size _ _ _ _ Hix c Hc)) as Hcr.
  destruct (Z.lt_ge_cases (class_of (max_class s) c) (mm_size_to_class size (max_class s))) as [|Hge]; [done|].
  exfalso. apply (Hf (class_of (max_class s) c) (c_addr c)); [unfold class_of in *; lia|]. by exists c.
Qed.
(** Splitting a chunk that was picked and handing it out. *)
Lemma hand_out s s1 a l1 x l2 n : mm_inv s -> picked s s1 a l1 x l2 -> big_enough (max_class s) n (c_size x) -> 16 <= n < 2 ^ 32 - 4096 ->
  exists s2, mm_split s1 a n = Some s2 /\ mm_inv s2 /\ heap_start s2 = heap_start s /\ heap_current s <= heap_current s2 /\
    exists B1 m B2, allocs (chunk_head s) = B1 ++ B2 /\ allocs (chunk_head s2) = B1 ++ (u32 (a + HDR), m) :: B2 /\ big_enough (max_class s) n m.
Proof.
  intros HI [<- R Hfr [B1 B2] Hal [Hst Hcu]] Hbig Hn. destruct (mm_split_spec s1 l1 x l2 n R Hfr B1 B2 ltac:(lia)) as (s2 & E & HI2 & Hst2 & Hcu2 & Hal2).
  destruct (ready_facts _ _ _ _ R) as (_ & _ & _ & ? & ? & ?). rewrite u32_small by (unfold HDR in *; lia).
  exists s2. split_and!; try done; [congruence|lia|]. exists (allocs l1), (if n + 48 <=? c_size x then n else c_size x), (allocs l2). split_and!; [done|done|].
  destruct (Z.leb_spec (n + 48) (c_size x)); [left; lia|done].
Qed.


(** C25. [jlos_memory_manager_free] takes exactly the given block out of the
    blocks handed out, keeps the others as they were, merges the chunk with its
    free neighbours (no two neighbouring chunks are free) and keeps the heap
    consistent; a null pointer and a pointer outside the heap change nothing. *)
Theorem heap_free_correct s ptr :
  mm_inv s ->
  (forall B1 n B2, allocs (chunk_head s) = B1 ++ (ptr, n) :: B2 -> ptr < heap_current s ->
     exists s', jlos_memory_manager_free s ptr = Some s' /\ mm_inv s' /\ allocs (chunk_head s') = B1 ++ B2 /\
       heap_start s' = heap_start s /\ heap_current s' = heap_current s) /\
  (ptr = 0 \/ ptr < heap_start s \/ heap_current s <= ptr -> jlos_memory_manager_free s ptr = Some s).
Proof.
  intros HI. split.
  - intros B1 n B2 E Hp. destruct (allocs_split _ _ _ _ _ E) as (l1 & x & l2 & Ec & Ha & -> & -> & <- & <-).
    by apply free_spec.
  - intros Hp. unfold jlos_memory_manager_free. destruct (Z.eqb_spec ptr 0); [done|].
    destruct (Z.ltb_spec ptr (heap_start s)); [done|]. destruct (Z.leb_spec (heap_current s) ptr); [done|lia].
Qed.

(** ** Initialisation *)

Lemma max_class_loop_range n : forall s m cls, 0 <= cls <= 31 -> 0 <= max_class_loop n s m cls <= 31.
Proof.
  induction n as [|n IH]; intros s m cls Hc; simpl; [done|]. unfold JLOS_MM_CLASS_COUNT.
  destruct (s <? m); simpl; [|done]. destruct (Z.ltb_spec cls (32 - 1)); [apply IH; lia|done].
Qed.

Lemma mm_init_inv start size :
  0 <= start -> HDR <= size -> start + size < 2 ^ 32 ->
  exists s, mm_init start size = Some s /\ mm_inv s /\ chunk_head s = [Chunk start (size - HDR) false] /\
    heap_start s = start /\ heap_current s = start + size.
Proof.
  intros H1 H2 H3. unfold mm_init, HDR in *. rewrite !u32_small by lia. destruct (Z.leb_spec 32 size); [|lia].
  cbv zeta. pose proof (max_class_loop_range 32 JLOS_MM_MIN_ALLOC (size - 32) 0 ltac:(lia)) as Hm.
  set (mx := max_class_loop 32 _ _ _) in *. clearbody mx. unfold with_chunks, with_tail. cbn [heap_start heap_end
    heap_current size_bitmap max_class class_head chunk_head tail].
  set (s0 := MM _ _ _ _ _ _ _ _). set (x := Chunk start (size - 32) false).
  destruct (ready_index s0 [] x []) as (bm & cl & E & HI); [|done..|by exists (with_classes s0 bm cl)].
  split; cbn [s0 heap_start heap_current chunk_head tail app]; [lia|done| |done| |done].
  - cbn [tiles x c_addr c_size]. unfold HDR. lia.
  - split; cbn [s0 size_bitmap max_class class_head]; [done|done|intros c []%elem_of_nil| | | |lia].
    + intros k Hk. rewrite lookup_total_replicate_2 by lia. constructor.
    + intros k a Hk. rewrite lookup_total_replicate_2 by lia. split; [intros []%elem_of_nil|].
      intros (c & []%elem_of_nil & _).
    + intros k Hk. rewrite Z.bits_0, lookup_total_replicate_2 by lia. done.
Qed.

(** ** Instances *)

Lemma frames_ok_one_block : frames_ok one_block.
Proof. split; [exact one_block_inv|]. simpl. unfold FRAME_SIZE. lia. Qed.


(** A heap of one chunk, allocated. *)
Definition full_heap : mm :=
  MM [Chunk 65536 8160 true] (Some 65536) 65536 73728 73728 0 9 (replicate 32 []).

Lemma full_heap_inv : mm_inv full_heap.
Proof.
  split; [simpl; lia|simpl; unfold HDR; lia|done| |by split; [left|]].
  apply (indexed_alloc _ _ _ [] (Chunk 65536 8160 true) []); [done|simpl; lia|].
  split; cbn [full_heap max_class size_bitmap class_head app]; [done|lia| | | | |lia].
  - intros c []%elem_of_nil.
  - intros k Hk. rewrite (lookup_total_replicate_2 32) by lia. constructor.
  - intros k a Hk. rewrite (lookup_total_replicate_2 32) by lia. split; [intros []%elem_of_nil|].
    intros (c & []%elem_of_nil & _).
  - intros k Hk. rewrite Z.bits_0, (lookup_total_replicate_2 32) by lia. done.
Qed.

Lemma heap_free_correct_witness :
  exists s', jlos_memory_manager_free full_heap 65568 = Some s' /\ mm_inv s' /\ allocs (chunk_head s') = [].
Proof.
  destruct (proj1 (heap_free_correct full_heap 65568 full_heap_inv) [] 8160 []) as (s' & H1 & H2 & H3 & _);
    [reflexivity|simpl; lia|].
  exists s'. split; [exact H1|]. split; [exact H2|exact H3].
Defined.

(** ** Blocks shorter than the request *)

(** The result of a sequence of requests on a heap without extension, with the
    blocks then handed out. *)
Fixpoint requests (ctx : bool) (s : mm) (p : pfa) (sizes : list Z) (r : list (option Z)) : option (list (option Z) * mm * pfa) :=
  match sizes with
  | [] => Some (r, s, p)
  | n :: sizes =>
      '(s, p, q) ← jlos_memory_manager_malloc ctx (fun _ _ _ => true) 0 s p n; requests ctx s p sizes (r ++ [q])
  end.

(** The largest class has no upper bound: a request of 1 MiB is served from a
    64 KiB heap. *)
Theorem heap_oversize :
  (s ← mm_init 65536 65536; '(r, s, _) ← requests false s one_block [1048576] []; Some (r, allocs (chunk_head s))) =
  Some ([Some 65568], [(65568, 65504)]).
Proof. vm_compute. reflexivity. Qed.

(** A class holds a range of sizes and its first chunk is taken unseen: after
    freeing a block of 40 bytes, a request of 64 gets those 40 bytes. *)
Theorem heap_short_class :
  (s ← mm_init 65536 8192;
   '(r, s, p) ← requests false s one_block [40; 40] [];
   s ← jlos_memory_manager_free s 65568;
   '(r, s, _) ← requests false s p [64] [];
   Some (r, allocs (chunk_head s))) = Some ([Some 65568], [(65568, 40); (65640, 40)]).
Proof. vm_compute. reflexivity. Qed.

(** The pages of an extension are counted without the chunk header: a request of
    4080 bytes is given 4064. *)
Theorem heap_short_extension :
  (s ← mm_init 65536 48; '(r, s, _) ← requests true s one_block [16; 4080] []; Some (r, allocs (chunk_head s))) =
  Some ([Some 65568; Some 65616], [(65568, 16); (65616, 4064)]).
Proof. vm_compute. reflexivity. Qed.

(** ** Two processors *)

(** After an expansion the new chunk is in the index while the lock is free.  One
    processor finds no chunk and extends the heap; before it takes the lock again a
    second processor allocates, and gets the new chunk; the first then goes on with the
    same chunk.  Both hand out the same block. *)
Theorem heap_race :
  (let ctx := true in let map := fun _ _ _ => true in
   '(s, r) ← mm_take full_heap 64;
   '(s, p, q) ← jlos_memory_manager_expand_heap ctx map 0 s one_block 64;
   a ← q;
   '(s, p, other) ← jlos_memory_manager_malloc ctx map 0 s p 4000;
   s ← mm_claim s a;
   s ← mm_split s a 64;
   Some (r, other, u32 (a + HDR))) = Some (None, Some 73760, 73760).
Proof. vm_compute. reflexivity. Qed.
