(* ===== verification/PageSource.v ===== *)
(** * Single pages as a client sees them

    [PageSource] is the contract of [jlos_page_frame_malloc], [jlos_page_frame_free]
    and the owner tags of [kernel/page_frame_allocator.c] towards the components
    that hold whole pages: a page handed out was not held before, and a page held
    can be given back.  The page frame allocator of [Pfa] is an instance; its
    clients (the slab caches) are proved against the contract alone.

    Pages are named by their address in the direct map of the 32-bit
    configuration ([hal/paging.h]). *)
From S2P Require Import Prelude Pfa PfaInv PfaCpu.

Class PageSource (P : Type) := {
  page_malloc : P -> Z -> option (P * option Z);
  page_free : P -> Z -> Z -> option P;
  page_set_owner : P -> Z -> Z -> Z -> option P;
  source_ok : P -> Prop;
  on_cpu : P -> Z -> Prop;
  held : P -> Z -> Prop
}.

Class PageSourceLaws (P : Type) `{PageSource P} := {
  page_malloc_law p cpu : source_ok p -> on_cpu p cpu ->
    exists p' r, page_malloc p cpu = Some (p', r) /\ source_ok p' /\ (forall c, on_cpu p' c <-> on_cpu p c) /\
      match r with
      | None => forall a, held p' a <-> held p a
      | Some a => ~ held p a /\ forall b, held p' b <-> held p b \/ b = a
      end;
  page_free_law p cpu a : source_ok p -> on_cpu p cpu -> held p a ->
    exists p', page_free p cpu a = Some p' /\ source_ok p' /\ (forall c, on_cpu p' c <-> on_cpu p c) /\
      forall b, held p' b <-> held p b /\ b <> a;
  page_set_owner_law p a owner type : source_ok p -> held p a ->
    exists p', page_set_owner p a owner type = Some p' /\ source_ok p' /\ (forall c, on_cpu p' c <-> on_cpu p c) /\
      forall b, held p' b <-> held p b;
  held_page p a : source_ok p -> held p a -> 0 < a /\ a mod 4096 = 0 /\ a + 8192 <= 2 ^ 32
}.

(** ** The page frame allocator *)

Definition KERNEL_VIRTUAL_BASE : Z := 0xC0000000.
Definition phys_to_virt (a : Z) : Z := u32 (a + KERNEL_VIRTUAL_BASE).
Definition virt_to_phys (a : Z) : Z := u32 (a - KERNEL_VIRTUAL_BASE).

(** All frames lie in the direct map and start on a page boundary. *)
Definition direct_mapped (s : pfa) : Prop :=
  pfa_inv s /\ 0 <= s_start_addr s /\ s_start_addr s mod 4096 = 0 /\
  s_start_addr s + s_total_frames s * FRAME_SIZE <= 0x38000000.

(** A page in the hands of one client. *)
Definition held_frame (s : pfa) (f : Z) : Prop :=
  0 <= f < s_total_frames s /\ occupied (pgt s f) = true /\ pg_refcount (pgt s f) = 1.
Definition page_of (s : pfa) (f : Z) : Z := s_start_addr s + f * FRAME_SIZE + KERNEL_VIRTUAL_BASE.

Definition pfa_page_malloc (s : pfa) (cpu : Z) : option (pfa * option Z) :=
  '(s, r) ← jlos_page_frame_malloc s cpu; Some (s, option_map phys_to_virt r).

#[export] Instance pfa_source : PageSource pfa := {
  page_malloc := pfa_page_malloc;
  page_free s cpu a := jlos_page_frame_free s cpu (virt_to_phys a);
  page_set_owner s a owner type := jlos_page_frame_set_owner_type s (virt_to_phys a) owner type;
  source_ok := direct_mapped;
  on_cpu s cpu := 0 <= cpu < zlen (s_percpu s);
  held s a := exists f, held_frame s f /\ a = page_of s f
}.

Lemma page_of_virt s f : direct_mapped s -> 0 <= f < s_total_frames s ->
  phys_to_virt (frame_addr s f) = page_of s f /\ virt_to_phys (page_of s f) = frame_addr s f /\
  pfa_phys_to_frame s (frame_addr s f) = f /\ s_start_addr s <= frame_addr s f.
Proof.
  intros (HI & Hst & _ & Hm) Hf. unfold FRAME_SIZE in Hm.
  destruct (phys_to_frame_addr s f Hst Hf) as (E1 & E2 & _); [unfold FRAME_SIZE; lia|].
  unfold phys_to_virt, virt_to_phys, page_of, KERNEL_VIRTUAL_BASE, FRAME_SIZE in *. rewrite E1, E2, !u32_small by lia.
  split_and!; lia.
Qed.

Lemma page_of_inj s f g : page_of s f = page_of s g -> f = g.
Proof. unfold page_of, FRAME_SIZE. lia. Qed.

Lemma shape_page s s' f : same_shape s s' -> page_of s' f = page_of s f.
Proof. intros (_ & E & _). unfold page_of. by rewrite E. Qed.
Lemma shape_mapped s s' : same_shape s s' -> direct_mapped s -> pfa_inv s' -> direct_mapped s'.
Proof. intros (E1 & E2 & _) (_ & H1 & H2 & H3) HI. unfold direct_mapped. by rewrite E1, E2. Qed.

Lemma on_cpu_lookup s cpu : 0 <= cpu < zlen (s_percpu s) ->
  exists i l c, cpu = Z.of_nat i /\ s_percpu s !! i = Some (l, c).
Proof.
  intros Hc. destruct (lookup_lt_is_Some_2 (s_percpu s) (Z.to_nat cpu)) as [[l c] E]; [lia|].
  exists (Z.to_nat cpu), l, c. split; [lia|done].
Qed.

Lemma same_page_refs p q : same_page p q -> pg_refcount p = pg_refcount q.
Proof. by intros (_ & _ & _ & ? & _). Qed.

Lemma pfa_malloc_law s cpu : direct_mapped s -> 0 <= cpu < zlen (s_percpu s) ->
  exists s' r, page_malloc s cpu = Some (s', r) /\ direct_mapped s' /\ (forall c, on_cpu s' c <-> on_cpu s c) /\
    match r with
    | None => forall a, held s' a <-> held s a
    | Some a => ~ held s a /\ forall b, held s' b <-> held s b \/ b = a
    end.
Proof.
  intros Hok Hc. pose proof Hok as (HI & _). destruct (on_cpu_lookup s cpu Hc) as (i & l & c & -> & Hi).
  cbn [page_malloc pfa_source]. unfold pfa_page_malloc. destruct (malloc_spec s i l c HI Hi) as (s' & r & -> & HI' & Hsh & Hr). cbn [mbind option_bind].
  pose proof Hsh as (Et & Es & Ep). exists s', (option_map phys_to_virt r). split; [done|].
  split; [by eapply shape_mapped|]. split; [intros ?; simpl; by rewrite Ep|].
  destruct r as [a|]; simpl; [|by destruct Hr as [-> _]].
  destruct Hr as (f & -> & Hpf & Ho & Hrc & Hpool & Hoo & Hsp). pose proof (fun y H1 H2 => same_page_refs _ _ (Hsp y H1 H2)) as Hrr. destruct (in_pool s f HI Hpf) as [Hf Hno].
  destruct (page_of_virt s f Hok Hf) as (-> & _). split.
  - intros (g & (_ & Hg & _) & <-%page_of_inj). congruence.
  - intros b. split.
    + intros (g & (Hg & Hgo & Hgr) & ->). rewrite (shape_page s s' g Hsh). destruct (decide (g = f)) as [->|Hne]; [by right|]. left.
      exists g. split; [|done]. rewrite Hoo in Hgo by lia. rewrite Hrr in Hgr by (done || lia). split; [lia|done].
    + intros [(g & (Hg & Hgo & Hgr) & ->)| ->].
      * exists g. rewrite (shape_page s s' g Hsh). split; [|done]. split; [lia|]. rewrite Hrr, Hoo by (done || lia || congruence). done.
      * exists f. rewrite (shape_page s s' f Hsh). split; [|done]. split; [lia|done].
Qed.

Lemma pfa_free_law s cpu a : direct_mapped s -> 0 <= cpu < zlen (s_percpu s) -> held s a ->
  exists s', page_free s cpu a = Some s' /\ direct_mapped s' /\ (forall c, on_cpu s' c <-> on_cpu s c) /\
    forall b, held s' b <-> held s b /\ b <> a.
Proof.
  intros Hok Hc (f & (Hf & Ho & Hr) & ->). pose proof Hok as (HI & _).
  destruct (on_cpu_lookup s cpu Hc) as (i & l & c & -> & Hi). destruct (page_of_virt s f Hok Hf) as (_ & E2 & E3 & _).
  cbn [page_free pfa_source]. rewrite E2. unfold jlos_page_frame_free, jlos_page_frame_refcount_dec. cbv zeta. rewrite E3.
  destruct (Z.leb_spec (s_total_frames s) f); [lia|]. rewrite (geti_page s f HI Hf). cbn [mbind option_bind]. rewrite Hr.
  change (0 <? 1) with true. change (1 =? 1) with true. cbv iota.
  destruct (release_spec s i f l c HI Hi Hf Ho) as (s' & E & HI' & Hsh & _ & Hno & Hoo & Hsp & _).
  pose proof (fun y H1 H2 H3 => same_page_refs _ _ (Hsp y H1 H2 H3)) as Hrr.
  rewrite Hr in E. exists s'. split; [exact E|]. pose proof Hsh as (Et & Es & Ep).
  split; [by eapply shape_mapped|]. split; [intros ?; simpl; by rewrite Ep|]. intros b. split.
  - intros (g & (Hg & Hgo & Hgr) & ->). rewrite (shape_page s s' g Hsh). assert (g <> f) as Hne by congruence.
    rewrite Hoo in Hgo by lia. rewrite Hrr in Hgr by (done || lia).
    split; [exists g; by split; [split; [lia|]|]|]. by intros ->%page_of_inj.
  - intros [(g & (Hg & Hgo & Hgr) & ->) Hne]. assert (g <> f) by (by intros ->).
    exists g. rewrite (shape_page s s' g Hsh). split; [|done]. split; [lia|]. by rewrite Hrr, Hoo by (done || lia).
Qed.

Lemma pfa_set_owner_law s a owner type : direct_mapped s -> held s a ->
  exists s', page_set_owner s a owner type = Some s' /\ direct_mapped s' /\ (forall c, on_cpu s' c <-> on_cpu s c) /\
    forall b, held s' b <-> held s b.
Proof.
  intros Hok (f & (Hf & Ho & Hr) & ->). pose proof Hok as (HI & _). destruct (page_of_virt s f Hok Hf) as (_ & E2 & E3 & E4).
  cbn [page_set_owner pfa_source]. rewrite E2. unfold jlos_page_frame_set_owner_type.
  destruct (Z.ltb_spec (frame_addr s f) (s_start_addr s)); [lia|]. cbv zeta. rewrite E3.
  destruct (Z.leb_spec (s_total_frames s) f); [lia|]. rewrite (geti_page s f HI Hf). cbn [mbind option_bind]. rewrite Ho.
  destruct (upd_page_spec s f (fun p => Page (pg_flags p) (u8 type) (pg_order p) (pg_pt_present p) (pg_refcount p) owner) HI Hf)
    as (s' & -> & Hsl & Hp). exists s'. split; [done|].
  assert (same_shape s s') as Hsh by (split_and!; [apply Hsl..|by rewrite (sl_percpu _ _ Hsl)]).
  assert (pfa_inv s') as HI'.
  { eapply inv_pages; [done|done|]. intros y Hy. rewrite Hp by lia. goal_decide; [subst y; right|by left].
    destruct (occupied_detached s f HI Hf Ho) as [? ?]. by split_and!; [..|left]. }
  split; [by eapply shape_mapped|]. split; [intros ?; simpl; by rewrite (sl_percpu _ _ Hsl)|].
  assert (forall g, held_frame s' g <-> held_frame s g) as Hh.
  { intros g. unfold held_frame. rewrite (sl_total _ _ Hsl). split; intros (Hg & H1 & H2); (split; [done|]);
      rewrite Hp in * by lia; goal_decide || case_decide; subst; done. }
  intros b. simpl. split; intros (g & Hg & ->); exists g; rewrite ?(shape_page s s' g Hsh); (split; [by apply Hh|done]).
Qed.

#[export] Instance pfa_source_laws : PageSourceLaws pfa.
Proof.
  split.
  - exact pfa_malloc_law.
  - exact pfa_free_law.
  - exact pfa_set_owner_law.
  - intros s a (HI & H1 & H2 & H3) (f & (Hf & _) & ->). unfold page_of, KERNEL_VIRTUAL_BASE, FRAME_SIZE in *.
    split_and!; [lia| |lia]. rewrite Z.add_mod, (Z.add_mod (s_start_addr s)), H2, Z.mod_mul by lia. done.
Qed.
