(* ===== verification/Slab.v ===== *)
(** * Slab caches ([kernel/memory_manager.c], second half)

    A cache of equal objects.  Its pages come from a page source; each page has a
    header of 32 bytes, the objects behind it, and the chain of its free objects.
    A page is on the partial list of one processor ([sp_owner >= 0]), on the
    partial, full or empty list of the cache ([sp_owner = -1]), or between lists
    ([sp_owner = -2]) while a processor that filled or emptied it has released its
    own lock and not yet taken the cache lock.

    The sections of code that run under one lock are definitions of their own; the
    two entry points compose them, and [SlabInv] interleaves them.  The chain of
    free objects and the page lists are sequences, first element first.  [None] is
    a null or wild pointer access.  Constructors and destructors act on the
    objects' contents only and are not modelled. *)
From S2P Require Import Prelude PageSource.

Definition PAGE : Z := 4096.
(** The sizes of [jlos_memory_slab_page_t] and of a pointer on the 32-bit target. *)
Definition SLAB_HDR : Z := 32.
Definition PTR : Z := 4.
Definition CACHELINE : Z := 64.
Definition TYPE_SLAB_OBJ : Z := 1.

Record spage := SPage {
  obj_count : Z;
  obj_start : Z;
  sp_owner : Z;
  inuse : Z;
  freelist : list Z
}.

Record cache := Cache {
  obj_size : Z;
  align : Z;
  pg_1_num : Z;
  colour : Z;
  colour_next : Z;
  partial : list Z;
  full : list Z;
  empty : list Z;
  cpus : list (list Z * Z);
  total : Z;
  empty_ratio : Z;
  min_partial : Z;
  pages : gmap Z spage
}.

Definition set_colour_next (c : cache) (n : Z) : cache :=
  Cache (obj_size c) (align c) (pg_1_num c) (colour c) n (partial c) (full c) (empty c) (cpus c) (total c) (empty_ratio c) (min_partial c) (pages c).
Definition set_partial (c : cache) (l : list Z) : cache :=
  Cache (obj_size c) (align c) (pg_1_num c) (colour c) (colour_next c) l (full c) (empty c) (cpus c) (total c) (empty_ratio c) (min_partial c) (pages c).
Definition set_full (c : cache) (l : list Z) : cache :=
  Cache (obj_size c) (align c) (pg_1_num c) (colour c) (colour_next c) (partial c) l (empty c) (cpus c) (total c) (empty_ratio c) (min_partial c) (pages c).
Definition set_empty (c : cache) (l : list Z) : cache :=
  Cache (obj_size c) (align c) (pg_1_num c) (colour c) (colour_next c) (partial c) (full c) l (cpus c) (total c) (empty_ratio c) (min_partial c) (pages c).
Definition set_cpus (c : cache) (l : list (list Z * Z)) : cache :=
  Cache (obj_size c) (align c) (pg_1_num c) (colour c) (colour_next c) (partial c) (full c) (empty c) l (total c) (empty_ratio c) (min_partial c) (pages c).
Definition set_total (c : cache) (n : Z) : cache :=
  Cache (obj_size c) (align c) (pg_1_num c) (colour c) (colour_next c) (partial c) (full c) (empty c) (cpus c) n (empty_ratio c) (min_partial c) (pages c).
Definition set_pages (c : cache) (m : gmap Z spage) : cache :=
  Cache (obj_size c) (align c) (pg_1_num c) (colour c) (colour_next c) (partial c) (full c) (empty c) (cpus c) (total c) (empty_ratio c) (min_partial c) m.
Definition set_page (c : cache) (a : Z) (sp : spage) : cache := set_pages c (<[a := sp]> (pages c)).
Definition set_cpu (c : cache) (cpu : Z) (pc : list Z * Z) : option cache :=
  l ← seti (cpus c) cpu pc; Some (set_cpus c l).

Definition with_owner (o : Z) (sp : spage) : spage := SPage (obj_count sp) (obj_start sp) o (inuse sp) (freelist sp).

(** ** Page lists *)

Definition slab_list_insert (l : list Z) (a : Z) : list Z := a :: l.
Definition slab_list_remove (l : list Z) (a : Z) : list Z := filter (fun b => b <> a) l.
Definition slab_count_list (l : list Z) : Z := zlen l.

(** ** Sizes *)

Definition align_up (x a : Z) : Z := Z.land (u32 (u32 (x + a) - 1)) (not32 (a - 1)).

Definition slab_page_frame_1_num (obj_size align : Z) : Z :=
  if obj_size =? 0 then 0
  else
    let aligned_start := align_up SLAB_HDR align in
    if PAGE <=? aligned_start then 0 else (PAGE - aligned_start) / obj_size.

(** [kvalloc] is whether the memory of the cache itself could be allocated; [cpus]
    is the number of processors. *)
Definition jlos_memory_slab_cache_create (num_cpus : nat) (kvalloc : bool) (size align : Z) : option cache :=
  if size =? 0 then None
  else
    let align := if align <? PTR then PTR else align in
    let obj := u32 (u32 (u32 (size + align) - 1) / align * align) in
    let num := slab_page_frame_1_num obj align in
    if num =? 0 then None
    else
      let aligned_start := align_up SLAB_HDR align in
      let leftover := u32 (PAGE - aligned_start - num * obj) in
      if negb kvalloc then None
      else Some (Cache obj align num (leftover / CACHELINE) 0 [] [] [] (replicate num_cpus ([], 0)) 0 50 2 ∅).

(** The loop that chains the objects of a new page, from [p] to [end_]. *)
Fixpoint carve_objects (fuel : nat) (p size end_ : Z) (fhead : list Z) : list Z :=
  match fuel with
  | O => fhead
  | S fuel => if u32 (p + size) <=? end_ then carve_objects fuel (u32 (p + size)) size end_ (p :: fhead) else fhead
  end.

(** The header and the objects of a new page. *)
Definition slab_page_init (c : cache) (page : Z) : spage :=
  let offset := u32 (colour_next c * CACHELINE) in
  let start := align_up (u32 (u32 (page + SLAB_HDR) + offset)) (align c) in
  let objs := carve_objects (Z.to_nat PAGE) start (obj_size c) (u32 (page + PAGE)) [] in
  SPage (zlen objs) start (-1) 0 objs.
Definition colour_step (c : cache) : Z := u32 (colour_next c + 1) `mod` u32 (colour c + 1).

(** ** Pages *)

Section ops.
Context {P : Type} `{PageSource P}.
Variable self : Z.

Definition slab_page_alloc (c : cache) (ps : P) (cpu : Z) : option (cache * P * option Z) :=
  '(ps, r) ← page_malloc ps cpu;
  match r with
  | None => Some (c, ps, None)
  | Some page =>
      ps ← page_set_owner ps page self TYPE_SLAB_OBJ;
      let c := set_page (set_colour_next c (colour_step c)) page (slab_page_init c page) in
      Some (set_total c (u32 (total c + 1)), ps, Some page)
  end.

Definition slab_page_free (c : cache) (ps : P) (cpu a : Z) : option (cache * P) :=
  ps ← page_set_owner ps a 0 0;
  ps ← page_free ps cpu a;
  Some (set_total (set_pages c (delete a (pages c))) (u32 (total c - 1)), ps).

Fixpoint slab_reclaim_empty (fuel : nat) (c : cache) (ps : P) (cpu : Z) : option (cache * P) :=
  match fuel with
  | O => Some (c, ps)
  | S fuel =>
      match empty c with
      | [] => Some (c, ps)
      | victim :: _ =>
          if (min_partial c <? total c) && (u32 (empty_ratio c * total c) <? u32 (slab_count_list (empty c) * 100)) then
            let c := set_empty c (slab_list_remove (empty c) victim) in
            '(c, ps) ← slab_page_free c ps cpu victim;
            slab_reclaim_empty fuel c ps cpu
          else Some (c, ps)
      end
  end.
Definition reclaim (c : cache) (ps : P) (cpu : Z) : option (cache * P) :=
  slab_reclaim_empty (length (empty c)) c ps cpu.

(** ** Allocation *)

(** The processor's own page, under the processor's lock.  The result is the
    object, with the page when it became full and still has to be listed. *)
Definition alloc_fast (c : cache) (cpu : Z) : option (cache * option (Z * option Z)) :=
  pc ← geti (cpus c) cpu;
  match pc.1 with
  | [] => Some (c, None)
  | a :: _ =>
      sp ← pages c !! a;
      match freelist sp with
      | [] => Some (c, None)
      | obj :: l =>
          let sp' := SPage (obj_count sp) (obj_start sp) (sp_owner sp) (u32 (inuse sp + 1)) l in
          if inuse sp' =? obj_count sp then
            c ← set_cpu c cpu (slab_list_remove pc.1 a, u32 (pc.2 - 1));
            Some (set_page c a (with_owner (-2) sp'), Some (obj, Some a))
          else Some (set_page c a sp', Some (obj, None))
      end
  end.

(** Listing a page that became full, under the cache lock. *)
Definition alloc_publish (c : cache) (a : Z) : option cache :=
  sp ← pages c !! a;
  if sp_owner sp =? -2
  then Some (set_full (set_page c a (with_owner (-1) sp)) (slab_list_insert (full c) a))
  else Some c.

(** A page of the cache or a new one, under both locks. *)
Definition take_page (c : cache) (ps : P) (cpu : Z) : option (cache * P * option Z) :=
  match partial c with
  | a :: _ => Some (set_partial c (slab_list_remove (partial c) a), ps, Some a)
  | [] => slab_page_alloc c ps cpu
  end.
Definition alloc_from (c : cache) (cpu a : Z) : option (cache * Z) :=
  sp ← pages c !! a;
  pc ← geti (cpus c) cpu;
  match freelist sp with
  | [] => None
  | obj :: l =>
      let sp' := SPage (obj_count sp) (obj_start sp) cpu (u32 (inuse sp + 1)) l in
      let pc' := (slab_list_insert pc.1 a, u32 (pc.2 + 1)) in
      if inuse sp' =? obj_count sp then
        c ← set_cpu c cpu (slab_list_remove pc'.1 a, u32 (pc'.2 - 1));
        Some (set_full (set_page c a (with_owner (-1) sp')) (slab_list_insert (full c) a), obj)
      else
        c ← set_cpu c cpu pc'; Some (set_page c a sp', obj)
  end.
Definition alloc_slow (c : cache) (ps : P) (cpu : Z) : option (cache * P * option Z) :=
  '(c, ps, r) ← take_page c ps cpu;
  match r with
  | None => Some (c, ps, None)
  | Some a => '(c, obj) ← alloc_from c cpu a; Some (c, ps, Some obj)
  end.

Definition jlos_memory_slab_cache_alloc (c : cache) (ps : P) (cpu : Z) : option (cache * P * option Z) :=
  '(c, r) ← alloc_fast c cpu;
  match r with
  | Some (obj, None) => Some (c, ps, Some obj)
  | Some (obj, Some a) => c ← alloc_publish c a; Some (c, ps, Some obj)
  | None => alloc_slow c ps cpu
  end.

(** ** Release *)

Definition page_base (obj : Z) : Z := Z.land obj (not32 (PAGE - 1)).

Definition push_object (sp : spage) (obj : Z) : spage :=
  SPage (obj_count sp) (obj_start sp) (sp_owner sp) (u32 (inuse sp - 1)) (obj :: freelist sp).

(** The processor's own page.  [Some (c, None)]: it is not, and the cache lock has
    to be taken; otherwise the page is given when it became empty and still has
    to be listed. *)
Definition free_fast (c : cache) (cpu obj : Z) : option (cache * option (option Z)) :=
  let a := page_base obj in
  sp ← pages c !! a;
  if sp_owner sp =? cpu then
    pc ← geti (cpus c) cpu;
    let sp' := push_object sp obj in
    if inuse sp' =? 0 then
      c ← set_cpu c cpu (slab_list_remove pc.1 a, u32 (pc.2 - 1));
      Some (set_page c a (with_owner (-2) sp'), Some (Some a))
    else Some (set_page c a sp', Some None)
  else Some (c, None).

(** Listing the page that became empty, under the cache lock. *)
Definition insert_empty (c : cache) (ps : P) (cpu a : Z) : option (cache * P) :=
  reclaim (set_empty c (slab_list_insert (empty c) a)) ps cpu.
Definition free_publish (c : cache) (ps : P) (cpu a : Z) : option (cache * P) :=
  sp ← pages c !! a;
  if sp_owner sp =? -2 then insert_empty (set_page c a (with_owner (-1) sp)) ps cpu a else Some (c, ps).

(** A page of another processor, under that processor's lock. *)
Definition free_remote (c : cache) (ps : P) (cpu obj owner : Z) (sp : spage) : option (cache * P) :=
  let a := page_base obj in
  pc ← geti (cpus c) owner;
  let sp' := push_object sp obj in
  if inuse sp' =? 0 then
    c ← set_cpu c owner (slab_list_remove pc.1 a, u32 (pc.2 - 1));
    insert_empty (set_page c a (with_owner (-1) sp')) ps cpu a
  else Some (set_page c a sp', ps).
(** A page of the cache, or one between lists. *)
Definition free_global (c : cache) (ps : P) (cpu obj owner : Z) (sp : spage) : option (cache * P) :=
  let a := page_base obj in
  let sp' := push_object sp obj in
  if owner =? -2 then
    let c := set_page c a (with_owner (-1) sp') in
    if inuse sp' =? 0 then insert_empty c ps cpu a
    else Some (set_partial c (slab_list_insert (partial c) a), ps)
  else
    let c := set_page c a sp' in
    if inuse sp =? obj_count sp then
      let c := set_full c (slab_list_remove (full c) a) in
      if inuse sp' =? 0 then insert_empty c ps cpu a
      else Some (set_partial c (slab_list_insert (partial c) a), ps)
    else if inuse sp' =? 0 then insert_empty (set_partial c (slab_list_remove (partial c) a)) ps cpu a
    else Some (c, ps).
(** Under the cache lock; [seen] is the owner read before the owner's lock is
    taken. *)
Definition free_slow (c : cache) (ps : P) (cpu obj seen : Z) : option (cache * P) :=
  sp ← pages c !! page_base obj;
  if 0 <=? seen then
    if sp_owner sp =? seen then free_remote c ps cpu obj seen sp
    else free_global c ps cpu obj (sp_owner sp) sp
  else free_global c ps cpu obj seen sp.

Definition jlos_memory_slab_cache_free (c : cache) (ps : P) (cpu obj : Z) : option (cache * P) :=
  if obj =? 0 then Some (c, ps)
  else
    '(c, r) ← free_fast c cpu obj;
    match r with
    | Some None => Some (c, ps)
    | Some (Some a) => free_publish c ps cpu a
    | None => sp ← pages c !! page_base obj; free_slow c ps cpu obj (sp_owner sp)
    end.

(** ** Destruction *)

Fixpoint free_pages (c : cache) (ps : P) (cpu : Z) (l : list Z) : option (cache * P) :=
  match l with
  | [] => Some (c, ps)
  | a :: l => '(c, ps) ← slab_page_free c ps cpu a; free_pages c ps cpu l
  end.
Definition jlos_memory_slab_cache_destroy (c : cache) (ps : P) (cpu : Z) : option (cache * P) :=
  '(c, ps) ← free_pages c ps cpu (concat (map fst (cpus c)));
  '(c, ps) ← free_pages c ps cpu (partial c);
  '(c, ps) ← free_pages c ps cpu (full c);
  free_pages c ps cpu (empty c).

End ops.
