(* ===== verification/SlabInv.v ===== *)
(** * Correctness of the slab caches

    Every interleaving of the locked sections of concurrent allocations and
    releases keeps the cache consistent: each object is either handed out once or
    on the chain of its page, each page is on the list its owner field and use
    count say, and only pages without objects in use go back to the page source. *)
From S2P Require Import Prelude Pfa PfaInv PfaCpu PageSource Slab.

(** ** Where a page is *)

Inductive location := OnCpu (i : Z) | Partial | Full | Empty | Limbo.
#[export] Instance location_eq_dec : EqDecision location.
Proof. solve_decision. Defined.

Definition loc (sp : spage) : location :=
  if 0 <=? sp_owner sp then OnCpu (sp_owner sp)
  else if sp_owner sp =? -2 then Limbo
  else if inuse sp =? 0 then Empty
  else if inuse sp =? obj_count sp then Full
  else Partial.

Definition where_is (c : cache) (a : Z) : option location := loc <$> pages c !! a.

(** The list a location stands for. *)
Definition list_at (c : cache) (L : location) : list Z :=
  match L with
  | OnCpu i => default [] (fst <$> geti (cpus c) i)
  | Partial => partial c
  | Full => full c
  | Empty => empty c
  | Limbo => []
  end.

Definition listed (c : cache) : Prop :=
  forall L, L <> Limbo -> NoDup (list_at c L) /\ forall a, a ∈ list_at c L <-> where_is c a = Some L.

Lemma remove_absent l a : a ∉ l -> slab_list_remove l a = l.
Proof. apply filter_absent. Qed.
Lemma elem_remove l a b : b ∈ slab_list_remove l a <-> b ∈ l /\ b <> a.
Proof. unfold slab_list_remove. rewrite list_elem_of_filter. tauto. Qed.
Lemma remove_insert l a : a ∉ l -> slab_list_remove (slab_list_insert l a) a = l.
Proof. intros Ha. unfold slab_list_remove, slab_list_insert. rewrite filter_cons, decide_False by tauto. by apply filter_absent. Qed.

Lemma listed_absent c a L : listed c -> L <> Limbo -> where_is c a <> Some L -> slab_list_remove (list_at c L) a = list_at c L.
Proof. intros Hl HL Hw. apply remove_absent. by rewrite (proj2 (Hl L HL)). Qed.

(** Only page [a] changes place: it leaves the list it was on and enters the new one. *)
Definition relisted (c c' : cache) (a : Z) : Prop :=
  (forall b, b <> a -> where_is c' b = where_is c b) /\
  forall L, L <> Limbo ->
    list_at c' L = if decide (where_is c' a = Some L)
                   then if decide (where_is c a = Some L) then list_at c L else a :: list_at c L
                   else slab_list_remove (list_at c L) a.

Lemma relisted_listed c c' a : listed c -> relisted c c' a -> listed c'.
Proof.
  intros Hl [Hw Hr] L HL. destruct (Hl L HL) as [Hnd Hin]. rewrite Hr by done.
  destruct (decide (where_is c' a = Some L)) as [E|E]; [destruct (decide (where_is c a = Some L)) as [F|F]|].
  - split; [done|]. intros b. rewrite Hin. destruct (decide (b = a)) as [->|Hne]; [by rewrite E, F|by rewrite Hw].
  - split; [apply NoDup_cons; split; [by rewrite Hin|done]|]. intros b. rewrite elem_of_cons, Hin.
    destruct (decide (b = a)) as [->|Hne]; [by rewrite E; intuition|]. rewrite Hw by done. naive_solver.
  - split; [by apply NoDup_filter|]. intros b. rewrite elem_remove, Hin.
    destruct (decide (b = a)) as [->|Hne]; [naive_solver|]. rewrite Hw by done. naive_solver.
Qed.

Lemma where_set c a sp b : where_is (set_page c a sp) b = if decide (b = a) then Some (loc sp) else where_is c b.
Proof.
  unfold where_is, set_page. simpl. goal_decide; [subst; by rewrite lookup_insert_eq|]. by rewrite lookup_insert_ne.
Qed.

(** ** Objects *)

Definition slot (sz : Z) (sp : spage) (o : Z) : Prop := exists i, 0 <= i < obj_count sp /\ o = obj_start sp + i * sz.
Definition slots (sz : Z) (sp : spage) : list Z := (fun i => obj_start sp + i * sz) <$> seqZ 0 (obj_count sp).

Lemma elem_slots sz sp o : o ∈ slots sz sp <-> slot sz sp o.
Proof. unfold slots, slot. rewrite list_elem_of_fmap. setoid_rewrite elem_of_seqZ. naive_solver. Qed.

(** [H] are the objects not on any chain. *)
Record page_ok (sz : Z) (H : list Z) (a : Z) (sp : spage) : Prop := {
  po_page : 0 < a /\ a mod 4096 = 0 /\ a + 8192 <= 2 ^ 32;
  po_room : a + 32 <= obj_start sp /\ obj_start sp + obj_count sp * sz <= a + 4096 /\ 1 <= obj_count sp;
  po_nodup : NoDup (freelist sp);
  po_slot o : o ∈ freelist sp -> slot sz sp o;
  po_either o : slot sz sp o -> o ∈ freelist sp <-> o ∉ H;
  po_inuse : inuse sp = obj_count sp - zlen (freelist sp)
}.

Record objs_ok (sz : Z) (pg : gmap Z spage) (H : list Z) : Prop := {
  ob_size : 0 < sz;
  ob_nodup : NoDup H;
  ob_page a sp : pg !! a = Some sp -> page_ok sz H a sp;
  ob_home o : o ∈ H -> exists sp, pg !! page_base o = Some sp /\ slot sz sp o
}.

Lemma page_base_in a o : 0 < a -> a mod 4096 = 0 -> a + 8192 <= 2 ^ 32 -> a <= o < a + 4096 -> page_base o = a.
Proof.
  intros H1 H2 H3 H4. unfold page_base, PAGE. change 4096 with (2 ^ 12). rewrite land_not_mask by lia.
  change (2 ^ 12) with 4096. assert (o mod 4096 = o - a); [|lia].
  replace o with (o - a + a) at 1 by lia. rewrite Z.add_mod, H2, Z.add_0_r, Zmod_mod by lia. apply Z.mod_small. lia.
Qed.

Lemma slab_slot_range sz H a sp o : 0 < sz -> page_ok sz H a sp -> slot sz sp o -> a + 32 <= o /\ o + sz <= a + 4096.
Proof. intros Hs [_ Hr _ _ _ _] (i & Hi & ->). nia. Qed.
Lemma slot_base sz H a sp o : 0 < sz -> page_ok sz H a sp -> slot sz sp o -> page_base o = a.
Proof.
  intros Hs Hp Ho. pose proof (slab_slot_range _ _ _ _ _ Hs Hp Ho). destruct Hp as [(? & ? & ?) _ _ _ _ _].
  apply page_base_in; done || lia.
Qed.

Lemma slots_length sz sp : 0 <= obj_count sp -> zlen (slots sz sp) = obj_count sp.
Proof. intros Hc. unfold slots. rewrite length_fmap, length_seqZ. lia. Qed.

(** The free objects are counted by [inuse]. *)
Lemma free_count sz H a sp : page_ok sz H a sp -> zlen (freelist sp) <= obj_count sp.
Proof.
  intros [_ (_ & _ & Hc) Hnd Hsl _ _]. rewrite <- (slots_length sz sp) by lia. apply Nat2Z.inj_le, submseteq_length.
  apply NoDup_submseteq; [done|]. intros o Ho. by apply elem_slots, Hsl.
Qed.
Lemma used_count sz H a sp o : page_ok sz H a sp -> slot sz sp o -> o ∈ H -> 0 < inuse sp.
Proof.
  intros Hp Hs Ho. pose proof Hp as [_ (_ & _ & Hc) Hnd Hsl Hei Hin].
  assert (zlen (o :: freelist sp) <= obj_count sp); [|simpl in *; lia].
  rewrite <- (slots_length sz sp) by lia. apply Nat2Z.inj_le, submseteq_length. apply NoDup_submseteq.
  - apply NoDup_cons. split; [|done]. rewrite Hei by done. tauto.
  - intros x [->|Hx]%elem_of_cons; apply elem_slots; [done|by apply Hsl].
Qed.

Definition same_objs (sp sp' : spage) : Prop :=
  obj_count sp' = obj_count sp /\ obj_start sp' = obj_start sp /\ inuse sp' = inuse sp /\ freelist sp' = freelist sp.

Lemma page_ok_ext sz H H' a sp sp' :
  page_ok sz H a sp -> same_objs sp sp' -> (forall o, slot sz sp o -> o ∈ H' <-> o ∈ H) -> page_ok sz H' a sp'.
Proof.
  intros [H1 H2 H3 H4 H5 H6] (E1 & E2 & E3 & E4) HH.
  assert (forall o, slot sz sp' o <-> slot sz sp o) as Hsl by (intros; unfold slot; by rewrite E1, E2).
  split; rewrite ?E1, ?E2, ?E3, ?E4; try done.
  - intros o Ho. by apply Hsl, H4.
  - intros o Ho%Hsl. by rewrite HH, H5.
Qed.

(** The page at [a] changes and so do the objects in use that belong to it. *)
Lemma objs_update sz pg H H' a sp' :
  objs_ok sz pg H -> NoDup H' -> page_ok sz H' a sp' ->
  (forall o, page_base o <> a -> o ∈ H' <-> o ∈ H) -> (forall o, o ∈ H' -> page_base o = a -> slot sz sp' o) ->
  objs_ok sz (<[a := sp']> pg) H'.
Proof.
  intros [H1 H2 H3 H4] Hnd Hpa Hother Hmine. split; [done|done| |].
  - intros b sp Hb. destruct (decide (b = a)) as [->|Hne]; [rewrite lookup_insert_eq in Hb; by injection Hb as <-|].
    rewrite lookup_insert_ne in Hb by done. eapply page_ok_ext; [by apply H3|done|]. intros o Ho. apply Hother.
    by rewrite (slot_base sz H b sp o H1 (H3 _ _ Hb) Ho).
  - intros o Ho. destruct (decide (page_base o = a)) as [E|Hne].
    + exists sp'. rewrite E, lookup_insert_eq. split; [done|]. by apply Hmine.
    + rewrite lookup_insert_ne by done. apply H4. by apply Hother.
Qed.

Lemma objs_pop sz pg H a sp sp' o l :
  objs_ok sz pg H -> pg !! a = Some sp -> freelist sp = o :: l ->
  obj_count sp' = obj_count sp -> obj_start sp' = obj_start sp -> inuse sp' = u32 (inuse sp + 1) -> freelist sp' = l ->
  (o ∉ H) /\ page_base o = a /\ 1 <= inuse sp' <= obj_count sp /\ objs_ok sz (<[a := sp']> pg) (o :: H).
Proof.
  intros Hob Ha Hfr E1 E2 E3 E4. pose proof Hob as [H1 H2 H3 H4]. pose proof (H3 _ _ Ha) as Hp.
  pose proof (free_count _ _ _ _ Hp) as Hfc. pose proof Hp as [P1 P2 P3 P4 P5 P6].
  assert (slot sz sp o) as Hso by (apply P4; rewrite Hfr; constructor).
  assert (o ∉ H) as Hno by (apply P5; [done|rewrite Hfr; constructor]).
  assert (forall x, slot sz sp' x <-> slot sz sp x) as Hsl by (intros; unfold slot; by rewrite E1, E2).
  rewrite Hfr in *. apply NoDup_cons in P3 as [Hol Hnl]. pose proof (slot_base _ _ _ _ _ H1 Hp Hso) as Hba.
  assert (obj_count sp <= 4096) by nia. simpl in P6, Hfc.
  rewrite E3, u32_small by lia. split; [done|]. split; [done|]. split; [lia|].
  apply (objs_update _ _ H); [done|by apply NoDup_cons| | |].
  - split; rewrite ?E1, ?E2, ?E3, ?E4; try done.
    + intros x Hx. apply Hsl, P4. by constructor.
    + intros x Hx%Hsl. specialize (P5 x Hx). rewrite elem_of_cons in P5. rewrite not_elem_of_cons.
      destruct (decide (x = o)) as [->|]; naive_solver.
    + rewrite u32_small by lia. lia.
  - intros x Hx. rewrite elem_of_cons. split; [|by right]. intros [->|]; [by rewrite Hba in Hx|done].
  - intros x [->|Hx]%elem_of_cons Hxa; [by apply Hsl|]. destruct (H4 x Hx) as (sp2 & Hg & Hs2).
    rewrite Hxa, Ha in Hg. injection Hg as <-. by apply Hsl.
Qed.

Lemma objs_push sz pg H a sp o :
  objs_ok sz pg (o :: H) -> a = page_base o -> pg !! a = Some sp ->
  inuse (push_object sp o) = inuse sp - 1 /\ 0 < inuse sp <= obj_count sp /\
  objs_ok sz (<[a := push_object sp o]> pg) H.
Proof.
  intros Hob -> Ha. pose proof Hob as [H1 H2 H3 H4]. apply NoDup_cons in H2 as [Hno Hnd]. pose proof (H3 _ _ Ha) as Hp.
  destruct (H4 o) as (sp2 & Hg & Hso); [constructor|]. rewrite Ha in Hg. injection Hg as <-.
  pose proof (used_count _ _ _ _ _ Hp Hso ltac:(constructor)) as Hu. pose proof (free_count _ _ _ _ Hp).
  pose proof Hp as [P1 P2 P3 P4 P5 P6]. assert (obj_count sp <= 4096) by nia.
  simpl. rewrite u32_small by lia. split; [done|]. split; [lia|].
  apply (objs_update _ _ (o :: H)); [done|done| | |].
  - split; simpl; try done.
    + apply NoDup_cons. split; [|done]. rewrite P5 by done. intros Hn. apply Hn. constructor.
    + intros x [->|Hx]%elem_of_cons; [done|by apply P4].
    + intros x Hx. change (slot sz sp x) in Hx. rewrite elem_of_cons, P5, not_elem_of_cons by done.
      destruct (decide (x = o)) as [->|]; naive_solver.
    + rewrite u32_small by lia. lia.
  - intros x Hx. rewrite elem_of_cons. split; [by right|]. by intros [->|].
  - intros x Hx Hxa. destruct (H4 x) as (sp2 & Hg & Hs2); [by constructor|]. rewrite Hxa, Ha in Hg. by injection Hg as <-.
Qed.

Lemma objs_same sz pg H a sp sp' :
  objs_ok sz pg H -> pg !! a = Some sp -> same_objs sp sp' -> objs_ok sz (<[a := sp']> pg) H.
Proof.
  intros Hob Ha Hsm. pose proof Hob as [H1 H2 H3 H4]. apply (objs_update _ _ H); [done|done| |done|].
  - by eapply page_ok_ext; [apply H3| |].
  - intros o Ho Hoa. destruct (H4 o Ho) as (sp2 & Hg & Hs2). rewrite Hoa, Ha in Hg. injection Hg as <-.
    destruct Hsm as (E1 & E2 & _). unfold slot in *. by rewrite E1, E2.
Qed.

Lemma objs_perm sz pg H H' : H ≡ₚ H' -> objs_ok sz pg H -> objs_ok sz pg H'.
Proof.
  intros Hp [H1 H2 H3 H4]. split; [done|by rewrite <- Hp| |].
  - intros a sp Ha. eapply page_ok_ext; [by apply H3|done|]. intros o _. by rewrite Hp.
  - intros o Ho. apply H4. by rewrite Hp.
Qed.

Lemma objs_new sz pg H a sp :
  objs_ok sz pg H -> pg !! a = None -> page_ok sz [] a sp -> objs_ok sz (<[a := sp]> pg) H.
Proof.
  intros Hob Ha Hp. pose proof Hob as [H1 H2 H3 H4].
  assert (Hno : forall o, o ∈ H -> page_base o <> a) by (intros o (sp2 & Hg & _)%H4 E; by rewrite E, Ha in Hg).
  apply (objs_update _ _ H); [done|done| |done|intros o Ho E; by apply Hno in E].
  eapply page_ok_ext; [done|done|]. intros o Ho. split; [|by intros ?%elem_of_nil]. intros Hin. exfalso.
  by apply (Hno o Hin), (slot_base sz [] a sp o H1 Hp Ho).
Qed.

Lemma objs_delete sz pg H a sp :
  objs_ok sz pg H -> pg !! a = Some sp -> inuse sp = 0 -> objs_ok sz (delete a pg) H.
Proof.
  intros [H1 H2 H3 H4] Ha Hu. split; [done|done| |].
  - intros b sp2 Hb. apply lookup_delete_Some in Hb as [_ Hb]. by apply H3.
  - intros o Ho. destruct (H4 o Ho) as (sp2 & Hg & Hs). exists sp2. split; [|done]. apply lookup_delete_Some. split; [|done].
    intros E. rewrite <- E, Ha in Hg. injection Hg as <-.
    pose proof (used_count _ _ _ _ _ (H3 _ _ Ha) Hs Ho). lia.
Qed.

(** ** New pages *)

Lemma align_up_spec x k : 0 <= x -> 0 <= k <= 12 -> x + 4096 <= 2 ^ 32 ->
  x <= align_up x (2 ^ k) < x + 2 ^ k /\ align_up x (2 ^ k) mod 2 ^ k = 0.
Proof.
  intros Hx Hk Hb. assert (0 < 2 ^ k <= 4096) as Hp.
  { split; [lia|]. change 4096 with (2 ^ 12). apply Z.pow_le_mono_r; lia. }
  assert (align_up x (2 ^ k) = x + 2 ^ k - 1 - (x + 2 ^ k - 1) mod 2 ^ k) as ->.
  { unfold align_up. destruct (decide (x + 2 ^ k = 2 ^ 32)) as [E|E].
    - replace (u32 (u32 (x + 2 ^ k) - 1)) with (2 ^ 32 - 1) by (by rewrite E).
      rewrite land_not_mask by lia. by rewrite E.
    - rewrite (u32_small (x + 2 ^ k)), u32_small by lia. apply land_not_mask; lia. }
  pose proof (Z.mod_pos_bound (x + 2 ^ k - 1) (2 ^ k) ltac:(lia)). split; [lia|].
  pose proof (Z.div_mod (x + 2 ^ k - 1) (2 ^ k) ltac:(lia)) as Hd.
  replace (x + 2 ^ k - 1 - (x + 2 ^ k - 1) mod 2 ^ k) with ((x + 2 ^ k - 1) / 2 ^ k * 2 ^ k) by lia.
  apply Z.mod_mul. lia.
Qed.

(** The least multiple not below [x] is at most any other one. *)
Lemma align_up_least x k m : 0 <= x -> 0 <= k <= 12 -> x + 4096 <= 2 ^ 32 -> x <= m -> m mod 2 ^ k = 0 -> align_up x (2 ^ k) <= m.
Proof.
  intros Hx Hk Hb Hm Hmod. destruct (align_up_spec x k Hx Hk Hb) as [H1 H2].
  pose proof (Z.div_mod m (2 ^ k) ltac:(lia)) as D1. pose proof (Z.div_mod (align_up x (2 ^ k)) (2 ^ k) ltac:(lia)) as D2.
  rewrite Hmod in D1. rewrite H2 in D2. set (q := m / 2 ^ k) in *. set (r := align_up x (2 ^ k) / 2 ^ k) in *.
  assert (r < q + 1) by (apply (Z.mul_lt_mono_pos_l (2 ^ k)); lia).
  assert (2 ^ k * r <= 2 ^ k * q) by (apply Z.mul_le_mono_nonneg_l; lia). lia.
Qed.

Lemma carve_objs_spec sz e n : forall fuel p acc,
  0 < sz -> 0 <= p -> e + sz < 2 ^ 32 -> p + Z.of_nat n * sz <= e < p + (Z.of_nat n + 1) * sz -> (n <= fuel)%nat ->
  carve_objects fuel p sz e acc = reverse ((fun i => p + i * sz) <$> seqZ 0 (Z.of_nat n)) ++ acc.
Proof.
  induction n as [|n IH]; intros fuel p acc Hs Hp He Hr Hf.
  - change (seqZ 0 (Z.of_nat 0)) with (@nil Z). simpl. destruct fuel; [done|]. simpl. rewrite u32_small by lia.
    destruct (Z.leb_spec (p + sz) e); [lia|done].
  - destruct fuel as [|fuel]; [lia|]. simpl. rewrite u32_small by nia. destruct (Z.leb_spec (p + sz) e); [|nia].
    rewrite IH by (lia || nia). rewrite (seqZ_cons 0 (Z.of_nat (S n))) by lia. simpl. rewrite reverse_cons, <- app_assoc. simpl.
    replace (p + 0 * sz) with p by lia. f_equal. f_equal. replace (Z.pred (Z.of_nat (S n))) with (Z.of_nat n) by lia.
    change (Z.succ 0) with (1 + 0). rewrite <- fmap_add_seqZ, <- list_fmap_compose.
    apply list_fmap_ext. intros i x _. simpl. lia.
Qed.

Record params_ok (c : cache) : Prop := {
  pa_align : exists k, 0 <= k <= 12 /\ align c = 2 ^ k;
  pa_size : 0 < obj_size c <= 4096 /\ obj_size c mod align c = 0;
  pa_num : 1 <= pg_1_num c;
  pa_colour : 0 <= colour c /\ align_up SLAB_HDR (align c) + pg_1_num c * obj_size c + CACHELINE * colour c <= PAGE;
  pa_next : 0 <= colour_next c <= colour c
}.

(** ** Moving one page *)

Lemma set_cpu_eq c cpu pc : 0 <= cpu < zlen (cpus c) -> set_cpu c cpu pc = Some (set_cpus c (<[Z.to_nat cpu := pc]> (cpus c))).
Proof. intros Hc. unfold set_cpu. by rewrite seti_Some. Qed.
Lemma cpu_list c cpu : 0 <= cpu < zlen (cpus c) -> exists pc, geti (cpus c) cpu = Some pc /\ pc.1 = list_at c (OnCpu cpu).
Proof. intros Hc. simpl. destruct (geti_Some (cpus c) cpu Hc) as (pc & -> & _). by exists pc. Qed.
Lemma cpu_list_set (l : list (list Z * Z)) cpu pc j : 0 <= cpu < zlen l ->
  default [] (fst <$> geti (<[Z.to_nat cpu := pc]> l) j) = if decide (j = cpu) then pc.1 else default [] (fst <$> geti l j).
Proof.
  intros Hc. unfold geti. destruct (Z.ltb_spec j 0); [rewrite decide_False by lia; done|].
  goal_decide; [subst; by rewrite list_lookup_insert_eq by lia|]. by rewrite list_lookup_insert_ne by lia.
Qed.

Lemma relisted_intro c c' a w w' :
  listed c -> where_is c a = w -> where_is c' a = w' -> (forall b, b <> a -> where_is c' b = where_is c b) ->
  (forall L, L <> Limbo -> w = Some L -> w' = Some L -> list_at c' L = list_at c L) ->
  (forall L, L <> Limbo -> w <> Some L -> w' = Some L -> list_at c' L = a :: list_at c L) ->
  (forall L, L <> Limbo -> w = Some L -> w' <> Some L -> list_at c' L = slab_list_remove (list_at c L) a) ->
  (forall L, L <> Limbo -> w <> Some L -> w' <> Some L -> list_at c' L = list_at c L) -> relisted c c' a.
Proof.
  intros Hl Hw Hw' Hb H1 H2 H3 H4. split; [done|]. intros L HL. rewrite Hw, Hw'. repeat goal_decide.
  - by apply H1.
  - by apply H2.
  - destruct (decide (w = Some L)); [by apply H3|]. rewrite H4 by done. symmetry. apply remove_absent.
    by rewrite (proj2 (Hl L HL)), Hw.
Qed.

(** Compare the lists of two caches, location by location. *)
Ltac lists := intros L HL; destruct L; simpl; intros; rewrite ?cpu_list_set by done; repeat case_decide;
  simplify_eq; try done; try congruence.

Definition same_params (c c' : cache) : Prop :=
  obj_size c' = obj_size c /\ align c' = align c /\ pg_1_num c' = pg_1_num c /\ colour c' = colour c /\
  colour_next c' = colour_next c /\ length (cpus c') = length (cpus c).

Lemma params_same c c' : same_params c c' -> params_ok c -> params_ok c'.
Proof. intros (E1 & E2 & E3 & E4 & E5 & _) [H1 H2 H3 H4 H5]. split; by rewrite ?E1, ?E2, ?E3, ?E4, ?E5. Qed.

(** ** The invariant *)

(** What the owner field promises. *)
Definition owner_ok (ncpu : Z) (pend : list (Z * option Z)) (a : Z) (sp : spage) : Prop :=
  sp_owner sp = -1 \/
  0 <= sp_owner sp < ncpu /\ 0 < inuse sp < obj_count sp \/
  sp_owner sp = -2 /\ (inuse sp = obj_count sp /\ (exists o, (a, Some o) ∈ pend) \/ inuse sp = 0 /\ (a, None) ∈ pend).

Section inv.
Context {P : Type} `{PageSourceLaws P}.

(** [used] are the objects off the chains; [pend] the pages that a processor has
    still to list, with the object it is about to return when it filled the page. *)
Record slab_inv (c : cache) (ps : P) (used : list Z) (pend : list (Z * option Z)) : Prop := {
  si_params : params_ok c;
  si_src : source_ok ps;
  si_cpus i : 0 <= i < zlen (cpus c) -> on_cpu ps i;
  si_held a : is_Some (pages c !! a) -> held ps a;
  si_objs : objs_ok (obj_size c) (pages c) used;
  si_listed : listed c;
  si_owner a sp : pages c !! a = Some sp -> owner_ok (zlen (cpus c)) pend a sp;
  si_empty a : (a, None) ∈ pend -> exists sp, pages c !! a = Some sp /\ sp_owner sp = -2 /\ inuse sp = 0;
  si_pend a o : (a, Some o) ∈ pend -> page_base o = a /\ o ∈ used;
  si_nodup : NoDup pend
}.

Lemma slab_update c c' ps used used' pend pend' a sp' :
  slab_inv c ps used pend -> same_params c c' -> held ps a ->
  pages c' = <[a := sp']> (pages c) -> relisted c c' a -> objs_ok (obj_size c) (<[a := sp']> (pages c)) used' ->
  owner_ok (zlen (cpus c)) pend' a sp' ->
  (forall b x, b <> a -> (b, x) ∈ pend' <-> (b, x) ∈ pend) -> NoDup pend' ->
  ((a, None) ∈ pend' -> sp_owner sp' = -2 /\ inuse sp' = 0) ->
  (forall b o, (b, Some o) ∈ pend' -> page_base o = b /\ o ∈ used') ->
  slab_inv c' ps used' pend'.
Proof using P H.
  intros [I1 I2 I3 I4 I5 I6 I7 I8 I9 I10] Hsp Hh Epg Hrl Hob Hown Hpend Hnd Hnone Hsome.
  pose proof Hsp as (E1 & _ & _ & _ & _ & E6). split; try done.
  - by eapply params_same.
  - by rewrite E6.
  - intros b Hb. destruct (decide (b = a)) as [->|Hne]; [done|]. apply I4. by rewrite Epg, lookup_insert_ne in Hb.
  - by rewrite E1, Epg.
  - by eapply relisted_listed.
  - intros b sp Hb. rewrite Epg, E6 in *. destruct (decide (b = a)) as [->|Hne].
    + rewrite lookup_insert_eq in Hb. by injection Hb as <-.
    + rewrite lookup_insert_ne in Hb by done. destruct (I7 b sp Hb) as [?|[?|[? [[? [o ?]]|[? ?]]]]]; unfold owner_ok; [by left|by right; left|..];
        right; right; (split; [done|]); [left|right]; (split; [done|]); [exists o|]; by apply Hpend.
  - intros b Hb. destruct (decide (b = a)) as [->|Hne].
    + exists sp'. rewrite Epg, lookup_insert_eq. split; [done|]. by apply Hnone.
    + rewrite Epg, lookup_insert_ne by done. apply I8. by apply Hpend.
Qed.

(** The owner of a page that is on no processor's list and listed is the cache. *)
Lemma loc_owner ncpu pend a sp : owner_ok ncpu pend a sp ->
  match loc sp with
  | OnCpu i => sp_owner sp = i /\ 0 <= i < ncpu /\ 0 < inuse sp < obj_count sp
  | Partial => sp_owner sp = -1 /\ inuse sp <> 0 /\ inuse sp <> obj_count sp
  | Full => sp_owner sp = -1 /\ inuse sp <> 0 /\ inuse sp = obj_count sp
  | Empty => sp_owner sp = -1 /\ inuse sp = 0
  | Limbo => sp_owner sp = -2
  end.
Proof.
  intros Ho. unfold loc, owner_ok in *. destruct (Z.leb_spec 0 (sp_owner sp)); [split; [done|lia]|].
  destruct (Z.eqb_spec (sp_owner sp) (-2)); [done|]. destruct (Z.eqb_spec (inuse sp) 0); [split; [lia|done]|].
  destruct (Z.eqb_spec (inuse sp) (obj_count sp)); split; lia.
Qed.

End inv.

Section steps.
Context {P : Type} `{PageSourceLaws P}.
Implicit Types (ps : P).

Lemma listed_page c ps used pend L a : slab_inv c ps used pend -> L <> Limbo -> a ∈ list_at c L ->
  exists sp, pages c !! a = Some sp /\ where_is c a = Some L /\ loc sp = L.
Proof using P H.
  intros HI HL Ha. apply (si_listed _ _ _ _ HI L HL) in Ha. pose proof Ha as Hw. unfold where_is in Ha.
  destruct (pages c !! a) as [sp|]; [|done]. exists sp. split; [done|]. split; [done|]. simpl in Ha. congruence.
Qed.

Lemma alloc_fast_spec c ps used pend cpu :
  slab_inv c ps used pend -> 0 <= cpu < zlen (cpus c) ->
  exists c' r, alloc_fast c cpu = Some (c', r) /\ same_params c c' /\
    match r with
    | None => c' = c /\ list_at c (OnCpu cpu) = []
    | Some (o, None) => (o ∉ used) /\ slab_inv c' ps (o :: used) pend
    | Some (o, Some a) => (o ∉ used) /\ slab_inv c' ps (o :: used) ((a, Some o) :: pend)
    end.
Proof using P H.
  intros HI Hc. unfold alloc_fast. destruct (cpu_list c cpu Hc) as (pc & -> & Epc). cbn [mbind option_bind]. rewrite Epc.
  destruct (list_at c (OnCpu cpu)) as [|a l] eqn:El; [by exists c, None|].
  destruct (listed_page c ps used pend (OnCpu cpu) a HI) as (sp & Ha & Hw & Hloc); [done|rewrite El; constructor|].
  rewrite Ha. cbn [mbind option_bind]. pose proof (loc_owner _ _ _ _ (si_owner _ _ _ _ HI a sp Ha)) as Hlo. rewrite Hloc in Hlo.
  destruct Hlo as (Eo & _ & Hu). pose proof (ob_page _ _ _ (si_objs _ _ _ _ HI) a sp Ha) as Hp.
  destruct (freelist sp) as [|o fl] eqn:Ef; [pose proof (po_inuse _ _ _ _ Hp) as Hin; rewrite Ef in Hin; simpl in Hin; lia|].
  cbv zeta. cbn [inuse].
  assert (held ps a) as Hh by (apply (si_held _ _ _ _ HI); by rewrite Ha).
  destruct (Z.eqb_spec (u32 (inuse sp + 1)) (obj_count sp)) as [E|E].
  - set (sp' := with_owner (-2) _).
    destruct (objs_pop _ _ _ a sp sp' o fl (si_objs _ _ _ _ HI) Ha Ef) as (Hno & Hb & Hr & Hob); [done..|].
    rewrite set_cpu_eq by done. cbn [mbind option_bind]. eexists _, (Some (o, Some a)). split; [done|].
    assert (same_params c (set_page (set_cpus c (<[Z.to_nat cpu := (slab_list_remove (a :: l) a, u32 (pc.2 - 1))]> (cpus c))) a sp')) as Hsp
      by (repeat split; simpl; apply length_insert).
    split; [exact Hsp|]. split; [done|].
    eapply slab_update; [exact HI|exact Hsp|done|done| |exact Hob|..].
    + eapply relisted_intro; [apply HI|exact Hw|by rewrite where_set, decide_True|intros b Hne; by rewrite where_set, decide_False|..];
        lists. by rewrite <- El.
    + right. right. split; [done|]. left. split; [done|]. exists o. constructor.
    + intros b x Hne. rewrite elem_of_cons. naive_solver.
    + constructor; [|apply HI]. intros Hin. by destruct (si_pend _ _ _ _ HI a o Hin) as [_ ?].
    + intros Hin. apply elem_of_cons in Hin as [?|Hin]; [done|]. destruct (si_empty _ _ _ _ HI a Hin) as (? & ? & ? & ?).
      simplify_eq. lia.
    + intros b x [[= -> ->]|Hin]%elem_of_cons; [split; [done|constructor]|].
      destruct (si_pend _ _ _ _ HI b x Hin) as [? ?]. split; [done|by constructor].
  - set (sp' := SPage _ _ _ _ _).
    destruct (objs_pop _ _ _ a sp sp' o fl (si_objs _ _ _ _ HI) Ha Ef) as (Hno & Hb & Hr & Hob); [done..|].
    eexists _, (Some (o, None)). split; [done|]. split; [done|]. split; [done|].
    assert (loc sp' = OnCpu cpu) as Hl' by (unfold loc, sp' in *; simpl; rewrite Eo; by destruct (Z.leb_spec 0 cpu); [|lia]).
    eapply slab_update; [exact HI|done|done|done| |exact Hob|..].
    + eapply relisted_intro; [apply HI|exact Hw|by rewrite where_set, decide_True, Hl'|intros b Hne; by rewrite where_set, decide_False|..]; lists.
    + right. left. simpl in *. lia.
    + done.
    + apply HI.
    + intros Hin. destruct (si_empty _ _ _ _ HI a Hin) as (? & ? & ? & ?). simplify_eq. lia.
    + intros b x Hin. destruct (si_pend _ _ _ _ HI b x Hin) as [? ?]. split; [done|by constructor].
Qed.

Lemma pend_drop {A} (p1 : list A) e p2 : NoDup (p1 ++ e :: p2) ->
  NoDup (p1 ++ p2) /\ (e ∉ p1 ++ p2) /\ forall x, x ∈ p1 ++ p2 <-> x ∈ p1 ++ e :: p2 /\ x <> e.
Proof.
  intros Hnd. assert (e :: (p1 ++ p2) ≡ₚ p1 ++ e :: p2) as Hp by apply Permutation_middle.
  rewrite <- Hp in Hnd. apply NoDup_cons in Hnd as [Hne Hnd]. split; [done|]. split; [done|].
  intros x. rewrite <- Hp, elem_of_cons. split; [|naive_solver]. intros Hx. split; [by right|]. by intros ->.
Qed.

Lemma slab_drop_pend c ps used p1 a x p2 :
  slab_inv c ps used (p1 ++ (a, x) :: p2) -> (forall sp, pages c !! a = Some sp -> sp_owner sp <> -2) ->
  slab_inv c ps used (p1 ++ p2).
Proof using P H.
  intros [I1 I2 I3 I4 I5 I6 I7 I8 I9 I10] Hno. destruct (pend_drop _ _ _ I10) as (Hnd & Hni & Hel). split; try done.
  - intros b sp Hb. destruct (I7 b sp Hb) as [?|[?|[Ho Hc]]]; [by left|by right; left|]. right. right. split; [done|].
    assert (b <> a) as Hne by (intros ->; by apply (Hno sp)).
    destruct Hc as [[? [o Hin]]|[? Hin]]; [left|right]; (split; [done|]); [exists o|]; apply Hel; (split; [done|congruence]).
  - intros b [Hb _]%Hel. by apply I8.
  - intros b o [Hb _]%Hel. by apply I9.
Qed.

Lemma alloc_publish_spec c ps used p1 a o p2 :
  slab_inv c ps used (p1 ++ (a, Some o) :: p2) ->
  exists c', alloc_publish c a = Some c' /\ same_params c c' /\ slab_inv c' ps used (p1 ++ p2).
Proof using P H.
  intros HI. destruct (pend_drop _ _ _ (si_nodup _ _ _ _ HI)) as (Hnd & Hni & Hel).
  destruct (si_pend _ _ _ _ HI a o) as [Hb Hu]; [apply elem_of_app; right; constructor|].
  destruct (ob_home _ _ _ (si_objs _ _ _ _ HI) o Hu) as (sp & Ha & Hs). rewrite Hb in Ha.
  pose proof (ob_page _ _ _ (si_objs _ _ _ _ HI) a sp Ha) as Hp. pose proof (used_count _ _ _ _ _ Hp Hs Hu) as Hpos.
  unfold alloc_publish. rewrite Ha. cbn [mbind option_bind]. destruct (Z.eqb_spec (sp_owner sp) (-2)) as [Eo|Eo].
  - eexists. split; [done|]. split; [done|].
    assert (inuse sp = obj_count sp) as Efull.
    { destruct (si_owner _ _ _ _ HI a sp Ha) as [?|[?|[_ [[? _]|[? _]]]]]; lia. }
    assert (where_is c a = Some Limbo) as Hw by (unfold where_is; rewrite Ha; unfold loc; simpl; by rewrite Eo).
    assert (loc (with_owner (-1) sp) = Full) as Hl'.
    { unfold loc. simpl. destruct (Z.eqb_spec (inuse sp) 0); [lia|]. by destruct (Z.eqb_spec (inuse sp) (obj_count sp)). }
    eapply (slab_update c _ ps used used _ _ a (with_owner (-1) sp)); [exact HI|done| |done| | |..].
    + apply (si_held _ _ _ _ HI). by rewrite Ha.
    + eapply relisted_intro; [apply HI|exact Hw|by unfold where_is; simpl; rewrite lookup_insert_eq; simpl; rewrite Hl'|
        intros b Hne; unfold where_is; simpl; by rewrite lookup_insert_ne|..]; lists.
    + eapply objs_same; [apply HI|done|done].
    + by left.
    + intros b x Hne. rewrite Hel. naive_solver.
    + done.
    + intros [Hin _]%Hel. destruct (si_empty _ _ _ _ HI a Hin) as (? & ? & ? & ?). simplify_eq. lia.
    + intros b x [Hin _]%Hel. by apply (si_pend _ _ _ _ HI).
  - exists c. split; [done|]. split; [done|]. eapply slab_drop_pend; [exact HI|]. intros sp' Ha'. by simplify_eq.
Qed.

(** Only the page source, the colour or the page count changes. *)
Lemma slab_source c ps ps' used pend :
  slab_inv c ps used pend -> source_ok ps' -> (forall i, on_cpu ps' i <-> on_cpu ps i) -> (forall a, held ps a -> held ps' a) ->
  slab_inv c ps' used pend.
Proof using P H.
  intros [I1 I2 I3 I4 I5 I6 I7 I8 I9 I10] Hok Hcpu Hh. split; try done.
  - intros i Hi. by apply Hcpu, I3.
  - intros a Ha. by apply Hh, I4.
Qed.
Lemma slab_counters c ps used pend n t :
  slab_inv c ps used pend -> 0 <= n <= colour c -> slab_inv (set_total (set_colour_next c n) t) ps used pend.
Proof using P H. intros [[A1 A2 A3 A4 A5] I2 I3 I4 I5 I6 I7 I8 I9 I10] Hn. by split. Qed.

Definition same_sizes (c c' : cache) : Prop :=
  obj_size c' = obj_size c /\ align c' = align c /\ pg_1_num c' = pg_1_num c /\ colour c' = colour c /\
  length (cpus c') = length (cpus c).
Lemma params_sizes c c' : same_params c c' -> same_sizes c c'.
Proof. unfold same_params, same_sizes. tauto. Qed.
Lemma same_sizes_trans c1 c2 c3 : same_sizes c1 c2 -> same_sizes c2 c3 -> same_sizes c1 c3.
Proof. unfold same_sizes. intuition congruence. Qed.

(** A page that is not between lists changes, and nobody has to list it. *)
Lemma slab_place c c' ps used used' pend a sp' :
  slab_inv c ps used pend -> same_params c c' -> held ps a -> pages c' = <[a := sp']> (pages c) -> relisted c c' a ->
  objs_ok (obj_size c) (<[a := sp']> (pages c)) used' -> owner_ok (zlen (cpus c)) pend a sp' ->
  where_is c a <> Some Limbo -> (forall b o, (b, Some o) ∈ pend -> o ∈ used') -> slab_inv c' ps used' pend.
Proof using P H.
  intros HI Hsp Hh Epg Hrl Hob Hown Hw Hu. eapply slab_update; try done; [apply HI| |].
  - intros Hin. destruct (si_empty _ _ _ _ HI a Hin) as (s0 & Hs0 & Hs1 & _). exfalso. apply Hw.
    unfold where_is. rewrite Hs0. unfold loc. simpl. by rewrite Hs1.
  - intros b o Hin. split; [by apply (si_pend _ _ _ _ HI)|by eapply Hu].
Qed.

(** Where an updated page is. *)
Lemma where_upd c c' a sp' b : pages c' = <[a := sp']> (pages c) ->
  where_is c' b = if decide (b = a) then Some (loc sp') else where_is c b.
Proof. intros E. unfold where_is. rewrite E. goal_decide; [subst; by rewrite lookup_insert_eq|by rewrite lookup_insert_ne]. Qed.

(** Taking an object from the page [a], which is on no list any more. *)
Lemma alloc_from_spec c0 c1 ps used pend cpu a sp :
  slab_inv c0 ps used pend -> 0 <= cpu < zlen (cpus c0) -> same_params c0 c1 -> cpus c1 = cpus c0 -> full c1 = full c0 ->
  empty c1 = empty c0 -> partial c1 = slab_list_remove (partial c0) a -> pages c1 = <[a := sp]> (pages c0) ->
  held ps a -> objs_ok (obj_size c0) (<[a := sp]> (pages c0)) used -> freelist sp <> [] ->
  where_is c0 a = Some Partial \/ where_is c0 a = None ->
  exists c' o, alloc_from c1 cpu a = Some (c', o) /\ same_params c0 c' /\ (o ∉ used) /\ slab_inv c' ps (o :: used) pend.
Proof using P H.
  intros HI Hc (S1 & S2 & S3 & S4 & S5 & S6) Ec Efu Eem Epa Epg Hh Hob Hfl Hw. unfold alloc_from.
  rewrite Epg, lookup_insert_eq, Ec. cbn [mbind option_bind].
  destruct (cpu_list c0 cpu Hc) as (pc & -> & Epc). cbn [mbind option_bind].
  destruct (freelist sp) as [|o fl] eqn:Ef; [done|]. cbv zeta. cbn [inuse fst snd].
  assert (a ∉ pc.1) as Hni by (rewrite Epc, (proj2 (si_listed _ _ _ _ HI (OnCpu cpu) ltac:(done))); naive_solver).
  assert (Hpart : where_is c0 a <> Some Partial -> slab_list_remove (partial c0) a = partial c0)
    by (intros Hn; apply (listed_absent c0 a Partial); [apply HI|done|done]).
  rewrite !set_cpu_eq by (by rewrite Ec). cbn [mbind option_bind].
  set (sp1 := SPage _ _ cpu _ _). set (sp' := if u32 (inuse sp + 1) =? obj_count sp then with_owner (-1) sp1 else sp1).
  destruct (objs_pop _ _ _ a sp sp' o fl Hob (lookup_insert_eq _ _ _) Ef) as (Hno & Hb & Hr & Hob');
    [unfold sp'; by destruct (_ =? _)..|]. rewrite insert_insert_eq in Hob'.
  match goal with |- exists c' o, ?e = _ /\ _ => assert (exists c', e = Some (c', o) /\ same_params c0 c' /\
    pages c' = <[a := sp']> (pages c0) /\ relisted c0 c' a) as (c' & -> & Hsp & Epg' & Hrl) end.
  { unfold sp' in *. destruct (Z.eqb_spec (u32 (inuse sp + 1)) (obj_count sp)) as [E|E]; eexists; (split; [done|]);
      (split; [repeat split; simpl; try done; by rewrite length_insert, Ec|]); (split; [simpl; by rewrite Epg, insert_insert_eq|]).
    - assert (loc (with_owner (-1) sp1) = Full) as Hl'.
      { unfold loc. simpl in *. destruct (Z.eqb_spec (u32 (inuse sp + 1)) 0) as [E0|]; [lia|].
        by destruct (Z.eqb_spec (u32 (inuse sp + 1)) (obj_count sp)). }
      eapply relisted_intro; [apply HI|done|unfold where_is; simpl; rewrite lookup_insert_eq; simpl; by rewrite Hl'|
        intros b Hne; unfold where_is; simpl; by rewrite Epg, insert_insert_eq, lookup_insert_ne|..]; lists;
        rewrite ?Ec, ?Efu, ?Eem, ?Epa, ?cpu_list_set by done; try done; try (by apply Hpart);
        repeat case_decide; simplify_eq; simpl; rewrite ?remove_insert by done; first [by rewrite ?Epc | destruct Hw; congruence].
    - assert (loc sp1 = OnCpu cpu) as Hl' by (unfold loc; simpl; by destruct (Z.leb_spec 0 cpu); [|lia]).
      eapply relisted_intro; [apply HI|done|unfold where_is; simpl; rewrite lookup_insert_eq; simpl; by rewrite Hl'|
        intros b Hne; unfold where_is; simpl; by rewrite Epg, insert_insert_eq, lookup_insert_ne|..]; lists;
        rewrite ?Ec, ?Efu, ?Eem, ?Epa, ?cpu_list_set by done; try done; try (by apply Hpart);
        repeat case_decide; simplify_eq; simpl; first [by rewrite ?Epc | destruct Hw; congruence]. }
  exists c', o. split; [done|]. split; [done|]. split; [done|].
  eapply (slab_place c0); [exact HI|done|done|done|done|done| |naive_solver|].
  - unfold sp' in *. destruct (Z.eqb_spec (u32 (inuse sp + 1)) (obj_count sp)); [by left|]. right. left. simpl in *. lia.
  - intros b o' Hin. constructor. by apply (si_pend _ _ _ _ HI) in Hin as [_ ?].
Qed.

Lemma mod_pow2_4096 x k : 0 <= k <= 12 -> x mod 4096 = 0 -> x mod 2 ^ k = 0.
Proof.
  intros Hk Hx. pose proof (Z.div_mod x 4096 ltac:(lia)) as Hd. rewrite Hd, Hx, Z.add_0_r.
  replace 4096 with (2 ^ (12 - k) * 2 ^ k) by (rewrite <- Z.pow_add_r by lia; by replace (12 - k + k) with 12 by lia).
  set (q := x / _). replace (2 ^ (12 - k) * 2 ^ k * q) with (2 ^ (12 - k) * q * 2 ^ k) by lia. apply Z.mod_mul. lia.
Qed.

(** The objects of a new page: at least [pg_1_num] of them, behind the header and
    inside the page. *)
Lemma new_page_spec c a :
  params_ok c -> 0 < a -> a mod 4096 = 0 -> a + 8192 <= 2 ^ 32 ->
  page_ok (obj_size c) [] a (slab_page_init c a) /\ pg_1_num c <= obj_count (slab_page_init c a) /\
  inuse (slab_page_init c a) = 0.
Proof.
  intros [(k & Hk & Ek) [Hs Hsm] Hn [Hc0 Hc] Hx] Ha Hm Hb. unfold slab_page_init, SLAB_HDR, CACHELINE, PAGE in *. cbv zeta. rewrite Ek in *.
  destruct (align_up_spec 32 k ltac:(lia) Hk ltac:(lia)) as [Hu _].
  assert (0 <= pg_1_num c * obj_size c) by nia.
  rewrite (u32_small (a + 32)), (u32_small (colour_next c * 64)), !u32_small by lia.
  set (x := a + 32 + colour_next c * 64). destruct (align_up_spec x k ltac:(lia) Hk ltac:(lia)) as [Hx1 _].
  assert (align_up x (2 ^ k) <= a + 4096 - pg_1_num c * obj_size c) as Hx2.
  { apply align_up_least; try lia. rewrite Zminus_mod, (mod_pow2_4096 (a + 4096)) by (done || (rewrite Z.add_mod, Hm by lia; done)).
    rewrite (Z.mul_mod (pg_1_num c)), Hsm, Z.mul_0_r by lia. rewrite !Z.mod_0_l by lia. done. }
  set (start := align_up x (2 ^ k)) in *. set (sz := obj_size c) in *. set (num := pg_1_num c) in *.
  pose proof (Z.div_mod (a + 4096 - start) sz ltac:(lia)) as Hd. pose proof (Z.mod_pos_bound (a + 4096 - start) sz ltac:(lia)).
  set (n := (a + 4096 - start) / sz) in *. assert (num <= n) by (apply Z.div_le_lower_bound; lia).
  assert (n <= 4096) by nia.
  rewrite (carve_objs_spec sz (a + 4096) (Z.to_nat n)) by (lia || nia). rewrite app_nil_r, Z2Nat.id by lia.
  assert (zlen (reverse ((fun i => start + i * sz) <$> seqZ 0 n)) = n) as En by (rewrite length_reverse, length_fmap, length_seqZ; lia).
  rewrite En. cbn [obj_count inuse]. split; [|lia].
  assert (Hel : forall o, o ∈ reverse ((fun i => start + i * sz) <$> seqZ 0 n) <->
    slot sz (SPage n start (-1) 0 (reverse ((fun i => start + i * sz) <$> seqZ 0 n))) o).
  { intros o. rewrite elem_of_reverse. exact (elem_slots sz (SPage n start (-1) 0 _) o). }
  split; cbn [obj_start obj_count freelist inuse]; try done.
  - nia.
  - rewrite reverse_Permutation. apply NoDup_fmap_2; [|apply NoDup_seqZ]. intros i j Hij. nia.
  - intros o. apply Hel.
  - intros o Ho. split; [intros _; apply not_elem_of_nil|]. intros _. by apply Hel.
  - lia.
Qed.

Lemma colour_step_range c : params_ok c -> 0 <= colour_step c <= colour c.
Proof.
  intros Hpa. pose proof (pa_next _ Hpa). destruct (pa_colour _ Hpa) as [? Hcl]. destruct (pa_align _ Hpa) as (k & Hk & Ek).
  destruct (align_up_spec 32 k ltac:(lia) Hk ltac:(lia)) as [Hu _]. unfold SLAB_HDR, CACHELINE, PAGE in Hcl. rewrite Ek in Hcl.
  assert (0 <= pg_1_num c * obj_size c) by (pose proof (pa_num _ Hpa); pose proof (pa_size _ Hpa); nia).
  unfold colour_step. rewrite !u32_small by lia. pose proof (Z.mod_pos_bound (colour_next c + 1) (colour c + 1) ltac:(lia)). lia.
Qed.

Lemma alloc_slow_spec self c ps used pend cpu :
  slab_inv c ps used pend -> 0 <= cpu < zlen (cpus c) ->
  exists c' ps' r, alloc_slow self c ps cpu = Some (c', ps', r) /\ same_sizes c c' /\
    match r with
    | None => slab_inv c' ps' used pend /\ partial c = [] /\ page_malloc ps cpu = Some (ps', None)
    | Some o => (o ∉ used) /\ slab_inv c' ps' (o :: used) pend
    end.
Proof using P H H0.
  intros HI Hc. unfold alloc_slow, take_page. destruct (partial c) as [|a l] eqn:Ep.
  - unfold slab_page_alloc. destruct (page_malloc_law ps cpu (si_src _ _ _ _ HI) (si_cpus _ _ _ _ HI cpu Hc))
      as (ps1 & r & Em & Hok1 & Hcp1 & Hr). rewrite Em. cbn [mbind option_bind]. destruct r as [a|]; cbn [mbind option_bind].
    2: { exists c, ps1, None. split; [done|]. split; [done|]. split; [|done]. eapply slab_source; try done. intros b. by apply Hr. }
    destruct Hr as [Hnh Hhe]. assert (held ps1 a) as Hh1 by (apply Hhe; by right).
    destruct (page_set_owner_law ps1 a self TYPE_SLAB_OBJ Hok1 Hh1) as (ps2 & -> & Hok2 & Hcp2 & Hh2). cbn [mbind option_bind].
    destruct (held_page ps2 a Hok2) as (P1 & P2 & P3); [by apply Hh2|].
    pose proof (si_params _ _ _ _ HI) as Hpa.
    pose proof (colour_step_range c Hpa) as Hn.
    assert (slab_inv c ps2 used pend) as HI2.
    { eapply slab_source; [exact HI|done| |].
      - intros i. by rewrite Hcp2, Hcp1.
      - intros b Hb. apply Hh2, Hhe. by left. }
    destruct (new_page_spec c a Hpa P1 P2 P3) as (Hpg & Hnum & Hidle). set (sp := slab_page_init c a) in *. clearbody sp.
    set (n := colour_step c) in *. clearbody n. set (t := u32 (total _ + 1)). clearbody t.
    assert (pages c !! a = None) as Hna.
    { apply eq_None_not_Some. intros Hs. by apply Hnh, (si_held _ _ _ _ HI). }
    destruct (alloc_from_spec (set_total (set_colour_next c n) t) (set_total (set_page (set_colour_next c n) a sp) t)
      ps2 used pend cpu a sp) as (c' & o & -> & Hsp & Hno & HI'); try done.
    + by apply slab_counters.
    + simpl. by rewrite Ep.
    + by apply Hh2.
    + apply objs_new; [apply HI|done|done].
    + intros E. pose proof (pa_num _ Hpa). pose proof (po_inuse _ _ _ _ Hpg) as Hin. rewrite E in Hin. simpl in Hin.
      lia.
    + right. unfold where_is. simpl. by rewrite Hna.
    + cbn [mbind option_bind]. exists c', ps2, (Some o). split; [done|]. split; [|done]. by apply params_sizes in Hsp.
  - cbn [mbind option_bind].
    destruct (listed_page c ps used pend Partial a HI) as (sp & Ha & Hw & Hloc); [done|simpl; rewrite Ep; constructor|].
    pose proof (loc_owner _ _ _ _ (si_owner _ _ _ _ HI a sp Ha)) as Hlo. rewrite Hloc in Hlo. destruct Hlo as (Eo & Hu0 & Hu1).
    pose proof (ob_page _ _ _ (si_objs _ _ _ _ HI) a sp Ha) as Hp.
    destruct (alloc_from_spec c (set_partial c (slab_list_remove (a :: l) a)) ps used pend cpu a sp) as (c' & o & E & Hsp & Hno & HI'); try done.
    + simpl. by rewrite Ep.
    + simpl. by rewrite insert_id.
    + apply (si_held _ _ _ _ HI). by rewrite Ha.
    + rewrite insert_id by done. apply HI.
    + intros E. pose proof (po_inuse _ _ _ _ Hp) as Hin. rewrite E in Hin. simpl in Hin. lia.
    + by left.
    + rewrite E. cbn [mbind option_bind]. exists c', ps, (Some o). split; [done|]. split; [|done]. by apply params_sizes.
Qed.

(** Giving an empty page back to the source. *)
Lemma slab_page_free_spec c ps used pend cpu a :
  slab_inv c ps used pend -> 0 <= cpu < zlen (cpus c) -> a ∈ empty c ->
  exists c' ps', slab_page_free (set_empty c (slab_list_remove (empty c) a)) ps cpu a = Some (c', ps') /\
    same_params c c' /\ slab_inv c' ps' used pend.
Proof using P H H0.
  intros HI Hc Ha. destruct (listed_page c ps used pend Empty a HI) as (sp & Hsp & Hw & Hloc); [done|done|].
  pose proof (loc_owner _ _ _ _ (si_owner _ _ _ _ HI a sp Hsp)) as Hlo. rewrite Hloc in Hlo. destruct Hlo as [Eo Eu].
  assert (held ps a) as Hh by (apply (si_held _ _ _ _ HI); by rewrite Hsp).
  unfold slab_page_free. destruct (page_set_owner_law ps a 0 0 (si_src _ _ _ _ HI) Hh) as (ps1 & -> & Hok1 & Hcp1 & Hh1).
  cbn [mbind option_bind]. destruct (page_free_law ps1 cpu a Hok1) as (ps2 & -> & Hok2 & Hcp2 & Hh2);
    [by apply Hcp1, (si_cpus _ _ _ _ HI)|by apply Hh1|].
  cbn [mbind option_bind]. eexists _, ps2. split; [done|]. split; [done|].
  pose proof HI as [I1 I2 I3 I4 I5 I6 I7 I8 I9 I10]. split; [by destruct I1|done| | | | | | |done|done].
  - intros i Hi. by apply Hcp2, Hcp1, I3.
  - intros b (sb & Hb). cbn [set_total set_pages set_empty pages] in Hb. apply lookup_delete_Some in Hb as [Hne Hb].
    apply Hh2. split; [|done]. apply Hh1, I4. by rewrite Hb.
  - by eapply objs_delete.
  - eapply relisted_listed; [exact I6|].
    eapply relisted_intro; [exact I6|exact Hw|by unfold where_is; simpl; rewrite lookup_delete_eq|
      intros b Hne; unfold where_is; simpl; by rewrite lookup_delete_ne|..]; lists.
  - intros b sb Hb. cbn [set_total set_pages set_empty pages] in Hb. apply lookup_delete_Some in Hb as [Hne Hb]. by apply I7.
  - intros b Hb. destruct (I8 b Hb) as (sb & Hsb & Hob & Hub). exists sb. split; [|done].
    cbn [set_total set_pages set_empty pages]. rewrite lookup_delete_ne; [done|]. intros ->. simplify_eq. lia.
Qed.

Lemma reclaim_spec fuel cpu : forall c ps used pend,
  slab_inv c ps used pend -> 0 <= cpu < zlen (cpus c) ->
  exists c' ps', slab_reclaim_empty fuel c ps cpu = Some (c', ps') /\ same_sizes c c' /\ slab_inv c' ps' used pend.
Proof using P H H0.
  induction fuel as [|fuel IH]; intros c ps used pend HI Hc; [by exists c, ps|]. cbn [slab_reclaim_empty].
  destruct (empty c) as [|a l] eqn:Ee; [by exists c, ps|]. destruct (_ && _); [|by exists c, ps]. cbv zeta.
  destruct (slab_page_free_spec c ps used pend cpu a HI Hc) as (c1 & ps1 & E & Hsp & HI1); [rewrite Ee; constructor|].
  rewrite Ee in E. rewrite E. cbn [mbind option_bind]. pose proof Hsp as (_ & _ & _ & _ & _ & Hlen).
  destruct (IH c1 ps1 used pend HI1) as (c2 & ps2 & -> & Hsp2 & HI2); [by rewrite Hlen|].
  exists c2, ps2. split; [done|]. split; [|done]. eapply same_sizes_trans; [by apply params_sizes|done].
Qed.

(** Listing the page [a] as empty, and reclaiming. *)
Lemma insert_empty_spec c c1 ps used used' pend pend' cpu a sp' :
  slab_inv c ps used pend -> 0 <= cpu < zlen (cpus c) -> same_params c c1 -> held ps a ->
  pages c1 = <[a := sp']> (pages c) -> sp_owner sp' = -1 -> inuse sp' = 0 -> empty c1 = empty c ->
  where_is c a <> Some Empty ->
  (forall L, L <> Limbo -> L <> Empty -> list_at c1 L = if decide (where_is c a = Some L) then slab_list_remove (list_at c L) a else list_at c L) ->
  objs_ok (obj_size c) (<[a := sp']> (pages c)) used' ->
  (forall b x, b <> a -> (b, x) ∈ pend' <-> (b, x) ∈ pend) -> NoDup pend' -> ((a, None) ∉ pend') ->
  (forall b o, (b, Some o) ∈ pend' -> page_base o = b /\ o ∈ used') ->
  exists c' ps', insert_empty c1 ps cpu a = Some (c', ps') /\ same_sizes c c' /\ slab_inv c' ps' used' pend'.
Proof using P H H0.
  intros HI Hc Hsp Hh Epg Eo Eu Ee Hw Hlists Hob Hpe Hnd Hnn Hso. unfold insert_empty, reclaim.
  assert (loc sp' = Empty) as Hl by (unfold loc; rewrite Eo, Eu; done).
  assert (slab_inv (set_empty c1 (slab_list_insert (empty c1) a)) ps used' pend') as HI1.
  { eapply (slab_update c _ ps used used' pend pend' a sp'); try done.
    - eapply relisted_intro; [apply HI|done|unfold where_is; simpl; rewrite Epg, lookup_insert_eq; simpl; by rewrite Hl|
        intros b Hne; unfold where_is; simpl; by rewrite Epg, lookup_insert_ne|..]; intros L HL Hx Hy;
        (destruct (decide (L = Empty)) as [->|HE]; [try congruence; simpl; by rewrite Ee|]); [congruence|congruence| |];
        transitivity (list_at c1 L); try (by destruct L); rewrite Hlists by done; repeat case_decide; done.
    - by left. }
  destruct (reclaim_spec (length (empty (set_empty c1 (slab_list_insert (empty c1) a)))) cpu _ ps used' pend' HI1) as (c2 & ps2 & -> & Hs & HI2).
  - destruct Hsp as (_ & _ & _ & _ & _ & E). simpl. by rewrite E.
  - exists c2, ps2. split; [done|]. split; [|done]. eapply same_sizes_trans; [by apply params_sizes|done].
Qed.

(** What the release of an object in use starts from. *)
Lemma used_page c ps used pend o :
  slab_inv c ps (o :: used) pend -> (forall b, (b, Some o) ∉ pend) ->
  exists sp, pages c !! page_base o = Some sp /\ held ps (page_base o) /\
    inuse (push_object sp o) = inuse sp - 1 /\ 0 < inuse sp <= obj_count sp /\
    (forall w, objs_ok (obj_size c) (<[page_base o := with_owner w (push_object sp o)]> (pages c)) used) /\
    ((page_base o, None) ∉ pend) /\ (forall b x, (b, Some x) ∈ pend -> page_base x = b /\ x ∈ used).
Proof using P H.
  intros HI Hno. pose proof (si_objs _ _ _ _ HI) as Hob. destruct (ob_home _ _ _ Hob o) as (sp & Ha & Hs); [constructor|].
  exists sp. destruct (objs_push _ _ used (page_base o) sp o Hob eq_refl Ha) as (E1 & E2 & E3).
  split; [done|]. split; [apply (si_held _ _ _ _ HI); by rewrite Ha|]. split; [done|]. split; [done|]. split_and!.
  - intros w. rewrite <- (insert_insert_eq (pages c) (page_base o) (with_owner w (push_object sp o)) (push_object sp o)).
    eapply objs_same; [exact E3|apply lookup_insert_eq|done].
  - intros Hin. destruct (si_empty _ _ _ _ HI _ Hin) as (sp' & Ha' & _ & ?). simplify_eq. lia.
  - intros b x Hin. destruct (si_pend _ _ _ _ HI b x Hin) as [Hb Hx]. split; [done|].
    apply elem_of_cons in Hx as [->|Hx]; [|done]. by apply Hno in Hin.
Qed.

Lemma with_owner_same sp : with_owner (sp_owner sp) sp = sp.
Proof. by destruct sp. Qed.

Lemma free_fast_spec c ps used pend cpu o :
  slab_inv c ps (o :: used) pend -> (forall b, (b, Some o) ∉ pend) -> 0 <= cpu < zlen (cpus c) ->
  exists c' r, free_fast c cpu o = Some (c', r) /\ same_params c c' /\
    match r with
    | None => c' = c
    | Some None => slab_inv c' ps used pend
    | Some (Some a) => slab_inv c' ps used ((a, None) :: pend)
    end.
Proof using P H.
  intros HI Hno Hc. destruct (used_page _ _ _ _ _ HI Hno) as (sp & Ha & Hh & Eu & Hu & Hob & Hnn & Hso).
  unfold free_fast. cbv zeta. set (a := page_base o) in *. rewrite Ha. cbn [mbind option_bind].
  destruct (Z.eqb_spec (sp_owner sp) cpu) as [Eo|Eo]; [|by exists c, None].
  destruct (cpu_list c cpu Hc) as (pc & -> & Epc). cbn [mbind option_bind]. rewrite Eu.
  assert (where_is c a = Some (OnCpu cpu)) as Hw.
  { unfold where_is. rewrite Ha. unfold loc. simpl. rewrite Eo. by destruct (Z.leb_spec 0 cpu); [|lia]. }
  destruct (Z.eqb_spec (inuse sp - 1) 0) as [Ez|Ez].
  - rewrite set_cpu_eq by done. cbn [mbind option_bind]. eexists _, (Some (Some a)). split; [done|].
    match goal with |- same_params _ ?c' /\ _ => assert (same_params c c') as Hsp by (repeat split; simpl; apply length_insert) end.
    split; [exact Hsp|].
    eapply slab_update; [exact HI|exact Hsp|done|done| |apply Hob|..].
    + eapply relisted_intro; [apply HI|exact Hw|by rewrite where_set, decide_True|intros b Hne; by rewrite where_set, decide_False|..];
        lists. by rewrite Epc.
    + right. right. split; [done|]. right. split; [simpl in *; lia|constructor].
    + intros b x Hne. rewrite elem_of_cons. naive_solver.
    + constructor; [done|apply HI].
    + intros _. simpl in *. split; [done|lia].
    + intros b x Hin. apply elem_of_cons in Hin as [?|Hin]; [done|]. by apply Hso.
  - eexists _, (Some None). split; [done|]. split; [done|].
    specialize (Hob (sp_owner sp)). change (sp_owner sp) with (sp_owner (push_object sp o)) in Hob at 1.
    rewrite with_owner_same in Hob.
    assert (loc (push_object sp o) = OnCpu cpu) as Hl' by (unfold loc; simpl; rewrite Eo; by destruct (Z.leb_spec 0 cpu); [|lia]).
    eapply (slab_place c); [exact HI|done|exact Hh|done| |exact Hob| |congruence|by intros b x Hin; apply (Hso b x)].
    + eapply relisted_intro; [apply HI|exact Hw|by rewrite where_set, decide_True, Hl'|intros b Hne; by rewrite where_set, decide_False|..]; lists.
    + right. left. pose proof (loc_owner _ _ _ _ (si_owner _ _ _ _ HI a sp Ha)) as Hlo.
      replace (loc sp) with (OnCpu cpu) in Hlo by (unfold where_is in Hw; rewrite Ha in Hw; simpl in Hw; congruence).
      change (obj_count (push_object sp o)) with (obj_count sp). change (sp_owner (push_object sp o)) with (sp_owner sp). lia.
Qed.

Lemma free_publish_spec c ps used p1 a p2 cpu :
  slab_inv c ps used (p1 ++ (a, None) :: p2) -> 0 <= cpu < zlen (cpus c) ->
  exists c' ps', free_publish c ps cpu a = Some (c', ps') /\ same_sizes c c' /\ slab_inv c' ps' used (p1 ++ p2).
Proof using P H H0.
  intros HI Hc. destruct (pend_drop _ _ _ (si_nodup _ _ _ _ HI)) as (Hnd & Hni & Hel).
  destruct (si_empty _ _ _ _ HI a) as (sp & Ha & Eo & Eu); [apply elem_of_app; right; constructor|].
  unfold free_publish. rewrite Ha. cbn [mbind option_bind]. rewrite Eo. change (-2 =? -2) with true. cbv iota.
  assert (where_is c a = Some Limbo) as Hw by (unfold where_is; rewrite Ha; unfold loc; simpl; by rewrite Eo).
  eapply (insert_empty_spec c _ ps used used _ _ cpu a (with_owner (-1) sp)); try done.
  - apply (si_held _ _ _ _ HI). by rewrite Ha.
  - by rewrite Hw.
  - intros L HL _. rewrite decide_False by congruence. by destruct L.
  - eapply objs_same; [apply HI|done|done].
  - intros b x Hne. rewrite Hel. naive_solver.
  - intros b x [Hin _]%Hel. by apply (si_pend _ _ _ _ HI).
Qed.

Lemma where_page c a sp : pages c !! a = Some sp -> where_is c a = Some (loc sp).
Proof. intros Ha. unfold where_is. by rewrite Ha. Qed.

Lemma free_remote_spec c ps used pend cpu o sp :
  slab_inv c ps (o :: used) pend -> (forall b, (b, Some o) ∉ pend) -> 0 <= cpu < zlen (cpus c) ->
  pages c !! page_base o = Some sp -> 0 <= sp_owner sp ->
  exists c' ps', free_remote c ps cpu o (sp_owner sp) sp = Some (c', ps') /\ same_sizes c c' /\ slab_inv c' ps' used pend.
Proof using P H H0.
  intros HI Hno Hc Ha Ho. destruct (used_page _ _ _ _ _ HI Hno) as (sp' & Ha' & Hh & Eu & Hu & Hob & Hnn & Hso). simplify_eq.
  unfold free_remote. cbv zeta. set (a := page_base o) in *. set (w := sp_owner sp) in *.
  assert (loc sp = OnCpu w) as Hl by (unfold loc; fold w; by destruct (Z.leb_spec 0 w); [|lia]).
  pose proof (loc_owner _ _ _ _ (si_owner _ _ _ _ HI a sp Ha)) as Hlo. rewrite Hl in Hlo. destruct Hlo as (_ & Hw & Hu').
  pose proof (where_page c a sp Ha) as Hwh. rewrite Hl in Hwh.
  destruct (cpu_list c w Hw) as (pc & -> & Epc). cbn [mbind option_bind]. rewrite Eu.
  destruct (Z.eqb_spec (inuse sp - 1) 0) as [Ez|Ez].
  - rewrite set_cpu_eq by done. cbn [mbind option_bind].
    eapply (insert_empty_spec c _ ps (o :: used) used pend pend cpu a (with_owner (-1) (push_object sp o))); try done.
    + repeat split; simpl; apply length_insert.
    + simpl in *. lia.
    + by rewrite Hwh.
    + rewrite Hwh. intros L HL HE. destruct L; simpl; rewrite ?cpu_list_set by done; repeat case_decide; simplify_eq; try done.
      by rewrite Epc.
    + apply HI.
  - eexists _, ps. split; [done|]. split; [done|]. specialize (Hob w). change w with (sp_owner (push_object sp o)) in Hob.
    rewrite with_owner_same in Hob.
    assert (loc (push_object sp o) = OnCpu w) as Hl' by (unfold loc; simpl; fold w; by destruct (Z.leb_spec 0 w); [|lia]).
    eapply (slab_place c); [exact HI|done|exact Hh|done| |exact Hob| |congruence|by intros b x Hin; apply (Hso b x)].
    + eapply relisted_intro; [apply HI|exact Hwh|by rewrite where_set, decide_True, Hl'|intros b Hne; by rewrite where_set, decide_False|..]; lists.
    + right. left. change (obj_count (push_object sp o)) with (obj_count sp). change (sp_owner (push_object sp o)) with w. lia.
Qed.

Lemma free_global_spec c ps used pend cpu o sp :
  slab_inv c ps (o :: used) pend -> (forall b, (b, Some o) ∉ pend) -> 0 <= cpu < zlen (cpus c) ->
  pages c !! page_base o = Some sp -> sp_owner sp < 0 ->
  exists c' ps', free_global c ps cpu o (sp_owner sp) sp = Some (c', ps') /\ same_sizes c c' /\ slab_inv c' ps' used pend.
Proof using P H H0.
  intros HI Hno Hc Ha Ho. destruct (used_page _ _ _ _ _ HI Hno) as (sp' & Ha' & Hh & Eu & Hu & Hob & Hnn & Hso). simplify_eq.
  unfold free_global. cbv zeta. set (a := page_base o) in *. rewrite Eu. pose proof (where_page c a sp Ha) as Hwh.
  specialize (Hob (-1)).
  assert (sp_owner sp <> -2 -> with_owner (-1) (push_object sp o) = push_object sp o) as Hsame.
  { intros E2. replace (-1) with (sp_owner (push_object sp o)); [apply with_owner_same|].
    simpl. pose proof (si_owner _ _ _ _ HI a sp Ha) as Hown. unfold owner_ok in Hown. lia. }
  assert (Hpart : inuse sp - 1 <> 0 -> loc (with_owner (-1) (push_object sp o)) = Partial).
  { intros Hz. unfold loc. cbn [with_owner sp_owner inuse obj_count]. rewrite Eu. change (0 <=? -1) with false. change (-1 =? -2) with false.
    cbv iota. destruct (Z.eqb_spec (inuse sp - 1) 0); [done|]. cbn [push_object obj_count]. by destruct (Z.eqb_spec (inuse sp - 1) (obj_count sp)); [lia|]. }
  assert (Hupd : forall c1, same_params c c1 -> pages c1 = <[a := with_owner (-1) (push_object sp o)]> (pages c) ->
    relisted c c1 a -> slab_inv c1 ps used pend).
  { intros c1 Hsp Hpg Hrl. eapply slab_update; try done; [by left|apply HI]. }
  assert (Hemp : forall c1, same_params c c1 -> inuse sp - 1 = 0 -> pages c1 = <[a := with_owner (-1) (push_object sp o)]> (pages c) ->
    empty c1 = empty c -> (forall L, L <> Limbo -> L <> Empty -> list_at c1 L = if decide (Some (loc sp) = Some L) then slab_list_remove (list_at c L) a else list_at c L) ->
    exists c' ps', insert_empty c1 ps cpu a = Some (c', ps') /\ same_sizes c c' /\ slab_inv c' ps' used pend).
  { intros c1 Hsp Hz Hpg He Hls. eapply (insert_empty_spec c c1 ps (o :: used) used pend pend cpu a (with_owner (-1) (push_object sp o))); try done.
    - cbn [with_owner inuse]. lia.
    - rewrite Hwh. intros [= El]. pose proof (loc_owner _ _ _ _ (si_owner _ _ _ _ HI a sp Ha)) as Hlo. rewrite El in Hlo. lia.
    - rewrite Hwh. exact Hls.
    - apply HI. }
  assert (Hout : forall c1, pages c1 = <[a := with_owner (-1) (push_object sp o)]> (pages c) -> inuse sp - 1 <> 0 ->
    where_is c1 a = Some Partial /\ forall b, b <> a -> where_is c1 b = where_is c b).
  { intros c1 Hpg Hz. unfold where_is. rewrite Hpg, lookup_insert_eq. simpl. rewrite Hpart by done. split; [done|].
    intros b Hne. by rewrite lookup_insert_ne. }
  destruct (Z.eqb_spec (sp_owner sp) (-2)) as [E2|E2].
  - assert (loc sp = Limbo) as Hl by (unfold loc; by rewrite E2).
    destruct (Z.eqb_spec (inuse sp - 1) 0) as [Ez|Ez].
    + apply Hemp; try done. rewrite Hl. intros L HL HE. rewrite decide_False by congruence. by destruct L.
    + eexists _, ps. split; [done|]. split; [done|]. apply Hupd; [done|done|]. rewrite Hl in Hwh.
      destruct (Hout (set_partial (set_page c a (with_owner (-1) (push_object sp o))) (slab_list_insert (partial c) a)) eq_refl Ez) as [H1 H2].
      eapply relisted_intro; [apply HI|exact Hwh|exact H1|exact H2|..]; lists.
  - rewrite Hsame in * by done.
    assert (loc sp = if inuse sp =? obj_count sp then Full else Partial) as Hl.
    { unfold loc. destruct (Z.leb_spec 0 (sp_owner sp)); [lia|]. destruct (Z.eqb_spec (sp_owner sp) (-2)); [lia|].
      by destruct (Z.eqb_spec (inuse sp) 0); [lia|]. }
    destruct (Z.eqb_spec (inuse sp) (obj_count sp)) as [Ef|Ef]; destruct (Z.eqb_spec (inuse sp - 1) 0) as [Ez|Ez].
    + apply Hemp; try done. rewrite Hl. intros L HL HE. destruct L; repeat case_decide; done.
    + eexists _, ps. split; [done|]. split; [done|]. apply Hupd; [done|done|]. rewrite Hl in Hwh.
      destruct (Hout (set_partial (set_full (set_page c a (push_object sp o)) (slab_list_remove (full c) a)) (slab_list_insert (partial c) a)) eq_refl Ez) as [H1 H2].
      eapply relisted_intro; [apply HI|exact Hwh|exact H1|exact H2|..]; lists.
    + apply Hemp; try done. rewrite Hl. intros L HL HE. destruct L; repeat case_decide; done.
    + eexists _, ps. split; [done|]. split; [done|]. apply Hupd; [done|done|]. rewrite Hl in Hwh.
      destruct (Hout (set_page c a (push_object sp o)) eq_refl Ez) as [H1 H2].
      eapply relisted_intro; [apply HI|exact Hwh|exact H1|exact H2|..]; lists.
Qed.

Lemma free_slow_spec c ps used pend cpu o seen :
  slab_inv c ps (o :: used) pend -> (forall b, (b, Some o) ∉ pend) -> 0 <= cpu < zlen (cpus c) ->
  (forall sp, pages c !! page_base o = Some sp -> seen = sp_owner sp \/ 0 <= seen /\ sp_owner sp < 0) ->
  exists c' ps', free_slow c ps cpu o seen = Some (c', ps') /\ same_sizes c c' /\ slab_inv c' ps' used pend.
Proof using P H H0.
  intros HI Hno Hc Hseen. destruct (used_page _ _ _ _ _ HI Hno) as (sp & Ha & _). unfold free_slow. rewrite Ha. cbn [mbind option_bind].
  specialize (Hseen sp Ha). destruct (Z.leb_spec 0 seen).
  - destruct (Z.eqb_spec (sp_owner sp) seen) as [<-|E]; [by apply (free_remote_spec c ps used pend)|].
    apply (free_global_spec c ps used pend); try done. lia.
  - destruct Hseen as [->|?]; [|lia]. apply (free_global_spec c ps used pend); try done.
Qed.

End steps.

(** ** A new cache *)

Lemma create_spec n size al c :
  0 <= size < 2 ^ 31 -> (0 <= al < 4 \/ exists k, 2 <= k <= 12 /\ al = 2 ^ k) ->
  jlos_memory_slab_cache_create n true size al = Some c ->
  params_ok c /\ size <= obj_size c /\ length (cpus c) = n /\ pages c = ∅ /\ forall L, list_at c L = [].
Proof.
  intros Hs Ha. unfold jlos_memory_slab_cache_create. destruct (Z.eqb_spec size 0); [done|]. cbv zeta.
  set (A := if al <? PTR then PTR else al).
  assert (exists k, 2 <= k <= 12 /\ A = 2 ^ k) as (k & Hk & EA).
  { unfold A, PTR. destruct (Z.ltb_spec al 4); [by exists 2|]. destruct Ha as [?|Ha]; [lia|done]. }
  clearbody A. subst A. assert (4 <= 2 ^ k <= 4096).
  { change 4 with (2 ^ 2). change 4096 with (2 ^ 12). split; apply Z.pow_le_mono_r; lia. }
  rewrite (u32_small (size + 2 ^ k)), (u32_small (size + 2 ^ k - 1)) by lia.
  pose proof (Z.div_mod (size + 2 ^ k - 1) (2 ^ k) ltac:(lia)). pose proof (Z.mod_pos_bound (size + 2 ^ k - 1) (2 ^ k) ltac:(lia)).
  set (q := (size + 2 ^ k - 1) / 2 ^ k) in *. rewrite (u32_small (q * 2 ^ k)) by nia. set (obj := q * 2 ^ k) in *.
  assert (size <= obj) by lia. unfold slab_page_frame_1_num. destruct (Z.eqb_spec obj 0); [lia|].
  destruct (align_up_spec 32 k ltac:(lia) ltac:(lia) ltac:(lia)) as [Hu _]. unfold SLAB_HDR, PAGE, CACHELINE.
  set (S := align_up 32 (2 ^ k)) in *. destruct (Z.leb_spec 4096 S); [done|].
  destruct (Z.eqb_spec ((4096 - S) / obj) 0) as [|Hn]; [done|]. cbn [negb]. intros [= <-].
  pose proof (Z.div_mod (4096 - S) obj ltac:(lia)). pose proof (Z.mod_pos_bound (4096 - S) obj ltac:(lia)).
  set (num := (4096 - S) / obj) in *. assert (0 <= num) by (apply Z.div_pos; lia).
  assert (obj <= 4096) by nia. rewrite (u32_small (4096 - S - num * obj)) by lia.
  pose proof (Z.mul_div_le (4096 - S - num * obj) 64 ltac:(lia)). pose proof (Z.div_pos (4096 - S - num * obj) 64 ltac:(lia) ltac:(lia)).
  split_and!; try done.
  - split; cbn [align obj_size pg_1_num colour colour_next]; try lia.
    + exists k. split; [lia|done].
    + split; [lia|]. apply Z.mod_mul. lia.
    + unfold CACHELINE, PAGE, SLAB_HDR. fold S. lia.
  - apply length_replicate.
  - intros [i| | | |]; try done. cbn [list_at cpus]. destruct (geti (replicate n ([], 0)) i) as [pc|] eqn:E; [|done].
    unfold geti in E. destruct (i <? 0); [done|]. by apply lookup_replicate in E as [-> _].
Qed.

Section system.
Context {P : Type} `{PageSourceLaws P}.
Variable self : Z.

Lemma slab_perm c (ps : P) used used' pend : used ≡ₚ used' -> slab_inv c ps used pend -> slab_inv c ps used' pend.
Proof using P H.
  intros Hp [I1 I2 I3 I4 I5 I6 I7 I8 I9 I10]. split; try done; [by eapply objs_perm|].
  intros a o Hin. rewrite <- Hp. by apply I9.
Qed.

Lemma slab_init n size al c (ps : P) :
  0 <= size < 2 ^ 31 -> (0 <= al < 4 \/ exists k, 2 <= k <= 12 /\ al = 2 ^ k) ->
  jlos_memory_slab_cache_create n true size al = Some c -> source_ok ps -> (forall i, 0 <= i < Z.of_nat n -> on_cpu ps i) ->
  slab_inv c ps [] [].
Proof using P H.
  intros Hs Ha Ec Hok Hcpu. destruct (create_spec n size al c Hs Ha Ec) as (Hpa & _ & Hl & Hpg & Hls). split; try done.
  - by rewrite Hl.
  - intros a. rewrite Hpg, lookup_empty. by intros [? ?].
  - split; [apply Hpa|constructor| |].
    + intros a sp. by rewrite Hpg, lookup_empty.
    + by intros o ?%elem_of_nil.
  - intros L HL. rewrite Hls. split; [constructor|]. intros a. unfold where_is. rewrite Hpg, lookup_empty.
    split; [by intros ?%elem_of_nil|done].
  - intros a sp. by rewrite Hpg, lookup_empty.
  - by intros a ?%elem_of_nil.
  - by intros a o ?%elem_of_nil.
  - constructor.
Qed.

(** The objects in use of a consistent cache: inside their page, behind its
    header, and apart from each other. *)
Lemma slab_objects c (ps : P) used pend : slab_inv c ps used pend ->
  NoDup used /\
  (forall o, o ∈ used -> exists a, held ps a /\ a + SLAB_HDR <= o /\ o + obj_size c <= a + PAGE) /\
  (forall o o', o ∈ used -> o' ∈ used -> o <> o' -> o + obj_size c <= o' \/ o' + obj_size c <= o).
Proof using P H.
  intros HI. pose proof (si_objs _ _ _ _ HI) as [H1 H2 H3 H4]. unfold SLAB_HDR, PAGE. split; [done|].
  assert (Hr : forall o, o ∈ used -> exists sp, pages c !! page_base o = Some sp /\ slot (obj_size c) sp o /\
    page_base o + 32 <= o /\ o + obj_size c <= page_base o + 4096 /\ page_base o mod 4096 = 0).
  { intros o Ho. destruct (H4 o Ho) as (sp & Ha & Hs). pose proof (H3 _ _ Ha) as Hp.
    pose proof (slab_slot_range _ _ _ _ _ H1 Hp Hs). destruct (po_page _ _ _ _ Hp) as (_ & ? & _).
    exists sp. split_and!; done || lia. }
  split.
  - intros o Ho. destruct (Hr o Ho) as (sp & Ha & _ & ? & ? & _). exists (page_base o). split; [|lia].
    apply (si_held _ _ _ _ HI). by rewrite Ha.
  - intros o o' Ho Ho' Hne. destruct (Hr o Ho) as (sp & Ha & (i & Hi & Ei) & R1 & R2 & R3).
    destruct (Hr o' Ho') as (sp' & Ha' & (j & Hj & Ej) & R1' & R2' & R3').
    destruct (decide (page_base o = page_base o')) as [E|E].
    + rewrite E in Ha. assert (sp' = sp) as -> by congruence. assert (i <> j) by (intros ->; congruence).
      destruct (Z.lt_ge_cases i j); [left|right]; nia.
    + pose proof (Z.div_mod (page_base o) 4096 ltac:(lia)). pose proof (Z.div_mod (page_base o') 4096 ltac:(lia)). lia.
Qed.

(** C26. Allocation and release with no other processor inside the cache.  An
    allocation never touches a bad pointer, and returns an object that was not in
    use; the objects in use are then exactly one more.  It returns null only when
    the processor has no page of its own with a free object, the cache has no partly
    used page and the page source refuses a page (empty pages the cache keeps are not
    used).  Releasing an object in use takes exactly it out of the
    use, and either way the cache stays consistent and all objects in use lie in
    pages the cache holds, behind the page header and apart from each other. *)
Theorem slab_cache_correct c (ps : P) used cpu :
  slab_inv c ps used [] -> 0 <= cpu < zlen (cpus c) ->
  (exists c' ps' r, jlos_memory_slab_cache_alloc self c ps cpu = Some (c', ps', r) /\ same_sizes c c' /\
     match r with
     | None => slab_inv c' ps' used [] /\ list_at c (OnCpu cpu) = [] /\ partial c = [] /\ page_malloc ps cpu = Some (ps', None)
     | Some o => (o ∉ used) /\ slab_inv c' ps' (o :: used) []
     end) /\
  (forall o rest, used ≡ₚ o :: rest ->
     exists c' ps', jlos_memory_slab_cache_free c ps cpu o = Some (c', ps') /\ same_sizes c c' /\ slab_inv c' ps' rest []) /\
  (forall o, o ∈ used -> exists a, held ps a /\ a + SLAB_HDR <= o /\ o + obj_size c <= a + PAGE) /\
  (forall o o', o ∈ used -> o' ∈ used -> o <> o' -> o + obj_size c <= o' \/ o' + obj_size c <= o).
Proof using P H H0.
  intros HI Hc. destruct (slab_objects _ _ _ _ HI) as (_ & Hin & Hapart). split_and!; [| |done|done].
  - unfold jlos_memory_slab_cache_alloc. destruct (alloc_fast_spec c ps used [] cpu HI Hc) as (c1 & r & -> & Hsp & Hr).
    cbn [mbind option_bind]. destruct r as [[o [a|]]|].
    + destruct Hr as [Hno HI1]. destruct (alloc_publish_spec c1 ps (o :: used) [] a o [] HI1) as (c2 & -> & Hsp2 & HI2).
      cbn [mbind option_bind]. exists c2, ps, (Some o). split; [done|]. split; [|done].
      eapply same_sizes_trans; by apply params_sizes.
    + destruct Hr as [Hno HI1]. exists c1, ps, (Some o). split; [done|]. split; [by apply params_sizes|done].
    + destruct Hr as [-> El]. destruct (alloc_slow_spec self c ps used [] cpu HI Hc) as (c2 & ps2 & r & -> & Hsp2 & Hr). exists c2, ps2, r. split; [done|]. split; [done|].
      destruct r; [done|]. tauto.
  - intros o rest Hp. apply (slab_perm _ _ _ (o :: rest)) in HI; [|done]. unfold jlos_memory_slab_cache_free.
    assert (forall b, (b, Some o) ∉ @nil (Z * option Z)) as Hno by (intros b; apply not_elem_of_nil).
    destruct (used_page _ _ _ _ _ HI Hno) as (sp & Ha & Hh & _). destruct (Z.eqb_spec o 0) as [->|_].
    { destruct (slab_objects _ _ _ _ HI) as (_ & Hin' & _). destruct (Hin' 0) as (a & Hha & ? & _); [constructor|].
      destruct (held_page ps a (si_src _ _ _ _ HI) Hha) as (? & _). unfold SLAB_HDR in *. lia. }
    destruct (free_fast_spec c ps rest [] cpu o HI Hno Hc) as (c1 & r & -> & Hsp & Hr). cbn [mbind option_bind].
    pose proof Hsp as (_ & _ & _ & _ & _ & El). destruct r as [[a|]|].
    + destruct (free_publish_spec c1 ps rest [] a [] cpu Hr) as (c2 & ps2 & -> & Hs2 & HI2); [by rewrite El|].
      exists c2, ps2. split; [done|]. split; [|done]. eapply same_sizes_trans; [by apply params_sizes|done].
    + exists c1, ps. split; [done|]. split; [by apply params_sizes|done].
    + subst c1. rewrite Ha. cbn [mbind option_bind]. apply (free_slow_spec c ps rest [] cpu o); try done.
      intros sp' Ha'. simplify_eq. by left.
Qed.

(** ** Interleavings *)

(** The cache, the page source, the objects callers hold, and the processors that
    have filled or emptied a page and still have to list it. *)
Record ssys := SSys { ycache : cache; ysrc : P; live : list Z; pending : list (Z * option Z) }.

(** The locked sections.  [seen] is the owner that a release read before it took
    the owner's lock. *)
Inductive event :=
  | AllocFast (cpu : Z)
  | AllocPublish (a o : Z)
  | AllocSlow (cpu : Z)
  | FreeFast (cpu o : Z)
  | FreePublish (cpu a : Z)
  | FreeSlow (cpu o seen : Z).

Definition fire (y : ssys) (e : event) : option ssys :=
  let c := ycache y in let ps := ysrc y in
  match e with
  | AllocFast cpu =>
      '(c, r) ← alloc_fast c cpu;
      Some match r with
      | None => SSys c ps (live y) (pending y)
      | Some (o, None) => SSys c ps (o :: live y) (pending y)
      | Some (o, Some a) => SSys c ps (live y) ((a, Some o) :: pending y)
      end
  | AllocPublish a o =>
      c ← alloc_publish c a;
      Some (SSys c ps (o :: live y) (filter (fun e => e <> (a, Some o)) (pending y)))
  | AllocSlow cpu =>
      '(c, ps, r) ← alloc_slow self c ps cpu;
      Some (SSys c ps (option_list r ++ live y) (pending y))
  | FreeFast cpu o =>
      '(c, r) ← free_fast c cpu o;
      Some match r with
      | None => SSys c ps (live y) (pending y)
      | Some None => SSys c ps (filter (fun x => x <> o) (live y)) (pending y)
      | Some (Some a) => SSys c ps (filter (fun x => x <> o) (live y)) ((a, None) :: pending y)
      end
  | FreePublish cpu a =>
      '(c, ps) ← free_publish c ps cpu a;
      Some (SSys c ps (live y) (filter (fun e => e <> (a, None)) (pending y)))
  | FreeSlow cpu o seen =>
      '(c, ps) ← free_slow c ps cpu o seen;
      Some (SSys c ps (filter (fun x => x <> o) (live y)) (pending y))
  end.

(** When a section can run: callers release objects they hold.  An owner read
    early may since have put the page between lists, as it does not need the cache
    lock for that. *)
Definition enabled (y : ssys) (e : event) : Prop :=
  let ok cpu := 0 <= cpu < zlen (cpus (ycache y)) in
  match e with
  | AllocFast cpu | AllocSlow cpu => ok cpu
  | AllocPublish a o => (a, Some o) ∈ pending y
  | FreeFast cpu o => ok cpu /\ o ∈ live y
  | FreePublish cpu a => ok cpu /\ (a, None) ∈ pending y
  | FreeSlow cpu o seen => ok cpu /\ o ∈ live y /\
      forall sp, pages (ycache y) !! page_base o = Some sp -> seen = sp_owner sp \/ 0 <= seen /\ sp_owner sp < 0
  end.

Inductive slab_run (n : nat) (size al : Z) : ssys -> Prop :=
  | run_start c ps :
      jlos_memory_slab_cache_create n true size al = Some c -> source_ok ps ->
      (forall i, 0 <= i < Z.of_nat n -> on_cpu ps i) -> slab_run n size al (SSys c ps [] [])
  | run_step y e y' : slab_run n size al y -> enabled y e -> fire y e = Some y' -> slab_run n size al y'.

Definition sys_inv (y : ssys) : Prop := slab_inv (ycache y) (ysrc y) (live y ++ omap snd (pending y)) (pending y).

Lemma filter_split {A} `{EqDecision A} (l : list A) x : NoDup l -> x ∈ l ->
  exists l1 l2, l = l1 ++ x :: l2 /\ filter (fun y => y <> x) l = l1 ++ l2.
Proof.
  intros Hnd (l1 & l2 & ->)%list_elem_of_split. exists l1, l2. split; [done|].
  destruct (pend_drop _ _ _ Hnd) as (_ & Hni & _). apply not_elem_of_app in Hni as [H1 H2].
  rewrite filter_app, filter_cons, decide_False by tauto.
  assert (forall l : list A, x ∉ l -> filter (fun y => y <> x) l = l) as Hf.
  { induction l as [|y l IH]; intros Hx; [done|]. apply not_elem_of_cons in Hx as [? ?].
    rewrite filter_cons, decide_True by done. f_equal. by apply IH. }
  by rewrite !Hf.
Qed.

Lemma live_release y o : sys_inv y -> o ∈ live y ->
  (forall b, (b, Some o) ∉ pending y) /\
  slab_inv (ycache y) (ysrc y) (o :: filter (fun x => x <> o) (live y) ++ omap snd (pending y)) (pending y).
Proof using P H.
  intros HI Ho. pose proof (ob_nodup _ _ _ (si_objs _ _ _ _ HI)) as Hnd.
  apply NoDup_app in Hnd as (Hnl & Hdis & _). destruct (filter_split (live y) o Hnl Ho) as (l1 & l2 & El & ->).
  split.
  - intros b Hin. apply (Hdis o Ho), list_elem_of_omap. by exists (b, Some o).
  - eapply slab_perm; [|exact HI]. rewrite El. simpl. rewrite <- !app_assoc. cbn [app]. by rewrite <- Permutation_middle.
Qed.

Lemma fire_inv y e : sys_inv y -> enabled y e ->
  exists y', fire y e = Some y' /\ sys_inv y' /\ same_sizes (ycache y) (ycache y').
Proof using P H H0.
  intros HI He. pose proof (si_nodup _ _ _ _ HI) as Hnp. destruct y as [c ps lv pd]. unfold sys_inv in *. cbn [ycache ysrc live pending] in *.
  destruct e as [cpu|a o|cpu|cpu o|cpu a|cpu o seen]; cbn [fire enabled ycache ysrc live pending] in *.
  - destruct (alloc_fast_spec c ps _ pd cpu HI He) as (c1 & r & -> & Hsp & Hr). cbn [mbind option_bind].
    eexists. split; [done|]. destruct r as [[o [a|]]|]; cbn [ycache ysrc live pending]; (split; [|by apply params_sizes]).
    + destruct Hr as [_ Hr]. eapply slab_perm; [|exact Hr]. simpl. by rewrite Permutation_middle.
    + by destruct Hr.
    + by destruct Hr as [-> _].
  - destruct (filter_split pd (a, Some o) Hnp He) as (p1 & p2 & -> & ->).
    destruct (alloc_publish_spec c ps _ p1 a o p2 HI) as (c1 & -> & Hsp & HI1). cbn [mbind option_bind].
    eexists. split; [done|]. cbn [ycache ysrc live pending]. split; [|by apply params_sizes]. eapply slab_perm; [|exact HI1].
    rewrite !omap_app. simpl. rewrite !app_assoc. by rewrite <- Permutation_middle.
  - destruct (alloc_slow_spec self c ps _ pd cpu HI He) as (c1 & ps1 & r & -> & Hsp & Hr). cbn [mbind option_bind].
    eexists. split; [done|]. split; [|done]. destruct r as [o|]; cbn [ycache ysrc live pending option_list app]; by destruct Hr.
  - destruct He as [Hc Ho]. destruct (live_release (SSys c ps lv pd) o HI Ho) as [Hno HI1]. cbn [ycache ysrc live pending] in *.
    destruct (free_fast_spec c ps _ pd cpu o HI1 Hno Hc) as (c1 & r & -> & Hsp & Hr). cbn [mbind option_bind].
    eexists. split; [done|]. destruct r as [[a|]|]; cbn [ycache ysrc live pending]; (split; [|by apply params_sizes]); [exact Hr|exact Hr|by subst].
  - destruct He as [Hc Ho]. destruct (filter_split pd (a, None) Hnp Ho) as (p1 & p2 & -> & ->).
    destruct (free_publish_spec c ps _ p1 a p2 cpu HI Hc) as (c1 & ps1 & -> & Hsp & HI1). cbn [mbind option_bind].
    eexists. split; [done|]. split; [|done]. cbn [ycache ysrc live pending]. rewrite omap_app in *. exact HI1.
  - destruct He as (Hc & Ho & Hseen). destruct (live_release (SSys c ps lv pd) o HI Ho) as [Hno HI1]. cbn [ycache ysrc live pending] in *.
    destruct (free_slow_spec c ps _ pd cpu o seen HI1 Hno Hc Hseen) as (c1 & ps1 & -> & Hsp & HI2). cbn [mbind option_bind].
    eexists. split; [done|]. by split.
Qed.

Lemma run_inv n size al y :
  0 <= size < 2 ^ 31 -> (0 <= al < 4 \/ exists k, 2 <= k <= 12 /\ al = 2 ^ k) -> slab_run n size al y -> sys_inv y.
Proof using P H H0.
  intros Hs Ha. induction 1 as [c ps Ec Hok Hcpu|y e y' _ IH He E]; [by eapply slab_init|].
  destruct (fire_inv y e IH He) as (y2 & E2 & HI & _). congruence.
Qed.

(** C17. Under every interleaving of the locked sections of allocations and
    releases on any number of processors: no section touches a bad pointer; no
    object is held by two callers; every object held lies in a page the cache
    holds, behind the page header and apart from every other object held, so no
    page with an object in use is given back to the page source; and once no
    processor is between its two locks, every page is on exactly the list its
    owner and its use count call for. *)
Theorem slab_interleaving_safe n size al y :
  0 <= size < 2 ^ 31 -> (0 <= al < 4 \/ exists k, 2 <= k <= 12 /\ al = 2 ^ k) -> slab_run n size al y ->
  (forall e, enabled y e -> is_Some (fire y e)) /\ NoDup (live y) /\
  (forall o, o ∈ live y -> exists a, held (ysrc y) a /\ a + SLAB_HDR <= o /\ o + obj_size (ycache y) <= a + PAGE) /\
  (forall o o', o ∈ live y -> o' ∈ live y -> o <> o' ->
     o + obj_size (ycache y) <= o' \/ o' + obj_size (ycache y) <= o) /\
  (pending y = [] -> forall a sp, pages (ycache y) !! a = Some sp ->
     loc sp <> Limbo /\ forall L, L <> Limbo -> a ∈ list_at (ycache y) L <-> L = loc sp).
Proof using P H H0.
  intros Hs Ha Hr. pose proof (run_inv n size al y Hs Ha Hr) as HI.
  destruct (slab_objects _ _ _ _ HI) as (Hnd & Hin & Hapart). split_and!.
  - intros e He. destruct (fire_inv y e HI He) as (y' & -> & _). by exists y'.
  - by apply NoDup_app in Hnd as (? & _).
  - intros o Ho. apply Hin, elem_of_app. by left.
  - intros o o' Ho Ho'. apply Hapart; apply elem_of_app; by left.
  - intros Ep a sp Hsp. pose proof (si_owner _ _ _ _ HI a sp Hsp) as Hown. pose proof (loc_owner _ _ _ _ Hown) as Hlo. split.
    + intros El. rewrite El in Hlo. unfold owner_ok in Hown. rewrite Ep in Hown.
      destruct Hown as [?|[?|[_ [[_ [o Hx]]|[_ Hx]]]]]; [lia|lia|by apply elem_of_nil in Hx|by apply elem_of_nil in Hx].
    + intros L HL. rewrite (proj2 (si_listed _ _ _ _ HI L HL)), (where_page _ _ _ Hsp). split; congruence.
Qed.

End system.

(** ** On the page frame allocator *)

(** Sixteen frames and two processors. *)
Lemma one_block_mapped : direct_mapped one_block.
Proof. split; [exact one_block_inv|]. vm_compute. split_and!; done. Qed.
Definition small_cache : cache := default (Cache 0 0 0 0 0 [] [] [] [] 0 0 0 ∅) (jlos_memory_slab_cache_create 2 true 64 4).

Lemma slab_cache_correct_witness :
  exists c' ps' r, jlos_memory_slab_cache_alloc 0 small_cache one_block 1 = Some (c', ps', r) /\ same_sizes small_cache c' /\
     match r with
     | None => slab_inv c' ps' [] [] /\ list_at small_cache (OnCpu 1) = [] /\ partial small_cache = [] /\ page_malloc one_block 1 = Some (ps', None)
     | Some o => (o ∉ []) /\ slab_inv c' ps' [o] []
     end.
Proof.
  destruct (slab_cache_correct 0 small_cache one_block [] 1) as (H & _); [|vm_compute; by split|exact H].
  apply (slab_init 2 64 4); [lia|right; exists 2; lia|reflexivity|exact one_block_mapped|].
  intros i Hi. simpl. exact Hi.
Defined.

Lemma first_object : exists y o sp,
  fire 0 (SSys small_cache one_block [] []) (AllocSlow 0) = Some y /\ live y = [o] /\ zlen (cpus (ycache y)) = 2 /\
  pages (ycache y) !! page_base o = Some sp /\ sp_owner sp = 0.
Proof.
  assert (match fire 0 (SSys small_cache one_block [] []) (AllocSlow 0) with
    | None => False
    | Some y => live y = [3221258144] /\ zlen (cpus (ycache y)) = 2 /\
        exists sp, pages (ycache y) !! 3221254144 = Some sp /\ sp_owner sp = 0
    end) as Hc by (vm_compute; split_and!; [done..|by eexists]).
  destruct (fire 0 (SSys small_cache one_block [] []) (AllocSlow 0)) as [y|]; [|done].
  destruct Hc as (E1 & E2 & sp & E3 & E4). by exists y, 3221258144, sp.
Qed.

(** Processor 0 takes an object from a new page; processor 1 gives it back. *)
Lemma slab_interleaving_safe_witness :
  exists y o, slab_run (P := pfa) 0 2 64 4 y /\ live y = [o] /\ is_Some (fire 0 y (FreeSlow 1 o 0)).
Proof.
  assert (slab_run (P := pfa) 0 2 64 4 (SSys small_cache one_block [] [])) as H0.
  { apply run_start; [reflexivity|exact one_block_mapped|]. intros i Hi. exact Hi. }
  destruct first_object as (y & o & sp & E & El & Ec & Ep & Eo).
  assert (slab_run (P := pfa) 0 2 64 4 y) as H1.
  { refine (run_step _ _ _ _ _ _ _ H0 _ E). cbn [enabled ycache]. change (zlen (cpus small_cache)) with 2. lia. }
  exists y, o. split; [exact H1|]. split; [exact El|].
  destruct (slab_interleaving_safe 0 2 64 4 y) as (Hs & _); [lia|right; exists 2; lia|exact H1|].
  apply Hs. split; [|split].
  - rewrite Ec. lia.
  - rewrite El. by left.
  - rewrite Ep. intros ? [= <-]. by left.
Defined.
