(* ===== verification/HashChain.v ===== *)
(** * Chained hash tables ([dsa/hash_chain.c])

    Intrusive nodes in bucket chains.  [pprev] of a node is the address of the
    pointer that points to it: the head of a bucket or the [next] field of another
    node.  Address 0 is the null pointer; [None] is an access through it, an access
    outside the bucket array, or a walk that does not end within its fuel.

    The abstract table is the sequence of the nodes, newest first; that nodes are
    spread over buckets cannot be observed by a client whose comparison agrees
    with its hash. *)
From S2P Require Import Prelude.

Inductive pref := PNull | PHead (i : Z) | PNext (n : Z).
(** [jlos_hash_node_t] *)
Record hnode := HNode { hn_next : Z; hn_pprev : pref }.
(** [jlos_hash_chain_t]; [buckets] is absent when the pointer is null. *)
Record hash_chain := HashChain {
  buckets : option (list Z); bucket_count : Z; bucket_mask : Z; hnodes : Z -> hnode }.

Definition set_hnode (m : Z -> hnode) (n : Z) (v : hnode) : Z -> hnode := fun x => if x =? n then v else m x.
Definition set_hnext (m : Z -> hnode) (n next : Z) : Z -> hnode := set_hnode m n (HNode next (hn_pprev (m n))).
Definition set_pprev (m : Z -> hnode) (n : Z) (p : pref) : Z -> hnode := set_hnode m n (HNode (hn_next (m n)) p).
Definition get_head (h : hash_chain) (i : Z) : option Z := b ← buckets h; geti b i.
Definition set_head (h : hash_chain) (i n : Z) : option hash_chain :=
  b ← buckets h; b ← seti b i n; Some (HashChain (Some b) (bucket_count h) (bucket_mask h) (hnodes h)).
Definition with_nodes (h : hash_chain) (m : Z -> hnode) : hash_chain :=
  HashChain (buckets h) (bucket_count h) (bucket_mask h) m.
(** [*p = v] *)
Definition store (h : hash_chain) (p : pref) (v : Z) : option hash_chain :=
  match p with
  | PNull => None
  | PHead i => set_head h i v
  | PNext n => Some (with_nodes h (set_hnext (hnodes h) n v))
  end.

(** The doubling loop of [jlos_hash_chain_init]. *)
Fixpoint round_up (fuel : nat) (power bucket_count : Z) : option Z :=
  match fuel with
  | O => None
  | S fuel => if power <? bucket_count then round_up fuel (u32 (Z.shiftl power 1)) bucket_count else Some power
  end.
(** [kalloc] tells whether an allocation of that size succeeds. *)
Definition jlos_hash_chain_init (fuel : nat) (kalloc : Z -> bool) (m : Z -> hnode) (bucket_count : Z) : option hash_chain :=
  let bucket_count := if bucket_count =? 0 then 64 else bucket_count in
  power ← round_up fuel 1 bucket_count;
  if kalloc (u32 (power * 4)) then
    Some (HashChain (Some (replicate (Z.to_nat power) 0)) power (u32 (power - 1)) m)
  else None.

Section table.
(** The client's key type, hash and comparison. *)
Context {K : Type} (hash : K -> Z) (cmp : K -> Z -> Z).

Definition index (h : hash_chain) (key : K) : Z := Z.land (hash key) (bucket_mask h).

Definition jlos_hash_chain_insert (h : hash_chain) (key : K) (node : Z) : option hash_chain :=
  let i := index h key in
  first ← get_head h i;
  let h := with_nodes h (set_hnext (hnodes h) node first) in
  let h := if first =? 0 then h else with_nodes h (set_pprev (hnodes h) first (PNext node)) in
  h ← set_head h i node;
  Some (with_nodes h (set_pprev (hnodes h) node (PHead i))).

(** The walk along a chain to the first node that passes the test. *)
Fixpoint walk (fuel : nat) (h : hash_chain) (test : Z -> bool) (node : Z) : option (option Z) :=
  if node =? 0 then Some None
  else match fuel with
  | O => None
  | S fuel => if test node then Some (Some node) else walk fuel h test (hn_next (hnodes h node))
  end.

Definition jlos_hash_chain_see (fuel : nat) (h : hash_chain) (key : K) : option (option Z) :=
  first ← get_head h (index h key); walk fuel h (fun node => cmp key node =? 0) first.

Definition jlos_hash_chain_find (fuel : nat) (h : hash_chain) (key : K) (mtch : Z -> Z) : option (option Z) :=
  first ← get_head h (index h key); walk fuel h (fun node => mtch node =? 0) first.

Definition jlos_hash_chain_remove (h : hash_chain) (node : Z) : option hash_chain :=
  let p := hn_pprev (hnodes h node) in
  h ← (match p with PNull => Some h | _ => store h p (hn_next (hnodes h node)) end);
  let next := hn_next (hnodes h node) in
  Some (if next =? 0 then h else with_nodes h (set_pprev (hnodes h) next (hn_pprev (hnodes h node)))).

(** [visit] acts on the caller's state only: the table's lock is held. *)
Fixpoint visit_chain {A} (fuel : nat) (h : hash_chain) (visit : A -> Z -> A) (acc : A) (node : Z) : option A :=
  if node =? 0 then Some acc
  else match fuel with
  | O => None
  | S fuel => let next := hn_next (hnodes h node) in visit_chain fuel h visit (visit acc node) next
  end.
Fixpoint visit_buckets {A} (fuel : nat) (n : nat) (h : hash_chain) (visit : A -> Z -> A) (acc : A) (i : Z) : option A :=
  match n with
  | O => Some acc
  | S n => first ← get_head h i; acc ← visit_chain fuel h visit acc first; visit_buckets fuel n h visit acc (i + 1)
  end.
Definition jlos_hash_chain_for_each {A} (fuel : nat) (h : hash_chain) (visit : A -> Z -> A) (acc : A) : option A :=
  visit_buckets fuel (Z.to_nat (bucket_count h)) h visit acc 0.

End table.

Definition jlos_hash_chain_destroy (h : hash_chain) : hash_chain := HashChain None 0 0 (hnodes h).

(** The hash functions; a key is what the key pointer points to, or the pointer. *)
Definition jlos_hash_uint16 (key : Z) : Z := u16 key.
Definition jlos_hash_uint32 (key : Z) : Z := u32 key.
Definition jlos_hash_ptr (key : Z) : Z := u32 key.
Fixpoint hash_str_loop (h : Z) (s : list Z) : Z :=
  match s with
  | [] => h
  | c :: s => hash_str_loop (u32 (u32 (h * 31) + u8 c)) s
  end.
(** The bytes before the terminating zero. *)
Definition jlos_hash_str (s : list Z) : Z := hash_str_loop 0 s.

(** ** Chains in memory *)

(** The pointer [p] holds [f], from which the nodes [l] lead to [g]. *)
Fixpoint hseg (m : Z -> hnode) (p : pref) (f : Z) (l : list Z) (g : Z) : Prop :=
  match l with
  | [] => f = g
  | n :: l => f = n /\ n <> 0 /\ hn_pprev (m n) = p /\ hseg m (PNext n) (hn_next (m n)) l g
  end.
Fixpoint lastp (p : pref) (l : list Z) : pref := match l with [] => p | n :: l => lastp (PNext n) l end.

Lemma hseg_app m l1 l2 g : forall p f,
  hseg m p f (l1 ++ l2) g <-> exists e, hseg m p f l1 e /\ hseg m (lastp p l1) e l2 g.
Proof.
  induction l1 as [|n l1 IH]; intros p f; simpl.
  - split; [by exists f|]. by intros (e & -> & H).
  - rewrite IH. naive_solver.
Qed.
Lemma hseg_ext m m' l g : forall p f, (forall n, n ∈ l -> m' n = m n) -> hseg m p f l g -> hseg m' p f l g.
Proof.
  induction l as [|n l IH]; intros p f Hm; [done|]. intros (-> & Hn & Hp & Hs). simpl. rewrite (Hm n) by constructor.
  split_and!; [done..|]. apply IH; [|done]. intros x Hx. apply Hm. by right.
Qed.
Lemma hseg_head m p f l : hseg m p f l 0 -> f = default 0 (head l).
Proof. destruct l; [done|]. by intros (-> & _). Qed.
Lemma lastp_snoc p l y : lastp p (l ++ [y]) = PNext y.
Proof. revert p. induction l as [|n l IH]; intros p; [done|apply IH]. Qed.

Lemma set_hnode_ne m n v x : x <> n -> set_hnode m n v x = m x.
Proof. unfold set_hnode. by destruct (Z.eqb_spec x n). Qed.
Lemma set_hnode_eq m n v : set_hnode m n v n = v.
Proof. unfold set_hnode. by rewrite Z.eqb_refl. Qed.

(** The first node of a chain gets a new pointer that points to it. *)
Definition reanchored (m : Z -> hnode) (f : Z) (p : pref) : Z -> hnode := if f =? 0 then m else set_pprev m f p.
Lemma reanchor m p p' f l : NoDup l -> hseg m p f l 0 -> hseg (reanchored m f p') p' f l 0.
Proof.
  unfold reanchored. destruct l as [|n l]; simpl; [by intros _ ->|]. intros [Hn Hnd]%NoDup_cons (-> & H0 & Hp & Hs).
  rewrite (proj2 (Z.eqb_neq _ _) H0). unfold set_pprev. rewrite set_hnode_eq. simpl. split_and!; [done..|].
  eapply hseg_ext; [|done]. intros x Hx. apply set_hnode_ne. by intros ->.
Qed.
Lemma reanchored_out m f p x : x <> f -> reanchored m f p x = m x.
Proof. intros H. unfold reanchored. destruct (f =? 0); [done|]. by apply set_hnode_ne. Qed.

(** [test] on the nodes of a chain, in order. *)
Lemma walk_spec h test l : forall fuel p f, hseg (hnodes h) p f l 0 -> (length l <= fuel)%nat ->
  walk fuel h test f = Some (snd <$> list_find (fun n => test n = true) l).
Proof.
  induction l as [|n l IH]; intros fuel p f; simpl.
  - intros -> _. by destruct fuel.
  - intros (-> & H0 & _ & Hs) Hf. destruct fuel as [|fuel]; [lia|]. simpl. rewrite (proj2 (Z.eqb_neq _ _) H0).
    destruct (test n) eqn:E; [done|]. rewrite decide_False by done. rewrite (IH fuel _ _ Hs) by lia.
    by destruct (list_find _ l) as [[]|].
Qed.

Lemma visit_chain_spec {A} h (visit : A -> Z -> A) l : forall fuel p f acc, hseg (hnodes h) p f l 0 -> (length l <= fuel)%nat ->
  visit_chain fuel h visit acc f = Some (foldl visit acc l).
Proof.
  induction l as [|n l IH]; intros fuel p f acc; simpl.
  - intros -> _. by destruct fuel.
  - intros (-> & H0 & _ & Hs) Hf. destruct fuel as [|fuel]; [lia|]. simpl. rewrite (proj2 (Z.eqb_neq _ _) H0).
    by eapply IH; [|lia].
Qed.

(** ** The abstract table *)

Section refinement.
(** [keyof] is the key a node was inserted under. *)
Context {K : Type} (hash : K -> Z) (cmp : K -> Z -> Z) (keyof : Z -> K).

Definition chain (h : hash_chain) (d : list Z) (i : Z) : list Z := filter (fun n => index hash h (keyof n) = i) d.

(** The table [h] holds the nodes [d], newest first. *)
Record table_rep (h : hash_chain) (d : list Z) : Prop := {
  tr_size : exists k, 0 <= k <= 31 /\ bucket_count h = 2 ^ k /\ bucket_mask h = 2 ^ k - 1;
  tr_buckets : exists b, buckets h = Some b /\ zlen b = bucket_count h;
  tr_chains : forall i f, get_head h i = Some f -> hseg (hnodes h) (PHead i) f (chain h d i) 0;
  tr_nodup : NoDup d;
  tr_null : 0 ∉ d
}.

Lemma index_range h d key : table_rep h d -> 0 <= index hash h key < bucket_count h.
Proof.
  intros [(k & Hk & -> & Hm) _ _ _ _]. unfold index. rewrite Hm, land_mask by lia. apply Z.mod_pos_bound. lia.
Qed.

Lemma get_head_range h d i : table_rep h d -> 0 <= i < bucket_count h -> is_Some (get_head h i).
Proof.
  intros [_ (b & Hb & Hl) _ _ _] Hi. unfold get_head, geti. rewrite Hb. simpl. destruct (Z.ltb_spec i 0); [lia|].
  apply lookup_lt_is_Some_2. lia.
Qed.

Lemma set_head_spec h i n : (exists b, buckets h = Some b /\ zlen b = bucket_count h) -> 0 <= i < bucket_count h ->
  exists h', set_head h i n = Some h' /\ hnodes h' = hnodes h /\ bucket_count h' = bucket_count h /\
    bucket_mask h' = bucket_mask h /\ (exists b, buckets h' = Some b /\ zlen b = bucket_count h) /\
    forall j, get_head h' j = if decide (j = i) then Some n else get_head h j.
Proof.
  intros (b & Hb & Hl) Hi. unfold set_head. rewrite Hb. simpl. unfold seti.
  assert ((0 <=? i) && (i <? zlen b) = true) as -> by (apply andb_true_intro; lia). simpl.
  eexists. split; [done|]. simpl. split_and!; [done..| |].
  - eexists. split; [done|]. by rewrite length_insert.
  - intros j. unfold get_head. rewrite Hb. simpl. unfold geti. destruct (decide (j = i)) as [->|Hne].
    + destruct (Z.ltb_spec i 0); [lia|]. apply list_lookup_insert_eq. lia.
    + destruct (Z.ltb_spec j 0); [done|]. apply list_lookup_insert_ne. lia.
Qed.

Lemma chain_sub h d i n : n ∈ chain h d i <-> n ∈ d /\ index hash h (keyof n) = i.
Proof. unfold chain. rewrite list_elem_of_filter. tauto. Qed.
Lemma chain_nodup h d i : NoDup d -> NoDup (chain h d i).
Proof. apply NoDup_filter. Qed.
Lemma chain_mask h h' d i : bucket_mask h' = bucket_mask h -> chain h' d i = chain h d i.
Proof. intros E. unfold chain, index. by rewrite E. Qed.

(** Nodes of the other chains are untouched by a change within chain [i]. *)
Lemma other_chain h m' d i j f : table_rep h d -> get_head h j = Some f -> j <> i ->
  (forall n, n ∈ d -> index hash h (keyof n) <> i -> m' n = hnodes h n) -> hseg m' (PHead j) f (chain h d j) 0.
Proof.
  intros HT Hf Hne Hm. eapply hseg_ext; [|by apply (tr_chains _ _ HT)]. intros n [Hn Hi]%chain_sub. apply Hm; [done|congruence].
Qed.

Lemma insert_spec h d node : table_rep h d -> node <> 0 -> node ∉ d ->
  exists h', jlos_hash_chain_insert hash h (keyof node) node = Some h' /\ table_rep h' (node :: d).
Proof.
  intros HT H0 Hn. pose proof HT as [Hsz _ Hch Hnd Hz]. pose proof (index_range h d (keyof node) HT) as Hi.
  set (i := index hash h (keyof node)) in *. destruct (get_head_range h d i HT Hi) as [f Hf].
  pose proof (Hch i f Hf) as Hs. unfold jlos_hash_chain_insert. fold i. cbv zeta. rewrite Hf. cbn [mbind option_bind].
  assert (f <> 0 -> f ∈ chain h d i) as Hfin.
  { intros Hf0. destruct (chain h d i) as [|x l]; [done|]. destruct Hs as (-> & _). by left. }
  assert (f <> node) as Hfn by (intros ->; by destruct (proj1 (chain_sub h d i node) (Hfin H0))).
  set (m1 := set_hnext (hnodes h) node f). set (m2 := reanchored m1 f (PNext node)).
  assert ((if f =? 0 then with_nodes h m1 else with_nodes (with_nodes h m1) (set_pprev (hnodes (with_nodes h m1)) f (PNext node)))
    = with_nodes h m2) as -> by (unfold m2, reanchored; by destruct (f =? 0)).
  destruct (set_head_spec (with_nodes h m2) i node) as (h' & -> & Em & Ec & Ek & Eb & Eh); [exact (tr_buckets _ _ HT)|done|].
  cbn [mbind option_bind]. eexists. split; [done|]. simpl in Ec, Ek, Em. rewrite Em.
  set (m3 := set_pprev m2 node (PHead i)).
  assert (forall x, x <> node -> x <> f -> m3 x = hnodes h x) as Hout.
  { intros x H1 H2. unfold m3, set_pprev. rewrite set_hnode_ne by done. unfold m2. rewrite reanchored_out by done.
    unfold m1, set_hnext. by rewrite set_hnode_ne. }
  split; simpl.
  - by rewrite Ec, Ek.
  - by rewrite Ec.
  - intros j g Hg. change (get_head h' j = Some g) in Hg. rewrite Eh in Hg. rewrite (chain_mask h) by done. unfold chain at 1.
    rewrite filter_cons. fold i. destruct (decide (j = i)) as [->|Hne].
    + rewrite decide_True by done. injection Hg as <-. simpl. fold (chain h d i).
      assert (hn_next (m3 node) = f) as ->.
      { unfold m3, set_pprev. rewrite set_hnode_eq. simpl. unfold m2. rewrite reanchored_out by done.
        unfold m1, set_hnext. by rewrite set_hnode_eq. }
      split_and!; [done|done| |].
      * unfold m3, set_pprev. by rewrite set_hnode_eq.
      * eapply hseg_ext; [|apply (reanchor m1 (PHead i) (PNext node)); [by apply chain_nodup|]].
        -- intros x [Hx _]%chain_sub. apply set_hnode_ne. by intros ->.
        -- eapply hseg_ext; [|exact Hs]. intros x [Hx _]%chain_sub. apply set_hnode_ne. by intros ->.
    + rewrite decide_False by done. fold (chain h d j). apply (other_chain h m3 d i); [done..|].
      intros x Hx Hxi. apply Hout; [by intros ->|]. intros ->. destruct (decide (f = 0)) as [E|E]; [by rewrite E in Hx|].
      by destruct (proj1 (chain_sub h d i f) (Hfin E)).
  - by constructor.
  - by apply not_elem_of_cons.
Qed.

Lemma hseg_null m l g : forall p f, hseg m p f l g -> 0 ∉ l.
Proof.
  induction l as [|z l IH]; intros p f; [intros _; apply not_elem_of_nil|]. intros (-> & Hz & _ & Hs).
  apply not_elem_of_cons. split; [done|]. by eapply IH.
Qed.

(** Unlinking a node behind another one of its chain. *)
Lemma unlink_inner m p f l y n l2 : NoDup (l ++ y :: n :: l2) -> hseg m p f (l ++ y :: n :: l2) 0 ->
  let next := hn_next (m n) in
  hn_pprev (m n) = PNext y /\ hseg (reanchored (set_hnext m y next) next (PNext y)) p f (l ++ y :: l2) 0.
Proof.
  intros Hnd (e & H1 & -> & Hy & Hpy & <- & H0 & Hp & H2)%hseg_app next. split; [done|].
  apply NoDup_app in Hnd as (_ & Hd & Hnd). apply NoDup_cons in Hnd as [Hyn [_ Hnd]%NoDup_cons].
  set (n := hn_next (m y)) in *.
  assert (next ∈ l2 \/ next = 0) as Hg by (destruct l2; [by right|left; destruct H2 as (E & _); unfold next; rewrite E; constructor]).
  assert (forall x, x ∈ l2 -> x <> y) as Hl2 by (intros x Hx ->; apply Hyn, elem_of_cons; by right).
  assert (y <> next) as Hyg by (destruct Hg as [Hg|Hg]; [pose proof (Hl2 next Hg); congruence|congruence]).
  apply hseg_app. exists y. split.
  - eapply hseg_ext; [|exact H1]. intros x Hx. specialize (Hd x Hx). apply not_elem_of_cons in Hd as [Hxy Hd].
    apply not_elem_of_cons in Hd as [_ Hd]. rewrite reanchored_out; [by apply set_hnode_ne|].
    destruct Hg as [Hg|Hg]; [by intros ->|]. rewrite Hg. intros ->. exact (hseg_null _ _ _ _ _ H1 Hx).
  - simpl. rewrite (reanchored_out _ _ _ y Hyg). assert (set_hnext m y next y = HNode next (lastp p l)) as -> by (unfold set_hnext; by rewrite set_hnode_eq, Hpy).
    simpl. split_and!; [done..|]. apply (reanchor _ (PNext n)); [done|]. eapply hseg_ext; [|exact H2]. intros x Hx. apply set_hnode_ne. by apply Hl2.
Qed.

Definition without (n : Z) (d : list Z) : list Z := filter (fun x => x <> n) d.

Lemma chain_without h d i n : chain h (without n d) i = without n (chain h d i).
Proof. unfold chain, without. rewrite !list_filter_filter. apply list_filter_iff. tauto. Qed.
Lemma without_mid n l1 l2 : NoDup (l1 ++ n :: l2) -> without n (l1 ++ n :: l2) = l1 ++ l2.
Proof.
  intros (_ & H1 & [H2 _]%NoDup_cons)%NoDup_app. unfold without. rewrite filter_app, filter_cons, decide_False by tauto.
  rewrite !filter_absent; [done|done|].
  intros Hx. apply (H1 n Hx). constructor.
Qed.

(** A state whose chain [i] lost [n] and whose other chains are untouched. *)
Lemma rep_unlinked h h' d i n : table_rep h d -> index hash h (keyof n) = i ->
  bucket_count h' = bucket_count h -> bucket_mask h' = bucket_mask h ->
  (exists b, buckets h' = Some b /\ zlen b = bucket_count h) ->
  (forall j, j <> i -> get_head h' j = get_head h j) ->
  (forall f, get_head h' i = Some f -> hseg (hnodes h') (PHead i) f (without n (chain h d i)) 0) ->
  (forall x, x ∈ d -> index hash h (keyof x) <> i -> hnodes h' x = hnodes h x) ->
  table_rep h' (without n d).
Proof.
  intros HT Hi Ec Ek Hb Hh Hs Hx. split.
  - rewrite Ec, Ek. apply HT.
  - by rewrite Ec.
  - intros j f Hf. rewrite chain_without, (chain_mask h) by done. destruct (decide (j = i)) as [->|Hne]; [by apply Hs|].
    rewrite Hh in Hf by done. unfold without. rewrite filter_absent by (rewrite chain_sub; naive_solver).
    by apply (other_chain h _ d i).
  - apply NoDup_filter, HT.
  - unfold without. rewrite list_elem_of_filter. intros [_ ?]. by apply (tr_null _ _ HT).
Qed.

Lemma seg_next m p f l1 n l2 : hseg m p f (l1 ++ n :: l2) 0 -> hn_next (m n) ∈ l2 \/ hn_next (m n) = 0.
Proof.
  intros (e & _ & -> & _ & _ & H)%hseg_app. destruct l2; [by right|left]. destruct H as (-> & _). constructor.
Qed.

Lemma remove_spec h d n : table_rep h d -> n ∈ d ->
  exists h', jlos_hash_chain_remove h n = Some h' /\ table_rep h' (without n d).
Proof.
  intros HT Hn. pose proof HT as [_ Hb Hch Hnd Hz]. pose proof (index_range h d (keyof n) HT) as Hi.
  set (i := index hash h (keyof n)) in *. destruct (get_head_range h d i HT Hi) as [f Hf]. pose proof (Hch i f Hf) as Hs.
  destruct (list_elem_of_split (chain h d i) n) as (l1 & l2 & El); [by apply chain_sub|].
  pose proof (chain_nodup h d i Hnd) as Hnc. rewrite El in Hs, Hnc.
  pose proof (seg_next _ _ _ _ _ _ Hs) as Hg. set (g := hn_next (hnodes h n)) in *.
  assert (forall x, x ∈ l1 ++ n :: l2 -> x ∈ d /\ index hash h (keyof x) = i) as Hin by (intros x; rewrite <- El; apply chain_sub).
  assert (forall x, x ∈ d -> index hash h (keyof x) <> i -> x <> g) as Hout.
  { intros x Hx Hxi ->. destruct Hg as [Hg|Hg]; [|by rewrite Hg in Hx]. apply Hxi, Hin. apply elem_of_app. right. by right. }
  assert (n <> g) as Hng.
  { intros E. destruct Hg as [Hg|Hg]; [|congruence]. apply NoDup_app in Hnc as (_ & _ & [Hnn _]%NoDup_cons). congruence. }
  unfold jlos_hash_chain_remove. cbv zeta. fold g. destruct l1 as [|y l _] using rev_ind.
  - destruct Hs as (-> & H0 & Hp & H2). fold g in H2. simpl in Hnc. pose proof Hnc as [Hnn Hnd2]%NoDup_cons. rewrite Hp. cbn [store].
    destruct (set_head_spec h i g Hb Hi) as (h1 & -> & Em & Ec & Ek & Eb & Eh). cbn [mbind option_bind]. rewrite Em. fold g.
    rewrite Hp. eexists. split; [done|].
    set (h' := if g =? 0 then h1 else with_nodes h1 (set_pprev (hnodes h) g (PHead i))).
    assert (hnodes h' = reanchored (hnodes h) g (PHead i)) as Em'.
    { unfold h', reanchored. by destruct (g =? 0). }
    assert (forall j, get_head h' j = get_head h1 j) as Eh' by (intros; unfold h'; by destruct (g =? 0)).
    apply (rep_unlinked h h' d i n HT); try (unfold h'; destruct (g =? 0); done); try done.
    + intros j Hj. by rewrite Eh', Eh, decide_False.
    + intros g' Hg'. rewrite Eh', Eh, decide_True in Hg' by done. injection Hg' as <-.
      rewrite El, Em'. pose proof (without_mid n [] l2 Hnc) as Ew. simpl in Ew |- *. rewrite Ew. by apply (reanchor _ (PNext n)).
    + intros x Hx Hxi. rewrite Em'. apply reanchored_out. by apply Hout.
  - rewrite <- app_assoc in *. simpl in *. destruct (unlink_inner _ _ _ _ _ _ _ Hnc Hs) as [Hp Hs']. fold g in Hs'.
    rewrite Hp. cbn [store mbind option_bind hnodes with_nodes].
    assert (n <> y) as Hny.
    { intros ->. apply NoDup_app in Hnc as (_ & _ & [Hyy _]%NoDup_cons). apply Hyy. constructor. }
    assert (set_hnext (hnodes h) y g n = hnodes h n) as -> by (by apply set_hnode_ne). fold g. rewrite Hp. eexists. split; [done|].
    set (h' := if g =? 0 then _ else _).
    assert (hnodes h' = reanchored (set_hnext (hnodes h) y g) g (PNext y)) as Em'.
    { unfold h', reanchored. by destruct (g =? 0). }
    apply (rep_unlinked h h' d i n HT); try (unfold h'; destruct (g =? 0); done); try done.
    + intros g' Hg'. assert (get_head h i = Some g') as E by (unfold h' in Hg'; by destruct (g =? 0)). rewrite Hf in E. injection E as <-.
      rewrite El, Em'. replace (l ++ y :: n :: l2) with ((l ++ [y]) ++ n :: l2) in * by (by rewrite <- app_assoc).
      rewrite (without_mid n _ l2 Hnc), <- app_assoc. done.
    + intros x Hx Hxi. rewrite Em', reanchored_out by (by apply Hout). apply set_hnode_ne. intros ->. apply Hxi, Hin.
      apply elem_of_app. right. by left.
Qed.

(** Searching one chain is searching the whole table when the test only accepts
    nodes of that chain. *)
Definition first_node (test : Z -> bool) (d : list Z) : option Z := snd <$> list_find (fun n => test n = true) d.
Lemma first_node_cons test x d : first_node test (x :: d) = if test x then Some x else first_node test d.
Proof.
  unfold first_node. simpl. destruct (test x); [done|]. rewrite decide_False by done. by destruct (list_find _ d) as [[]|].
Qed.
Lemma first_node_chain h test d i : (forall n, n ∈ d -> test n = true -> index hash h (keyof n) = i) ->
  first_node test (chain h d i) = first_node test d.
Proof.
  intros Ht. induction d as [|x d IH]; [done|]. rewrite first_node_cons, <- IH by (intros n Hn; apply Ht; by right).
  unfold chain. rewrite filter_cons. specialize (Ht x ltac:(by left)). case_decide; rewrite ?first_node_cons; [done|].
  destruct (test x); [by destruct H; apply Ht|done].
Qed.

Lemma search_spec h d fuel test key f : table_rep h d -> (length d <= fuel)%nat ->
  (forall n, n ∈ d -> test n = true -> hash (keyof n) = hash key) ->
  get_head h (index hash h key) = Some f -> walk fuel h test f = Some (first_node test d).
Proof.
  intros HT Hf Ht Hh. rewrite (walk_spec h test _ fuel _ _ (tr_chains _ _ HT _ _ Hh)).
  - f_equal. apply first_node_chain. intros n Hn Hp. unfold index. by rewrite (Ht n Hn Hp).
  - etrans; [apply length_filter|done].
Qed.

Lemma visit_buckets_spec {A} fuel h d (visit : A -> Z -> A) : table_rep h d -> (length d <= fuel)%nat ->
  forall n i acc, 0 <= i -> i + Z.of_nat n <= bucket_count h ->
  visit_buckets fuel n h visit acc i = Some (foldl visit acc (concat (map (chain h d) (seqZ i (Z.of_nat n))))).
Proof.
  intros HT Hf. induction n as [|n IH]; intros i acc Hi Hn; [done|]. cbn [visit_buckets].
  destruct (get_head_range h d i HT ltac:(lia)) as [f Hh]. rewrite Hh. cbn [mbind option_bind].
  rewrite (visit_chain_spec h visit _ fuel _ _ acc (tr_chains _ _ HT _ _ Hh)) by (etrans; [apply length_filter|done]).
  cbn [mbind option_bind]. rewrite IH, (seqZ_cons i) by lia. replace (Z.pred (Z.of_nat (S n))) with (Z.of_nat n) by lia.
  replace (Z.succ i) with (i + 1) by lia. simpl. by rewrite foldl_app.
Qed.

Lemma chains_perm h d n : concat (map (chain h d) (seqZ 0 (Z.of_nat n))) ≡ₚ filter (fun x => 0 <= index hash h (keyof x) < Z.of_nat n) d.
Proof.
  induction n as [|n IH]; [by rewrite (list_filter_iff _ (fun _ => False)) by lia; induction d|].
  replace (Z.of_nat (S n)) with (Z.of_nat n + 1) by lia. rewrite seqZ_app by lia. simpl.
  rewrite map_app, concat_app, IH. simpl. rewrite app_nil_r. clear IH. unfold chain.
  induction d as [|x d IHd]; [done|]. rewrite !filter_cons. repeat case_decide; try lia; simpl.
  - by rewrite IHd.
  - by rewrite <- Permutation_middle, IHd.
  - done.
Qed.

Lemma for_each_spec {A} fuel h d (visit : A -> Z -> A) acc : table_rep h d -> (length d <= fuel)%nat ->
  exists d', d' ≡ₚ d /\ jlos_hash_chain_for_each fuel h visit acc = Some (foldl visit acc d').
Proof.
  intros HT Hf. destruct (tr_size _ _ HT) as (k & Hk & Ec & _). unfold jlos_hash_chain_for_each.
  rewrite (visit_buckets_spec fuel h d visit HT Hf) by lia. eexists. split; [|done].
  rewrite chains_perm. rewrite Z2Nat.id by lia. rewrite (list_filter_iff _ (fun _ => True)).
  - clear. induction d as [|x d IH]; [done|]. rewrite filter_cons, decide_True by done. by rewrite IH.
  - intros x. pose proof (index_range h d (keyof x) HT). tauto.
Qed.
End refinement.

(** The hash table implements a sequence of nodes, newest first.  With the
    node's own key, insertion puts the node in front, and removing a node takes out
    exactly it.  [see] and [find] return the newest node of the whole table that
    compares equal or matches, or null when there is none, provided only nodes
    whose key has the same hash can.  [for_each] visits every node once.  The walks
    end when given one step per node. *)
Theorem hash_chain_refines {K} (hash : K -> Z) (cmp : K -> Z -> Z) (keyof : Z -> K) (h : hash_chain) (d : list Z) (fuel : nat) :
  table_rep hash keyof h d -> (length d <= fuel)%nat ->
  (forall n, n <> 0 -> n ∉ d -> exists h', jlos_hash_chain_insert hash h (keyof n) n = Some h' /\ table_rep hash keyof h' (n :: d)) /\
  (forall n, n ∈ d -> exists h', jlos_hash_chain_remove h n = Some h' /\ table_rep hash keyof h' (without n d)) /\
  (forall key, (forall n, n ∈ d -> cmp key n = 0 -> hash (keyof n) = hash key) ->
     jlos_hash_chain_see hash cmp fuel h key = Some (first_node (fun n => cmp key n =? 0) d)) /\
  (forall key mtch, (forall n, n ∈ d -> mtch n = 0 -> hash (keyof n) = hash key) ->
     jlos_hash_chain_find hash fuel h key mtch = Some (first_node (fun n => mtch n =? 0) d)) /\
  (forall A (visit : A -> Z -> A) acc, exists d', d' ≡ₚ d /\
     jlos_hash_chain_for_each fuel h visit acc = Some (foldl visit acc d')).
Proof.
  intros HT Hf. split_and!.
  - intros n H0 Hn. by apply insert_spec.
  - intros n Hn. by apply remove_spec.
  - intros key Hk. unfold jlos_hash_chain_see. destruct (get_head_range hash keyof h d (index hash h key) HT) as [f Hh].
    { by eapply index_range. }
    rewrite Hh. apply (search_spec hash keyof h d fuel _ key f HT Hf); [|done]. intros n Hn E. apply Hk; [done|lia].
  - intros key mtch Hk. unfold jlos_hash_chain_find. destruct (get_head_range hash keyof h d (index hash h key) HT) as [f Hh].
    { by eapply index_range. }
    rewrite Hh. apply (search_spec hash keyof h d fuel _ key f HT Hf); [|done]. intros n Hn E. apply Hk; [done|lia].
  - intros A visit acc. by apply (for_each_spec hash keyof).
Qed.

(** ** Initialisation *)

Lemma round_up_spec n : forall k fuel, 0 <= k -> 2 ^ k <= n <= 2 ^ 31 -> 31 - k < Z.of_nat fuel ->
  exists j, round_up fuel (2 ^ k) n = Some (2 ^ j) /\ k <= j <= 31 /\ n <= 2 ^ j /\ (k < j -> 2 ^ (j - 1) < n).
Proof.
  intros k fuel Hk. revert k Hk. induction fuel as [|fuel IH]; intros k Hk Hn Hf.
  { assert (k <= 31) by (apply (Z.pow_le_mono_r_iff 2); lia). lia. }
  assert (k <= 31) as Hk31 by (apply (Z.pow_le_mono_r_iff 2); lia). cbn [round_up].
  destruct (Z.ltb_spec (2 ^ k) n) as [Hlt|Hge].
  - assert (k < 31) as Hk30 by (apply (Z.pow_lt_mono_r_iff 2); lia). rewrite Z.shiftl_mul_pow2, <- Z.pow_add_r by lia.
    rewrite u32_small by (split; [lia|apply Z.pow_lt_mono_r; lia]).
    destruct (Z.le_gt_cases (2 ^ (k + 1)) n) as [Hle|Hgt].
    + destruct (IH (k + 1) ltac:(lia) ltac:(lia) ltac:(lia)) as (j & -> & Hj & Hnj & Hl). exists j. split; [done|].
      split_and!; [lia|lia|done|]. intros _. destruct (decide (j = k + 1)) as [->|]; [|apply Hl; lia].
      by replace (k + 1 - 1) with k by lia.
    + exists (k + 1). destruct fuel as [|fuel]; [lia|]. cbn [round_up]. rewrite (proj2 (Z.ltb_ge _ _)) by lia.
      split_and!; [done|lia|lia|lia|]. intros _. by replace (k + 1 - 1) with k by lia.
  - exists k. split_and!; [done|lia|done|lia|lia].
Qed.

Lemma round_up_zero n fuel : 0 < n -> round_up fuel 0 n = None.
Proof. intros Hn. induction fuel as [|fuel IH]; [done|]. cbn [round_up]. by rewrite (proj2 (Z.ltb_lt _ _) Hn). Qed.
Lemma round_up_loops n : 2 ^ 31 < n -> forall fuel k, 0 <= k <= 31 -> round_up fuel (2 ^ k) n = None.
Proof.
  intros Hn. induction fuel as [|fuel IH]; intros k Hk; [done|]. cbn [round_up].
  assert (2 ^ k <= 2 ^ 31) by (apply Z.pow_le_mono_r; lia). rewrite (proj2 (Z.ltb_lt _ _)) by lia.
  rewrite Z.shiftl_mul_pow2, <- Z.pow_add_r by lia. destruct (decide (k = 31)) as [->|].
  - change (u32 (2 ^ (31 + 1))) with 0. apply round_up_zero. lia.
  - rewrite u32_small by (split; [lia|apply Z.pow_lt_mono_r; lia]). apply IH. lia.
Qed.

(** Initialisation with up to 2^31 buckets ends within 32 steps and, when the
    memory is there, gives an empty table whose number of buckets is the least power
    of two not below the number asked for (64 when that is 0).  Asked for more, the
    doubling never ends. *)
Theorem hash_chain_init_correct {K} (hash : K -> Z) (keyof : Z -> K) (kalloc : Z -> bool) (m : Z -> hnode) (n : Z) :
  0 <= n < 2 ^ 32 ->
  (n <= 2 ^ 31 -> exists j, 0 <= j <= 31 /\
     (if n =? 0 then j = 6 else n <= 2 ^ j /\ (1 < n -> 2 ^ (j - 1) < n)) /\
     if kalloc (u32 (2 ^ j * 4)) then
       exists h, jlos_hash_chain_init 32 kalloc m n = Some h /\ table_rep hash keyof h [] /\ bucket_count h = 2 ^ j
     else jlos_hash_chain_init 32 kalloc m n = None) /\
  (2 ^ 31 < n -> forall fuel, jlos_hash_chain_init fuel kalloc m n = None).
Proof.
  intros Hn. unfold jlos_hash_chain_init. split.
  - intros Hle. set (n' := if n =? 0 then 64 else n).
    assert (1 <= n' <= 2 ^ 31) as Hn' by (unfold n'; destruct (Z.eqb_spec n 0); lia).
    destruct (round_up_spec n' 0 32 ltac:(lia) ltac:(lia) ltac:(lia)) as (j & Ej & Hj & Hnj & Hl). exists j.
    split; [lia|]. split.
    + unfold n' in *. destruct (Z.eqb_spec n 0); [|split; [done|]].
      { change (round_up 32 (2 ^ 0) 64) with (Some (2 ^ 6)) in Ej. apply (Z.pow_inj_r 2); [lia..|congruence]. }
      intros H1. apply Hl.
      destruct (decide (j = 0)) as [->|]; [simpl in Hnj|]; lia.
    + change (2 ^ 0) with 1 in Ej. fold n'. rewrite Ej. cbn [mbind option_bind]. destruct (kalloc _); [|done].
      eexists. split; [done|]. split; [|done]. split; simpl.
      * exists j. split_and!; [lia|lia|done|]. apply u32_small. assert (2 ^ j <= 2 ^ 31) by (apply Z.pow_le_mono_r; lia). lia.
      * eexists. split; [done|]. rewrite length_replicate. lia.
      * intros i f Hf. unfold get_head, geti in Hf. simpl in Hf. destruct (i <? 0); [done|].
        by apply lookup_replicate in Hf as [-> _].
      * constructor.
      * apply not_elem_of_nil.
  - intros Hgt fuel. destruct (Z.eqb_spec n 0); [lia|]. pose proof (round_up_loops n Hgt fuel 0 ltac:(lia)) as E. change (2 ^ 0) with 1 in E. by rewrite E.
Qed.

(** ** The string hash *)

(** The hash of a string is its polynomial in 31, most significant byte first. *)
Lemma hash_str_poly s : Forall (fun c => 0 <= c < 256) s ->
  forall h, hash_str_loop h s = if decide (s = []) then h else u32 (foldl (fun a c => a * 31 + c) h s).
Proof.
  induction 1 as [|c s Hc _ IH]; intros h; [done|]. cbn [hash_str_loop foldl]. rewrite IH, (u8_small c) by lia.
  rewrite u32_add_l. rewrite (decide_False (P := c :: s = [])) by done. case_decide as E; [by rewrite E|].
  clear E IH. revert h. assert (forall a b, u32 a = u32 b -> u32 (foldl (fun a c => a * 31 + c) a s) = u32 (foldl (fun a c => a * 31 + c) b s)) as Hf.
  { induction s as [|x s IHs]; intros a b E; [done|]. simpl. apply IHs. unfold u32, wrap in *.
    rewrite <- (Zplus_mod_idemp_l (a * 31)), <- (Zplus_mod_idemp_l (b * 31)), <- (Zmult_mod_idemp_l a), <- (Zmult_mod_idemp_l b). by rewrite E. }
  intros h. apply Hf. apply u32_u32.
Qed.

(** ** Witnesses *)

(** Two nodes under keys 5 and 69, which share a bucket of 64. *)
Definition two_nodes : hash_chain :=
  default (HashChain None 0 0 (fun _ => HNode 0 PNull))
    (h ← jlos_hash_chain_init 32 (fun _ => true) (fun _ => HNode 0 PNull) 0;
     h ← jlos_hash_chain_insert jlos_hash_uint32 h 5 5;
     jlos_hash_chain_insert jlos_hash_uint32 h 69 69).
Lemma two_nodes_rep : table_rep jlos_hash_uint32 (fun n => n) two_nodes [69; 5].
Proof.
  unfold two_nodes. destruct (jlos_hash_chain_init 32 _ _ 0) as [h0|] eqn:E0; [|done].
  assert (table_rep jlos_hash_uint32 (fun n => n) h0 []) as H0.
  { injection E0 as <-. split; simpl.
    - exists 6. by split_and!; [lia|..].
    - by eexists.
    - intros i f Hf. unfold get_head, geti in Hf. simpl in Hf. destruct (i <? 0); [done|].
      by apply (lookup_replicate 64 0) in Hf as [-> _].
    - constructor.
    - apply not_elem_of_nil. }
  cbn [mbind option_bind].
  destruct (insert_spec jlos_hash_uint32 (fun n => n) h0 [] 5 H0) as (h1 & -> & H1); [done|apply not_elem_of_nil|].
  cbn [mbind option_bind]. destruct (insert_spec jlos_hash_uint32 (fun n => n) h1 [5] 69 H1) as (h2 & -> & H2); [done|set_solver by lia|done].
Qed.

Lemma hash_chain_refines_witness :
  jlos_hash_chain_see jlos_hash_uint32 (fun k n => if k =? n then 0 else 1) 2 two_nodes 5 = Some (Some 5).
Proof.
  destruct (hash_chain_refines jlos_hash_uint32 (fun k n => if k =? n then 0 else 1) (fun n => n) two_nodes [69; 5] 2)
    as (_ & _ & H & _); [exact two_nodes_rep|simpl; lia|].
  rewrite (H 5); [reflexivity|]. intros n _. destruct (Z.eqb_spec 5 n) as [->|]; done.
Defined.

Lemma hash_chain_init_correct_witness :
  jlos_hash_chain_init 1000 (fun _ => true) (fun _ => HNode 0 PNull) 0x80000001 = None /\
  exists h, jlos_hash_chain_init 32 (fun _ => true) (fun _ => HNode 0 PNull) 100 = Some h.
Proof.
  split.
  - apply (hash_chain_init_correct jlos_hash_uint32 (fun n => n) (fun _ => true) (fun _ => HNode 0 PNull) 0x80000001); lia.
  - destruct (hash_chain_init_correct jlos_hash_uint32 (fun n => n) (fun _ => true) (fun _ => HNode 0 PNull) 100) as [H _]; [lia|].
    destruct H as (j & _ & _ & h & E & _); [lia|]. by exists h.
Defined.
