(* ===== verification/MemIface.v ===== *)
(** * What address spaces need from memory management

    Two contracts.  [ObjSource] is what a client of the slab caches sees: objects
    are handed out once and taken back.  [Paging] is what a client of
    [kernel/paging.c] sees of the page tables of all contexts: a map from pages to
    frames and protections.  Clients are proved against the contracts.

    [flat_paging] and [free_list] are their simplest implementations: they serve
    as the abstract specification of the contracts, and show that the laws can be
    met. *)
From S2P Require Import Prelude.

(** [JLOS_PAGE_ALIGN_DOWN] and [JLOS_PAGE_ALIGN_UP] of [hal/paging.h]. *)
Definition PAGE_SIZE : Z := 4096.
Definition page_align_down (addr : Z) : Z := Z.land addr (not32 (PAGE_SIZE - 1)).
Definition page_align_up (addr : Z) : Z := page_align_down (u32 (u32 (addr + PAGE_SIZE) - 1)).

Lemma page_align_down_spec x : 0 <= x < 2 ^ 32 ->
  page_align_down x mod 4096 = 0 /\ page_align_down x <= x < page_align_down x + 4096.
Proof.
  intros Hx. unfold page_align_down, PAGE_SIZE. change 4096 with (2 ^ 12). rewrite land_not_mask by lia.
  change (2 ^ 12) with 4096. split.
  - rewrite Zminus_mod, Zmod_mod, Z.sub_diag. done.
  - pose proof (Z.mod_pos_bound x 4096). lia.
Qed.
Lemma page_align_up_spec x : 0 <= x <= 2 ^ 32 - 4096 ->
  page_align_up x mod 4096 = 0 /\ x <= page_align_up x < x + 4096.
Proof.
  intros Hx. unfold page_align_up, PAGE_SIZE. rewrite u32_sub_l, u32_small by lia.
  destruct (page_align_down_spec (x + 4096 - 1)) as [? ?]; [lia|]. lia.
Qed.
Lemma page_align_id x : 0 <= x < 2 ^ 32 -> x mod 4096 = 0 -> page_align_down x = x.
Proof.
  intros Hx H0. unfold page_align_down, PAGE_SIZE. change 4096 with (2 ^ 12). rewrite land_not_mask by lia.
  change (2 ^ 12) with 4096. lia.
Qed.
Lemma page_align_up_id x : 0 <= x <= 2 ^ 32 - 4096 -> x mod 4096 = 0 -> page_align_up x = x.
Proof. intros Hx H0. destruct (page_align_up_spec x Hx) as [? ?]. Z.div_mod_to_equations. lia. Qed.

(** ** Objects *)

(** The caches of [kernel/vma.c]. *)
Inductive which := VmaCache | MmCache | PctxCache.

Class ObjSource (A : Type) := {
  obj_alloc : A -> which -> option (A * option Z);
  obj_free : A -> Z -> option A;
  objs_ok : A -> Prop;
  in_use : A -> Z -> Prop
}.
Class ObjSourceLaws (A : Type) `{ObjSource A} := {
  obj_alloc_law a k : objs_ok a -> exists a' r, obj_alloc a k = Some (a', r) /\ objs_ok a' /\
    match r with
    | None => forall o, in_use a' o <-> in_use a o
    | Some n => n <> 0 /\ ~ in_use a n /\ forall o, in_use a' o <-> in_use a o \/ o = n
    end;
  obj_free_law a n : objs_ok a -> in_use a n -> exists a', obj_free a n = Some a' /\ objs_ok a' /\
    forall o, in_use a' o <-> in_use a o /\ o <> n
}.

(** ** Page tables *)

Definition PG_READ : Z := 0x1.
Definition PG_WRITE : Z := 0x2.
Definition PG_USER : Z := 0x8.
Definition PG_USER_RO : Z := Z.lor PG_READ PG_USER.
Definition PG_USER_RW : Z := Z.lor PG_USER_RO PG_WRITE.
(** The part of a protection that page tables keep apart. *)
Definition access (prot : Z) : Z := Z.land prot (Z.lor PG_WRITE PG_USER).

(** Contexts are named by their address; [mapping w pc va] is the frame and the
    access of the page at [va], [spare w f] a frame in the caller's hands that no
    context maps, [cleared w f] a frame that holds zeros.  [room w pc va] says that
    the bookkeeping of the tables can take one more page around [va]. *)
Class Paging (W : Type) := {
  paging_map : W -> Z -> Z -> Z -> Z -> option (W * bool);
  paging_unmap : W -> Z -> Z -> option (W * bool);
  frame_malloc : W -> option (W * option Z);
  frame_free : W -> Z -> option W;
  frame_clear : W -> Z -> W;
  paging_ok : W -> Prop;
  context : W -> Z -> Prop;
  mapping : W -> Z -> Z -> option (Z * Z);
  spare : W -> Z -> Prop;
  cleared : W -> Z -> Prop;
  room : W -> Z -> Z -> Prop
}.

Definition page_ok (va : Z) : Prop := 0 <= va < 0xC0000000 /\ va mod 4096 = 0.

Class PagingLaws (W : Type) `{Paging W} := {
  paging_map_law w pc va f prot : paging_ok w -> context w pc -> page_ok va -> spare w f -> room w pc va -> 0 <= prot < 2 ^ 32 ->
    exists w' b, paging_map w pc va f prot = Some (w', b) /\ paging_ok w' /\ (forall c, context w' c <-> context w c) /\
      if b then mapping w' pc va = Some (f, access prot) /\ mapping w pc va = None /\
                (forall g, spare w' g <-> spare w g /\ g <> f) /\ (cleared w f -> cleared w' f) /\
                forall c v, page_ok v -> (c, v) <> (pc, va) -> mapping w' c v = mapping w c v
      else (forall g, spare w' g <-> spare w g) /\ forall c v, page_ok v -> mapping w' c v = mapping w c v;
  paging_unmap_law w pc va : paging_ok w -> context w pc -> page_ok va ->
    exists w' b, paging_unmap w pc va = Some (w', b) /\ paging_ok w' /\ (forall c, context w' c <-> context w c) /\
      (forall g, spare w g -> spare w' g) /\ mapping w' pc va = None /\
      forall c v, page_ok v -> (c, v) <> (pc, va) -> mapping w' c v = mapping w c v;
  frame_malloc_law w : paging_ok w -> exists w' r, frame_malloc w = Some (w', r) /\ paging_ok w' /\
      (forall c, context w' c <-> context w c) /\ (forall c v, page_ok v -> mapping w' c v = mapping w c v) /\
      (forall c v, room w c v -> room w' c v) /\
      match r with
      | None => forall g, spare w' g <-> spare w g
      | Some f => ~ spare w f /\ (forall c v, page_ok v -> fst <$> mapping w c v <> Some f) /\
                  forall g, spare w' g <-> spare w g \/ g = f
      end;
  frame_free_law w f : paging_ok w -> spare w f -> exists w', frame_free w f = Some w' /\ paging_ok w' /\
      (forall c, context w' c <-> context w c) /\ (forall c v, page_ok v -> mapping w' c v = mapping w c v) /\
      forall g, spare w' g <-> spare w g /\ g <> f;
  frame_clear_law w f : paging_ok w -> spare w f -> paging_ok (frame_clear w f) /\ cleared (frame_clear w f) f /\
      (forall c, context (frame_clear w f) c <-> context w c) /\ (forall c v, page_ok v -> mapping (frame_clear w f) c v = mapping w c v) /\
      (forall c v, room w c v -> room (frame_clear w f) c v) /\ forall g, spare (frame_clear w f) g <-> spare w g
}.

(** ** The simplest implementations *)

(** Pages of all contexts in one map; [fl_free] are the frames left. *)
Record flat := Flat { fl_map : gmap (Z * Z) (Z * Z); fl_ctx : gset Z; fl_free : list Z; fl_spare : gset Z; fl_zero : gset Z }.

#[export] Instance flat_paging : Paging flat := {
  paging_map w pc va f prot :=
    match fl_map w !! (pc, va) with
    | Some _ => Some (w, false)
    | None => Some (Flat (<[(pc, va) := (f, access prot)]> (fl_map w)) (fl_ctx w) (fl_free w) (fl_spare w ∖ {[f]}) (fl_zero w), true)
    end;
  paging_unmap w pc va :=
    Some (Flat (delete (pc, va) (fl_map w)) (fl_ctx w) (fl_free w) (fl_spare w) (fl_zero w), bool_decide (is_Some (fl_map w !! (pc, va))));
  frame_malloc w :=
    match fl_free w with
    | [] => Some (w, None)
    | f :: l => Some (Flat (fl_map w) (fl_ctx w) l ({[f]} ∪ fl_spare w) (fl_zero w), Some f)
    end;
  frame_free w f := Some (Flat (fl_map w) (fl_ctx w) (fl_free w) (fl_spare w ∖ {[f]}) (fl_zero w));
  frame_clear w f := Flat (fl_map w) (fl_ctx w) (fl_free w) (fl_spare w) ({[f]} ∪ fl_zero w);
  paging_ok w := NoDup (fl_free w) /\ forall f, f ∈ fl_free w ->
    (f ∉ fl_spare w) /\ forall k a, fl_map w !! k <> Some (f, a);
  context w pc := pc ∈ fl_ctx w;
  mapping w pc va := fl_map w !! (pc, va);
  spare w f := f ∈ fl_spare w;
  cleared w f := f ∈ fl_zero w;
  room _ _ _ := True
}.

#[export] Instance flat_paging_laws : PagingLaws flat.
Proof.
  split.
  - intros w pc va f prot [Hnd Hf] Hc Hp Hs _ Hr. cbn. destruct (fl_map w !! (pc, va)) eqn:E; eexists _, _; (split; [done|]); [done|].
    split; [|split; [done|]]; cbn.
    + split; [done|]. intros g Hg. destruct (Hf g Hg) as [Hg1 Hg2]. split; [set_solver|]. intros k a. rewrite lookup_insert. case_decide; [|done].
      intros [= -> _]. done.
    + split_and!; [apply lookup_insert_eq|done|set_solver|done|]. intros c v _ Hne. by rewrite lookup_insert_ne.
  - intros w pc va [Hnd Hf] Hc Hp. eexists _, _. split; [done|]. split_and!; cbn; try done.
    + split; [done|]. intros f Hin. destruct (Hf f Hin) as [? Hm]. split; [done|]. intros k a. rewrite lookup_delete. case_decide; [done|apply Hm].
    + apply lookup_delete_eq.
    + intros c v _ Hne. by rewrite lookup_delete_ne.
  - intros w [Hnd Hf]. cbn. destruct (fl_free w) as [|f l] eqn:E; eexists _, _; (split; [done|]).
    + split; [split; rewrite E; [exact Hnd|exact Hf]|done].
    + apply NoDup_cons in Hnd as [Hfl Hnd]. destruct (Hf f ltac:(by left)) as [H1 H2]. split_and!; cbn; try done.
      * intros g Hg. destruct (Hf g ltac:(by right)) as [? ?]. split; [|done]. rewrite not_elem_of_union, not_elem_of_singleton.
        split; [by intros ->|done].
      * intros c v _. specialize (H2 (c, v)). destruct (fl_map w !! (c, v)) as [[f' a]|]; cbn; [|done]. intros [= ->]. by apply (H2 a).
      * set_solver.
  - intros w f [Hnd Hf] Hs. eexists. split; [done|]. split_and!; cbn; try done.
    + split; [done|]. intros g Hg. destruct (Hf g Hg). split; [set_solver|done].
    + set_solver.
  - intros w f [Hnd Hf] Hs. cbn. split_and!; try done; set_solver.
Qed.

(** The objects left, and those handed out. *)
Record free_list := FreeList { left_over : list Z; handed_out : gset Z }.
#[export] Instance free_list_source : ObjSource free_list := {
  obj_alloc a _ :=
    match left_over a with
    | [] => Some (a, None)
    | o :: l => Some (FreeList l ({[o]} ∪ handed_out a), Some o)
    end;
  obj_free a o := Some (FreeList (o :: left_over a) (handed_out a ∖ {[o]}));
  objs_ok a := NoDup (left_over a) /\ (0 ∉ left_over a) /\ (0 ∉ handed_out a) /\ forall o, o ∈ left_over a -> o ∉ handed_out a;
  in_use a o := o ∈ handed_out a
}.
#[export] Instance free_list_laws : ObjSourceLaws free_list.
Proof.
  split.
  - intros a k (Hnd & H0 & H1 & Hd). cbn. destruct (left_over a) as [|o l] eqn:E; eexists _, _; (split; [done|]).
    + split; [rewrite E; by split_and!|done].
    + apply NoDup_cons in Hnd as [Ho Hnd]. apply not_elem_of_cons in H0 as [H0 H0']. split; cbn.
      * split_and!; [done|done|set_solver|]. intros x Hx. rewrite not_elem_of_union, not_elem_of_singleton.
        split; [by intros ->|]. apply Hd. by right.
      * split_and!; [done| |set_solver]. apply Hd. by left.
  - intros a o (Hnd & H0 & H1 & Hd) Ho. cbn in Ho. eexists. split; [done|]. split; cbn; [|set_solver]. split_and!.
    + constructor; [|done]. intros Hin. by apply (Hd o).
    + apply not_elem_of_cons. split; [by intros <-|done].
    + set_solver.
    + intros x [->|Hx]%elem_of_cons; [set_solver|]. specialize (Hd x Hx). set_solver.
Qed.
