(* ===== verification/Vma.v ===== *)
(** * Virtual memory areas ([kernel/vma.c])

    The areas of an address space in a red-black tree ordered by start address.
    A node of the tree and the area it is embedded in have the same name; [areas]
    is the memory of the areas.  Area, [mm] and context objects come from an object
    source, page tables and frames from a paging contract ([MemIface]).  Addresses
    are those of the 32-bit configuration.

    [None] is an access through a bad pointer or a loop that does not end within
    its fuel; the theorems of [VmaInv] exclude both. *)
From S2P Require Import Prelude MemIface RBTree.

Definition VMA_WRITE : Z := 0x02.
Definition VMA_COW : Z := 0x10.

(** [jlos_vma_type_t] *)
Inductive vma_type := TypeAnon | TypeBrk | TypeStack | TypeFile.
#[export] Instance vma_type_eq_dec : EqDecision vma_type.
Proof. solve_decision. Defined.

(** [jlos_vma_t], without its tree node. *)
Record vma := Vma { v_start : Z; v_end : Z; v_flags : Z; v_type : vma_type; v_file : Z; v_offset : Z }.
(** [jlos_mm_t] *)
Record mm_t := MmT { mm_pc : Z; vma_tree : rbtree; brk_start : Z; brk_end : Z; brk_limit : Z; refcount : Z }.

Definition with_start (v : vma) (a : Z) : vma := Vma a (v_end v) (v_flags v) (v_type v) (v_file v) (v_offset v).
Definition with_end (v : vma) (a : Z) : vma := Vma (v_start v) a (v_flags v) (v_type v) (v_file v) (v_offset v).
Definition with_flags (v : vma) (f : Z) : vma := Vma (v_start v) (v_end v) f (v_type v) (v_file v) (v_offset v).
Definition with_tree (m : mm_t) (t : rbtree) : mm_t := MmT (mm_pc m) t (brk_start m) (brk_end m) (brk_limit m) (refcount m).
Definition with_refcount (m : mm_t) (n : Z) : mm_t := MmT (mm_pc m) (vma_tree m) (brk_start m) (brk_end m) (brk_limit m) n.
Definition with_brk (m : mm_t) (s e l : Z) : mm_t := MmT (mm_pc m) (vma_tree m) s e l (refcount m).

Definition jlos_vma_compare (areas : Z -> vma) (a b : Z) : Z :=
  if v_start (areas a) <? v_start (areas b) then -1
  else if v_start (areas b) <? v_start (areas a) then 1 else 0.
Definition jlos_vma_cmp_addr (areas : Z -> vma) (node addr : Z) : Z :=
  if v_start (areas node) <? addr then -1
  else if addr <? v_start (areas node) then 1 else 0.

Section ops.
Context {A W : Type} `{ObjSource A} `{Paging W}.
(** Steps for one walk of a tree. *)
Variable fuel : nat.

Record vstate := VState { areas : Z -> vma; objs : A; world : W }.
Definition set_area (s : vstate) (n : Z) (v : vma) : vstate :=
  VState (fun x => if x =? n then v else areas s x) (objs s) (world s).
Definition set_objs (s : vstate) (a : A) : vstate := VState (areas s) a (world s).
Definition set_world (s : vstate) (w : W) : vstate := VState (areas s) (objs s) w.

Definition alloc (s : vstate) (k : which) : option (vstate * option Z) :=
  '(a, r) ← obj_alloc (objs s) k; Some (set_objs s a, r).
Definition jlos_kfree (s : vstate) (n : Z) : option vstate := a ← obj_free (objs s) n; Some (set_objs s a).
Definition insert_area (m : mm_t) (s : vstate) (n : Z) : option mm_t :=
  t ← jlos_rbtree_insert (jlos_vma_compare (areas s)) fuel (vma_tree m) n; Some (with_tree m t).
Definition remove_area (m : mm_t) (n : Z) : option mm_t :=
  t ← jlos_rbtree_remove fuel (vma_tree m) n; Some (with_tree m t).
Definition find_le (m : mm_t) (s : vstate) (addr : Z) : option (option Z) :=
  jlos_rbtree_find_key_le (jlos_vma_cmp_addr (areas s)) fuel (vma_tree m) addr.

(** ** Address spaces *)

(** [h] is what the memory of the tree's nodes holds, [context_init] is
    [jlos_paging_context_init].  The result is the address of the object and its
    value. *)
Definition jlos_mm_create (context_init : W -> Z -> W) (s : vstate) (h : Z -> rbnode) : option (vstate * option (Z * mm_t)) :=
  '(s, r) ← alloc s MmCache;
  match r with
  | None => Some (s, None)
  | Some mm =>
      '(s, r) ← alloc s PctxCache;
      match r with
      | None => s ← jlos_kfree s mm; Some (s, None)
      | Some pc => Some (set_world s (context_init (world s) pc), Some (mm, MmT pc (jlos_rbtree_init h) 0 0 0 1))
      end
  end.

Fixpoint free_areas (n : nat) (m : mm_t) (s : vstate) (node : option Z) : option (mm_t * vstate) :=
  match node with
  | None => Some (m, s)
  | Some node =>
      match n with
      | O => None
      | S n =>
          m ← remove_area m node;
          s ← jlos_kfree s node;
          node ← jlos_rbtree_first fuel (vma_tree m);
          free_areas n m s node
      end
  end.
(** [tables_destroy] is [jlos_arch_paging_context_tables_destroy]. *)
Definition jlos_mm_destroy (tables_destroy : W -> Z -> option W) (m : mm_t) (mm : Z) (s : vstate) : option (mm_t * vstate) :=
  let m := with_refcount m (s32 (refcount m - 1)) in
  if negb (refcount m =? 0) then Some (m, s)
  else
    node ← jlos_rbtree_first fuel (vma_tree m);
    '(m, s) ← free_areas fuel m s node;
    s ← (if negb (mm_pc m =? 0) then
           w ← tables_destroy (world s) (mm_pc m); jlos_kfree (set_world s w) (mm_pc m)
         else Some s);
    s ← jlos_kfree s mm;
    Some (m, s).

Definition jlos_mm_ref_inc (m : mm_t) : mm_t := with_refcount m (s32 (refcount m + 1)).

(** [cow_range] is [jlos_paging_cow_range]. *)
Fixpoint clone_areas (cow_range : W -> Z -> Z -> Z -> Z -> option W) (n : nat) (dst src : mm_t) (s : vstate) (node : option Z)
    : option (mm_t * vstate * bool) :=
  match node with
  | None => Some (dst, s, true)
  | Some svma =>
      match n with
      | O => None
      | S n =>
          '(s, r) ← alloc s VmaCache;
          match r with
          | None => Some (dst, s, false)
          | Some dvma =>
              let sv := areas s svma in
              let s := set_area s dvma (with_flags sv (Z.lor (v_flags sv) VMA_COW)) in
              dst ← insert_area dst s dvma;
              w ← cow_range (world s) (mm_pc src) (mm_pc dst) (v_start (areas s svma)) (v_end (areas s svma));
              node ← jlos_rbtree_next fuel (vma_tree src) svma;
              clone_areas cow_range n dst src (set_world s w) node
          end
      end
  end.
Definition jlos_mm_clone_user (cow_range : W -> Z -> Z -> Z -> Z -> option W) (dst src : mm_t) (s : vstate)
    : option (mm_t * vstate * bool) :=
  if (mm_pc dst =? 0) || (mm_pc src =? 0) then Some (dst, s, false)
  else
    let dst := with_brk dst (brk_start src) (brk_end src) (brk_limit src) in
    node ← jlos_rbtree_first fuel (vma_tree src);
    clone_areas cow_range fuel dst src s node.

(** ** Areas *)

Definition jlos_vma_find (m : mm_t) (s : vstate) (addr : Z) : option (option Z) :=
  node ← find_le m s addr;
  Some match node with
  | None => None
  | Some v => if addr <? v_end (areas s v) then Some v else None
  end.

Definition jlos_vma_add (m : mm_t) (s : vstate) (start end_ flags : Z) (type : vma_type) : option (mm_t * vstate * option Z) :=
  if end_ <=? start then Some (m, s, None)
  else
    '(s, r) ← alloc s VmaCache;
    match r with
    | None => Some (m, s, None)
    | Some v =>
        let s := set_area s v (Vma (page_align_down start) (page_align_up end_) flags type 0 0) in
        m ← insert_area m s v;
        Some (m, s, Some v)
    end.

(** [for (i = a; i < b; i += JLOS_PAGE_FRAME_SIZE) jlos_paging_unmap(pc, i)] *)
Fixpoint unmap_pages (n : nat) (w : W) (pc a b : Z) : option W :=
  match n with
  | O => if a <? b then None else Some w
  | S n => if a <? b then '(w, _) ← paging_unmap w pc a; unmap_pages n w pc (u32 (a + PAGE_SIZE)) b else Some w
  end.
Definition unmap_range (s : vstate) (pc a b : Z) : option vstate :=
  w ← unmap_pages (Z.to_nat (b - a)) (world s) pc a b; Some (set_world s w).

(** The part of one area inside [[start, end_)] goes. *)
Definition cut_area (m : mm_t) (s : vstate) (node start end_ : Z) : option (mm_t * vstate) :=
  let v := areas s node in
  let ov_s := if start <? v_start v then v_start v else start in
  let ov_e := if v_end v <? end_ then v_end v else end_ in
  s ← unmap_range s (mm_pc m) ov_s ov_e;
  if (ov_s <=? v_start v) && (v_end v <=? ov_e) then
    m ← remove_area m node; s ← jlos_kfree s node; Some (m, s)
  else if ov_s <=? v_start v then Some (m, set_area s node (with_start v ov_e))
  else if v_end v <=? ov_e then Some (m, set_area s node (with_end v ov_s))
  else
    '(s, r) ← alloc s VmaCache;
    match r with
    | None => Some (m, s)
    | Some tail =>
        let s := set_area s tail (with_start v ov_e) in
        let s := set_area s node (with_end v ov_s) in
        m ← insert_area m s tail;
        Some (m, s)
    end.
Fixpoint remove_loop (n : nat) (m : mm_t) (s : vstate) (start end_ : Z) (node : option Z) : option (mm_t * vstate) :=
  match node with
  | None => Some (m, s)
  | Some node =>
      match n with
      | O => None
      | S n =>
          next ← jlos_rbtree_next fuel (vma_tree m) node;
          if end_ <=? v_start (areas s node) then Some (m, s)
          else if start <? v_end (areas s node) then
            '(m, s) ← cut_area m s node start end_;
            remove_loop n m s start end_ next
          else remove_loop n m s start end_ next
      end
  end.
Definition jlos_vma_remove_range (m : mm_t) (s : vstate) (start end_ : Z) : option (mm_t * vstate * bool) :=
  if (mm_pc m =? 0) || (end_ <=? start) then Some (m, s, false)
  else
    let start := page_align_down start in
    let end_ := page_align_up end_ in
    node ← jlos_rbtree_first fuel (vma_tree m);
    '(m, s) ← remove_loop fuel m s start end_ node;
    Some (m, s, true).

Definition jlos_vma_grow_tail (m : mm_t) (s : vstate) (start new_end flags : Z) (type : vma_type)
    : option (mm_t * vstate * option Z) :=
  if new_end <=? start then Some (m, s, None)
  else
    let start := page_align_down start in
    let new_end := page_align_up new_end in
    node ← jlos_rbtree_find_key (jlos_vma_cmp_addr (areas s)) fuel (vma_tree m) start;
    match node with
    | Some v =>
        if bool_decide (v_type (areas s v) = type) then Some (m, set_area s v (with_end (areas s v) new_end), Some v)
        else jlos_vma_add m s start new_end flags type
    | None => jlos_vma_add m s start new_end flags type
    end.

Fixpoint shrink_loop (n : nat) (m : mm_t) (s : vstate) (new_end : Z) (type : vma_type) (node : option Z)
    : option (mm_t * vstate * bool) :=
  match node with
  | None => Some (m, s, false)
  | Some node =>
      match n with
      | O => None
      | S n =>
          let v := areas s node in
          if bool_decide (v_type v = type) then
            if new_end <=? v_start v then
              s ← unmap_range s (mm_pc m) (v_start v) (v_end v);
              m ← remove_area m node; s ← jlos_kfree s node; Some (m, s, true)
            else if new_end <? v_end v then
              s ← unmap_range s (mm_pc m) new_end (v_end v);
              Some (m, set_area s node (with_end v new_end), true)
            else Some (m, s, true)
          else
            next ← jlos_rbtree_next fuel (vma_tree m) node;
            shrink_loop n m s new_end type next
      end
  end.
Definition jlos_vma_shrink_tail (m : mm_t) (s : vstate) (new_end : Z) (type : vma_type) : option (mm_t * vstate * bool) :=
  if mm_pc m =? 0 then Some (m, s, false)
  else
    let new_end := page_align_up new_end in
    node ← jlos_rbtree_first fuel (vma_tree m);
    shrink_loop fuel m s new_end type node.

Definition jlos_vma_demand_map (m : mm_t) (s : vstate) (fault_addr : Z) : option (vstate * bool) :=
  if mm_pc m =? 0 then Some (s, false)
  else
  r ← jlos_vma_find m s fault_addr;
  match r with
  | None => Some (s, false)
  | Some v =>
      let page := page_align_down fault_addr in
      let prot := if negb (Z.land (v_flags (areas s v)) VMA_WRITE =? 0) then PG_USER_RW else PG_USER_RO in
      '(w, r) ← frame_malloc (world s);
      match r with
      | None => Some (set_world s w, false)
      | Some frame =>
          let w := frame_clear w frame in
          '(w, ok) ← paging_map w (mm_pc m) page frame prot;
          if (ok : bool) then Some (set_world s w, true)
          else w ← frame_free w frame; Some (set_world s w, false)
      end
  end.

(** ** Free ranges *)

(** The hint, rounded up, when the range there is free. *)
Definition try_hint (m : mm_t) (s : vstate) (base limit hint len : Z) : option (option Z) :=
  if (base <=? hint) && (hint <? limit) then
    let h := page_align_up hint in
    if (h <? limit) && (len <=? u32 (limit - h)) then
      node ← find_le m s h;
      node ← (match node with
              | None => jlos_rbtree_first fuel (vma_tree m)
              | Some v => if v_end (areas s v) <=? h then jlos_rbtree_next fuel (vma_tree m) v else Some (Some v)
              end);
      Some match node with
      | None => Some h
      | Some v => if u32 (h + len) <=? v_start (areas s v) then Some h else None
      end
    else Some None
  else Some None.

(** The walk over the areas from [node] on, to the first gap of [len] bytes. *)
Fixpoint gap_loop (n : nat) (m : mm_t) (s : vstate) (len candidate : Z) (node : option Z) : option Z :=
  match node with
  | None => Some candidate
  | Some v =>
      match n with
      | O => None
      | S n =>
          if (candidate <=? v_start (areas s v)) && (len <=? u32 (v_start (areas s v) - candidate)) then Some candidate
          else
            next ← jlos_rbtree_next fuel (vma_tree m) v;
            gap_loop n m s len (page_align_up (v_end (areas s v))) next
      end
  end.
(** Where the walk starts. *)
Definition gap_start (m : mm_t) (s : vstate) (base : Z) : option (Z * option Z) :=
  node ← find_le m s base;
  match node with
  | None => node ← jlos_rbtree_first fuel (vma_tree m); Some (base, node)
  | Some v =>
      next ← jlos_rbtree_next fuel (vma_tree m) v;
      Some (if base <? v_end (areas s v) then page_align_up (v_end (areas s v)) else base, next)
  end.

Definition jlos_vma_find_free_area (m : mm_t) (s : vstate) (base limit hint len : Z) : option Z :=
  if len =? 0 then Some 0
  else
    h ← try_hint m s base limit hint len;
    match h with
    | Some h => Some h
    | None =>
        '(candidate, node) ← gap_start m s base;
        candidate ← gap_loop fuel m s len candidate node;
        Some (if (candidate <? base) || (limit <=? candidate) || (u32 (limit - candidate) <? len) then 0 else candidate)
    end.

End ops.
Arguments vstate A W : clear implicits.
