(* ===== verification/VmaInv.v ===== *)
(** * Correctness of the virtual memory areas

    The areas of an address space are a sequence of disjoint page ranges in
    ascending order, and each operation changes that sequence, and the page tables,
    by exactly the range concerned.  [view] is the abstract address space: what the
    areas are, in order, without the tree and without the objects they live in. *)
From S2P Require Import Prelude MemIface RBTree RBTreeInv RBTreeDel Vma.

Definition USER_LIMIT : Z := 0xC0000000.
Definition area_ok (v : vma) : Prop :=
  0 <= v_start v < v_end v /\ v_end v <= USER_LIMIT /\ v_start v mod 4096 = 0 /\ v_end v mod 4096 = 0.
Definition below (v w : vma) : Prop := v_end v <= v_start w.
Definition disjoint_areas (vs : list vma) : Prop := StronglySorted below vs /\ Forall area_ok vs.
Definition covers (v : vma) (a : Z) : Prop := v_start v <= a < v_end v.

Lemma compare_lt ar a b : jlos_vma_compare ar a b < 0 <-> v_start (ar a) < v_start (ar b).
Proof. unfold jlos_vma_compare. zcases; lia. Qed.
Lemma compare_gt ar a b : 0 < jlos_vma_compare ar a b <-> v_start (ar b) < v_start (ar a).
Proof. unfold jlos_vma_compare. zcases; lia. Qed.
Lemma compare_le ar a b : jlos_vma_compare ar a b <= 0 <-> v_start (ar a) <= v_start (ar b).
Proof. unfold jlos_vma_compare. zcases; lia. Qed.
Lemma cmp_addr_le ar a x : jlos_vma_cmp_addr ar a x <= 0 <-> v_start (ar a) <= x.
Proof. unfold jlos_vma_cmp_addr. zcases; lia. Qed.
Lemma cmp_addr_eq ar a x : jlos_vma_cmp_addr ar a x = 0 <-> v_start (ar a) = x.
Proof. unfold jlos_vma_cmp_addr. zcases; lia. Qed.

Lemma areas_start_sorted vs : disjoint_areas vs -> StronglySorted (fun v w => v_start v <= v_start w) vs.
Proof.
  intros [Hs Ho]. rewrite Forall_forall in Ho. eapply StronglySorted_impl_elem; [|exact Hs]. intros v w Hv Hw Hb.
  destruct (Ho v Hv) as ((_ & ?) & _). unfold below in Hb. lia.
Qed.

Lemma sorted_map {B C} (g : B -> C) R l : StronglySorted (fun a b => R (g a) (g b)) l <-> StronglySorted R (map g l).
Proof.
  induction l as [|x l IH]; [split; constructor|]. simpl. split; intros [H1 H2]%StronglySorted_inv; constructor.
  - by apply IH.
  - by apply List.Forall_map.
  - by apply IH.
  - by rewrite List.Forall_map in H2.
Qed.

Section inv.
Context {A W : Type} `{OS : ObjSource A} `{OL : !ObjSourceLaws A} `{PG : Paging W} `{PL : !PagingLaws W}.
Implicit Types (m : mm_t) (s : vstate A W).

Definition view s (l : list Z) : list vma := map (areas s) l.

(** The nodes [l] of [m] in order. *)
Record mm_inv m s (l : list Z) : Prop := {
  mi_tree : rb_tree (vma_tree m) l;
  mi_areas : disjoint_areas (view s l);
  mi_live : forall n, n ∈ l -> in_use (objs s) n;
  mi_objs : objs_ok (objs s);
  mi_paging : paging_ok (world s);
  mi_ctx : context (world s) (mm_pc m);
  mi_pc : mm_pc m <> 0
}.

Lemma rb_nodup t l : rb_tree t l -> NoDup l /\ forall x, x ∈ l -> x <> nil.
Proof.
  intros (T & n & Ht & _ & <-). split; [apply Ht|]. intros x Hx. eapply rep_elems_ne; [apply Ht|done].
Qed.

Lemma inv_ordered m s l : mm_inv m s l -> ordered (jlos_vma_compare (areas s)) l.
Proof.
  intros HI. pose proof (areas_start_sorted _ (mi_areas _ _ _ HI)) as Hs. apply sorted_map in Hs.
  eapply StronglySorted_impl_elem; [|exact Hs]. intros a b _ _ ?. by apply compare_le.
Qed.
Lemma inv_ascending m s l addr : mm_inv m s l -> ascending (jlos_vma_cmp_addr (areas s)) addr l.
Proof.
  intros HI. pose proof (areas_start_sorted _ (mi_areas _ _ _ HI)) as Hs. apply sorted_map in Hs.
  eapply StronglySorted_impl_elem; [|exact Hs]. cbv beta. intros a b _ _ ?. unfold jlos_vma_cmp_addr. zcases; simpl; lia.
Qed.
Lemma inv_area m s l n : mm_inv m s l -> n ∈ l -> area_ok (areas s n).
Proof.
  intros HI Hn. destruct (mi_areas _ _ _ HI) as [_ Ho]. unfold view in Ho. rewrite List.Forall_map in Ho. rewrite Forall_forall in Ho. by apply Ho.
Qed.
Lemma inv_below m s l1 n l2 : mm_inv m s (l1 ++ n :: l2) ->
  (forall x, x ∈ l1 -> below (areas s x) (areas s n)) /\ (forall x, x ∈ l2 -> below (areas s n) (areas s x)).
Proof.
  intros HI. destruct (mi_areas _ _ _ HI) as [Hs _]. apply sorted_map in Hs.
  apply StronglySorted_app in Hs as (H1 & _ & [_ H2]%StronglySorted_inv). rewrite Forall_forall in H2. split; [|done].
  intros x Hx. apply H1; [done|constructor].
Qed.

(** The last area that starts at or below an address, and where it leaves it. *)
Lemma find_le_spec fuel m s l addr : mm_inv m s l -> (length l < fuel)%nat ->
  exists r, find_le fuel m s addr = Some r /\
    match r with
    | Some n => exists l1 l2, l = l1 ++ n :: l2 /\ v_start (areas s n) <= addr /\ forall x, x ∈ l2 -> addr < v_start (areas s x)
    | None => forall x, x ∈ l -> addr < v_start (areas s x)
    end.
Proof.
  intros HI Hf. destruct (rbtree_search_spec (jlos_vma_cmp_addr (areas s)) (fun _ _ => 0) (vma_tree m) l addr 0 fuel (mi_tree _ _ _ HI) Hf)
    as (Hk & _). destruct (Hk (inv_ascending m s l addr HI)) as (_ & r & Er & Hr). exists r. split; [exact Er|].
  destruct r as [n|].
  - destruct Hr as (l1 & l2 & -> & Hn & Hl). exists l1, l2. split_and!; [done|by apply cmp_addr_le in Hn|].
    intros x Hx. specialize (Hl x Hx). apply Z.lt_nge. intros Hle. apply cmp_addr_le in Hle. lia.
  - intros x Hx. specialize (Hr x Hx). apply Z.lt_nge. intros Hle. apply cmp_addr_le in Hle. lia.
Qed.

Lemma find_spec fuel m s l addr : mm_inv m s l -> (length l < fuel)%nat ->
  exists r, jlos_vma_find fuel m s addr = Some r /\
    match r with
    | Some n => n ∈ l /\ covers (areas s n) addr
    | None => forall n, n ∈ l -> ~ covers (areas s n) addr
    end.
Proof.
  intros HI Hf. unfold jlos_vma_find. destruct (find_le_spec fuel m s l addr HI Hf) as (r & -> & Hr). cbn [mbind option_bind].
  eexists. split; [done|]. destruct r as [n|]; [|intros n Hn [? _]; specialize (Hr n Hn); lia].
  destruct Hr as (l1 & l2 & -> & Hn & Hl). destruct (inv_below _ _ _ _ _ HI) as [Hb _].
  destruct (Z.ltb_spec addr (v_end (areas s n))) as [Hlt|Hge].
  - split; [apply elem_of_app; right; by left|done].
  - intros x [Hx|[->|Hx]%elem_of_cons]%elem_of_app [Hc1 Hc2]; [|lia|specialize (Hl x Hx); lia].
    specialize (Hb x Hx). unfold below in Hb. lia.
Qed.

Lemma first_spec fuel m s l : mm_inv m s l -> (length l < fuel)%nat -> jlos_rbtree_first fuel (vma_tree m) = Some (head l).
Proof. intros HI Hf. by destruct (rbtree_traversal_spec (vma_tree m) l fuel (mi_tree _ _ _ HI) Hf) as (_ & ? & _). Qed.
Lemma next_spec fuel m s l1 n l2 : mm_inv m s (l1 ++ n :: l2) -> (length (l1 ++ n :: l2) < fuel)%nat ->
  jlos_rbtree_next fuel (vma_tree m) n = Some (head l2).
Proof.
  intros HI Hf. destruct (rbtree_traversal_spec (vma_tree m) _ fuel (mi_tree _ _ _ HI) Hf) as (_ & _ & _ & Hn).
  by destruct (Hn l1 n l2 eq_refl).
Qed.

(** ** Free ranges *)

Definition free_range s (l : list Z) (a len : Z) : Prop :=
  forall n, n ∈ l -> v_end (areas s n) <= a \/ a + len <= v_start (areas s n).

(** Free at [a] when everything before the next area ends below it. *)
Lemma free_at s m l1 l2 a len : mm_inv m s (l1 ++ l2) ->
  (forall x, x ∈ l1 -> v_end (areas s x) <= a) -> (forall n, head l2 = Some n -> a + len <= v_start (areas s n)) ->
  free_range s (l1 ++ l2) a len.
Proof.
  intros HI H1 H2 n [Hn|Hn]%elem_of_app; [left; by apply H1|right]. destruct l2 as [|x l2]; [by apply elem_of_nil in Hn|].
  specialize (H2 x eq_refl). apply elem_of_cons in Hn as [->|Hn]; [done|].
  destruct (inv_below _ _ _ _ _ HI) as [_ Hb]. specialize (Hb n Hn). unfold below in Hb.
  destruct (inv_area m s _ x HI) as ((_ & ?) & _); [apply elem_of_app; right; by left|]. lia.
Qed.

(** All areas before [n] end below an address that [n] starts at or below. *)
Lemma ends_before s m l1 n l2 a : mm_inv m s (l1 ++ n :: l2) -> v_start (areas s n) <= a ->
  forall x, x ∈ l1 -> v_end (areas s x) <= a.
Proof. intros HI Ha x Hx. destruct (inv_below _ _ _ _ _ HI) as [Hb _]. specialize (Hb x Hx). unfold below in Hb. lia. Qed.

Lemma try_hint_spec fuel m s l base limit hint len : mm_inv m s l -> (length l < fuel)%nat ->
  0 <= base -> 0 <= limit <= USER_LIMIT -> 0 < len -> 0 <= hint ->
  exists r, try_hint fuel m s base limit hint len = Some r /\
    forall h, r = Some h -> base <= h /\ h + len <= limit /\ free_range s l h len.
Proof.
  unfold USER_LIMIT. intros HI Hf Hb Hl Hlen Hh. unfold try_hint.
  destruct (Z.leb_spec base hint); [|by exists None]. destruct (Z.ltb_spec hint limit); [|by exists None]. cbn [andb].
  destruct (page_align_up_spec hint) as [_ Hu]; [lia|]. set (h := page_align_up hint) in *.
  destruct (Z.ltb_spec h limit); [|by exists None]. rewrite (u32_small (limit - h)) by lia.
  destruct (Z.leb_spec len (limit - h)); [|by exists None]. cbn [andb].
  destruct (find_le_spec fuel m s l h HI Hf) as (r & -> & Hr). cbn [mbind option_bind].
  rewrite (u32_small (h + len)) by lia. destruct r as [n|].
  - destruct Hr as (l1 & l2 & -> & Hn & Hl2). pose proof (ends_before s m l1 n l2 h HI Hn) as Hl1.
    destruct (Z.leb_spec (v_end (areas s n)) h) as [Hle|Hgt].
    + rewrite (next_spec fuel m s l1 n l2 HI Hf). cbn [mbind option_bind]. eexists. split; [done|]. intros h' Eh.
      assert (h' = h /\ (forall n, head l2 = Some n -> h + len <= v_start (areas s n))) as [-> Hhd].
      { destruct (head l2) as [x|]; [|by simplify_eq]. destruct (Z.leb_spec (h + len) (v_start (areas s x))); [|done].
        simplify_eq. split; [done|]. by intros ? [= <-]. }
      split_and!; [lia|lia|]. replace (l1 ++ n :: l2) with ((l1 ++ [n]) ++ l2) in * by (by rewrite <- app_assoc).
      apply (free_at s m); [done| |done]. intros x [Hx|Hx]%elem_of_app; [by apply Hl1|].
      apply list_elem_of_singleton in Hx as ->. done.
    + cbn [mbind option_bind]. eexists. split; [done|]. intros h'. destruct (Z.leb_spec (h + len) (v_start (areas s n))); [lia|done].
  - rewrite (first_spec fuel m s l HI Hf). cbn [mbind option_bind]. eexists. split; [done|]. intros h' Eh.
    assert (h' = h /\ (forall n, head l = Some n -> h + len <= v_start (areas s n))) as [-> Hhd].
    { destruct (head l) as [x|]; [|by simplify_eq]. destruct (Z.leb_spec (h + len) (v_start (areas s x))); [|done].
      simplify_eq. split; [done|]. by intros ? [= <-]. }
    split_and!; [lia|lia|]. apply (free_at s m [] l); [done| |done]. by intros x ?%elem_of_nil.
Qed.

(** The state of the walk: what is before the candidate is too small. *)
Record gap_state s (l1 l2 : list Z) (base len c : Z) : Prop := {
  gs_base : base <= c <= USER_LIMIT;
  gs_before : forall x, x ∈ l1 -> v_end (areas s x) <= c;
  gs_after : forall x, x ∈ l2 -> c <= v_start (areas s x);
  gs_none : forall a, base <= a < c -> ~ free_range s (l1 ++ l2) a len
}.

Lemma gap_start_spec fuel m s l base len : mm_inv m s l -> (length l < fuel)%nat -> 0 <= base <= USER_LIMIT -> 0 < len ->
  exists l1 l2 c, l = l1 ++ l2 /\ gap_start fuel m s base = Some (c, head l2) /\ gap_state s l1 l2 base len c.
Proof.
  intros HI Hf Hb Hlen. unfold gap_start. destruct (find_le_spec fuel m s l base HI Hf) as (r & -> & Hr). cbn [mbind option_bind].
  destruct r as [n|].
  - destruct Hr as (l1 & l2 & -> & Hn & Hl2). pose proof (ends_before s m l1 n l2 base HI Hn) as Hl1.
    rewrite (next_spec fuel m s l1 n l2 HI Hf). cbn [mbind option_bind].
    destruct (inv_area m s _ n HI) as (Ho1 & Ho2 & _ & Ho3); [apply elem_of_app; right; by left|].
    exists (l1 ++ [n]), l2. eexists. rewrite <- app_assoc. split; [done|]. split; [done|].
    destruct (inv_below _ _ _ _ _ HI) as [Hb1 Hb2]. unfold below in Hb2. unfold USER_LIMIT in *.
    rewrite page_align_up_id by lia. destruct (Z.ltb_spec base (v_end (areas s n))); split; try (unfold USER_LIMIT; lia).
    + intros x [Hx|Hx]%elem_of_app; [specialize (Hl1 x Hx); lia|]. by apply list_elem_of_singleton in Hx as ->.
    + intros x Hx. by apply Hb2.
    + intros a Ha Hfr. destruct (Hfr n); [apply elem_of_app; left; apply elem_of_app; right; by left|lia|lia].
    + intros x [Hx|Hx]%elem_of_app; [specialize (Hl1 x Hx); lia|]. by apply list_elem_of_singleton in Hx as ->.
    + intros x Hx. specialize (Hl2 x Hx). lia.
  - rewrite (first_spec fuel m s l HI Hf). cbn [mbind option_bind]. exists [], l, base. split; [done|]. split; [done|].
    split; try (unfold USER_LIMIT in *; lia).
    + by intros x ?%elem_of_nil.
    + intros x Hx. specialize (Hr x Hx). lia.
Qed.

Lemma gap_loop_spec fuel m s base len : 0 < len -> 0 <= base -> forall n l2 l1 c, mm_inv m s (l1 ++ l2) -> (length (l1 ++ l2) < fuel)%nat ->
  (length l2 <= n)%nat -> gap_state s l1 l2 base len c ->
  exists c', gap_loop fuel n m s len c (head l2) = Some c' /\ base <= c' /\ free_range s (l1 ++ l2) c' len /\
    forall a, base <= a < c' -> ~ free_range s (l1 ++ l2) a len.
Proof.
  intros Hlen Hbase. induction n as [|n IH]; intros l2 l1 c HI Hf Hn HG; pose proof HG as [G1 G2 G3 G4]; unfold USER_LIMIT in G1.
  - destruct l2; [|simpl in Hn; lia]. exists c. split_and!; [done|lia| |done]. apply (free_at s m); [done|done|by intros ? ?].
  - destruct l2 as [|v l2].
    { exists c. split_and!; [done|lia| |done]. apply (free_at s m); [done|done|by intros ? ?]. }
    cbn [gap_loop head]. pose proof (G3 v ltac:(by left)) as Hc.
    destruct (inv_area m s _ v HI) as (Ho1 & Ho2 & _ & Ho3); [apply elem_of_app; right; by left|]. unfold USER_LIMIT in Ho2.
    rewrite (proj2 (Z.leb_le _ _) Hc), (u32_small (_ - c)) by lia. cbn [andb].
    destruct (Z.leb_spec len (v_start (areas s v) - c)) as [Hle|Hgt].
    + exists c. split_and!; [done|lia| |done]. apply (free_at s m); [done|done|]. intros ? [= <-]. lia.
    + rewrite (next_spec fuel m s l1 v l2 HI Hf). cbn [mbind option_bind]. rewrite page_align_up_id by lia.
      destruct (inv_below _ _ _ _ _ HI) as [_ Hb2]. unfold below in Hb2.
      replace (l1 ++ v :: l2) with ((l1 ++ [v]) ++ l2) in * by (by rewrite <- app_assoc).
      apply IH; [done|done|simpl in Hn; lia|]. split; [unfold USER_LIMIT; lia| |done|].
      * intros x [Hx|Hx]%elem_of_app; [specialize (G2 x Hx); lia|]. by apply list_elem_of_singleton in Hx as ->.
      * intros a Ha Hfr. destruct (decide (a < c)) as [Hac|Hac]; [exact (G4 a ltac:(lia) Hfr)|].
        destruct (Hfr v); [apply elem_of_app; left; apply elem_of_app; right; by left|lia|lia].
Qed.

(** ** The tree of areas *)

Lemma set_area_eq s n v : areas (set_area s n v) n = v.
Proof. simpl. by rewrite Z.eqb_refl. Qed.
Lemma set_area_ne s n v x : x <> n -> areas (set_area s n v) x = areas s x.
Proof. intros ?. simpl. by destruct (Z.eqb_spec x n). Qed.
Lemma view_ext s s' l : (forall x, x ∈ l -> areas s' x = areas s x) -> view s' l = view s l.
Proof. intros Hx. apply map_ext_Forall, Forall_forall. exact Hx. Qed.
Lemma view_app s l1 l2 : view s (l1 ++ l2) = view s l1 ++ view s l2.
Proof. apply map_app. Qed.
Lemma view_set s n v l : n ∉ l -> view (set_area s n v) l = view s l.
Proof. intros Hn. apply view_ext. intros x Hx. apply set_area_ne. by intros ->. Qed.

Lemma disjoint_app vs ws : disjoint_areas (vs ++ ws) <->
  disjoint_areas vs /\ disjoint_areas ws /\ forall v w, v ∈ vs -> w ∈ ws -> below v w.
Proof.
  unfold disjoint_areas. rewrite StronglySorted_app, Forall_app. naive_solver.
Qed.
Lemma disjoint_cons v ws : disjoint_areas (v :: ws) <-> area_ok v /\ disjoint_areas ws /\ forall w, w ∈ ws -> below v w.
Proof.
  unfold disjoint_areas. rewrite Forall_cons. split.
  - intros ([Hs Hb]%StronglySorted_inv & Hv & Ho). rewrite Forall_forall in Hb. by split_and!.
  - intros (Hv & (Hs & Ho) & Hb). split_and!; [|done|done]. constructor; [done|by apply Forall_forall].
Qed.

(** A change of the world and the objects that keeps what the areas rely on. *)
Lemma inv_frame m m' s s' l t' : mm_inv m s l -> m' = with_tree m t' -> rb_tree t' l ->
  disjoint_areas (view s' l) -> (forall n, n ∈ l -> in_use (objs s') n) -> objs_ok (objs s') ->
  paging_ok (world s') -> (forall c, context (world s') c <-> context (world s) c) -> mm_inv m' s' l.
Proof.
  intros HI -> Ht Hd Hl Ho Hp Hc. split; try done; cbn [mm_pc with_tree]; [|by apply (mi_pc _ _ _ HI)].
  apply Hc, HI.
Qed.

Lemma insert_area_spec fuel m s l n : mm_inv m s l -> n ∉ l -> n <> 0 -> in_use (objs s) n -> area_ok (areas s n) ->
  (forall x, x ∈ l -> below (areas s x) (areas s n) \/ below (areas s n) (areas s x)) -> (length l < fuel)%nat ->
  exists t l1 l2, insert_area fuel m s n = Some (with_tree m t) /\ l = l1 ++ l2 /\ mm_inv (with_tree m t) s (l1 ++ n :: l2).
Proof.
  intros HI Hn H0 Hu Ho Hb Hf. unfold insert_area.
  destruct (rbtree_insert_spec (jlos_vma_compare (areas s)) (vma_tree m) l n fuel) as (t & l1 & l2 & -> & -> & Ht & _ & H1 & H2);
    [intros a b; by rewrite compare_lt, compare_gt|intros a b c; rewrite !compare_le; lia|apply HI|by apply (inv_ordered m)|done|done|done|].
  cbn [mbind option_bind]. exists t, l1, l2. split; [done|]. split; [done|]. unfold below in Hb.
  assert (forall x, x ∈ l1 ++ l2 -> v_start (areas s x) < v_end (areas s x)) as Hx0 by (intros x Hx; apply (inv_area m s _ x HI Hx)).
  pose proof (mi_areas _ _ _ HI) as Hd. rewrite view_app in Hd. apply disjoint_app in Hd as (Hd1 & Hd2 & Hd12).
  destruct HI as [_ _ Hl ? ? ? ?]. pose proof Ho as ((_ & Hlt) & _). split; try done.
  - unfold view. rewrite map_app. cbn [map]. fold (view s l1) (view s l2). apply disjoint_app. split_and!; [done| |].
    + apply disjoint_cons. split_and!; [done|done|]. intros w (x & -> & Hx)%list_elem_of_fmap. specialize (H2 x Hx). apply compare_lt in H2.
      assert (x ∈ l1 ++ l2) as Hx' by (apply elem_of_app; by right). specialize (Hx0 x Hx'). destruct (Hb x Hx'); unfold below; lia.
    + intros v w (x & -> & Hx)%list_elem_of_fmap [->|Hw]%elem_of_cons; [|apply Hd12; [|done]; by apply list_elem_of_fmap_2].
      specialize (H1 x Hx). assert (v_start (areas s x) <= v_start (areas s n)) by (apply Z.le_ngt; rewrite <- compare_lt; lia).
      assert (x ∈ l1 ++ l2) as Hx' by (apply elem_of_app; by left). specialize (Hx0 x Hx'). destruct (Hb x Hx'); unfold below; lia.
  - intros x Hx. apply elem_of_app in Hx as [Hx|[->|Hx]%elem_of_cons]; [|done|]; apply Hl, elem_of_app; auto.
Qed.

Lemma remove_area_spec fuel m s l1 n l2 : mm_inv m s (l1 ++ n :: l2) -> (length (l1 ++ n :: l2) < fuel)%nat ->
  exists t, remove_area fuel m n = Some (with_tree m t) /\ mm_inv (with_tree m t) s (l1 ++ l2).
Proof.
  intros HI Hf. unfold remove_area. destruct (rbtree_remove_spec (vma_tree m) l1 l2 n fuel (mi_tree _ _ _ HI) Hf) as (t & -> & Ht).
  exists t. split; [done|]. destruct HI as [_ Hd Hl ? ? ? ?]. split; try done.
  - unfold view in *. rewrite map_app in *. cbn [map] in Hd. apply disjoint_app in Hd as (H1 & (_ & H2 & _)%disjoint_cons & H12).
    apply disjoint_app. split_and!; [done|done|]. intros v w Hv Hw. apply H12; [done|by right].
  - intros x Hx. apply Hl. apply elem_of_app in Hx as [Hx|Hx]; apply elem_of_app; [by left|right; by right].
Qed.

(** Removing a node and giving its object back. *)
Lemma drop_area_spec fuel m s l1 n l2 : mm_inv m s (l1 ++ n :: l2) -> (length (l1 ++ n :: l2) < fuel)%nat ->
  exists t a, remove_area fuel m n = Some (with_tree m t) /\ obj_free (objs s) n = Some a /\
    mm_inv (with_tree m t) (set_objs s a) (l1 ++ l2) /\ (forall o, in_use a o <-> in_use (objs s) o /\ o <> n).
Proof.
  intros HI Hf. destruct (remove_area_spec fuel m s l1 n l2 HI Hf) as (t & Et & HI').
  destruct (obj_free_law (objs s) n (mi_objs _ _ _ HI)) as (a & Ea & Hoa & Hu).
  { apply (mi_live _ _ _ HI), elem_of_app. right. by left. }
  exists t, a. split; [done|]. split; [done|]. split; [|done].
  destruct (rb_nodup _ _ (mi_tree _ _ _ HI)) as [Hnd _]. apply NoDup_app in Hnd as (_ & Hn1 & [Hn2 _]%NoDup_cons).
  destruct HI' as [? ? Hl ? ? ? ?]. split; try done. intros x Hx. apply Hu. split; [by apply Hl|]. intros ->.
  apply elem_of_app in Hx as [Hx|Hx]; [|done]. apply (Hn1 n Hx). by left.
Qed.

(** ** Unmapping *)

(** Between [w] and [w'] exactly the pages of [pc] in [P] lost their mapping. *)
Definition unmapped (w w' : W) (pc : Z) (P : Z -> Prop) : Prop :=
  paging_ok w' /\ (forall c, context w' c <-> context w c) /\ (forall f, spare w f -> spare w' f) /\
  (forall v, page_ok v -> P v -> mapping w' pc v = None) /\
  (forall c v, page_ok v -> ~ (c = pc /\ P v) -> mapping w' c v = mapping w c v).

Lemma unmapped_refl w pc P : paging_ok w -> (forall v, page_ok v -> ~ P v) -> unmapped w w pc P.
Proof. intros Hw HP. split_and!; try done. intros v Hv Hp. by destruct (HP v Hv). Qed.
Lemma unmapped_trans w1 w2 w3 pc P Q R : unmapped w1 w2 pc P -> unmapped w2 w3 pc Q ->
  (forall v, page_ok v -> Decision (Q v)) -> (forall v, page_ok v -> R v <-> P v \/ Q v) -> unmapped w1 w3 pc R.
Proof.
  intros (_ & C1 & S1 & N1 & M1) (O2 & C2 & S2 & N2 & M2) HD HR. split_and!; [done| | | |].
  - intros c. by rewrite C2.
  - intros f Hf. by apply S2, S1.
  - intros v Hv Hr. destruct (HD v Hv) as [Hq|Hq]; [by apply N2|]. rewrite M2 by tauto.
    apply N1; [done|]. apply HR in Hr; [tauto|done].
  - intros c v Hv Hn. specialize (HR v Hv). rewrite M2 by tauto. apply M1; tauto.
Qed.

Definition in_range (a b v : Z) : Prop := a <= v < b.
#[local] Instance in_range_dec a b v : Decision (in_range a b v).
Proof. unfold in_range. apply _. Defined.

Lemma unmap_pages_spec pc b : b <= USER_LIMIT -> b mod 4096 = 0 -> forall n w a, paging_ok w -> context w pc ->
  0 <= a <= b -> a mod 4096 = 0 -> b - a <= Z.of_nat n * 4096 ->
  exists w', unmap_pages n w pc a b = Some w' /\ unmapped w w' pc (in_range a b).
Proof.
  unfold USER_LIMIT. intros Hb Hbm. induction n as [|n IH]; intros w a Hw Hc Ha Ham Hn; cbn [unmap_pages].
  - destruct (Z.ltb_spec a b); [lia|]. exists w. split; [done|]. apply unmapped_refl; [done|]. unfold in_range. lia.
  - destruct (Z.ltb_spec a b) as [Hlt|Hge].
    + assert (page_ok a) as Hpa by (split; [lia|done]).
      destruct (paging_unmap_law w pc a Hw Hc Hpa) as (w1 & r & -> & Hw1 & Hc1 & Hs1 & Hm1 & Hf1). cbn [mbind option_bind].
      assert (a + 4096 <= b) by (Z.div_mod_to_equations; lia). unfold PAGE_SIZE. rewrite u32_small by lia.
      destruct (IH w1 (a + 4096)) as (w' & -> & Hu); [done|by apply Hc1|lia|by rewrite Z.add_mod, Ham|lia|].
      exists w'. split; [done|]. apply (unmapped_trans w w1 w' pc (fun v => v = a) (in_range (a + 4096) b)); [| done | |].
      * split_and!; [done|done|done|by intros v _ ->|]. intros c v Hv Hne. apply Hf1; [done|]. intros [= -> ->]. tauto.
      * intros v _. apply _.
      * intros v [_ Hv]. unfold in_range. split; [|lia]. intros Hr. Z.div_mod_to_equations. lia.
    + exists w. split; [done|]. apply unmapped_refl; [done|]. unfold in_range. lia.
Qed.

Lemma unmap_range_spec s pc a b : paging_ok (world s) -> context (world s) pc -> 0 <= a <= b -> b <= USER_LIMIT ->
  a mod 4096 = 0 -> b mod 4096 = 0 ->
  exists w', unmap_range s pc a b = Some (set_world s w') /\ unmapped (world s) w' pc (in_range a b).
Proof.
  intros Hw Hc Ha Hb Ham Hbm. unfold unmap_range.
  destruct (unmap_pages_spec pc b Hb Hbm (Z.to_nat (b - a)) (world s) a) as (w' & -> & Hu); try done; [lia|]. by exists w'.
Qed.

(** The invariant does not depend on what is mapped. *)
Lemma inv_unmapped m s l w' P : mm_inv m s l -> unmapped (world s) w' (mm_pc m) P -> mm_inv m (set_world s w') l.
Proof. intros [? ? ? ? ? ? ?] (O & C & _). split; try done. by apply C. Qed.
Lemma inv_set_area m s l n v : mm_inv m s l -> n ∉ l -> mm_inv m (set_area s n v) l.
Proof. intros [? ? ? ? ? ? ?] Hn. split; try done. by rewrite view_set. Qed.

(** Changing one area in place. *)
Lemma inv_change m s l1 n l2 v : mm_inv m s (l1 ++ n :: l2) -> area_ok v ->
  v_start (areas s n) <= v_start v -> v_end v <= v_end (areas s n) -> mm_inv m (set_area s n v) (l1 ++ n :: l2).
Proof.
  intros HI Hv H1 H2. destruct (inv_below _ _ _ _ _ HI) as [Hb1 Hb2]. destruct (rb_nodup _ _ (mi_tree _ _ _ HI)) as [Hnd _].
  apply NoDup_app in Hnd as (_ & Hn1 & [Hn2 _]%NoDup_cons).
  assert (n ∉ l1) as Hn1' by (intros Hx; apply (Hn1 n Hx); by left).
  destruct HI as [? Hd ? ? ? ? ?]. split; try done.
  unfold view in *. rewrite map_app in *. cbn [map] in *. fold (view (set_area s n v) l1) (view (set_area s n v) l2).
  rewrite !view_set by done. rewrite set_area_eq. unfold below in *. apply disjoint_app in Hd as (Hd1 & (_ & Hd2 & _)%disjoint_cons & Hd12).
  apply disjoint_app. split_and!; [done| |].
  - apply disjoint_cons. split_and!; [done|done|]. intros w (x & -> & Hx)%list_elem_of_fmap. specialize (Hb2 x Hx). unfold below. lia.
  - intros u w (x & -> & Hx)%list_elem_of_fmap [->|Hw]%elem_of_cons.
    + specialize (Hb1 x Hx). unfold below. lia.
    + apply Hd12; [by apply list_elem_of_fmap_2|by right].
Qed.

(** ** Objects *)

(** The nodes went from [l] to [l']: objects outside are neither taken nor given
    back, and their contents stay. *)
Record touched s s' (l l' : list Z) : Prop := {
  to_objs : forall o, in_use (objs s') o <-> (in_use (objs s) o /\ o ∉ l) \/ o ∈ l';
  to_fresh : forall o, o ∈ l' -> o ∈ l \/ ~ in_use (objs s) o;
  to_areas : forall x, in_use (objs s) x -> x ∉ l -> areas s' x = areas s x
}.

Lemma touched_refl m s l : mm_inv m s l -> touched s s l l.
Proof.
  intros HI. pose proof (mi_live _ _ _ HI) as Hl. split; [|by left|done]. intros o. destruct (decide (o ∈ l)); naive_solver.
Qed.
Lemma touched_trans s1 s2 s3 l1 l2 l3 : touched s1 s2 l1 l2 -> touched s2 s3 l2 l3 -> touched s1 s3 l1 l3.
Proof.
  intros [O1 F1 A1] [O2 F2 A2]. split.
  - intros o. rewrite O2, O1. specialize (F1 o). destruct (decide (o ∈ l2)), (decide (o ∈ l1)); tauto.
  - intros o Ho. destruct (F2 o Ho) as [H2|H2]; [by apply F1|]. destruct (decide (o ∈ l1)); [by left|right]. intros Hu.
    apply H2, O1. by left.
  - intros x Hx Hn. rewrite <- (A1 x Hx Hn). apply A2; [apply O1; by left|]. intros H2. destruct (F1 x H2); done.
Qed.
Lemma touched_area s n v l : n ∈ l -> (forall x, x ∈ l -> in_use (objs s) x) -> touched s (set_area s n v) l l.
Proof.
  intros Hn Hl. split.
  - intros o. simpl. destruct (decide (o ∈ l)); naive_solver.
  - by left.
  - intros x _ Hx. apply set_area_ne. by intros ->.
Qed.

Lemma alloc_spec s k : objs_ok (objs s) ->
  exists a r, alloc s k = Some (set_objs s a, r) /\ obj_alloc (objs s) k = Some (a, r) /\ objs_ok a /\
    match r with
    | None => forall o, in_use a o <-> in_use (objs s) o
    | Some n => n <> 0 /\ ~ in_use (objs s) n /\ forall o, in_use a o <-> in_use (objs s) o \/ o = n
    end.
Proof. intros Ho. unfold alloc. destruct (obj_alloc_law (objs s) k Ho) as (a & r & -> & ? & ?). by exists a, r. Qed.

(** ** Cutting a range out of one area *)

(** What is left of an area. *)
Definition pieces (a b : Z) (v : vma) : list vma :=
  (if v_start v <? a then [with_end v (Z.min (v_end v) a)] else []) ++
  (if b <? v_end v then [with_start v (Z.max (v_start v) b)] else []).
Definition overlaps (a b : Z) (v : vma) : Prop := v_start v < b /\ a < v_end v.
Definition encloses (a b : Z) (v : vma) : Prop := v_start v < a /\ b < v_end v.

Lemma vma_eta v : Vma (v_start v) (v_end v) (v_flags v) (v_type v) (v_file v) (v_offset v) = v.
Proof. by destruct v. Qed.
Lemma pieces_outside a b v : a < b -> area_ok v -> ~ overlaps a b v -> pieces a b v = [v].
Proof.
  unfold overlaps, pieces, with_end, with_start. intros Hab ((_ & Hv) & _) Hn. zcases; try lia; simpl.
  - rewrite Z.min_l by lia. by rewrite vma_eta.
  - rewrite Z.max_l by lia. by rewrite vma_eta.
Qed.

(** The pages of [v] in the range. *)
Definition cut_pages (a b : Z) (v : vma) (p : Z) : Prop := in_range a b p /\ covers v p.
#[local] Instance cut_pages_dec a b v p : Decision (cut_pages a b v p).
Proof. unfold cut_pages, in_range, covers. apply _. Defined.

Record cut_range (a b : Z) : Prop := {
  cr_range : 0 <= a < b; cr_limit : b <= USER_LIMIT; cr_a : a mod 4096 = 0; cr_b : b mod 4096 = 0 }.

(** What cutting [n] out of the sequence [d ++ n :: l2] yields. *)
Definition cut_to m s d n l2 a b m' s' d' : Prop :=
  (exists t, m' = with_tree m t) /\ mm_inv m' s' (d' ++ l2) /\ touched s s' (d ++ n :: l2) (d' ++ l2) /\
  unmapped (world s) (world s') (mm_pc m) (cut_pages a b (areas s n)) /\
  (forall x, x ∈ l2 -> areas s' x = areas s x).

Lemma unmapped_same w w' pc P Q : unmapped w w' pc P -> (forall v, page_ok v -> P v <-> Q v) -> unmapped w w' pc Q.
Proof.
  intros (? & ? & ? & N & M) HQ. split_and!; try done.
  - intros v Hv Hq. apply N; [done|]. by apply HQ.
  - intros c v Hv Hn. apply M; [done|]. specialize (HQ v Hv). tauto.
Qed.
Lemma cut_unmap m s d n l2 a b : mm_inv m s (d ++ n :: l2) -> cut_range a b -> overlaps a b (areas s n) ->
  let v := areas s n in
  let ov_s := if a <? v_start v then v_start v else a in
  let ov_e := if v_end v <? b then v_end v else b in
  ov_s = Z.max a (v_start v) /\ ov_e = Z.min b (v_end v) /\
  exists w', unmap_range s (mm_pc m) ov_s ov_e = Some (set_world s w') /\
    unmapped (world s) w' (mm_pc m) (cut_pages a b v) /\ mm_inv m (set_world s w') (d ++ n :: l2).
Proof.
  intros HI [Hr Hb Ham Hbm] [Ho1 Ho2] v ov_s ov_e. fold v in Ho1, Ho2.
  destruct (inv_area m s _ n HI) as (Hv1 & Hv2 & Hv3 & Hv4); [apply elem_of_app; right; by left|]. fold v in Hv1, Hv2, Hv3, Hv4.
  assert (ov_s = Z.max a (v_start v)) as Es by (unfold ov_s; zcases; lia).
  assert (ov_e = Z.min b (v_end v)) as Ee by (unfold ov_e; zcases; lia).
  split; [done|]. split; [done|].
  destruct (unmap_range_spec s (mm_pc m) ov_s ov_e) as (w' & Ew & Hu); [apply HI|apply HI|lia|lia| | |].
  { unfold ov_s. by destruct (a <? v_start v). }
  { unfold ov_e. by destruct (v_end v <? b). }
  exists w'. split; [done|]. split; [|by eapply inv_unmapped].
  eapply unmapped_same; [done|]. intros p _. unfold in_range, cut_pages, in_range, covers. lia.
Qed.

Definition oom s : Prop := exists a, obj_alloc (objs s) VmaCache = Some (a, None).

Lemma split_by {B} (P : B -> Prop) (l1 l2 k1 k2 : list B) : l1 ++ l2 = k1 ++ k2 ->
  (forall x, x ∈ l1 -> P x) -> (forall x, x ∈ l2 -> ~ P x) -> (forall x, x ∈ k1 -> P x) -> (forall x, x ∈ k2 -> ~ P x) ->
  l1 = k1 /\ l2 = k2.
Proof.
  revert k1. induction l1 as [|x l1 IH]; intros [|y k1] E H1 H2 H3 H4; simplify_eq/=.
  - done.
  - destruct (H2 y); [by left|]. apply H3. by left.
  - destruct (H4 x); [by left|]. apply H1. by left.
  - destruct (IH k1) as [-> ->]; [done|intros; apply H1; by right|done|intros; apply H3; by right|done|done].
Qed.

Lemma touched_world s w s' l l' : touched (set_world s w) s' l l' -> touched s s' l l'.
Proof. by intros [? ? ?]. Qed.

Lemma drop_touched m s s' d n l2 : mm_inv m s (d ++ n :: l2) ->
  (forall o, in_use (objs s') o <-> in_use (objs s) o /\ o <> n) -> areas s' = areas s -> touched s s' (d ++ n :: l2) (d ++ l2).
Proof.
  intros HI Huse Ea. destruct (rb_nodup _ _ (mi_tree _ _ _ HI)) as [Hnd _].
  apply NoDup_app in Hnd as (_ & Hn1 & [Hn2 _]%NoDup_cons). pose proof (mi_live _ _ _ HI) as Hl.
  split; [|intros x Hx; left|by rewrite Ea].
  - intros x. rewrite Huse. specialize (Hn1 x). specialize (Hl x). rewrite !elem_of_app, !elem_of_cons in *.
    split; [|naive_solver]. intros [Hx Hne]. destruct (decide (x ∈ d)), (decide (x ∈ l2)); tauto.
  - apply elem_of_app in Hx as [Hx|Hx]; apply elem_of_app; [by left|right; by right].
Qed.

(** The area lies in the range. *)
Lemma cut_all m s d n l2 a b fuel : mm_inv m s (d ++ n :: l2) -> cut_range a b -> overlaps a b (areas s n) ->
  a <= v_start (areas s n) -> v_end (areas s n) <= b -> (length (d ++ n :: l2) < fuel)%nat ->
  exists m' s', cut_area fuel m s n a b = Some (m', s') /\ cut_to m s d n l2 a b m' s' d /\ view s' d = view s d.
Proof.
  intros HI Hcr Hov Ha Hb Hf. unfold cut_area. cbv zeta.
  destruct (cut_unmap m s d n l2 a b HI Hcr Hov) as (Es & Ee & w' & -> & Hu & HI1). cbn [mbind option_bind]. rewrite Es, Ee.
  rewrite !(proj2 (Z.leb_le _ _)) by lia. cbn [andb].
  destruct (drop_area_spec fuel m (set_world s w') d n l2 HI1 Hf) as (t & o & -> & Eo & HI2 & Huse). cbn [mbind option_bind].
  unfold jlos_kfree. rewrite Eo. cbn [mbind option_bind]. eexists _, _. split; [done|]. split; [|done].
  split_and!; [by eexists|exact HI2|by eapply drop_touched|done|done].
Qed.

(** One end of the area lies in the range: it shrinks to [v']. *)
Lemma cut_end m s d n l2 a b w' v' : mm_inv m s (d ++ n :: l2) -> mm_inv m (set_world s w') (d ++ n :: l2) ->
  unmapped (world s) w' (mm_pc m) (cut_pages a b (areas s n)) ->
  area_ok v' -> v_start (areas s n) <= v_start v' -> v_end v' <= v_end (areas s n) ->
  cut_to m s d n l2 a b m (set_area (set_world s w') n v') (d ++ [n]) /\
  view (set_area (set_world s w') n v') (d ++ [n]) = view s d ++ [v'].
Proof.
  intros HI HI1 Hu Hv H1 H2. destruct (rb_nodup _ _ (mi_tree _ _ _ HI)) as [Hnd _].
  apply NoDup_app in Hnd as (_ & Hn1 & [Hn2 _]%NoDup_cons). split.
  - split_and!.
    + exists (vma_tree m). by destruct m.
    + rewrite <- app_assoc. by apply inv_change.
    + rewrite <- app_assoc. apply (touched_world s w'), touched_area; [apply elem_of_app; right; by left|apply HI].
    + done.
    + intros x Hx. apply (set_area_ne (set_world s w')). by intros ->.
  - rewrite view_app, view_set by (intros Hx; apply (Hn1 n Hx); by left). f_equal. cbn [view map]. by rewrite set_area_eq.
Qed.

(** The range lies inside the area: a second object is needed. *)
Lemma cut_inside fuel m s d n l2 a b : mm_inv m s (d ++ n :: l2) -> cut_range a b -> encloses a b (areas s n) ->
  (length (d ++ n :: l2) < fuel)%nat ->
  exists m' s' d', cut_area fuel m s n a b = Some (m', s') /\ cut_to m s d n l2 a b m' s' d' /\
    (length d' <= 2 + length d)%nat /\
    (view s' d' = view s d ++ pieces a b (areas s n) \/ oom s /\ view s' d' = view s d ++ [areas s n]).
Proof.
  intros HI Hcr [He1 He2] Hf. pose proof Hcr as [Hab Hlim Ham Hbm]. unfold cut_area. cbv zeta.
  destruct (cut_unmap m s d n l2 a b HI Hcr) as (Es & Ee & w' & -> & Hu & HI1); [split; lia|]. cbn [mbind option_bind]. rewrite Es, Ee.
  rewrite Z.max_l, Z.min_l by lia. rewrite (proj2 (Z.leb_gt a _)) by lia. rewrite (proj2 (Z.leb_gt _ b)) by lia. cbn [andb].
  destruct (alloc_spec (set_world s w') VmaCache (mi_objs _ _ _ HI)) as (o & r & -> & Er & Hok & Hr). cbn [mbind option_bind].
  simpl in Er, Hr. destruct r as [tl|].
  2:{ eexists _, _, (d ++ [n]). split; [done|]. split; [|split; [rewrite length_app; simpl; lia|right; split; [by exists o|unfold view; by rewrite map_app]]].
      split_and!; [exists (vma_tree m); by destruct m| | |done|done]; rewrite <- app_assoc; cbn [app].
      - destruct HI1 as [? ? Hl ? ? ? ?]. split; try done. intros x Hx. simpl. by apply Hr, Hl.
      - destruct (touched_refl m s _ HI) as [T1 T2 T3]. split; [|done|done]. intros x. etrans; [apply Hr|apply T1]. }
  destruct Hr as (Ht0 & Htn & Hr). set (v := areas s n) in *. set (l := d ++ n :: l2) in *.
  assert (tl ∉ l) as Htl by (intros Hx; apply Htn, (mi_live _ _ _ HI), Hx).
  assert (n ∈ l) as Hnl by (apply elem_of_app; right; by left). assert (tl <> n) as Hne by (intros ->; done).
  destruct (inv_area m s l n HI Hnl) as (Hv1 & Hv2 & Hv3 & Hv4). fold v in Hv1, Hv2, Hv3, Hv4.
  set (s1 := set_area (set_objs (set_world s w') o) tl (with_start v b)). set (s2 := set_area s1 n (with_end v a)).
  assert (mm_inv m s2 l) as HI2.
  { assert (areas s1 n = v) as En by (apply (set_area_ne (set_objs (set_world s w') o)); done).
    apply inv_change; rewrite ?En; simpl; try lia; [|split_and!; simpl; lia || done]. apply inv_set_area; [|done].
    destruct HI1 as [? ? Hl ? ? ? ?]. split; try done. intros x Hx. simpl. apply Hr. left. by apply Hl. }
  assert (areas s2 tl = with_start v b) as Et by (unfold s2; rewrite set_area_ne by done; apply set_area_eq).
  assert (areas s2 n = with_end v a) as En by apply set_area_eq.
  assert (forall x, x ∈ l -> x <> n -> areas s2 x = areas s x) as Ex.
  { intros x Hx Hxn. unfold s2. rewrite set_area_ne by done. apply (set_area_ne (set_objs (set_world s w') o)). by intros ->. }
  destruct (inv_below _ _ _ _ _ HI) as [Hb1 Hb2]. fold v in Hb1, Hb2. unfold below in Hb1, Hb2.
  destruct (rb_nodup _ _ (mi_tree _ _ _ HI)) as [Hnd _].
  assert (forall x, x ∈ d -> x ∈ l /\ x <> n /\ v_end (areas s2 x) <= v_start v) as Hd.
  { intros x Hx. assert (x ∈ l) by (apply elem_of_app; by left). assert (x <> n).
    { intros ->. apply NoDup_app in Hnd as (_ & Hn1 & _). apply (Hn1 n Hx). by left. }
    split_and!; [done|done|]. rewrite Ex by done. by apply Hb1. }
  assert (forall x, x ∈ l2 -> x ∈ l /\ x <> n /\ v_end v <= v_start (areas s2 x) < v_end (areas s2 x)) as Hl2.
  { intros x Hx. assert (x ∈ l) as Hxl by (apply elem_of_app; right; by right). assert (x <> n).
    { intros ->. apply NoDup_app in Hnd as (_ & _ & [Hn2 _]%NoDup_cons). done. }
    split_and!; [done|done| |]; rewrite Ex by done; [by apply Hb2|]. apply (inv_area m s l x HI Hxl). }
  assert (area_ok (areas s2 tl)) as Htok by (rewrite Et; split_and!; simpl; lia || done).
  destruct (insert_area_spec fuel m s2 l tl HI2 Htl Ht0) as (t & l1 & l3 & -> & El & HI3); [apply Hr; by right|done| |done|].
  { intros x Hx. unfold below. rewrite Et. cbn [v_start v_end with_start]. apply elem_of_app in Hx as [Hx|[->|Hx]%elem_of_cons].
    - left. destruct (Hd x Hx) as (_ & _ & ?). lia.
    - left. rewrite En. cbn [v_end with_end]. lia.
    - right. destruct (Hl2 x Hx) as (_ & _ & ?). lia. }
  cbn [mbind option_bind]. assert (l1 = d ++ [n] /\ l3 = l2) as [-> ->].
  { destruct (inv_below _ _ _ _ _ HI3) as [Hi1 Hi3]. unfold below in Hi1, Hi3. rewrite Et in Hi1, Hi3. cbn [v_start v_end with_start] in Hi1, Hi3.
    apply (split_by (fun x => v_end (areas s2 x) <= b)); [by rewrite <- El, <- app_assoc|done| | |].
    - intros x Hx. specialize (Hi3 x Hx). destruct (inv_area m s2 l x HI2) as ((_ & ?) & _); [rewrite El; apply elem_of_app; by right|]. lia.
    - intros x [Hx|Hx]%elem_of_app; [destruct (Hd x Hx) as (_ & _ & ?); lia|]. apply list_elem_of_singleton in Hx as ->. rewrite En. cbn [v_end with_end]. lia.
    - intros x Hx. destruct (Hl2 x Hx) as (_ & _ & ?). lia. }
  eexists _, s2, ((d ++ [n]) ++ [tl]). split; [done|]. split; [|split; [rewrite !length_app; simpl; lia|left]].
  - unfold cut_to. rewrite <- (app_assoc (d ++ [n])). split_and!; [by eexists|exact HI3| |exact Hu|].
    + split.
      * intros x. cbn [s2 s1 objs set_area set_objs]. rewrite Hr. change ([tl] ++ l2) with (tl :: l2). rewrite !elem_of_app, elem_of_cons, list_elem_of_singleton. pose proof (mi_live _ _ _ HI x) as Hlx.
        unfold l in *. rewrite elem_of_app, elem_of_cons in *. destruct (decide (x ∈ d)), (decide (x = n)), (decide (x ∈ l2)); tauto.
      * intros x [[Hx|Hx]%elem_of_app|[->|Hx]%elem_of_cons]%elem_of_app; [left; by apply Hd| |by right|left; by apply Hl2].
        left. by apply list_elem_of_singleton in Hx as ->.
      * intros x Hx Hxl. unfold s2. rewrite set_area_ne by (intros ->; done). apply (set_area_ne (set_objs (set_world s w') o)). intros ->. done.
    + intros x Hx. destruct (Hl2 x Hx) as (? & ? & _). by apply Ex.
  - rewrite !view_app, <- app_assoc. f_equal; [apply view_ext; intros x Hx; destruct (Hd x Hx) as (? & ? & _); by apply Ex|].
    cbn [view map app]. rewrite En, Et. unfold pieces. rewrite (proj2 (Z.ltb_lt _ _) He1), (proj2 (Z.ltb_lt _ _) He2).
    rewrite Z.min_r, Z.max_r by lia. done.
Qed.

Lemma cut_area_spec fuel m s d n l2 a b : mm_inv m s (d ++ n :: l2) -> cut_range a b -> overlaps a b (areas s n) ->
  (length (d ++ n :: l2) < fuel)%nat ->
  exists m' s' d', cut_area fuel m s n a b = Some (m', s') /\ cut_to m s d n l2 a b m' s' d' /\
    (length d' <= 2 + length d)%nat /\ (~ encloses a b (areas s n) -> (length d' <= 1 + length d)%nat) /\
    (view s' d' = view s d ++ pieces a b (areas s n) \/
     encloses a b (areas s n) /\ oom s /\ view s' d' = view s d ++ [areas s n]).
Proof.
  intros HI Hcr Hov Hf. destruct (decide (v_start (areas s n) < a /\ b < v_end (areas s n))) as [He|He].
  { destruct (cut_inside fuel m s d n l2 a b HI Hcr He Hf) as (m' & s' & d' & E & Hc & Hl & Hv). exists m', s', d'.
    split_and!; [done|done|done|done|]. destruct Hv as [?|[? ?]]; [by left|by right]. }
  destruct (cut_unmap m s d n l2 a b HI Hcr Hov) as (Es & Ee & w' & Ew & Hu & HI1).
  destruct (inv_area m s _ n HI) as (Hv1 & Hv2 & Hv3 & Hv4); [apply elem_of_app; right; by left|].
  pose proof Hcr as [Hab Hlim Ham Hbm]. destruct Hov as [Ho1 Ho2].
  destruct (Z.leb_spec a (v_start (areas s n))) as [Ha|Ha], (Z.leb_spec (v_end (areas s n)) b) as [Hb|Hb]; [| | |lia].
  - destruct (cut_all m s d n l2 a b fuel HI Hcr (conj Ho1 Ho2) Ha Hb Hf) as (m' & s' & E & Hc & Hv). exists m', s', d.
    split_and!; [done|done|lia|lia|left]. rewrite Hv. unfold pieces. rewrite (proj2 (Z.ltb_ge _ _) Ha), (proj2 (Z.ltb_ge _ _) Hb). by rewrite app_nil_r.
  - unfold cut_area. cbv zeta. rewrite Ew. cbn [mbind option_bind]. rewrite Es, Ee.
    rewrite (proj2 (Z.leb_le _ _)) by lia. rewrite (proj2 (Z.leb_gt (v_end _) _)) by lia. cbn [andb]. rewrite Z.min_l by lia.
    destruct (cut_end m s d n l2 a b w' (with_start (areas s n) b) HI HI1 Hu) as [Hc Hv]; [split_and!; simpl; lia || done|simpl; lia..|].
    eexists _, _, _. split; [done|]. split; [exact Hc|]. rewrite length_app. split_and!; [simpl; lia|simpl; lia|left].
    rewrite Hv. unfold pieces. rewrite (proj2 (Z.ltb_ge _ _) Ha), (proj2 (Z.ltb_lt _ _) Hb). by rewrite Z.max_r by lia.
  - unfold cut_area. cbv zeta. rewrite Ew. cbn [mbind option_bind]. rewrite Es, Ee.
    rewrite (proj2 (Z.leb_gt _ (v_start _))) by lia. rewrite (proj2 (Z.leb_le (v_end _) _)) by lia. cbn [andb]. rewrite Z.max_l by lia.
    destruct (cut_end m s d n l2 a b w' (with_end (areas s n) a) HI HI1 Hu) as [Hc Hv]; [split_and!; simpl; lia || done|simpl; lia..|].
    eexists _, _, _. split; [done|]. split; [exact Hc|]. rewrite length_app. split_and!; [simpl; lia|simpl; lia|left].
    rewrite Hv. unfold pieces. rewrite (proj2 (Z.ltb_lt _ _) Ha), (proj2 (Z.ltb_ge _ _) Hb). by rewrite Z.min_r, app_nil_r by lia.
Qed.

(** ** Cutting a range out of all areas *)

Definition removed_pages (a b : Z) (vs : list vma) (p : Z) : Prop := in_range a b p /\ Exists (fun v => covers v p) vs.
#[local] Instance removed_pages_dec a b vs p : Decision (removed_pages a b vs p).
Proof. unfold removed_pages, in_range, covers. apply _. Defined.

(** All areas that are left start behind the range. *)
Lemma remove_done fuel n m s d l2 a b : mm_inv m s (d ++ l2) -> (length (d ++ l2) < fuel)%nat -> (0 < n)%nat ->
  (forall x, x ∈ l2 -> b <= v_start (areas s x)) -> remove_loop fuel n m s a b (head l2) = Some (m, s).
Proof.
  intros HI Hf Hn Hb. destruct l2 as [|x l2]; [by destruct n|]. destruct n as [|n]; [lia|]. cbn [remove_loop head].
  rewrite (next_spec fuel m s d x l2 HI Hf). cbn [mbind option_bind]. by rewrite (proj2 (Z.leb_le _ _)) by (apply Hb; by left).
Qed.
Lemma pieces_all a b vs : a < b -> Forall area_ok vs -> (forall v, v ∈ vs -> ~ overlaps a b v) -> concat (map (pieces a b) vs) = vs.
Proof.
  intros Hab Hok. induction Hok as [|v vs Hv _ IH]; intros Ho; [done|]. simpl. rewrite pieces_outside; [|done|done|apply Ho; by left].
  simpl. rewrite IH; [done|]. intros w Hw. apply Ho. by right.
Qed.

Definition loop_to m s d l2 a b m' s' l' : Prop :=
  (exists t, m' = with_tree m t) /\ mm_inv m' s' l' /\ touched s s' (d ++ l2) l' /\
  unmapped (world s) (world s') (mm_pc m) (removed_pages a b (view s l2)) /\
  (view s' l' = view s d ++ concat (map (pieces a b) (view s l2)) \/
   oom s /\ (exists v, v ∈ view s l2 /\ encloses a b v) /\ view s' l' = view s (d ++ l2)).

(** Nothing of [l2] overlaps the range. *)
Lemma loop_to_same m s d l2 a b : mm_inv m s (d ++ l2) -> cut_range a b -> (forall x, x ∈ l2 -> ~ overlaps a b (areas s x)) ->
  loop_to m s d l2 a b m s (d ++ l2).
Proof.
  intros HI Hcr Ho. pose proof (mi_areas _ _ _ HI) as Hd. rewrite view_app in Hd. apply disjoint_app in Hd as (_ & [_ Hok] & _).
  split_and!; [exists (vma_tree m); by destruct m|done|by eapply touched_refl| |].
  - apply unmapped_refl; [apply HI|]. intros p _ [Hr (v & (x & -> & Hx)%list_elem_of_fmap & Hc)%Exists_exists].
    apply (Ho x Hx). unfold in_range, covers in *. split; lia.
  - left. rewrite view_app, pieces_all; [done|apply Hcr|done|]. intros v (x & -> & Hx)%list_elem_of_fmap. by apply Ho.
Qed.

(** A cut followed by what the loop does to the rest. *)
Lemma loop_to_cut m s d n l2 a b m1 s1 d1 m' s' l' : mm_inv m s (d ++ n :: l2) -> overlaps a b (areas s n) ->
  cut_to m s d n l2 a b m1 s1 d1 ->
  view s1 d1 = view s d ++ pieces a b (areas s n) -> loop_to m1 s1 d1 l2 a b m' s' l' -> loop_to m s d (n :: l2) a b m' s' l'.
Proof.
  intros HI Hov ((t & ->) & HI1 & T1 & U1 & Ex) Hv ((t' & ->) & HI' & T2 & U2 & V2). cbn [mm_pc with_tree] in U2.
  assert (view s1 l2 = view s l2) as Evl by (by apply view_ext).
  destruct (inv_below _ _ _ _ _ HI) as [_ Hb]. split_and!; [by exists t'|done|by eapply touched_trans| |left].
  - eapply unmapped_trans; [exact U1|exact U2|intros p _; apply _|]. intros p _. rewrite Evl. unfold removed_pages, cut_pages.
    cbn [view map]. rewrite Exists_cons. tauto.
  - destruct V2 as [V2|(_ & (v & Hin & He) & _)].
    + rewrite V2, Hv, Evl. cbn [view map concat]. by rewrite <- app_assoc.
    + rewrite Evl in Hin. apply list_elem_of_fmap in Hin as (y & -> & Hy). specialize (Hb y Hy).
      unfold overlaps, encloses, below in *. lia.
Qed.

Lemma remove_loop_spec fuel a b : cut_range a b -> forall l2 n m s d, mm_inv m s (d ++ l2) ->
  (S (length (d ++ l2)) < fuel)%nat -> (length l2 < n)%nat ->
  exists m' s' l', remove_loop fuel n m s a b (head l2) = Some (m', s') /\ loop_to m s d l2 a b m' s' l'.
Proof.
  intros Hcr. induction l2 as [|x l2 IH]; intros n m s d HI Hf Hn.
  { exists m, s, (d ++ []). split; [by destruct n|]. apply loop_to_same; [done|done|]. by intros x ?%elem_of_nil. }
  destruct (inv_below _ _ _ _ _ HI) as [_ Hb]. unfold below in Hb.
  destruct (inv_area m s _ x HI) as ((_ & Hx) & _); [apply elem_of_app; right; by left|].
  destruct (Z.le_gt_cases b (v_start (areas s x))) as [Hdone|Hlt].
  { exists m, s, (d ++ x :: l2). assert (forall y, y ∈ x :: l2 -> b <= v_start (areas s y)) as Hall.
    { intros y [->|Hy]%elem_of_cons; [done|]. specialize (Hb y Hy). lia. }
    split; [by eapply remove_done; [done|lia|lia|]|]. apply loop_to_same; [done|done|]. intros y Hy [? _]. specialize (Hall y Hy). lia. }
  destruct n as [|n]; [lia|]. cbn [remove_loop head length] in *. rewrite (next_spec fuel m s d x l2 HI) by lia. cbn [mbind option_bind].
  rewrite (proj2 (Z.leb_gt _ _)) by lia. destruct (Z.ltb_spec a (v_end (areas s x))) as [Hov|Hno].
  - destruct (cut_area_spec fuel m s d x l2 a b HI Hcr (conj Hlt Hov) ltac:(lia)) as (m1 & s1 & d1 & -> & Hc & Hl1 & Hl2 & Hv).
    cbn [mbind option_bind]. pose proof Hc as (_ & HI1 & HT1 & HU1 & Hex). rewrite length_app in Hf. cbn [length] in Hf.
    destruct (decide (v_start (areas s x) < a /\ b < v_end (areas s x))) as [He|He].
    + assert (forall y, y ∈ l2 -> b <= v_start (areas s1 y)) as Hall.
      { intros y Hy. rewrite Hex by done. specialize (Hb y Hy). lia. }
      exists m1, s1, (d1 ++ l2). split; [apply (remove_done fuel n m1 s1 d1 l2 a b HI1); [rewrite length_app; lia|lia|done]|].
      destruct Hv as [Hv|(_ & Ho & Hv)].
      * eapply loop_to_cut; [done|by split|done|done|]. apply loop_to_same; [done|done|]. intros y Hy [? _]. specialize (Hall y Hy). lia.
      * destruct Hc as (Ht & _). split_and!; [done|done|done| |].
        -- eapply unmapped_same; [exact HU1|]. intros p _. unfold cut_pages, removed_pages. cbn [view map]. rewrite Exists_cons.
           split; [tauto|]. intros [Hp [?|Hex']]; [tauto|]. apply Exists_exists in Hex' as (v & (y & -> & Hy)%list_elem_of_fmap & Hcv).
           specialize (Hb y Hy). unfold in_range, covers in *. lia.
        -- right. split_and!; [done|exists (areas s x); split; [by left|done]|]. rewrite view_app, Hv, (view_ext s s1 l2), view_app by done.
           cbn [view map]. by rewrite <- app_assoc.
    + destruct Hv as [Hv|[? _]]; [|done]. destruct (IH n m1 s1 d1 HI1) as (m' & s' & l' & E & Hlt'); [rewrite length_app; specialize (Hl2 He); lia|lia|].
      exists m', s', l'. split; [done|]. by eapply loop_to_cut.
  - replace (d ++ x :: l2) with ((d ++ [x]) ++ l2) in HI, Hf by (by rewrite <- app_assoc).
    destruct (IH n m s (d ++ [x]) HI Hf) as (m' & s' & l' & E & Ht & HI' & HT & HU & HV); [lia|].
    exists m', s', l'. split; [done|]. rewrite <- app_assoc in HT, HV.
    split_and!; [done|done|done| |].
    + eapply unmapped_same; [exact HU|]. intros p _. unfold removed_pages. cbn [view map]. rewrite Exists_cons.
      split; [tauto|]. intros [Hp [Hc|?]]; [unfold in_range, covers in *; lia|done].
    + destruct HV as [HV|(Ho & (v & Hin & He) & HV)]; [left|right].
      * rewrite HV, view_app. cbn [view map concat]. rewrite pieces_outside, <- app_assoc; [done|apply Hcr| |unfold overlaps; lia].
        eapply inv_area; [exact HI|]. apply elem_of_app. left. apply elem_of_app. right. by left.
      * split_and!; [done|exists v; split; [by right|done]|done].
Qed.

(** ** Adding and demand mapping *)

Lemma range_aligned start end_ : 0 <= start < end_ -> end_ <= USER_LIMIT ->
  cut_range (page_align_down start) (page_align_up end_) /\ page_align_down start <= start /\ end_ <= page_align_up end_.
Proof.
  unfold USER_LIMIT. intros Hs He. destruct (page_align_down_spec start) as [Ha1 Ha2]; [lia|].
  destruct (page_align_up_spec end_) as [Hb1 Hb2]; [lia|].
  assert (0 <= page_align_down start) by (Z.div_mod_to_equations; lia).
  assert (page_align_up end_ <= 0xC0000000) by (Z.div_mod_to_equations; lia).
  split; [|lia]. split; unfold USER_LIMIT; lia || done.
Qed.

Lemma add_spec fuel m s l start end_ flags type : mm_inv m s l -> (length l < fuel)%nat ->
  0 <= start < end_ -> end_ <= USER_LIMIT ->
  (forall n, n ∈ l -> ~ overlaps (page_align_down start) (page_align_up end_) (areas s n)) ->
  exists m' s' r, jlos_vma_add fuel m s start end_ flags type = Some (m', s', r) /\ world s' = world s /\
    match r with
    | None => oom s /\ m' = m /\ mm_inv m s' l /\ touched s s' l l /\ areas s' = areas s
    | Some n => exists t l1 l2, m' = with_tree m t /\ l = l1 ++ l2 /\ mm_inv m' s' (l1 ++ n :: l2) /\
        touched s s' l (l1 ++ n :: l2) /\ view s' l = view s l /\
        areas s' n = Vma (page_align_down start) (page_align_up end_) flags type 0 0
    end.
Proof.
  intros HI Hf Hs He Hn. destruct (range_aligned start end_ Hs He) as ([Hr Hl Ha Hb] & _ & _).
  unfold jlos_vma_add. rewrite (proj2 (Z.leb_gt _ _)) by lia.
  destruct (alloc_spec s VmaCache (mi_objs _ _ _ HI)) as (o & r & -> & Er & Hok & Hr'). cbn [mbind option_bind]. destruct r as [v|].
  - destruct Hr' as (H0 & Hv & Hu). set (nv := Vma _ _ _ _ _ _). set (s1 := set_area (set_objs s o) v nv).
    assert (area_ok nv) as Hnv by (unfold area_ok, nv; cbn [v_start v_end]; split_and!; lia || done).
    assert (v ∉ l) as Hvl by (intros Hx; apply Hv, (mi_live _ _ _ HI), Hx).
    assert (mm_inv m s1 l) as HI1.
    { apply inv_set_area; [|done]. destruct HI as [? ? Hli ? ? ? ?]. split; try done. intros x Hx. simpl. apply Hu. left. by apply Hli. }
    assert (areas s1 v = nv) as Ev by apply set_area_eq.
    assert (forall x, x ∈ l -> areas s1 x = areas s x) as Ex.
    { intros x Hx. apply (set_area_ne (set_objs s o)). by intros ->. }
    destruct (insert_area_spec fuel m s1 l v HI1 Hvl H0) as (t & l1 & l2 & -> & El & HI2); [simpl; apply Hu; by right|rewrite Ev; by apply Hnv| |done|].
    { intros x Hx. specialize (Hn x Hx). rewrite Ex by done. rewrite Ev. unfold overlaps, below, nv in *. cbn [v_start v_end]. lia. }
    cbn [mbind option_bind]. eexists _, s1, (Some v). split; [done|]. split; [done|]. exists t, l1, l2. split_and!; [done|done|done| |by apply view_ext|done].
    pose proof (mi_live _ _ _ HI) as Hli. split.
    + intros x. unfold s1. cbn [objs set_area set_objs]. rewrite Hu. specialize (Hli x). rewrite El in *. rewrite !elem_of_app, elem_of_cons in *.
      destruct (decide (x ∈ l1)), (decide (x ∈ l2)); tauto.
    + intros x Hx. rewrite El. rewrite elem_of_app in *. rewrite elem_of_cons in Hx. destruct Hx as [?|[->|?]]; tauto.
    + intros x Hx Hxl. apply (set_area_ne (set_objs s o)). by intros ->.
  - eexists m, _, None. split; [done|]. split; [done|]. split_and!; [by exists o|done| | |done].
    + destruct HI as [? ? Hli ? ? ? ?]. split; try done. intros x Hx. simpl. by apply Hr', Hli.
    + destruct (touched_refl m s l HI) as [T1 T2 T3]. split; [|done|done]. intros x. etrans; [apply Hr'|apply T1].
Qed.
End inv.

(** C27. Removing a range.  With [a] and [b] the range rounded to pages: the areas
    afterwards are what is left of each area outside [[a, b)], in order, with an area
    that encloses the range split in two; all pages of areas in the range are
    unmapped and no other page of any address space is; objects of areas that
    vanished are given back and no others; the areas stay disjoint and the tree
    balanced.  Only when an enclosing area cannot be split for lack of memory do
    the areas stay as they were, with their pages in the range unmapped all the
    same. *)
Theorem vma_remove_range_correct {A W} `{ObjSourceLaws A} `{PagingLaws W} (fuel : nat) (m : mm_t) (s : vstate A W) (l : list Z) (start end_ : Z) :
  mm_inv m s l -> (S (length l) < fuel)%nat -> 0 <= start < end_ -> end_ <= USER_LIMIT ->
  let a := page_align_down start in let b := page_align_up end_ in
  exists m' s' l', jlos_vma_remove_range fuel m s start end_ = Some (m', s', true) /\ mm_inv m' s' l' /\
    touched s s' l l' /\ unmapped (world s) (world s') (mm_pc m) (removed_pages a b (view s l)) /\
    (view s' l' = concat (map (pieces a b) (view s l)) \/
     oom s /\ (exists v, v ∈ view s l /\ encloses a b v) /\ view s' l' = view s l).
Proof.
  intros HI Hf Hs He a b. destruct (range_aligned start end_ Hs He) as (Hcr & _). unfold jlos_vma_remove_range.
  rewrite (proj2 (Z.eqb_neq _ _) (mi_pc _ _ _ HI)), (proj2 (Z.leb_gt _ _)) by lia. cbn [orb].
  rewrite (first_spec fuel m s l HI) by lia. cbn [mbind option_bind]. fold a b.
  destruct (remove_loop_spec fuel a b Hcr l fuel m s [] HI Hf) as (m' & s' & l' & -> & _ & HI' & HT & HU & HV); [lia|].
  cbn [mbind option_bind]. by exists m', s', l'.
Qed.

(** Searching a free range of [len] bytes between [base] and [limit] always
    ends, and returns a range that no area touches, or 0 exactly when every range of
    that length there touches one. *)
Theorem vma_find_free_area_correct {A W} `{ObjSourceLaws A} `{PagingLaws W} (fuel : nat) (m : mm_t) (s : vstate A W) (l : list Z)
    (base limit hint len : Z) :
  mm_inv m s l -> (length l < fuel)%nat -> 0 < base <= USER_LIMIT -> 0 <= limit <= USER_LIMIT -> 0 < len -> 0 <= hint ->
  exists r, jlos_vma_find_free_area fuel m s base limit hint len = Some r /\
    (r = 0 /\ (forall a, base <= a -> a + len <= limit -> ~ free_range s l a len) \/
     base <= r /\ r + len <= limit /\ free_range s l r len).
Proof.
  intros HI Hf Hb Hl Hlen Hh. unfold jlos_vma_find_free_area. rewrite (proj2 (Z.eqb_neq _ _)) by lia.
  destruct (try_hint_spec fuel m s l base limit hint len HI Hf ltac:(lia) Hl Hlen Hh) as (r & -> & Hr). cbn [mbind option_bind].
  destruct r as [h|]; [exists h; split; [done|]; right; by apply Hr|].
  destruct (gap_start_spec fuel m s l base len HI Hf ltac:(lia) Hlen) as (l1 & l2 & c & -> & -> & HG). cbn [mbind option_bind].
  destruct (gap_loop_spec fuel m s base len Hlen ltac:(lia) fuel l2 l1 c HI Hf) as (c' & -> & Hc & Hfr & Hmin);
    [rewrite length_app in Hf; lia|done|]. cbn [mbind option_bind]. eexists. split; [done|]. unfold USER_LIMIT in *.
  rewrite (proj2 (Z.ltb_ge _ _) Hc). cbn [orb].
  destruct (Z.leb_spec limit c') as [Hge|Hlt]; cbn [orb].
  { left. split; [done|]. intros a Ha Hal. apply Hmin. lia. }
  rewrite u32_small by lia. destruct (Z.ltb_spec (limit - c') len) as [Hsm|Hok].
  - left. split; [done|]. intros a Ha Hal. apply Hmin. lia.
  - right. split_and!; [lia|lia|done].
Qed.

Lemma covers_unique {A W} `{ObjSource A} `{Paging W} m (s : vstate A W) l x y addr : mm_inv m s l ->
  x ∈ l -> y ∈ l -> covers (areas s x) addr -> covers (areas s y) addr -> x = y.
Proof.
  intros HI (l1 & l2 & ->)%list_elem_of_split Hy Hx Hcy. destruct (inv_below _ _ _ _ _ HI) as [Hb1 Hb2].
  unfold below, covers in *. apply elem_of_app in Hy as [Hy|[->|Hy]%elem_of_cons]; [specialize (Hb1 y Hy); lia|done|specialize (Hb2 y Hy); lia].
Qed.

(** Insert and look up.  Adding a range that touches no area either fails for
    lack of memory, and then no lookup changes, or returns an area that a lookup
    finds at exactly the addresses of the range rounded to pages; lookups elsewhere
    give what they gave before. *)
Theorem vma_add_find_correct {A W} `{ObjSourceLaws A} `{PagingLaws W} (fuel : nat) (m : mm_t) (s : vstate A W) (l : list Z)
    (start end_ flags : Z) (type : vma_type) :
  mm_inv m s l -> (S (length l) < fuel)%nat -> 0 <= start < end_ -> end_ <= USER_LIMIT ->
  let a := page_align_down start in let b := page_align_up end_ in
  (forall n, n ∈ l -> ~ overlaps a b (areas s n)) ->
  exists m' s' r, jlos_vma_add fuel m s start end_ flags type = Some (m', s', r) /\
    forall addr, exists q q', jlos_vma_find fuel m s addr = Some q /\ jlos_vma_find fuel m' s' addr = Some q' /\
      match r with
      | None => oom s /\ q' = q
      | Some n => areas s' n = Vma a b flags type 0 0 /\ q' = if decide (a <= addr < b) then Some n else q
      end.
Proof.
  intros HI Hf Hs He a b Hn. destruct (add_spec fuel m s l start end_ flags type HI ltac:(lia) Hs He Hn) as (m' & s' & r & -> & _ & Hr).
  exists m', s', r. split; [done|]. intros addr. destruct (find_spec fuel m s l addr HI ltac:(lia)) as (q & Eq & Hq). exists q. rewrite Eq. destruct r as [n|].
  - destruct Hr as (t & l1 & l2 & -> & El & HI' & HT & Hv & En). fold a b in En.
    destruct (find_spec fuel (with_tree m t) s' _ addr HI') as (q' & Eq' & Hq').
    { rewrite El in Hf. rewrite length_app in *. simpl. lia. }
    exists q'. split; [done|]. split; [done|]. split; [done|].
    assert (forall x, x ∈ l -> areas s' x = areas s x /\ x ∈ l1 ++ n :: l2) as Hl.
    { intros x Hx. split.
      - apply list_elem_of_lookup in Hx as [i Hi].
        assert (view s' l !! i = view s l !! i) as E by (by rewrite Hv). unfold view in E. rewrite !list_lookup_fmap, Hi in E. by injection E.
      - rewrite El in Hx. rewrite elem_of_app in *. rewrite elem_of_cons. tauto. }
    assert (covers (areas s' n) addr <-> a <= addr < b) as Hcn by (by rewrite En).
    destruct (decide (a <= addr < b)) as [Hin|Hout].
    + destruct q' as [y|]; [|destruct (Hq' n); [apply elem_of_app; right; by left|by apply Hcn]].
      destruct Hq' as [Hy Hc]. f_equal. eapply covers_unique; [exact HI'|done| |done|by apply Hcn]. apply elem_of_app. right. by left.
    + destruct q' as [y|], q as [x|]; try done.
      * destruct Hq' as [Hy Hcy], Hq as [Hx Hcx]. destruct (Hl x Hx) as [Ex Hx']. rewrite <- Ex in Hcx. f_equal. by eapply covers_unique.
      * destruct Hq' as [Hy Hcy]. exfalso. assert (y ∈ l) as Hyl.
        { rewrite El. apply elem_of_app in Hy as [?|[->|?]%elem_of_cons]; [apply elem_of_app; by left|tauto|apply elem_of_app; by right]. }
        destruct (Hl y Hyl) as [Ey _]. rewrite Ey in Hcy. by apply (Hq y Hyl).
      * destruct Hq as [Hx Hcx]. destruct (Hl x Hx) as [Ex Hx']. rewrite <- Ex in Hcx. by destruct (Hq' x Hx').
  - destruct Hr as (Ho & -> & HI' & _ & Ea). exists q. split; [done|]. split; [|done]. rewrite <- Eq. unfold jlos_vma_find, find_le. by rewrite Ea.
Qed.

Lemma demand_map_spec {A W} `{ObjSourceLaws A} `{PagingLaws W} (fuel : nat) (m : mm_t) (s : vstate A W) (l : list Z) (addr : Z) :
  mm_inv m s l -> (length l < fuel)%nat -> 0 <= addr < USER_LIMIT -> room (world s) (mm_pc m) (page_align_down addr) ->
  let page := page_align_down addr in
  exists w' ok, jlos_vma_demand_map fuel m s addr = Some (set_world s w', ok) /\ mm_inv m (set_world s w') l /\
    (forall f, spare w' f <-> spare (world s) f) /\
    if ok then exists n f, n ∈ l /\ covers (areas s n) addr /\ mapping (world s) (mm_pc m) page = None /\
        ~ spare (world s) f /\ (forall c v, page_ok v -> fst <$> mapping (world s) c v <> Some f) /\ cleared w' f /\
        mapping w' (mm_pc m) page =
          Some (f, if Z.land (v_flags (areas s n)) VMA_WRITE =? 0 then PG_USER else Z.lor PG_USER PG_WRITE) /\
        forall c v, page_ok v -> (c, v) <> (mm_pc m, page) -> mapping w' c v = mapping (world s) c v
    else forall c v, page_ok v -> mapping w' c v = mapping (world s) c v.
Proof.
  intros HI Hf Ha Hroom page. unfold USER_LIMIT in Ha. unfold jlos_vma_demand_map. rewrite (proj2 (Z.eqb_neq _ _) (mi_pc _ _ _ HI)).
  destruct (find_spec fuel m s l addr HI Hf) as (q & -> & Hq). cbn [mbind option_bind]. fold page in Hroom |- *. destruct q as [n|].
  2:{ exists (world s), false. split; [by destruct s|]. by destruct s. }
  destruct Hq as [Hn Hc]. destruct (page_align_down_spec addr) as [Hp1 Hp2]; [lia|]. fold page in Hp1, Hp2.
  assert (page_ok page) as Hpage by (split; [Z.div_mod_to_equations; lia|done]).
  destruct (frame_malloc_law (world s) (mi_paging _ _ _ HI)) as (w1 & r & -> & Hw1 & Hc1 & Hm1 & Hr1 & Hr). cbn [mbind option_bind].
  assert (forall w, paging_ok w -> (forall c, context w c <-> context w1 c) -> mm_inv m (set_world s w) l) as Hinv.
  { intros w Hw Hcw. destruct HI as [? ? ? ? ? ? ?]. split; try done. by apply Hcw, Hc1. }
  destruct r as [f|]; [|exists w1, false; by split_and!; [|apply Hinv|..]].
  destruct Hr as (Hf1 & Hf2 & Hf3). set (prot := if negb _ then _ else _). cbv zeta.
  destruct (frame_clear_law w1 f Hw1) as (Hw1' & Hz & Hc1' & Hm1' & Hr1' & Hs1'); [apply Hf3; by right|]. set (w1' := frame_clear w1 f) in *.
  destruct (paging_map_law w1' (mm_pc m) page f prot Hw1') as (w2 & ok & -> & Hw2 & Hc2 & Hok);
    [by apply Hc1', Hc1, HI|done|apply Hs1', Hf3; by right|by apply Hr1', Hr1|by unfold prot; destruct (negb _)|].
  cbn [mbind option_bind]. destruct ok.
  - destruct Hok as (Hm2 & Hnone & Hs2 & Hz2 & Hm2'). exists w2, true. split; [done|]. split; [apply Hinv; [done|]; intros c; by rewrite Hc2, Hc1'|]. split.
    { intros g. rewrite Hs2, Hs1', Hf3. split; [intros [[?|?] ?]; done|]. intros Hg. split; [by left|]. by intros ->. }
    exists n, f. split_and!; [done|done|by rewrite <- Hm1, <- Hm1'|done|done|by apply Hz2| |].
    + rewrite Hm2. unfold prot. by destruct (Z.land _ _ =? 0).
    + intros c v Hv Hne. rewrite Hm2', Hm1' by done. by apply Hm1.
  - destruct Hok as [Hs2 Hm2]. destruct (frame_free_law w2 f Hw2) as (w3 & -> & Hw3 & Hc3 & Hm3 & Hs3); [apply Hs2, Hs1', Hf3; by right|].
    cbn [mbind option_bind]. exists w3, false. split; [done|]. split; [apply Hinv; [done|]; intros c; by rewrite Hc3, Hc2, Hc1'|]. split.
    + intros g. rewrite Hs3, Hs2, Hs1', Hf3. split; [intros [[?|?] ?]; done|]. intros Hg. split; [by left|]. by intros ->.
    + intros c v Hv. rewrite Hm3, Hm2, Hm1' by done. by apply Hm1.
Qed.


(** ** Growing and shrinking *)

Section tails.
Context {A W : Type} `{OS : ObjSource A} `{OL : !ObjSourceLaws A} `{PG : Paging W} `{PL : !PagingLaws W}.
Implicit Types (m : mm_t) (s : vstate A W).

(** What is left of an area whose end moves down to [e]. *)
Definition trimmed (e : Z) (v : vma) : list vma := if e <=? v_start v then [] else [with_end v (Z.min e (v_end v))].
Definition trimmed_pages (e : Z) (v : vma) : Z -> Prop := in_range (Z.max e (v_start v)) (v_end v).

Lemma with_end_id v : with_end v (v_end v) = v.
Proof. apply vma_eta. Qed.

Lemma shrink_loop_spec fuel e type m s : 0 <= e -> e mod 4096 = 0 -> forall l2 l1 k n, mm_inv m s (l1 ++ l2) ->
  (length (l1 ++ l2) < fuel)%nat -> (length l2 <= k)%nat ->
  list_find (fun x => v_type (areas s x) = type) l2 = Some n ->
  exists d l3 m' s' l', l2 = d ++ n.2 :: l3 /\ shrink_loop fuel k m s e type (head l2) = Some (m', s', true) /\
    mm_inv m' s' l' /\ touched s s' (l1 ++ l2) l' /\ mm_pc m' = mm_pc m /\
    unmapped (world s) (world s') (mm_pc m) (trimmed_pages e (areas s n.2)) /\
    view s' l' = view s (l1 ++ d) ++ trimmed e (areas s n.2) ++ view s l3.
Proof.
  intros He0 Hem. induction l2 as [|x l2 IH]; intros l1 k n HI Hf Hk Hn; [done|]. destruct k as [|k]; [simpl in Hk; lia|].
  cbn [head shrink_loop]. simpl in Hn. case_decide as Et.
  - injection Hn as <-. cbn [snd]. rewrite bool_decide_true by done. exists [], l2. rewrite app_nil_r.
    destruct (inv_area m s _ x HI) as (Hv1 & Hv2 & Hv3 & Hv4); [apply elem_of_app; right; by left|].
    unfold trimmed, trimmed_pages. destruct (Z.leb_spec e (v_start (areas s x))) as [Hle|Hgt].
    + destruct (unmap_range_spec s (mm_pc m) (v_start (areas s x)) (v_end (areas s x))) as (w' & -> & Hu); try done; [apply HI|apply HI|lia|].
      cbn [mbind option_bind]. pose proof (inv_unmapped m s _ w' _ HI Hu) as HI1.
      destruct (drop_area_spec fuel m (set_world s w') l1 x l2 HI1 Hf) as (t & o & -> & Eo & HI2 & Huse). cbn [mbind option_bind].
      unfold jlos_kfree. rewrite Eo. cbn [mbind option_bind]. eexists _, _, (l1 ++ l2). split; [done|]. split; [done|].
      split_and!; [exact HI2|by eapply drop_touched|done|by rewrite Z.max_r by lia|unfold view; apply map_app].
    + destruct (Z.ltb_spec e (v_end (areas s x))) as [Hlt|Hge].
      * destruct (unmap_range_spec s (mm_pc m) e (v_end (areas s x))) as (w' & -> & Hu); try done; [apply HI|apply HI|lia|].
        cbn [mbind option_bind]. pose proof (inv_unmapped m s _ w' _ HI Hu) as HI1.
        eexists m, _, (l1 ++ x :: l2). split; [done|]. split; [done|].
        split_and!; [apply inv_change; [done|split_and!; simpl; lia || done|simpl; lia..]| |done|by rewrite Z.max_l by lia|].
        -- apply (touched_world s w'), touched_area; [apply elem_of_app; right; by left|apply HI].
        -- destruct (rb_nodup _ _ (mi_tree _ _ _ HI)) as [Hnd _]. apply NoDup_app in Hnd as (_ & Hn1 & [Hn2 _]%NoDup_cons).
           rewrite view_app, view_set by (intros Hy; apply (Hn1 x Hy); by left). f_equal. change (x :: l2) with ([x] ++ l2).
           rewrite view_app, (view_set _ x _ l2) by done. f_equal. cbn [view map]. rewrite set_area_eq. by rewrite Z.min_l by lia.
      * exists m, s, (l1 ++ x :: l2). split; [done|]. split; [done|]. split_and!; [done|by eapply touched_refl|done| |].
        -- apply unmapped_refl; [apply HI|]. unfold in_range. lia.
        -- rewrite Z.min_r, with_end_id by lia. by rewrite view_app.
  - rewrite bool_decide_false by done. rewrite (next_spec fuel m s l1 x l2 HI Hf). cbn [mbind option_bind].
    destruct (list_find _ l2) as [[i y]|] eqn:Ef; [|done]. injection Hn as <-. cbn [snd].
    replace (l1 ++ x :: l2) with ((l1 ++ [x]) ++ l2) in HI, Hf by (by rewrite <- app_assoc).
    destruct (IH (l1 ++ [x]) k (i, y) HI Hf) as (d & l3 & m' & s' & l' & -> & E & HI' & HT & Hpc & HU & HV); [simpl in Hk; lia|done|].
    exists (x :: d), l3, m', s', l'. rewrite <- app_assoc in HT, HV. by split_and!.
Qed.

Lemma shrink_none fuel e type m s : forall l2 l1 k, mm_inv m s (l1 ++ l2) -> (length (l1 ++ l2) < fuel)%nat -> (length l2 <= k)%nat ->
  list_find (fun x => v_type (areas s x) = type) l2 = None -> shrink_loop fuel k m s e type (head l2) = Some (m, s, false).
Proof.
  induction l2 as [|x l2 IH]; intros l1 k HI Hf Hk Hn; [by destruct k|]. destruct k as [|k]; [simpl in Hk; lia|].
  cbn [head shrink_loop]. simpl in Hn. case_decide as Et; [done|]. rewrite bool_decide_false by done.
  rewrite (next_spec fuel m s l1 x l2 HI Hf). cbn [mbind option_bind].
  replace (l1 ++ x :: l2) with ((l1 ++ [x]) ++ l2) in HI, Hf by (by rewrite <- app_assoc).
  apply (IH (l1 ++ [x])); [done|done|simpl in Hk; lia|]. by destruct (list_find _ l2) as [[]|].
Qed.

Lemma find_key_spec fuel m s l addr : mm_inv m s l -> (length l < fuel)%nat ->
  exists r, jlos_rbtree_find_key (jlos_vma_cmp_addr (areas s)) fuel (vma_tree m) addr = Some r /\
    match r with Some n => n ∈ l /\ v_start (areas s n) = addr | None => forall n, n ∈ l -> v_start (areas s n) <> addr end.
Proof.
  intros HI Hf. destruct (rbtree_search_spec (jlos_vma_cmp_addr (areas s)) (fun _ _ => 0) (vma_tree m) l addr 0 fuel (mi_tree _ _ _ HI) Hf)
    as (Hk & _). destruct (Hk (inv_ascending m s l addr HI)) as ((r & Er & Hr) & _). exists r. split; [exact Er|].
  destruct r as [n|]; [by rewrite cmp_addr_eq in Hr|]. intros n Hn. rewrite <- cmp_addr_eq. by apply Hr.
Qed.

(** Raising the end of an area up to the next one. *)
Lemma inv_raise m s l1 n l2 e : mm_inv m s (l1 ++ n :: l2) -> v_end (areas s n) <= e <= USER_LIMIT -> e mod 4096 = 0 ->
  (forall x, x ∈ l2 -> e <= v_start (areas s x)) -> mm_inv m (set_area s n (with_end (areas s n) e)) (l1 ++ n :: l2).
Proof.
  intros HI He Hem Hl. destruct (inv_below _ _ _ _ _ HI) as [Hb1 Hb2]. destruct (rb_nodup _ _ (mi_tree _ _ _ HI)) as [Hnd _].
  apply NoDup_app in Hnd as (_ & Hn1 & [Hn2 _]%NoDup_cons). assert (n ∉ l1) as Hn1' by (intros Hx; apply (Hn1 n Hx); by left).
  destruct (inv_area m s _ n HI) as (Hv1 & Hv2 & Hv3 & Hv4); [apply elem_of_app; right; by left|].
  destruct HI as [? Hd ? ? ? ? ?]. split; try done.
  unfold view in *. rewrite map_app in *. cbn [map] in *. set (s1 := set_area s n _). fold (view s1 l1) (view s1 l2). unfold s1.
  rewrite !view_set by done. rewrite set_area_eq. apply disjoint_app in Hd as (Hd1 & (_ & Hd2 & _)%disjoint_cons & Hd12).
  apply disjoint_app. split_and!; [done| |].
  - apply disjoint_cons. split_and!; [split_and!; simpl; lia || done|done|]. intros w (x & -> & Hx)%list_elem_of_fmap. unfold below. by apply Hl.
  - intros u w (x & -> & Hx)%list_elem_of_fmap [->|Hw]%elem_of_cons; [by apply Hb1|].
    apply Hd12; [by apply list_elem_of_fmap_2|by right].
Qed.

Lemma grow_spec fuel m s l1 n l2 new_end flags : mm_inv m s (l1 ++ n :: l2) -> (length (l1 ++ n :: l2) < fuel)%nat ->
  v_start (areas s n) < new_end -> v_end (areas s n) <= page_align_up new_end -> new_end <= USER_LIMIT ->
  (forall x, x ∈ l2 -> page_align_up new_end <= v_start (areas s x)) ->
  let s' := set_area s n (with_end (areas s n) (page_align_up new_end)) in
  jlos_vma_grow_tail fuel m s (v_start (areas s n)) new_end flags (v_type (areas s n)) = Some (m, s', Some n) /\
  mm_inv m s' (l1 ++ n :: l2).
Proof.
  intros HI Hf H1 H2 H3 Hl s'. destruct (inv_area m s _ n HI) as (Hv1 & Hv2 & Hv3 & Hv4); [apply elem_of_app; right; by left|].
  destruct (range_aligned (v_start (areas s n)) new_end) as ([? ? ? ?] & _); [lia|done|]. unfold USER_LIMIT in *. split.
  - unfold jlos_vma_grow_tail. rewrite (proj2 (Z.leb_gt _ _)) by lia. rewrite page_align_id by lia.
    destruct (find_key_spec fuel m s _ (v_start (areas s n)) HI Hf) as (r & -> & Hr). cbn [mbind option_bind].
    destruct r as [x|]; [|destruct (Hr n); [apply elem_of_app; right; by left|done]]. destruct Hr as [Hx Ex].
    assert (x = n) as ->.
    { destruct (inv_area m s _ x HI Hx) as (Hx1 & _). eapply (covers_unique m s _ x n (v_start (areas s n)) HI); [done|apply elem_of_app; right; by left|unfold covers; lia..]. }
    by rewrite bool_decide_true by done.
  - apply inv_raise; [done|unfold USER_LIMIT; lia|done|done].
Qed.
End tails.

(** The tail of an area, as the program break uses it.  Shrinking to [e]
    (rounded up) finds the first area of the type: the area then ends at [e], or is
    gone when it starts there or later; exactly the pages given up are unmapped and
    everything else stays.  Without an area of the type nothing happens.  Growing the
    area up to the next one and shrinking it back restores the areas. *)
Theorem vma_tail_correct {A W} `{ObjSourceLaws A} `{PagingLaws W} (fuel : nat) (m : mm_t) (s : vstate A W) (l : list Z) (e : Z) (type : vma_type) :
  mm_inv m s l -> (length l < fuel)%nat -> 0 <= e <= USER_LIMIT ->
  match list_find (fun x => v_type (areas s x) = type) l with
  | None => jlos_vma_shrink_tail fuel m s e type = Some (m, s, false)
  | Some (_, n) =>
      (exists l1 l2 m' s' l', l = l1 ++ n :: l2 /\ jlos_vma_shrink_tail fuel m s e type = Some (m', s', true) /\
         mm_inv m' s' l' /\ touched s s' l l' /\
         unmapped (world s) (world s') (mm_pc m) (trimmed_pages (page_align_up e) (areas s n)) /\
         view s' l' = view s l1 ++ trimmed (page_align_up e) (areas s n) ++ view s l2) /\
      (forall flags, v_end (areas s n) <= e -> (forall x, x ∈ l -> v_end (areas s n) <= v_start (areas s x) -> page_align_up e <= v_start (areas s x)) ->
         exists s1 m2 s2 l2, jlos_vma_grow_tail fuel m s (v_start (areas s n)) e flags type = Some (m, s1, Some n) /\
           mm_inv m s1 l /\ v_end (areas s1 n) = page_align_up e /\
           jlos_vma_shrink_tail fuel m s1 (v_end (areas s n)) type = Some (m2, s2, true) /\ mm_inv m2 s2 l2 /\ view s2 l2 = view s l)
  end.
Proof.
  intros HI Hf He. unfold jlos_vma_shrink_tail. rewrite (proj2 (Z.eqb_neq _ _) (mi_pc _ _ _ HI)).
  rewrite (first_spec fuel m s l HI Hf). cbn [mbind option_bind]. unfold USER_LIMIT in He.
  destruct (page_align_up_spec e) as [He1 He2]; [lia|]. destruct (list_find _ l) as [[i n]|] eqn:Ef.
  2:{ apply (shrink_none fuel _ type m s l [] fuel); [done|done|lia|done]. }
  destruct (shrink_loop_spec fuel (page_align_up e) type m s ltac:(lia) He1 l [] fuel (i, n) HI Hf) as (l1 & l2 & m' & s' & l' & El & E & HI' & HT & _ & HU & HV); [lia|done|].
  cbn [snd] in *. split; [by exists l1, l2, m', s', l'|]. intros flags Hve Hroom.
  apply list_find_Some in Ef as (Hi & Et & Hbefore). subst l. destruct (inv_below _ _ _ _ _ HI) as [_ Hb].
  assert (n ∈ l1 ++ n :: l2) as Hnl by (apply elem_of_app; right; by left).
  destruct (inv_area m s _ n HI Hnl) as (Hv1 & Hv2 & Hv3 & Hv4). unfold USER_LIMIT in Hv2.
  destruct (grow_spec fuel m s l1 n l2 e flags HI Hf) as [Eg HI1]; [lia|lia|unfold USER_LIMIT; lia| |].
  { intros x Hx. apply Hroom; [apply elem_of_app; right; by right|]. by apply Hb. }
  rewrite Et in Eg. set (s1 := set_area s n (with_end (areas s n) (page_align_up e))) in *.
  assert (areas s1 n = with_end (areas s n) (page_align_up e)) as E1 by apply set_area_eq.
  assert (list_find (fun x => v_type (areas s1 x) = type) (l1 ++ n :: l2) = Some (i, n)) as Ef1.
  { apply list_find_Some. split_and!; [done|by rewrite E1|]. intros j y Hj Hlt. destruct (decide (y = n)) as [->|Hne]; [by destruct (Hbefore j n Hj Hlt)|].
    unfold s1. rewrite set_area_ne by done. by apply (Hbefore j). }
  destruct (shrink_loop_spec fuel (v_end (areas s n)) type m s1 ltac:(lia) Hv4 (l1 ++ n :: l2) [] fuel (i, n) HI1 Hf)
    as (k1 & k2 & m2 & s2 & l3 & Ek & E2 & HI2 & _ & _ & _ & HV2); [lia|done|]. cbn [snd] in *.
  destruct (rb_nodup _ _ (mi_tree _ _ _ HI)) as [Hnd _].
  destruct (split_unique n l1 l2 k1 k2 Hnd Ek) as [<- <-]. apply NoDup_app in Hnd as (_ & Hn1 & [Hn2 _]%NoDup_cons).
  exists s1, m2, s2, l3. split_and!; [done|done|by rewrite E1| |done|].
  - by rewrite page_align_up_id by (done || lia).
  - rewrite HV2. cbn [app]. unfold s1. rewrite !view_set by (done || (intros Hx; apply (Hn1 n Hx); by left)). fold s1. rewrite E1.
    unfold trimmed. cbn [v_start v_end with_end]. rewrite (proj2 (Z.leb_gt _ _)) by lia. rewrite Z.min_l by lia.
    unfold with_end. cbn [v_start v_flags v_type v_file v_offset]. rewrite vma_eta. by rewrite view_app.
Qed.

(** ** Life of an address space *)

Section life.
Context {A W : Type} `{OS : ObjSource A} `{OL : !ObjSourceLaws A} `{PG : Paging W} `{PL : !PagingLaws W}.
Implicit Types (m : mm_t) (s : vstate A W).

Lemma free_areas_spec fuel : forall l n m s, mm_inv m s l -> (length l < fuel)%nat -> (length l <= n)%nat ->
  exists m' s', free_areas fuel n m s (head l) = Some (m', s') /\ mm_inv m' s' [] /\ mm_pc m' = mm_pc m /\
    (forall o, in_use (objs s') o <-> in_use (objs s) o /\ o ∉ l) /\ world s' = world s.
Proof.
  induction l as [|x l IH]; intros n m s HI Hf Hn.
  { exists m, s. split; [by destruct n|]. split_and!; try done. intros o. pose proof (not_elem_of_nil o). tauto. }
  destruct n as [|n]; [simpl in Hn; lia|]. cbn [head free_areas].
  destruct (drop_area_spec fuel m s [] x l HI Hf) as (t & a & -> & Ea & HI1 & Hu). cbn [mbind option_bind].
  unfold jlos_kfree. rewrite Ea. cbn [mbind option_bind]. simpl in Hf, Hn. rewrite (first_spec fuel _ _ l HI1) by lia. cbn [mbind option_bind].
  destruct (IH n (with_tree m t) (set_objs s a) HI1) as (m' & s' & -> & HI2 & Hpc & Hu2 & Hw); [lia|lia|].
  exists m', s'. split_and!; try done. intros o. rewrite Hu2. simpl. rewrite Hu, not_elem_of_cons. tauto.
Qed.

Lemma kfree_spec s n : objs_ok (objs s) -> in_use (objs s) n ->
  exists s', jlos_kfree s n = Some s' /\ objs_ok (objs s') /\ world s' = world s /\ forall o, in_use (objs s') o <-> in_use (objs s) o /\ o <> n.
Proof.
  intros Ho Hn. unfold jlos_kfree. destruct (obj_free_law (objs s) n Ho Hn) as (a & -> & ? & ?). by exists (set_objs s a).
Qed.

(** A new area behind all others goes to the end of the sequence. *)
Lemma append_area fuel m s l n : mm_inv m s l -> n ∉ l -> n <> 0 -> in_use (objs s) n -> area_ok (areas s n) ->
  (forall x, x ∈ l -> below (areas s x) (areas s n)) -> (length l < fuel)%nat ->
  exists t, insert_area fuel m s n = Some (with_tree m t) /\ mm_inv (with_tree m t) s (l ++ [n]).
Proof.
  intros HI Hn H0 Hu Ho Hb Hf. destruct (insert_area_spec fuel m s l n HI Hn H0 Hu Ho) as (t & l1 & l2 & E & -> & HI'); [intros x Hx; left; by apply Hb|done|].
  exists t. split; [done|]. destruct l2 as [|y l2]; [by rewrite app_nil_r|]. exfalso.
  destruct (inv_below _ _ _ _ _ HI') as [_ Hi]. specialize (Hi y ltac:(by left)). specialize (Hb y ltac:(apply elem_of_app; right; by left)).
  destruct (inv_area m s _ y HI) as ((_ & ?) & _); [apply elem_of_app; right; by left|]. destruct Ho as ((_ & ?) & _). unfold below in *. lia.
Qed.

Definition cow (v : vma) : vma := with_flags v (Z.lor (v_flags v) VMA_COW).

(** What [jlos_paging_cow_range] leaves alone. *)
Definition cow_range_ok (cow_range : W -> Z -> Z -> Z -> Z -> option W) : Prop :=
  forall w src dst a b, paging_ok w -> context w src -> context w dst -> exists w', cow_range w src dst a b = Some w' /\ paging_ok w' /\
    forall c, context w' c <-> context w c.

Lemma clone_areas_spec fuel cow_range src : cow_range_ok cow_range -> forall l2 l1 k n dst s,
  mm_inv src s (l1 ++ l2) -> (length (l1 ++ l2) < fuel)%nat -> (length l2 <= n)%nat ->
  mm_inv dst s k -> view s k = map cow (view s l1) -> (forall x, x ∈ k -> x ∉ l1 ++ l2) ->
  exists t s' k' ok, clone_areas fuel cow_range n dst src s (head l2) = Some (with_tree dst t, s', ok) /\
    mm_inv (with_tree dst t) s' k' /\ mm_inv src s' (l1 ++ l2) /\ view s' (l1 ++ l2) = view s (l1 ++ l2) /\
    (forall x, x ∈ k' -> x ∉ l1 ++ l2) /\
    (ok = true -> view s' k' = map cow (view s (l1 ++ l2))) /\
    (ok = false -> exists a a', obj_alloc a VmaCache = Some (a', None)).
Proof.
  intros Hcow. induction l2 as [|x l2 IH]; intros l1 k n dst s HI Hf Hn HK Hv Hdis.
  { exists (vma_tree dst), s, k, true. rewrite app_nil_r in *. split; [destruct n; by destruct dst|].
    split_and!; try done. by destruct dst. }
  destruct n as [|n]; [simpl in Hn; lia|]. cbn [head clone_areas].
  destruct (alloc_spec s VmaCache (mi_objs _ _ _ HI)) as (a & r & -> & Er & Hok & Hr). cbn [mbind option_bind].
  assert (forall m l, mm_inv m s l -> mm_inv m (set_objs s a) l) as Hobj.
  { intros m l [? ? Hl ? ? ? ?]. split; try done. intros y Hy. simpl. destruct r as [d|]; [apply (proj2 (proj2 Hr)); left|apply Hr]; by apply Hl. }
  destruct r as [d|].
  2:{ exists (vma_tree dst), (set_objs s a), k, false. split; [by destruct dst|]. split_and!; try done; [by destruct dst; apply Hobj|by apply Hobj|by eexists _, _]. }
  destruct Hr as (Hd0 & Hdn & Hu). set (sv := areas (set_objs s a) x). fold (cow sv). set (s1 := set_area (set_objs s a) d (cow sv)).
  assert (d ∉ l1 ++ x :: l2) as Hdl by (intros Hy; apply Hdn, (mi_live _ _ _ HI), Hy).
  assert (d ∉ k) as Hdk by (intros Hy; apply Hdn, (mi_live _ _ _ HK), Hy).
  pose proof (inv_set_area _ _ _ d (cow sv) (Hobj _ _ HI) Hdl) as HI1. pose proof (inv_set_area _ _ _ d (cow sv) (Hobj _ _ HK) Hdk) as HK1. fold s1 in HI1, HK1.
  assert (areas s1 d = cow sv) as Ed by apply set_area_eq.
  assert (view s1 k = view s k) as Evk by (by apply (view_set (set_objs s a))).
  assert (view s1 (l1 ++ x :: l2) = view s (l1 ++ x :: l2)) as Evl by (by apply (view_set (set_objs s a))).
  assert (areas s1 x = areas s x) as Ex.
  { apply (set_area_ne (set_objs s a)). intros ->. apply Hdl, elem_of_app. right. by left. }
  assert (x ∈ l1 ++ x :: l2) as Hxl by (apply elem_of_app; right; by left).
  destruct (inv_below _ _ _ _ _ HI) as [Hb1 _]. destruct (inv_area src s _ x HI Hxl) as (Hx1 & Hx2 & Hx3 & Hx4).
  assert (length k = length l1) as Elen.
  { assert (length (view s k) = length (map cow (view s l1))) as E by (by rewrite Hv). unfold view in E. by rewrite !length_map in E. }
  rewrite length_app in Hf. cbn [length] in Hf.
  destruct (append_area fuel dst s1 k d HK1 Hdk Hd0) as (t & -> & HK2); [simpl; apply Hu; by right|rewrite Ed; exact (inv_area src s _ x HI Hxl)| |lia|].
  { intros y Hy. assert (areas s1 y ∈ view s1 k) as Hin by (by apply list_elem_of_fmap_2). rewrite Evk, Hv in Hin.
    apply list_elem_of_fmap in Hin as (w & -> & (z & -> & Hz)%list_elem_of_fmap). rewrite Ed. exact (Hb1 z Hz). }
  cbn [mbind option_bind mm_pc with_tree].
  destruct (Hcow (world s1) (mm_pc src) (mm_pc dst) (v_start (areas s1 x)) (v_end (areas s1 x)) (mi_paging _ _ _ HI1) (mi_ctx _ _ _ HI1) (mi_ctx _ _ _ HK1))
    as (w' & -> & Hw' & Hc'). cbn [mbind option_bind].
  assert (forall m l, mm_inv m s1 l -> mm_inv m (set_world s1 w') l) as Hwor.
  { intros m l [? ? ? ? ? ? ?]. split; try done. by apply Hc'. }
  rewrite (next_spec fuel src s1 l1 x l2 HI1) by (rewrite length_app; simpl; lia). cbn [mbind option_bind].
  replace (l1 ++ x :: l2) with ((l1 ++ [x]) ++ l2) in * by (by rewrite <- app_assoc).
  destruct (IH (l1 ++ [x]) (k ++ [d]) n (with_tree dst t) (set_world s1 w')) as (t' & s' & k' & ok & -> & HK' & HI' & HV' & Hd' & Hok' & Hno).
  - by apply Hwor.
  - rewrite !length_app. simpl. lia.
  - simpl in Hn. lia.
  - by apply Hwor.
  - change (view s1 (k ++ [d]) = map cow (view s1 (l1 ++ [x]))). rewrite !view_app in *. apply app_inj_1 in Evl as [Evl _]; [|unfold view; by rewrite !length_app, !length_map].
    rewrite Evk, Hv, Evl, map_app. cbn [view map]. f_equal. rewrite Ed. by unfold sv.
  - intros y [Hy|Hy]%elem_of_app; [by apply Hdis|]. by apply list_elem_of_singleton in Hy as ->.
  - exists t', s', k', ok. split; [done|]. change (view (set_world s1 w') ((l1 ++ [x]) ++ l2)) with (view s1 ((l1 ++ [x]) ++ l2)) in HV', Hok'.
    rewrite Evl in HV', Hok'. by split_and!.
Qed.
End life.

(** Destroying an address space only counts down while it is shared.  The last
    reference gives back the objects of all its areas, its context and itself, and
    no others, whatever the number of areas. *)
Theorem mm_destroy_correct {A W} `{ObjSourceLaws A} `{PagingLaws W} (fuel : nat) (tables_destroy : W -> Z -> option W)
    (m : mm_t) (mm : Z) (s : vstate A W) (l : list Z) :
  mm_inv m s l -> (length l < fuel)%nat -> 1 <= refcount m < 2 ^ 31 ->
  in_use (objs s) mm -> in_use (objs s) (mm_pc m) -> mm ∉ l -> mm_pc m ∉ l -> mm <> mm_pc m ->
  (forall w, paging_ok w -> context w (mm_pc m) -> is_Some (tables_destroy w (mm_pc m))) ->
  exists m' s', jlos_mm_destroy fuel tables_destroy m mm s = Some (m', s') /\
    if decide (refcount m = 1) then forall o, in_use (objs s') o <-> in_use (objs s) o /\ (o ∉ l) /\ o <> mm /\ o <> mm_pc m
    else m' = with_refcount m (refcount m - 1) /\ s' = s /\ mm_inv m' s' l.
Proof.
  intros HI Hf Hr Hm Hp Hml Hpl Hne Htd. unfold jlos_mm_destroy. cbv zeta. rewrite s32_small by lia. cbn [refcount with_refcount].
  destruct (decide (refcount m = 1)) as [E|E].
  - rewrite E. change (negb (1 - 1 =? 0)) with false. cbv iota. set (m0 := with_refcount m (1 - 1)).
    assert (mm_inv m0 s l) as HI0 by (by destruct HI). rewrite (first_spec fuel m0 s l HI0 Hf). cbn [mbind option_bind].
    destruct (free_areas_spec fuel l fuel m0 s HI0 Hf ltac:(lia)) as (m1 & s1 & -> & HI1 & Epc & Hu1 & Ew1). cbn [mbind option_bind].
    change (mm_pc m0) with (mm_pc m) in Epc. rewrite Epc, (proj2 (Z.eqb_neq _ _) (mi_pc _ _ _ HI)). cbn [negb]. rewrite Ew1.
    destruct (Htd (world s) (mi_paging _ _ _ HI) (mi_ctx _ _ _ HI)) as [w ->]. cbn [mbind option_bind].
    destruct (kfree_spec (set_world s1 w) (mm_pc m) (mi_objs _ _ _ HI1)) as (s2 & -> & Ho2 & _ & Hu2); [by apply Hu1|]. cbn [mbind option_bind].
    simpl in Hu2. destruct (kfree_spec s2 mm Ho2) as (s3 & -> & _ & _ & Hu3); [by rewrite Hu2, Hu1|]. cbn [mbind option_bind].
    exists m1, s3. split; [done|]. intros o. rewrite Hu3, Hu2, Hu1. tauto.
  - rewrite (proj2 (Z.eqb_neq (refcount m - 1) 0)) by lia. cbn [negb]. eexists _, s. split; [done|]. split_and!; [done|done|]. by destruct HI.
Qed.

(** Cloning into an address space without areas leaves the source's areas as
    they are and gives the copy the same areas in the same order, each marked copy
    on write; it fails only when an object cannot be allocated, and the part copied
    so far is then still a consistent address space. *)
Theorem mm_clone_correct {A W} `{ObjSourceLaws A} `{PagingLaws W} (fuel : nat) (cow_range : W -> Z -> Z -> Z -> Z -> option W)
    (dst src : mm_t) (s : vstate A W) (l : list Z) :
  cow_range_ok cow_range -> mm_inv src s l -> mm_inv dst s [] -> (length l < fuel)%nat ->
  exists dst' s' k ok, jlos_mm_clone_user fuel cow_range dst src s = Some (dst', s', ok) /\
    mm_inv dst' s' k /\ mm_inv src s' l /\ view s' l = view s l /\ (forall x, x ∈ k -> x ∉ l) /\
    brk_start dst' = brk_start src /\ brk_end dst' = brk_end src /\ brk_limit dst' = brk_limit src /\
    (ok = true -> view s' k = map cow (view s l)) /\
    (ok = false -> exists a a', obj_alloc a VmaCache = Some (a', None)).
Proof.
  intros Hc HI HD Hf. unfold jlos_mm_clone_user.
  rewrite (proj2 (Z.eqb_neq _ _) (mi_pc _ _ _ HI)), (proj2 (Z.eqb_neq _ _) (mi_pc _ _ _ HD)). cbn [orb].
  rewrite (first_spec fuel src s l HI Hf). cbn [mbind option_bind]. set (d0 := with_brk dst _ _ _).
  assert (mm_inv d0 s []) as HD0 by (by destruct HD).
  destruct (clone_areas_spec fuel cow_range src Hc l [] [] fuel d0 s HI Hf ltac:(lia) HD0 eq_refl) as (t & s' & k & ok & E & ? & ? & ? & ? & ? & ?);
    [by intros x ?%elem_of_nil|]. exists (with_tree d0 t), s', k, ok. by split_and!.
Qed.

(** ** Witnesses *)

(** Two pages at 0x8000 as the only area, in a flat world. *)
Definition one_area : mm_t := MmT 100 (RBTree 1 (fun _ => RBNode 0 0 0 false)) 0 0 0 1.
Definition one_state : vstate free_list flat :=
  VState (fun _ => Vma 0x8000 0xA000 VMA_WRITE TypeBrk 0 0) (FreeList [2; 3] {[1; 100; 101]}) (Flat ∅ {[100; 200]} [0x1000; 0x2000] ∅ ∅).
Lemma one_tree : rb_tree (vma_tree one_area) [1].
Proof.
  exists (N false E 1 E), 1%nat. split_and!; [|repeat econstructor|done]. split; [done| | |done].
  - simpl. unfold nil. repeat split; lia.
  - apply NoDup_singleton.
Qed.
Lemma one_objs : objs_ok (objs one_state).
Proof.
  split_and!.
  - repeat (apply NoDup_cons; split; [set_solver by lia|]). constructor.
  - set_solver by lia.
  - set_solver by lia.
  - simpl. set_solver by lia.
Qed.
Lemma one_world : paging_ok (world one_state).
Proof.
  split.
  - repeat (apply NoDup_cons; split; [set_solver by lia|]). constructor.
  - intros f Hf. split; [set_solver|]. intros k a. simpl. by rewrite lookup_empty.
Qed.
Lemma one_area_inv : mm_inv one_area one_state [1].
Proof.
  split; [exact one_tree| | |exact one_objs|exact one_world|simpl; set_solver|done].
  - split; [repeat constructor|]. repeat constructor; simpl; unfold USER_LIMIT; lia.
  - intros n Hn. apply list_elem_of_singleton in Hn as ->. simpl. set_solver.
Qed.
Lemma empty_mm_inv : mm_inv (MmT 200 (jlos_rbtree_init (fun _ => RBNode 0 0 0 false)) 0 0 0 1) one_state [].
Proof.
  split; [apply rbtree_init_rb|split; constructor|by intros n ?%elem_of_nil|exact one_objs|exact one_world|simpl; set_solver|done].
Qed.

Lemma vma_remove_range_correct_witness :
  exists m' s' l', jlos_vma_remove_range 10 one_area one_state 0x8000 0x9000 = Some (m', s', true) /\ mm_inv m' s' l'.
Proof.
  destruct (vma_remove_range_correct 10 one_area one_state [1] 0x8000 0x9000) as (m' & s' & l' & E & HI & _);
    [exact one_area_inv|simpl; lia|lia|unfold USER_LIMIT; lia|]. by exists m', s', l'.
Defined.
Lemma vma_find_free_area_correct_witness :
  exists r, jlos_vma_find_free_area 10 one_area one_state 0x8000 0x100000 0 0x3000 = Some r /\
    (r = 0 /\ (forall a, 0x8000 <= a -> a + 0x3000 <= 0x100000 -> ~ free_range one_state [1] a 0x3000) \/
     0x8000 <= r /\ r + 0x3000 <= 0x100000 /\ free_range one_state [1] r 0x3000).
Proof.
  apply (vma_find_free_area_correct 10 one_area one_state [1] 0x8000 0x100000 0 0x3000);
    [exact one_area_inv|simpl; lia|unfold USER_LIMIT; lia|unfold USER_LIMIT; lia|lia|lia].
Defined.
Lemma vma_add_find_correct_witness :
  exists m' s' r, jlos_vma_add 10 one_area one_state 0x20000 0x20001 0 TypeAnon = Some (m', s', r).
Proof.
  destruct (vma_add_find_correct 10 one_area one_state [1] 0x20000 0x20001 0 TypeAnon) as (m' & s' & r & E & _);
    [exact one_area_inv|simpl; lia|lia|unfold USER_LIMIT; lia| |by exists m', s', r].
  intros n _ [_ H]. vm_compute in H. discriminate.
Defined.
Lemma vma_tail_correct_witness :
  exists m' s' l', jlos_vma_shrink_tail 10 one_area one_state 0x9000 TypeBrk = Some (m', s', true) /\ mm_inv m' s' l'.
Proof.
  pose proof (vma_tail_correct 10 one_area one_state [1] 0x9000 TypeBrk one_area_inv ltac:(simpl; lia) ltac:(unfold USER_LIMIT; lia)) as H.
  change (list_find _ [1]) with (Some (0%nat, 1)) in H. destruct H as [(l1 & l2 & m' & s' & l' & _ & E & HI & _) _]. by exists m', s', l'.
Defined.
Lemma mm_destroy_correct_witness :
  exists m' s', jlos_mm_destroy 10 (fun w _ => Some w) one_area 101 one_state = Some (m', s').
Proof.
  destruct (mm_destroy_correct 10 (fun w _ => Some w) one_area 101 one_state [1]) as (m' & s' & E & _);
    [exact one_area_inv|simpl; lia|simpl; lia|simpl; set_solver|simpl; set_solver|set_solver by lia|simpl; set_solver by lia|done|by eexists|]. by exists m', s'.
Defined.
Lemma mm_clone_correct_witness :
  exists dst' s' ok, jlos_mm_clone_user 10 (fun w _ _ _ _ => Some w) (MmT 200 (jlos_rbtree_init (fun _ => RBNode 0 0 0 false)) 0 0 0 1) one_area one_state
    = Some (dst', s', ok).
Proof.
  destruct (mm_clone_correct 10 (fun w _ _ _ _ => Some w) (MmT 200 (jlos_rbtree_init (fun _ => RBNode 0 0 0 false)) 0 0 0 1) one_area one_state [1])
    as (dst' & s' & k & ok & E & _); [|exact one_area_inv|exact empty_mm_inv|simpl; lia|by exists dst', s', ok].
  intros w src dst a b Hw _ _. by exists w.
Defined.
