(* ===== verification/Kalloc.v ===== *)
(** * The front ends of kernel memory ([kernel/memory_manager.c])

    [jlos_kvalloc] serves whole page runs from the page frame allocator, with a
    header in front, and everything else from the heap; [jlos_kalloc] puts the slab
    caches of the powers of two from 16 before it.  [jlos_kvfree] finds out from the
    address and the type tag of the frame which allocator a block came from.

    The state composes the models of the three allocators.  [k_caches] are the slab
    caches by address, [k_hdr] the headers of page runs by address.  [None] is the
    halt loop or a bad pointer. *)
From S2P Require Import Prelude Bitmap Pfa PfaInv PfaCpu Heap PageSource Slab.

Definition KV_CONTIG_MAGIC : Z := 0x4B564354.
Definition KV_CONTIG_MAX_PAGES : Z := 0xFFFFFFFE.
(** [sizeof(jlos_kv_contig_hdr_t)] *)
Definition KV_HDR : Z := 8.
Definition KERNEL_DIRECT_MAP_SIZE : Z := 0x38000000.
Definition KERNEL_HEAP_VIRT_BASE : Z := KERNEL_VIRTUAL_BASE + KERNEL_DIRECT_MAP_SIZE.
Definition TYPE_KV_CONTIG : Z := 2.

Record kstate := KState {
  k_pfa : pfa;
  k_heap : option mm;
  k_caches : gmap Z cache;
  s_kalloc_caches : list Z;
  k_hdr : gmap Z (Z * Z)
}.
Definition with_pfa (s : kstate) (p : pfa) : kstate := KState p (k_heap s) (k_caches s) (s_kalloc_caches s) (k_hdr s).
Definition with_heap (s : kstate) (h : mm) : kstate := KState (k_pfa s) (Some h) (k_caches s) (s_kalloc_caches s) (k_hdr s).
Definition with_caches (s : kstate) (m : gmap Z cache) : kstate := KState (k_pfa s) (k_heap s) m (s_kalloc_caches s) (k_hdr s).
Definition with_kalloc (s : kstate) (l : list Z) : kstate := KState (k_pfa s) (k_heap s) (k_caches s) l (k_hdr s).
Definition with_hdr (s : kstate) (m : gmap Z (Z * Z)) : kstate := KState (k_pfa s) (k_heap s) (k_caches s) (s_kalloc_caches s) m.

(** The loops that tag the pages of a run. *)
Fixpoint tag_pages (n : nat) (p : pfa) (phys owner type : Z) : option pfa :=
  match n with
  | O => Some p
  | S n => p ← jlos_page_frame_set_owner_type p phys owner type; tag_pages n p (u32 (phys + FRAME_SIZE)) owner type
  end.

(** The number of pages of a run with its header. *)
Definition kv_pages (size : Z) : Z := u32 (u32 (u32 (size + KV_HDR) + FRAME_SIZE) - 1) / FRAME_SIZE.

Section ops.
(** The parameters of the heap model: whether a paging context is active, and the
    outcome of mapping; the processor; the size of a cache and the number of
    processors. *)
Variables (ctx : bool) (map_ok : Z -> Z -> Z -> bool) (owner cpu : Z) (cache_bytes : Z) (num_cpus : nat).

Definition heap_malloc (s : kstate) (size : Z) : option (kstate * option Z) :=
  h ← k_heap s;
  '(h, p, r) ← jlos_memory_manager_malloc ctx map_ok owner h (k_pfa s) size;
  Some (with_heap (with_pfa s p) h, r).

(** A run of pages, if there is one. *)
Definition kv_contig (s : kstate) (size : Z) : option (kstate * option Z) :=
  let npages := kv_pages size in
  if npages <=? KV_CONTIG_MAX_PAGES then
    '(p, r) ← jlos_page_frame_alloc_n (k_pfa s) npages;
    match r with
    | None => Some (with_pfa s p, None)
    | Some phys =>
        let hdr := phys_to_virt phys in
        p ← tag_pages (Z.to_nat npages) p (virt_to_phys hdr) 0 TYPE_KV_CONTIG;
        Some (with_hdr (with_pfa s p) (<[hdr := (KV_CONTIG_MAGIC, npages)]> (k_hdr s)), Some (u32 (hdr + KV_HDR)))
    end
  else Some (s, None).

Definition jlos_kvalloc (s : kstate) (size : Z) : option (kstate * option Z) :=
  match k_heap s with
  | None => Some (s, None)
  | Some _ =>
      if size =? 0 then Some (s, None)
      else
        '(s, r) ← (if FRAME_SIZE <=? size then kv_contig s size else Some (s, None));
        match r with
        | Some ptr => Some (s, Some ptr)
        | None => heap_malloc s size
        end
  end.

(** The release of a run through its header. *)
Definition free_contig (s : kstate) (ptr : Z) : option kstate :=
  let hdr := u32 (ptr - KV_HDR) in
  let phys_hdr := virt_to_phys hdr in
  '(magic, npages) ← k_hdr s !! hdr;
  if (magic =? KV_CONTIG_MAGIC) && negb (npages =? 0) && (npages <=? KV_CONTIG_MAX_PAGES) && (Z.land phys_hdr (FRAME_SIZE - 1) =? 0) then
    let s := with_hdr s (<[hdr := (0, npages)]> (k_hdr s)) in
    p ← tag_pages (Z.to_nat npages) (k_pfa s) phys_hdr 0 0;
    p ← jlos_page_frame_free_n p phys_hdr npages;
    Some (with_pfa s p)
  else Some s.

(** The release of a slab object through the cache that owns its page. *)
Definition free_slab (s : kstate) (cache_addr ptr : Z) : option kstate :=
  c ← k_caches s !! cache_addr;
  sp ← pages c !! Z.land ptr (not32 (FRAME_SIZE - 1));
  if negb (inuse sp =? 0) && (inuse sp <=? pg_1_num c) then
    '(c, p) ← jlos_memory_slab_cache_free c (k_pfa s) cpu ptr;
    Some (with_caches (with_pfa s p) (<[cache_addr := c]> (k_caches s)))
  else Some s.

Definition jlos_kvfree (s : kstate) (va : Z) : option kstate :=
  if va =? 0 then Some s
  else if (KERNEL_VIRTUAL_BASE <=? va) && (va <? KERNEL_VIRTUAL_BASE + KERNEL_DIRECT_MAP_SIZE) then
    let phys := Z.land (virt_to_phys va) (not32 (FRAME_SIZE - 1)) in
    t ← jlos_page_frame_get_type (k_pfa s) phys;
    o ← jlos_page_frame_get_owner (k_pfa s) phys;
    if (t =? TYPE_SLAB_OBJ) && negb (o =? 0) then free_slab s o va
    else if t =? TYPE_KV_CONTIG then free_contig s va
    else None
  else
    match k_heap s with
    | Some h =>
        if KERNEL_HEAP_VIRT_BASE <=? va then h ← jlos_memory_manager_free h va; Some (with_heap s h) else Some s
    | None => Some s
    end.

(** ** Small blocks *)

Definition jlos_kalloc_max_small : Z := FRAME_SIZE - SLAB_HDR.

(** [jlos_memory_slab_cache_create] with its memory from [jlos_kvalloc]. *)
Definition create_cache (s : kstate) (size : Z) : option (kstate * Z) :=
  match jlos_memory_slab_cache_create num_cpus true size PTR with
  | None => Some (s, 0)
  | Some c =>
      '(s, r) ← jlos_kvalloc s cache_bytes;
      Some match r with
      | None => (s, 0)
      | Some a => (with_caches s (<[a := c]> (k_caches s)), a)
      end
  end.

(** The loop over the buckets from [i] on. *)
Fixpoint create_buckets (n : nat) (s : kstate) (i : Z) : option kstate :=
  match n with
  | O => Some s
  | S n =>
      let sz := u32 (Z.shiftl JLOS_MM_MIN_ALLOC i) in
      '(s, a) ← (if jlos_kalloc_max_small <? sz then Some (s, 0) else create_cache s sz);
      l ← seti (s_kalloc_caches s) i a;
      create_buckets n (with_kalloc s l) (i + 1)
  end.
Definition kalloc_caches_ensure (s : kstate) : option kstate :=
  first ← geti (s_kalloc_caches s) 0;
  if negb (first =? 0) then Some s else create_buckets (Z.to_nat JLOS_MM_CLASS_COUNT) s 0.

Definition kalloc_size_to_bucket (n : Z) : Z :=
  if n <=? JLOS_MM_MIN_ALLOC then 0
  else
    let n := u32 (u32 (n + JLOS_MM_MIN_ALLOC) - 1) / JLOS_MM_MIN_ALLOC in
    let r := 32 - clz32 (n - 1) in
    if JLOS_MM_CLASS_COUNT <=? r then JLOS_MM_CLASS_COUNT - 1 else r.

Definition slab_alloc (s : kstate) (cache_addr : Z) : option (kstate * option Z) :=
  c ← k_caches s !! cache_addr;
  '(c, p, r) ← jlos_memory_slab_cache_alloc cache_addr c (k_pfa s) cpu;
  Some (with_caches (with_pfa s p) (<[cache_addr := c]> (k_caches s)), r).

Definition jlos_kalloc (s : kstate) (size : Z) : option (kstate * option Z) :=
  if size =? 0 then Some (s, None)
  else
    '(s, r) ← (if size <=? jlos_kalloc_max_small then
                 s ← kalloc_caches_ensure s;
                 c ← geti (s_kalloc_caches s) (kalloc_size_to_bucket size);
                 if negb (c =? 0) then slab_alloc s c else Some (s, None)
               else Some (s, None));
    match r with
    | Some p => Some (s, Some p)
    | None => jlos_kvalloc s size
    end.

Definition jlos_kfree (s : kstate) (obj : Z) : option kstate := jlos_kvfree s obj.

End ops.

(** ** Size classes *)

(** Small requests: the bucket of a size from 1 to the largest small one is the
    least power of two, from 16, that holds it; the caches of the buckets are those
    whose objects fit into a page behind its header, so a cache is never asked for
    more than its object size, and requests above 2048 have no cache. *)
Theorem kalloc_bucket_correct (n : Z) :
  1 <= n <= jlos_kalloc_max_small ->
  let b := kalloc_size_to_bucket n in
  0 <= b <= 8 /\ n <= 16 * 2 ^ b /\ (0 < b -> 16 * 2 ^ (b - 1) < n) /\
  (is_Some (jlos_memory_slab_cache_create 1 true (u32 (Z.shiftl 16 b)) 4) /\ u32 (Z.shiftl 16 b) <= jlos_kalloc_max_small <-> n <= 2048) /\
  (forall c, n <= 2048 -> jlos_memory_slab_cache_create 1 true (u32 (Z.shiftl 16 b)) 4 = Some c -> obj_size c = 16 * 2 ^ b).
Proof.
  change jlos_kalloc_max_small with 4064. intros Hn b.
  assert (0 <= b <= 8 /\ n <= 16 * 2 ^ b /\ (0 < b -> 16 * 2 ^ (b - 1) < n)) as (Hb & Hle & Hgt).
  { unfold b, kalloc_size_to_bucket, JLOS_MM_MIN_ALLOC, JLOS_MM_CLASS_COUNT, clz32. destruct (Z.leb_spec n 16); [lia|].
    rewrite u32_sub_l, u32_small by lia. set (k := (n + 16 - 1) / 16). assert (2 <= k <= 254 /\ 16 * (k - 1) < n <= 16 * k) as [Hk1 Hk2].
    { unfold k. Z.div_mod_to_equations. lia. }
    destruct (bit_length_spec 32 (k - 1)) as (L0 & L1 & L2); [change (Z.of_nat 32) with 32; lia|].
    set (l := bit_length 32 (k - 1)) in *. replace (32 - (32 - l)) with l by lia. specialize (L2 ltac:(lia)).
    assert (1 <= l) by (destruct (decide (l = 0)) as [E|]; [rewrite E in L1; simpl in L1|]; lia).
    assert (l <= 8) as Hl8.
    { apply (Z.pow_le_mono_r_iff 2); [lia|lia|]. destruct (Z.le_gt_cases l 8) as [H8|H8]; [by apply Z.pow_le_mono_r; lia|].
      assert (2 ^ 9 <= 2 ^ l) by (apply Z.pow_le_mono_r; lia). lia. }
    destruct (Z.leb_spec 32 l); [lia|]. assert (2 ^ l = 2 * 2 ^ (l - 1)) as E2 by (rewrite <- Z.pow_succ_r by lia; f_equal; lia).
    split_and!; lia. }
  split; [done|]. split; [done|]. split; [done|].
  assert (b = 0 \/ b = 1 \/ b = 2 \/ b = 3 \/ b = 4 \/ b = 5 \/ b = 6 \/ b = 7 \/ b = 8) as Hc by lia.
  destruct Hc as [E|[E|[E|[E|[E|[E|[E|[E|E]]]]]]]]; rewrite E in *; simpl in Hle, Hgt;
    (split; [split; [intros [_ Hs]; vm_compute in Hs; lia || done|intros Hn']|intros c Hn' Ec]);
    try (exfalso; lia); first [split; [by eexists|by vm_compute]|vm_compute in Ec; by injection Ec as <-].
Qed.


(** ** Page runs *)

(** Tagging changes the type and the owner of occupied frames only. *)
Definition tagged (p p' : pfa) (h n owner type : Z) : Prop :=
  same_lists p p' /\ pfa_inv p' /\
  forall y, 0 <= y -> pgt p' y = if decide (h <= y < h + n)
    then Page (pg_flags (pgt p y)) (u8 type) (pg_order (pgt p y)) (pg_pt_present (pgt p y)) (pg_refcount (pgt p y)) owner
    else pgt p y.

Lemma tag_pages_spec owner type n : forall p h, direct_mapped p -> 0 <= h -> h + Z.of_nat n <= s_total_frames p ->
  (forall x, h <= x < h + Z.of_nat n -> occupied (pgt p x) = true) ->
  exists p', tag_pages n p (frame_addr p h) owner type = Some p' /\ tagged p p' h (Z.of_nat n) owner type.
Proof.
  induction n as [|n IH]; intros p h Hdm Hh Hb Hocc.
  { exists p. split; [done|]. split; [apply same_lists_refl|]. split; [apply Hdm|]. intros y Hy. by rewrite decide_False by lia. }
  pose proof Hdm as (HI & Hst & Hal & Hm). destruct (phys_to_frame_addr p h Hst) as (E1 & E2 & E3); [lia|unfold FRAME_SIZE in *; lia|].
  cbn [tag_pages]. unfold jlos_page_frame_set_owner_type. destruct (Z.ltb_spec (frame_addr p h) (s_start_addr p)); [unfold FRAME_SIZE in *; lia|].
  cbv zeta. rewrite E1. destruct (Z.leb_spec (s_total_frames p) h); [lia|]. rewrite (geti_page p h HI) by lia. cbn [mbind option_bind].
  rewrite (Hocc h) by lia. set (g := fun q => Page (pg_flags q) (u8 type) (pg_order q) (pg_pt_present q) (pg_refcount q) owner).
  destruct (upd_page_spec p h g HI ltac:(lia)) as (p1 & -> & Hsl & Hp). cbn [mbind option_bind]. rewrite E3.
  assert (frame_addr p (h + 1) = frame_addr p1 (h + 1)) as -> by (unfold frame_addr; by rewrite (sl_start _ _ Hsl)).
  assert (pfa_inv p1) as HI1.
  { eapply inv_pages; [done|done|]. intros y Hy. rewrite Hp by lia. goal_decide; [subst y; right|by left].
    destruct (occupied_detached p h HI ltac:(lia) (Hocc h ltac:(lia))) as [? ?]. split_and!; [done|done|left]. apply (Hocc h). lia. }
  destruct (IH p1 (h + 1)) as (p' & -> & Hsl' & HI' & Hp'); [unfold direct_mapped; by rewrite (sl_total _ _ Hsl), (sl_start _ _ Hsl)|lia|rewrite (sl_total _ _ Hsl); lia| |].
  { intros x Hx. rewrite Hp by lia. rewrite decide_False by lia. apply Hocc. lia. }
  exists p'. split; [done|]. split; [by eapply same_lists_trans|]. split; [done|]. intros y Hy. rewrite Hp', Hp by done.
  repeat case_decide; subst; try lia; done.
Qed.

Lemma kv_pages_spec size : 0 <= size -> size + 4104 <= 2 ^ 32 ->
  (kv_pages size - 1) * 4096 < size + 8 <= kv_pages size * 4096.
Proof.
  intros H0 H1. unfold kv_pages, KV_HDR, FRAME_SIZE. rewrite !u32_sub_l, (u32_small (size + 8)), u32_small by lia.
  Z.div_mod_to_equations. lia.
Qed.

Lemma direct_mapped_mono p p' : direct_mapped p -> pfa_inv p' -> s_total_frames p' = s_total_frames p ->
  s_start_addr p' = s_start_addr p -> direct_mapped p'.
Proof. intros (_ & ? & ? & ?) HI Et Es. unfold direct_mapped. by rewrite Et, Es. Qed.

(** The release of a run whose pages are tagged and whose header is in place. *)
Lemma free_contig_spec s f n : direct_mapped (k_pfa s) -> 0 <= f -> 1 <= n <= 1024 -> f + n <= s_total_frames (k_pfa s) ->
  (forall x, f <= x < f + n -> occupied (pgt (k_pfa s) x) = true /\ pg_refcount (pgt (k_pfa s) x) = 1) ->
  n <= order_to_frames (pg_order (pgt (k_pfa s) f)) -> k_hdr s !! page_of (k_pfa s) f = Some (KV_CONTIG_MAGIC, n) ->
  exists s', free_contig s (page_of (k_pfa s) f + KV_HDR) = Some s' /\ pfa_inv (k_pfa s') /\
    (forall x, free (k_pfa s') x <-> free (k_pfa s) x \/ f <= x < f + n) /\ k_heap s' = k_heap s /\ k_caches s' = k_caches s.
Proof.
  intros Hdm Hf Hn Hb Hocc Hord Hhdr. pose proof Hdm as (HI & Hst & Hal & Hm). unfold FRAME_SIZE in Hm.
  destruct (page_of_virt (k_pfa s) f Hdm ltac:(lia)) as (_ & Ev & Ef & _).
  destruct (phys_to_frame_addr (k_pfa s) f Hst ltac:(lia) ltac:(unfold FRAME_SIZE; lia)) as (_ & Ea & _). unfold FRAME_SIZE in Ea.
  unfold free_contig. assert (u32 (page_of (k_pfa s) f + KV_HDR - KV_HDR) = page_of (k_pfa s) f) as ->.
  { rewrite Z.add_simpl_r. apply u32_small. unfold page_of, KERNEL_VIRTUAL_BASE, FRAME_SIZE. lia. }
  cbv zeta. rewrite Ev, Hhdr. cbn [mbind option_bind]. rewrite Z.eqb_refl, (proj2 (Z.eqb_neq n 0)) by lia.
  rewrite (proj2 (Z.leb_le n _)) by (unfold KV_CONTIG_MAX_PAGES; lia). cbn [andb negb].
  assert (Z.land (frame_addr (k_pfa s) f) (FRAME_SIZE - 1) = 0) as ->.
  { change (FRAME_SIZE - 1) with (2 ^ 12 - 1). rewrite land_mask by lia. change (2 ^ 12) with 4096. rewrite Ea. Z.div_mod_to_equations. lia. }
  rewrite Z.eqb_refl. cbn [k_pfa with_hdr].
  destruct (tag_pages_spec 0 0 (Z.to_nat n) (k_pfa s) f Hdm Hf) as (p1 & -> & Hsl & HI1 & Hp1); [lia|intros x Hx; apply Hocc; lia|].
  cbn [mbind option_bind]. rewrite Z2Nat.id in Hp1 by lia.
  assert (frame_addr (k_pfa s) f = frame_addr p1 f) as -> by (unfold frame_addr; by rewrite (sl_start _ _ Hsl)).
  destruct (free_n_spec p1 f n HI1) as (p2 & -> & HI2 & Hfree & _).
  - by rewrite (sl_start _ _ Hsl).
  - rewrite (sl_start _ _ Hsl), (sl_total _ _ Hsl). unfold FRAME_SIZE. lia.
  - done.
  - lia.
  - by rewrite (sl_total _ _ Hsl).
  - intros x Hx. rewrite Hp1, decide_True by lia. destruct (Hocc x Hx) as [H1 H2]. simpl. rewrite H2. split; [exact H1|lia].
  - right. rewrite Hp1, decide_True by lia. done.
  - eexists. split; [done|]. split; [done|]. split; [|done]. intros x. cbn [k_pfa with_pfa]. rewrite Hfree, (same_lists_free _ _ _ Hsl).
    split; [tauto|]. intros [?|Hx]; [by left|right]. split; [done|]. rewrite Hp1, decide_True by lia. simpl. by apply Hocc.
Qed.

(** Page runs round trip.  When the page frame allocator has a run for a
    request of a page or more, [jlos_kvalloc] takes it: its frames were free and are
    the only ones taken, and the block behind the header fits into it.
    [jlos_kvfree] of that block finds the run by the tag of its frame and its header,
    and gives back exactly the run: the free frames are then what they were before,
    the heap and the slab caches untouched. *)
Theorem kv_contig_roundtrip (ctx : bool) (map_ok : Z -> Z -> Z -> bool) (owner cpu : Z) (s : kstate) (h : mm) (size : Z) (p : pfa) (a : Z) :
  direct_mapped (k_pfa s) -> k_heap s = Some h -> FRAME_SIZE <= size -> size + 4104 <= 2 ^ 32 ->
  jlos_page_frame_alloc_n (k_pfa s) (kv_pages size) = Some (p, Some a) ->
  exists s' f ptr, jlos_kvalloc ctx map_ok owner s size = Some (s', Some ptr) /\ ptr = page_of (k_pfa s) f + KV_HDR /\
    KV_HDR + size <= kv_pages size * FRAME_SIZE /\ 0 <= f /\ f + kv_pages size <= s_total_frames (k_pfa s) /\
    (forall x, f <= x < f + kv_pages size -> free (k_pfa s) x) /\
    (forall x, free (k_pfa s') x <-> free (k_pfa s) x /\ ~ f <= x < f + kv_pages size) /\
    exists s'', jlos_kvfree cpu s' ptr = Some s'' /\ pfa_inv (k_pfa s'') /\
      (forall x, free (k_pfa s'') x <-> free (k_pfa s) x) /\ k_heap s'' = k_heap s /\ k_caches s'' = k_caches s.
Proof.
  intros Hdm Hh Hsz Hlim Ealloc. pose proof Hdm as (HI & Hst & Hal & Hm). unfold FRAME_SIZE in Hsz, Hm.
  pose proof (kv_pages_spec size ltac:(lia) Hlim) as Hkp. set (n := kv_pages size) in *.
  destruct (alloc_n_spec (k_pfa s) n HI ltac:(lia)) as (p1 & r & E1 & HI1 & Hr). rewrite Ealloc in E1. injection E1 as <- <-.
  destruct Hr as (f & -> & [[Hf Hfn] Hfree0 Htaken Hfree1 _ (Et & Es & Ep) Hhead] & _).
  destruct (page_of_virt (k_pfa s) f Hdm ltac:(lia)) as (Evirt & Ev & Ef & Ege).
  assert (direct_mapped p) as Hdm1 by (by eapply direct_mapped_mono).
  assert (frame_addr p f = frame_addr (k_pfa s) f) as Efa by (unfold frame_addr; by rewrite Es).
  destruct (tag_pages_spec 0 TYPE_KV_CONTIG (Z.to_nat n) p f Hdm1 Hf) as (p2 & E2 & Hsl & HI2 & Hp2); [lia|intros x Hx; apply Htaken; lia|].
  rewrite Efa in E2. rewrite Z2Nat.id in Hp2 by lia.
  set (s1 := with_hdr (with_pfa s p2) (<[page_of (k_pfa s) f := (KV_CONTIG_MAGIC, n)]> (k_hdr s))).
  assert (page_of p2 f = page_of (k_pfa s) f) as Epg by (unfold page_of; by rewrite (sl_start _ _ Hsl), Es).
  assert (direct_mapped p2) as Hdm2 by (eapply direct_mapped_mono; [exact Hdm1|done|apply Hsl..]).
  exists s1, f, (page_of (k_pfa s) f + KV_HDR). split_and!; [|done|unfold FRAME_SIZE, KV_HDR; lia|done|done|done| |].
  - unfold jlos_kvalloc. rewrite Hh. rewrite (proj2 (Z.eqb_neq size 0)) by lia. unfold FRAME_SIZE at 1. rewrite (proj2 (Z.leb_le _ _) Hsz).
    unfold kv_contig. cbv zeta. fold n. rewrite (proj2 (Z.leb_le n _)) by (unfold KV_CONTIG_MAX_PAGES; lia). rewrite Ealloc. cbn [mbind option_bind].
    rewrite Evirt, Ev, E2. cbn [mbind option_bind]. unfold s1. do 3 f_equal. apply u32_small. unfold page_of, KERNEL_VIRTUAL_BASE, FRAME_SIZE, KV_HDR. lia.
  - intros x. cbn [s1 k_pfa with_hdr with_pfa]. by rewrite (same_lists_free _ _ _ Hsl).
  - destruct (free_contig_spec s1 f n) as (s2 & Efr & HI3 & Hfree2 & Eh & Ec); [done|done|lia|simpl; by rewrite (sl_total _ _ Hsl), Et| | | |].
    + intros x Hx. simpl. rewrite Hp2, decide_True by lia. simpl. by apply Htaken.
    + simpl. rewrite Hp2, decide_True by lia. simpl. lia.
    + simpl. rewrite Epg. apply lookup_insert_eq.
    + exists s2. split; [|split_and!; [done| |by rewrite Eh|by rewrite Ec]].
      * change (page_of (k_pfa s1) f) with (page_of p2 f) in Efr. rewrite Epg in Efr. rewrite <- Efr. clear Efr.
        destruct (phys_to_frame_addr (k_pfa s) f Hst ltac:(lia) ltac:(unfold FRAME_SIZE; lia)) as (_ & Ea & _). unfold FRAME_SIZE in Ea.
        unfold jlos_kvfree, KERNEL_DIRECT_MAP_SIZE, page_of, KERNEL_VIRTUAL_BASE, FRAME_SIZE, KV_HDR.
        rewrite (proj2 (Z.eqb_neq _ 0)), (proj2 (Z.leb_le _ _)), (proj2 (Z.ltb_lt _ _)) by lia. cbn [andb]. cbv zeta.
        assert (Z.land (virt_to_phys (s_start_addr (k_pfa s) + f * 4096 + 0xC0000000 + 8)) (not32 (4096 - 1)) = frame_addr p2 f) as ->.
        { unfold frame_addr. rewrite (sl_start _ _ Hsl), Es. fold (frame_addr (k_pfa s) f). rewrite Ea.
          unfold virt_to_phys, KERNEL_VIRTUAL_BASE. rewrite u32_small by lia. change (4096 - 1) with (2 ^ 12 - 1). rewrite land_not_mask by lia.
          change (2 ^ 12) with 4096. Z.div_mod_to_equations. lia. }
        destruct (page_of_virt p2 f Hdm2) as (_ & _ & Ef2 & Ege2); [rewrite (sl_total _ _ Hsl), Et; lia|].
        unfold jlos_page_frame_get_type, jlos_page_frame_get_owner. cbn [s1 k_pfa with_hdr with_pfa].
        rewrite (proj2 (Z.ltb_ge _ _) Ege2). cbv zeta. rewrite Ef2. rewrite (proj2 (Z.ltb_lt f _)) by (rewrite (sl_total _ _ Hsl), Et; lia).
        rewrite (geti_page p2 f HI2) by (rewrite (sl_total _ _ Hsl), Et; lia). cbn [fmap option_fmap option_map mbind option_bind].
        rewrite Hp2, decide_True by lia. done.
      * intros x. rewrite Hfree2. cbn [s1 k_pfa with_hdr with_pfa]. rewrite (same_lists_free _ _ _ Hsl), Hfree1. specialize (Hfree0 x).
        destruct (decide (f <= x < f + n)); tauto.
Qed.

(** ** Witnesses *)

Lemma kalloc_bucket_correct_witness :
  kalloc_size_to_bucket 100 = 3 /\ 100 <= 16 * 2 ^ kalloc_size_to_bucket 100.
Proof. destruct (kalloc_bucket_correct 100) as (_ & H & _); [vm_compute; by split|]. split; [reflexivity|exact H]. Defined.

Definition kv_start : kstate := KState one_block (mm_init 65536 65536) ∅ (replicate 32 0) ∅.

Lemma kv_contig_roundtrip_witness :
  exists s' f ptr, jlos_kvalloc true (fun _ _ _ => true) 0 kv_start 4096 = Some (s', Some ptr) /\ ptr = page_of one_block f + KV_HDR /\
    exists s'', jlos_kvfree 0 s' ptr = Some s'' /\ forall x, free (k_pfa s'') x <-> free one_block x.
Proof.
  assert (exists p a, jlos_page_frame_alloc_n (k_pfa kv_start) (kv_pages 4096) = Some (p, Some a)) as (p & a & E)
    by (eexists _, _; vm_compute; reflexivity).
  assert (exists h0, k_heap kv_start = Some h0) as [h0 Eh] by (eexists; vm_compute; reflexivity).
  destruct (kv_contig_roundtrip true (fun _ _ _ => true) 0 0 kv_start h0 4096 p a)
    as (s' & f & ptr & H1 & H2 & _ & _ & _ & _ & _ & s'' & H3 & _ & H4 & _).
  - split; [exact one_block_inv|]. vm_compute. split_and!; done.
  - exact Eh.
  - vm_compute. done.
  - vm_compute. done.
  - exact E.
  - exists s', f, ptr. split; [exact H1|]. split; [exact H2|]. exists s''. split; [exact H3|exact H4].
Defined.

(** The size of the header is added without a test for wrap-around: a request of
    2^32 - 1 bytes is served with one page. *)
Lemma kvalloc_wraps :
  match jlos_kvalloc true (fun _ _ _ => true) 0 kv_start 0xFFFFFFFF with
  | Some (s', Some _) => bool_decide (Z.of_nat (length (filter (fun x => occupied x = true) (s_pages (k_pfa s')))) = 1)
  | _ => false
  end = true.
Proof. vm_compute. reflexivity. Qed.
