(* ===== verification/X86Paging.v ===== *)
(** * Page tables of the 32-bit configuration ([arch/x86/paging.c])

    Two levels of 1024 entries of 32 bits; directory entries can map 4 MiB.  The
    memory behind the direct map is [w_mem]: pages by address, as 1024 words.  A
    table is such a page, and so is the data of a process, so that copying a page
    and writing an entry are operations on the same memory.  Contexts are named by
    the address of their [jlos_paging_context_t]; 0 is the null pointer.

    [None] is the halt loop, an access through a bad pointer, or an index outside
    a table.  Locks are not modelled: an operation on a context runs under its
    lock.  [w_tlb] records the requests to invalidate translations, latest first. *)
From S2P Require Import Prelude Pfa PageSource MemIface.

Definition PTE_PRESENT : Z := 0x001.
Definition PTE_WRITABLE : Z := 0x002.
Definition PTE_USER : Z := 0x004.
Definition PTE_WRITE_THROUGH : Z := 0x008.
Definition PTE_CACHE_DISABLE : Z := 0x010.
Definition PTE_ACCESSED : Z := 0x020.
Definition PTE_DIRTY : Z := 0x040.
Definition PDE_PS : Z := 0x080.
Definition PTE_GLOBAL : Z := 0x100.
Definition PTE_NX : Z := 0x8000000000000000.

Definition PG_EXEC : Z := 0x4.
Definition PG_GLOBAL : Z := 0x10.
Definition PG_NOCACHE : Z := 0x20.
Definition PG_KERNEL_RW : Z := Z.lor PG_READ PG_WRITE.
Definition PG_KERNEL_ROX : Z := Z.lor PG_READ PG_EXEC.

Definition ADDR_MASK : Z := 0xFFFFF000.
Definition TABLE_ENTRIES : Z := 1024.
Definition LARGE_SIZE : Z := FRAME_SIZE * TABLE_ENTRIES.
Definition LARGE_ADDR_MASK : Z := not32 (LARGE_SIZE - 1).
Definition PAGE_TABLE_TYPE : Z := 5.

(** [*e & bits], as a condition. *)
Definition has (v bits : Z) : bool := negb (Z.land v bits =? 0).

Definition jlos_paging_get_page_dir_index (va : Z) : Z := Z.land (Z.shiftr va 22) 0x3FF.
Definition jlos_paging_get_page_table_index (va : Z) : Z := Z.land (Z.shiftr va 12) 0x3FF.
Definition jlos_paging_get_page_offset (va : Z) : Z := Z.land va 0xFFF.

Definition pte_prot (prot : Z) : Z :=
  let p := PTE_PRESENT in
  let p := if has prot PG_WRITE then Z.lor p PTE_WRITABLE else p in
  let p := if has prot PG_USER then Z.lor p PTE_USER else p in
  let p := if has prot PG_GLOBAL then Z.lor p PTE_GLOBAL else p in
  if has prot PG_NOCACHE then Z.lor p PTE_CACHE_DISABLE else p.

(** [jlos_paging_context_t], without its lock. *)
Record pctx := PCtx { pc_root : Z; num_page_tables : Z; pc_asid : Z }.
Definition ctx_init : pctx := PCtx 0 0 0.

Inductive flush := FlushPage (va : Z) | FlushAll | ShootdownAll (va : Z).

Record pworld := PWorld {
  w_pfa : pfa;
  w_mem : gmap Z (list Z);
  w_ctxs : gmap Z pctx;
  w_active : list Z;        (* [s_active_paging_context] *)
  w_boot : option Z;        (* [s_page_table_alloc]: the heap of the boot allocator *)
  w_tlb : list flush
}.
Definition set_pfa (w : pworld) (p : pfa) : pworld := PWorld p (w_mem w) (w_ctxs w) (w_active w) (w_boot w) (w_tlb w).
Definition set_mem (w : pworld) (m : gmap Z (list Z)) : pworld := PWorld (w_pfa w) m (w_ctxs w) (w_active w) (w_boot w) (w_tlb w).
Definition set_ctxs (w : pworld) (c : gmap Z pctx) : pworld := PWorld (w_pfa w) (w_mem w) c (w_active w) (w_boot w) (w_tlb w).
Definition set_active (w : pworld) (l : list Z) : pworld := PWorld (w_pfa w) (w_mem w) (w_ctxs w) l (w_boot w) (w_tlb w).
Definition set_boot (w : pworld) (b : option Z) : pworld := PWorld (w_pfa w) (w_mem w) (w_ctxs w) (w_active w) b (w_tlb w).
Definition flushed (w : pworld) (f : flush) : pworld := PWorld (w_pfa w) (w_mem w) (w_ctxs w) (w_active w) (w_boot w) (f :: w_tlb w).

Definition set_ctx (w : pworld) (ctx : Z) (c : pctx) : pworld := set_ctxs w (<[ctx := c]> (w_ctxs w)).
Definition set_tables (c : pctx) (n : Z) : pctx := PCtx (pc_root c) n (pc_asid c).
Definition set_root (c : pctx) (r : Z) : pctx := PCtx r (num_page_tables c) (pc_asid c).

(** Entry [i] of the table at [t]. *)
Definition load (w : pworld) (t i : Z) : option Z := l ← w_mem w !! t; geti l i.
Definition store (w : pworld) (t i v : Z) : option pworld :=
  l ← w_mem w !! t; l ← seti l i v; Some (set_mem w (<[t := l]> (w_mem w))).
(** [jlos_memset(p, 0, 4096)]. *)
Definition clear_page (w : pworld) (p : Z) : pworld := set_mem w (<[p := replicate 1024 0]> (w_mem w)).
(** Calls of the page frame allocator. *)
Definition on_pfa (w : pworld) (f : pfa -> option pfa) : option pworld := p ← f (w_pfa w); Some (set_pfa w p).

Section ops.
(** The processor. *)
Variable cpu : Z.

Definition take_frame (w : pworld) : option (pworld * option Z) :=
  '(p, r) ← pfa_page_malloc (w_pfa w) cpu; Some (set_pfa w p, r).
Definition give_frame (w : pworld) (a : Z) : option pworld :=
  on_pfa w (fun p => jlos_page_frame_free p cpu (virt_to_phys a)).

Definition paging_table_alloc (w : pworld) : option (pworld * option Z) :=
  match w_boot w with
  | Some heap => let '(heap, addr) := jlos_pfa_boot_alloc_page heap in Some (set_boot w (Some heap), Some (phys_to_virt addr))
  | None => take_frame w
  end.

(** The place of the entry of [va]: the table and the index. *)
Definition pte_walk (w : pworld) (ctx va : Z) : option (option (Z * Z)) :=
  if ctx =? 0 then Some None
  else
    c ← w_ctxs w !! ctx;
    if pc_root c =? 0 then Some None
    else
      pde ← load w (pc_root c) (jlos_paging_get_page_dir_index va);
      if negb (has pde PTE_PRESENT) || has pde PDE_PS then Some None
      else Some (Some (phys_to_virt (Z.land pde ADDR_MASK), jlos_paging_get_page_table_index va)).

Definition root_ensure (w : pworld) (ctx : Z) : option (pworld * bool) :=
  c ← w_ctxs w !! ctx;
  if negb (pc_root c =? 0) then Some (w, true)
  else
    '(w, r) ← paging_table_alloc w;
    match r with
    | None => Some (w, false)
    | Some t => Some (clear_page (set_ctx w ctx (set_root c t)) t, true)
    end.

(** The loop that frees the frames of a table. *)
Fixpoint free_entries (n : nat) (w : pworld) (t i : Z) (drop : pfa -> Z -> option pfa) : option pworld :=
  match n with
  | O => Some w
  | S n =>
      pte ← load w t i;
      w ← (if has pte PTE_PRESENT then on_pfa w (fun p => drop p (Z.land pte ADDR_MASK)) else Some w);
      free_entries n w t (i + 1) drop
  end.

Definition map_4mb_locked (w : pworld) (ctx va pa pte_flags : Z) : option (pworld * bool) :=
  c ← w_ctxs w !! ctx;
  let pd_index := jlos_paging_get_page_dir_index va in
  pde ← load w (pc_root c) pd_index;
  w ← (if has pde PTE_PRESENT && negb (has pde PDE_PS) then
         let old_pt := phys_to_virt (Z.land pde ADDR_MASK) in
         w ← free_entries 1024 w old_pt 0 (fun p phys => jlos_page_frame_free p cpu (virt_to_phys (phys_to_virt phys)));
         w ← on_pfa w (fun p => jlos_page_frame_clear_owner_type p (virt_to_phys old_pt));
         w ← give_frame w old_pt;
         Some (set_ctx w ctx (set_tables c (u32 (num_page_tables c - 1))))
       else Some w);
  w ← store w (pc_root c) pd_index
        (Z.lor (Z.lor (Z.lor (Z.lor (Z.land pa LARGE_ADDR_MASK) pte_flags) PDE_PS) PTE_PRESENT) PTE_WRITABLE);
  Some (w, true).

(** The table behind a directory entry, created when the entry is not present. *)
Definition table_ensure (w : pworld) (ctx pd_index prot : Z) : option (pworld * option Z) :=
  c ← w_ctxs w !! ctx;
  pde ← load w (pc_root c) pd_index;
  if has pde PTE_PRESENT then Some (w, Some (phys_to_virt (Z.land pde ADDR_MASK)))
  else
    '(w, r) ← paging_table_alloc w;
    match r with
    | None => Some (w, None)
    | Some t =>
        let w := clear_page w t in
        let pt_phys := virt_to_phys t in
        w ← store w (pc_root c) pd_index
              (Z.lor (Z.lor (Z.lor pt_phys PTE_PRESENT) PTE_WRITABLE) (Z.land (pte_prot prot) PTE_USER));
        let w := set_ctx w ctx (set_tables c (u32 (num_page_tables c + 1))) in
        w ← on_pfa w (fun p => jlos_page_frame_set_owner_type p pt_phys 0 PAGE_TABLE_TYPE);
        w ← on_pfa w (fun p => jlos_page_frame_pt_present_count_set p pt_phys 0);
        Some (w, Some t)
    end.

(** Setting an entry that is not present. *)
Definition pte_install (w : pworld) (t pt_index pa prot : Z) : option (pworld * bool) :=
  pte ← load w t pt_index;
  if has pte PTE_PRESENT then Some (w, false)
  else
    w ← store w t pt_index (Z.lor (Z.land pa ADDR_MASK) (pte_prot prot));
    w ← on_pfa w (fun p => jlos_page_frame_pt_present_count_inc p (virt_to_phys t));
    Some (w, true).

Definition jlos_arch_map_entry (w : pworld) (ctx va pa prot : Z) : option (pworld * bool) :=
  if ctx =? 0 then Some (w, false)
  else
    '(w, ok) ← root_ensure w ctx;
    if negb ok then Some (w, false)
    else
      '(w, r) ← table_ensure w ctx (jlos_paging_get_page_dir_index va) prot;
      match r with
      | None => Some (w, false)
      | Some t => pte_install w t (jlos_paging_get_page_table_index va) pa prot
      end.

Definition unmap_locked (w : pworld) (ctx va : Z) : option (pworld * bool) :=
  if ctx =? 0 then Some (w, false)
  else
    c ← w_ctxs w !! ctx;
    if pc_root c =? 0 then Some (w, false)
    else
      let pd_idx := jlos_paging_get_page_dir_index va in
      let pt_idx := jlos_paging_get_page_table_index va in
      pde ← load w (pc_root c) pd_idx;
      if negb (has pde PTE_PRESENT) then Some (w, false)
      else if has pde PDE_PS then
        w ← (if Z.land va LARGE_ADDR_MASK <? KERNEL_VIRTUAL_BASE then
               let phys_base := Z.land pde LARGE_ADDR_MASK in
               on_pfa w (fun p => jlos_page_frame_free_n p (virt_to_phys (phys_to_virt phys_base)) (LARGE_SIZE / FRAME_SIZE))
             else Some w);
        w ← store w (pc_root c) pd_idx 0;
        Some (w, true)
      else
        let pt_phys := Z.land pde ADDR_MASK in
        let pt := phys_to_virt pt_phys in
        pte ← load w pt pt_idx;
        w ← (if has pte PTE_PRESENT then
               w ← on_pfa w (fun p => jlos_page_frame_refcount_dec p cpu (Z.land pte ADDR_MASK));
               on_pfa w (fun p => jlos_page_frame_pt_present_count_dec p pt_phys)
             else Some w);
        w ← store w pt pt_idx 0;
        n ← jlos_page_frame_pt_present_count_get (w_pfa w) pt_phys;
        w ← (if n =? 0 then
               w ← on_pfa w (fun p => jlos_page_frame_clear_owner_type p pt_phys);
               w ← (if Z.land va LARGE_ADDR_MASK <? KERNEL_VIRTUAL_BASE then give_frame w pt else Some w);
               w ← store w (pc_root c) pd_idx 0;
               Some (set_ctx w ctx (set_tables c (u32 (num_page_tables c - 1))))
             else Some w);
        Some (w, true).

Definition jlos_arch_unmap_entry (w : pworld) (ctx va : Z) : option (pworld * bool) := unmap_locked w ctx va.

(** The loop of [jlos_arch_map_range_entry]; returns where it stopped, the number of
    pages done, and whether it went through. *)
Fixpoint map_range_loop (fuel : nat) (w : pworld) (ctx virtual_addr physical_addr end_addr prot pd_index pages_done : Z)
    : option (pworld * Z * Z * bool) :=
  if virtual_addr <? end_addr then
    match fuel with
    | O => None
    | S fuel =>
        let pt_index := jlos_paging_get_page_table_index virtual_addr in
        '(w, r) ← table_ensure w ctx pd_index prot;
        match r with
        | None => Some (w, virtual_addr, pages_done, false)
        | Some t =>
            '(w, ok) ← pte_install w t pt_index physical_addr prot;
            if negb ok then Some (w, virtual_addr, pages_done, false)
            else
              let virtual_addr := u32 (virtual_addr + FRAME_SIZE) in
              let physical_addr := u32 (physical_addr + FRAME_SIZE) in
              let pd_index := if Z.land virtual_addr (LARGE_SIZE - 1) =? 0 then u32 (pd_index + 1) else pd_index in
              map_range_loop fuel w ctx virtual_addr physical_addr end_addr prot pd_index (u32 (pages_done + 1))
        end
    end
  else Some (w, virtual_addr, pages_done, true).

Fixpoint rollback (n : nat) (w : pworld) (ctx virtual_addr : Z) : option pworld :=
  match n with
  | O => Some w
  | S n =>
      let virtual_addr := u32 (virtual_addr - FRAME_SIZE) in
      '(w, _) ← unmap_locked w ctx virtual_addr;
      rollback n w ctx virtual_addr
  end.

Definition jlos_arch_map_range_entry (w : pworld) (ctx va_start pa_start size prot : Z) : option (pworld * bool) :=
  if ctx =? 0 then Some (w, false)
  else
    '(w, ok) ← root_ensure w ctx;
    if negb ok then Some (w, false)
    else if negb (size =? 0) && ((u32 (va_start + size) <? va_start) || (u32 (pa_start + size) <? pa_start)) then Some (w, false)
    else
      '(w, va, pages_done, ok) ← map_range_loop (Z.to_nat (ceil_div size FRAME_SIZE)) w ctx va_start pa_start
          (u32 (va_start + size)) prot (jlos_paging_get_page_dir_index va_start) 0;
      if ok : bool then Some (w, true)
      else w ← rollback (Z.to_nat pages_done) w ctx va; Some (w, false).

Definition jlos_arch_get_phys_entry (w : pworld) (ctx va : Z) : option Z :=
  if ctx =? 0 then Some va
  else
    c ← w_ctxs w !! ctx;
    if pc_root c =? 0 then Some va
    else
      pde ← load w (pc_root c) (jlos_paging_get_page_dir_index va);
      if negb (has pde PTE_PRESENT) then Some 0
      else if has pde PDE_PS then Some (Z.lor (Z.land pde LARGE_ADDR_MASK) (Z.land va (LARGE_SIZE - 1)))
      else
        pte ← load w (phys_to_virt (Z.land pde ADDR_MASK)) (jlos_paging_get_page_table_index va);
        if negb (has pte PTE_PRESENT) then Some 0
        else Some (Z.lor (Z.land pte ADDR_MASK) (jlos_paging_get_page_offset va)).

Definition PDE_KEEP : Z :=
  Z.lor (Z.lor (Z.lor (Z.lor (Z.lor (Z.lor PDE_PS PTE_GLOBAL) 0x1000) PTE_WRITE_THROUGH) PTE_CACHE_DISABLE) PTE_ACCESSED) PTE_DIRTY.
Definition PTE_KEEP : Z :=
  Z.lor (Z.lor (Z.lor (Z.lor PTE_GLOBAL PTE_DIRTY) PTE_CACHE_DISABLE) PTE_WRITE_THROUGH) PTE_ACCESSED.

Definition jlos_arch_change_flags_entry (w : pworld) (ctx va prot : Z) : option pworld :=
  if ctx =? 0 then Some w
  else
    c ← w_ctxs w !! ctx;
    if pc_root c =? 0 then Some w
    else
      let pd_idx := jlos_paging_get_page_dir_index va in
      let pt_idx := jlos_paging_get_page_table_index va in
      pde ← load w (pc_root c) pd_idx;
      if negb (has pde PTE_PRESENT) then Some w
      else if has pde PDE_PS then
        let phys_base := Z.land pde LARGE_ADDR_MASK in
        let keep := Z.land pde PDE_KEEP in
        store w (pc_root c) pd_idx (Z.lor (Z.lor phys_base (pte_prot prot)) keep)
      else
        let pt := phys_to_virt (Z.land pde ADDR_MASK) in
        pte ← load w pt pt_idx;
        if negb (has pte PTE_PRESENT) then Some w
        else
          let phys := Z.land pte ADDR_MASK in
          let preserve := Z.land pte PTE_KEEP in
          w ← store w pt pt_idx (Z.lor (Z.lor phys (pte_prot prot)) preserve);
          if has prot PG_USER then
            pde ← load w (pc_root c) pd_idx; store w (pc_root c) pd_idx (Z.lor pde PTE_USER)
          else Some w.

(** [jlos_hal_paging_get_active_context] and [jlos_hal_paging_set_active_context] *)
Definition active_context (w : pworld) : option Z := geti (w_active w) cpu.
Definition set_active_context (w : pworld) (ctx : Z) : option pworld :=
  l ← seti (w_active w) cpu ctx; Some (set_active w l).

Definition jlos_arch_need_flush_tlb (w : pworld) (ctx va : Z) : option bool :=
  if ctx =? 0 then Some false
  else
    c ← w_ctxs w !! ctx;
    if pc_root c =? 0 then Some false
    else
      act ← active_context w;
      if ctx =? act then Some true
      else if act =? 0 then Some false
      else
        a ← w_ctxs w !! act;
        if pc_root a =? 0 then Some false
        else
          let pd_idx := jlos_paging_get_page_dir_index va in
          self_pde ← load w (pc_root c) pd_idx;
          if negb (has self_pde PTE_PRESENT) || has self_pde PDE_PS then Some false
          else
            act_pde ← load w (pc_root a) pd_idx;
            if negb (has act_pde PTE_PRESENT) then Some false
            else Some (Z.land self_pde ADDR_MASK =? Z.land act_pde ADDR_MASK).

(** The loop of [jlos_arch_paging_context_tables_destroy]. *)
Fixpoint destroy_tables (n : nat) (w : pworld) (root i : Z) : option pworld :=
  match n with
  | O => Some w
  | S n =>
      pde ← load w root i;
      w ← (if negb (has pde PTE_PRESENT) then Some w
           else
             let is_kernel_space := KERNEL_VIRTUAL_BASE <=? u32 (Z.shiftl i 22) in
             if has pde PDE_PS then
               if negb is_kernel_space then
                 let phys_base := Z.land pde LARGE_ADDR_MASK in
                 on_pfa w (fun p => jlos_page_frame_free_n p (virt_to_phys (phys_to_virt phys_base)) (LARGE_SIZE / FRAME_SIZE))
               else Some w
             else if is_kernel_space then Some w
             else
               let pt := phys_to_virt (Z.land pde ADDR_MASK) in
               w ← free_entries 1024 w pt 0 (fun p phys => jlos_page_frame_refcount_dec p cpu phys);
               w ← on_pfa w (fun p => jlos_page_frame_clear_owner_type p (virt_to_phys pt));
               give_frame w pt);
      destroy_tables n w root (i + 1)
  end.

Definition jlos_arch_paging_context_tables_destroy (w : pworld) (ctx : Z) : option pworld :=
  if ctx =? 0 then Some w
  else
    c ← w_ctxs w !! ctx;
    if pc_root c =? 0 then Some w
    else
      w ← destroy_tables 1024 w (pc_root c) 0;
      w ← give_frame w (pc_root c);
      Some (set_ctx w ctx ctx_init).

(** The loop that shares the directory entries of the kernel. *)
Fixpoint share_entries (n : nat) (w : pworld) (dst src i : Z) : option pworld :=
  match n with
  | O => Some w
  | S n =>
      src_pde ← load w src i;
      w ← (if negb (has src_pde PTE_PRESENT) then Some w else store w dst i src_pde);
      share_entries n w dst src (i + 1)
  end.

Definition jlos_arch_paging_context_tables_clone (w : pworld) (dst src : Z) : option pworld :=
  let w := set_ctx w dst ctx_init in
  '(w, r) ← take_frame w;
  match r with
  | None => Some w
  | Some t =>
      let w := clear_page (set_ctx w dst (set_root ctx_init t)) t in
      s ← w_ctxs w !! src;
      if pc_root s =? 0 then Some w
      else share_entries 256 w t (pc_root s) (Z.shiftr KERNEL_VIRTUAL_BASE 22)
  end.

(** ** Single entries *)

Definition jlos_arch_pte_present (w : pworld) (ctx va : Z) : option bool :=
  e ← pte_walk w ctx va;
  match e with
  | None => Some false
  | Some (t, i) => pte ← load w t i; Some (has pte PTE_PRESENT)
  end.
Definition jlos_arch_pte_phys (w : pworld) (ctx va : Z) : option Z :=
  e ← pte_walk w ctx va;
  match e with
  | None => Some 0
  | Some (t, i) => pte ← load w t i; Some (if negb (has pte PTE_PRESENT) then 0 else Z.land pte ADDR_MASK)
  end.
Definition jlos_arch_pte_set (w : pworld) (ctx va pa prot : Z) : option pworld :=
  e ← pte_walk w ctx va;
  match e with
  | None => Some w
  | Some (t, i) => store w t i (Z.lor (Z.land pa ADDR_MASK) (pte_prot prot))
  end.
Definition jlos_arch_pte_set_rw (w : pworld) (ctx va : Z) : option pworld :=
  e ← pte_walk w ctx va;
  match e with
  | None => Some w
  | Some (t, i) => pte ← load w t i; if has pte PTE_PRESENT then store w t i (Z.lor pte PTE_WRITABLE) else Some w
  end.
Definition jlos_arch_pte_make_ro (w : pworld) (ctx va : Z) : option pworld :=
  e ← pte_walk w ctx va;
  match e with
  | None => Some w
  | Some (t, i) => pte ← load w t i; store w t i (Z.land pte (not32 PTE_WRITABLE))
  end.
Definition jlos_arch_pte_replace (w : pworld) (ctx va pa prot : Z) : option (pworld * bool) :=
  e ← pte_walk w ctx va;
  match e with
  | None => Some (w, false)
  | Some (t, i) =>
      pte ← load w t i;
      if negb (has pte PTE_PRESENT) then Some (w, false)
      else w ← store w t i (Z.lor (Z.land pa ADDR_MASK) (pte_prot prot)); Some (w, true)
  end.
(** The protection an entry stands for. *)
Definition prot_of (pte : Z) : Z :=
  let prot := PG_READ in
  let prot := if has pte PTE_WRITABLE then Z.lor prot PG_WRITE else prot in
  let prot := if has pte PTE_USER then Z.lor prot PG_USER else prot in
  let prot := if has pte PTE_GLOBAL then Z.lor prot PG_GLOBAL else prot in
  if negb (has pte PTE_NX) then Z.lor prot PG_EXEC else prot.
Definition jlos_arch_pte_get_prot (w : pworld) (ctx va : Z) : option Z :=
  e ← pte_walk w ctx va;
  match e with
  | None => Some 0
  | Some (t, i) => pte ← load w t i; Some (if negb (has pte PTE_PRESENT) then 0 else prot_of pte)
  end.

End ops.
