(* ===== verification/Paging.v ===== *)
(** * Generic paging ([kernel/paging.c])

    The operations on address spaces over the page tables of [X86Paging]: they take
    the lock of the context, call the architecture, and invalidate translations. *)
From S2P Require Import Prelude Pfa PageSource MemIface X86Paging.

Definition FLUSH_ALL_TLB_THRESHOLD : Z := 32.
Definition USER_SPACE_LIMIT : Z := KERNEL_VIRTUAL_BASE.

Section ops.
Variable cpu : Z.

(** [if (self == jlos_hal_paging_get_active_context()) jlos_hal_paging_flush_tlb(va)] *)
Definition flush_if_active (w : pworld) (self va : Z) : option pworld :=
  act ← active_context cpu w; Some (if self =? act then flushed w (FlushPage va) else w).

Definition jlos_paging_context_init (w : pworld) (self : Z) : pworld := set_ctx w self ctx_init.

Definition jlos_paging_map (w : pworld) (self virtual_addr physical_addr prot : Z) : option (pworld * bool) :=
  if self =? 0 then Some (w, false)
  else
    '(w, ret) ← jlos_arch_map_entry cpu w self virtual_addr physical_addr prot;
    w ← (if ret : bool then flush_if_active w self virtual_addr else Some w);
    Some (w, ret).

(** The loop that invalidates page by page. *)
Fixpoint flush_pages (fuel : nat) (w : pworld) (va end_addr : Z) : option pworld :=
  if va <? end_addr then
    match fuel with
    | O => None
    | S fuel => flush_pages fuel (flushed w (FlushPage va)) (u32 (va + FRAME_SIZE)) end_addr
    end
  else Some w.

Definition jlos_paging_map_range (w : pworld) (self virtual_addr_start physical_addr_start size prot : Z)
    : option (pworld * bool) :=
  if self =? 0 then Some (w, false)
  else
    '(w, ret) ← jlos_arch_map_range_entry cpu w self virtual_addr_start physical_addr_start size prot;
    act ← active_context cpu w;
    w ← (if (ret : bool) && (self =? act) then
           let num_pages := u32 (u32 (size + FRAME_SIZE) - 1) / FRAME_SIZE in
           if num_pages <? FLUSH_ALL_TLB_THRESHOLD
           then flush_pages 32 w virtual_addr_start (u32 (virtual_addr_start + size))
           else Some (flushed w FlushAll)
         else Some w);
    Some (w, ret).

(** [!self || !self->root] *)
Definition no_root (w : pworld) (self : Z) : option bool :=
  if self =? 0 then Some true else c ← w_ctxs w !! self; Some (pc_root c =? 0).

Definition jlos_paging_unmap (w : pworld) (self virtual_addr : Z) : option (pworld * bool) :=
  none ← no_root w self;
  if none : bool then Some (w, false)
  else
    '(w, ret) ← jlos_arch_unmap_entry cpu w self virtual_addr;
    w ← (if ret : bool then flush_if_active w self virtual_addr else Some w);
    Some (w, ret).

Definition jlos_paging_get_physical_addr (w : pworld) (self virtual_addr : Z) : option Z :=
  none ← no_root w self;
  if none : bool then Some virtual_addr else jlos_arch_get_phys_entry w self virtual_addr.

Definition jlos_paging_change_flags (w : pworld) (self virtual_addr prot : Z) : option pworld :=
  none ← no_root w self;
  if none : bool then Some w
  else
    w ← jlos_arch_change_flags_entry w self virtual_addr prot;
    need ← jlos_arch_need_flush_tlb cpu w self virtual_addr;
    Some (if need : bool then flushed w (FlushPage virtual_addr) else w).

Fixpoint change_flags_loop (fuel : nat) (w : pworld) (self addr virtual_addr_end prot : Z) (flush_one need_flush_all : bool)
    : option (pworld * bool) :=
  if addr <? virtual_addr_end then
    match fuel with
    | O => None
    | S fuel =>
        w ← jlos_arch_change_flags_entry w self addr prot;
        need ← jlos_arch_need_flush_tlb cpu w self addr;
        let '(w, all) :=
          if need : bool then (if flush_one then (flushed w (FlushPage addr), need_flush_all) else (w, true))
          else (w, need_flush_all) in
        change_flags_loop fuel w self (u32 (addr + FRAME_SIZE)) virtual_addr_end prot flush_one all
    end
  else Some (w, need_flush_all).

Definition jlos_paging_change_flags_range (w : pworld) (self virtual_addr_start virtual_addr_end prot : Z) : option pworld :=
  none ← no_root w self;
  if (none : bool) || (virtual_addr_end <=? virtual_addr_start) then Some w
  else
    let start := page_align_down virtual_addr_start in
    let page_num := u32 (virtual_addr_end - start) / FRAME_SIZE in
    let flush_one := page_num <? FLUSH_ALL_TLB_THRESHOLD in
    '(w, all) ← change_flags_loop (Z.to_nat (page_num + 1)) w self start virtual_addr_end prot flush_one false;
    Some (if all : bool then flushed w FlushAll else w).

(** One page of [jlos_paging_cow_range]. *)
Definition cow_page (w : pworld) (src dst va : Z) : option pworld :=
  present ← jlos_arch_pte_present w src va;
  if negb present then Some w
  else
    phys ← jlos_arch_pte_phys w src va;
    src_prot ← jlos_arch_pte_get_prot w src va;
    w ← on_pfa w (fun p => jlos_page_frame_refcount_inc p phys);
    '(w, _) ← jlos_arch_map_entry cpu w dst va phys (Z.land src_prot (not32 PG_WRITE));
    jlos_arch_pte_make_ro w src va.

Fixpoint cow_loop (n : nat) (w : pworld) (src dst va : Z) : option pworld :=
  match n with
  | O => Some w
  | S n => w ← cow_page w src dst va; cow_loop n w src dst (u32 (va + FRAME_SIZE))
  end.

Fixpoint shootdown_loop (n : nat) (w : pworld) (src va : Z) : option pworld :=
  match n with
  | O => Some w
  | S n =>
      present ← jlos_arch_pte_present w src va;
      shootdown_loop n (if present : bool then flushed w (ShootdownAll va) else w) src (u32 (va + FRAME_SIZE))
  end.

Definition jlos_paging_cow_range (w : pworld) (src dst start end_addr : Z) : option (pworld * bool) :=
  none ← no_root w src;
  if (none : bool) || (dst =? 0) || (end_addr <=? start) || (src =? dst) then Some (w, false)
  else
    let start := page_align_down start in
    let end_addr := page_align_up end_addr in
    let n := Z.to_nat ((end_addr - start) / FRAME_SIZE) in
    w ← cow_loop n w src dst start;
    w ← shootdown_loop n w src start;
    Some (w, true).

(** [jlos_hal_paging_enable] and [jlos_hal_paging_switch] load the root register. *)
Definition jlos_paging_enable (w : pworld) (self : Z) : option pworld := set_active_context cpu w self.
Definition jlos_paging_switch (w : pworld) (self : Z) : option pworld := set_active_context cpu w self.

Definition jlos_paging_is_user_accessible (w : pworld) (ctx virtual_addr len : Z) : option bool :=
  none ← no_root w ctx;
  if none : bool then Some false
  else Some (negb ((USER_SPACE_LIMIT <=? virtual_addr) || (USER_SPACE_LIMIT <? u32 (virtual_addr + len)))).

End ops.

(** ** Start ([jlos_arch_paging_initialize_kernel]) *)

(** [jlos_hal_kernel_segments_t] *)
Record segments := Segments { text_start : Z; text_end : Z; data_start : Z; data_end : Z; bss_start : Z; bss_end : Z }.

Section init.
(** The address of [s_kernel_paging_context]. *)
Variables (cpu kernel : Z).

Fixpoint map_large_loop (fuel : nat) (w : pworld) (pa map_size : Z) : option pworld :=
  if pa <? map_size then
    match fuel with
    | O => None
    | S fuel =>
        '(w, ok) ← root_ensure cpu w kernel;
        if negb ok then Some w
        else
          '(w, _) ← map_4mb_locked cpu w kernel (u32 (KERNEL_VIRTUAL_BASE + pa)) pa PTE_GLOBAL;
          map_large_loop fuel w (u32 (pa + LARGE_SIZE)) map_size
    end
  else Some w.

(** [memory_end] is [jlos_device_physical_memory_end], [low_end] the address of
    [_boot_end_phys], [heap] the pointer of the boot allocator. *)
Definition jlos_arch_paging_initialize_kernel (w : pworld) (heap memory_end low_end : Z) (seg : segments) : option pworld :=
  let w := jlos_paging_context_init (set_boot w (Some heap)) kernel in
  let map_size := if 0x38000000 <? memory_end then 0x38000000 else memory_end in
  let huge_start := u32 (u32 (low_end + LARGE_SIZE) - 1) / LARGE_SIZE in
  let huge_start := if map_size <? huge_start then map_size else huge_start in
  w ← (if negb (huge_start =? 0) then
         '(w, _) ← jlos_paging_map_range cpu w kernel KERNEL_VIRTUAL_BASE 0 huge_start (Z.lor PG_KERNEL_RW PG_GLOBAL); Some w
       else Some w);
  w ← (if negb (text_start seg =? 0) then
         w ← jlos_paging_change_flags_range cpu w kernel (text_start seg) (text_end seg) PG_KERNEL_ROX;
         w ← jlos_paging_change_flags_range cpu w kernel (data_start seg) (data_end seg) PG_KERNEL_RW;
         jlos_paging_change_flags_range cpu w kernel (bss_start seg) (bss_end seg) PG_KERNEL_RW
       else Some w);
  w ← map_large_loop 1024 w huge_start map_size;
  w ← jlos_paging_enable cpu w kernel;
  Some (set_boot w None).

End init.
