(* ===== verification/FrameStep.v ===== *)
(** * One frame at a time

    The calls of the page frame allocator that page tables use, seen from the record
    of one frame: taking and dropping references, the present counts of tables and
    the owner tags.  [pstep p p' x] says that a call concerns frame [x] only; every
    call below is such a step, with what it does to [x]. *)
From S2P Require Import Prelude Pfa PfaInv PfaCpu PageSource.

(** Every frame but [x] keeps its occupancy and, when allocated, its record. *)
Definition pstep (p p' : pfa) (x : Z) : Prop :=
  direct_mapped p' /\ same_shape p p' /\
  forall y, 0 <= y -> y <> x -> occupied (pgt p' y) = occupied (pgt p y) /\
    (occupied (pgt p y) = true -> same_page (pgt p' y) (pgt p y)).

Lemma same_shape_refl p : same_shape p p.
Proof. done. Qed.
Lemma same_shape_trans p p1 p2 : same_shape p p1 -> same_shape p1 p2 -> same_shape p p2.
Proof. unfold same_shape. intuition congruence. Qed.

Lemma pstep_refl p x : direct_mapped p -> pstep p p x.
Proof. intros. by split_and!. Qed.
Lemma pstep_trans p p1 p2 x : pstep p p1 x -> pstep p1 p2 x -> pstep p p2 x.
Proof.
  intros (_ & H1 & H2) (G0 & G1 & G2). split; [done|]. split; [by eapply same_shape_trans|].
  intros y Hy Hne. destruct (H2 y Hy Hne) as [E1 S1], (G2 y Hy Hne) as [E2 S2]. split; [congruence|].
  intros Ho. eapply same_page_trans; [apply S2; congruence|by apply S1].
Qed.

Lemma step_mapped p p' : direct_mapped p -> pfa_inv p' -> same_shape p p' -> direct_mapped p'.
Proof. intros ? ? ?. by eapply shape_mapped. Qed.

Lemma lists_shape p p' : same_lists p p' -> same_shape p p'.
Proof. intros H. split_and!; [apply H..|]. by rewrite (sl_percpu _ _ H). Qed.

(** The number of a frame and its physical address. *)
Lemma frame_number p x : direct_mapped p -> 0 <= x < s_total_frames p ->
  pfa_phys_to_frame p (frame_addr p x) = x /\ frame_addr p x = s_start_addr p + x * 4096 /\ s_start_addr p <= frame_addr p x.
Proof.
  intros (HI & Hst & _ & Hm) Hx. unfold FRAME_SIZE in Hm.
  destruct (phys_to_frame_addr p x Hst Hx) as (E1 & E2 & _); [unfold FRAME_SIZE; lia|]. unfold FRAME_SIZE in E2. split_and!; lia.
Qed.
Lemma shape_addr p p' x : same_shape p p' -> frame_addr p' x = frame_addr p x.
Proof. intros (_ & E & _). unfold frame_addr. by rewrite E. Qed.

(** An address outside the managed frames is of no concern. *)
Lemma frame_outside p phys : direct_mapped p -> 0 <= phys < 2 ^ 32 -> phys mod 4096 = 0 ->
  s_total_frames p <= pfa_phys_to_frame p phys \/
  exists x, 0 <= x < s_total_frames p /\ phys = frame_addr p x.
Proof.
  intros Hd Hp Ha. pose proof Hd as (HI & Hst & Hal & Hm). unfold FRAME_SIZE in Hm.
  destruct (Z.le_gt_cases (s_total_frames p) (pfa_phys_to_frame p phys)) as [|Hlt]; [by left|right].
  exists (pfa_phys_to_frame p phys). pose proof (pi_total _ HI). unfold pfa_phys_to_frame, FRAME_SIZE in *.
  pose proof (u32_range (phys - s_start_addr p)) as Hr.
  assert (0 <= u32 (phys - s_start_addr p) / 4096) by (apply Z.div_pos; lia). split; [lia|].
  assert (s_start_addr p <= phys) as Hge.
  { apply Z.nlt_ge. intros Hl. assert (u32 (phys - s_start_addr p) = phys - s_start_addr p + 2 ^ 32) as E.
    { unfold u32, wrap. rewrite <- (Z_mod_plus_full _ 1), Z.mod_small; lia. }
    rewrite E in Hlt. assert (0x38000 <= (phys - s_start_addr p + 2 ^ 32) / 4096); [|lia].
    apply Z.div_le_lower_bound; lia. }
  rewrite u32_small by lia. unfold frame_addr, FRAME_SIZE. rewrite (u32_small (_ * 4096)), u32_small; Z.div_mod_to_equations; lia.
Qed.

(** Changing the record of an allocated frame. *)
Lemma upd_record p x g : direct_mapped p -> 0 <= x < s_total_frames p -> occupied (pgt p x) = true ->
  occupied (g (pgt p x)) = true ->
  exists p', upd_page p x g = Some p' /\ pstep p p' x /\ pgt p' x = g (pgt p x).
Proof.
  intros Hd Hx Ho Hg. pose proof Hd as (HI & _). destruct (upd_page_spec p x g HI Hx) as (p' & -> & Hsl & Hp).
  exists p'. split; [done|]. split; [|by rewrite Hp, decide_True by lia].
  assert (pfa_inv p') as HI'.
  { eapply inv_pages; [done|done|]. intros y Hy. rewrite Hp by lia. goal_decide; [subst y; right|by left].
    destruct (occupied_detached p x HI Hx Ho) as [? ?]. by split_and!; [..|left]. }
  split; [by eapply step_mapped; [| |apply lists_shape]|]. split; [by apply lists_shape|].
  intros y Hy Hne. rewrite Hp, decide_False by done. split; [done|]. intros _. apply same_page_refl.
Qed.

Section on_frame.
Context (p : pfa) (x : Z).
Hypothesis Hd : direct_mapped p.
Hypothesis Hx : 0 <= x < s_total_frames p.

Let HI : pfa_inv p. Proof. apply Hd. Qed.
Let Ex : pfa_phys_to_frame p (frame_addr p x) = x. Proof. by apply frame_number. Qed.

Lemma set_owner_step owner type : occupied (pgt p x) = true ->
  exists p', jlos_page_frame_set_owner_type p (frame_addr p x) owner type = Some p' /\ pstep p p' x /\
    pgt p' x = Page (pg_flags (pgt p x)) (u8 type) (pg_order (pgt p x)) (pg_pt_present (pgt p x)) (pg_refcount (pgt p x)) owner.
Proof using Hd Hx HI Ex.
  intros Ho. unfold jlos_page_frame_set_owner_type. destruct (frame_number p x Hd Hx) as (_ & _ & Hge).
  destruct (Z.ltb_spec (frame_addr p x) (s_start_addr p)); [lia|]. cbv zeta. rewrite Ex.
  destruct (Z.leb_spec (s_total_frames p) x); [lia|]. rewrite (geti_page p x HI Hx). cbn [mbind option_bind]. rewrite Ho.
  by apply (upd_record p x (fun q => Page (pg_flags q) (u8 type) (pg_order q) (pg_pt_present q) (pg_refcount q) owner)).
Qed.

Lemma count_set_step c : occupied (pgt p x) = true ->
  exists p', jlos_page_frame_pt_present_count_set p (frame_addr p x) c = Some p' /\ pstep p p' x /\ pgt p' x = set_present c (pgt p x).
Proof using Hd Hx HI Ex.
  intros Ho. unfold jlos_page_frame_pt_present_count_set. cbv zeta. rewrite Ex. destruct (Z.leb_spec (s_total_frames p) x); [lia|].
  by apply upd_record.
Qed.

Lemma count_get_step : jlos_page_frame_pt_present_count_get p (frame_addr p x) = Some (pg_pt_present (pgt p x)).
Proof using Hd Hx HI Ex.
  unfold jlos_page_frame_pt_present_count_get. cbv zeta. rewrite Ex. destruct (Z.leb_spec (s_total_frames p) x); [lia|].
  by rewrite (geti_page p x HI Hx).
Qed.

Lemma count_inc_step : occupied (pgt p x) = true ->
  exists p', jlos_page_frame_pt_present_count_inc p (frame_addr p x) = Some p' /\ pstep p p' x /\
    pgt p' x = set_present (u8 (pg_pt_present (pgt p x) + 1)) (pgt p x).
Proof using Hd Hx HI Ex.
  intros Ho. unfold jlos_page_frame_pt_present_count_inc. cbv zeta. rewrite Ex. destruct (Z.leb_spec (s_total_frames p) x); [lia|].
  by apply (upd_record p x (fun q => set_present (u8 (pg_pt_present q + 1)) q)).
Qed.

Lemma count_dec_step : occupied (pgt p x) = true ->
  exists p', jlos_page_frame_pt_present_count_dec p (frame_addr p x) = Some p' /\ pstep p p' x /\
    pgt p' x = if 0 <? pg_pt_present (pgt p x) then set_present (pg_pt_present (pgt p x) - 1) (pgt p x) else pgt p x.
Proof using Hd Hx HI Ex.
  intros Ho. unfold jlos_page_frame_pt_present_count_dec. cbv zeta. rewrite Ex. destruct (Z.ltb_spec x (s_total_frames p)); [|lia].
  apply (upd_record p x (fun q => if 0 <? pg_pt_present q then set_present (pg_pt_present q - 1) q else q)); [done..|].
  by destruct (0 <? _).
Qed.

Lemma refcount_inc_step : occupied (pgt p x) = true -> 0 < pg_refcount (pgt p x) < 255 ->
  exists p', jlos_page_frame_refcount_inc p (frame_addr p x) = Some p' /\ pstep p p' x /\
    pgt p' x = set_refcount (pg_refcount (pgt p x) + 1) (pgt p x).
Proof using Hd Hx HI Ex.
  intros Ho Hr. unfold jlos_page_frame_refcount_inc. cbv zeta. rewrite Ex. destruct (Z.leb_spec (s_total_frames p) x); [lia|].
  rewrite (geti_page p x HI Hx). cbn [mbind option_bind]. destruct (Z.ltb_spec 0 (pg_refcount (pgt p x))); [|lia].
  destruct (Z.ltb_spec (pg_refcount (pgt p x)) 255); [|lia]. by apply upd_record.
Qed.

(** The last reference frees the frame, any other only goes. *)
Lemma refcount_dec_step cpu : 0 <= cpu < zlen (s_percpu p) -> occupied (pgt p x) = true -> 0 < pg_refcount (pgt p x) ->
  exists p', jlos_page_frame_refcount_dec p cpu (frame_addr p x) = Some p' /\ pstep p p' x /\
    occupied (pgt p' x) = negb (pg_refcount (pgt p x) =? 1) /\
    (pg_refcount (pgt p x) <> 1 -> pg_refcount (pgt p' x) = pg_refcount (pgt p x) - 1).
Proof using Hd Hx HI Ex.
  intros Hc Ho Hr. destruct (on_cpu_lookup p cpu Hc) as (i & l & c & -> & Hi). pose proof Hd as (_ & Hst & _ & Hm).
  destruct (refcount_spec p i l c x HI Hi Hst) as (Hdec & _); [unfold FRAME_SIZE in *; lia|done|].
  destruct (Hdec Ho Hr) as (p' & E & HI' & Hsh & _ & Ho' & Hr' & Hoo & Hss). exists p'. split; [done|]. split_and!; [|done|done].
  split; [by eapply step_mapped|]. split; [done|]. intros y Hy Hne. split; [by apply Hoo|by apply Hss].
Qed.
End on_frame.

Lemma refcount_dec_outside p cpu phys : s_total_frames p <= pfa_phys_to_frame p phys ->
  jlos_page_frame_refcount_dec p cpu phys = Some p.
Proof. intros H. unfold jlos_page_frame_refcount_dec. cbv zeta. by rewrite (proj2 (Z.leb_le _ _) H). Qed.
Lemma refcount_inc_outside p phys : s_total_frames p <= pfa_phys_to_frame p phys ->
  jlos_page_frame_refcount_inc p phys = Some p.
Proof. intros H. unfold jlos_page_frame_refcount_inc. cbv zeta. by rewrite (proj2 (Z.leb_le _ _) H). Qed.

(** Nothing is left for the processor: its cache and every free list are empty. *)
Definition dry (p : pfa) (cpu : Z) : Prop := exists l, geti (s_percpu p) cpu = Some (l, 0) /\ s_free_order_bitmap p = 0.

Lemma dry_malloc p cpu : dry p cpu -> pfa_page_malloc p cpu = Some (p, None).
Proof.
  intros (l & Hl & Hb). unfold pfa_page_malloc, jlos_page_frame_malloc, percpu_refill. rewrite Hl. cbn [mbind option_bind snd].
  change (0 =? 0) with true. cbv iota. cbn [refill_loop]. rewrite Hl. cbn [mbind option_bind snd]. change (0 <? 8) with true. cbv iota. rewrite Hb.
  change (0 =? 0) with true. cbv iota. cbn [mbind option_bind]. rewrite Hl. done.
Qed.
Lemma dry_intro p i l c : pfa_inv p -> s_percpu p !! i = Some (l, c) -> l = [] -> (forall x, ~ free p x) -> dry p (Z.of_nat i).
Proof.
  intros HI Hi -> Hnf. destruct (cache_count p i [] c HI Hi) as [Ec _]. simpl in Ec. subst c. exists []. rewrite geti_percpu. split; [done|].
  destruct (Z.eq_dec (s_free_order_bitmap p) 0) as [|Hnz]; [done|]. exfalso.
  destruct (refill_step p HI Hnz) as (o & f & la & s3 & _ & _ & _ & _ & _ & _ & _ & Hf & _). by apply (Hnf f).
Qed.
(** Changing records does not bring frames back. *)
Lemma dry_lists p p' cpu : same_lists p p' -> dry p cpu -> dry p' cpu.
Proof. intros H (l & Hl & Hb). exists l. by rewrite (sl_percpu _ _ H), (sl_bitmap _ _ H). Qed.
Lemma upd_lists p x g p' : upd_page p x g = Some p' -> same_lists p p'.
Proof.
  unfold upd_page. destruct (geti (s_pages p) x) as [pg|]; cbn [mbind option_bind]; [|done]. destruct (seti (s_pages p) x (g pg)) as [ps|] eqn:E; cbn [mbind option_bind]; [|done].
  intros [= <-]. split; try done. simpl. unfold seti in E. repeat case_match; simplify_eq. by rewrite length_insert.
Qed.
Lemma inc_lists p phys p' : jlos_page_frame_refcount_inc p phys = Some p' -> same_lists p p'.
Proof.
  unfold jlos_page_frame_refcount_inc. cbv zeta. case_match; [intros [= <-]; apply same_lists_refl|].
  destruct (geti _ _) as [pg|]; cbn [mbind option_bind]; [|done]. case_match; [|done]. apply upd_lists.
Qed.
Lemma count_inc_lists p phys p' : jlos_page_frame_pt_present_count_inc p phys = Some p' -> same_lists p p'.
Proof. unfold jlos_page_frame_pt_present_count_inc. cbv zeta. case_match; [intros [= <-]; apply same_lists_refl|]. apply upd_lists. Qed.

(** A new frame was not allocated, and is then allocated once. *)
Lemma malloc_step p cpu : direct_mapped p -> 0 <= cpu < zlen (s_percpu p) ->
  exists p' r, pfa_page_malloc p cpu = Some (p', r) /\
    match r with
    | None => p' = p /\ dry p cpu
    | Some a => exists x, a = page_of p x /\ 0 <= x < s_total_frames p /\ occupied (pgt p x) = false /\
                  pstep p p' x /\ held_frame p' x
    end.
Proof.
  intros Hd Hc. pose proof Hd as (HI & _). destruct (on_cpu_lookup p cpu Hc) as (i & l & c & -> & Hi).
  unfold pfa_page_malloc. destruct (malloc_spec p i l c HI Hi) as (p' & r & -> & HI' & Hsh & Hr). cbn [mbind option_bind].
  exists p', (option_map phys_to_virt r). split; [done|]. destruct r as [a|]; simpl; [|destruct Hr as (-> & El & Hnf); split; [done|by eapply dry_intro]].
  destruct Hr as (x & -> & Hpx & Ho & Hrc & _ & Hoo & Hss). destruct (in_pool p x HI Hpx) as [Hx Hno].
  exists x. destruct (page_of_virt p x Hd Hx) as (-> & _). split; [done|]. split; [done|]. split; [done|]. split.
  - split; [by eapply step_mapped|]. split; [done|]. intros y Hy Hne. split; [by apply Hoo|by apply Hss].
  - split; [|done]. destruct Hsh as (-> & _). done.
Qed.
