(* ===== verification/PagingInv.v ===== *)
(** * What page tables mean

    [abs w] is what the tables of all contexts say about user pages: the entry of
    every page that is present.  [pg_inv] ties the tables to the page frame
    allocator: every table is a frame of its own, held once, with the number of its
    present entries in its record; a frame that user pages map is allocated, has at
    least as many references, and is not a table.  The operations of [X86Paging] on
    user pages are then operations on the map [abs w]. *)
From S2P Require Import Prelude Pfa PfaInv PfaCpu PageSource FrameStep MemIface X86Paging Paging.

(** ** Entries *)

Abbreviation di := jlos_paging_get_page_dir_index (only parsing).
Abbreviation ti := jlos_paging_get_page_table_index (only parsing).

Definition pframe (e : Z) : Z := Z.land e ADDR_MASK.

Lemma has_lor a b c : has (Z.lor a b) c = has a c || has b c.
Proof.
  unfold has. rewrite Z.land_lor_distr_l. destruct (Z.eqb_spec (Z.lor (Z.land a c) (Z.land b c)) 0) as [E|E].
  - apply Z.lor_eq_0_iff in E as [-> ->]. done.
  - destruct (Z.eqb_spec (Z.land a c) 0) as [E1|]; [|done]. destruct (Z.eqb_spec (Z.land b c) 0) as [E2|]; [|done].
    rewrite E1, E2 in E. done.
Qed.
Lemma has_land a b c : has (Z.land a b) c = has a (Z.land b c).
Proof. unfold has. by rewrite Z.land_assoc. Qed.
Lemma has_0 a : has a 0 = false.
Proof. unfold has. by rewrite Z.land_0_r. Qed.
Lemma has_0_l a : has 0 a = false.
Proof. unfold has. by rewrite Z.land_0_l. Qed.

(** The bits a protection turns into. *)
Lemma pte_prot_bits prot :
  has (pte_prot prot) PTE_PRESENT = true /\ has (pte_prot prot) PTE_WRITABLE = has prot PG_WRITE /\
  has (pte_prot prot) PTE_USER = has prot PG_USER /\ has (pte_prot prot) PDE_PS = false /\
  Z.land (pte_prot prot) ADDR_MASK = 0 /\ has (Z.land (pte_prot prot) PTE_USER) PTE_PRESENT = false.
Proof.
  unfold pte_prot. destruct (has prot PG_WRITE), (has prot PG_USER), (has prot PG_GLOBAL), (has prot PG_NOCACHE); done.
Qed.

Lemma pframe_range e : 0 <= pframe e < 2 ^ 32 /\ pframe e mod 4096 = 0.
Proof.
  unfold pframe. split.
  - rewrite Z.land_comm. change ADDR_MASK with (Z.land 0xFFFFF000 (2 ^ 32 - 1)). rewrite <- Z.land_assoc, (Z.land_comm _ e), Z.land_assoc.
    rewrite land_mask by lia. apply Z.mod_pos_bound. lia.
  - change 4096 with (2 ^ 12). rewrite <- land_mask by lia. rewrite <- Z.land_assoc. apply Z.land_0_r.
Qed.
Lemma pframe_id a : 0 <= a < 2 ^ 32 -> a mod 4096 = 0 -> pframe a = a.
Proof.
  intros Ha H0. unfold pframe. change ADDR_MASK with (not32 (2 ^ 12 - 1)). rewrite land_not_mask by lia.
  change (2 ^ 12) with 4096. lia.
Qed.
Lemma pframe_pframe e : pframe (pframe e) = pframe e.
Proof. destruct (pframe_range e). by apply pframe_id. Qed.

(** A new entry: frame and protection. *)
Lemma new_entry pa prot : let e := Z.lor (Z.land pa ADDR_MASK) (pte_prot prot) in
  pframe e = pframe pa /\ has e PTE_PRESENT = true /\ has e PTE_WRITABLE = has prot PG_WRITE /\ has e PTE_USER = has prot PG_USER.
Proof.
  intros e. destruct (pte_prot_bits prot) as (H1 & H2 & H3 & _ & H5 & _). unfold e. rewrite !has_lor, !has_land.
  change (Z.land ADDR_MASK PTE_PRESENT) with 0. change (Z.land ADDR_MASK PTE_WRITABLE) with 0. change (Z.land ADDR_MASK PTE_USER) with 0.
  rewrite !has_0, H1, H2, H3. split_and!; [|done..]. unfold pframe. rewrite Z.land_lor_distr_l, H5, Z.lor_0_r. apply pframe_pframe.
Qed.

(** ** Indices *)

Lemma page_index va : page_ok va ->
  di va = va / 2 ^ 22 /\ ti va = (va / 4096) mod 1024 /\ 0 <= di va < 768 /\ 0 <= ti va < 1024.
Proof.
  intros [Hr Ha]. unfold jlos_paging_get_page_dir_index, jlos_paging_get_page_table_index.
  change 0x3FF with (2 ^ 10 - 1). rewrite !land_mask by lia. rewrite !Z.shiftr_div_pow2 by lia.
  change (2 ^ 10) with 1024. change (2 ^ 12) with 4096. change (2 ^ 22) with 4194304 in *.
  assert (0 <= va / 4194304 < 768) by (split; [apply Z.div_pos; lia|apply Z.div_lt_upper_bound; lia]).
  rewrite (Z.mod_small (va / 4194304)) by lia. pose proof (Z.mod_pos_bound (va / 4096) 1024). split_and!; lia.
Qed.

Lemma page_index_inj va va' : page_ok va -> page_ok va' -> di va = di va' -> ti va = ti va' -> va = va'.
Proof.
  intros H H'. destruct (page_index va H) as (-> & -> & _), (page_index va' H') as (-> & -> & _).
  destruct H as [? H], H' as [? H']. change (2 ^ 22) with (4096 * 1024). rewrite <- !Z.div_div by lia.
  intros E1 E2. pose proof (Z.div_mod (va / 4096) 1024). pose proof (Z.div_mod (va' / 4096) 1024).
  pose proof (Z.div_mod va 4096). pose proof (Z.div_mod va' 4096). lia.
Qed.

(** ** Memory *)

Lemma geti_insert {A} (l : list A) i j (v : A) : 0 <= i < zlen l ->
  geti (<[Z.to_nat i := v]> l) j = if decide (j = i) then Some v else geti l j.
Proof.
  intros Hi. unfold geti. destruct (Z.ltb_spec j 0); [by rewrite decide_False by lia|]. case_decide.
  - subst. apply list_lookup_insert_eq. lia.
  - apply list_lookup_insert_ne. lia.
Qed.

Lemma load_mem w t l i : w_mem w !! t = Some l -> load w t i = geti l i.
Proof. intros E. unfold load. by rewrite E. Qed.

Lemma store_mem w t l i v : w_mem w !! t = Some l -> 0 <= i < zlen l ->
  store w t i v = Some (set_mem w (<[t := <[Z.to_nat i := v]> l]> (w_mem w))).
Proof. intros E Hi. unfold store. rewrite E. cbn [mbind option_bind]. by rewrite seti_Some. Qed.

Lemma load_stored w t l i v t' i' : w_mem w !! t = Some l -> 0 <= i < zlen l ->
  load (set_mem w (<[t := <[Z.to_nat i := v]> l]> (w_mem w))) t' i' = if decide (t' = t /\ i' = i) then Some v else load w t' i'.
Proof.
  intros E Hi. unfold load. cbn [w_mem set_mem]. destruct (decide (t' = t)) as [->|Hne].
  - rewrite lookup_insert_eq, E. cbn [mbind option_bind]. rewrite geti_insert by done. repeat case_decide; tauto.
  - rewrite lookup_insert_ne by done. rewrite decide_False by tauto. done.
Qed.

(** ** The map of user pages *)

Definition lookup_pte (w : pworld) (ctx va : Z) : option Z :=
  match pte_walk w ctx va with
  | Some (Some (t, i)) => pte ← load w t i; if has pte PTE_PRESENT then Some pte else None
  | _ => None
  end.

Definition user_pages : list Z := (fun k => k * 4096) <$> seqZ 0 (0xC0000000 / 4096).
#[global] Opaque user_pages.

Lemma elem_of_user_pages va : va ∈ user_pages <-> page_ok va.
Proof.
  Transparent user_pages. unfold user_pages, page_ok. change (0xC0000000 / 4096) with 786432. rewrite list_elem_of_fmap. split.
  - intros (k & -> & Hk%elem_of_seqZ). split; [lia|]. apply Z.mod_mul. lia.
  - intros [H1 H2]. exists (va / 4096). split; [|apply elem_of_seqZ]; Z.div_mod_to_equations; lia.
Qed.
#[global] Opaque user_pages.

Definition abs (w : pworld) : gmap (Z * Z) Z :=
  map_imap (fun k (_ : unit) => lookup_pte w k.1 k.2)
    (gset_to_gmap tt (list_to_set (cprod (elements (dom (w_ctxs w))) user_pages))).

Lemma lookup_pte_ctx w c va e : lookup_pte w c va = Some e -> is_Some (w_ctxs w !! c).
Proof.
  unfold lookup_pte, pte_walk. destruct (c =? 0); [done|]. by destruct (w_ctxs w !! c); [eauto|].
Qed.

Lemma abs_lookup w c va : abs w !! (c, va) = if decide (page_ok va) then lookup_pte w c va else None.
Proof.
  unfold abs. rewrite map_lookup_imap, lookup_gset_to_gmap. case_guard as Hin0; pose proof Hin0 as Hin; simpl.
  - rewrite elem_of_list_to_set, list_elem_of_cprod, elem_of_user_pages in Hin. destruct Hin. by rewrite decide_True.
  - rewrite elem_of_list_to_set, list_elem_of_cprod, elem_of_user_pages, elem_of_elements, elem_of_dom in Hin. simpl in Hin.
    case_decide as Hp; [|done]. destruct (lookup_pte w c va) as [e|] eqn:E; [|done]. apply lookup_pte_ctx in E. tauto.
Qed.
#[global] Opaque abs.

Lemma abs_ext w w' : (forall c va, page_ok va -> lookup_pte w' c va = lookup_pte w c va) -> abs w' = abs w.
Proof. intros H. apply map_eq. intros [c va]. rewrite !abs_lookup. case_decide; [by apply H|done]. Qed.

(** One entry of the map. *)
Definition set_entry (v : Z) (k : Z * Z) (M : gmap (Z * Z) Z) : gmap (Z * Z) Z :=
  if has v PTE_PRESENT then <[k := v]> M else delete k M.
Lemma lookup_set_entry v k M k' :
  set_entry v k M !! k' = if decide (k' = k) then (if has v PTE_PRESENT then Some v else None) else M !! k'.
Proof. unfold set_entry. destruct (has v PTE_PRESENT); case_decide; simplify_map_eq; done. Qed.

Lemma abs_entry w w' c va v : page_ok va ->
  (forall c' va', page_ok va' -> lookup_pte w' c' va' =
     if decide (c' = c /\ va' = va) then (if has v PTE_PRESENT then Some v else None) else lookup_pte w c' va') ->
  abs w' = set_entry v (c, va) (abs w).
Proof.
  intros Hp H. apply map_eq. intros [c' va']. rewrite lookup_set_entry, !abs_lookup.
  destruct (decide (page_ok va')) as [Hp'|Hp'].
  - rewrite H by done. destruct (decide (c' = c /\ va' = va)) as [[-> ->]|Hne]; [by rewrite decide_True|].
    rewrite decide_False; [done|]. intros [= -> ->]. tauto.
  - rewrite decide_False; [done|]. intros [= -> ->]. done.
Qed.

(** How many pages of the map a frame has. *)
Definition refs (M : gmap (Z * Z) Z) (a : Z) : Z := Z.of_nat (size (filter (fun kv => pframe kv.2 = a) M)).

Lemma refs_insert M k v a : M !! k = None -> refs (<[k := v]> M) a = refs M a + (if decide (pframe v = a) then 1 else 0).
Proof.
  intros Hk. unfold refs. case_decide as E.
  - rewrite map_filter_insert_True by done. rewrite map_size_insert_None; [lia|]. apply map_lookup_filter_None. by left.
  - rewrite map_filter_insert_False by done. rewrite delete_id by done. lia.
Qed.
Lemma refs_delete M k v a : M !! k = Some v -> refs (delete k M) a = refs M a - (if decide (pframe v = a) then 1 else 0).
Proof.
  intros Hk. rewrite <- (insert_delete_id M k v Hk) at 2. rewrite refs_insert by apply lookup_delete_eq. lia.
Qed.
Lemma refs_replace M k v v' a : M !! k = Some v ->
  refs (<[k := v']> M) a = refs M a - (if decide (pframe v = a) then 1 else 0) + (if decide (pframe v' = a) then 1 else 0).
Proof.
  intros Hk. rewrite <- (insert_delete_eq M k v'), refs_insert by apply lookup_delete_eq. by rewrite (refs_delete M k v) by done.
Qed.
Lemma refs_nonneg M a : 0 <= refs M a.
Proof. unfold refs. lia. Qed.
Lemma refs_pos M k v : M !! k = Some v -> 0 < refs M (pframe v).
Proof. intros Hk. pose proof (refs_delete M k v (pframe v) Hk) as E. rewrite decide_True in E by done. pose proof (refs_nonneg (delete k M) (pframe v)). lia. Qed.
Lemma refs_zero M a : refs M a = 0 -> forall k v, M !! k = Some v -> pframe v <> a.
Proof. intros H k v Hk <-. pose proof (refs_pos M k v Hk). lia. Qed.

(** ** The tables *)

(** The page [a] is the directory of a context, or the table behind one of its user
    entries. *)
Definition table_at (w : pworld) (pl : Z * option Z) (a : Z) : Prop :=
  exists c, w_ctxs w !! pl.1 = Some c /\ pc_root c <> 0 /\
    match pl.2 with
    | None => a = pc_root c
    | Some i => 0 <= i < 768 /\ exists pde, load w (pc_root c) i = Some pde /\ has pde PTE_PRESENT = true /\ a = phys_to_virt (pframe pde)
    end.

Definition present_count (l : list Z) : Z := Z.of_nat (length (filter (fun e => has e PTE_PRESENT = true) l)).

Section inv.
Variable cpu : Z.

Record pg_inv (w : pworld) : Prop := {
  gi_pfa : direct_mapped (w_pfa w);
  gi_cpu : 0 <= cpu < zlen (s_percpu (w_pfa w));
  gi_act : 0 <= cpu < zlen (w_active w);
  gi_boot : w_boot w = None;
  gi_null : w_ctxs w !! 0 = None;
  gi_words a l : w_mem w !! a = Some l -> length l = 1024%nat;
  gi_tab pl a : table_at w pl a -> exists x l, a = page_of (w_pfa w) x /\ held_frame (w_pfa w) x /\ w_mem w !! a = Some l /\
    (is_Some pl.2 -> pg_pt_present (pgt (w_pfa w) x) = present_count l /\ present_count l <= 255);
  gi_inj pl pl' a : table_at w pl a -> table_at w pl' a -> pl = pl';
  gi_small ctx c i pde : w_ctxs w !! ctx = Some c -> pc_root c <> 0 -> 0 <= i < 768 ->
    load w (pc_root c) i = Some pde -> has pde PTE_PRESENT = true -> has pde PDE_PS = false;
  gi_data x : 0 <= x < s_total_frames (w_pfa w) -> 0 < refs (abs w) (frame_addr (w_pfa w) x) ->
    occupied (pgt (w_pfa w) x) = true /\ refs (abs w) (frame_addr (w_pfa w) x) <= pg_refcount (pgt (w_pfa w) x) /\
    forall pl, ~ table_at w pl (page_of (w_pfa w) x)
}.

(** A context with a directory has 1024 entries there. *)
Lemma dir_entry w ctx c i : pg_inv w -> w_ctxs w !! ctx = Some c -> pc_root c <> 0 -> 0 <= i < 1024 ->
  exists l pde, w_mem w !! pc_root c = Some l /\ length l = 1024%nat /\ load w (pc_root c) i = Some pde.
Proof.
  intros HI Hc Hr Hi. destruct (gi_tab _ HI (ctx, None) (pc_root c)) as (x & l & _ & _ & Hl & _); [by exists c|].
  pose proof (gi_words _ HI _ _ Hl) as Hlen. destruct (geti_Some l i) as (e & He & _); [lia|]. exists l, e.
  split_and!; [done..|]. by rewrite (load_mem w _ l).
Qed.

(** The physical address of a table. *)
Lemma phys_virt a : 0 <= a < 2 ^ 32 -> virt_to_phys (phys_to_virt a) = a.
Proof.
  intros Ha. unfold virt_to_phys, phys_to_virt. rewrite u32_sub_l, Z.add_simpl_r. by apply u32_small.
Qed.

(** The walk to the entry of a page, on a consistent world. *)
Lemma pte_walk_spec w ctx c va : pg_inv w -> w_ctxs w !! ctx = Some c -> page_ok va ->
  (exists t, pte_walk w ctx va = Some (Some (t, ti va)) /\ table_at w (ctx, Some (di va)) t) \/
  pte_walk w ctx va = Some None /\ (forall t, ~ table_at w (ctx, Some (di va)) t).
Proof.
  intros HI Hc Hp. destruct (page_index va Hp) as (_ & _ & Hdi & _). unfold pte_walk.
  destruct (Z.eqb_spec ctx 0) as [->|_]; [by rewrite (gi_null _ HI) in Hc|]. rewrite Hc. cbn [mbind option_bind].
  destruct (Z.eqb_spec (pc_root c) 0) as [Hr|Hr].
  { right. split; [done|]. intros t (c' & Hc' & Hr' & _). simpl in Hc'. simplify_eq. }
  destruct (dir_entry w ctx c (di va) HI Hc Hr ltac:(lia)) as (l & pde & Hl & Hlen & Hpde). rewrite Hpde. cbn [mbind option_bind].
  destruct (has pde PTE_PRESENT) eqn:Ep; cbn [negb orb].
  - rewrite (gi_small _ HI ctx c (di va) pde) by done. left. eexists. split; [done|]. exists c. split; [done|]. split; [done|].
    split; [lia|]. exists pde. done.
  - right. split; [done|]. intros t (c' & Hc' & _ & _ & pde' & Hpde' & Hp' & _). simpl in Hc'. simplify_eq. congruence.
Qed.

Lemma table_fun w pl a b : table_at w pl a -> table_at w pl b -> a = b.
Proof.
  destruct pl as [ctx [i|]]; intros (c & Hc & _ & H1) (c' & Hc' & _ & H2); simpl in *; simplify_eq; [|congruence].
  destruct H1 as (_ & pde & E & _ & ->), H2 as (_ & pde' & E' & _ & ->). congruence.
Qed.

Lemma lookup_at w ctx va t : pg_inv w -> page_ok va -> table_at w (ctx, Some (di va)) t ->
  lookup_pte w ctx va = (pte ← load w t (ti va); if has pte PTE_PRESENT then Some pte else None).
Proof.
  intros HI Hp Ht. pose proof Ht as (c & Hc & _). simpl in Hc. unfold lookup_pte.
  destruct (pte_walk_spec w ctx c va HI Hc Hp) as [(t' & -> & Ht')|[_ Hno]]; [|by destruct (Hno t)].
  by rewrite (table_fun w _ _ _ Ht' Ht).
Qed.
Lemma lookup_none w ctx va : pg_inv w -> page_ok va -> (forall t, ~ table_at w (ctx, Some (di va)) t) -> lookup_pte w ctx va = None.
Proof.
  intros HI Hp Hno. unfold lookup_pte. destruct (pte_walk w ctx va) as [[[t i]|]|] eqn:E; [|done..].
  destruct (w_ctxs w !! ctx) as [c|] eqn:Hc.
  - destruct (pte_walk_spec w ctx c va HI Hc Hp) as [(t' & E' & Ht')|[E' _]]; [|congruence]. by destruct (Hno t').
  - unfold pte_walk in E. rewrite Hc in E. by destruct (ctx =? 0).
Qed.

(** ** Writing an entry *)

(** The place where an entry is written. *)
Definition written (w : pworld) (t : Z) (l : list Z) (j v : Z) (p : pfa) : pworld :=
  set_pfa (set_mem w (<[t := <[Z.to_nat j := v]> l]> (w_mem w))) p.

Lemma load_written w t l j v p t' i' : w_mem w !! t = Some l -> 0 <= j < zlen l ->
  load (written w t l j v p) t' i' = if decide (t' = t /\ i' = j) then Some v else load w t' i'.
Proof. intros E Hj. unfold written. rewrite <- (load_stored w t l j v t' i' E Hj). done. Qed.

Section entry.
Context (w : pworld) (ctx va x : Z) (l : list Z) (v : Z) (p' : pfa).
Let p := w_pfa w.
Let t := page_of p x.
Let w' := written w t l (ti va) v p'.
Hypothesis HI : pg_inv w.
Hypothesis Hp : page_ok va.
Hypothesis Ht : table_at w (ctx, Some (di va)) t.
Hypothesis Hl : w_mem w !! t = Some l.
Hypothesis Hsh : same_shape p p'.

Lemma written_root c' cx : w_ctxs w !! cx = Some c' -> pc_root c' <> 0 -> pc_root c' <> t.
Proof using HI Ht.
  intros Hc Hr E. assert (table_at w (cx, None) t) as H by (by exists c'). pose proof (gi_inj _ HI _ _ _ Ht H). done.
Qed.

Lemma written_tables pl a : table_at w' pl a <-> table_at w pl a.
Proof using HI Hp Ht Hl.
  pose proof (page_index va Hp) as (_ & _ & _ & Hti). pose proof (gi_words _ HI _ _ Hl).
  destruct pl as [cx [i|]]; unfold table_at; cbn [fst snd]; [|done].
  assert (forall c, w_ctxs w !! cx = Some c -> pc_root c <> 0 -> load w' (pc_root c) i = load w (pc_root c) i) as E.
  { intros c Hc Hr. unfold w'. rewrite load_written by (done || lia). rewrite decide_False; [done|]. intros [E _].
    by apply (written_root c cx). }
  split; intros (c & Hc & Hr & Hi & pde & Hpde & ?); exists c; (split; [done|]); (split; [done|]); (split; [done|]); exists pde;
    [rewrite <- E by done|rewrite E by done]; done.
Qed.

Lemma written_walk cx vx c : w_ctxs w !! cx = Some c -> page_ok vx -> pte_walk w' cx vx = pte_walk w cx vx.
Proof using HI Hp Ht Hl.
  intros Hc Hvx. pose proof (page_index va Hp) as (_ & _ & _ & Hti). pose proof (gi_words _ HI _ _ Hl).
  unfold pte_walk. destruct (cx =? 0); [done|]. change (w_ctxs w') with (w_ctxs w). rewrite Hc. cbn [mbind option_bind].
  destruct (Z.eqb_spec (pc_root c) 0) as [|Hr]; [done|].
  assert (load w' (pc_root c) (di vx) = load w (pc_root c) (di vx)) as ->; [|done].
  unfold w'. rewrite load_written by (done || lia). rewrite decide_False; [done|]. intros [E _]. by apply (written_root c cx).
Qed.

Lemma written_abs : abs w' = set_entry v (ctx, va) (abs w).
Proof using HI Hp Ht Hl.
  pose proof (page_index va Hp) as (_ & _ & _ & Hti). pose proof (gi_words _ HI _ _ Hl).
  apply abs_entry; [done|]. intros cx vx Hvx. destruct (w_ctxs w !! cx) as [c|] eqn:Hc.
  2: { rewrite decide_False by (intros [-> _]; destruct Ht as (c & Hc' & _); simpl in Hc'; congruence).
       unfold lookup_pte, pte_walk. change (w_ctxs w') with (w_ctxs w). rewrite Hc. by destruct (cx =? 0). }
  unfold lookup_pte. rewrite (written_walk cx vx c Hc Hvx).
  destruct (pte_walk_spec w cx c vx HI Hc Hvx) as [(t' & -> & Ht')|[-> Hno]].
  - unfold w'. rewrite load_written by (done || lia). destruct (decide (t' = t /\ ti vx = ti va)) as [[-> E]|Hne].
    + pose proof (gi_inj _ HI _ _ _ Ht Ht') as Epl. injection Epl as -> Edi.
      rewrite decide_True by (split; [done|by apply page_index_inj]). done.
    + rewrite decide_False; [done|]. intros [-> ->]. apply Hne. split; [|done]. by eapply table_fun.
  - rewrite decide_False; [done|]. intros [-> ->]. by apply (Hno t).
Qed.

Hypothesis Hd : direct_mapped p'.
Hypothesis Hx : 0 <= x.
Hypothesis Htab : forall pl y, 0 <= y -> y <> x -> table_at w pl (page_of p y) -> same_page (pgt p' y) (pgt p y).
Hypothesis Hheld : held_frame p' x.
Hypothesis Hcount : pg_pt_present (pgt p' x) = present_count (<[Z.to_nat (ti va) := v]> l).
Hypothesis Hmax : present_count (<[Z.to_nat (ti va) := v]> l) <= 255.
Hypothesis Hdata : forall y, 0 <= y < s_total_frames p -> 0 < refs (set_entry v (ctx, va) (abs w)) (frame_addr p y) ->
  occupied (pgt p' y) = true /\ refs (set_entry v (ctx, va) (abs w)) (frame_addr p y) <= pg_refcount (pgt p' y) /\
  forall pl, ~ table_at w pl (page_of p y).

Lemma written_inv : pg_inv w'.
Proof using HI Hp Ht Hl Hsh Hd Hx Htab Hheld Hcount Hmax Hdata.
  pose proof (page_index va Hp) as (_ & _ & Hdi & Hti). pose proof (gi_words _ HI _ _ Hl) as Hlen. pose proof Hsh as (Et & Es & Ec).
  assert (w_pfa w' = p') as Epf by done. assert (w_mem w' = <[t := <[Z.to_nat (ti va) := v]> l]> (w_mem w)) as Emem by done.
  split; rewrite ?Epf, ?Emem.
  - exact Hd.
  - fold p in Ec. rewrite Ec. apply (gi_cpu _ HI).
  - apply (gi_act _ HI).
  - apply (gi_boot _ HI).
  - apply (gi_null _ HI).
  - intros a l'. rewrite lookup_insert. case_decide; [|by apply (gi_words _ HI)]. intros [= <-]. by rewrite length_insert.
  - intros pl a Ha. apply written_tables in Ha. destruct (gi_tab _ HI pl a Ha) as (y & l' & -> & (Hy & Hyo & Hyr) & Hl' & Hcnt).
    fold p in Hl', Ha, Hy, Hyo, Hyr, Hcnt |- *. destruct (decide (y = x)) as [->|Hne].
    + exists x, (<[Z.to_nat (ti va) := v]> l). rewrite (shape_page p p' x Hsh). split; [done|]. split; [done|]. fold t. rewrite lookup_insert_eq.
      split; [done|]. intros _. done.
    + exists y, l'. rewrite (shape_page p p' y Hsh). split; [done|].
      assert (same_page (pgt p' y) (pgt p y)) as Hsp by (eapply Htab; [lia|done|done]).
      pose proof Hsp as (_ & _ & Epc & Erc & _). split.
      { split; [rewrite Et; lia|]. rewrite (same_occ _ _ Hsp), Erc. done. }
      split; [|by rewrite Epc]. rewrite lookup_insert_ne; [done|]. unfold t. by intros E%page_of_inj.
  - intros pl pl' a Ha%written_tables Ha'%written_tables. by eapply (gi_inj _ HI).
  - intros cx c i pde Hc Hr Hi Hpde Hpp. unfold w' in Hpde. rewrite load_written in Hpde by (done || lia). rewrite decide_False in Hpde; [by eapply (gi_small _ HI)|].
    intros [E _]. by apply (written_root c cx).
  - intros y Hy Hr. rewrite written_abs in *. rewrite (shape_addr p p' y Hsh) in *.
    fold p in Et. rewrite Et in Hy. destruct (Hdata y Hy Hr) as (H1 & H2 & H3). split; [done|]. split; [done|].
    intros pl Hpl%written_tables. rewrite (shape_page p p' y Hsh) in Hpl. by apply (H3 pl).
Qed.
End entry.

(** ** Changes that no table sees *)

Lemma pte_walk_pfa w p' ctx va : pte_walk (set_pfa w p') ctx va = pte_walk w ctx va.
Proof. done. Qed.
Lemma abs_pfa w p' : abs (set_pfa w p') = abs w.
Proof. by apply abs_ext. Qed.
Lemma tables_pfa w p' pl a : table_at (set_pfa w p') pl a <-> table_at w pl a.
Proof. done. Qed.

Lemma inv_pfa w p' : pg_inv w -> direct_mapped p' -> same_shape (w_pfa w) p' ->
  (forall pl y, 0 <= y -> table_at w pl (page_of (w_pfa w) y) -> same_page (pgt p' y) (pgt (w_pfa w) y)) ->
  (forall y, 0 <= y < s_total_frames (w_pfa w) -> 0 < refs (abs w) (frame_addr (w_pfa w) y) ->
     occupied (pgt p' y) = true /\ refs (abs w) (frame_addr (w_pfa w) y) <= pg_refcount (pgt p' y)) ->
  pg_inv (set_pfa w p').
Proof.
  intros HI Hd Hsh Htab Hdata. pose proof Hsh as (Et & Es & Ec). assert (w_pfa (set_pfa w p') = p') as Epf by done.
  split; rewrite ?Epf; try by apply HI.
  - exact Hd.
  - rewrite Ec. apply (gi_cpu _ HI).
  - intros pl a Ha. destruct (gi_tab _ HI pl a Ha) as (y & l & -> & (Hy & Hyo & Hyr) & Hl & Hcnt). exists y, l.
    pose proof (Htab pl y ltac:(lia) Ha) as Hsp. pose proof Hsp as (_ & _ & Epc & Erc & _).
    rewrite (shape_page _ _ y Hsh). split; [done|]. split; [|by rewrite Epc]. split; [rewrite Et; lia|]. rewrite (same_occ _ _ Hsp), Erc. done.
  - intros y Hy. rewrite abs_pfa, (shape_addr _ _ y Hsh), (shape_page _ _ y Hsh). rewrite Et in Hy. intros Hr.
    destruct (Hdata y Hy Hr) as [H1 H2]. split; [done|]. split; [done|]. by apply (gi_data _ HI).
Qed.

(** One frame of the allocator changes, which is no table. *)
Lemma inv_pstep w p' x : pg_inv w -> pstep (w_pfa w) p' x -> 0 <= x -> (forall pl, ~ table_at w pl (page_of (w_pfa w) x)) ->
  (0 < refs (abs w) (frame_addr (w_pfa w) x) -> occupied (pgt p' x) = true /\ refs (abs w) (frame_addr (w_pfa w) x) <= pg_refcount (pgt p' x)) ->
  pg_inv (set_pfa w p').
Proof.
  intros HI (Hd & Hsh & Hother) Hx Hno Hdata. apply inv_pfa; [done..| |].
  - intros pl y Hy Ht. destruct (decide (y = x)) as [->|Hne]; [by destruct (Hno pl)|].
    destruct (gi_tab _ HI pl _ Ht) as (y' & l & <-%page_of_inj & (_ & Ho & _) & _). by apply Hother.
  - intros y Hy Hr. destruct (decide (y = x)) as [->|Hne]; [by apply Hdata|]. destruct (gi_data _ HI y Hy Hr) as (Ho & Hle & _).
    destruct (Hother y ltac:(lia) Hne) as [E Hsp]. rewrite E, (same_page_refs _ _ (Hsp Ho)). done.
Qed.

Section off_table.
Context (w : pworld) (a : Z) (l : list Z).
Hypothesis HI : pg_inv w.
Hypothesis Hno : forall pl, ~ table_at w pl a.
Let w' := set_mem w (<[a := l]> (w_mem w)).

Lemma off_load t i : t <> a -> load w' t i = load w t i.
Proof using. intros Hne. unfold load, w'. cbn [w_mem set_mem]. by rewrite lookup_insert_ne. Qed.
Lemma off_root c cx : w_ctxs w !! cx = Some c -> pc_root c <> 0 -> pc_root c <> a.
Proof using Hno. intros Hc Hr E. apply (Hno (cx, None)). by exists c. Qed.
Lemma off_tables pl b : table_at w' pl b <-> table_at w pl b.
Proof using Hno.
  destruct pl as [cx [i|]]; unfold table_at; cbn [fst snd]; [|done].
  split; intros (c & Hc & Hr & Hi & pde & Hpde & ?); exists c; (split; [done|]); (split; [done|]); (split; [done|]); exists pde;
    [rewrite off_load in Hpde by (by eapply off_root)|rewrite off_load by (by eapply off_root)]; done.
Qed.
Lemma off_abs : abs w' = abs w.
Proof using HI Hno.
  apply abs_ext. intros cx vx Hvx. destruct (w_ctxs w !! cx) as [c|] eqn:Hc.
  2: { unfold lookup_pte, pte_walk. change (w_ctxs w') with (w_ctxs w). rewrite Hc. by destruct (cx =? 0). }
  assert (pte_walk w' cx vx = pte_walk w cx vx) as E.
  { unfold pte_walk. change (w_ctxs w') with (w_ctxs w). rewrite Hc. destruct (cx =? 0); [done|]. cbn [mbind option_bind].
    destruct (Z.eqb_spec (pc_root c) 0) as [|Hr]; [done|]. by rewrite off_load by (by eapply off_root). }
  unfold lookup_pte. rewrite E. destruct (pte_walk_spec w cx c vx HI Hc Hvx) as [(t' & -> & Ht')|[-> _]]; [|done].
  rewrite off_load; [done|]. intros ->. by apply (Hno (cx, Some (di vx))).
Qed.
Lemma off_inv : length l = 1024%nat -> pg_inv w'.
Proof using HI Hno.
  intros Hl. assert (w_mem w' = <[a := l]> (w_mem w)) as Emem by done. assert (w_pfa w' = w_pfa w) as Epf by done.
  split; rewrite ?Emem, ?Epf; try by apply HI.
  - intros b l'. rewrite lookup_insert. case_decide; [by intros [= <-]|by apply (gi_words _ HI)].
  - intros pl b Hb%off_tables. destruct (gi_tab _ HI pl b Hb) as (y & l' & H1 & H2 & H3 & H4). exists y, l'. split_and!; [done|done| |done|by apply H4..].
    rewrite lookup_insert_ne; [done|]. intros ->. by apply (Hno pl).
  - intros pl pl' b Hb%off_tables Hb'%off_tables. by eapply (gi_inj _ HI).
  - intros cx c i pde Hc Hr Hi Hpde. rewrite off_load in Hpde by (by eapply off_root). by eapply (gi_small _ HI).
  - intros y Hy. rewrite off_abs. intros Hr. destruct (gi_data _ HI y Hy Hr) as (H1 & H2 & H3). split; [done|]. split; [done|].
    intros pl Hpl%off_tables. by apply (H3 pl).
Qed.
End off_table.

(** Taking a frame and clearing it. *)
Lemma take_clear w : pg_inv w ->
  exists p' r, pfa_page_malloc (w_pfa w) cpu = Some (p', r) /\
    match r with
    | None => p' = w_pfa w /\ dry (w_pfa w) cpu
    | Some a => exists x, let w' := clear_page (set_pfa w p') a in
        a = page_of (w_pfa w) x /\ 0 <= x < s_total_frames (w_pfa w) /\ occupied (pgt (w_pfa w) x) = false /\
        pstep (w_pfa w) p' x /\ held_frame p' x /\ (forall pl, ~ table_at w pl a) /\ refs (abs w) (frame_addr (w_pfa w) x) = 0 /\
        pg_inv (set_pfa w p') /\ pg_inv w' /\ abs w' = abs w /\ (forall pl b, table_at w' pl b <-> table_at w pl b)
    end.
Proof.
  intros HI. destruct (malloc_step (w_pfa w) cpu (gi_pfa _ HI) (gi_cpu _ HI)) as (p' & r & E & Hr). exists p', r. split; [done|].
  destruct r as [a|]; [|done]. destruct Hr as (x & -> & Hx & Hno & Hst & Hh). exists x.
  assert (forall pl, ~ table_at w pl (page_of (w_pfa w) x)) as Hnt.
  { intros pl Ht. destruct (gi_tab _ HI pl _ Ht) as (y & l & <-%page_of_inj & (_ & Ho & _) & _). congruence. }
  assert (refs (abs w) (frame_addr (w_pfa w) x) = 0) as Hr0.
  { pose proof (refs_nonneg (abs w) (frame_addr (w_pfa w) x)). destruct (Z.eq_dec (refs (abs w) (frame_addr (w_pfa w) x)) 0); [done|].
    destruct (gi_data _ HI x Hx ltac:(lia)) as (Ho & _). congruence. }
  assert (pg_inv (set_pfa w p')) as HI1 by (apply (inv_pstep w p' x); [done|done|lia|done|lia]).
  split; [done|]. split; [done|]. split; [done|]. split; [done|]. split; [done|]. split; [done|]. split; [done|]. split; [done|]. split_and!.
  - apply (off_inv (set_pfa w p')); [done|exact Hnt|by rewrite length_replicate].
  - unfold clear_page. rewrite off_abs; [by rewrite abs_pfa|done|exact Hnt].
  - intros pl b. exact (off_tables (set_pfa w p') _ _ Hnt pl b).
Qed.

(** ** Linking tables *)

Definition no_entries (l : list Z) : Prop := forall j e, geti l j = Some e -> has e PTE_PRESENT = false.

Lemma no_entries_count l : no_entries l <-> present_count l = 0.
Proof.
  unfold no_entries, present_count. split.
  - intros H. destruct (filter (fun e => has e PTE_PRESENT = true) l) as [|e k] eqn:E; [done|]. exfalso.
    assert (e ∈ filter (fun e => has e PTE_PRESENT = true) l) as [Hp He]%list_elem_of_filter by (rewrite E; constructor).
    apply list_elem_of_lookup in He as [j Hj].
    rewrite (H (Z.of_nat j) e) in Hp; [done|]. unfold geti. destruct (Z.ltb_spec (Z.of_nat j) 0); [lia|]. by rewrite Nat2Z.id.
  - intros H j e He. destruct (has e PTE_PRESENT) eqn:E; [|done]. exfalso. unfold geti in He. destruct (j <? 0); [done|].
    apply list_elem_of_lookup_2 in He. assert (e ∈ filter (fun e => has e PTE_PRESENT = true) l) as Hin by (by apply list_elem_of_filter).
    destruct (filter _ l); [set_solver|simpl in H; lia].
Qed.
Lemma no_entries_zero n : no_entries (replicate n 0).
Proof. intros j e He. unfold geti in He. destruct (j <? 0); [done|]. apply lookup_replicate in He as [-> _]. done. Qed.

Lemma page_of_pos w x : direct_mapped (w_pfa w) -> 0 <= x -> page_of (w_pfa w) x <> 0.
Proof. intros (_ & ? & _) ?. unfold page_of, KERNEL_VIRTUAL_BASE, FRAME_SIZE. lia. Qed.

Section dir.
Context (w : pworld) (ctx : Z) (c : pctx) (i n : Z) (l : list Z) (pde' : Z).
Hypothesis HI : pg_inv w.
Hypothesis Hc : w_ctxs w !! ctx = Some c.
Hypothesis Hr : pc_root c <> 0.
Hypothesis Hi : 0 <= i < 768.
Hypothesis Hl : w_mem w !! pc_root c = Some l.
(** The table that goes has no entries, and neither has the one that comes. *)
Hypothesis Hold : forall t lt, table_at w (ctx, Some i) t -> w_mem w !! t = Some lt -> no_entries lt.
Hypothesis Hnew : has pde' PTE_PRESENT = true -> has pde' PDE_PS = false /\ exists x lt,
  phys_to_virt (pframe pde') = page_of (w_pfa w) x /\ held_frame (w_pfa w) x /\ w_mem w !! page_of (w_pfa w) x = Some lt /\ no_entries lt /\
  pg_pt_present (pgt (w_pfa w) x) = 0 /\ (forall pl, ~ table_at w pl (page_of (w_pfa w) x)) /\ refs (abs w) (frame_addr (w_pfa w) x) = 0.

Definition redirected : pworld :=
  set_ctx (set_mem w (<[pc_root c := <[Z.to_nat i := pde']> l]> (w_mem w))) ctx (set_tables c n).
Let w' := redirected.

Lemma redirected_ctx cx c1 : w_ctxs w' !! cx = Some c1 -> exists c0, w_ctxs w !! cx = Some c0 /\ pc_root c1 = pc_root c0.
Proof using Hc.
  cbn [w' redirected set_ctx set_ctxs set_mem w_ctxs]. rewrite lookup_insert. case_decide; [|by eauto]. intros [= <-]. subst. by exists c.
Qed.
Lemma redirected_ctx_inv cx c0 : w_ctxs w !! cx = Some c0 -> exists c1, w_ctxs w' !! cx = Some c1 /\ pc_root c1 = pc_root c0.
Proof using Hc.
  cbn [w' redirected set_ctx set_ctxs set_mem w_ctxs]. rewrite lookup_insert. case_decide; [|by eauto]. subst. intros. simplify_eq. by eexists.
Qed.
Lemma redirected_load t j : load w' t j = if decide (t = pc_root c /\ j = i) then Some pde' else load w t j.
Proof using HI Hl Hi.
  pose proof (gi_words _ HI _ _ Hl). change (load w' t j) with (load (set_mem w (<[pc_root c := <[Z.to_nat i := pde']> l]> (w_mem w))) t j).
  apply load_stored; [done|lia].
Qed.
Lemma root_inj cx c0 : w_ctxs w !! cx = Some c0 -> pc_root c0 = pc_root c -> cx = ctx.
Proof using HI Hc Hr.
  intros Hc0 E. assert (table_at w (cx, None) (pc_root c)) as H1 by (exists c0; split; [done|]; by rewrite E).
  assert (table_at w (ctx, None) (pc_root c)) as H2 by (by exists c). pose proof (gi_inj _ HI _ _ _ H1 H2). congruence.
Qed.

Lemma redirected_tables pl b : table_at w' pl b <->
  pl <> (ctx, Some i) /\ table_at w pl b \/ pl = (ctx, Some i) /\ has pde' PTE_PRESENT = true /\ b = phys_to_virt (pframe pde').
Proof using HI Hc Hr Hi Hl.
  destruct pl as [cx [j|]]; unfold table_at; cbn [fst snd].
  - split.
    + intros (c1 & Hc1 & Hr1 & Hj & pde & Hpde & Hp & ->). destruct (redirected_ctx cx c1 Hc1) as (c0 & Hc0 & E0).
      rewrite redirected_load in Hpde. case_decide as Hd.
      * right. destruct Hd as [E ->]. simplify_eq. split; [|done]. do 2 f_equal. apply (root_inj cx c0 Hc0). congruence.
      * left. rewrite E0 in *. split; [|by eauto 10]. intros [= -> ->]. apply Hd. by simplify_eq.
    + intros [[Hne (c0 & Hc0 & Hr0 & Hj & pde & Hpde & Hp & ->)]|([= -> ->] & Hp & ->)].
      * destruct (redirected_ctx_inv cx c0 Hc0) as (c1 & Hc1 & E1). exists c1. rewrite E1. split; [done|]. split; [done|]. split; [done|].
        exists pde. rewrite redirected_load, decide_False; [done|]. intros [E ->]. apply Hne. by rewrite (root_inj cx c0 Hc0 E).
      * destruct (redirected_ctx_inv ctx c Hc) as (c1 & Hc1 & E1). exists c1. rewrite E1. split; [done|]. split; [done|]. split; [done|].
        exists pde'. by rewrite redirected_load, decide_True.
  - split.
    + intros (c1 & Hc1 & Hr1 & ->). destruct (redirected_ctx cx c1 Hc1) as (c0 & Hc0 & E0). left. split; [done|]. exists c0. by rewrite <- E0.
    + intros [[_ (c0 & Hc0 & Hr0 & ->)]|[? _]]; [|done]. destruct (redirected_ctx_inv cx c0 Hc0) as (c1 & Hc1 & E1). exists c1. by rewrite E1.
Qed.

Lemma redirected_lookup cx vx : page_ok vx -> lookup_pte w' cx vx = lookup_pte w cx vx.
Proof using HI Hc Hr Hi Hl Hold Hnew.
  intros Hvx. destruct (page_index vx Hvx) as (_ & _ & Hdi & Hti). destruct (decide (cx = ctx /\ di vx = i)) as [[-> Edi]|Hne].
  - transitivity (@None Z); [|symmetry].
    + unfold lookup_pte, pte_walk. destruct (ctx =? 0); [done|]. destruct (redirected_ctx_inv ctx c Hc) as (c1 & -> & E1). cbn [mbind option_bind].
      rewrite E1. destruct (pc_root c =? 0); [done|]. rewrite redirected_load, decide_True by done. cbn [mbind option_bind].
      destruct (has pde' PTE_PRESENT) eqn:Ep; [|done]. destruct (Hnew eq_refl) as (Hps & x & lt & Ea & (Hx & _) & Hlt & Hne & _ & Hnt & _).
      rewrite Hps. cbn [negb orb]. fold (pframe pde'). rewrite Ea, redirected_load. rewrite decide_False.
      2: { intros [E _]. apply (Hnt (ctx, None)). by exists c. }
      rewrite (load_mem w _ lt) by done. destruct (geti lt (ti vx)) as [e|] eqn:Ee; [|done]. cbn [mbind option_bind]. by rewrite (Hne _ e Ee).
    + destruct (pte_walk_spec w ctx c vx HI Hc Hvx) as [(t & _ & Ht)|[E Hno]]; [|unfold lookup_pte; by rewrite E].
      rewrite (lookup_at w ctx vx t) by done. rewrite Edi in Ht. destruct (gi_tab _ HI _ _ Ht) as (x & lt & _ & _ & Hlt & _).
      rewrite (load_mem w _ lt) by done. destruct (geti lt (ti vx)) as [e|] eqn:Ee; [|done]. cbn [mbind option_bind]. by rewrite (Hold t lt Ht Hlt _ e Ee).
  - destruct (w_ctxs w !! cx) as [c0|] eqn:Hc0.
    2: { unfold lookup_pte, pte_walk. destruct (w_ctxs w' !! cx) as [c1|] eqn:Hc1; [|by rewrite Hc0; destruct (cx =? 0)].
         destruct (redirected_ctx cx c1 Hc1) as (? & ? & _). congruence. }
    destruct (redirected_ctx_inv cx c0 Hc0) as (c1 & Hc1 & E1).
    assert (pte_walk w' cx vx = pte_walk w cx vx) as E.
    { unfold pte_walk. destruct (cx =? 0); [done|]. rewrite Hc1, Hc0. cbn [mbind option_bind]. rewrite E1.
      destruct (Z.eqb_spec (pc_root c0) 0); [done|]. rewrite redirected_load, decide_False; [done|]. intros [E Ej]. apply Hne. split; [|done].
      by apply (root_inj cx c0). }
    unfold lookup_pte. rewrite E. destruct (pte_walk_spec w cx c0 vx HI Hc0 Hvx) as [(t & -> & Ht)|[-> _]]; [|done].
    rewrite redirected_load, decide_False; [done|]. intros [Et _].
    assert (table_at w (ctx, None) t) as H2 by (by exists c). pose proof (gi_inj _ HI _ _ _ Ht H2). done.
Qed.
Lemma redirected_abs : abs w' = abs w.
Proof using HI Hc Hr Hi Hl Hold Hnew. apply abs_ext. intros. by apply redirected_lookup. Qed.

Lemma redirected_inv : pg_inv w'.
Proof using HI Hc Hr Hi Hl Hold Hnew.
  pose proof (gi_words _ HI _ _ Hl) as Hlen.
  assert (w_pfa w' = w_pfa w) as Epf by done. assert (w_mem w' = <[pc_root c := <[Z.to_nat i := pde']> l]> (w_mem w)) as Emem by done.
  split; rewrite ?Epf, ?Emem; try by apply HI.
  - cbn [w' redirected set_ctx set_ctxs set_mem w_ctxs]. rewrite lookup_insert_ne; [apply HI|]. intros ->. by rewrite (gi_null _ HI) in Hc.
  - intros b l'. rewrite lookup_insert. case_decide; [|by apply (gi_words _ HI)]. intros [= <-]. by rewrite length_insert.
  - intros pl b [[Hne Hb]|(-> & Hp & ->)]%redirected_tables.
    + destruct (gi_tab _ HI pl b Hb) as (y & l' & H1 & H2 & H3 & H4). destruct (decide (b = pc_root c)) as [E|E].
      * exists y, (<[Z.to_nat i := pde']> l). rewrite E, lookup_insert_eq. split; [congruence|]. split; [done|]. split; [done|].
        assert (table_at w (ctx, None) b) as Hb' by (by exists c). pose proof (gi_inj _ HI _ _ _ Hb Hb') as ->. by intros [? ?].
      * exists y, l'. by rewrite lookup_insert_ne.
    + destruct (Hnew Hp) as (Hps & x & lt & Ea & Hx & Hlt & Hne & Hcnt & Hnt & _). exists x, lt. rewrite Ea. split; [done|]. split; [done|]. split.
      * rewrite lookup_insert_ne; [done|]. intros E. apply (Hnt (ctx, None)). by exists c.
      * intros _. apply no_entries_count in Hne. lia.
  - intros pl pl' b [[Hne Hb]|(-> & Hp & ->)]%redirected_tables [[Hne' Hb']|(-> & Hp' & Eb')]%redirected_tables.
    + by eapply (gi_inj _ HI).
    + destruct (Hnew Hp') as (_ & x & lt & Ea & _ & _ & _ & _ & Hnt & _). exfalso. apply (Hnt pl). congruence.
    + destruct (Hnew Hp) as (_ & x & lt & Ea & _ & _ & _ & _ & Hnt & _). exfalso. apply (Hnt pl'). congruence.
    + done.
  - intros cx c1 j pde Hc1 Hr1 Hj Hpde Hp. destruct (redirected_ctx cx c1 Hc1) as (c0 & Hc0 & E0). rewrite E0 in *.
    rewrite redirected_load in Hpde. case_decide; [injection Hpde as <-; by apply Hnew|]. by eapply (gi_small _ HI cx c0 j).
  - intros y Hy. rewrite redirected_abs. intros Hry. destruct (gi_data _ HI y Hy Hry) as (H1 & H2 & H3). split; [done|]. split; [done|].
    intros pl [[_ Hb]|(-> & Hp & Ey)]%redirected_tables; [by apply (H3 pl)|].
    destruct (Hnew Hp) as (_ & x & lt & Ea & _ & _ & _ & _ & _ & Hr0). rewrite Ea in Ey. apply page_of_inj in Ey as ->. lia.
Qed.
End dir.

(** ** A new directory *)

Section newroot.
Context (w : pworld) (ctx : Z) (c : pctx) (x : Z) (lt : list Z).
Let t := page_of (w_pfa w) x.
Hypothesis HI : pg_inv w.
Hypothesis Hc : w_ctxs w !! ctx = Some c.
Hypothesis Hr : pc_root c = 0.
Hypothesis Hx : held_frame (w_pfa w) x.
Hypothesis Hlt : w_mem w !! t = Some lt.
Hypothesis Hempty : no_entries lt.
Hypothesis Hnt : forall pl, ~ table_at w pl t.
Hypothesis Hrefs : refs (abs w) (frame_addr (w_pfa w) x) = 0.

Definition rooted : pworld := set_ctx w ctx (set_root c t).
Let w' := rooted.

Lemma rooted_entry j e : load w t j = Some e -> has e PTE_PRESENT = false.
Proof using Hlt Hempty. rewrite (load_mem w t lt) by done. apply Hempty. Qed.

Lemma rooted_tables pl b : table_at w' pl b <-> table_at w pl b \/ pl = (ctx, None) /\ b = t.
Proof using HI Hc Hr Hx Hlt Hempty.
  assert (t <> 0) as Ht0 by (apply page_of_pos; [apply HI|destruct Hx as [? _]; lia]).
  destruct pl as [cx o]. unfold table_at, w', rooted, set_ctx. cbn [fst snd set_ctxs w_ctxs]. rewrite lookup_insert.
  destruct (decide (ctx = cx)) as [<-|Hne].
  - rewrite Hc. split.
    + intros (c1 & [= <-] & _ & H). cbn [pc_root set_root] in H. destruct o as [i|]; [|by right].
      destruct H as (_ & pde & Hpde & Hp & _). rewrite (rooted_entry i pde Hpde) in Hp. done.
    + intros [(c0 & [= <-] & ? & _)|[[= ->] ->]]; [done|]. by eexists.
  - split; [by left|]. intros [?|[[= ? _] _]]; [done|congruence].
Qed.

Lemma rooted_abs : abs w' = abs w.
Proof using HI Hc Hr Hlt Hempty.
  apply abs_ext. intros cx vx Hvx. unfold lookup_pte, pte_walk, w', rooted, set_ctx. cbn [set_ctxs w_ctxs]. rewrite lookup_insert.
  destruct (cx =? 0); [done|]. destruct (decide (ctx = cx)) as [<-|Hne]; [|done]. rewrite Hc. cbn [mbind option_bind pc_root set_root]. rewrite Hr.
  destruct (t =? 0); [done|]. change (load (set_ctxs _ _) t ?j) with (load w t j).
  destruct (load w t (di vx)) as [e|] eqn:Ee; [|done]. cbn [mbind option_bind]. by rewrite (rooted_entry _ e Ee).
Qed.

Lemma rooted_inv : pg_inv w'.
Proof using HI Hc Hr Hx Hlt Hempty Hnt Hrefs.
  assert (w_pfa w' = w_pfa w) as Epf by done. assert (w_mem w' = w_mem w) as Emem by done.
  split; rewrite ?Epf, ?Emem; try by apply HI.
  - unfold w', rooted, set_ctx. cbn [set_ctxs w_ctxs]. rewrite lookup_insert_ne; [apply HI|]. intros ->. by rewrite (gi_null _ HI) in Hc.
  - intros pl b [Hb|[-> ->]]%rooted_tables; [by apply (gi_tab _ HI)|]. exists x, lt. split_and!; try done; simpl; by intros [? ?].
  - intros pl pl' b [Hb|[-> ->]]%rooted_tables [Hb'|[-> Eb]]%rooted_tables; [by eapply (gi_inj _ HI)|subst b|..|done]; by edestruct Hnt.
  - intros cx c1 j pde. unfold w', rooted, set_ctx. cbn [set_ctxs w_ctxs]. rewrite lookup_insert. change (load (set_ctxs _ _) ?r j) with (load w r j).
    case_decide; [|apply (gi_small _ HI)]. intros [= <-] _ Hj Hpde Hp. cbn [pc_root set_root] in Hpde. rewrite (rooted_entry j pde Hpde) in Hp. done.
  - intros y Hy. rewrite rooted_abs. intros Hry. destruct (gi_data _ HI y Hy Hry) as (H1 & H2 & H3). split; [done|]. split; [done|].
    intros pl [Hb|[-> Eb]]%rooted_tables; [by apply (H3 pl)|]. apply page_of_inj in Eb as ->. lia.
Qed.
End newroot.

(** ** More tables, the same map *)

(** Frames that are no table keep their records. *)
Definition kept (w w' : pworld) : Prop :=
  same_shape (w_pfa w) (w_pfa w') /\
  forall y, 0 <= y -> (forall pl, ~ table_at w' pl (page_of (w_pfa w) y)) ->
    occupied (pgt (w_pfa w') y) = occupied (pgt (w_pfa w) y) /\
    (occupied (pgt (w_pfa w) y) = true -> same_page (pgt (w_pfa w') y) (pgt (w_pfa w) y)).

(** A page of memory that holds data: no table, and not a frame that can be handed out. *)
Definition data_page (w : pworld) (a : Z) : Prop :=
  (forall pl, ~ table_at w pl a) /\ forall x, 0 <= x < s_total_frames (w_pfa w) -> a = page_of (w_pfa w) x -> occupied (pgt (w_pfa w) x) = true.

(** Tables are added, nothing else. *)
Record grows (w w' : pworld) : Prop := {
  gr_inv : pg_inv w';
  gr_abs : abs w' = abs w;
  gr_ctx k : is_Some (w_ctxs w' !! k) <-> is_Some (w_ctxs w !! k);
  gr_act : w_active w' = w_active w;
  gr_tab pl a : table_at w pl a -> table_at w' pl a;
  gr_new pl x : 0 <= x -> table_at w' pl (page_of (w_pfa w) x) -> table_at w pl (page_of (w_pfa w) x) \/ occupied (pgt (w_pfa w) x) = false;
  gr_kept : kept w w';
  gr_mem i ctx a : table_at w (ctx, Some i) a -> w_mem w' !! a = w_mem w !! a;
  gr_fresh i ctx a : table_at w' (ctx, Some i) a -> table_at w (ctx, Some i) a \/ exists l, w_mem w' !! a = Some l /\ no_entries l;
  gr_data a : data_page w a -> w_mem w' !! a = w_mem w !! a
}.

Lemma grows_refl w : pg_inv w -> grows w w.
Proof. intros HI. split; try done; by left. Qed.

Lemma table_occupied w pl y : pg_inv w -> table_at w pl (page_of (w_pfa w) y) -> occupied (pgt (w_pfa w) y) = true.
Proof. intros HI Ht. by destruct (gi_tab _ HI pl _ Ht) as (y' & l & <-%page_of_inj & (_ & Ho & _) & _). Qed.

(** Data stays data when tables come only from frames that could be handed out. *)
Lemma data_step w w' a : pg_inv w' -> same_shape (w_pfa w) (w_pfa w') ->
  (forall pl x, 0 <= x -> table_at w' pl (page_of (w_pfa w) x) -> (exists pl, table_at w pl (page_of (w_pfa w) x)) \/ occupied (pgt (w_pfa w) x) = false) ->
  (forall y, 0 <= y -> (forall pl, ~ table_at w' pl (page_of (w_pfa w) y)) -> a = page_of (w_pfa w) y -> occupied (pgt (w_pfa w') y) = occupied (pgt (w_pfa w) y)) ->
  data_page w a -> data_page w' a.
Proof.
  intros HI' Hsh Hnew Hocc [Hnt Ho]. pose proof Hsh as (Et & _).
  assert (forall pl, ~ table_at w' pl a) as Hnt'.
  { intros pl Ht. destruct (gi_tab _ HI' pl a Ht) as (x & _ & -> & [Hx _] & _). rewrite Et in Hx. rewrite (shape_page _ _ x Hsh) in *.
    destruct (Hnew pl x ltac:(lia) Ht) as [[pl' ?]|E]; [by apply (Hnt pl')|]. rewrite (Ho x Hx eq_refl) in E. done. }
  split; [done|]. intros x Hx Ea. rewrite Et in Hx. rewrite (shape_page _ _ x Hsh) in Ea. rewrite Hocc; [by apply Ho|lia| |done]. intros pl. rewrite <- Ea. apply Hnt'.
Qed.
Lemma grows_data w w' a : grows w w' -> data_page w a -> data_page w' a.
Proof.
  intros [A1 A2 A3 A4 A5 A6 [As Ak] A7 A8 A9]. apply data_step; [done|done| |].
  - intros pl x Hx Ht. destruct (A6 pl x Hx Ht); [left; by exists pl|by right].
  - intros y Hy Hnt _. by apply Ak.
Qed.

Lemma grows_trans w w1 w2 : grows w w1 -> grows w1 w2 -> grows w w2.
Proof.
  intros HG [B1 B2 B3 B4 B5 B6 [Bs Bk] B7 B8 B9]. pose proof HG as [A1 A2 A3 A4 A5 A6 [As Ak] A7 A8 A9].
  assert (forall y, page_of (w_pfa w1) y = page_of (w_pfa w) y) as Ep by (intros y; by apply shape_page).
  assert (kept w w2) as HK.
  { split; [by eapply same_shape_trans|]. intros y Hy Hno.
    assert (forall pl, ~ table_at w1 pl (page_of (w_pfa w) y)) as Hno1 by (intros pl H1; by apply (Hno pl), B5).
    destruct (Ak y Hy Hno1) as [E1 S1], (Bk y Hy) as [E2 S2]; [by rewrite Ep|]. split; [congruence|].
    intros Ho. eapply same_page_trans; [apply S2; congruence|by apply S1]. }
  split; [done|congruence|intros k; by rewrite B3, A3|congruence|intros; by apply B5, A5| |done| | |].
  - intros pl x Hx Ht. destruct (B6 pl x Hx) as [H1|H1]; [by rewrite Ep|apply A6; [done|by rewrite <- Ep]|].
    destruct (occupied (pgt (w_pfa w) x)) eqn:Eo; [|by right]. exfalso.
    destruct (Ak x Hx) as [E _]; [|congruence]. intros pl' Ht'. rewrite <- Ep in Ht'. rewrite (table_occupied w1 pl' x A1 Ht') in H1. done.
  - intros i ctx a Ha. rewrite (B7 i ctx), (A7 i ctx); [done..|]. by apply A5.
  - intros i ctx a [Ha|?]%B8; [|by right]. destruct (A8 i ctx a Ha) as [?|(l & Hl & Hn)]; [by left|right]. exists l. by rewrite (B7 i ctx).
  - intros a Ha. rewrite B9, A9; [done..|]. by eapply grows_data.
Qed.

(** A frame that is taken and cleared becomes a table. *)
Lemma grows_new w w' p' x : pg_inv w -> pstep (w_pfa w) p' x -> occupied (pgt (w_pfa w) x) = false -> 0 <= x ->
  pg_inv w' -> w_pfa w' = p' -> abs w' = abs w -> w_active w' = w_active w -> (forall k, is_Some (w_ctxs w' !! k) <-> is_Some (w_ctxs w !! k)) ->
  (forall pl a, table_at w pl a -> table_at w' pl a) ->
  (forall pl a, table_at w' pl a -> table_at w pl a \/ a = page_of (w_pfa w) x) ->
  (exists pl, table_at w' pl (page_of (w_pfa w) x)) ->
  (forall i ctx a, table_at w (ctx, Some i) a -> w_mem w' !! a = w_mem w !! a) ->
  (forall i ctx a, table_at w' (ctx, Some i) a -> table_at w (ctx, Some i) a \/ exists l, w_mem w' !! a = Some l /\ no_entries l) ->
  (forall a, a <> page_of (w_pfa w) x -> (forall pl, ~ table_at w pl a) -> w_mem w' !! a = w_mem w !! a) -> 0 <= x < s_total_frames (w_pfa w) -> grows w w'.
Proof.
  intros HI (Hd & Hsh & Hother) Hno Hx HI' Epf Eabs Eact Hctx Htab Hnew [pl0 Hpl0] Hmem Hfresh Hdata Hxr.
  split; try done.
  - intros pl y Hy Ht. destruct (Hnew pl _ Ht) as [?|E%page_of_inj]; [by left|]. subst y. by right.
  - split; [by rewrite Epf|]. intros y Hy Hnt. rewrite Epf. apply Hother; [done|]. intros ->. by apply (Hnt pl0).
  - intros a [Hnt Ho]. apply Hdata; [|done]. intros ->. rewrite (Ho x Hxr eq_refl) in Hno. done.
Qed.

Lemma root_ensure_spec w ctx c : pg_inv w -> w_ctxs w !! ctx = Some c ->
  exists w' b, root_ensure cpu w ctx = Some (w', b) /\ grows w w' /\
    (if b then exists c', w_ctxs w' !! ctx = Some c' /\ pc_root c' <> 0 else dry (w_pfa w') cpu).
Proof.
  intros HI Hc. unfold root_ensure. rewrite Hc. cbn [mbind option_bind]. destruct (Z.eqb_spec (pc_root c) 0) as [Hr|Hr]; cbn [negb].
  2: { exists w, true. split; [done|]. split; [by apply grows_refl|]. by exists c. }
  unfold paging_table_alloc. rewrite (gi_boot _ HI). unfold take_frame.
  destruct (take_clear w HI) as (p' & r & -> & Hr'). cbn [mbind option_bind]. destruct r as [a|].
  2: { destruct Hr' as [-> Hdry]. exists (set_pfa w (w_pfa w)), false. split; [done|]. destruct w. split; [by apply grows_refl|done]. }
  destruct Hr' as (x & -> & Hx & Hocc & Hst & Hh & Hnt & Hrefs & _ & HI1 & Habs & Htabs). pose proof Hst as (_ & Hsh & _).
  set (w1 := clear_page (set_pfa w p') (page_of (w_pfa w) x)) in *.
  assert (page_of (w_pfa w1) x = page_of (w_pfa w) x) as Epg by (by apply shape_page).
  assert (frame_addr (w_pfa w1) x = frame_addr (w_pfa w) x) as Ead by (by apply shape_addr).
  assert (w_mem w1 !! page_of (w_pfa w1) x = Some (replicate 1024 0)) as Hm by (rewrite Epg; apply lookup_insert_eq).
  assert (forall pl, ~ table_at w1 pl (page_of (w_pfa w1) x)) as Hnt1 by (intros pl; rewrite Htabs, Epg; apply Hnt).
  exists (rooted w1 ctx c x), true. split; [unfold rooted; by rewrite Epg|].
  assert (table_at (rooted w1 ctx c x) (ctx, None) (page_of (w_pfa w) x)) as Hroot.
  { rewrite <- Epg. eapply rooted_tables; eauto using no_entries_zero. }
  split.
  - apply (grows_new w _ p' x); try done; try lia.
    + eapply rooted_inv; eauto using no_entries_zero. by rewrite Habs, Ead.
    + erewrite rooted_abs; eauto using no_entries_zero.
    + intros k. unfold rooted, set_ctx. cbn [set_ctxs w_ctxs w1 clear_page set_mem set_pfa]. rewrite lookup_insert. case_decide; [|done]. subst k.
      rewrite Hc. split; eauto.
    + intros pl b Hb. eapply rooted_tables; eauto using no_entries_zero. left. by apply Htabs.
    + intros pl b Hb. eapply rooted_tables in Hb; eauto using no_entries_zero. rewrite Epg in Hb. destruct Hb as [Hb|[_ ->]]; [left; by apply Htabs|by right].
    + by eexists.
    + intros i cx a Ha. cbn [rooted set_ctx set_ctxs w_mem w1 clear_page set_mem set_pfa]. rewrite lookup_insert_ne; [done|]. intros <-. by apply (Hnt (cx, Some i)).
    + intros i cx a Ha. eapply rooted_tables in Ha; eauto using no_entries_zero. destruct Ha as [Ha|[? _]]; [left; by apply Htabs|done].
    + intros a Hne _. cbn [rooted set_ctx set_ctxs w_mem w1 clear_page set_mem set_pfa]. by rewrite lookup_insert_ne.
  - destruct Hroot as (c' & Hc' & Hr' & _). by exists c'.
Qed.

(** The directory entry of a new table. *)
Lemma dir_entry_bits pt prot : 0 <= pt < 2 ^ 32 -> pt mod 4096 = 0 ->
  let e := Z.lor (Z.lor (Z.lor pt PTE_PRESENT) PTE_WRITABLE) (Z.land (pte_prot prot) PTE_USER) in
  has e PTE_PRESENT = true /\ has e PDE_PS = false /\ pframe e = pt.
Proof.
  intros Hp Ha e. assert (pt = Z.land pt ADDR_MASK) as E by (symmetry; by apply pframe_id). unfold e.
  destruct (pte_prot_bits prot) as (_ & _ & _ & Hps & Hm & _). rewrite !has_lor. split; [|split].
  - change (has PTE_PRESENT PTE_PRESENT) with true. by rewrite orb_true_r.
  - rewrite E, !has_land. change (Z.land ADDR_MASK PDE_PS) with 0. change (Z.land PTE_USER PDE_PS) with 0. by rewrite !has_0.
  - unfold pframe. rewrite !Z.land_lor_distr_l. change (Z.land PTE_PRESENT ADDR_MASK) with 0. change (Z.land PTE_WRITABLE ADDR_MASK) with 0.
    rewrite <- (Z.land_assoc (pte_prot prot)). change (Z.land PTE_USER ADDR_MASK) with 0. rewrite Z.land_0_r, !Z.lor_0_r. done.
Qed.

Lemma table_ensure_spec w ctx c i prot : pg_inv w -> w_ctxs w !! ctx = Some c -> pc_root c <> 0 -> 0 <= i < 768 ->
  exists w' r, table_ensure cpu w ctx i prot = Some (w', r) /\ grows w w' /\
    match r with
    | None => dry (w_pfa w') cpu
    | Some t => table_at w' (ctx, Some i) t
    end.
Proof.
  intros HI Hc Hr Hi. unfold table_ensure. rewrite Hc. cbn [mbind option_bind].
  destruct (dir_entry w ctx c i HI Hc Hr ltac:(lia)) as (l & pde & Hl & Hlen & Hpde). rewrite Hpde. cbn [mbind option_bind].
  destruct (has pde PTE_PRESENT) eqn:Ep.
  { eexists w, _. split; [done|]. split; [by apply grows_refl|]. exists c. split; [done|]. split; [done|]. split; [done|]. by exists pde. }
  unfold paging_table_alloc. rewrite (gi_boot _ HI). unfold take_frame.
  destruct (take_clear w HI) as (p1 & r & -> & Hr'). cbn [mbind option_bind]. destruct r as [a|].
  2: { destruct Hr' as [-> Hdry]. exists (set_pfa w (w_pfa w)), None. split; [done|]. destruct w. split; [by apply grows_refl|done]. }
  destruct Hr' as (x & -> & Hx & Hocc & Hst & (Hxr & Hxo & Hxc) & Hnt & Hrefs & _ & HI1 & Habs & Htabs). pose proof Hst as (Hd1 & Hsh & _). cbv zeta.
  destruct (page_of_virt (w_pfa w) x (gi_pfa _ HI) Hx) as (Ev1 & Ev2 & _). rewrite Ev2.
  destruct (frame_number (w_pfa w) x (gi_pfa _ HI) Hx) as (_ & Efa & _).
  set (w1 := clear_page (set_pfa w p1) (page_of (w_pfa w) x)) in *.
  assert (pc_root c <> page_of (w_pfa w) x) as Hrx by (intros E; apply (Hnt (ctx, None)); by exists c).
  assert (w_mem w1 !! pc_root c = Some l) as Hl1 by (cbn [w1 clear_page set_mem set_pfa w_mem]; by rewrite lookup_insert_ne).
  set (pde' := Z.lor (Z.lor (Z.lor (frame_addr (w_pfa w) x) PTE_PRESENT) PTE_WRITABLE) (Z.land (pte_prot prot) PTE_USER)).
  assert (0 <= frame_addr (w_pfa w) x < 2 ^ 32 /\ frame_addr (w_pfa w) x mod 4096 = 0) as [Hfr Hfm].
  { pose proof (gi_pfa _ HI) as (_ & ? & Hal & Hmx). unfold FRAME_SIZE in Hmx. rewrite Efa. split; [lia|].
    rewrite Z.add_mod, Hal, Z.mod_mul by lia. done. }
  destruct (dir_entry_bits (frame_addr (w_pfa w) x) prot Hfr Hfm) as (Hb1 & Hb2 & Hb3). fold pde' in Hb1, Hb2, Hb3.
  rewrite (store_mem w1 _ l) by (done || lia). cbn [mbind option_bind]. unfold on_pfa. cbn [w_pfa set_ctx set_ctxs set_mem w1 clear_page set_pfa].
  assert (frame_addr (w_pfa w) x = frame_addr p1 x) as E1 by (symmetry; by apply shape_addr). rewrite E1.
  destruct (set_owner_step p1 x Hd1 Hxr 0 PAGE_TABLE_TYPE Hxo) as (p2 & -> & Hst2 & Ep2). cbn [mbind option_bind w_pfa set_pfa].
  pose proof Hst2 as (Hd2 & Hsh2 & _). assert (frame_addr p1 x = frame_addr p2 x) as E2 by (symmetry; by apply shape_addr). rewrite E2.
  assert (0 <= x < s_total_frames p2) as Hxr2 by (destruct Hsh2 as (-> & _); done).
  destruct (count_set_step p2 x Hd2 Hxr2 0) as (p3 & -> & Hst3 & Ep3); [by rewrite Ep2|]. cbn [mbind option_bind].
  assert (pstep (w_pfa w) p3 x) as Hst03 by (eapply pstep_trans; [|exact Hst3]; by eapply pstep_trans). pose proof Hst03 as (Hd3 & Hsh03 & _).
  assert (pg_inv (set_pfa w1 p3)) as HI3.
  { apply (inv_pstep w1 p3 x); [done|by eapply pstep_trans|lia| |].
    - intros pl. rewrite Htabs. change (w_pfa w1) with p1. rewrite (shape_page _ _ x Hsh). apply Hnt.
    - rewrite Habs. change (w_pfa w1) with p1. rewrite <- E1. lia. }
  set (n := u32 (num_page_tables c + 1)). exists (redirected (set_pfa w1 p3) ctx c i n l pde'), (Some (page_of (w_pfa w) x)). split; [done|].
  assert (page_of p3 x = page_of (w_pfa w) x) as Epg by (by apply shape_page).
  assert (phys_to_virt (pframe pde') = page_of (w_pfa w) x) as Etgt by (by rewrite Hb3).
  assert (forall pl b, table_at (set_pfa w1 p3) pl b <-> table_at w pl b) as Htabs3 by (intros; by rewrite <- Htabs).
  assert (forall t lt, table_at (set_pfa w1 p3) (ctx, Some i) t -> w_mem (set_pfa w1 p3) !! t = Some lt -> no_entries lt) as Hold.
  { intros t lt (c' & Hc' & _ & _ & pde0 & Hpde0 & Hp0 & _)%Htabs3. simpl in Hc'. simplify_eq. congruence. }
  assert (has pde' PTE_PRESENT = true -> has pde' PDE_PS = false /\ exists y lt,
    phys_to_virt (pframe pde') = page_of p3 y /\ held_frame p3 y /\ w_mem (set_pfa w1 p3) !! page_of p3 y = Some lt /\ no_entries lt /\
    pg_pt_present (pgt p3 y) = 0 /\ (forall pl, ~ table_at (set_pfa w1 p3) pl (page_of p3 y)) /\ refs (abs (set_pfa w1 p3)) (frame_addr p3 y) = 0) as Hnew.
  { intros _. split; [done|]. exists x, (replicate 1024 0). rewrite Epg. split; [done|]. split.
    { split; [destruct Hsh03 as (-> & _); done|]. rewrite Ep3, Ep2. done. }
    split; [apply lookup_insert_eq|]. split; [apply no_entries_zero|]. split; [by rewrite Ep3|]. split; [intros pl; rewrite Htabs3; apply Hnt|].
    rewrite abs_pfa, Habs, (shape_addr _ _ x Hsh03). done. }
  assert (table_at (redirected (set_pfa w1 p3) ctx c i n l pde') (ctx, Some i) (page_of (w_pfa w) x)) as Hthere.
  { eapply redirected_tables; try done. right. by rewrite Etgt. }
  split; [|done].
  assert (w_mem (redirected (set_pfa w1 p3) ctx c i n l pde') !! page_of (w_pfa w) x = Some (replicate 1024 0)) as Hzero.
  { cbn [redirected set_ctx set_ctxs set_mem w_mem set_pfa]. rewrite lookup_insert_ne by done. apply lookup_insert_eq. }
  apply (grows_new w _ p3 x); try done; try lia.
  - by eapply redirected_inv.
  - erewrite redirected_abs; [by rewrite abs_pfa, Habs|done..].
  - intros k. cbn [redirected set_ctx set_ctxs set_mem w_ctxs set_pfa w1 clear_page]. rewrite lookup_insert. case_decide; [|done]. subst k. rewrite Hc. split; eauto.
  - intros pl b Hb. eapply redirected_tables; try done. left. split; [|by apply Htabs3]. intros ->. destruct Hb as (c' & Hc' & _ & _ & pde0 & Hpde0 & Hp0 & _). simpl in Hc'. simplify_eq. congruence.
  - intros pl b Hb. eapply redirected_tables in Hb; try done. destruct Hb as [[_ Hb]|(_ & _ & ->)]; [left; by apply Htabs3|by right].
  - by eexists.
  - intros j cx b Hb. cbn [redirected set_ctx set_ctxs set_mem w_mem set_pfa w1 clear_page]. rewrite !lookup_insert_ne; [done|..].
    + intros <-. by apply (Hnt (cx, Some j)).
    + intros <-. assert (table_at w (ctx, None) (pc_root c)) as H2 by (by exists c). pose proof (gi_inj _ HI _ _ _ Hb H2). done.
  - intros j cx b Hb. eapply redirected_tables in Hb; try done. destruct Hb as [[_ Hb]|(_ & _ & ->)]; [left; by apply Htabs3|right].
    exists (replicate 1024 0). rewrite Etgt. split; [done|apply no_entries_zero].
  - intros a Hne Hna. cbn [redirected set_ctx set_ctxs set_mem w_mem set_pfa w1 clear_page]. rewrite !lookup_insert_ne; [done..|].
    intros <-. apply (Hna (ctx, None)). by exists c.
Qed.

(** ** Setting an entry *)

Lemma present_insert l j e v : geti l j = Some e ->
  present_count (<[Z.to_nat j := v]> l) =
  present_count l - (if has e PTE_PRESENT then 1 else 0) + (if has v PTE_PRESENT then 1 else 0).
Proof.
  intros He. unfold geti in He. destruct (Z.ltb_spec j 0); [done|]. unfold present_count.
  rewrite (insert_take_drop l) by (by eapply lookup_lt_Some). rewrite <- (take_drop_middle l _ e He) at 3.
  rewrite !filter_app, !length_app, !filter_cons.
  destruct (has e PTE_PRESENT), (has v PTE_PRESENT); rewrite ?decide_True, ?decide_False by done; simpl; lia.
Qed.

(** There is a reference for one more page of [pa]. *)
Definition owed (w : pworld) (pa : Z) : Prop :=
  forall x, 0 <= x < s_total_frames (w_pfa w) -> pa = frame_addr (w_pfa w) x ->
    occupied (pgt (w_pfa w) x) = true /\ refs (abs w) pa < pg_refcount (pgt (w_pfa w) x) /\
    forall pl, ~ table_at w pl (page_of (w_pfa w) x).

(** The table of [va] has less than 255 entries, if there is one. *)
Definition table_room (w : pworld) (ctx va : Z) : Prop :=
  forall t l, table_at w (ctx, Some (di va)) t -> w_mem w !! t = Some l -> present_count l < 255.

Definition entry_of (pa prot : Z) : Z := Z.lor (Z.land pa ADDR_MASK) (pte_prot prot).

(** The effect of one change of the map: every frame that is no table and not
    named keeps its record, and so does a table its place. *)
Record changes (w w' : pworld) (M : gmap (Z * Z) Z) (named : Z -> Prop) : Prop := {
  ch_inv : pg_inv w';
  ch_abs : abs w' = M;
  ch_ctx k : is_Some (w_ctxs w' !! k) <-> is_Some (w_ctxs w !! k);
  ch_act : w_active w' = w_active w;
  ch_shape : same_shape (w_pfa w) (w_pfa w');
  ch_new pl x : 0 <= x -> table_at w' pl (page_of (w_pfa w) x) -> (exists pl, table_at w pl (page_of (w_pfa w) x)) \/ occupied (pgt (w_pfa w) x) = false;
  ch_old pl x : 0 <= x -> table_at w pl (page_of (w_pfa w) x) -> table_at w' pl (page_of (w_pfa w) x) \/ named x;
  ch_frames y : 0 <= y -> (forall pl, ~ table_at w' pl (page_of (w_pfa w) y)) -> ~ named y ->
    occupied (pgt (w_pfa w') y) = occupied (pgt (w_pfa w) y) /\
    (occupied (pgt (w_pfa w) y) = true -> same_page (pgt (w_pfa w') y) (pgt (w_pfa w) y));
  ch_data a : data_page w a -> w_mem w' !! a = w_mem w !! a
}.

Lemma aligned_pframe pa : 0 <= pa < 2 ^ 32 -> pa mod 4096 = 0 -> Z.land pa ADDR_MASK = pa.
Proof. apply pframe_id. Qed.

Lemma table_bounds w ctx va t : pg_inv w -> page_ok va -> table_at w (ctx, Some (di va)) t ->
  exists x l e, t = page_of (w_pfa w) x /\ held_frame (w_pfa w) x /\ w_mem w !! t = Some l /\ geti l (ti va) = Some e /\
    load w t (ti va) = Some e /\ 0 <= ti va < zlen l /\ pg_pt_present (pgt (w_pfa w) x) = present_count l /\ present_count l <= 255 /\
    virt_to_phys t = frame_addr (w_pfa w) x /\
    abs w !! (ctx, va) = (if has e PTE_PRESENT then Some e else None).
Proof.
  intros HI Hp Ht. destruct (gi_tab _ HI _ _ Ht) as (x & l & E & Hx & Hl & Hcnt). destruct Hcnt as [H1 H2]; [by eexists|].
  pose proof (gi_words _ HI _ _ Hl) as Hlen. destruct (page_index va Hp) as (_ & _ & _ & Hti).
  destruct (geti_Some l (ti va)) as (e & He & _); [lia|]. exists x, l, e.
  destruct (page_of_virt (w_pfa w) x (gi_pfa _ HI)) as (_ & Ev & _); [apply Hx|].
  split_and!; try done; try lia; [by rewrite (load_mem w t l)|by rewrite E|].
  rewrite abs_lookup, decide_True by done. rewrite (lookup_at w ctx va t), (load_mem w t l), He by done. done.
Qed.

(** Writing into a table leaves the data alone. *)
Lemma table_other w ctx i t a v : table_at w (ctx, Some i) t -> (forall pl, ~ table_at w pl a) -> (<[t := v]> (w_mem w)) !! a = w_mem w !! a.
Proof. intros Ht Hna. rewrite lookup_insert_ne; [done|]. intros ->. by apply (Hna (ctx, Some i)). Qed.

Lemma install_spec w ctx va t pa prot : pg_inv w -> page_ok va -> table_at w (ctx, Some (di va)) t -> table_room w ctx va ->
  0 <= pa < 2 ^ 32 -> pa mod 4096 = 0 -> owed w pa ->
  exists w' b, pte_install w t (ti va) pa prot = Some (w', b) /\
    if b then abs w !! (ctx, va) = None /\ changes w w' (<[(ctx, va) := entry_of pa prot]> (abs w)) (fun _ => False)
    else w' = w /\ is_Some (abs w !! (ctx, va)).
Proof.
  intros HI Hp Ht Hroom Hpa Hal Howed. destruct (table_bounds w ctx va t HI Hp Ht) as (x & l & e & -> & Hx & Hl & He & Hload & Hti & Hcnt & _ & Ev & Habs).
  unfold pte_install. rewrite Hload. cbn [mbind option_bind]. destruct (has e PTE_PRESENT) eqn:Ep.
  { exists w, false. split; [done|]. split; [done|]. rewrite Habs. by eexists. }
  rewrite (store_mem w _ l) by done. cbn [mbind option_bind]. unfold on_pfa. cbn [w_pfa set_mem]. rewrite Ev.
  pose proof Hx as (Hxr & Hxo & Hxc). pose proof (gi_pfa _ HI) as Hd.
  destruct (count_inc_step (w_pfa w) x Hd Hxr Hxo) as (p' & -> & Hst & Ep'). cbn [mbind option_bind]. pose proof Hst as (Hd' & Hsh & Hother).
  destruct (new_entry pa prot) as (Hn1 & Hn2 & _). fold (entry_of pa prot) in Hn1, Hn2.
  assert (present_count (<[Z.to_nat (ti va) := entry_of pa prot]> l) = present_count l + 1) as Epc
    by (rewrite (present_insert l (ti va) e) by done; rewrite Ep, Hn2; lia).
  pose proof (Hroom _ _ Ht Hl) as Hlt.
  eexists _, true. split; [done|]. split; [done|].
  assert (0 <= present_count l) by (unfold present_count; lia).
  assert (set_entry (entry_of pa prot) (ctx, va) (abs w) = <[(ctx, va) := entry_of pa prot]> (abs w)) as Ese by (unfold set_entry; by rewrite Hn2).
  assert (forall y, 0 <= y < s_total_frames (w_pfa w) -> 0 < refs (<[(ctx, va) := entry_of pa prot]> (abs w)) (frame_addr (w_pfa w) y) ->
    occupied (pgt p' y) = true /\ refs (<[(ctx, va) := entry_of pa prot]> (abs w)) (frame_addr (w_pfa w) y) <= pg_refcount (pgt p' y) /\
    forall pl, ~ table_at w pl (page_of (w_pfa w) y)) as Hdata.
  { intros y Hy. rewrite refs_insert by done. rewrite Hn1, pframe_id by done. intros Hry.
    assert (occupied (pgt (w_pfa w) y) = true /\ refs (abs w) (frame_addr (w_pfa w) y) + (if decide (pa = frame_addr (w_pfa w) y) then 1 else 0)
      <= pg_refcount (pgt (w_pfa w) y) /\ forall pl, ~ table_at w pl (page_of (w_pfa w) y)) as (Ho & Hle & Hnt).
    { case_decide as Epa; [|rewrite Z.add_0_r in *; by apply (gi_data _ HI)]. destruct (Howed y Hy Epa) as (? & ? & ?). rewrite <- Epa. split_and!; [done|lia|done]. }
    assert (y <> x) as Hne by (intros ->; by apply (Hnt (ctx, Some (di va)))).
    destruct (Hother y ltac:(lia) Hne) as [Eo Hsp]. rewrite Eo, (same_page_refs _ _ (Hsp Ho)). done. }
  split.
  - apply (written_inv w ctx va x l (entry_of pa prot) p'); try done; try lia.
    + intros pl y Hy Hne Hty. apply Hother; [done..|]. by eapply table_occupied.
    + split; [destruct Hsh as (-> & _); done|]. by rewrite Ep'.
    + rewrite Ep'. cbn [pg_pt_present set_present]. rewrite Hcnt, Epc. apply u8_small. lia.
    + by rewrite Ese.
  - rewrite <- Ese. by apply (written_abs w ctx va x l).
  - done.
  - done.
  - done.
  - intros pl y Hy Hty. left. exists pl. by apply (written_tables w ctx va x l (entry_of pa prot) p').
  - intros pl y Hy Hty. left. by apply (written_tables w ctx va x l (entry_of pa prot) p').
  - intros y Hy Hnt _. apply Hother; [done|]. intros ->. apply (Hnt (ctx, Some (di va))).
    by apply (written_tables w ctx va x l (entry_of pa prot) p').
  - intros a [Hna _]. by apply (table_other w ctx (di va) (page_of (w_pfa w) x)).
Qed.

(** ** Mapping *)

Lemma grows_changes w w' named : grows w w' -> changes w w' (abs w) named.
Proof.
  intros [A1 A2 A3 A4 A5 A6 [As Ak] A7 A8 A9]. split; try done.
  - intros pl x Hx Ht. destruct (A6 pl x Hx Ht); [left; by exists pl|by right].
  - intros pl x Hx Ht. left. by apply A5.
  - intros y Hy Hnt _. by apply Ak.
Qed.

Lemma changes_after w w1 w2 M named : grows w w1 -> changes w1 w2 M named -> changes w w2 M named.
Proof.
  intros HG [B1 B2 B3 B4 Bs B5 B6 B7 B8]. pose proof HG as [A1 A2 A3 A4 A5 A6 [As Ak] A7 A8 A9].
  assert (forall y, page_of (w_pfa w1) y = page_of (w_pfa w) y) as Ep by (intros y; by apply shape_page).
  split; [done|done|intros k; by rewrite B3, A3|congruence|by eapply same_shape_trans|..].
  - intros pl x Hx Ht. rewrite <- Ep in Ht. destruct (occupied (pgt (w_pfa w) x)) eqn:Eo; [left|by right].
    destruct (B5 pl x Hx Ht) as [[pl1 Ht1]|Hf].
    + rewrite Ep in Ht1. destruct (A6 pl1 x Hx Ht1) as [?|?]; [by exists pl1|congruence].
    + destruct (Ak x Hx) as [E _]; [|congruence]. intros pl' Ht'. rewrite <- Ep in Ht'. rewrite (table_occupied w1 pl' x A1 Ht') in Hf. done.
  - intros pl x Hx Ht. rewrite <- (Ep x). apply B6; [done|]. rewrite Ep. by apply A5.
  - intros y Hy Hnt Hnn. rewrite <- Ep in Hnt.
    assert (forall pl, ~ table_at w1 pl (page_of (w_pfa w1) y)) as Hnt1 by (intros pl Ht; destruct (B6 pl y Hy Ht) as [?|?]; [by apply (Hnt pl)|done]).
    destruct (B7 y Hy Hnt Hnn) as [E2 S2]. destruct (Ak y Hy) as [E1 S1]; [intros pl; rewrite <- Ep; apply Hnt1|].
    split; [congruence|]. intros Ho. eapply same_page_trans; [apply S2; congruence|by apply S1].
  - intros a Ha. rewrite B8, A9; [done..|]. by eapply grows_data.
Qed.

Lemma grows_owed w w' pa : grows w w' -> owed w pa -> owed w' pa.
Proof.
  intros [A1 A2 A3 A4 A5 A6 [As Ak] A7 A8 A9] Ho x Hx Epa. rewrite (shape_addr _ _ x As) in Epa. rewrite (shape_page _ _ x As), A2.
  pose proof As as (Et & _). rewrite Et in Hx. destruct (Ho x Hx Epa) as (H1 & H2 & H3).
  assert (forall pl, ~ table_at w' pl (page_of (w_pfa w) x)) as Hnt.
  { intros pl Ht. destruct (A6 pl x ltac:(lia) Ht) as [?|?]; [by apply (H3 pl)|congruence]. }
  destruct (Ak x ltac:(lia) Hnt) as [E S]. rewrite E, (same_page_refs _ _ (S H1)). done.
Qed.

Lemma grows_room w w' ctx va : grows w w' -> table_room w ctx va -> table_room w' ctx va.
Proof.
  intros HG Hr t l Ht Hl. destruct (gr_fresh _ _ HG _ _ _ Ht) as [Ht0|(l' & Hl' & Hn)].
  - apply (Hr t l Ht0). by rewrite <- (gr_mem _ _ HG _ _ _ Ht0).
  - rewrite Hl in Hl'. injection Hl' as <-. apply no_entries_count in Hn. lia.
Qed.

Lemma map_entry_spec w ctx va pa prot : pg_inv w -> is_Some (w_ctxs w !! ctx) -> page_ok va -> table_room w ctx va ->
  0 <= pa < 2 ^ 32 -> pa mod 4096 = 0 -> owed w pa ->
  exists w' b, jlos_arch_map_entry cpu w ctx va pa prot = Some (w', b) /\
    if b then abs w !! (ctx, va) = None /\ changes w w' (<[(ctx, va) := entry_of pa prot]> (abs w)) (fun _ => False)
    else changes w w' (abs w) (fun _ => False) /\ (is_Some (abs w !! (ctx, va)) \/ dry (w_pfa w') cpu).
Proof.
  intros HI [c Hc] Hp Hroom Hpa Hal Hoed. unfold jlos_arch_map_entry.
  destruct (Z.eqb_spec ctx 0) as [->|_]; [by rewrite (gi_null _ HI) in Hc|].
  destruct (root_ensure_spec w ctx c HI Hc) as (w1 & b & -> & HG1 & Hb). cbn [mbind option_bind].
  destruct b; cbn [negb]; [|exists w1, false; split; [done|]; split; [by apply grows_changes|by right]]. destruct Hb as (c1 & Hc1 & Hr1).
  destruct (page_index va Hp) as (_ & _ & Hdi & _).
  destruct (table_ensure_spec w1 ctx c1 (di va) prot (gr_inv _ _ HG1) Hc1 Hr1 Hdi) as (w2 & r & -> & HG2 & Hr). cbn [mbind option_bind].
  pose proof (grows_trans _ _ _ HG1 HG2) as HG. destruct r as [t|]; [|exists w2, false; split; [done|]; split; [by apply grows_changes|by right]].
  destruct (install_spec w2 ctx va t pa prot (gr_inv _ _ HG) Hp Hr) as (w3 & b & -> & Hb3);
    [by eapply grows_room|done|done|by eapply grows_owed|]. exists w3, b. split; [done|]. rewrite (gr_abs _ _ HG) in Hb3. destruct b.
  - destruct Hb3 as [Hn Hch]. split; [done|]. by eapply changes_after.
  - destruct Hb3 as [-> ?]. split; [by apply grows_changes|by left].
Qed.

(** Without frames mapping takes none. *)
Lemma root_dry w ctx w' b : w_boot w = None -> dry (w_pfa w) cpu -> root_ensure cpu w ctx = Some (w', b) -> w' = w.
Proof.
  intros Hb Hd. unfold root_ensure. destruct (w_ctxs w !! ctx) as [c|]; cbn [mbind option_bind]; [|done].
  destruct (negb _); [congruence|]. unfold paging_table_alloc, take_frame. rewrite Hb, (dry_malloc _ _ Hd). cbn [mbind option_bind]. intros [= <- _]. by destruct w.
Qed.
Lemma table_dry w ctx i prot w' r : w_boot w = None -> dry (w_pfa w) cpu -> table_ensure cpu w ctx i prot = Some (w', r) -> w' = w.
Proof.
  intros Hb Hd. unfold table_ensure. destruct (w_ctxs w !! ctx) as [c|]; cbn [mbind option_bind]; [|done].
  destruct (load _ _ _) as [pde|]; cbn [mbind option_bind]; [|done]. destruct (has _ _); [congruence|].
  unfold paging_table_alloc, take_frame. rewrite Hb, (dry_malloc _ _ Hd). cbn [mbind option_bind]. intros [= <- _]. by destruct w.
Qed.
Lemma map_dry w ctx va pa prot w' b : w_boot w = None -> dry (w_pfa w) cpu -> jlos_arch_map_entry cpu w ctx va pa prot = Some (w', b) -> dry (w_pfa w') cpu.
Proof.
  intros Hb Hd. unfold jlos_arch_map_entry. destruct (ctx =? 0); [congruence|].
  destruct (root_ensure cpu w ctx) as [[w1 ok]|] eqn:E1; cbn [mbind option_bind]; [|done]. apply root_dry in E1; [|done..]. subst w1.
  destruct ok; cbn [negb]; [|congruence].
  destruct (table_ensure cpu w ctx _ prot) as [[w2 r]|] eqn:E2; cbn [mbind option_bind]; [|done]. apply table_dry in E2; [|done..]. subst w2.
  destruct r as [t|]; [|congruence]. unfold pte_install. destruct (load _ _ _) as [e|]; cbn [mbind option_bind]; [|done]. destruct (has _ _); [congruence|].
  unfold store. destruct (w_mem w !! t) as [l|]; cbn [mbind option_bind]; [|done]. destruct (seti _ _ _) as [l'|]; cbn [mbind option_bind]; [|done].
  unfold on_pfa. cbn [w_pfa set_mem]. destruct (jlos_page_frame_pt_present_count_inc _ _) as [p'|] eqn:E3; cbn [mbind option_bind]; [|done].
  intros [= <- _]. cbn [w_pfa set_pfa]. eapply dry_lists; [by eapply count_inc_lists|done].
Qed.

(** ** Unmapping *)

(** The frames that unmapping a page is about. *)
Definition unmaps (w : pworld) (ctx va y : Z) : Prop :=
  (exists e, abs w !! (ctx, va) = Some e /\ pframe e = frame_addr (w_pfa w) y) \/ table_at w (ctx, Some (di va)) (page_of (w_pfa w) y).

(** What becomes of the frame of the page. *)
Definition released (w : pworld) (p' : pfa) (ctx va : Z) : Prop :=
  forall e y, abs w !! (ctx, va) = Some e -> 0 <= y < s_total_frames (w_pfa w) -> pframe e = frame_addr (w_pfa w) y ->
    occupied (pgt p' y) = negb (pg_refcount (pgt (w_pfa w) y) =? 1) /\
    (pg_refcount (pgt (w_pfa w) y) <> 1 -> pg_refcount (pgt p' y) = pg_refcount (pgt (w_pfa w) y) - 1).

(** Dropping the reference of a page. *)
Lemma drop_page w k e : pg_inv w -> abs w !! k = Some e ->
  exists p', jlos_page_frame_refcount_dec (w_pfa w) cpu (pframe e) = Some p' /\ direct_mapped p' /\ same_shape (w_pfa w) p' /\
    (forall y, 0 <= y -> pframe e <> frame_addr (w_pfa w) y \/ s_total_frames (w_pfa w) <= y -> occupied (pgt p' y) = occupied (pgt (w_pfa w) y) /\
       (occupied (pgt (w_pfa w) y) = true -> same_page (pgt p' y) (pgt (w_pfa w) y))) /\
    released w p' k.1 k.2.
Proof.
  intros HI Hk. destruct (pframe_range e) as [Hr Ha]. pose proof (gi_pfa _ HI) as Hd.
  destruct (frame_outside (w_pfa w) (pframe e) Hd Hr Ha) as [Hout|(x & Hx & Ex)].
  { exists (w_pfa w). rewrite refcount_dec_outside by done. split_and!; try done.
    intros e' y He' Hy E. destruct k. simpl in *. simplify_eq. destruct (frame_number (w_pfa w) y Hd Hy) as (En & _). rewrite <- E in En. lia. }
  destruct (gi_data _ HI x Hx) as (Ho & Hle & _); [rewrite <- Ex; by eapply refs_pos|].
  pose proof (refs_pos (abs w) k e Hk) as Hpos. rewrite Ex in Hpos |- *.
  destruct (refcount_dec_step (w_pfa w) x Hd Hx cpu (gi_cpu _ HI) Ho ltac:(lia)) as (p' & -> & (Hd' & Hsh & Hother) & H1 & H2).
  exists p'. split_and!; try done.
  - intros y Hy Hne. apply Hother; [done|]. intros ->. destruct Hne as [?|?]; [done|lia].
  - intros e' y He' Hy E. destruct k. simpl in *. simplify_eq.
    assert (y = x) as ->; [|done]. destruct (frame_number (w_pfa w) y Hd Hy) as (En & _), (frame_number (w_pfa w) x Hd Hx) as (En' & _). congruence.
Qed.

Lemma region_user va : page_ok va -> (Z.land va LARGE_ADDR_MASK <? KERNEL_VIRTUAL_BASE) = true.
Proof.
  intros [Hr _]. apply Z.ltb_lt. unfold LARGE_ADDR_MASK. change (LARGE_SIZE - 1) with (2 ^ 22 - 1). rewrite land_not_mask by lia.
  pose proof (Z.mod_pos_bound va (2 ^ 22)). unfold KERNEL_VIRTUAL_BASE. lia.
Qed.

Section unmap.
Context (w : pworld) (ctx va x : Z) (l : list Z) (e : Z).
#[local] Abbreviation p := (w_pfa w).
Let t := page_of p x.
Hypothesis HI : pg_inv w.
Hypothesis Hp : page_ok va.
Hypothesis Ht : table_at w (ctx, Some (di va)) t.
Hypothesis Hx : held_frame p x.
Hypothesis Hl : w_mem w !! t = Some l.
Hypothesis He : geti l (ti va) = Some e.
Hypothesis Hcnt : pg_pt_present (pgt p x) = present_count l.
Hypothesis Hmax : present_count l <= 255.
Hypothesis Habs : abs w !! (ctx, va) = if has e PTE_PRESENT then Some e else None.

(** The entry goes, and the reference and the count with it. *)
Lemma clear_entry :
  exists p2, (if has e PTE_PRESENT then
                w ← on_pfa w (fun q => jlos_page_frame_refcount_dec q cpu (pframe e));
                on_pfa w (fun q => jlos_page_frame_pt_present_count_dec q (frame_addr p x))
              else Some w) = Some (set_pfa w p2) /\
    let w' := written w t l (ti va) 0 p2 in
    pg_inv w' /\ abs w' = delete (ctx, va) (abs w) /\ (forall pl a, table_at w' pl a <-> table_at w pl a) /\
    same_shape p p2 /\ released w p2 ctx va /\ held_frame p2 x /\
    pg_pt_present (pgt p2 x) = present_count (<[Z.to_nat (ti va) := 0]> l) /\
    (forall y, 0 <= y -> ~ unmaps w ctx va y -> occupied (pgt p2 y) = occupied (pgt p y) /\
       (occupied (pgt p y) = true -> same_page (pgt p2 y) (pgt p y))).
Proof using HI Hp Ht Hx Hl He Hcnt Hmax Habs.
  pose proof Hx as (Hxr & Hxo & Hxc). pose proof (gi_words _ HI _ _ Hl). pose proof (page_index va Hp) as (_ & _ & _ & Hti).
  assert (set_entry 0 (ctx, va) (abs w) = delete (ctx, va) (abs w)) as Ese by done.
  pose proof (present_insert l (ti va) e 0 He) as Epc. change (has 0 PTE_PRESENT) with false in Epc. cbv iota in Epc. rewrite Z.add_0_r in Epc.
  destruct (has e PTE_PRESENT) eqn:Ep.
  - destruct (drop_page w (ctx, va) e HI Habs) as (p1 & E1 & Hd1 & Hsh1 & Hk1 & Hrel). unfold on_pfa. cbv beta. rewrite E1. cbn [mbind option_bind].
    assert (frame_addr p1 x = frame_addr p x) as Efx by (by apply shape_addr).
    assert (pframe e <> frame_addr p x) as Hdx.
    { intros E. destruct (gi_data _ HI x Hxr) as (_ & _ & Hnt); [fold p; rewrite <- E; by eapply refs_pos|]. by apply (Hnt (ctx, Some (di va))). }
    destruct (Hk1 x ltac:(lia)) as [Eo1 S1]; [by left|]. specialize (S1 Hxo). pose proof S1 as (_ & _ & Epp1 & Erc1 & _). fold p in Eo1, Epp1, Erc1, Hsh1, Hk1.
    cbn [w_pfa set_pfa]. rewrite <- Efx.
    assert (0 <= x < s_total_frames p1) as Hxr1 by (destruct Hsh1 as (-> & _); done).
    destruct (count_dec_step p1 x Hd1 Hxr1) as (p2 & -> & Hst2 & Ep2); [by rewrite Eo1|]. cbn [mbind option_bind]. pose proof Hst2 as (Hd2 & Hsh2 & Hk2).
    exists p2. split; [done|]. rewrite Epp1, Hcnt in Ep2. destruct (Z.ltb_spec 0 (present_count l)).
    2: { exfalso. assert (no_entries l) as Hn by (apply no_entries_count; unfold present_count in *; lia). rewrite (Hn _ _ He) in Ep. done. }
    assert (same_shape p p2) as Hsh by (by eapply same_shape_trans).
    assert (held_frame p2 x) as Hh2 by (split; [destruct Hsh as (-> & _); done|]; rewrite Ep2; split; [exact (eq_trans Eo1 Hxo)|exact (eq_trans Erc1 Hxc)]).
    assert (pg_pt_present (pgt p2 x) = present_count (<[Z.to_nat (ti va) := 0]> l)) as Hc2 by (rewrite Ep2; simpl; lia).
    assert (forall y, 0 <= y -> y <> x -> (pframe e <> frame_addr p y \/ s_total_frames p <= y) -> occupied (pgt p2 y) = occupied (pgt p y) /\
       (occupied (pgt p y) = true -> same_page (pgt p2 y) (pgt p y))) as Hk.
    { intros y Hy Hne Hd. destruct (Hk1 y Hy Hd) as [E S], (Hk2 y Hy Hne) as [E' S']. split; [congruence|].
      intros Ho. eapply same_page_trans; [apply S'; congruence|by apply S]. }
    assert (released w p2 ctx va) as Hrel2.
    { intros e' y He' Hy E. rewrite Habs in He'. injection He' as <-. assert (y <> x) as Hne by (intros ->; by apply Hdx).
      destruct (Hrel e y Habs Hy E) as [H1 H2]. destruct (Hk2 y ltac:(lia) Hne) as [E' S']. split; [congruence|]. intros Hr1.
      rewrite (same_page_refs _ _ (S' ltac:(rewrite H1; by apply negb_true_iff, Z.eqb_neq))). by apply H2. }
    cbv zeta. split; [|split; [|split; [|split_and!; try done]]].
    + apply (written_inv w ctx va x l 0 p2); try done; try lia.
      * intros pl y Hy Hne Hty. apply Hk; [done..| |by eapply table_occupied].
        destruct (Z.le_gt_cases (s_total_frames p) y); [by right|left]. intros E.
        destruct (gi_data _ HI y) as (_ & _ & Hnt); [lia|fold p; rewrite <- E; by eapply refs_pos|]. by apply (Hnt pl).
      * intros y Hy. rewrite Ese, (refs_delete _ _ _ _ Habs). intros Hry.
        destruct (gi_data _ HI y Hy) as (Ho & Hle & Hnt); [destruct (decide _); lia|].
        assert (y <> x) as Hne by (intros ->; by apply (Hnt (ctx, Some (di va)))). fold p in Hle, Ho, Hry, Hnt |- *.
        case_decide as E; [|rewrite Z.sub_0_r; destruct (Hk y ltac:(lia) Hne) as [E' S']; [by left|]; rewrite E', (same_page_refs _ _ (S' Ho)); done].
        destruct (Hrel2 e y Habs Hy E) as [H1 H2]. fold p in H1, H2. rewrite H1, H2 by lia. split; [by apply negb_true_iff, Z.eqb_neq; lia|]. split; [lia|done].
    + rewrite <- Ese. by apply (written_abs w ctx va x l).
    + intros. by apply (written_tables w ctx va x l 0 p2).
    + intros y Hy Hnu. apply Hk; [done| |].
      * intros ->. apply Hnu. by right.
      * destruct (decide (pframe e = frame_addr p y)) as [E|]; [|by left]. exfalso. apply Hnu. left. by exists e.
  - exists p. split; [by destruct w|]. cbv zeta. rewrite Z.sub_0_r in Epc.
    assert (delete (ctx, va) (abs w) = abs w) as Edel by (by apply delete_id).
    split; [|split; [|split; [|split_and!; try done]]].
    + apply (written_inv w ctx va x l 0 p); try done; try lia; [apply HI|]. intros y Hy. rewrite Ese, Edel. by apply (gi_data _ HI).
    + rewrite <- Ese. by apply (written_abs w ctx va x l).
    + intros. by apply (written_tables w ctx va x l 0 p).
    + intros e' y He'. congruence.
    + lia.
Qed.
End unmap.

(** Giving back a table without entries. *)
Lemma drop_table w ctx c i x lt lr n : pg_inv w -> w_ctxs w !! ctx = Some c -> pc_root c <> 0 -> 0 <= i < 768 ->
  table_at w (ctx, Some i) (page_of (w_pfa w) x) -> held_frame (w_pfa w) x -> w_mem w !! page_of (w_pfa w) x = Some lt -> no_entries lt ->
  w_mem w !! pc_root c = Some lr ->
  exists p', (w1 ← on_pfa w (fun q => jlos_page_frame_clear_owner_type q (frame_addr (w_pfa w) x));
              give_frame cpu w1 (page_of (w_pfa w) x)) = Some (set_pfa w p') /\
    let w' := set_pfa (redirected w ctx c i n lr 0) p' in
    pg_inv w' /\ abs w' = abs w /\ (forall pl a, table_at w' pl a <-> pl <> (ctx, Some i) /\ table_at w pl a) /\ pstep (w_pfa w) p' x.
Proof.
  intros HI Hc Hr Hi Ht (Hx & Ho & Hrc) Hlt Hn Hlr. pose proof (gi_pfa _ HI) as Hd.
  unfold on_pfa at 1, jlos_page_frame_clear_owner_type.
  destruct (set_owner_step (w_pfa w) x Hd Hx 0 0 Ho) as (p1 & -> & Hst1 & Ep1). cbn [mbind option_bind]. pose proof Hst1 as (Hd1 & Hsh1 & _).
  unfold give_frame, on_pfa, jlos_page_frame_free. cbn [w_pfa set_pfa].
  destruct (page_of_virt (w_pfa w) x Hd Hx) as (_ & -> & _). rewrite <- (shape_addr _ _ x Hsh1).
  assert (0 <= x < s_total_frames p1) as Hx1 by (destruct Hsh1 as (-> & _); done).
  assert (0 <= cpu < zlen (s_percpu p1)) as Hcpu by (destruct Hsh1 as (_ & _ & ->); apply (gi_cpu _ HI)).
  destruct (refcount_dec_step p1 x Hd1 Hx1 cpu Hcpu) as (p2 & -> & Hst2 & _); [by rewrite Ep1|rewrite Ep1; simpl; lia|]. cbn [mbind option_bind].
  exists p2. split; [done|]. assert (pstep (w_pfa w) p2 x) as Hst by (by eapply pstep_trans).
  assert (forall t l0, table_at w (ctx, Some i) t -> w_mem w !! t = Some l0 -> no_entries l0) as Hold.
  { intros t l0 Ht' Hl0. rewrite (table_fun w _ _ _ Ht' Ht) in Hl0. simplify_eq. done. }
  assert (forall P : Prop, has 0 PTE_PRESENT = true -> P) as Hnew by (by intros).
  assert (forall pl a, table_at (redirected w ctx c i n lr 0) pl a <-> pl <> (ctx, Some i) /\ table_at w pl a) as Htabs.
  { intros pl a. rewrite (redirected_tables w ctx c i n lr 0) by done. split; [intros [?|(_ & ? & _)]; done|by left]. }
  assert (abs (redirected w ctx c i n lr 0) = abs w) as Ered by (by eapply redirected_abs; eauto).
  cbv zeta. split_and!; [| |exact Htabs|done].
  - apply (inv_pstep _ p2 x); [by eapply redirected_inv; eauto|done|lia| |].
    + intros pl [Hne Hty]%Htabs. apply Hne. by eapply (gi_inj _ HI).
    + rewrite Ered. intros Hrx. destruct (gi_data _ HI x Hx Hrx) as (_ & _ & Hnt). by destruct (Hnt (ctx, Some i)).
  - by rewrite abs_pfa.
Qed.

Lemma unmap_spec w ctx va : pg_inv w -> is_Some (w_ctxs w !! ctx) -> page_ok va ->
  exists w' b, unmap_locked cpu w ctx va = Some (w', b) /\ changes w w' (delete (ctx, va) (abs w)) (unmaps w ctx va) /\
    released w (w_pfa w') ctx va /\ (is_Some (abs w !! (ctx, va)) -> b = true) /\
    (forall pl a, table_at w' pl a -> table_at w pl a).
Proof.
  intros HI [c Hc] Hp. destruct (page_index va Hp) as (_ & _ & Hdi & Hti). unfold unmap_locked.
  destruct (Z.eqb_spec ctx 0) as [->|_]; [by rewrite (gi_null _ HI) in Hc|]. rewrite Hc. cbn [mbind option_bind].
  assert (forall b, (forall t, ~ table_at w (ctx, Some (di va)) t) -> b = false ->
    changes w w (delete (ctx, va) (abs w)) (unmaps w ctx va) /\ released w (w_pfa w) ctx va /\ (is_Some (abs w !! (ctx, va)) -> b = true) /\
    (forall pl a, table_at w pl a -> table_at w pl a)) as Hnone.
  { intros b Hno ->. assert (abs w !! (ctx, va) = None) as Hn by (rewrite abs_lookup, decide_True by done; by apply lookup_none).
    split; [|split_and!; [intros e y He; congruence|rewrite Hn; by intros []|done]]. rewrite delete_id by done. by apply grows_changes, grows_refl. }
  destruct (pte_walk_spec w ctx c va HI Hc Hp) as [(t & Ewalk & Ht)|[Ewalk Hno]].
  2: { unfold pte_walk in Ewalk. rewrite Hc in Ewalk. cbn [mbind option_bind] in Ewalk. destruct (Z.eqb_spec (pc_root c) 0) as [|Hr].
       { exists w, false. split; [done|]. by apply Hnone. }
       destruct (dir_entry w ctx c (di va) HI Hc Hr ltac:(lia)) as (lr & pde & _ & _ & Hpde). rewrite Hpde. cbn [mbind option_bind].
       destruct (has pde PTE_PRESENT) eqn:Epp; cbn [negb]; [|exists w, false; split; [done|]; by apply Hnone].
       exfalso. apply (Hno (phys_to_virt (pframe pde))). exists c. split; [done|]. split; [done|]. split; [lia|]. by exists pde. }
  destruct (table_bounds w ctx va t HI Hp Ht) as (x & l & e & Et & Hx & Hl & He & Hload & Htl & Hcnt & Hmax & Ev & Habs).
  pose proof Ht as (c' & Hc' & Hr & _ & pde & Hpde & Hpp & Et'). simpl in Hc', Hpde. rewrite Hc in Hc'. injection Hc' as <-.
  destruct (Z.eqb_spec (pc_root c) 0); [done|]. rewrite Hpde. cbn [mbind option_bind]. rewrite Hpp.
  rewrite (gi_small _ HI ctx c (di va) pde) by done. cbn [negb]. cbv zeta. fold (pframe pde). rewrite <- Et'.
  assert (pframe pde = frame_addr (w_pfa w) x) as Epde by (rewrite <- Ev, Et'; symmetry; apply phys_virt, pframe_range).
  rewrite Hload. cbn [mbind option_bind]. fold (pframe e). rewrite Epde, Et in *.
  destruct (clear_entry w ctx va x l e HI Hp Ht Hx Hl He Hcnt Hmax Habs) as (p2 & -> & HI1 & Habs1 & Htab1 & Hsh & Hrel & Hh2 & Hc2 & Hk).
  cbn [mbind option_bind]. set (w1 := written w (page_of (w_pfa w) x) l (ti va) 0 p2) in *.
  rewrite (store_mem (set_pfa w p2) _ l) by done. cbn [mbind option_bind w_pfa set_mem set_pfa].
  assert (changes w w1 (delete (ctx, va) (abs w)) (unmaps w ctx va)) as Hch1.
  { split; try done.
    - intros pl y _ Hty%Htab1. left. by exists pl.
    - intros pl y _ Hty. left. by apply Htab1.
    - intros y Hy _ Hnu. by apply Hk.
    - intros a [Hna _]. by apply (table_other w ctx (di va) (page_of (w_pfa w) x)). }
  destruct (frame_number (w_pfa w) x (gi_pfa _ HI)) as (Efn & _); [apply Hx|].
  assert (jlos_page_frame_pt_present_count_get p2 (frame_addr (w_pfa w) x) = Some (present_count (<[Z.to_nat (ti va) := 0]> l))) as ->.
  { rewrite <- (shape_addr _ _ x Hsh), <- Hc2. apply count_get_step; [apply HI1|apply Hh2]. }
  cbn [mbind option_bind]. destruct (Z.eqb_spec (present_count (<[Z.to_nat (ti va) := 0]> l)) 0) as [Ez|Ez].
  2: { exists w1, true. split; [done|]. split; [done|]. split; [done|]. split; [done|]. intros pl a. apply Htab1. }
  change (set_mem (set_pfa w p2) _) with w1. rewrite (region_user va Hp).
  destruct (dir_entry w1 ctx c (di va) HI1 Hc Hr ltac:(lia)) as (lr & pde1 & Hlr & Hlrn & _).
  destruct (drop_table w1 ctx c (di va) x (<[Z.to_nat (ti va) := 0]> l) lr (u32 (num_page_tables c - 1)) HI1 Hc Hr Hdi) as (p3 & E3 & HI3 & Habs3 & Htab3 & Hst3).
  { change (w_pfa w1) with p2. rewrite (shape_page _ _ x Hsh). by apply Htab1. }
  { done. }
  { change (w_pfa w1) with p2. rewrite (shape_page _ _ x Hsh). apply lookup_insert_eq. }
  { by apply no_entries_count. }
  { done. }
  change (w_pfa w1) with p2 in E3, Hst3. rewrite (shape_page _ _ x Hsh), (shape_addr _ _ x Hsh) in E3.
  revert E3. destruct (on_pfa w1 _) as [w2|]; cbn [mbind option_bind]; [|done]. intros ->. cbn [mbind option_bind].
  rewrite (store_mem (set_pfa w1 p3) _ lr) by (done || lia). cbn [mbind option_bind].
  eexists _, true. split; [done|]. change (set_ctx _ _ _) with (set_pfa (redirected w1 ctx c (di va) (u32 (num_page_tables c - 1)) lr 0) p3).
  pose proof Hst3 as (_ & Hsh3 & Hk3). split; [|split_and!].
  - split; try done.
    + by rewrite Habs3.
    + intros k. cbn [redirected set_pfa set_ctx set_ctxs set_mem w_ctxs w1 written]. rewrite lookup_insert. case_decide; [|done]. subst k. rewrite Hc. split; eauto.
    + by eapply same_shape_trans.
    + intros pl y _ [_ Hty]%Htab3. left. exists pl. by apply Htab1.
    + intros pl y _ Hty. destruct (decide (pl = (ctx, Some (di va)))) as [->|Hne]; [|left; apply Htab3; split; [done|by apply Htab1]].
      right. by right.
    + intros y Hy _ Hnu. assert (y <> x) as Hne by (intros ->; apply Hnu; by right). destruct (Hk y Hy Hnu) as [E1 S1], (Hk3 y Hy Hne) as [E2 S2].
      split; [cbn [w_pfa set_pfa]; congruence|]. intros Ho. eapply same_page_trans; [apply S2; congruence|by apply S1].
    + intros a Ha. rewrite <- (ch_data _ _ _ _ Hch1 a Ha). destruct Ha as [Hna _]. cbn [redirected set_pfa set_ctx set_ctxs set_mem w_mem]. rewrite lookup_insert_ne; [done|].
      intros <-. apply (Hna (ctx, None)). by exists c.
  - intros e' y He' Hy E. destruct (Hrel e' y He' Hy E) as [H1 H2].
    assert (y <> x) as Hne.
    { intros ->. destruct (gi_data _ HI x Hy) as (_ & _ & Hnt); [rewrite <- E; by eapply refs_pos|]. by apply (Hnt (ctx, Some (di va))). }
    destruct (Hk3 y ltac:(lia) Hne) as [E2 S2]. cbn [w_pfa set_pfa]. rewrite E2. split; [done|]. intros Hr1.
    rewrite (same_page_refs _ _ (S2 ltac:(rewrite H1; by apply negb_true_iff, Z.eqb_neq))). by apply H2.
  - done.
  - intros pl a [_ Ha]%Htab3. by apply Htab1.
Qed.

(** ** Changing an entry that is present *)

Lemma store_entry w ctx va t e v : pg_inv w -> page_ok va -> table_at w (ctx, Some (di va)) t -> abs w !! (ctx, va) = Some e ->
  has v PTE_PRESENT = true -> pframe v = pframe e \/ owed w (pframe v) ->
  exists w', store w t (ti va) v = Some w' /\ changes w w' (<[(ctx, va) := v]> (abs w)) (fun _ => False) /\ w_pfa w' = w_pfa w /\
    (forall pl a, table_at w' pl a <-> table_at w pl a) /\ (forall a, a <> t -> w_mem w' !! a = w_mem w !! a).
Proof.
  intros HI Hp Ht Hk Hv Hframe. destruct (table_bounds w ctx va t HI Hp Ht) as (x & l & e' & -> & Hx & Hl & He & Hload & Hti & Hcnt & Hmax & Ev & Habs).
  rewrite Habs in Hk. destruct (has e' PTE_PRESENT) eqn:Ep; [|done]. injection Hk as ->. rewrite (store_mem w _ l) by done.
  assert (set_entry v (ctx, va) (abs w) = <[(ctx, va) := v]> (abs w)) as Ese by (unfold set_entry; by rewrite Hv).
  pose proof (written_tables w ctx va x l v (w_pfa w) HI Hp Ht Hl) as Htabs.
  set (w' := written w (page_of (w_pfa w) x) l (ti va) v (w_pfa w)) in *. exists w'. split; [by destruct w|].
  assert (pg_inv w') as HI'.
  { apply (written_inv w ctx va x l v (w_pfa w)); try done; try lia.
    - apply HI.
    - apply Hx.
    - rewrite Hcnt, (present_insert l (ti va) e) by done. rewrite Ep, Hv. lia.
    - rewrite (present_insert l (ti va) e) by done. rewrite Ep, Hv. lia.
    - intros y Hy. rewrite Ese, (refs_replace _ _ e) by done. intros Hry. destruct (decide (pframe v = frame_addr (w_pfa w) y)) as [E|E].
      + destruct Hframe as [Ef|Ho].
        * rewrite <- Ef, (decide_True _ _ E) in *. destruct (gi_data _ HI y Hy) as (H1 & H2 & H3); [lia|]. split_and!; [done|lia|done].
        * destruct (Ho y Hy E) as (H1 & H2 & H3). rewrite E in H2. pose proof (refs_nonneg (abs w) (frame_addr (w_pfa w) y)). split_and!; [done|destruct (decide _); lia|done].
      + destruct (gi_data _ HI y Hy) as (H1 & H2 & H3); [destruct (decide _); lia|]. split_and!; [done|destruct (decide _); lia|done]. }
  split_and!; [|done|exact Htabs|].
  - split; try done.
    + rewrite <- Ese. by apply (written_abs w ctx va x l).
    + intros pl y _ Hty. left. exists pl. by apply Htabs.
    + intros pl y _ Hty. left. by apply Htabs.
    + intros a [Hna _]. by apply (table_other w ctx (di va) (page_of (w_pfa w) x)).
  - intros a Ha. unfold w', written. cbn [w_mem set_pfa set_mem]. by rewrite lookup_insert_ne.
Qed.

(** Where the entry of a mapped page is. *)
Lemma mapped_walk w ctx va e : pg_inv w -> page_ok va -> abs w !! (ctx, va) = Some e ->
  exists t, pte_walk w ctx va = Some (Some (t, ti va)) /\ table_at w (ctx, Some (di va)) t /\ load w t (ti va) = Some e /\ has e PTE_PRESENT = true.
Proof.
  intros HI Hp Hk. rewrite abs_lookup, decide_True in Hk by done. destruct (lookup_pte_ctx w ctx va e Hk) as [c Hc].
  destruct (pte_walk_spec w ctx c va HI Hc Hp) as [(t & E & Ht)|[_ Hno]]; [|by rewrite lookup_none in Hk].
  exists t. rewrite (lookup_at w ctx va t) in Hk by done. split; [done|]. split; [done|].
  destruct (load w t (ti va)) as [e'|]; [|done]. cbn [mbind option_bind] in Hk. destruct (has e' PTE_PRESENT) eqn:Ep; [|done]. by injection Hk as ->.
Qed.

(** Reading entries. *)
Lemma pte_reads w ctx va : pg_inv w -> is_Some (w_ctxs w !! ctx) -> page_ok va ->
  jlos_arch_pte_present w ctx va = Some (bool_decide (is_Some (abs w !! (ctx, va)))) /\
  jlos_arch_pte_phys w ctx va = Some (match abs w !! (ctx, va) with Some e => pframe e | None => 0 end) /\
  jlos_arch_pte_get_prot w ctx va = Some (match abs w !! (ctx, va) with Some e => prot_of e | None => 0 end).
Proof.
  intros HI [c Hc] Hp. destruct (abs w !! (ctx, va)) as [e|] eqn:Hk.
  - destruct (mapped_walk w ctx va e HI Hp Hk) as (t & E & Ht & El & Ep).
    unfold jlos_arch_pte_present, jlos_arch_pte_phys, jlos_arch_pte_get_prot. rewrite E. cbn [mbind option_bind]. rewrite El. cbn [mbind option_bind].
    rewrite Ep. rewrite bool_decide_true by eauto. done.
  - unfold jlos_arch_pte_present, jlos_arch_pte_phys, jlos_arch_pte_get_prot. rewrite bool_decide_false by (by intros []).
    destruct (pte_walk_spec w ctx c va HI Hc Hp) as [(t & -> & Ht)|[-> _]]; [|done]. cbn [mbind option_bind].
    destruct (table_bounds w ctx va t HI Hp Ht) as (x & l & e & _ & _ & _ & _ & -> & _ & _ & _ & _ & Habs). rewrite Hk in Habs.
    destruct (has e PTE_PRESENT) eqn:Ee; [done|]. cbn [mbind option_bind]. rewrite Ee. done.
Qed.

(** The physical address of a mapped page. *)
Lemma get_phys_spec w ctx va : pg_inv w -> is_Some (w_ctxs w !! ctx) -> page_ok va ->
  (exists c, w_ctxs w !! ctx = Some c /\ pc_root c = 0) \/
  jlos_arch_get_phys_entry w ctx va = Some (match abs w !! (ctx, va) with Some e => pframe e | None => 0 end).
Proof.
  intros HI [c Hc] Hp. destruct (Z.eq_dec (pc_root c) 0) as [|Hr]; [left; by exists c|right].
  destruct (page_index va Hp) as (_ & _ & Hdi & _). unfold jlos_arch_get_phys_entry.
  destruct (Z.eqb_spec ctx 0) as [->|_]; [by rewrite (gi_null _ HI) in Hc|]. rewrite Hc. cbn [mbind option_bind].
  rewrite (proj2 (Z.eqb_neq _ _) Hr). destruct (dir_entry w ctx c (di va) HI Hc Hr ltac:(lia)) as (lr & pde & _ & _ & Hpde). rewrite Hpde. cbn [mbind option_bind].
  assert (jlos_paging_get_page_offset va = 0) as Eo.
  { unfold jlos_paging_get_page_offset. change 0xFFF with (2 ^ 12 - 1). rewrite land_mask by lia. apply Hp. }
  destruct (has pde PTE_PRESENT) eqn:Ep; cbn [negb].
  - rewrite (gi_small _ HI ctx c (di va) pde) by done.
    assert (table_at w (ctx, Some (di va)) (phys_to_virt (pframe pde))) as Ht by (exists c; split; [done|]; split; [done|]; split; [lia|]; by exists pde).
    destruct (table_bounds w ctx va _ HI Hp Ht) as (x & l & e & _ & _ & _ & _ & Hload & _ & _ & _ & _ & Habs). fold (pframe pde). rewrite Hload, Habs. cbn [mbind option_bind].
    destruct (has e PTE_PRESENT); cbn [negb]; [|done]. by rewrite Eo, Z.lor_0_r.
  - assert (abs w !! (ctx, va) = None) as ->; [|done]. rewrite abs_lookup, decide_True by done. apply lookup_none; [done|done|].
    intros t (c' & Hc' & _ & _ & pde' & Hpde' & Hp' & _). simpl in Hc'. simplify_eq. congruence.
Qed.

End inv.
