(* ===== verification/PagingCow.v ===== *)
(** * Sharing and copying pages

    The operations of [kernel/paging.c] on user pages as operations on the map
    [abs w] of [PagingInv], the isolation of address spaces that copy-on-write
    keeps, and what the present counts of page tables cannot hold. *)
From S2P Require Import Prelude Pfa PfaInv PfaCpu PageSource FrameStep MemIface X86Paging Paging PagingInv.

Abbreviation di := jlos_paging_get_page_dir_index (only parsing).
Abbreviation ti := jlos_paging_get_page_table_index (only parsing).

(** ** References *)

Section refs.
Variable cpu : Z.

(** A reference that no page needs can go. *)
Lemma drop_owed w pa : pg_inv cpu w -> 0 <= pa < 2 ^ 32 -> pa mod 4096 = 0 -> owed w pa ->
  exists p', jlos_page_frame_refcount_dec (w_pfa w) cpu pa = Some p' /\ pg_inv cpu (set_pfa w p') /\ same_shape (w_pfa w) p' /\
    (forall y, 0 <= y < s_total_frames (w_pfa w) -> pa = frame_addr (w_pfa w) y -> occupied (pgt p' y) = negb (pg_refcount (pgt (w_pfa w) y) =? 1) /\
       (pg_refcount (pgt (w_pfa w) y) <> 1 -> pg_refcount (pgt p' y) = pg_refcount (pgt (w_pfa w) y) - 1)) /\
    forall y, 0 <= y -> pa <> frame_addr (w_pfa w) y \/ s_total_frames (w_pfa w) <= y ->
      occupied (pgt p' y) = occupied (pgt (w_pfa w) y) /\ (occupied (pgt (w_pfa w) y) = true -> same_page (pgt p' y) (pgt (w_pfa w) y)).
Proof.
  intros HI Hr Ha Ho. pose proof (gi_pfa _ _ HI) as Hd. destruct (frame_outside (w_pfa w) pa Hd Hr Ha) as [Hout|(x & Hx & Ex)].
  { exists (w_pfa w). rewrite refcount_dec_outside by done. split_and!; try done; [by destruct w|]. intros y Hy E.
    destruct (frame_number (w_pfa w) y Hd Hy) as (En & _). rewrite <- E in En. lia. }
  destruct (Ho x Hx Ex) as (Hox & Hlt & Hnt). pose proof (refs_nonneg (abs w) pa). rewrite Ex in *.
  destruct (refcount_dec_step (w_pfa w) x Hd Hx cpu (gi_cpu _ _ HI) Hox ltac:(lia)) as (p' & -> & Hst & H1 & H2). pose proof Hst as (_ & Hsh & Hother).
  exists p'. split_and!; [done| |done| |].
  - apply (inv_pstep cpu w p' x); [done|done|lia|done|]. intros Hpos. rewrite H1, H2 by lia. split; [apply negb_true_iff, Z.eqb_neq; lia|lia].
  - intros y Hy E. assert (y = x) as ->; [|done]. destruct (frame_number (w_pfa w) y Hd Hy) as (En & _), (frame_number (w_pfa w) x Hd Hx) as (En' & _). congruence.
  - intros y Hy Hne. apply Hother; [done|]. intros ->. destruct Hne; [done|lia].
Qed.

(** A mapped frame can be referenced once more, for another page. *)
Lemma inc_owed w k e : pg_inv cpu w -> abs w !! k = Some e ->
  (forall x, 0 <= x < s_total_frames (w_pfa w) -> pframe e = frame_addr (w_pfa w) x -> pg_refcount (pgt (w_pfa w) x) < 255) ->
  exists p', jlos_page_frame_refcount_inc (w_pfa w) (pframe e) = Some p' /\ pg_inv cpu (set_pfa w p') /\ same_shape (w_pfa w) p' /\
    owed (set_pfa w p') (pframe e) /\
    forall y, 0 <= y -> pframe e <> frame_addr (w_pfa w) y \/ s_total_frames (w_pfa w) <= y ->
      occupied (pgt p' y) = occupied (pgt (w_pfa w) y) /\ (occupied (pgt (w_pfa w) y) = true -> same_page (pgt p' y) (pgt (w_pfa w) y)).
Proof.
  intros HI Hk Hlim. pose proof (gi_pfa _ _ HI) as Hd. destruct (pframe_range e) as [Hr Ha].
  destruct (frame_outside (w_pfa w) (pframe e) Hd Hr Ha) as [Hout|(x & Hx & Ex)].
  { exists (w_pfa w). rewrite refcount_inc_outside by done. split_and!; try done; [by destruct w|]. intros y Hy E.
    cbn [w_pfa set_pfa] in *. destruct (frame_number (w_pfa w) y Hd Hy) as (En & _). rewrite <- E in En. lia. }
  pose proof (refs_pos (abs w) k e Hk) as Hpos. destruct (gi_data _ _ HI x Hx) as (Ho & Hle & Hnt); [by rewrite <- Ex|].
  specialize (Hlim x Hx Ex). rewrite Ex in *.
  destruct (refcount_inc_step (w_pfa w) x Hd Hx Ho ltac:(lia)) as (p' & -> & Hst & Ep). pose proof Hst as (_ & Hsh & Hother).
  assert (occupied (pgt p' x) = true) as Ho' by (rewrite Ep; exact Ho).
  assert (pg_refcount (pgt p' x) = pg_refcount (pgt (w_pfa w) x) + 1) as Er by (by rewrite Ep).
  exists p'. split_and!; [done| |done| |].
  - apply (inv_pstep cpu w p' x); [done|done|lia|done|]. intros _. rewrite Er. split; [done|lia].
  - intros y Hy E. cbn [w_pfa set_pfa] in *. rewrite (shape_addr _ _ y Hsh) in E. destruct Hsh as (Et & Es & Ec). rewrite Et in Hy.
    assert (y = x) as -> by (destruct (frame_number (w_pfa w) y Hd Hy) as (En & _), (frame_number (w_pfa w) x Hd Hx) as (En' & _); congruence).
    rewrite abs_pfa, Er. split; [done|]. split; [lia|]. rewrite (shape_page (w_pfa w) p' x); [exact Hnt|by split_and!].
  - intros y Hy Hne. apply Hother; [done|]. intros ->. destruct Hne; [done|lia].
Qed.
End refs.

(** ** Protections *)

Definition ro (e : Z) : Z := Z.land e (not32 PTE_WRITABLE).

Lemma ro_bits e : pframe (ro e) = pframe e /\ has (ro e) PTE_PRESENT = has e PTE_PRESENT /\ has (ro e) PTE_WRITABLE = false /\ has (ro e) PTE_USER = has e PTE_USER.
Proof.
  unfold ro. rewrite !has_land. change (Z.land (not32 PTE_WRITABLE) PTE_PRESENT) with PTE_PRESENT.
  change (Z.land (not32 PTE_WRITABLE) PTE_WRITABLE) with 0. change (Z.land (not32 PTE_WRITABLE) PTE_USER) with PTE_USER. rewrite has_0.
  split_and!; try done. unfold pframe. by rewrite <- Z.land_assoc.
Qed.

(** The protection that is read from an entry. *)
Lemma prot_of_bits e : has (prot_of e) PG_WRITE = has e PTE_WRITABLE /\ has (prot_of e) PG_USER = has e PTE_USER.
Proof. unfold prot_of. destruct (has e PTE_WRITABLE), (has e PTE_USER), (has e PTE_GLOBAL), (has e PTE_NX); done. Qed.

(** The entry of a shared page. *)
Definition shared (e : Z) : Z := entry_of (pframe e) (Z.land (prot_of e) (not32 PG_WRITE)).
Lemma shared_bits e : pframe (shared e) = pframe e /\ has (shared e) PTE_PRESENT = true /\ has (shared e) PTE_WRITABLE = false /\
  has (shared e) PTE_USER = has e PTE_USER.
Proof.
  unfold shared. destruct (new_entry (pframe e) (Z.land (prot_of e) (not32 PG_WRITE))) as (H1 & H2 & H3 & H4). fold (entry_of (pframe e) (Z.land (prot_of e) (not32 PG_WRITE))) in *.
  rewrite H1, H2, H3, H4, pframe_pframe, !has_land. change (Z.land (not32 PG_WRITE) PG_WRITE) with 0.
  change (Z.land (not32 PG_WRITE) PG_USER) with PG_USER. rewrite has_0. destruct (prot_of_bits e) as [_ ->]. done.
Qed.

(** The entry after its flags changed. *)
Definition reflag (e prot : Z) : Z := Z.lor (Z.lor (Z.land e ADDR_MASK) (pte_prot prot)) (Z.land e PTE_KEEP).
Lemma reflag_bits e prot : pframe (reflag e prot) = pframe e /\ has (reflag e prot) PTE_PRESENT = true /\
  has (reflag e prot) PTE_WRITABLE = has prot PG_WRITE /\ has (reflag e prot) PTE_USER = has prot PG_USER.
Proof.
  unfold reflag. destruct (new_entry e prot) as (H1 & H2 & H3 & H4). rewrite !(has_lor _ (Z.land e PTE_KEEP)), H2, H3, H4, !has_land.
  change (Z.land PTE_KEEP PTE_WRITABLE) with 0. change (Z.land PTE_KEEP PTE_USER) with 0. rewrite !has_0, ?orb_false_r. split_and!; try done.
  unfold pframe at 1. rewrite Z.land_lor_distr_l, <- Z.land_assoc. change (Z.land PTE_KEEP ADDR_MASK) with 0. rewrite Z.land_0_r, Z.lor_0_r. exact H1.
Qed.

(** ** Operations on one entry *)

Section ops.
Variable cpu : Z.

Definition quiet (w w' : pworld) : Prop :=
  w_pfa w' = w_pfa w /\ (forall pl a, table_at w' pl a <-> table_at w pl a) /\ forall a, (forall pl, ~ table_at w pl a) -> w_mem w' !! a = w_mem w !! a.

Lemma quiet_trans w w1 w2 : quiet w w1 -> quiet w1 w2 -> quiet w w2.
Proof.
  intros (A1 & A2 & A3) (B1 & B2 & B3). split_and!; [congruence|intros; by rewrite B2, A2|]. intros a Ha. rewrite B3, A3; [done..|].
  intros pl. rewrite A2. apply Ha.
Qed.

Lemma make_ro_spec w ctx va e : pg_inv cpu w -> page_ok va -> abs w !! (ctx, va) = Some e ->
  exists w', jlos_arch_pte_make_ro w ctx va = Some w' /\ changes cpu w w' (<[(ctx, va) := ro e]> (abs w)) (fun _ => False) /\ quiet w w'.
Proof.
  intros HI Hp Hk. destruct (mapped_walk cpu w ctx va e HI Hp Hk) as (t & E & Ht & El & Ep). destruct (ro_bits e) as (B1 & B2 & _).
  unfold jlos_arch_pte_make_ro. rewrite E. cbn [mbind option_bind]. rewrite El. cbn [mbind option_bind].
  destruct (store_entry cpu w ctx va t e (ro e) HI Hp Ht Hk) as (w' & E' & Hch & H1 & H2 & H3); [by rewrite B2|by left|].
  exists w'. split; [exact E'|]. split; [done|]. split_and!; [done|done|]. intros a Ha. apply H3. intros ->. by apply (Ha (ctx, Some (di va))).
Qed.

Lemma replace_spec w ctx va e pa prot : pg_inv cpu w -> page_ok va -> abs w !! (ctx, va) = Some e ->
  0 <= pa < 2 ^ 32 -> pa mod 4096 = 0 -> owed w pa ->
  exists w', jlos_arch_pte_replace w ctx va pa prot = Some (w', true) /\ changes cpu w w' (<[(ctx, va) := entry_of pa prot]> (abs w)) (fun _ => False) /\ quiet w w'.
Proof.
  intros HI Hp Hk Hpa Hal Ho. destruct (mapped_walk cpu w ctx va e HI Hp Hk) as (t & E & Ht & El & Ep).
  destruct (new_entry pa prot) as (B1 & B2 & _). fold (entry_of pa prot) in B1, B2. rewrite (pframe_id pa) in B1 by done.
  unfold jlos_arch_pte_replace. rewrite E. cbn [mbind option_bind]. rewrite El. cbn [mbind option_bind]. rewrite Ep. cbn [negb].
  destruct (store_entry cpu w ctx va t e (entry_of pa prot) HI Hp Ht Hk) as (w' & E' & Hch & H1 & H2 & H3); [done|right; by rewrite B1|].
  exists w'. fold (entry_of pa prot). rewrite E'. split; [done|]. split; [done|]. split_and!; [done|done|]. intros a Ha. apply H3. intros ->. by apply (Ha (ctx, Some (di va))).
Qed.

(** Giving user access to a directory entry. *)
Lemma user_dir_spec w ctx c i pde : pg_inv cpu w -> w_ctxs w !! ctx = Some c -> pc_root c <> 0 -> 0 <= i < 768 -> load w (pc_root c) i = Some pde ->
  exists w', store w (pc_root c) i (Z.lor pde PTE_USER) = Some w' /\ changes cpu w w' (abs w) (fun _ => False) /\ quiet w w'.
Proof.
  intros HI Hc Hr Hi Hpde. destruct (dir_entry cpu w ctx c i HI Hc Hr ltac:(lia)) as (l & pde0 & Hl & Hlen & E0). rewrite Hpde in E0. injection E0 as <-.
  rewrite (store_mem w _ l) by (done || lia). set (w' := set_mem w _). exists w'. split; [done|]. set (v := Z.lor pde PTE_USER) in *.
  assert (has v PTE_PRESENT = has pde PTE_PRESENT /\ has v PDE_PS = has pde PDE_PS /\ pframe v = pframe pde) as (V1 & V2 & V3).
  { unfold v. rewrite !has_lor. change (has PTE_USER PTE_PRESENT) with false. change (has PTE_USER PDE_PS) with false. rewrite !orb_false_r.
    split_and!; [done..|]. unfold pframe. rewrite Z.land_lor_distr_l. change (Z.land PTE_USER ADDR_MASK) with 0. by rewrite Z.lor_0_r. }
  assert (forall t j, load w' t j = if decide (t = pc_root c /\ j = i) then Some v else load w t j) as Hld by (intros; apply load_stored; [done|lia]).
  assert (forall pl a, table_at w' pl a <-> table_at w pl a) as Htabs.
  { intros [cx [j|]] a; unfold table_at; cbn [fst snd]; [|done].
    split; intros (c0 & Hc0 & Hr0 & Hj & pde0 & H0 & Hp0 & ->); exists c0; (split; [done|]); (split; [done|]); (split; [done|]).
    - rewrite Hld in H0. case_decide as E; [|by exists pde0]. destruct E as [E ->]. injection H0 as <-. exists pde. rewrite E. rewrite V3. split_and!; [done|congruence|done].
    - destruct (decide (pc_root c0 = pc_root c /\ j = i)) as [[E ->]|E]; [|exists pde0; by rewrite Hld, decide_False].
      exists v. rewrite Hld, decide_True by done. rewrite E, Hpde in H0. injection H0 as <-. rewrite V1, V3. done. }
  assert (forall cx vx, page_ok vx -> lookup_pte w' cx vx = lookup_pte w cx vx) as Hlk.
  { intros cx vx Hvx. destruct (w_ctxs w !! cx) as [c0|] eqn:Hc0.
    2: { unfold lookup_pte, pte_walk. change (w_ctxs w') with (w_ctxs w). rewrite Hc0. by destruct (cx =? 0). }
    assert (pte_walk w' cx vx = pte_walk w cx vx) as E.
    { unfold pte_walk. destruct (cx =? 0); [done|]. change (w_ctxs w') with (w_ctxs w). rewrite Hc0. cbn [mbind option_bind].
      destruct (pc_root c0 =? 0); [done|]. rewrite Hld. case_decide as E; [|done]. destruct E as [-> ->]. rewrite Hpde. cbn [mbind option_bind].
      fold (pframe v) (pframe pde). by rewrite V1, V2, V3. }
    unfold lookup_pte. rewrite E. destruct (pte_walk_spec cpu w cx c0 vx HI Hc0 Hvx) as [(t & -> & Ht)|[-> _]]; [|done].
    rewrite Hld, decide_False; [done|]. intros [Et _]. assert (table_at w (ctx, None) t) as H2 by (by exists c). pose proof (gi_inj _ _ HI _ _ _ Ht H2). done. }
  assert (abs w' = abs w) as Eabs by (by apply abs_ext).
  assert (w_mem w' = <[pc_root c := <[Z.to_nat i := v]> l]> (w_mem w)) as Emem by done. assert (w_pfa w' = w_pfa w) as Epf by done.
  split; [|split_and!; [done|done|]].
  - split; try done; [|by intros pl x _ Hx%Htabs; left; exists pl|by intros pl x _ Hx; left; apply Htabs|].
    2: { intros a [Hna _]. rewrite Emem, lookup_insert_ne; [done|]. intros <-. apply (Hna (ctx, None)). by exists c. }
    split; rewrite ?Emem, ?Epf; try by apply HI.
    + intros b l'. rewrite lookup_insert. case_decide; [|by apply (gi_words _ _ HI)]. intros [= <-]. by rewrite length_insert.
    + intros pl b Hb%Htabs. destruct (gi_tab _ _ HI pl b Hb) as (y & l' & H1 & H2 & H3 & H4). destruct (decide (b = pc_root c)) as [E|E].
      * exists y, (<[Z.to_nat i := v]> l). rewrite E, lookup_insert_eq. split; [congruence|]. split; [done|]. split; [done|].
        assert (table_at w (ctx, None) b) as Hb' by (by exists c). pose proof (gi_inj _ _ HI _ _ _ Hb Hb') as ->. by intros [? ?].
      * exists y, l'. by rewrite lookup_insert_ne.
    + intros pl pl' b Hb%Htabs Hb'%Htabs. by eapply (gi_inj _ _ HI).
    + intros cx c0 j pde0 Hc0 Hr0 Hj H0 Hp0. rewrite Hld in H0. case_decide as E; [|by eapply (gi_small _ _ HI cx c0 j)].
      destruct E as [E ->]. injection H0 as <-. rewrite V2. apply (gi_small _ _ HI ctx c i); [done..|]. by rewrite <- V1.
    + intros y Hy. rewrite Eabs. intros Hry. destruct (gi_data _ _ HI y Hy Hry) as (H1 & H2 & H3). split; [done|]. split; [done|]. intros pl Hpl%Htabs. by apply (H3 pl).
  - intros a Ha. rewrite Emem, lookup_insert_ne; [done|]. intros <-. apply (Ha (ctx, None)). by exists c.
Qed.

(** Changes one after the other, the second without an effect on frames. *)
Lemma changes_quiet w w1 w2 M M' named : changes cpu w w1 M named -> changes cpu w1 w2 M' (fun _ => False) -> quiet w1 w2 -> changes cpu w w2 M' named.
Proof.
  intros [A1 A2 A3 A4 As A5 A6 A7 A8] [B1 B2 B3 B4 Bs B5 B6 B7 B8] (Q1 & Q2 & Q3).
  split; [done|done|intros k; by rewrite B3, A3|congruence|by rewrite Q1|..].
  - intros pl x Hx Ht%Q2. by apply A5 in Ht.
  - intros pl x Hx Ht. destruct (A6 pl x Hx Ht) as [?|?]; [left; by apply Q2|by right].
  - intros y Hy Hnt Hnn. rewrite Q1. apply A7; [done| |done]. intros pl Ht. by apply (Hnt pl), Q2.
  - intros a Ha. rewrite Q3, A8; [done..|]. intros pl Ht. destruct Ha as [Hna Ho]. destruct (gi_tab _ _ A1 pl a Ht) as (x & _ & -> & [Hx _] & _).
    pose proof As as (Et & _). rewrite Et in Hx. rewrite (shape_page _ _ x As) in *. destruct (A5 pl x ltac:(lia) Ht) as [[pl' ?]|E]; [by apply (Hna pl')|].
    rewrite (Ho x Hx eq_refl) in E. done.
Qed.

Lemma change_flags_spec w ctx va e prot : pg_inv cpu w -> page_ok va -> abs w !! (ctx, va) = Some e ->
  exists w', jlos_arch_change_flags_entry w ctx va prot = Some w' /\ changes cpu w w' (<[(ctx, va) := reflag e prot]> (abs w)) (fun _ => False) /\ quiet w w'.
Proof.
  intros HI Hp Hk. destruct (mapped_walk cpu w ctx va e HI Hp Hk) as (t & _ & Ht & El & Ep). destruct (page_index va Hp) as (_ & _ & Hdi & _).
  pose proof Ht as (c & Hc & Hr & _ & pde & Hpde & Hpp & Et). simpl in Hc, Hpde. unfold jlos_arch_change_flags_entry.
  destruct (Z.eqb_spec ctx 0) as [->|_]; [by rewrite (gi_null _ _ HI) in Hc|]. rewrite Hc. cbn [mbind option_bind].
  destruct (Z.eqb_spec (pc_root c) 0); [done|]. rewrite Hpde. cbn [mbind option_bind]. rewrite Hpp, (gi_small _ _ HI ctx c (di va) pde) by done. cbn [negb].
  cbv zeta. fold (pframe pde). rewrite <- Et, El. cbn [mbind option_bind]. rewrite Ep. cbn [negb]. fold (reflag e prot).
  destruct (reflag_bits e prot) as (B1 & B2 & _).
  destruct (store_entry cpu w ctx va t e (reflag e prot) HI Hp Ht Hk B2) as (w1 & -> & Hch & H1 & H2 & H3); [by left|]. cbn [mbind option_bind].
  assert (quiet w w1) as Hq by (split_and!; [done|done|]; intros a Ha; apply H3; intros ->; by apply (Ha (ctx, Some (di va)))).
  destruct (has prot PG_USER); [|by exists w1].
  pose proof (ch_inv _ _ _ _ _ Hch) as HI1. assert (is_Some (w_ctxs w1 !! ctx)) as [c1 Hc1] by (apply (ch_ctx _ _ _ _ _ Hch); by exists c).
  assert (table_at w1 (ctx, None) (pc_root c)) as (c1' & Hc1' & Hr1 & Er) by (apply H2; by exists c). simpl in Hc1'. rewrite Hc1 in Hc1'. injection Hc1' as <-.
  destruct (dir_entry cpu w1 ctx c1 (di va) HI1 Hc1 Hr1 ltac:(lia)) as (l1 & pde1 & _ & _ & Hpde1). rewrite Er. rewrite Hpde1. cbn [mbind option_bind].
  destruct (user_dir_spec w1 ctx c1 (di va) pde1 HI1 Hc1 Hr1 Hdi Hpde1) as (w2 & -> & Hch2 & Hq2).
  exists w2. split; [done|]. split; [|by eapply quiet_trans]. rewrite (ch_abs _ _ _ _ _ Hch) in Hch2. by eapply changes_quiet.
Qed.

(** ** Counting pages *)

Definition count (P : (Z * Z) * Z -> Prop) `{!forall kv, Decision (P kv)} (M : gmap (Z * Z) Z) : Z := Z.of_nat (size (filter P M)).

Lemma count_insert P `{!forall kv, Decision (P kv)} M k v : M !! k = None -> count P (<[k := v]> M) = count P M + (if decide (P (k, v)) then 1 else 0).
Proof.
  intros Hk. unfold count. case_decide as E.
  - rewrite map_filter_insert_True by done. rewrite map_size_insert_None; [lia|]. apply map_lookup_filter_None. by left.
  - rewrite map_filter_insert_False by done. rewrite delete_id by done. lia.
Qed.
Lemma count_replace P `{!forall kv, Decision (P kv)} M k v v' : M !! k = Some v ->
  count P (<[k := v']> M) = count P M - (if decide (P (k, v)) then 1 else 0) + (if decide (P (k, v')) then 1 else 0).
Proof.
  intros Hk. rewrite <- (insert_delete_eq M k v'), count_insert by apply lookup_delete_eq.
  rewrite <- (insert_delete_id M k v Hk) at 2. rewrite count_insert by apply lookup_delete_eq. lia.
Qed.
Lemma count_sub P Q `{!forall kv, Decision (P kv)} `{!forall kv, Decision (Q kv)} M : (forall kv, P kv -> Q kv) -> count P M <= count Q M.
Proof.
  intros Hi. unfold count. apply Nat2Z.inj_le, map_subseteq_size. apply map_subseteq_spec. intros k v. rewrite !map_lookup_filter_Some. naive_solver.
Qed.
Lemma count_sub_one P Q `{!forall kv, Decision (P kv)} `{!forall kv, Decision (Q kv)} M k v :
  (forall kv, P kv -> Q kv) -> M !! k = Some v -> Q (k, v) -> ~ P (k, v) -> count P M + 1 <= count Q M.
Proof.
  intros Hi Hk HQ HP. rewrite <- (insert_delete_id M k v Hk). rewrite !count_insert by apply lookup_delete_eq.
  rewrite decide_False, decide_True by done. pose proof (count_sub P Q (delete k M) Hi). lia.
Qed.

(** The pages of one table. *)
Definition in_table (ctx i : Z) (kv : (Z * Z) * Z) : Prop := kv.1.1 = ctx /\ di kv.1.2 = i.
#[export] Instance in_table_dec ctx i kv : Decision (in_table ctx i kv).
Proof. unfold in_table. apply _. Defined.

Lemma length_filter_imap (f : nat -> Z -> Z * Z) l : (forall j e, (f j e).2 = e) ->
  length (filter (fun p => has p.2 PTE_PRESENT = true) (imap f l)) = length (filter (fun e => has e PTE_PRESENT = true) l).
Proof.
  revert f. induction l as [|e l IH]; intros f Hf; [done|]. rewrite imap_cons, !filter_cons, Hf.
  case_decide; cbn [length]; rewrite (IH (f ∘ S)); done || (intros j e'; apply Hf).
Qed.
Lemma NoDup_imap_pair (l : list Z) : NoDup (imap (fun j e => (Z.of_nat j, e)) l).
Proof.
  apply NoDup_alt. intros i j x. rewrite !list_lookup_imap. destruct (l !! i), (l !! j); simpl; intros [= <-] [= E]; lia || done.
Qed.

(** Page [j] of table [i]. *)
Definition page_at (i j : Z) : Z := i * 2 ^ 22 + j * 4096.
Lemma page_at_spec i j : 0 <= i < 768 -> 0 <= j < 1024 -> page_ok (page_at i j) /\ di (page_at i j) = i /\ ti (page_at i j) = j.
Proof.
  intros Hi Hj. assert (page_ok (page_at i j)) as Hp.
  { unfold page_ok, page_at. change (2 ^ 22) with (1024 * 4096). split; [lia|]. rewrite Z.mul_assoc, <- Z.mul_add_distr_r. apply Z.mod_mul. lia. }
  split; [done|]. destruct (page_index _ Hp) as (-> & -> & _). unfold page_at. change (2 ^ 22) with 4194304. split.
  - rewrite Z.add_comm, Z.div_add, Z.div_small; lia.
  - replace (i * 4194304 + j * 4096) with ((j + i * 1024) * 4096) by lia. rewrite Z.div_mul, Z.mod_add, Z.mod_small; lia.
Qed.

(** The present count of a table is the number of its pages in the map. *)
Lemma table_count w ctx i t l : pg_inv cpu w -> table_at w (ctx, Some i) t -> w_mem w !! t = Some l ->
  present_count l = count (in_table ctx i) (abs w).
Proof.
  intros HI Ht Hl. pose proof (gi_words _ _ HI _ _ Hl) as Hlen. pose proof Ht as (_ & _ & _ & Hi & _).
  set (I := imap (fun j e => (Z.of_nat j, e)) l).
  set (K := (fun p => (ctx, page_at i p.1)) <$> filter (fun p => has p.2 PTE_PRESENT = true) I).
  assert (present_count l = Z.of_nat (length K)) as ->.
  { unfold present_count, K, I. rewrite length_fmap. f_equal. symmetry. by apply length_filter_imap. }
  assert (forall p, p ∈ I -> 0 <= p.1 < 1024 /\ geti l p.1 = Some p.2) as HI'.
  { intros p (j & e & -> & Hj)%elem_of_lookup_imap. simpl. pose proof (lookup_lt_Some _ _ _ Hj). split; [lia|]. unfold geti.
    destruct (Z.ltb_spec (Z.of_nat j) 0); [lia|]. by rewrite Nat2Z.id. }
  assert (NoDup K) as HK.
  { apply NoDup_fmap_2_strong; [|apply NoDup_filter, NoDup_imap_pair]. intros p q [_ Hp]%list_elem_of_filter [_ Hq]%list_elem_of_filter [= E].
    destruct (HI' p Hp) as [Hr1 G1], (HI' q Hq) as [Hr2 G2]. destruct p as [j e], q as [j' e']. simpl in *. unfold page_at in E.
    assert (j = j') as -> by lia. f_equal. congruence. }
  unfold count. f_equal. rewrite <- size_dom, <- (size_list_to_set (C := gset (Z * Z)) K HK). f_equal. apply set_eq. intros [c v].
  rewrite elem_of_list_to_set, elem_of_dom. unfold is_Some. setoid_rewrite map_lookup_filter_Some. unfold in_table. cbn [fst snd].
  unfold K. rewrite list_elem_of_fmap. split.
  - intros ([j e] & [= -> ->] & [Hp Hin]%list_elem_of_filter). destruct (HI' _ Hin) as [Hj Hg]. simpl in *.
    destruct (page_at_spec i j Hi Hj) as (Hok & Ed & Et). exists e. split; [|done]. rewrite abs_lookup, decide_True by done.
    rewrite (lookup_at cpu w ctx _ t) by (done || by rewrite Ed). rewrite Et, (load_mem w t l), Hg by done. simpl. by rewrite Hp.
  - intros (e & He & -> & Ed). rewrite abs_lookup in He. case_decide as Hv; [|done]. destruct (page_index v Hv) as (_ & _ & _ & Hti).
    rewrite (lookup_at cpu w ctx v t) in He by (done || by rewrite Ed). rewrite (load_mem w t l) in He by done.
    destruct (geti l (ti v)) as [e'|] eqn:Eg; [|done]. simpl in He. destruct (has e' PTE_PRESENT) eqn:Ep; [|done]. injection He as ->.
    exists (ti v, e). split.
    + f_equal. simpl. destruct (page_at_spec i (ti v) Hi Hti) as (Hok & Ed' & Et'). apply page_index_inj; [done|done|congruence|congruence].
    + apply list_elem_of_filter. split; [done|]. unfold I. apply elem_of_lookup_imap. exists (Z.to_nat (ti v)), e. unfold geti in Eg.
      destruct (Z.ltb_spec (ti v) 0); [done|]. split; [f_equal; lia|done].
Qed.

Lemma room_count w ctx va : pg_inv cpu w -> count (in_table ctx (di va)) (abs w) < 255 -> table_room w ctx va.
Proof. intros HI Hc t l Ht Hl. by rewrite (table_count w ctx (di va) t l). Qed.

(** ** Copy on write *)

Definition managed (w : pworld) (a : Z) : Prop := exists x, 0 <= x < s_total_frames (w_pfa w) /\ a = frame_addr (w_pfa w) x.

(** No frame of the allocator can be written through one page and seen through
    another. *)
Definition isolated (w : pworld) : Prop :=
  forall k k' e e', k <> k' -> abs w !! k = Some e -> abs w !! k' = Some e' -> pframe e = pframe e' -> managed w (pframe e) ->
    has e PTE_WRITABLE = false.

Lemma managed_shape w w' a : same_shape (w_pfa w) (w_pfa w') -> managed w' a <-> managed w a.
Proof. intros H. pose proof H as (Et & _). unfold managed. rewrite Et. setoid_rewrite (shape_addr _ _ _ H). done. Qed.

(** Contexts, processors, the frames as such and the data in memory stay. *)
Record same_system (w w' : pworld) : Prop := {
  ss_ctx k : is_Some (w_ctxs w' !! k) <-> is_Some (w_ctxs w !! k);
  ss_act : w_active w' = w_active w;
  ss_shape : same_shape (w_pfa w) (w_pfa w');
  ss_data a : data_page w a -> data_page w' a /\ w_mem w' !! a = w_mem w !! a
}.
Lemma same_system_refl w : same_system w w.
Proof. by split. Qed.
Lemma same_system_trans w w1 w2 : same_system w w1 -> same_system w1 w2 -> same_system w w2.
Proof.
  intros [A1 A2 A3 A4] [B1 B2 B3 B4]. split; [intros k; by rewrite B1, A1|congruence|by eapply same_shape_trans|].
  intros a Ha. destruct (A4 a Ha) as [Ha1 E1]. destruct (B4 a Ha1) as [? ?]. split; [done|congruence].
Qed.
Lemma changes_system w w' M : changes cpu w w' M (fun _ => False) -> same_system w w'.
Proof.
  intros [A1 A2 A3 A4 As A5 A6 A7 A8]. split; [done..|]. intros a Ha. split; [|by apply A8]. revert Ha. apply (data_step cpu); [done|done|done|].
  intros y Hy Hnt _. apply A7; [done|done|by intros []].
Qed.
(** Another record for frames that stay allocated. *)
Lemma pfa_system w p' : same_shape (w_pfa w) p' ->
  (forall y, 0 <= y < s_total_frames (w_pfa w) -> occupied (pgt (w_pfa w) y) = true -> occupied (pgt p' y) = true) -> same_system w (set_pfa w p').
Proof.
  intros Hsh Ho. split; [done..|]. intros a [Hnt Ha]. split; [|done]. pose proof Hsh as (Et & _). split; [done|]. cbn [w_pfa set_pfa]. intros x Hx E.
  rewrite (shape_page _ _ x Hsh) in E. rewrite Et in Hx. by apply Ho; [|apply Ha].
Qed.

(** What a page shows: the words of its frame. *)
Definition page_view (w : pworld) (ctx va : Z) : option (list Z) := e ← abs w !! (ctx, va); w_mem w !! phys_to_virt (pframe e).

(** The frames of pages hold data. *)
Lemma phys_to_virt_inj a b : 0 <= a < 2 ^ 32 -> 0 <= b < 2 ^ 32 -> phys_to_virt a = phys_to_virt b -> a = b.
Proof. intros Ha Hb E. apply (f_equal virt_to_phys) in E. by rewrite !phys_virt in E by done. Qed.
Lemma frame_page w e x : pg_inv cpu w -> 0 <= x < s_total_frames (w_pfa w) -> phys_to_virt (pframe e) = page_of (w_pfa w) x -> pframe e = frame_addr (w_pfa w) x.
Proof.
  intros HI Hx E. destruct (page_of_virt (w_pfa w) x (gi_pfa _ _ HI) Hx) as (_ & <- & _). rewrite <- E. symmetry. apply phys_virt, pframe_range.
Qed.
Lemma mapped_data w k e : pg_inv cpu w -> abs w !! k = Some e -> data_page w (phys_to_virt (pframe e)).
Proof.
  intros HI Hk. assert (forall x, 0 <= x < s_total_frames (w_pfa w) -> phys_to_virt (pframe e) = page_of (w_pfa w) x ->
    occupied (pgt (w_pfa w) x) = true /\ forall pl, ~ table_at w pl (page_of (w_pfa w) x)) as H.
  { intros x Hx E%frame_page; [|done..]. destruct (gi_data _ _ HI x Hx) as (? & _ & ?); [|done]. rewrite <- E. by eapply refs_pos. }
  split; [|intros x Hx E; by apply H]. intros pl Ht. destruct (gi_tab _ _ HI pl _ Ht) as (x & _ & E & [Hx _] & _).
  destruct (H x Hx E) as [_ Hn]. rewrite E in Ht. by apply (Hn pl).
Qed.
(** A page that keeps its frame shows what it did. *)
Lemma page_view_same w w' ctx va e e' : pg_inv cpu w -> same_system w w' -> abs w !! (ctx, va) = Some e -> abs w' !! (ctx, va) = Some e' -> pframe e' = pframe e ->
  page_view w' ctx va = page_view w ctx va.
Proof.
  intros HI Hss He He' Ef. unfold page_view. rewrite He, He'. cbn [mbind option_bind]. rewrite Ef. eapply ss_data; [done|]. by eapply mapped_data.
Qed.

(** The references of mapped frames. *)
Definition mapped_refs (w w' : pworld) (extra : Z -> Z) : Prop :=
  forall y, 0 <= y < s_total_frames (w_pfa w) -> 0 < refs (abs w) (frame_addr (w_pfa w) y) ->
    occupied (pgt (w_pfa w') y) = true /\
    pg_refcount (pgt (w_pfa w') y) = pg_refcount (pgt (w_pfa w) y) + extra (frame_addr (w_pfa w) y).

(** A mapped frame is not touched by a change that does not name it. *)
Lemma changes_frame w w' M y : pg_inv cpu w -> changes cpu w w' M (fun _ => False) -> 0 <= y ->
  occupied (pgt (w_pfa w) y) = true -> (forall pl, ~ table_at w pl (page_of (w_pfa w) y)) ->
  same_page (pgt (w_pfa w') y) (pgt (w_pfa w) y) /\ (forall pl, ~ table_at w' pl (page_of (w_pfa w) y)).
Proof.
  intros HI Hch Hy Ho Hnt.
  assert (forall pl, ~ table_at w' pl (page_of (w_pfa w) y)) as Hnt'.
  { intros pl Ht. destruct (ch_new _ _ _ _ _ Hch pl y Hy Ht) as [[pl' Ht']|?]; [by apply (Hnt pl')|congruence]. }
  split; [|done]. destruct (ch_frames _ _ _ _ _ Hch y Hy Hnt') as [_ S]; [by intros []|]. by apply S.
Qed.

Lemma cow_page_spec w src dst va : pg_inv cpu w -> is_Some (w_ctxs w !! src) -> is_Some (w_ctxs w !! dst) -> src <> dst -> page_ok va ->
  table_room w dst va ->
  (forall e x, abs w !! (src, va) = Some e -> 0 <= x < s_total_frames (w_pfa w) -> pframe e = frame_addr (w_pfa w) x -> pg_refcount (pgt (w_pfa w) x) < 255) ->
  exists w', cow_page cpu w src dst va = Some w' /\ pg_inv cpu w' /\ same_system w w' /\
    match abs w !! (src, va) with
    | None => w' = w
    | Some e => exists b, (b = true -> abs w !! (dst, va) = None) /\ (b = false -> is_Some (abs w !! (dst, va)) \/ dry (w_pfa w') cpu) /\
        (dry (w_pfa w) cpu -> dry (w_pfa w') cpu) /\
        abs w' = <[(src, va) := ro e]> (if b : bool then <[(dst, va) := shared e]> (abs w) else abs w) /\
        mapped_refs w w' (fun a => if decide (a = pframe e) then 1 else 0)
    end.
Proof.
  intros HI Hs Hd Hne Hp Hroom Hlim. destruct (pte_reads cpu w src va HI Hs Hp) as (E1 & E2 & E3). unfold cow_page. rewrite E1, E2, E3. cbn [mbind option_bind].
  destruct (abs w !! (src, va)) as [e|] eqn:Hk; [rewrite bool_decide_true by eauto|rewrite bool_decide_false by (by intros [])]; cbn [negb].
  2: { exists w. split; [done|]. split; [done|]. split; [apply same_system_refl|done]. }
  destruct (pframe_range e) as [Hr Ha].
  destruct (inc_owed cpu w (src, va) e HI Hk) as (p1 & E & HI1 & Hsh1 & Ho1 & Hk1); [intros x; by apply Hlim|].
  unfold on_pfa. rewrite E. cbn [mbind option_bind]. set (w1 := set_pfa w p1) in *.
  destruct (map_entry_spec cpu w1 dst va (pframe e) (Z.land (prot_of e) (not32 PG_WRITE)) HI1) as (w2 & b & Emap & Hb);
    [done|done|exact Hroom|done|done|done|]. pose proof (fun H => map_dry cpu w1 dst va _ _ w2 b (gi_boot _ _ HI1) H Emap) as Hmd.
  rewrite Emap. cbn [mbind option_bind]. rewrite (abs_pfa w p1 : abs w1 = abs w) in Hb. fold (shared e) in Hb.
  set (M2 := if b then <[(dst, va) := shared e]> (abs w) else abs w).
  assert (changes cpu w1 w2 M2 (fun _ => False) /\ (b = true -> abs w !! (dst, va) = None) /\
    (b = false -> is_Some (abs w !! (dst, va)) \/ dry (w_pfa w2) cpu)) as (Hch2 & Hbn & Hbd) by (by destruct b, Hb). clear Hb.
  assert (abs w2 !! (src, va) = Some e) as Hk2.
  { rewrite (ch_abs _ _ _ _ _ Hch2). unfold M2. destruct b; [rewrite lookup_insert_ne by congruence|]; done. }
  pose proof (ch_inv _ _ _ _ _ Hch2) as HI2.
  destruct (make_ro_spec w2 src va e HI2 Hp Hk2) as (w3 & -> & Hch3 & Hq3). exists w3. split; [done|].
  split; [apply (ch_inv _ _ _ _ _ Hch3)|]. split.
  { apply (same_system_trans w w1); [apply pfa_system; [done|]; intros y Hy Hoy|].
    { destruct (decide (pframe e = frame_addr (w_pfa w) y)) as [Ey|Ey]; [|by destruct (Hk1 y ltac:(lia) ltac:(by left)) as [-> _]].
      destruct (Ho1 y) as (? & _); [pose proof Hsh1 as (Et & _); cbn [w_pfa w1 set_pfa]; rewrite Et; done|rewrite Ey; symmetry; by apply shape_addr|done]. }
    apply (same_system_trans w1 w2); by eapply changes_system. }
  exists b. split; [done|]. split; [by rewrite (proj1 Hq3)|]. split; [intros Hd0; rewrite (proj1 Hq3); apply Hmd; by eapply dry_lists; [eapply inc_lists|]|].
  split; [rewrite (ch_abs _ _ _ _ _ Hch3), (ch_abs _ _ _ _ _ Hch2); done|].
  intros y Hy Hry. destruct (gi_data _ _ HI y Hy Hry) as (Ho & Hle & Hnt).
  assert (occupied (pgt p1 y) = true /\ pg_refcount (pgt p1 y) = pg_refcount (pgt (w_pfa w) y) + (if decide (frame_addr (w_pfa w) y = pframe e) then 1 else 0)) as [Ho1' Hr1].
  { case_decide as Ey; [|destruct (Hk1 y ltac:(lia)) as [Eo S]; [left; congruence|]; rewrite Eo, (same_page_refs _ _ (S Ho)); split; [done|lia]].
    revert E. rewrite <- Ey. destruct (refcount_inc_step (w_pfa w) y (gi_pfa _ _ HI) Hy Ho) as (p1' & E' & _ & Ep); [split; [lia|by eapply Hlim]|].
    rewrite E'. intros [= <-]. rewrite Ep. done. }
  destruct (changes_frame w1 w2 M2 y HI1 Hch2 ltac:(lia) Ho1') as [S2 Hnt2].
  { intros pl. change (w_pfa w1) with p1. rewrite (shape_page _ _ y Hsh1). apply Hnt. }
  destruct Hq3 as (-> & _). rewrite (same_occ _ _ S2), (same_page_refs _ _ S2). done.
Qed.

(** The map after one page. *)
Definition cow_map (b : bool) (src dst va e : Z) (M : gmap (Z * Z) Z) : gmap (Z * Z) Z :=
  <[(src, va) := ro e]> (if b then <[(dst, va) := shared e]> M else M).

Lemma cow_map_lookup b src dst va e M c v : src <> dst ->
  cow_map b src dst va e M !! (c, v) =
    if decide (c = src /\ v = va) then Some (ro e) else if decide (b = true /\ c = dst /\ v = va) then Some (shared e) else M !! (c, v).
Proof.
  intros Hne. unfold cow_map. rewrite lookup_insert. destruct (decide (c = src /\ v = va)) as [[-> ->]|H1]; [by rewrite decide_True|].
  rewrite decide_False by (intros [= -> ->]; tauto). destruct b; [rewrite lookup_insert|].
  - destruct (decide (true = true /\ c = dst /\ v = va)) as [(_ & -> & ->)|H2]; [by rewrite decide_True|]. rewrite decide_False; [done|]. intros [= -> ->]. tauto.
  - rewrite (decide_False (P := (false = true /\ _))); [done|]. by intros [? _].
Qed.

(** Counting over it. *)
Lemma cow_map_count P `{!forall kv, Decision (P kv)} b src dst va e M :
  src <> dst -> M !! (src, va) = Some e -> (b = true -> M !! (dst, va) = None) -> (P ((src, va), e) <-> P ((src, va), ro e)) ->
  count P (cow_map b src dst va e M) = count P M + (if decide (b = true /\ P ((dst, va), shared e)) then 1 else 0).
Proof.
  intros Hne He Hb HP. unfold cow_map. rewrite (count_replace P _ _ e).
  2: { destruct b; [rewrite lookup_insert_ne by congruence|]; done. }
  assert ((if decide (P ((src, va), e)) then 1 else 0) = (if decide (P ((src, va), ro e)) then 1 else 0)) as -> by (repeat case_decide; tauto).
  destruct b.
  - rewrite count_insert by (by apply Hb). repeat case_decide; try tauto; lia.
  - rewrite (decide_False (P := (false = true /\ _))) by (by intros [? _]). lia.
Qed.

Lemma cow_map_isolated w w' b src dst va e : isolated w -> same_system w w' -> src <> dst ->
  abs w !! (src, va) = Some e -> abs w' = cow_map b src dst va e (abs w) -> isolated w'.
Proof.
  intros Hiso Hss Hne He Habs k k' f f' Hk Hf Hf' Efr Hm. apply (managed_shape w w' _ (ss_shape _ _ Hss)) in Hm. rewrite Habs in Hf, Hf'.
  destruct k as [c v], k' as [c' v']. rewrite cow_map_lookup in Hf, Hf' by done.
  destruct (ro_bits e) as (R1 & R2 & R3 & _), (shared_bits e) as (S1 & _ & S3 & _).
  destruct (decide (c = src /\ v = va)) as [[-> ->]|H1]; [injection Hf as <-; done|].
  destruct (decide (b = true /\ c = dst /\ v = va)) as [(-> & -> & ->)|H2]; [injection Hf as <-; done|].
  destruct (decide (c' = src /\ v' = va)) as [[-> ->]|H1']; [|destruct (decide (b = true /\ c' = dst /\ v' = va)) as [(-> & -> & ->)|H2']].
  - injection Hf' as <-. eapply (Hiso (c, v) (src, va)); [congruence|done|done|congruence|done].
  - injection Hf' as <-. eapply (Hiso (c, v) (src, va)); [intros [= -> ->]; tauto|done|done|congruence|done].
  - by eapply (Hiso (c, v) (c', v')).
Qed.

(** Pages of one context from an address on, in one table, or of one frame. *)
Definition in_table_from (ctx i lo : Z) (kv : (Z * Z) * Z) : Prop := kv.1.1 = ctx /\ di kv.1.2 = i /\ lo <= kv.1.2.
#[export] Instance in_table_from_dec ctx i lo kv : Decision (in_table_from ctx i lo kv).
Proof. unfold in_table_from. apply _. Defined.
Definition of_frame_from (ctx a lo : Z) (kv : (Z * Z) * Z) : Prop := kv.1.1 = ctx /\ pframe kv.2 = a /\ lo <= kv.1.2.
#[export] Instance of_frame_from_dec ctx a lo kv : Decision (of_frame_from ctx a lo kv).
Proof. unfold of_frame_from. apply _. Defined.

(** What the counters of the allocator can hold: 255 pages in a table of the copy, 255
    references of a frame. *)
Record cow_fits (w : pworld) (src dst lo : Z) : Prop := {
  cf_tables i : count (in_table dst i) (abs w) + count (in_table_from src i lo) (abs w) <= 255;
  cf_refs y : 0 <= y < s_total_frames (w_pfa w) -> 0 < refs (abs w) (frame_addr (w_pfa w) y) ->
    pg_refcount (pgt (w_pfa w) y) + count (of_frame_from src (frame_addr (w_pfa w) y) lo) (abs w) <= 255
}.

(** What the pages of a range become: the source keeps its frame without write
    access, and the copy gets the same frame without write access, unless it has a
    page there already or there was no memory for a table. *)
Definition cow_result (no_memory : Prop) (M M' : gmap (Z * Z) Z) (src dst lo hi : Z) : Prop :=
  (forall va e, lo <= va < hi -> va mod 4096 = 0 -> M !! (src, va) = Some e ->
     M' !! (src, va) = Some (ro e) /\ (M' !! (dst, va) = Some (shared e) /\ M !! (dst, va) = None \/
       M' !! (dst, va) = M !! (dst, va) /\ (is_Some (M !! (dst, va)) \/ no_memory))) /\
  (forall c va, ~ (lo <= va < hi /\ (c = src \/ c = dst) /\ is_Some (M !! (src, va))) -> M' !! (c, va) = M !! (c, va)).

Lemma cow_fits_step w w1 src dst va b e : pg_inv cpu w -> src <> dst -> cow_fits w src dst va -> abs w !! (src, va) = Some e ->
  (b = true -> abs w !! (dst, va) = None) -> abs w1 = cow_map b src dst va e (abs w) -> same_system w w1 ->
  mapped_refs w w1 (fun a => if decide (a = pframe e) then 1 else 0) -> cow_fits w1 src dst (va + 4096).
Proof.
  intros HI Hne [Ft Fr] He Hb Habs Hss Hmr. pose proof (ss_shape _ _ Hss) as Hsh. destruct (ro_bits e) as (R1 & _), (shared_bits e) as (S1 & _). split.
  - intros i. rewrite Habs. rewrite !cow_map_count by (try done; unfold in_table, in_table_from; simpl; lia).
    rewrite (decide_False (P := (b = true /\ in_table_from _ _ _ _))) by (unfold in_table_from; simpl; naive_solver).
    specialize (Ft i). destruct (decide (di va = i)) as [Ei|Ei].
    + pose proof (count_sub_one (in_table_from src i (va + 4096)) (in_table_from src i va) (abs w) (src, va) e) as Hs.
      destruct (decide (b = true /\ in_table dst i ((dst, va), shared e))); (enough (count (in_table_from src i (va + 4096)) (abs w) + 1 <= count (in_table_from src i va) (abs w)) by lia);
        (apply Hs; [unfold in_table_from; naive_solver lia|done|unfold in_table_from; simpl; naive_solver lia|unfold in_table_from; simpl; naive_solver lia]).
    + rewrite (decide_False (P := (b = true /\ _))) by (unfold in_table; simpl; tauto). pose proof (count_sub (in_table_from src i (va + 4096)) (in_table_from src i va) (abs w)) as Hs.
      enough (count (in_table_from src i (va + 4096)) (abs w) <= count (in_table_from src i va) (abs w)) by lia. apply Hs. unfold in_table_from. naive_solver lia.
  - intros y Hy. pose proof Hsh as (Et & _). rewrite Et in Hy. rewrite (shape_addr _ _ y Hsh), Habs. intros Hry.
    assert (0 < refs (abs w) (frame_addr (w_pfa w) y)) as Hry0.
    { revert Hry. change (refs ?M ?a) with (count (fun kv => pframe kv.2 = a) M). rewrite cow_map_count by (try done; cbn [snd]; by rewrite R1).
      cbn [snd]. rewrite S1. case_decide as Hd; [|lia]. destruct Hd as [_ <-]. intros _. by apply (refs_pos (abs w) (src, va) e). }
    destruct (Hmr y Hy Hry0) as [_ Er]. rewrite Er. specialize (Fr y Hy Hry0).
    rewrite cow_map_count by (try done; unfold of_frame_from; simpl; rewrite ?R1; tauto).
    rewrite (decide_False (P := (b = true /\ of_frame_from _ _ _ _))) by (unfold of_frame_from; simpl; naive_solver). case_decide as Ey.
    + pose proof (count_sub_one (of_frame_from src (frame_addr (w_pfa w) y) (va + 4096)) (of_frame_from src (frame_addr (w_pfa w) y) va) (abs w) (src, va) e) as Hs.
      enough (count (of_frame_from src (frame_addr (w_pfa w) y) (va + 4096)) (abs w) + 1 <= count (of_frame_from src (frame_addr (w_pfa w) y) va) (abs w)) by lia.
      apply Hs; [unfold of_frame_from; naive_solver lia|done|unfold of_frame_from; simpl; naive_solver lia|unfold of_frame_from; simpl; naive_solver lia].
    + pose proof (count_sub (of_frame_from src (frame_addr (w_pfa w) y) (va + 4096)) (of_frame_from src (frame_addr (w_pfa w) y) va) (abs w)) as Hs.
      enough (count (of_frame_from src (frame_addr (w_pfa w) y) (va + 4096)) (abs w) <= count (of_frame_from src (frame_addr (w_pfa w) y) va) (abs w)) by lia.
      apply Hs. unfold of_frame_from. naive_solver lia.
Qed.

Lemma page_step lo : 0 <= lo -> lo mod 4096 = 0 -> lo + 4096 <= 0xC0000000 -> page_ok lo /\ (lo + 4096) mod 4096 = 0 /\ u32 (lo + FRAME_SIZE) = lo + 4096.
Proof.
  intros H0 Ha Hb. split; [split; [lia|done]|]. split; [by rewrite Z.add_mod, Ha|]. unfold FRAME_SIZE. apply u32_small. lia.
Qed.

Lemma cow_fits_skip w src dst lo : cow_fits w src dst lo -> cow_fits w src dst (lo + 4096).
Proof.
  intros [Ft Fr]. split.
  - intros i. specialize (Ft i).
    enough (count (in_table_from src i (lo + 4096)) (abs w) <= count (in_table_from src i lo) (abs w)) by lia. apply count_sub. unfold in_table_from. naive_solver lia.
  - intros y Hy Hr. specialize (Fr y Hy Hr).
    enough (count (of_frame_from src (frame_addr (w_pfa w) y) (lo + 4096)) (abs w) <= count (of_frame_from src (frame_addr (w_pfa w) y) lo) (abs w)) by lia.
    apply count_sub. unfold of_frame_from. naive_solver lia.
Qed.

(** A page of the source is counted. *)
Lemma cow_fits_room w src dst lo e : pg_inv cpu w -> page_ok lo -> cow_fits w src dst lo -> abs w !! (src, lo) = Some e ->
  table_room w dst lo /\ forall x, 0 <= x < s_total_frames (w_pfa w) -> pframe e = frame_addr (w_pfa w) x -> pg_refcount (pgt (w_pfa w) x) < 255.
Proof.
  intros HI Hp [Ft Fr] He. split.
  - apply room_count; [done|]. specialize (Ft (di lo)).
    pose proof (count_sub_one (fun _ => False) (in_table_from src (di lo) lo) (abs w) (src, lo) e) as Hs.
    assert (0 <= count (fun _ => False) (abs w)) by (unfold count; lia).
    enough (count (fun _ => False) (abs w) + 1 <= count (in_table_from src (di lo) lo) (abs w)) by lia.
    apply Hs; [done|done|unfold in_table_from; simpl; lia|tauto].
  - intros x Hx E. specialize (Fr x Hx). rewrite <- E in Fr. specialize (Fr ltac:(by eapply refs_pos)).
    pose proof (count_sub_one (fun _ => False) (of_frame_from src (pframe e) lo) (abs w) (src, lo) e) as Hs.
    assert (0 <= count (fun _ => False) (abs w)) by (unfold count; lia).
    enough (count (fun _ => False) (abs w) + 1 <= count (of_frame_from src (pframe e) lo) (abs w)) by lia.
    apply Hs; [done|done|unfold of_frame_from; simpl; split_and!; lia|tauto].
Qed.

(** The results of one page and of the rest. *)
Lemma cow_result_step (D : Prop) M M1 M2 src dst lo hi b e : src <> dst -> lo mod 4096 = 0 -> M !! (src, lo) = Some e -> (b = true -> M !! (dst, lo) = None) ->
  (b = false -> is_Some (M !! (dst, lo)) \/ D) ->
  M1 = cow_map b src dst lo e M -> cow_result D M1 M2 src dst (lo + 4096) hi -> lo + 4096 <= hi -> cow_result D M M2 src dst lo hi.
Proof.
  intros Hne Hal He Hb Hf -> [H1 H2] Hhi. split.
  - intros va f Hva Ha He'. destruct (decide (va = lo)) as [->|Hv].
    + simplify_eq. rewrite !H2 by (intros [? _]; lia). rewrite !cow_map_lookup by done. rewrite decide_True by done. split; [done|].
      rewrite decide_False by (intros [? _]; congruence). case_decide as Hd; [left; split; [done|by apply Hb, Hd]|right].
      split; [done|]. apply Hf. destruct b; [|done]. naive_solver.
    + assert (lo + 4096 <= va) by (Z.div_mod_to_equations; lia). destruct (H1 va f) as [G1 G2]; [lia|done| |].
      { rewrite cow_map_lookup, decide_False, decide_False by (done || naive_solver lia). done. }
      split; [done|]. rewrite cow_map_lookup, decide_False, decide_False in G2 by (done || naive_solver lia). done.
  - intros c va Hn. rewrite H2.
    + rewrite cow_map_lookup by done. rewrite !decide_False; [done|..].
      * intros (Hbt & -> & ->). apply Hn. split; [lia|]. split; [by right|]. by eexists.
      * intros [-> ->]. apply Hn. split; [lia|]. split; [by left|]. by eexists.
    + intros (Hr & Hc & Hs). apply Hn. split; [lia|]. split; [done|]. rewrite cow_map_lookup in Hs by done.
      rewrite !decide_False in Hs by naive_solver lia. done.
Qed.

Lemma cow_loop_spec src dst n : forall w lo, pg_inv cpu w -> is_Some (w_ctxs w !! src) -> is_Some (w_ctxs w !! dst) -> src <> dst ->
  0 <= lo -> lo mod 4096 = 0 -> lo + Z.of_nat n * 4096 <= 0xC0000000 -> cow_fits w src dst lo ->
  exists w', cow_loop cpu n w src dst lo = Some w' /\ pg_inv cpu w' /\ same_system w w' /\
    cow_result (dry (w_pfa w') cpu) (abs w) (abs w') src dst lo (lo + Z.of_nat n * 4096) /\ (isolated w -> isolated w') /\ (dry (w_pfa w) cpu -> dry (w_pfa w') cpu) /\
    cow_fits w' src dst (lo + Z.of_nat n * 4096).
Proof.
  induction n as [|n IH]; intros w lo HI Hs Hd Hne H0 Ha Hb Hfit.
  { exists w. split; [done|]. split; [done|]. split; [apply same_system_refl|]. split; [|by rewrite Z.add_0_r]. split; [intros; lia|done]. }
  destruct (page_step lo H0 Ha ltac:(lia)) as (Hp & Ha' & E). cbn [cow_loop].
  destruct (abs w !! (src, lo)) as [e|] eqn:He.
  - destruct (cow_fits_room w src dst lo e HI Hp Hfit He) as [Hroom Hlim].
    destruct (cow_page_spec w src dst lo HI Hs Hd Hne Hp Hroom) as (w1 & -> & HI1 & Hss & Hr); [intros e' x; rewrite He; intros [= <-]; apply Hlim|].
    rewrite He in Hr. destruct Hr as (b & Hbn & Hbd & Hdry & Habs & Hmr). fold (cow_map b src dst lo e (abs w)) in Habs. cbn [mbind option_bind]. rewrite E.
    destruct (IH w1 (lo + 4096)) as (w2 & -> & HI2 & Hss2 & Hres & Hiso2 & Hdry2 & Hfit2); [done|by apply (ss_ctx _ _ Hss)|by apply (ss_ctx _ _ Hss)|done|lia|done|lia|by apply (cow_fits_step w w1 src dst lo b e)|].
    exists w2. split; [done|]. split; [done|]. split; [by eapply same_system_trans|]. split_and!.
    + eapply cow_result_step; [done..|intros Eb; destruct (Hbd Eb); [by left|right; by apply Hdry2]|done| |lia]. by replace (lo + Z.of_nat (S n) * 4096) with (lo + 4096 + Z.of_nat n * 4096) by lia.
    + intros Hiso. apply Hiso2. by apply (cow_map_isolated w w1 b src dst lo e).
    + intros ?. by apply Hdry2, Hdry.
    + by replace (lo + Z.of_nat (S n) * 4096) with (lo + 4096 + Z.of_nat n * 4096) by lia.
  - assert (cow_page cpu w src dst lo = Some w) as ->.
    { destruct (pte_reads cpu w src lo HI Hs Hp) as (E1 & _). unfold cow_page. rewrite E1, He. cbn [mbind option_bind]. by rewrite bool_decide_false by (by intros []). }
    cbn [mbind option_bind]. rewrite E.
    destruct (IH w (lo + 4096)) as (w2 & -> & HI2 & Hss2 & [R1 R2] & Hiso2 & Hdry2 & Hfit2); [done|done|done|done|lia|done|lia|by apply cow_fits_skip|].
    exists w2. split; [done|]. split; [done|]. split; [done|]. replace (lo + Z.of_nat (S n) * 4096) with (lo + 4096 + Z.of_nat n * 4096) by lia. split; [|done]. split.
    + intros va f Hva Hva' Hf. apply R1; [|done|done]. destruct (decide (va = lo)) as [->|]; [congruence|]. Z.div_mod_to_equations. lia.
    + intros c va Hn. apply R2. intros (Hr & Hc & Hx). apply Hn. split; [lia|done].
Qed.

(** ** Translations *)

Definition set_tlb (w : pworld) (l : list flush) : pworld := PWorld (w_pfa w) (w_mem w) (w_ctxs w) (w_active w) (w_boot w) l.
Lemma abs_tlb w l : abs (set_tlb w l) = abs w.
Proof. by apply abs_ext. Qed.
Lemma inv_tlb w l : pg_inv cpu w -> pg_inv cpu (set_tlb w l).
Proof.
  intros HI. split; try by apply HI.
Qed.

Lemma shootdown_spec src n : forall w lo, pg_inv cpu w -> is_Some (w_ctxs w !! src) -> 0 <= lo -> lo mod 4096 = 0 -> lo + Z.of_nat n * 4096 <= 0xC0000000 ->
  exists l, shootdown_loop n w src lo = Some (set_tlb w (l ++ w_tlb w)) /\
    forall va, lo <= va < lo + Z.of_nat n * 4096 -> va mod 4096 = 0 -> is_Some (abs w !! (src, va)) -> ShootdownAll va ∈ l.
Proof.
  induction n as [|n IH]; intros w lo HI Hs H0 Ha Hb.
  { exists []. split; [by destruct w|]. intros; lia. }
  destruct (page_step lo H0 Ha ltac:(lia)) as (Hp & Ha' & E). cbn [shootdown_loop].
  destruct (pte_reads cpu w src lo HI Hs Hp) as (-> & _). cbn [mbind option_bind]. rewrite E.
  set (l0 := if bool_decide (is_Some (abs w !! (src, lo))) then [ShootdownAll lo] else []).
  assert ((if bool_decide (is_Some (abs w !! (src, lo))) then flushed w (ShootdownAll lo) else w) = set_tlb w (l0 ++ w_tlb w)) as ->
    by (unfold l0; destruct (bool_decide _); by destruct w).
  destruct (IH (set_tlb w (l0 ++ w_tlb w)) (lo + 4096)) as (l & -> & Hl); [by apply inv_tlb|done|lia|done|lia|].
  exists (l ++ l0). split; [cbn [w_tlb set_tlb]; by rewrite <- (assoc_L (++))|]. rewrite abs_tlb in Hl. intros va Hva Hva' Hm. apply elem_of_app.
  destruct (decide (va = lo)) as [->|Hne]; [right; unfold l0; rewrite bool_decide_true by done; by left|left]. apply Hl; [|done|done]. Z.div_mod_to_equations. lia.
Qed.

Lemma align_pages start end_ : 0 <= start -> start < end_ -> end_ <= 0xC0000000 ->
  let lo := page_align_down start in let hi := page_align_up end_ in
  0 <= lo <= start /\ lo mod 4096 = 0 /\ end_ <= hi <= 0xC0000000 /\ hi = lo + (hi - lo) / 4096 * 4096 /\ 0 <= (hi - lo) / 4096.
Proof.
  intros H0 H1 H2 lo hi. destruct (page_align_down_spec start) as [A1 A2]; [lia|]. destruct (page_align_up_spec end_) as [B1 B2]; [lia|].
  fold lo in A1, A2. fold hi in B1, B2. assert (0 <= lo).
  { unfold lo, page_align_down. apply Z.land_nonneg. by left. }
  assert (hi <= 0xC0000000) by (Z.div_mod_to_equations; lia). assert ((hi - lo) mod 4096 = 0) by (rewrite Zminus_mod, A1, B1; done).
  split; [lia|]. split; [done|]. split; [lia|]. split; [|apply Z.div_pos; lia]. Z.div_mod_to_equations. lia.
Qed.

Lemma no_root_spec w ctx c : pg_inv cpu w -> w_ctxs w !! ctx = Some c -> no_root w ctx = Some (pc_root c =? 0).
Proof.
  intros HI Hc. unfold no_root. destruct (Z.eqb_spec ctx 0) as [->|_]; [by rewrite (gi_null _ _ HI) in Hc|]. by rewrite Hc.
Qed.

Lemma cow_range_spec w src dst c start end_ : pg_inv cpu w -> w_ctxs w !! src = Some c -> pc_root c <> 0 -> is_Some (w_ctxs w !! dst) -> src <> dst ->
  0 <= start -> start < end_ -> end_ <= 0xC0000000 ->
  (forall i, count (in_table dst i) (abs w) + count (in_table src i) (abs w) <= 255) ->
  (forall y, 0 <= y < s_total_frames (w_pfa w) -> 0 < refs (abs w) (frame_addr (w_pfa w) y) ->
     pg_refcount (pgt (w_pfa w) y) + refs (abs w) (frame_addr (w_pfa w) y) <= 255) ->
  exists w', jlos_paging_cow_range cpu w src dst start end_ = Some (w', true) /\ pg_inv cpu w' /\ same_system w w' /\
    cow_result (dry (w_pfa w') cpu) (abs w) (abs w') src dst (page_align_down start) (page_align_up end_) /\ (isolated w -> isolated w') /\
    (forall va, page_align_down start <= va < page_align_up end_ -> va mod 4096 = 0 -> is_Some (abs w !! (src, va)) -> ShootdownAll va ∈ w_tlb w') /\
    (forall y, 0 <= y < s_total_frames (w_pfa w') -> 0 < refs (abs w') (frame_addr (w_pfa w') y) -> pg_refcount (pgt (w_pfa w') y) <= 255).
Proof.
  intros HI Hc Hr Hd Hne H0 H1 H2 Ht Hrf. unfold jlos_paging_cow_range. rewrite (no_root_spec w src c HI Hc). cbn [mbind option_bind].
  assert (dst <> 0) as Hd0 by (intros ->; rewrite (gi_null _ _ HI) in Hd; by destruct Hd).
  rewrite (proj2 (Z.eqb_neq _ _) Hr), (proj2 (Z.eqb_neq _ _) Hd0), (proj2 (Z.eqb_neq _ _) Hne), (proj2 (Z.leb_gt _ _) H1). cbn [orb]. cbv zeta. unfold FRAME_SIZE at 1 2.
  destruct (align_pages start end_ H0 H1 H2) as (A1 & A2 & A3 & A4 & A5). set (lo := page_align_down start) in *. set (hi := page_align_up end_) in *.
  assert (is_Some (w_ctxs w !! src)) as Hs by eauto.
  destruct (cow_loop_spec src dst (Z.to_nat ((hi - lo) / 4096)) w lo HI Hs Hd Hne) as (w1 & -> & HI1 & Hss & Hres & Hiso & _ & Hfit'); [lia|done|rewrite Z2Nat.id by lia; lia| |].
  { split.
    - intros i. specialize (Ht i). pose proof (count_sub (in_table_from src i lo) (in_table src i) (abs w)) as Hsub.
      enough (count (in_table_from src i lo) (abs w) <= count (in_table src i) (abs w)) by lia. apply Hsub. unfold in_table_from, in_table. naive_solver.
    - intros y Hy Hry. specialize (Hrf y Hy Hry). pose proof (count_sub (of_frame_from src (frame_addr (w_pfa w) y) lo) (fun kv => pframe kv.2 = frame_addr (w_pfa w) y) (abs w)) as Hsub.
      enough (count (of_frame_from src (frame_addr (w_pfa w) y) lo) (abs w) <= refs (abs w) (frame_addr (w_pfa w) y)) by lia. apply Hsub. unfold of_frame_from. naive_solver. }
  rewrite Z2Nat.id in Hres by lia. rewrite <- A4 in Hres. cbn [mbind option_bind].
  destruct (shootdown_spec src (Z.to_nat ((hi - lo) / 4096)) w1 lo HI1) as (l & -> & Hl); [by apply (ss_ctx _ _ Hss)|lia|done|rewrite Z2Nat.id by lia; lia|].
  cbn [mbind option_bind]. rewrite Z2Nat.id in Hl by lia. rewrite <- A4 in Hl.
  exists (set_tlb w1 (l ++ w_tlb w1)). split; [done|]. split; [by apply inv_tlb|]. split; [by destruct Hss|]. rewrite abs_tlb. split; [done|]. split_and!.
  - intros Hi. unfold isolated. rewrite abs_tlb. by apply Hiso.
  - intros va Hva Ha [e He]. cbn [w_tlb set_tlb]. apply elem_of_app. left. apply Hl; [done|done|]. destruct Hres as [R1 _]. destruct (R1 va e Hva Ha He) as [-> _]. eauto.
  - intros y Hy Hry. pose proof (cf_refs _ _ _ _ Hfit' y Hy Hry). unfold count in *. cbn [w_pfa set_tlb]. lia.
Qed.

End ops.
