(* ===== verification/PagingOps.v ===== *)
(** * The operations of [kernel/paging.c] on address spaces

    Mapping, unmapping and copying on a write fault as operations on the map
    [abs w], the page tables as an instance of the interface that address spaces
    use, and the steps under which address spaces stay isolated. *)
From S2P Require Import Prelude Pfa PfaInv PfaCpu PageSource FrameStep MemIface X86Paging Paging PagingInv PagingCow.

Abbreviation di := jlos_paging_get_page_dir_index (only parsing).
Abbreviation ti := jlos_paging_get_page_table_index (only parsing).

Section ops.
Variable cpu : Z.

(** Requests to invalidate translations change nothing else. *)
Lemma changes_tlb w w' l M named : changes cpu w w' M named -> changes cpu w (set_tlb w' l) M named.
Proof. intros [A1 A2 A3 A4 As A5 A6 A7 A8]. split; [by apply inv_tlb|by rewrite abs_tlb|done..]. Qed.
Lemma system_tlb w w' l : same_system w w' -> same_system w (set_tlb w' l).
Proof. intros [A1 A2 A3 A4]. by split. Qed.
Lemma view_tlb w l c va : page_view (set_tlb w l) c va = page_view w c va.
Proof. unfold page_view. by rewrite abs_tlb. Qed.

Definition active (w : pworld) (ctx : Z) : Prop := active_context cpu w = Some ctx.

Lemma flush_spec w ctx va : pg_inv cpu w ->
  exists l, flush_if_active cpu w ctx va = Some (set_tlb w l) /\ (active w ctx -> FlushPage va ∈ l) /\ (forall f, f ∈ w_tlb w -> f ∈ l).
Proof.
  intros HI. unfold flush_if_active, active, active_context. destruct (geti_Some (w_active w) cpu) as (a & -> & _); [apply HI|]. cbn [mbind option_bind].
  destruct (Z.eqb_spec ctx a) as [->|Hne].
  - exists (FlushPage va :: w_tlb w). split; [done|]. split; [left|by right].
  - exists (w_tlb w). split; [by destruct w|]. split; [congruence|done].
Qed.

Lemma paging_map_spec w ctx va pa prot : pg_inv cpu w -> is_Some (w_ctxs w !! ctx) -> page_ok va -> table_room w ctx va ->
  0 <= pa < 2 ^ 32 -> pa mod 4096 = 0 -> owed w pa ->
  exists w' b, jlos_paging_map cpu w ctx va pa prot = Some (w', b) /\
    if b then abs w !! (ctx, va) = None /\ changes cpu w w' (<[(ctx, va) := entry_of pa prot]> (abs w)) (fun _ => False) /\
              (active w ctx -> FlushPage va ∈ w_tlb w')
    else changes cpu w w' (abs w) (fun _ => False) /\ (is_Some (abs w !! (ctx, va)) \/ dry (w_pfa w') cpu).
Proof.
  intros HI Hc Hp Hroom Hpa Hal Ho. unfold jlos_paging_map.
  destruct (Z.eqb_spec ctx 0) as [->|_]; [by rewrite (gi_null _ _ HI) in Hc; destruct Hc|].
  destruct (map_entry_spec cpu w ctx va pa prot HI Hc Hp Hroom Hpa Hal Ho) as (w1 & b & -> & Hb). cbn [mbind option_bind]. destruct b; [|by exists w1, false].
  destruct Hb as [Hn Hch]. destruct (flush_spec w1 ctx va (ch_inv _ _ _ _ _ Hch)) as (l & -> & Hfl & _). cbn [mbind option_bind].
  exists (set_tlb w1 l), true. split; [done|]. split; [done|]. split; [by apply changes_tlb|].
  unfold active, active_context in *. by rewrite (ch_act _ _ _ _ _ Hch) in Hfl.
Qed.

Lemma paging_unmap_spec w ctx va : pg_inv cpu w -> is_Some (w_ctxs w !! ctx) -> page_ok va ->
  exists w' b, jlos_paging_unmap cpu w ctx va = Some (w', b) /\ changes cpu w w' (delete (ctx, va) (abs w)) (unmaps w ctx va) /\
    released w (w_pfa w') ctx va /\ (is_Some (abs w !! (ctx, va)) -> b = true) /\ (b = true -> active w ctx -> FlushPage va ∈ w_tlb w') /\
    (forall pl a, table_at w' pl a -> table_at w pl a).
Proof.
  intros HI Hc Hp. unfold jlos_paging_unmap, jlos_arch_unmap_entry. pose proof Hc as [c Ec]. rewrite (no_root_spec cpu w ctx c HI Ec). cbn [mbind option_bind].
  destruct (unmap_spec cpu w ctx va HI Hc Hp) as (w1 & b & E & Hch & Hrel & Hb & Ht).
  destruct (Z.eqb_spec (pc_root c) 0) as [Hr|Hr].
  { unfold unmap_locked in E. destruct (Z.eqb_spec ctx 0) as [->|_]; [by rewrite (gi_null _ _ HI) in Ec|]. rewrite Ec in E. cbn [mbind option_bind] in E.
    rewrite Hr in E. change (0 =? 0) with true in E. cbv iota in E. injection E as <- <-. exists w, false. split; [done|]. split; [done|]. split; [done|]. split; [done|]. split; [done|done]. }
  rewrite E. cbn [mbind option_bind]. destruct b.
  - destruct (flush_spec w1 ctx va (ch_inv _ _ _ _ _ Hch)) as (l & -> & Hfl & _). cbn [mbind option_bind]. exists (set_tlb w1 l), true.
    split; [done|]. split; [by apply changes_tlb|]. split; [done|]. split; [done|]. split; [|done].
    intros _. unfold active, active_context in *. by rewrite (ch_act _ _ _ _ _ Hch) in Hfl.
  - cbn [mbind option_bind]. exists w1, false. done.
Qed.

(** ** The page tables as seen by address spaces *)

(** The access an entry gives. *)
Definition access_of (e : Z) : Z := Z.lor (if has e PTE_WRITABLE then PG_WRITE else 0) (if has e PTE_USER then PG_USER else 0).

Lemma land_bit a n : 0 <= n -> Z.land a (2 ^ n) = if has a (2 ^ n) then 2 ^ n else 0.
Proof.
  intros Hn. unfold has. destruct (Z.eqb_spec (Z.land a (2 ^ n)) 0) as [->|Hne]; [done|]. cbn [negb].
  apply Z.bits_inj'. intros i Hi. rewrite Z.land_spec, Z.pow2_bits_eqb by lia. destruct (Z.eqb_spec n i) as [<-|Hi']; [|by rewrite andb_false_r].
  rewrite andb_true_r. destruct (Z.testbit a n) eqn:E; [done|]. exfalso. apply Hne. apply Z.bits_inj'. intros j Hj.
  rewrite Z.land_spec, Z.pow2_bits_eqb, Z.bits_0 by lia. destruct (Z.eqb_spec n j) as [<-|]; [by rewrite E|apply andb_false_r].
Qed.
Lemma access_bits prot : access prot = Z.lor (if has prot PG_WRITE then PG_WRITE else 0) (if has prot PG_USER then PG_USER else 0).
Proof. unfold access. rewrite Z.land_lor_distr_r. f_equal; [apply (land_bit prot 1)|apply (land_bit prot 3)]; lia. Qed.
Lemma entry_access pa prot : access_of (entry_of pa prot) = access prot.
Proof. unfold access_of. destruct (new_entry pa prot) as (_ & _ & E1 & E2). fold (entry_of pa prot) in E1, E2. by rewrite E1, E2, access_bits. Qed.

(** A frame in the hands of the kernel: one reference, and neither a page nor a table. *)
Definition spare_frame (w : pworld) (M : gmap (Z * Z) Z) (a x : Z) : Prop :=
  a = page_of (w_pfa w) x /\ held_frame (w_pfa w) x /\ refs M (frame_addr (w_pfa w) x) = 0 /\ forall pl, ~ table_at w pl a.

#[local] Instance x86_paging : MemIface.Paging pworld := {
  paging_map w pc va f prot := jlos_paging_map cpu w pc va (virt_to_phys f) prot;
  paging_unmap w pc va := jlos_paging_unmap cpu w pc va;
  frame_malloc w := take_frame cpu w;
  frame_free w f := give_frame cpu w f;
  frame_clear w f := clear_page w f;
  paging_ok w := pg_inv cpu w;
  context w pc := is_Some (w_ctxs w !! pc);
  mapping w pc va := e ← abs w !! (pc, va); Some (phys_to_virt (pframe e), access_of e);
  spare w a := exists x, spare_frame w (abs w) a x;
  cleared w f := w_mem w !! f = Some (replicate 1024 0);
  room w pc va := count (in_table pc (di va)) (abs w) < 255
}.

(** Spare frames after a change that frees none. *)
Lemma spare_changes w w' M g : pg_inv cpu w -> changes cpu w w' M (fun _ => False) ->
  (exists x, spare_frame w' (abs w') g x) <-> exists x, spare_frame w M g x.
Proof.
  intros HI Hch. pose proof (ch_shape _ _ _ _ _ Hch) as Hsh. pose proof Hsh as (Et & _). rewrite (ch_abs _ _ _ _ _ Hch).
  assert (forall x, spare_frame w' M g x <-> spare_frame w M g x) as H; [|by setoid_rewrite H].
  intros x. unfold spare_frame, held_frame. rewrite (shape_page _ _ x Hsh), (shape_addr _ _ x Hsh), Et. split.
  - intros (-> & (Hx & Ho & Hr) & Hrf & Hnt).
    destruct (ch_frames _ _ _ _ _ Hch x ltac:(lia) Hnt) as [Eo S]; [by intros []|]. rewrite Eo in Ho. rewrite (same_page_refs _ _ (S Ho)) in Hr.
    split_and!; try done; try lia. intros pl Ht. destruct (ch_old _ _ _ _ _ Hch pl x ltac:(lia) Ht) as [?|[]]. by apply (Hnt pl).
  - intros (-> & (Hx & Ho & Hr) & Hrf & Hnt). destruct (changes_frame cpu w w' M x HI Hch ltac:(lia) Ho Hnt) as [S Hnt'].
    rewrite (same_occ _ _ S), (same_page_refs _ _ S). split_and!; try done; lia.
Qed.

Lemma spare_owed w a x : pg_inv cpu w -> spare_frame w (abs w) a x ->
  virt_to_phys a = frame_addr (w_pfa w) x /\ phys_to_virt (virt_to_phys a) = a /\ 0 <= virt_to_phys a < 2 ^ 32 /\ virt_to_phys a mod 4096 = 0 /\ owed w (virt_to_phys a).
Proof.
  intros HI (-> & (Hx & Ho & Hr) & Hrf & Hnt). pose proof (gi_pfa _ _ HI) as Hd. destruct (page_of_virt (w_pfa w) x Hd Hx) as (E1 & E2 & _).
  destruct (frame_number (w_pfa w) x Hd Hx) as (_ & Ea & _). pose proof Hd as (_ & Hst & Hal & Hm). unfold FRAME_SIZE in Hm. rewrite E2, E1.
  split_and!; try done; try (rewrite Ea; lia).
  - rewrite Ea, Z.add_mod, Hal, Z.mod_mul by lia. done.
  - intros y Hy Ey. assert (y = x) as -> by (destruct (frame_number (w_pfa w) y Hd Hy) as (En & _), (frame_number (w_pfa w) x Hd Hx) as (En' & _); congruence).
    split_and!; [done|lia|done].
Qed.
Lemma frame_addr_inj w x y : pg_inv cpu w -> 0 <= x < s_total_frames (w_pfa w) -> 0 <= y < s_total_frames (w_pfa w) ->
  frame_addr (w_pfa w) x = frame_addr (w_pfa w) y -> x = y.
Proof.
  intros HI Hx Hy E. pose proof (gi_pfa _ _ HI) as Hd. destruct (frame_number (w_pfa w) y Hd Hy) as (En & _), (frame_number (w_pfa w) x Hd Hx) as (En' & _). congruence.
Qed.

Lemma spare_insert w f x k v g : pg_inv cpu w -> spare_frame w (abs w) f x -> abs w !! k = None -> pframe v = frame_addr (w_pfa w) x ->
  (exists y, spare_frame w (<[k := v]> (abs w)) g y) <-> (exists y, spare_frame w (abs w) g y) /\ g <> f.
Proof.
  intros HI (Ef & (Hx & Hox) & _) Hk Ev. split.
  - intros (y & Eg & (Hy & Hoy) & Hr & Hnt). rewrite refs_insert, Ev in Hr by done. pose proof (refs_nonneg (abs w) (frame_addr (w_pfa w) y)).
    case_decide as E; [lia|]. split; [exists y; split_and!; try done; lia|]. rewrite Eg, Ef. by intros ->%page_of_inj.
  - intros [(y & Eg & (Hy & Hoy) & Hr & Hnt) Hne]. exists y. split; [done|]. split; [done|]. split; [|done]. rewrite refs_insert, Ev, decide_False; [lia| |done].
    intros E%frame_addr_inj; [|done..]. subst y. congruence.
Qed.

Lemma x86_map_law w pc va f prot : pg_inv cpu w -> is_Some (w_ctxs w !! pc) -> page_ok va -> spare w f -> room w pc va ->
  exists w' b, paging_map w pc va f prot = Some (w', b) /\ paging_ok w' /\ (forall c, context w' c <-> context w c) /\
    if b then mapping w' pc va = Some (f, access prot) /\ mapping w pc va = None /\
              (forall g, spare w' g <-> spare w g /\ g <> f) /\ (cleared w f -> cleared w' f) /\
              forall c v, page_ok v -> (c, v) <> (pc, va) -> mapping w' c v = mapping w c v
    else (forall g, spare w' g <-> spare w g) /\ forall c v, page_ok v -> mapping w' c v = mapping w c v.
Proof.
  cbn. intros HI Hc Hp [x Hs] Hroom. destruct (spare_owed w f x HI Hs) as (Ev & Evv & Hr & Ha & Ho).
  destruct (paging_map_spec w pc va (virt_to_phys f) prot HI Hc Hp (room_count cpu w pc va HI Hroom) Hr Ha Ho) as (w' & b & -> & Hb).
  exists w', b. split; [done|]. destruct b.
  - destruct Hb as (Hn & Hch & _). split; [apply Hch|]. split; [apply Hch|]. rewrite (ch_abs _ _ _ _ _ Hch), lookup_insert_eq, Hn. cbn [mbind option_bind].
    destruct (new_entry (virt_to_phys f) prot) as (Ef & _). fold (entry_of (virt_to_phys f) prot) in Ef. rewrite (pframe_id (virt_to_phys f)) in Ef by done.
    rewrite Ef, Evv, entry_access. split; [done|]. split; [done|]. split; [|split].
    + intros g. rewrite <- (ch_abs _ _ _ _ _ Hch), (spare_changes w w' _ g HI Hch). apply (spare_insert w f x); [done|done|done|by rewrite Ef].
    + intros Hz. rewrite (ch_data _ _ _ _ _ Hch); [done|]. destruct Hs as (-> & (Hx & Hoc & _) & _ & Hnt). split; [done|].
      intros y _ <-%page_of_inj. done.
    + intros c v _ Hne. by rewrite lookup_insert_ne.
  - destruct Hb as [Hch _]. split; [apply Hch|]. split; [apply Hch|]. split; [intros g; by apply spare_changes|]. intros c v _. by rewrite (ch_abs _ _ _ _ _ Hch).
Qed.

Lemma x86_unmap_law w pc va : pg_inv cpu w -> is_Some (w_ctxs w !! pc) -> page_ok va ->
  exists w' b, paging_unmap w pc va = Some (w', b) /\ paging_ok w' /\ (forall c, context w' c <-> context w c) /\
    (forall g, spare w g -> spare w' g) /\ mapping w' pc va = None /\
    forall c v, page_ok v -> (c, v) <> (pc, va) -> mapping w' c v = mapping w c v.
Proof.
  cbn. intros HI Hc Hp. destruct (paging_unmap_spec w pc va HI Hc Hp) as (w' & b & -> & Hch & _ & _ & _ & Htab).
  exists w', b. split; [done|]. split; [apply Hch|]. split; [apply Hch|]. pose proof (ch_shape _ _ _ _ _ Hch) as Hsh. pose proof Hsh as (Et & _).
  rewrite (ch_abs _ _ _ _ _ Hch), lookup_delete_eq. split; [|split; [done|]].
  - intros g (x & -> & (Hx & Ho & Hr) & Hrf & Hnt). exists x. unfold spare_frame, held_frame. rewrite (shape_page _ _ x Hsh), (shape_addr _ _ x Hsh), Et.
    assert (~ unmaps w pc va x) as Hnu.
    { intros [(e & He & Ef)|Ht]; [|by apply (Hnt (pc, Some (di va)))]. by apply (refs_zero _ _ Hrf (pc, va) e). }
    destruct (ch_frames _ _ _ _ _ Hch x ltac:(lia)) as [Eo S]; [intros pl Ht; by apply (Hnt pl), Htab|done|].
    rewrite Eo, (same_page_refs _ _ (S Ho)). split_and!; try done; try lia.
    + destruct (abs w !! (pc, va)) as [e|] eqn:He; [|by rewrite delete_id]. rewrite (refs_delete _ _ _ _ He), decide_False; [lia|]. by apply (refs_zero _ _ Hrf (pc, va)).
    + intros pl Ht. by apply (Hnt pl), Htab.
  - intros c v _ Hne. by rewrite lookup_delete_ne.
Qed.

(** Taking a frame. *)
Lemma take_spec w : pg_inv cpu w -> exists p' r, take_frame cpu w = Some (set_pfa w p', r) /\ pg_inv cpu (set_pfa w p') /\
  match r with
  | None => p' = w_pfa w /\ dry (w_pfa w) cpu
  | Some a => exists x, 0 <= x < s_total_frames (w_pfa w) /\ pstep (w_pfa w) p' x /\ occupied (pgt (w_pfa w) x) = false /\ spare_frame (set_pfa w p') (abs w) a x
  end.
Proof.
  intros HI. unfold take_frame. destruct (take_clear cpu w HI) as (p' & r & -> & Hr). cbn [mbind option_bind]. exists p', r. split; [done|]. destruct r as [a|].
  - destruct Hr as (x & -> & Hx & Ho & Hst & Hh & Hnt & Hrf & HI' & _). split; [done|]. exists x. pose proof Hst as (_ & Hsh & _).
    split; [done|]. split; [done|]. split; [done|]. unfold spare_frame. cbn [w_pfa set_pfa]. by rewrite (shape_page _ _ x Hsh), (shape_addr _ _ x Hsh).
  - destruct Hr as [-> Hd]. split; [by destruct w|done].
Qed.

(** Spare frames after a step of the allocator on frame [x], which is no table. *)
Lemma spare_pstep w p' x g y : pstep (w_pfa w) p' x -> y <> x -> 0 <= y -> spare_frame (set_pfa w p') (abs w) g y <-> spare_frame w (abs w) g y.
Proof.
  intros (Hd & Hsh & Hother) Hne Hy. pose proof Hsh as (Et & _). unfold spare_frame, held_frame. cbn [w_pfa set_pfa].
  rewrite (shape_page _ _ y Hsh), (shape_addr _ _ y Hsh), Et. destruct (Hother y Hy Hne) as [Eo S]. rewrite Eo.
  split; intros (? & (? & Ho & Hr) & ? & ?); (split; [done|]); (split; [|done]); (split; [done|]); (split; [done|]).
  - by rewrite (same_page_refs _ _ (S Ho)) in Hr.
  - by rewrite (same_page_refs _ _ (S Ho)).
Qed.

Lemma x86_malloc_law w : paging_ok w -> exists w' r, frame_malloc w = Some (w', r) /\ paging_ok w' /\
  (forall c, context w' c <-> context w c) /\ (forall c v, page_ok v -> mapping w' c v = mapping w c v) /\
  (forall c v, room w c v -> room w' c v) /\
  match r with
  | None => forall g, spare w' g <-> spare w g
  | Some f => ~ spare w f /\ (forall c v, page_ok v -> fst <$> mapping w c v <> Some f) /\
              forall g, spare w' g <-> spare w g \/ g = f
  end.
Proof.
  cbn. intros HI. destruct (take_spec w HI) as (p' & r & -> & HI' & Hr). exists (set_pfa w p'), r. rewrite abs_pfa. split_and!; try done.
  destruct r as [f|]; [|destruct Hr as [-> _]; by destruct w]. destruct Hr as (x & Hx & Hst & Hno & Hsp).
  assert (f = page_of (w_pfa w) x) as Ef by (destruct Hsp as (-> & _), Hst as (_ & Hsh & _); by apply shape_page). split_and!.
  - intros (y & Ey & (_ & Ho & _) & _). rewrite Ef in Ey. apply page_of_inj in Ey as <-. congruence.
  - intros c v Hv. destruct (abs w !! (c, v)) as [e|] eqn:He; cbn; [|done]. rewrite Ef. intros [= E%(frame_page cpu w)]; [|done..].
    destruct (gi_data _ _ HI x Hx) as (Ho & _); [rewrite <- E; by eapply refs_pos|]. congruence.
  - intros g. split.
    + intros (y & Hy). destruct (decide (y = x)) as [->|Hne]; [right; destruct Hy as (-> & _), Hsp as (-> & _); done|left]. exists y.
      apply (spare_pstep w p' x); [done|done| |done]. destruct Hy as (_ & [? _] & _). lia.
    + intros [(y & Hy)| ->]; [|by exists x]. exists y. apply (spare_pstep w p' x); [done| | |done]; destruct Hy as (_ & (? & Ho & _) & _); [congruence|lia].
Qed.

Lemma x86_free_law w f : paging_ok w -> spare w f -> exists w', frame_free w f = Some w' /\ paging_ok w' /\
  (forall c, context w' c <-> context w c) /\ (forall c v, page_ok v -> mapping w' c v = mapping w c v) /\
  forall g, spare w' g <-> spare w g /\ g <> f.
Proof.
  cbn. intros HI (x & Hsp). destruct (spare_owed w f x HI Hsp) as (Ev & _). pose proof Hsp as (Ef & (Hx & Ho & Hr) & Hrf & Hnt).
  unfold give_frame, on_pfa, jlos_page_frame_free. rewrite Ev.
  destruct (refcount_dec_step (w_pfa w) x (gi_pfa _ _ HI) Hx cpu (gi_cpu _ _ HI) Ho ltac:(lia)) as (p' & -> & Hst & Ho' & _). cbn [mbind option_bind].
  exists (set_pfa w p'). rewrite abs_pfa. rewrite Hr in Ho'. split; [done|]. split; [|split; [done|split; [done|]]].
  - apply (inv_pstep cpu w p' x); [done|done|lia|by rewrite <- Ef|lia].
  - intros g. split.
    + intros (y & Hy). assert (y <> x) as Hne by (intros ->; destruct Hy as (_ & (_ & Hoy & _) & _); cbn [w_pfa set_pfa] in Hoy; by rewrite Ho' in Hoy).
      assert (spare_frame w (abs w) g y) as Hy' by (apply (spare_pstep w p' x); [done|done|destruct Hy as (_ & [? _] & _); lia|done]).
      split; [by exists y|]. destruct Hy' as (-> & _). rewrite Ef. by intros ->%page_of_inj.
    + intros [(y & Hy) Hne]. exists y. apply (spare_pstep w p' x); [done| | |done]; destruct Hy as (Eg & [? _] & _); [|lia]. intros ->. congruence.
Qed.

#[local] Instance x86_paging_laws : PagingLaws pworld.
Proof.
  split.
  - intros w pc va f prot HI Hc Hp Hs Hroom _. by apply x86_map_law.
  - apply x86_unmap_law.
  - apply x86_malloc_law.
  - apply x86_free_law.
  - cbn. intros w f HI (x & Hsp). pose proof Hsp as (_ & _ & _ & Hnt). unfold clear_page. rewrite (off_abs cpu w f _ HI Hnt).
    split; [by apply off_inv|]. split; [apply lookup_insert_eq|]. split; [done|]. split; [done|]. split; [done|]. intros g.
    assert (forall y, spare_frame (set_mem w (<[f := replicate 1024 0]> (w_mem w))) (abs w) g y <-> spare_frame w (abs w) g y) as E; [|by setoid_rewrite E].
    intros y. unfold spare_frame. cbn [w_pfa set_mem]. by setoid_rewrite (off_tables w f (replicate 1024 0) Hnt).
Qed.

(** ** Looking up addresses *)

Lemma get_physical_spec w ctx c va : pg_inv cpu w -> w_ctxs w !! ctx = Some c -> pc_root c <> 0 -> page_ok va ->
  jlos_paging_get_physical_addr w ctx va = Some (match abs w !! (ctx, va) with Some e => pframe e | None => 0 end).
Proof.
  intros HI Hc Hr Hp. unfold jlos_paging_get_physical_addr. rewrite (no_root_spec cpu w ctx c HI Hc). cbn [mbind option_bind]. rewrite (proj2 (Z.eqb_neq _ _) Hr).
  destruct (get_phys_spec cpu w ctx va HI (ex_intro _ c Hc) Hp) as [(c' & Hc' & Hr')|E]; [simplify_eq|done].
Qed.

(** Unmapping a page keeps the directory. *)
Lemma unmap_root w w' ctx va c : pg_inv cpu w -> w_ctxs w !! ctx = Some c -> pc_root c <> 0 -> changes cpu w w' (delete (ctx, va) (abs w)) (unmaps w ctx va) ->
  exists c', w_ctxs w' !! ctx = Some c' /\ pc_root c' <> 0.
Proof.
  intros HI Hc Hr Hch. assert (table_at w (ctx, None) (pc_root c)) as Ht by (by exists c). destruct (gi_tab _ _ HI _ _ Ht) as (x & l & Ex & (Hx & _) & _). rewrite Ex in Ht.
  destruct (ch_old _ _ _ _ _ Hch (ctx, None) x ltac:(lia) Ht) as [(c' & Hc' & Hr' & _)|[(e & He & Ef)|Ht2]]; [by exists c'| |].
  - destruct (gi_data _ _ HI x Hx) as (_ & _ & Hnt); [rewrite <- Ef; by eapply refs_pos|]. by destruct (Hnt (ctx, None)).
  - pose proof (gi_inj _ _ HI _ _ _ Ht Ht2). done.
Qed.

End ops.

(** C4. The two-level page tables, their reference and present counts and the page
    frame allocator under them implement the contract that address spaces are proved
    against: mapping, unmapping and frames behave as a map from pages to frames. *)
Theorem x86_tables_implement (cpu : Z) : @PagingLaws pworld (x86_paging cpu).
Proof. exact (x86_paging_laws cpu). Qed.

(** C18. While the table of the page has fewer than the 255 entries its counter can hold,
    [jlos_paging_map] of a frame in the kernel's hands fails only when the page is
    mapped already or no frame is left for a table.  Otherwise the page translates to
    the frame, the translation is flushed if the context is active, and
    [jlos_paging_unmap] removes it again: the page translates to 0, the frame and
    tables without pages are free, and the map is what it was. *)
Theorem paging_roundtrip cpu w ctx va a x prot : pg_inv cpu w -> is_Some (w_ctxs w !! ctx) -> page_ok va -> spare_frame w (abs w) a x -> table_room w ctx va ->
  exists w1 b, jlos_paging_map cpu w ctx va (virt_to_phys a) prot = Some (w1, b) /\ pg_inv cpu w1 /\
    if b then abs w1 = <[(ctx, va) := entry_of (virt_to_phys a) prot]> (abs w) /\ jlos_paging_get_physical_addr w1 ctx va = Some (virt_to_phys a) /\
      (active cpu w ctx -> FlushPage va ∈ w_tlb w1) /\
      exists w2, jlos_paging_unmap cpu w1 ctx va = Some (w2, true) /\ pg_inv cpu w2 /\ abs w2 = abs w /\
        jlos_paging_get_physical_addr w2 ctx va = Some 0 /\ occupied (pgt (w_pfa w2) x) = false
    else abs w1 = abs w /\ (is_Some (abs w !! (ctx, va)) \/ dry (w_pfa w1) cpu).
Proof.
  intros HI Hc Hp Hsp Hroom. destruct (spare_owed cpu w a x HI Hsp) as (Ev & Evv & Hr & Ha & Ho).
  destruct (paging_map_spec cpu w ctx va (virt_to_phys a) prot HI Hc Hp Hroom Hr Ha Ho) as (w1 & b & -> & Hb). exists w1, b. split; [done|]. destruct b.
  2: { destruct Hb as [Hch ?]. split; [apply Hch|]. split; [apply Hch|done]. }
  destruct Hb as (Hn & Hch & Hfl). pose proof (ch_inv _ _ _ _ _ Hch) as HI1. pose proof (ch_abs _ _ _ _ _ Hch) as Eabs. split; [done|].
  destruct (new_entry (virt_to_phys a) prot) as (B1 & _). fold (entry_of (virt_to_phys a) prot) in B1. rewrite (pframe_id (virt_to_phys a)) in B1 by done.
  assert (abs w1 !! (ctx, va) = Some (entry_of (virt_to_phys a) prot)) as Hk by (rewrite Eabs; apply lookup_insert_eq).
  destruct (mapped_walk cpu w1 ctx va _ HI1 Hp Hk) as (t & _ & (c & Hc1 & Hr1 & _) & _). simpl in Hc1.
  split; [done|]. split; [rewrite (get_physical_spec cpu w1 ctx c va HI1 Hc1 Hr1 Hp), Hk; by rewrite B1|]. split; [done|].
  destruct (paging_unmap_spec cpu w1 ctx va HI1 (ex_intro _ c Hc1) Hp) as (w2 & b & -> & Hch2 & Hrel & Hb & _).
  rewrite (Hb ltac:(rewrite Hk; eauto)). pose proof (ch_inv _ _ _ _ _ Hch2) as HI2. pose proof (ch_abs _ _ _ _ _ Hch2) as Eabs2.
  assert (abs w2 = abs w) as E2 by (by rewrite Eabs2, Eabs, delete_insert_id). exists w2. split; [done|]. split; [done|]. split; [done|]. split.
  - destruct (unmap_root cpu w1 w2 ctx va c HI1 Hc1 Hr1 Hch2) as (c' & Hc2 & Hr2). by rewrite (get_physical_spec cpu w2 ctx c' va HI2 Hc2 Hr2 Hp), E2, Hn.
  - destruct Hsp as (Ea & (Hx & Hox & Hrx) & Hrf & Hnt). pose proof (ch_shape _ _ _ _ _ Hch) as Hsh. pose proof Hsh as (Et & _).
    destruct (changes_frame cpu w w1 _ x HI Hch ltac:(lia) Hox) as [S _]; [by rewrite <- Ea|].
    destruct (Hrel _ x Hk) as [-> _]; [by rewrite Et|by rewrite B1, Ev, (shape_addr _ _ x Hsh)|]. by rewrite (same_page_refs _ _ S), Hrx.
Qed.
