(* ===== verification/PageFault.v ===== *)
(** * Page faults ([jlos_paging_page_fault_handler], [kernel/exception_recover.c])

    The fault handler over the areas of [Vma] and the page tables of [X86Paging], and
    the table of instructions that may fault.  [None] is the halt loop of a fault in
    the kernel, or an access through a bad pointer. *)
From S2P Require Import Prelude Pfa PfaInv PfaCpu PageSource FrameStep MemIface SortSearch X86Paging Paging PagingInv PagingCow PagingOps RBTree Vma VmaInv.

(** ** Instructions that may fault *)

(** A word in memory order. *)
Definition word_of (b : block) : Z := foldr (fun x acc => Z.lor x (Z.shiftl acc 8)) 0 b.
(** [jlos_er_extable_entry_t]: two words. *)
Definition insn (e : block) : Z := word_of (take 4 e).
Definition fixup (e : block) : Z := word_of (take 4 (drop 4 e)).

Definition jlos_extable_order_cmp (a b : block) : Z :=
  let ia := insn a in let ib := insn b in
  if ia <? ib then -1 else if ib <? ia then 1 else 0.
Definition jlos_extable_sort_init (table : list block) : option (list block) :=
  jlos_heap_sort jlos_extable_order_cmp table (length table) 8.
Definition jlos_extable_cmp (k : Z) (elem : block) : Z :=
  let e := insn elem in
  if k <? e then -1 else if e <? k then 1 else 0.
Definition jlos_er_extable_lookup (table : list block) (fault_insn : Z) : option Z :=
  e ← jlos_bsearch jlos_extable_cmp fault_insn table (length table);
  match e with
  | None => Some 0
  | Some i => b ← table !! i; Some (fixup b)
  end.

(** ** The handler *)

Definition SIGSEGV : Z := 11.

(** What a fault reads of [jlos_task_t]: its address space, the handler for [SIGSEGV]
    and the pending signals. *)
Record fault_task := FaultTask { ft_mm : option mm_t; ft_segv : Z; ft_pending : Z }.

(** How the handler ends: at the fixup of the instruction, with the page there, with
    a signal for the task, or with the end of the task. *)
Inductive fault_end :=
| Resumed (instruction_pointer : Z)
| Served
| Signalled (signal_pending : Z)
| Exited.

(** [jlos_memcpy] of a page. *)
Definition copy_page (w : pworld) (dst src : Z) : option pworld :=
  l ← w_mem w !! src; Some (set_mem w (<[dst := l]> (w_mem w))).

Section handler.
Variables (cpu : Z) (fuel : nat).

(** The branch for a write to a page that is present; it ends at [page_fault_kill]
    with [None] in the second place. *)
Definition write_fault (w : pworld) (ctx page_addr : Z) : option (pworld * option fault_end) :=
  old_phys ← jlos_arch_get_phys_entry w ctx page_addr;
  if old_phys =? 0 then Some (w, None)
  else
    prot ← jlos_arch_pte_get_prot w ctx page_addr;
    let cow_prot := Z.lor prot PG_WRITE in
    refcount ← jlos_page_frame_refcount_get (w_pfa w) (u32 old_phys);
    if refcount <=? 1 then
      w ← jlos_arch_change_flags_entry w ctx page_addr cow_prot;
      Some (flushed w (FlushPage page_addr), Some Served)
    else
      '(w, r) ← take_frame cpu w;
      match r with
      | None => Some (w, Some Exited)
      | Some new_frame =>
          w ← copy_page w new_frame (phys_to_virt old_phys);
          '(w, ok) ← jlos_arch_pte_replace w ctx page_addr (virt_to_phys new_frame) cow_prot;
          if ok : bool then
            w ← on_pfa w (fun p => jlos_page_frame_refcount_dec p cpu (u32 old_phys));
            Some (flushed w (FlushPage page_addr), Some Served)
          else
            '(w, _) ← jlos_arch_unmap_entry cpu w ctx page_addr;
            '(w, ok) ← jlos_arch_map_entry cpu w ctx page_addr (virt_to_phys new_frame) cow_prot;
            if negb ok then w ← give_frame cpu w new_frame; Some (w, None)
            else Some (flushed w (FlushPage page_addr), Some Served)
      end.

(** [page_fault_kill] *)
Definition page_fault_kill (task : fault_task) : fault_end :=
  if negb (ft_segv task =? 0) && negb (ft_segv task =? 1)
  then Signalled (Z.lor (ft_pending task) (u32 (Z.shiftl 1 SIGSEGV))) else Exited.

Context {A : Type} `{ObjSource A}.
#[local] Instance tables : Paging pworld := x86_paging cpu.

Definition jlos_paging_page_fault_handler (table : list block) (current_task : option fault_task)
    (s : vstate A pworld) (instruction_pointer fault_addr error_code : Z) : option (vstate A pworld * fault_end) :=
  fixup ← jlos_er_extable_lookup table instruction_pointer;
  if negb (fixup =? 0) then Some (s, Resumed fixup)
  else
    let present := has error_code 0x01 in
    let write := has error_code 0x02 in
    let user := has error_code 0x04 in
    let has_mm := match current_task with Some t => bool_decide (is_Some (ft_mm t)) | None => false end in
    if negb user && negb ((fault_addr <? USER_SPACE_LIMIT) && has_mm) then None
    else
      task ← current_task;
      mm ← ft_mm task;
      if negb present then
        '(s, ok) ← jlos_vma_demand_map fuel mm s fault_addr;
        Some (s, if ok : bool then Served else page_fault_kill task)
      else if write && (fault_addr <? USER_SPACE_LIMIT) then
        '(w, r) ← write_fault (world s) (mm_pc mm) (page_align_down fault_addr);
        Some (set_world s w, default (page_fault_kill task) r)
      else Some (s, page_fault_kill task).

End handler.

(** ** A write to a shared page *)

Section cow.
Variable cpu : Z.

(** The reference count of a mapped frame, as the handler reads it. *)
Definition counts_ok (w : pworld) : Prop :=
  forall y, 0 <= y < s_total_frames (w_pfa w) -> 0 < refs (abs w) (frame_addr (w_pfa w) y) -> pg_refcount (pgt (w_pfa w) y) <= 255.

Lemma refcount_read w k e : pg_inv cpu w -> counts_ok w -> abs w !! k = Some e ->
  exists n, jlos_page_frame_refcount_get (w_pfa w) (u32 (pframe e)) = Some n /\
    forall x, 0 <= x < s_total_frames (w_pfa w) -> pframe e = frame_addr (w_pfa w) x -> n = pg_refcount (pgt (w_pfa w) x).
Proof.
  intros HI Hcnt Hk. destruct (pframe_range e) as [Hr Ha]. rewrite u32_small by done. pose proof (gi_pfa _ _ HI) as Hd.
  unfold jlos_page_frame_refcount_get. cbv zeta. destruct (frame_outside (w_pfa w) (pframe e) Hd Hr Ha) as [Hout|(x & Hx & Ex)].
  - rewrite (proj2 (Z.leb_le _ _) Hout). exists 0. split; [done|]. intros x Hx Ex. destruct (frame_number (w_pfa w) x Hd Hx) as (En & _). rewrite <- Ex in En. lia.
  - destruct (frame_number (w_pfa w) x Hd Hx) as (En & _). rewrite Ex, En. destruct (Z.leb_spec (s_total_frames (w_pfa w)) x); [lia|].
    rewrite (geti_page (w_pfa w) x (proj1 Hd) Hx). cbn [mbind option_bind]. pose proof (refs_pos _ _ _ Hk) as Hpos. rewrite Ex in Hpos.
    destruct (gi_data _ _ HI x Hx Hpos) as (_ & Hle & _). pose proof (Hcnt x Hx Hpos). rewrite u8_small by lia. eexists. split; [done|].
    intros y Hy Ey. by rewrite (frame_addr_inj cpu w x y HI Hx Hy Ey).
Qed.

(** One page of a managed frame: no other page shares it. *)
Lemma refs_one M k e : M !! k = Some e -> refs M (pframe e) <= 1 -> forall k' e', M !! k' = Some e' -> pframe e' = pframe e -> k' = k.
Proof.
  intros Hk Hle k' e' Hk' E. destruct (decide (k' = k)) as [|Hne]; [done|]. exfalso.
  pose proof (refs_delete M k e (pframe e) Hk) as Hd. rewrite decide_True in Hd by done.
  assert (delete k M !! k' = Some e') as Hk2 by (by rewrite lookup_delete_ne). apply refs_pos in Hk2. rewrite E in Hk2. lia.
Qed.

(** What serving a write to a page keeps: what every page shows, the entries of the
    other pages, the isolation of all pages. *)
Record write_served (w w' : pworld) (ctx va e e' : Z) : Prop := {
  ws_inv : pg_inv cpu w';
  ws_counts : counts_ok w';
  ws_isolated : isolated w';
  ws_ctx k : is_Some (w_ctxs w' !! k) <-> is_Some (w_ctxs w !! k);
  ws_abs : abs w' = <[(ctx, va) := e']> (abs w);
  ws_write : has e' PTE_WRITABLE = true;
  ws_user : has e' PTE_USER = has e PTE_USER;
  ws_view c v : is_Some (abs w !! (c, v)) -> page_view w' c v = page_view w c v
}.

(** The last page of a frame is made writable. *)
Lemma reuse_spec w ctx va e n prot : pg_inv cpu w -> counts_ok w -> isolated w -> page_ok va -> abs w !! (ctx, va) = Some e ->
  (forall x, 0 <= x < s_total_frames (w_pfa w) -> pframe e = frame_addr (w_pfa w) x -> n = pg_refcount (pgt (w_pfa w) x)) -> n <= 1 ->
  has prot PG_WRITE = true -> has prot PG_USER = has e PTE_USER ->
  exists w', jlos_arch_change_flags_entry w ctx va prot = Some w' /\ write_served w w' ctx va e (reflag e prot).
Proof.
  intros HI Hcnt Hiso Hp Hk Hn Hle Hw Hu. destruct (change_flags_spec cpu w ctx va e prot HI Hp Hk) as (w' & E & Hch & Hq). exists w'. split; [done|].
  destruct (reflag_bits e prot) as (B1 & B2 & B3 & B4). pose proof (ch_abs _ _ _ _ _ Hch) as Eabs. pose proof (changes_system cpu _ _ _ Hch) as Hss.
  assert (forall k e1, <[(ctx, va) := reflag e prot]> (abs w) !! k = Some e1 -> exists e0, abs w !! k = Some e0 /\ pframe e1 = pframe e0 /\ (k <> (ctx, va) -> e1 = e0)) as Hold.
  { intros k e1. rewrite lookup_insert. case_decide as Ek; [subst k; intros [= <-]; by exists e|]. intros ?. by exists e1. }
  assert (managed w (pframe e) -> refs (abs w) (pframe e) <= 1) as Hone.
  { intros (x & Hx & Ex). pose proof (refs_pos _ _ _ Hk) as Hpos. rewrite Ex in Hpos |- *. destruct (gi_data _ _ HI x Hx Hpos) as (_ & ? & _). rewrite <- (Hn x Hx Ex) in *. lia. }
  split; [..|done|by rewrite B3|by rewrite B4|].
  - apply Hch.
  - intros y. rewrite Eabs, (proj1 Hq). intros Hy. rewrite (refs_replace _ _ e) by done. rewrite B1. intros Hr. apply Hcnt; [done|]. destruct (decide _); lia.
  - intros k k' e1 e2. rewrite Eabs. intros Hne H1 H2 Ef Hm. destruct (Hold k e1 H1) as (e1' & G1 & F1 & S1), (Hold k' e2 H2) as (e2' & G2 & F2 & S2).
    rewrite F1 in Ef, Hm. rewrite F2 in Ef. apply (managed_shape _ _ _ (ss_shape _ _ Hss)) in Hm.
    destruct (decide (k = (ctx, va))) as [->|Hk1].
    { exfalso. apply Hne. symmetry. rewrite Hk in G1. injection G1 as <-. apply (refs_one (abs w) (ctx, va) e Hk (Hone Hm) k' e2'); [done|congruence]. }
    rewrite (S1 Hk1). by apply (Hiso k k' e1' e2').
  - apply (ss_ctx _ _ Hss).
  - intros c v [e0 He0]. destruct (decide ((c, v) = (ctx, va))) as [[= -> ->]|Hne].
    + rewrite Hk in He0. injection He0 as <-. apply (page_view_same cpu w w' ctx va e (reflag e prot)); try done. by rewrite Eabs, lookup_insert_eq.
    + apply (page_view_same cpu w w' c v e0 e0); try done. rewrite Eabs, lookup_insert_ne by done. done.
Qed.

(** A copy of the page on a new frame [a], which takes the place of the old one. *)
Section copying.
Context (w : pworld) (ctx va e a x : Z) (p' : pfa) (l : list Z) (prot : Z).
#[local] Abbreviation w2 := (set_mem (set_pfa w p') (<[a := l]> (w_mem w))).
Hypothesis HI : pg_inv cpu w.
Hypothesis Hk : abs w !! (ctx, va) = Some e.
Hypothesis Hl : w_mem w !! phys_to_virt (pframe e) = Some l.
Hypothesis HI1 : pg_inv cpu (set_pfa w p').
Hypothesis Hx : 0 <= x < s_total_frames (w_pfa w).
Hypothesis Hst : pstep (w_pfa w) p' x.
Hypothesis Hno : occupied (pgt (w_pfa w) x) = false.
Hypothesis Hsp : spare_frame (set_pfa w p') (abs w) a x.

Let Hnt : forall pl, ~ table_at (set_pfa w p') pl a. Proof. by destruct Hsp as (_ & _ & _ & ?). Qed.

Lemma copied_inv : pg_inv cpu w2.
Proof using HI Hl HI1 Hnt. apply (off_inv cpu (set_pfa w p') a l); [done|done|]. by eapply (gi_words _ _ HI). Qed.
Lemma copied_abs : abs w2 = abs w.
Proof using HI1 Hnt. exact (eq_trans (off_abs cpu (set_pfa w p') a l HI1 Hnt) (abs_pfa w p')). Qed.
Lemma copied_tables pl b : table_at w2 pl b <-> table_at w pl b.
Proof using Hnt. apply (off_tables (set_pfa w p') a l Hnt). Qed.
Lemma copied_spare : spare_frame w2 (abs w2) a x.
Proof using Hsp HI1 Hnt. rewrite copied_abs. destruct Hsp as (H1 & H2 & H3 & H4). split_and!; try done. intros pl. rewrite copied_tables. apply H4. Qed.

(** The new frame is not the frame of a page. *)
Lemma copied_new k e1 : abs w !! k = Some e1 -> phys_to_virt (pframe e1) <> a /\ pframe e1 <> frame_addr (w_pfa w) x.
Proof using HI Hx Hst Hno Hsp.
  intros H1. destruct (mapped_data cpu w k e1 HI H1) as [_ Ho]. destruct Hsp as (Ea & _), Hst as (_ & Hsh & _). cbn [w_pfa set_pfa] in Ea.
  rewrite (shape_page _ _ x Hsh) in Ea. assert (phys_to_virt (pframe e1) <> a) as Hne by (intros E; rewrite E in Ho; rewrite (Ho x Hx Ea) in Hno; done).
  split; [done|]. intros E. apply Hne. rewrite E, Ea. by apply page_of_virt; [apply HI|].
Qed.

(** The old frame has a reference too many then. *)
Lemma copied_owed w3 : w_pfa w3 = p' -> abs w3 = <[(ctx, va) := entry_of (virt_to_phys a) prot]> (abs w) -> (forall pl b, table_at w3 pl b <-> table_at w pl b) ->
  pframe (entry_of (virt_to_phys a) prot) = frame_addr (w_pfa w) x -> owed w3 (pframe e).
Proof using HI Hk Hx Hst Hno Hsp.
  intros Epf Eabs Htab Ef y. rewrite Epf, Eabs. pose proof Hst as (_ & Hsh & Hother). pose proof Hsh as (Et & _).
  rewrite Et, (shape_addr _ _ y Hsh), (shape_page _ _ y Hsh). intros Hy Ey. pose proof (refs_pos _ _ _ Hk) as Hpos. rewrite Ey in Hpos.
  destruct (gi_data _ _ HI y Hy Hpos) as (Ho & Hle & Hnty). assert (y <> x) as Hne by (intros ->; congruence).
  destruct (Hother y ltac:(lia) Hne) as [Eo S]. rewrite Eo, (same_page_refs _ _ (S Ho)), (refs_replace _ _ e) by done.
  rewrite (decide_True _ _ eq_refl), decide_False; [|rewrite Ef, Ey; intros E; by apply Hne; symmetry; apply (frame_addr_inj cpu w x y)].
  split; [done|]. rewrite Ey. split; [lia|]. intros pl. rewrite Htab. apply Hnty.
Qed.

(** What the pages show after the exchange. *)
Lemma copied_view w4 : abs w4 = <[(ctx, va) := entry_of (virt_to_phys a) prot]> (abs w) ->
  phys_to_virt (pframe (entry_of (virt_to_phys a) prot)) = a ->
  (forall b, (forall pl, ~ table_at w pl b) -> w_mem w4 !! b = <[a := l]> (w_mem w) !! b) ->
  forall c v, is_Some (abs w !! (c, v)) -> page_view w4 c v = page_view w c v.
Proof using HI Hk Hl Hx Hst Hno Hsp Hnt.
  intros Eabs Ea Hmem c v [e1 H1]. unfold page_view. rewrite Eabs. destruct (decide ((c, v) = (ctx, va))) as [E|Hne].
  - rewrite E, lookup_insert_eq, Hk. cbn [mbind option_bind]. rewrite Ea, Hmem, lookup_insert_eq by exact Hnt. done.
  - rewrite lookup_insert_ne, H1 by done. cbn [mbind option_bind]. destruct (copied_new (c, v) e1 H1) as [Hd _].
    rewrite Hmem, lookup_insert_ne; [done|done|]. by eapply mapped_data.
Qed.

(** No other page has the new frame. *)
Lemma copied_isolated w4 v' : isolated w -> (forall b, managed w4 b <-> managed w b) -> abs w4 = <[(ctx, va) := v']> (abs w) ->
  pframe v' = frame_addr (w_pfa w) x -> isolated w4.
Proof using HI Hx Hst Hno Hsp.
  intros Hiso Hm Eabs Ef k k' e1 e2. rewrite Eabs, !lookup_insert. intros Hne H1 H2 E Hman. apply Hm in Hman.
  destruct (decide ((ctx, va) = k)) as [E1|E1], (decide ((ctx, va) = k')) as [E2|E2].
  - congruence.
  - exfalso. destruct (copied_new k' e2 H2) as [_ Hd]. injection H1 as <-. congruence.
  - exfalso. destruct (copied_new k e1 H1) as [_ Hd]. injection H2 as <-. congruence.
  - by apply (Hiso k k' e1 e2).
Qed.

(** Counts: the new frame has one reference, the old one lost one. *)
Lemma copied_counts w4 v' : counts_ok w -> same_shape (w_pfa w) (w_pfa w4) -> abs w4 = <[(ctx, va) := v']> (abs w) -> pframe v' = frame_addr (w_pfa w) x ->
  pg_refcount (pgt (w_pfa w4) x) <= 255 ->
  (forall y, 0 <= y < s_total_frames (w_pfa w) -> occupied (pgt (w_pfa w) y) = true -> occupied (pgt (w_pfa w4) y) = true -> pg_refcount (pgt (w_pfa w4) y) <= pg_refcount (pgt (w_pfa w) y)) ->
  pg_inv cpu w4 -> counts_ok w4.
Proof using HI Hk Hx.
  intros Hcnt Hsh Eabs Ef Hxc Hle HI4 y. pose proof Hsh as (Et & _). rewrite Et, (shape_addr _ _ y Hsh). intros Hy Hr.
  destruct (gi_data _ _ HI4 y) as (Ho4 & _); [by rewrite Et|by rewrite (shape_addr _ _ y Hsh)|].
  rewrite Eabs, (refs_replace _ _ e) in Hr by done. destruct (decide (y = x)) as [->|Hne]; [done|].
  assert (frame_addr (w_pfa w) x <> frame_addr (w_pfa w) y) as Hd by (intros E; apply Hne; symmetry; by apply (frame_addr_inj cpu w x y)).
  rewrite Ef, (decide_False _ _ Hd) in Hr. assert (0 < refs (abs w) (frame_addr (w_pfa w) y)) as Hr0 by (destruct (decide _); lia).
  destruct (gi_data _ _ HI y Hy Hr0) as (Ho & _). specialize (Hle y Hy Ho Ho4). specialize (Hcnt y Hy Hr0). lia.
Qed.
End copying.

Lemma served_tlb w w' l ctx va e e' : write_served w w' ctx va e e' -> write_served w (set_tlb w' l) ctx va e e'.
Proof.
  intros [A1 A2 A3 A4 A5 A6 A7 A8]. split; [by apply inv_tlb|unfold counts_ok; by rewrite abs_tlb|unfold isolated; by rewrite abs_tlb|done|by rewrite abs_tlb|done|done|].
  intros c v Hv. rewrite view_tlb. by apply A8.
Qed.

(** The copy: the page is exchanged and the reference of the old frame dropped. *)
Lemma copy_spec w ctx va e prot : pg_inv cpu w -> counts_ok w -> isolated w -> page_ok va -> abs w !! (ctx, va) = Some e ->
  is_Some (page_view w ctx va) -> has prot PG_WRITE = true -> has prot PG_USER = has e PTE_USER ->
  forall p' a x, 0 <= x < s_total_frames (w_pfa w) -> pstep (w_pfa w) p' x -> occupied (pgt (w_pfa w) x) = false -> pg_inv cpu (set_pfa w p') ->
  spare_frame (set_pfa w p') (abs w) a x ->
  exists w2 w3 w4, copy_page (set_pfa w p') a (phys_to_virt (pframe e)) = Some w2 /\
    jlos_arch_pte_replace w2 ctx va (virt_to_phys a) prot = Some (w3, true) /\
    on_pfa w3 (fun p => jlos_page_frame_refcount_dec p cpu (pframe e)) = Some w4 /\
    write_served w w4 ctx va e (entry_of (virt_to_phys a) prot) /\
    forall k e1, abs w !! k = Some e1 -> pframe e1 <> pframe (entry_of (virt_to_phys a) prot).
Proof.
  intros HI Hcnt Hiso Hp Hk [l Hl] Hw Hu p' a x Hx Hst Hno HI1 Hsp. unfold page_view in Hl. rewrite Hk in Hl. cbn [mbind option_bind] in Hl.
  unfold copy_page. cbn [w_mem set_pfa]. rewrite Hl. cbn [mbind option_bind]. set (w2 := set_mem (set_pfa w p') (<[a := l]> (w_mem w))).
  pose proof (copied_inv w e a x p' l HI Hl HI1 Hsp : pg_inv cpu w2) as HI2. pose proof (copied_abs w a x p' l HI1 Hsp : abs w2 = abs w) as Eabs2.
  pose proof (copied_tables w a x p' l Hsp : forall pl b, table_at w2 pl b <-> table_at w pl b) as Htab2.
  destruct (spare_owed cpu w2 a x HI2 (copied_spare w a x p' l HI1 Hsp)) as (Ev & Evv & Hr & Ha & Howed). pose proof Hst as (_ & Hsh & Hother).
  destruct (replace_spec cpu w2 ctx va e (virt_to_phys a) prot HI2 Hp) as (w3 & E3 & Hch3 & Hq3); [by rewrite Eabs2|done..|].
  destruct (new_entry (virt_to_phys a) prot) as (B1 & _ & B3 & B4). fold (entry_of (virt_to_phys a) prot) in B1, B3, B4.
  rewrite (pframe_id (virt_to_phys a)) in B1 by done. set (v' := entry_of (virt_to_phys a) prot) in *.
  assert (pframe v' = frame_addr (w_pfa w) x) as Ef by (rewrite B1, Ev; by apply shape_addr).
  pose proof (ch_abs _ _ _ _ _ Hch3) as Eabs3. rewrite Eabs2 in Eabs3. destruct Hq3 as (Epf3 & Htab3 & Hmem3). change (w_pfa w2) with p' in Epf3.
  assert (owed w3 (pframe e)) as Howed3.
  { apply (copied_owed w ctx va e a x p' prot); try done. intros pl b. by rewrite Htab3. }
  destruct (pframe_range e) as [Hre Hae]. destruct (drop_owed cpu w3 (pframe e) (ch_inv _ _ _ _ _ Hch3) Hre Hae Howed3) as (p4 & E4 & HI4 & Hsh4 & Hdrop & Hkeep).
  exists w2, w3, (set_pfa w3 p4). split; [done|]. split; [done|]. unfold on_pfa. rewrite E4. split; [done|].
  rewrite Epf3 in Hsh4, Hdrop, Hkeep. assert (same_shape (w_pfa w) p4) as Hsh04 by (by eapply same_shape_trans).
  assert (abs (set_pfa w3 p4) = <[(ctx, va) := v']> (abs w)) as Eabs4 by (by rewrite abs_pfa). pose proof Hsh as (Et & _).
  destruct (copied_new w a x p' HI Hx Hst Hno Hsp (ctx, va) e Hk) as [_ Hdx].
  assert (pg_refcount (pgt p4 x) = 1) as Hx4.
  { destruct Hsp as (_ & (_ & Ho & Hrc) & _). cbn [w_pfa set_pfa] in Ho, Hrc. destruct (Hkeep x ltac:(lia)) as [_ S]; [left; by rewrite (shape_addr _ _ x Hsh)|].
    by rewrite (same_page_refs _ _ (S Ho)). }
  split.
  - split; [done| | | |done|by rewrite B3|by rewrite B4|].
    + apply (copied_counts w ctx va e x HI Hk Hx (set_pfa w3 p4) v'); try done; [cbn [w_pfa set_pfa]; lia|]. cbn [w_pfa set_pfa].
      intros y Hy Ho Ho4. destruct (Hother y ltac:(lia)) as [Eo S]; [intros ->; congruence|]. rewrite <- (same_page_refs _ _ (S Ho)).
      destruct (decide (pframe e = frame_addr p' y)) as [Ey|Ey].
      * destruct (Hdrop y) as [D1 D2]; [lia|done|]. rewrite Ho4 in D1. destruct (Z.eqb_spec (pg_refcount (pgt p' y)) 1); [done|]. rewrite D2 by done. lia.
      * destruct (Hkeep y ltac:(lia)) as [_ S4]; [by left|]. rewrite (same_page_refs _ _ (S4 ltac:(congruence))). lia.
    + apply (copied_isolated w ctx va a x p' HI Hx Hst Hno Hsp (set_pfa w3 p4) v'); try done. intros b. by apply managed_shape.
    + intros k. cbn [w_ctxs set_pfa]. by rewrite (ch_ctx _ _ _ _ _ Hch3).
    + apply (copied_view w ctx va e a x p' l prot HI Hk Hl Hx Hst Hno Hsp (set_pfa w3 p4)); [done|fold v'; by rewrite B1|].
      intros b Hb. cbn [w_mem set_pfa]. rewrite Hmem3; [done|]. intros pl. rewrite Htab2. apply Hb.
  - intros k e1 H1. rewrite Ef. by apply (copied_new w a x p' HI Hx Hst Hno Hsp k e1).
Qed.

Lemma write_fault_spec w ctx va e : pg_inv cpu w -> counts_ok w -> isolated w -> page_ok va -> abs w !! (ctx, va) = Some e -> pframe e <> 0 ->
  is_Some (page_view w ctx va) ->
  exists w' r, write_fault cpu w ctx va = Some (w', Some r) /\
    match r with
    | Served => exists e', write_served w w' ctx va e e' /\ FlushPage va ∈ w_tlb w' /\
        (pframe e' = pframe e \/ forall k e1, abs w !! k = Some e1 -> pframe e1 <> pframe e')
    | Exited => w' = w /\ dry (w_pfa w) cpu
    | _ => False
    end.
Proof.
  intros HI Hcnt Hiso Hp Hk H0 Hv. destruct (mapped_walk cpu w ctx va e HI Hp Hk) as (t & _ & (c & Hc & Hr & _) & _). simpl in Hc.
  assert (is_Some (w_ctxs w !! ctx)) as Hctx by eauto. unfold write_fault.
  destruct (get_phys_spec cpu w ctx va HI Hctx Hp) as [(c' & Hc' & Hr')|E]; [simplify_eq|]. rewrite E, Hk. cbn [mbind option_bind].
  rewrite (proj2 (Z.eqb_neq _ _) H0). destruct (pte_reads cpu w ctx va HI Hctx Hp) as (_ & _ & E3). rewrite E3, Hk. cbn [mbind option_bind]. cbv zeta.
  destruct (refcount_read w (ctx, va) e HI Hcnt Hk) as (n & En & Hn). rewrite En. cbn [mbind option_bind].
  set (prot := Z.lor (prot_of e) PG_WRITE).
  assert (has prot PG_WRITE = true /\ has prot PG_USER = has e PTE_USER) as [Hw Hu].
  { unfold prot. rewrite !has_lor. destruct (prot_of_bits e) as [_ ->]. change (has PG_WRITE PG_WRITE) with true. change (has PG_WRITE PG_USER) with false.
    by rewrite orb_true_r, orb_false_r. }
  destruct (Z.leb_spec n 1) as [Hle|Hgt].
  - destruct (reuse_spec w ctx va e n prot HI Hcnt Hiso Hp Hk Hn Hle Hw Hu) as (w1 & -> & Hs). cbn [mbind option_bind].
    exists (flushed w1 (FlushPage va)), Served. split; [done|]. exists (reflag e prot). split; [by apply (served_tlb w w1 (FlushPage va :: w_tlb w1))|].
    split; [left|left]. apply reflag_bits.
  - destruct (take_spec cpu w HI) as (p' & r & -> & HI1 & Htake). cbn [mbind option_bind]. destruct r as [a|].
    2: { destruct Htake as [-> Hdry]. exists w, Exited. split; [by destruct w|done]. }
    destruct Htake as (x & Hx & Hst & Hno & Hsp).
    destruct (copy_spec w ctx va e prot HI Hcnt Hiso Hp Hk Hv Hw Hu p' a x Hx Hst Hno HI1 Hsp) as (w2 & w3 & w4 & -> & E5 & E6 & Hs & Hnew).
    cbn [mbind option_bind]. rewrite E5. cbn [mbind option_bind]. rewrite u32_small by apply pframe_range. rewrite E6. cbn [mbind option_bind].
    exists (flushed w4 (FlushPage va)), Served. split; [done|]. eexists. split; [by apply (served_tlb w w4 (FlushPage va :: w_tlb w4))|]. split; [left|by right].
Qed.
End cow.

(** ** The table of instructions *)

Lemma order_cmp_le a b : le_by jlos_extable_order_cmp a b <-> insn a <= insn b.
Proof. unfold le_by, jlos_extable_order_cmp. cbv zeta. destruct (Z.ltb_spec (insn a) (insn b)), (Z.ltb_spec (insn b) (insn a)); lia. Qed.

Lemma sorted_prefix (P : Z -> bool) table : StronglySorted (le_by jlos_extable_order_cmp) table ->
  (forall a b, a <= b -> P b = true -> P a = true) -> prefix_pred table (fun x => P (insn x)).
Proof.
  intros Hs HP. induction Hs as [|x l Hs IH Hx]; intros i j Hij Hj; [simpl in Hj; lia|]. destruct j as [|j]; [lia|]. simpl in Hj. destruct i as [|i]; simpl.
  - apply HP. rewrite Forall_forall in Hx. apply order_cmp_le, Hx, list_elem_of_lookup_total_2. lia.
  - apply IH; lia.
Qed.

Lemma extable_cmp_bits ip x : (0 <? jlos_extable_cmp ip x) = (insn x <? ip) /\ (0 <=? jlos_extable_cmp ip x) = (insn x <=? ip) /\ (jlos_extable_cmp ip x = 0 <-> insn x = ip).
Proof. unfold jlos_extable_cmp. cbv zeta. destruct (Z.ltb_spec ip (insn x)), (Z.ltb_spec (insn x) ip); lia. Qed.

(** After the sort a lookup finds the fixup of the instruction, if it has one. *)
Lemma extable_spec table : blocks 8 table ->
  exists sorted, jlos_extable_sort_init table = Some sorted /\
    forall ip, exists f, jlos_er_extable_lookup sorted ip = Some f /\
      ((exists b, b ∈ table /\ insn b = ip /\ f = fixup b) \/ f = 0 /\ forall b, b ∈ table -> insn b <> ip).
Proof.
  intros Hb. unfold jlos_extable_sort_init.
  destruct (heap_sort_sorted jlos_extable_order_cmp) with (size := 8%nat) (arr := table) as (sorted & -> & Hp & Hs); [..|done|done|].
  { intros a b. unfold jlos_extable_order_cmp. cbv zeta. destruct (Z.ltb_spec (insn a) (insn b)), (Z.ltb_spec (insn b) (insn a)); lia. }
  { intros a b c. rewrite !order_cmp_le. lia. }
  exists sorted. split; [done|]. intros ip. unfold jlos_er_extable_lookup.
  destruct (bsearch_spec jlos_extable_cmp ip sorted) as (r & -> & Hr).
  { intros i j Hij Hj. cbv beta. rewrite !(proj1 (extable_cmp_bits _ _)). by apply (sorted_prefix (fun v => v <? ip)); [|lia|..]. }
  { intros i j Hij Hj. cbv beta. rewrite !(proj1 (proj2 (extable_cmp_bits _ _))). by apply (sorted_prefix (fun v => v <=? ip)); [|lia|..]. }
  cbn [mbind option_bind]. destruct r as [i|].
  - destruct Hr as (Hi & Heq & _). rewrite (list_lookup_lookup_total_lt sorted i Hi). cbn [mbind option_bind]. eexists. split; [done|]. left. exists (sorted !!! i).
    split; [rewrite <- Hp; by apply list_elem_of_lookup_total_2|]. split; [|done]. by apply extable_cmp_bits.
  - exists 0. split; [done|]. right. split; [done|]. intros b Hbt E. rewrite <- Hp in Hbt. apply list_elem_of_lookup_total_1 in Hbt as (i & Hi & <-).
    apply (Hr i Hi). by apply extable_cmp_bits.
Qed.

(** ** The handler *)

Section faults.
Context (cpu : Z) (fuel : nat) {A : Type} `{OS : ObjSource A} `{OL : !ObjSourceLaws A}.
#[local] Instance fault_tables : Paging pworld := x86_paging cpu.
#[local] Instance fault_laws : PagingLaws pworld := x86_paging_laws cpu.

Lemma page_align_ok addr : 0 <= addr < USER_SPACE_LIMIT -> page_ok (page_align_down addr).
Proof. intros Ha. unfold USER_SPACE_LIMIT, KERNEL_VIRTUAL_BASE in Ha. destruct (page_align_down_spec addr) as [? ?]; [lia|]. split; [|done]. Z.div_mod_to_equations; lia. Qed.

(** C2. A write to a page that is present is served without any page of any address
    space changing what it shows: afterwards the page can be written, no frame is
    shared between a writable page and another page, the page keeps its frame when
    it was the last page of it and otherwise has a copy on a frame that no page had,
    the counts agree, and the old translation is flushed.  Only without a free
    frame the task ends instead, and then nothing has changed. *)
Theorem page_fault_cow_correct table task mm (s : vstate A pworld) ip addr error e :
  jlos_er_extable_lookup table ip = Some 0 -> ft_mm task = Some mm -> has error 0x01 = true -> has error 0x02 = true ->
  0 <= addr < USER_SPACE_LIMIT -> pg_inv cpu (world s) -> counts_ok (world s) -> isolated (world s) ->
  abs (world s) !! (mm_pc mm, page_align_down addr) = Some e -> pframe e <> 0 -> is_Some (page_view (world s) (mm_pc mm) (page_align_down addr)) ->
  exists w' r, jlos_paging_page_fault_handler cpu fuel table (Some task) s ip addr error = Some (set_world s w', r) /\
    match r with
    | Served => exists e', write_served cpu (world s) w' (mm_pc mm) (page_align_down addr) e e' /\ FlushPage (page_align_down addr) ∈ w_tlb w' /\
        (pframe e' = pframe e \/ forall k e1, abs (world s) !! k = Some e1 -> pframe e1 <> pframe e')
    | Exited => w' = world s /\ dry (w_pfa (world s)) cpu
    | _ => False
    end.
Proof.
  intros Hl Hm Hp Hw Ha HI Hcnt Hiso Hk H0 Hv.
  destruct (write_fault_spec cpu (world s) (mm_pc mm) (page_align_down addr) e HI Hcnt Hiso (page_align_ok addr Ha) Hk H0 Hv) as (w' & r & E & Hr).
  unfold jlos_paging_page_fault_handler. rewrite Hl. cbn [mbind option_bind]. change (0 =? 0) with true. cbn [negb]. cbv zeta.
  rewrite Hm, bool_decide_true, (proj2 (Z.ltb_lt _ _) (proj2 Ha)), Hp, Hw by eauto. cbn [negb andb]. rewrite andb_false_r. cbn [mbind option_bind].
  rewrite ?Hm. cbn [mbind option_bind]. rewrite E. cbn [mbind option_bind default]. by exists w', r.
Qed.

End faults.
