(* ===== verification/Isolation.v ===== *)
(** * Address spaces stay apart

    The steps that the kernel and its tasks take on pages and frames, as a labelled
    transition system over the operations of [Paging], [X86Paging] and [PageFault]:
    the invariant of all reachable states, and what a step can change of the pages
    that others see. *)
From S2P Require Import Prelude RBTree Pfa PfaInv PfaCpu PageSource FrameStep MemIface Vma VmaInv X86Paging Paging PagingInv PagingCow PagingOps PageFault.

Section steps.
Variable cpu : Z.

(** Every page has memory behind it. *)
Definition backed (w : pworld) : Prop := forall c v, is_Some (abs w !! (c, v)) -> is_Some (page_view w c v).

Record vm_inv (w : pworld) : Prop := {
  vi_inv : pg_inv cpu w;
  vi_counts : counts_ok w;
  vi_isolated : isolated w;
  vi_backed : backed w
}.

(** A word of memory written through a page. *)
Definition write_word (w : pworld) (e i x : Z) : option pworld := store w (phys_to_virt (pframe e)) i x.

Inductive vm_label :=
| Take | Give | Fill (l : list Z)
| Map (ctx va : Z) | Unmap (ctx va : Z) | Fork (src dst : Z) | Fault (ctx va : Z) | Write (ctx va : Z).

(** The kernel takes, fills and gives back frames, maps a frame it holds, unmaps a
    page, shares a range of pages on write, serves a fault on a write; a task writes
    to a page that allows it. *)
Inductive vm_step : pworld -> vm_label -> pworld -> Prop :=
| StepTake w w' r : take_frame cpu w = Some (w', r) -> vm_step w Take w'
| StepGive w w' a x : spare_frame w (abs w) a x -> give_frame cpu w a = Some w' -> vm_step w Give w'
| StepFill w a x l : spare_frame w (abs w) a x -> length l = 1024%nat -> vm_step w (Fill l) (set_mem w (<[a := l]> (w_mem w)))
| StepMap w w' ctx va a x prot b : is_Some (w_ctxs w !! ctx) -> page_ok va -> spare_frame w (abs w) a x -> is_Some (w_mem w !! a) ->
    jlos_paging_map cpu w ctx va (virt_to_phys a) prot = Some (w', b) -> vm_step w (Map ctx va) w'
| StepUnmap w w' ctx va b : is_Some (w_ctxs w !! ctx) -> page_ok va -> jlos_paging_unmap cpu w ctx va = Some (w', b) -> vm_step w (Unmap ctx va) w'
| StepFork w w' src dst c start end_ b : w_ctxs w !! src = Some c -> pc_root c <> 0 -> is_Some (w_ctxs w !! dst) -> src <> dst ->
    0 <= start -> start < end_ -> end_ <= 0xC0000000 ->
    jlos_paging_cow_range cpu w src dst start end_ = Some (w', b) -> vm_step w (Fork src dst) w'
| StepFault w w' ctx va e r : page_ok va -> abs w !! (ctx, va) = Some e -> pframe e <> 0 -> write_fault cpu w ctx va = Some (w', r) -> vm_step w (Fault ctx va) w'
| StepWrite w w' ctx va e i x : abs w !! (ctx, va) = Some e -> has e PTE_WRITABLE = true -> managed w (pframe e) -> write_word w e i x = Some w' -> vm_step w (Write ctx va) w'.

(** The counters of the allocator have eight bits and the code does not watch them: the
    entries of a table, and the references of a frame.  A step fits them when a mapping
    finds fewer than 255 pages in its table, and a sharing of address spaces leaves no
    table and no frame with more than 255. *)
Definition fits_counters (w : pworld) (lab : vm_label) : Prop :=
  match lab with
  | Map ctx va => count (in_table ctx (jlos_paging_get_page_dir_index va)) (abs w) < 255
  | Fork src dst =>
    (forall i, count (in_table dst i) (abs w) + count (in_table src i) (abs w) <= 255) /\
    (forall y, 0 <= y < s_total_frames (w_pfa w) -> 0 < refs (abs w) (frame_addr (w_pfa w) y) ->
       pg_refcount (pgt (w_pfa w) y) + refs (abs w) (frame_addr (w_pfa w) y) <= 255)
  | _ => True
  end.

(** The pages a step is meant to change: what a write stores to, and what an unmapping
    removes. *)
Definition concerns (lab : vm_label) (c v : Z) : Prop :=
  match lab with
  | Unmap ctx va | Write ctx va => (c, v) = (ctx, va)
  | _ => False
  end.

(** What a step promises: the invariant, and that the pages it is not about show the
    same. *)
Definition step_ok (w : pworld) (lab : vm_label) (w' : pworld) : Prop :=
  vm_inv w' /\ forall c v, is_Some (abs w !! (c, v)) -> ~ concerns lab c v -> is_Some (abs w' !! (c, v)) /\ page_view w' c v = page_view w c v.

(** States with the same map and the same frames of pages. *)
Lemma same_map_ok w w' lab : vm_inv w -> pg_inv cpu w' -> abs w' = abs w -> same_shape (w_pfa w) (w_pfa w') ->
  (forall y, 0 <= y < s_total_frames (w_pfa w) -> 0 < refs (abs w) (frame_addr (w_pfa w) y) -> pg_refcount (pgt (w_pfa w') y) = pg_refcount (pgt (w_pfa w) y)) ->
  (forall k e, abs w !! k = Some e -> w_mem w' !! phys_to_virt (pframe e) = w_mem w !! phys_to_virt (pframe e)) -> step_ok w lab w'.
Proof.
  intros [HI Hc Hiso Hb] HI' Eabs Hsh Hrc Hmem. pose proof Hsh as (Et & _).
  assert (forall c v, page_view w' c v = page_view w c v) as Hv.
  { intros c v. unfold page_view. rewrite Eabs. destruct (abs w !! (c, v)) as [e|] eqn:He; [|done]. cbn [mbind option_bind]. by eapply Hmem. }
  split; [split; [done| | |]|intros c v ? _; by rewrite Eabs, Hv].
  - intros y. rewrite Et, (shape_addr _ _ y Hsh), Eabs. intros Hy Hr. rewrite Hrc by done. by apply Hc.
  - intros k k' e e'. rewrite Eabs. intros Hne H1 H2 Ef Hm. apply (Hiso k k' e e' Hne H1 H2 Ef). by apply (managed_shape w w').
  - intros c v. rewrite Eabs, Hv. apply Hb.
Qed.

Lemma take_ok w w' r : vm_inv w -> take_frame cpu w = Some (w', r) -> step_ok w Take w'.
Proof.
  intros HV E. pose proof HV as [HI _ _ _]. destruct (take_spec cpu w HI) as (p' & r' & E' & HI' & Hr). rewrite E in E'. injection E' as -> ->. destruct r' as [a|].
  - destruct Hr as (x & Hx & (Hd & Hsh & Hother) & Hno & _). apply same_map_ok; [done|done|apply abs_pfa|done| |done]. intros y Hy Hry.
    destruct (gi_data _ _ HI y Hy Hry) as (Ho & _). assert (y <> x) as Hne by (intros ->; congruence). destruct (Hother y ltac:(lia) Hne) as [_ S].
    apply (same_page_refs _ _ (S Ho)).
  - destruct Hr as [-> _]. apply same_map_ok; [done|done|apply abs_pfa|done..].
Qed.

Lemma give_ok w w' a x : vm_inv w -> spare_frame w (abs w) a x -> give_frame cpu w a = Some w' -> step_ok w Give w'.
Proof.
  intros HV Hsp E. pose proof HV as [HI _ _ _]. destruct (x86_free_law cpu w a HI) as (w1 & E1 & HI1 & _); [by exists x|]. change (give_frame cpu w a = Some w1) in E1. rewrite E in E1. injection E1 as ->.
  revert E. destruct (spare_owed cpu w a x HI Hsp) as (Ev & _). destruct Hsp as (_ & (Hx & Ho & Hr) & Hrf & Hnt).
  unfold give_frame, on_pfa, jlos_page_frame_free. rewrite Ev.
  destruct (refcount_dec_step (w_pfa w) x (gi_pfa _ _ HI) Hx cpu (gi_cpu _ _ HI) Ho ltac:(lia)) as (p' & -> & (_ & Hsh & Hother) & _). cbn [mbind option_bind].
  intros [= <-]. apply same_map_ok; [done|done|apply abs_pfa|done| |done]. intros y Hy Hry. assert (y <> x) as Hne by (intros ->; lia).
  destruct (gi_data _ _ HI y Hy Hry) as (Hoy & _). destruct (Hother y ltac:(lia) Hne) as [_ S]. apply (same_page_refs _ _ (S Hoy)).
Qed.

(** The frame of a page is not in the hands of the kernel. *)
Lemma spare_not_mapped w a x k e : pg_inv cpu w -> spare_frame w (abs w) a x -> abs w !! k = Some e -> phys_to_virt (pframe e) <> a.
Proof.
  intros HI (-> & (Hx & _) & Hrf & _) Hk E%(frame_page cpu); [|done..]. by apply (refs_zero _ _ Hrf k e).
Qed.

Lemma fill_ok w a x l : vm_inv w -> spare_frame w (abs w) a x -> length l = 1024%nat -> step_ok w (Fill l) (set_mem w (<[a := l]> (w_mem w))).
Proof.
  intros HV Hsp Hl. pose proof HV as [HI _ _ _]. pose proof Hsp as (_ & _ & _ & Hnt). apply same_map_ok; [done|by apply off_inv|by apply (off_abs cpu)|done|done|].
  intros k e Hk. cbn [w_mem set_mem]. rewrite lookup_insert_ne; [done|]. symmetry. by apply (spare_not_mapped w a x k e).
Qed.

(** A frame that holds data keeps its count when the map changes around it. *)
Lemma changes_count w w' M y : pg_inv cpu w -> changes cpu w w' M (fun _ => False) -> 0 <= y ->
  occupied (pgt (w_pfa w) y) = true -> (forall pl, ~ table_at w pl (page_of (w_pfa w) y)) -> pg_refcount (pgt (w_pfa w') y) = pg_refcount (pgt (w_pfa w) y).
Proof. intros HI Hch Hy Ho Hnt. destruct (changes_frame cpu w w' M y HI Hch Hy Ho Hnt) as [S _]. by apply same_page_refs. Qed.

Lemma map_ok w w' ctx va a x prot b : vm_inv w -> is_Some (w_ctxs w !! ctx) -> page_ok va -> spare_frame w (abs w) a x -> is_Some (w_mem w !! a) ->
  count (in_table ctx (jlos_paging_get_page_dir_index va)) (abs w) < 255 ->
  jlos_paging_map cpu w ctx va (virt_to_phys a) prot = Some (w', b) -> step_ok w (Map ctx va) w'.
Proof.
  intros HV Hc Hp Hsp Hmem Hroom E. pose proof HV as [HI Hcnt Hiso Hb]. destruct (spare_owed cpu w a x HI Hsp) as (Ev & Evv & Hr & Ha & Ho).
  destruct (paging_map_spec cpu w ctx va (virt_to_phys a) prot HI Hc Hp (room_count cpu w ctx va HI Hroom) Hr Ha Ho) as (w1 & b1 & E1 & Hb1).
  rewrite E in E1. injection E1 as -> ->. destruct b1.
  2: { destruct Hb1 as [Hch _]. apply same_map_ok; [done|apply Hch|apply Hch|apply Hch| |].
       - intros y Hy Hry. destruct (gi_data _ _ HI y Hy Hry) as (Hoy & _ & Hnt). apply (changes_count w w1 (abs w)); [done|done|lia|done|done].
       - intros k e Hk. apply (ch_data _ _ _ _ _ Hch). by eapply mapped_data. }
  destruct Hb1 as (Hn & Hch & _). pose proof (ch_abs _ _ _ _ _ Hch) as Eabs. pose proof (changes_system cpu _ _ _ Hch) as Hss. pose proof (ss_shape _ _ Hss) as Hsh. pose proof Hsh as (Et & _).
  destruct (new_entry (virt_to_phys a) prot) as (B1 & _). fold (entry_of (virt_to_phys a) prot) in B1. rewrite (pframe_id (virt_to_phys a)) in B1 by done.
  set (v' := entry_of (virt_to_phys a) prot) in *. pose proof Hsp as (Ea & (Hx & Hox & Hrx) & Hrf & Hnt).
  assert (forall c v, is_Some (abs w !! (c, v)) -> is_Some (abs w1 !! (c, v)) /\ page_view w1 c v = page_view w c v) as Hold.
  { intros c v [e He]. assert (abs w1 !! (c, v) = Some e) as He' by (rewrite Eabs, lookup_insert_ne; [done|]; intros [= <- <-]; congruence).
    split; [by eexists|]. by apply (page_view_same cpu w w1 c v e e). }
  split; [split|intros c v Hv _; by apply Hold].
  - apply Hch.
  - intros y. rewrite Et, (shape_addr _ _ y Hsh), Eabs, refs_insert, B1, Ev by done. intros Hy Hry. destruct (decide (y = x)) as [->|Hne].
    + rewrite (changes_count w w1 _ x HI Hch) by (done || lia || by rewrite <- Ea). lia.
    + rewrite decide_False in Hry by (intros E2; apply Hne; symmetry; by apply (frame_addr_inj cpu w x y)). rewrite Z.add_0_r in Hry.
      destruct (gi_data _ _ HI y Hy Hry) as (Hoy & _ & Hnty). rewrite (changes_count w w1 _ y HI Hch) by (done || lia). by apply Hcnt.
  - intros k k' e1 e2. rewrite Eabs, !lookup_insert. intros Hne H1 H2 Ef Hm. apply (managed_shape _ _ _ Hsh) in Hm.
    assert (forall k0 e0, abs w !! k0 = Some e0 -> pframe e0 <> pframe v') as Hnew by (intros k0 e0 H0; rewrite B1, Ev; by apply (refs_zero _ _ Hrf k0)).
    destruct (decide ((ctx, va) = k)) as [E1|E1], (decide ((ctx, va) = k')) as [E2|E2]; [congruence|injection H1 as <-; by edestruct Hnew|injection H2 as <-; by edestruct Hnew|].
    by apply (Hiso k k' e1 e2).
  - intros c v. destruct (decide ((c, v) = (ctx, va))) as [[= -> ->]|Hne].
    + intros _. unfold page_view. rewrite Eabs, lookup_insert_eq. cbn [mbind option_bind]. rewrite B1, Evv, (ch_data _ _ _ _ _ Hch); [done|].
      split; [done|]. rewrite Ea. by intros y _ <-%page_of_inj.
    + rewrite Eabs, lookup_insert_ne by done. intros Hv. destruct (Hold c v Hv) as [_ ->]. by apply Hb.
Qed.

Lemma unmap_ok w w' ctx va b : vm_inv w -> is_Some (w_ctxs w !! ctx) -> page_ok va -> jlos_paging_unmap cpu w ctx va = Some (w', b) -> step_ok w (Unmap ctx va) w'.
Proof.
  intros HV Hc Hp E. pose proof HV as [HI Hcnt Hiso Hb]. destruct (paging_unmap_spec cpu w ctx va HI Hc Hp) as (w1 & b1 & E1 & Hch & Hrel & _ & _ & Htab).
  rewrite E in E1. injection E1 as -> ->. pose proof (ch_abs _ _ _ _ _ Hch) as Eabs. pose proof (ch_shape _ _ _ _ _ Hch) as Hsh. pose proof Hsh as (Et & _).
  assert (forall c v, is_Some (abs w !! (c, v)) -> (c, v) <> (ctx, va) -> is_Some (abs w1 !! (c, v)) /\ page_view w1 c v = page_view w c v) as Hold.
  { intros c v [e He] Hne. unfold page_view. rewrite Eabs, lookup_delete_ne, He by done. split; [by eexists|]. cbn [mbind option_bind].
    apply (ch_data _ _ _ _ _ Hch). by eapply mapped_data. }
  assert (forall k e, abs w1 !! k = Some e -> abs w !! k = Some e) as Hsub by (intros k e; rewrite Eabs; by intros [_ ?]%lookup_delete_Some).
  split; [split; [apply Hch| | |]|intros c v Hv Hn; by apply Hold].
  - intros y. rewrite Et, (shape_addr _ _ y Hsh). intros Hy Hry.
    destruct (gi_data _ _ (ch_inv _ _ _ _ _ Hch) y) as (Ho1 & _); [by rewrite Et|by rewrite (shape_addr _ _ y Hsh)|].
    assert (0 < refs (abs w) (frame_addr (w_pfa w) y)) as Hr0.
    { rewrite Eabs in Hry. destruct (abs w !! (ctx, va)) as [e|] eqn:He; [|by rewrite delete_id in Hry]. rewrite (refs_delete _ _ _ _ He) in Hry. destruct (decide _); lia. }
    destruct (gi_data _ _ HI y Hy Hr0) as (Ho & _ & Hnt). specialize (Hcnt y Hy Hr0).
    destruct (abs w !! (ctx, va)) as [e|] eqn:He; [destruct (decide (pframe e = frame_addr (w_pfa w) y)) as [Ey|Ey]|].
    1: { destruct (Hrel e y He Hy Ey) as [R1 R2]. rewrite Ho1 in R1. destruct (Z.eqb_spec (pg_refcount (pgt (w_pfa w) y)) 1); [done|]. rewrite R2 by done. lia. }
    all: destruct (ch_frames _ _ _ _ _ Hch y ltac:(lia)) as [_ S]; [intros pl Ht; by apply (Hnt pl), Htab| |by rewrite (same_page_refs _ _ (S Ho))].
    all: intros [(e0 & He0 & E0)|Ht]; [congruence|by apply (Hnt (ctx, Some (jlos_paging_get_page_dir_index va)))].
  - intros k k' e1 e2 Hne H1%Hsub H2%Hsub Ef Hm. apply (managed_shape _ _ _ Hsh) in Hm. by apply (Hiso k k' e1 e2).
  - intros c v [e He]. destruct (decide ((c, v) = (ctx, va))) as [E0|Hne]; [rewrite E0, Eabs, lookup_delete_eq in He; done|].
    destruct (Hold c v) as [_ ->]; [rewrite (Hsub _ _ He); eauto|done|]. apply Hb. rewrite (Hsub _ _ He). eauto.
Qed.

Lemma fault_ok w w' ctx va e r : vm_inv w -> page_ok va -> abs w !! (ctx, va) = Some e -> pframe e <> 0 -> write_fault cpu w ctx va = Some (w', r) -> step_ok w (Fault ctx va) w'.
Proof.
  intros HV Hp Hk H0 E. pose proof HV as [HI Hcnt Hiso Hb].
  destruct (write_fault_spec cpu w ctx va e HI Hcnt Hiso Hp Hk H0) as (w1 & r1 & E1 & Hr); [apply Hb; eauto|]. rewrite E in E1. injection E1 as -> ->.
  destruct r1; [done| |done|destruct Hr as [-> _]; by apply same_map_ok]. destruct Hr as (e' & [S1 S2 S3 _ S5 _ _ S8] & _).
  assert (forall c v, is_Some (abs w1 !! (c, v)) <-> is_Some (abs w !! (c, v))) as Hdom.
  { intros c v. rewrite S5, lookup_insert. case_decide as Ek; [|done]. rewrite <- Ek, Hk. split; eauto. }
  split; [split; [done|done|done|]|].
  - intros c v Hv%Hdom. rewrite S8 by done. by apply Hb.
  - intros c v Hv _. split; [by apply Hdom|by apply S8].
Qed.

Lemma mapped_page_ok w c v e : abs w !! (c, v) = Some e -> page_ok v.
Proof. rewrite abs_lookup. by case_decide. Qed.

(** What the pages show after pages were shared. *)
Lemma cow_views w w' src dst lo hi D : pg_inv cpu w -> same_system w w' -> cow_result D (abs w) (abs w') src dst lo hi -> src <> dst ->
  (forall c v, is_Some (abs w !! (c, v)) -> is_Some (abs w' !! (c, v)) /\ page_view w' c v = page_view w c v) /\
  (forall c v, is_Some (abs w' !! (c, v)) -> abs w !! (c, v) = None -> c = dst /\ is_Some (abs w !! (src, v)) /\ page_view w' c v = page_view w src v).
Proof.
  intros HI Hss [R1 R2] Hne. split.
  - intros c v [e He]. pose proof (mapped_page_ok _ _ _ _ He) as [_ Hv].
    assert (exists e', abs w' !! (c, v) = Some e' /\ pframe e' = pframe e) as (e' & He' & Ef).
    { destruct (decide (lo <= v < hi)) as [Hin|Hin]; [|exists e; rewrite R2 by tauto; done].
      destruct (decide (c = src)) as [->|H1]; [destruct (R1 v e Hin Hv He) as [-> _]; eexists; split; [done|]; apply ro_bits|].
      destruct (decide (c = dst)) as [->|H2]; [|exists e; rewrite R2 by tauto; done].
      destruct (abs w !! (src, v)) as [es|] eqn:Es; [|exists e; rewrite R2; [done|]; intros (_ & _ & []); congruence].
      destruct (R1 v es Hin Hv Es) as [_ [[_ Hn]|[-> _]]]; [congruence|by exists e]. }
    split; [by eexists|]. by apply (page_view_same cpu w w' c v e e').
  - intros c v [e He] Hn. pose proof (mapped_page_ok _ _ _ _ He) as [_ Hv].
    destruct (decide (lo <= v < hi /\ (c = src \/ c = dst) /\ is_Some (abs w !! (src, v)))) as [(Hin & Hc & [es Es])|Ho]; [|rewrite R2 in He by done; congruence].
    assert (c = dst) as -> by (destruct Hc as [->|?]; [congruence|done]). split; [done|]. split; [by eexists|].
    destruct (R1 v es Hin Hv Es) as [_ [[Hd _]|[Hd _]]]; [|congruence]. unfold page_view. rewrite Hd, Es. cbn [mbind option_bind].
    rewrite (proj1 (shared_bits es)). eapply ss_data; [done|]. by eapply mapped_data.
Qed.

Lemma fork_ok w w' src dst c start end_ b : vm_inv w -> w_ctxs w !! src = Some c -> pc_root c <> 0 -> is_Some (w_ctxs w !! dst) -> src <> dst ->
  0 <= start -> start < end_ -> end_ <= 0xC0000000 ->
  (forall i, count (in_table dst i) (abs w) + count (in_table src i) (abs w) <= 255) ->
  (forall y, 0 <= y < s_total_frames (w_pfa w) -> 0 < refs (abs w) (frame_addr (w_pfa w) y) ->
     pg_refcount (pgt (w_pfa w) y) + refs (abs w) (frame_addr (w_pfa w) y) <= 255) ->
  jlos_paging_cow_range cpu w src dst start end_ = Some (w', b) -> step_ok w (Fork src dst) w'.
Proof.
  intros HV Hc Hr Hd Hne H0 H1 H2 Ht Hrf E. pose proof HV as [HI Hcnt Hiso Hb].
  destruct (cow_range_spec cpu w src dst c start end_ HI Hc Hr Hd Hne H0 H1 H2 Ht Hrf) as (w1 & E1 & HI1 & Hss & Hres & Hi & _ & Hc1).
  rewrite E in E1. injection E1 as -> ->. destruct (cow_views w w1 src dst _ _ _ HI Hss Hres Hne) as [V1 V2].
  split; [split; [done|done|by apply Hi|]|intros cx v Hv _; by apply V1]. intros cx v Hv. destruct (abs w !! (cx, v)) as [e|] eqn:He.
  - destruct (V1 cx v) as [_ ->]; [eauto|]. apply Hb. eauto.
  - destruct (V2 cx v Hv He) as (-> & Hs & ->). by apply Hb.
Qed.

Lemma write_ok w w' ctx va e i x : vm_inv w -> abs w !! (ctx, va) = Some e -> has e PTE_WRITABLE = true -> managed w (pframe e) -> write_word w e i x = Some w' ->
  step_ok w (Write ctx va) w'.
Proof.
  intros HV Hk Hw Hm. pose proof HV as [HI Hcnt Hiso Hb]. destruct (mapped_data cpu w (ctx, va) e HI Hk) as [Hnt _]. unfold write_word, store.
  set (a := phys_to_virt (pframe e)) in *. destruct (w_mem w !! a) as [l|] eqn:Hl; cbn [mbind option_bind]; [|done].
  destruct (seti l i x) as [l'|] eqn:Es; cbn [mbind option_bind]; [|done]. intros [= <-].
  assert (length l' = 1024%nat) as Hl' by (unfold seti in Es; repeat case_match; simplify_eq; rewrite length_insert; by apply (gi_words _ _ HI a)).
  pose proof (off_inv cpu w a l' HI Hnt Hl') as HI'. pose proof (off_abs cpu w a l' HI Hnt) as Eabs. set (w' := set_mem w (<[a := l']> (w_mem w))) in *.
  assert (forall c v, (c, v) <> (ctx, va) -> page_view w' c v = page_view w c v) as Hother.
  { intros c v Hne. unfold page_view. rewrite Eabs. destruct (abs w !! (c, v)) as [e1|] eqn:He1; [|done]. cbn [mbind option_bind w' w_mem set_mem].
    rewrite lookup_insert_ne; [done|]. unfold a. intros Ef%phys_to_virt_inj; [|apply pframe_range..].
    assert (has e PTE_WRITABLE = false) by (apply (Hiso (ctx, va) (c, v) e e1); [congruence|done..]). congruence. }
  split; [split; [done| | |]|intros c v Hv Hn; rewrite Eabs; split; [done|by apply Hother]].
  - intros y. rewrite Eabs. apply Hcnt.
  - intros k k' e1 e2. rewrite Eabs. apply Hiso.
  - intros c v. rewrite Eabs. intros Hv. destruct (decide ((c, v) = (ctx, va))) as [[= -> ->]|Hne]; [|rewrite Hother by done; by apply Hb].
    unfold page_view. rewrite Eabs, Hk. cbn [mbind option_bind w' w_mem set_mem]. fold a. rewrite lookup_insert_eq. eauto.
Qed.

Lemma vm_step_ok w lab w' : vm_inv w -> fits_counters w lab -> vm_step w lab w' -> step_ok w lab w'.
Proof.
  intros HV Hf Hs. destruct Hs; cbn [fits_counters] in Hf; eauto using take_ok, give_ok, fill_ok, map_ok, unmap_ok, fault_ok, write_ok.
  destruct Hf. eauto using fork_ok.
Qed.

(** A run, with the state before each of its steps. *)
Inductive vm_steps : pworld -> list (pworld * vm_label) -> pworld -> Prop :=
| vm_done w : vm_steps w [] w
| vm_next w lab w1 run w2 : vm_step w lab w1 -> vm_steps w1 run w2 -> vm_steps w ((w, lab) :: run) w2.

(** C1. Address spaces stay apart.  From a consistent state, however the kernel takes,
    fills and frees frames, maps and unmaps pages, shares address spaces on write and
    serves write faults, and wherever tasks write, as long as each step fits the
    eight-bit counters (without that [present_count_wraps] shows the tables break): the tables, the reference counts
    and the isolation of pages stay consistent, and a page shows the same words as
    before unless the task wrote to this very page or it was unmapped. *)
Theorem vm_isolation w run w' : vm_inv w -> vm_steps w run w' -> Forall (fun st => fits_counters st.1 st.2) run ->
  vm_inv w' /\ forall c v, is_Some (abs w !! (c, v)) -> Forall (fun st => ~ concerns st.2 c v) run ->
    is_Some (abs w' !! (c, v)) /\ page_view w' c v = page_view w c v.
Proof.
  intros HV Hs. induction Hs as [w|w lab w1 run w2 H1 _ IH]; [done|]. intros [Hf Hfs]%Forall_cons. destruct (vm_step_ok w lab w1 HV Hf H1) as [HV1 Hok].
  destruct (IH HV1 Hfs) as [HV2 Hrest]. split; [done|]. intros c v Hv [Hl Hls]%Forall_cons. destruct (Hok c v Hv Hl) as [Hm <-]. by apply Hrest.
Qed.
End steps.

(** ** Sharing pages on write *)

(** C3. [jlos_paging_cow_range] shares a range of pages, when no table and no frame
    gets more than the 255 the counters hold: each page of the source
    keeps its frame without write access and all processors are told to drop the old
    translation; the copy gets the same frame without write access, unless it has a
    page there already or no frame was left for a table: such a page is missing from the
    copy although the function reports success; no other page changes.  What
    every page shows stays, and a page of the copy shows what the source shows.
    Afterwards no frame is shared between a writable page and another page, if that
    was so before. *)
Theorem cow_range_correct cpu w src dst c start end_ : pg_inv cpu w -> w_ctxs w !! src = Some c -> pc_root c <> 0 -> is_Some (w_ctxs w !! dst) -> src <> dst ->
  0 <= start -> start < end_ -> end_ <= 0xC0000000 ->
  (forall i, count (in_table dst i) (abs w) + count (in_table src i) (abs w) <= 255) ->
  (forall y, 0 <= y < s_total_frames (w_pfa w) -> 0 < refs (abs w) (frame_addr (w_pfa w) y) ->
     pg_refcount (pgt (w_pfa w) y) + refs (abs w) (frame_addr (w_pfa w) y) <= 255) ->
  exists w', jlos_paging_cow_range cpu w src dst start end_ = Some (w', true) /\ pg_inv cpu w' /\ (isolated w -> isolated w') /\
    (forall va e, page_align_down start <= va < page_align_up end_ -> abs w !! (src, va) = Some e ->
       abs w' !! (src, va) = Some (ro e) /\ ShootdownAll va ∈ w_tlb w' /\
       (abs w !! (dst, va) = None /\ abs w' !! (dst, va) = Some (shared e) /\ page_view w' dst va = page_view w src va \/
        abs w' !! (dst, va) = abs w !! (dst, va) /\ (is_Some (abs w !! (dst, va)) \/ dry (w_pfa w') cpu))) /\
    (forall x va, ~ (page_align_down start <= va < page_align_up end_ /\ (x = src \/ x = dst) /\ is_Some (abs w !! (src, va))) -> abs w' !! (x, va) = abs w !! (x, va)) /\
    (forall x va, is_Some (abs w !! (x, va)) -> page_view w' x va = page_view w x va).
Proof.
  intros HI Hc Hr Hd Hne H0 H1 H2 Ht Hrf.
  destruct (cow_range_spec cpu w src dst c start end_ HI Hc Hr Hd Hne H0 H1 H2 Ht Hrf) as (w' & E & HI' & Hss & Hres & Hi & Hsd & _).
  destruct (cow_views cpu w w' src dst _ _ _ HI Hss Hres Hne) as [V1 V2]. destruct Hres as [R1 R2].
  exists w'. split_and!; [done|done|done| |done|intros x va Hv; by apply V1]. intros va e Hva He. destruct (mapped_page_ok _ _ _ _ He) as [_ Hal].
  destruct (R1 va e Hva Hal He) as [G1 G2]. split; [done|]. split; [apply Hsd; eauto|]. destruct G2 as [[G2 G3]|G2]; [left|by right].
  split; [done|]. split; [done|]. by apply (V2 dst va); [eauto|].
Qed.

(** ** Witnesses *)

(** Two empty address spaces, and a page with zeros in the first. *)
Definition start_world : pworld := PWorld one_block ∅ {[100 := ctx_init; 200 := ctx_init]} [100] None [].
Definition page_world : option (pworld * bool) :=
  '(w, r) ← take_frame 0 start_world; a ← r; jlos_paging_map 0 (clear_page w a) 100 0x8000 (virt_to_phys a) PG_USER_RW.
Definition one_page : pworld := default start_world (fst <$> page_world).

#[local] Opaque abs.
Lemma start_abs : abs start_world = ∅.
Proof.
  apply map_eq. intros [c v]. rewrite abs_lookup, lookup_empty. case_decide; [|done]. unfold lookup_pte, pte_walk. destruct (c =? 0); [done|]. cbn [w_ctxs start_world].
  rewrite lookup_insert. case_decide; [done|]. rewrite lookup_singleton. by case_decide.
Qed.
Lemma start_no_table pl a : ~ table_at start_world pl a.
Proof.
  intros (c & Hc & Hr & _). cbn [w_ctxs start_world] in Hc. rewrite lookup_insert in Hc. case_decide; [by simplify_eq|]. rewrite lookup_singleton in Hc. case_decide; by simplify_eq.
Qed.
Lemma start_inv : vm_inv 0 start_world.
Proof.
  split.
  - split; [split; [exact one_block_inv|]; vm_compute; by split_and!|vm_compute; by split|vm_compute; by split|done|done|by intros a l ?| | | |].
    + intros pl a []%start_no_table.
    + intros pl pl' a []%start_no_table.
    + intros ctx c i pde Hc Hr. destruct (start_no_table (ctx, None) (pc_root c)). by exists c.
    + intros x Hx. rewrite start_abs. unfold refs. rewrite map_filter_empty, map_size_empty. lia.
  - intros y Hy. rewrite start_abs. unfold refs. rewrite map_filter_empty, map_size_empty. lia.
  - intros k k' e e' _. rewrite start_abs, lookup_empty. intros [=].
  - intros c v. rewrite start_abs, lookup_empty. intros [? [=]].
Qed.
Lemma one_page_spec : exists e, vm_inv 0 one_page /\ abs one_page = {[(100, 0x8000) := e]} /\ pframe e <> 0.
Proof.
  destruct (take_frame 0 start_world) as [[w [a|]]|] eqn:E; [|vm_compute in E; discriminate..].
  destruct (take_ok 0 start_world w (Some a) start_inv E) as [HV _].
  destruct (take_spec 0 start_world (vi_inv _ _ start_inv)) as (p' & r & E' & _ & Hr). rewrite E in E'. injection E' as -> <-. destruct Hr as (x & _ & _ & _ & Hsp).
  rewrite <- (abs_pfa start_world p') in Hsp. destruct (fill_ok 0 _ a x (replicate 1024 0) HV Hsp eq_refl) as [HV1 _].
  set (w1 := set_mem (set_pfa start_world p') (<[a := replicate 1024 0]> (w_mem (set_pfa start_world p')))) in HV1. assert (abs w1 = ∅) as Ea.
  { destruct Hsp as (_ & _ & _ & Hnt). exact (eq_trans (off_abs 0 (set_pfa start_world p') a (replicate 1024 0) (vi_inv _ _ HV) Hnt) (eq_trans (abs_pfa start_world p') start_abs)). }
  assert (spare_frame w1 (abs w1) a x) as Hsp1.
  { destruct Hsp as (H1 & H2 & H3 & H4). rewrite Ea. rewrite (abs_pfa start_world p'), start_abs in H3. split; [exact H1|]. split; [exact H2|]. split; [exact H3|].
    intros pl Ht. apply (H4 pl). exact (proj1 (off_tables (set_pfa start_world p') a (replicate 1024 0) H4 pl a) Ht). }
  assert (page_world = jlos_paging_map 0 w1 100 0x8000 (virt_to_phys a) PG_USER_RW) as Ep by (unfold page_world; rewrite E; reflexivity).
  assert (exists w2, page_world = Some (w2, true)) as [w2 E2] by (vm_compute; eexists; reflexivity). pose proof E2 as E1. rewrite Ep in E2. destruct (spare_owed 0 w1 a x (vi_inv _ _ HV1) Hsp1) as (_ & _ & Hr & Ha & Ho).
  assert (count (in_table 100 (jlos_paging_get_page_dir_index 0x8000)) (abs w1) < 255) as Hcnt by (rewrite Ea; unfold count; rewrite map_filter_empty, map_size_empty; lia).
  assert (page_ok 0x8000) as Hok by (split; [lia|done]). assert (is_Some (w_ctxs w1 !! 100)) as Hc by by eexists.
  destruct (paging_map_spec 0 w1 100 0x8000 (virt_to_phys a) PG_USER_RW (vi_inv _ _ HV1) Hc Hok (room_count 0 w1 100 0x8000 (vi_inv _ _ HV1) Hcnt) Hr Ha Ho) as (w3 & b & E3 & Hb).
  rewrite E2 in E3. injection E3 as <- <-. destruct Hb as (_ & Hch & _).
  exists (entry_of (virt_to_phys a) PG_USER_RW). assert (one_page = w2) as -> by (unfold one_page; rewrite E1; reflexivity). split; [|split].
  - apply (map_ok 0 w1 w2 100 0x8000 a x PG_USER_RW true HV1 Hc Hok Hsp1); [|done|done]. cbn [w1 w_mem set_mem]. rewrite lookup_insert_eq. by eexists.
  - rewrite (ch_abs _ _ _ _ _ Hch), Ea. done.
  - vm_compute in E. injection E as _ <-. vm_compute. done.
Qed.

Lemma count_size P `{!forall kv, Decision (P kv)} M : count P M <= Z.of_nat (size M).
Proof. unfold count. apply Nat2Z.inj_le, map_subseteq_size, map_filter_subseteq. Qed.
Lemma one_page_root : exists c, w_ctxs one_page !! 100 = Some c /\ pc_root c <> 0.
Proof. vm_compute. eexists. split; [reflexivity|discriminate]. Qed.
Lemma one_page_child : is_Some (w_ctxs one_page !! 200).
Proof. vm_compute. eexists. reflexivity. Qed.
Lemma one_page_counts : forall y, 0 <= y < s_total_frames (w_pfa one_page) -> pg_refcount (pgt (w_pfa one_page) y) <= 1.
Proof.
  intros y Hy. change (s_total_frames (w_pfa one_page)) with 16 in Hy. assert (y ∈ seqZ 0 16) as Hin by (apply elem_of_seqZ; lia). clear Hy. revert y Hin.
  apply Forall_forall. vm_compute. repeat constructor; discriminate.
Qed.
Lemma one_page_fits e : abs one_page = {[(100, 0x8000) := e]} ->
  (forall i, count (in_table 200 i) (abs one_page) + count (in_table 100 i) (abs one_page) <= 255) /\
  (forall y, 0 <= y < s_total_frames (w_pfa one_page) -> 0 < refs (abs one_page) (frame_addr (w_pfa one_page) y) ->
     pg_refcount (pgt (w_pfa one_page) y) + refs (abs one_page) (frame_addr (w_pfa one_page) y) <= 255).
Proof.
  intros Ea. rewrite Ea. split.
  - intros i. pose proof (count_size (in_table 200 i) {[(100, 0x8000) := e]}). pose proof (count_size (in_table 100 i) {[(100, 0x8000) := e]}). rewrite map_size_singleton in *. lia.
  - intros y Hy _. pose proof (one_page_counts y Hy). pose proof (count_size (fun kv => pframe kv.2 = frame_addr (w_pfa one_page) y) {[(100, 0x8000) := e]}) as Hc.
    rewrite map_size_singleton in Hc. unfold count in Hc. unfold refs. lia.
Qed.

Lemma cow_range_correct_witness : exists w', jlos_paging_cow_range 0 one_page 100 200 0x8000 0x9000 = Some (w', true).
Proof.
  destruct one_page_spec as (e & [HI _ _ _] & Ea & _). destruct one_page_root as (c & Hc & Hr). destruct (one_page_fits e Ea) as [F1 F2].
  destruct (cow_range_correct 0 one_page 100 200 c 0x8000 0x9000 HI Hc Hr) as (w' & E & _); [exact one_page_child|clear; lia|clear; lia|clear; lia|clear; lia|exact F1|exact F2|]. by exists w'.
Defined.

(** The address space after it was shared. *)
Definition shared_world : pworld := default one_page (fst <$> jlos_paging_cow_range 0 one_page 100 200 0x8000 0x9000).
Lemma shared_step : vm_step 0 one_page (Fork 100 200) shared_world.
Proof.
  destruct one_page_root as (c & Hc & Hr).
  apply (StepFork 0 one_page shared_world 100 200 c 0x8000 0x9000 true Hc Hr); [exact one_page_child|clear; lia|clear; lia|clear; lia|clear; lia|]. vm_compute. reflexivity.
Qed.
Lemma shared_spec : exists e, vm_inv 0 shared_world /\ abs shared_world !! (100, 0x8000) = Some e /\ pframe e <> 0.
Proof.
  destruct one_page_spec as (e & HV & Ea & H0). destruct one_page_root as (c & Hc & Hr). destruct (one_page_fits e Ea) as [F1 F2].
  destruct (vm_step_ok 0 one_page (Fork 100 200) shared_world HV (conj F1 F2) shared_step) as [HV' _]. exists (ro e). split; [done|].
  destruct (cow_range_spec 0 one_page 100 200 c 0x8000 0x9000 (vi_inv _ _ HV) Hc Hr) as (w' & E & _ & _ & [R1 _] & _); [exact one_page_child|clear; lia|clear; lia|clear; lia|clear; lia|exact F1|exact F2|].
  assert (shared_world = w') as -> by (unfold shared_world; rewrite E; reflexivity). destruct (R1 0x8000 e) as [-> _]; [vm_compute; by split|done|by rewrite Ea, lookup_singleton_eq|].
  split; [done|]. by rewrite (proj1 (ro_bits e)).
Qed.

Lemma vm_isolation_witness : exists w', vm_steps 0 one_page [(one_page, Fork 100 200)] w' /\ vm_inv 0 w' /\ page_view w' 100 0x8000 = page_view one_page 100 0x8000.
Proof.
  destruct one_page_spec as (e & HV & Ea & _). exists shared_world.
  assert (vm_steps 0 one_page [(one_page, Fork 100 200)] shared_world) as Hs by (econstructor; [exact shared_step|constructor]).
  assert (Forall (fun st => fits_counters st.1 st.2) [(one_page, Fork 100 200)]) as Hf by (constructor; [exact (one_page_fits e Ea)|constructor]).
  destruct (vm_isolation 0 one_page [(one_page, Fork 100 200)] shared_world HV Hs Hf) as [HV' Hview]. split; [done|]. split; [done|].
  apply Hview; [rewrite Ea, lookup_singleton_eq; by eexists|]. constructor; [by intros []|constructor].
Defined.

(** A task with two pages at 0x8000 as its only area, the first of them shared. *)
Definition fault_state (w : pworld) : vstate free_list pworld := VState (areas one_state) (objs one_state) w.
Definition a_task : fault_task := FaultTask (Some one_area) 0x9000 0.

Lemma page_fault_cow_correct_witness :
  exists w' r, jlos_paging_page_fault_handler 0 10 [] (Some a_task) (fault_state shared_world) 0x1234 0x8123 0x07 = Some (set_world (fault_state shared_world) w', r).
Proof.
  destruct shared_spec as (e & [HI Hc Hi Hb] & He & H0).
  destruct (page_fault_cow_correct 0 10 [] a_task one_area (fault_state shared_world) 0x1234 0x8123 0x07 e) as (w' & r & E & _);
    [reflexivity|reflexivity|reflexivity|reflexivity|clear; vm_compute; split; discriminate || reflexivity|exact HI|exact Hc|exact Hi|exact He|exact H0|apply Hb; exists e; exact He|].
  by exists w', r.
Defined.

#[local] Instance witness_tables : Paging pworld := x86_paging 0.
Lemma fault_state_inv : mm_inv one_area (fault_state one_page) [1].
Proof.
  destruct one_page_spec as (e & HV & _). split; [exact one_tree| | |exact one_objs|exact (vi_inv _ _ HV)| |discriminate].
  - split; [repeat constructor|]. repeat constructor; simpl; unfold USER_LIMIT; lia.
  - intros n Hn. apply list_elem_of_singleton in Hn as ->. simpl. set_solver.
  - destruct one_page_root as (c & Hc & _). exists c. exact Hc.
Qed.


Lemma paging_roundtrip_witness : exists w a x, spare_frame w (abs w) a x /\ exists w1 b, jlos_paging_map 0 w 100 0x8000 (virt_to_phys a) PG_USER_RW = Some (w1, b).
Proof.
  destruct (take_frame 0 start_world) as [[w [a|]]|] eqn:E; [|vm_compute in E; discriminate..].
  destruct (take_spec 0 start_world (vi_inv _ _ start_inv)) as (p' & r & E' & HI & Hr). rewrite E in E'. injection E' as -> <-. destruct Hr as (x & _ & _ & _ & Hsp).
  rewrite <- (abs_pfa start_world p') in Hsp. exists (set_pfa start_world p'), a, x. split; [exact Hsp|].
  destruct (paging_roundtrip 0 (set_pfa start_world p') 100 0x8000 a x PG_USER_RW HI) as (w1 & b & E1 & _); [by eexists|split; [lia|reflexivity]|exact Hsp| |by exists w1, b].
  intros t l []%start_no_table.
Defined.

(** ** What the counts of tables cannot hold *)

(** Mapping [n] pages from [va] on to memory outside the allocator. *)
Fixpoint map_pages (n : nat) (w : pworld) (va : Z) : option pworld :=
  match n with
  | O => Some w
  | S n => '(w, ok) ← jlos_paging_map 0 w 100 va (0x10000000 + va) PG_USER_RW; if ok : bool then map_pages n w (va + 4096) else None
  end.
(** The present count of a table has 8 bits and a table 1024 entries: with 256 pages
    in it the count is 0, and unmapping one page frees the table of the other 255. *)
Example present_count_wraps :
  (w ← map_pages 256 start_world 0x400000; '(w', ok) ← jlos_paging_unmap 0 w 100 0x400000;
   Some (ok, bool_decide (is_Some (lookup_pte w 100 0x401000)), bool_decide (is_Some (lookup_pte w' 100 0x401000)))) = Some (true, true, false).
Proof. vm_compute. reflexivity. Qed.
(** With 255 pages the others stay. *)
Example present_count_fits :
  (w ← map_pages 255 start_world 0x400000; '(w', ok) ← jlos_paging_unmap 0 w 100 0x400000;
   Some (ok, bool_decide (is_Some (lookup_pte w 100 0x401000)), bool_decide (is_Some (lookup_pte w' 100 0x401000)))) = Some (true, true, true).
Proof. vm_compute. reflexivity. Qed.
