(* ===== verification/HrTimer.v ===== *)
(** * Clocks and high resolution timers ([kernel/timek.c], [kernel/hrtimer.c], [hal/clocksource.c])

    Timers of one processor in a red-black tree by expiry.  A timer and its tree node
    have the same name; what the callbacks do is a function on a state of the caller
    that leaves the timers alone.  Times have 64 bits. *)
From S2P Require Import Prelude RBTree RBTreeInv RBTreeDel.

(** ** Clocks *)

(** [jlos_clocksource_t]; [cycles] below is what its [read] returns. *)
Record clocksource := Clocksource { cs_rating : Z; cs_mult : Z; cs_shift : Z; cs_mask : Z }.

(** [clocksource_select]: the first of the best ratings. *)
Definition better (best : option clocksource) (d : clocksource) : option clocksource :=
  match best with
  | None => Some d
  | Some b => if cs_rating b <? cs_rating d then Some d else best
  end.
Definition clocksource_select (devs : list clocksource) : option clocksource := foldl better None devs.

Definition jlos_clocksource_cycles_to_ns (active : option clocksource) (delta : Z) : Z :=
  match active with
  | None => 0
  | Some cs => Z.shiftr (u64 (delta * cs_mult cs)) (cs_shift cs)
  end.

(** The variables of [kernel/timek.c]. *)
Record timek := Timek { s_realtime_base_ns : Z; s_tsc_base : Z; s_timek_inited : bool; s_ticks : Z }.

Definition jlos_timek_init (cs : option clocksource) (cycles : Z) (s : timek) : timek :=
  if s_timek_inited s then s
  else match cs with
       | None => s
       | Some _ => Timek 0 cycles true 0
       end.
(** The first read of the clock may set the base: [cycles0] is that read. *)
Definition jlos_timek_get_monotonic_ns (cs : option clocksource) (cycles0 cycles : Z) (s : timek) : timek * Z :=
  let s := if negb (s_timek_inited s) then jlos_timek_init cs cycles0 s else s in
  match cs with
  | None => (s, 0)
  | Some c => (s, jlos_clocksource_cycles_to_ns cs (Z.land (u64 (cycles - s_tsc_base s)) (cs_mask c)))
  end.
Definition jlos_timek_get_realtime_ns (cs : option clocksource) (cycles0 cycles : Z) (s : timek) : timek * Z :=
  let '(s', ns) := jlos_timek_get_monotonic_ns cs cycles0 cycles s in (s', u64 (s_realtime_base_ns s + ns)).
Definition jlos_timek_set_realtime (cs : option clocksource) (cycles0 cycles ns : Z) (s : timek) : timek :=
  let '(s, mono) := jlos_timek_get_monotonic_ns cs cycles0 cycles s in
  Timek (u64 (ns - mono)) (s_tsc_base s) (s_timek_inited s) (s_ticks s).
Definition jlos_timek_on_tick (cs : option clocksource) (cycles0 : Z) (s : timek) : timek :=
  let s := if negb (s_timek_inited s) then jlos_timek_init cs cycles0 s else s in
  Timek (s_realtime_base_ns s) (s_tsc_base s) (s_timek_inited s) (s32 (s_ticks s + 1)).
Definition jlos_timek_get_ticks (s : timek) : Z := u32 (s_ticks s).
Definition jlos_timek_reset_ticks (s : timek) : timek := Timek (s_realtime_base_ns s) (s_tsc_base s) (s_timek_inited s) 0.

(** ** Timers *)

Inductive hrtimer_mode := ModeRel | ModeAbs.
(** [jlos_hrtimer_t], without its node and callback. *)
Record hrtimer := HrTimer { expires : Z; interval : Z; ht_active : bool }.
(** [jlos_hrtimer_base_t] and the memory of the timers. *)
Record hbase := HBase { active_tree : rbtree; timers : Z -> hrtimer }.
Definition set_timer (b : hbase) (t : Z) (v : hrtimer) : hbase := HBase (active_tree b) (fun x => if x =? t then v else timers b x).
Definition set_active_tree (b : hbase) (t : rbtree) : hbase := HBase t (timers b).

Definition hrtimer_cmp (ts : Z -> hrtimer) (a b : Z) : Z :=
  if expires (ts a) <? expires (ts b) then -1 else if expires (ts b) <? expires (ts a) then 1 else 0.

Section ops.
Variable fuel : nat.

Definition jlos_hrtimer_base_init (h : Z -> rbnode) (ts : Z -> hrtimer) : hbase := HBase (jlos_rbtree_init h) ts.
Definition jlos_hrtimer_init (b : hbase) (timer : Z) : hbase := set_timer b timer (HrTimer 0 0 false).

Definition remove_timer (b : hbase) (t : Z) : option hbase := tr ← jlos_rbtree_remove fuel (active_tree b) t; Some (set_active_tree b tr).
Definition insert_timer (b : hbase) (t : Z) : option hbase :=
  tr ← jlos_rbtree_insert (hrtimer_cmp (timers b)) fuel (active_tree b) t; Some (set_active_tree b tr).

Definition jlos_hrtimer_start (b : hbase) (timer now time_ns interval_ns : Z) (mode : hrtimer_mode) : option hbase :=
  b ← (if ht_active (timers b timer) then remove_timer b timer else Some b);
  let e := match mode with ModeAbs => time_ns | ModeRel => u64 (now + time_ns) end in
  insert_timer (set_timer b timer (HrTimer e interval_ns true)) timer.

Definition jlos_hrtimer_cancel (b : hbase) (timer : Z) : option hbase :=
  let t := timers b timer in
  if ht_active t then
    b ← remove_timer b timer; Some (set_timer b timer (HrTimer (expires t) (interval t) false))
  else Some b.

(** [do { expires += interval; } while (expires <= now);] *)
Fixpoint next_expiry (n : nat) (e i now : Z) : option Z :=
  match n with
  | O => None
  | S n => let e := u64 (e + i) in if e <=? now then next_expiry n e i now else Some e
  end.

Context {U : Type} (func : U -> Z -> U).

(** The loop of [jlos_hrtimer_interrupt]. *)
Fixpoint expire_timers (n : nat) (b : hbase) (u : U) (now : Z) : option (hbase * U) :=
  match n with
  | O => None
  | S n =>
      node ← jlos_rbtree_first fuel (active_tree b);
      match node with
      | None => Some (b, u)
      | Some timer =>
          let t := timers b timer in
          if now <? expires t then Some (b, u)
          else
            b ← remove_timer b timer;
            let b := set_timer b timer (HrTimer (expires t) (interval t) false) in
            b ← (if 0 <? interval t then
                   e ← next_expiry (Z.to_nat ((now - expires t) / interval t + 1)) (expires t) (interval t) now;
                   insert_timer (set_timer b timer (HrTimer e (interval t) true)) timer
                 else Some b);
            expire_timers n b (func u timer) now
      end
  end.

(** The last result is the argument of [jlos_clock_event_set_next], if it is called. *)
Definition jlos_hrtimer_interrupt (b : hbase) (u : U) (now : Z) : option (hbase * U * option Z) :=
  '(b, u) ← expire_timers fuel b u now;
  node ← jlos_rbtree_first fuel (active_tree b);
  Some (b, u, match node with
              | None => None
              | Some timer => let e := expires (timers b timer) in Some (if now <? e then u64 (e - now) else 0)
              end).
End ops.

(** ** The timers of a base *)

Lemma hcmp_lt ts a b : hrtimer_cmp ts a b < 0 <-> expires (ts a) < expires (ts b).
Proof. unfold hrtimer_cmp. destruct (Z.ltb_spec (expires (ts a)) (expires (ts b))), (Z.ltb_spec (expires (ts b)) (expires (ts a))); lia. Qed.
Lemma hcmp_gt ts a b : 0 < hrtimer_cmp ts a b <-> expires (ts b) < expires (ts a).
Proof. unfold hrtimer_cmp. destruct (Z.ltb_spec (expires (ts a)) (expires (ts b))), (Z.ltb_spec (expires (ts b)) (expires (ts a))); lia. Qed.
Lemma hcmp_le ts a b : hrtimer_cmp ts a b <= 0 <-> expires (ts a) <= expires (ts b).
Proof. unfold hrtimer_cmp. destruct (Z.ltb_spec (expires (ts a)) (expires (ts b))), (Z.ltb_spec (expires (ts b)) (expires (ts a))); lia. Qed.

Definition timer_ok (t : hrtimer) : Prop := 0 <= expires t < 2 ^ 64 /\ 0 <= interval t < 2 ^ 64.

(** The armed timers, in the order of their expiry. *)
Record hrep (b : hbase) (l : list Z) : Prop := {
  hr_tree : rb_tree (active_tree b) l;
  hr_sorted : StronglySorted (fun x y => expires (timers b x) <= expires (timers b y)) l;
  hr_active x : ht_active (timers b x) = true <-> x ∈ l;
  hr_ok x : x ∈ l -> timer_ok (timers b x)
}.

(** The same when it is open what timer [t], which is not armed, holds. *)
Record hrep_but (b : hbase) (t : Z) (l : list Z) : Prop := {
  hb_tree : rb_tree (active_tree b) l;
  hb_sorted : StronglySorted (fun x y => expires (timers b x) <= expires (timers b y)) l;
  hb_active x : x <> t -> ht_active (timers b x) = true <-> x ∈ l;
  hb_ok x : x ∈ l -> timer_ok (timers b x);
  hb_not : t ∉ l
}.
Lemma hrep_open b t l : hrep b l -> t ∉ l -> hrep_but b t l.
Proof. intros [A1 A2 A3 A4] Hni. by split. Qed.

Lemma rb_tree_nodup t l : rb_tree t l -> NoDup l /\ forall x, x ∈ l -> x <> nil.
Proof. intros (T & n & Ht & _ & <-). split; [apply Ht|]. intros x Hx. eapply rep_elems_ne; [apply Ht|done]. Qed.

Lemma set_timer_eq b t v : timers (set_timer b t v) t = v.
Proof. simpl. by rewrite Z.eqb_refl. Qed.
Lemma set_timer_ne b t v x : x <> t -> timers (set_timer b t v) x = timers b x.
Proof. intros H. simpl. by rewrite (proj2 (Z.eqb_neq _ _) H). Qed.

Lemma sorted_set b t v l : t ∉ l -> StronglySorted (fun x y => expires (timers b x) <= expires (timers b y)) l ->
  StronglySorted (fun x y => expires (timers (set_timer b t v) x) <= expires (timers (set_timer b t v) y)) l.
Proof. intros Ht. apply StronglySorted_impl_elem. intros x y Hx Hy. rewrite !set_timer_ne; [done|..]; by intros ->. Qed.

Section specs.
Variable fuel : nat.

(** Taking a timer out; its flag goes. *)
Lemma remove_timer_spec b l1 t l2 v : hrep b (l1 ++ t :: l2) -> (length (l1 ++ t :: l2) < fuel)%nat -> ht_active v = false ->
  exists tr, remove_timer fuel b t = Some (set_active_tree b tr) /\ hrep (set_timer (set_active_tree b tr) t v) (l1 ++ l2) /\ (t ∉ l1 ++ l2) /\ t <> nil /\
    hrep_but (set_active_tree b tr) t (l1 ++ l2).
Proof.
  intros [Ht Hs Ha Ho] Hf Hv. unfold remove_timer. destruct (rbtree_remove_spec (active_tree b) l1 l2 t fuel Ht Hf) as (tr & -> & Htr). exists tr. split; [done|].
  destruct (rb_tree_nodup _ _ Ht) as [Hnd Hnn]. assert (t ∉ l1 ++ l2) as Hni.
  { apply NoDup_app in Hnd as (_ & H1 & H2%NoDup_cons). destruct H2 as [H2 _]. rewrite not_elem_of_app. split; [|done]. intros Hin. apply (H1 t Hin). left. }
  assert (forall x, x <> t -> x ∈ l1 ++ l2 <-> x ∈ l1 ++ t :: l2) as Hiff by set_solver.
  assert (StronglySorted (fun x y => expires (timers b x) <= expires (timers b y)) (l1 ++ l2)) as Hs'.
  { apply StronglySorted_app in Hs as (H12 & H1 & H2). apply StronglySorted_inv in H2 as [H2 _]. apply StronglySorted_app.
    split_and!; [|done|done]. intros x y Hx Hy. apply H12; [done|by right]. }
  split; [|split; [done|split; [apply Hnn; set_solver|]]].
  2: { split; [done|done| | |done]; [intros x Hne; rewrite Hiff by done; apply Ha|]. intros x Hx. apply Ho, Hiff; [by intros ->|done]. }
  split.
  - done.
  - by apply sorted_set.
  - intros x. destruct (decide (x = t)) as [->|Hne]; [rewrite set_timer_eq, Hv; by split|]. rewrite set_timer_ne, Hiff by done. apply Ha.
  - intros x Hx. assert (x <> t) as Hne by (by intros ->). rewrite set_timer_ne by done. by apply Ho, Hiff.
Qed.

(** Arming a timer: it goes behind the timers that expire no later. *)
Lemma insert_timer_spec b l t v : hrep_but b t l -> t <> nil -> (length l < fuel)%nat -> ht_active v = true -> timer_ok v ->
  exists tr l1 l2, insert_timer fuel (set_timer b t v) t = Some (set_active_tree (set_timer b t v) tr) /\ l = l1 ++ l2 /\
    hrep (set_active_tree (set_timer b t v) tr) (l1 ++ t :: l2) /\
    (forall x, x ∈ l1 -> expires (timers b x) <= expires v) /\ (forall x, x ∈ l2 -> expires v < expires (timers b x)).
Proof.
  intros [Ht Hs Ha Ho Hni] Hn Hf Hv Hok. unfold insert_timer. set (b' := set_timer b t v).
  destruct (rbtree_insert_spec (hrtimer_cmp (timers b')) (active_tree b') l t fuel) as (tr & l1 & l2 & -> & -> & Htr & Hord & H1 & H2);
    [intros x y; by rewrite hcmp_lt, hcmp_gt|intros x y z; rewrite !hcmp_le; lia|done| |done|done|done|].
  { eapply StronglySorted_impl_elem; [|apply (sorted_set b t v _ Hni Hs)]. intros x y _ _. by rewrite hcmp_le. }
  assert (forall x, x ∈ l1 ++ l2 -> timers b' x = timers b x) as Hsame by (intros x Hx; unfold b'; rewrite set_timer_ne; [done|]; by intros ->).
  assert (timers b' t = v) as Et by apply set_timer_eq.
  cbn [mbind option_bind]. exists tr, l1, l2. split; [done|]. split; [done|]. split; [split|split].
  - done.
  - eapply StronglySorted_impl_elem; [|exact Hord]. intros x y _ _. by rewrite hcmp_le.
  - intros x. cbn [timers set_active_tree]. destruct (decide (x = t)) as [->|Hne]; [rewrite Et, Hv; set_solver|]. unfold b'. rewrite set_timer_ne, Ha by done. set_solver.
  - intros x Hx. cbn [timers set_active_tree]. destruct (decide (x = t)) as [->|Hne]; [by rewrite Et|]. assert (x ∈ l1 ++ l2) as Hx' by set_solver. rewrite Hsame by done. by apply Ho.
  - intros x Hx. specialize (H1 x Hx). rewrite <- Et, <- (Hsame x) by set_solver. apply Z.le_ngt. rewrite <- hcmp_lt. lia.
  - intros x Hx. specialize (H2 x Hx). rewrite hcmp_lt, Et in H2. by rewrite <- (Hsame x) by set_solver.
Qed.

(** The next expiry of a periodic timer is the first one after [now]. *)
Lemma next_expiry_spec i now n : forall e, 0 < i -> 0 <= e <= now -> now + i < 2 ^ 64 -> (now - e) / i < Z.of_nat n ->
  next_expiry n e i now = Some (e + ((now - e) / i + 1) * i).
Proof.
  induction n as [|n IH]; intros e Hi He Hb Hn; [pose proof (Z.div_pos (now - e) i); lia|]. cbn [next_expiry]. cbv zeta.
  rewrite u64_small by lia. destruct (Z.leb_spec (e + i) now) as [Hle|Hgt].
  - assert ((now - (e + i)) / i = (now - e) / i - 1) as E by (replace (now - (e + i)) with (now - e + -1 * i) by lia; rewrite Z.div_add; lia).
    rewrite IH, E by lia. f_equal. lia.
  - rewrite (Z.div_small (now - e) i) by lia. f_equal. lia.
Qed.
Lemma next_expiry_after e i now : 0 < i -> e <= now -> now < e + ((now - e) / i + 1) * i <= now + i.
Proof. intros Hi He. pose proof (Z.div_mod (now - e) i). pose proof (Z.mod_pos_bound (now - e) i). nia. Qed.

(** A timer after an interrupt at [now]. *)
Definition rearmed (now : Z) (t : hrtimer) : hrtimer :=
  if now <? expires t then t
  else if 0 <? interval t then HrTimer (expires t + ((now - expires t) / interval t + 1) * interval t) (interval t) true
  else HrTimer (expires t) (interval t) false.

Definition due (b : hbase) (now : Z) (l : list Z) : list Z := filter (fun x => expires (timers b x) <= now) l.

Lemma due_ext b b' now l : (forall x, x ∈ l -> timers b' x = timers b x) -> due b' now l = due b now l.
Proof. intros H. apply filter_ext_elem. intros x Hx. by rewrite H. Qed.

(** What the loop leaves. *)
Record expired (b b' : hbase) (now : Z) (l l' : list Z) : Prop := {
  ex_rep : hrep b' l';
  ex_armed x : x ∈ l' <-> x ∈ l /\ ht_active (rearmed now (timers b x)) = true;
  ex_timers x : timers b' x = if decide (x ∈ l) then rearmed now (timers b x) else timers b x;
  ex_length : (length l' <= length l)%nat
}.

Lemma rearmed_later now t : now < expires t -> rearmed now t = t.
Proof. intros H. unfold rearmed. by rewrite (proj2 (Z.ltb_lt _ _) H). Qed.

Lemma expired_none b now l : hrep b l -> (forall x, x ∈ l -> now < expires (timers b x)) -> due b now l = [] /\ expired b b now l l.
Proof.
  intros HR Hl. split.
  - unfold due. apply elem_of_nil_inv. intros x [Hd Hx]%list_elem_of_filter. specialize (Hl x Hx). lia.
  - split; [done| | |done].
    + intros x. split; [|tauto]. intros Hx. split; [done|]. rewrite rearmed_later by auto. by apply (hr_active _ _ HR).
    + intros x. case_decide; [|done]. by rewrite rearmed_later by auto.
Qed.

(** One timer, then the rest. *)
Lemma expired_step b b1 b2 now t l l1 l2 : t ∉ l -> hrep b1 l1 -> expired b1 b2 now l1 l2 ->
  (forall x, x <> t -> timers b1 x = timers b x) -> (forall x, x ∈ l1 <-> x ∈ l \/ x = t /\ ht_active (rearmed now (timers b t)) = true) ->
  timers b1 t = rearmed now (timers b t) -> (t ∈ l1 -> now < expires (timers b1 t)) -> (length l1 <= S (length l))%nat -> expired b b2 now (t :: l) l2.
Proof.
  intros Ht HR1 [E1 E2 E3 E4] Hne Hl1 Et Hlater Hlen. split; [done| | |simpl; lia].
  - intros x. rewrite E2, Hl1, elem_of_cons. destruct (decide (x = t)) as [->|Hx].
    + rewrite Et. split.
      * intros [[?|[_ Ha]] _]; [done|]. by split; [left|].
      * intros [_ Ha]. assert (t ∈ l1) as Hin by (apply Hl1; by right). split; [by right|]. rewrite <- Et, rearmed_later by auto. by rewrite Et.
    + rewrite Hne by done. tauto.
  - intros x. rewrite E3. destruct (decide (x = t)) as [->|Hx].
    + rewrite (decide_True (P := t ∈ t :: l)) by left. case_decide as Hin; [|done]. by rewrite rearmed_later by auto.
    + rewrite Hne by done. assert (x ∈ l1 <-> x ∈ t :: l) as Hiff by (rewrite Hl1, elem_of_cons; tauto). by rewrite (decide_ext _ _ _ _ Hiff).
Qed.

Lemma expire_spec {U} (func : U -> Z -> U) now n : forall b l u, hrep b l -> (length l < fuel)%nat -> 0 <= now ->
  (forall x, x ∈ l -> now + interval (timers b x) < 2 ^ 64) -> (length (due b now l) < n)%nat ->
  exists b' l', expire_timers fuel func n b u now = Some (b', foldl func u (due b now l)) /\ expired b b' now l l'.
Proof.
  induction n as [|n IH]; intros b l u HR Hf H0 Hi Hn; [lia|]. cbn [expire_timers].
  destruct (rbtree_traversal_spec (active_tree b) l fuel (hr_tree _ _ HR) Hf) as (_ & -> & _). cbn [mbind option_bind]. destruct l as [|t l]; cbn [head].
  { exists b, []. split; [done|]. by apply expired_none; [|intros x ?%elem_of_nil]. }
  pose proof (hr_sorted _ _ HR) as Hs. apply StronglySorted_inv in Hs as [Hs Hh]. rewrite Forall_forall in Hh. cbv zeta.
  destruct (Z.ltb_spec now (expires (timers b t))) as [Hlt|Hge].
  { destruct (expired_none b now (t :: l) HR) as [-> Hex]; [|by exists b, (t :: l)]. intros x [->|Hx]%elem_of_cons; [done|]. specialize (Hh x Hx). lia. }
  assert (due b now (t :: l) = t :: due b now l) as Ed by (unfold due; by rewrite filter_cons, decide_True). rewrite Ed in *. cbn [length foldl] in *.
  set (v := HrTimer (expires (timers b t)) (interval (timers b t)) false).
  destruct (remove_timer_spec b [] t l v HR Hf eq_refl) as (tr & -> & HR1 & Hni & Hnn & _). cbn [mbind option_bind app] in *. set (b1 := set_timer (set_active_tree b tr) t v) in *.
  assert (forall x, x <> t -> timers b1 x = timers b x) as Hb1 by (intros x Hx; unfold b1; by rewrite set_timer_ne).
  assert (forall x, x ∈ l -> x <> t) as Hlt by (by intros x Hx ->). simpl in Hf.
  destruct (hr_ok _ _ HR t ltac:(left)) as [[He0 He1] [Hi0 Hi1]].
  destruct (Z.ltb_spec 0 (interval (timers b t))) as [Hper|Hone].
  - pose proof (Hi t ltac:(left)) as Hit. rewrite next_expiry_spec by (pose proof (Z.div_pos (now - expires (timers b t)) (interval (timers b t))); lia).
    cbn [mbind option_bind]. pose proof (next_expiry_after (expires (timers b t)) (interval (timers b t)) now Hper Hge) as Haft.
    set (e := expires (timers b t) + _) in *. set (v' := HrTimer e (interval (timers b t)) true).
    assert (rearmed now (timers b t) = v') as Er by (unfold rearmed; by rewrite (proj2 (Z.ltb_ge _ _) Hge), (proj2 (Z.ltb_lt _ _) Hper)).
    destruct (insert_timer_spec b1 l t v' (hrep_open _ _ _ HR1 Hni) Hnn ltac:(lia) eq_refl) as (tr2 & l1 & l2 & -> & El & HR2 & Hl1 & Hl2); [split; simpl; lia|].
    cbn [mbind option_bind]. set (b2 := set_active_tree (set_timer b1 t v') tr2) in *.
    assert (forall x, x <> t -> timers b2 x = timers b x) as Hb2 by (intros x Hx; rewrite <- Hb1 by done; unfold b2; cbn [timers set_active_tree]; by rewrite set_timer_ne).
    assert (timers b2 t = v') as Et by (unfold b2; cbn [timers set_active_tree]; apply set_timer_eq).
    assert (due b2 now (l1 ++ t :: l2) = due b now l) as Ed2.
    { rewrite El. unfold due. rewrite !filter_app, filter_cons, decide_False by (rewrite Et; simpl; lia).
      f_equal; apply filter_ext_elem; intros x Hx; rewrite Hb2; first [done|apply Hlt; rewrite El; set_solver]. }
    destruct (IH b2 (l1 ++ t :: l2) (func u t) HR2) as (b' & l' & E & Hex).
    { rewrite length_app. simpl. subst l. rewrite length_app in Hf. lia. }
    { done. }
    { intros x Hx. destruct (decide (x = t)) as [->|Hne]; [by rewrite Et|]. rewrite Hb2 by done. apply Hi. subst l. set_solver. }
    { rewrite Ed2. lia. }
    exists b', l'. rewrite E, Ed2. split; [done|]. apply (expired_step b b2 b' now t l (l1 ++ t :: l2) l'); try done.
    + intros x. rewrite Er. subst l. set_solver.
    + by rewrite Et.
    + intros _. rewrite Et. simpl. lia.
    + subst l. rewrite !length_app. simpl. lia.
  - cbn [mbind option_bind]. destruct (IH b1 l (func u t) HR1) as (b' & l' & E & Hex); [lia|done|intros x Hx; rewrite Hb1 by auto; apply Hi; by right| |].
    { rewrite (due_ext b b1 now l) by auto. lia. }
    assert (rearmed now (timers b t) = v) as Er by (unfold rearmed; by rewrite (proj2 (Z.ltb_ge _ _) Hge), (proj2 (Z.ltb_ge _ _) Hone)).
    exists b', l'. rewrite E, (due_ext b b1 now l) by auto. split; [done|]. apply (expired_step b b1 b' now t l l l'); try done; [|unfold b1; by rewrite set_timer_eq|lia].
    intros x. rewrite Er. simpl. split; [by left|]. by intros [?|[_ ?]].
Qed.
End specs.

(** C24. The timer interrupt at time [now] calls exactly the timers whose expiry has
    come, once each and in the order of their expiry.  One-shot timers are disarmed,
    periodic ones armed for their first period after [now], the others untouched;
    the next event is set to the distance of the earliest timer left, which lies in
    the future.  The loops end. *)
Theorem hrtimer_interrupt_correct {U} (func : U -> Z -> U) (fuel : nat) (b : hbase) (l : list Z) (u : U) (now : Z) :
  hrep b l -> (length l < fuel)%nat -> 0 <= now < 2 ^ 64 -> (forall x, x ∈ l -> now + interval (timers b x) < 2 ^ 64) ->
  exists b' l', jlos_hrtimer_interrupt fuel func b u now = Some (b', foldl func u (due b now l), (fun t => expires (timers b' t) - now) <$> head l') /\
    (NoDup (due b now l) /\ StronglySorted (fun x y => expires (timers b x) <= expires (timers b y)) (due b now l)) /\
    hrep b' l' /\ (forall x, x ∈ l' -> now < expires (timers b' x)) /\
    (forall x, x ∈ l' <-> x ∈ l /\ ht_active (rearmed now (timers b x)) = true) /\
    (forall x, timers b' x = if decide (x ∈ l) then rearmed now (timers b x) else timers b x).
Proof.
  intros HR Hf H0 Hi. unfold jlos_hrtimer_interrupt.
  assert (length (due b now l) <= length l)%nat as Hd by apply length_filter.
  destruct (expire_spec fuel func now fuel b l u HR Hf ltac:(lia) Hi ltac:(lia)) as (b' & l' & -> & [E1 E2 E3 E4]). cbn [mbind option_bind].
  destruct (rbtree_traversal_spec (active_tree b') l' fuel (hr_tree _ _ E1) ltac:(lia)) as (_ & -> & _). cbn [mbind option_bind].
  assert (forall x, x ∈ l' -> now < expires (timers b' x)) as Hlater.
  { intros x [Hx Ha]%E2. rewrite E3, decide_True by done. revert Ha. unfold rearmed. destruct (Z.ltb_spec now (expires (timers b x))) as [|Hge]; [done|].
    destruct (Z.ltb_spec 0 (interval (timers b x))) as [Hp|]; [|done]. intros _. simpl. by apply next_expiry_after. }
  exists b', l'. split_and!; try done.
  - destruct l' as [|t l']; [done|]. cbn [head fmap option_fmap option_map]. specialize (Hlater t ltac:(left)). rewrite (proj2 (Z.ltb_lt _ _) Hlater). destruct (hr_ok _ _ E1 t ltac:(left)) as [? _].
    rewrite u64_small by lia. done.
  - apply NoDup_filter. by destruct (rb_tree_nodup _ _ (hr_tree _ _ HR)).
  - pose proof (hr_sorted _ _ HR) as Hs. clear -Hs. induction Hs as [|x l Hs IH Hx]; [constructor|]. unfold due. rewrite filter_cons. case_decide; [|exact IH].
    constructor; [exact IH|]. rewrite Forall_forall in *. intros y [_ Hy]%list_elem_of_filter. by apply Hx.
Qed.

(** Starting a timer arms it for the given time and no other timer changes, whether
    it was armed before or not; cancelling disarms exactly the timer, and starting
    and cancelling a timer leaves the armed timers as they were. *)
Theorem hrtimer_start_cancel_correct (fuel : nat) (b : hbase) (l : list Z) (t now time_ns interval_ns : Z) (mode : hrtimer_mode) :
  hrep b l -> t <> nil -> (S (length l) < fuel)%nat -> 0 <= time_ns < 2 ^ 64 -> 0 <= interval_ns < 2 ^ 64 ->
  let e := match mode with ModeAbs => time_ns | ModeRel => (now + time_ns) mod 2 ^ 64 end in
  exists b1 l1, jlos_hrtimer_start fuel b t now time_ns interval_ns mode = Some b1 /\ hrep b1 l1 /\ (forall x, x ∈ l1 <-> x ∈ l \/ x = t) /\
    (forall x, timers b1 x = if decide (x = t) then HrTimer e interval_ns true else timers b x) /\
    exists b2 l2, jlos_hrtimer_cancel fuel b1 t = Some b2 /\ hrep b2 l2 /\ (forall x, x ∈ l2 <-> x ∈ l /\ x <> t) /\
      (forall x, x <> t -> timers b2 x = timers b x) /\ jlos_hrtimer_cancel fuel b2 t = Some b2.
Proof.
  intros HR Hn Hf Ht Hi e. unfold jlos_hrtimer_start.
  assert (exists b0 l0, (if ht_active (timers b t) then remove_timer fuel b t else Some b) = Some b0 /\ (length l0 <= length l)%nat /\
    (forall x, x ∈ l0 <-> x ∈ l /\ x <> t) /\ (forall x, timers b0 x = timers b x) /\ hrep_but b0 t l0) as (b0 & l0 & -> & Hlen & Hl0 & Hb0 & HR0).
  { destruct (ht_active (timers b t)) eqn:Ea.
    - pose proof (proj1 (hr_active _ _ HR t) Ea) as Hin. apply list_elem_of_split in Hin as (l1 & l2 & ->).
      destruct (remove_timer_spec fuel b l1 t l2 (HrTimer 0 0 false) HR ltac:(lia) eq_refl) as (tr & -> & _ & Hni & _ & HR0). exists (set_active_tree b tr), (l1 ++ l2).
      split_and!; try done; [rewrite !length_app; simpl; lia|set_solver].
    - assert (t ∉ l) as Hni by (intros Hin%(hr_active _ _ HR); congruence). exists b, l. split_and!; try done; [set_solver|by apply hrep_open]. }
  cbn [mbind option_bind]. cbv zeta. change (u64 (now + time_ns)) with ((now + time_ns) mod 2 ^ 64). fold e. set (v := HrTimer e interval_ns true).
  assert (timer_ok v) as Hok.
  { split; [|done]. simpl. unfold e. destruct mode; [apply Z.mod_pos_bound; lia|done]. }
  destruct (insert_timer_spec fuel b0 l0 t v HR0 Hn ltac:(lia) eq_refl Hok) as (tr & l1 & l2 & -> & El & HR1 & _).
  set (b1 := set_active_tree (set_timer b0 t v) tr) in *. exists b1, (l1 ++ t :: l2). split; [done|]. split; [done|].
  assert (forall x, timers b1 x = if decide (x = t) then v else timers b x) as Hb1.
  { intros x. unfold b1. cbn [timers set_active_tree]. case_decide as Hx; [by rewrite Hx, set_timer_eq|]. by rewrite set_timer_ne. }
  assert (forall x, x ∈ l1 ++ t :: l2 <-> x ∈ l0 \/ x = t) as Hl1 by (subst l0; set_solver).
  split; [intros x; rewrite Hl1, Hl0; destruct (decide (x = t)); tauto|]. split; [done|].
  unfold jlos_hrtimer_cancel. rewrite Hb1, decide_True by done. cbn [ht_active v].
  set (w := HrTimer (expires v) (interval v) false).
  destruct (remove_timer_spec fuel b1 l1 t l2 w HR1) as (tr2 & -> & HR2 & Hni & _); [subst l0; rewrite length_app in *; simpl; lia|done|].
  cbn [mbind option_bind]. set (b2 := set_timer (set_active_tree b1 tr2) t w) in *. exists b2, (l1 ++ l2). split; [done|]. split; [done|].
  split; [intros x; by rewrite <- El|]. split; [intros x Hx; unfold b2; rewrite set_timer_ne by done; cbn [timers set_active_tree]; by rewrite Hb1, decide_False|].
  assert (timers b2 t = w) as -> by apply set_timer_eq. done.
Qed.

(** ** The clock *)

(** C34. The monotonic clock never reaches 2^(64 - shift): it is correct and does not run
    backwards only while the cycles since start times the multiplier fit 64 bits, and
    a timer whose expiry lies at 2^(64 - shift) or later never comes due. *)
Theorem monotonic_clock_bounds (cs : clocksource) (s : timek) (c0 c1 c2 : Z) :
  s_timek_inited s = true -> cs_mask cs = 2 ^ 64 - 1 -> 0 <= cs_mult cs -> 0 <= cs_shift cs < 64 -> 0 <= s_tsc_base s <= c1 -> c1 <= c2 < 2 ^ 64 ->
  let ns c := snd (jlos_timek_get_monotonic_ns (Some cs) c0 c s) in
  0 <= ns c2 < 2 ^ (64 - cs_shift cs) /\
  ((c2 - s_tsc_base s) * cs_mult cs < 2 ^ 64 -> ns c2 = (c2 - s_tsc_base s) * cs_mult cs / 2 ^ cs_shift cs /\ ns c1 <= ns c2) /\
  (forall b l x, 2 ^ (64 - cs_shift cs) <= expires (timers b x) -> x ∉ due b (ns c2) l).
Proof.
  intros Hin Hm Hmu Hsh Hb Hc ns.
  assert (forall c, s_tsc_base s <= c <= c2 -> ns c = ((c - s_tsc_base s) * cs_mult cs) mod 2 ^ 64 / 2 ^ cs_shift cs) as Hns.
  { intros c Hcc. unfold ns, jlos_timek_get_monotonic_ns. rewrite Hin. cbn [negb snd]. cbv zeta. rewrite Hm, land_mask by lia. unfold u64, wrap.
    rewrite Z.mod_mod, (Z.mod_small (c - _)) by lia. unfold jlos_clocksource_cycles_to_ns. by rewrite Z.shiftr_div_pow2 by lia. }
  assert (0 <= ns c2 < 2 ^ (64 - cs_shift cs)) as Hr.
  { rewrite Hns by lia. pose proof (Z.mod_pos_bound ((c2 - s_tsc_base s) * cs_mult cs) (2 ^ 64) ltac:(lia)). split; [apply Z.div_pos; lia|].
    apply Z.div_lt_upper_bound; [lia|]. rewrite <- Z.pow_add_r by lia. replace (cs_shift cs + (64 - cs_shift cs)) with 64 by lia. lia. }
  split; [done|]. split.
  - intros Hfit. rewrite !Hns by lia. rewrite !Z.mod_small by nia. split; [done|]. apply Z.div_le_mono; [lia|nia].
  - intros b l x Hx [Hd _]%list_elem_of_filter. lia.
Qed.

(** ** Witnesses *)

(** A periodic timer, due, alone in its base. *)
Definition one_timer : hbase := HBase (RBTree 1 (fun _ => RBNode 0 0 0 false)) (fun x => HrTimer 100 30 (x =? 1)).
Lemma one_timer_rep : hrep one_timer [1].
Proof.
  split.
  - exists (N false E 1 E), 1%nat. split_and!; [|repeat econstructor|done]. split; [done| | |done].
    + simpl. unfold nil. repeat split; lia.
    + apply NoDup_singleton.
  - repeat constructor.
  - intros x. simpl. rewrite list_elem_of_singleton. apply Z.eqb_eq.
  - intros x _. split; simpl; lia.
Qed.
Lemma hrtimer_interrupt_correct_witness :
  exists b', jlos_hrtimer_interrupt 10 (fun u t => t :: u) one_timer [] 165 = Some (b', [1], Some 25).
Proof.
  destruct (hrtimer_interrupt_correct (fun u t => t :: u) 10 one_timer [1] [] 165) as (b' & l' & E & _ & _ & _ & Hl & Ht);
    [exact one_timer_rep|simpl; lia|lia|simpl; lia|]. exists b'. rewrite E. assert (1 ∈ l') as H1 by (apply Hl; split; [left|reflexivity]).
  destruct l' as [|x l']; [by apply not_elem_of_nil in H1|]. assert (x ∈ [1]) as Hx%list_elem_of_singleton by (apply Hl; left). subst x.
  simpl. rewrite Ht, decide_True by (apply list_elem_of_singleton; done). reflexivity.
Defined.
Lemma hrtimer_start_cancel_correct_witness :
  exists b1, jlos_hrtimer_start 10 one_timer 1 500 10 0 ModeRel = Some b1 /\ expires (timers b1 1) = 510.
Proof.
  destruct (hrtimer_start_cancel_correct 10 one_timer [1] 1 500 10 0 ModeRel) as (b1 & l1 & E & _ & _ & Ht & _);
    [exact one_timer_rep|done|simpl; lia|lia|lia|]. exists b1. split; [exact E|]. rewrite Ht. reflexivity.
Defined.
(** A counter of one cycle per nanosecond with the shift of [arch/x86/tsc.c]: after 2^42
    ns (73 minutes) the clock starts again at 0. *)
Lemma monotonic_clock_bounds_witness :
  let cs := Clocksource 300 (2 ^ 22) 22 (2 ^ 64 - 1) in
  0 <= snd (jlos_timek_get_monotonic_ns (Some cs) 0 (2 ^ 42) (Timek 0 0 true 0)) < 2 ^ (64 - 22).
Proof.
  cbv zeta. apply (monotonic_clock_bounds (Clocksource 300 (2 ^ 22) 22 (2 ^ 64 - 1)) (Timek 0 0 true 0) 0 0 (2 ^ 42)); simpl; reflexivity || lia.
Defined.
Example monotonic_clock_wraps :
  let cs := Clocksource 300 (2 ^ 22) 22 (2 ^ 64 - 1) in
  snd (jlos_timek_get_monotonic_ns (Some cs) 0 (2 ^ 42 - 1) (Timek 0 0 true 0)) = 2 ^ 42 - 1 /\
  snd (jlos_timek_get_monotonic_ns (Some cs) 0 (2 ^ 42) (Timek 0 0 true 0)) = 0.
Proof. vm_compute. split; reflexivity. Qed.
