(* ===== verification/Sched.v ===== *)
(** * Tasks and the scheduler ([kernel/multitask.c])

    The task table, the run queues of the processors (four levels of feedback
    queues), blocking, sleeping, waking, exiting and waiting, and the scheduler itself.
    A task is the address of its control block, 0 is the null pointer; lists and the
    table of process numbers are the sequences that [DList] and [HashChain] prove them
    to be.  The sleep wheel is used through the contract [SleepQueue].  Calls that act
    on other components or on the hardware are entries of a log.

    Processors are numbered from 0; [c] is the processor that runs the code and [now]
    the tick count.  Each definition is the sequence of actions of its function with no
    other processor and no interrupt in between: the code takes and releases the locks of
    manager, run queues and tasks inside the longer ones, and [Scheduling] shows what can
    happen there. *)
From S2P Require Import Prelude Bitmap Sync.

(** ** The contract of the sleep wheel *)

(** [sq_rep q P]: the armed nodes and their due ticks; [sq_now q]: the tick the queue
    stands at; [sq_node q n]: [n] is an initialised node. *)
Definition sleep_over (j now due : Z) : Prop := u32 (now - j) < 2 ^ 31 /\ u32 (due - j) <= u32 (now - j).

Class SleepQueue (Q : Type) := {
  sq_rep : Q -> gmap Z Z -> Prop;
  sq_now : Q -> Z;
  sq_node : Q -> Z -> Prop;
  sq_del : Q -> Z -> option Q;
  sq_arm : Q -> Z -> Z -> option Q;
  sq_advance : forall C : Type, (C -> Z -> C) -> Q -> Z -> C -> option (Q * C);
  sq_del_law q P n : sq_rep q P -> sq_node q n ->
    exists q', sq_del q n = Some q' /\ sq_rep q' (delete n P) /\ forall x, sq_node q x -> sq_node q' x;
  sq_arm_law q P n e : sq_rep q P -> sq_node q n -> 0 <= e < 2 ^ 32 ->
    exists q' due, sq_arm q n e = Some q' /\ sq_rep q' (<[n := due]> P) /\ forall x, sq_node q x -> sq_node q' x;
  sq_advance_law C (f : C -> Z -> C) q P now c : sq_rep q P -> 0 <= now < 2 ^ 32 ->
    exists q' fired, sq_advance C f q now c = Some (q', foldl f c fired) /\ NoDup fired /\
      (forall x, x ∈ fired <-> exists due, P !! x = Some due /\ sleep_over (sq_now q) now due) /\
      sq_rep q' (filter (fun p => p.1 ∉ fired) P) /\ forall x, sq_node q x -> sq_node q' x
}.
Arguments sq_advance {Q _ C}.

(** ** Data *)

(** [jlos_task_t], the fields that [kernel/multitask.c] uses. *)
Record task := Task {
  t_status : task_status; t_pid : Z; t_parent : Z; t_exit : Z; t_user : bool; t_stack : Z; t_user_stack : Z;
  t_mm : Z; t_fds : Z; t_kthread : Z; t_sleeping : bool; t_yield : bool; t_waiting : Z; t_prio : Z;
  t_slice : Z; t_default : Z; t_tick : Z; t_slot : Z; t_cpu : Z; t_pending : Z; t_handlers : list Z }.
Definition set_t_status (v : task_status) (t : task) : task := Task v (t_pid t) (t_parent t) (t_exit t) (t_user t) (t_stack t) (t_user_stack t) (t_mm t) (t_fds t) (t_kthread t) (t_sleeping t) (t_yield t) (t_waiting t) (t_prio t) (t_slice t) (t_default t) (t_tick t) (t_slot t) (t_cpu t) (t_pending t) (t_handlers t).
Definition set_t_pid (v : Z) (t : task) : task := Task (t_status t) v (t_parent t) (t_exit t) (t_user t) (t_stack t) (t_user_stack t) (t_mm t) (t_fds t) (t_kthread t) (t_sleeping t) (t_yield t) (t_waiting t) (t_prio t) (t_slice t) (t_default t) (t_tick t) (t_slot t) (t_cpu t) (t_pending t) (t_handlers t).
Definition set_t_parent (v : Z) (t : task) : task := Task (t_status t) (t_pid t) v (t_exit t) (t_user t) (t_stack t) (t_user_stack t) (t_mm t) (t_fds t) (t_kthread t) (t_sleeping t) (t_yield t) (t_waiting t) (t_prio t) (t_slice t) (t_default t) (t_tick t) (t_slot t) (t_cpu t) (t_pending t) (t_handlers t).
Definition set_t_exit (v : Z) (t : task) : task := Task (t_status t) (t_pid t) (t_parent t) v (t_user t) (t_stack t) (t_user_stack t) (t_mm t) (t_fds t) (t_kthread t) (t_sleeping t) (t_yield t) (t_waiting t) (t_prio t) (t_slice t) (t_default t) (t_tick t) (t_slot t) (t_cpu t) (t_pending t) (t_handlers t).
Definition set_t_user (v : bool) (t : task) : task := Task (t_status t) (t_pid t) (t_parent t) (t_exit t) v (t_stack t) (t_user_stack t) (t_mm t) (t_fds t) (t_kthread t) (t_sleeping t) (t_yield t) (t_waiting t) (t_prio t) (t_slice t) (t_default t) (t_tick t) (t_slot t) (t_cpu t) (t_pending t) (t_handlers t).
Definition set_t_stack (v : Z) (t : task) : task := Task (t_status t) (t_pid t) (t_parent t) (t_exit t) (t_user t) v (t_user_stack t) (t_mm t) (t_fds t) (t_kthread t) (t_sleeping t) (t_yield t) (t_waiting t) (t_prio t) (t_slice t) (t_default t) (t_tick t) (t_slot t) (t_cpu t) (t_pending t) (t_handlers t).
Definition set_t_user_stack (v : Z) (t : task) : task := Task (t_status t) (t_pid t) (t_parent t) (t_exit t) (t_user t) (t_stack t) v (t_mm t) (t_fds t) (t_kthread t) (t_sleeping t) (t_yield t) (t_waiting t) (t_prio t) (t_slice t) (t_default t) (t_tick t) (t_slot t) (t_cpu t) (t_pending t) (t_handlers t).
Definition set_t_mm (v : Z) (t : task) : task := Task (t_status t) (t_pid t) (t_parent t) (t_exit t) (t_user t) (t_stack t) (t_user_stack t) v (t_fds t) (t_kthread t) (t_sleeping t) (t_yield t) (t_waiting t) (t_prio t) (t_slice t) (t_default t) (t_tick t) (t_slot t) (t_cpu t) (t_pending t) (t_handlers t).
Definition set_t_fds (v : Z) (t : task) : task := Task (t_status t) (t_pid t) (t_parent t) (t_exit t) (t_user t) (t_stack t) (t_user_stack t) (t_mm t) v (t_kthread t) (t_sleeping t) (t_yield t) (t_waiting t) (t_prio t) (t_slice t) (t_default t) (t_tick t) (t_slot t) (t_cpu t) (t_pending t) (t_handlers t).
Definition set_t_kthread (v : Z) (t : task) : task := Task (t_status t) (t_pid t) (t_parent t) (t_exit t) (t_user t) (t_stack t) (t_user_stack t) (t_mm t) (t_fds t) v (t_sleeping t) (t_yield t) (t_waiting t) (t_prio t) (t_slice t) (t_default t) (t_tick t) (t_slot t) (t_cpu t) (t_pending t) (t_handlers t).
Definition set_t_sleeping (v : bool) (t : task) : task := Task (t_status t) (t_pid t) (t_parent t) (t_exit t) (t_user t) (t_stack t) (t_user_stack t) (t_mm t) (t_fds t) (t_kthread t) v (t_yield t) (t_waiting t) (t_prio t) (t_slice t) (t_default t) (t_tick t) (t_slot t) (t_cpu t) (t_pending t) (t_handlers t).
Definition set_t_yield (v : bool) (t : task) : task := Task (t_status t) (t_pid t) (t_parent t) (t_exit t) (t_user t) (t_stack t) (t_user_stack t) (t_mm t) (t_fds t) (t_kthread t) (t_sleeping t) v (t_waiting t) (t_prio t) (t_slice t) (t_default t) (t_tick t) (t_slot t) (t_cpu t) (t_pending t) (t_handlers t).
Definition set_t_waiting (v : Z) (t : task) : task := Task (t_status t) (t_pid t) (t_parent t) (t_exit t) (t_user t) (t_stack t) (t_user_stack t) (t_mm t) (t_fds t) (t_kthread t) (t_sleeping t) (t_yield t) v (t_prio t) (t_slice t) (t_default t) (t_tick t) (t_slot t) (t_cpu t) (t_pending t) (t_handlers t).
Definition set_t_prio (v : Z) (t : task) : task := Task (t_status t) (t_pid t) (t_parent t) (t_exit t) (t_user t) (t_stack t) (t_user_stack t) (t_mm t) (t_fds t) (t_kthread t) (t_sleeping t) (t_yield t) (t_waiting t) v (t_slice t) (t_default t) (t_tick t) (t_slot t) (t_cpu t) (t_pending t) (t_handlers t).
Definition set_t_slice (v : Z) (t : task) : task := Task (t_status t) (t_pid t) (t_parent t) (t_exit t) (t_user t) (t_stack t) (t_user_stack t) (t_mm t) (t_fds t) (t_kthread t) (t_sleeping t) (t_yield t) (t_waiting t) (t_prio t) v (t_default t) (t_tick t) (t_slot t) (t_cpu t) (t_pending t) (t_handlers t).
Definition set_t_default (v : Z) (t : task) : task := Task (t_status t) (t_pid t) (t_parent t) (t_exit t) (t_user t) (t_stack t) (t_user_stack t) (t_mm t) (t_fds t) (t_kthread t) (t_sleeping t) (t_yield t) (t_waiting t) (t_prio t) (t_slice t) v (t_tick t) (t_slot t) (t_cpu t) (t_pending t) (t_handlers t).
Definition set_t_tick (v : Z) (t : task) : task := Task (t_status t) (t_pid t) (t_parent t) (t_exit t) (t_user t) (t_stack t) (t_user_stack t) (t_mm t) (t_fds t) (t_kthread t) (t_sleeping t) (t_yield t) (t_waiting t) (t_prio t) (t_slice t) (t_default t) v (t_slot t) (t_cpu t) (t_pending t) (t_handlers t).
Definition set_t_slot (v : Z) (t : task) : task := Task (t_status t) (t_pid t) (t_parent t) (t_exit t) (t_user t) (t_stack t) (t_user_stack t) (t_mm t) (t_fds t) (t_kthread t) (t_sleeping t) (t_yield t) (t_waiting t) (t_prio t) (t_slice t) (t_default t) (t_tick t) v (t_cpu t) (t_pending t) (t_handlers t).
Definition set_t_cpu (v : Z) (t : task) : task := Task (t_status t) (t_pid t) (t_parent t) (t_exit t) (t_user t) (t_stack t) (t_user_stack t) (t_mm t) (t_fds t) (t_kthread t) (t_sleeping t) (t_yield t) (t_waiting t) (t_prio t) (t_slice t) (t_default t) (t_tick t) (t_slot t) v (t_pending t) (t_handlers t).
Definition set_t_pending (v : Z) (t : task) : task := Task (t_status t) (t_pid t) (t_parent t) (t_exit t) (t_user t) (t_stack t) (t_user_stack t) (t_mm t) (t_fds t) (t_kthread t) (t_sleeping t) (t_yield t) (t_waiting t) (t_prio t) (t_slice t) (t_default t) (t_tick t) (t_slot t) (t_cpu t) v (t_handlers t).
Definition set_t_handlers (v : list Z) (t : task) : task := Task (t_status t) (t_pid t) (t_parent t) (t_exit t) (t_user t) (t_stack t) (t_user_stack t) (t_mm t) (t_fds t) (t_kthread t) (t_sleeping t) (t_yield t) (t_waiting t) (t_prio t) (t_slice t) (t_default t) (t_tick t) (t_slot t) (t_cpu t) (t_pending t) v.

(** One [jlos_task_runqueue_t]. *)
Record runqueue := RunQueue { rq_queue : Z -> list Z; rq_count : Z -> Z; rq_nonempty : Z }.

(** Calls into other components and the hardware. *)
Inductive event :=
| EvExtDestroy (t : Z)
| EvKfree (p : Z)
| EvMmDestroy (mm : Z)
| EvUnmapStack (t : Z)
| EvKthreadFree (k : Z)
| EvWaitUnlink (t : Z)
| EvSwitchTables (mm : Z)
| EvStackTop (stack : Z)
| EvSwitch (prev next : Z).

Section manager.
Context {Q : Type} `{SleepQueue Q}.

(** [jlos_task_manager_t], the per-processor variables of [arch/x86/context_switch.c]
    and [s_next_pid]. *)
Record mgr := Mgr {
  m_task : Z -> task; m_slots : list Z; m_num : Z; m_pids : list Z; m_zombies : list Z; m_wheel : Q;
  m_rq : Z -> runqueue; m_idle : Z -> Z; m_cur : Z -> Z; m_prev : Z -> Z; m_resched : Z -> bool;
  m_next_pid : Z; m_log : list event }.
Definition set_m_task (v : Z -> task) (m : mgr) : mgr := Mgr v (m_slots m) (m_num m) (m_pids m) (m_zombies m) (m_wheel m) (m_rq m) (m_idle m) (m_cur m) (m_prev m) (m_resched m) (m_next_pid m) (m_log m).
Definition set_m_slots (v : list Z) (m : mgr) : mgr := Mgr (m_task m) v (m_num m) (m_pids m) (m_zombies m) (m_wheel m) (m_rq m) (m_idle m) (m_cur m) (m_prev m) (m_resched m) (m_next_pid m) (m_log m).
Definition set_m_num (v : Z) (m : mgr) : mgr := Mgr (m_task m) (m_slots m) v (m_pids m) (m_zombies m) (m_wheel m) (m_rq m) (m_idle m) (m_cur m) (m_prev m) (m_resched m) (m_next_pid m) (m_log m).
Definition set_m_pids (v : list Z) (m : mgr) : mgr := Mgr (m_task m) (m_slots m) (m_num m) v (m_zombies m) (m_wheel m) (m_rq m) (m_idle m) (m_cur m) (m_prev m) (m_resched m) (m_next_pid m) (m_log m).
Definition set_m_zombies (v : list Z) (m : mgr) : mgr := Mgr (m_task m) (m_slots m) (m_num m) (m_pids m) v (m_wheel m) (m_rq m) (m_idle m) (m_cur m) (m_prev m) (m_resched m) (m_next_pid m) (m_log m).
Definition set_m_wheel (v : Q) (m : mgr) : mgr := Mgr (m_task m) (m_slots m) (m_num m) (m_pids m) (m_zombies m) v (m_rq m) (m_idle m) (m_cur m) (m_prev m) (m_resched m) (m_next_pid m) (m_log m).
Definition set_m_rq (v : Z -> runqueue) (m : mgr) : mgr := Mgr (m_task m) (m_slots m) (m_num m) (m_pids m) (m_zombies m) (m_wheel m) v (m_idle m) (m_cur m) (m_prev m) (m_resched m) (m_next_pid m) (m_log m).
Definition set_m_idle (v : Z -> Z) (m : mgr) : mgr := Mgr (m_task m) (m_slots m) (m_num m) (m_pids m) (m_zombies m) (m_wheel m) (m_rq m) v (m_cur m) (m_prev m) (m_resched m) (m_next_pid m) (m_log m).
Definition set_m_cur (v : Z -> Z) (m : mgr) : mgr := Mgr (m_task m) (m_slots m) (m_num m) (m_pids m) (m_zombies m) (m_wheel m) (m_rq m) (m_idle m) v (m_prev m) (m_resched m) (m_next_pid m) (m_log m).
Definition set_m_prev (v : Z -> Z) (m : mgr) : mgr := Mgr (m_task m) (m_slots m) (m_num m) (m_pids m) (m_zombies m) (m_wheel m) (m_rq m) (m_idle m) (m_cur m) v (m_resched m) (m_next_pid m) (m_log m).
Definition set_m_resched (v : Z -> bool) (m : mgr) : mgr := Mgr (m_task m) (m_slots m) (m_num m) (m_pids m) (m_zombies m) (m_wheel m) (m_rq m) (m_idle m) (m_cur m) (m_prev m) v (m_next_pid m) (m_log m).
Definition set_m_next_pid (v : Z) (m : mgr) : mgr := Mgr (m_task m) (m_slots m) (m_num m) (m_pids m) (m_zombies m) (m_wheel m) (m_rq m) (m_idle m) (m_cur m) (m_prev m) (m_resched m) v (m_log m).
Definition set_m_log (v : list event) (m : mgr) : mgr := Mgr (m_task m) (m_slots m) (m_num m) (m_pids m) (m_zombies m) (m_wheel m) (m_rq m) (m_idle m) (m_cur m) (m_prev m) (m_resched m) (m_next_pid m) v.

Definition put {A} (f : Z -> A) (k : Z) (v : A) : Z -> A := fun x => if x =? k then v else f x.
(** Change one task. *)
Definition on_task (m : mgr) (t : Z) (g : task -> task) : mgr := set_m_task (put (m_task m) t (g (m_task m t))) m.
Definition log (e : event) (m : mgr) : mgr := set_m_log (m_log m ++ [e]) m.

Definition JLOS_MAX_CPUS : Z := 8.
Definition JLOS_TASK_MLFQ_LEVELS : Z := 4.
Definition JLOS_TASK_MLFQ_AGING_TICKS : Z := 200.
Definition cpu_ok (c : Z) : bool := (0 <=? c) && (c <? JLOS_MAX_CPUS).

(** ** Run queues *)

(** [task_on_rq]: the node of [t] is linked into some queue. *)
Definition on_rq (m : mgr) (t : Z) : bool :=
  existsb (fun c => existsb (fun l => bool_decide (t ∈ rq_queue (m_rq m c) l)) (seqZ 0 4)) (seqZ 0 8).
Definition clamp_pri (p : Z) : Z := if p <? JLOS_TASK_MLFQ_LEVELS then p else JLOS_TASK_MLFQ_LEVELS - 1.

(** Linking a node that is in a list corrupts that list. *)
Definition rq_enqueue (m : mgr) (t : Z) : option mgr :=
  let c := t_cpu (m_task m t) in
  let level := clamp_pri (t_prio (m_task m t)) in
  if cpu_ok c && negb (on_rq m t) then
    let rq := m_rq m c in
    Some (set_m_rq (put (m_rq m) c (RunQueue (put (rq_queue rq) level (rq_queue rq level ++ [t]))
                                             (put (rq_count rq) level (u32 (rq_count rq level + 1)))
                                             (Z.lor (rq_nonempty rq) (Z.shiftl 1 level)))) m)
  else None.

(** The common part of [rq_dequeue] and [rq_steal_cpu]: the first task of the first
    level whose bit is set, and the level. *)
Definition rq_pop (rq : runqueue) : option (option (Z * Z) * runqueue) :=
  if rq_nonempty rq =? 0 then Some (None, rq)
  else
    level ← ctz32 (rq_nonempty rq);
    if level <? JLOS_TASK_MLFQ_LEVELS then
      match rq_queue rq level with
      | [] => None
      | first :: q =>
          let n := u32 (rq_count rq level - 1) in
          Some (Some (first, level),
                RunQueue (put (rq_queue rq) level q) (put (rq_count rq) level n)
                         (if n =? 0 then Z.land (rq_nonempty rq) (not32 (Z.shiftl 1 level)) else rq_nonempty rq))
      end
    else None.

Definition rq_dequeue (c now : Z) (m : mgr) : option (mgr * Z) :=
  '(r, rq) ← rq_pop (m_rq m c);
  let m := set_m_rq (put (m_rq m) c rq) m in
  match r with
  | None => Some (m, 0)
  | Some (t, level) =>
      let boost := u32 (now - t_tick (m_task m t)) / JLOS_TASK_MLFQ_AGING_TICKS in
      let boost := if boost <? level then boost else level in
      let level := level - boost in
      Some (on_task m t (fun k => set_t_tick now (set_t_default (Z.shiftl 2 level) (set_t_prio level k))), t)
  end.

Definition unlink (t : Z) (l : list Z) : list Z := filter (fun x => x <> t) l.
(** [jlos_list_del_init] of the node of [t], in whichever queue it is. *)
Definition rq_unlink (m : mgr) (t : Z) : mgr :=
  set_m_rq (fun c => let rq := m_rq m c in RunQueue (fun l => unlink t (rq_queue rq l)) (rq_count rq) (rq_nonempty rq)) m.

Definition rq_remove_specific (m : mgr) (t : Z) : option mgr :=
  if (t =? 0) || negb (on_rq m t) then Some m
  else
    let l := clamp_pri (t_prio (m_task m t)) in
    let c := t_cpu (m_task m t) in
    if cpu_ok c then
      let m := rq_unlink m t in
      let rq := m_rq m c in
      let n := u32 (rq_count rq l - 1) in
      Some (set_m_rq (put (m_rq m) c (RunQueue (rq_queue rq) (put (rq_count rq) l n)
              (if n =? 0 then Z.land (rq_nonempty rq) (not32 (Z.shiftl 1 l)) else rq_nonempty rq))) m)
    else None.

(** ** Status changes *)

Definition make_ready (now : Z) (k : task) : task := set_t_yield false (set_t_tick now (set_t_status READY k)).
Definition make_running (k : task) : task := set_t_yield false (set_t_slice (t_default k) (set_t_status RUNNING k)).

Definition jlos_task_set_ready (now : Z) (m : mgr) (t : Z) : mgr := if t =? 0 then m else on_task m t (make_ready now).
Definition jlos_task_set_running (m : mgr) (t : Z) : mgr := if t =? 0 then m else on_task m t make_running.
Definition jlos_task_set_blocked (m : mgr) (t : Z) : option mgr :=
  if t =? 0 then Some m
  else
    let m := on_task m t (set_t_status BLOCKED) in
    if on_rq m t then rq_remove_specific m t else Some m.
Definition jlos_task_set_zombie (m : mgr) (t exit_code : Z) : option mgr :=
  if t =? 0 then Some m
  else
    let m := on_task m t (fun k => set_t_exit exit_code (set_t_status ZOMBIE k)) in
    if on_rq m t then rq_remove_specific m t else Some m.

(** [find_pid_locked] and [jlos_task_manager_find_pid]: the newest task with this
    number, or null. *)
Definition find_pid_locked (m : mgr) (pid : Z) : Z :=
  match list_find (fun t => t_pid (m_task m t) = pid) (m_pids m) with
  | Some (_, t) => t
  | None => 0
  end.

Definition jlos_task_set_waiting (m : mgr) (t pid : Z) : option mgr :=
  if t =? 0 then Some m
  else
    let target := find_pid_locked m pid in
    if negb (target =? 0) && bool_decide (t_status (m_task m target) = ZOMBIE) then Some m
    else
      let m := on_task m t (fun k => set_t_waiting pid (set_t_status WAITING k)) in
      if on_rq m t then rq_remove_specific m t else Some m.

(** ** The task table *)

Section env.
(** [jlos_hal_num_cpus]. *)
Variable num_cpus : Z.

Definition jlos_hal_is_task_in_use (m : mgr) (t : Z) : bool :=
  if t =? 0 then false else existsb (fun c => (m_cur m c =? t) || (m_prev m c =? t)) (seqZ 0 num_cpus).

(** [larger]: the memory for a larger table, if it is needed, was available. *)
Definition jlos_task_manager_add_task (larger : bool) (m : mgr) (t : Z) : option (mgr * bool) :=
  let slots := m_slots m in
  let max := zlen slots in
  let grow := max <=? m_num m in
  if grow && negb larger then Some (m, false)
  else
    slots ← seti (if grow then slots ++ replicate (Z.to_nat (u32 (2 * max) - max)) 0 else slots) (m_num m) t;
    let m := on_task (set_m_slots slots m) t (set_t_slot (m_num m)) in
    Some (set_m_pids (t :: m_pids m) (set_m_num (u32 (m_num m + 1)) m), true).

Definition jlos_task_unmap_user_stack (m : mgr) (t : Z) : mgr :=
  if t_user_stack (m_task m t) =? 0 then m else on_task (log (EvUnmapStack t) m) t (set_t_user_stack 0).

(** The resources of a task. *)
Definition free_stack (m : mgr) (t : Z) : mgr :=
  let k := m_task m t in
  if negb (t_stack k =? 0) && negb (t_pid k =? 0) then on_task (log (EvKfree (t_stack k)) m) t (set_t_stack 0) else m.
Definition free_mm (m : mgr) (t : Z) : mgr :=
  let k := m_task m t in
  if negb (t_mm k =? 0) then on_task (log (EvMmDestroy (t_mm k)) m) t (set_t_mm 0) else jlos_task_unmap_user_stack m t.
Definition free_fds (m : mgr) (t : Z) : mgr :=
  let k := m_task m t in
  if negb (t_fds k =? 0) then on_task (log (EvKfree (t_fds k)) m) t (set_t_fds 0) else m.
Definition jlos_kthread_release (m : mgr) (t : Z) : mgr :=
  let k := m_task m t in
  if negb (t_kthread k =? 0) then on_task (log (EvKthreadFree (t_kthread k)) m) t (set_t_kthread 0) else m.

(** The last task of the table takes the slot. *)
Definition free_slot (m : mgr) (t : Z) : option mgr :=
  let idx := t_slot (m_task m t) in
  if (0 <=? idx) && (idx <? m_num m) then
    x ← geti (m_slots m) idx;
    if x =? t then
      last ← geti (m_slots m) (m_num m - 1);
      slots ← seti (m_slots m) idx last;
      let m := if last =? 0 then m else on_task m last (set_t_slot idx) in
      slots ← seti slots (m_num m - 1) 0;
      Some (set_m_num (m_num m - 1) (set_m_slots slots m))
    else Some m
  else Some m.

Definition task_free_locked (c : Z) (m : mgr) (t : Z) : option mgr :=
  if t =? 0 then Some m
  else if jlos_hal_is_task_in_use m t then Some m
  else
    let m := set_m_pids (unlink t (m_pids m)) m in
    let m := free_fds (free_mm (free_stack (log (EvExtDestroy t) m) t) t) t in
    m ← free_slot m t;
    let m := if m_cur m c =? t then set_m_cur (put (m_cur m) c 0) m else m in
    let m := on_task m t (set_t_slot (-1)) in
    let m := rq_unlink (set_m_zombies (unlink t (m_zombies m)) (log (EvWaitUnlink t) m)) t in
    w ← sq_del (m_wheel m) t;
    Some (log (EvKfree t) (jlos_kthread_release (set_m_wheel w m) t)).

(** ** Waking *)

Definition jlos_sched_set_need_resched_on (m : mgr) (c : Z) : mgr := set_m_resched (put (m_resched m) c true) m.

Definition wake_waiter_locked (now : Z) (m : mgr) (exited_pid : Z) : option mgr :=
  let exited := find_pid_locked m exited_pid in
  if exited =? 0 then Some m
  else
    let ppid := t_parent (m_task m exited) in
    if negb (ppid =? 0) && negb (ppid =? exited_pid) then
      let parent := find_pid_locked m ppid in
      if negb (parent =? 0) && bool_decide (t_status (m_task m parent) = WAITING) && (t_waiting (m_task m parent) =? exited_pid) then
        let m := on_task m parent (fun k => set_t_waiting (t_pid k) k) in
        let m := jlos_task_set_ready now m parent in
        m ← (if on_rq m parent then Some m else rq_enqueue m parent);
        Some (jlos_sched_set_need_resched_on m (t_cpu (m_task m parent)))
      else Some m
    else Some m.

(** The code tests [sleeping] and the status without a lock; only the removal from the
    wheel and the insertion into the queue are under one. *)
Definition jlos_task_wakeup (now : Z) (m : mgr) (t : Z) : option mgr :=
  m ← (if t_sleeping (m_task m t) then
         w ← sq_del (m_wheel m) t; Some (set_m_wheel w (on_task m t (set_t_sleeping false)))
       else Some m);
  m ← (if bool_decide (t_status (m_task m t) = BLOCKED) then rq_enqueue (jlos_task_set_ready now m t) t else Some m);
  Some (jlos_sched_set_need_resched_on m (t_cpu (m_task m t))).

(** [sleep_expire], the callback of the sleep wheel. *)
Definition sleep_expire (now : Z) (r : option mgr) (t : Z) : option mgr :=
  m ← r;
  let m := on_task m t (set_t_sleeping false) in
  if bool_decide (t_status (m_task m t) = BLOCKED) then rq_enqueue (jlos_task_set_ready now m t) t else Some m.

(** ** Balancing *)

Definition rq_task_count (m : mgr) (c : Z) : Z := foldl (fun n l => u32 (n + rq_count (m_rq m c) l)) 0 (seqZ 0 4).

Definition rq_steal_cpu (c : Z) (m : mgr) : option (mgr * Z) :=
  '(r, rq) ← rq_pop (m_rq m c);
  Some (set_m_rq (put (m_rq m) c rq) m, match r with None => 0 | Some (t, _) => t end).

(** The busiest other processor and its number of tasks. *)
Definition find_busiest (m : mgr) (c : Z) : Z * Z :=
  foldl (fun '(busiest, max) c' =>
           if c' =? c then (busiest, max)
           else let n := rq_task_count m c' in if max <? n then (c', n) else (busiest, max)) (c, 0) (seqZ 0 num_cpus).

Definition jlos_sched_balance (c : Z) (m : mgr) : option mgr :=
  if num_cpus <=? 1 then Some m
  else
    let '(busiest, max) := find_busiest m c in
    if (busiest =? c) || (max =? 0) then Some m
    else
      '(m, t) ← rq_steal_cpu busiest m;
      if t =? 0 then Some m else rq_enqueue (on_task m t (set_t_cpu c)) t.

(** ** The scheduler *)

(** One level down for a task that used up its slice. *)
Definition drop_level (m : mgr) (prev : Z) : mgr :=
  let k := m_task m prev in
  if (t_yield k || (t_slice k =? 0)) && ((t_slice k =? 0) && (t_prio k <? JLOS_TASK_MLFQ_LEVELS - 1))
  then on_task m prev (fun k => set_t_default (u32 (Z.shiftl 2 (t_prio k + 1))) (set_t_prio (t_prio k + 1) k)) else m.
(** The task that gives up the processor goes back into a queue. *)
Definition put_prev (c now : Z) (m : mgr) (prev : Z) : option mgr :=
  let k := m_task m prev in
  if bool_decide (t_status k = RUNNING) then
    if t_sleeping k then jlos_task_set_blocked m prev
    else if prev =? m_idle m c then Some m
    else rq_enqueue (jlos_task_set_ready now (drop_level m prev) prev) prev
  else Some m.

(** Orphaned tasks that have exited, and sleepers that are due. *)
Fixpoint free_zombies (c : Z) (m : mgr) (prev : Z) (l : list Z) : option mgr :=
  match l with
  | [] => Some m
  | z :: l =>
      if (z =? prev) || jlos_hal_is_task_in_use m z then free_zombies c m prev l
      else
        m ← task_free_locked c (set_m_zombies (unlink z (m_zombies m)) m) z;
        free_zombies c m prev l
  end.
Definition wake_sleepers (now : Z) (m : mgr) : option mgr :=
  '(w, m) ← sq_advance (sleep_expire now) (m_wheel m) now (Some m);
  m ← m; Some (set_m_wheel w m).

Definition pick_next (c now : Z) (m : mgr) : option (mgr * Z) :=
  '(m, next) ← rq_dequeue c now m;
  '(m, next) ← (if next =? 0 then m ← jlos_sched_balance c m; rq_dequeue c now m else Some (m, next));
  Some (m, if next =? 0 then m_idle m c else next).

(** The slot of [next], searched for when the recorded one is stale; [None] for no
    slot. *)
Fixpoint find_slot (l : list Z) (t i n : Z) : option Z :=
  match l with
  | [] => None
  | x :: l => if n <=? i then None else if x =? t then Some i else find_slot l t (i + 1) n
  end.
Definition check_slot (m : mgr) (next : Z) : mgr * bool :=
  let idx := t_slot (m_task m next) in
  if (0 <=? idx) && (idx <? m_num m) && bool_decide (geti (m_slots m) idx = Some next) then (m, true)
  else match find_slot (m_slots m) next 0 (m_num m) with
       | Some i => (on_task m next (set_t_slot i), true)
       | None => (m, false)
       end.

Definition switch_to (c : Z) (m : mgr) (prev next : Z) : mgr :=
  let k := m_task m next in
  let m := log (EvStackTop (t_stack k)) (log (EvSwitchTables (t_mm k)) m) in
  let m := set_m_cur (put (m_cur m) c next) (set_m_prev (put (m_prev m) c prev) m) in
  let m := jlos_task_set_running m next in
  log (EvSwitch prev next) (set_m_resched (put (m_resched m) c false) m).

(** Up to the point where the other task runs; the locks of manager and run queues are
    taken and released around [rq_enqueue], [free_zombies], [wake_sleepers] and
    [pick_next]. *)
Definition jlos_task_manager_schedule (c now : Z) (m : mgr) : option mgr :=
  let prev := m_cur m c in
  if prev =? 0 then Some m
  else
    m ← put_prev c now m prev;
    m ← free_zombies c m prev (m_zombies m);
    m ← wake_sleepers now m;
    '(m, next) ← pick_next c now m;
    if next =? prev then Some (set_m_resched (put (m_resched m) c false) (jlos_task_set_running m prev))
    else if next =? 0 then None
    else
      let '(m, found) := check_slot m next in
      Some (if found then switch_to c m prev next else m).
(** When a task runs again after [jlos_hal_context_switch]. *)
Definition after_switch (c : Z) (m : mgr) : mgr := set_m_prev (put (m_prev m) c 0) m.

Definition jlos_task_manager_curr_task_on_tick (c : Z) (m : mgr) : mgr * Z :=
  let curr := m_cur m c in
  if curr =? 0 then (m, 0)
  else if curr =? m_idle m c then (m, 0)
  else if bool_decide (t_status (m_task m curr) = RUNNING) && (0 <? t_slice (m_task m curr))
  then (on_task m curr (fun k => set_t_slice (t_slice k - 1) k), curr)
  else (m, curr).
Definition jlos_task_manager_tick_and_schedule (c now : Z) (m : mgr) : option mgr :=
  let '(m, curr) := jlos_task_manager_curr_task_on_tick c m in
  if m_resched m c || (curr =? 0) || negb (bool_decide (t_status (m_task m curr) = RUNNING)) || (t_slice (m_task m curr) =? 0)
  then jlos_task_manager_schedule c now m
  else Some m.

Definition jlos_task_manager_enqueue (m : mgr) (t : Z) : option mgr :=
  if t =? 0 then Some m
  else if bool_decide (t_status (m_task m t) = READY) then rq_enqueue m t else Some m.

(** [jlos_task_sleep_until] in three parts: interrupts are on between them. *)
Definition sleep_mark (c : Z) (m : mgr) : option mgr :=
  let t := m_cur m c in jlos_task_set_blocked (on_task m t (set_t_sleeping true)) t.
Definition sleep_arm (m : mgr) (t wake_tick : Z) : option mgr :=
  w ← sq_arm (m_wheel m) t wake_tick; Some (set_m_wheel w m).
Definition jlos_task_sleep_until (c now wake_tick : Z) (m : mgr) : option mgr :=
  let t := m_cur m c in
  if t =? 0 then Some m
  else
    m ← sleep_mark c m;
    m ← sleep_arm m t wake_tick;
    jlos_task_manager_schedule c now m.

(** [jlos_process_exit] up to the final schedule, and the whole. *)
Definition exit_mark (now : Z) (m : mgr) (t exit_code : Z) : option mgr :=
  if t =? 0 then None else
  m ← jlos_task_set_zombie m t exit_code;
  let parent := find_pid_locked m (t_parent (m_task m t)) in
  if negb (parent =? 0) && negb (bool_decide (t_status (m_task m parent) = ZOMBIE))
  then wake_waiter_locked now m (t_pid (m_task m t))
  else Some (set_m_zombies (t :: m_zombies m) m).
Definition jlos_process_exit (c now : Z) (m : mgr) (t exit_code : Z) : option mgr :=
  m ← exit_mark now m t exit_code;
  jlos_task_manager_schedule c now (set_m_resched (put (m_resched m) c true) m).

(** ** Waiting for children *)

Inductive wait_result := Reaped (pid exit_code : Z) | MustWait | NotFound | NoChild | Invalid.

Definition jlos_task_reap_child (c : Z) (m : mgr) (pid parent : Z) : option (mgr * wait_result) :=
  let target := find_pid_locked m pid in
  if (target =? 0) || negb (t_parent (m_task m target) =? t_pid (m_task m parent)) || negb (bool_decide (t_status (m_task m target) = ZOMBIE))
  then Some (m, Invalid)
  else
    let r := Reaped (t_pid (m_task m target)) (t_exit (m_task m target)) in
    m ← task_free_locked c m target; Some (m, r).

Definition jlos_task_wait_or_reap (c : Z) (m : mgr) (pid parent : Z) : option (mgr * wait_result) :=
  let target := find_pid_locked m pid in
  if target =? 0 then Some (m, NotFound)
  else if negb (t_parent (m_task m target) =? t_pid (m_task m parent)) then Some (m, NoChild)
  else if bool_decide (t_status (m_task m target) = ZOMBIE) then
    let r := Reaped (t_pid (m_task m target)) (t_exit (m_task m target)) in
    m ← task_free_locked c m target; Some (m, r)
  else Some (on_task m parent (fun k => set_t_waiting pid (set_t_status WAITING k)), MustWait).

(** The tasks that [jlos_task_reap_all_zombies] may free, in the order of the table;
    [can_release] is [jlos_kthread_can_release]. *)
Definition reapable (can_release : Z -> bool) (m : mgr) (t : Z) : bool :=
  negb (t =? 0) && negb (existsb (fun c => t =? m_idle m c) (seqZ 0 8)) && bool_decide (t_status (m_task m t) = ZOMBIE)
  && negb (jlos_hal_is_task_in_use m t) && ((t_kthread (m_task m t) =? 0) || can_release t).
Fixpoint jlos_task_reap_all_zombies (n : nat) (can_release : Z -> bool) (c : Z) (m : mgr) : option mgr :=
  match list_find (fun t => reapable can_release m t = true) (drop 1 (take (Z.to_nat (m_num m)) (m_slots m))) with
  | None => Some m
  | Some (_, t) =>
      match n with
      | O => None
      | S n =>
          m ← task_free_locked c (set_m_zombies (unlink t (m_zombies m)) m) t;
          jlos_task_reap_all_zombies n can_release c m
      end
  end.

Definition jlos_task_check_zombie_exit (m : mgr) (pid expected_exit : Z) : bool :=
  let target := find_pid_locked m pid in
  negb (target =? 0) && bool_decide (t_status (m_task m target) = ZOMBIE) && (t_exit (m_task m target) =? expected_exit).

(** ** Signals *)

Definition JLOS_SIGNAL_NUM : Z := 32.
Definition JLOS_SIGKILL : Z := 9.
Definition JLOS_SIGSEGV : Z := 11.
Definition JLOS_SIGTERM : Z := 15.

Definition set_pending (sig : Z) (k : task) : task := set_t_pending (Z.lor (t_pending k) (Z.shiftl 1 sig)) k.
Definition jlos_signal_send (c now : Z) (m : mgr) (t sig : Z) : option (mgr * Z) :=
  if (t =? 0) || (sig =? 0) || (JLOS_SIGNAL_NUM <=? sig) then Some (m, -1)
  else if sig =? JLOS_SIGKILL then
    if bool_decide (t_status (m_task m t) = ZOMBIE) then Some (m, 0)
    else if t =? m_cur m c then m ← jlos_process_exit c now m t sig; Some (m, 0)
    else m ← jlos_task_wakeup now (on_task m t (set_pending sig)) t; Some (m, 0)
  else Some (on_task m t (set_pending sig), 0).

(** What [jlos_signal_check_deliver] does with the signals of [pend]: the task goes on,
    runs a handler, or ends. *)
Inductive delivery := Continue | RunHandler (sig handler : Z) | Exit (sig : Z).
Fixpoint deliver_loop (n : nat) (k : task) (pend : Z) : option (task * delivery) :=
  if pend =? 0 then Some (k, Continue)
  else
    match n with
    | O => None
    | S n =>
        sig ← ctz32 pend;
        let pend := Z.land pend (not32 (Z.shiftl 1 sig)) in
        let k := set_t_pending (Z.land (t_pending k) (not32 (Z.shiftl 1 sig))) k in
        if sig =? 0 then deliver_loop n k pend
        else
          h ← geti (t_handlers k) sig;
          if h =? 1 then deliver_loop n k pend
          else if negb (h =? 0) then Some (k, RunHandler sig h)
          else if (sig =? JLOS_SIGKILL) || (sig =? JLOS_SIGSEGV) || (sig =? JLOS_SIGTERM) then Some (k, Exit sig)
          else deliver_loop n k pend
    end.
Definition jlos_signal_check_deliver (k : task) : option (task * delivery) := deliver_loop 32 k (t_pending k).
End env.
End manager.
Arguments mgr Q : clear implicits.
