(* ===== verification/SchedInv.v ===== *)
(** * The scheduler keeps its queues ([kernel/multitask.c])

    The run queues hold exactly the ready tasks, each once, at the level of its
    priority on its processor; counts and bits agree with the lists; the task table,
    the table of process numbers and the sleep wheel agree. *)
From S2P Require Import Prelude Bitmap Sync Sched.

Lemma put_eq {A} (f : Z -> A) k v : put f k v k = v.
Proof. unfold put. by rewrite Z.eqb_refl. Qed.
Lemma put_ne {A} (f : Z -> A) k v x : x <> k -> put f k v x = f x.
Proof. intros H. unfold put. by rewrite (proj2 (Z.eqb_neq _ _) H). Qed.
Lemma put_spec {A} (f : Z -> A) k v x : put f k v x = if decide (x = k) then v else f x.
Proof. case_decide; [subst; apply put_eq|by apply put_ne]. Qed.

Abbreviation level l := (0 <= l < 4) (only parsing).
Lemma clamp_level p : 0 <= p -> level (clamp_pri p).
Proof. intros Hp. unfold clamp_pri, JLOS_TASK_MLFQ_LEVELS. zcases; lia. Qed.
Lemma clamp_small p : 0 <= p < 4 -> clamp_pri p = p.
Proof. intros Hp. unfold clamp_pri, JLOS_TASK_MLFQ_LEVELS. zcases; lia. Qed.
Lemma cpu_ok_iff c : cpu_ok c = true <-> 0 <= c < 8.
Proof. unfold cpu_ok, JLOS_MAX_CPUS. rewrite andb_true_iff, Z.leb_le, Z.ltb_lt. tauto. Qed.

(** ** Queues *)

Record rq_ok (rq : runqueue) : Prop := {
  ro_count l : level l -> rq_count rq l = zlen (rq_queue rq l);
  ro_bits : 0 <= rq_nonempty rq < 16;
  ro_bit l : level l -> Z.testbit (rq_nonempty rq) l = true <-> rq_queue rq l <> []
}.

Definition queued (R : Z -> runqueue) (t : Z) : Prop := exists c l, cpu_ok c = true /\ level l /\ t ∈ rq_queue (R c) l.

Record task_ok (k : task) : Prop := { to_cpu : cpu_ok (t_cpu k) = true; to_prio : 0 <= t_prio k < 4 }.

(** The queues [R] of the tasks [T] with control blocks [tk]; the tasks of [X] are in no
    queue whatever their status. *)
Record queues (R : Z -> runqueue) (tk : Z -> task) (T X : list Z) : Prop := {
  qs_rq c : cpu_ok c = true -> rq_ok (R c);
  qs_queued c l t : cpu_ok c = true -> level l -> t ∈ rq_queue (R c) l ->
    t ∈ T /\ (t ∉ X) /\ t_status (tk t) = READY /\ t_cpu (tk t) = c /\ t_prio (tk t) = l;
  qs_nodup c l : cpu_ok c = true -> level l -> NoDup (rq_queue (R c) l);
  qs_ready t : t ∈ T -> t ∉ X -> t_status (tk t) = READY -> queued R t;
  qs_ok t : t ∈ T -> task_ok (tk t) /\ 0 < t < 2 ^ 32
}.

Lemma nodup_addresses (l : list Z) : NoDup l -> (forall x, x ∈ l -> 0 < x < 2 ^ 32) -> zlen l < 2 ^ 32.
Proof.
  intros Hnd Hl. assert (length l <= length (seqZ 1 (2 ^ 32 - 1)))%nat as Hle.
  { apply submseteq_length. apply NoDup_submseteq; [done|]. intros x Hx. apply elem_of_seqZ. specialize (Hl x Hx). lia. }
  rewrite length_seqZ in Hle. lia.
Qed.

Section queues.
Variable T : list Z.

Lemma queues_length R tk X c l : queues R tk T X -> cpu_ok c = true -> level l -> zlen (rq_queue (R c) l) < 2 ^ 32.
Proof. intros HQ Hc Hl. apply nodup_addresses; [by eapply qs_nodup|]. intros x Hx. eapply qs_ok; [done|]. by eapply (qs_queued R tk T X HQ). Qed.

Lemma queues_open R tk X t : queues R tk T X -> ~ queued R t -> queues R tk T (t :: X).
Proof.
  intros [A1 A2 A3 A4 A5] Hq. split; try done.
  - intros c l x Hc Hl Hx. destruct (A2 c l x Hc Hl Hx) as (? & ? & ? & ? & ?). split_and!; try done.
    rewrite not_elem_of_cons. split; [|done]. intros ->. apply Hq. by exists c, l.
  - intros x Hx Hn Hs. apply A4; [done| |done]. set_solver.
Qed.
Lemma queues_task R tk X t k : queues R tk T X -> t ∈ X -> task_ok k -> queues R (put tk t k) T X.
Proof.
  intros [A1 A2 A3 A4 A5] Ht Hk. split; try done.
  - intros c l x Hc Hl Hx. destruct (A2 c l x Hc Hl Hx) as (? & ? & ? & ? & ?). rewrite put_ne by (by intros ->). done.
  - intros x Hx Hn. rewrite put_ne by (by intros ->). by apply A4.
  - intros x Hx. rewrite put_spec. case_decide; [split; [done|by apply A5]|by apply A5].
Qed.
(** A change that leaves status, processor and priority alone. *)
Lemma queues_same R tk X tk' : queues R tk T X ->
  (forall t, t ∈ T -> t_status (tk' t) = t_status (tk t) /\ t_cpu (tk' t) = t_cpu (tk t) /\ t_prio (tk' t) = t_prio (tk t)) -> queues R tk' T X.
Proof.
  intros [A1 A2 A3 A4 A5] Hs. split; try done.
  - intros c l x Hc Hl Hx. destruct (A2 c l x Hc Hl Hx) as (? & ? & ? & ? & ?). destruct (Hs x) as (-> & -> & ->); done.
  - intros x Hx Hn. destruct (Hs x Hx) as (-> & _). by apply A4.
  - intros x Hx. destruct (Hs x Hx) as (_ & E1 & E2). destruct (A5 x Hx) as [[B1 B2] B3]. split; [split; congruence|done].
Qed.
Lemma queues_close R tk X t : queues R tk T (t :: X) -> t_status (tk t) <> READY -> queues R tk T X.
Proof.
  intros [A1 A2 A3 A4 A5] Ht. split; try done.
  - intros c l x Hc Hl Hx. destruct (A2 c l x Hc Hl Hx) as (? & ? & ? & ? & ?). split_and!; try done. set_solver.
  - intros x Hx Hn Hs. apply A4; [done| |done]. rewrite not_elem_of_cons. split; [by intros ->|done].
Qed.
Lemma queued_not_ready R tk X t : queues R tk T X -> t_status (tk t) <> READY -> ~ queued R t.
Proof. intros HQ Hs (c & l & Hc & Hl & Ht). by destruct (qs_queued R tk T X HQ c l t Hc Hl Ht) as (_ & _ & ? & _). Qed.

(** ** Bits *)

Lemma testbit_lor_shift a l i : 0 <= l -> 0 <= i -> Z.testbit (Z.lor a (Z.shiftl 1 l)) i = Z.testbit a i || (i =? l).
Proof. intros Hl Hi. rewrite Z.lor_spec, Z.shiftl_1_l, Z.pow2_bits_eqb, (Z.eqb_sym i l) by done. done. Qed.
Lemma testbit_clear a l i : 0 <= l < 32 -> 0 <= i < 32 -> Z.testbit (Z.land a (not32 (Z.shiftl 1 l))) i = Z.testbit a i && negb (i =? l).
Proof.
  intros Hl Hi. rewrite Z.land_spec. f_equal. unfold not32, u32, wrap. rewrite Z.mod_pow2_bits_low, Z.lnot_spec, Z.shiftl_1_l, Z.pow2_bits_eqb by lia. by rewrite Z.eqb_sym.
Qed.
Lemma small_bits a : 0 <= a -> (forall i, 4 <= i -> Z.testbit a i = false) -> 0 <= a < 16.
Proof.
  intros Ha Hb. split; [done|]. destruct (Z.lt_ge_cases a 16) as [|Hge]; [done|]. exfalso.
  pose proof (Z.log2_le_mono 16 a Hge) as Hlog. change (Z.log2 16) with 4 in Hlog. pose proof (Z.bit_log2 a ltac:(lia)) as Hbit. by rewrite Hb in Hbit by lia.
Qed.
Lemma small_testbit a i : 0 <= a < 16 -> 4 <= i -> Z.testbit a i = false.
Proof. intros Ha Hi. apply (testbit_above 4); lia. Qed.
End queues.

(** ** Putting a task into a queue and taking one out *)

Definition rq_push (rq : runqueue) (l t : Z) : runqueue :=
  RunQueue (put (rq_queue rq) l (rq_queue rq l ++ [t])) (put (rq_count rq) l (u32 (rq_count rq l + 1))) (Z.lor (rq_nonempty rq) (Z.shiftl 1 l)).
(** Level [l] now holds [q]. *)
Definition rq_less (rq : runqueue) (l : Z) (q : list Z) : runqueue :=
  let n := u32 (rq_count rq l - 1) in
  RunQueue (put (rq_queue rq) l q) (put (rq_count rq) l n) (if n =? 0 then Z.land (rq_nonempty rq) (not32 (Z.shiftl 1 l)) else rq_nonempty rq).

Lemma rq_push_ok rq l t : rq_ok rq -> level l -> zlen (rq_queue rq l) + 1 < 2 ^ 32 -> rq_ok (rq_push rq l t).
Proof.
  intros [A1 A2 A3] Hl Hlen. split; simpl.
  - intros i Hi. rewrite !put_spec. case_decide; [|by apply A1]. rewrite A1, length_app by done. simpl. rewrite u32_small; lia.
  - apply small_bits; [rewrite Z.lor_nonneg, Z.shiftl_nonneg; lia|]. intros i Hi. rewrite testbit_lor_shift, small_testbit by lia. apply Z.eqb_neq. lia.
  - intros i Hi. rewrite testbit_lor_shift, put_spec by lia. case_decide as Hil; [subst i; rewrite Z.eqb_refl, orb_true_r; split; [by destruct (rq_queue rq l)|done]|].
    rewrite (proj2 (Z.eqb_neq _ _) Hil), orb_false_r. by apply A3.
Qed.
Lemma rq_less_ok rq l q : rq_ok rq -> level l -> length (rq_queue rq l) = S (length q) -> zlen (rq_queue rq l) < 2 ^ 32 -> rq_ok (rq_less rq l q).
Proof.
  intros [A1 A2 A3] Hl Hlen Hb. unfold rq_less. rewrite A1, Hlen by done. rewrite Hlen in Hb. rewrite u32_small by lia.
  replace (Z.of_nat (S (length q)) - 1) with (zlen q) by lia. split; cbn [rq_queue rq_count rq_nonempty].
  - intros i Hi. rewrite !put_spec. case_decide; [done|by apply A1].
  - destruct (Z.eqb_spec (zlen q) 0); [|done]. apply (land_range 4); [lia|lia|]. unfold not32. pose proof (u32_range (Z.lnot (Z.shiftl 1 l))). lia.
  - intros i Hi. rewrite put_spec. assert (rq_queue rq l <> []) as Hne by (by destruct (rq_queue rq l)).
    assert (zlen q = 0 <-> q = []) as Hq by (destruct q; simpl; [done|split; [lia|done]]).
    destruct (Z.eqb_spec (zlen q) 0) as [E|E].
    + rewrite testbit_clear by lia. case_decide as Hil; [subst i; rewrite Z.eqb_refl, andb_false_r; split; [done|tauto]|].
      rewrite (proj2 (Z.eqb_neq _ _) Hil), andb_true_r. by apply A3.
    + case_decide as Hil; [subst i; rewrite A3 by done; tauto|by apply A3].
Qed.

Section mgr.
Context {Q : Type} `{SleepQueue Q}.
Variables T X : list Z.

Lemma on_rq_spec (m : mgr Q) t : on_rq m t = true <-> queued (m_rq m) t.
Proof.
  unfold on_rq, queued. rewrite existsb_exists. setoid_rewrite existsb_exists. setoid_rewrite bool_decide_eq_true. setoid_rewrite <- list_elem_of_In. setoid_rewrite elem_of_seqZ.
  setoid_rewrite cpu_ok_iff. split; [intros (c & Hc & l & Hl & Ht); exists c, l|intros (c & l & Hc & Hl & Ht); exists c; split; [lia|]; exists l]; split_and!; (done || lia).
Qed.

Lemma rq_enqueue_spec (m : mgr Q) t :
  queues (m_rq m) (m_task m) T (t :: X) -> t ∈ T -> t ∉ X -> t_status (m_task m t) = READY ->
  let k := m_task m t in
  let R := put (m_rq m) (t_cpu k) (rq_push (m_rq m (t_cpu k)) (t_prio k) t) in
  rq_enqueue m t = Some (set_m_rq R m) /\ queues R (m_task m) T X.
Proof.
  intros HQ Ht Hx Hs k R. destruct (qs_ok _ _ _ _ HQ t Ht) as [[Hc Hp] Haddr]. fold k in Hc, Hp.
  assert (~ queued (m_rq m) t) as Hnq.
  { intros (c & l & Hc' & Hl & Hin). destruct (qs_queued _ _ _ _ HQ c l t Hc' Hl Hin) as (_ & Hn & _). set_solver. }
  split.
  { unfold rq_enqueue. fold k. rewrite Hc. destruct (on_rq m t) eqn:E; [by apply on_rq_spec in E|]. simpl. by rewrite clamp_small. }
  assert (forall c, cpu_ok c = true -> forall l, level l -> rq_queue (R c) l = if decide (c = t_cpu k /\ l = t_prio k) then rq_queue (m_rq m c) l ++ [t] else rq_queue (m_rq m c) l) as HR.
  { intros c Hcc l Hl. unfold R. rewrite put_spec. case_decide as Hcc'; [|rewrite decide_False; [done|tauto]]. subst c. simpl. rewrite put_spec. case_decide; [subst; by rewrite decide_True|rewrite decide_False; [done|tauto]]. }
  destruct HQ as [A1 A2 A3 A4 A5]. split; [| | | |done].
  - intros c Hcc. unfold R. rewrite put_spec. case_decide as Hcc'; [|by apply A1]. apply rq_push_ok; [by apply A1|done|].
    assert (zlen (rq_queue (m_rq m (t_cpu k)) (t_prio k) ++ [t]) < 2 ^ 32) as Hlen; [|rewrite length_app in Hlen; simpl in Hlen; lia].
    apply nodup_addresses.
    + apply NoDup_app. split_and!; [by apply A3| |apply NoDup_singleton]. intros x Hx' ->%list_elem_of_singleton. apply Hnq. by exists (t_cpu k), (t_prio k).
    + intros x [Hx'| ->%list_elem_of_singleton]%elem_of_app; [|done]. apply A5. by eapply (A2 (t_cpu k) (t_prio k)).
  - intros c l x Hcc Hl. rewrite HR by done. case_decide as Hcl; [|intros Hin; destruct (A2 c l x Hcc Hl Hin) as (? & ? & ? & ? & ?); split_and!; try done; set_solver].
    intros [Hin| ->%list_elem_of_singleton]%elem_of_app; [destruct (A2 c l x Hcc Hl Hin) as (? & ? & ? & ? & ?); split_and!; try done; set_solver|].
    destruct Hcl as [-> ->]. by split_and!.
  - intros c l Hcc Hl. rewrite HR by done. case_decide; [|by apply A3]. apply NoDup_app. split_and!; [by apply A3| |apply NoDup_singleton]. intros x Hx' ->%list_elem_of_singleton. apply Hnq. by exists c, l.
  - intros x Hxt Hn Hsx. destruct (decide (x = t)) as [->|Hne].
    + exists (t_cpu k), (t_prio k). split; [done|split; [done|]]. rewrite HR, decide_True by done. set_solver.
    + destruct (A4 x Hxt) as (c & l & Hcc & Hl & Hin); [set_solver|done|]. exists c, l. split; [done|split; [done|]]. rewrite HR by done. case_decide; set_solver.
Qed.

(** Taking a task out of its place in a queue. *)
Lemma queues_less R tk c l q1 t q2 : queues R tk T X -> cpu_ok c = true -> level l -> rq_queue (R c) l = q1 ++ t :: q2 ->
  queues (put R c (rq_less (R c) l (q1 ++ q2))) tk T (t :: X).
Proof.
  intros HQ Hc Hl Eq. set (R' := put R c _).
  assert (forall c', cpu_ok c' = true -> forall l', level l' -> rq_queue (R' c') l' = if decide (c' = c /\ l' = l) then q1 ++ q2 else rq_queue (R c') l') as HR.
  { intros c' Hcc l' Hl'. unfold R'. rewrite put_spec. case_decide as Hcc'; [|rewrite decide_False; [done|tauto]]. subst c'. simpl. rewrite put_spec. case_decide; [subst; by rewrite decide_True|rewrite decide_False; [done|tauto]]. }
  pose proof (queues_length T R tk X c l HQ Hc Hl) as Hlen. destruct HQ as [A1 A2 A3 A4 A5].
  assert (forall c' l', cpu_ok c' = true -> level l' -> t ∈ rq_queue (R c') l' -> c' = c /\ l' = l) as Honly.
  { intros c' l' Hc' Hl' Hin. destruct (A2 c' l' t Hc' Hl' Hin) as (_ & _ & _ & E1 & E2). destruct (A2 c l t Hc Hl) as (_ & _ & _ & E3 & E4); [rewrite Eq, elem_of_app; right; left|]. split; congruence. }
  assert (t ∉ q1 ++ q2) as Hni.
  { pose proof (A3 c l Hc Hl) as Hnd. rewrite Eq in Hnd. apply NoDup_app in Hnd as (_ & H1 & [H2 _]%NoDup_cons). rewrite not_elem_of_app. split; [|done]. intros Hin. apply (H1 t Hin). left. }
  split; [| | | |done].
  - intros c' Hc'. unfold R'. rewrite put_spec. case_decide; [|by apply A1]. apply rq_less_ok; [by apply A1|done| |done]. rewrite Eq, !length_app. simpl. lia.
  - intros c' l' x Hc' Hl'. rewrite HR by done. intros Hin. assert (x ∈ rq_queue (R c') l' /\ x <> t) as [Hin' Hne].
    { case_decide as Hcl; [destruct Hcl as [-> ->]; rewrite Eq; split; [set_solver|by intros ->]|split; [done|]]. intros ->. exact (Hcl (Honly c' l' Hc' Hl' Hin)). }
    destruct (A2 c' l' x Hc' Hl' Hin') as (? & ? & ? & ? & ?). split_and!; try done. set_solver.
  - intros c' l' Hc' Hl'. rewrite HR by done. case_decide; [|by apply A3]. pose proof (A3 c l Hc Hl) as Hnd. rewrite Eq in Hnd. apply NoDup_app in Hnd as (N1 & N2 & [_ N3]%NoDup_cons).
    apply NoDup_app. split_and!; [done| |done]. intros x Hx Hx2. apply (N2 x Hx). by right.
  - intros x Hx Hn Hs. destruct (A4 x Hx) as (c' & l' & Hc' & Hl' & Hin); [set_solver|done|]. exists c', l'. split; [done|split; [done|]]. rewrite HR by done.
    case_decide as Hcl; [|done]. destruct Hcl as [-> ->]. rewrite Eq in Hin. set_solver.
Qed.

Lemma rq_pop_spec R tk c : queues R tk T X -> cpu_ok c = true ->
  (rq_pop (R c) = Some (None, R c) /\ forall l, level l -> rq_queue (R c) l = []) \/
  exists l t q, level l /\ rq_queue (R c) l = t :: q /\ (forall i, 0 <= i < l -> rq_queue (R c) i = []) /\
    rq_pop (R c) = Some (Some (t, l), rq_less (R c) l q) /\ queues (put R c (rq_less (R c) l q)) tk T (t :: X).
Proof.
  intros HQ Hc. destruct (qs_rq _ _ _ _ HQ c Hc) as [A1 A2 A3]. unfold rq_pop. destruct (Z.eqb_spec (rq_nonempty (R c)) 0) as [E|E].
  - left. split; [done|]. intros l Hl. destruct (rq_queue (R c) l) eqn:El; [done|]. assert (rq_queue (R c) l <> []) as Hb%A3 by (by rewrite El); [|done]. by rewrite E, Z.bits_0 in Hb.
  - right. destruct (ctz32_spec (rq_nonempty (R c)) ltac:(lia)) as (l & -> & Hl & Hb & Hlow). cbn [mbind option_bind].
    assert (level l) as Hlv. { split; [lia|]. destruct (Z.lt_ge_cases l 4); [done|]. by rewrite small_testbit in Hb. }
    change JLOS_TASK_MLFQ_LEVELS with 4. rewrite (proj2 (Z.ltb_lt l 4)) by (lia). apply A3 in Hb; [|done]. destruct (rq_queue (R c) l) as [|t q] eqn:El; [done|].
    exists l, t, q. split; [done|]. split; [done|]. split; [|split; [done|]].
    + intros i Hi. destruct (rq_queue (R c) i) eqn:Ei; [done|]. assert (rq_queue (R c) i <> []) as Hbi%A3 by (by rewrite Ei); [|lia]. by rewrite Hlow in Hbi.
    + by apply (queues_less R tk c l [] t q).
Qed.
End mgr.

(** ** Taking a task out of whatever queue it is in *)

Definition rq_same (a b : runqueue) : Prop :=
  (forall l, level l -> rq_queue a l = rq_queue b l /\ rq_count a l = rq_count b l) /\ rq_nonempty a = rq_nonempty b.
Lemma rq_ok_same a b : rq_same a b -> rq_ok b -> rq_ok a.
Proof. intros [E1 E2] [A1 A2 A3]. split; [|by rewrite E2|]; intros l Hl; destruct (E1 l Hl) as [Eq Ec]; rewrite ?Eq, ?Ec, ?E2; auto. Qed.
Lemma queues_ext R R' tk T X : queues R tk T X -> (forall c, cpu_ok c = true -> rq_same (R' c) (R c)) -> queues R' tk T X.
Proof.
  intros [A1 A2 A3 A4 A5] HR. assert (forall c l, cpu_ok c = true -> level l -> rq_queue (R' c) l = rq_queue (R c) l) as E by (intros c l Hc Hl; by apply HR).
  split; [intros c Hc; by eapply rq_ok_same; auto| | | |done].
  - intros c l t Hc Hl. rewrite E by done. by apply A2.
  - intros c l Hc Hl. rewrite E by done. by apply A3.
  - intros t Ht Hn Hs. destruct (A4 t Ht Hn Hs) as (c & l & Hc & Hl & Hin). exists c, l. by rewrite E.
Qed.

Lemma unlink_elem t x l : x ∈ unlink t l <-> x ∈ l /\ x <> t.
Proof. unfold unlink. rewrite list_elem_of_filter. tauto. Qed.
Lemma unlink_none t l : t ∉ l -> unlink t l = l.
Proof.
  induction l as [|x l IH]; [done|]. intros [Hx Hl]%not_elem_of_cons. unfold unlink in *. rewrite filter_cons, decide_True by done. by rewrite IH.
Qed.
Lemma unlink_mid t l1 l2 : t ∉ l1 ++ l2 -> unlink t (l1 ++ t :: l2) = l1 ++ l2.
Proof.
  intros [H1 H2]%not_elem_of_app. unfold unlink. rewrite filter_app, filter_cons, decide_False by auto. f_equal; by apply unlink_none.
Qed.
Lemma unlink_NoDup t l : NoDup l -> NoDup (unlink t l).
Proof. apply NoDup_filter. Qed.

Section unqueue.
Context {Q : Type} `{SleepQueue Q}.
Variables T X : list Z.

Lemma set_rq_same (m : mgr Q) : set_m_rq (m_rq m) m = m.
Proof. by destruct m. Qed.
Lemma on_task_eq (m : mgr Q) t g : m_task (on_task m t g) t = g (m_task m t).
Proof. apply put_eq. Qed.
Lemma on_task_ne (m : mgr Q) t g x : x <> t -> m_task (on_task m t g) x = m_task m x.
Proof. apply put_ne. Qed.

Lemma unqueue_spec (m : mgr Q) t g :
  queues (m_rq m) (m_task m) T X -> t ∈ T -> t ∉ X -> t_cpu (g (m_task m t)) = t_cpu (m_task m t) -> t_prio (g (m_task m t)) = t_prio (m_task m t) ->
  exists R, (let m := on_task m t g in if on_rq m t then rq_remove_specific m t else Some m) = Some (set_m_rq R (on_task m t g)) /\
    queues R (m_task (on_task m t g)) T (t :: X).
Proof.
  intros HQ Ht Hx Ec Ep. cbv zeta. destruct (qs_ok _ _ _ _ HQ t Ht) as [[Hc Hp] Haddr].
  assert (forall R, queues R (m_task m) T (t :: X) -> queues R (m_task (on_task m t g)) T (t :: X)) as Hg.
  { intros R HR. apply queues_task; [done|left|]. split; [by rewrite Ec|by rewrite Ep]. }
  set (m1 := on_task m t g) in *. destruct (on_rq m1 t) eqn:Eon.
  2: { exists (m_rq m1). rewrite set_rq_same. split; [done|]. apply Hg, queues_open; [done|]. intros Hq%(on_rq_spec m1). congruence. }
  pose proof Eon as (c & l & Hcc & Hl & Hin)%on_rq_spec. change (m_rq m1) with (m_rq m) in Hin.
  destruct (qs_queued _ _ _ _ HQ c l t Hcc Hl Hin) as (_ & _ & _ & <- & <-). set (c := t_cpu (m_task m t)) in *. set (l := t_prio (m_task m t)) in *.
  apply list_elem_of_split in Hin as (q1 & q2 & Eq).
  unfold rq_remove_specific. rewrite Eon, (proj2 (Z.eqb_neq t 0)) by lia. cbn [orb negb].
  assert (m_task m1 t = g (m_task m t)) as E1 by apply on_task_eq. rewrite E1, Ec, Ep, clamp_small by done. fold c l. rewrite Hcc. cbv zeta.
  eexists. split; [done|]. apply Hg. eapply queues_ext; [by apply (queues_less T X (m_rq m) (m_task m) c l q1 t q2)|].
  pose proof (queues_less T X (m_rq m) (m_task m) c l q1 t q2 HQ Hcc Hl Eq) as HQ'.
  intros c' Hc'. rewrite !put_spec. case_decide as Hcd.
  - subst c'. split; [|done]. intros l' Hl'. simpl. split; [|by rewrite !put_spec]. rewrite put_spec. case_decide as Hld.
    + subst l'. change (m_rq m1) with (m_rq m). rewrite Eq. apply unlink_mid. intros Hni.
      destruct (qs_queued _ _ _ _ HQ' c l t Hcc Hl) as (_ & Hn & _); [by rewrite put_eq; simpl; rewrite put_eq|]. set_solver.
    + apply unlink_none. intros Hin. destruct (qs_queued _ _ _ _ HQ c l' t Hcc Hl' Hin) as (_ & _ & _ & _ & E). by fold l in E.
  - split; [|done]. intros l' Hl'. simpl. split; [|done]. apply unlink_none. intros Hin. destruct (qs_queued _ _ _ _ HQ c' l' t Hc' Hl' Hin) as (_ & _ & _ & E & _). by fold c in E.
Qed.
End unqueue.

(** ** The invariant *)

Section inv.
Context {Q : Type} `{SleepQueue Q}.
Variable num_cpus : Z.
Hypothesis num_cpus_ok : 1 <= num_cpus <= 8.

Abbreviation online c := (0 <= c < num_cpus) (only parsing).
(** The used part of the task table. *)
Definition used (m : mgr Q) : list Z := take (Z.to_nat (m_num m)) (m_slots m).

Definition is_idle (m : mgr Q) (t : Z) : Prop := exists c, online c /\ m_idle m c = t.

(** The task table, the table of process numbers, the orphaned zombies, the idle and
    current tasks and the sleep wheel, whose armed nodes are [P]. *)
Record table (m : mgr Q) (P : gmap Z Z) : Prop := {
  tb_num : 0 <= m_num m <= zlen (m_slots m) /\ zlen (m_slots m) < 2 ^ 31;
  tb_nodup : NoDup (used m);
  tb_slot i t : used m !! i = Some t -> t_slot (m_task m t) = Z.of_nat i;
  tb_pids : m_pids m ≡ₚ used m;
  tb_pid : NoDup ((fun t => t_pid (m_task m t)) <$> used m);
  tb_znodup : NoDup (m_zombies m);
  tb_zombie z : z ∈ m_zombies m -> z ∈ used m /\ t_status (m_task m z) = ZOMBIE;
  tb_idle c : online c -> m_idle m c ∈ used m /\ t_status (m_task m (m_idle m c)) = RUNNING /\ t_sleeping (m_task m (m_idle m c)) = false;
  tb_cur c : online c -> m_cur m c ∈ used m /\ (is_idle m (m_cur m c) -> m_cur m c = m_idle m c);
  tb_wheel : sq_rep (m_wheel m) P /\ (forall t, is_Some (P !! t) -> t ∈ used m) /\ forall t, t ∈ used m -> sq_node (m_wheel m) t
}.

(** Tasks of [X] are in no queue; a running task is an idle task or the current task of
    one of the processors [L]. *)
Record sched_but (X L : list Z) (m : mgr Q) (P : gmap Z Z) : Prop := {
  sb_table : table m P;
  sb_queues : queues (m_rq m) (m_task m) (used m) X;
  sb_run t : t ∈ used m -> t ∉ X -> t_status (m_task m t) = RUNNING -> is_idle m t \/ exists c, c ∈ L /\ m_cur m c = t
}.
Definition cpus : list Z := seqZ 0 num_cpus.
Definition sched_inv (m : mgr Q) : Prop := exists P, sched_but [] cpus m P.

Record frame (m m' : mgr Q) : Prop := {
  fr_cur : m_cur m' = m_cur m;
  fr_prev : m_prev m' = m_prev m;
  fr_idle : m_idle m' = m_idle m;
  fr_used : used m' = used m
}.
Lemma frame_refl m : frame m m.
Proof. by split. Qed.
Lemma frame_trans m1 m2 m3 : frame m1 m2 -> frame m2 m3 -> frame m1 m3.
Proof. intros [A1 A2 A3 A4] [B1 B2 B3 B4]. split; congruence. Qed.
Lemma frame_on_task m t g : frame m (on_task m t g).
Proof. by split. Qed.

(** ** Changing one task *)

Section change.
Variables (m : mgr Q) (P : gmap Z Z) (X L : list Z) (t : Z) (g : task -> task).
Abbreviation k := (m_task m t) (only parsing).

Lemma table_task : table m P -> t_pid (g k) = t_pid k -> t_slot (g k) = t_slot k -> (t ∈ m_zombies m -> t_status (g k) = ZOMBIE) ->
  (is_idle m t -> t_status (g k) = RUNNING /\ t_sleeping (g k) = false) -> table (on_task m t g) P.
Proof.
  intros [A1 A2 A3 A4 A5 A6 A7 A8 A9 A10] Ep Es Hz Hi. change (used m) with (used (on_task m t g)) in *. split; try done.
  - intros i x Hx. destruct (decide (x = t)) as [->|Hne]; [rewrite on_task_eq, Es; by apply A3|]. rewrite on_task_ne by done. by apply A3.
  - erewrite list_fmap_ext; [exact A5|]. intros i x _. cbv beta. destruct (decide (x = t)) as [->|Hne]; [by rewrite on_task_eq, Ep|by rewrite on_task_ne].
  - intros z Hzz. destruct (A7 z Hzz) as [? ?]. split; [done|]. destruct (decide (z = t)) as [->|Hne]; [rewrite on_task_eq; by apply Hz|by rewrite on_task_ne].
  - intros c Hc. destruct (A8 c Hc) as (? & ? & ?). split; [done|]. change (m_idle (on_task m t g) c) with (m_idle m c).
    destruct (decide (m_idle m c = t)) as [E|Hne]; [rewrite E, on_task_eq; apply Hi; by exists c|by rewrite on_task_ne].
Qed.

(** A task outside the queues. *)
Lemma but_open_task : sched_but (t :: X) L m P -> t_pid (g k) = t_pid k -> t_slot (g k) = t_slot k -> task_ok (g k) ->
  (t ∈ m_zombies m -> t_status (g k) = ZOMBIE) -> (is_idle m t -> t_status (g k) = RUNNING /\ t_sleeping (g k) = false) ->
  sched_but (t :: X) L (on_task m t g) P.
Proof.
  intros [A1 A2 A3] Ep Es Hok Hz Hi. split.
  - by apply table_task.
  - apply queues_task; [done|left|done].
  - intros x Hx Hn. rewrite on_task_ne by (intros ->; apply Hn; left). by apply A3.
Qed.

(** A change without meaning for the queues. *)
Lemma but_same_task : sched_but X L m P -> t_pid (g k) = t_pid k -> t_slot (g k) = t_slot k -> t_status (g k) = t_status k ->
  t_cpu (g k) = t_cpu k -> t_prio (g k) = t_prio k -> (is_idle m t -> t_sleeping (g k) = false) -> sched_but X L (on_task m t g) P.
Proof.
  intros [A1 A2 A3] Ep Es Et Ec Er Hi. split.
  - apply table_task; try done; rewrite Et; [intros Hz; by apply (tb_zombie _ _ A1)|].
    intros Hid. split; [|auto]. destruct Hid as (c & Hc & <-). by apply (tb_idle _ _ A1).
  - apply (queues_same _ _ _ _ _ A2). intros x _. destruct (decide (x = t)) as [->|Hne]; [by rewrite on_task_eq|by rewrite on_task_ne].
  - intros x Hx Hn Hs. apply A3; [done|done|]. destruct (decide (x = t)) as [->|Hne]; [by rewrite on_task_eq, Et in Hs|by rewrite on_task_ne in Hs].
Qed.
End change.

(** ** Queue operations *)

Lemma table_rq m P R : table m P -> table (set_m_rq R m) P.
Proof. by intros [A1 A2 A3 A4 A5 A6 A7 A8 A9 A10]. Qed.

Lemma but_open X L m P t : sched_but X L m P -> t_status (m_task m t) <> READY -> sched_but (t :: X) L m P.
Proof.
  intros [A1 A2 A3] Hs. split; [done|apply queues_open; [done|by eapply queued_not_ready]|]. intros x Hx Hn. apply A3; set_solver.
Qed.
Lemma but_close X L m P t : sched_but (t :: X) L m P -> t_status (m_task m t) <> READY ->
  (t_status (m_task m t) = RUNNING -> is_idle m t \/ exists c, c ∈ L /\ m_cur m c = t) -> sched_but X L m P.
Proof.
  intros [A1 A2 A3] Hs Hr. split; [done|by eapply queues_close|]. intros x Hx Hn Hs'. destruct (decide (x = t)) as [->|Hne]; [auto|]. apply A3; [done|set_solver|done].
Qed.
Lemma but_enqueue X L m P t : sched_but (t :: X) L m P -> t ∈ used m -> t ∉ X -> t_status (m_task m t) = READY ->
  exists m', rq_enqueue m t = Some m' /\ sched_but X L m' P /\ frame m m' /\ m_task m' = m_task m /\ m_wheel m' = m_wheel m.
Proof.
  intros [A1 A2 A3] Ht Hx Hs. destruct (rq_enqueue_spec (used m) X m t A2 Ht Hx Hs) as [-> HQ]. eexists. split; [done|]. split; [|done]. split.
  - by apply table_rq.
  - exact HQ.
  - intros x Hxu Hn Hsx. apply A3; [done| |done]. rewrite not_elem_of_cons. split; [|done]. intros ->. simpl in Hsx. congruence.
Qed.
Lemma but_unqueue X L m P t g : sched_but X L m P -> t ∈ used m -> t ∉ X -> 
  t_cpu (g (m_task m t)) = t_cpu (m_task m t) -> t_prio (g (m_task m t)) = t_prio (m_task m t) ->
  t_pid (g (m_task m t)) = t_pid (m_task m t) -> t_slot (g (m_task m t)) = t_slot (m_task m t) -> (t ∈ m_zombies m -> t_status (g (m_task m t)) = ZOMBIE) ->
  ~ is_idle m t ->
  exists m', (let m := on_task m t g in if on_rq m t then rq_remove_specific m t else Some m) = Some m' /\ sched_but (t :: X) L m' P /\ frame m m' /\
    m_task m' = m_task (on_task m t g) /\ m_zombies m' = m_zombies m.
Proof.
  intros [A1 A2 A3] Ht Hx Ec Er Ep Es Hz Hi. destruct (unqueue_spec (used m) X m t g A2 Ht Hx Ec Er) as (R & -> & HQ). eexists. split; [done|]. split; [|done]. split.
  - by apply table_rq, table_task.
  - exact HQ.
  - intros x Hxu Hn. simpl. rewrite put_ne by (intros ->; apply Hn; left). apply A3; set_solver.
Qed.

Lemma but_resched X L m P f : sched_but X L m P -> sched_but X L (set_m_resched f m) P.
Proof. intros [A1 A2 A3]. split; [by destruct A1|done|done]. Qed.
Lemma but_log X L m P e : sched_but X L m P -> sched_but X L (log e m) P.
Proof. intros [A1 A2 A3]. split; [by destruct A1|done|done]. Qed.
Lemma but_prev X L m P f : sched_but X L m P -> sched_but X L (set_m_prev f m) P.
Proof. intros [A1 A2 A3]. split; [by destruct A1|done|done]. Qed.
Lemma but_wheel X L m P P' w : sched_but X L m P -> sq_rep w P' -> (forall t, is_Some (P' !! t) -> is_Some (P !! t)) ->
  (forall t, t ∈ used m -> sq_node w t) -> sched_but X L (set_m_wheel w m) P'.
Proof.
  intros [[A1 A2 A3 A4 A5 A6 A7 A8 A9 (A10 & A11 & A12)] B1 B2] Hw HP Hn. split; [|done|done]. split; try done. split_and!; [done| |done]. intros t Ht. by apply A11, HP.
Qed.
Lemma used_addr X L m P t : sched_but X L m P -> t ∈ used m -> 0 < t < 2 ^ 32.
Proof. intros HB Ht. by apply (qs_ok _ _ _ _ (sb_queues _ _ _ _ HB)). Qed.
Lemma used_ok X L m P t : sched_but X L m P -> t ∈ used m -> task_ok (m_task m t).
Proof. intros HB Ht. by apply (qs_ok _ _ _ _ (sb_queues _ _ _ _ HB)). Qed.
Lemma set_ready_ne now (m : mgr Q) t : t <> 0 -> jlos_task_set_ready now m t = on_task m t (make_ready now).
Proof. intros Ht. unfold jlos_task_set_ready. by rewrite (proj2 (Z.eqb_neq t 0)). Qed.
Lemma idle_running X L m P t : sched_but X L m P -> is_idle m t -> t_status (m_task m t) = RUNNING /\ t_sleeping (m_task m t) = false.
Proof. intros HB (c & Hc & <-). by apply (tb_idle _ _ (sb_table _ _ _ _ HB)). Qed.

(** Only these tasks change their status, and not to running. *)
Definition statuses (m m' : mgr Q) (S : list Z) : Prop := forall t, t ∉ S -> t_status (m_task m' t) = t_status (m_task m t).

(** A blocked task becomes ready. *)
Lemma but_unblock X L now m P t : sched_but X L m P -> t ∈ used m -> t ∉ X ->
  exists m', (if bool_decide (t_status (m_task m t) = BLOCKED) then rq_enqueue (jlos_task_set_ready now m t) t else Some m) = Some m' /\
    sched_but X L m' P /\ frame m m' /\ m_wheel m' = m_wheel m /\ statuses m m' [t] /\
    t_status (m_task m' t) = if decide (t_status (m_task m t) = BLOCKED) then READY else t_status (m_task m t).
Proof.
  intros HB Ht Hx. pose proof (used_addr _ _ _ _ _ HB Ht) as Ha. case_bool_decide as Hs.
  2: { exists m. rewrite decide_False by done. done. }
  rewrite set_ready_ne by lia. destruct (used_ok _ _ _ _ _ HB Ht) as [Hc Hp].
  assert (sched_but (t :: X) L (on_task m t (make_ready now)) P) as HB'.
  { apply but_open_task; [apply but_open; [done|congruence]|done|done|by split| |].
    - intros Hz. destruct (tb_zombie _ _ (sb_table _ _ _ _ HB) t Hz). congruence.
    - intros [? ?]%(idle_running _ _ _ _ _ HB). congruence. }
  destruct (but_enqueue X L _ P t HB' Ht Hx) as (m' & -> & HB'' & Hf & Em & Ew); [by rewrite on_task_eq|]. exists m'. split; [done|]. split; [done|]. split; [eapply frame_trans; [apply frame_on_task|exact Hf]|]. split; [exact Ew|].
  rewrite decide_True by done. unfold statuses. rewrite Em. split; [intros x Hn; rewrite on_task_ne by set_solver; done|by rewrite on_task_eq].
Qed.

Lemma wakeup_spec X L now m P t : sched_but X L m P -> t ∈ used m -> t ∉ X ->
  exists m' P', jlos_task_wakeup now m t = Some m' /\ sched_but X L m' P' /\ frame m m' /\ statuses m m' [t] /\
    t_status (m_task m' t) = (if decide (t_status (m_task m t) = BLOCKED) then READY else t_status (m_task m t)) /\ m_resched m' (t_cpu (m_task m' t)) = true.
Proof.
  intros HB Ht Hx. unfold jlos_task_wakeup.
  assert (exists m1 P', (if t_sleeping (m_task m t) then w ← sq_del (m_wheel m) t; Some (set_m_wheel w (on_task m t (set_t_sleeping false))) else Some m) = Some m1 /\
    sched_but X L m1 P' /\ frame m m1 /\ (forall x, t_status (m_task m1 x) = t_status (m_task m x))) as (m1 & P' & -> & HB1 & Hf1 & Hs1).
  { destruct (t_sleeping (m_task m t)); [|by exists m, P]. destruct (tb_wheel _ _ (sb_table _ _ _ _ HB)) as (W1 & W2 & W3).
    destruct (sq_del_law _ _ t W1 (W3 t Ht)) as (w & -> & Hw & Hn). cbn [mbind option_bind]. eexists _, _. split; [done|]. split; [|split; [done|]].
    - eapply but_wheel; [by apply (but_same_task m P X L t (set_t_sleeping false))|exact Hw| |auto]. intros x [d Hd]. apply lookup_delete_Some in Hd as [_ Hd]. by exists d.
    - intros x. simpl. rewrite put_spec. by case_decide as Hx'; [subst x|]. }
  cbn [mbind option_bind]. assert (t ∈ used m1) as Ht1 by (by rewrite (fr_used _ _ Hf1)).
  destruct (but_unblock X L now m1 P' t HB1 Ht1 Hx) as (m2 & -> & HB2 & Hf2 & _ & Hs2 & Est). cbn [mbind option_bind]. eexists _, _. split; [done|].
  split; [by apply but_resched|]. split; [eapply frame_trans; [exact Hf1|]; destruct Hf2; by split|]. split; [|split].
  - intros x Hn. transitivity (t_status (m_task m1 x)); [by apply Hs2|done].
  - rewrite <- Hs1. exact Est.
  - simpl. apply put_eq.
Qed.

(** Sleepers that are due. *)
Lemma sleep_expire_spec now L P fired : forall m, sched_but [] L m P -> (forall t, t ∈ fired -> t ∈ used m) -> NoDup fired ->
  exists m', foldl (sleep_expire now) (Some m) fired = Some m' /\ sched_but [] L m' P /\ frame m m' /\ m_wheel m' = m_wheel m /\
    (forall t, t_status (m_task m' t) = if decide (t ∈ fired /\ t_status (m_task m t) = BLOCKED) then READY else t_status (m_task m t)).
Proof.
  induction fired as [|t fired IH]; intros m HB Hin Hnd; cbn [foldl].
  { exists m. by split_and!. }
  apply NoDup_cons in Hnd as [Hni Hnd]. assert (t ∈ used m) as Ht by (apply Hin; left).
  assert (sched_but [] L (on_task m t (set_t_sleeping false)) P) as HB1 by (by apply but_same_task).
  destruct (but_unblock [] L now _ P t HB1 Ht) as (m2 & E & HB2 & Hf2 & Ew & Hs2 & Est); [set_solver|].
  assert (sleep_expire now (Some m) t = Some m2) as -> by exact E.
  pose proof (frame_trans _ _ _ (frame_on_task m t (set_t_sleeping false)) Hf2) as Hf.
  destruct (IH m2 HB2) as (m' & -> & HB' & Hf' & Ew' & Hs'); [intros x Hx; rewrite (fr_used _ _ Hf); apply Hin; by right|done|].
  assert (forall x, t_status (m_task (on_task m t (set_t_sleeping false)) x) = t_status (m_task m x)) as Hs1 by (intros x; destruct (decide (x = t)) as [->|Hx]; [by rewrite on_task_eq|by rewrite on_task_ne]).
  exists m'. split; [done|]. split; [done|]. split; [by eapply frame_trans|]. split; [by rewrite Ew'|]. intros x. rewrite Hs'. destruct (decide (x = t)) as [->|Hne].
  - rewrite (decide_False (P := t ∈ fired /\ _)), Est, Hs1 by tauto. destruct (decide (t_status (m_task m t) = BLOCKED)); [rewrite decide_True by (split; [left|done]); done|].
    rewrite decide_False by tauto. done.
  - rewrite (Hs2 x), Hs1 by set_solver. apply decide_ext. rewrite elem_of_cons. tauto.
Qed.

Lemma wake_sleepers_spec now L m P : sched_but [] L m P -> 0 <= now < 2 ^ 32 ->
  exists m' P' (fired : list Z), wake_sleepers now m = Some m' /\ sched_but [] L m' P' /\ frame m m' /\
    (forall t, t ∈ fired <-> exists due, P !! t = Some due /\ sleep_over (sq_now (m_wheel m)) now due) /\
    (forall t, t_status (m_task m' t) = if decide (t ∈ fired /\ t_status (m_task m t) = BLOCKED) then READY else t_status (m_task m t)).
Proof.
  intros HB Hnow. destruct (tb_wheel _ _ (sb_table _ _ _ _ HB)) as (W1 & W2 & W3).
  destruct (sq_advance_law _ (sleep_expire now) _ _ now (Some m) W1 Hnow) as (w & fired & E & Hnd & Hin & Hrep & Hnode).
  destruct (sleep_expire_spec now L P fired m HB) as (m' & E' & HB' & Hf & _ & Hs); [|done|].
  { intros t (due & Hd & _)%Hin. apply W2. by exists due. }
  exists (set_m_wheel w m'), (filter (fun p => p.1 ∉ fired) P), fired. unfold wake_sleepers. rewrite E, E'. split; [done|]. split; [|split; [destruct Hf; by split|done]].
  eapply but_wheel; [exact HB'|done| |].
  - intros t [d Hd]. apply map_lookup_filter_Some in Hd as [Hd _]. by exists d.
  - intros t Ht. apply Hnode, W3. by rewrite <- (fr_used _ _ Hf).
Qed.

(** ** Choosing the next task *)

Definition boosted (now : Z) (k : task) (l : Z) : Z :=
  let b := u32 (now - t_tick k) / 200 in l - (if b <? l then b else l).
Lemma boosted_level now k l : level l -> 0 <= boosted now k l <= l.
Proof. intros Hl. unfold boosted. pose proof (Z.div_pos (u32 (now - t_tick k)) 200 ltac:(apply u32_range) ltac:(lia)). cbv zeta. zcases; lia. Qed.

(** The first task of the first level that is not empty. *)
Definition first_of (rq : runqueue) (l t : Z) (q : list Z) : Prop := level l /\ rq_queue rq l = t :: q /\ forall i, 0 <= i < l -> rq_queue rq i = [].

Lemma rq_dequeue_spec c now L m P : sched_but [] L m P -> cpu_ok c = true ->
  (rq_dequeue c now m = Some (set_m_rq (put (m_rq m) c (m_rq m c)) m, 0) /\ (forall l, level l -> rq_queue (m_rq m c) l = []) /\
   sched_but [] L (set_m_rq (put (m_rq m) c (m_rq m c)) m) P) \/
  exists m' t l q, rq_dequeue c now m = Some (m', t) /\ first_of (m_rq m c) l t q /\ t ∈ used m /\ t_status (m_task m t) = READY /\ t_cpu (m_task m t) = c /\
    sched_but [t] L m' P /\ frame m m' /\ (forall x, t_status (m_task m' x) = t_status (m_task m x)) /\
    (forall x, x <> t -> m_task m' x = m_task m x) /\
    m_task m' t = set_t_tick now (set_t_default (Z.shiftl 2 (boosted now (m_task m t) l)) (set_t_prio (boosted now (m_task m t) l) (m_task m t))).
Proof.
  intros HB Hc. destruct (rq_pop_spec (used m) [] (m_rq m) (m_task m) c (sb_queues _ _ _ _ HB) Hc) as [[E He]|(l & t & q & Hl & Eq & Hlow & E & HQ)]; unfold rq_dequeue; rewrite E.
  - left. split; [done|]. split; [done|]. destruct HB as [A1 A2 A3]. split; [by apply table_rq| |done]. eapply queues_ext; [done|]. intros c' Hc'. simpl. rewrite put_spec. by case_decide; [subst|].
  - right. cbn [mbind option_bind]. cbv zeta. destruct (qs_queued _ _ _ _ (sb_queues _ _ _ _ HB) c l t Hc Hl) as (Ht & _ & Hs & Ec & Ep); [rewrite Eq; left|].
    set (m1 := set_m_rq (put (m_rq m) c (rq_less (m_rq m c) l q)) m) in *. eexists _, t, l, q. split; [done|]. split; [done|]. split; [done|]. split; [done|]. split; [done|].
    change JLOS_TASK_MLFQ_AGING_TICKS with 200. change (m_task m1) with (m_task m). fold (boosted now (m_task m t) l). pose proof (boosted_level now (m_task m t) l Hl) as Hbl.
    split; [|split; [by split|split; [|split]]].
    + assert (sched_but [t] L m1 P) as HB1. { destruct HB as [A1 A2 A3]. split; [by apply table_rq|done|]. intros x Hx Hn. apply A3; [done|set_solver]. }
      apply but_open_task; try done.
      * split; [|simpl; lia]. cbn. by apply (used_ok _ _ _ _ _ HB).
      * intros Hz. destruct (tb_zombie _ _ (sb_table _ _ _ _ HB) t Hz). change (t_status (m_task m t) = ZOMBIE). done.
      * intros [? ?]%(idle_running _ _ _ _ _ HB1). done.
    + intros x. destruct (decide (x = t)) as [->|Hne]; [by rewrite on_task_eq|by rewrite on_task_ne].
    + intros x Hne. by rewrite on_task_ne.
    + by rewrite on_task_eq.
Qed.

(** The number of tasks in the queues of processor [c]. *)
Definition load (m : mgr Q) (c : Z) : Z := zlen (rq_queue (m_rq m c) 0) + zlen (rq_queue (m_rq m c) 1) + zlen (rq_queue (m_rq m c) 2) + zlen (rq_queue (m_rq m c) 3).
(** [b] is the first of the other processors that have the most tasks waiting. *)
Definition busiest_of (n : Z) (m : mgr Q) (c b : Z) : Prop :=
  0 <= b < n /\ b <> c /\ 0 < load m b /\ (forall c', 0 <= c' < n -> c' <> c -> load m c' <= load m b) /\ (forall c', 0 <= c' < b -> c' <> c -> load m c' < load m b).
Lemma load_empty m c : load m c = 0 <-> forall l, level l -> rq_queue (m_rq m c) l = [].
Proof.
  unfold load. split.
  - intros E l Hl. apply length_zero_iff_nil. assert (l = 0 \/ l = 1 \/ l = 2 \/ l = 3) as [->|[->|[->| ->]]] by (lia); lia.
  - intros He. by rewrite !He by lia.
Qed.
Lemma rq_task_count_load X m c : queues (m_rq m) (m_task m) (used m) X -> cpu_ok c = true -> rq_task_count m c = load m c.
Proof.
  intros HQ Hc. set (q := rq_queue (m_rq m c)). assert (forall l, level l -> rq_count (m_rq m c) l = zlen (q l)) as Hn by (apply (qs_rq _ _ _ _ HQ c Hc)).
  assert (load m c < 2 ^ 32) as Hlt.
  { assert (load m c = zlen (q 0 ++ q 1 ++ q 2 ++ q 3)) as -> by (rewrite !length_app; unfold load, q; lia).
    assert (forall l x, level l -> x ∈ q l -> x ∈ used m /\ t_prio (m_task m x) = l) as Hin by (intros l x Hl Hx; by destruct (qs_queued _ _ _ _ HQ c l x Hc Hl Hx) as (? & _ & _ & _ & ?)).
    assert (forall l l' x, level l -> level l' -> l <> l' -> x ∈ q l -> x ∈ q l' -> False) as Hd by (intros l l' x Hl Hl' Hne [_ E1]%(Hin l x Hl) [_ E2]%(Hin l' x Hl'); congruence).
    assert (level 0 /\ level 1 /\ level 2 /\ level 3) as (L0 & L1 & L2 & L3) by lia.
    apply nodup_addresses.
    - rewrite !NoDup_app. setoid_rewrite elem_of_app. setoid_rewrite elem_of_app. split_and!; try (by apply (qs_nodup _ _ _ _ HQ)).
      + intros x Hx [H1|[H1|H1]]; [apply (Hd 0 1 x)|apply (Hd 0 2 x)|apply (Hd 0 3 x)]; done.
      + intros x Hx [H1|H1]; [apply (Hd 1 2 x)|apply (Hd 1 3 x)]; done.
      + intros x Hx H1. by apply (Hd 2 3 x).
    - intros x. rewrite !elem_of_app. intros Hx. apply (qs_ok _ _ _ _ HQ). destruct Hx as [Hx|[Hx|[Hx|Hx]]]; [apply (Hin 0 x)|apply (Hin 1 x)|apply (Hin 2 x)|apply (Hin 3 x)]; done. }
  unfold rq_task_count. change (seqZ 0 4) with [0; 1; 2; 3]. cbn [foldl]. rewrite !Hn by lia. unfold load in Hlt |- *. fold q in Hlt |- *. rewrite (u32_small (0 + zlen (q 0))), (u32_small (0 + zlen (q 0) + zlen (q 1))), (u32_small (0 + zlen (q 0) + zlen (q 1) + zlen (q 2))), u32_small; lia.
Qed.
Lemma find_busiest_spec (m : mgr Q) c : (forall c', online c' -> rq_task_count m c' = load m c') -> online c ->
  (find_busiest num_cpus m c = (c, 0) /\ forall c', online c' -> c' <> c -> load m c' = 0) \/
  exists b, find_busiest num_cpus m c = (b, load m b) /\ busiest_of num_cpus m c b.
Proof.
  intros Hcount Hc. unfold find_busiest. match goal with |- context [foldl ?g (c, 0) _] => set (f := g) end. assert (forall k : nat, Z.of_nat k <= num_cpus ->
    let r := foldl f (c, 0) (seqZ 0 (Z.of_nat k)) in
    (r = (c, 0) /\ forall c', 0 <= c' < Z.of_nat k -> c' <> c -> load m c' = 0) \/ exists b, r = (b, load m b) /\ busiest_of (Z.of_nat k) m c b) as Hgen.
  { induction k as [|k IH]; intros Hk; [left; split; [done|lia]|]. cbv zeta. rewrite seqZ_S, foldl_app, Z.add_0_l. cbn [foldl Z.add]. destruct (IH ltac:(lia)) as [[-> H0]|(b & -> & Hb)]; clear IH.
    - unfold f. destruct (Z.eqb_spec (Z.of_nat k) c) as [E|Hne]; [left; split; [done|]; intros c' Hc' Hn; apply H0; lia|].
      rewrite Hcount by lia. destruct (Z.ltb_spec 0 (load m (Z.of_nat k))).
      + right. exists (Z.of_nat k). split; [done|]. split_and!; try lia.
        * intros c' Hc' Hn. destruct (decide (c' = Z.of_nat k)) as [->|]; [lia|]. rewrite H0 by lia. lia.
        * intros c' Hc' Hn. rewrite H0 by lia. lia.
      + left. split; [done|]. intros c' Hc' Hn. destruct (decide (c' = Z.of_nat k)) as [->|]; [unfold load in *; lia|]. apply H0; lia.
    - destruct Hb as (B1 & B2 & B3 & B4 & B5). right. unfold f. destruct (Z.eqb_spec (Z.of_nat k) c) as [E|Hne].
      + exists b. split; [done|]. split_and!; try lia; [|done]. intros c' Hc' Hn. apply B4; lia.
      + rewrite Hcount by lia. destruct (Z.ltb_spec (load m b) (load m (Z.of_nat k))).
        * exists (Z.of_nat k). split; [done|]. split_and!; try lia; intros c' Hc' Hn; [destruct (decide (c' = Z.of_nat k)) as [->|]; [lia|]|]; specialize (B4 c' ltac:(lia) Hn); lia.
        * exists b. split; [done|]. split_and!; try lia; [|done]. intros c' Hc' Hn. destruct (decide (c' = Z.of_nat k)) as [->|]; [lia|]. apply B4; lia. }
  specialize (Hgen (Z.to_nat num_cpus)). rewrite Z2Nat.id in Hgen by lia. by apply Hgen.
Qed.

(** Balancing does nothing, or moves the first task of the busiest processor. *)
Definition moved (c : Z) (m m' : mgr Q) : Prop :=
  ((forall c', online c' -> c' <> c -> load m c' = 0) /\ m_rq m' = m_rq m) \/
  exists b l t q, busiest_of num_cpus m c b /\ first_of (m_rq m b) l t q /\ ((forall i, level i -> rq_queue (m_rq m c) i = []) -> first_of (m_rq m' c) l t []).
Lemma sched_balance_spec c L m P : sched_but [] L m P -> online c ->
  exists m', jlos_sched_balance num_cpus c m = Some m' /\ sched_but [] L m' P /\ frame m m' /\ (forall x, t_status (m_task m' x) = t_status (m_task m x)) /\ moved c m m'.
Proof.
  intros HB Hc. unfold jlos_sched_balance. destruct (Z.leb_spec num_cpus 1); [exists m; split_and!; try done; left; split; [lia|done]|].
  assert (forall c', online c' -> rq_task_count m c' = load m c') as Hcount by (intros c' Hc'; eapply rq_task_count_load; [apply (sb_queues _ _ _ _ HB)|apply cpu_ok_iff; lia]).
  destruct (find_busiest_spec m c Hcount Hc) as [[-> HE0]|(b & -> & Hbusy)]; [rewrite Z.eqb_refl; exists m; split_and!; try done; by left|].
  pose proof Hbusy as (Hb & Hbc & Hpos & _). rewrite (proj2 (Z.eqb_neq b c)), (proj2 (Z.eqb_neq (load m b) 0)) by lia. cbn [orb]. unfold rq_steal_cpu.
  destruct (rq_pop_spec (used m) [] (m_rq m) (m_task m) b (sb_queues _ _ _ _ HB)) as [[E He]|(l & t & q & Hl & Eq & Hlow & E & HQ)]; [apply cpu_ok_iff; lia|apply load_empty in He; lia|].
  rewrite E; cbn [mbind option_bind].
  destruct (qs_queued _ _ _ _ (sb_queues _ _ _ _ HB) b l t ltac:(apply cpu_ok_iff; lia) Hl) as (Ht & _ & Hs & Ec & Ep); [rewrite Eq; left|].
  pose proof (used_addr _ _ _ _ _ HB Ht) as Ha. rewrite (proj2 (Z.eqb_neq t 0)) by lia. set (m1 := set_m_rq (put (m_rq m) b (rq_less (m_rq m b) l q)) m) in *.
  assert (sched_but [t] L m1 P) as HB1. { destruct HB as [A1 A2 A3]. split; [by apply table_rq|done|]. intros x Hx Hn. apply A3; [done|set_solver]. }
  assert (sched_but [t] L (on_task m1 t (set_t_cpu c)) P) as HB2.
  { apply but_open_task; try done.
    - split; [apply cpu_ok_iff; simpl; lia|]. by apply (used_ok _ _ _ _ _ HB).
    - intros Hz. by destruct (tb_zombie _ _ (sb_table _ _ _ _ HB) t Hz).
    - intros [? ?]%(idle_running _ _ _ _ _ HB1). done. }
  destruct (rq_enqueue_spec (used (on_task m1 t (set_t_cpu c))) [] (on_task m1 t (set_t_cpu c)) t (sb_queues _ _ _ _ HB2) Ht) as [Een _]; [set_solver|by rewrite on_task_eq|].
  rewrite on_task_eq in Een. cbn [t_cpu t_prio set_t_cpu] in Een. change (m_task m1 t) with (m_task m t) in Een. change (m_rq (on_task m1 t (set_t_cpu c))) with (m_rq m1) in Een. rewrite Ep in Een.
  destruct (but_enqueue [] L _ P t HB2 Ht) as (m' & E' & HB' & Hf & Em & _); [set_solver|by rewrite on_task_eq|]. rewrite E' in Een. injection Een as ->. rewrite E'. eexists. split; [done|]. split; [done|].
  split; [destruct Hf; by split|]. split; [intros x; rewrite Em; destruct (decide (x = t)) as [->|Hne]; [by rewrite on_task_eq|by rewrite on_task_ne]|].
  right. exists b, l, t, q. split; [done|]. split; [done|]. intros Hempty. cbn [m_rq set_m_rq]. rewrite put_eq. unfold m1. cbn [m_rq set_m_rq]. rewrite put_ne by done.
  split; [done|]. cbn [rq_queue rq_push]. rewrite put_eq, (Hempty l Hl). split; [done|]. intros i Hi. rewrite put_ne by lia. apply Hempty. lia.
Qed.

(** The task [pick_next] chooses: the first of the own queues; if they are empty the
    first of the busiest processor; if no other processor has a task the idle task. *)
Definition chosen (c : Z) (m : mgr Q) (next : Z) : Prop :=
  (exists l q, first_of (m_rq m c) l next q) \/
  (forall l, level l -> rq_queue (m_rq m c) l = []) /\
    ((exists b l q, busiest_of num_cpus m c b /\ first_of (m_rq m b) l next q) \/ (forall c', online c' -> c' <> c -> load m c' = 0) /\ next = m_idle m c).
Lemma first_of_det rq l t q l' t' q' : first_of rq l t q -> first_of rq l' t' q' -> t = t'.
Proof.
  intros (Hl & E & Hlow) (Hl' & E' & Hlow'). destruct (Z.lt_trichotomy l l') as [Hlt|[->|Hlt]]; [rewrite Hlow' in E by lia; done|congruence|rewrite Hlow in E' by lia; done].
Qed.

Lemma pick_next_spec c now L m P : sched_but [] L m P -> online c ->
  exists m' next, pick_next num_cpus c now m = Some (m', next) /\ next ∈ used m /\ sched_but [next] L m' P /\ frame m m' /\
    (forall x, t_status (m_task m' x) = t_status (m_task m x)) /\ (t_status (m_task m next) = READY \/ next = m_idle m c) /\ chosen c m next.
Proof.
  intros HB Hc. assert (cpu_ok c = true) as Hcc by (apply cpu_ok_iff; lia). set (m0 := set_m_rq (put (m_rq m) c (m_rq m c)) m).
  assert (forall c', m_rq m0 c' = m_rq m c') as Hsame by (intros c'; simpl; rewrite put_spec; by case_decide; [subst|]).
  assert (sched_but [] L m0 P) as HB0.
  { destruct HB as [A1 A2 A3]. split; [by apply table_rq| |done]. eapply queues_ext; [done|]. intros c' Hc'. rewrite Hsame. done. }
  destruct (sched_balance_spec c L m0 P HB0 Hc) as (m1 & Eb & HB1 & Hf1 & Hs1 & Hm1).
  assert (frame m m1) as Hfm1 by (destruct Hf1; by split).
  unfold pick_next. destruct (rq_dequeue_spec c now L m P HB Hcc) as [(E & He & _)|(m' & t & l & q & E & Hfst & Ht & Hs & _ & HB' & Hf & Hst & _)].
  2: { rewrite E. cbn [mbind option_bind]. pose proof (used_addr _ _ _ _ _ HB Ht) as Ha. rewrite (proj2 (Z.eqb_neq t 0)) by lia. cbn [mbind option_bind].
       rewrite (proj2 (Z.eqb_neq t 0)) by lia. exists m', t. split_and!; try done; [by left|left; eauto]. }
  rewrite E. cbn [mbind option_bind]. fold m0. rewrite Eb. cbn [Z.eqb mbind option_bind].
  assert (forall c', load m0 c' = load m c') as Hload by (intros c'; unfold load; by rewrite Hsame).
  destruct (rq_dequeue_spec c now L m1 P HB1 Hcc) as [(E1 & He1 & HB2)|(m' & t & l & q & E1 & Hfst & Ht & Hs & _ & HB' & Hf & Hst & _)]; rewrite E1; cbn [mbind option_bind].
  - cbn [Z.eqb]. set (m2 := set_m_rq _ m1) in *. change (m_idle m2 c) with (m_idle m1 c). rewrite (fr_idle _ _ Hfm1). destruct (tb_idle _ _ (sb_table _ _ _ _ HB) c Hc) as (Hi & Hr & _).
    exists m2, (m_idle m c). split; [done|]. split; [done|]. split; [apply but_open; [done|]; change (m_task m2) with (m_task m1); rewrite Hs1; change (m_task m0) with (m_task m); congruence|].
    split; [destruct Hfm1; by split|]. split; [exact Hs1|]. split; [by right|]. right. split; [done|]. right. split; [|done].
    destruct Hm1 as [[H0 _]|(b & l & t & q & _ & _ & Hmv)]; [intros c'; rewrite <- Hload; apply H0|]. destruct Hmv as (Hl & Eq & _); [intros i Hi'; rewrite Hsame; by apply He|]. by rewrite (He1 l Hl) in Eq.
  - rewrite (fr_used _ _ Hfm1) in Ht. pose proof (used_addr _ _ _ _ _ HB Ht) as Ha. rewrite (proj2 (Z.eqb_neq t 0)) by lia.
    exists m', t. split; [done|]. split; [done|]. split; [done|]. split; [by eapply frame_trans|]. split; [intros x; rewrite Hst; apply Hs1|]. rewrite Hs1 in Hs.
    split; [by left|]. right. split; [done|]. left. destruct Hm1 as [[_ Erq]|(b & l' & t' & q' & Hb & Hf' & Hmv)].
    + destruct Hfst as (Hl & Eq & _). by rewrite Erq, Hsame, (He l Hl) in Eq.
    + specialize (Hmv ltac:(intros i Hi'; rewrite Hsame; by apply He)). rewrite (first_of_det _ _ _ _ _ _ _ Hfst Hmv). exists b, l', q'. rewrite <- Hsame. split; [|done].
      unfold busiest_of in *. setoid_rewrite Hload in Hb. exact Hb.
Qed.

(** ** Giving up the processor *)

Lemma but_cpus X L L' m P : sched_but X L m P -> (forall c, c ∈ L -> c ∉ L' -> t_status (m_task m (m_cur m c)) = RUNNING -> is_idle m (m_cur m c)) -> sched_but X L' m P.
Proof.
  intros [A1 A2 A3] HL. split; [done|done|]. intros t Ht Hx Hs. destruct (A3 t Ht Hx Hs) as [|(c & Hc & <-)]; [by left|]. destruct (decide (c ∈ L')); [right; by exists c|left; auto].
Qed.

Lemma set_blocked_spec L m P t : sched_but [] L m P -> t ∈ used m -> ~ is_idle m t -> t_status (m_task m t) <> ZOMBIE ->
  exists m', jlos_task_set_blocked m t = Some m' /\ sched_but [] L m' P /\ frame m m' /\ m_task m' = m_task (on_task m t (set_t_status BLOCKED)) .
Proof.
  intros HB Ht Hi Hz. pose proof (used_addr _ _ _ _ _ HB Ht) as Ha. unfold jlos_task_set_blocked. rewrite (proj2 (Z.eqb_neq t 0)) by lia.
  destruct (but_unqueue [] L m P t (set_t_status BLOCKED) HB Ht) as (m' & E & HB' & Hf & Em & _); try done; [set_solver|intros Hin; by destruct (tb_zombie _ _ (sb_table _ _ _ _ HB) t Hin)|].
  exists m'. split; [done|]. split; [|done]. eapply but_close; [exact HB'|..]; rewrite Em, on_task_eq; done.
Qed.

Lemma put_prev_spec c now L m P : sched_but [] L m P -> online c ->
  exists m', put_prev c now m (m_cur m c) = Some m' /\ sched_but [] (unlink c L) m' P /\ frame m m' /\ statuses m m' [m_cur m c] /\
    (t_status (m_task m' (m_cur m c)) = RUNNING -> m_cur m c = m_idle m c).
Proof.
  intros HB Hc. set (t := m_cur m c). destruct (tb_cur _ _ (sb_table _ _ _ _ HB) c Hc) as [Ht Hown]. fold t in Ht, Hown. pose proof (used_addr _ _ _ _ _ HB Ht) as Ha.
  assert (forall m', sched_but [] L m' P -> frame m m' -> (t_status (m_task m' t) = RUNNING -> is_idle m t) -> sched_but [] (unlink c L) m' P) as Hcpus.
  { intros m' HB' Hf Hr. eapply but_cpus; [exact HB'|]. intros c' Hc' Hn. rewrite (fr_cur _ _ Hf). destruct (decide (c' = c)) as [->|Hne]; [|by destruct Hn; apply unlink_elem].
    intros Hs. destruct (Hr Hs) as (i & Hi & E). exists i. by rewrite (fr_idle _ _ Hf). }
  unfold put_prev. case_bool_decide as Hs.
  2: { exists m. split; [done|]. split; [by apply Hcpus|]. done. }
  destruct (t_sleeping (m_task m t)) eqn:Esl.
  { destruct (set_blocked_spec L m P t HB Ht) as (m' & -> & HB' & Hf & Em); [intros [_ ?]%(idle_running _ _ _ _ _ HB); congruence|congruence|].
    assert (t_status (m_task m' t) = BLOCKED) as Eb by (by rewrite Em, on_task_eq). exists m'. split; [done|]. split; [apply Hcpus; [done|done|congruence]|]. split; [done|].
    split; [intros x Hx; rewrite Em, on_task_ne by set_solver; done|congruence]. }
  destruct (Z.eqb_spec t (m_idle m c)) as [Ei|Ei].
  { exists m. split; [done|]. split; [apply Hcpus; try done; intros _; by exists c|]. done. }
  assert (~ is_idle m t) as Hid by auto. destruct (used_ok _ _ _ _ _ HB Ht) as [Hcpu Hp].
  set (m1 := drop_level m t). assert (sched_but [t] L m1 P /\ frame m m1 /\ (forall x, t_status (m_task m1 x) = t_status (m_task m x)) /\ m_zombies m1 = m_zombies m) as (HB1 & Hf1 & Hs1 & Ez).
  { assert (sched_but [t] L m P) as HB1 by (apply but_open; [done|congruence]). unfold m1, drop_level. destruct (_ && _) eqn:Eb; [|done].
    apply andb_prop in Eb as [_ [_ Eb]%andb_prop]. change (JLOS_TASK_MLFQ_LEVELS - 1) with 3 in Eb. apply Z.ltb_lt in Eb.
    split; [|split; [by split|split; [|done]; intros x; destruct (decide (x = t)) as [->|]; [by rewrite on_task_eq|by rewrite on_task_ne]]].
    apply but_open_task; try done; [split; simpl; [done|lia]|]. intros Hz. by destruct (tb_zombie _ _ (sb_table _ _ _ _ HB) t Hz). }
  clearbody m1. rewrite set_ready_ne by lia. assert (t ∈ used m1) as Ht1 by (by rewrite (fr_used _ _ Hf1)). destruct (used_ok _ _ _ _ _ HB1 Ht1) as [Hcpu1 Hp1].
  assert (sched_but [t] L (on_task m1 t (make_ready now)) P) as HB2.
  { apply but_open_task; [done|done|done|by split| |].
    - rewrite Ez. intros Hz. destruct (tb_zombie _ _ (sb_table _ _ _ _ HB) t Hz). congruence.
    - intros (i & Hi & E). destruct Hid. exists i. split; [done|]. by rewrite <- (fr_idle _ _ Hf1). }
  destruct (but_enqueue [] L _ P t HB2 Ht1) as (m' & -> & HB' & Hf & Em & _); [set_solver|by rewrite on_task_eq|]. assert (t_status (m_task m' t) = READY) as Er by (by rewrite Em, on_task_eq).
  assert (frame m m') as Hfm by (eapply frame_trans; [exact Hf1|]; eapply frame_trans; [apply frame_on_task|exact Hf]).
  exists m'. split; [done|]. split; [apply Hcpus; [done|done|congruence]|]. split; [done|]. split; [|congruence]. intros x Hx. rewrite Em, on_task_ne by set_solver. apply Hs1.
Qed.

(** ** Freeing a task *)

(** Everything but the control block of [z] and the log is as before. *)
Record only_task (z : Z) (m m' : mgr Q) : Prop := {
  ot_slots : m_slots m' = m_slots m; ot_num : m_num m' = m_num m; ot_pids : m_pids m' = m_pids m; ot_zombies : m_zombies m' = m_zombies m;
  ot_wheel : m_wheel m' = m_wheel m; ot_rq : m_rq m' = m_rq m; ot_cur : m_cur m' = m_cur m; ot_prev : m_prev m' = m_prev m; ot_idle : m_idle m' = m_idle m;
  ot_task x : x <> z -> m_task m' x = m_task m x;
  ot_slot : t_slot (m_task m' z) = t_slot (m_task m z)
}.
Lemma only_trans z m1 m2 m3 : only_task z m1 m2 -> only_task z m2 m3 -> only_task z m1 m3.
Proof. intros [] []. split; try congruence. intros x Hx. by rewrite ot_task1, ot_task0. Qed.
Lemma only_change z m g e : t_slot (g (m_task m z)) = t_slot (m_task m z) -> only_task z m (on_task (log e m) z g).
Proof. intros Hg. split; try done; [intros x Hx; by rewrite on_task_ne|by rewrite on_task_eq]. Qed.
Lemma only_refl z m : only_task z m m.
Proof. by split. Qed.
Lemma only_log z m e : only_task z m (log e m).
Proof. by split. Qed.

Lemma free_resources m z : only_task z m (free_fds (free_mm (free_stack (log (EvExtDestroy z) m) z) z) z).
Proof.
  eapply only_trans; [apply (only_log z m (EvExtDestroy z))|]. eapply only_trans; [|eapply only_trans].
  - instantiate (1 := free_stack _ z). unfold free_stack. destruct (_ && _); [by apply only_change|apply only_refl].
  - instantiate (1 := free_mm _ z). unfold free_mm, jlos_task_unmap_user_stack. destruct (negb _); [by apply only_change|]. destruct (_ =? 0); [apply only_refl|by apply only_change].
  - unfold free_fds. destruct (negb _); [by apply only_change|apply only_refl].
Qed.

Lemma geti_nat {A} (l : list A) (i : nat) : geti l (Z.of_nat i) = l !! i.
Proof. unfold geti. by rewrite (proj2 (Z.ltb_ge _ _)), Nat2Z.id by lia. Qed.

(** The table without [z]: the last task has its slot. *)
Lemma free_slot_spec m z i : NoDup (used m) -> 0 <= m_num m <= zlen (m_slots m) -> (forall x, x ∈ used m -> x <> 0) -> used m !! i = Some z -> t_slot (m_task m z) = Z.of_nat i ->
  (forall j x, used m !! j = Some x -> t_slot (m_task m x) = Z.of_nat j) ->
  exists m', free_slot m z = Some m' /\ m_num m' = m_num m - 1 /\ length (m_slots m') = length (m_slots m) /\
    m_pids m' = m_pids m /\ m_zombies m' = m_zombies m /\ m_wheel m' = m_wheel m /\ m_rq m' = m_rq m /\ m_cur m' = m_cur m /\ m_prev m' = m_prev m /\ m_idle m' = m_idle m /\
    NoDup (used m') /\ (forall x, x ∈ used m' <-> x ∈ used m /\ x <> z) /\
    (forall j x, used m' !! j = Some x -> t_slot (m_task m' x) = Z.of_nat j) /\
    (forall x, m_task m' x = set_t_slot (t_slot (m_task m' x)) (m_task m x)).
Proof.
  intros Hnd Hn H0 Hi Es Hslot. assert (i < Z.to_nat (m_num m))%nat as Hin by (apply lookup_lt_Some in Hi; unfold used in Hi; rewrite length_take in Hi; lia).
  assert (m_slots m !! i = Some z) as Hi' by (unfold used in Hi; by rewrite lookup_take_lt in Hi).
  assert (forall j x, used m !! j = Some x <-> (j < Z.to_nat (m_num m))%nat /\ m_slots m !! j = Some x) as Hu by (intros j x; apply lookup_take_Some || (unfold used; rewrite lookup_take_Some; tauto)).
  destruct (lookup_lt_is_Some_2 (m_slots m) (Z.to_nat (m_num m - 1))) as [last Hlast]; [lia|].
  assert (used m !! Z.to_nat (m_num m - 1) = Some last) as Hlu by (apply Hu; split; [lia|done]).
  assert (last <> 0) as Hl0 by (eapply H0, list_elem_of_lookup_2; done).
  unfold free_slot. rewrite Es. destruct (Z.leb_spec 0 (Z.of_nat i)); [|lia]. destruct (Z.ltb_spec (Z.of_nat i) (m_num m)); [|lia]. cbn [andb].
  assert (geti (m_slots m) (m_num m - 1) = Some last) as Eg by (unfold geti; by rewrite (proj2 (Z.ltb_ge _ _)) by lia).
  rewrite geti_nat, Hi', Eg. cbn [mbind option_bind]. rewrite Z.eqb_refl. cbn [mbind option_bind].
  rewrite seti_Some by lia. cbn [mbind option_bind]. rewrite (proj2 (Z.eqb_neq last 0)) by done. rewrite Nat2Z.id. set (m1 := on_task m last (set_t_slot (Z.of_nat i))).
  change (m_num m1) with (m_num m). rewrite seti_Some by (rewrite length_insert; lia). cbn [mbind option_bind]. eexists. split; [done|]. split; [done|]. split; [simpl; by rewrite !length_insert|].
  do 7 (split; [done|]). set (m' := set_m_num _ _).
  assert (forall j x, used m' !! j = Some x <-> (j < Z.to_nat (m_num m - 1))%nat /\ (if decide (j = i) then x = last else m_slots m !! j = Some x)) as Hu'.
  { intros j x. unfold used. change (m_num m') with (m_num m - 1). rewrite lookup_take_Some. change (m_slots m') with (<[Z.to_nat (m_num m - 1) := 0]> (<[i := last]> (m_slots m))).
    split; intros [G1 G2]; split; try tauto.
    - rewrite list_lookup_insert_ne in G1 by lia. case_decide as Hji; [subst j; rewrite list_lookup_insert_eq in G1 by lia; by simplify_eq|by rewrite list_lookup_insert_ne in G1].
    - rewrite list_lookup_insert_ne by lia. case_decide as Hji; [subst j x; rewrite list_lookup_insert_eq by lia; done|by rewrite list_lookup_insert_ne]. }
  assert (forall j j' x, used m !! j = Some x -> used m !! j' = Some x -> j = j') as Hinj by (intros j j' x; by apply NoDup_lookup).
  assert (forall j x, used m' !! j = Some x -> (j = i /\ x = last /\ i <> Z.to_nat (m_num m - 1)) \/ (j <> i /\ used m !! j = Some x /\ j <> Z.to_nat (m_num m - 1))) as Hcase.
  { intros j x [G1 G2]%Hu'. case_decide as Hji; [left; split_and!; [done|done|lia]|right]. split; [done|]. split; [apply Hu; split; [lia|done]|lia]. }
  split_and!.
  - apply NoDup_alt. intros j j' x [(-> & -> & C)|(N & G & C)]%Hcase [(-> & E & C')|(N' & G' & C')]%Hcase; [done| | |by eapply Hinj].
    + destruct C'. by eapply Hinj.
    + subst x. destruct C. by eapply Hinj.
  - intros x. rewrite !list_elem_of_lookup. split.
    + intros [j [(-> & -> & C)|(N & G & C)]%Hcase]; [split; [by exists (Z.to_nat (m_num m - 1))|]|split; [by exists j|]]; intros ->; [destruct C|destruct N]; by eapply Hinj.
    + intros [[j G] Hx]. destruct (decide (j = Z.to_nat (m_num m - 1))) as [->|Hne].
      * rewrite Hlu in G. injection G as <-. exists i. apply Hu'. rewrite decide_True by done. split; [|done].
        destruct (decide (i = Z.to_nat (m_num m - 1))) as [->|]; [|lia]. rewrite Hlu in Hi. injection Hi as ->. done.
      * exists j. apply Hu'. apply Hu in G as [G1 G2]. split; [lia|]. rewrite decide_False; [done|]. intros ->. rewrite Hi' in G2. injection G2 as ->. done.
  - intros j x Hj. change (m_task m') with (m_task m1). destruct (Hcase j x Hj) as [(-> & -> & C)|(N & G & C)]; [unfold m1; by rewrite on_task_eq|].
    unfold m1. rewrite on_task_ne; [by apply Hslot|]. intros ->. destruct C. by eapply Hinj.
  - intros x. change (m_task m') with (m_task m1). unfold m1. destruct (decide (x = last)) as [->|Hne]; [by rewrite on_task_eq|]. rewrite on_task_ne by done. by destruct (m_task m x).
Qed.

Lemma in_use_spec (m : mgr Q) t : t <> 0 -> jlos_hal_is_task_in_use num_cpus m t = true <-> exists c, online c /\ (m_cur m c = t \/ m_prev m c = t).
Proof.
  intros Ht. unfold jlos_hal_is_task_in_use. rewrite (proj2 (Z.eqb_neq t 0)) by done. rewrite existsb_exists. setoid_rewrite orb_true_iff. setoid_rewrite Z.eqb_eq. setoid_rewrite <- list_elem_of_In.
  setoid_rewrite elem_of_seqZ. split; intros (c & Hc & E); exists c; split; (done || lia).
Qed.

(** What remains after [z] is freed. *)
Record freed (z : Z) (m m' : mgr Q) : Prop := {
  fd_cur : m_cur m' = m_cur m; fd_prev : m_prev m' = m_prev m; fd_idle : m_idle m' = m_idle m;
  fd_zombies : m_zombies m' = unlink z (m_zombies m);
  fd_used x : x ∈ used m' <-> x ∈ used m /\ x <> z;
  fd_task x : x <> z -> m_task m' x = set_t_slot (t_slot (m_task m' x)) (m_task m x)
}.

Lemma but_freed L m P m' z : sched_but [] L m P -> z ∈ used m -> t_status (m_task m z) = ZOMBIE -> (forall c, online c -> m_cur m c <> z) -> freed z m m' ->
  m_num m' = m_num m - 1 -> length (m_slots m') = length (m_slots m) -> NoDup (used m') -> (forall j x, used m' !! j = Some x -> t_slot (m_task m' x) = Z.of_nat j) ->
  m_pids m' = unlink z (m_pids m) -> (forall c, m_rq m' c = m_rq (rq_unlink m z) c) -> sq_rep (m_wheel m') (delete z P) -> (forall t, sq_node (m_wheel m) t -> sq_node (m_wheel m') t) ->
  sched_but [] L m' (delete z P).
Proof.
  intros [[A1 A2 A3 A4 A5 A6 A7 A8 A9 (A10 & A11 & A12)] B1 B2] Hz Hs Hcur [F1 F2 F3 F4 F5 F6] En El Hnd Hslot Ep Er Hw Hnode.
  assert (forall x, x <> z -> t_status (m_task m' x) = t_status (m_task m x) /\ t_pid (m_task m' x) = t_pid (m_task m x) /\ t_sleeping (m_task m' x) = t_sleeping (m_task m x) /\
    t_cpu (m_task m' x) = t_cpu (m_task m x) /\ t_prio (m_task m' x) = t_prio (m_task m x)) as Hx by (intros x Hx; by rewrite (F6 x Hx)).
  assert (forall c, online c -> m_idle m c <> z) as Hidle by (intros c Hc E; destruct (A8 c Hc) as (_ & E2 & _); congruence).
  assert (1 <= m_num m) as Hpos. { apply list_elem_of_lookup in Hz as [i Hi%lookup_lt_Some]. unfold used in Hi. rewrite length_take in Hi. lia. }
  assert (queues (m_rq m') (m_task m') (used m') []) as HQ.
  { apply (queues_ext (m_rq m)).
    2: { intros c Hc. rewrite Er. split; [|done]. intros l Hl. split; [|done]. apply unlink_none. intros Hin. destruct (qs_queued _ _ _ _ B1 c l z Hc Hl Hin) as (_ & _ & E & _). congruence. }
    destruct B1 as [Q1 Q2 Q3 Q4 Q5]. split; [done| |done| |].
    - intros c l t Hc Hl Hin. destruct (Q2 c l t Hc Hl Hin) as (T1 & T2 & T3 & T4 & T5). assert (t <> z) as Hne by congruence. destruct (Hx t Hne) as (E1 & _ & _ & E2 & E3).
      split; [by apply F5|]. split; [done|]. by rewrite E1, E2, E3.
    - intros t [Ht Hne]%F5 Hn. destruct (Hx t Hne) as (-> & _). by apply Q4.
    - intros t [Ht Hne]%F5. destruct (Hx t Hne) as (_ & _ & _ & E2 & E3). destruct (Q5 t Ht) as [[U1 U2] U3]. split; [split; congruence|done]. }
  split; [split|done|].
  - rewrite En, El. lia.
  - done.
  - done.
  - rewrite Ep. apply NoDup_Permutation; [apply unlink_NoDup; by rewrite A4|done|]. intros x. rewrite unlink_elem, F5. by rewrite A4.
  - apply NoDup_fmap_2_strong; [|done]. intros x y [Hx1 Hx2]%F5 [Hy1 Hy2]%F5 E. destruct (Hx x Hx2) as (_ & Ex & _), (Hx y Hy2) as (_ & Ey & _).
    apply list_elem_of_lookup in Hx1 as [i Hi], Hy1 as [j Hj]. assert (i = j) as ->; [|congruence].
    apply (NoDup_lookup _ i j (t_pid (m_task m x)) A5); rewrite list_lookup_fmap; [by rewrite Hi|rewrite Hj; simpl; congruence].
  - rewrite F4. by apply unlink_NoDup.
  - intros x. rewrite F4, unlink_elem. intros [Hzx Hne]. destruct (A7 x Hzx) as [? ?]. rewrite F5. destruct (Hx x Hne) as (-> & _). done.
  - intros c Hc. rewrite F3. destruct (A8 c Hc) as (? & ? & ?). pose proof (Hidle c Hc) as Hne. destruct (Hx _ Hne) as (E1 & _ & E2 & _). rewrite F5, E1, E2. done.
  - intros c Hc. rewrite F1, F3, F5. destruct (A9 c Hc) as [U1 U2]. split; [split; [done|by apply Hcur]|]. intros (i & Hi & E). apply U2. exists i. by rewrite <- F3.
  - split_and!; [done| |].
    + intros t [d Hd]. apply lookup_delete_Some in Hd as [Hne Hd]. apply F5. split; [apply A11; by exists d|done].
    + intros t [Ht _]%F5. auto.
  - intros t [Ht Hne]%F5 _. destruct (Hx t Hne) as (-> & _). intros Hr. destruct (B2 t Ht) as [(i & Hi & E)|(i & Hi & E)]; [set_solver|done|left; exists i; by rewrite F3|right; exists i; by rewrite F1].
Qed.

Lemma task_free_spec c L m P z : sched_but [] L m P -> z ∈ used m -> t_status (m_task m z) = ZOMBIE -> jlos_hal_is_task_in_use num_cpus m z = false -> online c ->
  exists m', task_free_locked num_cpus c m z = Some m' /\ sched_but [] L m' (delete z P) /\ freed z m m' /\ find_pid_locked m' (t_pid (m_task m z)) = 0.
Proof.
  intros HB Hz Hs Hu Hc. pose proof (used_addr _ _ _ _ _ HB Hz) as Ha. pose proof (sb_table _ _ _ _ HB) as [A1 A2 A3 A4 A5 A6 A7 A8 A9 (A10 & A11 & A12)].
  assert (forall c, online c -> m_cur m c <> z) as Hcur. { intros c' Hc' E. apply not_true_iff_false in Hu. apply Hu, in_use_spec; [lia|]. exists c'. tauto. }
  unfold task_free_locked. rewrite (proj2 (Z.eqb_neq z 0)), Hu by lia. cbv zeta. set (m0 := set_m_pids (unlink z (m_pids m)) m).
  pose proof (free_resources m0 z) as HO. set (m1 := free_fds _ z) in *. clearbody m1. destruct HO as [O1 O2 O3 O4 O5 O6 O7 O8 O9 O10 O11].
  pose proof Hz as [i Hi]%list_elem_of_lookup. assert (used m1 = used m) as Eu by (unfold used; by rewrite O1, O2).
  assert (forall x, t_slot (m_task m1 x) = t_slot (m_task m x)) as Esl by (intros x; destruct (decide (x = z)) as [->|Hx]; [done|by rewrite O10]).
  destruct (free_slot_spec m1 z i) as (m2 & -> & S1 & S2 & S3 & S4 & S5 & S6 & S7 & S8 & S9 & S10 & S11 & S12 & S13).
  { by rewrite Eu. } { rewrite O1, O2. apply A1. } { intros x Hx. rewrite Eu in Hx. pose proof (used_addr _ _ _ _ _ HB Hx). lia. } { by rewrite Eu. } { rewrite Esl. by apply A3. }
  { intros j x Hj. rewrite Esl. apply A3. by rewrite <- Eu. }
  cbn [mbind option_bind]. assert (m_cur m2 = m_cur m) as Ecur by (rewrite S7; by rewrite O7). rewrite (proj2 (Z.eqb_neq (m_cur m2 c) z)) by (rewrite Ecur; auto).
  destruct (sq_del_law _ _ z A10 (A12 z Hz)) as (w & Ew & Hw & Hnode). set (m3 := on_task m2 z _). set (m4 := rq_unlink _ z).
  assert (m_wheel m4 = m_wheel m) as -> by (change (m_wheel m4) with (m_wheel m2); rewrite S5; by rewrite O5). rewrite Ew. cbn [mbind option_bind].
  set (m5 := jlos_kthread_release _ z). assert (only_task z (set_m_wheel w m4) m5) as HO5 by (unfold m5, jlos_kthread_release; destruct (negb _); [by apply only_change|apply only_refl]).
  destruct HO5 as [V1 V2 V3 V4 V5 V6 V7 V8 V9 V10 V11]. change (used m5) with (used (log (EvKfree z) m5)) in *. set (m6 := log _ m5) in *. clearbody m5.
  assert (used m6 = used m2) as Eu6 by (unfold used; change (m_num m6) with (m_num m5); change (m_slots m6) with (m_slots m5); by rewrite V1, V2).
  assert (forall x, x <> z -> m_task m6 x = m_task m2 x) as E6. { intros x Hx. change (m_task m6) with (m_task m5). rewrite V10 by done. change (m_task m3 x = m_task m2 x). unfold m3. by rewrite on_task_ne. }
  assert (freed z m m6) as HF.
  { split.
    - change (m_cur m5 = m_cur m). rewrite V7. exact Ecur.
    - change (m_prev m5 = m_prev m). rewrite V8. change (m_prev m2 = m_prev m). rewrite S8. exact O8.
    - change (m_idle m5 = m_idle m). rewrite V9. change (m_idle m2 = m_idle m). rewrite S9. exact O9.
    - change (m_zombies m5 = unlink z (m_zombies m)). rewrite V4. change (unlink z (m_zombies m2) = unlink z (m_zombies m)). rewrite S4. by rewrite O4.
    - intros x. rewrite Eu6, S11, Eu. done.
    - intros x Hx. rewrite E6 by done. rewrite S13 at 1. f_equal. by apply O10. }
  exists m6. split; [done|]. assert (m_pids m6 = unlink z (m_pids m)) as Epid. { change (m_pids m5 = unlink z (m_pids m)). rewrite V3. change (m_pids m2 = unlink z (m_pids m)). rewrite S3. by rewrite O3. }
  split; [|split; [done|]].
  - eapply (but_freed L m P m6 z); try done.
    + change (m_num m5 = m_num m - 1). rewrite V2. change (m_num m2 = m_num m - 1). rewrite S1. by rewrite O2.
    + change (length (m_slots m5) = length (m_slots m)). rewrite V1. change (length (m_slots m2) = length (m_slots m)). rewrite S2. by rewrite O1.
    + by rewrite Eu6.
    + intros j x. rewrite Eu6. intros Hj. rewrite E6; [by apply S12|]. intros ->. assert (z ∈ used m2) as [_ ?]%S11 by (by eapply list_elem_of_lookup_2). done.
    + intros c'. change (m_rq m6 c') with (m_rq m5 c'). rewrite V6. simpl. rewrite S6. by rewrite O6.
    + change (sq_rep (m_wheel m5) (delete z P)). by rewrite V5.
    + intros t Ht. change (sq_node (m_wheel m5) t). rewrite V5. by apply Hnode.
  - unfold find_pid_locked. rewrite Epid. destruct (list_find _ _) as [[j x]|] eqn:El; [|done]. exfalso. apply list_find_Some in El as (Hj & E & _).
    apply list_elem_of_lookup_2, unlink_elem in Hj as [Hin Hne]. rewrite (fd_task _ _ _ HF x Hne) in E. simpl in E. rewrite A4 in Hin. apply list_elem_of_lookup in Hin as [j' Hj'].
    destruct Hne. assert (j' = i) as ->; [|congruence]. apply (NoDup_lookup _ j' i (t_pid (m_task m x)) A5); rewrite list_lookup_fmap; [by rewrite Hj'|rewrite Hi; simpl; congruence].
Qed.

(** ** The scheduler *)

Lemma but_zombies X L m P z : sched_but X L m P -> sched_but X L (set_m_zombies (unlink z (m_zombies m)) m) P.
Proof.
  intros [[A1 A2 A3 A4 A5 A6 A7 A8 A9 A10] B1 B2]. split; [|done|done]. split; try done; [by apply unlink_NoDup|]. intros x [Hx _]%unlink_elem. by apply A7.
Qed.
Lemma but_cur X L m P c t : sched_but X L m P -> t ∈ used m -> (is_idle m t -> t = m_idle m c) -> c ∉ L -> sched_but X L (set_m_cur (put (m_cur m) c t) m) P.
Proof.
  intros [[A1 A2 A3 A4 A5 A6 A7 A8 A9 A10] B1 B2] Ht Hi Hc. split; [|done|].
  - split; try done. intros c' Hc'. simpl. rewrite put_spec. case_decide; [subst c'; by split|by apply A9].
  - intros x Hx Hn Hs. destruct (B2 x Hx Hn Hs) as [|(c' & Hc' & E)]; [by left|right]. exists c'. split; [done|]. simpl. rewrite put_ne; [done|]. by intros ->.
Qed.

(** Tasks may be gone; the others are as before but for their slot. *)
Record fewer (m m' : mgr Q) : Prop := {
  fw_cur : m_cur m' = m_cur m; fw_prev : m_prev m' = m_prev m; fw_idle : m_idle m' = m_idle m;
  fw_used x : x ∈ used m' -> x ∈ used m;
  fw_task x : x ∈ used m' -> m_task m' x = set_t_slot (t_slot (m_task m' x)) (m_task m x);
  fw_alive x : x ∈ used m -> t_status (m_task m x) <> ZOMBIE -> x ∈ used m'
}.
Lemma fewer_refl m : fewer m m.
Proof. split; try done. intros x _. by destruct (m_task m x). Qed.

Lemma free_zombies_spec c L prev l : forall m P, sched_but [] L m P -> online c -> (forall z, z ∈ l -> z ∈ m_zombies m) -> NoDup l ->
  exists m' P', free_zombies num_cpus c m prev l = Some m' /\ sched_but [] L m' P' /\ fewer m m'.
Proof.
  induction l as [|z l IH]; intros m P HB Hc Hl Hnd; cbn [free_zombies]; [exists m, P; split_and!; [done|done|apply fewer_refl]|]. apply NoDup_cons in Hnd as [Hni Hnd].
  destruct ((z =? prev) || _) eqn:Eb; [apply (IH m P); auto; intros x Hx; apply Hl; by right|]. apply orb_false_elim in Eb as [_ Hu].
  destruct (tb_zombie _ _ (sb_table _ _ _ _ HB) z) as [Hz Hs]; [apply Hl; left|].
  destruct (task_free_spec c L _ P z (but_zombies _ _ _ _ z HB) Hz Hs Hu Hc) as (m1 & -> & HB1 & [F1 F2 F3 F4 F5 F6] & _). cbn [mbind option_bind].
  destruct (IH m1 _ HB1 Hc) as (m' & P' & -> & HB' & [G1 G2 G3 G4 G5 G6]); [|done|].
  { intros x Hx. rewrite F4. apply unlink_elem. split; [apply unlink_elem; split; [apply Hl; by right|]|]; by intros ->. }
  exists m', P'. split; [done|]. split; [done|]. split; [by rewrite G1|by rewrite G2|by rewrite G3| | |].
  - intros x Hx%G4. by apply F5 in Hx as [? _].
  - intros x Hx. rewrite (G5 x Hx) at 1. apply G4, F5 in Hx as [_ Hne]. rewrite (F6 x Hne). done.
  - intros x Hx Hsx. apply G6; [apply F5; split; [done|]; intros ->; done|]. assert (x <> z) as Hne by (by intros ->). by rewrite (F6 x Hne).
Qed.

Lemma set_running_fields (m : mgr Q) t :
  m_cur (jlos_task_set_running m t) = m_cur m /\ m_prev (jlos_task_set_running m t) = m_prev m /\ m_idle (jlos_task_set_running m t) = m_idle m.
Proof. unfold jlos_task_set_running. by destruct (t =? 0). Qed.

(** The states the scheduler goes through and what it decides in them. *)
Definition scheduled (c now : Z) (m m' : mgr Q) : Prop :=
  let prev := m_cur m c in let next := m_cur m' c in
  exists m1 m2 m3, put_prev c now m prev = Some m1 /\ free_zombies num_cpus c m1 prev (m_zombies m1) = Some m2 /\ wake_sleepers now m2 = Some m3 /\ chosen c m3 next /\
    (t_status (m_task m' next) = RUNNING /\ t_slice (m_task m' next) = t_default (m_task m' next)) /\
    m_resched m' c = false /\ (forall c', c' <> c -> m_cur m' c' = m_cur m c') /\ (next <> prev -> m_prev m' c = prev) /\ (forall c', c' <> c -> m_prev m' c' = m_prev m c').

Lemma running_spec X L m P t : sched_but (t :: X) L m P -> t ∈ used m -> t_status (m_task m t) = READY \/ is_idle m t -> (exists c, c ∈ L /\ m_cur m c = t) ->
  sched_but X L (jlos_task_set_running m t) P /\ m_task (jlos_task_set_running m t) t = make_running (m_task m t).
Proof.
  intros HB Ht Hs Hc. pose proof (used_addr _ _ _ _ _ HB Ht) as Ha. unfold jlos_task_set_running. rewrite (proj2 (Z.eqb_neq t 0)) by lia. split; [|apply on_task_eq].
  eapply (but_close X L _ P t); [|by rewrite on_task_eq|intros _; right; exact Hc].
  apply but_open_task; try done.
  - destruct (used_ok _ _ _ _ _ HB Ht). by split.
  - intros Hz. destruct (tb_zombie _ _ (sb_table _ _ _ _ HB) t Hz) as [_ E]. destruct Hs as [|[? _]%(idle_running _ _ _ _ _ HB)]; congruence.
  - intros [_ E]%(idle_running _ _ _ _ _ HB). done.
Qed.

Lemma check_slot_spec X L m P t : sched_but X L m P -> t ∈ used m -> check_slot m t = (m, true).
Proof.
  intros HB [i Hi]%list_elem_of_lookup. pose proof (tb_slot _ _ (sb_table _ _ _ _ HB) i t Hi) as Es. unfold check_slot. rewrite Es.
  apply lookup_take_Some in Hi as [Hi Hlt]. rewrite geti_nat, Hi, bool_decide_eq_true_2 by done. destruct (Z.leb_spec 0 (Z.of_nat i)); [|lia]. destruct (Z.ltb_spec (Z.of_nat i) (m_num m)); [done|lia].
Qed.

Lemma schedule_spec c now m P : sched_but [] cpus m P -> online c -> 0 <= now < 2 ^ 32 ->
  exists m' P', jlos_task_manager_schedule num_cpus c now m = Some m' /\ sched_but [] cpus m' P' /\ scheduled c now m m' /\ m_idle m' = m_idle m.
Proof.
  intros HB Hc Hnow. destruct (tb_cur _ _ (sb_table _ _ _ _ HB) c Hc) as [Hprev _]. pose proof (used_addr _ _ _ _ _ HB Hprev) as Ha. unfold jlos_task_manager_schedule. set (prev := m_cur m c) in *.
  rewrite (proj2 (Z.eqb_neq prev 0)) by lia. set (L := unlink c cpus). assert (c ∉ L) as HcL by (intros [_ ?]%unlink_elem; done). assert (c ∈ cpus) as HcC by (apply elem_of_seqZ; lia).
  destruct (put_prev_spec c now cpus m P HB Hc) as (m1 & E1 & HB1 & Hf1 & _ & _). fold prev in E1. fold L in HB1. rewrite E1. cbn [mbind option_bind].
  destruct (free_zombies_spec c L prev (m_zombies m1) m1 P HB1 Hc) as (m2 & P2 & E2 & HB2 & Hf2); [done|apply (tb_znodup _ _ (sb_table _ _ _ _ HB1))|]. rewrite E2. cbn [mbind option_bind].
  destruct (wake_sleepers_spec now L m2 P2 HB2 Hnow) as (m3 & P3 & fired & E3 & HB3 & Hf3 & _). rewrite E3. cbn [mbind option_bind].
  destruct (pick_next_spec c now L m3 P3 HB3 Hc) as (m4 & next & E4 & Hn & HB4 & Hf4 & Hs4 & Hsn & Hch). rewrite E4. cbn [mbind option_bind].
  assert (forall x, m_cur m4 x = m_cur m x) as Ecur by (intros x; by rewrite (fr_cur _ _ Hf4), (fr_cur _ _ Hf3), (fw_cur _ _ Hf2), (fr_cur _ _ Hf1)).
  assert (m_idle m4 = m_idle m) as Eidle by (by rewrite (fr_idle _ _ Hf4), (fr_idle _ _ Hf3), (fw_idle _ _ Hf2), (fr_idle _ _ Hf1)).
  assert (forall x, m_prev m4 x = m_prev m x) as Eprev by (intros x; by rewrite (fr_prev _ _ Hf4), (fr_prev _ _ Hf3), (fw_prev _ _ Hf2), (fr_prev _ _ Hf1)).
  assert (next ∈ used m4) as Hn4 by (by rewrite (fr_used _ _ Hf4)).
  assert (t_status (m_task m4 next) = READY \/ is_idle m4 next) as Hsn4. { rewrite Hs4. destruct Hsn as [| ->]; [by left|right]. exists c. by rewrite (fr_idle _ _ Hf4). }
  assert (is_idle m4 next -> next = m_idle m4 c) as Hown. { intros [E _]%(idle_running _ _ _ _ _ HB4). rewrite Hs4 in E. destruct Hsn as [| ->]; [congruence|by rewrite (fr_idle _ _ Hf4)]. }
  pose proof (used_addr _ _ _ _ _ HB4 Hn4) as Han.
  destruct (Z.eqb_spec next prev) as [->|Hne].
  - assert (sched_but [prev] cpus m4 P3) as HB5 by (eapply but_cpus; [exact HB4|]; intros c' [Hc' _]%unlink_elem Hx; done).
    destruct (running_spec [] cpus m4 P3 prev HB5 Hn4 Hsn4) as [HB6 Et]; [exists c; by rewrite Ecur|]. eexists _, P3. split; [done|]. split; [by apply but_resched|].
    destruct (set_running_fields m4 prev) as (Ec & Ep & Ei). split; [|cbn [m_idle set_m_resched]; by rewrite Ei].
    exists m1, m2, m3. cbn [m_cur m_task m_resched m_prev set_m_resched]. rewrite Ec, Ep, (Ecur c). fold prev. rewrite Et, put_eq. by split_and!.
  - rewrite (proj2 (Z.eqb_neq next 0)) by lia. rewrite (check_slot_spec _ _ _ _ _ HB4 Hn4). unfold switch_to. cbv zeta. set (ma := log _ (log _ m4)).
    assert (sched_but [next] L ma P3) as HBa by (by apply but_log, but_log). set (mb := set_m_cur _ _).
    assert (sched_but [next] L mb P3) as HBb. { apply (but_cur [next] L (set_m_prev (put (m_prev ma) c prev) ma) P3 c next); [by apply but_prev|done|exact Hown|done]. }
    assert (sched_but [next] cpus mb P3) as HBc by (eapply but_cpus; [exact HBb|]; intros c' [Hc' _]%unlink_elem Hx; done).
    assert (m_cur mb c = next) as Ecb by apply put_eq.
    destruct (running_spec [] cpus mb P3 next HBc Hn4 Hsn4) as [HB6 Et]; [by exists c|]. eexists _, P3. split; [done|]. split; [by apply but_log, but_resched|].
    destruct (set_running_fields mb next) as (Ec & Ep & Ei).
    split; [|cbn [m_idle log set_m_log set_m_resched]; rewrite Ei; exact Eidle].
    exists m1, m2, m3. cbn [m_cur m_task m_resched m_prev set_m_resched log set_m_log]. rewrite Ec, Ep, Ecb, Et, put_eq. split_and!; try done.
    + intros c' Hc'. unfold mb. cbn [m_cur set_m_cur]. rewrite put_ne by done. change (m_cur m4 c' = m_cur m c'). apply Ecur.
    + intros _. unfold mb. cbn [m_prev set_m_cur set_m_prev]. apply put_eq.
    + intros c' Hc'. unfold mb. cbn [m_prev set_m_cur set_m_prev]. rewrite put_ne by done. apply Eprev.
Qed.

(** ** The other operations *)

Lemma find_pid_spec X L m P pid : sched_but X L m P -> find_pid_locked m pid = 0 \/ find_pid_locked m pid ∈ used m /\ t_pid (m_task m (find_pid_locked m pid)) = pid.
Proof.
  intros HB. unfold find_pid_locked. destruct (list_find _ _) as [[i t]|] eqn:E; [|by left]. right. apply list_find_Some in E as (Hi & E & _). split; [|done].
  rewrite <- (tb_pids _ _ (sb_table _ _ _ _ HB)). by eapply list_elem_of_lookup_2.
Qed.
Lemma pid_inj X L m P x y : sched_but X L m P -> x ∈ used m -> y ∈ used m -> t_pid (m_task m x) = t_pid (m_task m y) -> x = y.
Proof.
  intros HB [i Hi]%list_elem_of_lookup [j Hj]%list_elem_of_lookup E. assert (i = j) as ->; [|congruence].
  apply (NoDup_lookup _ i j (t_pid (m_task m x)) (tb_pid _ _ (sb_table _ _ _ _ HB))); rewrite list_lookup_fmap; [by rewrite Hi|rewrite Hj; simpl; congruence].
Qed.
Lemma find_pid_unique X L m P t : sched_but X L m P -> t ∈ used m -> find_pid_locked m (t_pid (m_task m t)) = t.
Proof.
  intros HB Ht. destruct (find_pid_spec X L m P (t_pid (m_task m t)) HB) as [E|[Hin E]]; [|by eapply pid_inj].
  exfalso. unfold find_pid_locked in E. destruct (list_find _ _) as [[i x]|] eqn:El.
  - subst x. apply list_find_Some in El as (Hi & _ & _). apply list_elem_of_lookup_2 in Hi. rewrite (tb_pids _ _ (sb_table _ _ _ _ HB)) in Hi. pose proof (used_addr _ _ _ _ _ HB Hi). lia.
  - apply list_find_None in El. rewrite Forall_forall in El. apply (El t); [|done]. by rewrite (tb_pids _ _ (sb_table _ _ _ _ HB)).
Qed.
Lemma not_queued X L m P t : sched_but X L m P -> t ∈ X -> on_rq m t = false.
Proof.
  intros HB Ht. apply not_true_iff_false. intros (c & l & Hc & Hl & Hin)%on_rq_spec. by destruct (qs_queued _ _ _ _ (sb_queues _ _ _ _ HB) c l t Hc Hl Hin) as (_ & ? & _).
Qed.

Lemma wake_waiter_spec L now m P pid : sched_but [] L m P -> exists m', wake_waiter_locked now m pid = Some m' /\ sched_but [] L m' P /\ frame m m'.
Proof.
  intros HB. unfold wake_waiter_locked. cbv zeta. destruct (find_pid_locked m pid =? 0); [by exists m|]. destruct (_ && _); [|by exists m]. set (pp := t_parent _).
  destruct (find_pid_spec _ _ _ _ pp HB) as [E|[Hp Epid]]; [rewrite E; by exists m|]. set (p := find_pid_locked m pp) in *. destruct (negb (p =? 0) && _ && _) eqn:Eb; [|by exists m].
  apply andb_prop in Eb as [[_ Est]%andb_prop _]. apply bool_decide_eq_true in Est. pose proof (used_addr _ _ _ _ _ HB Hp) as Ha. rewrite set_ready_ne by lia.
  set (g1 := fun k => set_t_waiting (t_pid k) k). set (m2 := on_task (on_task m p g1) p (make_ready now)).
  assert (sched_but [p] L m2 P) as HB2.
  { destruct (used_ok _ _ _ _ _ HB Hp). assert (sched_but [p] L (on_task m p g1) P) as HB1 by (apply but_open; [by apply but_same_task; try done; intros [? ?]%(idle_running _ _ _ _ _ HB)|rewrite on_task_eq; simpl; congruence]).
    apply but_open_task; try done.
    - rewrite on_task_eq. by split.
    - intros Hz. destruct (tb_zombie _ _ (sb_table _ _ _ _ HB) p Hz). congruence.
    - intros [E _]%(idle_running _ _ _ _ _ HB). congruence. }
  rewrite (not_queued _ _ _ _ _ HB2) by left. destruct (but_enqueue [] L m2 P p HB2 Hp) as (m' & -> & HB' & Hf & Em & _); [set_solver|unfold m2; by rewrite on_task_eq|].
  eexists. split; [done|]. split; [by apply but_resched|]. destruct Hf. by split.
Qed.

Lemma set_zombie_spec L m P t code : sched_but [] L m P -> t ∈ used m -> ~ is_idle m t ->
  exists m', jlos_task_set_zombie m t code = Some m' /\ sched_but [] L m' P /\ frame m m' /\
    m_task m' = m_task (on_task m t (fun k => set_t_exit code (set_t_status ZOMBIE k))) /\ m_zombies m' = m_zombies m.
Proof.
  intros HB Ht Hi. pose proof (used_addr _ _ _ _ _ HB Ht) as Ha. unfold jlos_task_set_zombie. rewrite (proj2 (Z.eqb_neq t 0)) by lia.
  destruct (but_unqueue [] L m P t (fun k => set_t_exit code (set_t_status ZOMBIE k)) HB Ht) as (m1 & E1 & HB1 & Hf1 & Em1 & Ez); try done; [set_solver|].
  exists m1. split; [done|]. split; [|done]. eapply but_close; [exact HB1|..]; rewrite Em1, on_task_eq; done.
Qed.
Lemma exit_mark_spec L now m P t code : sched_but [] L m P -> t ∈ used m -> ~ is_idle m t -> t ∉ m_zombies m ->
  exists m', exit_mark now m t code = Some m' /\ sched_but [] L m' P /\ frame m m'.
Proof.
  intros HB Ht Hi Hz. pose proof (used_addr _ _ _ _ _ HB Ht) as Ha. unfold exit_mark. rewrite (proj2 (Z.eqb_neq t 0)) by lia.
  destruct (set_zombie_spec L m P t code HB Ht Hi) as (m1 & -> & HB2 & Hf1 & Em1 & Ez). cbn [mbind option_bind].
  assert (t_status (m_task m1 t) = ZOMBIE) as Est by (by rewrite Em1, on_task_eq).
  cbv zeta. destruct (negb _ && _); [destruct (wake_waiter_spec L now m1 P (t_pid (m_task m1 t)) HB2) as (m' & -> & HB' & Hf'); exists m'; split_and!; [done|done|by eapply frame_trans]|].
  eexists. split; [done|]. split; [|destruct Hf1; by split]. destruct HB2 as [[A1 A2 A3 A4 A5 A6 A7 A8 A9 A10] B1 B2]. split; [|done|done]. split; try done; cbn [m_zombies set_m_zombies].
  - apply NoDup_cons. split; [by rewrite Ez|done].
  - intros z [->|Hzz]%elem_of_cons; [|by apply A7]. split; [|done]. change (t ∈ used m1). by rewrite (fr_used _ _ Hf1).
Qed.

Lemma reap_spec c L m P t : sched_but [] L m P -> online c -> t ∈ used m -> t_status (m_task m t) = ZOMBIE ->
  exists m' P', task_free_locked num_cpus c m t = Some m' /\ sched_but [] L m' P' /\ m_cur m' = m_cur m /\
    if jlos_hal_is_task_in_use num_cpus m t then m' = m else freed t m m' /\ find_pid_locked m' (t_pid (m_task m t)) = 0.
Proof.
  intros HB Hc Ht Hs. destruct (jlos_hal_is_task_in_use num_cpus m t) eqn:Eu.
  - exists m, P. unfold task_free_locked. rewrite Eu. by destruct (t =? 0).
  - destruct (task_free_spec c L m P t HB Ht Hs Eu Hc) as (m' & E & HB' & HF & Hp). exists m', (delete t P). split; [done|]. split; [done|]. split; [apply HF|done].
Qed.

Lemma wait_spec c L m P pid t : sched_but [] L m P -> online c -> t ∈ used m -> t_status (m_task m t) = RUNNING -> ~ is_idle m t ->
  exists m' P' r, jlos_task_wait_or_reap num_cpus c m pid t = Some (m', r) /\ sched_but [] L m' P'.
Proof.
  intros HB Hc Ht Hs Hi. unfold jlos_task_wait_or_reap. cbv zeta. destruct (find_pid_spec _ _ _ _ pid HB) as [->|[Hin Ep]]; [by eexists _, _, _|]. set (x := find_pid_locked m pid) in *.
  destruct (x =? 0); [by eexists _, _, _|]. destruct (negb _); [by eexists _, _, _|]. case_bool_decide as Ez.
  - destruct (reap_spec c L m P x HB Hc Hin Ez) as (m' & P' & -> & HB' & _). by eexists _, _, _.
  - eexists _, P, _. split; [done|]. destruct (used_ok _ _ _ _ _ HB Ht). eapply (but_close [] L _ P t); [|by rewrite on_task_eq..].
    apply but_open_task; [apply but_open; [done|congruence]|done|done|by split| |done]. intros Hz. destruct (tb_zombie _ _ (sb_table _ _ _ _ HB) t Hz). congruence.
Qed.

Lemma tick_spec c now m P : sched_but [] cpus m P -> online c -> 0 <= now < 2 ^ 32 ->
  exists m' P', jlos_task_manager_tick_and_schedule num_cpus c now m = Some m' /\ sched_but [] cpus m' P'.
Proof.
  intros HB Hc Hnow. unfold jlos_task_manager_tick_and_schedule. assert (sched_but [] cpus (fst (jlos_task_manager_curr_task_on_tick c m)) P) as HB'.
  { unfold jlos_task_manager_curr_task_on_tick. destruct (_ =? 0); [done|]. destruct (_ =? _); [done|]. destruct (_ && _); [|done]. apply but_same_task; try done.
    intros [_ E]%(idle_running _ _ _ _ _ HB). done. }
  destruct (jlos_task_manager_curr_task_on_tick c m) as [m1 curr]. simpl in HB'. destruct (_ || _); [|by exists m1, P].
  destruct (schedule_spec c now m1 P HB' Hc Hnow) as (m' & P' & E & HB2 & _). by exists m', P'.
Qed.

(** Sleeping: the two sections before the processor is given up. *)
Lemma sleep_mark_spec c L m P : sched_but [] L m P -> online c -> m_cur m c <> m_idle m c -> t_status (m_task m (m_cur m c)) <> ZOMBIE ->
  exists m', sleep_mark c m = Some m' /\ sched_but [] L m' P.
Proof.
  intros HB Hc Hne Hz. destruct (tb_cur _ _ (sb_table _ _ _ _ HB) c Hc) as [Ht Hown]. assert (~ is_idle m (m_cur m c)) as Hi by auto. unfold sleep_mark. set (t := m_cur m c) in *.
  assert (sched_but [] L (on_task m t (set_t_sleeping true)) P) as HB1 by (by apply but_same_task).
  destruct (set_blocked_spec L _ P t HB1 Ht) as (m' & E & HB' & _); [done|by rewrite on_task_eq|]. by exists m'.
Qed.
Lemma sleep_arm_spec L m P t tick : sched_but [] L m P -> t ∈ used m -> 0 <= tick < 2 ^ 32 -> exists m' P', sleep_arm m t tick = Some m' /\ sched_but [] L m' P'.
Proof.
  intros HB Ht Hk. pose proof (sb_table _ _ _ _ HB) as [A1 A2 A3 A4 A5 A6 A7 A8 A9 (A10 & A11 & A12)]. destruct (sq_arm_law _ _ t tick A10 (A12 t Ht) Hk) as (w & due & E & Hw & Hn).
  unfold sleep_arm. rewrite E. eexists _, _. split; [done|]. destruct HB as [_ B1 B2]. split; [|done|done]. split; try done. split_and!; [exact Hw| |auto].
  intros x [d Hd]. destruct (decide (x = t)) as [->|Hne]; [done|]. rewrite lookup_insert_ne in Hd by done. apply A11. by exists d.
Qed.

(** A new task. *)
Record fresh_task (m : mgr Q) (t : Z) : Prop := {
  ft_new : t ∉ used m; ft_addr : 0 < t < 2 ^ 32; ft_ok : task_ok (m_task m t); ft_node : sq_node (m_wheel m) t;
  ft_pid x : x ∈ used m -> t_pid (m_task m x) <> t_pid (m_task m t); ft_room : 1 <= zlen (m_slots m) < 2 ^ 30
}.

Lemma queues_grow R tk T X t : queues R tk T X -> t ∉ T -> task_ok (tk t) -> 0 < t < 2 ^ 32 -> queues R tk (T ++ [t]) (t :: X).
Proof.
  intros [A1 A2 A3 A4 A5] Ht Hok Ha. split; try done.
  - intros c l x Hc Hl Hx. destruct (A2 c l x Hc Hl Hx) as (? & ? & ? & ? & ?). split_and!; try done; set_solver.
  - intros x [Hx| ->%list_elem_of_singleton]%elem_of_app Hn Hs; [|set_solver]. apply A4; [done|set_solver|done].
  - intros x [Hx| ->%list_elem_of_singleton]%elem_of_app; [by apply A5|done].
Qed.

Lemma add_task_spec L m P t larger : sched_but [] L m P -> fresh_task m t ->
  exists m', jlos_task_manager_add_task larger m t = Some (m', negb (negb larger && (zlen (m_slots m) <=? m_num m))) /\
    if negb larger && (zlen (m_slots m) <=? m_num m) then m' = m
    else sched_but [t] L m' P /\ used m' = used m ++ [t] /\ (forall x, x <> t -> m_task m' x = m_task m x) /\
      m_task m' t = set_t_slot (m_num m) (m_task m t) /\ find_pid_locked m' (t_pid (m_task m t)) = t.
Proof.
  intros [[A1 A2 A3 A4 A5 A6 A7 A8 A9 (A10 & A11 & A12)] B1 B2] [N1 N2 N3 N4 N5 N6]. unfold jlos_task_manager_add_task. cbv zeta. rewrite (andb_comm (negb larger)). destruct (_ && negb larger) eqn:Eg; [by exists m|].
  set (s' := if zlen (m_slots m) <=? m_num m then _ else m_slots m).
  assert (take (Z.to_nat (m_num m)) s' = used m /\ m_num m < zlen s' /\ zlen s' < 2 ^ 31) as (Eu & Hlt & Hlen).
  { unfold s'. destruct (Z.leb_spec (zlen (m_slots m)) (m_num m)) as [Hle|Hlt]; [|split; [done|lia]]. rewrite u32_small, length_app, length_replicate by lia. split; [|lia]. rewrite take_app_le by lia. done. }
  clearbody s'. rewrite seti_Some by lia. cbn [mbind option_bind]. eexists. split; [done|]. set (m' := set_m_pids _ _).
  assert (used m' = used m ++ [t]) as Eu'.
  { unfold used at 1. change (m_slots m') with (<[Z.to_nat (m_num m) := t]> s'). change (m_num m') with (u32 (m_num m + 1)). rewrite u32_small, Z2Nat.inj_add by lia. change (Z.to_nat 1) with 1%nat.
    rewrite Nat.add_1_r, (take_S_r _ _ t) by (apply list_lookup_insert_eq; lia). rewrite take_insert_ge by lia. by rewrite Eu. }
  assert (forall x, x <> t -> m_task m' x = m_task m x) as Hx by (intros x Hne; change (m_task m') with (put (m_task m) t (set_t_slot (m_num m) (m_task m t))); by rewrite put_ne).
  assert (m_task m' t = set_t_slot (m_num m) (m_task m t)) as Et by (change (m_task m') with (put (m_task m) t (set_t_slot (m_num m) (m_task m t))); by rewrite put_eq).
  assert (length (used m) = Z.to_nat (m_num m)) as Elen by (unfold used; rewrite length_take; lia).
  assert (forall x, x ∈ used m -> m_task m' x = m_task m x) as Hold by (intros x Hin; apply Hx; by intros ->).
  split; [|split; [done|split; [done|split; [done|]]]].
  2: { unfold find_pid_locked. change (m_pids m') with (t :: m_pids m). cbn [list_find]. rewrite decide_True; [done|]. by rewrite Et. }
  split; [split|..].
  - change (m_num m') with (u32 (m_num m + 1)). change (m_slots m') with (<[Z.to_nat (m_num m) := t]> s'). rewrite length_insert, u32_small; lia.
  - rewrite Eu'. apply NoDup_app. split_and!; [done| |apply NoDup_singleton]. intros x Hin ->%list_elem_of_singleton. done.
  - intros i x. rewrite Eu', lookup_snoc_Some. intros [[Hlt' Hi]|[-> ->]]; [rewrite Hold by (by eapply list_elem_of_lookup_2); by apply A3|]. rewrite Et, Elen. simpl. lia.
  - change (m_pids m') with (t :: m_pids m). rewrite Eu', A4. apply Permutation_cons_append.
  - rewrite Eu', fmap_app. apply NoDup_app. split_and!; [|..|apply NoDup_singleton].
    + erewrite list_fmap_ext; [exact A5|]. intros i x Hi. cbv beta. by rewrite Hold by (by eapply list_elem_of_lookup_2).
    + intros p (x & E & Hin)%list_elem_of_fmap Hp%list_elem_of_singleton. cbv beta in *. apply (N5 x Hin). rewrite (Hold x Hin) in E. rewrite Et in Hp. simpl in *. congruence.
  - done.
  - intros z Hz. destruct (A7 z Hz) as [Hu Hs]. rewrite Eu', (Hold z Hu). split; [apply elem_of_app; by left|done].
  - intros c Hc. destruct (A8 c Hc) as (Hu & Hr & Hsl). change (m_idle m') with (m_idle m). rewrite Eu', (Hold _ Hu). split; [apply elem_of_app; by left|done].
  - intros c Hc. destruct (A9 c Hc) as (Hu & Hi). rewrite Eu'. split; [apply elem_of_app; by left|done].
  - split_and!; [done| |]; intros x Hin; rewrite Eu' in *; [apply elem_of_app; left; by apply A11|]. apply elem_of_app in Hin as [Hin| ->%list_elem_of_singleton]; [by apply A12|done].
  - rewrite Eu'. eapply queues_same; [apply queues_grow; [exact B1|done|done|done]|]. intros x _. destruct (decide (x = t)) as [->|Hne]; [by rewrite Et|by rewrite Hx].
  - intros x. rewrite Eu'. intros [Hin| ->%list_elem_of_singleton]%elem_of_app Hn Hs; [|set_solver]. rewrite Hold in Hs by done. apply B2; [done|set_solver|done].
Qed.

Lemma add_enqueue_spec L m P t larger : sched_but [] L m P -> fresh_task m t -> t_status (m_task m t) = READY ->
  exists m', ('(m, ok) ← jlos_task_manager_add_task larger m t; if (ok : bool) then jlos_task_manager_enqueue m t else Some m) = Some m' /\ sched_but [] L m' P.
Proof.
  intros HB HF Hs. destruct (add_task_spec L m P t larger HB HF) as (m1 & -> & H1). cbn [mbind option_bind]. destruct (negb larger && _); simpl; [exists m1; by subst|].
  destruct H1 as (HB1 & Eu & _ & Et & _). unfold jlos_task_manager_enqueue. rewrite (proj2 (Z.eqb_neq t 0)) by (destruct HF; lia). rewrite bool_decide_eq_true_2 by (by rewrite Et).
  destruct (but_enqueue [] L m1 P t HB1) as (m' & -> & HB' & _); [rewrite Eu; set_solver|set_solver|by rewrite Et|]. by exists m'.
Qed.

Lemma signal_send_spec c now m P t sig : sched_but [] cpus m P -> online c -> 0 <= now < 2 ^ 32 -> t ∈ used m -> ~ is_idle m t -> (t ∉ m_zombies m) ->
  exists m' P' r, jlos_signal_send num_cpus c now m t sig = Some (m', r) /\ sched_but [] cpus m' P'.
Proof.
  intros HB Hc Hnow Ht Hi Hz. unfold jlos_signal_send. destruct (_ || _); [by eexists _, _, _|].
  assert (sched_but [] cpus (on_task m t (set_pending sig)) P) as HB1 by (by apply but_same_task). destruct (sig =? JLOS_SIGKILL); [|by eexists _, _, _].
  case_bool_decide; [by eexists _, _, _|]. destruct (t =? m_cur m c).
  - unfold jlos_process_exit. destruct (exit_mark_spec cpus now m P t sig HB Ht Hi Hz) as (m1 & -> & HB2 & Hf). cbn [mbind option_bind].
    destruct (schedule_spec c now _ P (but_resched _ _ _ _ (put (m_resched m1) c true) HB2) Hc Hnow) as (m' & P' & -> & HB' & _). by eexists _, _, _.
  - destruct (wakeup_spec [] cpus now _ P t HB1 Ht) as (m' & P' & -> & HB' & _); [set_solver|]. by eexists _, _, _.
Qed.
End inv.
