(* ===== verification/SleepWheel.v ===== *)
(** * The timer wheel as the sleep queue of the scheduler

    The wheel of [TimerWheel] meets the contract [SleepQueue] that the scheduler is
    proved against: the nodes are those that have an expiry field, and a node that is
    not armed is linked to itself, so that taking it out again does nothing. *)
From S2P Require Import Prelude DList TimerWheel Sched.

(** [expires] of a node is written, then the node is taken out and put in. *)
Definition with_expires (w : wheel) (n e : Z) : wheel := Wheel (tw_base w) (tw_heap w) (<[n := e]> (tw_expires w)) (tw_jiffies w).
Definition wheel_arm (w : wheel) (n e : Z) : option wheel :=
  w ← jlos_timer_wheel_del (with_expires w n e) n; jlos_timer_wheel_add w n.
(** The loop has one round per tick, none when [now] lies in the past, and the lists
    have at most as many nodes as there are. *)
Definition rounds (j now : Z) : nat := let n := ticks_to j now in if n <? 2 ^ 31 then S (Z.to_nat n) else O.
Definition wheel_advance {C} (f : C -> Z -> C) (w : wheel) (now : Z) (c : C) : option (wheel * C) :=
  jlos_timer_wheel_advance (fun w c n => Some (w, f c n)) (rounds (tw_jiffies w) now) (S (size (tw_expires w))) w now c.

Definition wheel_node (w : wheel) (n : Z) : Prop := is_Some (tw_expires w !! n).
Record wheel_nodes (w : wheel) (P : gmap Z Z) : Prop := {
  wn_rep : wheel_rep w P;
  wn_armed n : is_Some (P !! n) -> wheel_node w n;
  wn_apart n k : wheel_node w n -> is_slot k -> n <> slot_addr (tw_base w) k
}.

Lemma self_linked h x : dlist h x [] -> h !! x = Some (LNode x x).
Proof.
  intros [_ [Hn Hp]]. unfold next_of, prev_of in *. destruct (h !! x) as [[a b]|]; simpl in *; [|done]. by simplify_eq.
Qed.

(** A node that is not armed is in no slot. *)
Lemma unarmed_self w P n : wheel_nodes w P -> wheel_node w n -> P !! n = None -> tw_heap w !! n = Some (LNode n n).
Proof.
  intros [[W [HW Hj Hp Hq Hfr]] Ha Hs] Hn HP. apply self_linked, (Hfr n Hn). intros k Hk [->|Hx]%elem_of_cons; [by apply (Hs (slot_addr (tw_base w) k) k)|].
  destruct (Hp k n Hk Hx) as (due & E & _). congruence.
Qed.

Lemma del_self w n : tw_heap w !! n = Some (LNode n n) -> jlos_timer_wheel_del w n = Some w.
Proof.
  intros E. unfold jlos_timer_wheel_del, jlos_list_del_init, jlos_list_del_1, jlos_list_init, set_next, set_prev, next_of, prev_of. rewrite E. simpl.
  rewrite E. simpl. rewrite !lookup_insert_eq. simpl. rewrite !lookup_insert_eq. simpl. rewrite !lookup_insert_eq. simpl. rewrite !insert_insert_eq, insert_id by done. by destruct w.
Qed.

Lemma wheel_del_law w P n : wheel_nodes w P -> wheel_node w n ->
  exists w', jlos_timer_wheel_del w n = Some w' /\ wheel_nodes w' (delete n P) /\ tw_expires w' = tw_expires w /\ tw_base w' = tw_base w /\ tw_jiffies w' = tw_jiffies w /\
    tw_heap w' !! n = Some (LNode n n).
Proof.
  intros HW Hn. pose proof HW as [Hr Ha Hs]. destruct (P !! n) as [due|] eqn:E.
  - destruct (del_rep w P n due Hr E) as (w' & Ed & Hr' & Hj). exists w'. assert (exists h, w' = with_heap w h) as [h ->] by (unfold jlos_timer_wheel_del in Ed; destruct (jlos_list_del_init _ _); [simplify_eq/=; eauto|done]).
    assert (wheel_nodes (with_heap w h) (delete n P)) as HN. { split; [done| |done]. intros x [d Hd]. apply lookup_delete_Some in Hd as [_ Hd]. apply Ha. by exists d. }
    split_and!; try done. apply (unarmed_self _ _ n HN); [done|apply lookup_delete_eq].
  - pose proof (unarmed_self w P n HW Hn E) as Es. exists w. rewrite (del_self w n Es), delete_id by done. done.
Qed.

Lemma expires_rep w P n e : wheel_nodes w P -> P !! n = None -> wheel_node w n -> wheel_nodes (with_expires w n e) P.
Proof.
  intros [[W [HW Hj Hp Hq Hfr]] Ha Hs] HP Hn. assert (forall x, wheel_node (with_expires w n e) x -> wheel_node w x) as Hsame.
  { intros x [d Hd]. simpl in Hd. destruct (decide (x = n)) as [->|Hne]; [done|]. rewrite lookup_insert_ne in Hd by done. by exists d. }
  split.
  - exists W. split; [done|done| |done|]; simpl.
    + intros k x Hk Hx. destruct (Hp k x Hk Hx) as (due & E & Ht & Hpl & He). exists due. split_and!; try done. intros H256. rewrite lookup_insert_ne; [by apply He|]. intros ->. congruence.
    + intros x Hx. apply Hfr. by apply Hsame.
  - intros x Hx%Ha. unfold wheel_node in *. simpl. by apply lookup_insert_is_Some'; right.
  - intros x k Hx%Hsame. by apply Hs.
Qed.

Lemma wheel_arm_law w P n e : wheel_nodes w P -> wheel_node w n -> 0 <= e < 2 ^ 32 ->
  exists w' due, wheel_arm w n e = Some w' /\ wheel_nodes w' (<[n := due]> P) /\ forall x, wheel_node w x -> wheel_node w' x.
Proof.
  intros HW Hn He. destruct (wheel_del_law w P n HW Hn) as (w1 & Ed & HW1 & Ee & Eb & Ej & Es).
  assert (jlos_timer_wheel_del (with_expires w n e) n = Some (with_expires w1 n e)) as Ed'.
  { unfold jlos_timer_wheel_del in *. simpl. destruct (jlos_list_del_init (tw_heap w) n) as [h|]; [|done]. simpl in *. by simplify_eq. }
  unfold wheel_arm. rewrite Ed'. cbn [mbind option_bind].
  assert (wheel_nodes (with_expires w1 n e) (delete n P)) as HW2 by (apply expires_rep; [done|apply lookup_delete_eq|unfold wheel_node; by rewrite Ee]). pose proof HW2 as [Hr2 Ha2 Hs2].
  assert (wheel_node (with_expires w1 n e) n) as Hn2 by (unfold wheel_node; simpl; rewrite lookup_insert_eq; by eexists).
  destruct (add_rep (with_expires w1 n e) (delete n P) n e) as (w2 & Ea & Hr' & Hj'); [done|apply lookup_insert_eq|done|unfold next_of; simpl; rewrite Es; by eexists|apply lookup_delete_eq|intros k Hk; by apply Hs2|].
  exists w2, (due_tick (tw_jiffies (with_expires w1 n e)) e). split; [done|].
  assert (exists h, w2 = with_heap (with_expires w1 n e) h) as [h ->].
  { unfold jlos_timer_wheel_add in Ea. destruct (tw_expires _ !! n); [|done]. simpl in Ea. destruct (jlos_list_add_tail _ _ _); [simplify_eq/=; eauto|done]. }
  rewrite insert_delete_eq in Hr'. split; [split; [done| |done]|].
  - intros x [d Hd]. destruct (decide (x = n)) as [->|Hne]; [done|]. rewrite lookup_insert_ne in Hd by done. apply Ha2. rewrite lookup_delete_ne by done. by exists d.
  - intros x Hx. unfold wheel_node in *. simpl. apply lookup_insert_is_Some'. right. by rewrite Ee.
Qed.

Section advance.
Context {C : Type} (f : C -> Z -> C).
Abbreviation expire := (fun (w : wheel) (c : C) (n : Z) => Some (w, f c n)).

Lemma advance_same ticks fuel now : forall w P c w' c', wheel_rep w P -> (size P < fuel)%nat -> jlos_timer_wheel_advance expire ticks fuel w now c = Some (w', c') ->
  tw_base w' = tw_base w /\ tw_expires w' = tw_expires w.
Proof.
  induction ticks as [|ticks IH]; intros w P c w' c' HR Hf; cbn [jlos_timer_wheel_advance]; (destruct (_ <? 0); [by intros [= <- <-]|]); [done|].
  destruct (advance_tick_spec expire f ltac:(done) w P fuel c HR Hf) as (w1 & l & -> & _ & _ & HR1 & _ & Eb & Ee). cbn [mbind option_bind]. intros E.
  destruct (IH w1 _ (foldl f c l) w' c' HR1) as [-> ->]; [pose proof (not_due_size (tw_jiffies w) P); lia|exact E|done].
Qed.

Lemma wheel_advance_law w P now c : wheel_nodes w P -> 0 <= now < 2 ^ 32 ->
  exists w' fired, wheel_advance f w now c = Some (w', foldl f c fired) /\ NoDup fired /\
    (forall x, x ∈ fired <-> exists due, P !! x = Some due /\ sleep_over (tw_jiffies w) now due) /\
    wheel_nodes w' (filter (fun p => p.1 ∉ fired) P) /\ forall x, wheel_node w x -> wheel_node w' x.
Proof.
  intros HW Hnow. pose proof HW as [Hr Ha Hs]. set (j := tw_jiffies w). destruct (rep_ticks w P Hr) as [Hj HP].
  assert (size P < S (size (tw_expires w)))%nat as Hsz.
  { rewrite <- !size_dom. apply Nat.lt_succ_r, subseteq_size. intros x Hx%elem_of_dom. by apply elem_of_dom, Ha. }
  unfold wheel_advance, sleep_over, rounds. cbv zeta. fold j. destruct (Z.leb_spec (2 ^ 31) (ticks_to j now)) as [Hpast|Hlt].
  - rewrite (proj2 (Z.ltb_ge _ _)) by done. exists w, []. cbn [jlos_timer_wheel_advance foldl]. fold j. rewrite s32_neg. fold (ticks_to j now). rewrite (proj2 (Z.leb_le _ _) Hpast).
    split; [done|]. split; [constructor|]. split.
    + intros x. split; [by intros ?%elem_of_nil|]. intros (due & _ & Hl & _). unfold ticks_to in Hpast. exfalso. apply (Z.lt_irrefl (2 ^ 31)). eapply Z.le_lt_trans; [exact Hpast|exact Hl].
    + split; [|done]. rewrite map_filter_id; [done|]. intros x d _. apply not_elem_of_nil.
  - rewrite (proj2 (Z.ltb_lt _ _)) by done. destruct (advance_correct expire f ltac:(done) (S (Z.to_nat (ticks_to j now))) (S (size (tw_expires w))) w P now c Hr Hnow HP Hj Hlt) as (w' & fired & E & _ & Hnd & Hin & _ & HR').
    { unfold ticks_to. pose proof (u32_range (now - j)). unfold j in *. lia. } { done. }
    fold j in Hin, HR'. destruct (advance_same _ _ _ _ _ _ _ _ Hr Hsz E) as [Eb Ee]. exists w', fired. split; [done|]. split; [done|]. split.
    + intros x. rewrite Hin. unfold ticks_to in *. split; intros (due & Hd & Hl); exists due; [split; [done|lia]|destruct Hl; split; [done|lia]].
    + assert (filter (fun p => p.1 ∉ fired) P = filter (fun p => ticks_to j now < ticks_to j p.2) P) as ->.
      { apply map_eq. intros x. apply option_eq. intros d. rewrite !map_lookup_filter_Some. split; intros [Hd Hn]; (split; [done|]); simpl in *.
        - destruct (Z.lt_ge_cases (ticks_to j now) (ticks_to j d)); [done|]. destruct Hn. apply Hin. exists d. split; [done|lia].
        - intros (d' & Hd' & Hl)%Hin. rewrite Hd in Hd'. simplify_eq. lia. }
      split; [split; [done| |]|].
      * intros x [d Hd]. apply map_lookup_filter_Some in Hd as [Hd _]. unfold wheel_node. rewrite Ee. apply Ha. by exists d.
      * intros x k. unfold wheel_node. rewrite Ee, Eb. apply Hs.
      * intros x. unfold wheel_node. by rewrite Ee.
Qed.
End advance.

#[export] Program Instance wheel_sleep_queue : SleepQueue wheel := {|
  sq_rep := wheel_nodes; sq_now := tw_jiffies; sq_node := wheel_node; sq_del := jlos_timer_wheel_del; sq_arm := wheel_arm; sq_advance := @wheel_advance |}.
Next Obligation. intros w P n HW Hn. destruct (wheel_del_law w P n HW Hn) as (w' & E & HW' & Ee & _). exists w'. split_and!; [done|done|]. intros x. unfold wheel_node. by rewrite Ee. Qed.
Next Obligation. apply wheel_arm_law. Qed.
Next Obligation. intros C f w P now c. apply wheel_advance_law. Qed.
