(* ===== verification/Scheduling.v ===== *)
(** * What the scheduler guarantees ([kernel/multitask.c])

    The operations as steps of a machine that runs one at a time, each to its end, on
    any of its processors; the invariant they keep, what one call of the scheduler does,
    and how the exit of a task and the wait of its parent meet.  This is the order of
    events on one processor with interrupts off.  The code takes and releases several
    locks inside an operation and tests the status of a task without a lock; what other
    processors do in between is not part of these theorems.  The last part shows
    executions in which operations of different processors, the parts of one operation
    on two processors, or a timer interrupt break what the code means to do. *)
From stdpp Require Import relations.
From S2P Require Import Prelude Bitmap Sync DList TimerWheel Sched SchedInv SleepWheel.

(** ** Steps *)

(** One operation that runs to its end; [c] is the processor it runs on. *)
Inductive op :=
| OpSchedule (c : Z)
| OpTick (c : Z)
| OpResume (c : Z)
| OpBalance (c : Z)
| OpWakeup (t : Z)
| OpBlock (c : Z)
| OpSleepMark (c : Z)
| OpSleepArm (t tick : Z)
| OpExit (c code : Z)
| OpDoExit (c : Z)
| OpWait (c pid : Z)
| OpSignal (c t sig : Z)
| OpAdd (t : Z) (larger : bool).

Section steps.
Context {Q : Type} `{SleepQueue Q}.
Variable num_cpus : Z.
Hypothesis num_cpus_ok : 1 <= num_cpus <= 8.
Abbreviation online c := (0 <= c < num_cpus) (only parsing).

Definition run (o : op) (now : Z) (m : mgr Q) : option (mgr Q) :=
  match o with
  | OpSchedule c => jlos_task_manager_schedule num_cpus c now m
  | OpTick c => jlos_task_manager_tick_and_schedule num_cpus c now m
  | OpResume c => Some (after_switch c m)
  | OpBalance c => jlos_sched_balance num_cpus c m
  | OpWakeup t => jlos_task_wakeup now m t
  | OpBlock c => jlos_task_set_blocked m (m_cur m c)
  | OpSleepMark c => sleep_mark c m
  | OpSleepArm t tick => sleep_arm m t tick
  | OpExit c code => exit_mark now m (m_cur m c) code
  | OpDoExit c => jlos_task_set_zombie m (m_cur m c) 0
  | OpWait c pid => fst <$> jlos_task_wait_or_reap num_cpus c m pid (m_cur m c)
  | OpSignal c t sig => fst <$> jlos_signal_send num_cpus c now m t sig
  | OpAdd t larger => '(m, ok) ← jlos_task_manager_add_task larger m t; if (ok : bool) then jlos_task_manager_enqueue m t else Some m
  end.

(** Only tasks of the table are woken; idle tasks do not block, sleep, wait or exit; a
    task exits once; a new task has its own address, number and list nodes. *)
Definition busy (m : mgr Q) (c : Z) : Prop := online c /\ m_cur m c <> m_idle m c.
Definition allowed (m : mgr Q) (o : op) : Prop :=
  match o with
  | OpSchedule c | OpTick c | OpResume c | OpBalance c => online c
  | OpWakeup t => t ∈ used m
  | OpBlock c | OpSleepMark c => busy m c /\ t_status (m_task m (m_cur m c)) <> ZOMBIE
  | OpSleepArm t tick => t ∈ used m /\ 0 <= tick < 2 ^ 32
  | OpExit c _ => busy m c /\ (m_cur m c ∉ m_zombies m)
  | OpDoExit c => busy m c
  | OpWait c _ => busy m c /\ t_status (m_task m (m_cur m c)) = RUNNING
  | OpSignal c t _ => online c /\ t ∈ used m /\ ~ is_idle num_cpus m t /\ (t ∉ m_zombies m)
  | OpAdd t _ => fresh_task m t /\ t_status (m_task m t) = READY
  end.

Inductive sched_step (m m' : mgr Q) : Prop :=
| sched_do o now : allowed m o -> 0 <= now < 2 ^ 32 -> run o now m = Some m' -> sched_step m m'.

Lemma busy_spec L m P c : sched_but num_cpus [] L m P -> busy m c -> m_cur m c ∈ used m /\ ~ is_idle num_cpus m (m_cur m c).
Proof. intros HB [Hc Hne]. destruct (tb_cur _ _ _ (sb_table _ _ _ _ _ HB) c Hc) as [Ht Hown]. split; [done|]. auto. Qed.

Lemma run_spec o now m : sched_inv num_cpus m -> allowed m o -> 0 <= now < 2 ^ 32 -> exists m', run o now m = Some m' /\ sched_inv num_cpus m'.
Proof.
  intros [P HB] Ho Hnow. destruct o as [c|c|c|c|t|c|c|t tick|c code|c|c pid|c t sig|t larger]; cbn [run allowed] in *.
  - destruct (schedule_spec num_cpus num_cpus_ok c now m P HB Ho Hnow) as (m' & P' & E & HB' & _). exists m'. split; [done|by exists P'].
  - destruct (tick_spec num_cpus num_cpus_ok c now m P HB Ho Hnow) as (m' & P' & E & HB'). exists m'. split; [done|by exists P'].
  - eexists. split; [done|]. exists P. by apply but_prev.
  - destruct (sched_balance_spec num_cpus num_cpus_ok c _ m P HB Ho) as (m' & E & HB' & _). exists m'. split; [done|by exists P].
  - destruct (wakeup_spec num_cpus num_cpus_ok [] _ now m P t HB Ho) as (m' & P' & E & HB' & _); [set_solver|]. exists m'. split; [done|by exists P'].
  - destruct Ho as [Hb Hz]. destruct (busy_spec _ m P c HB Hb) as [Ht Hi]. destruct (set_blocked_spec num_cpus num_cpus_ok _ m P _ HB Ht Hi Hz) as (m' & E & HB' & _). exists m'. split; [done|by exists P].
  - destruct Ho as [[Hc Hne] Hz]. destruct (sleep_mark_spec num_cpus num_cpus_ok c _ m P HB Hc Hne Hz) as (m' & E & HB'). exists m'. split; [done|by exists P].
  - destruct Ho as [Ht Htick]. destruct (sleep_arm_spec num_cpus _ m P t tick HB Ht Htick) as (m' & P' & E & HB'). exists m'. split; [done|by exists P'].
  - destruct Ho as [Hb Hz]. destruct (busy_spec _ m P c HB Hb) as [Ht Hi]. destruct (exit_mark_spec num_cpus num_cpus_ok _ now m P _ code HB Ht Hi Hz) as (m' & E & HB' & _). exists m'. split; [done|by exists P].
  - destruct (busy_spec _ m P c HB Ho) as [Ht Hi]. destruct (set_zombie_spec num_cpus num_cpus_ok _ m P _ 0 HB Ht Hi) as (m' & E & HB' & _). exists m'. split; [done|by exists P].
  - destruct Ho as [Hb Hr]. destruct (busy_spec _ m P c HB Hb) as [Ht Hi]. destruct Hb as [Hc _].
    destruct (wait_spec num_cpus num_cpus_ok c _ m P pid _ HB Hc Ht Hr Hi) as (m' & P' & r & E & HB'). exists m'. rewrite E. split; [done|by exists P'].
  - destruct Ho as (Hc & Ht & Hi & Hz). destruct (signal_send_spec num_cpus num_cpus_ok c now m P t sig HB Hc Hnow Ht Hi Hz) as (m' & P' & r & E & HB'). exists m'. rewrite E. split; [done|by exists P'].
  - destruct Ho as [Hf Hs]. destruct (add_enqueue_spec num_cpus num_cpus_ok _ m P t larger HB Hf Hs) as (m' & E & HB'). exists m'. split; [done|by exists P].
Qed.
End steps.

(** C5. Operations of the scheduler run one at a time, each to its end, on any
    processors, in any order and at any ticks (interleavings inside an operation are not
    covered, see [interleaved_put_prev]).  Then in every state reached every allowed
    operation completes (no list is corrupted, no null task is run), a task of
    the table is ready exactly if it is in a run queue, and then in one place: the queue
    of its processor and priority; a running task is an idle task or the current task
    of some processor; process numbers are unique and find their task. *)
Theorem scheduler_invariant {Q} `{SleepQueue Q} (num_cpus : Z) (m m' : mgr Q) :
  1 <= num_cpus <= 8 -> sched_inv num_cpus m -> rtc (sched_step num_cpus) m m' ->
  (forall o now, allowed num_cpus m' o -> 0 <= now < 2 ^ 32 -> exists m'', run num_cpus o now m' = Some m'') /\
  (forall t, t ∈ used m' -> t_status (m_task m' t) = READY <-> on_rq m' t = true) /\
  (forall t c l, t ∈ used m' -> 0 <= c < 8 -> 0 <= l < 4 -> t ∈ rq_queue (m_rq m' c) l -> t_cpu (m_task m' t) = c /\ t_prio (m_task m' t) = l) /\
  (forall c l, 0 <= c < 8 -> 0 <= l < 4 -> NoDup (rq_queue (m_rq m' c) l) /\ rq_count (m_rq m' c) l = zlen (rq_queue (m_rq m' c) l)) /\
  (forall t, t ∈ used m' -> t_status (m_task m' t) = RUNNING -> exists c, 0 <= c < num_cpus /\ (m_idle m' c = t \/ m_cur m' c = t)) /\
  (forall t, t ∈ used m' -> find_pid_locked m' (t_pid (m_task m' t)) = t).
Proof.
  intros Hn HI Hs. assert (sched_inv num_cpus m') as HI'.
  { induction Hs as [m|m1 m2 m3 [o now Ho Hnow E] _ IH]; [done|]. destruct (run_spec num_cpus Hn o now m1 HI Ho Hnow) as (m2' & E' & HI2). apply IH. congruence. }
  split; [intros o now Ho Hnow; destruct (run_spec num_cpus Hn o now m' HI' Ho Hnow) as (m'' & E & _); by exists m''|].
  destruct HI' as [P HB]. pose proof (sb_queues _ _ _ _ _ HB) as HQ. split_and!.
  - intros t Ht. rewrite on_rq_spec. split; [intros Hr; apply (qs_ready _ _ _ _ HQ); [done|set_solver|done]|].
    intros (c & l & Hc & Hl & Hin). by destruct (qs_queued _ _ _ _ HQ c l t Hc Hl Hin) as (_ & _ & ? & _).
  - intros t c l Ht Hc Hl Hin. destruct (qs_queued _ _ _ _ HQ c l t) as (_ & _ & _ & ? & ?); [by apply cpu_ok_iff|done|done|done].
  - intros c l Hc%cpu_ok_iff Hl. split; [by apply (qs_nodup _ _ _ _ HQ)|]. by apply (ro_count _ (qs_rq _ _ _ _ HQ c Hc)).
  - intros t Ht Hr. destruct (sb_run _ _ _ _ _ HB t Ht) as [(c & Hc & E)|(c & Hc%elem_of_seqZ & E)]; [set_solver|done|exists c; tauto|exists c; split; [lia|tauto]].
  - intros t Ht. by eapply find_pid_unique.
Qed.


(** ** Exit and wait *)

Section handshake.
Context {Q : Type} `{SleepQueue Q}.
Variable num_cpus : Z.
Hypothesis num_cpus_ok : 1 <= num_cpus <= 8.

(** The parent [p] waits for [t]. *)
Definition waits_for (m : mgr Q) (p t : Z) : bool := bool_decide (t_status (m_task m p) = WAITING) && (t_waiting (m_task m p) =? t_pid (m_task m t)).

Lemma wake_parent_spec L now m P t p : sched_but num_cpus [] L m P -> t ∈ used m -> p ∈ used m -> p <> t -> t_parent (m_task m t) = t_pid (m_task m p) -> t_pid (m_task m p) <> 0 ->
  exists m', wake_waiter_locked now m (t_pid (m_task m t)) = Some m' /\ (forall x, x <> p -> m_task m' x = m_task m x) /\
    m_task m' p = if waits_for m p t then make_ready now (set_t_waiting (t_pid (m_task m p)) (m_task m p)) else m_task m p.
Proof.
  intros HB Ht Hp Hne Epar H0. unfold wake_waiter_locked. rewrite (find_pid_unique _ _ _ _ _ _ HB Ht). pose proof (used_addr _ _ _ _ _ _ HB Ht). pose proof (used_addr _ _ _ _ _ _ HB Hp).
  rewrite (proj2 (Z.eqb_neq t 0)) by lia. cbv zeta. rewrite Epar, (proj2 (Z.eqb_neq _ _) H0). rewrite (proj2 (Z.eqb_neq _ (t_pid (m_task m t)))) by (intros E; apply Hne; by apply (pid_inj _ _ _ _ _ _ _ HB Hp Ht)).
  cbn [negb andb]. rewrite (find_pid_unique _ _ _ _ _ _ HB Hp), (proj2 (Z.eqb_neq p 0)) by lia. cbn [negb andb]. fold (waits_for m p t).
  destruct (waits_for m p t) eqn:Ew; [|by exists m]. apply andb_prop in Ew as [Est _]. apply bool_decide_eq_true in Est. rewrite set_ready_ne by lia.
  set (g1 := fun k => set_t_waiting (t_pid k) k). set (m2 := on_task (on_task m p g1) p (make_ready now)).
  assert (on_rq m2 p = false) as Eq.
  { apply not_true_iff_false. intros Hq%on_rq_spec. apply (queued_not_ready _ _ _ _ p (sb_queues _ _ _ _ _ HB)); [congruence|exact Hq]. }
  rewrite Eq. unfold rq_enqueue. rewrite Eq. assert (cpu_ok (t_cpu (m_task m2 p)) = true) as -> by (unfold m2; rewrite !on_task_eq; apply (used_ok _ _ _ _ _ _ HB Hp)).
  cbn [andb negb mbind option_bind]. eexists. split; [done|]. split.
  - intros x Hx. simpl. by rewrite !put_ne.
  - simpl. by rewrite !put_eq.
Qed.

(** A child that exits becomes a zombie; its parent is woken if it waits for it. *)
Lemma exit_child_spec L now m P t p code : sched_but num_cpus [] L m P -> t ∈ used m -> p ∈ used m -> p <> t -> ~ is_idle num_cpus m t -> (t ∉ m_zombies m) ->
  t_parent (m_task m t) = t_pid (m_task m p) -> t_pid (m_task m p) <> 0 -> t_status (m_task m p) <> ZOMBIE ->
  exists m', exit_mark now m t code = Some m' /\ sched_but num_cpus [] L m' P /\ frame m m' /\
    m_task m' t = set_t_exit code (set_t_status ZOMBIE (m_task m t)) /\
    m_task m' p = if waits_for m p t then make_ready now (set_t_waiting (t_pid (m_task m p)) (m_task m p)) else m_task m p.
Proof.
  intros HB Ht Hp Hne Hi Hz Epar H0 Hpz. destruct (exit_mark_spec num_cpus num_cpus_ok L now m P t code HB Ht Hi Hz) as (m' & E & HB' & Hf). exists m'. split; [done|]. split; [done|]. split; [done|].
  pose proof (used_addr _ _ _ _ _ _ HB Ht). pose proof (used_addr _ _ _ _ _ _ HB Hp). revert E. unfold exit_mark. rewrite (proj2 (Z.eqb_neq t 0)) by lia.
  set (g := fun k => set_t_exit code (set_t_status ZOMBIE k)).
  destruct (set_zombie_spec num_cpus num_cpus_ok L m P t code HB Ht Hi) as (m1 & -> & HB2 & Hf1 & Em1 & _). cbn [mbind option_bind]. cbv zeta. fold g in Em1.
  assert (m_task m1 t = g (m_task m t)) as Et by (by rewrite Em1, on_task_eq). assert (m_task m1 p = m_task m p) as Ep by (by rewrite Em1, on_task_ne).
  assert (t ∈ used m1 /\ p ∈ used m1) as [Ht1 Hp1] by (by rewrite (fr_used _ _ Hf1)).
  rewrite Et. change (t_parent (g (m_task m t))) with (t_parent (m_task m t)). rewrite Epar, <- Ep, (find_pid_unique _ _ _ _ _ _ HB2 Hp1), Ep, (proj2 (Z.eqb_neq p 0)), bool_decide_eq_false_2 by (done || lia).
  cbn [negb andb]. destruct (wake_parent_spec L now m1 P t p HB2 Ht1 Hp1 Hne) as (m2 & E2 & Hx & Hp2); [by rewrite Et, Ep|by rewrite Ep|]. rewrite Et in E2. rewrite E2. intros [= <-].
  rewrite Hx, Et by done. split; [done|]. rewrite Hp2. unfold waits_for. rewrite Ep, Et. done.
Qed.
End handshake.

(** C13. A child and its parent meet whichever comes first, when the wait and the exit do
    not interleave.  While the child runs, the wait
    of the parent makes it a waiting task.  When the child exits, it becomes a zombie
    with its exit code, and a parent that waits for it becomes ready and is put into a
    run queue.  From then on the wait of the parent returns the number and the exit
    code of the child.  It removes the child if no processor uses it any more; otherwise,
    as right after the exit, it changes nothing and the child stays in the table. *)
Theorem exit_wait_handshake {Q} `{SleepQueue Q} (num_cpus c now : Z) (m : mgr Q) (t p code : Z) :
  1 <= num_cpus <= 8 -> sched_inv num_cpus m -> 0 <= c < num_cpus -> t ∈ used m -> p ∈ used m -> p <> t -> ~ is_idle num_cpus m t -> (t ∉ m_zombies m) ->
  t_parent (m_task m t) = t_pid (m_task m p) -> t_pid (m_task m p) <> 0 -> t_status (m_task m p) <> ZOMBIE ->
  let pid := t_pid (m_task m t) in
  (t_status (m_task m t) <> ZOMBIE -> exists m0, jlos_task_wait_or_reap num_cpus c m pid p = Some (m0, MustWait) /\ waits_for m0 p t = true) /\
  exists m1, exit_mark now m t code = Some m1 /\ sched_inv num_cpus m1 /\ t_status (m_task m1 t) = ZOMBIE /\
    (waits_for m p t = true -> t_status (m_task m1 p) = READY /\ on_rq m1 p = true) /\
    exists m2, jlos_task_wait_or_reap num_cpus c m1 pid p = Some (m2, Reaped pid code) /\ sched_inv num_cpus m2 /\
      if jlos_hal_is_task_in_use num_cpus m1 t then m2 = m1 else (t ∉ used m2) /\ find_pid_locked m2 pid = 0.
Proof.
  intros Hn [P HB] Hc Ht Hp Hne Hi Hz Epar H0 Hpz pid. pose proof (used_addr _ _ _ _ _ _ HB Ht). split.
  - intros Hs. unfold jlos_task_wait_or_reap. cbv zeta. unfold pid. rewrite (find_pid_unique _ _ _ _ _ _ HB Ht), (proj2 (Z.eqb_neq t 0)), Epar, Z.eqb_refl, bool_decide_eq_false_2 by (done || lia).
    eexists. split; [done|]. unfold waits_for. rewrite on_task_eq, on_task_ne by done. simpl. by rewrite Z.eqb_refl.
  - destruct (exit_child_spec num_cpus Hn _ now m P t p code HB Ht Hp Hne Hi Hz Epar H0 Hpz) as (m1 & E & HB1 & Hf & Et & Ep). exists m1. split; [done|]. split; [by exists P|]. split; [by rewrite Et|].
    assert (t ∈ used m1 /\ p ∈ used m1) as [Ht1 Hp1] by (by rewrite (fr_used _ _ Hf)). split.
    { intros Ew. rewrite Ew in Ep. split; [by rewrite Ep|]. apply on_rq_spec, (qs_ready _ _ _ _ (sb_queues _ _ _ _ _ HB1)); [done|set_solver|by rewrite Ep]. }
    assert (t_pid (m_task m1 t) = pid /\ t_pid (m_task m1 p) = t_pid (m_task m p)) as [E1 E2] by (rewrite Et, Ep; by destruct (waits_for m p t)).
    unfold jlos_task_wait_or_reap. cbv zeta. rewrite <- E1, (find_pid_unique _ _ _ _ _ _ HB1 Ht1), (proj2 (Z.eqb_neq t 0)), E2 by lia. assert (t_parent (m_task m1 t) = t_pid (m_task m p)) as -> by (by rewrite Et).
    rewrite Z.eqb_refl, bool_decide_eq_true_2 by (by rewrite Et). cbn [negb].
    destruct (reap_spec num_cpus Hn c _ m1 P t HB1 Hc Ht1) as (m2 & P2 & E3 & HB2 & _ & Hr); [by rewrite Et|]. rewrite E3. cbn [mbind option_bind]. exists m2.
    assert (t_exit (m_task m1 t) = code) as -> by (by rewrite Et). split; [done|]. split; [by exists P2|]. destruct (jlos_hal_is_task_in_use _ _ _); [done|]. destruct Hr as [HF Hpid]. split; [|done].
    intros [_ Hx]%(fd_used _ _ _ HF). done.
Qed.

(** ** A machine with two processors

    Idle tasks 10000 and 20000; task 30000 (number 3) runs on processor 0; its child
    40000 (number 4) is blocked. *)
Definition demo_nodes : list Z := [10000; 20000; 30000; 40000].
Definition demo_wheel0 : wheel :=
  Wheel 1000 (list_to_map (map (fun n => (n, LNode n n)) demo_nodes ++ map (fun k => (slot_addr 1000 k, LNode 0 0)) (seqZ 0 512)))
    (list_to_map (map (fun n => (n, 0)) demo_nodes)) 0.
Definition demo_wheel : wheel := default demo_wheel0 (jlos_timer_wheel_init demo_wheel0 0).
Definition demo_task (s : task_status) (pid parent cpu slot : Z) : task :=
  Task s pid parent 0 false 1 0 0 0 0 false false pid 0 2 2 0 slot cpu 0 (replicate 32 0).
Definition demo_on {Q} (w : Q) : mgr Q :=
  Mgr (fun t => if t =? 10000 then demo_task RUNNING 0 0 0 0 else if t =? 20000 then demo_task RUNNING 2 0 1 1
                else if t =? 30000 then demo_task RUNNING 3 0 0 2 else demo_task BLOCKED 4 3 0 3)
    demo_nodes 4 [40000; 30000; 20000; 10000] [] w (fun _ => RunQueue (fun _ => []) (fun _ => 0) 0)
    (fun c => if c =? 0 then 10000 else 20000) (fun c => if c =? 0 then 30000 else 20000) (fun _ => 0) (fun _ => false) 4 [].
Definition demo : mgr wheel := demo_on demo_wheel.

Lemma demo_wheel_nodes : wheel_nodes demo_wheel ∅ /\ forall t, t ∈ demo_nodes -> wheel_node demo_wheel t.
Proof.
  assert (forall x, is_Some (tw_expires demo_wheel0 !! x) <-> x ∈ demo_nodes) as Hn.
  { intros x. unfold demo_wheel0, demo_nodes. simpl. rewrite !lookup_insert_is_Some, lookup_empty. split; [|set_solver].
    intros H. repeat (destruct H as [->|[_ H]]; [set_solver|]). by destruct H. }
  assert (forall x, x ∈ demo_nodes -> dlist (tw_heap demo_wheel0) x [] /\ forall k, is_slot k -> x <> slot_addr (tw_base demo_wheel0) k) as Hnodes.
  { intros x Hx. unfold demo_nodes in Hx. repeat (apply elem_of_cons in Hx as [->|Hx]; [split; [split; [apply NoDup_singleton|by split]|unfold is_slot, slot_addr; simpl; lia]|]). by apply elem_of_nil in Hx. }
  destruct (init_rep demo_wheel0 0) as (w & E & HR & Hj & Hb & He & Hh).
  - intros k Hk. assert (Forall (fun k => is_Some (next_of (tw_heap demo_wheel0) (slot_addr 1000 k))) (seqZ 0 512)) as HF by (apply (bool_decide_unpack _); by vm_compute).
    rewrite Forall_forall in HF. apply HF, elem_of_seqZ. unfold is_slot in Hk. lia.
  - intros x Hx%Hn. by apply Hnodes.
  - unfold is_tick. lia.
  - unfold demo_wheel. rewrite E. simpl. unfold wheel_node. rewrite He. split; [split|intros t Ht; by apply Hn].
    + done.
    + intros n [d Hd]. apply lookup_empty_Some in Hd. destruct Hd.
    + intros n k. unfold wheel_node. rewrite He, Hb. intros Hx%Hn. by apply Hnodes.
Qed.

Lemma demo_on_inv {Q} `{SleepQueue Q} (w : Q) : sq_rep w ∅ -> (forall t, t ∈ demo_nodes -> sq_node w t) -> sched_inv 2 (demo_on w).
Proof.
  intros HW Hnodes. exists ∅. assert (used (demo_on w) = demo_nodes) as Eu by done. assert (forall t, t ∈ demo_nodes -> t = 10000 \/ t = 20000 \/ t = 30000 \/ t = 40000) as Hcase by set_solver.
  split; [split|split|].
  - simpl. lia.
  - rewrite Eu. apply (bool_decide_unpack _). by vm_compute.
  - rewrite Eu. intros [|[|[|[|i]]]] t; intros [= <-]; reflexivity.
  - rewrite Eu. apply (bool_decide_unpack _). by vm_compute.
  - rewrite Eu. apply (bool_decide_unpack _). by vm_compute.
  - constructor.
  - by intros z ?%elem_of_nil.
  - intros c Hc. rewrite Eu. assert (c = 0 \/ c = 1) as [-> | ->] by lia; simpl; split_and!; try done; set_solver.
  - intros c Hc. rewrite Eu. unfold is_idle. assert (c = 0 \/ c = 1) as [-> | ->] by lia; simpl; (split; [set_solver|]); [|done].
    intros (c' & Hc' & E). assert (c' = 0 \/ c' = 1) as [-> | ->] by lia; done.
  - rewrite Eu. split_and!; [exact HW| |exact Hnodes]. intros t [d Hd]. by apply lookup_empty_Some in Hd.
  - intros c Hc. split; simpl; [done|lia|]. intros l Hl. rewrite Z.bits_0. done.
  - by intros c l t _ _ ?%elem_of_nil.
  - intros c l _ _. constructor.
  - rewrite Eu. intros t Ht _. destruct (Hcase t Ht) as [-> | [-> | [-> | ->]]]; done.
  - rewrite Eu. intros t Ht. destruct (Hcase t Ht) as [-> | [-> | [-> | ->]]]; (split; [split; simpl; (done || lia)|lia]).
  - rewrite Eu. intros t Ht _ Hs. destruct (Hcase t Ht) as [-> | [-> | [-> | ->]]]; [left; by exists 0|left; by exists 1|right; exists 0; split; [set_solver|done]|done].
Qed.
Lemma demo_inv : sched_inv 2 demo.
Proof. destruct demo_wheel_nodes. by apply demo_on_inv. Qed.

(** ** Executions that go wrong *)

(** Run sections one after the other; a state that is not reached is the old one. *)
Definition do (o : op) (now : Z) (m : mgr wheel) : mgr wheel := default m (run 2 o now m).
Definition done_ok (o : op) (now : Z) (m : mgr wheel) : bool := match run 2 o now m with Some _ => true | None => false end.
Lemma do_step o now m m' : done_ok o now m = true -> allowed 2 m o -> 0 <= now < 2 ^ 32 -> rtc (sched_step 2) (do o now m) m' -> rtc (sched_step 2) m m'.
Proof.
  intros Hd Ha Hn Hr. eapply rtc_l; [|exact Hr]. apply (sched_do 2 m _ o now Ha Hn). unfold done_ok, do in *. by destruct (run 2 o now m).
Qed.
Ltac sched_run o := apply (do_step o 1); [vm_compute; reflexivity| |lia|].
Ltac sched_busy := split; [lia|vm_compute; discriminate].

(** A task blocks and is woken before it has given up its processor; an idle processor
    takes it from the run queue and runs it: now it runs on two processors. *)
Theorem one_task_two_processors :
  exists m, rtc (sched_step 2) demo m /\ m_cur m 0 = 30000 /\ m_cur m 1 = 30000 /\ t_status (m_task m 30000) = RUNNING.
Proof.
  exists (do (OpSchedule 1) 1 (do (OpWakeup 30000) 1 (do (OpBlock 0) 1 demo))). split; [|vm_compute; split_and!; reflexivity].
  sched_run (OpBlock 0); [split; [sched_busy|vm_compute; discriminate]|].
  sched_run (OpWakeup 30000); [cbn [allowed]; apply (bool_decide_unpack _); vm_compute; reflexivity|].
  sched_run (OpSchedule 1); [cbn [allowed]; lia|]. apply rtc_refl.
Qed.

(** From there both processors give the task up.  Each finds it running, and each puts it
    into the run queue: linking its node the second time corrupts the queue.  A single
    call that runs to its end on one processor before the other starts does not. *)
Definition requeue (now : Z) (m : mgr wheel) (t : Z) : option (mgr wheel) := rq_enqueue (jlos_task_set_ready now (drop_level m t) t) t.
Lemma put_prev_requeue c now (m : mgr wheel) t : bool_decide (t_status (m_task m t) = RUNNING) = true -> t_sleeping (m_task m t) = false -> (t =? m_idle m c) = false -> put_prev c now m t = requeue now m t.
Proof. intros H1 H2 H3. unfold put_prev. cbv zeta. by rewrite H1, H2, H3. Qed.
Theorem interleaved_put_prev :
  exists m, rtc (sched_step 2) demo m /\ m_cur m 0 = 30000 /\ m_cur m 1 = 30000 /\
    put_prev 0 1 m 30000 = requeue 1 m 30000 /\ put_prev 1 1 m 30000 = requeue 1 m 30000 /\
    (exists m1, requeue 1 m 30000 = Some m1 /\ requeue 1 m1 30000 = None /\ exists m2, jlos_task_manager_schedule 2 1 1 m1 = Some m2).
Proof.
  exists (do (OpSchedule 1) 1 (do (OpWakeup 30000) 1 (do (OpBlock 0) 1 demo))). split.
  { sched_run (OpBlock 0); [split; [sched_busy|vm_compute; discriminate]|].
    sched_run (OpWakeup 30000); [cbn [allowed]; apply (bool_decide_unpack _); vm_compute; reflexivity|].
    sched_run (OpSchedule 1); [cbn [allowed]; lia|]. apply rtc_refl. }
  set (m := do _ _ _). do 2 (split; [vm_compute; reflexivity|]). do 2 (split; [apply put_prev_requeue; vm_compute; reflexivity|]). unfold m. set (r := requeue 1 _ 30000). assert (match r with Some m1 => match requeue 1 m1 30000, jlos_task_manager_schedule 2 1 1 m1 with None, Some _ => True | _, _ => False end | None => False end) as Hr by (vm_compute; exact I).
  destruct r as [m1|]; [|done]. exists m1. split; [done|]. destruct (requeue 1 m1 30000); [done|]. split; [done|]. destruct (jlos_task_manager_schedule 2 1 1 m1) as [m2|]; [by exists m2|done].
Qed.

(** A timer interrupt between the two sections of [jlos_task_sleep_until] gives the
    processor away: the task is blocked and sleeps, but is not in the sleep wheel, so no
    tick wakes it. *)
Theorem sleep_interrupted :
  exists m, rtc (sched_step 2) demo m /\ m_cur m 0 <> 30000 /\ t_status (m_task m 30000) = BLOCKED /\ on_rq m 30000 = false /\
    tw_heap (m_wheel m) !! 30000 = Some (LNode 30000 30000).
Proof.
  exists (do (OpTick 0) 1 (do (OpSleepMark 0) 1 demo)). split; [|vm_compute; split_and!; (discriminate || reflexivity)].
  sched_run (OpSleepMark 0); [split; [sched_busy|vm_compute; discriminate]|].
  sched_run (OpTick 0); [cbn [allowed]; lia|]. apply rtc_refl.
Qed.

(** The same in [jlos_task_do_exit], which marks the task before it calls
    [jlos_process_exit]: the parent, task 30000, that waits for its child 40000 is never
    woken, and the zombie is in no list. *)
Theorem exit_interrupted :
  exists m, rtc (sched_step 2) demo m /\ t_status (m_task m 40000) = ZOMBIE /\ (forall c, 0 <= c < 2 -> m_cur m c <> 40000) /\
    waits_for m 30000 40000 = true /\ on_rq m 30000 = false /\ m_zombies m = [].
Proof.
  exists (do (OpTick 0) 1 (do (OpDoExit 0) 1 (do (OpSchedule 0) 1 (do (OpWakeup 40000) 1 (do (OpWait 0 4) 1 demo))))). split.
  - sched_run (OpWait 0 4); [split; [sched_busy|vm_compute; reflexivity]|].
    sched_run (OpWakeup 40000); [cbn [allowed]; apply (bool_decide_unpack _); vm_compute; reflexivity|].
    sched_run (OpSchedule 0); [cbn [allowed]; lia|].
    sched_run (OpDoExit 0); [cbn [allowed]; sched_busy|].
    sched_run (OpTick 0); [cbn [allowed]; lia|]. apply rtc_refl.
  - split; [vm_compute; reflexivity|]. split; [|vm_compute; split_and!; reflexivity].
    intros c Hc. assert (c = 0 \/ c = 1) as [-> | ->] by lia; vm_compute; discriminate.
Qed.

(** ** Witnesses *)

Lemma scheduler_invariant_witness : find_pid_locked (do (OpBlock 0) 1 demo) 3 = 30000.
Proof.
  assert (rtc (sched_step 2) demo (do (OpBlock 0) 1 demo)) as Hs by (sched_run (OpBlock 0); [split; [sched_busy|vm_compute; discriminate]|apply rtc_refl]).
  destruct (scheduler_invariant 2 demo (do (OpBlock 0) 1 demo) ltac:(lia) demo_inv Hs) as (_ & _ & _ & _ & _ & Hp).
  apply (Hp 30000). apply (bool_decide_unpack _). vm_compute. reflexivity.
Defined.
(** The parent 30000 waits and the child 40000 runs. *)
Definition demo_waiting : mgr wheel := do (OpSchedule 0) 1 (do (OpWakeup 40000) 1 (do (OpWait 0 4) 1 demo)).
Lemma do_inv o now m : sched_inv 2 m -> allowed 2 m o -> 0 <= now < 2 ^ 32 -> sched_inv 2 (do o now m).
Proof. intros HI Ho Hn. destruct (run_spec 2 ltac:(lia) o now m HI Ho Hn) as (m' & E & HI'). unfold do. by rewrite E. Qed.
Lemma demo_waiting_inv : sched_inv 2 demo_waiting.
Proof.
  apply do_inv; [|cbn [allowed]; lia|lia]. apply do_inv; [|cbn [allowed]; apply (bool_decide_unpack _); vm_compute; reflexivity|lia].
  apply do_inv; [exact demo_inv| |lia]. split; [sched_busy|vm_compute; reflexivity].
Qed.
Lemma exit_wait_handshake_witness : m_cur demo_waiting 0 = 40000 /\ exists m1 m2, exit_mark 7 demo_waiting 40000 9 = Some m1 /\ t_status (m_task m1 30000) = READY /\ jlos_task_wait_or_reap 2 0 m1 4 30000 = Some (m2, Reaped 4 9).
Proof.
  split; [vm_compute; reflexivity|].
  destruct (exit_wait_handshake 2 0 7 demo_waiting 40000 30000 9 ltac:(lia) demo_waiting_inv ltac:(lia)) as (_ & m1 & E1 & _ & _ & Hw & m2 & E2 & _).
  - apply (bool_decide_unpack _). vm_compute. reflexivity.
  - apply (bool_decide_unpack _). vm_compute. reflexivity.
  - lia.
  - intros (c & Hc & E). assert (c = 0 \/ c = 1) as [-> | ->] by lia; vm_compute in E; discriminate E.
  - apply (bool_decide_unpack _). vm_compute. reflexivity.
  - vm_compute. reflexivity.
  - vm_compute. discriminate.
  - vm_compute. discriminate.
  - exists m1, m2. split; [exact E1|]. split; [apply Hw; vm_compute; reflexivity|]. exact E2.
Defined.
