(* ===== verification/Bytes.v ===== *)
(** * Bytes in memory

    Memory is a list of bytes; multi-byte accesses are little-endian, as on every
    architecture the kernel supports, and an access outside is [None].  Also:
    computations in [option] that return. *)
From S2P Require Import Prelude.

(** ** Bytes of a word in memory *)

Definition le16 (a b : Z) : Z := a + 256 * b.
Definition le32 (a b c d : Z) : Z := a + 256 * (b + 256 * (c + 256 * d)).
Definition byte_of (x : Z) (k : Z) : Z := (x `div` 2 ^ (8 * k)) `mod` 256.
Definition bytes16 (x : Z) : list Z := [byte_of x 0; byte_of x 1].
Definition bytes32 (x : Z) : list Z := [byte_of x 0; byte_of x 1; byte_of x 2; byte_of x 3].
(** A list of bytes. *)
Definition bytes (l : list Z) : Prop := Forall (fun x => 0 <= x < 256) l.

Definition rd8 (m : list Z) (o : Z) : option Z := geti m o.
Definition rd16 (m : list Z) (o : Z) : option Z := a ← geti m o; b ← geti m (o + 1); Some (le16 a b).
Definition rd32 (m : list Z) (o : Z) : option Z :=
  a ← geti m o; b ← geti m (o + 1); c ← geti m (o + 2); d ← geti m (o + 3); Some (le32 a b c d).
Definition wr8 (m : list Z) (o v : Z) : option (list Z) := seti m o (u8 v).
Definition wr16 (m : list Z) (o v : Z) : option (list Z) := write_run m o (bytes16 v).
Definition wr32 (m : list Z) (o v : Z) : option (list Z) := write_run m o (bytes32 v).

(** ** Computations that return *)

Lemma bind_step {A B} (m : option A) (f : A -> option B) x r : m = Some x -> f x = r -> (m ≫= f) = r.
Proof. by intros -> H. Qed.
(** A computation that returns, with a result that satisfies [P]. *)
Definition returns {A} (m : option A) (P : A -> Prop) : Prop := exists a, m = Some a /\ P a.
Lemma returns_bind {A B} (m : option A) (f : A -> option B) (Q : A -> Prop) (P : B -> Prop) :
  returns m Q -> (forall a, Q a -> returns (f a) P) -> returns (m ≫= f) P.
Proof. intros (a & -> & H) K. exact (K a H). Qed.
Lemma returns_step {A B} (m : option A) (f : A -> option B) x (P : B -> Prop) : m = Some x -> returns (f x) P -> returns (m ≫= f) P.
Proof. by intros -> H. Qed.
Lemma returns_ret {A} (x : A) (P : A -> Prop) : P x -> returns (Some x) P.
Proof. intros. by exists x. Qed.
Lemma returns_mono {A} (m : option A) (P Q : A -> Prop) : returns m P -> (forall a, P a -> Q a) -> returns m Q.
Proof. intros (a & E & H) K. exists a. auto. Qed.

Ltac bind H := first [refine (bind_step _ _ _ _ H _) | refine (returns_step _ _ _ _ H _)]; cbv beta zeta.
Lemma bind_assoc {A B C} (m : option A) (f : A -> option B) (g : B -> option C) : ((m ≫= f) ≫= g) = (m ≫= fun x => f x ≫= g).
Proof. by destruct m. Qed.

(** ** Access to a list in pieces *)

Lemma write_run_app {A} (l1 old new l2 : list A) o : length old = length new -> o = zlen l1 ->
  write_run (l1 ++ old ++ l2) o new = Some (l1 ++ new ++ l2).
Proof.
  intros Hl ->. rewrite write_run_Some by (rewrite ?length_app; lia). f_equal. rewrite Nat2Z.id.
  rewrite <- (Nat.add_0_r (length l1)), list_inserts_app_r. f_equal. by apply list_inserts_0_r.
Qed.
Lemma read_run_app {A} (l1 l l2 : list A) o n : o = zlen l1 -> n = zlen l -> read_run (l1 ++ l ++ l2) o n = Some l.
Proof.
  intros -> ->. rewrite read_run_Some by (rewrite ?length_app; lia). f_equal.
  rewrite !Nat2Z.id, drop_app_length, take_app_length. done.
Qed.
Lemma geti_app_r {A} (l1 l2 : list A) i j : j = i - zlen l1 -> 0 <= j -> geti (l1 ++ l2) i = geti l2 j.
Proof.
  intros -> Hj. unfold geti. zcases; try lia. rewrite lookup_app_r by lia. f_equal. lia.
Qed.

Lemma read_run_tail {A} (l1 l : list A) o n : o = zlen l1 -> n = zlen l -> read_run (l1 ++ l) o n = Some l.
Proof. intros Ho Hn. rewrite <- (app_nil_r l) at 1. by apply read_run_app. Qed.
Lemma read_run_all {A} (l : list A) n : n = zlen l -> read_run l 0 n = Some l.
Proof. intros ->. rewrite <- (app_nil_r l) at 1. by apply (read_run_app [] l []). Qed.

(** ** Words and their bytes *)

Lemma le16_bytes x : 0 <= x < 2 ^ 16 -> le16 (byte_of x 0) (byte_of x 1) = x.
Proof. intros Hx. unfold le16, byte_of. change (2 ^ (8 * 0)) with 1. change (2 ^ (8 * 1)) with 256. zmod. Qed.
Lemma le32_bytes x : 0 <= x < 2 ^ 32 -> le32 (byte_of x 0) (byte_of x 1) (byte_of x 2) (byte_of x 3) = x.
Proof.
  intros Hx. unfold le32, byte_of. change (2 ^ (8 * 0)) with 1. change (2 ^ (8 * 1)) with 256.
  change (2 ^ (8 * 2)) with 65536. change (2 ^ (8 * 3)) with 16777216. zmod.
Qed.
Lemma byte_of_range x k : 0 <= byte_of x k < 256.
Proof. unfold byte_of. apply Z.mod_pos_bound. lia. Qed.
Lemma bytes16_bytes x : bytes (bytes16 x).
Proof. repeat constructor; apply byte_of_range. Qed.
Lemma bytes32_bytes x : bytes (bytes32 x).
Proof. repeat constructor; apply byte_of_range. Qed.

(** A byte field of a word, in place. *)
Lemma land_field x k : 0 <= k -> Z.land x (Z.shiftl 255 k) = Z.shiftl ((x `div` 2 ^ k) `mod` 256) k.
Proof.
  intros Hk. change 256 with (2 ^ 8). rewrite <- land_mask, <- Z.shiftr_div_pow2 by lia. change (2 ^ 8 - 1) with 255.
  apply Z.bits_inj'. intros i Hi. rewrite Z.land_spec. destruct (Z.ltb_spec i k).
  - rewrite !Z.shiftl_spec_low by lia. apply andb_false_r.
  - rewrite !Z.shiftl_spec by lia. rewrite Z.land_spec, Z.shiftr_spec by lia. do 2 f_equal. lia.
Qed.
(** Bit fields that do not overlap add up. *)
Lemma lor_shiftl a b k : 0 <= k -> 0 <= a < 2 ^ k -> Z.lor a (Z.shiftl b k) = a + b * 2 ^ k.
Proof.
  intros Hk Ha. rewrite Z.shiftl_mul_pow2 by lia. pose proof (Z.add_lor_land a (b * 2 ^ k)).
  enough (Z.land a (b * 2 ^ k) = 0) by lia. apply Z.bits_inj'. intros i Hi. rewrite Z.land_spec, Z.bits_0.
  destruct (Z.ltb_spec i k).
  - rewrite Z.mul_pow2_bits_low by lia. apply andb_false_r.
  - rewrite (testbit_above k a i) by lia. done.
Qed.
Lemma rd16_split m o v : rd16 m o = Some v -> exists l1 a b l2, m = l1 ++ a :: b :: l2 /\ zlen l1 = o /\ v = le16 a b.
Proof.
  unfold rd16, geti. destruct (Z.ltb_spec o 0), (Z.ltb_spec (o + 1) 0); try done; try lia.
  destruct (m !! Z.to_nat o) as [a|] eqn:Ea; [|done]. destruct (m !! Z.to_nat (o + 1)) as [b|] eqn:Eb; [|done].
  simpl. intros [= <-]. pose proof (lookup_lt_Some _ _ _ Ea). replace (Z.to_nat (o + 1)) with (S (Z.to_nat o)) in Eb by lia.
  exists (take (Z.to_nat o) m), a, b, (drop (S (S (Z.to_nat o))) m). rewrite length_take. split_and!; [|lia|done].
  rewrite <- (drop_S _ _ _ Eb). symmetry. by apply take_drop_middle.
Qed.

(** ** Access to one piece of a buffer *)

Lemma inserts_app_left {A} (bs old post : list A) i : (i + length bs <= length old)%nat ->
  list_inserts i bs (old ++ post) = list_inserts i bs old ++ post.
Proof.
  revert i. induction bs as [|x bs IH]; intros i Hi; simpl in *; [done|]. rewrite IH by lia.
  apply insert_app_l. rewrite length_inserts. lia.
Qed.
Section pieces.
Context {A : Type} (pre old post : list A).
Lemma write_run_mid o i bs new : o = zlen pre + i -> write_run old i bs = Some new ->
  write_run (pre ++ old ++ post) o bs = Some (pre ++ new ++ post).
Proof.
  intros -> H. unfold write_run in H. destruct (_ && _) eqn:E in H; [|done]. apply andb_true_iff in E as [E1 E2].
  apply Z.leb_le in E1, E2. injection H as <-. rewrite write_run_Some by (rewrite ?length_app; lia). f_equal.
  replace (Z.to_nat (zlen pre + i)) with (length pre + Z.to_nat i)%nat by lia. rewrite list_inserts_app_r. f_equal.
  apply inserts_app_left. lia.
Qed.
Lemma seti_mid o i v new : o = zlen pre + i -> seti old i v = Some new -> seti (pre ++ old ++ post) o v = Some (pre ++ new ++ post).
Proof.
  intros -> H. unfold seti in H. destruct (_ && _) eqn:E in H; [|done]. apply andb_true_iff in E as [E1 E2].
  apply Z.leb_le in E1. apply Z.ltb_lt in E2. injection H as <-. rewrite seti_Some by (rewrite ?length_app; lia). f_equal.
  replace (Z.to_nat (zlen pre + i)) with (length pre + Z.to_nat i)%nat by lia. rewrite insert_app_r. f_equal.
  apply insert_app_l. lia.
Qed.
Lemma geti_mid o i v : o = zlen pre + i -> geti old i = Some v -> geti (pre ++ old ++ post) o = Some v.
Proof.
  intros -> H. unfold geti in *. destruct (Z.ltb_spec i 0); [done|]. destruct (Z.ltb_spec (zlen pre + i) 0); [lia|].
  rewrite lookup_app_r by lia. apply lookup_app_l_Some. rewrite <- H. f_equal. lia.
Qed.
Lemma read_run_mid o i n bs : o = zlen pre + i -> read_run old i n = Some bs -> read_run (pre ++ old ++ post) o n = Some bs.
Proof.
  intros -> H. unfold read_run in H. destruct (_ && _ && _) eqn:E in H; [|done]. apply andb_true_iff in E as [[E0 E1]%andb_true_iff E2].
  apply Z.leb_le in E0, E1, E2. injection H as <-. rewrite read_run_Some by (rewrite ?length_app; lia). f_equal.
  replace (Z.to_nat (zlen pre + i)) with (length pre + Z.to_nat i)%nat by lia.
  rewrite drop_app_add. rewrite drop_app_le by lia. rewrite take_app_le; [done|]. rewrite length_drop. lia.
Qed.
End pieces.
Lemma rd16_mid (pre old post : list Z) o i v : o = zlen pre + i -> rd16 old i = Some v -> rd16 (pre ++ old ++ post) o = Some v.
Proof.
  intros -> H. unfold rd16 in *. destruct (geti old i) as [a|] eqn:Ea; [|done]. destruct (geti old (i + 1)) as [b|] eqn:Eb; [|done].
  rewrite (geti_mid pre old post _ i a eq_refl Ea), (geti_mid pre old post (zlen pre + i + 1) (i + 1) b) by (exact Eb || lia). done.
Qed.
Lemma rd32_mid (pre old post : list Z) o i v : o = zlen pre + i -> rd32 old i = Some v -> rd32 (pre ++ old ++ post) o = Some v.
Proof.
  intros -> H. unfold rd32 in *. destruct (geti old i) as [a|] eqn:Ea; [|done]. destruct (geti old (i + 1)) as [b|] eqn:Eb; [|done].
  destruct (geti old (i + 2)) as [c|] eqn:Ec; [|done]. destruct (geti old (i + 3)) as [d|] eqn:Ed; [|done].
  rewrite (geti_mid pre old post _ i a eq_refl Ea), (geti_mid pre old post (zlen pre + i + 1) (i + 1) b) by (exact Eb || lia).
  rewrite (geti_mid pre old post (zlen pre + i + 2) (i + 2) c), (geti_mid pre old post (zlen pre + i + 3) (i + 3) d) by (exact Ec || exact Ed || lia). done.
Qed.
Lemma wr8_mid (pre old post : list Z) o i v new : o = zlen pre + i -> wr8 old i v = Some new ->
  wr8 (pre ++ old ++ post) o v = Some (pre ++ new ++ post).
Proof. apply seti_mid. Qed.
Lemma wr16_mid (pre old post : list Z) o i v new : o = zlen pre + i -> wr16 old i v = Some new ->
  wr16 (pre ++ old ++ post) o v = Some (pre ++ new ++ post).
Proof. apply write_run_mid. Qed.
Lemma wr32_mid (pre old post : list Z) o i v new : o = zlen pre + i -> wr32 old i v = Some new ->
  wr32 (pre ++ old ++ post) o v = Some (pre ++ new ++ post).
Proof. apply write_run_mid. Qed.

(** A buffer of known length, byte by byte. *)
Ltac split_bytes l H :=
  match type of H with
  | length l = O => destruct l; [clear H|discriminate H]
  | length l = S ?n => let x := fresh "x" in destruct l as [|x l]; [discriminate H|injection H as H]; split_bytes l H
  end.

(** ** Accesses within a buffer *)

Section bytes.
Context (m : list Z) (Hm : bytes m).
Lemma rd8_in o : 0 <= o < zlen m -> exists v, rd8 m o = Some v /\ 0 <= v < 256.
Proof.
  intros Ho. destruct (geti_Some m o Ho) as (v & E & Hv). exists v. split; [done|].
  apply list_elem_of_lookup_2 in Hv. unfold bytes in Hm. rewrite Forall_forall in Hm. by apply Hm.
Qed.
Lemma rd16_in o : 0 <= o -> o + 2 <= zlen m -> exists v, rd16 m o = Some v /\ 0 <= v < 2 ^ 16.
Proof.
  intros H1 H2. destruct (rd8_in o) as (a & E & Ha); [lia|]. destruct (rd8_in (o + 1)) as (b & E' & Hb); [lia|].
  unfold rd8 in *. unfold rd16. rewrite E, E'. simpl. eexists. split; [done|]. unfold le16. lia.
Qed.
Lemma rd32_in o : 0 <= o -> o + 4 <= zlen m -> exists v, rd32 m o = Some v /\ 0 <= v < 2 ^ 32.
Proof.
  intros H1 H2. destruct (rd8_in o) as (a & Ea & Ha); [lia|]. destruct (rd8_in (o + 1)) as (b & Eb & Hb); [lia|].
  destruct (rd8_in (o + 2)) as (c & Ec & Hc); [lia|]. destruct (rd8_in (o + 3)) as (d & Ed & Hd); [lia|].
  unfold rd8 in *. unfold rd32. rewrite Ea, Eb, Ec, Ed. simpl. eexists. split; [done|]. unfold le32. lia.
Qed.
End bytes.
(** Writes that keep bytes bytes. *)
Definition like (m m' : list Z) : Prop := length m' = length m /\ bytes m'.
Lemma write_run_in m o l : bytes m -> bytes l -> 0 <= o -> o + zlen l <= zlen m -> returns (write_run m o l) (like m).
Proof.
  intros Hm Hl H1 H2. rewrite write_run_Some by done. apply returns_ret. split; [apply length_inserts|].
  revert Hl Hm. generalize (Z.to_nat o). clear. induction l as [|x l IH]; intros i Hl Hm; [done|]. simpl.
  apply Forall_cons in Hl as [Hx Hl]. apply Forall_insert; [by apply IH|done].
Qed.
Lemma wr8_in m o v : bytes m -> 0 <= o < zlen m -> returns (wr8 m o v) (like m).
Proof.
  intros Hm Ho. unfold wr8. rewrite seti_Some by done. apply returns_ret. split; [apply length_insert|].
  apply Forall_insert; [done|]. apply u8_range.
Qed.
Lemma wr16_in m o v : bytes m -> 0 <= o -> o + 2 <= zlen m -> returns (wr16 m o v) (like m).
Proof. intros. apply write_run_in; [done|apply bytes16_bytes|done|done]. Qed.
Lemma wr32_in m o v : bytes m -> 0 <= o -> o + 4 <= zlen m -> returns (wr32 m o v) (like m).
Proof. intros. apply write_run_in; [done|apply bytes32_bytes|done|done]. Qed.

(** ** Reading after writing *)

Lemma geti_write_run_out {A} (m m' bs : list A) o i : write_run m o bs = Some m' -> i < o \/ o + zlen bs <= i -> geti m' i = geti m i.
Proof.
  intros H Hi. unfold write_run in H. destruct (_ && _) eqn:E in H; [|done]. apply andb_true_iff in E as [E1 E2].
  apply Z.leb_le in E1, E2. injection H as <-. unfold geti. destruct (Z.ltb_spec i 0); [done|]. apply lookup_inserts_out. lia.
Qed.
Lemma length_write_run {A} (m m' bs : list A) o : write_run m o bs = Some m' -> length m' = length m.
Proof. intros H. unfold write_run in H. destruct (_ && _) in H; [|done]. injection H as <-. apply length_inserts. Qed.
Lemma rd32_ext m m' o : (forall i, o <= i < o + 4 -> geti m' i = geti m i) -> rd32 m' o = rd32 m o.
Proof. intros H. unfold rd32. by rewrite !H by lia. Qed.
Lemma geti_write_run_in {A} (m m' bs : list A) o k : write_run m o bs = Some m' -> (k < length bs)%nat -> geti m' (o + Z.of_nat k) = bs !! k.
Proof.
  intros H Hk. unfold write_run in H. destruct (_ && _) eqn:E in H; [|done]. apply andb_true_iff in E as [E1 E2].
  apply Z.leb_le in E1, E2. injection H as <-. unfold geti. destruct (Z.ltb_spec (o + Z.of_nat k) 0); [lia|].
  replace (Z.to_nat (o + Z.of_nat k)) with (Z.to_nat o + k)%nat by lia. rewrite lookup_inserts_in by lia. f_equal. lia.
Qed.
Lemma rd32_wr32 m m' o v : wr32 m o v = Some m' -> 0 <= v < 2 ^ 32 -> rd32 m' o = Some v.
Proof.
  intros H Hv. pose proof (geti_write_run_in _ _ _ _ 0 H ltac:(simpl; lia)) as K0. pose proof (geti_write_run_in _ _ _ _ 1 H ltac:(simpl; lia)) as K1.
  pose proof (geti_write_run_in _ _ _ _ 2 H ltac:(simpl; lia)) as K2. pose proof (geti_write_run_in _ _ _ _ 3 H ltac:(simpl; lia)) as K3.
  change (Z.of_nat 0) with 0 in K0. change (Z.of_nat 1) with 1 in K1. change (Z.of_nat 2) with 2 in K2. change (Z.of_nat 3) with 3 in K3.
  rewrite Z.add_0_r in K0. unfold rd32. rewrite K0, K1, K2, K3. cbn [bytes32 lookup list_lookup mbind option_bind]. f_equal. by apply le32_bytes.
Qed.
