(* ===== verification/NetBuf.v ===== *)
(** * Socket buffers and the Internet checksum ([net/skbuff.c], [net/ipv4.c])

    A socket buffer is its memory, a list of bytes, with the offsets of [data] and
    [tail] in it ([head] is offset 0 and [end] the length).  The offsets are plain
    integers: [push], [pull] and [put] move them without any check, as in the
    source, and an access outside the memory is [None].  Multi-byte accesses are
    little-endian, as on every architecture the kernel supports.

    Which allocations succeed ([mem_ok], by the number of the attempt) and what
    fresh memory holds ([junk]) are parameters. *)
From S2P Require Import Prelude Bytes.

(** [JLOS_SWAP_ENDIAN_16], [JLOS_SWAP_ENDIAN_32] *)
Definition JLOS_SWAP_ENDIAN_16 (x : Z) : Z :=
  Z.lor (Z.shiftl (Z.land x 0x00FF) 8) (Z.shiftr (Z.land x 0xFF00) 8).
Definition JLOS_SWAP_ENDIAN_32 (x : Z) : Z :=
  Z.lor (Z.lor (Z.lor (Z.shiftr (Z.land x 0xFF000000) 24) (Z.shiftr (Z.land x 0x00FF0000) 8))
    (Z.shiftl (Z.land x 0x0000FF00) 8)) (Z.shiftl (Z.land x 0x000000FF) 24).

(** ** Socket buffers *)

Definition JLOS_NET_SKB_DATA_THRESH : Z := 2048.
Definition JLOS_NET_SKB_DATA_KALLOC : Z := 0.
Definition JLOS_NET_SKB_DATA_PAGES : Z := 1.
Definition JLOS_NET_SKB_LAYER_NONE : Z := 0.
Definition JLOS_PAGE_SIZE : Z := 4096.

(** [jlos_net_sk_buff_t]; the list node is used by no code. *)
Record skb := Skb {
  s_mem : list Z; s_data : Z; s_tail : Z; data_len : Z; data_flags : Z; data_pages : Z;
  src_ip : Z; dst_ip : Z; src_port : Z; dst_port : Z; protocol : Z; layer : Z; refcount : Z }.

Definition with_mem (b : skb) (m : list Z) : skb :=
  Skb m (s_data b) (s_tail b) (data_len b) (data_flags b) (data_pages b) (src_ip b) (dst_ip b) (src_port b) (dst_port b)
    (protocol b) (layer b) (refcount b).
Definition with_window (b : skb) (d t : Z) : skb :=
  Skb (s_mem b) d t (data_len b) (data_flags b) (data_pages b) (src_ip b) (dst_ip b) (src_port b) (dst_port b)
    (protocol b) (layer b) (refcount b).
Definition with_addr (b : skb) (s d p : Z) : skb :=
  Skb (s_mem b) (s_data b) (s_tail b) (data_len b) (data_flags b) (data_pages b) s d (src_port b) (dst_port b)
    p (layer b) (refcount b).
Definition with_refcount (b : skb) (r : Z) : skb :=
  Skb (s_mem b) (s_data b) (s_tail b) (data_len b) (data_flags b) (data_pages b) (src_ip b) (dst_ip b) (src_port b) (dst_port b)
    (protocol b) (layer b) r.

Definition jlos_net_skb_len (b : skb) : Z := u32 (s_tail b - s_data b).
Definition jlos_net_skb_headroom (b : skb) : Z := u32 (s_data b).
Definition jlos_net_skb_tailroom (b : skb) : Z := u32 (zlen (s_mem b) - s_tail b).
Definition jlos_net_skb_reserve (b : skb) (len : Z) : skb := with_window b (s_data b + len) (s_tail b + len).
Definition jlos_net_skb_push (b : skb) (len : Z) : skb := with_window b (s_data b - len) (s_tail b).
Definition jlos_net_skb_pull (b : skb) (len : Z) : skb := with_window b (s_data b + len) (s_tail b).
(** The old tail, where the caller writes, and the buffer. *)
Definition jlos_net_skb_put (b : skb) (len : Z) : Z * skb := (s_tail b, with_window b (s_data b) (s_tail b + len)).

(** The live buffers, the number of allocation attempts so far, and the data
    buffers and page frames in use. *)
Record pool := Pool { skbs : gmap Z skb; next_id : Z; attempts : nat; kbufs : Z; frames : Z }.

Section pool.
Context (mem_ok : nat -> bool) (junk : Z -> Z -> Z).

(** One attempt to allocate. *)
Definition attempt (p : pool) : bool * pool :=
  (mem_ok (attempts p), Pool (skbs p) (next_id p) (S (attempts p)) (kbufs p) (frames p)).

(** Whether the memory was obtained, the flags and the pages. *)
Definition jlos_net_skb_data_alloc (p : pool) (size : Z) : bool * Z * Z * pool :=
  if size <=? JLOS_NET_SKB_DATA_THRESH then
    let '(ok, p) := attempt p in
    (ok, JLOS_NET_SKB_DATA_KALLOC, 0,
      if ok then Pool (skbs p) (next_id p) (attempts p) (kbufs p + 1) (frames p) else p)
  else
    let npages := u32 (size + JLOS_PAGE_SIZE - 1) `div` JLOS_PAGE_SIZE in
    let '(ok, p) := attempt p in
    (ok, JLOS_NET_SKB_DATA_PAGES, u8 npages,
      if ok then Pool (skbs p) (next_id p) (attempts p) (kbufs p) (frames p + npages) else p).
Definition jlos_net_skb_data_free (p : pool) (flags pages : Z) : pool :=
  if flags =? JLOS_NET_SKB_DATA_KALLOC then Pool (skbs p) (next_id p) (attempts p) (kbufs p - 1) (frames p)
  else Pool (skbs p) (next_id p) (attempts p) (kbufs p) (frames p - pages).

Definition fresh_mem (id size : Z) : list Z := map (fun i => u8 (junk id i)) (seqZ 0 size).

Definition jlos_net_skb_alloc (p : pool) (size : Z) : option Z * pool :=
  let '(ok, p) := attempt p in
  if negb ok then (None, p) else
  let '(ok, flags, pages, p) := jlos_net_skb_data_alloc p size in
  if negb ok then (None, p) else
  let id := next_id p in
  let b := Skb (fresh_mem id size) 0 0 size flags pages 0 0 0 0 0 JLOS_NET_SKB_LAYER_NONE 1 in
  (Some id, Pool (<[id := b]> (skbs p)) (id + 1) (attempts p) (kbufs p) (frames p)).
End pool.

(** [None]: the buffer is not live. *)
Definition jlos_net_skb_free (p : pool) (id : Z) : option pool :=
  b ← skbs p !! id;
  let r := refcount b - 1 in
  if 0 <? r then Some (Pool (<[id := with_refcount b r]> (skbs p)) (next_id p) (attempts p) (kbufs p) (frames p))
  else
    let p := jlos_net_skb_data_free p (data_flags b) (data_pages b) in
    Some (Pool (delete id (skbs p)) (next_id p) (attempts p) (kbufs p) (frames p)).
Definition jlos_net_skb_get (p : pool) (id : Z) : option pool :=
  b ← skbs p !! id;
  Some (Pool (<[id := with_refcount b (refcount b + 1)]> (skbs p)) (next_id p) (attempts p) (kbufs p) (frames p)).

(** ** The Internet checksum *)

(** [csum_partial] over the bytes at [data]. *)
Fixpoint jlos_internet_protocol_provider_csum_partial (data : list Z) (csum : Z) : Z :=
  match data with
  | a :: b :: data => jlos_internet_protocol_provider_csum_partial data (u32 (csum + JLOS_SWAP_ENDIAN_16 (le16 a b)))
  | [a] => u32 (csum + Z.shiftl a 8)
  | [] => csum
  end.
(** The loop of [csum_fold]: every round takes the sum closer to 16 bits. *)
Fixpoint fold_loop (fuel : nat) (csum : Z) : option Z :=
  if Z.shiftr csum 16 =? 0 then Some csum
  else match fuel with
  | O => None
  | S fuel => fold_loop fuel (u32 (Z.land csum 0xFFFF + Z.shiftr csum 16))
  end.
Definition jlos_internet_protocol_provider_csum_fold (csum : Z) : option Z :=
  csum ← fold_loop 3 csum; Some (JLOS_SWAP_ENDIAN_16 (not32 csum)).

(** ** Words and their bytes *)

Lemma swap16_concat hi lo : 0 <= hi < 256 -> 0 <= lo < 256 -> JLOS_SWAP_ENDIAN_16 (lo + 256 * hi) = hi + 256 * lo.
Proof.
  intros Hh Hl. unfold JLOS_SWAP_ENDIAN_16. change 0xFF00 with (Z.shiftl (2 ^ 8 - 1) 8). change 0x00FF with (2 ^ 8 - 1).
  rewrite land_mask by lia. rewrite Z.shiftr_land, Z.shiftr_shiftl_l by lia. change (8 - 8) with 0.
  rewrite Z.shiftl_0_r, land_mask by lia. rewrite Z.shiftr_div_pow2, Z.shiftl_mul_pow2 by lia. change (2 ^ 8) with 256.
  replace ((lo + 256 * hi) `mod` 256) with lo by zmod. replace ((lo + 256 * hi) `div` 256) with hi by zmod.
  rewrite (Z.mod_small hi) by lia. rewrite Z.lor_comm. pose proof (Z.add_lor_land hi (lo * 256)).
  enough (Z.land hi (lo * 256) = 0) by lia. apply Z.bits_inj'. intros i Hi. rewrite Z.land_spec, Z.bits_0.
  destruct (Z.ltb_spec i 8).
  - change 256 with (2 ^ 8). rewrite Z.mul_pow2_bits_low by lia. apply andb_false_r.
  - rewrite (testbit_above 8 hi i) by lia. done.
Qed.
Lemma swap16_le16 a b : 0 <= a < 256 -> 0 <= b < 256 -> JLOS_SWAP_ENDIAN_16 (le16 a b) = 256 * a + b.
Proof. intros. unfold le16. rewrite swap16_concat by done. lia. Qed.
Lemma swap16_swap16 x : 0 <= x < 2 ^ 16 -> JLOS_SWAP_ENDIAN_16 (JLOS_SWAP_ENDIAN_16 x) = x.
Proof.
  intros Hx. replace x with (x `mod` 256 + 256 * (x `div` 256)) at 1 by zmod.
  rewrite swap16_concat by zmod. rewrite swap16_concat by zmod. zmod.
Qed.
Lemma swap16_range x : 0 <= x < 2 ^ 16 -> 0 <= JLOS_SWAP_ENDIAN_16 x < 2 ^ 16.
Proof.
  intros Hx. replace x with (x `mod` 256 + 256 * (x `div` 256)) by zmod. rewrite swap16_concat by zmod. zmod.
Qed.
(** Only the low half word matters. *)
Lemma swap16_u16 x : JLOS_SWAP_ENDIAN_16 (u16 x) = JLOS_SWAP_ENDIAN_16 x.
Proof.
  unfold JLOS_SWAP_ENDIAN_16, u16, wrap. rewrite <- !Z.land_ones by lia. change (Z.ones 16) with 0xFFFF.
  rewrite <- !Z.land_assoc. done.
Qed.
Lemma swap16_bytes x : 0 <= x < 2 ^ 16 -> bytes16 (JLOS_SWAP_ENDIAN_16 x) = [x `div` 256; x `mod` 256].
Proof.
  intros Hx. replace x with (x `mod` 256 + 256 * (x `div` 256)) at 1 by zmod. rewrite swap16_concat by zmod.
  unfold bytes16, byte_of. change (2 ^ (8 * 0)) with 1. change (2 ^ (8 * 1)) with 256. f_equal; [zmod|f_equal; zmod].
Qed.
(** [JLOS_SWAP_ENDIAN_32] reverses the bytes. *)
Lemma swap32_concat a b c d : 0 <= a < 256 -> 0 <= b < 256 -> 0 <= c < 256 -> 0 <= d < 256 ->
  JLOS_SWAP_ENDIAN_32 (le32 a b c d) = le32 d c b a.
Proof.
  intros Ha Hb Hc Hd. unfold JLOS_SWAP_ENDIAN_32. set (x := le32 a b c d).
  change 0xFF000000 with (Z.shiftl 255 24). change 0x00FF0000 with (Z.shiftl 255 16).
  change 0x0000FF00 with (Z.shiftl 255 8). change 0x000000FF with (Z.shiftl 255 0). rewrite !land_field by lia.
  assert ((x `div` 2 ^ 24) `mod` 256 = d) as -> by (unfold x, le32; zmod).
  assert ((x `div` 2 ^ 16) `mod` 256 = c) as -> by (unfold x, le32; zmod).
  assert ((x `div` 2 ^ 8) `mod` 256 = b) as -> by (unfold x, le32; zmod).
  assert ((x `div` 2 ^ 0) `mod` 256 = a) as -> by (unfold x, le32; change (2 ^ 0) with 1; zmod).
  rewrite !Z.shiftr_shiftl_l, !Z.shiftl_shiftl by lia. change (24 - 24) with 0. change (16 - 8) with 8.
  change (8 + 8) with 16. change (0 + 24) with 24.
  rewrite Z.shiftl_0_r, (lor_shiftl d c 8), (lor_shiftl _ b 16), (lor_shiftl _ a 24) by lia. unfold le32. lia.
Qed.
Lemma swap32_swap32 x : 0 <= x < 2 ^ 32 -> JLOS_SWAP_ENDIAN_32 (JLOS_SWAP_ENDIAN_32 x) = x.
Proof.
  intros Hx. rewrite <- (le32_bytes x Hx). pose proof (byte_of_range x).
  by rewrite !swap32_concat by auto.
Qed.
Lemma swap32_range x : 0 <= x < 2 ^ 32 -> 0 <= JLOS_SWAP_ENDIAN_32 x < 2 ^ 32.
Proof.
  intros Hx. rewrite <- (le32_bytes x Hx). pose proof (byte_of_range x) as Hb. rewrite swap32_concat by auto.
  pose proof (Hb 0). pose proof (Hb 1). pose proof (Hb 2). pose proof (Hb 3). unfold le32. lia.
Qed.

(** ** The checksum *)

(** The sum of the big-endian words. *)
Fixpoint wsum (l : list Z) : Z :=
  match l with
  | a :: b :: l => 256 * a + b + wsum l
  | [a] => 256 * a
  | [] => 0
  end.
(** Induction in steps of two. *)
Lemma list_ind2 {A} (P : list A -> Prop) :
  P [] -> (forall a, P [a]) -> (forall a b l, P l -> P (a :: b :: l)) -> forall l, P l.
Proof.
  intros H0 H1 H2 l. enough (P l /\ forall a, P (a :: l)) by tauto. induction l as [|x l [IH1 IH2]]; auto.
Qed.

Lemma csum_partial_wsum l : forall c, bytes l -> 0 <= c < 2 ^ 32 ->
  jlos_internet_protocol_provider_csum_partial l c = u32 (c + wsum l).
Proof.
  induction l as [|a|a b l IH] using list_ind2; intros c Hl Hc; simpl.
  - rewrite Z.add_0_r, u32_small; done.
  - rewrite Z.shiftl_mul_pow2 by lia. f_equal. lia.
  - apply Forall_cons in Hl as [Ha Hl]. apply Forall_cons in Hl as [Hb Hl].
    rewrite IH by auto with jlos. rewrite swap16_le16 by done. rewrite u32_add_l. f_equal. lia.
Qed.
Lemma wsum_app l1 l2 : Nat.Even (length l1) -> wsum (l1 ++ l2) = wsum l1 + wsum l2.
Proof.
  induction l1 as [|a|a b l IH] using list_ind2; intros He; simpl.
  - done.
  - exfalso. destruct He as [k Hk]. simpl in Hk. lia.
  - rewrite IH; [lia|]. destruct He as [k Hk]. exists (k - 1)%nat. simpl in Hk. lia.
Qed.
Lemma wsum_range l : bytes l -> 0 <= wsum l <= 65535 * ((zlen l + 1) `div` 2).
Proof.
  induction l as [|a|a b l IH] using list_ind2; intros Hl; cbn [wsum length].
  - change ((Z.of_nat 0 + 1) `div` 2) with 0. lia.
  - apply Forall_cons in Hl as [Ha _]. change ((Z.of_nat 1 + 1) `div` 2) with 1. lia.
  - apply Forall_cons in Hl as [Ha Hl]. apply Forall_cons in Hl as [Hb Hl]. specialize (IH Hl). simpl in Ha, Hb.
    replace ((Z.of_nat (S (S (length l))) + 1) `div` 2) with ((zlen l + 1) `div` 2 + 1) by zmod. lia.
Qed.

(** One round keeps the sum modulo [2^16 - 1], and a sum that is not 0 stays so. *)
Lemma fold_round c : 0 <= c < 2 ^ 32 -> let c' := u32 (Z.land c 0xFFFF + Z.shiftr c 16) in
  c' = c `mod` 65536 + c `div` 65536.
Proof.
  intros Hc c'. unfold c'. change 0xFFFF with (2 ^ 16 - 1). rewrite land_mask, Z.shiftr_div_pow2 by lia.
  change (2 ^ 16) with 65536. apply u32_small. zmod.
Qed.
Definition folds_to (c f : Z) : Prop := 0 <= f < 65536 /\ (exists k, c = f + 65535 * k) /\ (f = 0 <-> c = 0).
Lemma folds_to_small c : 0 <= c < 65536 -> folds_to c c.
Proof. intros. split; [lia|]. split; [exists 0; lia|done]. Qed.
Lemma fold_loop_step fuel c : 0 <= c < 2 ^ 32 -> fold_loop (S fuel) c =
  if c <? 65536 then Some c else fold_loop fuel (c `mod` 65536 + c `div` 65536).
Proof.
  intros Hc. cbn [fold_loop]. rewrite (fold_round c Hc). rewrite Z.shiftr_div_pow2 by lia. change (2 ^ 16) with 65536.
  destruct (Z.ltb_spec c 65536).
  - rewrite Z.div_small by lia. done.
  - destruct (Z.eqb_spec (c `div` 65536) 0); [zmod|done].
Qed.
Lemma folds_to_step c f : 0 <= c < 2 ^ 32 -> folds_to (c `mod` 65536 + c `div` 65536) f -> folds_to c f.
Proof.
  intros Hc (Hf & (k & Hk) & H0). split; [done|]. split.
  - exists (k + c `div` 65536). zmod.
  - rewrite H0. zmod.
Qed.
(** The loop of [csum_fold] ends within two rounds. *)
Lemma fold_loop_spec c : 0 <= c < 2 ^ 32 -> exists f, fold_loop 3 c = Some f /\ folds_to c f.
Proof.
  intros Hc. rewrite fold_loop_step by done. destruct (Z.ltb_spec c 65536).
  { exists c. split; [done|]. apply folds_to_small; lia. }
  set (c1 := c `mod` 65536 + c `div` 65536). assert (0 <= c1 <= 0x1FFFE) by (unfold c1; zmod).
  rewrite fold_loop_step by lia. destruct (Z.ltb_spec c1 65536).
  { exists c1. split; [done|]. apply folds_to_step; [done|]. apply folds_to_small; lia. }
  set (c2 := c1 `mod` 65536 + c1 `div` 65536). assert (0 <= c2 < 65536) by (unfold c2; zmod).
  rewrite fold_loop_step by lia. destruct (Z.ltb_spec c2 65536); [|lia].
  exists c2. split; [done|]. apply folds_to_step; [done|]. apply folds_to_step; [lia|]. apply folds_to_small; lia.
Qed.
(** [~csum], in network byte order. *)
Lemma csum_fold_spec c : 0 <= c < 2 ^ 32 -> exists f, folds_to c f /\
  jlos_internet_protocol_provider_csum_fold c = Some (JLOS_SWAP_ENDIAN_16 (65535 - f)).
Proof.
  intros Hc. destruct (fold_loop_spec c Hc) as (f & E & Hf). exists f. split; [done|].
  unfold jlos_internet_protocol_provider_csum_fold. rewrite E. simpl. f_equal. rewrite <- (swap16_u16 (not32 f)). f_equal.
  unfold not32, u32, u16, wrap, Z.lnot. destruct Hf as [Hf _]. zmod.
Qed.
Lemma folds_to_full c : folds_to c 65535 -> jlos_internet_protocol_provider_csum_fold c = Some 0 \/ ~ 0 <= c < 2 ^ 32.
Proof.
  intros Hf. destruct (decide (0 <= c < 2 ^ 32)) as [Hc|]; [left|by right].
  destruct (csum_fold_spec c Hc) as (f & Hf' & ->). enough (f = 65535) as -> by done.
  destruct Hf as (_ & (k & Hk) & Hz), Hf' as (H & (k' & Hk') & H0).
  assert (k' = k \/ k' = k + 1) as [->| ->] by lia; [lia|]. lia.
Qed.

(** C35. A packet with its checksum stored verifies: storing [csum_fold] of the sum over a
    packet (with a pseudo header's sum [init]) in the packet's zeroed checksum field
    makes the checksum of the whole come out as 0, which is what a receiver checks.
    The field lies at an even offset and the packet is short enough for the sum not
    to wrap (128 KiB). *)
Theorem checksum_verifies (pkt : list Z) (k init : Z) : bytes pkt -> zlen pkt <= 131000 -> 0 <= init < 2 ^ 20 ->
  Z.even k = true -> rd16 pkt k = Some 0 ->
  exists c pkt', jlos_internet_protocol_provider_csum_fold (jlos_internet_protocol_provider_csum_partial pkt init) = Some c /\
    wr16 pkt k c = Some pkt' /\ length pkt' = length pkt /\
    jlos_internet_protocol_provider_csum_fold (jlos_internet_protocol_provider_csum_partial pkt' init) = Some 0.
Proof.
  intros Hb Hlen Hi Hk Hr.
  destruct (rd16_split _ _ _ Hr) as (l1 & a & b & l2 & -> & Hl1 & E).
  pose proof Hb as (Hb1 & Hb2)%Forall_app. apply Forall_cons in Hb2 as [Ha Hb2]. apply Forall_cons in Hb2 as [Hb' Hb2].
  simpl in Ha, Hb'. unfold le16 in E. assert (a = 0 /\ b = 0) as [-> ->] by lia.
  assert (Nat.Even (length l1)) as He.
  { apply Z.even_spec in Hk as [j Hj]. exists (Z.to_nat j). lia. }
  pose proof (wsum_range l1 Hb1). pose proof (wsum_range l2 Hb2). rewrite length_app in Hlen. simpl in Hlen.
  set (c := init + wsum l1 + wsum l2). assert (0 <= c < 2 ^ 32 - 65536) by (unfold c; zmod).
  rewrite csum_partial_wsum by (done || lia). rewrite wsum_app by done.
  replace (init + (wsum l1 + wsum (0 :: 0 :: l2))) with c by (unfold c; cbn [wsum]; lia). rewrite (u32_small c) by lia.
  destruct (csum_fold_spec c) as (f & Hf & ->); [lia|]. eexists _, _. split; [done|].
  destruct Hf as (Hfr & (q & Hq) & Hf0).
  split; [unfold wr16; apply (write_run_app l1 [0; 0]); [done|lia]|]. split; [rewrite !length_app; done|].
  rewrite swap16_bytes by lia. rewrite csum_partial_wsum by (lia || (apply Forall_app; split; [done|]; repeat constructor; try done; zmod)).
  rewrite wsum_app by done. cbn [app wsum].
  replace (init + _) with (c + 65535 - f) by (unfold c; zmod). rewrite u32_small by lia.
  destruct (folds_to_full (c + 65535 - f)) as [|[]]; [|done|lia].
  split; [lia|]. split; [exists q; lia|lia].
Qed.
