(* ===== verification/NetStack.v ===== *)
(** * The network stack: state and the sending half ([net/etherframe.c], [net/arp.c],
    [net/ipv4.c], [net/icmp.c], [net/udp.c], [net/tcp.c])

    One record holds the network stack of the machine with its device.  Handlers are
    looked up as in the source, by the hash table of Ethernet types and the array of
    IP protocols; function pointers are the constructors of [ether_fn] and [ip_fn].
    Sockets live in a heap and in the hash tables of [HashChain]; the walk along a
    chain has as much fuel as there are sockets.  A frame handed to the driver is
    appended to [tx].

    [None] is an access outside a buffer or array, or to an object that is not live. *)
From S2P Require Import Prelude HashChain Bytes NetBuf.

(** ** State *)

(** The addresses of the handlers embedded in [network_stack_t]. *)
Definition ICMP_OBJ : Z := 1.
Definition UDP_OBJ : Z := 2.
Definition TCP_OBJ : Z := 3.
Definition ARP_OBJ : Z := 4.
Definition IPV4_OBJ : Z := 5.
(** Application handlers registered by the stack itself. *)
Definition DHCP_HANDLER : Z := 6.
Definition DNS_HANDLER : Z := 7.

Definition JLOS_ETHER_BROADCAST_MAC : Z := 0xFFFFFFFFFFFF.
Definition JLOS_IPV4_BROADCAST : Z := 0xFFFFFFFF.
Definition JLOS_EPHEMERAL_PORT_START : Z := 1024.
Definition JLOS_NET_HASH_CHAIN_NUM : Z := 64.
(** Sizes of the packed headers. *)
Definition ETHER_HDR : Z := 14.
Definition ARP_MSG : Z := 28.
Definition IPV4_HDR : Z := 20.
Definition ICMP_MSG : Z := 8.
Definition UDP_HDR : Z := 8.
Definition TCP_HDR : Z := 20.

(** [jlos_hal_net_dev_t], with the frames handed to [ops->send]. *)
Record net_dev := NetDev { mac_address : Z; ip_address : Z; tx : list (list Z) }.

Inductive ether_fn := EthDefault | EthArp | EthIpv4.
(** [jlos_ether_frame_handler_t] *)
Record ether_handler := EtherHandler { etherType_BE : Z; on_ether_frame_received : ether_fn }.
(** [jlos_ether_frame_provider_t]: the table and the handlers it links. *)
Record ether := Ether { eth_handlers : hash_chain; eth_objs : gmap Z ether_handler }.

(** [jlos_arp_t] *)
Record arp := Arp { ip_cache : list Z; mac_cache : list Z; num_cache_entries : Z }.

Inductive ip_fn := IpDefault | IpIcmp | IpUdp | IpTcp.
(** [jlos_internet_protocol_handler_t] *)
Record ip_handler := IpHandler { ip_protocol : Z; on_internet_protocol_received : ip_fn }.
(** [jlos_internet_protocol_provider_t]; a null handler is 0. *)
Record ipv4 := Ipv4 { handlers : list Z; ip_objs : gmap Z ip_handler; gateway_ip : Z; subnet_mask : Z }.

(** [jlos_udp_socket_t]; a null handler is 0. *)
Record udp_socket := UdpSocket {
  u_remote_port : Z; u_remote_ip : Z; u_local_port : Z; u_local_ip : Z; u_handler : Z; listening : bool }.
(** [jlos_udp_provider_t] *)
Record udp := Udp { u_sockets : hash_chain; u_objs : gmap Z udp_socket; u_num_sockets : Z; u_free_port : Z }.

(** [jlos_tcp_socket_state_t] *)
Inductive tcp_state :=
  | JLOS_TCP_CLOSED | JLOS_TCP_LISTEN | JLOS_TCP_SYN_SENT | JLOS_TCP_SYN_RECEIVED | JLOS_TCP_ESTABLISHED
  | JLOS_TCP_FIN_WAIT1 | JLOS_TCP_FIN_WAIT2 | JLOS_TCP_CLOSING | JLOS_TCP_TIME_WAIT | JLOS_TCP_CLOSE_WAIT | JLOS_TCP_LAST_ACK.
#[export] Instance tcp_state_eq_dec : EqDecision tcp_state.
Proof. solve_decision. Defined.
(** [jlos_tcp_socket_t]; [state_cond] is the number of broadcasts on the condition. *)
Record tcp_socket := TcpSocket {
  t_remote_port : Z; t_remote_ip : Z; t_local_port : Z; t_local_ip : Z; sequence_number : Z; acknowledgement_number : Z;
  t_handler : Z; t_state : tcp_state; state_cond : Z }.
(** [jlos_tcp_provider_t] *)
Record tcp := Tcp { t_sockets : hash_chain; t_objs : gmap Z tcp_socket; t_num_sockets : Z; t_free_port : Z }.

(** [jlos_dhcp_client_t] *)
Inductive dhcp_state := DHCP_INIT | DHCP_SELECTING | DHCP_REQUESTING | DHCP_BOUND | DHCP_FAILED.
#[export] Instance dhcp_state_eq_dec : EqDecision dhcp_state.
Proof. solve_decision. Defined.
Record dhcp := Dhcp { dh_socket : Z; dh_state : dhcp_state; xid : Z; server_id : Z; offered_ip : Z; dh_mac : list Z }.
(** [jlos_dns_resolver_t] *)
Record dns := Dns { dn_socket : Z; query_id : Z; resolved_ip : Z; resolved : bool }.
(** [jlos_network_config_t] *)
Record net_config := NetConfig { c_ip : Z; c_gateway : Z; c_subnet_mask : Z; c_dns_server : Z }.

(** [network_stack_t], with the device and the buffers. *)
Record net := Net {
  n_dev : net_dev; n_pool : pool; n_config : net_config; n_eth : ether; n_arp : arp; n_ip : ipv4; n_udp : udp; n_tcp : tcp;
  n_dhcp : dhcp; n_dns : dns }.

Definition set_dev (s : net) (x : net_dev) : net :=
  Net x (n_pool s) (n_config s) (n_eth s) (n_arp s) (n_ip s) (n_udp s) (n_tcp s) (n_dhcp s) (n_dns s).
Definition set_pool (s : net) (x : pool) : net :=
  Net (n_dev s) x (n_config s) (n_eth s) (n_arp s) (n_ip s) (n_udp s) (n_tcp s) (n_dhcp s) (n_dns s).
Definition set_config (s : net) (x : net_config) : net :=
  Net (n_dev s) (n_pool s) x (n_eth s) (n_arp s) (n_ip s) (n_udp s) (n_tcp s) (n_dhcp s) (n_dns s).
Definition set_eth (s : net) (x : ether) : net :=
  Net (n_dev s) (n_pool s) (n_config s) x (n_arp s) (n_ip s) (n_udp s) (n_tcp s) (n_dhcp s) (n_dns s).
Definition set_arp (s : net) (x : arp) : net :=
  Net (n_dev s) (n_pool s) (n_config s) (n_eth s) x (n_ip s) (n_udp s) (n_tcp s) (n_dhcp s) (n_dns s).
Definition set_ip (s : net) (x : ipv4) : net :=
  Net (n_dev s) (n_pool s) (n_config s) (n_eth s) (n_arp s) x (n_udp s) (n_tcp s) (n_dhcp s) (n_dns s).
Definition set_udp (s : net) (x : udp) : net :=
  Net (n_dev s) (n_pool s) (n_config s) (n_eth s) (n_arp s) (n_ip s) x (n_tcp s) (n_dhcp s) (n_dns s).
Definition set_tcp (s : net) (x : tcp) : net :=
  Net (n_dev s) (n_pool s) (n_config s) (n_eth s) (n_arp s) (n_ip s) (n_udp s) x (n_dhcp s) (n_dns s).
Definition set_dhcp (s : net) (x : dhcp) : net :=
  Net (n_dev s) (n_pool s) (n_config s) (n_eth s) (n_arp s) (n_ip s) (n_udp s) (n_tcp s) x (n_dns s).
Definition set_dns (s : net) (x : dns) : net :=
  Net (n_dev s) (n_pool s) (n_config s) (n_eth s) (n_arp s) (n_ip s) (n_udp s) (n_tcp s) (n_dhcp s) x.

Definition get_skb (s : net) (p : Z) : option skb := skbs (n_pool s) !! p.
Definition put_skb (s : net) (p : Z) (b : skb) : net :=
  set_pool s (Pool (<[p := b]> (skbs (n_pool s))) (next_id (n_pool s)) (attempts (n_pool s)) (kbufs (n_pool s)) (frames (n_pool s))).
Definition skb_free (s : net) (p : Z) : option net := q ← jlos_net_skb_free (n_pool s) p; Some (set_pool s q).

(** ** The device ([hal/net.c]) *)

(** The driver is given [size] bytes at offset [o] of the buffer. *)
Definition jlos_hal_net_send (s : net) (m : list Z) (o size : Z) : option net :=
  f ← read_run m o size;
  Some (set_dev s (NetDev (mac_address (n_dev s)) (ip_address (n_dev s)) (tx (n_dev s) ++ [f]))).
Definition jlos_hal_net_set_ip_address (s : net) (ip : Z) : net :=
  set_dev s (NetDev (mac_address (n_dev s)) ip (tx (n_dev s))).
Definition jlos_hal_net_get_mac_address (s : net) : Z := mac_address (n_dev s).
Definition jlos_hal_net_get_ip_address (s : net) : Z := ip_address (n_dev s).

(** ** Ethernet addresses *)

(** [dest[i] = (mac >> (8 * i)) & 0xFF] for the six bytes; the value as a list. *)
Definition mac_bytes (mac : Z) : list Z := map (fun i => Z.land (Z.shiftr mac (8 * i)) 0xFF) [0; 1; 2; 3; 4; 5].
Definition uint64_to_mac (m : list Z) (o mac : Z) : option (list Z) := write_run m o (mac_bytes mac).
Fixpoint mac_loop (mac : list Z) (i result : Z) : Z :=
  match mac with
  | [] => result
  | x :: mac => mac_loop mac (i + 1) (Z.lor result (u64 (Z.shiftl x (8 * i))))
  end.
Definition mac_to_uint64 (mac : list Z) : Z := mac_loop mac 0 0.
Fixpoint mac_address_eq (a b : list Z) : bool :=
  match a, b with
  | x :: a, y :: b => if x =? y then mac_address_eq a b else false
  | _, _ => true
  end.
Fixpoint mac_address_is_broadcast (mac : list Z) : bool :=
  match mac with
  | x :: mac => if x =? 0xFF then mac_address_is_broadcast mac else false
  | [] => true
  end.

(** ** Sending *)

Section send.
Context (mem_ok : nat -> bool) (junk : Z -> Z -> Z).

Definition skb_alloc (s : net) (size : Z) : option Z * net :=
  let '(r, q) := jlos_net_skb_alloc mem_ok junk (n_pool s) size in (r, set_pool s q).

Definition jlos_ether_frame_provider_send (s : net) (dstMAC_BE etherType_BE p : Z) : option net :=
  b ← get_skb s p;
  let b := jlos_net_skb_push b ETHER_HDR in
  let frame := s_data b in
  m ← uint64_to_mac (s_mem b) frame dstMAC_BE;
  m ← uint64_to_mac m (frame + 6) (jlos_hal_net_get_mac_address s);
  m ← wr16 m (frame + 12) etherType_BE;
  let b := with_mem b m in
  let s := put_skb s p b in
  s ← jlos_hal_net_send s (s_mem b) (s_data b) (jlos_net_skb_len b);
  skb_free s p.

(** Sends with the handler's own type. *)
Definition jlos_ether_frame_handler_send (s : net) (h dstMAC_BE p : Z) : option net :=
  o ← eth_objs (n_eth s) !! h; jlos_ether_frame_provider_send s dstMAC_BE (etherType_BE o) p.

(** *** ARP *)

Definition jlos_arp_request_mac_address (s : net) (IP_BE : Z) : option net :=
  let max_hdr := ETHER_HDR in
  match skb_alloc s (ARP_MSG + max_hdr) with
  | (None, s) => Some s
  | (Some p, s) =>
    b ← get_skb s p;
    let b := jlos_net_skb_reserve b max_hdr in
    let '(arp, b) := jlos_net_skb_put b ARP_MSG in
    m ← wr16 (s_mem b) arp 0x0100;
    m ← wr16 m (arp + 2) 0x0008;
    m ← wr8 m (arp + 4) 6;
    m ← wr8 m (arp + 5) 4;
    m ← wr16 m (arp + 6) 0x0100;
    m ← uint64_to_mac m (arp + 8) (jlos_hal_net_get_mac_address s);
    m ← wr32 m (arp + 14) (jlos_hal_net_get_ip_address s);
    m ← write_run m (arp + 18) (replicate 6 0xFF);
    m ← wr32 m (arp + 24) IP_BE;
    jlos_ether_frame_handler_send (put_skb s p (with_mem b m)) ARP_OBJ 0xFFFFFFFFFFFF p
  end.

Fixpoint cache_scan (n : nat) (ips macs : list Z) (i IP_BE : Z) : option Z :=
  match n with
  | O => Some 0xFFFFFFFFFFFF
  | S n => x ← geti ips i; if x =? IP_BE then geti macs i else cache_scan n ips macs (i + 1) IP_BE
  end.
Definition jlos_arp_get_mac_from_cache (a : arp) (IP_BE : Z) : option Z :=
  cache_scan (Z.to_nat (num_cache_entries a)) (ip_cache a) (mac_cache a) 0 IP_BE.

Definition jlos_arp_lookup_or_request (s : net) (IP_BE : Z) : option (Z * net) :=
  result ← jlos_arp_get_mac_from_cache (n_arp s) IP_BE;
  if result =? 0xFFFFFFFFFFFF then s ← jlos_arp_request_mac_address s IP_BE; Some (result, s)
  else Some (result, s).

(** [intr] is what interrupts do to the stack during one [jlos_hal_cpu_relax]. *)
Fixpoint resolve_loop (fuel : nat) (intr : Z -> net -> net) (s : net) (IP_BE result timeout : Z) : option (Z * net) :=
  if (result =? 0xFFFFFFFFFFFF) && (timeout <? 5000000) then
    match fuel with
    | O => None
    | S fuel =>
      let s := intr timeout s in
      let timeout := u32 (timeout + 1) in
      result ← jlos_arp_get_mac_from_cache (n_arp s) IP_BE;
      resolve_loop fuel intr s IP_BE result timeout
    end
  else Some (result, s).
Definition jlos_arp_resolve (fuel : nat) (intr : Z -> net -> net) (s : net) (IP_BE : Z) : option (Z * net) :=
  result ← jlos_arp_get_mac_from_cache (n_arp s) IP_BE;
  '(result, s) ← (if result =? 0xFFFFFFFFFFFF then
      s ← jlos_arp_request_mac_address s IP_BE;
      result ← jlos_arp_get_mac_from_cache (n_arp s) IP_BE;
      Some (result, s)
    else Some (result, s));
  resolve_loop fuel intr s IP_BE result 0.

Definition jlos_arp_broadcast_mac_address (fuel : nat) (intr : Z -> net -> net) (s : net) (IP_BE : Z) : option net :=
  let max_hdr := ETHER_HDR in
  match skb_alloc s (ARP_MSG + max_hdr) with
  | (None, s) => Some s
  | (Some p, s) =>
    b ← get_skb s p;
    let b := jlos_net_skb_reserve b max_hdr in
    let '(arp, b) := jlos_net_skb_put b ARP_MSG in
    m ← wr16 (s_mem b) arp 0x0100;
    m ← wr16 m (arp + 2) 0x0008;
    m ← wr8 m (arp + 4) 6;
    m ← wr8 m (arp + 5) 4;
    m ← wr16 m (arp + 6) 0x0200;
    m ← uint64_to_mac m (arp + 8) (jlos_hal_net_get_mac_address s);
    m ← wr32 m (arp + 14) (jlos_hal_net_get_ip_address s);
    '(dst_mac_be, s) ← jlos_arp_resolve fuel intr (put_skb s p (with_mem b m)) IP_BE;
    b ← get_skb s p;
    m ← uint64_to_mac (s_mem b) (arp + 18) dst_mac_be;
    m ← wr32 m (arp + 24) IP_BE;
    jlos_ether_frame_handler_send (put_skb s p (with_mem b m)) ARP_OBJ dst_mac_be p
  end.

(** *** IPv4 *)

Definition jlos_internet_protocol_provider_send (s : net) (dstIP_BE protocol p : Z) : option net :=
  b ← get_skb s p;
  let b := jlos_net_skb_push b IPV4_HDR in
  let message := s_data b in
  let ihl := IPV4_HDR / 4 in
  m ← wr8 (s_mem b) message (Z.lor (Z.shiftl (Z.land 4 0x0F) 4) (Z.land ihl 0x0F));
  m ← wr8 m (message + 1) 0;
  m ← wr16 m (message + 2) (JLOS_SWAP_ENDIAN_16 (jlos_net_skb_len b));
  m ← wr16 m (message + 4) 0x0100;
  m ← wr16 m (message + 6) 0x0040;
  m ← wr8 m (message + 8) 0x40;
  m ← wr8 m (message + 9) protocol;
  m ← wr32 m (message + 16) dstIP_BE;
  let src := jlos_hal_net_get_ip_address s in
  m ← wr32 m (message + 12) src;
  m ← wr16 m (message + 10) 0;
  hdr ← read_run m message IPV4_HDR;
  c ← jlos_internet_protocol_provider_csum_fold (jlos_internet_protocol_provider_csum_partial hdr 0);
  m ← wr16 m (message + 10) c;
  let s := put_skb s p (with_mem b m) in
  if dstIP_BE =? JLOS_IPV4_BROADCAST then
    jlos_ether_frame_handler_send s IPV4_OBJ JLOS_ETHER_BROADCAST_MAC p
  else
    let route := if Z.land dstIP_BE (subnet_mask (n_ip s)) =? Z.land src (subnet_mask (n_ip s)) then dstIP_BE
                 else gateway_ip (n_ip s) in
    '(dst_mac, s) ← jlos_arp_lookup_or_request s route;
    if dst_mac =? 0xFFFFFFFFFFFF then skb_free s p
    else jlos_ether_frame_handler_send s IPV4_OBJ dst_mac p.
Definition jlos_internet_protocol_handler_send (s : net) (h dstIP_BE p : Z) : option net :=
  o ← ip_objs (n_ip s) !! h; jlos_internet_protocol_provider_send s dstIP_BE (ip_protocol o) p.

(** *** ICMP *)

Definition jlos_icmp_request_echo_reply (s : net) (ip_be : Z) : option net :=
  let max_hdr := ETHER_HDR + IPV4_HDR in
  match skb_alloc s (ICMP_MSG + max_hdr) with
  | (None, s) => Some s
  | (Some p, s) =>
    b ← get_skb s p;
    let b := jlos_net_skb_reserve b max_hdr in
    let '(icmp, b) := jlos_net_skb_put b ICMP_MSG in
    m ← wr8 (s_mem b) icmp 8;
    m ← wr8 m (icmp + 1) 0;
    m ← wr32 m (icmp + 4) 0x3713;
    m ← wr16 m (icmp + 2) 0;
    msg ← read_run m icmp ICMP_MSG;
    c ← jlos_internet_protocol_provider_csum_fold (jlos_internet_protocol_provider_csum_partial msg 0);
    m ← wr16 m (icmp + 2) c;
    jlos_internet_protocol_handler_send (put_skb s p (with_mem b m)) ICMP_OBJ ip_be p
  end.

(** *** UDP *)

Definition udp_hash_ip_port (key : Z * Z) : Z :=
  let '(ip, port) := key in Z.lxor (Z.lxor ip (u32 (Z.shiftl port 16))) (Z.shiftr port 16).

(** Memory for a socket: an address, if there is memory. *)
Definition kalloc_sock (s : net) : option Z * net :=
  let '(ok, q) := attempt mem_ok (n_pool s) in
  if ok then (Some (next_id q), set_pool s (Pool (skbs q) (next_id q + 1) (attempts q) (kbufs q) (frames q)))
  else (None, set_pool s q).
Definition get_usock (s : net) (k : Z) : option udp_socket := u_objs (n_udp s) !! k.
Definition put_usock (s : net) (k : Z) (x : udp_socket) : net :=
  set_udp s (Udp (u_sockets (n_udp s)) (<[k := x]> (u_objs (n_udp s))) (u_num_sockets (n_udp s)) (u_free_port (n_udp s))).

(** [jlos_udp_socket_init]: the addresses and ports keep what the memory held. *)
Definition jlos_udp_socket_init (k : Z) : udp_socket :=
  UdpSocket (u16 (junk k 0)) (u32 (junk k 1)) (u16 (junk k 2)) (u32 (junk k 3)) 0 false.
(** Links the socket under its local address and counts it. *)
Definition udp_insert (s : net) (k : Z) (x : udp_socket) (free_port : Z) : option net :=
  h ← jlos_hash_chain_insert udp_hash_ip_port (u_sockets (n_udp s)) (u_local_ip x, u_local_port x) k;
  Some (set_udp s (Udp h (<[k := x]> (u_objs (n_udp s))) (u16 (u_num_sockets (n_udp s) + 1)) free_port)).

(** 0 is the null pointer. *)
Definition jlos_udp_provider_connect (s : net) (ip port : Z) : option (Z * net) :=
  match kalloc_sock s with
  | (None, s) => Some (0, s)
  | (Some k, s) =>
    let x := jlos_udp_socket_init k in
    let free_port := u_free_port (n_udp s) in
    let x := UdpSocket (JLOS_SWAP_ENDIAN_16 port) ip (JLOS_SWAP_ENDIAN_16 free_port) (jlos_hal_net_get_ip_address s) (u_handler x) (listening x) in
    s ← udp_insert s k x (u16 (free_port + 1)); Some (k, s)
  end.
Definition jlos_udp_provider_listen (s : net) (port : Z) : option (Z * net) :=
  match kalloc_sock s with
  | (None, s) => Some (0, s)
  | (Some k, s) =>
    let x := jlos_udp_socket_init k in
    let x := UdpSocket (u_remote_port x) (u_remote_ip x) (JLOS_SWAP_ENDIAN_16 port) (jlos_hal_net_get_ip_address s) (u_handler x) true in
    s ← udp_insert s k x (u_free_port (n_udp s)); Some (k, s)
  end.
Definition jlos_udp_provider_disconnect (s : net) (k : Z) : option net :=
  _ ← get_usock s k;
  h ← jlos_hash_chain_remove (u_sockets (n_udp s)) k;
  Some (set_udp s (Udp h (delete k (u_objs (n_udp s))) (u16 (u_num_sockets (n_udp s) - 1)) (u_free_port (n_udp s)))).
Definition jlos_udp_provider_bind (s : net) (k handler : Z) : option net :=
  x ← get_usock s k;
  Some (put_usock s k (UdpSocket (u_remote_port x) (u_remote_ip x) (u_local_port x) (u_local_ip x) handler (listening x))).

(** [data] are the [size] bytes to send. *)
Definition jlos_udp_provider_send (s : net) (k : Z) (data : list Z) : option net :=
  let size := zlen data in
  let max_hdr := ETHER_HDR + IPV4_HDR + UDP_HDR in
  match skb_alloc s (size + max_hdr) with
  | (None, s) => Some s
  | (Some p, s) =>
    x ← get_usock s k;
    b ← get_skb s p;
    let b := jlos_net_skb_reserve b max_hdr in
    let '(payload, b) := jlos_net_skb_put b size in
    m ← write_run (s_mem b) payload data;
    let b := jlos_net_skb_push b UDP_HDR in
    let msg := s_data b in
    m ← wr16 m msg (u_local_port x);
    m ← wr16 m (msg + 2) (u_remote_port x);
    m ← wr16 m (msg + 4) (JLOS_SWAP_ENDIAN_16 (size + UDP_HDR));
    m ← wr16 m (msg + 6) 0;
    jlos_internet_protocol_handler_send (put_skb s p (with_mem b m)) UDP_OBJ (u_remote_ip x) p
  end.

(** *** TCP *)

Definition JLOS_TCP_FIN : Z := 0x0001.
Definition JLOS_TCP_SYN : Z := 0x0002.
Definition JLOS_TCP_RST : Z := 0x0004.
Definition JLOS_TCP_PSH : Z := 0x0008.
Definition JLOS_TCP_ACK : Z := 0x0010.
Definition JLOS_TCP_MSS : Z := 1460.
Definition JLOS_TCP_MIN_DATA_OFFSET : Z := 5.

Definition tcp_hash_ip_port (key : Z * Z) : Z :=
  let '(ip, port) := key in Z.lxor (Z.lxor ip (u32 (Z.shiftl port 16))) (Z.shiftr port 16).
Definition get_tsock (s : net) (k : Z) : option tcp_socket := t_objs (n_tcp s) !! k.
Definition put_tsock (s : net) (k : Z) (x : tcp_socket) : net :=
  set_tcp s (Tcp (t_sockets (n_tcp s)) (<[k := x]> (t_objs (n_tcp s))) (t_num_sockets (n_tcp s)) (t_free_port (n_tcp s))).
Definition set_seq (x : tcp_socket) (v : Z) : tcp_socket :=
  TcpSocket (t_remote_port x) (t_remote_ip x) (t_local_port x) (t_local_ip x) v (acknowledgement_number x) (t_handler x) (t_state x) (state_cond x).
Definition set_ack (x : tcp_socket) (v : Z) : tcp_socket :=
  TcpSocket (t_remote_port x) (t_remote_ip x) (t_local_port x) (t_local_ip x) (sequence_number x) v (t_handler x) (t_state x) (state_cond x).
Definition set_state (x : tcp_socket) (v : tcp_state) : tcp_socket :=
  TcpSocket (t_remote_port x) (t_remote_ip x) (t_local_port x) (t_local_ip x) (sequence_number x) (acknowledgement_number x) (t_handler x) v (state_cond x).

(** [JLOS_TCP_SET_DATA_OFFSET_FLAGS] *)
Definition set_data_offset_flags (m : list Z) (msg doff flags : Z) : option (list Z) :=
  m ← wr8 m (msg + 12) (Z.lor (Z.shiftl (Z.land doff 0x0F) 4) (Z.land (Z.shiftr flags 8) 0x01));
  wr8 m (msg + 13) (Z.land flags 0xFF).

(** The part of [jlos_tcp_provider_send] that works on the socket: the packet of a
    socket [x] that need not be in the table. *)
Definition tcp_send_segment (s : net) (x : tcp_socket) (data : list Z) (flags p : Z) : option net :=
  let size := zlen data in
  let syn := negb (Z.land flags JLOS_TCP_SYN =? 0) in
  let doff := if syn then 6 else 5 in
  let tcp_hdr_len := if syn then 24 else 20 in
  let total_length := u16 (size + tcp_hdr_len) in
  let max_hdr := ETHER_HDR + IPV4_HDR + tcp_hdr_len in
  b ← get_skb s p;
  let b := jlos_net_skb_reserve b max_hdr in
  let '(payload, b) := jlos_net_skb_put b size in
  m ← write_run (s_mem b) payload data;
  let b := jlos_net_skb_push b tcp_hdr_len in
  let msg := s_data b in
  m ← set_data_offset_flags m msg doff flags;
  m ← wr16 m msg (t_local_port x);
  m ← wr16 m (msg + 2) (t_remote_port x);
  m ← wr32 m (msg + 8) (JLOS_SWAP_ENDIAN_32 (acknowledgement_number x));
  m ← wr32 m (msg + 4) (JLOS_SWAP_ENDIAN_32 (sequence_number x));
  m ← wr16 m (msg + 14) (JLOS_SWAP_ENDIAN_16 0xFFFF);
  m ← wr16 m (msg + 18) 0;
  m ← (if syn then write_run m (msg + TCP_HDR) [2; 4; u8 (Z.shiftr JLOS_TCP_MSS 8); u8 (Z.land JLOS_TCP_MSS 0xFF)] else Some m);
  m ← wr16 m (msg + 16) 0;
  let phdr := bytes32 (t_local_ip x) ++ bytes32 (t_remote_ip x) ++ bytes16 0x0600 ++ bytes16 (JLOS_SWAP_ENDIAN_16 total_length) in
  let csum := jlos_internet_protocol_provider_csum_partial phdr 0 in
  seg ← read_run m msg (jlos_net_skb_len b);
  let csum := jlos_internet_protocol_provider_csum_partial seg csum in
  c ← jlos_internet_protocol_provider_csum_fold csum;
  m ← wr16 m (msg + 16) c;
  jlos_internet_protocol_handler_send (put_skb s p (with_mem b m)) TCP_OBJ (t_remote_ip x) p.

Definition jlos_tcp_provider_send (s : net) (k : Z) (data : list Z) (flags : Z) : option net :=
  let tcp_hdr_len := if Z.land flags JLOS_TCP_SYN =? 0 then 20 else 24 in
  match skb_alloc s (zlen data + (ETHER_HDR + IPV4_HDR + tcp_hdr_len)) with
  | (None, s) => Some s
  | (Some p, s) =>
    x ← get_tsock s k;
    let s := put_tsock s k (set_seq x (u32 (sequence_number x + zlen data))) in
    tcp_send_segment s x data flags p
  end.

(** [jlos_tcp_socket_init]: the numbers, addresses and ports keep what the memory held. *)
Definition jlos_tcp_socket_init (k : Z) : tcp_socket :=
  TcpSocket (u16 (junk k 0)) (u32 (junk k 1)) (u16 (junk k 2)) (u32 (junk k 3)) (u32 (junk k 4)) (u32 (junk k 5)) 0 JLOS_TCP_CLOSED 0.
Definition tcp_insert (s : net) (k : Z) (x : tcp_socket) (free_port : Z) : option net :=
  h ← jlos_hash_chain_insert tcp_hash_ip_port (t_sockets (n_tcp s)) (t_local_ip x, t_local_port x) k;
  Some (set_tcp s (Tcp h (<[k := x]> (t_objs (n_tcp s))) (u16 (t_num_sockets (n_tcp s) + 1)) free_port)).

Definition jlos_tcp_provider_connect (s : net) (ip port : Z) : option (Z * net) :=
  match kalloc_sock s with
  | (None, s) => Some (0, s)
  | (Some k, s) =>
    let x := jlos_tcp_socket_init k in
    let free_port := t_free_port (n_tcp s) in
    let x := TcpSocket (JLOS_SWAP_ENDIAN_16 port) ip (JLOS_SWAP_ENDIAN_16 free_port) (jlos_hal_net_get_ip_address s)
      0xbeefcafe (acknowledgement_number x) (t_handler x) JLOS_TCP_SYN_SENT (state_cond x) in
    s ← tcp_insert s k x (u16 (free_port + 1));
    s ← jlos_tcp_provider_send s k [] JLOS_TCP_SYN;
    Some (k, s)
  end.
Definition jlos_tcp_provider_listen (s : net) (port : Z) : option (Z * net) :=
  match kalloc_sock s with
  | (None, s) => Some (0, s)
  | (Some k, s) =>
    let x := jlos_tcp_socket_init k in
    let x := TcpSocket (t_remote_port x) (t_remote_ip x) (JLOS_SWAP_ENDIAN_16 port) (jlos_hal_net_get_ip_address s)
      (sequence_number x) (acknowledgement_number x) (t_handler x) JLOS_TCP_LISTEN (state_cond x) in
    s ← tcp_insert s k x (t_free_port (n_tcp s)); Some (k, s)
  end.
Definition jlos_tcp_provider_disconnect (s : net) (k : Z) : option net :=
  x ← get_tsock s k;
  let fin (st : tcp_state) :=
    s ← jlos_tcp_provider_send (put_tsock s k (set_state x st)) k [] (Z.lor JLOS_TCP_FIN JLOS_TCP_ACK);
    x ← get_tsock s k;
    Some (put_tsock s k (set_seq x (u32 (sequence_number x + 1)))) in
  match t_state x with
  | JLOS_TCP_ESTABLISHED => fin JLOS_TCP_FIN_WAIT1
  | JLOS_TCP_CLOSE_WAIT => fin JLOS_TCP_LAST_ACK
  | _ => Some s
  end.
Definition jlos_tcp_provider_bind (s : net) (k handler : Z) : option net :=
  x ← get_tsock s k;
  Some (put_tsock s k (TcpSocket (t_remote_port x) (t_remote_ip x) (t_local_port x) (t_local_ip x) (sequence_number x)
    (acknowledgement_number x) handler (t_state x) (state_cond x))).
Definition jlos_tcp_socket_send (s : net) (k : Z) (data : list Z) : option net :=
  x ← get_tsock s k;
  if decide (t_state x = JLOS_TCP_ESTABLISHED) then jlos_tcp_provider_send s k data (Z.lor JLOS_TCP_PSH JLOS_TCP_ACK) else Some s.

End send.
