(* ===== verification/NetApps.v ===== *)
(** * The clients inside the kernel: DHCP and DNS ([net/dhcp.c], [net/dns.c])

    Both are handlers of a UDP socket.  A received message is given by the memory of
    its socket buffer, the offset of the message in it and its size, because the code
    that looks for options follows pointers that may leave the message. *)
From S2P Require Import Prelude HashChain Bytes NetBuf NetStack.

(** ** DHCP *)

Definition DHCP_HDR : Z := 240.
Definition JLOS_DHCP_OPTIONS_MAX : Z := 64.
Definition JLOS_DHCP_MIN_PACKET : Z := 300.
Definition JLOS_DHCP_CLIENT_PORT : Z := 68.
Definition JLOS_DHCP_SERVER_PORT : Z := 67.
Definition JLOS_DHCP_MAGIC_COOKIE : Z := 0x63825363.
Definition JLOS_DHCP_FLAGS_BROADCAST : Z := 0x8000.
Definition JLOS_DHCP_OPT_PAD : Z := 0.
Definition JLOS_DHCP_OPT_SUBNET_MASK : Z := 1.
Definition JLOS_DHCP_OPT_ROUTER : Z := 3.
Definition JLOS_DHCP_OPT_DNS_SERVER : Z := 6.
Definition JLOS_DHCP_OPT_REQUESTED_IP : Z := 50.
Definition JLOS_DHCP_OPT_MSG_TYPE : Z := 53.
Definition JLOS_DHCP_OPT_SERVER_ID : Z := 54.
Definition JLOS_DHCP_OPT_END : Z := 255.
Definition JLOS_DHCP_MSG_DISCOVER : Z := 1.
Definition JLOS_DHCP_MSG_OFFER : Z := 2.
Definition JLOS_DHCP_MSG_REQUEST : Z := 3.
Definition JLOS_DHCP_MSG_ACK : Z := 5.
Definition JLOS_DHCP_MSG_NAK : Z := 6.

(** The buffer with the option written at [p], and the position behind it. *)
Definition dhcp_write_option (m : list Z) (p code : Z) (val : list Z) : option (list Z * Z) :=
  m ← wr8 m p code;
  m ← wr8 m (p + 1) (zlen val);
  m ← write_run m (p + 2) val;
  Some (m, p + 2 + zlen val).

(** The options start at [options]; the result is the offset of an option's value. *)
Fixpoint dhcp_find_loop (fuel : nat) (m : list Z) (options max_len code i : Z) : option (option Z) :=
  if i <? max_len then
    match fuel with
    | O => None
    | S fuel =>
      opt ← rd8 m (options + i);
      if opt =? JLOS_DHCP_OPT_PAD then dhcp_find_loop fuel m options max_len code (u16 (i + 1))
      else if opt =? JLOS_DHCP_OPT_END then Some None
      else if max_len <=? i + 1 then Some None
      else
        len ← rd8 m (options + i + 1);
        if opt =? code then Some (Some (options + i + 2))
        else dhcp_find_loop fuel m options max_len code (u16 (i + (2 + len)))
    end
  else Some None.
Definition dhcp_find_option (m : list Z) (options max_len code : Z) : option (option Z) :=
  dhcp_find_loop (Z.to_nat max_len) m options max_len code 0.

Fixpoint pad_loop (fuel : nat) (m : list Z) (total : Z) : option (list Z * Z) :=
  if total <? JLOS_DHCP_MIN_PACKET then
    match fuel with
    | O => None
    | S fuel => m ← wr8 m total JLOS_DHCP_OPT_PAD; pad_loop fuel m (u16 (total + 1))
    end
  else Some (m, total).
Definition jlos_dhcp_pad_to_min (m : list Z) (total : Z) : option (list Z * Z) :=
  pad_loop (Z.to_nat JLOS_DHCP_MIN_PACKET) m total.

Definition jlos_dhcp_fill_header (m : list Z) (d : dhcp) : option (list Z) :=
  m ← wr8 m 0 1;
  m ← wr8 m 1 1;
  m ← wr8 m 2 6;
  m ← wr8 m 3 0;
  m ← wr32 m 4 (xid d);
  m ← wr16 m 8 0;
  m ← wr16 m 10 (JLOS_SWAP_ENDIAN_16 JLOS_DHCP_FLAGS_BROADCAST);
  m ← wr32 m 12 0;
  m ← wr32 m 16 0;
  m ← wr32 m 20 0;
  m ← wr32 m 24 0;
  m ← write_run m 28 (replicate 16 0);
  m ← write_run m 28 (dh_mac d);
  m ← write_run m 44 (replicate 64 0);
  m ← write_run m 108 (replicate 128 0);
  wr32 m 236 (JLOS_SWAP_ENDIAN_32 JLOS_DHCP_MAGIC_COOKIE).

Definition set_dstate (d : dhcp) (st : dhcp_state) : dhcp :=
  Dhcp (dh_socket d) st (xid d) (server_id d) (offered_ip d) (dh_mac d).

Section clients.
Context (mem_ok : nat -> bool) (junk : Z -> Z -> Z).

(** An uninitialised buffer on the stack. *)
Definition stack_buffer (n : Z) : list Z := map (fun i => u8 (junk 0 i)) (seqZ 0 n).

Definition jlos_dhcp_send_broadcast (s : net) (buffer : list Z) (total : Z) : option net :=
  let k := dh_socket (n_dhcp s) in
  x ← get_usock s k;
  let s := put_usock s k (UdpSocket (JLOS_SWAP_ENDIAN_16 JLOS_DHCP_SERVER_PORT) JLOS_IPV4_BROADCAST (u_local_port x) (u_local_ip x)
    (u_handler x) (listening x)) in
  data ← read_run buffer 0 total;
  jlos_udp_provider_send mem_ok junk s k data.

Definition jlos_dhcp_client_request (s : net) : option net :=
  let self := n_dhcp s in
  m ← jlos_dhcp_fill_header (stack_buffer (DHCP_HDR + JLOS_DHCP_OPTIONS_MAX)) self;
  '(m, opt) ← dhcp_write_option m DHCP_HDR JLOS_DHCP_OPT_MSG_TYPE [JLOS_DHCP_MSG_REQUEST];
  '(m, opt) ← dhcp_write_option m opt JLOS_DHCP_OPT_REQUESTED_IP (bytes32 (offered_ip self));
  '(m, opt) ← dhcp_write_option m opt JLOS_DHCP_OPT_SERVER_ID (bytes32 (server_id self));
  m ← wr8 m opt JLOS_DHCP_OPT_END;
  '(m, total) ← jlos_dhcp_pad_to_min m (u16 (opt + 1));
  s ← jlos_dhcp_send_broadcast s m total;
  Some (set_dhcp s (set_dstate (n_dhcp s) DHCP_REQUESTING)).

Definition jlos_dhcp_handle_offer (s : net) (m : list Z) (msg options options_len : Z) : option net :=
  let self := n_dhcp s in
  if negb (bool_decide (dh_state self = DHCP_SELECTING)) then Some s else
  yiaddr ← rd32 m (msg + 16);
  o ← dhcp_find_option m options options_len JLOS_DHCP_OPT_SERVER_ID;
  sid ← (match o with Some p => rd32 m p | None => rd32 m (msg + 20) end);
  jlos_dhcp_client_request
    (set_dhcp s (Dhcp (dh_socket self) (dh_state self) (xid self) sid yiaddr (dh_mac self))).

Definition jlos_network_apply_config (s : net) : net :=
  let s := jlos_hal_net_set_ip_address s (c_ip (n_config s)) in
  set_ip s (Ipv4 (handlers (n_ip s)) (ip_objs (n_ip s)) (c_gateway (n_config s)) (c_subnet_mask (n_config s))).

(** The value of an option, or what the configuration holds. *)
Definition option_or (m : list Z) (options options_len code old : Z) : option Z :=
  o ← dhcp_find_option m options options_len code;
  match o with Some p => rd32 m p | None => Some old end.

Definition jlos_dhcp_handle_ack (s : net) (m : list Z) (msg options options_len : Z) : option net :=
  let self := n_dhcp s in
  if negb (bool_decide (dh_state self = DHCP_REQUESTING)) then Some s else
  yiaddr ← rd32 m (msg + 16);
  mask ← option_or m options options_len JLOS_DHCP_OPT_SUBNET_MASK (c_subnet_mask (n_config s));
  gw ← option_or m options options_len JLOS_DHCP_OPT_ROUTER (c_gateway (n_config s));
  dns ← option_or m options options_len JLOS_DHCP_OPT_DNS_SERVER (c_dns_server (n_config s));
  let s := jlos_network_apply_config (set_config s (NetConfig yiaddr gw mask dns)) in
  Some (set_dhcp s (set_dstate (n_dhcp s) DHCP_BOUND)).

Definition jlos_dhcp_on_message (s : net) (m : list Z) (data size : Z) : option net :=
  let self := n_dhcp s in
  if size <? DHCP_HDR then Some s else
  op ← rd8 m data;
  x ← rd32 m (data + 4);
  cookie ← rd32 m (data + 236);
  if negb (op =? 2) || negb (x =? xid self) || negb (cookie =? JLOS_SWAP_ENDIAN_32 JLOS_DHCP_MAGIC_COOKIE) then Some s else
  let options := data + DHCP_HDR in
  let options_len := u16 (size - DHCP_HDR) in
  o ← dhcp_find_option m options options_len JLOS_DHCP_OPT_MSG_TYPE;
  match o with
  | None => Some s
  | Some p =>
    msg_type ← rd8 m p;
    if msg_type =? JLOS_DHCP_MSG_OFFER then jlos_dhcp_handle_offer s m data options options_len
    else if msg_type =? JLOS_DHCP_MSG_ACK then jlos_dhcp_handle_ack s m data options options_len
    else if msg_type =? JLOS_DHCP_MSG_NAK then Some (set_dhcp s (set_dstate self DHCP_FAILED))
    else Some s
  end.

Definition jlos_dhcp_client_init (s : net) (mac : list Z) : option net :=
  let s := set_dhcp s (Dhcp (dh_socket (n_dhcp s)) DHCP_INIT 0 0 0 mac) in
  '(k, s) ← jlos_udp_provider_listen mem_ok junk s JLOS_DHCP_CLIENT_PORT;
  let self := n_dhcp s in
  if k =? 0 then Some (set_dhcp s (Dhcp k DHCP_FAILED (xid self) (server_id self) (offered_ip self) (dh_mac self)))
  else jlos_udp_provider_bind (set_dhcp s (Dhcp k (dh_state self) (xid self) (server_id self) (offered_ip self) (dh_mac self))) k DHCP_HANDLER.

(** [now] is the monotonic time. *)
Definition jlos_dhcp_client_discover (s : net) (now : Z) : option net :=
  let self := n_dhcp s in
  if bool_decide (dh_state self = DHCP_BOUND) then Some s else
  let x := if xid self =? 0 then (if u32 now =? 0 then 1 else u32 now) else xid self in
  let self := Dhcp (dh_socket self) (dh_state self) x (server_id self) (offered_ip self) (dh_mac self) in
  let s := set_dhcp s self in
  m ← jlos_dhcp_fill_header (stack_buffer (DHCP_HDR + JLOS_DHCP_OPTIONS_MAX)) self;
  '(m, opt) ← dhcp_write_option m DHCP_HDR JLOS_DHCP_OPT_MSG_TYPE [JLOS_DHCP_MSG_DISCOVER];
  m ← wr8 m opt JLOS_DHCP_OPT_END;
  '(m, total) ← jlos_dhcp_pad_to_min m (u16 (opt + 1));
  s ← jlos_dhcp_send_broadcast s m total;
  Some (set_dhcp s (set_dstate (n_dhcp s) DHCP_SELECTING)).

(** The call at boot, once the stack exists. *)
Definition jlos_network_dhcp_start (s : net) (now : Z) : option net :=
  if bool_decide (dh_state (n_dhcp s) = DHCP_FAILED) then Some s else jlos_dhcp_client_discover s now.

(** ** DNS *)

Definition DNS_HDR : Z := 12.
Definition JLOS_DNS_SERVER_PORT : Z := 53.
Definition JLOS_DNS_TYPE_A : Z := 1.
Definition JLOS_DNS_CLASS_IN : Z := 1.
Definition JLOS_DNS_FLAG_RD : Z := 0x0100.
Definition JLOS_DNS_MAX_PACKET : Z := 512.
Definition JLOS_DNS_TIMEOUT_NS : Z := 2000000000.

(** The characters up to a dot, whether there is a dot, and what follows. *)
Fixpoint split_label (name : list Z) : list Z * bool * list Z :=
  match name with
  | [] => ([], false, [])
  | c :: name => if c =? 46 then ([], true, name) else let '(l, dot, rest) := split_label name in (c :: l, dot, rest)
  end.
(** [name] are the characters before the terminating zero; the length byte of a label
    is its length modulo 256, and that many of its characters follow. *)
Fixpoint encode_loop (fuel : nat) (m : list Z) (p : Z) (name : list Z) : option (list Z * Z) :=
  match name with
  | [] => m ← wr8 m p 0; Some (m, p + 1)
  | _ =>
    match fuel with
    | O => None
    | S fuel =>
      let '(label, _, rest) := split_label name in
      let len := u8 (zlen label) in
      m ← wr8 m p len;
      m ← write_run m (p + 1) (take (Z.to_nat len) label);
      encode_loop fuel m (p + 1 + len) rest
    end
  end.
Definition dns_encode_name (m : list Z) (p : Z) (name : list Z) : option (list Z * Z) :=
  encode_loop (length name) m p name.

(** [p] and [end_] are offsets in the memory. *)
Fixpoint skip_loop (fuel : nat) (m : list Z) (p end_ : Z) : option (option Z) :=
  if end_ <=? p then Some None
  else
    c ← rd8 m p;
    if c =? 0 then Some (Some (p + 1))
    else match fuel with
    | O => None
    | S fuel =>
      if Z.land c 0xC0 =? 0xC0 then (if end_ <=? p + 1 then Some None else Some (Some (p + 2)))
      else skip_loop fuel m (p + (c + 1)) end_
    end.
Definition dns_skip_name (m : list Z) (p end_ : Z) : option (option Z) := skip_loop (Z.to_nat (end_ - p)) m p end_.

(** The loop over the questions: the offset behind them, unless the message is short. *)
Fixpoint skip_questions (n : nat) (m : list Z) (p end_ : Z) : option (option Z) :=
  match n with
  | O => Some (Some p)
  | S n =>
    q ← dns_skip_name m p end_;
    match q with
    | None => Some None
    | Some p => if end_ <? p + 4 then Some None else skip_questions n m (p + 4) end_
    end
  end.
(** The loop over the answers: the address of the first record of type A. *)
Fixpoint find_answer (n : nat) (m : list Z) (p end_ : Z) : option (option Z) :=
  match n with
  | O => Some None
  | S n =>
    q ← dns_skip_name m p end_;
    match q with
    | None => Some None
    | Some p =>
      if end_ <? p + 10 then Some None else
      type ← rd16 m p;
      rdlength ← rd16 m (p + 8);
      let rdlength := JLOS_SWAP_ENDIAN_16 rdlength in
      let p := p + 10 in
      if end_ <? p + rdlength then Some None
      else if (JLOS_SWAP_ENDIAN_16 type =? JLOS_DNS_TYPE_A) && (rdlength =? 4) then ip ← rd32 m p; Some (Some ip)
      else find_answer n m (p + rdlength) end_
    end
  end.
Definition jlos_dns_on_response (s : net) (m : list Z) (data size : Z) : option net :=
  let self := n_dns s in
  if size <? DNS_HDR then Some s else
  id ← rd16 m data;
  if negb (id =? query_id self) then Some s else
  flags ← rd16 m (data + 2);
  if Z.land (JLOS_SWAP_ENDIAN_16 flags) 0x8000 =? 0 then Some s else
  ancount ← rd16 m (data + 6);
  if JLOS_SWAP_ENDIAN_16 ancount =? 0 then Some s else
  qdcount ← rd16 m (data + 4);
  let end_ := data + size in
  q ← skip_questions (Z.to_nat (JLOS_SWAP_ENDIAN_16 qdcount)) m (data + DNS_HDR) end_;
  match q with
  | None => Some s
  | Some p =>
    a ← find_answer (Z.to_nat (JLOS_SWAP_ENDIAN_16 ancount)) m p end_;
    match a with
    | None => Some s
    | Some ip => Some (set_dns s (Dns (dn_socket self) (query_id self) ip true))
    end
  end.

Definition jlos_dns_resolver_init (s : net) : net := set_dns s (Dns 0 0 0 false).

(** The wait for the answer: [clock] gives the monotonic time at each reading, [intr]
    what interrupts do between two looks at the flag. *)
Fixpoint resolve_wait (fuel : nat) (clock : nat -> Z) (intr : nat -> net -> net) (i : nat) (start : Z) (s : net) : option (bool * net) :=
  if resolved (n_dns s) then Some (true, s)
  else match fuel with
  | O => None
  | S fuel =>
    if JLOS_DNS_TIMEOUT_NS <? u64 (clock i - start) then Some (false, s)
    else resolve_wait fuel clock intr (S i) start (intr i s)
  end.
(** The address, if resolved.  [g_network_stack] is not null once the stack exists. *)
Definition jlos_dns_resolve (fuel : nat) (clock : nat -> Z) (intr : nat -> net -> net) (s : net) (name : list Z) : option (option Z * net) :=
  if c_dns_server (n_config s) =? 0 then Some (None, s) else
  '(k, s) ← jlos_udp_provider_connect mem_ok junk s (c_dns_server (n_config s)) JLOS_DNS_SERVER_PORT;
  if k =? 0 then Some (None, set_dns s (Dns 0 (query_id (n_dns s)) (resolved_ip (n_dns s)) (resolved (n_dns s)))) else
  s ← jlos_udp_provider_bind s k DNS_HANDLER;
  let s := set_dns s (Dns k (u16 (clock 0%nat)) 0 false) in
  let m := stack_buffer JLOS_DNS_MAX_PACKET in
  m ← wr16 m 0 (query_id (n_dns s));
  m ← wr16 m 2 (JLOS_SWAP_ENDIAN_16 JLOS_DNS_FLAG_RD);
  m ← wr16 m 4 (JLOS_SWAP_ENDIAN_16 1);
  m ← wr16 m 6 0;
  m ← wr16 m 8 0;
  m ← wr16 m 10 0;
  '(m, p) ← dns_encode_name m DNS_HDR name;
  m ← wr16 m p (JLOS_SWAP_ENDIAN_16 JLOS_DNS_TYPE_A);
  m ← wr16 m (p + 2) (JLOS_SWAP_ENDIAN_16 JLOS_DNS_CLASS_IN);
  data ← read_run m 0 (u16 (p + 4));
  s ← jlos_udp_provider_send mem_ok junk s k data;
  let start := u32 (clock 1%nat) in
  '(ok, s) ← resolve_wait fuel clock intr 2 start s;
  let out := resolved_ip (n_dns s) in
  s ← jlos_udp_provider_disconnect s (dn_socket (n_dns s));
  let s := set_dns s (Dns 0 (query_id (n_dns s)) (resolved_ip (n_dns s)) (resolved (n_dns s))) in
  Some (if (ok : bool) then Some out else None, s).
End clients.
