(* ===== verification/NetRx.v ===== *)
(** * The network stack: the receiving half and initialisation ([net/network.c], [net/etherframe.c],
    [net/arp.c], [net/ipv4.c], [net/icmp.c], [net/udp.c], [net/tcp.c])

    A frame goes up from [jlos_ether_frame_provider_on_raw_data_received] through the
    handler tables; a handler that returns true has its packet sent back with the
    addresses of each layer exchanged on the way down.

    The applications' message handlers are parameters: [udp_app] and [tcp_app] take the
    handler, the socket, the data and the whole stack, and may do anything to it.  The
    two handlers the stack registers itself are the DHCP client and the DNS resolver. *)
From S2P Require Import Prelude HashChain Bytes NetBuf NetStack NetApps.

(** ** Initialisation *)

Section init.
Context (mem_ok : nat -> bool) (junk : Z -> Z -> Z).

(** A table with room for its buckets. *)
Definition chain_init (s : net) : option (hash_chain * net) :=
  let '(ok, q) := attempt mem_ok (n_pool s) in
  h ← jlos_hash_chain_init 32 (fun _ => ok) (fun _ => HNode 0 PNull) JLOS_NET_HASH_CHAIN_NUM;
  Some (h, set_pool s q).

Definition jlos_ether_frame_handler_init (s : net) (h etherType : Z) (fn : ether_fn) : option net :=
  let t := JLOS_SWAP_ENDIAN_16 etherType in
  c ← jlos_hash_chain_insert jlos_hash_uint16 (eth_handlers (n_eth s)) t h;
  Some (set_eth s (Ether c (<[h := EtherHandler t fn]> (eth_objs (n_eth s))))).
Definition jlos_ether_frame_handler_destroy (s : net) (h : Z) : option net :=
  c ← jlos_hash_chain_remove (eth_handlers (n_eth s)) h; Some (set_eth s (Ether c (eth_objs (n_eth s)))).
Definition jlos_ether_frame_provider_init (s : net) : option net :=
  '(c, s) ← chain_init s; Some (set_eth s (Ether c ∅)).

Definition jlos_arp_init (s : net) : option net :=
  jlos_ether_frame_handler_init (set_arp s (Arp (ip_cache (n_arp s)) (mac_cache (n_arp s)) 0)) ARP_OBJ 0x806 EthArp.

Definition jlos_internet_protocol_provider_init (s : net) (gateway_ip subnet_mask : Z) : option net :=
  s ← jlos_ether_frame_handler_init s IPV4_OBJ 0x800 EthIpv4;
  Some (set_ip s (Ipv4 (replicate 255 0) ∅ gateway_ip subnet_mask)).
Definition jlos_internet_protocol_handler_init (s : net) (h protocol : Z) (fn : ip_fn) : option net :=
  l ← seti (handlers (n_ip s)) protocol h;
  Some (set_ip s (Ipv4 l (<[h := IpHandler protocol fn]> (ip_objs (n_ip s))) (gateway_ip (n_ip s)) (subnet_mask (n_ip s)))).
Definition jlos_internet_protocol_handler_destroy (s : net) (h : Z) : option net :=
  o ← ip_objs (n_ip s) !! h;
  x ← geti (handlers (n_ip s)) (ip_protocol o);
  if x =? h then
    l ← seti (handlers (n_ip s)) (ip_protocol o) 0;
    Some (set_ip s (Ipv4 l (ip_objs (n_ip s)) (gateway_ip (n_ip s)) (subnet_mask (n_ip s))))
  else Some s.

Definition jlos_icmp_init (s : net) : option net := jlos_internet_protocol_handler_init s ICMP_OBJ 0x01 IpIcmp.
Definition jlos_udp_provider_init (s : net) : option net :=
  s ← jlos_internet_protocol_handler_init s UDP_OBJ 0x11 IpUdp;
  '(c, s) ← chain_init s;
  Some (set_udp s (Udp c ∅ 0 JLOS_EPHEMERAL_PORT_START)).
Definition jlos_tcp_provider_init (s : net) : option net :=
  s ← jlos_internet_protocol_handler_init s TCP_OBJ 0x06 IpTcp;
  '(c, s) ← chain_init s;
  Some (set_tcp s (Tcp c ∅ 0 JLOS_EPHEMERAL_PORT_START)).

(** Tearing down. [jlos_ether_frame_provider_destroy] also takes the stack off the device. *)
Definition jlos_arp_destroy (s : net) : option net := jlos_ether_frame_handler_destroy s ARP_OBJ.
Definition jlos_internet_protocol_provider_destroy (s : net) : option net := jlos_ether_frame_handler_destroy s IPV4_OBJ.
Definition jlos_icmp_destroy (s : net) : option net := jlos_internet_protocol_handler_destroy s ICMP_OBJ.
Definition jlos_udp_provider_destroy (s : net) : option net :=
  let u := n_udp s in
  jlos_internet_protocol_handler_destroy
    (set_udp s (Udp (jlos_hash_chain_destroy (u_sockets u)) (u_objs u) (u_num_sockets u) (u_free_port u))) UDP_OBJ.
Definition jlos_tcp_provider_destroy (s : net) : option net :=
  let t := n_tcp s in
  jlos_internet_protocol_handler_destroy
    (set_tcp s (Tcp (jlos_hash_chain_destroy (t_sockets t)) (t_objs t) (t_num_sockets t) (t_free_port t))) TCP_OBJ.

(** [network_init] from the point where the memory and the device are there; [s] is
    what the memory of the stack held before. *)
Definition network_init (s : net) : option net :=
  let s := set_config s (NetConfig 0 0 0 0) in
  let s := jlos_hal_net_set_ip_address s (c_ip (n_config s)) in
  s ← jlos_ether_frame_provider_init s;
  s ← jlos_arp_init s;
  s ← jlos_internet_protocol_provider_init s (c_gateway (n_config s)) (c_subnet_mask (n_config s));
  s ← jlos_icmp_init s;
  s ← jlos_udp_provider_init s;
  s ← jlos_tcp_provider_init s;
  let mac := jlos_hal_net_get_mac_address s in
  s ← jlos_dhcp_client_init mem_ok junk s (mac_bytes mac);
  Some (jlos_dns_resolver_init s).
End init.

(** ** Receiving *)

Section rx.
Context (mem_ok : nat -> bool) (junk : Z -> Z -> Z).
Context (udp_app : Z -> Z -> list Z -> net -> option net).
Context (tcp_app : Z -> Z -> list Z -> net -> option (bool * net)).

(** *** ARP *)

Definition jlos_arp_on_ether_frame_received (s : net) (p : Z) : option (bool * net) :=
  b ← get_skb s p;
  if jlos_net_skb_len b <? ARP_MSG then Some (false, s) else
  let m := s_mem b in
  let arp := s_data b in
  hardware_type ← rd16 m arp;
  if negb (hardware_type =? 0x0100) then Some (false, s) else
  prot ← rd16 m (arp + 2);
  hsize ← rd8 m (arp + 4);
  psize ← rd8 m (arp + 5);
  dst ← rd32 m (arp + 24);
  if (prot =? 0x0008) && (hsize =? 6) && (psize =? 4) && (dst =? jlos_hal_net_get_ip_address s) then
    command ← rd16 m (arp + 6);
    if command =? 0x0100 then
      m ← wr16 m (arp + 6) 0x0200;
      src ← rd32 m (arp + 14);
      m ← wr32 m (arp + 24) src;
      src_mac ← read_run m (arp + 8) 6;
      m ← write_run m (arp + 18) src_mac;
      m ← wr32 m (arp + 14) (jlos_hal_net_get_ip_address s);
      m ← uint64_to_mac m (arp + 8) (jlos_hal_net_get_mac_address s);
      Some (true, put_skb s p (with_mem b m))
    else if command =? 0x0200 then
      let a := n_arp s in
      if num_cache_entries a <? 128 then
        src ← rd32 m (arp + 14);
        ips ← seti (ip_cache a) (num_cache_entries a) src;
        src_mac ← read_run m (arp + 8) 6;
        macs ← seti (mac_cache a) (num_cache_entries a) (mac_to_uint64 src_mac);
        Some (false, set_arp s (Arp ips macs (num_cache_entries a + 1)))
      else Some (false, s)
    else Some (false, s)
  else Some (false, s).

(** *** ICMP *)

Definition jlos_icmp_on_internet_protocol_received (s : net) (p : Z) : option (bool * net) :=
  b ← get_skb s p;
  let size := jlos_net_skb_len b in
  if size <? ICMP_MSG then Some (false, s) else
  let msg := s_data b in
  type ← rd8 (s_mem b) msg;
  if type =? 8 then
    m ← wr8 (s_mem b) msg 0;
    m ← wr16 m (msg + 2) 0;
    data ← read_run m msg size;
    c ← jlos_internet_protocol_provider_csum_fold (jlos_internet_protocol_provider_csum_partial data 0);
    m ← wr16 m (msg + 2) c;
    Some (true, put_skb s p (with_mem b m))
  else Some (false, s).

(** *** UDP *)

(** The result and the socket, which takes the peer's address when it listens.
    [args] are the source address and port and the destination address and port. *)
Definition udp_match_socket (x : udp_socket) (args : Z * Z * Z * Z) : Z * udp_socket :=
  let '(sip, sport, dip, dport) := args in
  if negb (u_local_port x =? u16 dport) then (-1, x)
  else if negb (u_local_ip x =? dip) && negb (dip =? JLOS_IPV4_BROADCAST) then (-1, x)
  else if (u_remote_ip x =? sip) && (u_remote_port x =? u16 sport) then (0, x)
  else if listening x then (0, UdpSocket (u16 sport) sip (u_local_port x) (u_local_ip x) (u_handler x) (listening x))
  else (-1, x).
(** The search, and the socket as the match left it: the walk stops at the socket it changes. *)
Definition udp_find (s : net) (key : Z * Z) (args : Z * Z * Z * Z) : option (option Z * net) :=
  let test k := match get_usock s k with Some x => fst (udp_match_socket x args) | None => -1 end in
  r ← jlos_hash_chain_find udp_hash_ip_port (size (u_objs (n_udp s))) (u_sockets (n_udp s)) key test;
  match r with
  | None => Some (None, s)
  | Some k => x ← get_usock s k; Some (Some k, put_usock s k (snd (udp_match_socket x args)))
  end.

(** The handler of the socket, given the message in the buffer. *)
Definition jlos_udp_socket_handle_udp_message (s : net) (k : Z) (m : list Z) (o size : Z) : option net :=
  x ← get_usock s k;
  if u_handler x =? 0 then Some s
  else if u_handler x =? DHCP_HANDLER then jlos_dhcp_on_message mem_ok junk s m o size
  else if u_handler x =? DNS_HANDLER then jlos_dns_on_response s m o size
  else data ← read_run m o size; udp_app (u_handler x) k data s.

Definition jlos_udp_provider_on_internet_protocol_received (s : net) (p : Z) : option (bool * net) :=
  b ← get_skb s p;
  let size := jlos_net_skb_len b in
  if size <? UDP_HDR then Some (false, s) else
  let msg := s_data b in
  sport ← rd16 (s_mem b) msg;
  dport ← rd16 (s_mem b) (msg + 2);
  let args := (src_ip b, sport, dst_ip b, dport) in
  '(node, s) ← udp_find s (dst_ip b, dport) args;
  '(node, s) ← (match node with
    | None => if dst_ip b =? JLOS_IPV4_BROADCAST then udp_find s (0, dport) args else Some (node, s)
    | _ => Some (node, s)
    end);
  match node with
  | Some k =>
    s ← jlos_udp_socket_handle_udp_message s k (s_mem b) (msg + UDP_HDR) (u16 (size - UDP_HDR));
    Some (true, s)
  | None => Some (false, s)
  end.

(** *** TCP *)

(** [args] are the source address and port, the flags, the destination address and port. *)
Definition tcp_match_socket (x : tcp_socket) (args : Z * Z * Z * Z * Z) : Z :=
  let '(sip, sport, flags, dip, dport) := args in
  if negb (t_local_ip x =? dip) || negb (t_local_port x =? u16 dport) then -1
  else if bool_decide (t_state x = JLOS_TCP_CLOSED) then -1
  else if bool_decide (t_state x = JLOS_TCP_LISTEN) && (Z.land (u16 flags) (Z.lor JLOS_TCP_SYN JLOS_TCP_ACK) =? JLOS_TCP_SYN) then 0
  else if (t_remote_ip x =? sip) && (t_remote_port x =? u16 sport) then 0
  else -1.

Definition jlos_tcp_socket_handle_tcp_message (s : net) (k : Z) (data : list Z) : option (bool * net) :=
  x ← get_tsock s k;
  if t_handler x =? 0 then Some (false, s) else tcp_app (t_handler x) k data s.

(** What a segment carries: ports and addresses as in the packet, the numbers in host order. *)
Record segment := Segment {
  g_src_port : Z; g_dst_port : Z; g_src_ip : Z; g_dst_ip : Z; g_seq : Z; g_ack : Z; g_flags : Z; g_offset : Z; g_size : Z }.

(** What the switch over the flags ends with: a return of false, or [reset]. *)
Inductive seg_out := Done | Reset (reset : bool).
Abbreviation tsend s k flags := (jlos_tcp_provider_send mem_ok junk s k [] flags).

(** The default case of the switch: the payload. [m] and [data] are the memory of the
    buffer and the offset of the segment. *)
Definition tcp_payload (s : net) (k : Z) (g : segment) (m : list Z) (data : Z) : option (seg_out * net) :=
  x ← get_tsock s k;
  if g_seq g =? acknowledgement_number x then
    let header_bytes := g_offset g * 4 in
    if (g_offset g <? JLOS_TCP_MIN_DATA_OFFSET) || (g_size g <? header_bytes) then Some (Reset true, s)
    else
      let payload_len := g_size g - header_bytes in
      payload ← read_run m (data + header_bytes) (u16 payload_len);
      '(ok, s) ← jlos_tcp_socket_handle_tcp_message s k payload;
      if (ok : bool) then
        x ← get_tsock s k;
        s ← tsend (put_tsock s k (set_ack x (u32 (acknowledgement_number x + payload_len)))) k JLOS_TCP_ACK;
        Some (Reset false, s)
      else Some (Reset true, s)
  else Some (Reset true, s).

(** The cases of the switch. *)
Definition tcp_on_syn (s : net) (k : Z) (g : segment) : option (seg_out * net) :=
  x ← get_tsock s k;
  match t_state x with
  | JLOS_TCP_LISTEN =>
    let x := TcpSocket (g_src_port g) (g_src_ip g) (t_local_port x) (t_local_ip x) 0xbeefcafe (u32 (g_seq g + 1))
      (t_handler x) JLOS_TCP_SYN_RECEIVED (state_cond x) in
    s ← tsend (put_tsock s k x) k (Z.lor JLOS_TCP_SYN JLOS_TCP_ACK); Some (Reset false, s)
  | JLOS_TCP_SYN_RECEIVED => s ← tsend s k (Z.lor JLOS_TCP_SYN JLOS_TCP_ACK); Some (Reset false, s)
  | _ => Some (Reset true, s)
  end.
Definition tcp_on_syn_ack (s : net) (k : Z) (g : segment) : option (seg_out * net) :=
  x ← get_tsock s k;
  match t_state x with
  | JLOS_TCP_SYN_SENT =>
    let x := set_seq (set_ack (set_state x JLOS_TCP_ESTABLISHED) (u32 (g_seq g + 1))) (g_ack g) in
    s ← tsend (put_tsock s k x) k JLOS_TCP_ACK; Some (Reset false, s)
  | _ => Some (Reset true, s)
  end.
Definition tcp_on_fin (s : net) (k : Z) (g : segment) : option (seg_out * net) :=
  x ← get_tsock s k;
  let x := set_ack x (u32 (g_seq g + 1)) in
  let reply st := s ← tsend (put_tsock s k (set_state x st)) k JLOS_TCP_ACK; Some (Reset false, s) in
  match t_state x with
  | JLOS_TCP_ESTABLISHED => reply JLOS_TCP_CLOSE_WAIT
  | JLOS_TCP_CLOSE_WAIT => reply JLOS_TCP_CLOSE_WAIT
  | JLOS_TCP_LAST_ACK => reply JLOS_TCP_LAST_ACK
  | JLOS_TCP_FIN_WAIT1 => reply (if Z.land (g_flags g) JLOS_TCP_ACK =? 0 then JLOS_TCP_CLOSING else JLOS_TCP_TIME_WAIT)
  | JLOS_TCP_FIN_WAIT2 => reply JLOS_TCP_TIME_WAIT
  | _ => Some (Reset true, put_tsock s k x)
  end.
Definition tcp_on_ack (s : net) (k : Z) (g : segment) (m : list Z) (data : Z) : option (seg_out * net) :=
  x ← get_tsock s k;
  match t_state x with
  | JLOS_TCP_SYN_RECEIVED => Some (Done, put_tsock s k (set_seq (set_state x JLOS_TCP_ESTABLISHED) (g_ack g)))
  | JLOS_TCP_FIN_WAIT1 => Some (Done, put_tsock s k (set_state x JLOS_TCP_FIN_WAIT2))
  | JLOS_TCP_CLOSING => Some (Reset false, put_tsock s k (set_state x JLOS_TCP_TIME_WAIT))
  | JLOS_TCP_LAST_ACK => Some (Reset false, put_tsock s k (set_state x JLOS_TCP_CLOSED))
  | _ => tcp_payload s k g m data
  end.

(** The switch over [flags & (SYN | ACK | FIN)]. *)
Definition tcp_switch (s : net) (k : Z) (g : segment) (m : list Z) (data : Z) : option (seg_out * net) :=
  let f := Z.land (g_flags g) (Z.lor (Z.lor JLOS_TCP_SYN JLOS_TCP_ACK) JLOS_TCP_FIN) in
  if f =? JLOS_TCP_SYN then tcp_on_syn s k g
  else if f =? Z.lor JLOS_TCP_SYN JLOS_TCP_ACK then tcp_on_syn_ack s k g
  else if (f =? Z.lor JLOS_TCP_SYN JLOS_TCP_FIN) || (f =? Z.lor (Z.lor JLOS_TCP_SYN JLOS_TCP_FIN) JLOS_TCP_ACK) then Some (Reset true, s)
  else if (f =? JLOS_TCP_FIN) || (f =? Z.lor JLOS_TCP_FIN JLOS_TCP_ACK) then tcp_on_fin s k g
  else if f =? JLOS_TCP_ACK then tcp_on_ack s k g m data
  else tcp_payload s k g m data.

(** A segment for the socket [k]: [RST], the switch, the reset and the final state. *)
Definition tcp_deliver (s : net) (k : Z) (g : segment) (m : list Z) (data : Z) : option (bool * net) :=
  x ← get_tsock s k;
  let s := if Z.land (g_flags g) JLOS_TCP_RST =? 0 then s else put_tsock s k (set_state x JLOS_TCP_CLOSED) in
  x ← get_tsock s k;
  '(out, s) ← (if bool_decide (t_state x = JLOS_TCP_CLOSED) then Some (Reset false, s) else tcp_switch s k g m data);
  match out with
  | Done => Some (false, s)
  | Reset reset =>
    s ← (if (reset : bool) then tsend s k JLOS_TCP_RST else Some s);
    x ← get_tsock s k;
    let x := if bool_decide (t_state x = JLOS_TCP_TIME_WAIT) then set_state x JLOS_TCP_CLOSED else x in
    Some (false, put_tsock s k (TcpSocket (t_remote_port x) (t_remote_ip x) (t_local_port x) (t_local_ip x) (sequence_number x)
      (acknowledgement_number x) (t_handler x) (t_state x) (state_cond x + 1)))
  end.

(** The header of the segment at [msg]. *)
Definition read_segment (b : skb) : option segment :=
  let m := s_mem b in
  let msg := s_data b in
  f0 ← rd8 m (msg + 12);
  f1 ← rd8 m (msg + 13);
  sport ← rd16 m msg;
  dport ← rd16 m (msg + 2);
  seq ← rd32 m (msg + 4);
  ack ← rd32 m (msg + 8);
  Some (Segment sport dport (src_ip b) (dst_ip b) (JLOS_SWAP_ENDIAN_32 seq) (JLOS_SWAP_ENDIAN_32 ack)
    (Z.lor f1 (Z.shiftl (Z.land f0 0x01) 8)) (Z.land (Z.shiftr f0 4) 0x0F) (jlos_net_skb_len b)).

Definition jlos_tcp_provider_on_internet_protocol_received (s : net) (p : Z) : option (bool * net) :=
  b ← get_skb s p;
  if jlos_net_skb_len b <? 20 then Some (false, s) else
  g ← read_segment b;
  let args := (g_src_ip g, g_src_port g, g_flags g, g_dst_ip g, g_dst_port g) in
  let test k := match get_tsock s k with Some x => tcp_match_socket x args | None => -1 end in
  node ← jlos_hash_chain_find tcp_hash_ip_port (size (t_objs (n_tcp s))) (t_sockets (n_tcp s)) (g_dst_ip g, g_dst_port g) test;
  match node with
  | Some k => tcp_deliver s k g (s_mem b) (s_data b)
  | None => Some (false, s)
  end.

(** *** IPv4 *)

Definition ip_handle (fn : ip_fn) (s : net) (p : Z) : option (bool * net) :=
  match fn with
  | IpDefault => Some (false, s)
  | IpIcmp => jlos_icmp_on_internet_protocol_received s p
  | IpUdp => jlos_udp_provider_on_internet_protocol_received s p
  | IpTcp => jlos_tcp_provider_on_internet_protocol_received s p
  end.

Definition jlos_internet_protocol_provider_on_ether_frame_received (s : net) (p : Z) : option (bool * net) :=
  b ← get_skb s p;
  if jlos_net_skb_len b <? IPV4_HDR then Some (false, s) else
  let ip := s_data b in
  v ← rd8 (s_mem b) ip;
  let header_length := Z.land v 0x0F in
  dst ← rd32 (s_mem b) (ip + 16);
  if (dst =? jlos_hal_net_get_ip_address s) || (dst =? JLOS_IPV4_BROADCAST) then
    proto ← rd8 (s_mem b) (ip + 9);
    h ← geti (handlers (n_ip s)) proto;
    if h =? 0 then Some (false, s) else
    src ← rd32 (s_mem b) (ip + 12);
    o ← ip_objs (n_ip s) !! h;
    let s := put_skb s p (jlos_net_skb_pull (with_addr b src dst proto) (4 * header_length)) in
    '(send_back, s) ← ip_handle (on_internet_protocol_received o) s p;
    if negb send_back then Some (false, s) else
    b ← get_skb s p;
    let b := jlos_net_skb_push b (4 * header_length) in
    temp ← rd32 (s_mem b) (ip + 16);
    src ← rd32 (s_mem b) (ip + 12);
    m ← wr32 (s_mem b) (ip + 16) src;
    m ← wr32 m (ip + 12) temp;
    m ← wr8 m (ip + 8) 0x40;
    m ← wr16 m (ip + 10) 0;
    hdr ← read_run m ip (4 * header_length);
    c ← jlos_internet_protocol_provider_csum_fold (jlos_internet_protocol_provider_csum_partial hdr 0);
    m ← wr16 m (ip + 10) c;
    Some (true, put_skb s p (with_mem b m))
  else Some (false, s).

(** *** Ethernet *)

Definition ether_frame_cmp (objs : gmap Z ether_handler) (be node : Z) : Z :=
  match objs !! node with Some h => be - etherType_BE h | None => -1 end.
Definition ether_handle (fn : ether_fn) (s : net) (p : Z) : option (bool * net) :=
  match fn with
  | EthDefault => Some (false, s)
  | EthArp => jlos_arp_on_ether_frame_received s p
  | EthIpv4 => jlos_internet_protocol_provider_on_ether_frame_received s p
  end.

(** The part for a handler that returned true: the frame goes back to its sender. *)
Definition ether_send_back (s : net) (p : Z) : option net :=
  b ← get_skb s p;
  let b := jlos_net_skb_push b ETHER_HDR in
  let eh := s_data b in
  src ← read_run (s_mem b) (eh + 6) 6;
  m ← write_run (s_mem b) eh src;
  m ← uint64_to_mac m (eh + 6) (jlos_hal_net_get_mac_address s);
  let b := with_mem b m in
  jlos_hal_net_send (put_skb s p b) (s_mem b) (s_data b) (jlos_net_skb_len b).

Definition jlos_ether_frame_provider_on_raw_data_received (s : net) (buffer : list Z) : option net :=
  match skb_alloc mem_ok junk s (zlen buffer) with
  | (None, s) => Some s
  | (Some p, s) =>
    b ← get_skb s p;
    let '(o, b) := jlos_net_skb_put b (zlen buffer) in
    m ← write_run (s_mem b) o buffer;
    let b := with_mem b m in
    let s := put_skb s p b in
    if jlos_net_skb_len b <? ETHER_HDR then skb_free s p else
    let frame := s_data b in
    dst ← read_run m frame 6;
    if mac_address_is_broadcast dst || mac_address_eq dst (mac_bytes (jlos_hal_net_get_mac_address s)) then
      type ← rd16 m (frame + 12);
      node ← jlos_hash_chain_see jlos_hash_uint16 (ether_frame_cmp (eth_objs (n_eth s)))
        (size (eth_objs (n_eth s))) (eth_handlers (n_eth s)) type;
      match node with
      | None => skb_free s p
      | Some h =>
        o ← eth_objs (n_eth s) !! h;
        let s := put_skb s p (jlos_net_skb_pull b ETHER_HDR) in
        '(send_back, s) ← ether_handle (on_ether_frame_received o) s p;
        if negb send_back then skb_free s p else
        s ← ether_send_back s p;
        skb_free s p
      end
    else skb_free s p
  end.
End rx.
