(* ===== verification/NetSend.v ===== *)
(** * What the network stack puts on the wire

    The frames as lists of bytes ([ether_wire], [ip_wire], [udp_wire], [tcp_wire],
    [arp_wire]), and that the sending functions of [NetStack] hand exactly these frames
    to the driver, release their buffers and change nothing else. *)
From S2P Require Import Prelude HashChain Bytes NetBuf NetStack.

(** ** Wire formats *)

Definition ether_wire (dst src type : Z) (payload : list Z) : list Z := mac_bytes dst ++ mac_bytes src ++ bytes16 type ++ payload.

(** The header with the checksum field [c]. *)
Definition ip_header (len proto src dst : Z) (c : list Z) : list Z :=
  [0x45; 0; len `div` 256; len `mod` 256; 0; 1; 0x40; 0; 0x40; proto] ++ c ++ bytes32 src ++ bytes32 dst.
(** The checksum bytes of a packet that sums up to [sum]. *)
Definition csum_bytes (sum : Z) : list Z :=
  match jlos_internet_protocol_provider_csum_fold sum with Some c => bytes16 c | None => [] end.
Definition ip_csum (len proto src dst : Z) : list Z :=
  csum_bytes (jlos_internet_protocol_provider_csum_partial (ip_header len proto src dst [0; 0]) 0).
Definition ip_wire (proto src dst : Z) (payload : list Z) : list Z :=
  let len := 20 + zlen payload in ip_header len proto src dst (ip_csum len proto src dst) ++ payload.

Definition udp_wire (sport dport : Z) (data : list Z) : list Z :=
  let len := 8 + zlen data in bytes16 sport ++ bytes16 dport ++ [len `div` 256; len `mod` 256; 0; 0] ++ data.

(** The TCP segment a socket sends; the options of a SYN are the segment size. *)
Definition is_syn (flags : Z) : bool := negb (Z.land flags JLOS_TCP_SYN =? 0).
Definition tcp_hdr_len (flags : Z) : Z := if is_syn flags then 24 else 20.
Definition tcp_header (x : tcp_socket) (flags : Z) (c : list Z) : list Z :=
  bytes16 (t_local_port x) ++ bytes16 (t_remote_port x) ++ bytes32 (JLOS_SWAP_ENDIAN_32 (sequence_number x)) ++
  bytes32 (JLOS_SWAP_ENDIAN_32 (acknowledgement_number x)) ++
  [u8 (Z.lor (Z.shiftl (Z.land (if is_syn flags then 6 else 5) 0x0F) 4) (Z.land (Z.shiftr flags 8) 0x01)); u8 (Z.land flags 0xFF); 255; 255] ++
  c ++ [0; 0] ++ (if is_syn flags then [2; 4; 5; 180] else []).
Definition tcp_pseudo (x : tcp_socket) (len : Z) : list Z :=
  bytes32 (t_local_ip x) ++ bytes32 (t_remote_ip x) ++ [0; 6; len `div` 256; len `mod` 256].
Definition tcp_csum (x : tcp_socket) (data : list Z) (flags : Z) : list Z :=
  csum_bytes (jlos_internet_protocol_provider_csum_partial (tcp_header x flags [0; 0] ++ data)
    (jlos_internet_protocol_provider_csum_partial (tcp_pseudo x (zlen data + tcp_hdr_len flags)) 0)).
Definition tcp_wire (x : tcp_socket) (data : list Z) (flags : Z) : list Z :=
  tcp_header x flags (tcp_csum x data flags) ++ data.

Definition arp_wire (cmd smac sip dmac dip : Z) : list Z :=
  [0; 1; 8; 0; 6; 4] ++ bytes16 cmd ++ mac_bytes smac ++ bytes32 sip ++ mac_bytes dmac ++ bytes32 dip.

(** ** Lengths *)

Lemma length_bytes16 x : length (bytes16 x) = 2%nat. Proof. done. Qed.
Lemma length_bytes32 x : length (bytes32 x) = 4%nat. Proof. done. Qed.
Lemma length_mac_bytes x : length (mac_bytes x) = 6%nat. Proof. done. Qed.
Lemma csum_bytes_2 sum : 0 <= sum < 2 ^ 32 -> exists a b, csum_bytes sum = [a; b] /\ 0 <= a < 256 /\ 0 <= b < 256.
Proof.
  intros H. unfold csum_bytes. destruct (csum_fold_spec sum H) as (f & _ & ->). eexists _, _. split; [done|].
  split; apply byte_of_range.
Qed.
Lemma ip_header_bytes len proto src dst c : 0 <= len < 2 ^ 16 -> 0 <= proto < 256 -> bytes c -> bytes (ip_header len proto src dst c).
Proof.
  intros Hl Hp Hc. unfold ip_header. repeat apply Forall_app_2; try done; [|apply bytes32_bytes..].
  repeat constructor; try lia; zmod.
Qed.

(** ** The effect of sending *)

(** A buffer is released, and its memory. *)
Definition without_skb (s : net) (p : Z) (b : skb) : net :=
  let q := jlos_net_skb_data_free (n_pool s) (data_flags b) (data_pages b) in
  set_pool s (Pool (delete p (skbs q)) (next_id q) (attempts q) (kbufs q) (frames q)).

Lemma skb_free_last s p b : get_skb s p = Some b -> refcount b = 1 -> skb_free s p = Some (without_skb s p b).
Proof. intros H R. unfold skb_free, jlos_net_skb_free. unfold get_skb in H. rewrite H. simpl. rewrite R. done. Qed.
Lemma length_ether_wire dst src type payload : length (ether_wire dst src type payload) = (14 + length payload)%nat.
Proof. done. Qed.
Lemma length_ip_wire proto src dst payload : 20 + zlen payload < 2 ^ 16 -> 0 <= proto < 256 ->
  length (ip_wire proto src dst payload) = (20 + length payload)%nat.
Proof.
  intros Hl Hp. unfold ip_wire, ip_csum. edestruct csum_bytes_2 as (a & b & -> & _); [|done].
  rewrite csum_partial_wsum; [apply u32_range| |lia]. apply ip_header_bytes; [lia|done|]. repeat constructor; lia.
Qed.
Lemma without_put s p b b' : data_flags b' = data_flags b -> data_pages b' = data_pages b ->
  without_skb (put_skb s p b') p b' = without_skb s p b.
Proof.
  intros E1 E2. unfold without_skb, put_skb, jlos_net_skb_data_free. rewrite E1, E2. simpl.
  destruct (_ =? _); simpl; by rewrite delete_insert_eq.
Qed.
Definition tx_frame (s : net) (f : list Z) : net :=
  set_dev s (NetDev (mac_address (n_dev s)) (ip_address (n_dev s)) (tx (n_dev s) ++ [f])).
Lemma get_put_skb s p b : get_skb (put_skb s p b) p = Some b.
Proof. apply lookup_insert_eq. Qed.
Lemma hal_send_spec s m f o n : read_run m o n = Some f -> jlos_hal_net_send s m o n = Some (tx_frame s f).
Proof. intros H. unfold jlos_hal_net_send. by rewrite H. Qed.

(** A write into the explicit piece of a buffer, computed. *)
Ltac run_piece t :=
  let r := eval lazy -[byte_of Z.land Z.shiftr Z.lor Z.shiftl JLOS_SWAP_ENDIAN_16 JLOS_SWAP_ENDIAN_32 u8 u16 u32 Z.div Z.modulo] in t in r.
Ltac piece_offset pre o := lazymatch o with Z.of_nat (length pre) + ?k => k | _ => constr:(0) end.
Ltac wr_term t :=
  lazymatch t with
  | wr8 (?pre ++ ?old ++ ?post) ?o ?v =>
    let i := piece_offset pre o in
    let r := run_piece (fun y => wr8 old i y) in
    lazymatch r with fun y => Some (@?new y) => let new := eval cbv beta in (new v) in bind (wr8_mid pre old post o i v new ltac:(lia) eq_refl) end
  | wr16 (?pre ++ ?old ++ ?post) ?o ?v =>
    let i := piece_offset pre o in
    let r := run_piece (fun y => wr16 old i y) in
    lazymatch r with fun y => Some (@?new y) => let new := eval cbv beta in (new v) in bind (wr16_mid pre old post o i v new ltac:(lia) eq_refl) end
  | wr32 (?pre ++ ?old ++ ?post) ?o ?v =>
    let i := piece_offset pre o in
    let r := run_piece (fun y => wr32 old i y) in
    lazymatch r with fun y => Some (@?new y) => let new := eval cbv beta in (new v) in bind (wr32_mid pre old post o i v new ltac:(lia) eq_refl) end
  | write_run (?pre ++ ?old ++ ?post) ?o ?v =>
    let i := piece_offset pre o in
    let r := run_piece (write_run old i v) in
    lazymatch r with Some ?new => bind (write_run_mid pre old post o i v new ltac:(lia) eq_refl) end
  end.
Ltac wr_step := lazymatch goal with |- (?t ≫= _) = _ => wr_term t | |- returns (?t ≫= _) _ => wr_term t end.

Lemma ether_send_spec s dst type p b old payload : get_skb s p = Some b -> refcount b = 1 ->
  s_data b = 14 -> s_mem b = old ++ payload -> length old = 14%nat -> s_tail b = 14 + zlen payload -> 14 + zlen payload < 2 ^ 32 ->
  jlos_ether_frame_provider_send s dst type p = Some (tx_frame (without_skb s p b) (ether_wire dst (mac_address (n_dev s)) type payload)).
Proof.
  intros Hg Hr Hd Hm Ho Ht Hl. unfold jlos_ether_frame_provider_send. bind Hg.
  unfold jlos_net_skb_push, ETHER_HDR, uint64_to_mac. cbn [s_data s_mem s_tail with_window with_mem]. rewrite Hd, Hm.
  change (old ++ payload) with ([] ++ old ++ payload). change (14 - 14) with (zlen (@nil Z)). split_bytes old Ho.
  change (jlos_hal_net_get_mac_address s) with (mac_address (n_dev s)). remember (mac_address (n_dev s)) as mac eqn:Emac.
  do 3 wr_step. change ([] ++ ?l) with l. eapply bind_step; [eapply hal_send_spec|].
  2: { erewrite skb_free_last; [|apply get_put_skb|done]. f_equal.
    rewrite <- (without_put s p b (with_mem (with_window b 0 (s_tail b)) (ether_wire dst mac type payload))) by done. done. }
  apply read_run_all. unfold jlos_net_skb_len. cbn [s_tail s_data with_window with_mem]. rewrite Ht, u32_small by (simpl; lia).
    rewrite length_ether_wire. simpl. lia.
Qed.

Section send.
Context (mem_ok : nat -> bool) (junk : Z -> Z -> Z).

(** The packet of [ip_send] is built in place in front of the payload. *)
Definition ip_route (s : net) (dst : Z) : Z :=
  if Z.land dst (subnet_mask (n_ip s)) =? Z.land (ip_address (n_dev s)) (subnet_mask (n_ip s)) then dst else gateway_ip (n_ip s).
Definition ip_framed (s : net) (p : Z) (b : skb) (dst proto : Z) (pre payload : list Z) : net :=
  put_skb s p (with_mem (with_window b (s_data b - 20) (s_tail b)) (pre ++ ip_wire proto (ip_address (n_dev s)) dst payload)).
Lemma ip_send_framed s dst proto p b pre old payload : get_skb s p = Some b -> 0 <= proto < 256 ->
  s_data b = zlen pre + 20 -> s_mem b = pre ++ old ++ payload -> length old = 20%nat -> s_tail b = s_data b + zlen payload ->
  20 + zlen payload < 2 ^ 16 ->
  jlos_internet_protocol_provider_send mem_ok junk s dst proto p =
  let s := ip_framed s p b dst proto pre payload in
  if dst =? JLOS_IPV4_BROADCAST then jlos_ether_frame_handler_send s IPV4_OBJ JLOS_ETHER_BROADCAST_MAC p
  else
    '(mac, s) ← jlos_arp_lookup_or_request mem_ok junk s (ip_route s dst);
    if mac =? 0xFFFFFFFFFFFF then skb_free s p else jlos_ether_frame_handler_send s IPV4_OBJ mac p.
Proof.
  intros Hg Hp Hd Hm Ho Ht Hl. unfold jlos_internet_protocol_provider_send. bind Hg.
  unfold jlos_net_skb_push, IPV4_HDR, jlos_net_skb_len. cbn [s_data s_mem s_tail with_window with_mem]. rewrite Ht, Hm, Hd.
  replace (zlen pre + 20 - 20) with (zlen pre) by lia.
  replace (u32 (zlen pre + 20 + zlen payload - zlen pre)) with (20 + zlen payload) by (rewrite u32_small; lia).
  split_bytes old Ho.
  change (jlos_hal_net_get_ip_address s) with (ip_address (n_dev s)). remember (ip_address (n_dev s)) as src eqn:Esrc.
  remember (20 + zlen payload) as len eqn:Elen. do 10 wr_step.
  eapply bind_step; [by apply read_run_app|]. cbv beta zeta.
  pose proof (swap16_bytes len ltac:(lia)) as Hsw. injection Hsw as Hs0 Hs1. rewrite Hs0, Hs1, (u8_small proto) by lia.
  match goal with |- context [jlos_internet_protocol_provider_csum_partial ?h 0] => change h with (ip_header len proto src dst [0; 0]) end.
  set (sum := jlos_internet_protocol_provider_csum_partial _ 0).
  destruct (csum_fold_spec sum) as (f & _ & Hf).
  { unfold sum. rewrite csum_partial_wsum; [apply u32_range| |lia]. apply ip_header_bytes; [lia|done|]. repeat constructor; lia. }
  bind Hf. remember (JLOS_SWAP_ENDIAN_16 (65535 - f)) as c eqn:Ec. clear Ec.
  wr_step. unfold ip_framed, ip_wire, ip_csum. rewrite <- Elen, <- Esrc. fold sum. unfold csum_bytes. rewrite Hf.
  replace (s_data b - 20) with (zlen pre) by lia. rewrite Ht, Hd, Esrc. done.
Qed.
End send.

(** ** Buffers that come and go *)

(** [s'] is [s] after the frames [fs] were sent and buffers came and went. *)
Definition quiet (fs : list (list Z)) (s s' : net) : Prop :=
  exists (n : Z) (k : nat), 0 <= n /\ let q := n_pool s in
  s' = set_dev (set_pool s (Pool (skbs q) (next_id q + n) (attempts q + k)%nat (kbufs q) (frames q)))
    (NetDev (mac_address (n_dev s)) (ip_address (n_dev s)) (tx (n_dev s) ++ fs)).
(** The same, and the buffer [p] is outstanding. *)
Definition held (fs : list (list Z)) (s s' : net) (p : Z) (b : skb) : Prop :=
  skbs (n_pool s) !! p = None /\
  exists (n : Z) (k : nat), 0 <= n /\ p < next_id (n_pool s) + n /\ let q := n_pool s in let small := data_flags b =? JLOS_NET_SKB_DATA_KALLOC in
  s' = set_dev (set_pool s (Pool (<[p := b]> (skbs q)) (next_id q + n) (attempts q + k)%nat
      (kbufs q + if small then 1 else 0) (frames q + if small then 0 else data_pages b)))
    (NetDev (mac_address (n_dev s)) (ip_address (n_dev s)) (tx (n_dev s) ++ fs)).
(** Buffers have addresses below the next one. *)
Definition pool_ok (s : net) : Prop := forall k, is_Some (skbs (n_pool s) !! k) -> k < next_id (n_pool s).

Lemma net_eta s : set_dev (set_pool s (Pool (skbs (n_pool s)) (next_id (n_pool s)) (attempts (n_pool s)) (kbufs (n_pool s)) (frames (n_pool s))))
  (NetDev (mac_address (n_dev s)) (ip_address (n_dev s)) (tx (n_dev s))) = s.
Proof. by destruct s as [[] [] ????????]. Qed.
Lemma quiet_refl s : quiet [] s s.
Proof. exists 0, 0%nat. split; [done|]. cbv zeta. by rewrite Z.add_0_r, Nat.add_0_r, app_nil_r, net_eta. Qed.
Lemma net_quiet_trans f1 f2 s s1 s2 : quiet f1 s s1 -> quiet f2 s1 s2 -> quiet (f1 ++ f2) s s2.
Proof.
  intros (n1 & k1 & H1 & ->) (n2 & k2 & H2 & ->). exists (n1 + n2), (k1 + k2)%nat. split; [lia|]. simpl.
  by rewrite Z.add_assoc, Nat.add_assoc, app_assoc.
Qed.
Lemma quiet_pool_ok fs s s' : quiet fs s s' -> pool_ok s -> pool_ok s'.
Proof. intros (n & k & Hn & ->) H x Hx. specialize (H x Hx). simpl. lia. Qed.
Lemma held_pool_ok fs s s' p b : held fs s s' p b -> pool_ok s -> pool_ok s'.
Proof.
  intros (_ & n & k & Hn & Hp & ->) H x. simpl. destruct (decide (x = p)) as [->|Hx]; [lia|]. rewrite lookup_insert_ne by done.
  intros Hx'. specialize (H x Hx'). lia.
Qed.
Lemma held_get fs s s' p b : held fs s s' p b -> get_skb s' p = Some b.
Proof. intros (_ & n & k & _ & _ & ->). unfold get_skb. simpl. apply lookup_insert_eq. Qed.
Lemma held_put fs s s' p b b' : held fs s s' p b -> data_flags b' = data_flags b -> data_pages b' = data_pages b ->
  held fs s (put_skb s' p b') p b'.
Proof.
  intros (H0 & n & k & Hn & Hp & ->) E1 E2. split; [done|]. exists n, k. split; [done|]. split; [done|]. cbv zeta.
  rewrite E1, E2. unfold put_skb. simpl. by rewrite insert_insert_eq.
Qed.
Lemma held_quiet f1 f2 s s1 s2 p b : held f1 s s1 p b -> quiet f2 s1 s2 -> held (f1 ++ f2) s s2 p b.
Proof.
  intros (H0 & n & k & Hn & Hp & ->) (n' & k' & Hn' & ->). split; [done|]. exists (n + n'), (k + k')%nat. simpl.
  split; [lia|]. split; [lia|]. by rewrite Z.add_assoc, Nat.add_assoc, app_assoc.
Qed.
Lemma held_drop fs s s' p b : held fs s s' p b -> quiet fs s (without_skb s' p b).
Proof.
  intros (H0 & n & k & Hn & Hp & ->). exists n, k. split; [done|]. unfold without_skb, jlos_net_skb_data_free. simpl.
  destruct (data_flags b =? JLOS_NET_SKB_DATA_KALLOC); simpl; rewrite delete_insert_id by done; rewrite !Z.add_0_r, Z.add_simpl_r; done.
Qed.
Lemma held_free fs s s' p b : held fs s s' p b -> refcount b = 1 -> exists s2, skb_free s' p = Some s2 /\ quiet fs s s2.
Proof. intros H R. eexists. split; [by eapply skb_free_last; [eapply held_get|]|by apply held_drop]. Qed.
Lemma held_tx fs s s' p b f : held fs s s' p b -> held (fs ++ [f]) s (tx_frame s' f) p b.
Proof. intros (H0 & n & k & Hn & Hp & ->). split; [done|]. exists n, k. split; [done|]. split; [done|]. simpl. by rewrite app_assoc. Qed.
Lemma quiet_tx fs s s' f : quiet fs s s' -> quiet (fs ++ [f]) s (tx_frame s' f).
Proof. intros (n & k & Hn & ->). exists n, k. split; [done|]. simpl. by rewrite app_assoc. Qed.

(** A new buffer. *)
Definition blank_skb (b : skb) (size : Z) : Prop :=
  (zlen (s_mem b) = size /\ src_ip b = 0 /\ dst_ip b = 0) /\ s_data b = 0 /\ s_tail b = 0 /\ refcount b = 1.

Section memory.
Context (mem_ok : nat -> bool) (junk : Z -> Z -> Z).
(** Memory never runs out. *)
Definition plenty : Prop := forall n, mem_ok n = true.

Lemma length_fresh_mem id size : 0 <= size -> zlen (fresh_mem junk id size) = size.
Proof. intros. unfold fresh_mem. rewrite length_map, length_seqZ. lia. Qed.

Lemma alloc_held s size : pool_ok s -> 0 <= size < 2 ^ 19 ->
  (exists s', skb_alloc mem_ok junk s size = (None, s') /\ quiet [] s s' /\ ~ plenty) \/
  (exists p s' b, skb_alloc mem_ok junk s size = (Some p, s') /\ held [] s s' p b /\ blank_skb b size).
Proof.
  intros Hok Hs. unfold skb_alloc, jlos_net_skb_alloc, attempt.
  destruct (mem_ok (attempts (n_pool s))) eqn:E1; simpl.
  2: { left. eexists. split; [done|]. split; [|by intros H; rewrite H in E1]. exists 0, 1%nat. split; [done|]. cbv zeta.
       rewrite app_nil_r, Z.add_0_r, Nat.add_1_r. by destruct s as [[] [] ????????]. }
  unfold jlos_net_skb_data_alloc, attempt. simpl. destruct (mem_ok (S (attempts (n_pool s)))) eqn:E2.
  2: { left. destruct (size <=? JLOS_NET_SKB_DATA_THRESH); simpl.
       all: (eexists; split; [done|]; split; [|by intros H; rewrite H in E2]; exists 0, 2%nat; split; [done|]; cbv zeta;
       rewrite app_nil_r, Z.add_0_r; replace (attempts (n_pool s) + 2)%nat with (S (S (attempts (n_pool s)))) by lia;
       by destruct s as [[] [] ????????]). }
  right. assert (skbs (n_pool s) !! next_id (n_pool s) = None) as Hf.
  { destruct (skbs _ !! _) eqn:E; [|done]. assert (next_id (n_pool s) < next_id (n_pool s)); [|lia]. apply Hok. by eexists. }
  destruct (size <=? JLOS_NET_SKB_DATA_THRESH) eqn:E3; simpl; eexists _, _;
  [exists (Skb (fresh_mem junk (next_id (n_pool s)) size) 0 0 size 0 0 0 0 0 0 0 JLOS_NET_SKB_LAYER_NONE 1)
  |exists (Skb (fresh_mem junk (next_id (n_pool s)) size) 0 0 size 1 (u8 (u32 (size + JLOS_PAGE_SIZE - 1) `div` JLOS_PAGE_SIZE)) 0 0 0 0 0 JLOS_NET_SKB_LAYER_NONE 1)].
  all: (split; [done|]; split; [|split; [split; [apply length_fresh_mem; lia|done]|done]]; split; [done|]; exists 1, 2%nat; split; [done|];
    split; [lia|]; cbv zeta; cbn [data_flags data_pages]; rewrite app_nil_r;
    replace (attempts (n_pool s) + 2)%nat with (S (S (attempts (n_pool s)))) by lia).
  - by destruct s as [[] [] ????????]; simpl; rewrite Z.add_0_r.
  - rewrite (u8_small (u32 _ `div` _)).
    + by destruct s as [[] [] ????????]; simpl; rewrite Z.add_0_r.
    + unfold JLOS_PAGE_SIZE. rewrite u32_small by lia. zmod.
Qed.

(** ** ARP *)

(** The handlers the stack registers with the Ethernet layer, and the device's addresses. *)
Record link_ok (s : net) : Prop := {
  lk_arp : eth_objs (n_eth s) !! ARP_OBJ = Some (EtherHandler 0x0608 EthArp);
  lk_ip : eth_objs (n_eth s) !! IPV4_OBJ = Some (EtherHandler 0x0008 EthIpv4);
  lk_addr : 0 <= ip_address (n_dev s) < 2 ^ 32;
  lk_mac : 0 <= mac_address (n_dev s) < 2 ^ 48
}.
Lemma quiet_link fs s s' : quiet fs s s' -> link_ok s -> link_ok s'.
Proof. intros (n & k & _ & ->) []. by split. Qed.
Lemma held_link fs s s' p b : held fs s s' p b -> link_ok s -> link_ok s'.
Proof. intros (_ & n & k & _ & _ & ->) []. by split. Qed.

(** The buffer of a packet of [n] bytes behind room for headers: memory in two pieces. *)
Lemma blank_split b h n : blank_skb b (h + n) -> 0 <= h -> 0 <= n ->
  exists pre old, s_mem b = pre ++ old /\ zlen pre = h /\ zlen old = n.
Proof.
  intros ((Hl & _) & _) Hh Hn. exists (take (Z.to_nat h) (s_mem b)), (drop (Z.to_nat h) (s_mem b)).
  rewrite take_drop, length_take, length_drop. split; [done|lia].
Qed.

Definition arp_request_frame (s : net) (ip : Z) : list Z :=
  ether_wire 0xFFFFFFFFFFFF (mac_address (n_dev s)) 0x0608
    (arp_wire 0x0100 (mac_address (n_dev s)) (ip_address (n_dev s)) 0xFFFFFFFFFFFF ip).

(** The last step of every send: the frame goes out and the buffer is released. *)
Lemma handler_send_held fs s s1 p b old payload h type fn dst : held fs s s1 p b -> refcount b = 1 ->
  eth_objs (n_eth s) !! h = Some (EtherHandler type fn) ->
  s_mem b = old ++ payload -> s_data b = 14 -> length old = 14%nat -> s_tail b = 14 + zlen payload -> 14 + zlen payload < 2 ^ 32 ->
  returns (jlos_ether_frame_handler_send s1 h dst p) (quiet (fs ++ [ether_wire dst (mac_address (n_dev s)) type payload]) s).
Proof.
  intros Hh Hr Ho Hm Hd Hl Ht Hn. pose proof (held_get _ _ _ _ _ Hh) as Hg. pose proof (held_drop _ _ _ _ _ Hh) as Hq.
  assert (mac_address (n_dev s1) = mac_address (n_dev s) /\ n_eth s1 = n_eth s) as [Em Ee] by (by destruct Hh as (_ & n & k & _ & _ & ->)).
  unfold jlos_ether_frame_handler_send. rewrite Ee, Ho. simpl.
  eexists. split; [by eapply ether_send_spec|]. rewrite Em. by apply quiet_tx.
Qed.

Lemma arp_request_spec s ip : pool_ok s -> link_ok s ->
  exists fs, returns (jlos_arp_request_mac_address mem_ok junk s ip) (quiet fs s) /\ (plenty -> fs = [arp_request_frame s ip]).
Proof.
  intros Hp Hk. unfold jlos_arp_request_mac_address.
  destruct (alloc_held s (ARP_MSG + ETHER_HDR) Hp ltac:(done)) as [(s' & -> & Hq & Hn)|(p & s1 & b & -> & Hh & Hb)].
  { exists []. split; [by apply returns_ret|done]. }
  destruct (blank_split b 14 28 Hb ltac:(done) ltac:(done)) as (pre & old & Hm & Hpre & Hold).
  destruct Hb as (_ & Hd & Ht & Hr). exists [arp_request_frame s ip]. split; [|done]. unfold arp_request_frame.
  assert (n_dev s1 = n_dev s) as Ed by (destruct Hh as (_ & n & k & _ & _ & ->); simpl; rewrite app_nil_r; by destruct (n_dev s)).
  bind (held_get _ _ _ _ _ Hh). unfold jlos_net_skb_put, jlos_net_skb_reserve, uint64_to_mac, jlos_hal_net_get_mac_address, jlos_hal_net_get_ip_address.
  cbn [s_data s_mem s_tail with_window with_mem]. cbv beta iota zeta. rewrite Hd, Ht, Hm, Ed.
  replace (0 + ETHER_HDR) with (zlen pre) by (unfold ETHER_HDR; lia).
  remember (mac_address (n_dev s)) as mac eqn:Emac. remember (ip_address (n_dev s)) as src eqn:Esrc.
  rewrite <- (app_nil_r old). assert (length old = 28%nat) as Ho by lia. split_bytes old Ho.
  do 9 wr_step. rewrite Emac. change [?f] with ([] ++ [f]). rewrite app_nil_r.
  eapply handler_send_held; [eapply held_put; [exact Hh|done|done]|done|apply (lk_arp _ Hk)| |cbn; lia| |cbn..].
  all: try done; unfold ARP_MSG; lia.
Qed.

(** The entries of the cache, oldest first; the oldest entry for an address counts. *)
Definition arp_entries (a : arp) : list (Z * Z) :=
  let n := Z.to_nat (num_cache_entries a) in zip (take n (ip_cache a)) (take n (mac_cache a)).
Definition arp_ok (a : arp) : Prop := length (ip_cache a) = 128%nat /\ length (mac_cache a) = 128%nat /\ 0 <= num_cache_entries a <= 128.
Fixpoint arp_find (l : list (Z * Z)) (ip : Z) : Z :=
  match l with
  | [] => 0xFFFFFFFFFFFF
  | (i, m) :: l => if i =? ip then m else arp_find l ip
  end.
Lemma cache_scan_spec n ips macs ip : forall i, 0 <= i -> (Z.to_nat i + n <= length ips)%nat -> length macs = length ips ->
  cache_scan n ips macs i ip = Some (arp_find (zip (take n (drop (Z.to_nat i) ips)) (take n (drop (Z.to_nat i) macs))) ip).
Proof.
  induction n as [|n IH]; intros i Hi Hl Hm; [done|]. cbn [cache_scan].
  destruct (geti_Some ips i) as (x & -> & Hx); [lia|]. destruct (geti_Some macs i) as (y & -> & Hy); [lia|].
  rewrite (drop_S ips x), (drop_S macs y) by done. simpl. destruct (x =? ip); [done|].
  rewrite IH by lia. by replace (Z.to_nat (i + 1)) with (S (Z.to_nat i)) by lia.
Qed.
Lemma arp_cache_spec a ip : arp_ok a -> jlos_arp_get_mac_from_cache a ip = Some (arp_find (arp_entries a) ip).
Proof. intros (H1 & H2 & H3). unfold jlos_arp_get_mac_from_cache. rewrite cache_scan_spec by lia. done. Qed.

Lemma arp_lookup_spec s ip : pool_ok s -> link_ok s -> arp_ok (n_arp s) ->
  let mac := arp_find (arp_entries (n_arp s)) ip in
  exists fs, returns (jlos_arp_lookup_or_request mem_ok junk s ip) (fun '(m, s') => m = mac /\ quiet fs s s') /\
    (if mac =? 0xFFFFFFFFFFFF then plenty -> fs = [arp_request_frame s ip] else fs = []).
Proof.
  intros Hp Hk Ha mac. unfold jlos_arp_lookup_or_request. rewrite (arp_cache_spec _ _ Ha). fold mac. cbn [mbind option_bind].
  destruct (mac =? 0xFFFFFFFFFFFF).
  - destruct (arp_request_spec s ip Hp Hk) as (fs & Hr & Hfs). exists fs. split; [|done].
    eapply returns_bind; [exact Hr|]. intros s' Hq. by apply returns_ret.
  - exists []. split; [|done]. apply returns_ret. split; [done|apply quiet_refl].
Qed.

(** ** IPv4 *)

(** What [ip_send] sends: the packet, or the request for the address it lacks. *)
Definition ip_frames (s : net) (proto dst : Z) (payload : list Z) : list (list Z) :=
  let wire mac := ether_wire mac (mac_address (n_dev s)) 0x0008 (ip_wire proto (ip_address (n_dev s)) dst payload) in
  if dst =? JLOS_IPV4_BROADCAST then [wire JLOS_ETHER_BROADCAST_MAC]
  else
    let mac := arp_find (arp_entries (n_arp s)) (ip_route s dst) in
    if mac =? 0xFFFFFFFFFFFF then [arp_request_frame s (ip_route s dst)] else [wire mac].

(** The parts of the state that sending relies on. *)
Record send_ok (s : net) : Prop := {
  so_pool : pool_ok s;
  so_link : link_ok s;
  so_arp : arp_ok (n_arp s);
  so_icmp : ip_objs (n_ip s) !! ICMP_OBJ = Some (IpHandler 0x01 IpIcmp);
  so_udp : ip_objs (n_ip s) !! UDP_OBJ = Some (IpHandler 0x11 IpUdp);
  so_tcp : ip_objs (n_ip s) !! TCP_OBJ = Some (IpHandler 0x06 IpTcp)
}.
Lemma quiet_send_ok fs s s' : quiet fs s s' -> send_ok s -> send_ok s'.
Proof.
  intros H [H1 H2 H3 H4 H5 H6]. pose proof (quiet_pool_ok _ _ _ H H1). pose proof (quiet_link _ _ _ H H2).
  destruct H as (n & k & _ & ->). by split.
Qed.

Lemma held_dev fs s s1 p b : held fs s s1 p b -> mac_address (n_dev s1) = mac_address (n_dev s) /\ ip_address (n_dev s1) = ip_address (n_dev s).
Proof. by intros (_ & n & k & _ & _ & ->). Qed.

Lemma ip_send_held fs s s1 p b pre old payload h proto fn dst : send_ok s -> held fs s s1 p b -> refcount b = 1 ->
  ip_objs (n_ip s) !! h = Some (IpHandler proto fn) -> 0 <= proto < 256 ->
  s_mem b = pre ++ old ++ payload -> length pre = 14%nat -> length old = 20%nat ->
  s_data b = 34 -> s_tail b = 34 + zlen payload -> 20 + zlen payload < 2 ^ 16 ->
  exists fs', returns (jlos_internet_protocol_handler_send mem_ok junk s1 h dst p) (quiet (fs ++ fs') s) /\
    (plenty -> fs' = ip_frames s proto dst payload).
Proof.
  intros Hs Hh Hr Hobj Hp Hm Hpre Hold Hd Ht Hl.
  pose proof (held_get _ _ _ _ _ Hh) as Hg. destruct (held_dev _ _ _ _ _ Hh) as [Em Ei].
  assert (n_ip s1 = n_ip s /\ n_arp s1 = n_arp s /\ n_eth s1 = n_eth s) as (Eip & Ea & Ee) by (by destruct Hh as (_ & n & k & _ & _ & ->)).
  unfold jlos_internet_protocol_handler_send. rewrite Eip, Hobj. cbn [mbind option_bind ip_protocol].
  rewrite (ip_send_framed _ _ s1 dst proto p b pre old payload) by (done || lia). cbv zeta.
  assert (held fs s (ip_framed s1 p b dst proto pre payload) p
    (with_mem (with_window b (s_data b - 20) (s_tail b)) (pre ++ ip_wire proto (ip_address (n_dev s1)) dst payload))) as Hf
    by (by apply (held_put _ _ _ _ b)).
  set (s2 := ip_framed s1 p b dst proto pre payload) in *. set (b2 := with_mem _ _) in *.
  assert (forall f3 s3 mac, held f3 s s3 p b2 -> returns (jlos_ether_frame_handler_send s3 IPV4_OBJ mac p)
    (quiet (f3 ++ [ether_wire mac (mac_address (n_dev s)) 0x0008 (ip_wire proto (ip_address (n_dev s)) dst payload)]) s)) as Hsend.
  { intros f3 s3 mac H3. rewrite <- Ei. eapply handler_send_held; [exact H3|done|apply (lk_ip _ (so_link _ Hs))|done|simpl; lia|done|..];
    rewrite length_ip_wire by lia; simpl; lia. }
  unfold ip_frames. destruct (dst =? JLOS_IPV4_BROADCAST); [eexists; split; [by apply Hsend|done]|].
  assert (ip_route s2 dst = ip_route s dst) as -> by (unfold ip_route; rewrite <- Ei, <- Eip; done).
  pose proof (held_pool_ok _ _ _ _ _ Hf (so_pool _ Hs)) as Hp2. pose proof (held_link _ _ _ _ _ Hf (so_link _ Hs)) as Hk2.
  assert (n_arp s2 = n_arp s) as Ea2 by done. pose proof (so_arp _ Hs) as Ha2. rewrite <- Ea2 in Ha2.
  destruct (arp_lookup_spec s2 (ip_route s dst) Hp2 Hk2 Ha2) as (fs2 & Hlk & Hfs). rewrite Ea2 in Hlk, Hfs.
  set (mac := arp_find _ _) in *.
  assert (arp_request_frame s2 (ip_route s dst) = arp_request_frame s (ip_route s dst)) as Erq.
  { unfold arp_request_frame. by destruct (held_dev _ _ _ _ _ Hf) as [-> ->]. }
  rewrite Erq in Hfs. exists (if mac =? 0xFFFFFFFFFFFF then fs2 else fs2 ++ [ether_wire mac (mac_address (n_dev s)) 0x0008
    (ip_wire proto (ip_address (n_dev s)) dst payload)]). split.
  - eapply returns_bind; [exact Hlk|]. intros [m s3] [-> Hq]. pose proof (held_quiet _ _ _ _ _ _ _ Hf Hq) as H3.
    destruct (mac =? 0xFFFFFFFFFFFF); [apply (held_free _ _ _ _ _ H3); done|]. rewrite app_assoc. by apply Hsend.
  - intros Hpl. destruct (mac =? 0xFFFFFFFFFFFF); [by apply Hfs|]. by rewrite Hfs.
Qed.

(** ** UDP *)

(** The computation returns and all it did was to send frames: the frames [fs], if memory is available. *)
Definition sends (t : option net) (s : net) (fs : list (list Z)) : Prop :=
  exists fs', returns t (quiet fs' s) /\ (plenty -> fs' = fs).
Lemma sends_step {A} (m : option A) f x s fs : m = Some x -> sends (f x) s fs -> sends (m ≫= f) s fs.
Proof. by intros -> H. Qed.
Ltac bind H ::= first [refine (bind_step _ _ _ _ H _) | refine (returns_step _ _ _ _ H _) | refine (sends_step _ _ _ _ _ H _)]; cbv beta zeta.
Ltac wr_step ::= lazymatch goal with |- (?t ≫= _) = _ => wr_term t | |- returns (?t ≫= _) _ => wr_term t | |- sends (?t ≫= _) _ _ => wr_term t end.

(** Room for three headers. *)
Lemma split_headers (l : list Z) (n : nat) : length l = (34 + n)%nat -> exists pre ipo old, l = pre ++ ipo ++ old /\
  length pre = 14%nat /\ length ipo = 20%nat /\ length old = n.
Proof.
  intros Hl. exists (take 14 l), (take 20 (drop 14 l)), (drop 34 l). change 34%nat with (14 + 20)%nat.
  rewrite <- drop_drop, !take_drop, !length_take, !length_drop. split; [done|]. lia.
Qed.

Lemma udp_send_spec s k x data : send_ok s -> get_usock s k = Some x -> 28 + zlen data < 2 ^ 16 ->
  sends (jlos_udp_provider_send mem_ok junk s k data) s
    (ip_frames s 0x11 (u_remote_ip x) (udp_wire (u_local_port x) (u_remote_port x) data)).
Proof.
  intros Hs Hx Hl. unfold jlos_udp_provider_send.
  destruct (alloc_held s (zlen data + (ETHER_HDR + IPV4_HDR + UDP_HDR)) (so_pool _ Hs)) as [(s' & -> & Hq & Hn)|(p & s1 & b & -> & Hh & Hb)].
  { unfold ETHER_HDR, IPV4_HDR, UDP_HDR. lia. }
  { exists []. split; [by apply returns_ret|done]. }
  assert (get_usock s1 k = Some x) as Hx1 by (by destruct Hh as (_ & n & j & _ & _ & ->)).
  unfold ETHER_HDR, IPV4_HDR, UDP_HDR in *. rewrite Z.add_comm in Hb.
  destruct (blank_split b _ _ Hb ltac:(lia) ltac:(lia)) as (pre0 & old0 & Hm & Hpre & Hold). destruct Hb as (_ & Hd & Ht & Hr).
  destruct (split_headers pre0 8) as (pre & ipo & old & -> & Lpre & Lip & Lold); [lia|].
  bind Hx1. bind (held_get _ _ _ _ _ Hh). unfold jlos_net_skb_put, jlos_net_skb_reserve, jlos_net_skb_push.
  cbn [s_data s_mem s_tail with_window with_mem]. cbv beta iota zeta. rewrite Hd, Ht, Hm, <- (app_nil_r old0).
  refine (sends_step _ _ _ _ _ (write_run_app (pre ++ ipo ++ old) old0 data [] _ _ _) _); [lia|lia|]. cbv beta.
  rewrite app_nil_r. replace ((pre ++ ipo ++ old) ++ data) with ((pre ++ ipo) ++ old ++ data) by (by rewrite !app_assoc).
  replace (0 + (14 + 20 + 8) - 8) with (zlen (pre ++ ipo)) by (rewrite length_app; lia).
  remember (u_local_port x) as sport eqn:Esp. remember (u_remote_port x) as dport eqn:Edp. remember (zlen data + 8) as len eqn:Elen.
  split_bytes old Lold. do 4 wr_step.
  pose proof (swap16_bytes len ltac:(lia)) as Hsw. injection Hsw as Hs0 Hs1.
  rewrite Hs0, Hs1, Elen, (Z.add_comm (zlen data) 8), <- (app_assoc pre ipo).
  eapply (ip_send_held [] s _ p _ pre ipo (udp_wire sport dport data) UDP_OBJ 0x11 IpUdp _ Hs);
    [eapply held_put; [exact Hh|done|done]|done|apply (so_udp _ Hs)|done|done|done|done|..].
  all: cbn [s_data s_tail with_mem with_window]; rewrite ?length_app; unfold udp_wire; simpl; lia.
Qed.

(** ** TCP *)

Lemma csum_partial_range l : forall c, 0 <= c < 2 ^ 32 -> 0 <= jlos_internet_protocol_provider_csum_partial l c < 2 ^ 32.
Proof. induction l as [|a|a b l IH] using list_ind2; intros c Hc; simpl; [done|apply u32_range|apply IH, u32_range]. Qed.
Lemma tcp_wire_length x data flags : zlen (tcp_wire x data flags) = tcp_hdr_len flags + zlen data.
Proof.
  unfold tcp_wire, tcp_header, tcp_csum, tcp_hdr_len.
  edestruct csum_bytes_2 as (a & b & -> & _); [by repeat apply csum_partial_range|]. rewrite length_app. simpl.
  destruct (is_syn flags); simpl; lia.
Qed.

(** A segment on its way: [p] is a new buffer of the right size. *)
Lemma tcp_segment_spec s s1 p b x data flags : send_ok s -> held [] s s1 p b -> blank_skb b (zlen data + (34 + tcp_hdr_len flags)) ->
  44 + zlen data < 2 ^ 16 ->
  sends (tcp_send_segment mem_ok junk s1 x data flags p) s (ip_frames s 0x06 (t_remote_ip x) (tcp_wire x data flags)).
Proof.
  intros Hs Hh Hb Hl. assert (20 <= tcp_hdr_len flags <= 24) by (unfold tcp_hdr_len; destruct (is_syn flags); lia).
  pose proof Hb as (_ & Hd & Ht & Hr). rewrite Z.add_comm in Hb.
  destruct (blank_split b _ _ Hb ltac:(lia) ltac:(lia)) as (pre0 & old0 & Hm & Hpre & Hold). clear Hb.
  destruct (split_headers pre0 (Z.to_nat (tcp_hdr_len flags))) as (pre & ipo & old & -> & Lpre & Lip & Lold); [lia|].
  unfold tcp_send_segment. bind (held_get _ _ _ _ _ Hh). fold (is_syn flags). fold (tcp_hdr_len flags).
  unfold jlos_net_skb_put, jlos_net_skb_reserve, jlos_net_skb_push, ETHER_HDR, IPV4_HDR, set_data_offset_flags, jlos_net_skb_len.
  cbn [s_data s_mem s_tail with_window with_mem]. cbv beta iota zeta. rewrite Hd, Ht, Hm, <- (app_nil_r old0).
  refine (sends_step _ _ _ _ _ (write_run_app (pre ++ ipo ++ old) old0 data [] _ _ _) _); [lia|lia|]. cbv beta.
  rewrite app_nil_r. replace ((pre ++ ipo ++ old) ++ data) with ((pre ++ ipo) ++ old ++ data) by (by rewrite !app_assoc).
  replace (0 + (14 + 20 + tcp_hdr_len flags) - tcp_hdr_len flags) with (zlen (pre ++ ipo)) by (rewrite length_app; lia).
  replace (u32 (0 + (14 + 20 + tcp_hdr_len flags) + zlen data - zlen (pre ++ ipo))) with (tcp_hdr_len flags + zlen data)
    by (rewrite u32_small; rewrite length_app; lia).
  rewrite (u16_small (zlen data + tcp_hdr_len flags)) by lia.
  replace (bytes16 (JLOS_SWAP_ENDIAN_16 (zlen data + tcp_hdr_len flags))) with
    [(zlen data + tcp_hdr_len flags) `div` 256; (zlen data + tcp_hdr_len flags) `mod` 256] by (rewrite swap16_bytes; [done|lia]).
  set (psum := jlos_internet_protocol_provider_csum_partial (_ ++ _ ++ _) 0).
  assert (0 <= psum < 2 ^ 32) as Hps by (by apply csum_partial_range).
  pose proof (eq_refl : psum = jlos_internet_protocol_provider_csum_partial (tcp_pseudo x (zlen data + tcp_hdr_len flags)) 0) as Eps.
  clearbody psum. remember (zlen (pre ++ ipo)) as o eqn:Eo. assert (o = 34) as Eo' by (rewrite length_app in Eo; lia).
  destruct x as [rport rip lport lip seq ack hdl st cnd]. cbn [t_local_port t_remote_port sequence_number acknowledgement_number t_remote_ip t_local_ip] in *.
  set (sw_ack := JLOS_SWAP_ENDIAN_32 ack). set (sw_seq := JLOS_SWAP_ENDIAN_32 seq).
  rewrite bind_assoc, Eo.
  unfold tcp_hdr_len in *. destruct (is_syn flags) eqn:Esyn; change (Z.to_nat 24) with 24%nat in *; change (Z.to_nat 20) with 20%nat in *.
  all: split_bytes old Lold; do 8 wr_step; cbv iota; first [wr_step | refine (sends_step _ _ _ _ _ eq_refl _); cbv beta]; wr_step.
  all: refine (sends_step _ _ _ _ _ (read_run_tail (pre ++ ipo) _ _ _ eq_refl _) _); [rewrite length_app; simpl; lia|]; cbv beta zeta.
  all: match goal with |- context [jlos_internet_protocol_provider_csum_fold ?t] => destruct (csum_fold_spec t) as (f & _ & Hf); [by apply csum_partial_range|] end.
  all: bind Hf; remember (JLOS_SWAP_ENDIAN_16 (65535 - f)) as c eqn:Ec; clear Ec; wr_step.
  all: rewrite <- (app_assoc pre ipo); eapply (ip_send_held [] s _ p _ pre ipo _ TCP_OBJ 0x06 IpTcp _ Hs);
    [eapply held_put; [exact Hh|done|done]|done|apply (so_tcp _ Hs)|done| |done|done|..].
  all: rewrite ?tcp_wire_length; unfold tcp_hdr_len; rewrite ?Esyn; cbn [s_data s_tail with_mem with_window]; try lia.
  all: cbn [s_mem with_mem]; f_equal; f_equal; unfold tcp_wire, tcp_csum, csum_bytes, tcp_hdr_len; rewrite Esyn, <- Eps.
  all: unfold tcp_header; rewrite Esyn; cbn [t_local_port t_remote_port sequence_number acknowledgement_number].
  all: match goal with |- context [jlos_internet_protocol_provider_csum_fold ?t] =>
    replace (jlos_internet_protocol_provider_csum_fold t) with (Some c) by (rewrite <- Hf; reflexivity) end; reflexivity.
Qed.
(** Sending depends on nothing of the sockets. *)
Lemma send_ok_tsock s k x : send_ok s -> send_ok (put_tsock s k x).
Proof. intros [H1 [] ????]. by split. Qed.
Lemma send_ok_usock s k x : send_ok s -> send_ok (put_usock s k x).
Proof. intros [H1 [] ????]. by split. Qed.
Lemma held_tsock fs s s1 p b k x : held fs s s1 p b -> held fs (put_tsock s k x) (put_tsock s1 k x) p b.
Proof. intros (H0 & n & j & Hn & Hp & ->). split; [done|]. by exists n, j. Qed.

Lemma tcp_send_spec s k x data flags : send_ok s -> get_tsock s k = Some x -> 44 + zlen data < 2 ^ 16 ->
  exists s1, (s1 = put_tsock s k (set_seq x (u32 (sequence_number x + zlen data))) \/ s1 = s /\ ~ plenty) /\
    sends (jlos_tcp_provider_send mem_ok junk s k data flags) s1 (ip_frames s 0x06 (t_remote_ip x) (tcp_wire x data flags)).
Proof.
  intros Hs Hx Hl. unfold jlos_tcp_provider_send.
  assert (34 + tcp_hdr_len flags = ETHER_HDR + IPV4_HDR + (if Z.land flags JLOS_TCP_SYN =? 0 then 20 else 24)) as <-.
  { unfold tcp_hdr_len, is_syn. by destruct (Z.land flags JLOS_TCP_SYN =? 0). }
  assert (20 <= tcp_hdr_len flags <= 24) by (unfold tcp_hdr_len; destruct (is_syn flags); lia).
  destruct (alloc_held s (zlen data + (34 + tcp_hdr_len flags)) (so_pool _ Hs)) as [(s' & -> & Hq & Hn)|(p & s1 & b & -> & Hh & Hb)]; [lia| |].
  { exists s. split; [by right|]. exists []. split; [by apply returns_ret|done]. }
  eexists. split; [by left|]. assert (get_tsock s1 k = Some x) as Hx1 by (by destruct Hh as (_ & n & j & _ & _ & ->)). bind Hx1.
  by apply (tcp_segment_spec (put_tsock s k _) (put_tsock s1 k _) p b); [apply send_ok_tsock|apply held_tsock|..].
Qed.
Lemma put_tsock_id s k x : get_tsock s k = Some x -> put_tsock s k x = s.
Proof. intros H. unfold put_tsock. unfold get_tsock in H. rewrite insert_id by done. by destruct s as [???????[]]. Qed.
(** A segment without data. *)
Lemma tcp_ctl_spec s k x flags : send_ok s -> get_tsock s k = Some x -> 0 <= sequence_number x < 2 ^ 32 ->
  sends (jlos_tcp_provider_send mem_ok junk s k [] flags) s (ip_frames s 0x06 (t_remote_ip x) (tcp_wire x [] flags)).
Proof.
  intros Hs Hx Hq. destruct (tcp_send_spec s k x [] flags Hs Hx) as (s1 & Hs1 & H); [done|].
  enough (s1 = s) as -> by done. destruct Hs1 as [->|[-> _]]; [|done]. simpl. rewrite Z.add_0_r, u32_small by done.
  rewrite <- (put_tsock_id s k x Hx) at 2. by destruct x.
Qed.
End memory.
