(* ===== verification/NetInv.v ===== *)
(** * The invariant of the network stack

    [net_ok] says that the handler tables are the ones initialisation builds and that
    the socket tables link exactly the live sockets.  The lemmas say what the
    operations on sockets do to it, and what the searches of the receiving code find. *)
From S2P Require Import Prelude HashChain Bytes NetBuf NetStack NetApps NetRx NetSend.

(** ** Tables of live objects *)

Section tables.
Context {K : Type} (hash : K -> Z) (keyof keyof' : Z -> K).
Lemma table_ext h d : (forall n, n ∈ d -> keyof' n = keyof n) -> table_rep hash keyof h d -> table_rep hash keyof' h d.
Proof.
  intros E [H1 H2 H3 H4 H5]. split; [done|done| |done|done]. intros i f Hf. specialize (H3 i f Hf).
  enough (chain hash keyof' h d i = chain hash keyof h d i) as -> by done.
  unfold chain. apply filter_ext_elem. intros n Hn. by rewrite (E n Hn).
Qed.
(** The search with a predicate: a node of the table that passes, or none. *)
Lemma find_returns h d fuel (key : K) (mtch : Z -> Z) : table_rep hash keyof h d -> (length d <= fuel)%nat ->
  exists r, jlos_hash_chain_find hash fuel h key mtch = Some r /\
    match r with Some k => k ∈ d /\ mtch k = 0 | None => forall k, k ∈ d -> hash (keyof k) = hash key -> mtch k <> 0 end.
Proof.
  intros HT Hf. pose proof (index_range _ _ _ _ key HT) as Hi. destruct (get_head_range _ _ _ _ _ HT Hi) as [f Hh].
  unfold jlos_hash_chain_find. rewrite Hh. simpl.
  rewrite (walk_spec h _ _ fuel _ _ (tr_chains _ _ _ _ HT _ _ Hh)) by (etrans; [apply length_filter|done]).
  eexists. split; [done|]. destruct (list_find _ _) as [[i k]|] eqn:E; simpl.
  - apply list_find_Some in E as (E1 & E2 & _). apply list_elem_of_lookup_2 in E1. apply chain_sub in E1 as [E1 _].
    split; [done|]. by apply Z.eqb_eq.
  - intros k Hk Hh' H0. rewrite list_find_None, Forall_forall in E. apply (E k); [|by rewrite H0].
    apply chain_sub. split; [done|]. unfold index. by rewrite Hh'.
Qed.
(** The search when only nodes under the key can match. *)
Lemma find_unique h d fuel (key : K) (mtch : Z -> Z) k : table_rep hash keyof h d -> (length d <= fuel)%nat ->
  k ∈ d -> (forall n, n ∈ d -> mtch n = 0 <-> n = k) -> hash (keyof k) = hash key ->
  jlos_hash_chain_find hash fuel h key mtch = Some (Some k).
Proof.
  intros HT Hf Hk Hu Hh. destruct (find_returns h d fuel key mtch HT Hf) as (r & -> & Hr). f_equal. destruct r as [n|].
  - destruct Hr as [Hn H0]. f_equal. by apply Hu.
  - exfalso. by apply (Hr k Hk Hh), Hu.
Qed.
End tables.

(** A table links exactly the live objects of a heap. *)
Definition links {K V} (hash : K -> Z) (key : V -> K) (k0 : K) (h : hash_chain) (objs : gmap Z V) : Prop :=
  exists d, table_rep hash (fun n => match objs !! n with Some x => key x | None => k0 end) h d /\
    forall n, n ∈ d <-> is_Some (objs !! n).
Lemma links_size {V} (objs : gmap Z V) d : NoDup d -> (forall n, n ∈ d <-> is_Some (objs !! n)) -> length d = size objs.
Proof.
  intros Hnd Hd. rewrite <- (size_list_to_set (C := gset Z) d) by done. rewrite <- (size_dom (D := gset Z)). f_equal.
  apply set_eq. intros n. rewrite elem_of_list_to_set, elem_of_dom. apply Hd.
Qed.
Section links.
Context {K V : Type} (hash : K -> Z) (key : V -> K) (k0 : K).
Lemma links_update h objs n x x' : links hash key k0 h objs -> objs !! n = Some x -> key x' = key x -> links hash key k0 h (<[n := x']> objs).
Proof.
  intros (d & HT & Hd) Hn Hk. exists d. split.
  - eapply table_ext; [|exact HT]. intros m Hm. simpl. destruct (decide (m = n)) as [->|]; [|by rewrite lookup_insert_ne].
    by rewrite lookup_insert_eq, Hn.
  - intros m. rewrite Hd. destruct (decide (m = n)) as [->|]; [|by rewrite lookup_insert_ne]. rewrite lookup_insert_eq, Hn. split; by eexists.
Qed.
Lemma links_insert h objs n x : links hash key k0 h objs -> objs !! n = None -> n <> 0 ->
  exists h', jlos_hash_chain_insert hash h (key x) n = Some h' /\ links hash key k0 h' (<[n := x]> objs).
Proof.
  intros (d & HT & Hd) Hn H0. assert (n ∉ d) as Hnd by (rewrite Hd, Hn; by intros [? ?]).
  set (kf := fun m => match <[n := x]> objs !! m with Some x => key x | None => k0 end).
  assert (table_rep hash kf h d) as HT'.
  { eapply table_ext; [|exact HT]. intros m Hm. unfold kf. rewrite lookup_insert_ne; [done|]. by intros ->. }
  destruct (insert_spec hash kf h d n HT' H0 Hnd) as (h' & E & HT''). assert (kf n = key x) as Ek by (unfold kf; by rewrite lookup_insert_eq).
  rewrite Ek in E. exists h'. split; [done|]. exists (n :: d). split; [done|]. intros m. rewrite elem_of_cons, Hd.
  destruct (decide (m = n)) as [->|Hm]; [rewrite lookup_insert_eq; split; [by eexists|by left]|]. rewrite lookup_insert_ne by done. tauto.
Qed.
Lemma links_delete h objs n : links hash key k0 h objs -> is_Some (objs !! n) ->
  exists h', jlos_hash_chain_remove h n = Some h' /\ links hash key k0 h' (delete n objs).
Proof.
  intros (d & HT & Hd) Hn. pose proof (proj2 (Hd n) Hn) as Hin. destruct (remove_spec _ (fun _ _ => 0) _ _ _ _ HT Hin) as (h' & E & HT'). exists h'. split; [done|].
  exists (without n d). assert (forall m, m ∈ without n d <-> m <> n /\ m ∈ d) as Hw by (intros m; unfold without; by rewrite list_elem_of_filter). split.
  - eapply table_ext; [|exact HT']. intros m [Hm _]%Hw. simpl. by rewrite lookup_delete_ne.
  - intros m. rewrite Hw, Hd. destruct (decide (m = n)) as [->|]; [rewrite lookup_delete_eq; split; [tauto|by intros [? ?]]|].
    rewrite lookup_delete_ne by done. tauto.
Qed.
Lemma links_find h objs (k : K) (mtch : Z -> Z) : links hash key k0 h objs ->
  exists r, jlos_hash_chain_find hash (size objs) h k mtch = Some r /\
    match r with
    | Some n => is_Some (objs !! n) /\ mtch n = 0
    | None => forall n x, objs !! n = Some x -> hash (key x) = hash k -> mtch n <> 0
    end.
Proof.
  intros (d & HT & Hd). destruct (find_returns _ _ h d (size objs) k mtch HT) as (r & -> & Hr).
  { rewrite <- (links_size objs d) by (done || apply HT). done. }
  exists r. split; [done|]. destruct r; [by rewrite <- Hd|]. intros n x Hn Hh. apply Hr; [apply Hd; by eexists|]. by rewrite Hn.
Qed.
Lemma links_find_unique h objs (k : K) (mtch : Z -> Z) n x : links hash key k0 h objs -> objs !! n = Some x ->
  hash (key x) = hash k -> mtch n = 0 -> (forall m y, objs !! m = Some y -> mtch m = 0 -> m = n) ->
  jlos_hash_chain_find hash (size objs) h k mtch = Some (Some n).
Proof.
  intros HL Hn Hh H0 Hu. destruct (links_find h objs k mtch HL) as (r & -> & Hr). f_equal. destruct r as [m|].
  - destruct Hr as [[y Hy] Hm]. f_equal. by eapply Hu.
  - by destruct (Hr n x Hn Hh).
Qed.
End links.

(** ** The invariant *)

Definition ukey (x : udp_socket) : Z * Z := (u_local_ip x, u_local_port x).
Definition tkey (x : tcp_socket) : Z * Z := (t_local_ip x, t_local_port x).
Definition usock_ok (x : udp_socket) : Prop :=
  0 <= u_remote_port x < 2 ^ 16 /\ 0 <= u_remote_ip x < 2 ^ 32 /\ 0 <= u_local_port x < 2 ^ 16 /\ 0 <= u_local_ip x < 2 ^ 32.
Definition tsock_ok (x : tcp_socket) : Prop :=
  0 <= t_remote_port x < 2 ^ 16 /\ 0 <= t_remote_ip x < 2 ^ 32 /\ 0 <= t_local_port x < 2 ^ 16 /\ 0 <= t_local_ip x < 2 ^ 32 /\
  0 <= sequence_number x < 2 ^ 32 /\ 0 <= acknowledgement_number x < 2 ^ 32.
(** The handlers by protocol. *)
Definition ip_table : list Z := <[6%nat := TCP_OBJ]> (<[17%nat := UDP_OBJ]> (<[1%nat := ICMP_OBJ]> (replicate 255 0))).
Definition eth_table : gmap Z ether_handler :=
  <[IPV4_OBJ := EtherHandler 0x0008 EthIpv4]> (<[ARP_OBJ := EtherHandler 0x0608 EthArp]> ∅).

Record net_ok (s : net) : Prop := {
  nk_send : send_ok s;
  nk_eth : links jlos_hash_uint16 etherType_BE 0 (eth_handlers (n_eth s)) (eth_objs (n_eth s));
  nk_eobjs : eth_objs (n_eth s) = eth_table;
  nk_handlers : handlers (n_ip s) = ip_table;
  nk_udp : links udp_hash_ip_port ukey (0, 0) (u_sockets (n_udp s)) (u_objs (n_udp s));
  nk_tcp : links tcp_hash_ip_port tkey (0, 0) (t_sockets (n_tcp s)) (t_objs (n_tcp s));
  nk_usock : map_Forall (fun _ => usock_ok) (u_objs (n_udp s));
  nk_tsock : map_Forall (fun _ => tsock_ok) (t_objs (n_tcp s));
  nk_next : 0 < next_id (n_pool s);
  nk_uid : map_Forall (fun k _ => k < next_id (n_pool s)) (u_objs (n_udp s));
  nk_tid : map_Forall (fun k _ => k < next_id (n_pool s)) (t_objs (n_tcp s));
  nk_mac : length (dh_mac (n_dhcp s)) = 6%nat /\ bytes (dh_mac (n_dhcp s));
  nk_dhcp : map_Forall (fun k x => u_handler x = DHCP_HANDLER -> k = dh_socket (n_dhcp s)) (u_objs (n_udp s))
}.
(** The buffers in use are the same. *)
Definition same_bufs (s s' : net) : Prop :=
  skbs (n_pool s') = skbs (n_pool s) /\ kbufs (n_pool s') = kbufs (n_pool s) /\ frames (n_pool s') = frames (n_pool s) /\
  next_id (n_pool s) <= next_id (n_pool s').
#[export] Instance same_bufs_po : PreOrder same_bufs.
Proof. split; [done|]. intros s1 s2 s3 (? & ? & ? & ?) (? & ? & ? & ?). split_and!; [congruence..|lia]. Qed.

Lemma quiet_same fs s s' : quiet fs s s' -> same_bufs s s'.
Proof. intros (n & k & Hn & ->). split_and!; simpl; (done || lia). Qed.
Lemma net_ok_quiet fs s s' : quiet fs s s' -> net_ok s -> net_ok s'.
Proof.
  intros H [H1 H2 H3 H4 H5 H6 H7 H8 H9 H10 H11 H12 H13]. pose proof (quiet_send_ok _ _ _ H H1). destruct H as (n & k & Hn & ->). split; try done; simpl.
  - lia.
  - eapply map_Forall_impl; [exact H10|]. intros. simpl in *. lia.
  - eapply map_Forall_impl; [exact H11|]. intros. simpl in *. lia.
Qed.
Lemma net_ok_usock s k x x' : net_ok s -> get_usock s k = Some x -> ukey x' = ukey x -> u_handler x' = u_handler x ->
  usock_ok x' -> net_ok (put_usock s k x').
Proof.
  intros [H1 H2 H3 H4 H5 H6 H7 H8 H9 H10 H11 H12 H13] Hx Hk Hh Hok. split; try done; simpl.
  - by apply send_ok_usock.
  - by eapply links_update.
  - by apply map_Forall_insert_2.
  - apply map_Forall_insert_2; [|done]. by apply (H10 k x).
  - apply map_Forall_insert_2; [|done]. rewrite Hh. by apply (H13 k x).
Qed.
Lemma net_ok_tsock s k x x' : net_ok s -> get_tsock s k = Some x -> tkey x' = tkey x -> tsock_ok x' -> net_ok (put_tsock s k x').
Proof.
  intros [H1 H2 H3 H4 H5 H6 H7 H8 H9 H10 H11 H12 H13] Hx Hk Hok. split; try done; simpl.
  - by apply send_ok_tsock.
  - by eapply links_update.
  - by apply map_Forall_insert_2.
  - apply map_Forall_insert_2; [|done]. by apply (H11 k x).
Qed.
Lemma net_ok_arp s a : net_ok s -> arp_ok a -> net_ok (set_arp s a).
Proof. intros [[? [] ????] H2 H3 H4 H5 H6 H7 H8 H9 H10 H11 H12 H13] Ha. by repeat (split; try done). Qed.
Lemma net_ok_skb s p b b' : net_ok s -> get_skb s p = Some b -> net_ok (put_skb s p b').
Proof.
  intros [[Hp [] ????] H2 H3 H4 H5 H6 H7 H8 H9 H10 H11 H12 H13] Hb. split; try done. split; try done.
  intros k. simpl. destruct (decide (k = p)) as [->|]; [intros _; apply Hp; by exists b|]. rewrite lookup_insert_ne by done. apply Hp.
Qed.
Lemma held_ok fs s s1 p b : held fs s s1 p b -> net_ok s -> net_ok s1.
Proof.
  intros Hh [[Hp [] Ha Hi Hu Ht] H2 H3 H4 H5 H6 H7 H8 H9 H10 H11 H12 H13]. pose proof (held_pool_ok _ _ _ _ _ Hh Hp). destruct Hh as (_ & n & k & Hn & Hpn & ->).
  split; try done; simpl.
  - lia.
  - eapply map_Forall_impl; [exact H10|]. intros. simpl in *. lia.
  - eapply map_Forall_impl; [exact H11|]. intros. simpl in *. lia.
Qed.
Lemma net_ok_dhcp s d : net_ok s -> dh_socket d = dh_socket (n_dhcp s) -> dh_mac d = dh_mac (n_dhcp s) -> net_ok (set_dhcp s d).
Proof. intros [[? [] ????] H2 H3 H4 H5 H6 H7 H8 H9 H10 H11 H12 H13] E1 E2. split; try done; simpl; by rewrite ?E1, ?E2. Qed.
Lemma net_ok_dns s d : net_ok s -> net_ok (set_dns s d).
Proof. intros [[? [] ????] H2 H3 H4 H5 H6 H7 H8 H9 H10 H11 H12 H13]. by split. Qed.
(** A new configuration. *)
Lemma net_ok_config s c : net_ok s -> 0 <= c_ip c < 2 ^ 32 -> net_ok (jlos_network_apply_config (set_config s c)).
Proof. intros [[? [] ????] H2 H3 H4 H5 H6 H7 H8 H9 H10 H11 H12 H13] Hc. by split; [split; [|split|..]|..]. Qed.
Lemma net_ok_without s p b : net_ok s -> net_ok (without_skb s p b).
Proof.
  intros [[Pk [] ????] H2 H3 H4 H5 H6 H7 H8 H9 H10 H11 H12 H13].
  assert (pool_ok (without_skb s p b)) as Hp.
  { unfold without_skb, jlos_net_skb_data_free. intros j Hj. destruct (_ =? _); simpl in *; destruct Hj as [x Hx];
    apply lookup_delete_Some in Hx as [_ Hx]; apply Pk; by exists x. }
  unfold without_skb, jlos_net_skb_data_free in *. destruct (_ =? _); by repeat (split; try done).
Qed.
