(* ===== verification/NetSafe.v ===== *)
(** * Safety of the receiving code

    Whatever arrives, a frame whose headers keep within the frame ([frame_wf]) is
    processed without an access outside its buffer; the buffer is released, and the
    invariant of the stack is kept.  The applications are assumed to keep the
    invariant and the buffers ([apps_ok]). *)
From S2P Require Import Prelude HashChain Bytes NetBuf NetStack NetApps NetRx NetSend NetInv.

(** ** Accesses within a buffer *)

Lemma mac_bytes_bytes x : bytes (mac_bytes x).
Proof. repeat constructor; change 255 with (2 ^ 8 - 1); rewrite land_mask by lia; zmod. Qed.

(** One read or write of a computation, with its bounds as side conditions. *)
Ltac rd_step :=
  lazymatch goal with
  | |- returns (rd8 ?m ?o ≫= _) _ => let v := fresh "v" in let E := fresh "E" in let H := fresh "Hv" in
    destruct (rd8_in m ltac:(done) o) as (v & E & H); [lia|bind E; clear E]
  | |- returns (rd16 ?m ?o ≫= _) _ => let v := fresh "v" in let E := fresh "E" in let H := fresh "Hv" in
    destruct (rd16_in m ltac:(done) o) as (v & E & H); [lia|lia|bind E; clear E]
  | |- returns (rd32 ?m ?o ≫= _) _ => let v := fresh "v" in let E := fresh "E" in let H := fresh "Hv" in
    destruct (rd32_in m ltac:(done) o) as (v & E & H); [lia|lia|bind E; clear E]
  end.
Ltac wr_next := let m := fresh "m" in let Hl := fresh "Hl" in let Hb := fresh "Hb" in intros m [Hl Hb].
Ltac wr_in :=
  lazymatch goal with
  | |- returns (wr8 _ _ _ ≫= _) _ => eapply returns_bind; [apply wr8_in; [done|lia]|wr_next]
  | |- returns (wr16 _ _ _ ≫= _) _ => eapply returns_bind; [apply wr16_in; [done|lia|lia]|wr_next]
  | |- returns (wr32 _ _ _ ≫= _) _ => eapply returns_bind; [apply wr32_in; [done|lia|lia]|wr_next]
  end.

(** TCP sockets are never released. *)
Definition socks_kept (s s' : net) : Prop := forall k, is_Some (get_tsock s k) -> is_Some (get_tsock s' k).
(** What every step of the receiving code guarantees. *)
Definition ok_after (s s' : net) : Prop := net_ok s' /\ same_bufs s s' /\ socks_kept s s'.
Lemma ok_after_refl s : net_ok s -> ok_after s s.
Proof. intros. split; [done|]. split; [reflexivity|by intros k]. Qed.
Lemma ok_after_trans s1 s2 s3 : ok_after s1 s2 -> ok_after s2 s3 -> ok_after s1 s3.
Proof. intros (? & ? & K1) (? & ? & K2). split; [done|]. split; [by etrans|]. intros k Hk. by apply K2, K1. Qed.
Lemma ok_after_quiet fs s s' : net_ok s -> quiet fs s s' -> ok_after s s'.
Proof.
  intros Hs Hq. split; [by eapply net_ok_quiet|]. split; [by eapply quiet_same|]. destruct Hq as (n & k & _ & ->). by intros j Hj.
Qed.
Lemma get_put_tsock s k x : get_tsock (put_tsock s k x) k = Some x.
Proof. apply lookup_insert_eq. Qed.
Lemma ok_after_tsock s k x x' : net_ok s -> get_tsock s k = Some x -> tkey x' = tkey x -> tsock_ok x' -> ok_after s (put_tsock s k x').
Proof.
  intros Hs Hx Hk Hok. split; [by eapply net_ok_tsock|]. split; [done|]. intros j Hj. unfold get_tsock. simpl.
  destruct (decide (j = k)) as [->|]; [rewrite lookup_insert_eq; by eexists|]. by rewrite lookup_insert_ne.
Qed.
Lemma tsock_in s k x : net_ok s -> get_tsock s k = Some x -> tsock_ok x.
Proof. intros Hs. apply (nk_tsock _ Hs). Qed.
Lemma usock_in s k x : net_ok s -> get_usock s k = Some x -> usock_ok x.
Proof. intros Hs. apply (nk_usock _ Hs). Qed.

(** ** TCP *)

Section safe.
Context (mem_ok : nat -> bool) (junk : Z -> Z -> Z).
Context (udp_app : Z -> Z -> list Z -> net -> option net).
Context (tcp_app : Z -> Z -> list Z -> net -> option (bool * net)).
Definition apps_ok : Prop :=
  (forall h k d s, net_ok s -> returns (udp_app h k d s) (ok_after s)) /\
  (forall h k d s, net_ok s -> returns (tcp_app h k d s) (fun r => ok_after s (snd r))).

Lemma tsend_safe s k x flags : net_ok s -> get_tsock s k = Some x ->
  returns (jlos_tcp_provider_send mem_ok junk s k [] flags) (fun s' => ok_after s s' /\ get_tsock s' k = Some x).
Proof.
  intros Hs Hx. destruct (tcp_ctl_spec mem_ok junk s k x flags (nk_send _ Hs) Hx) as (fs & Hr & _); [apply (tsock_in s k x Hs Hx)|].
  eapply returns_mono; [exact Hr|]. intros s' Hq. split; [by eapply ok_after_quiet|]. by destruct Hq as (n & j & _ & ->).
Qed.
(** The socket is changed and a segment sent. *)
Lemma put_send_safe s k x x' flags (o : seg_out) : net_ok s -> get_tsock s k = Some x -> tkey x' = tkey x -> tsock_ok x' ->
  returns (s' ← jlos_tcp_provider_send mem_ok junk (put_tsock s k x') k [] flags; Some (o, s')) (fun r => ok_after s (snd r)).
Proof.
  intros Hs Hx Hk Hok. pose proof (ok_after_tsock s k x x' Hs Hx Hk Hok) as Ho.
  eapply returns_bind; [apply (tsend_safe _ k x' flags); [apply Ho|apply get_put_tsock]|].
  intros s' [Hs' _]. apply returns_ret. by eapply ok_after_trans.
Qed.

(** What the header of a segment can hold. *)
Record seg_ok (g : segment) (m : list Z) (data : Z) : Prop := {
  so_src_port : 0 <= g_src_port g < 2 ^ 16;
  so_src_ip : 0 <= g_src_ip g < 2 ^ 32;
  so_ackn : 0 <= g_ack g < 2 ^ 32;
  so_size : 0 <= g_size g;
  so_offset : 0 <= g_offset g;
  so_data : 0 <= data;
  so_in : data + g_size g <= zlen m
}.
Hypothesis Happs : apps_ok.

Lemma handle_tcp_safe s k x payload : net_ok s -> get_tsock s k = Some x ->
  returns (jlos_tcp_socket_handle_tcp_message tcp_app s k payload) (fun r => ok_after s (snd r)).
Proof.
  intros Hs Hx. unfold jlos_tcp_socket_handle_tcp_message. rewrite Hx. simpl. destruct (_ =? 0).
  - apply returns_ret. by apply ok_after_refl.
  - by apply (proj2 Happs).
Qed.
Lemma tcp_payload_safe s k x g m data : net_ok s -> get_tsock s k = Some x -> seg_ok g m data ->
  returns (tcp_payload mem_ok junk tcp_app s k g m data) (fun r => ok_after s (snd r)).
Proof.
  intros Hs Hx [H1 H2 H3 H4 H5 H6 H7]. unfold tcp_payload. bind Hx. destruct (_ =? _); [|apply returns_ret; by apply ok_after_refl].
  destruct (_ || _) eqn:E; [apply returns_ret; by apply ok_after_refl|]. apply orb_false_iff in E as [E1 E2].
  unfold JLOS_TCP_MIN_DATA_OFFSET in E1. apply Z.ltb_ge in E1, E2.
  pose proof (u16_range (g_size g - g_offset g * 4)) as Hu.
  assert (u16 (g_size g - g_offset g * 4) <= g_size g - g_offset g * 4) by (unfold u16, wrap; apply Z.mod_le; lia).
  bind (read_run_Some m (data + g_offset g * 4) (u16 (g_size g - g_offset g * 4)) ltac:(lia) ltac:(lia) ltac:(lia)).
  eapply returns_bind; [by eapply handle_tcp_safe|]. intros [ok s1] (Hs1 & Hb1 & Hk1). simpl in *.
  destruct ok; [|by apply returns_ret]. destruct (Hk1 k) as [x1 Hx1]; [by eexists|]. bind Hx1.
  pose proof (tsock_in s1 k x1 Hs1 Hx1) as (? & ? & ? & ? & ? & ?).
  eapply returns_mono; [apply (put_send_safe s1 k x1); [done|done|done|]|].
  - split_and!; simpl; try lia; apply u32_range.
  - intros r Hr. by eapply ok_after_trans.
Qed.
Ltac stay := apply returns_ret; by apply ok_after_refl.
Ltac sock_ok := repeat split; simpl; try lia; apply u32_range.
Lemma tcp_on_syn_safe s k x g m data : net_ok s -> get_tsock s k = Some x -> seg_ok g m data ->
  returns (tcp_on_syn mem_ok junk s k g) (fun r => ok_after s (snd r)).
Proof.
  intros Hs Hx Hg. pose proof (tsock_in s k x Hs Hx) as (? & ? & ? & ? & ? & ?). destruct Hg. unfold tcp_on_syn. bind Hx. destruct (t_state x); try stay.
  - apply (put_send_safe s k x); [done|done|done|sock_ok].
  - rewrite <- (put_tsock_id s k x Hx) at 1. by apply (put_send_safe s k x).
Qed.
Lemma tcp_on_syn_ack_safe s k x g m data : net_ok s -> get_tsock s k = Some x -> seg_ok g m data ->
  returns (tcp_on_syn_ack mem_ok junk s k g) (fun r => ok_after s (snd r)).
Proof.
  intros Hs Hx Hg. pose proof (tsock_in s k x Hs Hx) as (? & ? & ? & ? & ? & ?). destruct Hg. unfold tcp_on_syn_ack. bind Hx. destruct (t_state x); try stay.
  apply (put_send_safe s k x); [done|done|done|sock_ok].
Qed.
Lemma tcp_on_fin_safe s k x g : net_ok s -> get_tsock s k = Some x ->
  returns (tcp_on_fin mem_ok junk s k g) (fun r => ok_after s (snd r)).
Proof.
  intros Hs Hx. pose proof (tsock_in s k x Hs Hx) as (? & ? & ? & ? & ? & ?). unfold tcp_on_fin. bind Hx.
  destruct (t_state (set_ack _ _)); try (apply (put_send_safe s k x); [done|done|done|sock_ok]).
  all: apply returns_ret; apply (ok_after_tsock s k x); [done|done|done|sock_ok].
Qed.
Lemma tcp_on_ack_safe s k x g m data : net_ok s -> get_tsock s k = Some x -> seg_ok g m data ->
  returns (tcp_on_ack mem_ok junk tcp_app s k g m data) (fun r => ok_after s (snd r)).
Proof.
  intros Hs Hx Hg. pose proof (tsock_in s k x Hs Hx) as (? & ? & ? & ? & ? & ?). pose proof Hg as []. unfold tcp_on_ack. bind Hx.
  destruct (t_state x); try (by eapply tcp_payload_safe).
  all: apply returns_ret; apply (ok_after_tsock s k x); [done|done|done|sock_ok].
Qed.
Lemma tcp_switch_safe s k x g m data : net_ok s -> get_tsock s k = Some x -> seg_ok g m data ->
  returns (tcp_switch mem_ok junk tcp_app s k g m data) (fun r => ok_after s (snd r)).
Proof.
  intros Hs Hx Hg. unfold tcp_switch.
  repeat match goal with |- context [if ?c then _ else _] => destruct c end; try stay;
  eauto using tcp_on_syn_safe, tcp_on_syn_ack_safe, tcp_on_fin_safe, tcp_on_ack_safe, tcp_payload_safe.
Qed.
Lemma tcp_deliver_safe s k x g m data : net_ok s -> get_tsock s k = Some x -> seg_ok g m data ->
  returns (tcp_deliver mem_ok junk tcp_app s k g m data) (fun r => fst r = false /\ ok_after s (snd r)).
Proof.
  intros Hs Hx Hg. pose proof (tsock_in s k x Hs Hx) as (? & ? & ? & ? & ? & ?). unfold tcp_deliver. bind Hx.
  set (s1 := if _ =? 0 then s else _).
  assert (exists x1, ok_after s s1 /\ get_tsock s1 k = Some x1) as (x1 & Ho1 & Hx1).
  { unfold s1. destruct (_ =? 0); [exists x; split; [by apply ok_after_refl|done]|]. eexists. split; [|apply get_put_tsock].
    apply (ok_after_tsock s k x); [done|done|done|sock_ok]. }
  clearbody s1. bind Hx1. apply (returns_bind _ _ (fun r => ok_after s1 (snd r))).
  { destruct (bool_decide _); [apply returns_ret, ok_after_refl, Ho1|]. eapply tcp_switch_safe; [apply Ho1|done|done]. }
  intros [o s2] Ho2. simpl in Ho2. pose proof (ok_after_trans _ _ _ Ho1 Ho2) as Ho. destruct o as [|reset]; [by apply returns_ret|].
  destruct Ho as (Hs2 & Hb2 & Hk2). destruct (Hk2 k) as [x2 Hx2]; [by eexists|].
  apply (returns_bind _ _ (fun s' => ok_after s2 s' /\ get_tsock s' k = Some x2)).
  { destruct reset; [by apply tsend_safe|]. apply returns_ret. split; [by apply ok_after_refl|done]. }
  intros s3 (Ho3 & Hx3). bind Hx3. apply returns_ret. split; [done|]. simpl.
  eapply ok_after_trans; [exact (conj Hs2 (conj Hb2 Hk2))|]. eapply ok_after_trans; [exact Ho3|].
  pose proof (tsock_in s3 k x2 (proj1 Ho3) Hx3). apply (ok_after_tsock s3 k x2); [apply Ho3|done|..]; by destruct (bool_decide _).
Qed.

(** ** DNS *)

Lemma skip_loop_spec m end_ : bytes m -> end_ <= zlen m -> forall fuel p, 0 <= p -> end_ - p <= Z.of_nat fuel ->
  exists r, skip_loop fuel m p end_ = Some r /\ match r with Some q => p < q <= end_ | None => True end.
Proof.
  intros Hm He. induction fuel as [|fuel IH]; intros p Hp Hf; simpl.
  - destruct (Z.leb_spec end_ p); [by eexists|lia].
  - destruct (Z.leb_spec end_ p); [by eexists|]. destruct (rd8_in m Hm p) as (c & -> & Hc); [lia|]. simpl.
    destruct (Z.eqb_spec c 0); [eexists; split; [done|simpl; lia]|]. destruct (_ =? 0xC0).
    + destruct (Z.leb_spec end_ (p + 1)); [by eexists|]. eexists. split; [done|simpl; lia].
    + destruct (IH (p + (c + 1))) as (r & -> & Hr); [lia|lia|]. exists r. split; [done|]. destruct r; [lia|done].
Qed.
(** The name is skipped without leaving the message, whatever its bytes. *)
Lemma dns_skip_spec m p end_ : bytes m -> end_ <= zlen m -> 0 <= p ->
  exists r, dns_skip_name m p end_ = Some r /\ match r with Some q => p < q <= end_ | None => True end.
Proof. intros. apply skip_loop_spec; try done. lia. Qed.
Lemma skip_questions_spec m end_ : bytes m -> end_ <= zlen m -> forall n p, 0 <= p <= end_ ->
  exists r, skip_questions n m p end_ = Some r /\ match r with Some q => 0 <= q <= end_ | None => True end.
Proof.
  intros Hm He. induction n as [|n IH]; intros p Hp; cbn [skip_questions]; [by eexists|].
  destruct (dns_skip_spec m p end_ Hm He) as ([q|] & -> & Hq); [lia| |by eexists]. cbn [mbind option_bind].
  destruct (Z.ltb_spec end_ (q + 4)); [by eexists|]. apply IH. lia.
Qed.
Lemma find_answer_spec m end_ : bytes m -> end_ <= zlen m -> forall n p, 0 <= p <= end_ ->
  exists r, find_answer n m p end_ = Some r /\ match r with Some ip => 0 <= ip < 2 ^ 32 | None => True end.
Proof.
  intros Hm He. induction n as [|n IH]; intros p Hp; cbn [find_answer]; [by eexists|].
  destruct (dns_skip_spec m p end_ Hm He) as ([q|] & -> & Hq); [lia| |by eexists]. cbn [mbind option_bind].
  destruct (Z.ltb_spec end_ (q + 10)); [by eexists|].
  destruct (rd16_in m Hm q) as (t & -> & Ht); [lia|lia|]. destruct (rd16_in m Hm (q + 8)) as (r & -> & Hr); [lia|lia|]. cbn [mbind option_bind].
  pose proof (swap16_range r Hr). cbv zeta. destruct (Z.ltb_spec end_ (q + 10 + JLOS_SWAP_ENDIAN_16 r)); [by eexists|].
  destruct (_ && _) eqn:E; [|apply IH; lia]. apply andb_true_iff in E as [_ E]. apply Z.eqb_eq in E.
  destruct (rd32_in m Hm (q + 10)) as (ip & -> & Hip); [lia|lia|]. by eexists.
Qed.
Lemma ok_after_dns s d : net_ok s -> ok_after s (set_dns s d).
Proof. intros. split; [by apply net_ok_dns|]. split; [done|by intros k]. Qed.
Lemma dns_response_safe s m o size : net_ok s -> bytes m -> 0 <= o -> o + size <= zlen m ->
  returns (jlos_dns_on_response s m o size) (ok_after s).
Proof.
  intros Hs Hm Ho Hl. unfold jlos_dns_on_response, DNS_HDR. destruct (Z.ltb_spec size 12); [stay|].
  rd_step. destruct (negb _); [stay|]. rd_step. destruct (_ =? 0); [stay|]. rd_step. destruct (_ =? 0); [stay|]. rd_step.
  destruct (skip_questions_spec m (o + size) Hm Hl (Z.to_nat (JLOS_SWAP_ENDIAN_16 v2)) (o + 12)) as ([q|] & E & Hq); [lia| |]; bind E; [|stay].
  destruct (find_answer_spec m (o + size) Hm Hl (Z.to_nat (JLOS_SWAP_ENDIAN_16 v1)) q) as ([ip|] & E' & Hq'); [lia| |]; bind E'; [|stay].
  apply returns_ret. by apply ok_after_dns.
Qed.

(** ** DHCP *)

Lemma find_loop_spec m options max_len code : bytes m -> 0 <= options -> options + max_len <= zlen m -> max_len < 2 ^ 15 ->
  forall fuel i, 0 <= i < 2 ^ 15 + 257 -> max_len - i <= Z.of_nat fuel ->
  exists r, dhcp_find_loop fuel m options max_len code i = Some r /\ match r with Some p => options + 2 <= p <= options + max_len | None => True end.
Proof.
  intros Hm Ho Hl Hx. induction fuel as [|fuel IH]; intros i Hi Hf; cbn [dhcp_find_loop]; (destruct (Z.ltb_spec i max_len); [|by eexists]); [lia|].
  destruct (rd8_in m Hm (options + i)) as (c & -> & Hc); [lia|]. cbn [mbind option_bind].
  destruct (_ =? JLOS_DHCP_OPT_PAD); [apply IH; rewrite ?u16_small; lia|]. destruct (_ =? JLOS_DHCP_OPT_END); [by eexists|].
  destruct (Z.leb_spec max_len (i + 1)); [by eexists|]. destruct (rd8_in m Hm (options + i + 1)) as (l & -> & Hc'); [lia|]. cbn [mbind option_bind].
  destruct (_ =? code); [eexists; split; [done|simpl; lia]|]. apply IH; rewrite ?u16_small; lia.
Qed.
(** Every option that is found has four bytes behind its head. *)
Definition dhcp_room (m : list Z) (options len : Z) : Prop :=
  forall code p, dhcp_find_option m options len code = Some (Some p) -> p + 4 <= zlen m.
Section options.
Context (m : list Z) (options len : Z) (Hm : bytes m) (Ho : 0 <= options) (Hl : options + len <= zlen m) (Hx : len < 2 ^ 15).
Context (Hroom : dhcp_room m options len).
Lemma dhcp_find_spec code : exists r, dhcp_find_option m options len code = Some r /\
  match r with Some p => 0 <= p /\ p + 4 <= zlen m | None => True end.
Proof.
  destruct (find_loop_spec m options len code Hm Ho Hl Hx (Z.to_nat len) 0) as (r & E & Hr); [lia|lia|]. exists r. split; [exact E|].
  destruct r as [p|]; [|done]. split; [lia|by apply (Hroom code)].
Qed.
Lemma option_or_spec code old : returns (option_or m options len code old) (fun _ => True).
Proof.
  unfold option_or. destruct (dhcp_find_spec code) as ([p|] & -> & Hp); simpl; [|by apply returns_ret].
  destruct (rd32_in m Hm p) as (v & -> & Hv); [lia|lia|]. by apply returns_ret.
Qed.
End options.

Lemma udp_send_safe s k x data : net_ok s -> get_usock s k = Some x -> 28 + zlen data < 2 ^ 16 ->
  returns (jlos_udp_provider_send mem_ok junk s k data) (ok_after s).
Proof.
  intros Hs Hx Hl. destruct (udp_send_spec mem_ok junk s k x data (nk_send _ Hs) Hx Hl) as (fs & Hr & _).
  eapply returns_mono; [exact Hr|]. intros s' Hq. by eapply ok_after_quiet.
Qed.
Lemma ok_after_usock s k x x' : net_ok s -> get_usock s k = Some x -> ukey x' = ukey x -> u_handler x' = u_handler x -> usock_ok x' ->
  ok_after s (put_usock s k x').
Proof. intros. split; [by eapply net_ok_usock|]. split; [done|by intros j]. Qed.
Lemma get_put_usock s k x : get_usock (put_usock s k x) k = Some x.
Proof. apply lookup_insert_eq. Qed.
Lemma ok_after_dhcp s d : net_ok s -> dh_socket d = dh_socket (n_dhcp s) -> dh_mac d = dh_mac (n_dhcp s) -> ok_after s (set_dhcp s d).
Proof. intros. split; [by apply net_ok_dhcp|]. split; [done|by intros k]. Qed.

(** A message under construction in a buffer of 304 bytes. *)
Definition draft (m : list Z) : Prop := length m = 304%nat /\ bytes m.
Lemma stack_draft : draft (stack_buffer junk (DHCP_HDR + JLOS_DHCP_OPTIONS_MAX)).
Proof. split; [unfold stack_buffer; by rewrite length_map, length_seqZ|]. apply Forall_map, Forall_true. intros. apply u8_range. Qed.
Lemma like_draft m m' : draft m -> like m m' -> draft m'.
Proof. intros [H1 H2] [H3 H4]. split; [congruence|done]. Qed.
Lemma fill_header_safe m d : draft m -> length (dh_mac d) = 6%nat /\ bytes (dh_mac d) -> returns (jlos_dhcp_fill_header m d) draft.
Proof.
  intros [Hl Hb] [Hd Hd']. unfold jlos_dhcp_fill_header. do 11 wr_in.
  eapply returns_bind; [apply write_run_in; [done|by apply Forall_replicate|lia|rewrite length_replicate; lia]|wr_next].
  eapply returns_bind; [apply write_run_in; [done|done|lia|lia]|wr_next].
  eapply returns_bind; [apply write_run_in; [done|by apply Forall_replicate|lia|rewrite length_replicate; lia]|wr_next].
  eapply returns_bind; [apply write_run_in; [done|by apply Forall_replicate|lia|rewrite length_replicate; lia]|wr_next].
  eapply returns_mono; [apply wr32_in; [done|lia|lia]|]. intros m' [H1 H2]. split; [congruence|done].
Qed.
Lemma write_option_safe m p code val : draft m -> bytes val -> 0 <= p -> p + 2 + zlen val <= 304 ->
  returns (dhcp_write_option m p code val) (fun r => draft (fst r) /\ snd r = p + 2 + zlen val).
Proof.
  intros [Hl Hb] Hv Hp Hx. unfold dhcp_write_option. do 2 wr_in.
  eapply returns_bind; [apply write_run_in; [done|done|lia|lia]|wr_next]. apply returns_ret. split; [split; [simpl; congruence|done]|done].
Qed.
Lemma pad_loop_safe fuel : forall m t, draft m -> 0 <= t <= 300 -> 300 - t <= Z.of_nat fuel ->
  returns (pad_loop fuel m t) (fun r => draft (fst r) /\ snd r = 300).
Proof.
  induction fuel as [|fuel IH]; intros m t [Hl Hb] Ht Hf; cbn [pad_loop]; unfold JLOS_DHCP_MIN_PACKET; destruct (Z.ltb_spec t 300); try lia.
  1, 3: apply returns_ret; split; [done|simpl; lia].
  wr_in. apply IH; [split; [congruence|done]|rewrite u16_small; lia|rewrite u16_small; lia].
Qed.
Lemma send_broadcast_safe s m x : net_ok s -> draft m -> get_usock s (dh_socket (n_dhcp s)) = Some x ->
  returns (jlos_dhcp_send_broadcast mem_ok junk s m 300) (ok_after s).
Proof.
  intros Hs [Hl Hb] Hx. unfold jlos_dhcp_send_broadcast. bind Hx. bind (read_run_Some m 0 300 ltac:(lia) ltac:(lia) ltac:(lia)).
  pose proof (usock_in _ _ _ Hs Hx) as (? & ? & ? & ?).
  assert (ok_after s (put_usock s (dh_socket (n_dhcp s)) (UdpSocket (JLOS_SWAP_ENDIAN_16 JLOS_DHCP_SERVER_PORT) JLOS_IPV4_BROADCAST
    (u_local_port x) (u_local_ip x) (u_handler x) (listening x)))) as Ho by (by apply (ok_after_usock s _ x)).
  eapply returns_mono; [eapply udp_send_safe; [apply Ho|apply get_put_usock|rewrite length_take; lia]|].
  intros s' Hs'. exact (ok_after_trans _ _ _ Ho Hs').
Qed.
Lemma client_request_safe s x : net_ok s -> get_usock s (dh_socket (n_dhcp s)) = Some x ->
  returns (jlos_dhcp_client_request mem_ok junk s) (ok_after s).
Proof.
  intros Hs Hx. unfold jlos_dhcp_client_request.
  eapply returns_bind; [apply fill_header_safe; [apply stack_draft|apply (nk_mac _ Hs)]|]. intros m Hm.
  eapply returns_bind; [apply write_option_safe; [done|by repeat constructor|done|done]|]. intros [m1 o1] [Hm1 E1]. simpl in Hm1, E1.
  eapply returns_bind; [apply write_option_safe; [done|apply bytes32_bytes|subst; done|subst; done]|]. intros [m2 o2] [Hm2 E2]. simpl in Hm2, E2.
  eapply returns_bind; [apply write_option_safe; [done|apply bytes32_bytes|subst; done|subst; done]|]. intros [m3 o3] [Hm3 E3]. simpl in Hm3, E3.
  assert (o3 = 255) as -> by (by rewrite E3, E2, E1). destruct Hm3 as [Hl3 Hb3]. wr_in.
  eapply returns_bind; [apply pad_loop_safe; [split; [congruence|done]|done|done]|]. intros [m5 t] [Hm5 E5]. simpl in Hm5, E5. subst t.
  eapply returns_bind; [by eapply send_broadcast_safe|]. intros s' Ho. apply returns_ret.
  eapply ok_after_trans; [exact Ho|]. apply ok_after_dhcp; [apply Ho|done|done].
Qed.
Lemma dhcp_message_safe s x m o size : net_ok s -> get_usock s (dh_socket (n_dhcp s)) = Some x -> bytes m -> 0 <= o ->
  o + size <= zlen m -> size < 2 ^ 15 -> (DHCP_HDR <= size -> dhcp_room m (o + DHCP_HDR) (size - DHCP_HDR)) ->
  returns (jlos_dhcp_on_message mem_ok junk s m o size) (ok_after s).
Proof.
  intros Hs Hx Hm Ho Hl Hsz Hroom. unfold jlos_dhcp_on_message. unfold DHCP_HDR in *. destruct (Z.ltb_spec size 240); [stay|]. do 3 rd_step.
  destruct (_ || _); [stay|]. rewrite (u16_small (size - 240)) by lia. specialize (Hroom ltac:(lia)).
  set (opts := o + 240) in *. set (len := size - 240) in *. assert (0 <= opts /\ opts + len <= zlen m /\ len < 2 ^ 15) as (H1 & H2 & H3) by lia.
  destruct (dhcp_find_spec m opts len Hm H1 H2 H3 Hroom JLOS_DHCP_OPT_MSG_TYPE) as ([p|] & -> & Hp); [|stay]. cbn [mbind option_bind]. rd_step.
  destruct (_ =? JLOS_DHCP_MSG_OFFER); [|destruct (_ =? JLOS_DHCP_MSG_ACK); [|destruct (_ =? JLOS_DHCP_MSG_NAK); [|stay]]].
  - unfold jlos_dhcp_handle_offer. destruct (negb _); [stay|]. rd_step.
    destruct (dhcp_find_spec m opts len Hm H1 H2 H3 Hroom JLOS_DHCP_OPT_SERVER_ID) as (q & -> & Hq). cbn [mbind option_bind].
    apply (returns_bind _ _ (fun _ => True)).
    { destruct q as [q|]; [destruct (rd32_in m Hm q) as (v' & -> & _)|destruct (rd32_in m Hm (o + 20)) as (v' & -> & _)]; try lia; by apply returns_ret. }
    intros sid _. match goal with |- returns (_ (set_dhcp s ?d)) _ => pose proof (ok_after_dhcp s d Hs eq_refl eq_refl) as Hd end.
    eapply returns_mono; [eapply client_request_safe; [apply Hd|exact Hx]|]. intros s' Hs'. exact (ok_after_trans _ _ _ Hd Hs').
  - unfold jlos_dhcp_handle_ack. destruct (negb _); [stay|]. rd_step.
    eapply returns_bind; [by apply option_or_spec|]. intros mask _. eapply returns_bind; [by apply option_or_spec|]. intros gw _.
    eapply returns_bind; [by apply option_or_spec|]. intros dns _. apply returns_ret.
    assert (ok_after s (jlos_network_apply_config (set_config s (NetConfig v3 gw mask dns)))) as Hc.
    { split; [by apply net_ok_config|]. split; [done|by intros k]. }
    eapply ok_after_trans; [exact Hc|]. by apply ok_after_dhcp; [apply Hc|..].
  - apply returns_ret. by apply ok_after_dhcp.
Qed.

(** ** UDP *)

(** The window of the buffer lies in its memory. *)
Record buf_ok (b : skb) : Prop := {
  bo_window : 0 <= s_data b <= s_tail b;
  bo_mem : s_tail b <= zlen (s_mem b) < 2 ^ 15;
  bo_bytes : bytes (s_mem b);
  bo_ref : refcount b = 1;
  bo_src : 0 <= src_ip b < 2 ^ 32;
  bo_dst : 0 <= dst_ip b < 2 ^ 32
}.
Lemma skb_len_ok b : buf_ok b -> jlos_net_skb_len b = s_tail b - s_data b.
Proof. intros []. unfold jlos_net_skb_len. apply u32_small. lia. Qed.

(** A DHCP reply in the buffer has room behind its options. *)
Definition dhcp_fits (b : skb) : Prop :=
  let o := s_data b + UDP_HDR in let size := jlos_net_skb_len b - UDP_HDR in
  DHCP_HDR <= size -> dhcp_room (s_mem b) (o + DHCP_HDR) (size - DHCP_HDR).

Lemma udp_find_safe s key sip sport dip dport : net_ok s -> 0 <= sip < 2 ^ 32 -> 0 <= sport < 2 ^ 16 ->
  returns (udp_find s key (sip, sport, dip, dport)) (fun r => ok_after s (snd r) /\ match fst r with Some k => is_Some (get_usock (snd r) k) | None => True end).
Proof.
  intros Hs Hip Hp. unfold udp_find.
  destruct (links_find _ _ _ _ _ key (fun k => match get_usock s k with Some x => fst (udp_match_socket x (sip, sport, dip, dport)) | None => -1 end) (nk_udp _ Hs))
    as (r & -> & Hr). cbn [mbind option_bind]. destruct r as [k|].
  - destruct Hr as [[x Hx] _]. bind (Hx : get_usock s k = Some x). apply returns_ret. simpl.
    pose proof (usock_in s k x Hs Hx) as (? & ? & ? & ?). pose proof (u16_range sport). split; [|rewrite get_put_usock; by eexists].
    assert (ok_after s (put_usock s k x)) as Hsame by (by apply (ok_after_usock s k x)).
    unfold udp_match_socket. repeat match goal with |- context [if ?c then _ else _] => destruct c end; simpl; try exact Hsame.
    apply (ok_after_usock s k x); done.
  - apply returns_ret. split; [by apply ok_after_refl|done].
Qed.
Lemma udp_received_safe s p b : net_ok s -> get_skb s p = Some b -> buf_ok b -> dhcp_fits b ->
  returns (jlos_udp_provider_on_internet_protocol_received mem_ok junk udp_app s p) (fun r => ok_after s (snd r)).
Proof.
  intros Hs Hb Hok Hd. pose proof (skb_len_ok b Hok) as El. pose proof Hok as [H1 H2 H3 H4 H5 H6].
  unfold jlos_udp_provider_on_internet_protocol_received. bind Hb. unfold dhcp_fits in Hd. rewrite El in *. unfold UDP_HDR in *.
  destruct (Z.ltb_spec (s_tail b - s_data b) 8); [stay|]. do 2 rd_step.
  apply (returns_bind _ _ (fun r => ok_after s (snd r) /\ match fst r with Some k => is_Some (get_usock (snd r) k) | None => True end)); [by apply udp_find_safe|].
  intros [node s1] [Ho1 Hn1]. cbn [fst snd] in *.
  apply (returns_bind _ _ (fun r => ok_after s (snd r) /\ match fst r with Some k => is_Some (get_usock (snd r) k) | None => True end)).
  { destruct node; [by apply returns_ret|]. destruct (_ =? _); [|by apply returns_ret].
    eapply returns_mono; [apply udp_find_safe; [apply Ho1|done|done]|]. intros r [Hr Hr']. split; [|done]. exact (ok_after_trans _ _ _ Ho1 Hr). }
  intros [node' s2] [Ho2 Hn2]. cbn [fst snd] in *. destruct node' as [k|]; [|by apply returns_ret]. destruct Hn2 as [x Hx].
  rewrite (u16_small (s_tail b - s_data b - 8)) by lia.
  apply (returns_bind _ _ (ok_after s2)); [|intros s3 Ho3; apply returns_ret; exact (ok_after_trans _ _ _ Ho2 Ho3)].
  unfold jlos_udp_socket_handle_udp_message. bind Hx. pose proof (proj1 Ho2) as Hs2.
  destruct (_ =? 0); [stay|]. destruct (Z.eqb_spec (u_handler x) DHCP_HANDLER) as [Eh|_].
  { apply (nk_dhcp _ Hs2 k x Hx) in Eh. subst k. eapply dhcp_message_safe; try done; lia. }
  destruct (_ =? DNS_HANDLER); [apply dns_response_safe; try done; lia|].
  bind (read_run_Some (s_mem b) (s_data b + 8) (s_tail b - s_data b - 8) ltac:(lia) ltac:(lia) ltac:(lia)). by apply (proj1 Happs).
Qed.

(** ** The other handlers *)

Lemma tcp_received_safe s p b : net_ok s -> get_skb s p = Some b -> buf_ok b ->
  returns (jlos_tcp_provider_on_internet_protocol_received mem_ok junk tcp_app s p) (fun r => fst r = false /\ ok_after s (snd r)).
Proof.
  intros Hs Hb Hok. pose proof (skb_len_ok b Hok) as El. pose proof Hok as [H1 H2 H3 H4 H5 H6].
  unfold jlos_tcp_provider_on_internet_protocol_received. bind Hb. rewrite El.
  destruct (Z.ltb_spec (s_tail b - s_data b) 20); [apply returns_ret; split; [done|by apply ok_after_refl]|].
  apply (returns_bind _ _ (fun g => seg_ok g (s_mem b) (s_data b))).
  { unfold read_segment. do 6 rd_step. apply returns_ret. rewrite El. split; simpl; try lia.
    - apply swap32_range. lia.
    - apply Z.land_nonneg. lia. }
  intros g Hg. destruct (links_find _ _ _ _ _ (g_dst_ip g, g_dst_port g) (fun k => match get_tsock s k with
    Some x => tcp_match_socket x (g_src_ip g, g_src_port g, g_flags g, g_dst_ip g, g_dst_port g) | None => -1 end) (nk_tcp _ Hs)) as (r & -> & Hr).
  cbn [mbind option_bind]. destruct r as [k|]; [|apply returns_ret; split; [done|by apply ok_after_refl]].
  destruct Hr as [[x Hx] _]. by apply (tcp_deliver_safe s k x).
Qed.

(** A packet in the buffer [p] was processed: the buffer, now [b'], may have other contents. *)
Record ok_slot (p : Z) (b b' : skb) (s s' : net) : Prop := {
  ok_net : net_ok s';
  ok_kept : socks_kept s s';
  ok_get : get_skb s' p = Some b';
  ok_ref : refcount b' = 1;
  ok_flags : data_flags b' = data_flags b;
  ok_pages : data_pages b' = data_pages b;
  ok_skbs : skbs (n_pool s') = <[p := b']> (skbs (n_pool s));
  ok_kbufs : kbufs (n_pool s') = kbufs (n_pool s);
  ok_frames : frames (n_pool s') = frames (n_pool s);
  ok_next : next_id (n_pool s) <= next_id (n_pool s')
}.
(** The window and the size are as before. *)
Definition same_window (b b' : skb) : Prop :=
  buf_ok b' /\ s_data b' = s_data b /\ s_tail b' = s_tail b /\ length (s_mem b') = length (s_mem b).
Definition ok_packet (p : Z) (b : skb) (s s' : net) : Prop := exists b', ok_slot p b b' s s' /\ same_window b b'.
Lemma ok_packet_same p b s s' : get_skb s p = Some b -> buf_ok b -> ok_after s s' -> ok_packet p b s s'.
Proof.
  intros Hb Hok (Hn & (E1 & E2 & E3 & E4) & Hk). exists b. unfold get_skb in *. split; [|done].
  split; try done; [unfold get_skb; by rewrite E1|apply Hok|by rewrite E1, insert_id].
Qed.
Lemma ok_slot_put p b b' s : net_ok s -> get_skb s p = Some b -> refcount b' = 1 -> data_flags b' = data_flags b -> data_pages b' = data_pages b ->
  ok_slot p b b' s (put_skb s p b').
Proof. intros Hs Hb Hr Hf Hp. split; try done; [by eapply net_ok_skb|by intros k|apply get_put_skb]. Qed.
Lemma ok_slot_trans p b b1 b2 s s1 s2 : ok_slot p b b1 s s1 -> ok_slot p b1 b2 s1 s2 -> ok_slot p b b2 s s2.
Proof.
  intros [A1 A2 A3 A4 A5 A6 A7 A8 A9 A10] [B1 B2 B3 B4 B5 B6 B7 B8 B9 B10]. split; try congruence; [|by rewrite B7, A7, insert_insert_eq|lia].
  intros k Hk. by apply B2, A2.
Qed.
(** New contents of the same shape. *)
Lemma ok_packet_mem p b s m : net_ok s -> get_skb s p = Some b -> buf_ok b -> like (s_mem b) m -> ok_packet p b s (put_skb s p (with_mem b m)).
Proof.
  intros Hs Hb [H1 H2 H3 H4 H5 H6] [Hl Hm]. exists (with_mem b m). split; [by apply ok_slot_put|].
  split; [|done]. split; try done. simpl. lia.
Qed.
Ltac stay_packet := apply returns_ret; cbn [snd]; eapply ok_packet_same; [eassumption|done|by apply ok_after_refl].
Lemma like_trans m1 m2 m3 : like m1 m2 -> like m2 m3 -> like m1 m3.
Proof. intros [] []. split; [congruence|done]. Qed.
Lemma csum_fold_in l : exists c, jlos_internet_protocol_provider_csum_fold (jlos_internet_protocol_provider_csum_partial l 0) = Some c.
Proof. edestruct csum_fold_spec as (f & _ & ->); [by apply csum_partial_range|]. by eexists. Qed.

Lemma icmp_received_safe s p b : net_ok s -> get_skb s p = Some b -> buf_ok b ->
  returns (jlos_icmp_on_internet_protocol_received s p) (fun r => ok_packet p b s (snd r)).
Proof.
  intros Hs Hb Hok. pose proof (skb_len_ok b Hok) as El. pose proof Hok as [H1 H2 H3 H4 H5 H6].
  unfold jlos_icmp_on_internet_protocol_received. bind Hb. rewrite El. unfold ICMP_MSG.
  destruct (Z.ltb_spec (s_tail b - s_data b) 8); [stay_packet|]. rd_step. destruct (_ =? 8); [|stay_packet]. do 2 wr_in.
  bind (read_run_Some m0 (s_data b) (s_tail b - s_data b) ltac:(lia) ltac:(lia) ltac:(lia)).
  edestruct csum_fold_in as (c & Ec). bind Ec. wr_in. apply returns_ret. apply ok_packet_mem; try done. split; [congruence|done].
Qed.
Lemma arp_received_safe s p b : net_ok s -> get_skb s p = Some b -> buf_ok b ->
  returns (jlos_arp_on_ether_frame_received s p) (fun r => ok_packet p b s (snd r)).
Proof.
  intros Hs Hb Hok. pose proof (skb_len_ok b Hok) as El. pose proof Hok as [H1 H2 H3 H4 H5 H6].
  unfold jlos_arp_on_ether_frame_received. bind Hb. rewrite El. unfold ARP_MSG.
  destruct (Z.ltb_spec (s_tail b - s_data b) 28); [stay_packet|]. rd_step. destruct (negb _); [stay_packet|]. do 4 rd_step.
  destruct (_ && _ && _ && _); [|stay_packet]. rd_step. destruct (_ =? 0x0100).
  - wr_in. rd_step. wr_in. bind (read_run_Some m0 (s_data b + 8) 6 ltac:(lia) ltac:(lia) ltac:(lia)).
    eapply returns_bind; [apply write_run_in; [done| |lia|rewrite length_take, length_drop; lia]|wr_next].
    { by apply Forall_take, Forall_drop. }
    wr_in. eapply returns_bind; [apply write_run_in; [done|apply mac_bytes_bytes|lia|rewrite length_mac_bytes; lia]|wr_next].
    apply returns_ret. apply ok_packet_mem; try done. split; [congruence|done].
  - destruct (_ =? 0x0200); [|stay_packet]. destruct (Z.ltb_spec (num_cache_entries (n_arp s)) 128); [|stay_packet]. rd_step.
    destruct (so_arp _ (nk_send _ Hs)) as (L1 & L2 & L3). bind (seti_Some (ip_cache (n_arp s)) (num_cache_entries (n_arp s)) v5 ltac:(lia)).
    bind (read_run_Some (s_mem b) (s_data b + 8) 6 ltac:(lia) ltac:(lia) ltac:(lia)).
    match goal with |- returns (seti ?l ?i ?v ≫= _) _ => bind (seti_Some l i v ltac:(lia)) end.
    apply returns_ret. cbn [snd]. apply ok_packet_same; [done|done|]. split; [|split; [done|by intros k]].
    apply net_ok_arp; [done|]. split_and!; simpl; rewrite ?length_insert; lia.
Qed.

(** ** IPv4 and Ethernet *)

Lemma ip_table_spec proto : 0 <= proto < 255 -> exists h, geti ip_table proto = Some h /\ (h = 0 \/ h = ICMP_OBJ \/ h = UDP_OBJ \/ h = TCP_OBJ).
Proof.
  intros Hp. destruct (geti_Some ip_table proto) as (h & E & Hh); [simpl; lia|]. exists h. split; [done|].
  apply list_elem_of_lookup_2 in Hh. revert h E Hh. enough (Forall (fun h => h = 0 \/ h = ICMP_OBJ \/ h = UDP_OBJ \/ h = TCP_OBJ) ip_table) as H.
  { intros h _ Hh. rewrite Forall_forall in H. by apply H. }
  apply (bool_decide_eq_true_1 _). by vm_compute.
Qed.
Definition ip_pull (b : skb) (v : Z) : skb := jlos_net_skb_pull b (4 * Z.land v 0x0F).
(** The header lies in the packet, the protocol has an entry, and DHCP replies are complete. *)
Definition ip_wf (b : skb) : Prop := forall v proto, rd8 (s_mem b) (s_data b) = Some v -> rd8 (s_mem b) (s_data b + 9) = Some proto ->
  s_data b + 4 * Z.land v 0x0F <= s_tail b /\ proto <> 255 /\ dhcp_fits (ip_pull b v).

Lemma ip_handle_safe fn s p b : net_ok s -> get_skb s p = Some b -> buf_ok b -> dhcp_fits b ->
  returns (ip_handle mem_ok junk udp_app tcp_app fn s p) (fun r => ok_packet p b s (snd r)).
Proof.
  intros Hs Hb Hok Hd. destruct fn; cbn [ip_handle].
  - stay_packet.
  - by apply icmp_received_safe.
  - eapply returns_mono; [by eapply udp_received_safe|]. intros r Hr. by apply ok_packet_same.
  - eapply returns_mono; [by eapply tcp_received_safe|]. intros r [_ Hr]. by apply ok_packet_same.
Qed.
Lemma ip_received_safe s p b : net_ok s -> get_skb s p = Some b -> buf_ok b -> ip_wf b ->
  returns (jlos_internet_protocol_provider_on_ether_frame_received mem_ok junk udp_app tcp_app s p)
    (fun r => exists b', ok_slot p b b' s (snd r) /\ (fst r = true -> same_window b b')).
Proof.
  intros Hs Hb Hok Hwf. pose proof (skb_len_ok b Hok) as El. pose proof Hok as [H1 H2 H3 H4 H5 H6].
  assert (ok_packet p b s s) as (b0 & Hb0 & _) by (apply ok_packet_same; [done|done|by apply ok_after_refl]).
  unfold jlos_internet_protocol_provider_on_ether_frame_received. bind Hb. rewrite El. unfold IPV4_HDR.
  destruct (Z.ltb_spec (s_tail b - s_data b) 20); [apply returns_ret; by exists b0|].
  destruct (rd8_in (s_mem b) H3 (s_data b)) as (v & Ev & Hv); [lia|]. bind Ev. rd_step.
  destruct (_ || _); [|apply returns_ret; by exists b0].
  destruct (rd8_in (s_mem b) H3 (s_data b + 9)) as (proto & Ep & Hp); [lia|]. bind Ep.
  destruct (Hwf v proto Ev Ep) as (Hih & H255 & Hfit). rewrite (nk_handlers _ Hs).
  destruct (ip_table_spec proto) as (h & Eh & Hh); [lia|]. bind Eh. destruct (Z.eqb_spec h 0); [apply returns_ret; by exists b0|]. rd_step.
  assert (exists o, ip_objs (n_ip s) !! h = Some o) as [o Eo].
  { pose proof (nk_send _ Hs) as [_ _ _ Oi Ou Ot]. destruct Hh as [->|[->|[->| ->]]]; [done|eauto..]. }
  bind Eo. assert (0 <= Z.land v 15) by (apply Z.land_nonneg; left; lia). set (hl := 4 * Z.land v 15) in *.
  set (b1 := jlos_net_skb_pull _ _). set (s1 := put_skb s p b1).
  assert (ok_slot p b b1 s s1) as Hs1 by (by apply ok_slot_put). assert (buf_ok b1) as Hok1 by (split; simpl; try done; lia).
  eapply returns_bind; [apply (ip_handle_safe _ s1 p b1); [apply Hs1|apply Hs1|done|exact Hfit]|]. intros [back s2] (b2 & Hb2 & Hw2). cbn [snd] in *.
  pose proof (ok_slot_trans _ _ _ _ _ _ _ Hs1 Hb2) as Hsl. destruct back; [|apply returns_ret; by exists b2]. cbn [negb].
  destruct Hw2 as ([G1 G2 G3 G4 G5 G6] & Wd & Wt & Wl). cbn [s_data s_tail s_mem b1 jlos_net_skb_pull with_window with_addr] in Wd, Wt, Wl, G1.
  bind (ok_get _ _ _ _ _ Hsl). cbn [s_mem jlos_net_skb_push with_window]. do 2 rd_step. do 4 wr_in.
  bind (read_run_Some m2 (s_data b) hl ltac:(lia) ltac:(lia) ltac:(lia)). edestruct csum_fold_in as (c & Ec). bind Ec. wr_in. apply returns_ret.
  exists (with_mem (jlos_net_skb_push b2 hl) m3). split; [|intros _; split; [|split_and!; simpl; lia]; split; simpl; try done; try lia].
  eapply ok_slot_trans; [exact Hsl|]. apply ok_slot_put; [apply Hsl|apply Hsl|exact G4|done|done].
Qed.

(** The frame's headers keep within the frame. *)
Definition frame_wf (f : list Z) : Prop := bytes f /\ zlen f < 2 ^ 15 /\
  (rd16 f 12 = Some 0x0008 -> forall v proto, rd8 f 14 = Some v -> rd8 f 23 = Some proto -> let o := 14 + 4 * Z.land v 0x0F in
   o <= zlen f /\ proto <> 255 /\ (DHCP_HDR <= zlen f - o - UDP_HDR -> dhcp_room f (o + UDP_HDR + DHCP_HDR) (zlen f - o - UDP_HDR - DHCP_HDR))).

(** The buffer the driver's data was copied to is released at the end. *)
Lemma release_safe fs s s1 s2 p b b' : net_ok s -> held fs s s1 p b -> ok_slot p b b' s1 s2 -> returns (skb_free s2 p) (ok_after s).
Proof.
  intros Hs Hh [A1 A2 A3 A4 A5 A6 A7 A8 A9 A10]. eexists. split; [by eapply skb_free_last|].
  destruct Hh as (H0 & n & k & Hn & Hp & ->). simpl in *. rewrite insert_insert_eq in A7.
  split; [|split].
  - by apply net_ok_without.
  - unfold same_bufs, without_skb, jlos_net_skb_data_free. rewrite A5, A6. destruct (_ =? _); simpl; rewrite A7, A8, A9, delete_insert_id by done; split_and!; try done; lia.
  - intros j Hj. by apply A2.
Qed.

Lemma ether_see_spec s type : net_ok s -> exists r,
  jlos_hash_chain_see jlos_hash_uint16 (ether_frame_cmp (eth_objs (n_eth s))) (size (eth_objs (n_eth s))) (eth_handlers (n_eth s)) type = Some r /\
  match r with
  | Some h => exists fn, eth_objs (n_eth s) !! h = Some (EtherHandler type fn) /\ (type = 0x0008 /\ fn = EthIpv4 \/ type = 0x0608 /\ fn = EthArp)
  | None => True
  end.
Proof.
  intros Hs. destruct (links_find _ _ _ _ _ type (ether_frame_cmp (eth_objs (n_eth s)) type) (nk_eth _ Hs)) as (r & E & Hr).
  exists r. split; [exact E|]. destruct r as [h|]; [|done]. destruct Hr as [[x Hx] H0]. unfold ether_frame_cmp in H0. rewrite Hx in H0.
  rewrite (nk_eobjs _ Hs) in Hx |- *. pose proof Hx as Hx'. unfold eth_table in Hx'. rewrite lookup_insert_Some in Hx'.
  destruct Hx' as [[<- <-]|[_ Hx']]; [simpl in H0; assert (type = 8) as -> by lia; exists EthIpv4; split; [done|by left]|].
  rewrite lookup_insert_Some in Hx'. destruct Hx' as [[<- <-]|[_ Hx']]; [|done].
  simpl in H0. assert (type = 0x0608) as -> by lia. exists EthArp. split; [done|by right].
Qed.
Lemma ether_handle_safe fn s p b : net_ok s -> get_skb s p = Some b -> buf_ok b -> (fn = EthIpv4 -> ip_wf b) ->
  returns (ether_handle mem_ok junk udp_app tcp_app fn s p) (fun r => exists b', ok_slot p b b' s (snd r) /\ (fst r = true -> same_window b b')).
Proof.
  intros Hs Hb Hok Hwf. destruct fn; cbn [ether_handle].
  - apply returns_ret. destruct (ok_packet_same p b s s Hb Hok (ok_after_refl s Hs)) as (b' & H & _). by exists b'.
  - eapply returns_mono; [by apply arp_received_safe|]. intros r (b' & H1 & H2). by exists b'.
  - apply ip_received_safe; auto.
Qed.
Lemma ok_slot_tx p b b' s s' f : ok_slot p b b' s s' -> ok_slot p b b' s (tx_frame s' f).
Proof.
  intros [A1 A2 A3 A4 A5 A6 A7 A8 A9 A10]. split; try done.
  destruct A1 as [[Pk [] ????] H2 H3 H4 H5 H6 H7 H8 H9 H10 H11 H12 H13]. by repeat (split; try done).
Qed.
(** The frame goes back to where it came from. *)
Lemma send_back_safe fs s s1 s2 p b b' : net_ok s -> held fs s s1 p b -> ok_slot p b b' s1 s2 -> buf_ok b' -> 14 <= s_data b' ->
  returns (s ← ether_send_back s2 p; skb_free s p) (ok_after s).
Proof.
  intros Hs Hh Hsl [H1 H2 H3 H4 H5 H6] Hd. apply (returns_bind _ _ (fun s3 => exists b3, ok_slot p b b3 s1 s3)).
  2: { intros s3 (b3 & H). by eapply release_safe. }
  unfold ether_send_back. bind (ok_get _ _ _ _ _ Hsl). unfold jlos_net_skb_push, ETHER_HDR, uint64_to_mac.
  cbn [s_mem s_data s_tail with_window with_mem]. bind (read_run_Some (s_mem b') (s_data b' - 14 + 6) 6 ltac:(lia) ltac:(lia) ltac:(lia)).
  eapply returns_bind; [apply write_run_in; [done|by apply Forall_take, Forall_drop|lia|rewrite length_take; lia]|wr_next].
  eapply returns_bind; [apply write_run_in; [done|apply mac_bytes_bytes|lia|rewrite length_mac_bytes; lia]|wr_next].
  unfold jlos_net_skb_len. cbn [s_mem s_data s_tail with_window with_mem]. rewrite u32_small by lia.
  eexists. split; [by apply hal_send_spec, read_run_Some; lia|].
  eexists. apply ok_slot_tx. eapply ok_slot_trans; [exact Hsl|]. by apply ok_slot_put; [apply Hsl|apply Hsl|..].
Qed.
End safe.

(** Receiving is safe for every frame whose headers keep within the frame: however the
    frame's bytes are chosen, no layer reads or writes outside the buffer or uses a released
    buffer or socket, every search and loop ends, the buffer is released whatever the frame
    triggers (the memory in use is the same before and after), and the invariant of the
    stack is kept. The applications' handlers are only assumed to keep the invariant. *)
Lemma rx_safe (mem_ok : nat -> bool) (junk : Z -> Z -> Z) (udp_app : Z -> Z -> list Z -> net -> option net)
    (tcp_app : Z -> Z -> list Z -> net -> option (bool * net)) (s : net) (f : list Z) :
  apps_ok udp_app tcp_app -> net_ok s -> frame_wf f ->
  returns (jlos_ether_frame_provider_on_raw_data_received mem_ok junk udp_app tcp_app s f) (ok_after s).
Proof.
  intros Happs Hs (Hf & Hlen & Hwf). unfold jlos_ether_frame_provider_on_raw_data_received.
  destruct (alloc_held mem_ok junk s (zlen f) (so_pool _ (nk_send _ Hs)) ltac:(lia)) as [(s' & -> & Hq & _)|(p & s1 & b & -> & Hh & Hb)].
  { apply returns_ret. by eapply ok_after_quiet. }
  bind (held_get _ _ _ _ _ Hh). unfold jlos_net_skb_put. cbv beta iota zeta. destruct Hb as ((Hm & Hsi & Hdi) & Hd & Ht & Hr).
  cbn [s_mem s_data s_tail with_window]. rewrite Hd, Ht, Z.add_0_l.
  rewrite <- (app_nil_r (s_mem b)). refine (returns_step _ _ _ _ (write_run_app [] (s_mem b) f [] 0 ltac:(lia) eq_refl) _). cbv beta.
  rewrite !app_nil_r. cbn [app]. set (b1 := with_mem (with_window b 0 (zlen f)) f).
  assert (held [] s (put_skb s1 p b1) p b1) as Hh1 by (by eapply held_put). set (s2 := put_skb s1 p b1) in *.
  assert (net_ok s2) as Hs2 by (by eapply held_ok). pose proof (held_get _ _ _ _ _ Hh1) as Hg.
  assert (ok_slot p b1 b1 s2 s2) as Hsl0 by (split; try done; [by intros k|unfold get_skb in Hg; by rewrite insert_id]).
  unfold jlos_net_skb_len. cbn [s_tail s_data b1 with_mem with_window]. rewrite Z.sub_0_r, u32_small by lia. unfold ETHER_HDR.
  destruct (Z.ltb_spec (zlen f) 14); [by eapply release_safe|].
  bind (read_run_Some f 0 6 ltac:(lia) ltac:(lia) ltac:(lia)). destruct (_ || _); [|by eapply release_safe].
  destruct (rd16_in f Hf (0 + 12)) as (type & Et & _); [lia|lia|]. bind Et.
  destruct (ether_see_spec s2 type Hs2) as (r & Er & Hr'). bind Er. destruct r as [h|]; [|by eapply release_safe].
  destruct Hr' as (fn & Eo & Hfn). bind Eo. cbn [on_ether_frame_received].
  set (b2 := jlos_net_skb_pull b1 14). assert (ok_slot p b1 b2 s2 (put_skb s2 p b2)) as Hsl2 by (by apply ok_slot_put).
  assert (buf_ok b2) as Hok2.
  { split; simpl; rewrite ?Hsi, ?Hdi; try done; lia. }
  assert (fn = EthIpv4 -> ip_wf b2) as Hip.
  { intros ->. destruct Hfn as [[-> _]|[_ ?]]; [|done]. intros v proto Ev Ep. destruct (Hwf Et v proto Ev Ep) as (W1 & W2 & W3). split; [exact W1|].
    split; [done|]. unfold dhcp_fits, jlos_net_skb_len. cbn [s_data s_tail s_mem ip_pull b2 b1 jlos_net_skb_pull with_window with_mem].
    change (0 + 14) with 14. assert (0 <= Z.land v 15) by (apply Z.land_nonneg; right; lia). rewrite u32_small by lia. exact W3. }
  apply (returns_bind _ _ (fun r => exists b', ok_slot p b1 b' s2 (snd r) /\ (fst r = true -> same_window b2 b'))).
  { eapply returns_mono; [apply ether_handle_safe; [done|apply Hsl2|apply Hsl2|done|done]|]. intros r (b' & H1 & H2). exists b'. split; [|done].
    exact (ok_slot_trans _ _ _ _ _ _ _ Hsl2 H1). }
  intros [back s3] (b' & Hsl & Hw). cbn [fst snd] in *. destruct back; [|by eapply release_safe]. destruct (Hw eq_refl) as (Hok' & Hd' & _).
  eapply send_back_safe; [done|exact Hh1|exact Hsl|done|]. rewrite Hd'. done.
Qed.
