(* ===== verification/NetOps.v ===== *)
(** * The operations of the network stack in any order

    The socket operations, the requests the stack sends on its own and the receiving
    code keep the invariant, so the stack is safe whatever the order in which
    applications and frames drive it. *)
From S2P Require Import Prelude HashChain Bytes NetBuf NetStack NetApps NetRx NetSend NetInv NetSafe.

Section ops.
Context (mem_ok : nat -> bool) (junk : Z -> Z -> Z).

(** ** Sockets *)

(** Memory for a socket: a new address, or none. *)
Lemma kalloc_sock_spec s : exists r s1, kalloc_sock mem_ok s = (r, s1) /\ quiet [] s s1 /\
  (r = None /\ ~ plenty mem_ok \/ r = Some (next_id (n_pool s)) /\ next_id (n_pool s1) = next_id (n_pool s) + 1).
Proof.
  unfold kalloc_sock, attempt. destruct (mem_ok (attempts (n_pool s))) eqn:E; eexists _, _; (split; [reflexivity|]).
  - split; [|by right]. exists 1, 1%nat. split; [done|]. destruct s as [[???] [] ????????]. simpl.
    replace (attempts + 1)%nat with (S attempts) by lia. by rewrite app_nil_r.
  - split; [|left; split; [done|intros H; by rewrite H in E]]. exists 0, 1%nat. split; [done|]. destruct s as [[???] [] ????????]. simpl.
    replace (attempts + 1)%nat with (S attempts) by lia. by rewrite app_nil_r, Z.add_0_r.
Qed.
Lemma udp_insert_ok s k x port : net_ok s -> 0 < k < next_id (n_pool s) -> get_usock s k = None -> usock_ok x -> u_handler x <> DHCP_HANDLER ->
  returns (udp_insert s k x port) (fun s2 => net_ok s2 /\ exists h,
    s2 = set_udp s (Udp h (<[k := x]> (u_objs (n_udp s))) (u16 (u_num_sockets (n_udp s) + 1)) port)).
Proof.
  intros Hs Hk Hn Hx Hh. destruct (links_insert _ _ _ _ _ k x (nk_udp _ Hs) Hn ltac:(lia)) as (h & E & HL). unfold udp_insert. bind E.
  apply returns_ret. split; [|by exists h]. destruct Hs as [[? [] ????] H2 H3 H4 H5 H6 H7 H8 H9 H10 H11 H12 H13]. split; try done.
  - by apply map_Forall_insert_2.
  - by apply map_Forall_insert_2; [simpl; lia|].
  - by apply map_Forall_insert_2.
Qed.
Lemma tcp_insert_ok s k x port : net_ok s -> 0 < k < next_id (n_pool s) -> get_tsock s k = None -> tsock_ok x ->
  returns (tcp_insert s k x port) (fun s2 => net_ok s2 /\ exists h,
    s2 = set_tcp s (Tcp h (<[k := x]> (t_objs (n_tcp s))) (u16 (t_num_sockets (n_tcp s) + 1)) port)).
Proof.
  intros Hs Hk Hn Hx. destruct (links_insert _ _ _ _ _ k x (nk_tcp _ Hs) Hn ltac:(lia)) as (h & E & HL). unfold tcp_insert. bind E.
  apply returns_ret. split; [|by exists h]. destruct Hs as [[? [] ????] H2 H3 H4 H5 H6 H7 H8 H9 H10 H11 H12 H13]. split; try done.
  - by apply map_Forall_insert_2.
  - by apply map_Forall_insert_2; [simpl; lia|].
Qed.
(** No socket is at an address that was never handed out. *)
Lemma fresh_usock s k : net_ok s -> next_id (n_pool s) <= k -> get_usock s k = None.
Proof. intros Hs Hk. destruct (get_usock s k) as [x|] eqn:E; [|done]. pose proof (nk_uid _ Hs k x E). cbv beta in *. lia. Qed.
Lemma fresh_tsock s k : net_ok s -> next_id (n_pool s) <= k -> get_tsock s k = None.
Proof. intros Hs Hk. destruct (get_tsock s k) as [x|] eqn:E; [|done]. pose proof (nk_tid _ Hs k x E). cbv beta in *. lia. Qed.
Lemma swap16_any x : 0 <= JLOS_SWAP_ENDIAN_16 x < 2 ^ 16.
Proof. rewrite <- swap16_u16. apply swap16_range, u16_range. Qed.
Lemma quiet_socks fs s s' : quiet fs s s' -> u_objs (n_udp s') = u_objs (n_udp s) /\ t_objs (n_tcp s') = t_objs (n_tcp s).
Proof. by intros (n & k & _ & ->). Qed.

(** What opening a socket does: the address of the new socket [x], or 0 and nothing. *)
Definition opened {V} (objs : net -> gmap Z V) (x : V) (s : net) (r : Z * net) : Prop :=
  ok_after s (snd r) /\ (fst r = 0 /\ ~ plenty mem_ok \/ fst r = next_id (n_pool s) /\ objs (snd r) = <[fst r := x]> (objs s)).

Definition usocks (s : net) : gmap Z udp_socket := u_objs (n_udp s).
Definition tsocks (s : net) : gmap Z tcp_socket := t_objs (n_tcp s).
Lemma udp_open_ok s x port : net_ok s -> usock_ok x -> u_handler x <> DHCP_HANDLER ->
  forall r s1, kalloc_sock mem_ok s = (Some r, s1) -> returns (udp_insert s1 r x port) (fun s2 => opened usocks x s (r, s2)).
Proof.
  intros Hs Hx Hh r s1 E. destruct (kalloc_sock_spec s) as (r' & s1' & E' & Hq & Hr). rewrite E in E'. injection E' as <- <-.
  destruct Hr as [[? _]|[[= ->] Hn]]; [done|]. pose proof (net_ok_quiet _ _ _ Hq Hs) as Hs1. pose proof (nk_next _ Hs).
  destruct (quiet_socks _ _ _ Hq) as [Eu _]. eapply returns_mono; [apply udp_insert_ok; [done|lia| |done|done]|].
  { unfold get_usock. rewrite Eu. by apply fresh_usock. }
  intros s2 (Hs2 & h & ->). split; [|right; split; [done|]; unfold usocks; simpl; by rewrite Eu].
  split; [done|]. pose proof (ok_after_quiet _ _ _ Hs Hq) as (_ & H1 & H2). split; [exact H1|exact H2].
Qed.
Lemma tcp_open_ok s x port : net_ok s -> tsock_ok x ->
  forall r s1, kalloc_sock mem_ok s = (Some r, s1) -> returns (tcp_insert s1 r x port) (fun s2 => opened tsocks x s (r, s2)).
Proof.
  intros Hs Hx r s1 E. destruct (kalloc_sock_spec s) as (r' & s1' & E' & Hq & Hr). rewrite E in E'. injection E' as <- <-.
  destruct Hr as [[? _]|[[= ->] Hn]]; [done|]. pose proof (net_ok_quiet _ _ _ Hq Hs) as Hs1. pose proof (nk_next _ Hs).
  destruct (quiet_socks _ _ _ Hq) as [_ Et]. eapply returns_mono; [apply tcp_insert_ok; [done|lia| |done]|].
  { unfold get_tsock. rewrite Et. by apply fresh_tsock. }
  intros s2 (Hs2 & h & ->). split; [|right; split; [done|]; unfold tsocks; simpl; by rewrite Et].
  split; [done|]. pose proof (ok_after_quiet _ _ _ Hs Hq) as (_ & H1 & H2). split; [exact H1|]. intros j Hj. unfold get_tsock. simpl.
  destruct (decide (j = next_id (n_pool s))) as [->|]; [rewrite lookup_insert_eq; by eexists|]. rewrite lookup_insert_ne by done. by apply H2.
Qed.
Lemma kalloc_failed s s1 {V} (objs : net -> gmap Z V) x : net_ok s -> kalloc_sock mem_ok s = (None, s1) -> opened objs x s (0, s1).
Proof.
  intros Hs E. destruct (kalloc_sock_spec s) as (r' & s1' & E' & Hq & Hr). rewrite E in E'. injection E' as <- <-.
  destruct Hr as [[_ Hp]|[? _]]; [|done]. split; [by eapply ok_after_quiet|by left].
Qed.

(** The sockets the four operations make. *)
Definition udp_connected (s : net) (ip port : Z) : udp_socket :=
  UdpSocket (JLOS_SWAP_ENDIAN_16 port) ip (JLOS_SWAP_ENDIAN_16 (u_free_port (n_udp s))) (ip_address (n_dev s)) 0 false.
Definition udp_listening (s : net) (port : Z) : udp_socket :=
  let k := next_id (n_pool s) in UdpSocket (u16 (junk k 0)) (u32 (junk k 1)) (JLOS_SWAP_ENDIAN_16 port) (ip_address (n_dev s)) 0 true.
Definition tcp_connecting (s : net) (ip port : Z) : tcp_socket :=
  let k := next_id (n_pool s) in
  TcpSocket (JLOS_SWAP_ENDIAN_16 port) ip (JLOS_SWAP_ENDIAN_16 (t_free_port (n_tcp s))) (ip_address (n_dev s)) 0xbeefcafe (u32 (junk k 5)) 0 JLOS_TCP_SYN_SENT 0.
Definition tcp_listening (s : net) (port : Z) : tcp_socket :=
  let k := next_id (n_pool s) in
  TcpSocket (u16 (junk k 0)) (u32 (junk k 1)) (JLOS_SWAP_ENDIAN_16 port) (ip_address (n_dev s)) (u32 (junk k 4)) (u32 (junk k 5)) 0 JLOS_TCP_LISTEN 0.

(** The address is what the allocator gave, and the rest of the state is as it was. *)
Lemma kalloc_some s k s1 : kalloc_sock mem_ok s = (Some k, s1) -> k = next_id (n_pool s) /\ n_dev s1 = n_dev s /\ n_udp s1 = n_udp s /\ n_tcp s1 = n_tcp s.
Proof. unfold kalloc_sock, attempt. destruct (mem_ok _); intros [= <- <-]. done. Qed.

Ltac sock_range := repeat split; simpl; first [apply swap16_any | apply u16_range | apply u32_range | lia].
Lemma udp_connect_ok s ip port : net_ok s -> 0 <= ip < 2 ^ 32 ->
  returns (jlos_udp_provider_connect mem_ok junk s ip port) (opened usocks (udp_connected s ip port) s).
Proof.
  intros Hs Hip. pose proof (lk_addr _ (so_link _ (nk_send _ Hs))). unfold jlos_udp_provider_connect.
  destruct (kalloc_sock mem_ok s) as [[k|] s1] eqn:E; [|apply returns_ret; by apply kalloc_failed].
  destruct (kalloc_some _ _ _ E) as (-> & Ed & Eu & Et). unfold jlos_hal_net_get_ip_address. rewrite Ed, Eu.
  eapply returns_bind; [eapply (udp_open_ok s (udp_connected s ip port)); [done|sock_range|done|exact E]|]. intros s2 H2. by apply returns_ret.
Qed.
Lemma udp_listen_ok s port : net_ok s -> returns (jlos_udp_provider_listen mem_ok junk s port) (opened usocks (udp_listening s port) s).
Proof.
  intros Hs. pose proof (lk_addr _ (so_link _ (nk_send _ Hs))). unfold jlos_udp_provider_listen.
  destruct (kalloc_sock mem_ok s) as [[k|] s1] eqn:E; [|apply returns_ret; by apply kalloc_failed].
  destruct (kalloc_some _ _ _ E) as (-> & Ed & Eu & Et). unfold jlos_hal_net_get_ip_address. rewrite Ed, Eu.
  eapply returns_bind; [eapply (udp_open_ok s (udp_listening s port)); [done|sock_range|done|exact E]|]. intros s2 H2. by apply returns_ret.
Qed.
Lemma tcp_listen_ok s port : net_ok s -> returns (jlos_tcp_provider_listen mem_ok junk s port) (opened tsocks (tcp_listening s port) s).
Proof.
  intros Hs. pose proof (lk_addr _ (so_link _ (nk_send _ Hs))). unfold jlos_tcp_provider_listen.
  destruct (kalloc_sock mem_ok s) as [[k|] s1] eqn:E; [|apply returns_ret; by apply kalloc_failed].
  destruct (kalloc_some _ _ _ E) as (-> & Ed & Eu & Et). unfold jlos_hal_net_get_ip_address. rewrite Ed, Et.
  eapply returns_bind; [eapply (tcp_open_ok s (tcp_listening s port)); [done|sock_range|exact E]|]. intros s2 H2. by apply returns_ret.
Qed.
Lemma tcp_connect_ok s ip port : net_ok s -> 0 <= ip < 2 ^ 32 ->
  returns (jlos_tcp_provider_connect mem_ok junk s ip port) (opened tsocks (tcp_connecting s ip port) s).
Proof.
  intros Hs Hip. pose proof (lk_addr _ (so_link _ (nk_send _ Hs))). unfold jlos_tcp_provider_connect.
  destruct (kalloc_sock mem_ok s) as [[k|] s1] eqn:E; [|apply returns_ret; by apply kalloc_failed].
  destruct (kalloc_some _ _ _ E) as (-> & Ed & Eu & Et). unfold jlos_hal_net_get_ip_address. rewrite Ed, Et.
  eapply returns_bind; [eapply (tcp_open_ok s (tcp_connecting s ip port)); [done|sock_range|exact E]|]. intros s2 [Ho Hr].
  destruct Hr as [[Hz _]|[_ Hk]]; cbn [fst snd] in *; [pose proof (nk_next _ Hs); lia|].
  assert (get_tsock s2 (next_id (n_pool s)) = Some (tcp_connecting s ip port)) as Hg by (unfold get_tsock; fold (tsocks s2); rewrite Hk; apply lookup_insert_eq).
  destruct (tcp_ctl_spec mem_ok junk s2 _ _ JLOS_TCP_SYN (nk_send _ (proj1 Ho)) Hg ltac:(done)) as (fs & Hr & _).
  eapply returns_bind; [exact Hr|]. intros s3 Hq. apply returns_ret. split; [eapply ok_after_trans; [exact Ho|by eapply ok_after_quiet; [apply Ho|]]|].
  right. split; [done|]. unfold tsocks. cbn [snd fst]. by rewrite (proj2 (quiet_socks _ _ _ Hq)).
Qed.

(** *** The other operations of a socket *)

Lemma udp_disconnect_ok s k : net_ok s -> is_Some (get_usock s k) ->
  returns (jlos_udp_provider_disconnect s k) (fun s' => ok_after s s' /\ usocks s' = delete k (usocks s)).
Proof.
  intros Hs Hk. destruct (links_delete _ _ _ _ _ k (nk_udp _ Hs) Hk) as (h & E & HL). destruct Hk as [x Hx]. unfold jlos_udp_provider_disconnect.
  bind Hx. bind E. apply returns_ret. split; [|done]. split; [|split; [done|by intros j]].
  destruct Hs as [[? [] ????] H2 H3 H4 H5 H6 H7 H8 H9 H10 H11 H12 H13]. split; try done; simpl; by apply map_Forall_delete.
Qed.
Lemma udp_bind_ok s k x h : net_ok s -> get_usock s k = Some x -> h <> DHCP_HANDLER ->
  returns (jlos_udp_provider_bind s k h) (fun s' => ok_after s s' /\
    usocks s' = <[k := UdpSocket (u_remote_port x) (u_remote_ip x) (u_local_port x) (u_local_ip x) h (listening x)]> (usocks s)).
Proof.
  intros Hs Hx Hh. unfold jlos_udp_provider_bind. bind Hx. apply returns_ret. split; [|done]. split; [|split; [done|by intros j]].
  pose proof (usock_in s k x Hs Hx). destruct Hs as [Hsd H2 H3 H4 H5 H6 H7 H8 H9 H10 H11 H12 H13]. split; try done; simpl.
  - by apply send_ok_usock.
  - by eapply links_update.
  - by apply map_Forall_insert_2.
  - apply map_Forall_insert_2; [|done]. by apply (H10 k x).
  - by apply map_Forall_insert_2.
Qed.
Lemma tcp_bind_ok s k x h : net_ok s -> get_tsock s k = Some x -> returns (jlos_tcp_provider_bind s k h) (ok_after s).
Proof. intros Hs Hx. unfold jlos_tcp_provider_bind. bind Hx. apply returns_ret. apply (ok_after_tsock s k x); [done|done|done|apply (tsock_in s k x Hs Hx)]. Qed.
Lemma tcp_data_ok s k x data flags : net_ok s -> get_tsock s k = Some x -> 44 + zlen data < 2 ^ 16 ->
  returns (jlos_tcp_provider_send mem_ok junk s k data flags) (fun s' => ok_after s s' /\ is_Some (get_tsock s' k)).
Proof.
  intros Hs Hx Hl. pose proof (tsock_in s k x Hs Hx) as (?&?&?&?&?&?).
  destruct (tcp_send_spec mem_ok junk s k x data flags (nk_send _ Hs) Hx Hl) as (s1 & Hs1 & fs & Hr & _).
  assert (ok_after s s1) as Ho.
  { destruct Hs1 as [->|[-> _]]; [|by apply ok_after_refl]. apply (ok_after_tsock s k x); [done|done|done|]. split_and!; simpl; (lia || apply u32_range). }
  eapply returns_mono; [exact Hr|]. intros s2 Hq. assert (ok_after s s2) as Ho2 by (eapply ok_after_trans; [exact Ho|by eapply ok_after_quiet; [apply Ho|]]).
  split; [done|]. apply Ho2. by eexists.
Qed.
Lemma tcp_socket_send_ok s k x data : net_ok s -> get_tsock s k = Some x -> 44 + zlen data < 2 ^ 16 ->
  returns (jlos_tcp_socket_send mem_ok junk s k data) (ok_after s).
Proof.
  intros Hs Hx Hl. unfold jlos_tcp_socket_send. bind Hx. destruct (decide _); [|by apply returns_ret, ok_after_refl].
  eapply returns_mono; [by eapply tcp_data_ok|]. by intros s' [H _].
Qed.
Lemma tcp_disconnect_ok s k x : net_ok s -> get_tsock s k = Some x -> returns (jlos_tcp_provider_disconnect mem_ok junk s k) (ok_after s).
Proof.
  intros Hs Hx. unfold jlos_tcp_provider_disconnect. bind Hx. pose proof (tsock_in s k x Hs Hx) as (?&?&?&?&?&?).
  assert (forall st, returns (s' ← jlos_tcp_provider_send mem_ok junk (put_tsock s k (set_state x st)) k [] (Z.lor JLOS_TCP_FIN JLOS_TCP_ACK);
    y ← get_tsock s' k; Some (put_tsock s' k (set_seq y (u32 (sequence_number y + 1))))) (ok_after s)) as Hf.
  { intros st. assert (ok_after s (put_tsock s k (set_state x st))) as Ho by (by apply (ok_after_tsock s k x)).
    eapply returns_bind; [apply (tcp_data_ok _ k (set_state x st)); [apply Ho|apply get_put_tsock|done]|].
    intros s' (Ho' & y & Hy). bind Hy. apply returns_ret. eapply ok_after_trans; [exact Ho|]. eapply ok_after_trans; [exact Ho'|].
    pose proof (tsock_in s' k y (proj1 Ho') Hy) as (?&?&?&?&?&?). apply (ok_after_tsock s' k y); [apply Ho'|done|done|]. split_and!; simpl; (lia || apply u32_range). }
  destruct (t_state x); (apply Hf || by apply returns_ret, ok_after_refl).
Qed.

(** *** Requests *)

Ltac bind H ::= first [refine (bind_step _ _ _ _ H _) | refine (returns_step _ _ _ _ H _) | refine (sends_step _ _ _ _ _ _ H _)]; cbv beta zeta.
Ltac wr_step ::= lazymatch goal with |- (?t ≫= _) = _ => wr_term t | |- returns (?t ≫= _) _ => wr_term t | |- sends _ (?t ≫= _) _ _ => wr_term t end.
(** The echo request: identifier 0x1337, sequence number 0 and no data. *)
Definition echo_request : list Z := [8; 0; 0xe4; 0xc8; 0x13; 0x37; 0; 0].
Lemma echo_spec s ip : send_ok s -> sends mem_ok (jlos_icmp_request_echo_reply mem_ok junk s ip) s (ip_frames s 0x01 ip echo_request).
Proof.
  intros Hs. unfold jlos_icmp_request_echo_reply, ETHER_HDR, IPV4_HDR, ICMP_MSG.
  destruct (alloc_held mem_ok junk s (8 + (14 + 20)) (so_pool _ Hs) ltac:(done)) as [(s' & -> & Hq & Hn)|(p & s1 & b & -> & Hh & Hb)].
  { exists []. split; [by apply returns_ret|done]. }
  destruct Hb as ((Hm & _) & Hd & Ht & Hr). destruct (split_headers (s_mem b) 8) as (pre & ipo & old & Em & Lpre & Lip & Lold); [lia|].
  bind (held_get _ _ _ _ _ Hh). unfold jlos_net_skb_put, jlos_net_skb_reserve. cbn [s_data s_mem s_tail with_window with_mem]. cbv beta iota zeta.
  rewrite Hd, Ht, Em. replace (pre ++ ipo ++ old) with ((pre ++ ipo) ++ old ++ []) by (by rewrite app_nil_r, app_assoc).
  replace (0 + (14 + 20)) with (zlen (pre ++ ipo)) by (rewrite length_app; lia). split_bytes old Lold. do 4 wr_step.
  match goal with |- sends _ (read_run (_ ++ ?l ++ _) _ _ ≫= _) _ _ => change l with [8; 0; 0; 0; 0x13; 0x37; 0; 0] end.
  bind (read_run_app (pre ++ ipo) [8; 0; 0; 0; 0x13; 0x37; 0; 0] [] (zlen (pre ++ ipo)) 8 eq_refl eq_refl).
  refine (sends_step _ _ _ 51428 _ _ _ _); [vm_compute; reflexivity|]. cbv beta. wr_step. rewrite app_nil_r, <- (app_assoc pre ipo).
  eapply (ip_send_held mem_ok junk [] s _ p _ pre ipo echo_request ICMP_OBJ 0x01 IpIcmp ip Hs);
    [eapply held_put; [exact Hh|done|done]|done|apply (so_icmp _ Hs)|done|done|done|done|..].
  all: cbn [s_data s_tail with_mem with_window]; rewrite ?length_app; simpl; lia.
Qed.
Lemma sends_ok t s fs : net_ok s -> sends mem_ok t s fs -> returns t (ok_after s).
Proof. intros Hs (fs' & Hr & _). eapply returns_mono; [exact Hr|]. intros s' Hq. by eapply ok_after_quiet. Qed.
Lemma discover_ok s x now : net_ok s -> get_usock s (dh_socket (n_dhcp s)) = Some x -> returns (jlos_dhcp_client_discover mem_ok junk s now) (ok_after s).
Proof.
  intros Hs Hx. unfold jlos_dhcp_client_discover. destruct (bool_decide _); [by apply returns_ret, ok_after_refl|]. cbv zeta.
  set (self := Dhcp _ _ _ _ _ _). assert (ok_after s (set_dhcp s self)) as Hd by (by apply ok_after_dhcp).
  eapply returns_bind; [apply fill_header_safe; [apply stack_draft|apply (nk_mac _ Hs)]|]. intros m Hm.
  eapply returns_bind; [apply write_option_safe; [done|by repeat constructor|done|done]|]. intros [m1 o1] [Hm1 E1]. simpl in Hm1, E1.
  assert (o1 = 243) as -> by done. destruct Hm1 as [Hl1 Hb1]. wr_in.
  eapply returns_bind; [apply pad_loop_safe; [split; [congruence|done]|done|done]|]. intros [m5 t] [Hm5 E5]. simpl in Hm5, E5. subst t.
  eapply returns_bind; [apply (send_broadcast_safe mem_ok junk (set_dhcp s self) m5 x); [apply Hd|done|exact Hx]|]. intros s' Ho. apply returns_ret.
  eapply ok_after_trans; [exact Hd|]. eapply ok_after_trans; [exact Ho|]. apply ok_after_dhcp; [apply Ho|done|done].
Qed.

(** *** Waiting for an address *)

Lemma resolve_loop_spec (intr : Z -> net -> net) ip : (forall t s, net_ok s -> net_ok (intr t s)) ->
  forall fuel s timeout, net_ok s -> 0 <= timeout <= 5000000 -> 5000000 - timeout <= Z.of_nat fuel ->
  returns (resolve_loop fuel intr s ip (arp_find (arp_entries (n_arp s)) ip) timeout)
    (fun r => net_ok (snd r) /\ fst r = arp_find (arp_entries (n_arp (snd r))) ip).
Proof.
  intros Hi. induction fuel as [|fuel IH]; intros s timeout Hs Ht Hf; cbn [resolve_loop]; destruct (_ =? _); cbn [andb]; try by apply returns_ret.
  all: destruct (Z.ltb_spec timeout 5000000); [|by apply returns_ret]. { lia. }
  specialize (Hi timeout s Hs). bind (arp_cache_spec (n_arp (intr timeout s)) ip (so_arp _ (nk_send _ Hi))). rewrite u32_small by lia. apply IH; [done|lia|lia].
Qed.
End ops.

(** C36. Looking up a station's address ends: whatever frames arrive meanwhile, as long as what
    interrupts do keeps the invariant of the stack, [jlos_arp_resolve] returns: 5,000,000 rounds
    are enough for its loop, behind the one or two looks at the cache before it, and its result is what the cache holds for the address at that
    moment, the broadcast address when it holds nothing. *)
Theorem arp_resolve_terminates (mem_ok : nat -> bool) (junk : Z -> Z -> Z) (intr : Z -> net -> net) (fuel : nat) (s : net) (ip : Z) :
  net_ok s -> (forall t s, net_ok s -> net_ok (intr t s)) -> 5000000 <= Z.of_nat fuel ->
  returns (jlos_arp_resolve mem_ok junk fuel intr s ip) (fun r => net_ok (snd r) /\ fst r = arp_find (arp_entries (n_arp (snd r))) ip).
Proof.
  intros Hs Hi Hf. unfold jlos_arp_resolve. bind (arp_cache_spec (n_arp s) ip (so_arp _ (nk_send _ Hs))). destruct (_ =? _).
  - destruct (arp_request_spec mem_ok junk s ip (so_pool _ (nk_send _ Hs)) (so_link _ (nk_send _ Hs))) as (fs & Hr & _).
    rewrite bind_assoc. eapply returns_bind; [exact Hr|]. intros s' Hq. pose proof (net_ok_quiet _ _ _ Hq Hs) as Hs'.
    rewrite bind_assoc. bind (arp_cache_spec (n_arp s') ip (so_arp _ (nk_send _ Hs'))). refine (returns_step _ _ _ _ eq_refl _). cbv beta iota.
    apply resolve_loop_spec; [done|done|lia|lia].
  - refine (returns_step _ _ _ _ eq_refl _). cbv beta iota. apply resolve_loop_spec; [done|done|lia|lia].
Qed.

(** ** Any order *)

(** What drives the stack: a frame, an application, or the system itself. *)
Inductive net_op :=
| Rx (f : list Z)
| UdpListen (port : Z) | UdpConnect (ip port : Z) | UdpBind (k h : Z) | UdpSend (k : Z) (data : list Z) | UdpDisconnect (k : Z)
| TcpListen (port : Z) | TcpConnect (ip port : Z) | TcpBind (k h : Z) | TcpSend (k : Z) (data : list Z) | TcpDisconnect (k : Z)
| Ping (ip : Z) | ArpRequest (ip : Z) | Discover (now : Z).

Section run.
Context (mem_ok : nat -> bool) (junk : Z -> Z -> Z).
Context (udp_app : Z -> Z -> list Z -> net -> option net).
Context (tcp_app : Z -> Z -> list Z -> net -> option (bool * net)).

Definition net_exec (op : net_op) (s : net) : option net :=
  match op with
  | Rx f => jlos_ether_frame_provider_on_raw_data_received mem_ok junk udp_app tcp_app s f
  | UdpListen port => snd <$> jlos_udp_provider_listen mem_ok junk s port
  | UdpConnect ip port => snd <$> jlos_udp_provider_connect mem_ok junk s ip port
  | UdpBind k h => jlos_udp_provider_bind s k h
  | UdpSend k data => jlos_udp_provider_send mem_ok junk s k data
  | UdpDisconnect k => jlos_udp_provider_disconnect s k
  | TcpListen port => snd <$> jlos_tcp_provider_listen mem_ok junk s port
  | TcpConnect ip port => snd <$> jlos_tcp_provider_connect mem_ok junk s ip port
  | TcpBind k h => jlos_tcp_provider_bind s k h
  | TcpSend k data => jlos_tcp_socket_send mem_ok junk s k data
  | TcpDisconnect k => jlos_tcp_provider_disconnect mem_ok junk s k
  | Ping ip => jlos_icmp_request_echo_reply mem_ok junk s ip
  | ArpRequest ip => jlos_arp_request_mac_address mem_ok junk s ip
  | Discover now => jlos_dhcp_client_discover mem_ok junk s now
  end.
(** What the caller has to respect: a live socket, data that fits, a 32-bit address, and
    for a frame that its headers keep within it. *)
Definition op_ok (s : net) (op : net_op) : Prop :=
  match op with
  | Rx f => frame_wf f
  | UdpListen _ | TcpListen _ | Ping _ | ArpRequest _ => True
  | UdpConnect ip _ | TcpConnect ip _ => 0 <= ip < 2 ^ 32
  | UdpBind k h => is_Some (get_usock s k) /\ h <> DHCP_HANDLER
  | UdpSend k data => is_Some (get_usock s k) /\ 28 + zlen data < 2 ^ 16
  | UdpDisconnect k => is_Some (get_usock s k)
  | TcpBind k _ | TcpDisconnect k => is_Some (get_tsock s k)
  | TcpSend k data => is_Some (get_tsock s k) /\ 44 + zlen data < 2 ^ 16
  | Discover _ => is_Some (get_usock s (dh_socket (n_dhcp s)))
  end.
Fixpoint net_run (ops : list net_op) (s : net) : option net :=
  match ops with [] => Some s | op :: ops => s ← net_exec op s; net_run ops s end.
(** Every operation of the sequence respects its conditions in the state it meets. *)
Fixpoint run_ok (ops : list net_op) (s : net) : Prop :=
  match ops with [] => True | op :: ops => op_ok s op /\ forall s', net_exec op s = Some s' -> run_ok ops s' end.

Lemma opened_ok {V} (objs : net -> gmap Z V) x s t : returns t (opened mem_ok objs x s) -> returns (snd <$> t) (ok_after s).
Proof. intros (r & -> & H & _). by exists (snd r). Qed.
Lemma net_exec_ok op s : apps_ok udp_app tcp_app -> net_ok s -> op_ok s op -> returns (net_exec op s) (ok_after s).
Proof.
  intros Ha Hs Hop. destruct op; cbn [net_exec op_ok] in *.
  - by apply rx_safe.
  - by eapply opened_ok, udp_listen_ok.
  - by eapply opened_ok, udp_connect_ok.
  - destruct Hop as [[x Hx] Hh]. eapply returns_mono; [by eapply udp_bind_ok|]. by intros s' [H _].
  - destruct Hop as [[x Hx] Hl]. by eapply udp_send_safe.
  - eapply returns_mono; [by apply udp_disconnect_ok|]. by intros s' [H _].
  - by eapply opened_ok, tcp_listen_ok.
  - by eapply opened_ok, tcp_connect_ok.
  - destruct Hop as [x Hx]. by eapply tcp_bind_ok.
  - destruct Hop as [[x Hx] Hl]. by eapply tcp_socket_send_ok.
  - destruct Hop as [x Hx]. by eapply tcp_disconnect_ok.
  - eapply sends_ok; [done|]. apply echo_spec, (nk_send _ Hs).
  - destruct (arp_request_spec mem_ok junk s ip (so_pool _ (nk_send _ Hs)) (so_link _ (nk_send _ Hs))) as (fs & Hr & _).
    eapply returns_mono; [exact Hr|]. intros s' Hq. by eapply ok_after_quiet.
  - destruct Hop as [x Hx]. by eapply discover_ok.
Qed.
Lemma run_safe ops s : apps_ok udp_app tcp_app -> net_ok s -> run_ok ops s ->
  returns (net_run ops s) (fun s' => net_ok s' /\ same_bufs s s').
Proof.
  intros Ha. revert s. induction ops as [|op ops IH]; intros s Hs Hr; [by apply returns_ret|]. destruct Hr as [Ho Hr]. cbn [net_run].
  destruct (net_exec_ok op s Ha Hs Ho) as (s1 & E & Hs1 & Hb1 & _). bind E.
  eapply returns_mono; [apply IH; [done|by apply Hr]|]. intros s' [H1 H2]. split; [done|]. by etrans.
Qed.
End run.
