(* ===== verification/NetInit.v ===== *)
(** * Initialisation and the sockets of the network stack

    Initialisation establishes the invariant; the socket operations keep it. *)
From S2P Require Import Prelude HashChain Bytes NetBuf NetStack NetApps NetRx NetSend NetInv NetSafe NetOps.

Section init.
Context (mem_ok : nat -> bool) (junk : Z -> Z -> Z).

(** Only the number of allocation attempts differs. *)
Definition bump (s : net) : net :=
  let q := n_pool s in set_pool s (Pool (skbs q) (next_id q) (S (attempts q)) (kbufs q) (frames q)).
Lemma chain_init_spec s : plenty mem_ok ->
  returns (chain_init mem_ok s) (fun r => snd r = bump s /\ forall K V (hash : K -> Z) (key : V -> K) k0, links hash key k0 (fst r) ∅).
Proof.
  intros Hp. unfold chain_init, attempt. rewrite Hp.
  eexists. split; [reflexivity|]. split; [done|]. intros K V hash key k0. exists []. split.
  - destruct (hash_chain_init_correct hash (fun n => match (∅ : gmap Z V) !! n with Some x => key x | None => k0 end) (fun _ => true)
      (fun _ => HNode 0 PNull) 64) as [H _]; [done|]. destruct H as (j & _ & _ & h & E & HT & _); [done|].
    injection E as <-. exact HT.
  - intros n. split; [by intros ?%elem_of_nil|]. rewrite lookup_empty. by intros [? ?].
Qed.

Lemma udp_insert_spec s k x port : links udp_hash_ip_port ukey (0, 0) (u_sockets (n_udp s)) (u_objs (n_udp s)) ->
  u_objs (n_udp s) !! k = None -> k <> 0 ->
  returns (udp_insert s k x port) (fun s' => exists h, s' = set_udp s (Udp h (<[k := x]> (u_objs (n_udp s))) (u16 (u_num_sockets (n_udp s) + 1)) port) /\
    links udp_hash_ip_port ukey (0, 0) h (<[k := x]> (u_objs (n_udp s)))).
Proof.
  intros HL Hk H0. destruct (links_insert _ _ _ _ _ k x HL Hk H0) as (h & E & HL'). unfold udp_insert. bind E. apply returns_ret. by exists h.
Qed.

(** The memory of the stack before initialisation. *)
Record raw_ok (s : net) : Prop := {
  rw_pool : pool_ok s;
  rw_next : 8 <= next_id (n_pool s);
  rw_mac : 0 <= mac_address (n_dev s) < 2 ^ 48;
  rw_ips : length (ip_cache (n_arp s)) = 128%nat;
  rw_macs : length (mac_cache (n_arp s)) = 128%nat
}.
End init.

(** What the stack is after initialisation. *)
Definition booted (s s' : net) : Prop :=
  net_ok s' /\ same_bufs s s' /\ arp_entries (n_arp s') = [] /\
  n_dev s' = NetDev (mac_address (n_dev s)) 0 (tx (n_dev s)) /\ t_objs (n_tcp s') = ∅ /\
  exists k x, u_objs (n_udp s') = {[k := x]} /\ u_local_port x = JLOS_SWAP_ENDIAN_16 68 /\ listening x = true /\
    u_handler x = DHCP_HANDLER /\ dh_socket (n_dhcp s') = k /\ dh_state (n_dhcp s') = DHCP_INIT.
Lemma network_init_spec (mem_ok : nat -> bool) (junk : Z -> Z -> Z) (s : net) : plenty mem_ok -> raw_ok s ->
  returns (network_init mem_ok junk s) (booted s).
Proof.
  intros Hp [R1 R2 R3 R4 R5]. unfold network_init. cbv zeta. set (s0 := jlos_hal_net_set_ip_address _ _).
  destruct (chain_init_spec mem_ok s0 Hp) as ([c1 t1] & E1 & Et1 & HL1). cbn [fst snd] in Et1, HL1. subst t1.
  unfold jlos_ether_frame_provider_init at 1. rewrite bind_assoc. bind E1. clear E1. cbn [mbind option_bind].
  unfold jlos_arp_init, jlos_ether_frame_handler_init. rewrite bind_assoc. cbn [n_eth eth_handlers eth_objs set_arp set_eth].
  destruct (links_insert jlos_hash_uint16 etherType_BE 0 c1 ∅ ARP_OBJ (EtherHandler 0x0608 EthArp) (HL1 _ _ _ _ _) eq_refl ltac:(done)) as (c2 & E2 & HL2).
  bind E2. clear E2. cbn [mbind option_bind].
  unfold jlos_internet_protocol_provider_init, jlos_ether_frame_handler_init. rewrite !bind_assoc. cbn [n_eth eth_handlers eth_objs set_arp set_eth].
  destruct (links_insert jlos_hash_uint16 etherType_BE 0 c2 _ IPV4_OBJ (EtherHandler 0x0008 EthIpv4) HL2 eq_refl ltac:(done)) as (c3 & E3 & HL3).
  bind E3. clear E3. cbn [mbind option_bind]. unfold jlos_icmp_init at 1, jlos_internet_protocol_handler_init at 1. rewrite bind_assoc.
  cbn [n_ip handlers set_ip set_eth]. bind (eq_refl : seti (replicate 255 0) 1 ICMP_OBJ = Some (<[1%nat := ICMP_OBJ]> (replicate 255 0))).
  cbn [mbind option_bind]. match goal with |- returns (jlos_udp_provider_init _ ?x ≫= _) _ => set (s3 := x) end.
  unfold jlos_udp_provider_init, jlos_internet_protocol_handler_init at 1. rewrite !bind_assoc.
  bind (eq_refl : seti (handlers (n_ip s3)) 17 UDP_OBJ = Some (<[17%nat := UDP_OBJ]> (<[1%nat := ICMP_OBJ]> (replicate 255 0)))).
  cbn [mbind option_bind]. rewrite bind_assoc. match goal with |- returns (chain_init _ ?x ≫= _) _ => set (s4 := x) end. 
  destruct (chain_init_spec mem_ok s4 Hp) as ([c4 t4] & E4 & Et4 & HL4). cbn [fst snd] in Et4, HL4. subst t4. bind E4. clear E4. cbn [mbind option_bind].
  match goal with |- returns (jlos_tcp_provider_init _ ?x ≫= _) _ => set (s5 := x) end.
  unfold jlos_tcp_provider_init, jlos_internet_protocol_handler_init at 1. rewrite !bind_assoc.
  bind (eq_refl : seti (handlers (n_ip s5)) 6 TCP_OBJ = Some ip_table).
  cbn [mbind option_bind]. rewrite bind_assoc. match goal with |- returns (chain_init _ ?x ≫= _) _ => set (s6 := x) end. 
  destruct (chain_init_spec mem_ok s6 Hp) as ([c5 t5] & E5 & Et5 & HL5). cbn [fst snd] in Et5, HL5. subst t5. bind E5. clear E5. cbn [mbind option_bind].
  match goal with |- returns (jlos_dhcp_client_init _ _ ?x _ ≫= _) _ => set (s7 := x) end.
  unfold jlos_dhcp_client_init. rewrite bind_assoc. unfold jlos_udp_provider_listen, kalloc_sock, attempt. rewrite Hp. rewrite bind_assoc.
  match goal with |- returns (udp_insert ?t ?k ?x ?port ≫= _) _ => set (s8 := t); set (k8 := k); set (x8 := x) end.
  assert (8 <= k8) as Hk8 by done.
  destruct (udp_insert_spec s8 k8 x8 (u_free_port (n_udp s8)) (HL4 _ _ _ _ _) eq_refl ltac:(lia)) as (s9 & E9 & h9 & Es9 & HL9).
  bind E9. clear E9. cbn [mbind option_bind]. destruct (Z.eqb_spec k8 0); [lia|]. 
  unfold jlos_udp_provider_bind. 
  rewrite bind_assoc. assert (get_usock s9 k8 = Some x8) as Hx8 by (rewrite Es9; apply lookup_insert_eq). bind Hx8. apply returns_ret.
  assert (usock_ok x8) as Hux.
  { pose proof (u16_range (junk k8 0)). pose proof (u32_range (junk k8 1)). unfold usock_ok, x8. simpl. split; [done|]. split; [done|]. done. }
  assert (ukey x8 = (0, JLOS_SWAP_ENDIAN_16 68)) as Hky by done. assert (listening x8 = true) as Hli by done.
  assert (links udp_hash_ip_port ukey (0, 0) h9 (<[k8 := UdpSocket (u_remote_port x8) (u_remote_ip x8) (u_local_port x8) (u_local_ip x8) DHCP_HANDLER (listening x8)]>
    (<[k8 := x8]> (u_objs (n_udp s8))))) as HL10 by (eapply links_update; [exact HL9|apply lookup_insert_eq|done]).
  subst s9. clearbody x8. rewrite insert_insert_eq in HL10. change (u_objs (n_udp s8)) with (∅ : gmap Z udp_socket) in HL10.
  split; [|split; [split_and!; simpl; (done || lia)|split; [done|split; [done|split; [done|]]]]].
  2: { eexists k8, _. cbn [u_objs n_udp put_usock set_udp set_dns jlos_dns_resolver_init set_dhcp]. rewrite insert_insert_eq. split; [done|].
       injection Hky as _ Hpt. by rewrite Hpt. }
  split; simpl; rewrite ?insert_insert_eq; try done; try lia.
  - split; simpl; try done. intros k Hk. specialize (R1 k Hk). simpl. lia.
  - by apply map_Forall_insert_2; [|apply map_Forall_empty].
  - apply map_Forall_insert_2; [change (next_id (n_pool s) < next_id (n_pool s) + 1); lia|apply map_Forall_empty].
  - split; [done|]. apply mac_bytes_bytes.
  - by apply map_Forall_insert_2; [|apply map_Forall_empty].
Qed.

(** C6. Initialisation of the network stack, given memory, establishes the invariant: both
    Ethernet handlers and the three IP handlers are registered, the ARP cache is empty, the
    address is 0.0.0.0, nothing is sent, and the only socket is the DHCP client's, listening
    on port 68 with the DHCP handler. Hence every sequence of operations and frames that
    follows runs to its end, and no packet buffer is left over or lost, whichever allocations
    of packet buffers and sockets fail from then on.  Frames have to keep their headers and
    DHCP options within themselves and must not be of protocol 255 ([frame_wf]), sockets used have to exist and data
    to fit a datagram ([op_ok]), and applications to keep the invariant. *)
Theorem network_init_correct (mem_ok : nat -> bool) (junk : Z -> Z -> Z) (s : net) : plenty mem_ok -> raw_ok s ->
  returns (network_init mem_ok junk s) (fun s' => booted s s' /\ forall later udp_app tcp_app ops, apps_ok udp_app tcp_app ->
    run_ok later junk udp_app tcp_app ops s' -> returns (net_run later junk udp_app tcp_app ops s') (fun s2 => net_ok s2 /\ same_bufs s s2)).
Proof.
  intros Hp Hr. eapply returns_mono; [by apply network_init_spec|]. intros s' Hb. split; [done|]. destruct Hb as (Hs & Hsb & _).
  intros later ua ta ops Ha Ho. eapply returns_mono; [by apply run_safe|]. intros s2 [H1 H2]. split; [done|]. by etrans.
Qed.
