(* ===== verification/NetFlow.v ===== *)
(** * From one stack to another

    What happens to a frame that one stack has sent when another receives it: the
    layers of the receiver undo those of the sender. *)
From S2P Require Import Prelude HashChain Bytes NetBuf NetStack NetApps NetRx NetSend NetInv NetSafe NetOps.

(** ** Reading what was written *)

Lemma ip_wire_split proto src dst payload : exists c1 c2, 0 <= c1 < 256 /\ 0 <= c2 < 256 /\
  ip_wire proto src dst payload = ip_header (20 + zlen payload) proto src dst [c1; c2] ++ payload.
Proof.
  unfold ip_wire, ip_csum. edestruct csum_bytes_2 as (a & b & E & Ha & Hb); [by apply csum_partial_range|]. exists a, b. rewrite E. done.
Qed.
Lemma rd32_bytes pre x post o : o = zlen pre -> 0 <= x < 2 ^ 32 -> rd32 (pre ++ bytes32 x ++ post) o = Some x.
Proof. intros -> Hx. erewrite (rd32_mid pre (bytes32 x) post _ 0); [|lia|reflexivity]. by rewrite le32_bytes. Qed.
Lemma rd16_bytes pre x post o : o = zlen pre -> 0 <= x < 2 ^ 16 -> rd16 (pre ++ bytes16 x ++ post) o = Some x.
Proof. intros -> Hx. erewrite (rd16_mid pre (bytes16 x) post _ 0); [|lia|reflexivity]. by rewrite le16_bytes. Qed.

(** The control flags the code sends. *)
Definition sent_flags : list Z := [2; 18; 16; 24; 17; 4].

Lemma read_segment_wire b hdr x data flags : s_mem b = hdr ++ tcp_wire x data flags -> length hdr = 34%nat -> s_data b = 34 ->
  s_tail b = zlen (s_mem b) -> zlen (s_mem b) < 2 ^ 16 -> tsock_ok x -> flags ∈ sent_flags ->
  read_segment b = Some (Segment (t_local_port x) (t_remote_port x) (src_ip b) (dst_ip b) (sequence_number x) (acknowledgement_number x) flags
    (if is_syn flags then 6 else 5) (tcp_hdr_len flags + zlen data)).
Proof.
  intros Hm Hh Hd Ht Hl (P1 & P2 & P3 & P4 & P5 & P6) Hf. unfold read_segment.
  assert (jlos_net_skb_len b = tcp_hdr_len flags + zlen data) as ->.
  { unfold jlos_net_skb_len. rewrite Ht, Hd, Hm, length_app in *. pose proof (tcp_wire_length x data flags).
    assert (20 <= tcp_hdr_len flags <= 24) by (unfold tcp_hdr_len; destruct (is_syn flags); lia). rewrite u32_small; lia. }
  rewrite Hm, Hd. unfold tcp_wire, tcp_csum. edestruct csum_bytes_2 as (c1 & c2 & -> & _ & _); [by repeat apply csum_partial_range|].
  set (old := tcp_header x flags [c1; c2]). replace 34 with (zlen hdr) by lia.
  bind (geti_mid hdr old data (zlen hdr + 12) 12 _ eq_refl eq_refl). bind (geti_mid hdr old data (zlen hdr + 13) 13 _ eq_refl eq_refl).
  bind (rd16_mid hdr old data (zlen hdr) 0 _ ltac:(lia) eq_refl). bind (rd16_mid hdr old data (zlen hdr + 2) 2 _ eq_refl eq_refl).
  bind (rd32_mid hdr old data (zlen hdr + 4) 4 _ eq_refl eq_refl). bind (rd32_mid hdr old data (zlen hdr + 8) 8 _ eq_refl eq_refl).
  rewrite !le16_bytes, !le32_bytes by (done || by apply swap32_range). rewrite !swap32_swap32 by done. do 2 f_equal.
  all: repeat (apply elem_of_cons in Hf as [->|Hf]; [done|]); by apply elem_of_nil in Hf.
Qed.

(** ** A packet goes up *)

Section flow.
Context (mem_ok : nat -> bool) (junk : Z -> Z -> Z).
Context (udp_app : Z -> Z -> list Z -> net -> option net).
Context (tcp_app : Z -> Z -> list Z -> net -> option (bool * net)).
Abbreviation rx := (jlos_ether_frame_provider_on_raw_data_received mem_ok junk udp_app tcp_app).

(** The destination address of the frame is accepted. *)
Definition for_us (s : net) (dmac : Z) : Prop :=
  mac_address_is_broadcast (mac_bytes dmac) || mac_address_eq (mac_bytes dmac) (mac_bytes (mac_address (n_dev s))) = true.
Lemma for_us_mac s : for_us s (mac_address (n_dev s)).
Proof.
  unfold for_us. apply orb_true_iff. right. generalize (mac_bytes (mac_address (n_dev s))). intros l.
  induction l as [|x l IH]; [done|]. simpl. by rewrite Z.eqb_refl.
Qed.
Lemma for_us_broadcast s : for_us s JLOS_ETHER_BROADCAST_MAC.
Proof. done. Qed.

(** The packet as the handler of its protocol sees it. *)
Definition arrived (b : skb) (f : list Z) (src dst : Z) : Prop :=
  refcount b = 1 /\ s_mem b = f /\ s_data b = 34 /\ s_tail b = zlen f /\ src_ip b = src /\ dst_ip b = dst.

Lemma see_ipv4 s : net_ok s -> jlos_hash_chain_see jlos_hash_uint16 (ether_frame_cmp (eth_objs (n_eth s))) (size (eth_objs (n_eth s)))
  (eth_handlers (n_eth s)) 0x0008 = Some (Some IPV4_OBJ).
Proof.
  intros Hs. apply (links_find_unique _ _ _ _ _ 0x0008 (ether_frame_cmp (eth_objs (n_eth s)) 0x0008) IPV4_OBJ (EtherHandler 0x0008 EthIpv4) (nk_eth _ Hs)).
  - rewrite (nk_eobjs _ Hs). done.
  - done.
  - rewrite (nk_eobjs _ Hs). done.
  - rewrite (nk_eobjs _ Hs). intros m y Hy. unfold ether_frame_cmp. rewrite Hy. unfold eth_table in Hy.
    rewrite lookup_insert_Some in Hy. destruct Hy as [[<- _]|[_ Hy]]; [done|]. rewrite lookup_insert_Some in Hy.
    by destruct Hy as [[_ <-]|[_ Hy]].
Qed.

(** The IP layer, on a packet at offset 14 of the buffer. *)
Lemma ip_layer_spec s s1 p b eh proto src dst payload h o (P : bool -> list (list Z) -> net -> Prop) : net_ok s -> held [] s s1 p b ->
  length eh = 14%nat -> s_mem b = eh ++ ip_wire proto src dst payload -> s_data b = 14 -> s_tail b = zlen (s_mem b) -> refcount b = 1 ->
  dst = ip_address (n_dev s) \/ dst = JLOS_IPV4_BROADCAST -> 0 <= src < 2 ^ 32 -> 0 <= dst < 2 ^ 32 -> 0 <= proto < 256 ->
  geti ip_table proto = Some h -> h <> 0 -> ip_objs (n_ip s) !! h = Some o -> 34 + zlen payload < 2 ^ 15 ->
  (forall p s1 b', held [] s s1 p b' -> net_ok s1 -> arrived b' (s_mem b) src dst ->
    returns (ip_handle mem_ok junk udp_app tcp_app (on_internet_protocol_received o) s1 p)
      (fun r => exists fs s', held fs s' (snd r) p b' /\ mac_address (n_dev s') = mac_address (n_dev s) /\ P (fst r) fs s')) ->
  returns (jlos_internet_protocol_provider_on_ether_frame_received mem_ok junk udp_app tcp_app s1 p) (fun r => exists fs s' b',
    held fs s' (snd r) p b' /\ refcount b' = 1 /\ mac_address (n_dev s') = mac_address (n_dev s) /\ P (fst r) fs s' /\
    (fst r = true -> s_mem b' = eh ++ ip_wire proto dst src payload /\ s_data b' = 14 /\ s_tail b' = s_tail b)).
Proof.
  intros Hs Hh Le Hm Hd Ht Hr Hdst Hsrc Hdr Hpr Eh H0 Eo Hl Hand. unfold jlos_internet_protocol_provider_on_ether_frame_received.
  assert (zlen (s_mem b) = 34 + zlen payload) as Lf by (rewrite Hm, length_app, length_ip_wire by lia; lia).
  pose proof (held_ok _ _ _ _ _ Hh Hs) as Hs1. destruct (held_dev _ _ _ _ _ Hh) as [Em Ei].
  bind (held_get _ _ _ _ _ Hh). unfold jlos_net_skb_len. rewrite Hd, Ht, u32_small by lia. unfold IPV4_HDR.
  destruct (Z.ltb_spec (zlen (s_mem b) - 14) 20); [lia|].
  destruct (ip_wire_split proto src dst payload) as (c1 & c2 & Hc1 & Hc2 & Ew). rewrite Ew in Hm.
  set (ih := ip_header (20 + zlen payload) proto src dst [c1; c2]) in *. pose proof Hm as Hm'. rewrite Hm.
  replace 14 with (zlen eh) by lia.
  bind (geti_mid eh ih payload (zlen eh) 0 _ ltac:(lia) eq_refl). bind (rd32_mid eh ih payload (zlen eh + 16) 16 _ eq_refl eq_refl).
  rewrite le32_bytes by done. unfold jlos_hal_net_get_ip_address. rewrite Ei.
  replace (_ || _) with true by (symmetry; apply orb_true_iff; destruct Hdst as [->| ->]; [left|right]; apply Z.eqb_refl).
  bind (geti_mid eh ih payload (zlen eh + 9) 9 _ eq_refl eq_refl). rewrite (nk_handlers _ Hs1). bind Eh.
  destruct (Z.eqb_spec h 0); [done|]. bind (rd32_mid eh ih payload (zlen eh + 12) 12 _ eq_refl eq_refl). rewrite le32_bytes by done.
  assert (ip_objs (n_ip s1) !! h = Some o) as Eo1 by (by destruct Hh as (_ & n1 & k1 & _ & _ & ->)). bind Eo1.
  change (4 * Z.land 69 15) with 20. set (b1 := jlos_net_skb_pull _ _).
  assert (held [] s (put_skb s1 p b1) p b1) as Hh1 by (by eapply held_put).
  eapply returns_bind; [apply Hand; [exact Hh1|by eapply held_ok|]|].
  { split; [done|]. split; [done|]. split; [simpl; lia|]. done. }
  intros [back s2] (fs & s' & Hh2 & Hmac & HP). cbn [fst snd] in *. destruct back; cbn [negb].
  2: { apply returns_ret. exists fs, s', b1. done. }
  bind (held_get _ _ _ _ _ Hh2). cbn [s_mem jlos_net_skb_push b1 jlos_net_skb_pull with_window with_addr]. rewrite Hm.
  bind (rd32_mid eh ih payload (zlen eh + 16) 16 _ eq_refl eq_refl). rewrite le32_bytes by done.
  bind (rd32_mid eh ih payload (zlen eh + 12) 12 _ eq_refl eq_refl). rewrite le32_bytes by done.
  subst ih. remember (20 + zlen payload) as len eqn:Elen. 
  assert (exists h0 h1, 0 <= h0 < 256 /\ 0 <= h1 < 256 /\ h0 = len `div` 256 /\ h1 = len `mod` 256) as (h0 & h1 & Hh0 & Hh1' & E0 & E1) by (exists (len `div` 256), (len `mod` 256); split_and!; zmod).
  replace (ip_header len proto src dst [c1; c2]) with [69; 0; h0; h1; 0; 1; 64; 0; 64; proto; c1; c2; byte_of src 0; byte_of src 1; byte_of src 2; byte_of src 3;
    byte_of dst 0; byte_of dst 1; byte_of dst 2; byte_of dst 3] by (by rewrite E0, E1).
  do 4 wr_step. refine (returns_step _ _ _ _ (read_run_app eh _ payload (zlen eh) 20 eq_refl _) _); [done|]. cbv beta zeta.
  match goal with |- context [jlos_internet_protocol_provider_csum_partial ?l 0] => replace l with (ip_header len proto dst src [0; 0]) by (by rewrite E0, E1) end.
  edestruct csum_fold_in as (c & Ec). bind Ec. wr_step. apply returns_ret. eexists fs, s', _. split; [eapply held_put; [exact Hh2|done|done]|].
  split; [done|]. split; [done|]. split; [done|]. intros _. split; [|split; [cbn [s_data with_mem with_window jlos_net_skb_push jlos_net_skb_pull with_addr b1]; lia|]]; [|cbn [s_tail with_mem with_window jlos_net_skb_push jlos_net_skb_pull with_addr b1]; rewrite Ht, Hm'; by rewrite E0, E1].
  cbn [s_mem with_mem]. unfold ip_wire, ip_csum, csum_bytes. rewrite <- Elen, Ec. done.
Qed.

(** A frame goes back: the addresses change places. *)
Lemma send_back_spec fs s s1 p b dm sm rest : held fs s s1 p b -> refcount b = 1 -> s_mem b = dm ++ sm ++ rest -> length dm = 6%nat -> length sm = 6%nat ->
  s_data b = 14 -> s_tail b = zlen (s_mem b) -> 14 <= zlen (s_mem b) < 2 ^ 32 ->
  returns (ether_send_back s1 p) (fun s2 => exists b', held (fs ++ [sm ++ mac_bytes (mac_address (n_dev s)) ++ rest]) s s2 p b' /\ refcount b' = 1).
Proof.
  intros Hh Hr Hm Ld Ls Hd Ht Hl. unfold ether_send_back. bind (held_get _ _ _ _ _ Hh). unfold jlos_net_skb_push, ETHER_HDR, uint64_to_mac, jlos_hal_net_get_mac_address.
  cbn [s_mem s_data s_tail with_window with_mem]. destruct (held_dev _ _ _ _ _ Hh) as [-> _]. rewrite Hm, Hd.
  bind (read_run_app dm sm rest (14 - 14 + 6) 6 ltac:(lia) ltac:(lia)).
  pose proof (write_run_app [] dm sm (sm ++ rest) (14 - 14) ltac:(lia) ltac:(done)) as E1. cbn [app] in E1. bind E1.
  bind (write_run_app sm sm (mac_bytes (mac_address (n_dev s))) rest (14 - 14 + 6) ltac:(rewrite length_mac_bytes; lia) ltac:(lia)).
  set (m2 := sm ++ mac_bytes (mac_address (n_dev s)) ++ rest). assert (zlen m2 = zlen (s_mem b)) as Lm.
  { unfold m2. rewrite Hm, !length_app, length_mac_bytes. lia. }
  set (b' := with_mem _ _). assert (held fs s (put_skb s1 p b') p b') as Hh' by (by eapply held_put).
  assert (jlos_net_skb_len b' = zlen m2) as -> by (unfold jlos_net_skb_len; cbn [b' s_tail s_data with_mem with_window]; rewrite Ht, u32_small; lia).
  eexists. split; [apply hal_send_spec, (read_run_all m2); done|]. exists b'. split; [|done]. by apply held_tx.
Qed.

Lemma rx_ip_spec s f dmac smac proto src dst payload h o (P : bool -> list (list Z) -> net -> Prop) : plenty mem_ok -> net_ok s ->
  f = ether_wire dmac smac 0x0008 (ip_wire proto src dst payload) -> for_us s dmac ->
  dst = ip_address (n_dev s) \/ dst = JLOS_IPV4_BROADCAST -> 0 <= src < 2 ^ 32 -> 0 <= dst < 2 ^ 32 -> 0 <= proto < 256 ->
  geti ip_table proto = Some h -> h <> 0 -> ip_objs (n_ip s) !! h = Some o -> 34 + zlen payload < 2 ^ 15 ->
  (forall p s1 b, held [] s s1 p b -> net_ok s1 -> arrived b f src dst ->
    returns (ip_handle mem_ok junk udp_app tcp_app (on_internet_protocol_received o) s1 p)
      (fun r => exists fs s', held fs s' (snd r) p b /\ mac_address (n_dev s') = mac_address (n_dev s) /\ P (fst r) fs s')) ->
  returns (rx s f) (fun s2 => exists back fs s', P back fs s' /\
    quiet (fs ++ if back then [ether_wire smac (mac_address (n_dev s)) 0x0008 (ip_wire proto dst src payload)] else []) s' s2).
Proof.
  intros Hp Hs Ef Hus Hdst Hsrc Hdr Hpr Hh H0 Ho Hl Hand. unfold jlos_ether_frame_provider_on_raw_data_received.
  assert (zlen f = 34 + zlen payload) as Lf by (rewrite Ef, length_ether_wire, length_ip_wire by lia; lia).
  destruct (alloc_held mem_ok junk s (zlen f) (so_pool _ (nk_send _ Hs)) ltac:(lia)) as [(s' & _ & _ & [])|(p & s1 & b & -> & Hd & Hb)]; [done|].
  bind (held_get _ _ _ _ _ Hd). unfold jlos_net_skb_put. cbv beta iota zeta. destruct Hb as ((Hm & _) & D0 & T0 & R0).
  cbn [s_mem s_data s_tail with_window]. rewrite D0, T0, Z.add_0_l.
  rewrite <- (app_nil_r (s_mem b)). refine (returns_step _ _ _ _ (write_run_app [] (s_mem b) f [] 0 ltac:(lia) eq_refl) _). cbv beta.
  rewrite !app_nil_r. cbn [app]. set (b1 := with_mem (with_window b 0 (zlen f)) f).
  assert (held [] s (put_skb s1 p b1) p b1) as Hh1 by (by eapply held_put). set (s2 := put_skb s1 p b1) in *.
  assert (net_ok s2) as Hs2 by (by eapply held_ok).
  unfold jlos_net_skb_len. cbn [s_tail s_data b1 with_mem with_window]. rewrite Z.sub_0_r, u32_small by lia. unfold ETHER_HDR.
  destruct (Z.ltb_spec (zlen f) 14); [lia|].
  set (eh := mac_bytes dmac ++ mac_bytes smac ++ bytes16 0x0008). assert (f = eh ++ ip_wire proto src dst payload) as Ef'.
  { rewrite Ef. unfold ether_wire, eh. rewrite <- !app_assoc. reflexivity. }
  assert (exists w, w = ip_wire proto src dst payload) as [w0 Ew0] by (by eexists). pose proof Ef' as Ef''. rewrite <- Ew0 in Ef''. clear Ew0.
  assert (read_run f 0 6 = Some (mac_bytes dmac)) as Erd by (rewrite Ef''; apply (read_run_mid [] eh w0 0 0 6); reflexivity).
  bind Erd. destruct (held_dev _ _ _ _ _ Hh1) as [Em Ei]. unfold jlos_hal_net_get_mac_address. rewrite Em, Hus.
  assert (rd16 f (0 + 12) = Some 8) as Ety by (rewrite Ef''; apply (rd16_mid [] eh w0 _ 12); reflexivity). bind Ety.
  bind (see_ipv4 s2 Hs2). bind (lk_ip _ (so_link _ (nk_send _ Hs2))). cbn [on_ether_frame_received ether_handle].
  set (b2 := jlos_net_skb_pull b1 14). assert (held [] s (put_skb s2 p b2) p b2) as Hh2 by (by eapply held_put).
  eapply returns_bind; [apply (ip_layer_spec s (put_skb s2 p b2) p b2 eh proto src dst payload h o P);
    [exact Hs|exact Hh2|done|exact Ef'|done|done|done|done|done|done|done|exact Hh|exact H0|exact Ho|exact Hl|exact Hand]|].
  intros [back s4] (fs & s' & b' & Hh4 & Hr4 & Hmac & HP & Hb4). cbn [fst snd] in *. destruct back; cbn [negb].
  2: { destruct (held_free _ _ _ _ _ Hh4 Hr4) as (s5 & E5 & Hq5). exists s5. split; [done|]. exists false, fs, s'. by rewrite app_nil_r. }
  destruct (Hb4 eq_refl) as (Hm4 & Hd4 & Ht4). eapply returns_bind; [eapply (send_back_spec fs s' s4 p b' (mac_bytes dmac) (mac_bytes smac)); try done|].
  { rewrite Hm4. unfold eh. rewrite <- !app_assoc. reflexivity. }
  { rewrite Hm4, Ht4, length_app, length_ip_wire by lia. simpl. lia. }
  { rewrite Hm4, length_app, length_ip_wire by lia. simpl. lia. }
  intros s5 (b5 & Hh5 & Hr5). destruct (held_free _ _ _ _ _ Hh5 Hr5) as (s6 & E6 & Hq6). exists s6. split; [done|]. exists true, fs, s'.
  split; [done|]. rewrite <- Hmac. exact Hq6.
Qed.

Lemma frame_split dmac smac proto src dst payload : exists hd, length hd = 34%nat /\
  ether_wire dmac smac 0x0008 (ip_wire proto src dst payload) = hd ++ payload.
Proof.
  destruct (ip_wire_split proto src dst payload) as (c1 & c2 & _ & _ & ->). unfold ether_wire.
  exists (mac_bytes dmac ++ mac_bytes smac ++ bytes16 8 ++ ip_header (20 + zlen payload) proto src dst [c1; c2]).
  rewrite <- !app_assoc. split; reflexivity.
Qed.
Lemma held_usocks fs s s1 p b : held fs s s1 p b -> u_objs (n_udp s1) = u_objs (n_udp s).
Proof. by intros (_ & n & j & _ & _ & ->). Qed.

(** ** UDP *)

(** What an application does to the stack is independent of the buffer its data is in. *)
Definition app_effect (eff : net -> net) : Prop :=
  (forall fs s s1 p b, held fs s s1 p b -> held fs (eff s) (eff s1) p b) /\ forall s, n_dev (eff s) = n_dev s.
Lemma held_usock fs s s1 p b k x : held fs s s1 p b -> held fs (put_usock s k x) (put_usock s1 k x) p b.
Proof. intros (H0 & n & j & Hn & Hp & ->). split; [done|]. by exists n, j. Qed.

(** The socket takes datagrams from there. *)
Definition udp_accepts (x : udp_socket) (src sport : Z) : Prop :=
  listening x = true \/ (u_remote_ip x = src /\ u_remote_port x = sport).
Definition udp_peer (x : udp_socket) (src sport : Z) : udp_socket :=
  UdpSocket sport src (u_local_port x) (u_local_ip x) (u_handler x) (listening x).

Lemma udp_match_accepts x src sport dst dport : u_local_port x = dport -> u_local_ip x = dst -> udp_accepts x src sport ->
  0 <= sport < 2 ^ 16 -> 0 <= dport < 2 ^ 16 -> udp_match_socket x (src, sport, dst, dport) = (0, udp_peer x src sport).
Proof.
  intros E1 E2 Ha Hs Hd. unfold udp_match_socket. rewrite (u16_small dport), (u16_small sport), E1, E2, !Z.eqb_refl by done. cbn [negb andb].
  destruct (_ && _) eqn:E; [|destruct Ha as [H1|[H1 H2]]; [unfold udp_peer; by rewrite H1, E1, E2|rewrite H1, H2, !Z.eqb_refl in E; discriminate E]].
  apply andb_true_iff in E as [Ea Eb]. apply Z.eqb_eq in Ea, Eb. f_equal. unfold udp_peer. rewrite <- Ea, <- Eb. by destruct x.
Qed.
Lemma udp_match_port x args : fst (udp_match_socket x args) = 0 -> let '(_, _, _, dport) := args in u_local_port x = u16 dport.
Proof. destruct args as [[[src sport] dst] dport]. unfold udp_match_socket. destruct (Z.eqb_spec (u_local_port x) (u16 dport)); [done|]. done. Qed.

Lemma udp_find_spec s k x src sport dst dport : net_ok s -> get_usock s k = Some x -> u_local_port x = dport -> u_local_ip x = dst ->
  (forall k' y, get_usock s k' = Some y -> u_local_port y = dport -> k' = k) -> udp_accepts x src sport -> 0 <= sport < 2 ^ 16 ->
  udp_find s (dst, dport) (src, sport, dst, dport) = Some (Some k, put_usock s k (udp_peer x src sport)).
Proof.
  intros Hs Hx E1 E2 Hu Ha Hsp. pose proof (usock_in s k x Hs Hx) as (_ & _ & Hdp & _). rewrite E1 in Hdp. unfold udp_find.
  rewrite (links_find_unique _ ukey (0, 0) _ _ _ _ k x (nk_udp _ Hs)); [|exact Hx| | |].
  - cbn [mbind option_bind]. rewrite Hx. cbn [mbind option_bind]. by rewrite udp_match_accepts.
  - unfold ukey. by rewrite E1, E2.
  - rewrite Hx. by rewrite udp_match_accepts.
  - intros k' y Hy H0. change (get_usock s k' = Some y) in Hy. rewrite Hy in H0. apply (Hu k' y Hy). apply udp_match_port in H0. by rewrite u16_small in H0.
Qed.

Lemma udp_deliver_spec s f dmac smac src sport dport data k x eff : plenty mem_ok -> net_ok s ->
  f = ether_wire dmac smac 0x0008 (ip_wire 0x11 src (ip_address (n_dev s)) (udp_wire sport dport data)) -> for_us s dmac ->
  0 <= src < 2 ^ 32 -> 0 <= sport < 2 ^ 16 -> 42 + zlen data < 2 ^ 15 ->
  get_usock s k = Some x -> u_local_port x = dport -> u_local_ip x = ip_address (n_dev s) ->
  (forall k' y, get_usock s k' = Some y -> u_local_port y = dport -> k' = k) -> udp_accepts x src sport ->
  u_handler x <> 0 -> u_handler x <> DHCP_HANDLER -> u_handler x <> DNS_HANDLER ->
  app_effect eff -> (forall t, udp_app (u_handler x) k data t = Some (eff t)) ->
  returns (rx s f) (quiet [ether_wire smac (mac_address (n_dev s)) 0x0008 (ip_wire 0x11 (ip_address (n_dev s)) src (udp_wire sport dport data))]
    (eff (put_usock s k (udp_peer x src sport)))).
Proof.
  intros Hp Hs Ef Hus Hsrc Hsp Hl Hx E1 E2 Hu Ha Hh0 Hh1 Hh2 [Heff Hdev] Happ. set (dst := ip_address (n_dev s)) in *.
  pose proof (lk_addr _ (so_link _ (nk_send _ Hs))) as Hdst. fold dst in Hdst. pose proof (usock_in s k x Hs Hx) as (_ & _ & Hdp & _).
  rewrite E1 in Hdp. assert (zlen f = 42 + zlen data) as Lf.
  { rewrite Ef, length_ether_wire, length_ip_wire by (try done; unfold udp_wire; simpl; lia). unfold udp_wire. simpl. lia. }
  assert (exists hd, length hd = 34%nat /\ f = hd ++ udp_wire sport dport data) as (hd & Lh & Ew).
  { rewrite Ef. apply frame_split. }
  set (s' := eff (put_usock s k (udp_peer x src sport))).
  eapply returns_mono; [apply (rx_ip_spec s f dmac smac 0x11 src dst (udp_wire sport dport data) UDP_OBJ (IpHandler 0x11 IpUdp) (fun back fs t => back = true /\ fs = [] /\ t = s'));
    try done|].
  - by left.
  - apply (so_udp _ (nk_send _ Hs)).
  - unfold udp_wire. simpl. lia.
  - intros p s1 b Hh Hs1 (Rb & Mb & Db & Tb & Sb & Dsb). cbn [ip_handle on_internet_protocol_received].
    unfold jlos_udp_provider_on_internet_protocol_received. bind (held_get _ _ _ _ _ Hh). unfold jlos_net_skb_len.
    rewrite Db, Tb, Lf, u32_small by lia. unfold UDP_HDR. destruct (Z.ltb_spec (42 + zlen data - 34) 8); [lia|].
    rewrite Mb, Ew. unfold udp_wire. cbv zeta. set (ln := [_; _; 0; 0]).
    bind (rd16_bytes hd sport (bytes16 dport ++ ln ++ data) 34 ltac:(lia) Hsp).
    rewrite app_assoc. bind (rd16_bytes (hd ++ bytes16 sport) dport (ln ++ data) (34 + 2) ltac:(rewrite length_app; simpl; lia) Hdp).
    rewrite Sb, Dsb. assert (forall j, get_usock s1 j = get_usock s j) as Hus1 by (intros j; unfold get_usock; by rewrite (held_usocks _ _ _ _ _ Hh)).
    refine (returns_step _ _ _ _ (udp_find_spec s1 k x src sport dst dport Hs1 _ E1 E2 _ Ha Hsp) _); [by rewrite Hus1|intros k' y; rewrite Hus1; apply Hu|].
    cbv beta iota. apply (returns_step _ _ (Some k, put_usock s1 k (udp_peer x src sport))); [done|]. cbv beta iota.
    unfold jlos_udp_socket_handle_udp_message. rewrite bind_assoc. bind (get_put_usock s1 k (udp_peer x src sport)).
    cbn [u_handler udp_peer]. destruct (Z.eqb_spec (u_handler x) 0); [done|]. destruct (Z.eqb_spec (u_handler x) DHCP_HANDLER); [done|].
    destruct (Z.eqb_spec (u_handler x) DNS_HANDLER); [done|]. rewrite u16_small by lia. rewrite bind_assoc, !app_assoc.
    bind (read_run_tail (((hd ++ bytes16 sport) ++ bytes16 dport) ++ ln) data (34 + 8) (42 + zlen data - 34 - 8)
      ltac:(rewrite !length_app; simpl; lia) ltac:(lia)).
    bind (Happ (put_usock s1 k (udp_peer x src sport))). apply returns_ret. exists [], s'. cbn [fst snd].
    split; [apply Heff; by apply held_usock|]. split; [unfold s'; by rewrite Hdev|]. done.
  - intros s2 (back & fs & t & (-> & -> & ->) & Hq). exact Hq.
Qed.

(** [s] has the address of the station [mac] for packets to [dst]. *)
Definition reaches (s : net) (dst mac : Z) : Prop :=
  dst <> JLOS_IPV4_BROADCAST /\ mac <> 0xFFFFFFFFFFFF /\ arp_find (arp_entries (n_arp s)) (ip_route s dst) = mac.
Lemma reaches_frames s dst mac proto payload : reaches s dst mac ->
  ip_frames s proto dst payload = [ether_wire mac (mac_address (n_dev s)) 0x0008 (ip_wire proto (ip_address (n_dev s)) dst payload)].
Proof.
  intros (H1 & H2 & H3). unfold ip_frames. rewrite H3. destruct (Z.eqb_spec dst JLOS_IPV4_BROADCAST); [done|].
  by destruct (Z.eqb_spec mac 0xFFFFFFFFFFFF).
Qed.

(** ** TCP *)

Lemma held_tsocks fs s s1 p b : held fs s s1 p b -> t_objs (n_tcp s1) = t_objs (n_tcp s).
Proof. by intros (_ & n & j & _ & _ & ->). Qed.
Lemma held_frames fs s s1 p b proto dst payload : held fs s s1 p b -> ip_frames s1 proto dst payload = ip_frames s proto dst payload.
Proof. by intros (_ & n & j & _ & _ & ->). Qed.
Lemma put_put_tsock s k x y : put_tsock (put_tsock s k x) k y = put_tsock s k y.
Proof. unfold put_tsock. simpl. by rewrite insert_insert_eq. Qed.

(** The socket the segment of [z] is for: the only one that matches. *)
Definition tcp_receiver (s : net) (k : Z) (y z : tcp_socket) (flags src dst : Z) : Prop :=
  get_tsock s k = Some y /\ tkey y = (dst, t_remote_port z) /\
  tcp_match_socket y (src, t_local_port z, flags, dst, t_remote_port z) = 0 /\
  (forall k' w, get_tsock s k' = Some w -> tcp_match_socket w (src, t_local_port z, flags, dst, t_remote_port z) = 0 -> k' = k).

(** The segment of [z] without data, as the receiver reads it. *)
Definition ctl_segment (z : tcp_socket) (flags src dst : Z) : segment :=
  Segment (t_local_port z) (t_remote_port z) src dst (sequence_number z) (acknowledgement_number z) flags
    (if is_syn flags then 6 else 5) (tcp_hdr_len flags).

Lemma tcp_rx_spec s f dmac smac src z flags k y (P : list (list Z) -> net -> Prop) : plenty mem_ok -> net_ok s ->
  f = ether_wire dmac smac 0x0008 (ip_wire 0x06 src (ip_address (n_dev s)) (tcp_wire z [] flags)) -> for_us s dmac ->
  0 <= src < 2 ^ 32 -> tsock_ok z -> flags ∈ sent_flags -> tcp_receiver s k y z flags src (ip_address (n_dev s)) ->
  (forall p s1 b, held [] s s1 p b -> net_ok s1 -> s_mem b = f ->
    returns (tcp_deliver mem_ok junk tcp_app s1 k (ctl_segment z flags src (ip_address (n_dev s))) f 34) (fun r => fst r = false /\ exists fs s',
      held fs s' (snd r) p b /\ mac_address (n_dev s') = mac_address (n_dev s) /\ P fs s')) ->
  returns (rx s f) (fun s2 => exists fs s', P fs s' /\ quiet fs s' s2).
Proof.
  intros Hp Hs Ef Hus Hsrc Hz Hfl (Hy & Hk & Hm & Hu) Hand. set (dst := ip_address (n_dev s)) in *.
  pose proof (lk_addr _ (so_link _ (nk_send _ Hs))) as Hdst. fold dst in Hdst.
  assert (20 <= tcp_hdr_len flags <= 24) as Hhl by (unfold tcp_hdr_len; destruct (is_syn flags); lia).
  pose proof (tcp_wire_length z [] flags) as Lw. rewrite Z.add_0_r in Lw.
  assert (exists hd, length hd = 34%nat /\ f = hd ++ tcp_wire z [] flags) as (hd & Lh & Ew) by (rewrite Ef; apply frame_split).
  eapply returns_mono; [apply (rx_ip_spec s f dmac smac 0x06 src dst (tcp_wire z [] flags) TCP_OBJ (IpHandler 0x06 IpTcp) (fun back fs t => back = false /\ P fs t));
    try done|].
  - by left.
  - apply (so_tcp _ (nk_send _ Hs)).
  - lia.
  - intros p s1 b Hh Hs1 (Rb & Mb & Db & Tb & Sb & Dsb). cbn [ip_handle on_internet_protocol_received].
    unfold jlos_tcp_provider_on_internet_protocol_received. bind (held_get _ _ _ _ _ Hh).
    assert (zlen f = 34 + tcp_hdr_len flags) as Lf by (rewrite Ew, length_app; lia).
    assert (jlos_net_skb_len b = tcp_hdr_len flags) as -> by (unfold jlos_net_skb_len; rewrite Tb, Db, u32_small; lia).
    destruct (Z.ltb_spec (tcp_hdr_len flags) 20); [lia|].
    bind (read_segment_wire b hd z [] flags ltac:(by rewrite Mb) Lh Db ltac:(by rewrite Mb) ltac:(rewrite Mb; lia) Hz Hfl).
    rewrite Sb, Dsb, Z.add_0_r. cbn [g_src_ip g_src_port g_flags g_dst_ip g_dst_port].
    assert (forall j, get_tsock s1 j = get_tsock s j) as Hts by (intros j; unfold get_tsock; by rewrite (held_tsocks _ _ _ _ _ Hh)).
    refine (returns_step _ _ _ _ (links_find_unique _ tkey (0, 0) _ _ _ _ k y (nk_tcp _ Hs1) _ _ _ _) _).
    + change (get_tsock s1 k = Some y). by rewrite Hts.
    + by rewrite Hk.
    + cbv beta. rewrite Hts, Hy. exact Hm.
    + intros m w Hw. change (get_tsock s1 m = Some w) in Hw. cbv beta. rewrite Hw. rewrite Hts in Hw. by apply Hu.
    + cbv beta iota. rewrite Mb, Db. eapply returns_mono; [apply (Hand p s1 b Hh Hs1 Mb)|]. intros [r s2] (Hr & fs & s' & H1 & H2 & H3). by exists fs, s'.
  - intros s2 (back & fs & t & (-> & HP) & Hq). exists fs, t. rewrite app_nil_r in Hq. done.
Qed.

(** The condition of the socket is signalled. *)
Definition woken (x : tcp_socket) : tcp_socket :=
  TcpSocket (t_remote_port x) (t_remote_ip x) (t_local_port x) (t_local_ip x) (sequence_number x)
    (acknowledgement_number x) (t_handler x) (t_state x) (state_cond x + 1).

Lemma tcp_reply_spec s s1 p b k x flags : plenty mem_ok -> net_ok s1 -> held [] s s1 p b -> 0 <= sequence_number x < 2 ^ 32 ->
  returns (jlos_tcp_provider_send mem_ok junk (put_tsock s1 k x) k [] flags)
    (fun s2 => held (ip_frames s 0x06 (t_remote_ip x) (tcp_wire x [] flags)) (put_tsock s k x) s2 p b).
Proof.
  intros Hp Hs1 Hh Hq. destruct (tcp_ctl_spec mem_ok junk (put_tsock s1 k x) k x flags) as (fs & Hr & Hfs);
    [apply send_ok_tsock, (nk_send _ Hs1)|apply get_put_tsock|done|]. rewrite (Hfs Hp) in Hr. eapply returns_mono; [exact Hr|].
  intros s2 Hs2. rewrite <- (held_frames _ _ _ _ _ _ _ _ Hh). eapply (held_quiet []); [by apply held_tsock|exact Hs2].
Qed.

Lemma tcp_deliver_step fs s s1 p b k g m d y x : get_tsock s1 k = Some y -> Z.land (g_flags g) JLOS_TCP_RST = 0 ->
  t_state y <> JLOS_TCP_CLOSED -> t_state x <> JLOS_TCP_TIME_WAIT ->
  returns (tcp_switch mem_ok junk tcp_app s1 k g m d) (fun r => fst r = Reset false /\ held fs (put_tsock s k x) (snd r) p b) ->
  returns (tcp_deliver mem_ok junk tcp_app s1 k g m d) (fun r => fst r = false /\ held fs (put_tsock s k (woken x)) (snd r) p b).
Proof.
  intros Hy Hf Hc Ht Hsw. unfold tcp_deliver. bind Hy. rewrite Hf. bind Hy. rewrite bool_decide_eq_false_2 by done.
  eapply returns_bind; [exact Hsw|]. intros [out s2] [Ho Hh]. cbn [fst snd] in *. subst out. refine (returns_step _ _ s2 _ eq_refl _). cbv beta.
  assert (get_tsock s2 k = Some x) as Hx by (unfold get_tsock; rewrite (held_tsocks _ _ _ _ _ Hh); apply get_put_tsock). bind Hx.
  rewrite bool_decide_eq_false_2 by done. apply returns_ret. cbn [fst snd]. split; [done|]. rewrite <- (put_put_tsock s k x (woken x)). by apply held_tsock.
Qed.

(** The socket after the first segment of a connection, and after the second. *)
Definition syn_received (y z : tcp_socket) (src : Z) : tcp_socket :=
  TcpSocket (t_local_port z) src (t_local_port y) (t_local_ip y) 0xbeefcafe (u32 (sequence_number z + 1)) (t_handler y) JLOS_TCP_SYN_RECEIVED (state_cond y).
Definition syn_answered (y z : tcp_socket) : tcp_socket :=
  set_seq (set_ack (set_state y JLOS_TCP_ESTABLISHED) (u32 (sequence_number z + 1))) (acknowledgement_number z).

Lemma deliver_syn s s1 p b k y z src dst f : plenty mem_ok -> net_ok s1 -> held [] s s1 p b -> get_tsock s1 k = Some y ->
  t_state y = JLOS_TCP_LISTEN -> returns (tcp_deliver mem_ok junk tcp_app s1 k (ctl_segment z JLOS_TCP_SYN src dst) f 34) (fun r =>
    fst r = false /\ held (ip_frames s 0x06 src (tcp_wire (syn_received y z src) [] 18)) (put_tsock s k (woken (syn_received y z src))) (snd r) p b).
Proof.
  intros Hp Hs1 Hh Hy Hst. eapply (tcp_deliver_step _ _ _ _ _ _ _ _ _ y); [done|done|by rewrite Hst|done|].
  change (tcp_switch mem_ok junk tcp_app s1 k (ctl_segment z JLOS_TCP_SYN src dst) f 34) with (tcp_on_syn mem_ok junk s1 k (ctl_segment z JLOS_TCP_SYN src dst)).
  unfold tcp_on_syn. bind Hy. rewrite Hst. eapply returns_bind; [apply (tcp_reply_spec s s1 p b k (syn_received y z src)); done|].
  intros s2 H2. by apply returns_ret.
Qed.
Lemma deliver_syn_ack s s1 p b k y z src dst f : plenty mem_ok -> net_ok s1 -> held [] s s1 p b -> get_tsock s1 k = Some y ->
  t_state y = JLOS_TCP_SYN_SENT -> 0 <= acknowledgement_number z < 2 ^ 32 ->
  returns (tcp_deliver mem_ok junk tcp_app s1 k (ctl_segment z 18 src dst) f 34) (fun r =>
    fst r = false /\ held (ip_frames s 0x06 (t_remote_ip y) (tcp_wire (syn_answered y z) [] JLOS_TCP_ACK)) (put_tsock s k (woken (syn_answered y z))) (snd r) p b).
Proof.
  intros Hp Hs1 Hh Hy Hst Ha. eapply (tcp_deliver_step _ _ _ _ _ _ _ _ _ y); [done|done|by rewrite Hst|done|].
  change (tcp_switch mem_ok junk tcp_app s1 k (ctl_segment z 18 src dst) f 34) with (tcp_on_syn_ack mem_ok junk s1 k (ctl_segment z 18 src dst)).
  unfold tcp_on_syn_ack. bind Hy. rewrite Hst. eapply returns_bind; [apply (tcp_reply_spec s s1 p b k (syn_answered y z)); done|].
  intros s2 H2. by apply returns_ret.
Qed.
Lemma deliver_last_ack s s1 p b k y z src dst f : held [] s s1 p b -> get_tsock s1 k = Some y -> t_state y = JLOS_TCP_SYN_RECEIVED ->
  returns (tcp_deliver mem_ok junk tcp_app s1 k (ctl_segment z JLOS_TCP_ACK src dst) f 34) (fun r =>
    fst r = false /\ held [] (put_tsock s k (set_seq (set_state y JLOS_TCP_ESTABLISHED) (acknowledgement_number z))) (snd r) p b).
Proof.
  intros Hh Hy Hst. unfold tcp_deliver. bind Hy. change (Z.land (g_flags (ctl_segment z JLOS_TCP_ACK src dst)) JLOS_TCP_RST =? 0) with true. cbv iota.
  bind Hy. rewrite Hst. rewrite bool_decide_eq_false_2 by done.
  change (tcp_switch mem_ok junk tcp_app s1 k (ctl_segment z JLOS_TCP_ACK src dst) f 34) with (tcp_on_ack mem_ok junk tcp_app s1 k (ctl_segment z JLOS_TCP_ACK src dst) f 34).
  unfold tcp_on_ack. rewrite bind_assoc. bind Hy. rewrite Hst. apply returns_ret. split; [done|]. by apply held_tsock.
Qed.

(** *** Opening a connection *)

Lemma quiet_rest fs s s' : quiet fs s s' -> t_objs (n_tcp s') = t_objs (n_tcp s) /\ n_arp s' = n_arp s /\ n_ip s' = n_ip s /\
  mac_address (n_dev s') = mac_address (n_dev s) /\ ip_address (n_dev s') = ip_address (n_dev s) /\ tx (n_dev s') = tx (n_dev s) ++ fs.
Proof. by intros (n & j & _ & ->). Qed.
Lemma connecting_ok s ip port : 0 <= ip < 2 ^ 32 -> 0 <= ip_address (n_dev s) < 2 ^ 32 -> tsock_ok (tcp_connecting junk s ip port).
Proof. intros H1 H2. pose proof (u32_range (junk (next_id (n_pool s)) 5)). split_and!; simpl; (done || apply swap16_any || lia). Qed.

(** [s1] is [s] but for the sockets of TCP and the memory in use. *)
Definition same_link (s s1 : net) : Prop := n_dev s1 = n_dev s /\ n_arp s1 = n_arp s /\ n_ip s1 = n_ip s.

Lemma tcp_connect_spec s ip port : plenty mem_ok -> net_ok s -> 0 <= ip < 2 ^ 32 ->
  returns (jlos_tcp_provider_connect mem_ok junk s ip port) (fun r => fst r = next_id (n_pool s) /\ exists s1, net_ok s1 /\ same_link s s1 /\
    t_objs (n_tcp s1) = <[fst r := tcp_connecting junk s ip port]> (t_objs (n_tcp s)) /\
    quiet (ip_frames s 0x06 ip (tcp_wire (tcp_connecting junk s ip port) [] JLOS_TCP_SYN)) s1 (snd r)).
Proof.
  intros Hp Hs Hip. unfold jlos_tcp_provider_connect. destruct (kalloc_sock_spec mem_ok s) as (r & s0 & Ek & Hq & [[_ ?]|[-> Hn]]); [done|]. rewrite Ek.
  destruct (kalloc_some _ _ _ _ Ek) as (_ & Ed & _ & Et). pose proof (net_ok_quiet _ _ _ Hq Hs) as Hs0. pose proof (nk_next _ Hs).
  unfold jlos_hal_net_get_ip_address. rewrite Ed, Et. set (k := next_id (n_pool s)) in *.
  destruct (tcp_insert_ok s0 k (tcp_connecting junk s ip port) (u16 (t_free_port (n_tcp s) + 1)) Hs0 ltac:(lia)) as (s1 & E1 & Hs1 & h & Es1).
  { unfold get_tsock. rewrite Et. by apply fresh_tsock. }
  { apply connecting_ok; [done|apply (so_link _ (nk_send _ Hs))]. }
  refine (returns_step _ _ _ _ E1 _). cbv beta.
  assert (same_link s s1 /\ t_objs (n_tcp s1) = <[k := tcp_connecting junk s ip port]> (t_objs (n_tcp s))) as [Hl Ho].
  { destruct (quiet_rest _ _ _ Hq) as (_ & Ea & Ei & _). rewrite Es1. simpl. rewrite Et. split; [|done]. split_and!; done. }
  destruct (tcp_ctl_spec mem_ok junk s1 k (tcp_connecting junk s ip port) JLOS_TCP_SYN (nk_send _ Hs1)) as (fs & Hr & Hfs);
    [unfold get_tsock; rewrite Ho; apply lookup_insert_eq|done|]. rewrite (Hfs Hp) in Hr. destruct Hl as (L1 & L2 & L3).
  assert (forall pl, ip_frames s1 0x06 ip pl = ip_frames s 0x06 ip pl) as Hif by (intros pl; unfold ip_frames, ip_route, arp_request_frame; by rewrite L1, L2, L3).
  rewrite Hif in Hr. eapply returns_bind; [exact Hr|]. intros s2 Hq2. apply returns_ret. split; [done|]. by exists s1.
Qed.

(** The three segments, each at its receiver. *)
Lemma tcp_rx_reply s f dmac smac src z flags k y fs s' : plenty mem_ok -> net_ok s ->
  f = ether_wire dmac smac 0x0008 (ip_wire 0x06 src (ip_address (n_dev s)) (tcp_wire z [] flags)) -> for_us s dmac ->
  0 <= src < 2 ^ 32 -> tsock_ok z -> flags ∈ sent_flags -> tcp_receiver s k y z flags src (ip_address (n_dev s)) -> n_dev s' = n_dev s ->
  (forall p s1 b, held [] s s1 p b -> net_ok s1 -> get_tsock s1 k = Some y ->
    returns (tcp_deliver mem_ok junk tcp_app s1 k (ctl_segment z flags src (ip_address (n_dev s))) f 34) (fun r => fst r = false /\ held fs s' (snd r) p b)) ->
  returns (rx s f) (quiet fs s').
Proof.
  intros Hp Hs Ef Hus Hsrc Hz Hfl Hrc Hd Hand. eapply returns_mono; [apply (tcp_rx_spec s f dmac smac src z flags k y (fun fs1 s1 => fs1 = fs /\ s1 = s')); try done|].
  - intros p s1 b Hh Hs1 _. eapply returns_mono; [apply (Hand p s1 b Hh Hs1)|].
    + unfold get_tsock. rewrite (held_tsocks _ _ _ _ _ Hh). apply Hrc.
    + intros r [Hr Hh2]. split; [done|]. exists fs, s'. by rewrite Hd.
  - by intros s2 (fs2 & s3 & [-> ->] & Hq).
Qed.
Lemma tcp_match_local w src sport flags dst dport : tcp_match_socket w (src, sport, flags, dst, dport) = 0 -> t_local_port w = u16 dport.
Proof.
  unfold tcp_match_socket. destruct (negb (t_local_ip w =? dst)); [done|]. cbn [orb]. destruct (Z.eqb_spec (t_local_port w) (u16 dport)); [done|]. done.
Qed.
(** The only socket bound to its port. *)
Definition only_at (s : net) (k port : Z) : Prop := forall k' w, get_tsock s k' = Some w -> t_local_port w = port -> k' = k.
Lemma receiver_open s k y z flags src dst : get_tsock s k = Some y -> tkey y = (dst, t_remote_port z) -> only_at s k (t_remote_port z) ->
  0 <= t_remote_port z < 2 ^ 16 -> 0 <= t_local_port z < 2 ^ 16 -> t_state y <> JLOS_TCP_CLOSED ->
  t_state y = JLOS_TCP_LISTEN /\ flags = JLOS_TCP_SYN \/ t_remote_ip y = src /\ t_remote_port y = t_local_port z ->
  tcp_receiver s k y z flags src dst.
Proof.
  intros Hy Hk Hu Hp1 Hp2 Hc Hm. split; [done|]. split; [done|]. injection Hk as H1 H2. split.
  - unfold tcp_match_socket. rewrite H1, H2, !u16_small, !Z.eqb_refl by done. cbn [negb orb]. rewrite bool_decide_eq_false_2 by done.
    destruct Hm as [[-> ->]|[-> ->]]; [done|]. rewrite (u16_small (t_local_port z)), !Z.eqb_refl by done. by destruct (bool_decide _ && _).
  - intros k' w Hw H0. apply (Hu k' w Hw). rewrite (tcp_match_local _ _ _ _ _ _ H0). by rewrite u16_small.
Qed.
End flow.


Lemma syn_received_ok y z src : tsock_ok y -> tsock_ok z -> 0 <= src < 2 ^ 32 -> tsock_ok (syn_received y z src).
Proof. intros (?&?&?&?&?&?) (?&?&?&?&?&?) ?. pose proof (u32_range (sequence_number z + 1)). split_and!; simpl; lia. Qed.
Lemma syn_answered_ok y z : tsock_ok y -> tsock_ok z -> tsock_ok (syn_answered y z).
Proof. intros (?&?&?&?&?&?) (?&?&?&?&?&?). pose proof (u32_range (sequence_number z + 1)). split_and!; simpl; lia. Qed.

