(* ===== verification/NetExamples.v ===== *)
(** * Two hosts on a wire

    Concrete stacks: the hypotheses of the theorems on the network stack hold of them, and
    frames that show what the code does with input the theorems exclude. *)
From S2P Require Import Prelude HashChain Bytes NetBuf NetStack NetApps NetRx NetSend NetInv NetSafe NetOps NetInit NetFlow.

(** ** The hosts *)

Definition demo_mem (n : nat) : bool := true.
Definition demo_junk (a b : Z) : Z := a * 31 + b * 7 + 3.
Definition demo_chain : hash_chain := HashChain None 0 0 (fun _ => HNode 0 PNull).
(** The memory before initialisation. *)
Definition demo_raw (mac : Z) : net :=
  Net (NetDev mac 0 []) (Pool ∅ 100 0 0 0) (NetConfig 0 0 0 0) (Ether demo_chain ∅)
    (Arp (replicate 128 0) (replicate 128 0) 0) (Ipv4 [] ∅ 0 0) (Udp demo_chain ∅ 0 0) (Tcp demo_chain ∅ 0 0)
    (Dhcp 0 DHCP_INIT 0 0 0 []) (Dns 0 0 0 false).
(** A host that is up, with an address and one entry in its ARP cache. *)
Definition demo_up (mac ip ip' mac' : Z) : option net :=
  s ← network_init demo_mem demo_junk (demo_raw mac);
  Some (set_arp (jlos_network_apply_config (set_config s (NetConfig ip 0 0x00FFFFFF 0)))
    (Arp (ip' :: replicate 127 0) (mac' :: replicate 127 0) 1)).
(** 192.168.1.1 and 192.168.1.2. *)
Definition ip_a : Z := 0x0101A8C0.
Definition ip_b : Z := 0x0201A8C0.
Definition mac_a : Z := 0x0A0000000002.
Definition mac_b : Z := 0x0B0000000002.
Definition up_a : option net := demo_up mac_a ip_a ip_b mac_b.
Definition up_b : option net := demo_up mac_b ip_b ip_a mac_a.

Lemma demo_plenty : plenty demo_mem. Proof. done. Qed.
Lemma demo_raw_ok mac : 0 <= mac < 2 ^ 48 -> raw_ok (demo_raw mac).
Proof. intros H. split; try done. intros k [x Hx]. by apply (lookup_empty_Some k x) in Hx. Qed.
Lemma demo_up_ok mac ip ip' mac' : 0 <= mac < 2 ^ 48 -> 0 <= ip < 2 ^ 32 -> returns (demo_up mac ip ip' mac') net_ok.
Proof.
  intros Hm Hi. unfold demo_up. eapply returns_bind; [apply network_init_spec; [done|by apply demo_raw_ok]|]. intros s (Hs & _). apply returns_ret.
  apply net_ok_arp; [by apply net_ok_config|done].
Qed.

(** What a computation that returns gives. *)
Definition the (m : option net) : net := default (demo_raw 0) m.
Lemma the_ok m : returns m net_ok -> net_ok (the m).
Proof. by intros (s & -> & H). Qed.

(** Host [a] with a socket connected to port 7 of [b] (both protocols know the station). *)
Definition demo_a : option net := s ← up_a; '(_, s) ← jlos_udp_provider_connect demo_mem demo_junk s ip_b 7; Some s.
(** Host [b] listening on port 7 of UDP, with a handler, and on port 80 of TCP. *)
Definition demo_b : option net :=
  s ← up_b; '(k, s) ← jlos_udp_provider_listen demo_mem demo_junk s 7; s ← jlos_udp_provider_bind s k 50;
  '(_, s) ← jlos_tcp_provider_listen demo_mem demo_junk s 80; Some s.
Lemma demo_a_ok : net_ok (the demo_a).
Proof.
  apply the_ok. unfold demo_a. eapply returns_bind; [by apply demo_up_ok|]. intros s Hs.
  eapply returns_bind; [by apply udp_connect_ok|]. intros [k s1] (H1 & _). apply returns_ret, H1.
Qed.
Lemma demo_b_ok : net_ok (the demo_b).
Proof.
  apply the_ok. unfold demo_b. eapply returns_bind; [by apply demo_up_ok|]. intros s Hs.
  eapply returns_bind; [by apply udp_listen_ok|]. intros [k s1] (H1 & Hk). cbn [fst snd] in *.
  destruct Hk as [[_ H]|[_ Hk]]; [by destruct (H demo_plenty)|].
  eapply returns_bind; [eapply udp_bind_ok; [apply H1|unfold get_usock; fold (usocks s1); rewrite Hk; apply lookup_insert_eq|done]|].
  intros s2 [H2 _]. eapply returns_bind; [apply tcp_listen_ok, H2|]. intros [k3 s3] (H3 & _). apply returns_ret, H3.
Qed.

(** ** The theorems at these hosts *)

(** A socket is the only one with its port. *)
Lemma unique_by {V} (m : gmap Z V) (f : V -> Z) (k p : Z) :
  forallb (fun kv => implb (f (snd kv) =? p) (fst kv =? k)) (map_to_list m) = true -> forall k' z, m !! k' = Some z -> f z = p -> k' = k.
Proof.
  intros H k' z Hz Hp. rewrite forallb_forall in H. specialize (H (k', z)). cbn [fst snd] in H. rewrite Hp, Z.eqb_refl in H.
  apply Z.eqb_eq, H. apply list_elem_of_In, elem_of_map_to_list, Hz.
Qed.
Lemma id_effect : app_effect id. Proof. split; done. Qed.
(** An application that takes only this message. *)
Definition expects (data : list Z) (h k : Z) (d : list Z) (s : net) : option net := if bool_decide (d = data) then Some s else None.
(** Applications that take anything and do nothing. *)
Definition udp_sink (h k : Z) (d : list Z) (s : net) : option net := Some s.
Definition tcp_sink (h k : Z) (d : list Z) (s : net) : option (bool * net) := Some (true, s).

Lemma network_init_correct_witness : returns (network_init demo_mem demo_junk (demo_raw mac_a)) (fun s =>
  returns (net_run (fun _ => false) demo_junk udp_sink tcp_sink [Discover 5; Rx (replicate 60 0xFF); TcpListen 80; UdpListen 7; Ping ip_b] s)
    (fun s2 => net_ok s2 /\ same_bufs (demo_raw mac_a) s2)).
Proof.
  eapply returns_mono; [apply (network_init_correct demo_mem demo_junk (demo_raw mac_a)); [exact demo_plenty|by apply demo_raw_ok]|].
  intros s (Hb & Hrun). apply Hrun.
  - split; intros h k d t Ht; (apply returns_ret; by apply ok_after_refl).
  - destruct Hb as (_ & _ & _ & _ & _ & k & x & Hu & _ & _ & _ & Hk & _). cbn [run_ok op_ok]. split.
    { rewrite Hk. exists x. unfold get_usock. rewrite Hu. apply lookup_singleton_eq. }
    intros s1 _. split; [|intros s2 _; split; [done|intros s3 _; split; [done|intros s4 _; split; [done|done]]]].
    split; [by repeat constructor|]. split; [done|]. intros E. vm_compute in E. discriminate E.
Defined.
Lemma arp_resolve_terminates_witness : exists r s, jlos_arp_resolve demo_mem demo_junk (Z.to_nat 5000000) (fun _ s => s) (the demo_a) ip_b = Some (r, s) /\
  r = arp_find (arp_entries (n_arp s)) ip_b.
Proof.
  destruct (arp_resolve_terminates demo_mem demo_junk (fun _ s => s) (Z.to_nat 5000000) (the demo_a) ip_b) as ([r s] & H1 & H2 & H3).
  - exact demo_a_ok.
  - intros _ s Hs. exact Hs.
  - rewrite Z2Nat.id; [apply Z.le_refl|]. intros H. discriminate H.
  - exists r, s. split; assumption.
Defined.
Lemma checksum_verifies_witness : exists c pkt', jlos_internet_protocol_provider_csum_fold (jlos_internet_protocol_provider_csum_partial [8; 0; 0; 0; 19; 55; 0; 0] 0) = Some c /\
  wr16 [8; 0; 0; 0; 19; 55; 0; 0] 2 c = Some pkt' /\ length pkt' = 8%nat /\
  jlos_internet_protocol_provider_csum_fold (jlos_internet_protocol_provider_csum_partial pkt' 0) = Some 0.
Proof. apply (checksum_verifies [8; 0; 0; 0; 19; 55; 0; 0] 2 0); [by repeat constructor|done|done|done|done]. Defined.

(** ** Frames the theorems exclude, and what the code does not check *)

Abbreviation rx_b app := (jlos_ether_frame_provider_on_raw_data_received demo_mem demo_junk app tcp_sink (the demo_b)).
(** An IP packet to host [b] with the given first byte, total length and protocol, and two bytes of checksum. *)
Definition raw_ip (vihl len proto c0 c1 : Z) (payload : list Z) : list Z :=
  ether_wire mac_b mac_a 0x0008 ([vihl; 0; len `div` 256; len `mod` 256; 0; 1; 64; 0; 64; proto; c0; c1] ++ bytes32 ip_a ++ bytes32 ip_b ++ payload).

(** A header length that points behind the frame: the length of the rest, unsigned, is near 2^32,
    passes the handler's size check, and the UDP header is read outside the buffer. *)
Example ihl_overrun : rx_b udp_sink (raw_ip 0x4F 20 17 0 0 []) = None.
Proof. vm_compute. reflexivity. Qed.
(** Protocol 255 indexes the table of 255 handlers past its end. *)
Example protocol_255 : rx_b udp_sink (raw_ip 0x45 20 255 0 0 []) = None.
Proof. vm_compute. reflexivity. Qed.
(** The checksum of a received packet is not looked at: both are delivered. *)
Example checksum_ignored : is_Some (rx_b (expects [72; 105]) (raw_ip 0x45 30 17 0 0 (udp_wire 4 0x0700 [72; 105]))) /\
  is_Some (rx_b (expects [72; 105]) (raw_ip 0x45 30 17 1 1 (udp_wire 4 0x0700 [72; 105]))).
Proof. split; vm_compute; eexists; reflexivity. Qed.
(** The total length is not used: a datagram of two bytes that fills a minimal Ethernet frame is
    delivered with sixteen bytes of padding. *)
Example padding_delivered : is_Some (rx_b (expects ([72; 105] ++ replicate 16 0)) (raw_ip 0x45 30 17 0 0 (udp_wire 4 0x0700 [72; 105] ++ replicate 16 0))).
Proof. vm_compute. eexists. reflexivity. Qed.

(** A DHCP message that ends with the head of the option asked for: the value is read behind the message. *)
Definition dhcp_reply (x : Z) (opts : list Z) : list Z :=
  [2; 1; 6; 0] ++ bytes32 x ++ replicate 228 0 ++ bytes32 (JLOS_SWAP_ENDIAN_32 JLOS_DHCP_MAGIC_COOKIE) ++ opts.
Definition to_dhcp (opts : list Z) : list Z :=
  ether_wire JLOS_ETHER_BROADCAST_MAC mac_a 0x0008 (ip_wire 0x11 ip_a JLOS_IPV4_BROADCAST (udp_wire 0x4300 0x4400 (dhcp_reply 0 opts))).
Example dhcp_overrun : rx_b udp_sink (to_dhcp [53; 0]) = None /\ is_Some (rx_b udp_sink (to_dhcp [53; 1; 2])).
Proof. split; vm_compute; [reflexivity|eexists; reflexivity]. Qed.
(** The answer of a DHCP server goes back to it: the handler's packet is returned with its addresses
    exchanged, here from 255.255.255.255. *)
Example dhcp_bounced : exists s, rx_b udp_sink (to_dhcp [53; 1; 2]) = Some s /\
  tx (n_dev s) = [ether_wire mac_a mac_b 0x0008 (ip_wire 0x11 JLOS_IPV4_BROADCAST ip_a (udp_wire 0x4300 0x4400 (dhcp_reply 0 [53; 1; 2])))].
Proof. eexists. vm_compute. split; reflexivity. Qed.

(** A segment to host [b], from port 9 of [a]. *)
Definition seg (seq ack flags dport : Z) : list Z :=
  ether_wire mac_b mac_a 0x0008 (ip_wire 0x06 ip_a ip_b (tcp_wire (TcpSocket dport ip_b 0x0900 ip_a seq ack 0 JLOS_TCP_CLOSED 0) [] flags)).
Definition state_of (s : option net) (k : Z) : option tcp_state := x ← (s ≫= fun s => get_tsock s k); Some (t_state x).
Definition sent (s : option net) : nat := match s with Some s => length (tx (n_dev s)) | None => 0 end.
(** A SYN that carries RST closes the socket that listens, for good. *)
Example syn_rst_closes : state_of demo_b 102 = Some JLOS_TCP_LISTEN /\ state_of (rx_b udp_sink (seg 1 0 6 0x5000)) 102 = Some JLOS_TCP_CLOSED.
Proof. split; vm_compute; reflexivity. Qed.
(** A segment for a port nobody listens on is dropped without an answer. *)
Example no_rst_for_closed_port : sent demo_b = 0%nat /\ sent (rx_b udp_sink (seg 1 0 2 0x5100)) = 0%nat /\ sent (rx_b udp_sink (seg 1 0 2 0x5000)) = 1%nat.
Proof. split_and!; vm_compute; reflexivity. Qed.

(** Host [a] connected to port 80 of [b], where handlers take what comes. *)
Definition established : option (net * net) :=
  a ← demo_a; b ← demo_b; b ← jlos_tcp_provider_bind b 102 60;
  let rx s := jlos_ether_frame_provider_on_raw_data_received demo_mem demo_junk udp_sink tcp_sink s in
  '(k, a) ← jlos_tcp_provider_connect demo_mem demo_junk a ip_b 80; a ← jlos_tcp_provider_bind a k 60;
  f ← last (tx (n_dev a)); b ← rx b f; f ← last (tx (n_dev b)); a ← rx a f; f ← last (tx (n_dev a)); b ← rx b f; Some (a, b).
(** Each host is given the last frame of the other, in turn, [n] times; the frames sent after that. *)
Fixpoint volley (n : nat) (a b : net) : option (nat * nat) :=
  match n with
  | O => Some (length (tx (n_dev a)), length (tx (n_dev b)))
  | S n =>
    f ← last (tx (n_dev a));
    b ← jlos_ether_frame_provider_on_raw_data_received demo_mem demo_junk udp_sink tcp_sink b f;
    volley n b a
  end.
(** After one message of [a], acknowledgements are acknowledged without end. *)
Example ack_storm : ('(a, b) ← established; a ← jlos_tcp_socket_send demo_mem demo_junk a 102 [72; 105]; volley 20 a b) = Some (13%nat, 11%nat).
Proof. vm_compute. reflexivity. Qed.
(** The same message twice, as after a lost acknowledgement: the second is answered with a reset. *)
Example duplicate_reset : exists s f, ('(a, b) ← established; a ← jlos_tcp_socket_send demo_mem demo_junk a 102 [72; 105];
    f ← last (tx (n_dev a));
    let rx s := jlos_ether_frame_provider_on_raw_data_received demo_mem demo_junk udp_sink tcp_sink s in
    b ← rx b f; rx b f) = Some s /\ last (tx (n_dev s)) = Some f /\ rd8 f 47 = Some JLOS_TCP_RST.
Proof. vm_compute. eexists _, _. split_and!; reflexivity. Qed.

(** The second answer for an address is kept and never used. *)
Definition arp_reply (mac : Z) : list Z := ether_wire mac_b mac_a 0x0608 (arp_wire 0x0200 mac 0x0301A8C0 mac_b ip_b).
Example arp_first_wins : ('(s, m) ← (s ← rx_b udp_sink (arp_reply 11);
    s ← jlos_ether_frame_provider_on_raw_data_received demo_mem demo_junk udp_sink tcp_sink s (arp_reply 22);
    m ← jlos_arp_get_mac_from_cache (n_arp s) 0x0301A8C0; Some (s, m)); Some (num_cache_entries (n_arp s), m)) = Some (3, 11).
Proof. vm_compute. reflexivity. Qed.

(** Five seconds after boot the resolver gives up at once: the start of the wait is kept in 32 bits. *)
Definition clock_at (ns : Z) (i : nat) : Z := ns + Z.of_nat i.
Definition demo_resolve (ns : Z) : option bool :=
  b ← demo_b;
  let b := set_config b (NetConfig ip_b 0 0x00FFFFFF ip_a) in
  '(r, _) ← jlos_dns_resolve demo_mem demo_junk 3 (clock_at ns) (fun _ s => set_dns s (Dns (dn_socket (n_dns s)) (query_id (n_dns s)) 42 true)) b [97; 46; 98];
  Some (bool_decide (r = Some 42)).
Example resolve_gives_up : demo_resolve 4000000000 = Some true /\ demo_resolve 5000000000 = Some false.
Proof. split_and!; vm_compute; reflexivity. Qed.
(** From 2^32 ns (4.3 s) after boot no wait for an answer lasts longer than one look at the clock. *)
Lemma dns_gives_up fuel clock intr s : resolved (n_dns s) = false -> 2 ^ 32 <= clock 1%nat <= clock 2%nat -> clock 2%nat < 2 ^ 64 ->
  resolve_wait (S fuel) clock intr 2 (u32 (clock 1%nat)) s = Some (false, s).
Proof.
  intros Hr Hc Hm. cbn [resolve_wait]. rewrite Hr. pose proof (u32_range (clock 1%nat)).
  assert (u32 (clock 1%nat) <= clock 1%nat - 2 ^ 32) by (unfold u32; zmod). rewrite u64_small by lia. unfold JLOS_DNS_TIMEOUT_NS.
  destruct (Z.ltb_spec 2000000000 (clock 2%nat - u32 (clock 1%nat))); [done|lia].
Qed.
