(* ===== verification/FatTable.v ===== *)
(** * The file allocation table ([fs/fat32.c], the cluster layer)

    The volume is the bytes that the block mapping of the page cache shows.  A page is
    obtained ([page_get]) or not: the [n]-th attempt succeeds when [io n] says so (a frame
    and a buffer array could be had, the device could read) and the page lies on the
    volume.  Pages are released at once in this layer, and while pages can be written
    back the cache shows the bytes last stored.  A pair is the C result and the volume; a result of [None] is -1, and the
    outer [None] an access outside the volume. *)
From S2P Require Import Prelude Bytes.

Definition JLOS_FAT32_CLUSTER_FREE : Z := 0.
Definition JLOS_FAT32_CLUSTER_EOC : Z := 0x0FFFFFF8.
Definition JLOS_FAT32_CLUSTER_MASK : Z := 0x0FFFFFFF.
Definition JLOS_FAT32_BYTES_PER_SECTOR : Z := 512.
Definition JLOS_FAT32_FIRST_DATA_CLUSTER : Z := 2.
Definition JLOS_FAT32_FAT_ENTRY_SIZE : Z := 4.
Definition JLOS_FAT32_FSINFO_LEAD_SIG : Z := 0x41615252.
Definition JLOS_FAT32_FSINFO_STRUCT_SIG : Z := 0x61417272.
Definition JLOS_FAT32_FSINFO_LEAD_OFF : Z := 0.
Definition JLOS_FAT32_FSINFO_FREE_OFF : Z := 0x0E8.
Definition JLOS_FAT32_FSINFO_COUNT_OFF : Z := 0x1F4.
Definition JLOS_FAT32_FSINFO_STRUCT_OFF : Z := 0x1FC.
Definition JLOS_BLOCK_SECTOR_SIZE : Z := 512.
Definition JLOS_FS_PAGE_SECTORS : Z := 8.

(** [jlos_fat32_sb_info_t], with the fields of [bpb] that are used. *)
Record fat_sb := FatSb {
  bpb_bytes_per_sector : Z; bpb_table_size : Z; fat_start : Z; data_start : Z; root_cluster : Z; bytes_per_cluster : Z;
  sectors_per_cluster : Z; fat_copies : Z; total_clusters : Z; fsinfo_sector : Z }.

(** The bytes of the volume, and the number of pages asked for so far. *)
Record vol := Vol { v_mem : list Z; v_gets : nat }.
Definition put_mem (v : vol) (m : list Z) : vol := Vol m (v_gets v).

Definition jlos_fs_blocknr (sector : Z) : Z := sector `div` JLOS_FS_PAGE_SECTORS.

Section fat.
Context (io : nat -> bool).

(** [jlos_fs_page_get] on the block mapping, for the page of a sector. *)
Definition page_get (v : vol) (sector : Z) : bool * vol :=
  (io (v_gets v) && ((jlos_fs_blocknr sector + 1) * 4096 <=? zlen (v_mem v)), Vol (v_mem v) (S (v_gets v))).
(** The address of [buf + off] for a sector on a page. *)
Definition sector_addr (sector off : Z) : Z := sector * JLOS_BLOCK_SECTOR_SIZE + off.

Definition fat32_cluster_to_sector (b : fat_sb) (cluster : Z) : Z :=
  u32 (data_start b + sectors_per_cluster b * (cluster - JLOS_FAT32_FIRST_DATA_CLUSTER)).

Definition fat32_get_next_cluster (b : fat_sb) (v : vol) (cluster : Z) : option (Z * vol) :=
  let fat_offset := u32 (cluster * JLOS_FAT32_FAT_ENTRY_SIZE) in
  let fat_sector := u32 (fat_start b + fat_offset `div` bpb_bytes_per_sector b) in
  let entry_offset := fat_offset `mod` bpb_bytes_per_sector b in
  let '(page, v) := page_get v fat_sector in
  if page : bool then
    next ← rd32 (v_mem v) (sector_addr fat_sector entry_offset);
    Some (Z.land next JLOS_FAT32_CLUSTER_MASK, v)
  else Some (JLOS_FAT32_CLUSTER_EOC, v).

(** The loop of [fat32_get_block]: [n] steps along the chain. *)
Fixpoint walk_chain (n : nat) (b : fat_sb) (v : vol) (cluster : Z) : option (option Z * vol) :=
  match n with
  | O => Some (Some cluster, v)
  | S n =>
    '(cluster, v) ← fat32_get_next_cluster b v cluster;
    if JLOS_FAT32_CLUSTER_EOC <=? cluster then Some (None, v) else walk_chain n b v cluster
  end.
(** The sector of a block of the file that starts at [first_cluster]. *)
Definition fat32_get_block (b : fat_sb) (v : vol) (first_cluster iblock : Z) : option (option Z * vol) :=
  if first_cluster <? JLOS_FAT32_FIRST_DATA_CLUSTER then Some (None, v) else
  let iblk := u32 iblock in
  let target_cluster_idx := iblk `div` sectors_per_cluster b in
  '(c, v) ← walk_chain (Z.to_nat target_cluster_idx) b v first_cluster;
  match c with
  | None => Some (None, v)
  | Some cluster =>
    let sector_in_cluster := iblk `mod` sectors_per_cluster b in
    Some (Some (u32 (fat32_cluster_to_sector b cluster + sector_in_cluster)), v)
  end.

(** The signatures of the information sector. *)
Definition fsinfo_valid (m : list Z) (sector : Z) : option bool :=
  lead ← rd32 m (sector_addr sector JLOS_FAT32_FSINFO_LEAD_OFF);
  stru_sig ← rd32 m (sector_addr sector JLOS_FAT32_FSINFO_STRUCT_OFF);
  Some ((lead =? JLOS_FAT32_FSINFO_LEAD_SIG) && (stru_sig =? JLOS_FAT32_FSINFO_STRUCT_SIG)).
(** The hint, when the C function returns 0. *)
Definition fat32_fsinfo_read (b : fat_sb) (v : vol) : option (option Z * vol) :=
  if fsinfo_sector b =? 0 then Some (None, v) else
  let '(page, v) := page_get v (fsinfo_sector b) in
  if page : bool then
    ok ← fsinfo_valid (v_mem v) (fsinfo_sector b);
    if ok : bool then next_free ← rd32 (v_mem v) (sector_addr (fsinfo_sector b) JLOS_FAT32_FSINFO_FREE_OFF); Some (Some next_free, v)
    else Some (None, v)
  else Some (None, v).
(** Its result is ignored by every caller. *)
Definition fat32_fsinfo_update (b : fat_sb) (v : vol) (next_free free_delta : Z) : option vol :=
  if fsinfo_sector b =? 0 then Some v else
  let '(page, v) := page_get v (fsinfo_sector b) in
  if page : bool then
    ok ← fsinfo_valid (v_mem v) (fsinfo_sector b);
    if ok : bool then
      m ← wr32 (v_mem v) (sector_addr (fsinfo_sector b) JLOS_FAT32_FSINFO_FREE_OFF) next_free;
      count ← rd32 m (sector_addr (fsinfo_sector b) JLOS_FAT32_FSINFO_COUNT_OFF);
      m ← wr32 m (sector_addr (fsinfo_sector b) JLOS_FAT32_FSINFO_COUNT_OFF) (u32 (count + free_delta));
      Some (put_mem v m)
    else Some v
  else Some v.

(** The loop over the copies of the table, from [copy] on. *)
Fixpoint set_copies (n : nat) (b : fat_sb) (v : vol) (copy fat_sector_index entry_offset next : Z) : option (bool * vol) :=
  match n with
  | O => Some (true, v)
  | S n =>
    let fat_sector := u32 (fat_start b + fat_sector_index + copy * bpb_table_size b) in
    let '(page, v) := page_get v fat_sector in
    if page : bool then
      entry ← rd32 (v_mem v) (sector_addr fat_sector entry_offset);
      m ← wr32 (v_mem v) (sector_addr fat_sector entry_offset)
        (Z.lor (Z.land entry (not32 JLOS_FAT32_CLUSTER_MASK)) (Z.land next JLOS_FAT32_CLUSTER_MASK));
      set_copies n b (put_mem v m) (copy + 1) fat_sector_index entry_offset next
    else Some (false, v)
  end.
Definition fat32_set_next_cluster (b : fat_sb) (v : vol) (cluster next : Z) : option (bool * vol) :=
  let fat_offset := u32 (cluster * JLOS_FAT32_FAT_ENTRY_SIZE) in
  set_copies (Z.to_nat (fat_copies b)) b v 0 (fat_offset `div` bpb_bytes_per_sector b) (fat_offset `mod` bpb_bytes_per_sector b) next.

Definition fat32_claim_cluster (b : fat_sb) (v : vol) (cluster : Z) : option (option Z * vol) :=
  '(ok, v) ← fat32_set_next_cluster b v cluster JLOS_FAT32_CLUSTER_EOC;
  if ok : bool then v ← fat32_fsinfo_update b v (u32 (cluster + 1)) (-1); Some (Some cluster, v)
  else Some (None, v).

(** The first free entry of the [n] entries of a sector from [i] on. *)
Fixpoint scan_sector (n : nat) (m : list Z) (sector i : Z) : option (option Z) :=
  match n with
  | O => Some None
  | S n =>
    e ← rd32 m (sector_addr sector (i * JLOS_FAT32_FAT_ENTRY_SIZE));
    if Z.land e JLOS_FAT32_CLUSTER_MASK =? JLOS_FAT32_CLUSTER_FREE then Some (Some i) else scan_sector n m sector (i + 1)
  end.
Definition entries_per_sector : Z := JLOS_FAT32_BYTES_PER_SECTOR `div` JLOS_FAT32_FAT_ENTRY_SIZE.
(** The loop over the sectors of the table; [fuel] is more than their number. *)
Fixpoint scan_table (fuel : nat) (b : fat_sb) (v : vol) (fat_entries sector_index : Z) : option (option Z * vol) :=
  if u32 (sector_index * entries_per_sector) <? fat_entries then
    match fuel with
    | O => None
    | S fuel =>
      let fat_sector := u32 (fat_start b + sector_index) in
      let '(page, v) := page_get v fat_sector in
      if page : bool then
        let entry_count := if fat_entries <? u32 ((sector_index + 1) * entries_per_sector)
          then fat_entries - u32 (sector_index * entries_per_sector) else entries_per_sector in
        r ← scan_sector (Z.to_nat entry_count) (v_mem v) fat_sector 0;
        match r with
        | Some i => fat32_claim_cluster b v (u32 (sector_index * entries_per_sector + i))
        | None => scan_table fuel b v fat_entries (u32 (sector_index + 1))
        end
      else Some (None, v)
    end
  else Some (None, v).
(** Whether the hint is a free cluster. *)
Definition hint_free (b : fat_sb) (v : vol) (hint : Z) : option (bool * vol) :=
  let fat_offset := u32 (hint * JLOS_FAT32_FAT_ENTRY_SIZE) in
  let fat_sector := u32 (fat_start b + fat_offset `div` bpb_bytes_per_sector b) in
  let entry_offset := fat_offset `mod` bpb_bytes_per_sector b in
  let '(page, v) := page_get v fat_sector in
  if page : bool then
    e ← rd32 (v_mem v) (sector_addr fat_sector entry_offset);
    Some (Z.land e JLOS_FAT32_CLUSTER_MASK =? JLOS_FAT32_CLUSTER_FREE, v)
  else Some (false, v).
Definition fat32_alloc_cluster (b : fat_sb) (v : vol) : option (option Z * vol) :=
  let fat_entries := u32 (total_clusters b + JLOS_FAT32_FIRST_DATA_CLUSTER) in
  '(h, v) ← fat32_fsinfo_read b v;
  '(c, v) ← (match h with
    | Some hint =>
      if (JLOS_FAT32_FIRST_DATA_CLUSTER <=? hint) && (hint <? fat_entries) then
        '(free, v) ← hint_free b v hint; Some (if free : bool then Some hint else None, v)
      else Some (None, v)
    | None => Some (None, v)
    end);
  match c with
  | Some hint => fat32_claim_cluster b v hint
  | None => scan_table (Z.to_nat (fat_entries `div` entries_per_sector + 1)) b v fat_entries 0
  end.

(** The loop of [fat32_free_cluster_chain]; [rest] is what [walked] may still grow by. *)
Fixpoint free_loop (rest : nat) (b : fat_sb) (v : vol) (cluster : Z) : option (bool * vol) :=
  if (JLOS_FAT32_FIRST_DATA_CLUSTER <=? cluster) && (cluster <? JLOS_FAT32_CLUSTER_EOC) then
    match rest with
    | O => Some (false, v)
    | S rest =>
      '(next, v) ← fat32_get_next_cluster b v cluster;
      '(ok, v) ← fat32_set_next_cluster b v cluster JLOS_FAT32_CLUSTER_FREE;
      if ok : bool then free_loop rest b v next else Some (false, v)
    end
  else Some (true, v).
Definition fat32_free_cluster_chain (b : fat_sb) (v : vol) (head : Z) : option (bool * vol) :=
  '(ok, v) ← free_loop (Z.to_nat (total_clusters b)) b v head;
  if ok : bool then v ← fat32_fsinfo_update b v head 1; Some (true, v) else Some (false, v).

Definition fat32_cluster_advance (b : fat_sb) (v : vol) (cluster : Z) : option (option Z * vol) :=
  '(next, v) ← fat32_get_next_cluster b v cluster;
  if next <? JLOS_FAT32_CLUSTER_EOC then Some (Some next, v) else
  '(r, v) ← fat32_alloc_cluster b v;
  match r with
  | None => Some (None, v)
  | Some next =>
    '(ok, v) ← fat32_set_next_cluster b v cluster next;
    Some (if ok : bool then Some next else None, v)
  end.
End fat.
