(* ===== verification/FatInv.v ===== *)
(** * The file allocation table: chains of clusters ([fs/fat32.c])

    What the table operations of [FatTable] do to the files on a volume.  [holds] says
    that a volume of a sound geometry has, in every copy of the table, the chains of some
    files that share no cluster; [frame] what an operation leaves as it was.  Allocation,
    extension, release and the mapping of blocks are shown against the list of chains. *)
From S2P Require Import Prelude Bytes FatTable.

(** ** The table *)

(** Where the entry of a cluster lies in a copy of the table. *)
Definition entry_addr (b : fat_sb) (k c : Z) : Z := (fat_start b + k * bpb_table_size b) * 512 + 4 * c.
Definition fat_entry (b : fat_sb) (m : list Z) (k c : Z) : option Z := rd32 m (entry_addr b k c).
(** The next cluster according to the first copy. *)
Definition fat_next (b : fat_sb) (m : list Z) (c : Z) : Z :=
  match fat_entry b m 0 c with Some e => Z.land e JLOS_FAT32_CLUSTER_MASK | None => 0 end.

(** A volume of [n] bytes as [mount] accepts it, with room for the table. *)
Record geometry (b : fat_sb) (n : Z) : Prop := {
  g_bps : bpb_bytes_per_sector b = 512;
  g_start : 0 <= fat_start b;
  g_copies : 1 <= fat_copies b < 256;
  g_size : total_clusters b + 2 <= bpb_table_size b * 128;
  g_total : 0 < total_clusters b /\ total_clusters b + 2 <= JLOS_FAT32_CLUSTER_EOC;
  g_data : data_start b = fat_start b + fat_copies b * bpb_table_size b;
  g_vol : data_start b * 512 + 4096 <= n;
  g_small : data_start b < 2 ^ 32;
  g_spc : 0 < sectors_per_cluster b;
  g_end : data_start b + sectors_per_cluster b * total_clusters b <= 2 ^ 32;
  g_info : fsinfo_sector b = 0 \/ 0 < fsinfo_sector b < fat_start b
}.
(** The clusters with an entry. *)
Definition in_table (b : fat_sb) (c : Z) : Prop := 0 <= c < total_clusters b + 2.

Lemma mask_range x : 0 <= Z.land x JLOS_FAT32_CLUSTER_MASK < 2 ^ 28.
Proof. unfold JLOS_FAT32_CLUSTER_MASK. change 0x0FFFFFFF with (2 ^ 28 - 1). rewrite land_mask by lia. apply Z.mod_pos_bound. lia. Qed.
(** The value stored: the upper four bits stay. *)
Definition entry_set (e next : Z) : Z := Z.lor (Z.land e (not32 JLOS_FAT32_CLUSTER_MASK)) (Z.land next JLOS_FAT32_CLUSTER_MASK).
Lemma entry_set_mask e next : Z.land (entry_set e next) JLOS_FAT32_CLUSTER_MASK = Z.land next JLOS_FAT32_CLUSTER_MASK.
Proof.
  unfold entry_set. rewrite Z.land_lor_distr_l, <- !Z.land_assoc. change (Z.land (not32 JLOS_FAT32_CLUSTER_MASK) JLOS_FAT32_CLUSTER_MASK) with 0.
  rewrite Z.land_0_r, Z.lor_0_l, Z.land_diag. done.
Qed.
Lemma entry_set_range e next : 0 <= e < 2 ^ 32 -> 0 <= entry_set e next < 2 ^ 32.
Proof.
  intros He. unfold entry_set. change (not32 JLOS_FAT32_CLUSTER_MASK) with (not32 (2 ^ 28 - 1)). rewrite land_not_mask by lia.
  pose proof (mask_range next). rewrite Z.lor_comm. replace (e - e `mod` 2 ^ 28) with (Z.shiftl (e `div` 2 ^ 28) 28).
  - rewrite lor_shiftl by lia. zmod.
  - rewrite Z.shiftl_mul_pow2 by lia. zmod.
Qed.

Section table.
Context (io : nat -> bool) (b : fat_sb).

Lemma page_get_spec v sector : geometry b (zlen (v_mem v)) -> 0 <= sector < data_start b ->
  page_get io v sector = (io (v_gets v), Vol (v_mem v) (S (v_gets v))).
Proof.
  intros G Hs. unfold page_get, jlos_fs_blocknr, JLOS_FS_PAGE_SECTORS. pose proof (g_vol _ _ G).
  destruct (Z.leb_spec ((sector `div` 8 + 1) * 4096) (zlen (v_mem v))); [by rewrite andb_true_r|]. exfalso. zmod.
Qed.
(** The sector and offset the code computes for an entry. *)
Lemma entry_sector n k c : geometry b n -> 0 <= k < fat_copies b -> in_table b c ->
  let o := u32 (c * JLOS_FAT32_FAT_ENTRY_SIZE) in let s := u32 (fat_start b + o `div` bpb_bytes_per_sector b + k * bpb_table_size b) in
  0 <= s < data_start b /\ sector_addr s (o `mod` bpb_bytes_per_sector b) = entry_addr b k c /\
  0 <= entry_addr b k c /\ entry_addr b k c + 4 <= data_start b * 512 /\ fat_start b * 512 <= entry_addr b k c.
Proof.
  intros [] Hk Hc o s. unfold in_table, JLOS_FAT32_CLUSTER_EOC in *. unfold JLOS_FAT32_FAT_ENTRY_SIZE in o.
  assert (o = 4 * c) as Eo by (unfold o; rewrite u32_small; lia).
  assert (0 <= (4 * c) `div` 512 < bpb_table_size b) as Hd by zmod.
  assert (k * bpb_table_size b + bpb_table_size b <= fat_copies b * bpb_table_size b) as Hm by nia. assert (0 <= k * bpb_table_size b) by nia.
  assert (s = fat_start b + (4 * c) `div` 512 + k * bpb_table_size b) as Es by (unfold s; rewrite g_bps0, Eo, u32_small; lia).
  split; [lia|]. rewrite Es, g_bps0, Eo. unfold sector_addr, entry_addr, JLOS_BLOCK_SECTOR_SIZE. split; [zmod|]. split; [lia|]. split; [|lia]. zmod.
Qed.
Lemma fat_entry_in m k c : geometry b (zlen m) -> bytes m -> 0 <= k < fat_copies b -> in_table b c ->
  exists e, fat_entry b m k c = Some e /\ 0 <= e < 2 ^ 32.
Proof.
  intros G Hm Hk Hc. destruct (entry_sector _ k c G Hk Hc) as (_ & _ & H1 & H2 & _). apply rd32_in; [done|done|]. pose proof (g_vol _ _ G). lia.
Qed.
(** The entry of a cluster in a copy, without its upper bits. *)
Definition fat_val (m : list Z) (k c : Z) : Z :=
  match fat_entry b m k c with Some e => Z.land e JLOS_FAT32_CLUSTER_MASK | None => 0 end.
Definition tick (v : vol) : vol := Vol (v_mem v) (S (v_gets v)).

Lemma get_next_spec v c : geometry b (zlen (v_mem v)) -> bytes (v_mem v) -> in_table b c ->
  fat32_get_next_cluster io b v c = Some (if io (v_gets v) then fat_next b (v_mem v) c else JLOS_FAT32_CLUSTER_EOC, tick v).
Proof.
  intros G Hm Hc. pose proof (g_copies _ _ G). destruct (entry_sector _ 0 c G ltac:(lia) Hc) as (H1 & H2 & _). cbv zeta in H1, H2.
  rewrite Z.mul_0_l, Z.add_0_r in H1, H2. destruct (fat_entry_in _ 0 c G Hm ltac:(lia) Hc) as (e & He & _).
  unfold fat32_get_next_cluster. cbv zeta. rewrite (page_get_spec _ _ G H1). destruct (io _); [|done]. cbn [v_mem].
  rewrite H2. unfold fat_next. unfold fat_entry in *. rewrite He. done.
Qed.

(** What a change of the table leaves: the entries of the clusters not in [P], the data
    and everything before the table but the information sector. *)
Record frame (P : Z -> Prop) (m m' : list Z) : Prop := {
  fr_like : like m m';
  fr_entry k c : 0 <= k < fat_copies b -> in_table b c -> ~ P c -> fat_entry b m' k c = fat_entry b m k c;
  fr_data i : i < fat_start b * 512 \/ data_start b * 512 <= i -> fsinfo_sector b = 0 \/ i `div` 512 <> fsinfo_sector b ->
    geti m' i = geti m i
}.
Lemma fat_frame_refl P m : bytes m -> frame P m m.
Proof. intros Hm. split; [done|done|done]. Qed.
Lemma fat_frame_trans P Q m1 m2 m3 : frame P m1 m2 -> frame Q m2 m3 -> frame (fun c => P c \/ Q c) m1 m3.
Proof.
  intros [[L1 B1] E1 D1] [[L2 B2] E2 D2]. split; [split; [congruence|done]| |].
  - intros k c Hk Hc HP. rewrite E2, E1 by tauto. done.
  - intros i Hi Hf. rewrite D2, D1 by done. done.
Qed.
Lemma frame_mono (P Q : Z -> Prop) m m' : frame P m m' -> (forall c, P c -> Q c) -> frame Q m m'.
Proof. intros [L E D] H. split; [done| |done]. intros k c Hk Hc HP. apply E; [done|done|]. auto. Qed.
Lemma frame_len P m m' : frame P m m' -> zlen m' = zlen m.
Proof. intros [[-> _] _ _]. done. Qed.
Lemma frame_val P m m' k c : frame P m m' -> 0 <= k < fat_copies b -> in_table b c -> ~ P c -> fat_val m' k c = fat_val m k c.
Proof. intros F Hk Hc HP. unfold fat_val. by rewrite (fr_entry _ _ _ F). Qed.

(** Entries do not overlap. *)
Lemma entry_apart n k c k' c' : geometry b n -> 0 <= k < fat_copies b -> 0 <= k' < fat_copies b -> in_table b c -> in_table b c' ->
  (k, c) <> (k', c') -> entry_addr b k c + 4 <= entry_addr b k' c' \/ entry_addr b k' c' + 4 <= entry_addr b k c.
Proof.
  intros G Hk Hk' [Hc1 Hc2] [Hc1' Hc2'] Hne. pose proof (g_size _ _ G) as Hs. unfold entry_addr.
  destruct (Z.lt_trichotomy k k') as [H|[->|H]].
  - left. nia.
  - assert (c <> c') by (intros ->; done). lia.
  - right. nia.
Qed.
(** One entry written. *)
Lemma set_entry m k c e next : geometry b (zlen m) -> bytes m -> 0 <= k < fat_copies b -> in_table b c -> fat_entry b m k c = Some e ->
  0 <= e < 2 ^ 32 ->
  returns (wr32 m (entry_addr b k c) (entry_set e next)) (fun m' => frame (eq c) m m' /\
    fat_val m' k c = Z.land next JLOS_FAT32_CLUSTER_MASK /\
    forall k', 0 <= k' < fat_copies b -> k' <> k -> fat_val m' k' c = fat_val m k' c).
Proof.
  intros G Hm Hk Hc He Hr. destruct (entry_sector _ k c G Hk Hc) as (_ & _ & H1 & H2 & H3). pose proof (g_vol _ _ G).
  destruct (wr32_in m (entry_addr b k c) (entry_set e next) Hm H1 ltac:(lia)) as (m' & E & L). exists m'. split; [done|].
  assert (forall k' c', 0 <= k' < fat_copies b -> in_table b c' -> (k', c') <> (k, c) -> fat_entry b m' k' c' = fat_entry b m k' c') as Hout.
  { intros k' c' Hk' Hc' Hne. apply rd32_ext. intros i Hi. apply (geti_write_run_out _ _ _ _ _ E). change (zlen (bytes32 (entry_set e next))) with 4.
    destruct (entry_apart _ k' c' k c G Hk' Hk Hc' Hc Hne); lia. }
  split_and!.
  - split; [done| |].
    + intros k' c' Hk' Hc' Hne. apply Hout; [done|done|]. congruence.
    + intros i Hi _. apply (geti_write_run_out _ _ _ _ _ E). change (zlen (bytes32 (entry_set e next))) with 4. lia.
  - unfold fat_val, fat_entry. rewrite (rd32_wr32 _ _ _ _ E) by (by apply entry_set_range). apply entry_set_mask.
  - intros k' Hk' Hne. unfold fat_val. rewrite Hout by (done || congruence). done.
Qed.

(** A page could not be had between two states. *)
Definition failed (v v' : vol) : Prop := exists i, (v_gets v <= i < v_gets v')%nat /\ io i = false.
Definition grows (v v' : vol) : Prop := (v_gets v <= v_gets v')%nat.
Lemma failed_l v1 v2 v3 : failed v1 v2 -> grows v2 v3 -> failed v1 v3.
Proof. intros (i & H & Hi) G. unfold grows in G. exists i. split; [lia|done]. Qed.
Lemma failed_r v1 v2 v3 : failed v2 v3 -> grows v1 v2 -> failed v1 v3.
Proof. intros (i & H & Hi) G. unfold grows in G. exists i. split; [lia|done]. Qed.
Lemma vol_grows_trans v1 v2 v3 : grows v1 v2 -> grows v2 v3 -> grows v1 v3.
Proof. unfold grows. lia. Qed.
Lemma failed_tick v v' : io (v_gets v) = false -> grows (tick v) v' -> failed v v'.
Proof. intros H G. exists (v_gets v). unfold grows, tick in G. simpl in G. split; [lia|done]. Qed.

(** The loop over the copies: a prefix of them is set, all of them when every page is there. *)
Lemma set_copies_spec c next n : forall k v, geometry b (zlen (v_mem v)) -> bytes (v_mem v) -> in_table b c ->
  0 <= k -> k + Z.of_nat n <= fat_copies b ->
  let o := u32 (c * JLOS_FAT32_FAT_ENTRY_SIZE) in
  returns (set_copies io n b v k (o `div` bpb_bytes_per_sector b) (o `mod` bpb_bytes_per_sector b) next) (fun '(ok, v') =>
    frame (eq c) (v_mem v) (v_mem v') /\ grows v v' /\ (ok = false -> failed v v') /\
    (forall j, 0 <= j < k -> fat_val (v_mem v') j c = fat_val (v_mem v) j c) /\
    (ok = true -> forall j, k <= j < k + Z.of_nat n -> fat_val (v_mem v') j c = Z.land next JLOS_FAT32_CLUSTER_MASK)).
Proof.
  induction n as [|n IH]; intros k v G Hm Hc Hk Hn; cbv zeta in *; cbn [set_copies]; cbv zeta.
  { apply returns_ret. split_and!; [by apply fat_frame_refl|unfold grows; lia|done|done|lia]. }
  destruct (entry_sector _ k c G ltac:(lia) Hc) as (H1 & H2 & _). cbv zeta in H1, H2. rewrite (page_get_spec _ _ G H1).
  destruct (io (v_gets v)) eqn:Eio; cbn [v_mem].
  2: { apply returns_ret. split_and!; [by apply fat_frame_refl|unfold grows; simpl; lia| |done|done].
    intros _. apply failed_tick; [done|unfold grows; simpl; lia]. }
  rewrite H2. destruct (fat_entry_in _ k c G Hm ltac:(lia) Hc) as (e & He & Hr). pose proof He as He'. unfold fat_entry in He'. bind He'.
  destruct (set_entry _ k c e next G Hm ltac:(lia) Hc He Hr) as (m' & Ew & F & Hv & Ho). unfold entry_set in Ew. bind Ew.
  pose proof (frame_len _ _ _ F) as Hl. destruct (fr_like _ _ _ F) as [_ Hm'].
  refine (returns_mono _ _ _ (IH (k + 1) (put_mem (Vol (v_mem v) (S (v_gets v))) m') _ Hm' Hc _ _) _); [by cbn; rewrite Hl|lia|lia|].
  intros [ok v'] (F' & Gr & Hf & Hlow & Hset). cbn in F', Gr, Hf, Hlow, Hset. split_and!.
  - apply (frame_mono _ _ _ _ (fat_frame_trans _ _ _ _ _ F F')). tauto.
  - unfold grows in *. cbn in Gr. lia.
  - intros E. destruct (Hf E) as (i & Hi & Hio). exists i. cbn in Hi. split; [lia|done].
  - intros j Hj. rewrite Hlow by lia. apply Ho; lia.
  - intros E j Hj. destruct (decide (j = k)) as [->|]; [by rewrite Hlow by lia|]. apply Hset; [done|lia].
Qed.
Lemma fat_set_next_spec v c next : geometry b (zlen (v_mem v)) -> bytes (v_mem v) -> in_table b c ->
  returns (fat32_set_next_cluster io b v c next) (fun '(ok, v') =>
    frame (eq c) (v_mem v) (v_mem v') /\ grows v v' /\ (ok = false -> failed v v') /\
    (ok = true -> forall k, 0 <= k < fat_copies b -> fat_val (v_mem v') k c = Z.land next JLOS_FAT32_CLUSTER_MASK)).
Proof.
  intros G Hm Hc. pose proof (g_copies _ _ G). refine (returns_mono _ _ _ (set_copies_spec c next (Z.to_nat (fat_copies b)) 0 v G Hm Hc _ _) _); [lia|lia|].
  intros [ok v'] (F & Gr & Hf & _ & Hs). split_and!; [done|done|done|]. intros E k Hk. apply Hs; [done|lia].
Qed.

(** The information sector. *)
Lemma info_addr n off : geometry b n -> fsinfo_sector b <> 0 -> 0 <= off -> off + 4 <= 512 ->
  0 <= fsinfo_sector b < data_start b /\ 0 <= sector_addr (fsinfo_sector b) off /\ sector_addr (fsinfo_sector b) off + 4 <= n /\
  sector_addr (fsinfo_sector b) off + 4 <= fat_start b * 512 /\
  forall i, sector_addr (fsinfo_sector b) off <= i < sector_addr (fsinfo_sector b) off + 4 -> i `div` 512 = fsinfo_sector b.
Proof.
  intros [] Hn H1 H2. unfold sector_addr, JLOS_BLOCK_SECTOR_SIZE. assert (0 <= bpb_table_size b) by lia. assert (0 <= fat_copies b * bpb_table_size b) by nia.
  destruct g_info0; [lia|]. split_and!; try lia. intros i Hi. zmod.
Qed.
Lemma info_write m off x : geometry b (zlen m) -> bytes m -> fsinfo_sector b <> 0 -> 0 <= off -> off + 4 <= 512 ->
  returns (wr32 m (sector_addr (fsinfo_sector b) off) x) (frame (fun _ => False) m).
Proof.
  intros G Hm Hn H1 H2. destruct (info_addr _ off G Hn H1 H2) as (_ & A1 & A2 & A3 & A4).
  destruct (wr32_in m _ x Hm A1 A2) as (m' & E & L). exists m'. split; [done|]. split; [done| |].
  - intros k c Hk Hc _. apply rd32_ext. intros i Hi. apply (geti_write_run_out _ _ _ _ _ E). change (zlen (bytes32 x)) with 4.
    destruct (entry_sector _ k c G Hk Hc) as (_ & _ & _ & _ & ?). lia.
  - intros i Hi Hf. apply (geti_write_run_out _ _ _ _ _ E). change (zlen (bytes32 x)) with 4.
    destruct (Z_lt_dec i (sector_addr (fsinfo_sector b) off)); [by left|].
    destruct (Z_lt_dec i (sector_addr (fsinfo_sector b) off + 4)); [|right; lia]. destruct Hf as [?|Hf]; [done|]. destruct Hf. apply A4. lia.
Qed.
Lemma info_read m off : geometry b (zlen m) -> bytes m -> fsinfo_sector b <> 0 -> 0 <= off -> off + 4 <= 512 ->
  exists x, rd32 m (sector_addr (fsinfo_sector b) off) = Some x /\ 0 <= x < 2 ^ 32.
Proof. intros G Hm Hn H1 H2. destruct (info_addr _ off G Hn H1 H2) as (_ & A1 & A2 & _). by apply rd32_in. Qed.
Lemma info_valid m : geometry b (zlen m) -> bytes m -> fsinfo_sector b <> 0 -> exists ok, fsinfo_valid m (fsinfo_sector b) = Some ok.
Proof.
  intros G Hm Hn. unfold fsinfo_valid. destruct (info_read m JLOS_FAT32_FSINFO_LEAD_OFF G Hm Hn) as (x & -> & _); [done|done|].
  destruct (info_read m JLOS_FAT32_FSINFO_STRUCT_OFF G Hm Hn) as (y & -> & _); [done|done|]. by eexists.
Qed.
Lemma fsinfo_update_spec v nf d : geometry b (zlen (v_mem v)) -> bytes (v_mem v) ->
  returns (fat32_fsinfo_update io b v nf d) (fun v' => frame (fun _ => False) (v_mem v) (v_mem v') /\ grows v v').
Proof.
  intros G Hm. unfold fat32_fsinfo_update. destruct (Z.eqb_spec (fsinfo_sector b) 0) as [|Hn].
  { apply returns_ret. split; [by apply fat_frame_refl|unfold grows; lia]. }
  destruct (info_addr _ 0 G Hn ltac:(lia) ltac:(lia)) as (Hs & _). rewrite (page_get_spec _ _ G Hs).
  destruct (io _); cbn [v_mem]; [|apply returns_ret; split; [by apply fat_frame_refl|unfold grows; simpl; lia]].
  destruct (info_valid _ G Hm Hn) as ([] & Ev); bind Ev; [|apply returns_ret; split; [by apply fat_frame_refl|unfold grows; simpl; lia]].
  destruct (info_write _ JLOS_FAT32_FSINFO_FREE_OFF nf G Hm Hn) as (m1 & E1 & F1); [done|done|]. bind E1.
  pose proof (frame_len _ _ _ F1) as Hl. destruct (fr_like _ _ _ F1) as [_ Hm1]. rewrite <- Hl in G.
  destruct (info_read m1 JLOS_FAT32_FSINFO_COUNT_OFF G Hm1 Hn) as (x & Ex & _); [done|done|]. bind Ex.
  destruct (info_write m1 JLOS_FAT32_FSINFO_COUNT_OFF (u32 (x + d)) G Hm1 Hn) as (m2 & E2 & F2); [done|done|]. bind E2.
  apply returns_ret. split; [|unfold grows; simpl; lia]. cbn. apply (frame_mono _ _ _ _ (fat_frame_trans _ _ _ _ _ F1 F2)). tauto.
Qed.
Lemma fsinfo_read_spec v : geometry b (zlen (v_mem v)) -> bytes (v_mem v) ->
  returns (fat32_fsinfo_read io b v) (fun '(_, v') => v_mem v' = v_mem v /\ grows v v').
Proof.
  intros G Hm. unfold fat32_fsinfo_read. destruct (Z.eqb_spec (fsinfo_sector b) 0) as [|Hn].
  { apply returns_ret. split; [done|unfold grows; lia]. }
  destruct (info_addr _ 0 G Hn ltac:(lia) ltac:(lia)) as (Hs & _). rewrite (page_get_spec _ _ G Hs).
  destruct (io _); cbn [v_mem]; [|apply returns_ret; split; [done|unfold grows; simpl; lia]].
  destruct (info_valid _ G Hm Hn) as ([] & Ev); bind Ev; [|apply returns_ret; split; [done|unfold grows; simpl; lia]].
  destruct (info_read _ JLOS_FAT32_FSINFO_FREE_OFF G Hm Hn) as (x & Ex & _); [done|done|]. bind Ex.
  apply returns_ret. split; [done|unfold grows; simpl; lia].
Qed.

(** ** Allocation *)

Definition free_cluster (m : list Z) (c : Z) : Prop := fat_next b m c = JLOS_FAT32_CLUSTER_FREE.
(** The cluster is the last of a chain in every copy. *)
Definition marked (m : list Z) (c : Z) : Prop := forall k, 0 <= k < fat_copies b -> fat_val m k c = JLOS_FAT32_CLUSTER_EOC.

Lemma claim_spec v c : geometry b (zlen (v_mem v)) -> bytes (v_mem v) -> in_table b c ->
  returns (fat32_claim_cluster io b v c) (fun '(r, v') => frame (eq c) (v_mem v) (v_mem v') /\ grows v v' /\
    match r with Some c' => c' = c /\ marked (v_mem v') c | None => failed v v' end).
Proof.
  intros G Hm Hc. destruct (fat_set_next_spec v c JLOS_FAT32_CLUSTER_EOC G Hm Hc) as ([ok v1] & E1 & F1 & G1 & Hf & Hs).
  unfold fat32_claim_cluster. bind E1. destruct ok; [|apply returns_ret; split_and!; [done|done|by apply Hf]].
  pose proof (frame_len _ _ _ F1) as Hl. destruct (fr_like _ _ _ F1) as [_ Hm1]. rewrite <- Hl in G.
  destruct (fsinfo_update_spec v1 (u32 (c + 1)) (-1) G Hm1) as (v2 & E2 & F2 & G2). bind E2. apply returns_ret. split_and!.
  - apply (frame_mono _ _ _ _ (fat_frame_trans _ _ _ _ _ F1 F2)). tauto.
  - by eapply vol_grows_trans.
  - done.
  - intros k Hk. rewrite (frame_val _ _ _ k c F2 Hk Hc) by tauto. by apply Hs.
Qed.
Lemma scan_sector_spec m si n : geometry b (zlen m) -> bytes m -> 0 <= si -> forall i, 0 <= i -> i + Z.of_nat n <= 128 ->
  si * 128 + i + Z.of_nat n <= total_clusters b + 2 ->
  returns (scan_sector n m (u32 (fat_start b + si)) i) (fun r => match r with
    | Some j => i <= j < i + Z.of_nat n /\ free_cluster m (si * 128 + j)
    | None => forall j, i <= j < i + Z.of_nat n -> ~ free_cluster m (si * 128 + j)
    end).
Proof.
  intros G Hm Hsi. induction n as [|n IH]; intros i Hi Hn Ht; cbn [scan_sector]; [apply returns_ret; lia|].
  assert (in_table b (si * 128 + i)) as Hc by (unfold in_table; lia). pose proof (g_copies _ _ G).
  destruct (fat_entry_in m 0 (si * 128 + i) G Hm ltac:(lia) Hc) as (e & He & _).
  assert (rd32 m (sector_addr (u32 (fat_start b + si)) (i * JLOS_FAT32_FAT_ENTRY_SIZE)) = Some e) as Hrd.
  { rewrite <- He. unfold fat_entry. f_equal. unfold sector_addr, entry_addr, JLOS_BLOCK_SECTOR_SIZE, JLOS_FAT32_FAT_ENTRY_SIZE.
    pose proof (g_small _ _ G). pose proof (g_data _ _ G). pose proof (g_start _ _ G). pose proof (g_size _ _ G).
    assert (bpb_table_size b <= fat_copies b * bpb_table_size b) by nia. rewrite u32_small by lia. lia. }
  bind Hrd. assert (fat_next b m (si * 128 + i) = Z.land e JLOS_FAT32_CLUSTER_MASK) as Hnx by (unfold fat_next; by rewrite He).
  destruct (Z.eqb_spec (Z.land e JLOS_FAT32_CLUSTER_MASK) JLOS_FAT32_CLUSTER_FREE) as [E|E].
  { apply returns_ret. split; [lia|]. unfold free_cluster. congruence. }
  refine (returns_mono _ _ _ (IH (i + 1) _ _ _) _); [lia|lia|lia|]. intros [j|].
  - intros [Hj ?]. split; [lia|done].
  - intros Hno j Hj. destruct (decide (j = i)) as [->|]; [|apply Hno; lia]. unfold free_cluster. congruence.
Qed.

(** What an allocation does: a free cluster is marked; or no cluster was free, or a page
    could not be had and at most entries of free clusters were changed. *)
Definition allocates (lo : Z) (v : vol) (res : option Z * vol) : Prop :=
  let '(r, v') := res in grows v v' /\
  match r with
  | Some c => in_table b c /\ free_cluster (v_mem v) c /\ marked (v_mem v') c /\ frame (eq c) (v_mem v) (v_mem v')
  | None => frame (free_cluster (v_mem v)) (v_mem v) (v_mem v') /\
      (failed v v' \/ v_mem v' = v_mem v /\ forall c, lo <= c -> in_table b c -> ~ free_cluster (v_mem v) c)
  end.
Lemma claim_allocates lo v0 v c : v_mem v = v_mem v0 -> grows v0 v -> geometry b (zlen (v_mem v)) -> bytes (v_mem v) -> in_table b c ->
  free_cluster (v_mem v) c -> returns (fat32_claim_cluster io b v c) (allocates lo v0).
Proof.
  intros Em G0 G Hm Hc Hf. refine (returns_mono _ _ _ (claim_spec v c G Hm Hc) _). intros [r v'] (F & Gr & H). rewrite Em in *.
  split; [by eapply vol_grows_trans|]. destruct r as [c'|].
  - destruct H as [-> Hmk]. split_and!; done.
  - split; [apply (frame_mono _ _ _ _ F); by intros ? <-|]. left. by apply (failed_r _ _ _ H).
Qed.
Lemma scan_table_spec v0 fuel : forall v si, v_mem v = v_mem v0 -> grows v0 v -> geometry b (zlen (v_mem v)) -> bytes (v_mem v) -> 0 <= si ->
  total_clusters b + 2 <= (si + Z.of_nat fuel) * 128 -> (forall c, 0 <= c < si * 128 -> in_table b c -> ~ free_cluster (v_mem v) c) ->
  si * 128 < total_clusters b + 2 + 128 ->
  returns (scan_table io fuel b v (total_clusters b + 2) si) (allocates 0 v0).
Proof.
  induction fuel as [|fuel IH]; intros v si Em G0 G Hm Hsi Hfuel Hlow Hhi; cbn [scan_table]; pose proof (g_total _ _ G) as Ht;
    unfold JLOS_FAT32_CLUSTER_EOC in Ht; change entries_per_sector with 128; rewrite (u32_small (si * 128)) by lia;
    destruct (Z.ltb_spec (si * 128) (total_clusters b + 2)) as [Hlt|Hge]; try lia.
  1, 3: apply returns_ret; split; [done|]; rewrite <- Em; split; [by apply fat_frame_refl|]; right; split; [reflexivity|];
    intros c _ Hc; apply Hlow; [unfold in_table in Hc; lia|done].
  pose proof (g_small _ _ G). pose proof (g_data _ _ G). pose proof (g_start _ _ G). pose proof (g_size _ _ G). pose proof (g_copies _ _ G).
  assert (bpb_table_size b <= fat_copies b * bpb_table_size b) by nia. cbv zeta. rewrite (u32_small ((si + 1) * 128)) by lia.
  rewrite (page_get_spec _ _ G) by (rewrite u32_small by lia; lia).
  assert (grows v0 (tick v)) as G1 by (unfold grows in *; simpl; lia).
  destruct (io (v_gets v)) eqn:Eio; cbn [v_mem].
  2: { apply returns_ret. split; [done|]. rewrite <- Em. split; [by apply fat_frame_refl|]. left. apply (failed_r v0 v); [|done].
    apply failed_tick; [done|unfold grows; simpl; lia]. }
  set (n := if total_clusters b + 2 <? (si + 1) * 128 then total_clusters b + 2 - si * 128 else 128).
  assert (0 <= n <= 128 /\ si * 128 + n <= total_clusters b + 2 /\ (n = 128 \/ si * 128 + n = total_clusters b + 2)) as (Hn1 & Hn2 & Hn3).
  { unfold n. zcases; lia. }
  destruct (scan_sector_spec (v_mem v) si (Z.to_nat n) G Hm Hsi 0 ltac:(lia) ltac:(lia) ltac:(lia)) as (r & Er & Hr). bind Er.
  destruct r as [j|].
  - destruct Hr as [Hj Hf]. rewrite u32_small by lia. apply claim_allocates; [done|done|done|done| |done]. unfold in_table. lia.
  - rewrite u32_small by lia. apply IH; [done|done|done|done|lia|lia| |lia]. cbn [v_mem]. intros c Hc Hin.
    destruct (Z_lt_dec c (si * 128)); [apply Hlow; [lia|done]|]. replace c with (si * 128 + (c - si * 128)) by lia. apply Hr.
    unfold in_table in Hin. lia.
Qed.
Lemma hint_free_spec v c : geometry b (zlen (v_mem v)) -> bytes (v_mem v) -> in_table b c ->
  returns (hint_free io b v c) (fun '(free, v') => v_mem v' = v_mem v /\ grows v v' /\ (free = true -> free_cluster (v_mem v) c)).
Proof.
  intros G Hm Hc. pose proof (g_copies _ _ G). destruct (entry_sector _ 0 c G ltac:(lia) Hc) as (H1 & H2 & _). cbv zeta in H1, H2.
  rewrite Z.mul_0_l, Z.add_0_r in H1, H2. destruct (fat_entry_in _ 0 c G Hm ltac:(lia) Hc) as (e & He & _).
  unfold hint_free. cbv zeta. rewrite (page_get_spec _ _ G H1). destruct (io _); cbn [v_mem].
  2: { apply returns_ret. split_and!; [done|unfold grows; simpl; lia|done]. }
  rewrite H2. pose proof He as He'. unfold fat_entry in He'. bind He'. apply returns_ret. split_and!; [done|unfold grows; simpl; lia|].
  intros E%Z.eqb_eq. unfold free_cluster, fat_next. by rewrite He.
Qed.
Lemma fat_alloc_spec v : geometry b (zlen (v_mem v)) -> bytes (v_mem v) -> returns (fat32_alloc_cluster io b v) (allocates 0 v).
Proof.
  intros G Hm. unfold fat32_alloc_cluster. pose proof (g_total _ _ G) as Ht. unfold JLOS_FAT32_CLUSTER_EOC in Ht.
  change JLOS_FAT32_FIRST_DATA_CLUSTER with 2. rewrite u32_small by lia. cbv zeta.
  destruct (fsinfo_read_spec v G Hm) as ([h v1] & E1 & M1 & G1). bind E1.
  refine (returns_bind _ _ (fun '(c, v2) => v_mem v2 = v_mem v /\ grows v v2 /\ match c with Some c => in_table b c /\ free_cluster (v_mem v) c | None => True end) _ _ _).
  - destruct h as [h|]; [|by apply returns_ret]. destruct (Z.leb_spec 2 h), (Z.ltb_spec h (total_clusters b + 2)); try by apply returns_ret.
    assert (in_table b h) as Hh by (unfold in_table; lia). cbn [andb]. rewrite <- M1 in G, Hm.
    destruct (hint_free_spec v1 h G Hm Hh) as ([f v2] & E2 & M2 & G2 & Hf). bind E2. apply returns_ret. rewrite M1 in *.
    split_and!; [done|by eapply vol_grows_trans|]. destruct f; [by auto|done].
  - intros [c v2] (M2 & G2 & Hc). rewrite <- M2 in G, Hm. destruct c as [c|].
    + destruct Hc as [Hc Hf]. apply claim_allocates; [done|done|done|done|done|]. by rewrite M2.
    + change entries_per_sector with 128.
      assert (total_clusters b + 2 <= (0 + Z.of_nat (Z.to_nat ((total_clusters b + 2) `div` 128 + 1))) * 128) as Hfu.
      { assert (0 <= (total_clusters b + 2) `div` 128) by (apply Z.div_pos; lia). rewrite Z2Nat.id by lia. zmod. }
      apply scan_table_spec; [done|done|done|done|lia|exact Hfu|lia|lia].
Qed.

(** ** Chains of clusters *)

Definition data_cluster (c : Z) : Prop := JLOS_FAT32_FIRST_DATA_CLUSTER <= c < total_clusters b + 2.
(** Each cluster of a list points to the next, the last one to the end of the chain. *)
Definition linked (m : list Z) (l : list Z) : Prop := forall i c, l !! i = Some c ->
  match l !! S i with Some c' => fat_next b m c = c' | None => JLOS_FAT32_CLUSTER_EOC <= fat_next b m c end.
Definition chain (m : list Z) (l : list Z) : Prop := Forall data_cluster l /\ linked m l.
(** The copies of the table agree. *)
Definition mirrored (m : list Z) : Prop := forall k c, 0 <= k < fat_copies b -> in_table b c -> fat_val m k c = fat_next b m c.
(** A table that holds the chains of some files, which share no cluster. *)
Record holds (m : list Z) (files : list (list Z)) : Prop := {
  h_geo : geometry b (zlen m);
  h_bytes : bytes m;
  h_mirror : mirrored m;
  h_reserved : ~ free_cluster m 0 /\ ~ free_cluster m 1;
  h_chains : Forall (chain m) files;
  h_disjoint : NoDup (concat files)
}.

Lemma data_in_table c : data_cluster c -> in_table b c.
Proof. unfold data_cluster, in_table, JLOS_FAT32_FIRST_DATA_CLUSTER. lia. Qed.
Lemma frame_next P m m' c : frame P m m' -> 1 <= fat_copies b -> in_table b c -> ~ P c -> fat_next b m' c = fat_next b m c.
Proof. intros F Hk Hc HP. apply (frame_val P m m' 0 c F); [lia|done|done]. Qed.
Lemma fat_chain_frame P m m' l : frame P m m' -> 1 <= fat_copies b -> chain m l -> (forall c, c ∈ l -> ~ P c) -> chain m' l.
Proof.
  intros F Hk [Hd Hl] HP. split; [done|]. intros i c Hi. specialize (Hl i c Hi). apply list_elem_of_lookup_2 in Hi as Hin.
  rewrite Forall_forall in Hd. rewrite (frame_next P m m' c) by auto using data_in_table. done.
Qed.
(** The clusters of a chain are not free. *)
Lemma chain_used m l c : chain m l -> c ∈ l -> ~ free_cluster m c.
Proof.
  intros [Hd Hl] [i Hi]%list_elem_of_lookup Hf. specialize (Hl i c Hi). unfold free_cluster in Hf. rewrite Hf in Hl.
  destruct (l !! S i) as [c'|] eqn:E; [|done]. apply list_elem_of_lookup_2 in E. rewrite Forall_forall in Hd. apply Hd in E as [E _].
  subst. done.
Qed.
Lemma mirrored_frame (P : Z -> Prop) `{!forall c, Decision (P c)} m m' : frame P m m' -> mirrored m -> 1 <= fat_copies b ->
  (forall c, P c -> exists x, forall k, 0 <= k < fat_copies b -> fat_val m' k c = x) -> mirrored m'.
Proof.
  intros F Hm Hk Hx k c' Hk' Hc'. change (fat_next b m' c') with (fat_val m' 0 c'). destruct (decide (P c')) as [HP|HP].
  - destruct (Hx c' HP) as [x Hxx]. rewrite !Hxx by lia. done.
  - rewrite !(frame_val P m m') by (done || lia). by apply Hm.
Qed.
(** A chain whose last cluster is pointed to a new one. *)
Lemma chain_snoc m m' l c c' : frame (fun x => x = c \/ x = c') m m' -> 1 <= fat_copies b -> chain m (l ++ [c]) -> NoDup (l ++ [c]) ->
  c' ∉ l ++ [c] -> data_cluster c' -> fat_next b m' c = c' -> JLOS_FAT32_CLUSTER_EOC <= fat_next b m' c' -> chain m' ((l ++ [c]) ++ [c']).
Proof.
  intros F Hk [Hd Hl] Hnd Hc' Hdc Hn He. split; [apply Forall_app; split; [done|by constructor]|].
  apply NoDup_app in Hnd as (_ & Hnd & _). intros i x Hi. destruct (decide (i < length l)%nat) as [Hlt|Hge].
  - assert ((l ++ [c]) !! i = Some x) as Hix by (rewrite lookup_app_l in Hi by (rewrite length_app; simpl; lia); done).
    assert (((l ++ [c]) ++ [c']) !! S i = (l ++ [c]) !! S i) as -> by (apply lookup_app_l; rewrite length_app; simpl; lia).
    specialize (Hl i x Hix). assert (x ∈ l) as Hx by (rewrite lookup_app_l in Hix by lia; by apply list_elem_of_lookup_2 in Hix).
    assert (x ∈ l ++ [c]) as Hx' by (apply elem_of_app; by left). rewrite Forall_forall in Hd.
    rewrite (frame_next _ m m' x F Hk) by (by apply data_in_table, Hd) || (intros [->| ->]; [by apply (Hnd c Hx), list_elem_of_singleton|done]). done.
  - rewrite <- app_assoc in Hi |- *. simpl in Hi |- *. rewrite lookup_app_r in Hi by lia.
    destruct (i - length l)%nat as [|[|j]] eqn:Ej; simpl in Hi; [injection Hi as <-|injection Hi as <-|done].
    + rewrite lookup_app_r by lia. replace (S i - length l)%nat with 1%nat by lia. done.
    + rewrite lookup_app_r by lia. replace (S i - length l)%nat with 2%nat by lia. done.
Qed.
Lemma chain_single m c : data_cluster c -> JLOS_FAT32_CLUSTER_EOC <= fat_next b m c -> chain m [c].
Proof. intros Hd He. split; [by constructor|]. intros [|i] x Hi; simpl in Hi; [injection Hi as <-; done|done]. Qed.
Lemma free_not_used m files c : Forall (chain m) files -> free_cluster m c -> c ∉ concat files.
Proof.
  intros Hf Hc Hin. apply list_elem_of_In, in_concat in Hin as (l & Hl & Hin). apply list_elem_of_In in Hl, Hin. rewrite Forall_forall in Hf.
  by apply (chain_used m l c (Hf l Hl) Hin).
Qed.
Lemma marked_val m c : marked m c -> 1 <= fat_copies b -> fat_next b m c = JLOS_FAT32_CLUSTER_EOC.
Proof. intros H Hk. apply (H 0). lia. Qed.

(** An allocated cluster is a chain of its own. *)
Lemma holds_alloc v files c v' : holds (v_mem v) files -> allocates 0 v (Some c, v') ->
  data_cluster c /\ (c ∉ concat files) /\ holds (v_mem v') ([c] :: files).
Proof.
  intros [G Hm Hmi [R0 R1] Hch Hnd] (_ & Hc & Hf & Hmk & F). pose proof (g_copies _ _ G) as Hk. assert (1 <= fat_copies b) as Hk1 by lia.
  pose proof (free_not_used _ _ _ Hch Hf) as Hni.
  assert (data_cluster c) as Hd.
  { unfold in_table in Hc. unfold data_cluster, JLOS_FAT32_FIRST_DATA_CLUSTER. assert (c <> 0) by (by intros ->). assert (c <> 1) by (by intros ->). lia. }
  assert (2 <= c) by apply Hd. pose proof (g_total _ _ G). split_and!; [done|done|]. split.
  - by rewrite (frame_len _ _ _ F).
  - apply (fr_like _ _ _ F).
  - apply (mirrored_frame (eq c) (v_mem v) _ F Hmi Hk1). intros x <-. by exists JLOS_FAT32_CLUSTER_EOC.
  - unfold free_cluster. rewrite !(frame_next _ _ _ _ F) by (done || unfold in_table; lia). done.
  - constructor; [apply chain_single; [done|by rewrite marked_val]|]. rewrite Forall_forall in Hch |- *. intros l Hl.
    apply (fat_chain_frame _ _ _ _ F Hk1 (Hch l Hl)). intros x Hx <-. apply Hni. apply list_elem_of_In, in_concat. exists l. by rewrite <- !list_elem_of_In.
  - simpl. by constructor.
Qed.
Lemma elem_of_files (files : list (list Z)) l c : l ∈ files -> c ∈ l -> c ∈ concat files.
Proof. intros Hl Hc. apply list_elem_of_In, in_concat. exists l. by rewrite <- !list_elem_of_In. Qed.
Lemma chains_frame P m m' files : frame P m m' -> 1 <= fat_copies b -> Forall (chain m) files -> (forall c, c ∈ concat files -> ~ P c) -> Forall (chain m') files.
Proof.
  intros F Hk Hch HP. rewrite Forall_forall in Hch |- *. intros l Hl. apply (fat_chain_frame _ _ _ _ F Hk (Hch l Hl)).
  intros c Hc. apply HP. by apply (elem_of_files files l).
Qed.
Lemma concat_mid {A} (l1 l2 : list (list A)) x : concat (l1 ++ x :: l2) = concat l1 ++ x ++ concat l2.
Proof. by rewrite concat_app. Qed.
(** Apart: the clusters of one file and those of the others. *)
Lemma files_apart {A} (l1 l2 : list (list A)) l : NoDup (concat (l1 ++ l :: l2)) ->
  NoDup l /\ NoDup (concat (l1 ++ l2)) /\ (forall c, c ∈ l -> c ∉ concat (l1 ++ l2)).
Proof.
  rewrite concat_mid, concat_app. intros (H1 & H2 & H3)%NoDup_app. apply NoDup_app in H3 as (H3 & H4 & H5). split_and!; [done| |].
  - apply NoDup_app. split_and!; [done| |done]. intros x Hx Hx'. apply (H2 x Hx), elem_of_app. by right.
  - intros c Hc [Hc'|Hc']%elem_of_app; [|by apply (H4 c)]. apply (H2 c Hc'), elem_of_app. by left.
Qed.
Lemma files_join {A} (l1 l2 : list (list A)) l : NoDup l -> NoDup (concat (l1 ++ l2)) -> (forall c, c ∈ l -> c ∉ concat (l1 ++ l2)) ->
  NoDup (concat (l1 ++ l :: l2)).
Proof.
  rewrite concat_mid, concat_app. intros H1 (H2 & H3 & H4)%NoDup_app H5. apply NoDup_app. split_and!; [done| |].
  - intros x Hx [Hx'|Hx']%elem_of_app; [|by apply (H3 x)]. apply (H5 x Hx'), elem_of_app. by left.
  - apply NoDup_app. split_and!; [done| |done]. intros x Hx Hx'. apply (H5 x Hx), elem_of_app. by right.
Qed.

(** A chain has at most as many clusters as there are. *)
Lemma chain_length l : Forall data_cluster l -> NoDup l -> (length l <= Z.to_nat (total_clusters b))%nat.
Proof.
  intros Hd Hn. replace (Z.to_nat (total_clusters b)) with (length (seqZ 2 (total_clusters b))) by (by rewrite length_seqZ).
  apply submseteq_length, NoDup_submseteq; [done|]. intros x Hx. rewrite Forall_forall in Hd. apply Hd in Hx as [H1 H2].
  apply elem_of_seqZ. unfold JLOS_FAT32_FIRST_DATA_CLUSTER in H1. lia.
Qed.
Lemma chain_tail m c l : chain m (c :: l) -> chain m l.
Proof. intros [Hd Hl]. inversion_clear Hd. split; [done|]. intros i x Hi. exact (Hl (S i) x Hi). Qed.

Section all_pages.
Context (Hio : forall i, io i = true).
Lemma not_failed v v' : ~ failed v v'.
Proof. intros (i & _ & E). by rewrite Hio in E. Qed.

Lemma free_loop_spec l : forall rest v c, geometry b (zlen (v_mem v)) -> bytes (v_mem v) -> chain (v_mem v) l -> NoDup l ->
  match l with c' :: _ => c = c' | [] => JLOS_FAT32_CLUSTER_EOC <= c end -> (length l <= rest)%nat ->
  returns (free_loop io rest b v c) (fun '(ok, v') => ok = true /\ frame (.∈ l) (v_mem v) (v_mem v') /\ grows v v' /\
    forall x k, x ∈ l -> 0 <= k < fat_copies b -> fat_val (v_mem v') k x = JLOS_FAT32_CLUSTER_FREE).
Proof.
  induction l as [|x l IH]; intros rest v c G Hm Hch Hnd Hc Hr.
  { assert (free_loop io rest b v c = Some (true, v)) as ->.
    { destruct rest; cbn [free_loop]; rewrite (proj2 (Z.ltb_ge _ _) Hc), andb_false_r; done. }
    apply returns_ret. split_and!; [done|by apply fat_frame_refl|unfold grows; lia|]. intros x k Hx. by apply elem_of_nil in Hx. }
  subst c. destruct rest as [|rest]; [simpl in Hr; lia|]. simpl in Hr. destruct (proj1 (Forall_cons _ _ _) (proj1 Hch)) as [Hx _].
  pose proof (data_in_table _ Hx) as Hxt. pose proof (g_total _ _ G) as Ht. pose proof (g_copies _ _ G). cbn [free_loop].
  rewrite (proj2 (Z.leb_le _ _) (proj1 Hx)), (proj2 (Z.ltb_lt x JLOS_FAT32_CLUSTER_EOC)) by (destruct Hx; lia). cbn [andb].
  pose proof (get_next_spec v x G Hm Hxt) as E1. rewrite Hio in E1. bind E1.
  destruct (fat_set_next_spec (tick v) x JLOS_FAT32_CLUSTER_FREE G Hm Hxt) as ([ok v1] & E2 & F & G1 & Hf & Hs). bind E2.
  destruct ok; [|destruct (not_failed _ _ (Hf eq_refl))]. apply NoDup_cons in Hnd as [Hni Hnd]. cbn in F.
  refine (returns_mono _ _ _ (IH rest v1 (fat_next b (v_mem v) x) _ _ _ Hnd _ _) _).
  - by rewrite (frame_len _ _ _ F).
  - apply (fr_like _ _ _ F).
  - apply (fat_chain_frame _ _ _ _ F); [lia|by apply chain_tail in Hch|]. by intros y Hy <-.
  - destruct Hch as [_ Hl]. specialize (Hl 0%nat x eq_refl). by destruct l.
  - lia.
  - intros [ok v'] (-> & F' & G' & Hfree). split_and!.
    + done.
    + apply (frame_mono _ _ _ _ (fat_frame_trans _ _ _ _ _ F F')). intros y [<-|Hy]; apply elem_of_cons; auto.
    + unfold grows in *. simpl in G1. lia.
    + intros y k Hy Hk. apply elem_of_cons in Hy as [->|Hy]; [|by apply Hfree]. rewrite (frame_val _ _ _ k x F') by done. by apply (Hs eq_refl).
Qed.

Lemma free_chain_spec v l1 head l l2 : holds (v_mem v) (l1 ++ (head :: l) :: l2) ->
  returns (fat32_free_cluster_chain io b v head) (fun '(ok, v') => ok = true /\ frame (.∈ head :: l) (v_mem v) (v_mem v') /\
    (forall c, c ∈ head :: l -> free_cluster (v_mem v') c) /\ holds (v_mem v') (l1 ++ l2)).
Proof.
  intros [G Hm Hmi [R0 R1] Hch Hnd]. pose proof (g_copies _ _ G) as Hk. assert (1 <= fat_copies b) as Hk1 by lia. pose proof (g_total _ _ G).
  destruct (files_apart _ _ _ Hnd) as (Hn1 & Hn2 & Hn3). rewrite Forall_app, Forall_cons in Hch. destruct Hch as (Hc1 & Hc & Hc2).
  assert (Forall (chain (v_mem v)) (l1 ++ l2)) as Hco by (by apply Forall_app).
  destruct (free_loop_spec _ (Z.to_nat (total_clusters b)) v head G Hm Hc Hn1 eq_refl (chain_length _ (proj1 Hc) Hn1)) as ([ok v1] & E & -> & F & Gr & Hfree).
  unfold fat32_free_cluster_chain. bind E. pose proof (frame_len _ _ _ F) as Hl. destruct (fr_like _ _ _ F) as [_ Hm1]. pose proof G as G0. rewrite <- Hl in G.
  destruct (fsinfo_update_spec v1 head 1 G Hm1) as (v2 & E2 & F2 & G2). bind E2. apply returns_ret.
  assert (frame (.∈ head :: l) (v_mem v) (v_mem v2)) as F' by (apply (frame_mono _ _ _ _ (fat_frame_trans _ _ _ _ _ F F2)); tauto).
  assert (forall c k, c ∈ head :: l -> 0 <= k < fat_copies b -> fat_val (v_mem v2) k c = JLOS_FAT32_CLUSTER_FREE) as Hfree2.
  { intros c k Hin Hkk. destruct Hc as [Hd _]. rewrite Forall_forall in Hd. rewrite (frame_val _ _ _ k c F2 Hkk (data_in_table _ (Hd c Hin))) by tauto.
    by apply Hfree. }
  split_and!; [done|done|intros c Hin; apply (Hfree2 c 0 Hin); lia|]. split.
  - by rewrite (frame_len _ _ _ F').
  - apply (fr_like _ _ _ F').
  - apply (mirrored_frame _ _ _ F' Hmi Hk1). intros c Hin. exists JLOS_FAT32_CLUSTER_FREE. intros k Hkk. by apply Hfree2.
  - destruct Hc as [Hd _]. rewrite Forall_forall in Hd. unfold free_cluster.
    rewrite !(frame_next _ _ _ _ F' Hk1) by (unfold in_table; lia) || (intros Hin; apply Hd in Hin as [Hin _]; done). done.
  - apply (chains_frame _ _ _ _ F' Hk1 Hco). intros c Hin Hin'. by apply (Hn3 c).
  - done.
Qed.

Lemma alloc_holds v files : holds (v_mem v) files ->
  returns (fat32_alloc_cluster io b v) (fun '(r, v') => match r with
    | Some c => free_cluster (v_mem v) c /\ data_cluster c /\ (c ∉ concat files) /\ holds (v_mem v') ([c] :: files) /\ frame (eq c) (v_mem v) (v_mem v')
    | None => v_mem v' = v_mem v /\ forall c, in_table b c -> ~ free_cluster (v_mem v) c
    end).
Proof.
  intros H. refine (returns_mono _ _ _ (fat_alloc_spec v (h_geo _ _ H) (h_bytes _ _ H)) _). intros [[c|] v'] A.
  - destruct (holds_alloc _ _ _ _ H A) as (H1 & H2 & H3). destruct A as (_ & _ & Hf & _ & F). done.
  - destruct A as (_ & _ & [F|[Em Hno]]); [destruct (not_failed _ _ F)|]. split; [done|]. intros c Hc. apply Hno; [|done]. apply Hc.
Qed.

(** At the end of a chain, a cluster is added to it. *)
Lemma advance_last v l1 l c l2 : holds (v_mem v) (l1 ++ (l ++ [c]) :: l2) ->
  returns (fat32_cluster_advance io b v c) (fun '(r, v') => match r with
    | Some c' => free_cluster (v_mem v) c' /\ holds (v_mem v') (l1 ++ ((l ++ [c]) ++ [c']) :: l2) /\
        frame (fun x => x = c \/ x = c') (v_mem v) (v_mem v')
    | None => v_mem v' = v_mem v /\ forall c, in_table b c -> ~ free_cluster (v_mem v) c
    end).
Proof.
  intros H. pose proof H as [G Hm Hmi HR Hch Hnd]. pose proof (g_copies _ _ G) as Hk. assert (1 <= fat_copies b) as Hk1 by lia. pose proof (g_total _ _ G) as Ht.
  destruct (files_apart _ _ _ Hnd) as (Hn1 & Hn2 & Hn3). rewrite Forall_app, Forall_cons in Hch. destruct Hch as (Hc1 & Hc & Hc2).
  assert (data_cluster c) as Hd by (destruct Hc as [Hd _]; apply Forall_app in Hd as [_ Hd]; by inversion_clear Hd).
  assert (JLOS_FAT32_CLUSTER_EOC <= fat_next b (v_mem v) c) as Hend.
  { destruct Hc as [_ Hl]. specialize (Hl (length l) c). rewrite list_lookup_middle in Hl by done. specialize (Hl eq_refl).
    rewrite lookup_ge_None_2 in Hl by (rewrite length_app; simpl; lia). done. }
  pose proof (get_next_spec v c G Hm (data_in_table _ Hd)) as E1. rewrite Hio in E1. unfold fat32_cluster_advance. bind E1.
  rewrite (proj2 (Z.ltb_ge _ _) Hend). destruct (alloc_holds (tick v) _ H) as ([r v1] & E2 & HA). bind E2.
  destruct r as [c'|]; [|by apply returns_ret]. destruct HA as (Hf & Hd' & Hni & H' & F). cbn [v_mem tick] in Hf, F.
  pose proof H' as [G' Hm' Hmi' HR' Hch' Hnd']. apply Forall_cons in Hch' as [Hcc' Hch'].
  destruct (fat_set_next_spec v1 c c' G' Hm' (data_in_table _ Hd)) as ([ok v2] & E3 & F2 & G2 & Hfl & Hs). bind E3.
  destruct ok; [|destruct (not_failed _ _ (Hfl eq_refl))]. apply returns_ret. specialize (Hs eq_refl).
  assert (Z.land c' JLOS_FAT32_CLUSTER_MASK = c') as Hmask.
  { change JLOS_FAT32_CLUSTER_MASK with (2 ^ 28 - 1). rewrite land_mask by lia. apply Z.mod_small. destruct Hd' as [Hd1 Hd2].
    unfold JLOS_FAT32_FIRST_DATA_CLUSTER, JLOS_FAT32_CLUSTER_EOC in *. lia. }
  rewrite Hmask in Hs. assert (frame (fun x => x = c \/ x = c') (v_mem v) (v_mem v2)) as F'.
  { apply (frame_mono _ _ _ _ (fat_frame_trans _ _ _ _ _ F F2)). intros x [<-|<-]; auto. }
  assert (c' ∉ l ++ [c]) as Hnl by (intros Hin; apply Hni; rewrite concat_mid; set_solver).
  assert (c <> c') as Hne by (intros <-; apply Hnl; set_solver).
  split_and!; [done| |done]. split.
  - by rewrite (frame_len _ _ _ F').
  - apply (fr_like _ _ _ F').
  - apply (mirrored_frame _ _ _ F2 Hmi' Hk1). intros x <-. by exists c'.
  - unfold free_cluster. destruct Hd as [Hd _]. unfold JLOS_FAT32_FIRST_DATA_CLUSTER in Hd. rewrite !(frame_next _ _ _ _ F2 Hk1) by (unfold in_table; lia). done.
  - apply Forall_app in Hch' as [HA1 HA2]. apply Forall_cons in HA2 as [_ HA2].
    assert (forall x, x ∈ concat (l1 ++ l2) -> c <> x) as Hout by (intros x Hx ->; apply (Hn3 x); [set_solver|done]).
    rewrite concat_app in Hout. apply Forall_app; split; [|constructor].
    + apply (chains_frame _ _ _ _ F2 Hk1 HA1). intros x Hx. apply Hout. set_solver.
    + apply (chain_snoc (v_mem v) _ l c c' F' Hk1 Hc Hn1 Hnl Hd'); [apply (Hs 0); lia|].
      rewrite (frame_next _ _ _ c' F2 Hk1 (data_in_table _ Hd')) by done. destruct Hcc' as [_ Hl]. exact (Hl 0%nat c' eq_refl).
    + apply (chains_frame _ _ _ _ F2 Hk1 HA2). intros x Hx. apply Hout. set_solver.
  - apply files_join; [|done|].
    + apply NoDup_app. split_and!; [done| |apply NoDup_singleton]. intros x Hx ->%list_elem_of_singleton. done.
    + intros x [Hx| ->%list_elem_of_singleton]%elem_of_app; [by apply Hn3|]. intros Hx. apply Hni. rewrite concat_mid. rewrite concat_app in Hx. set_solver.
Qed.
(** Before the end, the next cluster is returned and nothing changes. *)
Lemma advance_inner v files l i c c' : holds (v_mem v) files -> l ∈ files -> l !! i = Some c -> l !! S i = Some c' ->
  fat32_cluster_advance io b v c = Some (Some c', tick v).
Proof.
  intros [G Hm _ _ Hch _] Hl Hi Hi'. rewrite Forall_forall in Hch. destruct (Hch l Hl) as [Hd Hk]. rewrite Forall_forall in Hd.
  pose proof (get_next_spec v c G Hm (data_in_table _ (Hd c (list_elem_of_lookup_2 _ _ _ Hi)))) as E. rewrite Hio in E.
  specialize (Hk i c Hi). rewrite Hi' in Hk. rewrite Hk in E. unfold fat32_cluster_advance. bind E.
  pose proof (Hd c' (list_elem_of_lookup_2 _ _ _ Hi')) as [_ H2]. pose proof (g_total _ _ G).
  rewrite (proj2 (Z.ltb_lt c' JLOS_FAT32_CLUSTER_EOC)) by lia. done.
Qed.

(** The walk along a chain reads its entries. *)
Lemma walk_chain_spec m files l n : holds m files -> l ∈ files -> forall i v c, v_mem v = m -> l !! i = Some c ->
  returns (walk_chain io n b v c) (fun '(r, v') => v_mem v' = m /\ r = l !! (i + n)%nat).
Proof.
  intros H Hl. pose proof H as [G Hm _ _ Hch _]. rewrite Forall_forall in Hch. destruct (Hch l Hl) as [Hd Hk]. rewrite Forall_forall in Hd.
  pose proof (g_total _ _ G) as Ht. induction n as [|n IH]; intros i v c Em Hi; cbn [walk_chain].
  { apply returns_ret. by rewrite Nat.add_0_r. }
  pose proof (Hd c (list_elem_of_lookup_2 _ _ _ Hi)) as Hc. rewrite <- Em in G, Hm.
  pose proof (get_next_spec v c G Hm (data_in_table _ Hc)) as E. rewrite Hio, Em in E. bind E. specialize (Hk i c Hi).
  rewrite <- Nat.add_succ_comm. destruct (l !! S i) as [c'|] eqn:Ei.
  - subst c'. destruct (Hd _ (list_elem_of_lookup_2 _ _ _ Ei)) as [_ H2]. rewrite (proj2 (Z.leb_gt _ _)) by lia. by apply IH.
  - rewrite (proj2 (Z.leb_le _ _) Hk). apply returns_ret. split; [done|]. symmetry. apply lookup_ge_None_2.
    apply lookup_ge_None_1 in Ei. lia.
Qed.
(** The sector of a block of a file. *)
Definition block_sector (l : list Z) (iblock : Z) : option Z :=
  c ← l !! Z.to_nat (iblock `div` sectors_per_cluster b);
  Some (data_start b + sectors_per_cluster b * (c - 2) + iblock `mod` sectors_per_cluster b).
Lemma block_sector_data n l iblock s : geometry b n -> Forall data_cluster l -> block_sector l iblock = Some s ->
  data_start b <= s < data_start b + sectors_per_cluster b * total_clusters b.
Proof.
  intros G Hd H. unfold block_sector in H. destruct (l !! _) as [c|] eqn:E; [|done]. injection H as <-. pose proof (g_spc _ _ G).
  rewrite Forall_forall in Hd. destruct (Hd c (list_elem_of_lookup_2 _ _ _ E)) as [H1 H2]. unfold JLOS_FAT32_FIRST_DATA_CLUSTER in H1.
  pose proof (Z.mod_pos_bound iblock (sectors_per_cluster b) ltac:(lia)). nia.
Qed.
Lemma get_block_spec v files l head iblock : holds (v_mem v) files -> l ∈ files -> l !! 0%nat = Some head -> 0 <= iblock < 2 ^ 32 ->
  returns (fat32_get_block io b v head iblock) (fun '(r, v') => v_mem v' = v_mem v /\ r = block_sector l iblock).
Proof.
  intros H Hl Hh Hb. pose proof H as [G _ _ _ Hch _]. rewrite Forall_forall in Hch. destruct (Hch l Hl) as [Hd _].
  pose proof (g_spc _ _ G). unfold fat32_get_block. cbv zeta. rewrite u32_small by lia. pose proof Hd as Hd'. rewrite Forall_forall in Hd'.
  destruct (Hd' head (list_elem_of_lookup_2 _ _ _ Hh)) as [H1 _]. rewrite (proj2 (Z.ltb_ge _ _) H1).
  destruct (walk_chain_spec _ files l (Z.to_nat (iblock `div` sectors_per_cluster b)) H Hl 0%nat v head eq_refl Hh) as ([r v'] & E & Em & ->).
  bind E. simpl Nat.add in *. destruct (l !! Z.to_nat (iblock `div` sectors_per_cluster b)) as [c|] eqn:Ec; apply returns_ret; split; try done.
  - unfold block_sector. rewrite Ec. simpl. f_equal. pose proof (block_sector_data _ l iblock _ G Hd ltac:(unfold block_sector; rewrite Ec; done)) as Hs.
    pose proof (g_end _ _ G). unfold fat32_cluster_to_sector, JLOS_FAT32_FIRST_DATA_CLUSTER.
    destruct (Hd' c (list_elem_of_lookup_2 _ _ _ Ec)) as [Hc1 Hc2]. unfold JLOS_FAT32_FIRST_DATA_CLUSTER in Hc1.
    pose proof (Z.mod_pos_bound iblock (sectors_per_cluster b) ltac:(lia)). pose proof (g_start _ _ G). pose proof (g_data _ _ G). pose proof (g_size _ _ G). pose proof (g_copies _ _ G). pose proof (g_total _ _ G).
    assert (0 <= data_start b) by nia. assert (0 <= sectors_per_cluster b * (c - 2)) by nia. rewrite (u32_small (data_start b + _)) by lia. rewrite u32_small by lia. done.
  - unfold block_sector. by rewrite Ec.
Qed.
Lemma files_inj {A} (files : list (list A)) p q l l' c : NoDup (concat files) -> files !! p = Some l -> files !! q = Some l' -> c ∈ l -> c ∈ l' -> p = q.
Proof.
  revert p q. induction files as [|x files IH]; intros p q Hn Hp Hq Hc Hc'; [done|]. simpl in Hn. apply NoDup_app in Hn as (_ & Hd & Hn).
  assert (forall k y, files !! k = Some y -> c ∈ y -> c ∈ concat files) as Hin.
  { intros k y Hk Hy. apply list_elem_of_lookup_2 in Hk. apply list_elem_of_In, in_concat. exists y. by rewrite <- !list_elem_of_In. }
  destruct p as [|p], q as [|q]; simpl in Hp, Hq; [done| | |f_equal; by eapply IH].
  - injection Hp as ->. by destruct (Hd c Hc (Hin q l' Hq Hc')).
  - injection Hq as ->. by destruct (Hd c Hc' (Hin p l Hp Hc)).
Qed.
(** Blocks of files lie in different sectors. *)
Lemma block_sector_inj m files p q l l' i j s : holds m files -> files !! p = Some l -> files !! q = Some l' -> 0 <= i -> 0 <= j ->
  block_sector l i = Some s -> block_sector l' j = Some s -> p = q /\ i = j.
Proof.
  intros [G _ _ _ _ Hn] Hp Hq Hi Hj E E'. unfold block_sector in E, E'. pose proof (g_spc _ _ G) as Hs.
  destruct (l !! Z.to_nat (i `div` _)) as [c|] eqn:Ec; [|done]. destruct (l' !! Z.to_nat (j `div` _)) as [c'|] eqn:Ec'; [|done].
  injection E as E. injection E' as E'. pose proof (Z.mod_pos_bound i _ Hs). pose proof (Z.mod_pos_bound j _ Hs).
  assert (c = c') as <- by nia. assert (p = q) as <- by (eapply (files_inj files p q l l' c Hn Hp Hq); by eapply list_elem_of_lookup_2).
  split; [done|]. assert (l' = l) as -> by congruence.
  assert (NoDup l) as Hnl by (apply list_elem_of_split_length in Hp as (l1 & l2 & -> & _); by apply files_apart in Hn as [? _]).
  pose proof (NoDup_lookup _ _ _ _ Hnl Ec Ec') as Hij. pose proof (Z.div_pos i _ Hi Hs). pose proof (Z.div_pos j _ Hj Hs).
  rewrite (Z.div_mod i (sectors_per_cluster b)), (Z.div_mod j (sectors_per_cluster b)) by lia. nia.
Qed.
End all_pages.
End table.

(** ** The operations against the list of files *)

(** C10. Allocation takes a free data cluster that no file uses, marks it the end of a chain in
    every copy and leaves everything else as it was; it fails only when no cluster is
    free or a page could not be had, and then every file is as before. *)
Theorem fat_alloc_correct io b v files : holds b (v_mem v) files ->
  exists r v', fat32_alloc_cluster io b v = Some (r, v') /\ Forall (chain b (v_mem v')) files /\
    match r with
    | Some c => data_cluster b c /\ free_cluster b (v_mem v) c /\ (c ∉ concat files) /\ holds b (v_mem v') ([c] :: files) /\
        frame b (eq c) (v_mem v) (v_mem v')
    | None => frame b (free_cluster b (v_mem v)) (v_mem v) (v_mem v') /\
        (failed io v v' \/ v_mem v' = v_mem v /\ forall c, in_table b c -> ~ free_cluster b (v_mem v) c)
    end.
Proof.
  intros H. pose proof H as [G Hm _ _ Hch _]. pose proof (g_copies _ _ G). destruct (fat_alloc_spec io b v G Hm) as ([[c|] v'] & E & A); exists (Some c), v' || exists None, v'.
  - destruct (holds_alloc io b v files c v' H A) as (H1 & H2 & H3). destruct A as (_ & _ & Hf & _ & F).
    pose proof (h_chains _ _ _ H3) as Hc3. apply Forall_cons in Hc3 as [_ Hc3]. done.
  - destruct A as (_ & F & HA). split_and!; [done| |done|].
    + apply (chains_frame _ _ _ _ _ F); [lia|done|]. intros c Hc Hf. by apply (free_not_used b _ files c Hch Hf).
    + destruct HA as [HA|[Em Hno]]; [by left|right]. split; [done|]. intros c Hc. apply Hno; [apply Hc|done].
Qed.

(** C9. With every page available, moving on in a file goes to the next cluster of its chain or,
    at the end, adds a free cluster to it (or finds none and changes nothing), and freeing
    a file makes exactly its clusters free; the other files, the data, the agreement of the copies
    and the rest of the table stay. *)
Theorem fat_files_refine io b v l1 l l2 : (forall i, io i = true) -> holds b (v_mem v) (l1 ++ l :: l2) ->
  (forall i c, l !! i = Some c -> exists r v', fat32_cluster_advance io b v c = Some (r, v') /\
    match r, l !! S i with
    | Some c', Some next => c' = next /\ v_mem v' = v_mem v
    | Some c', None => free_cluster b (v_mem v) c' /\ holds b (v_mem v') (l1 ++ (l ++ [c']) :: l2) /\
        frame b (fun x => x = c \/ x = c') (v_mem v) (v_mem v')
    | None, next => next = None /\ v_mem v' = v_mem v /\ forall x, in_table b x -> ~ free_cluster b (v_mem v) x
    end) /\
  (forall head, l !! 0%nat = Some head -> exists v', fat32_free_cluster_chain io b v head = Some (true, v') /\
    holds b (v_mem v') (l1 ++ l2) /\ (forall c, c ∈ l -> free_cluster b (v_mem v') c) /\ frame b (.∈ l) (v_mem v) (v_mem v')).
Proof.
  intros Hio H. split.
  - intros i c Hi. destruct (l !! S i) as [next|] eqn:En.
    + exists (Some next), (tick v). split; [|done]. apply (advance_inner io b Hio v _ l i c next H); [|done|done].
      apply elem_of_app. right. apply elem_of_cons. by left.
    + assert (l = take i l ++ [c]) as El.
      { apply lookup_ge_None_1 in En. rewrite <- (take_S_r _ _ _ Hi). symmetry. by apply take_ge. }
      rewrite El in H. destruct (advance_last io b Hio v l1 (take i l) c l2 H) as ([r v'] & E & HA). rewrite <- El in HA.
      exists r, v'. split; [done|]. by destruct r.
  - intros head Hh. destruct l as [|x l]; [done|]. injection Hh as <-.
    destruct (free_chain_spec io b Hio v l1 x l l2 H) as ([ok v'] & E & -> & F & Hf & HH). exists v'. done.
Qed.

(** C37. With every page available, a block of a file is mapped to its place in the cluster that
    many clusters along the chain, inside the data of the volume, or to nothing beyond the
    end; no other block of this file and no block of another is mapped to the same sector. *)
Theorem fat_get_block_correct io b v files p l head iblock : (forall i, io i = true) -> holds b (v_mem v) files ->
  files !! p = Some l -> l !! 0%nat = Some head -> 0 <= iblock < 2 ^ 32 ->
  exists r v', fat32_get_block io b v head iblock = Some (r, v') /\ v_mem v' = v_mem v /\ r = block_sector b l iblock /\
    forall s, r = Some s -> data_start b <= s < data_start b + sectors_per_cluster b * total_clusters b /\
      forall q l' j, files !! q = Some l' -> 0 <= j -> block_sector b l' j = Some s -> q = p /\ j = iblock.
Proof.
  intros Hio H Hp Hh Hb. pose proof (list_elem_of_lookup_2 _ _ _ Hp) as Hl. pose proof H as [G _ _ _ Hch _]. rewrite Forall_forall in Hch.
  destruct (get_block_spec io b Hio v files l head iblock H Hl Hh Hb) as ([r v'] & E & Em & ->). exists (block_sector b l iblock), v'.
  split_and!; [done|done|done|]. intros s Es. split; [by apply (block_sector_data b _ l iblock s G (proj1 (Hch l Hl)))|].
  intros q l' j Hq Hj Ej. apply (block_sector_inj b (v_mem v) files q p l' l j iblock s H Hq Hp Hj ltac:(lia) Ej Es).
Qed.

(** ** A volume *)

Definition sample_sb : fat_sb := FatSb 512 1 2 4 2 512 1 2 6 1.
(** Entries 2 -> 5 -> 3, and 4, in both copies; 6 and 7 are free. *)
Definition sample_table : list Z :=
  concat (bytes32 <$> [0x0FFFFFF8; 0xFFFFFFFF; 5; 0x0FFFFFFF; 0x0FFFFFF8; 3; 0; 0xF0000000]) ++ replicate 480 0.
Definition sample_vol : vol :=
  Vol (replicate 1024 0 ++ sample_table ++ sample_table ++ replicate 4096 0) 0.
Lemma sample_holds : holds sample_sb (v_mem sample_vol) [[2; 5; 3]; [4]].
Proof.
  assert (forall c, 0 <= c < 8 -> c ∈ seqZ 0 8) as Hin by (intros c Hc; apply elem_of_seqZ; lia).
  split.
  - split; try done; try (vm_compute; intuition congruence).
  - apply Forall_forall. intros x Hx. apply list_elem_of_In in Hx.
    assert (forallb (fun x => (0 <=? x) && (x <? 256)) (v_mem sample_vol) = true) as HF by (vm_compute; done).
    rewrite forallb_forall in HF. specialize (HF x Hx). lia.
  - assert (forallb (fun k => forallb (fun c => fat_val sample_sb (v_mem sample_vol) k c =? fat_next sample_sb (v_mem sample_vol) c) (seqZ 0 8)) (seqZ 0 2) = true) as HF
      by (vm_compute; done).
    intros k c Hk Hc. rewrite forallb_forall in HF. specialize (HF k). rewrite forallb_forall in HF. apply Z.eqb_eq, HF; apply list_elem_of_In.
    + apply elem_of_seqZ. change (fat_copies sample_sb) with 2 in Hk. lia.
    + apply Hin, Hc.
  - assert (fat_next sample_sb (v_mem sample_vol) 0 = 0x0FFFFFF8) as E0 by (vm_compute; done).
    assert (fat_next sample_sb (v_mem sample_vol) 1 = 0x0FFFFFFF) as E1 by (vm_compute; done). unfold free_cluster. rewrite E0, E1. split; discriminate.
  - assert (fat_next sample_sb (v_mem sample_vol) 2 = 5) as E2 by (vm_compute; done).
    assert (fat_next sample_sb (v_mem sample_vol) 5 = 3) as E5 by (vm_compute; done).
    assert (fat_next sample_sb (v_mem sample_vol) 3 = 0x0FFFFFFF) as E3 by (vm_compute; done).
    assert (fat_next sample_sb (v_mem sample_vol) 4 = 0x0FFFFFF8) as E4 by (vm_compute; done).
    assert (forall c l, linked sample_sb (v_mem sample_vol) l ->
      match l with c' :: _ => fat_next sample_sb (v_mem sample_vol) c = c' | [] => JLOS_FAT32_CLUSTER_EOC <= fat_next sample_sb (v_mem sample_vol) c end ->
      linked sample_sb (v_mem sample_vol) (c :: l)) as Hcons.
    { intros c l Hl Hc [|i] x Hi; [injection Hi as <-; by destruct l|exact (Hl i x Hi)]. }
    assert (linked sample_sb (v_mem sample_vol) []) as Hnil by (intros i c Hi; discriminate Hi).
    assert (forall c, 2 <= c < 8 -> data_cluster sample_sb c) as Hd by (intros c Hc; exact Hc).
    apply Forall_cons. split; [|apply Forall_singleton]; (split; [repeat (constructor; [apply Hd; lia|]); constructor|]).
    + apply Hcons; [apply Hcons; [apply Hcons; [exact Hnil|rewrite E3; discriminate]|exact E5]|exact E2].
    + apply Hcons; [exact Hnil|rewrite E4; discriminate].
  - apply NoDup_ListNoDup. repeat constructor; simpl; lia.
Qed.
(** The chain grows by cluster 6; the sector of its second block is the one of cluster 5. *)
Example sample_advance : fst <$> fat32_cluster_advance (fun _ => true) sample_sb sample_vol 3 = Some (Some 6).
Proof. vm_compute. done. Qed.
Example sample_block : fst <$> fat32_get_block (fun _ => true) sample_sb sample_vol 2 1 = Some (Some 7).
Proof. vm_compute. done. Qed.

Lemma fat_alloc_correct_witness : exists r v', fat32_alloc_cluster (fun n => (n <? 3)%nat) sample_sb sample_vol = Some (r, v') /\
  Forall (chain sample_sb (v_mem v')) [[2; 5; 3]; [4]].
Proof.
  destruct (fat_alloc_correct (fun n => (n <? 3)%nat) sample_sb sample_vol _ sample_holds) as (r & v' & E & H & _). exists r, v'. split; assumption.
Defined.
Lemma fat_files_refine_witness : exists r v', fat32_cluster_advance (fun _ => true) sample_sb sample_vol 3 = Some (r, v') /\
  match r with Some c => holds sample_sb (v_mem v') [[2; 5; 3; c]; [4]] | None => True end.
Proof.
  destruct (fat_files_refine (fun _ => true) sample_sb sample_vol [] [2; 5; 3] [[4]] (fun _ => eq_refl) sample_holds) as [H _].
  destruct (H 2%nat 3 eq_refl) as (r & v' & E & HA). exists r, v'. split; [exact E|]. destruct r as [c|]; [|exact I]. exact (proj1 (proj2 HA)).
Defined.
Lemma fat_get_block_correct_witness : exists v', fat32_get_block (fun _ => true) sample_sb sample_vol 2 1 = Some (Some 7, v') /\ v_mem v' = v_mem sample_vol.
Proof.
  destruct (fat_get_block_correct (fun _ => true) sample_sb sample_vol _ 0 [2; 5; 3] 2 1 (fun _ => eq_refl) sample_holds eq_refl eq_refl ltac:(lia))
    as (r & v' & E & Em & Er & _). exists v'. split; [|exact Em]. rewrite E, Er. reflexivity.
Defined.
