(* ===== verification/FatName.v ===== *)
(** * Names in FAT32 directories ([fs/fat32.c], [common/stypes.h])

    A directory entry is its 32 bytes, a C string the list of its bytes without the
    terminator.  [None] is an access outside an entry or a buffer; [fat32_name_to_83]
    has a further [None] for -1.  A page of a directory is its list of entries; which
    pages there are, and whether one can be had, is the function [dir]. *)
From S2P Require Import Prelude Bytes FatTable.

Definition jlos_islower (c : Z) : bool := (97 <=? c) && (c <=? 122).
Definition jlos_isupper (c : Z) : bool := (65 <=? c) && (c <=? 90).
Definition jlos_isalpha (c : Z) : bool := jlos_islower c || jlos_isupper c.
Definition jlos_isdigit (c : Z) : bool := (48 <=? c) && (c <=? 57).
Definition jlos_isalnum (c : Z) : bool := jlos_isalpha c || jlos_isdigit c.
Definition jlos_tolower (c : Z) : Z := if jlos_isupper c then c + 32 else c.
Definition jlos_toupper (c : Z) : Z := if jlos_islower c then c - 32 else c.

Definition JLOS_FAT32_ATTR_LFN : Z := 0x0f.
Definition JLOS_FAT32_SHORT_NAME_LEN : Z := 8.
Definition JLOS_FAT32_SHORT_EXT_LEN : Z := 3.
Definition JLOS_FAT32_DIRENT_END : Z := 0x00.
Definition JLOS_FAT32_DIRENT_DELETED : Z := 0xE5.
Definition JLOS_FAT32_LFN_SEQ_LAST : Z := 0x40.
Definition JLOS_FAT32_LFN_CHARS_PER_ENTRY : Z := 13.
Definition JLOS_FAT32_LFN_NAME0_CHARS : Z := 5.
Definition JLOS_FAT32_LFN_NAME01_CHARS : Z := 11.
Definition JLOS_FAT32_DIRENT_SIZE : Z := 32.
Definition JLOS_FAT32_NAME_FILL : Z := 32.
Definition JLOS_VFS_NAME_MAX : Z := 255.

(** Offsets in [jlos_fat32_dirent_t] and in [jlos_fat32_lfn_entry_t]. *)
Definition DE_NAME : Z := 0.
Definition DE_EXT : Z := 8.
Definition DE_ATTR : Z := 11.
Definition DE_RESERVED : Z := 12.
Definition LFN_SEQ : Z := 0.
Definition LFN_NAME0 : Z := 1.
Definition LFN_ATTR : Z := 11.
Definition LFN_CHECKSUM : Z := 13.
Definition LFN_NAME1 : Z := 14.
Definition LFN_NAME2 : Z := 28.

(** ** Short names *)

(** The loops of [fat32_name_to_str] over [n] characters from [i] on. *)
Fixpoint copy_chars (n : nat) (de : list Z) (i bufsize : Z) (conv : Z -> Z) (buf : list Z) : option (list Z) :=
  match n with
  | O => Some buf
  | S n =>
    if zlen buf <? bufsize - 1 then
      c ← rd8 de i;
      copy_chars n de (i + 1) bufsize conv (if c =? JLOS_FAT32_NAME_FILL then buf else buf ++ [conv c])
    else Some buf
  end.
Fixpoint any_char (n : nat) (de : list Z) (i : Z) : option bool :=
  match n with
  | O => Some false
  | S n => c ← rd8 de i; if c =? JLOS_FAT32_NAME_FILL then any_char n de (i + 1) else Some true
  end.
Definition fat32_name_to_str (de : list Z) (bufsize : Z) : option (list Z) :=
  reserved ← rd8 de DE_RESERVED;
  let name_lower := negb (Z.land reserved 0x08 =? 0) in
  let ext_lower := negb (Z.land reserved 0x10 =? 0) in
  buf ← copy_chars (Z.to_nat JLOS_FAT32_SHORT_NAME_LEN) de DE_NAME bufsize (fun c => if name_lower then jlos_tolower c else c) [];
  has_ext ← any_char (Z.to_nat JLOS_FAT32_SHORT_EXT_LEN) de DE_EXT;
  if has_ext : bool then
    let buf := if zlen buf <? bufsize - 1 then buf ++ [46] else buf in
    copy_chars (Z.to_nat JLOS_FAT32_SHORT_EXT_LEN) de DE_EXT bufsize
      (fun c => if ext_lower && (65 <=? c) && (c <=? 90) then c + 32 else c) buf
  else Some buf.

Definition fat32_name_char_legal (c : Z) : bool := jlos_isalnum c || (c =? 95) || (c =? 45).
(** The loop over the characters, shared by the two functions below: the position of the
    dot, or [None] when they return early. *)
Fixpoint dot_scan (name : list Z) (i : Z) (dot : option Z) : option (option Z) :=
  match name with
  | [] => Some dot
  | c :: name =>
    if c =? 46 then
      match dot with
      | Some _ => None
      | None => if i =? 0 then None else dot_scan name (i + 1) (Some i)
      end
    else if fat32_name_char_legal c then dot_scan name (i + 1) dot else None
  end.
Definition base_of (name : list Z) (dot : option Z) : list Z := match dot with Some d => take (Z.to_nat d) name | None => name end.
Definition ext_of (name : list Z) (dot : option Z) : list Z := match dot with Some d => drop (Z.to_nat (d + 1)) name | None => [] end.
Definition mixed_case (s : list Z) : bool := existsb jlos_isupper s && existsb jlos_islower s.
Definition fat32_name_need_lfn (name : list Z) : bool :=
  match dot_scan name 0 None with
  | None => true
  | Some dot =>
    if zlen name =? 0 then true else
    let base := base_of name dot in let ext := ext_of name dot in
    if (JLOS_FAT32_SHORT_NAME_LEN <? zlen base) || (JLOS_FAT32_SHORT_EXT_LEN <? zlen ext) then true else
    if mixed_case base then true else mixed_case ext
  end.

(** The position of the last dot. *)
Fixpoint last_dot (name : list Z) (i : Z) (dot : option Z) : option Z :=
  match name with
  | [] => dot
  | c :: name => last_dot name (i + 1) (if c =? 46 then Some i else dot)
  end.
(** [n] characters of [s] from [i] on, [fill] behind its end. *)
Definition padded (n : nat) (s : list Z) (fill : Z -> Z) : list Z :=
  (fun i => match geti s (Z.of_nat i) with Some c => u8 (jlos_toupper c) | None => fill (Z.of_nat i) end) <$> seq 0 n.
Definition set_short (base ext : list Z) (de : list Z) : option (list Z) :=
  de ← write_run de DE_NAME base; write_run de DE_EXT ext.
Definition fat32_generate_short_name (name : list Z) (de : list Z) : option (list Z) :=
  let dot := last_dot name 0 None in
  let base := base_of name dot in let ext := ext_of name dot in
  let copy_base := if zlen base <? 6 then zlen base else 6 in
  set_short
    (padded 8 (take (Z.to_nat copy_base) base) (fun i => if i =? copy_base then 126 else if i =? copy_base + 1 then 49 else JLOS_FAT32_NAME_FILL))
    (padded 3 ext (fun _ => JLOS_FAT32_NAME_FILL)) de.

Definition fat32_name_to_83 (name : list Z) (de : list Z) : option (option (list Z)) :=
  match dot_scan name 0 None with
  | None => Some None
  | Some dot =>
    if (zlen name =? 0) || (JLOS_FAT32_SHORT_NAME_LEN + JLOS_FAT32_SHORT_EXT_LEN + 1 <? zlen name) then Some None else
    let base := base_of name dot in
    if JLOS_FAT32_SHORT_NAME_LEN <? zlen base then Some None else
    let ext := ext_of name dot in
    if JLOS_FAT32_SHORT_EXT_LEN <? zlen ext then Some None else
    de ← set_short (padded 8 base (fun _ => JLOS_FAT32_NAME_FILL)) (padded 3 ext (fun _ => JLOS_FAT32_NAME_FILL)) de;
    let reserved := Z.lor (if forallb jlos_islower base then 0x08 else 0) (if forallb jlos_islower ext then 0x10 else 0) in
    de ← wr8 de DE_RESERVED reserved;
    Some (Some de)
  end.

(** ** Long names *)

Definition fat32_lfn_get_char (lfn : list Z) (i : Z) : option Z :=
  if i <? JLOS_FAT32_LFN_NAME0_CHARS then rd16 lfn (LFN_NAME0 + 2 * i)
  else if i <? JLOS_FAT32_LFN_NAME01_CHARS then rd16 lfn (LFN_NAME1 + 2 * (i - JLOS_FAT32_LFN_NAME0_CHARS))
  else rd16 lfn (LFN_NAME2 + 2 * (i - JLOS_FAT32_LFN_NAME01_CHARS)).
Definition fat32_lfn_set_char (lfn : list Z) (i val : Z) : option (list Z) :=
  if i <? JLOS_FAT32_LFN_NAME0_CHARS then wr16 lfn (LFN_NAME0 + 2 * i) val
  else if i <? JLOS_FAT32_LFN_NAME01_CHARS then wr16 lfn (LFN_NAME1 + 2 * (i - JLOS_FAT32_LFN_NAME0_CHARS)) val
  else wr16 lfn (LFN_NAME2 + 2 * (i - JLOS_FAT32_LFN_NAME01_CHARS)) val.

(** The characters from [i] on; [false] when the loop returned. *)
Fixpoint extract_loop (n : nat) (lfn : list Z) (base i : Z) (lfn_buf : list Z) : option (bool * list Z) :=
  match n with
  | O => Some (true, lfn_buf)
  | S n =>
    ch ← fat32_lfn_get_char lfn i;
    if (ch =? 0) || (ch =? 0xFFFF) then lfn_buf ← seti lfn_buf (base + i) 0; Some (false, lfn_buf)
    else
      lfn_buf ← (if base + i <? JLOS_VFS_NAME_MAX then seti lfn_buf (base + i) (u8 ch) else Some lfn_buf);
      extract_loop n lfn base (i + 1) lfn_buf
  end.
Definition fat32_lfn_extract (lfn : list Z) (lfn_buf : list Z) : option (list Z) :=
  s ← rd8 lfn LFN_SEQ;
  let seq := Z.land s 0x1F in
  if (seq =? 0) || (20 <? seq) then Some lfn_buf else
  let base := (seq - 1) * JLOS_FAT32_LFN_CHARS_PER_ENTRY in
  let is_last := negb (Z.land s JLOS_FAT32_LFN_SEQ_LAST =? 0) in
  '(through, lfn_buf) ← extract_loop (Z.to_nat JLOS_FAT32_LFN_CHARS_PER_ENTRY) lfn base 0 lfn_buf;
  if (through : bool) && is_last && (base + JLOS_FAT32_LFN_CHARS_PER_ENTRY <? JLOS_VFS_NAME_MAX)
  then seti lfn_buf (base + JLOS_FAT32_LFN_CHARS_PER_ENTRY) 0 else Some lfn_buf.

Fixpoint checksum_loop (n : nat) (de : list Z) (i sum : Z) : option Z :=
  match n with
  | O => Some sum
  | S n => c ← rd8 de i; checksum_loop n de (i + 1) (u8 (Z.shiftl (Z.land sum 1) 7 + Z.shiftr sum 1 + c))
  end.
Definition fat32_lfn_checksum (de : list Z) : option Z := checksum_loop 11 de 0 0.

(** The characters of one entry, from [i] on. *)
Fixpoint build_chars (n : nat) (name : list Z) (base i : Z) (lfn : list Z) : option (list Z) :=
  match n with
  | O => Some lfn
  | S n =>
    let idx := base + i in
    v ← (if idx <? zlen name then c ← geti name idx; Some (u8 c) else Some (if idx =? zlen name then 0 else 0xFFFF));
    lfn ← fat32_lfn_set_char lfn i v;
    build_chars n name base (i + 1) lfn
  end.
Definition build_entry (name : list Z) (checksum num n : Z) : option (list Z) :=
  let lfn := replicate (Z.to_nat JLOS_FAT32_DIRENT_SIZE) 0 in
  let seq := u8 (n + 1) in
  let seq := if n =? num - 1 then Z.lor seq JLOS_FAT32_LFN_SEQ_LAST else seq in
  lfn ← wr8 lfn LFN_SEQ seq;
  lfn ← wr8 lfn LFN_ATTR JLOS_FAT32_ATTR_LFN;
  lfn ← wr8 lfn LFN_CHECKSUM checksum;
  build_chars (Z.to_nat JLOS_FAT32_LFN_CHARS_PER_ENTRY) name (n * JLOS_FAT32_LFN_CHARS_PER_ENTRY) 0 lfn.
(** The entries in the order of their numbers. *)
Definition fat32_lfn_build (name : list Z) (checksum : Z) : option (list (list Z)) :=
  let num := (zlen name + JLOS_FAT32_LFN_CHARS_PER_ENTRY - 1) `div` JLOS_FAT32_LFN_CHARS_PER_ENTRY in
  let num := if num =? 0 then 1 else num in
  mapM (build_entry name checksum num) (seqZ 0 num).

(** ** Scanning a directory *)

Inductive fat32_scan_verdict := FAT32_SCAN_MISS | FAT32_SCAN_HIT | FAT32_SCAN_STOP.
(** [fat32_dirent_hit_t]; [hit_long] is the long name when [has_lfn] is set. *)
Record fat32_dirent_hit := Hit { hit_de : list Z; hit_offset : Z; hit_long : option (list Z) }.
(** The string in a buffer. *)
Fixpoint until_nul (buf : list Z) : list Z :=
  match buf with [] => [] | c :: buf => if c =? 0 then [] else c :: until_nul buf end.
(** What [jlos_strlcpy] puts into a buffer of 256 bytes. *)
Definition name_copy (s : list Z) : list Z := take (Z.to_nat JLOS_VFS_NAME_MAX) s.

(** A match function gets the entry and the string of its long name. *)
Definition fat32_match_name (name : list Z) (de : list Z) (long_name : option (list Z)) : option fat32_scan_verdict :=
  first ← rd8 de DE_NAME;
  if first =? JLOS_FAT32_DIRENT_END then Some FAT32_SCAN_STOP else
  if first =? JLOS_FAT32_DIRENT_DELETED then Some FAT32_SCAN_MISS else
  dirent_name ← (match long_name with Some l => Some (name_copy l) | None => fat32_name_to_str de (JLOS_VFS_NAME_MAX + 1) end);
  Some (if bool_decide (dirent_name = name) then FAT32_SCAN_HIT else FAT32_SCAN_MISS).
(** [fat32_readdir_ctx_t]: [target] and [current]; the second component is [current] afterwards. *)
Definition fat32_match_entry_at (target current : Z) (de : list Z) : option (fat32_scan_verdict * Z) :=
  first ← rd8 de DE_NAME;
  if first =? JLOS_FAT32_DIRENT_END then Some (FAT32_SCAN_STOP, current) else
  if first =? JLOS_FAT32_DIRENT_DELETED then Some (FAT32_SCAN_MISS, current) else
  if current =? target then Some (FAT32_SCAN_HIT, current) else Some (FAT32_SCAN_MISS, u32 (current + 1)).

Section scan.
Context {C : Type} (matches : C -> list Z -> option (list Z) -> option (fat32_scan_verdict * C)) (dir : Z -> option (list (list Z))).
(** The entries of a page from number [entry_pos] on; [lfn] is the buffer while [lfn_valid] is set.  The
    result is the verdict with the hit, or the state in which the page was left. *)
Fixpoint scan_page (entries : list (list Z)) (entry_pos : Z) (lfn : option (list Z)) (ctx : C) :
    option ((fat32_scan_verdict * fat32_dirent_hit * C) + (option (list Z) * C)) :=
  match entries with
  | [] => Some (inr (lfn, ctx))
  | de :: entries =>
    attributes ← rd8 de DE_ATTR;
    first ← rd8 de DE_NAME;
    if (Z.land attributes JLOS_FAT32_ATTR_LFN =? JLOS_FAT32_ATTR_LFN) && negb (first =? JLOS_FAT32_DIRENT_DELETED) then
      lfn_buf ← fat32_lfn_extract de (match lfn with Some buf => buf | None => replicate (Z.to_nat (JLOS_VFS_NAME_MAX + 1)) 0 end);
      scan_page entries (u32 (entry_pos + 1)) (Some lfn_buf) ctx
    else
      let long_name := until_nul <$> lfn in
      '(v, ctx) ← matches ctx de long_name;
      match v with
      | FAT32_SCAN_MISS => scan_page entries (u32 (entry_pos + 1)) None ctx
      | _ => Some (inl (v, Hit de (u32 (entry_pos * JLOS_FAT32_DIRENT_SIZE)) (name_copy <$> long_name), ctx))
      end
  end.
(** The loop over the pages; [None] when [fuel] pages are not enough. *)
Fixpoint scan_pages (fuel : nat) (page_index entry_pos : Z) (lfn : option (list Z)) (ctx : C) : option (option (fat32_scan_verdict * fat32_dirent_hit) * C) :=
  match fuel with
  | O => None
  | S fuel =>
    match dir page_index with
    | None => Some (None, ctx)
    | Some entries =>
      r ← scan_page entries entry_pos lfn ctx;
      match r with
      | inl (v, hit, ctx) => Some (Some (v, hit), ctx)
      | inr (lfn, ctx) => scan_pages fuel (page_index + 1) (u32 (entry_pos + zlen entries)) lfn ctx
      end
    end
  end.
(** [None] inside is FAT32_SCAN_MISS. *)
Definition fat32_dir_scan (fuel : nat) (ctx : C) : option (option (fat32_scan_verdict * fat32_dirent_hit) * C) := scan_pages fuel 0 0 None ctx.
End scan.

(** The scan of [fat32_lookup_inner], [fat32_create_inner] and [fat32_unlink_inner]: the hit. *)
Definition find_name (dir : Z -> option (list (list Z))) (fuel : nat) (name : list Z) : option (option fat32_dirent_hit) :=
  '(r, _) ← fat32_dir_scan (fun _ de l => v ← fat32_match_name name de l; Some (v, ())) dir fuel ();
  Some (match r with Some (FAT32_SCAN_HIT, hit) => Some hit | _ => None end).
(** The scan of [fat32_readdir_inner], with the name it returns. *)
Definition entry_at (dir : Z -> option (list (list Z))) (fuel : nat) (pos : Z) : option (option (fat32_dirent_hit * list Z)) :=
  '(r, _) ← fat32_dir_scan (fun current de _ => fat32_match_entry_at pos current de) dir fuel 0;
  match r with
  | Some (FAT32_SCAN_HIT, hit) =>
    name ← (match hit_long hit with Some l => Some (name_copy l) | None => fat32_name_to_str (hit_de hit) (JLOS_VFS_NAME_MAX + 1) end);
    Some (Some (hit, name))
  | _ => Some None
  end.

Definition JLOS_FAT32_ATTR_ARCHIVE : Z := 0x20.
(** The entries [fat32_create_inner] writes for a name, in the order of the directory; [Some None] when it refuses the name. *)
Definition created_entries (name : list Z) : option (option (list (list Z))) :=
  de ← wr8 (replicate (Z.to_nat JLOS_FAT32_DIRENT_SIZE) 0) DE_ATTR JLOS_FAT32_ATTR_ARCHIVE;
  if fat32_name_need_lfn name then
    de ← fat32_generate_short_name name de;
    checksum ← fat32_lfn_checksum de;
    lfn_entries ← fat32_lfn_build name checksum;
    Some (Some (rev lfn_entries ++ [de]))
  else
    r ← fat32_name_to_83 name de;
    Some (match r with Some de => Some [de] | None => None end).
