(* ===== verification/FatNameInv.v ===== *)
(** * Names in FAT32 directories: round trips

    Long names come back from the entries they were stored in, short names from the
    8.3 form when their case is uniform; and what a lookup finds. *)
From S2P Require Import Prelude Bytes FatTable FatName.

(** ** Characters of an entry *)

Definition lfn_off (i : Z) : Z := if i <? 5 then 1 + 2 * i else if i <? 11 then 14 + 2 * (i - 5) else 28 + 2 * (i - 11).
Lemma get_char_off lfn i : fat32_lfn_get_char lfn i = rd16 lfn (lfn_off i).
Proof. unfold fat32_lfn_get_char, lfn_off, JLOS_FAT32_LFN_NAME0_CHARS, JLOS_FAT32_LFN_NAME01_CHARS. by zcases. Qed.
Lemma set_char_off lfn i v : fat32_lfn_set_char lfn i v = wr16 lfn (lfn_off i) v.
Proof. unfold fat32_lfn_set_char, lfn_off, JLOS_FAT32_LFN_NAME0_CHARS, JLOS_FAT32_LFN_NAME01_CHARS. by zcases. Qed.
Lemma lfn_off_range i : 0 <= i < 13 -> 1 <= lfn_off i <= 30 /\ lfn_off i <> 10 /\ lfn_off i <> 11 /\ lfn_off i <> 12 /\ lfn_off i <> 13.
Proof. unfold lfn_off. zcases; lia. Qed.
Lemma lfn_off_apart i j : 0 <= i < 13 -> 0 <= j < 13 -> i <> j -> lfn_off i + 2 <= lfn_off j \/ lfn_off j + 2 <= lfn_off i.
Proof. unfold lfn_off. zcases; lia. Qed.

(** The bytes that are no character. *)
Definition lfn_fixed (o : Z) : Prop := o = LFN_SEQ \/ o = LFN_ATTR \/ o = LFN_CHECKSUM.
Lemma set_char_spec lfn i v : length lfn = 32%nat -> 0 <= i < 13 -> 0 <= v < 2 ^ 16 ->
  returns (fat32_lfn_set_char lfn i v) (fun lfn' => length lfn' = 32%nat /\ fat32_lfn_get_char lfn' i = Some v /\
    (forall j, 0 <= j < 13 -> j <> i -> fat32_lfn_get_char lfn' j = fat32_lfn_get_char lfn j) /\
    (forall o, lfn_fixed o -> rd8 lfn' o = rd8 lfn o)).
Proof.
  intros Hl Hi Hv. rewrite set_char_off. pose proof (lfn_off_range i Hi) as Ho. unfold wr16.
  assert (exists lfn', write_run lfn (lfn_off i) (bytes16 v) = Some lfn') as [lfn' E].
  { rewrite write_run_Some by (simpl; lia). by eexists. }
  exists lfn'. split; [done|]. split_and!.
  - by rewrite (length_write_run _ _ _ _ E).
  - rewrite get_char_off. pose proof (geti_write_run_in _ _ _ _ 0 E ltac:(simpl; lia)) as K0.
    pose proof (geti_write_run_in _ _ _ _ 1 E ltac:(simpl; lia)) as K1. change (Z.of_nat 0) with 0 in K0. change (Z.of_nat 1) with 1 in K1.
    rewrite Z.add_0_r in K0. unfold rd16. rewrite K0, K1. cbn [bytes16 lookup list_lookup mbind option_bind]. f_equal. by apply le16_bytes.
  - intros j Hj Hne. rewrite !get_char_off. pose proof (lfn_off_apart i j Hi Hj ltac:(lia)). unfold rd16.
    rewrite !(geti_write_run_out _ _ _ _ _ E) by (change (zlen (bytes16 v)) with 2; lia). done.
  - intros o Hf. apply (geti_write_run_out _ _ _ _ _ E). change (zlen (bytes16 v)) with 2. unfold lfn_fixed, LFN_SEQ, LFN_ATTR, LFN_CHECKSUM in Hf.
    destruct Hf as [->|[->| ->]]; lia.
Qed.

(** What is stored for a position of a name. *)
Definition char_at (name : list Z) (idx : Z) : Z :=
  match geti name idx with Some c => c | None => if idx =? zlen name then 0 else 0xFFFF end.
(** The bytes of a C string. *)
Definition c_string (name : list Z) : Prop := Forall (fun c => 0 < c < 256) name.
Lemma c_string_char name i : c_string name -> 0 <= i < zlen name -> exists c, geti name i = Some c /\ 0 < c < 256.
Proof.
  intros Hn Hi. destruct (geti_Some name i Hi) as (c & E & Hc). exists c. split; [done|]. unfold c_string in Hn. rewrite Forall_forall in Hn.
  apply Hn. by apply list_elem_of_lookup_2 in Hc.
Qed.
Lemma geti_beyond {A} (l : list A) i : zlen l <= i -> geti l i = None.
Proof. intros Hi. unfold geti. destruct (Z.ltb_spec i 0); [done|]. apply lookup_ge_None_2. lia. Qed.

Lemma build_chars_spec name base n : c_string name -> 0 <= base -> forall i lfn, length lfn = 32%nat -> 0 <= i -> i + Z.of_nat n <= 13 ->
  returns (build_chars n name base i lfn) (fun lfn' => length lfn' = 32%nat /\
    (forall j, i <= j < i + Z.of_nat n -> fat32_lfn_get_char lfn' j = Some (char_at name (base + j))) /\
    (forall j, 0 <= j < i -> fat32_lfn_get_char lfn' j = fat32_lfn_get_char lfn j) /\
    (forall o, lfn_fixed o -> rd8 lfn' o = rd8 lfn o)).
Proof.
  intros Hn Hb. induction n as [|n IH]; intros i lfn Hl Hi Hin; cbn [build_chars].
  { apply returns_ret. split_and!; [done|lia|done|done]. }
  cbv zeta. assert ((if base + i <? zlen name then c ← geti name (base + i); Some (u8 c) else Some (if base + i =? zlen name then 0 else 65535)) =
    Some (char_at name (base + i)) /\ 0 <= char_at name (base + i) < 2 ^ 16) as [Ev Hv].
  { unfold char_at. destruct (Z.ltb_spec (base + i) (zlen name)).
    - destruct (c_string_char name (base + i) Hn ltac:(lia)) as (c & -> & Hc). simpl. rewrite u8_small by lia. split; [done|lia].
    - rewrite geti_beyond by lia. zcases; split; done || lia. }
  bind Ev. destruct (set_char_spec lfn i _ Hl ltac:(lia) Hv) as (lfn1 & E1 & Hl1 & Hg & Ho & Hf). bind E1.
  refine (returns_mono _ _ _ (IH (i + 1) lfn1 Hl1 _ _) _); [lia|lia|]. intros lfn2 (Hl2 & H1 & H2 & H3). split_and!.
  - done.
  - intros j Hj. destruct (decide (j = i)) as [->|]; [rewrite H2 by lia; done|]. apply H1. lia.
  - intros j Hj. rewrite H2 by lia. apply Ho; lia.
  - intros o Hof. rewrite H3, Hf by done. done.
Qed.

(** ** An entry as it is built *)

Record built (name : list Z) (checksum num n : Z) (e : list Z) : Prop := {
  b_len : length e = 32%nat;
  b_seq : rd8 e LFN_SEQ = Some (if n =? num - 1 then Z.lor (n + 1) JLOS_FAT32_LFN_SEQ_LAST else n + 1);
  b_attr : rd8 e LFN_ATTR = Some JLOS_FAT32_ATTR_LFN;
  b_sum : rd8 e LFN_CHECKSUM = Some (u8 checksum);
  b_char i : 0 <= i < 13 -> fat32_lfn_get_char e i = Some (char_at name (n * 13 + i))
}.
Lemma wr8_spec m o v : 0 <= o < zlen m -> exists m', wr8 m o v = Some m' /\ length m' = length m /\ rd8 m' o = Some (u8 v) /\ forall i, i <> o -> rd8 m' i = rd8 m i.
Proof.
  intros Ho. unfold wr8. rewrite seti_Some by done. eexists. split; [done|]. split; [apply length_insert|]. unfold rd8, geti. split.
  - destruct (Z.ltb_spec o 0); [lia|]. apply list_lookup_insert_eq. lia.
  - intros i Hi. destruct (Z.ltb_spec i 0); [done|]. apply list_lookup_insert_ne. lia.
Qed.
Lemma seq_bits n : 0 <= n < 20 -> 0 <= Z.lor (n + 1) JLOS_FAT32_LFN_SEQ_LAST < 256 /\ Z.land (Z.lor (n + 1) JLOS_FAT32_LFN_SEQ_LAST) 0x1F = n + 1 /\
  Z.land (n + 1) 0x1F = n + 1 /\ Z.land (Z.lor (n + 1) JLOS_FAT32_LFN_SEQ_LAST) JLOS_FAT32_LFN_SEQ_LAST = 64 /\ Z.land (n + 1) JLOS_FAT32_LFN_SEQ_LAST = 0.
Proof.
  intros Hn. assert (exists k, (k < 20)%nat /\ n = Z.of_nat k) as (k & Hk & ->) by (exists (Z.to_nat n); lia). clear Hn.
  do 20 (destruct k as [|k]; [vm_compute; intuition congruence|]). lia.
Qed.
Lemma build_entry_spec name checksum num n : c_string name -> 0 <= n < 20 -> returns (build_entry name checksum num n) (built name checksum num n).
Proof.
  intros Hn Hr. unfold build_entry. cbv zeta. rewrite u8_small by lia. change (Z.to_nat JLOS_FAT32_DIRENT_SIZE) with 32%nat.
  set (seq := if n =? num - 1 then _ else _).
  destruct (wr8_spec (replicate 32 0) LFN_SEQ seq ltac:(done)) as (m1 & E1 & L1 & R1 & O1). bind E1.
  destruct (wr8_spec m1 LFN_ATTR JLOS_FAT32_ATTR_LFN) as (m2 & E2 & L2 & R2 & O2); [by rewrite L1|]. bind E2.
  destruct (wr8_spec m2 LFN_CHECKSUM checksum) as (m3 & E3 & L3 & R3 & O3); [by rewrite L2, L1|]. bind E3.
  assert (length m3 = 32%nat) as Hl by (by rewrite L3, L2, L1).
  refine (returns_mono _ _ _ (build_chars_spec name (n * JLOS_FAT32_LFN_CHARS_PER_ENTRY) (Z.to_nat JLOS_FAT32_LFN_CHARS_PER_ENTRY) Hn _ 0 m3 Hl _ _) _);
    [unfold JLOS_FAT32_LFN_CHARS_PER_ENTRY; lia|lia|done|].
  intros e (He & Hc & _ & Hf). split.
  - done.
  - rewrite Hf by (by left). rewrite O3, O2, R1 by done. f_equal. apply u8_small. unfold seq.
    destruct (seq_bits n Hr) as (H1 & _). destruct (n =? num - 1); lia.
  - rewrite Hf by (right; by left). rewrite O3, R2 by done. done.
  - rewrite Hf by (by right; right). done.
  - intros i Hi. apply Hc. done.
Qed.

(** ** Reading a long name *)

(** The buffer of 256 bytes shows [f]. *)
Definition buf_shows (buf : list Z) (f : Z -> Z) : Prop := length buf = 256%nat /\ forall k, 0 <= k < 256 -> geti buf k = Some (f k).
Lemma buf_shows_ext buf f g : buf_shows buf f -> (forall k, 0 <= k < 256 -> f k = g k) -> buf_shows buf g.
Proof. intros [Hl H] Hfg. split; [done|]. intros k Hk. rewrite H, Hfg by done. done. Qed.
Lemma buf_shows_set buf f k v : buf_shows buf f -> 0 <= k < 256 -> returns (seti buf k v) (fun buf' => buf_shows buf' (fun j => if j =? k then v else f j)).
Proof.
  intros [Hl H] Hk. rewrite seti_Some by lia. apply returns_ret. split; [by rewrite length_insert|]. intros j Hj. unfold geti in *.
  destruct (Z.ltb_spec j 0); [lia|]. destruct (Z.eqb_spec j k) as [->|Hne]; [apply list_lookup_insert_eq; lia|].
  rewrite list_lookup_insert_ne by lia. specialize (H j Hj). destruct (Z.ltb_spec j 0); [lia|done].
Qed.
(** The name from position [lo] on and, once [i] characters of the entry at [base] are read, those. *)
Definition seen (name : list Z) (base i lo k : Z) : Z :=
  if (((base <=? k) && (k <? base + i)) || (lo <=? k)) && (k <? zlen name) then match geti name k with Some c => c | None => 0 end else 0.

Section extract.
Context (name : list Z) (Hn : c_string name) (Hlen : zlen name <= 255) (checksum num n : Z) (e : list Z) (Hb : built name checksum num n e).
Context (Hr : 0 <= n < 20) (Hpos : n * 13 < zlen name).
Lemma extract_loop_spec k : forall i buf, 0 <= i -> i + Z.of_nat k = 13 -> n * 13 + i <= zlen name -> buf_shows buf (seen name (n * 13) i (n * 13 + 13)) ->
  returns (extract_loop k e (n * 13) i buf) (fun '(through, buf') => buf_shows buf' (seen name (n * 13) 13 (n * 13 + 13)) /\
    (through = true -> n * 13 + 13 <= zlen name)).
Proof.
  induction k as [|k IH]; intros i buf Hi Hik Hle Hs; cbn [extract_loop].
  { apply returns_ret. replace i with 13 in * by lia. done. }
  pose proof (b_char _ _ _ _ _ Hb i ltac:(lia)) as Ec. bind Ec. unfold char_at in *. destruct (Z_lt_dec (n * 13 + i) (zlen name)) as [Hlt|Hge].
  - destruct (c_string_char name (n * 13 + i) Hn ltac:(lia)) as (c & Eg & Hc). rewrite Eg. rewrite (proj2 (Z.eqb_neq c 0)), (proj2 (Z.eqb_neq c 65535)) by lia.
    simpl orb. cbv iota. unfold JLOS_VFS_NAME_MAX. rewrite (proj2 (Z.ltb_lt _ _)) by lia. rewrite u8_small by lia.
    destruct (buf_shows_set buf _ (n * 13 + i) c Hs ltac:(lia)) as (buf1 & E1 & Hs1). bind E1. apply IH; [lia|lia|lia|].
    apply (buf_shows_ext _ _ _ Hs1). intros j Hj. unfold seen. destruct (Z.eqb_spec j (n * 13 + i)) as [->|Hne].
    + rewrite Eg. zcases; simpl; try lia; done.
    + zcases; simpl; try lia; done.
  - rewrite geti_beyond by lia. rewrite (proj2 (Z.eqb_eq (n * 13 + i) (zlen name))) by lia. simpl orb. cbv iota.
    destruct (buf_shows_set buf _ (n * 13 + i) 0 Hs ltac:(lia)) as (buf1 & E1 & Hs1). bind E1. apply returns_ret. split; [|done].
    apply (buf_shows_ext _ _ _ Hs1). intros j Hj. unfold seen. destruct (Z.eqb_spec j (n * 13 + i)) as [->|Hne]; zcases; simpl; try lia; done.
Qed.
Lemma extract_spec buf : (n = num - 1 -> zlen name <= n * 13 + 13) -> buf_shows buf (seen name 0 0 (n * 13 + 13)) ->
  returns (fat32_lfn_extract e buf) (fun buf' => buf_shows buf' (seen name 0 0 (n * 13))).
Proof.
  intros Hlast Hs. pose proof (b_seq _ _ _ _ _ Hb) as Eq. unfold fat32_lfn_extract. bind Eq. destruct (seq_bits n Hr) as (_ & S1 & S2 & S3 & S4).
  assert (Z.land (if n =? num - 1 then Z.lor (n + 1) JLOS_FAT32_LFN_SEQ_LAST else n + 1) 31 = n + 1) as -> by (by destruct (n =? num - 1)).
  rewrite (proj2 (Z.eqb_neq (n + 1) 0)), (proj2 (Z.ltb_ge 20 (n + 1))) by lia. simpl orb. cbv iota. replace (n + 1 - 1) with n by lia.
  change JLOS_FAT32_LFN_CHARS_PER_ENTRY with 13 in *.
  destruct (extract_loop_spec 13 0 buf ltac:(lia) ltac:(lia) ltac:(lia)) as ([through buf1] & E & Hs1 & Hth).
  { apply (buf_shows_ext _ _ _ Hs). intros j Hj. unfold seen. zcases; simpl; try lia; done. }
  change (Z.to_nat 13) with 13%nat. bind E.
  assert (buf_shows buf1 (seen name 0 0 (n * 13))) as Hs2.
  { apply (buf_shows_ext _ _ _ Hs1). intros j Hj. unfold seen. zcases; simpl; try lia; done. }
  destruct (through && _ && _) eqn:Et; [|by apply returns_ret]. rewrite !andb_true_iff in Et. destruct Et as [[-> El] Ej].
  unfold JLOS_VFS_NAME_MAX in Ej. destruct (Z.eqb_spec n (num - 1)) as [Ex|]; [|rewrite S4 in El; done].
  specialize (Hth eq_refl). specialize (Hlast Ex). apply Z.ltb_lt in Ej.
  refine (returns_mono _ _ _ (buf_shows_set buf1 _ (n * 13 + 13) 0 Hs2 _) _); [lia|]. intros buf2 Hs3. apply (buf_shows_ext _ _ _ Hs3).
  intros j Hj. unfold seen. destruct (Z.eqb_spec j (n * 13 + 13)) as [->|]; zcases; simpl; try lia; done.
Qed.
End extract.

(** ** Short names *)

Lemma padded_length n s f : length (padded n s f) = n.
Proof. unfold padded. by rewrite length_fmap, length_seq. Qed.
Lemma padded_lookup n s f j : (j < n)%nat ->
  padded n s f !! j = Some (match s !! j with Some c => u8 (jlos_toupper c) | None => f (Z.of_nat j) end).
Proof.
  intros Hj. unfold padded. rewrite list_lookup_fmap, lookup_seq_lt by done. simpl. unfold geti.
  destruct (Z.ltb_spec (Z.of_nat j) 0); [lia|]. by rewrite Nat2Z.id.
Qed.
Lemma set_short_spec base ext de : length de = 32%nat -> length base = 8%nat -> length ext = 3%nat ->
  returns (set_short base ext de) (fun de' => length de' = 32%nat /\ (forall j, (j < 8)%nat -> rd8 de' (DE_NAME + Z.of_nat j) = base !! j) /\
    (forall j, (j < 3)%nat -> rd8 de' (DE_EXT + Z.of_nat j) = ext !! j) /\ (forall o, 11 <= o -> rd8 de' o = rd8 de o)).
Proof.
  intros Hd Hb He. unfold set_short. assert (exists d1, write_run de DE_NAME base = Some d1) as [d1 E1].
  { rewrite write_run_Some by (unfold DE_NAME; lia). by eexists. }
  pose proof (length_write_run _ _ _ _ E1) as L1. bind E1. assert (exists d2, write_run d1 DE_EXT ext = Some d2) as [d2 E2].
  { rewrite write_run_Some by (unfold DE_EXT; lia). by eexists. }
  exists d2. split; [done|]. pose proof (length_write_run _ _ _ _ E2) as L2. unfold rd8, DE_NAME, DE_EXT in *. split_and!.
  - congruence.
  - intros j Hj. rewrite (geti_write_run_out _ _ _ _ _ E2) by lia. apply (geti_write_run_in _ _ _ _ _ E1). lia.
  - intros j Hj. apply (geti_write_run_in _ _ _ _ _ E2). lia.
  - intros o Ho. rewrite (geti_write_run_out _ _ _ _ _ E2), (geti_write_run_out _ _ _ _ _ E1) by lia. done.
Qed.

(** The characters read from a padded field. *)
Definition upper (s : list Z) : list Z := jlos_toupper <$> s.
Definition legal_chars (s : list Z) : Prop := Forall (fun c => fat32_name_char_legal c = true) s.
Lemma legal_char c : fat32_name_char_legal c = true -> 32 < c < 128 /\ c <> 46 /\ 32 < jlos_toupper c < 128.
Proof.
  unfold fat32_name_char_legal, jlos_isalnum, jlos_isalpha, jlos_isdigit, jlos_toupper, jlos_islower, jlos_isupper.
  zcases; simpl; intros; try discriminate; lia.
Qed.
Section field.
Context (de : list Z) (off : Z) (N : nat) (s : list Z) (Hs : legal_chars s) (Hle : (length s <= N)%nat) (fill : Z -> Z) (Hfill : forall i, fill i = 32).
Context (Hde : forall j, (j < N)%nat -> rd8 de (off + Z.of_nat j) = padded N s fill !! j).
Lemma field_char j : (j < N)%nat -> rd8 de (off + Z.of_nat j) = Some (match s !! j with Some c => jlos_toupper c | None => 32 end).
Proof.
  intros Hj. rewrite Hde, padded_lookup by done. destruct (s !! j) as [c|] eqn:Ec; [|by rewrite Hfill].
  apply list_elem_of_lookup_2 in Ec. unfold legal_chars in Hs. rewrite Forall_forall in Hs. apply Hs, legal_char in Ec. f_equal. apply u8_small. lia.
Qed.
Lemma copy_chars_spec conv bufsize n : forall i buf, (i + n = N)%nat -> zlen buf + Z.of_nat n < bufsize ->
  copy_chars n de (off + Z.of_nat i) bufsize conv buf = Some (buf ++ (conv <$> upper (drop i s))).
Proof.
  induction n as [|n IH]; intros i buf Hi Hb; cbn [copy_chars].
  { rewrite drop_ge by lia. by rewrite app_nil_r. }
  rewrite (proj2 (Z.ltb_lt _ _)) by lia. rewrite field_char by lia. cbn [mbind option_bind].
  replace (off + Z.of_nat i + 1) with (off + Z.of_nat (S i)) by lia. destruct (s !! i) as [c|] eqn:Ec.
  - pose proof Ec as Hin. apply list_elem_of_lookup_2 in Hin. unfold legal_chars in Hs. rewrite Forall_forall in Hs. apply Hs, legal_char in Hin.
    unfold JLOS_FAT32_NAME_FILL. rewrite (proj2 (Z.eqb_neq _ _)) by lia. rewrite IH by (rewrite ?length_app; simpl; lia).
    rewrite (drop_S _ _ _ Ec). simpl. by rewrite <- app_assoc.
  - simpl. apply lookup_ge_None_1 in Ec. rewrite IH by lia. rewrite !drop_ge by lia. done.
Qed.
Lemma any_char_spec n : forall i, (i + n = N)%nat -> any_char n de (off + Z.of_nat i) = Some (bool_decide (drop i s <> [])).
Proof.
  induction n as [|n IH]; intros i Hi; cbn [any_char].
  { rewrite drop_ge by lia. done. }
  rewrite field_char by lia. cbn [mbind option_bind]. replace (off + Z.of_nat i + 1) with (off + Z.of_nat (S i)) by lia. destruct (s !! i) as [c|] eqn:Ec.
  - pose proof Ec as Hin. apply list_elem_of_lookup_2 in Hin. unfold legal_chars in Hs. rewrite Forall_forall in Hs. apply Hs, legal_char in Hin.
    unfold JLOS_FAT32_NAME_FILL. rewrite (proj2 (Z.eqb_neq _ _)) by lia. by rewrite (drop_S _ _ _ Ec).
  - simpl. apply lookup_ge_None_1 in Ec. rewrite IH by lia. rewrite !drop_ge by lia. done.
Qed.
End field.

(** A part of a name whose letters have one case that the flag keeps. *)
Definition uniform (s : list Z) : bool := forallb jlos_islower s || negb (existsb jlos_islower s).
Lemma case_kept s : uniform s = true -> (fun c => if forallb jlos_islower s then jlos_tolower c else c) <$> upper s = s.
Proof.
  unfold uniform, upper. intros Hu. rewrite <- list_fmap_compose. rewrite <- (list_fmap_id s) at 2. apply list_fmap_ext. intros i c Hi.
  apply list_elem_of_lookup_2, list_elem_of_In in Hi. simpl. destruct (forallb jlos_islower s) eqn:El.
  - rewrite forallb_forall in El. specialize (El c Hi). unfold jlos_tolower, jlos_toupper. rewrite El. unfold jlos_islower, jlos_isupper in *.
    destruct (Z.leb_spec 97 c), (Z.leb_spec c 122); try discriminate. zcases; simpl; lia.
  - simpl in Hu. apply negb_true_iff in Hu. unfold jlos_toupper. destruct (jlos_islower c) eqn:Ec; [|done]. exfalso.
    assert (existsb jlos_islower s = true) by (apply existsb_exists; eauto). congruence.
Qed.
Lemma dot_scan_spec name : forall i dot d, dot_scan name i dot = Some d -> 0 <= i ->
  match dot with
  | Some k => d = Some k /\ legal_chars name
  | None => (d = None /\ legal_chars name) \/ (exists base ext, name = base ++ 46 :: ext /\ d = Some (i + zlen base) /\ 0 < i + zlen base /\ legal_chars base /\ legal_chars ext)
  end.
Proof.
  induction name as [|c name IH]; intros i dot d H Hi; simpl in H.
  { injection H as <-. destruct dot; [by split; [|constructor]|]. left. split; [done|constructor]. }
  destruct (Z.eqb_spec c 46) as [->|Hc].
  - destruct dot; [done|]. destruct (Z.eqb_spec i 0); [done|]. destruct (IH _ _ _ H ltac:(lia)) as [-> Hl]. right. exists [], name.
    split_and!; [done|f_equal; simpl; lia|simpl; lia|constructor|done].
  - destruct (fat32_name_char_legal c) eqn:El; [|done]. specialize (IH _ _ _ H ltac:(lia)). destruct dot.
    + destruct IH as [-> Hl]. split; [done|by constructor].
    + destruct IH as [[-> Hl]|(base & ext & -> & -> & Hp & Hb & He)]; [left; split; [done|by constructor]|right]. exists (c :: base), ext.
      split_and!; [done|f_equal; simpl; lia|simpl; lia|by constructor|done].
Qed.

(** A name without a long entry whose case the flags keep and which does not end in a dot. *)
Definition short_kept (name : list Z) : bool :=
  negb (fat32_name_need_lfn name) &&
  match dot_scan name 0 None with
  | Some dot => uniform (base_of name dot) && uniform (ext_of name dot) && (bool_decide (dot = None) || bool_decide (ext_of name dot <> []))
  | None => false
  end.
(** The two parts of a name. *)
Lemma name_parts name dot : dot_scan name 0 None = Some dot -> name <> [] ->
  legal_chars (base_of name dot) /\ legal_chars (ext_of name dot) /\ base_of name dot <> [] /\
  name = base_of name dot ++ (if bool_decide (dot = None) then [] else 46 :: ext_of name dot) /\ (dot = None -> ext_of name dot = []).
Proof.
  intros H Hne. destruct (dot_scan_spec name 0 None dot H ltac:(lia)) as [[-> Hl]|(base & ext & -> & -> & Hp & Hb & He)].
  - simpl. split_and!; [done|constructor|done|by rewrite app_nil_r|done].
  - unfold base_of, ext_of. rewrite take_app_length' by lia. replace (Z.to_nat (0 + zlen base + 1)) with (S (length base)) by lia.
    assert (drop (S (length base)) (base ++ 46 :: ext) = ext) as ->.
    { rewrite drop_app_ge by lia. replace (S (length base) - length base)%nat with 1%nat by lia. done. }
    split_and!; [done|done|by intros ->|done|done].
Qed.
Lemma reserved_bits (x y : bool) :
  negb (Z.land (u8 (Z.lor (if x then 0x08 else 0) (if y then 0x10 else 0))) 0x08 =? 0) = x /\
  negb (Z.land (u8 (Z.lor (if x then 0x08 else 0) (if y then 0x10 else 0))) 0x10 =? 0) = y.
Proof. destruct x, y; done. Qed.
(** The two fields and the flags as [fat32_name_to_83] sets them. *)
Record short_fields (base ext de : list Z) : Prop := {
  sf_name j : (j < 8)%nat -> rd8 de (DE_NAME + Z.of_nat j) = padded 8 base (fun _ => JLOS_FAT32_NAME_FILL) !! j;
  sf_ext j : (j < 3)%nat -> rd8 de (DE_EXT + Z.of_nat j) = padded 3 ext (fun _ => JLOS_FAT32_NAME_FILL) !! j;
  sf_flags : rd8 de DE_RESERVED = Some (u8 (Z.lor (if forallb jlos_islower base then 0x08 else 0) (if forallb jlos_islower ext then 0x10 else 0)))
}.
Lemma to_str_spec base ext de : short_fields base ext de -> legal_chars base -> legal_chars ext -> zlen base <= 8 -> zlen ext <= 3 ->
  uniform base = true -> uniform ext = true -> fat32_name_to_str de 256 = Some (base ++ if bool_decide (ext <> []) then 46 :: ext else []).
Proof.
  intros [N X R] Hb He Lb Le Hub Hue. unfold fat32_name_to_str. rewrite R. cbn [mbind option_bind].
  destruct (reserved_bits (forallb jlos_islower base) (forallb jlos_islower ext)) as [-> ->].
  pose proof (copy_chars_spec de DE_NAME 8 base Hb ltac:(lia) _ (fun _ => eq_refl) N (fun c => if forallb jlos_islower base then jlos_tolower c else c) 256 8 0 [] eq_refl ltac:(simpl; lia)) as Ec.
  rewrite Z.add_0_r in Ec. change (Z.to_nat JLOS_FAT32_SHORT_NAME_LEN) with 8%nat. change (Z.to_nat JLOS_FAT32_SHORT_EXT_LEN) with 3%nat. rewrite Ec. cbn [mbind option_bind].
  pose proof (any_char_spec de DE_EXT 3 ext He ltac:(lia) _ (fun _ => eq_refl) X 3 0 eq_refl) as Ea. rewrite Z.add_0_r in Ea. rewrite Ea. cbn [mbind option_bind].
  rewrite !drop_0, app_nil_l, case_kept by done. destruct (bool_decide (ext <> [])); [|by rewrite app_nil_r].
  rewrite (proj2 (Z.ltb_lt _ _)) by lia.
  pose proof (copy_chars_spec de DE_EXT 3 ext He ltac:(lia) _ (fun _ => eq_refl) X (fun c => if forallb jlos_islower ext && (65 <=? c) && (c <=? 90) then c + 32 else c) 256 3 0
    (base ++ [46]) eq_refl ltac:(rewrite length_app; simpl; lia)) as Ex.
  rewrite Z.add_0_r in Ex. rewrite Ex, drop_0. f_equal. rewrite <- app_assoc. f_equal. simpl. f_equal.
  rewrite <- (case_kept ext Hue) at 2. apply list_fmap_ext. intros i c _. unfold jlos_tolower, jlos_isupper.
  destruct (forallb jlos_islower ext); [|done]. by destruct (Z.leb_spec 65 c), (Z.leb_spec c 90).
Qed.
Lemma to_83_spec name de : fat32_name_need_lfn name = false -> length de = 32%nat ->
  exists de', fat32_name_to_83 name de = Some (Some de') /\ length de' = 32%nat /\ rd8 de' DE_ATTR = rd8 de DE_ATTR /\
    (exists c, rd8 de' DE_NAME = Some c /\ 32 < c < 128) /\ (short_kept name = true -> fat32_name_to_str de' 256 = Some name).
Proof.
  intros Hnl Hde. unfold short_kept. rewrite Hnl. unfold fat32_name_need_lfn, fat32_name_to_83 in *. destruct (dot_scan name 0 None) as [dot|] eqn:Ed; [|done].
  destruct (Z.eqb_spec (zlen name) 0); [done|]. assert (name <> []) as Hne by (by intros ->).
  destruct (name_parts name dot Ed Hne) as (Hb & He & Hbn & Ename & Hdn). set (base := base_of name dot) in *. set (ext := ext_of name dot) in *.
  unfold JLOS_FAT32_SHORT_NAME_LEN, JLOS_FAT32_SHORT_EXT_LEN in *.
  destruct (Z.ltb_spec 8 (zlen base)); [done|]. destruct (Z.ltb_spec 3 (zlen ext)); [done|].
  assert (zlen name <= 12) as Hl12. { rewrite Ename, length_app. destruct (bool_decide _); simpl; lia. }
  cbv zeta. destruct (Z.ltb_spec (8 + 3 + 1) (zlen name)); [lia|]. cbn [orb].
  destruct (set_short_spec (padded 8 base (fun _ => JLOS_FAT32_NAME_FILL)) (padded 3 ext (fun _ => JLOS_FAT32_NAME_FILL)) de Hde (padded_length _ _ _) (padded_length _ _ _)) as (d1 & E1 & L1 & N1 & X1 & O1).
  rewrite E1. cbn [mbind option_bind].
  destruct (wr8_spec d1 DE_RESERVED (Z.lor (if forallb jlos_islower base then 0x08 else 0) (if forallb jlos_islower ext then 0x10 else 0))) as (d2 & E2 & L2 & R2 & O2);
    [rewrite L1; done|].
  rewrite E2. cbn [mbind option_bind]. exists d2. split; [done|]. split; [congruence|]. split; [rewrite O2, O1 by done; done|].
  assert (short_fields base ext d2) as SF.
  { split; [| |done].
    - intros j Hj. rewrite O2 by (unfold DE_NAME, DE_RESERVED; lia). by apply N1.
    - intros j Hj. rewrite O2 by (unfold DE_EXT, DE_RESERVED; lia). by apply X1. }
  split.
  - pose proof (field_char d2 DE_NAME 8 base Hb ltac:(lia) _ (fun _ => eq_refl) (sf_name _ _ _ SF) 0 ltac:(lia)) as Hc. destruct base as [|c base']; [done|].
    eexists. split; [exact Hc|]. inversion_clear Hb as [|? ? Hcl]. apply legal_char in Hcl. simpl. lia.
  - intros Hk. cbn [negb andb] in Hk. rewrite !andb_true_iff in Hk. destruct Hk as [[Hub Hue] Hdot].
    rewrite (to_str_spec base ext d2 SF) by done. f_equal. rewrite Ename. destruct (bool_decide (dot = None)) eqn:Edn.
    + apply bool_decide_eq_true in Edn. rewrite bool_decide_eq_false_2 by (intros E; by apply E, Hdn). done.
    + simpl in Hdot. by rewrite Hdot.
Qed.

(** ** Scans *)

Section scan_lemmas.
Context {C : Type} (matches : C -> list Z -> option (list Z) -> option (fat32_scan_verdict * C)).
Lemma scan_page_app l1 l2 : forall pos lfn ctx,
  scan_page matches (l1 ++ l2) pos lfn ctx =
  (r ← scan_page matches l1 pos lfn ctx;
   match r with inl h => Some (inl h) | inr (lfn, ctx) => scan_page matches l2 (if bool_decide (l1 = []) then pos else u32 (pos + zlen l1)) lfn ctx end).
Proof.
  induction l1 as [|de l1 IH]; intros pos lfn ctx; [done|].
  assert (forall p lfn ctx, (r ← scan_page matches l1 (u32 (p + 1)) lfn ctx;
      match r with inl h => Some (inl h) | inr (lfn, ctx) => scan_page matches l2 (if bool_decide (l1 = []) then u32 (p + 1) else u32 (u32 (p + 1) + zlen l1)) lfn ctx end) =
     (r ← scan_page matches l1 (u32 (p + 1)) lfn ctx;
      match r with inl h => Some (inl h) | inr (lfn, ctx) => scan_page matches l2 (u32 (p + zlen (de :: l1))) lfn ctx end)) as Hpos.
  { intros p lf cx. destruct (scan_page matches l1 _ lf cx) as [[h|[lf' cx']]|]; [done| |done]. simpl mbind. f_equal.
    destruct (bool_decide (l1 = [])) eqn:E; [apply bool_decide_eq_true in E; by subst|]. rewrite u32_add_l. f_equal. simpl length. lia. }
  cbn [app scan_page]. destruct (rd8 de DE_ATTR) as [a|]; [|done]. destruct (rd8 de DE_NAME) as [f|]; [|done]. cbn [mbind option_bind].
  rewrite bool_decide_eq_false_2 by done. destruct (_ && _).
  - destruct (fat32_lfn_extract de _) as [buf|]; [|done]. cbn [mbind option_bind]. rewrite IH. apply Hpos.
  - cbv zeta. destruct (matches ctx de _) as [[v cx]|]; [|done]. cbn [mbind option_bind]. destruct v; [|done|done]. rewrite IH. apply Hpos.
Qed.
(** Scanning the pages is scanning their entries one after the other. *)
Lemma scan_pages_concat (dir : Z -> option (list (list Z))) pages : forall i fuel pos lfn ctx, 0 <= i ->
  (forall k, dir (i + Z.of_nat k) = pages !! k) -> Forall (fun p => p <> []) pages -> (length pages < fuel)%nat -> 0 <= pos < 2 ^ 32 ->
  scan_pages matches dir fuel i pos lfn ctx =
  (r ← scan_page matches (concat pages) pos lfn ctx;
   Some (match r with inl (v, h, ctx) => (Some (v, h), ctx) | inr (_, ctx) => (None, ctx) end)).
Proof.
  induction pages as [|p pages IH]; intros i fuel pos lfn ctx Hi Hd Hne Hf Hp; (destruct fuel as [|fuel]; [simpl in Hf; lia|]); cbn [scan_pages].
  { specialize (Hd 0%nat). rewrite Z.add_0_r in Hd. rewrite Hd. done. }
  pose proof (Hd 0%nat) as Hd0. rewrite Z.add_0_r in Hd0. rewrite Hd0. simpl concat. cbn [lookup list_lookup]. rewrite scan_page_app.
  apply Forall_cons in Hne as [Hpn Hne]. destruct (scan_page matches p pos lfn ctx) as [[[[v h] cx]|[lfn' cx]]|]; [done| |done]. cbn [mbind option_bind].
  rewrite bool_decide_eq_false_2 by done. apply IH; [lia| |done|simpl in Hf; lia|apply u32_range].
  intros k. change (pages !! k) with ((p :: pages) !! S k). rewrite <- Hd. f_equal. lia.
Qed.
End scan_lemmas.

Lemma until_nul_spec name buf : c_string name -> zlen name < 256 -> buf_shows buf (seen name 0 0 0) -> until_nul buf = name.
Proof.
  intros Hn Hlt [Hl Hs]. assert (take (length name) buf = name) as Ht.
  { apply list_eq_same_length with (length name); [done|rewrite length_take; lia|]. intros i x y Hi Hx Hy. rewrite lookup_take_lt in Hx by lia.
    specialize (Hs (Z.of_nat i) ltac:(lia)). unfold geti, seen in Hs. destruct (Z.ltb_spec (Z.of_nat i) 0); [lia|]. rewrite Nat2Z.id, Hx in Hs.
    rewrite (proj2 (Z.leb_le 0 (Z.of_nat i))), (proj2 (Z.ltb_lt (Z.of_nat i) (zlen name))), orb_true_r in Hs by lia.
    unfold geti in Hs. destruct (Z.ltb_spec (Z.of_nat i) 0); [lia|]. rewrite Nat2Z.id, Hy in Hs. simpl in Hs. congruence. }
  assert (buf !! length name = Some 0) as Hz.
  { specialize (Hs (zlen name) ltac:(lia)). unfold geti, seen in Hs. destruct (Z.ltb_spec (zlen name) 0); [lia|]. rewrite Nat2Z.id in Hs.
    rewrite Hs, (Z.ltb_irrefl (zlen name)), andb_false_r. done. }
  rewrite <- (take_drop_middle _ _ _ Hz), Ht. generalize (drop (S (length name)) buf). intros rest. clear - Hn. induction Hn as [|c name Hc _ IH]; [done|]. simpl.
  rewrite (proj2 (Z.eqb_neq c 0)) by lia. by rewrite IH.
Qed.

Lemma returns_mapM {A B} (f : A -> option B) (P : A -> B -> Prop) l : (forall x, x ∈ l -> returns (f x) (P x)) -> returns (mapM f l) (Forall2 P l).
Proof.
  induction l as [|x l IH]; intros H; [by apply returns_ret|]. destruct (H x) as (y & Ey & Hy); [apply elem_of_cons; by left|].
  destruct IH as (k & Ek & Hk); [intros z Hz; apply H, elem_of_cons; by right|]. exists (y :: k). split; [|by constructor].
  apply mapM_Some. constructor; [done|]. by apply mapM_Some in Ek.
Qed.

Section long_scan.
Context {C : Type} (matches : C -> list Z -> option (list Z) -> option (fat32_scan_verdict * C)).
Context (name : list Z) (Hn : c_string name) (Hlen : 1 <= zlen name <= 255) (checksum num : Z).
Context (Hnum : num * 13 < zlen name + 13 /\ zlen name <= num * 13).
Definition lfn_bytes (lfn : option (list Z)) : list Z := match lfn with Some buf => buf | None => replicate (Z.to_nat (JLOS_VFS_NAME_MAX + 1)) 0 end.
Lemma scan_built (k : nat) : forall l pos lfn ctx, Z.of_nat k <= num -> Forall2 (built name checksum num) (seqZ 0 (Z.of_nat k)) l ->
  buf_shows (lfn_bytes lfn) (seen name 0 0 (Z.of_nat k * 13)) ->
  exists lfn', scan_page matches (rev l) pos lfn ctx = Some (inr (lfn', ctx)) /\ buf_shows (lfn_bytes lfn') (seen name 0 0 0) /\ (k <> 0%nat \/ is_Some lfn -> is_Some lfn').
Proof.
  induction k as [|k IH]; intros l pos lfn ctx Hk HF Hs.
  { inversion HF. subst. exists lfn. split_and!; [done|exact Hs|]. intros [?|?]; done. }
  replace (Z.of_nat (S k)) with (Z.of_nat k + 1) in HF by lia. rewrite seqZ_app in HF by lia. apply Forall2_app_inv_l in HF as (l' & l2 & HF1 & HF2 & ->).
  change (seqZ (0 + Z.of_nat k) 1) with [0 + Z.of_nat k] in HF2. rewrite Z.add_0_l in HF2. inversion HF2 as [|? e ? ? Hb HF3]; subst. inversion HF3; subst.
  rewrite rev_app_distr. cbn [rev app scan_page]. pose proof (b_attr _ _ _ _ _ Hb) as Ea. change DE_ATTR with LFN_ATTR. rewrite Ea.
  change DE_NAME with LFN_SEQ. rewrite (b_seq _ _ _ _ _ Hb). cbn [mbind option_bind].
  assert (0 <= Z.of_nat k < 20) as Hr by lia. destruct (seq_bits _ Hr) as (S0 & S1 & S2 & S3 & S4).
  set (sq := if Z.of_nat k =? num - 1 then _ else _). assert (sq <> JLOS_FAT32_DIRENT_DELETED) as Hsq.
  { intros E. assert (Z.land sq 0x1F = Z.of_nat k + 1) as E1 by (unfold sq; by destruct (_ =? _)). rewrite E in E1. change (Z.land JLOS_FAT32_DIRENT_DELETED 31) with 5 in E1.
    assert (Z.of_nat k = 4) as Ek by lia. unfold sq in E. rewrite Ek in E. destruct (4 =? num - 1); vm_compute in E; discriminate. }
  rewrite (proj2 (Z.eqb_neq _ _) Hsq). cbn [andb negb Z.eqb].
  destruct (extract_spec name Hn ltac:(lia) checksum num (Z.of_nat k) e Hb Hr ltac:(lia) (lfn_bytes lfn)) as (buf & Ex & Hs').
  { lia. }
  { apply (buf_shows_ext _ _ _ Hs). intros j Hj. by replace (Z.of_nat (S k) * 13) with (Z.of_nat k * 13 + 13) by lia. }
  unfold lfn_bytes in Ex. change (Z.land JLOS_FAT32_ATTR_LFN JLOS_FAT32_ATTR_LFN =? JLOS_FAT32_ATTR_LFN) with true. cbv iota. rewrite Ex. cbn [mbind option_bind].
  destruct (IH l' (u32 (pos + 1)) (Some buf) ctx ltac:(lia) HF1 Hs') as (lfn' & E & Hsh & Hi). exists lfn'. split_and!; [done|done|]. intros _. apply Hi. by right.
Qed.
End long_scan.

(** The entries of a long name are built, and a scan over them collects the name. *)
Lemma lfn_build_scan {C} (matches : C -> list Z -> option (list Z) -> option (fat32_scan_verdict * C)) name checksum : c_string name -> 1 <= zlen name <= 255 ->
  exists es, fat32_lfn_build name checksum = Some es /\ zlen es = (zlen name + 12) `div` 13 /\
    forall pos ctx, exists buf, scan_page matches (rev es) pos None ctx = Some (inr (Some buf, ctx)) /\ until_nul buf = name.
Proof.
  intros Hn Hlen. unfold fat32_lfn_build. change JLOS_FAT32_LFN_CHARS_PER_ENTRY with 13. replace (zlen name + 13 - 1) with (zlen name + 12) by lia.
  set (num := (zlen name + 12) `div` 13). assert (num * 13 < zlen name + 13 /\ zlen name <= num * 13) as Hnum by (unfold num; zmod).
  cbv zeta. rewrite (proj2 (Z.eqb_neq num 0)) by lia.
  destruct (returns_mapM (build_entry name checksum num) (built name checksum num) (seqZ 0 num)) as (es & Em & HF).
  { intros n Hin. apply elem_of_seqZ in Hin. apply build_entry_spec; [done|lia]. }
  exists es. split; [done|]. split; [apply Forall2_length in HF; rewrite length_seqZ in HF; lia|]. intros pos ctx.
  destruct (scan_built matches name Hn Hlen checksum num Hnum (Z.to_nat num) es pos None ctx) as (lfn & E & Hs & Hi).
  - lia.
  - by rewrite Z2Nat.id by lia.
  - split; [done|]. intros k Hk. unfold seen, lfn_bytes. unfold geti. destruct (Z.ltb_spec k 0); [lia|].
    rewrite (lookup_replicate_2 (Z.to_nat (JLOS_VFS_NAME_MAX + 1))) by (unfold JLOS_VFS_NAME_MAX; lia). rewrite Z2Nat.id by lia. zcases; simpl; try lia; done.
  - destruct Hi as [buf ->]; [left; lia|]. exists buf. split; [done|]. by apply until_nul_spec; [|lia|].
Qed.

(** ** Creating and looking up *)

(** An entry a scan stops at: neither deleted nor part of a long name nor the end. *)
Definition plain_entry (de : list Z) : Prop := length de = 32%nat /\ rd8 de DE_ATTR = Some JLOS_FAT32_ATTR_ARCHIVE /\
  exists c, rd8 de DE_NAME = Some c /\ c <> JLOS_FAT32_DIRENT_END /\ c <> JLOS_FAT32_DIRENT_DELETED.
Lemma checksum_returns de n : (n <= 11)%nat -> length de = 32%nat -> forall i sum, 0 <= i -> i + Z.of_nat n <= 11 -> exists r, checksum_loop n de i sum = Some r.
Proof.
  intros Hn Hl. induction n as [|n IH]; intros i sum Hi Hin; cbn [checksum_loop]; [by eexists|].
  destruct (geti_Some de i ltac:(lia)) as (c & E & _). unfold rd8. rewrite E. cbn [mbind option_bind]. apply IH; lia.
Qed.
Lemma base_of_head name dot c : base_of name dot !! 0%nat = Some c -> name !! 0%nat = Some c.
Proof. destruct dot as [d|]; [|done]. simpl. intros H. apply lookup_take_Some in H as [H _]. done. Qed.
Lemma short_name_spec name de : c_string name -> name !! 0%nat <> Some JLOS_FAT32_DIRENT_DELETED -> length de = 32%nat ->
  rd8 de DE_ATTR = Some JLOS_FAT32_ATTR_ARCHIVE -> returns (fat32_generate_short_name name de) plain_entry.
Proof.
  intros Hn H0 Hl Ha. unfold fat32_generate_short_name. cbv zeta. set (base := base_of name (last_dot name 0 None)). set (cb := if zlen base <? 6 then zlen base else 6).
  refine (returns_mono _ _ _ (set_short_spec _ _ de Hl (padded_length _ _ _) (padded_length _ _ _)) _). intros de' (Hl' & HN & _ & HO).
  split; [done|]. split; [rewrite HO by done; done|]. specialize (HN 0%nat ltac:(lia)). rewrite padded_lookup in HN by lia. eexists. split; [exact HN|].
  destruct (take (Z.to_nat cb) base !! 0%nat) as [c|] eqn:Ec.
  - apply lookup_take_Some in Ec as [Ec _]. apply base_of_head in Ec. assert (c <> JLOS_FAT32_DIRENT_DELETED) as Hd by congruence.
    apply list_elem_of_lookup_2 in Ec. unfold c_string in Hn. rewrite Forall_forall in Hn. specialize (Hn c Ec).
    unfold jlos_toupper, jlos_islower, JLOS_FAT32_DIRENT_END, JLOS_FAT32_DIRENT_DELETED in *. zcases; simpl; rewrite u8_small; lia.
  - change (Z.of_nat 0) with 0. assert (cb = 0) as ->.
    { destruct base as [|x b]; [done|]. assert (0 < cb) by (unfold cb; simpl length; zcases; lia). exfalso.
      rewrite lookup_take_lt in Ec by lia. done. }
    done.
Qed.

(** What [find_name] asks of each entry. *)
Definition asks (name : list Z) (_ : ()) (de : list Z) (l : option (list Z)) : option (fat32_scan_verdict * ()) := v ← fat32_match_name name de l; Some (v, ()).
(** A scan over entries finds nothing and no part of a long name is pending. *)
Definition passes (name : list Z) (pre : list (list Z)) : Prop := scan_page (asks name) pre 0 None () = Some (inr (None, ())).
Lemma plain_hit name de pos lfn : plain_entry de -> name_copy name = name ->
  match lfn with Some buf => until_nul buf = name | None => fat32_name_to_str de 256 = Some name end ->
  forall post, scan_page (asks name) (de :: post) pos lfn () =
    Some (inl (FAT32_SCAN_HIT, Hit de (u32 (pos * 32)) (match lfn with Some _ => Some name | None => None end), ())).
Proof.
  intros (Hl & Ha & c & Ec & H1 & H2) Hc Hn post. cbn [scan_page]. rewrite Ha, Ec. cbn [mbind option_bind].
  change (Z.land JLOS_FAT32_ATTR_ARCHIVE JLOS_FAT32_ATTR_LFN =? JLOS_FAT32_ATTR_LFN) with false. cbn [andb]. cbv zeta.
  unfold asks, fat32_match_name. rewrite Ec. cbn [mbind option_bind]. rewrite (proj2 (Z.eqb_neq _ _) H1), (proj2 (Z.eqb_neq _ _) H2).
  destruct lfn as [buf|]; cbn [fmap option_fmap option_map].
  - rewrite Hn, Hc. cbn [mbind option_bind]. by rewrite bool_decide_eq_true_2.
  - change (JLOS_VFS_NAME_MAX + 1) with 256. rewrite Hn. cbn [mbind option_bind]. by rewrite bool_decide_eq_true_2.
Qed.
Lemma created_spec name : c_string name -> 1 <= zlen name <= 255 -> name !! 0%nat <> Some JLOS_FAT32_DIRENT_DELETED ->
  fat32_name_need_lfn name = true \/ short_kept name = true ->
  exists lfns de, created_entries name = Some (Some (lfns ++ [de])) /\ plain_entry de /\
    forall pos post, scan_page (asks name) (lfns ++ de :: post) pos None () =
      Some (inl (FAT32_SCAN_HIT, Hit de (u32 ((if bool_decide (lfns = []) then pos else u32 (pos + zlen lfns)) * 32)) (if fat32_name_need_lfn name then Some name else None), ())).
Proof.
  intros Hn Hlen H0 Hk. assert (name_copy name = name) as Hcp by (apply take_ge; unfold JLOS_VFS_NAME_MAX; lia).
  unfold created_entries. change (Z.to_nat JLOS_FAT32_DIRENT_SIZE) with 32%nat.
  destruct (wr8_spec (replicate 32 0) DE_ATTR JLOS_FAT32_ATTR_ARCHIVE) as (d0 & E0 & L0 & R0 & _); [done|]. rewrite E0. cbn [mbind option_bind].
  change (u8 JLOS_FAT32_ATTR_ARCHIVE) with JLOS_FAT32_ATTR_ARCHIVE in R0. change (length (replicate 32 0)) with 32%nat in L0.
  destruct (fat32_name_need_lfn name) eqn:En.
  - destruct (short_name_spec name d0 Hn H0 L0 R0) as (de & E1 & Hp). rewrite E1. cbn [mbind option_bind].
    destruct (checksum_returns de 11 ltac:(lia) (proj1 Hp) 0 0 ltac:(lia) ltac:(lia)) as (cs & Ecs). unfold fat32_lfn_checksum. rewrite Ecs. cbn [mbind option_bind].
    destruct (lfn_build_scan (asks name) name cs Hn Hlen) as (es & Eb & Hz & Hs). rewrite Eb. cbn [mbind option_bind]. exists (rev es), de. split_and!; [done|done|].
    intros pos post. rewrite scan_page_app. destruct (Hs pos ()) as (buf & -> & Hu). cbn [mbind option_bind]. by rewrite (plain_hit name de _ (Some buf)).
  - destruct Hk as [?|Hk]; [done|]. destruct (to_83_spec name d0 En L0) as (de & E1 & L1 & A1 & (c & Ec & Hc) & Hkept). rewrite E1. cbn [mbind option_bind].
    exists [], de. assert (plain_entry de) as Hp.
    { split; [done|]. split; [congruence|]. exists c. split; [done|]. unfold JLOS_FAT32_DIRENT_END, JLOS_FAT32_DIRENT_DELETED. lia. }
    split_and!; [done|done|]. intros pos post. cbn [app]. rewrite (plain_hit name de pos None) by auto. by rewrite bool_decide_eq_true_2.
Qed.

(** C11. A name of up to 255 bytes that does not begin with byte 0xE5 ([deleted_not_found]) and
    gets long entries, or is short with a case the flags keep, is found again: the entries written for it make a scan of the directory stop at exactly
    its entry, with its name, wherever they lie behind entries that do not match. *)
Theorem fat_lookup_created name : c_string name -> 1 <= zlen name <= 255 -> name !! 0%nat <> Some JLOS_FAT32_DIRENT_DELETED ->
  fat32_name_need_lfn name = true \/ short_kept name = true ->
  exists lfns de, created_entries name = Some (Some (lfns ++ [de])) /\
    forall pages pre post fuel, Forall (fun p => p <> []) pages -> concat pages = pre ++ lfns ++ de :: post -> zlen (concat pages) * 32 < 2 ^ 32 ->
      passes name pre -> (length pages < fuel)%nat ->
      find_name (fun i => pages !! Z.to_nat i) fuel name =
        Some (Some (Hit de ((zlen pre + zlen lfns) * 32) (if fat32_name_need_lfn name then Some name else None))).
Proof.
  intros Hn Hlen H0 Hk. destruct (created_spec name Hn Hlen H0 Hk) as (lfns & de & Ec & _ & Hs). exists lfns, de. split; [done|].
  intros pages pre post fuel Hne Hp Hsm Hpass Hf. unfold find_name, fat32_dir_scan. fold (asks name).
  rewrite (scan_pages_concat (asks name) _ pages 0 fuel 0 None ()); [|lia|intros k; f_equal; lia|done|done|lia]. rewrite Hp, scan_page_app.
  unfold passes in Hpass. rewrite Hpass. cbn [mbind option_bind]. rewrite Hs. cbn [mbind option_bind]. do 3 f_equal.
  rewrite Hp, !length_app in Hsm. simpl length in Hsm.
  assert ((if bool_decide (pre = []) then 0 else u32 (0 + zlen pre)) = zlen pre) as ->.
  { destruct (bool_decide (pre = [])) eqn:E; [apply bool_decide_eq_true in E; by subst|]. apply u32_small. lia. }
  assert ((if bool_decide (lfns = []) then zlen pre else u32 (zlen pre + zlen lfns)) = zlen pre + zlen lfns) as ->.
  { destruct (bool_decide (lfns = [])) eqn:E; [apply bool_decide_eq_true in E; subst; simpl; lia|]. apply u32_small. lia. }
  apply u32_small. lia.
Qed.

(** "Read me.txt" and "file1.txt". *)
Definition long_sample : list Z := [82; 101; 97; 100; 32; 109; 101; 46; 116; 120; 116].
Definition digit_sample : list Z := [102; 105; 108; 101; 49; 46; 116; 120; 116].
(** A directory of one page with the entries of a name and nothing else. *)
Definition only (name : list Z) : Z -> option (list (list Z)) :=
  fun i => if i =? 0 then match created_entries name with Some (Some l) => Some (l ++ replicate (128 - length l) (replicate 32 0)) | _ => None end else None.
(** A short name with a digit among small letters is stored without its case and is not found again. *)
Example digit_not_found : fat32_name_need_lfn digit_sample = false /\ is_Some (created_entries digit_sample) /\ find_name (only digit_sample) 2 digit_sample = Some None.
Proof. vm_compute. eauto. Qed.
(** So is one that ends in a dot. *)
Example dot_not_found : find_name (only [97; 46]) 2 [97; 46] = Some None.
Proof. vm_compute. done. Qed.
(** A name that begins with byte 0xE5 is stored as a deleted entry. *)
Example deleted_not_found : find_name (only [0xE5; 97]) 2 [0xE5; 97] = Some None.
Proof. vm_compute. done. Qed.
(** A sequence number of 20 and a terminator behind position 8 are stored behind the buffer. *)
Example extract_overrun : fat32_lfn_extract (20 :: concat (replicate 5 [65; 0]) ++ [15; 0; 0] ++ concat (replicate 6 [65; 0]) ++ [0; 0; 0; 0; 0; 0]) (replicate 256 0) = None.
Proof. vm_compute. done. Qed.
(** Entries of different names with the same first six characters have the same short name. *)
Example short_names_clash : fat32_generate_short_name [97; 98; 99; 100; 101; 102; 103; 104; 105] (replicate 32 0) =
  fat32_generate_short_name [97; 98; 99; 100; 101; 102; 120; 121; 122] (replicate 32 0).
Proof. vm_compute. done. Qed.

Lemma fat_lookup_created_witness : exists lfns de, created_entries long_sample = Some (Some (lfns ++ [de])) /\
  find_name (fun i => [lfns ++ [de]] !! Z.to_nat i) 2 long_sample = Some (Some (Hit de (zlen lfns * 32) (Some long_sample))).
Proof.
  destruct (fat_lookup_created long_sample) as (lfns & de & Ec & H).
  - repeat (constructor; [lia|]). constructor.
  - simpl. lia.
  - discriminate.
  - left. reflexivity.
  - exists lfns, de. split; [exact Ec|]. assert (length lfns = 1%nat) as Hl.
    { assert (match created_entries long_sample with Some (Some l) => length l | _ => O end = 2%nat) as E2 by (vm_compute; reflexivity).
      rewrite Ec, length_app in E2. simpl in E2. lia. }
    rewrite (H [lfns ++ [de]] [] [] 2%nat).
    + reflexivity.
    + constructor; [|constructor]. intros E. apply (f_equal length) in E. rewrite length_app in E. simpl in E. lia.
    + simpl. rewrite app_nil_r. reflexivity.
    + simpl concat. rewrite app_nil_r, length_app, Hl. reflexivity.
    + reflexivity.
    + simpl. lia.
Defined.
