(* ===== verification/Printk.v ===== *)
(** * Formatted output ([kernel/printk.c])

    The console is the list of characters handed to it.  Number buffers are byte lists
    that the code writes by index; a format string is the list of its characters, and
    reading behind its terminator is [None], as is a missing or wrong argument and a
    width that leaves [int]. *)
From S2P Require Import Prelude Bytes.

(** ** Numbers *)

Definition digit_char (uppercase : bool) (d : Z) : Z := if d <? 10 then 48 + d else if uppercase then 55 + d else 87 + d.
(** The loop over the digits, lowest first; 64 rounds are enough for any base. *)
Fixpoint digit_loop (fuel : nat) (buf : list Z) (o i value base : Z) (uppercase : bool) : option (Z * list Z) :=
  if 0 <? value then
    match fuel with
    | O => None
    | S fuel =>
      buf ← seti buf (o + i) (digit_char uppercase (value `mod` base));
      digit_loop fuel buf o (i + 1) (value `div` base) base uppercase
    end
  else Some (i, buf).
(** Exchange from both ends, [n] rounds from [j] on. *)
Fixpoint reverse_loop (n : nat) (buf : list Z) (o i j : Z) : option (list Z) :=
  match n with
  | O => Some buf
  | S n =>
    t ← geti buf (o + j);
    u ← geti buf (o + (i - 1 - j));
    buf ← seti buf (o + j) u;
    buf ← seti buf (o + (i - 1 - j)) t;
    reverse_loop n buf o i (j + 1)
  end.
(** The number of characters and the buffer; the pointer is [buf + o]. *)
Definition printk_fmt_uint (buf : list Z) (o value base : Z) (uppercase : bool) : option (Z * list Z) :=
  if value =? 0 then buf ← seti buf o 48; Some (1, buf) else
  '(i, buf) ← digit_loop 64 buf o 0 value base uppercase;
  buf ← reverse_loop (Z.to_nat (i `div` 2)) buf o i 0;
  Some (i, buf).
Definition printk_fmt_int (buf : list Z) (o value base : Z) : option (Z * list Z) :=
  if (value <? 0) && (base =? 10) then
    buf ← seti buf o 45;
    '(i, buf) ← printk_fmt_uint buf (o + 1) (u64 (- value)) base false;
    Some (1 + i, buf)
  else printk_fmt_uint buf o (u64 value) base false.
Definition number_buf : list Z := replicate 32 0.
Definition printk_put_uint (value base : Z) (uppercase : bool) : option (list Z) :=
  '(n, buf) ← printk_fmt_uint number_buf 0 value base uppercase;
  read_run buf 0 n.

Definition printk_emit_padded (s : list Z) (width : Z) (left_align zero_pad : bool) : list Z :=
  if left_align then s ++ replicate (Z.to_nat (width - zlen s)) 32
  else replicate (Z.to_nat (width - zlen s)) (if zero_pad then 48 else 32) ++ s.

(** The loops of [printk_put_uint_padded]; the characters are collected lowest first. *)
Fixpoint padded_digits (fuel : nat) (value : Z) : option (list Z) :=
  match fuel with
  | O => None
  | S fuel =>
    let c := 48 + value `mod` 10 in let value := value `div` 10 in
    if 0 <? value then rest ← padded_digits fuel value; Some (c :: rest) else Some [c]
  end.
Definition printk_put_uint_padded (value width : Z) : option (list Z) :=
  ds ← padded_digits 10 value;
  let buf := ds ++ replicate (Z.to_nat (width - zlen ds)) 48 in
  if zlen buf <=? 16 then Some (rev buf) else None.

(** ** The wall clock *)

Definition s_days_before_month : list Z := [0; 31; 59; 90; 120; 151; 181; 212; 243; 273; 304; 334].
Definition JLOS_WALLCLOCK_UTC_OFFSET_SEC : Z := 8 * 3600.
Definition is_leap (year : Z) : bool := ((year `mod` 4 =? 0) && negb (year `mod` 100 =? 0)) || (year `mod` 400 =? 0).
(** The loop over the years. *)
Fixpoint year_loop (fuel : nat) (days year : Z) : option (Z * Z) :=
  let diy := if is_leap year then 366 else 365 in
  if days <? diy then Some (days, year) else
  match fuel with O => None | S fuel => year_loop fuel (days - diy) (year + 1) end.
Fixpoint month_loop (fuel : nat) (days : Z) (leap : bool) (month : Z) : option Z :=
  if month <? 12 then
    d ← geti s_days_before_month month;
    let dim := d + (if leap && (2 <=? month) then 1 else 0) in
    if days <? dim then Some month else
    match fuel with O => None | S fuel => month_loop fuel days leap (month + 1) end
  else Some month.
Record civil := Civil { c_year : Z; c_month : Z; c_day : Z; c_hour : Z; c_min : Z; c_sec : Z }.
Definition civil_of (unix_sec : Z) : option civil :=
  let secs_in_day := unix_sec `mod` 86400 in
  '(days, year) ← year_loop 200 (unix_sec `div` 86400) 1970;
  let leap := is_leap year in
  month ← month_loop 12 days leap 1;
  d ← geti s_days_before_month (month - 1);
  let day := days - d - (if leap && (2 <=? month - 1) then 1 else 0) + 1 in
  Some (Civil year month day (secs_in_day `div` 3600) ((secs_in_day `mod` 3600) `div` 60) (secs_in_day `mod` 60)).
Definition printk_put_realtime (ns : Z) : option (list Z) :=
  let unix_sec := u32 (u32 (ns `div` 1000000000) + JLOS_WALLCLOCK_UTC_OFFSET_SEC) in
  c ← civil_of unix_sec;
  y ← printk_put_uint (c_year c) 10 false;
  mo ← printk_put_uint_padded (c_month c) 2;
  d ← printk_put_uint_padded (c_day c) 2;
  h ← printk_put_uint_padded (c_hour c) 2;
  mi ← printk_put_uint_padded (c_min c) 2;
  s ← printk_put_uint_padded (c_sec c) 2;
  Some ([91] ++ y ++ [45] ++ mo ++ [45] ++ d ++ [32] ++ h ++ [58] ++ mi ++ [58] ++ s ++ [93; 32]).

(** ** Lines *)

Definition printk_level_char (level : Z) : Z :=
  match level with 0 => 80 | 1 => 65 | 2 => 67 | 3 => 69 | 4 => 87 | 5 => 78 | 6 => 73 | 7 => 68 | _ => 63 end.
(** What is printed with the configuration of [include/config.h]; the clock is read again for every line. *)
Definition printk_print_prefix (ns level : Z) (subsys func : option (list Z)) : option (list Z) :=
  if level <? 0 then Some [] else
  t ← printk_put_realtime ns;
  Some (t ++ [91; printk_level_char level; 93; 32] ++ [91] ++ default [] subsys ++ [93; 32] ++
    match func with Some f => [91] ++ f ++ [93; 32] | None => [] end).

Inductive karg := KNum (v : Z) | KStr (s : list Z).
Inductive length_mod := LInt | LLong | LLongLong | LSize.
(** [while (fmt[i] == '-' || fmt[i] == '0')]. *)
Fixpoint skip_flags (fmt : list Z) (left_align zero_pad : bool) : list Z * bool * bool :=
  match fmt with
  | c :: rest => if c =? 45 then skip_flags rest true zero_pad else if c =? 48 then skip_flags rest left_align true else (fmt, left_align, zero_pad)
  | [] => (fmt, left_align, zero_pad)
  end.
Fixpoint skip_width (fmt : list Z) (width : Z) : option (list Z * Z) :=
  match fmt with
  | c :: rest =>
    if (48 <=? c) && (c <=? 57) then
      if width * 10 + (c - 48) <? 2 ^ 31 then skip_width rest (width * 10 + (c - 48)) else None
    else Some (fmt, width)
  | [] => Some (fmt, width)
  end.
Definition skip_length (fmt : list Z) : list Z * length_mod :=
  match fmt with
  | c :: rest =>
    if c =? 108 then match rest with c' :: rest' => if c' =? 108 then (rest', LLongLong) else (rest, LLong) | [] => (rest, LLong) end
    else if c =? 122 then (rest, LSize) else (fmt, LInt)
  | [] => (fmt, LInt)
  end.
(** [va_arg] of the signed and the unsigned type; [long] and [size_t] have 32 bits. *)
Definition arg_signed (l : length_mod) (v : Z) : Z :=
  match l with LLongLong => let w := u64 v in if w <? 2 ^ 63 then w else w - 2 ^ 64 | _ => s32 v end.
Definition arg_unsigned (l : length_mod) (v : Z) : Z := match l with LLongLong => u64 v | _ => u32 v end.
(** One conversion: the characters and the arguments left. *)
Definition convert (conv : Z) (l : length_mod) (width : Z) (left_align zero_pad : bool) (args : list karg) : option (list Z * list karg) :=
  let number (text : Z -> option (list Z)) :=
    match args with KNum v :: args => s ← text v; Some (printk_emit_padded s width left_align zero_pad, args) | _ => None end in
  if conv =? 100 then number (fun v => '(n, buf) ← printk_fmt_int number_buf 0 (arg_signed l v) 10; read_run buf 0 n) else
  if conv =? 117 then number (fun v => printk_put_uint (arg_unsigned l v) 10 false) else
  if conv =? 120 then number (fun v => printk_put_uint (arg_unsigned l v) 16 false) else
  if conv =? 88 then number (fun v => printk_put_uint (arg_unsigned l v) 16 true) else
  if conv =? 112 then number (fun v =>
    buf ← seti number_buf 0 48; buf ← seti buf 1 120;
    '(n, buf) ← printk_fmt_uint buf 2 (u32 v) 16 false; read_run buf 0 (2 + n)) else
  if conv =? 115 then match args with KStr s :: args => Some (printk_emit_padded s width left_align false, args) | _ => None end else
  if conv =? 99 then match args with KNum v :: args => Some ([u8 v], args) | _ => None end else
  if conv =? 37 then Some ([37], args) else Some ([37; conv], args).

Section printk.
Context (clock : nat -> Z) (level : Z) (subsys func : option (list Z)).
(** The loop over the format string; [lines] counts the prefixes printed. *)
Fixpoint printk_loop (fuel : nat) (fmt : list Z) (at_line_start : bool) (lines : nat) (args : list karg) : option (list Z) :=
  match fmt with
  | [] => Some []
  | c :: fmt =>
    match fuel with
    | O => None
    | S fuel =>
      if c =? 10 then out ← printk_loop fuel fmt true lines args; Some (10 :: out) else
      pre ← (if at_line_start then printk_print_prefix (clock lines) level subsys func else Some []);
      let lines := if at_line_start then S lines else lines in
      if c =? 37 then
        let '(fmt, left_align, zero_pad) := skip_flags fmt false false in
        '(fmt, width) ← skip_width fmt 0;
        let '(fmt, l) := skip_length fmt in
        match fmt with
        | [] => None
        | conv :: fmt =>
          '(s, args) ← convert conv l width left_align zero_pad args;
          out ← printk_loop fuel fmt false lines args;
          Some (pre ++ s ++ out)
        end
      else out ← printk_loop fuel fmt false lines args; Some (pre ++ c :: out)
    end
  end.
Definition printk (loglevel : Z) (fmt : list Z) (args : list karg) : option (list Z) :=
  if (loglevel <? level) && (0 <=? level) then Some [] else printk_loop (length fmt) fmt true 0 args.
End printk.
