(* ===== verification/PrintkInv.v ===== *)
(** * Formatted output: numbers, dates and format strings

    Numbers are printed in the notation of their base, dates invert the count of days,
    and a format string prints as the directives it is written from say. *)
From Stdlib Require Ascii.
From Stdlib Require Import String.
From S2P Require Import Prelude Bytes Printk.

(** ** Numbers *)

(** The digits of a number, lowest first, and the value of a text. *)
Fixpoint low_digits (fuel : nat) (base v : Z) : list Z :=
  if 0 <? v then match fuel with O => [] | S fuel => v `mod` base :: low_digits fuel base (v `div` base) end else [].
Definition digits (base v : Z) : list Z := if v =? 0 then [0] else rev (low_digits 64 base v).
(** The signs for digits. *)
Definition codes (s : String.string) : list Z := (fun c => Z.of_nat (Ascii.nat_of_ascii c)) <$> String.list_ascii_of_string s.
Arguments codes s%_string.
Definition alphabet (uppercase : bool) : list Z := if uppercase then codes "0123456789ABCDEF" else codes "0123456789abcdef".
Arguments alphabet : simpl never.
Definition num_text (base v : Z) (uppercase : bool) : list Z := (fun d => alphabet uppercase !!! Z.to_nat d) <$> digits base v.
Definition code_text (base v : Z) (uppercase : bool) : list Z := digit_char uppercase <$> digits base v.
Definition num_value (base : Z) (ds : list Z) : Z := fold_left (fun acc d => acc * base + d) ds 0.

Lemma low_digits_value base fuel : 1 < base -> forall v, 0 <= v < 2 ^ Z.of_nat fuel -> fold_right (fun d acc => acc * base + d) 0 (low_digits fuel base v) = v /\
  Forall (fun d => 0 <= d < base) (low_digits fuel base v) /\ (0 < v -> exists d, last (low_digits fuel base v) = Some d /\ d <> 0).
Proof.
  intros Hb. induction fuel as [|fuel IH]; intros v Hv; simpl.
  { change (2 ^ Z.of_nat 0) with 1 in Hv. replace v with 0 by lia. simpl. split_and!; [done|constructor|lia]. }
  destruct (Z.ltb_spec 0 v); [|split_and!; [simpl; lia|constructor|lia]].
  assert (0 <= v `div` base < 2 ^ Z.of_nat fuel) as Hd.
  { split; [apply Z.div_pos; lia|]. apply Z.div_lt_upper_bound; [lia|]. rewrite Nat2Z.inj_succ, Z.pow_succ_r in Hv by lia. nia. }
  destruct (IH _ Hd) as (H1 & H2 & H3). simpl. split_and!.
  - rewrite H1. pose proof (Z.div_mod v base). lia.
  - constructor; [apply Z.mod_pos_bound; lia|done].
  - intros _. destruct (Z_lt_dec 0 (v `div` base)) as [Hp|Hp].
    + destruct (H3 Hp) as (d & E & Hne). exists d. split; [|done]. destruct (low_digits fuel base (v `div` base)); done.
    + assert (v `div` base = 0) as -> by lia. exists (v `mod` base). split; [destruct fuel; done|]. pose proof (Z.div_mod v base ltac:(lia)). intros E.
      assert (v `div` base = 0) by lia. lia.
Qed.
Lemma digits_value base v : 1 < base -> 0 <= v < 2 ^ 64 -> num_value base (digits base v) = v /\ Forall (fun d => 0 <= d < base) (digits base v).
Proof.
  intros Hb Hv. unfold digits, num_value. destruct (Z.eqb_spec v 0) as [->|]; [split; [done|repeat constructor; lia]|].
  destruct (low_digits_value base 64 Hb v Hv) as (H1 & H2 & _). split; [|by apply Forall_rev].
  rewrite <- fold_left_rev_right, rev_involutive. done.
Qed.
Lemma digit_sign up d : 0 <= d < 16 -> digit_char up d = alphabet up !!! Z.to_nat d.
Proof.
  intros Hd. assert (exists k, (k < 16)%nat /\ d = Z.of_nat k) as (k & Hk & ->) by (exists (Z.to_nat d); lia). rewrite Nat2Z.id.
  destruct up; do 16 (destruct k as [|k]; [done|]); lia.
Qed.
Lemma code_num_text base v up : 1 < base <= 16 -> 0 <= v < 2 ^ 64 -> code_text base v up = num_text base v up.
Proof.
  intros Hb Hv. unfold code_text, num_text. destruct (digits_value base v ltac:(lia) Hv) as [_ HF]. apply list_fmap_ext. intros i d Hd.
  rewrite Forall_lookup in HF. apply digit_sign. specialize (HF i d Hd). simpl in HF. lia.
Qed.
Lemma low_digits_length base k : 1 < base -> forall fuel v, 0 <= v < base ^ Z.of_nat k -> (length (low_digits fuel base v) <= k)%nat.
Proof.
  intros Hb. induction k as [|k IH]; intros fuel v Hv.
  { change (base ^ Z.of_nat 0) with 1 in Hv. replace v with 0 by lia. destruct fuel; simpl; lia. }
  destruct fuel as [|fuel]; simpl; [destruct (0 <? v); simpl; lia|]. destruct (Z.ltb_spec 0 v); simpl; [|lia].
  enough (length (low_digits fuel base (v `div` base)) <= k)%nat by lia. apply IH. split; [apply Z.div_pos; lia|].
  apply Z.div_lt_upper_bound; [lia|]. rewrite Nat2Z.inj_succ, Z.pow_succ_r in Hv by lia. lia.
Qed.

(** The loop stores the digits behind what is there. *)
Lemma digit_loop_spec base up pre fuel : 1 < base -> forall ds rest value, 0 <= value < 2 ^ Z.of_nat fuel -> (length (low_digits fuel base value) <= length rest)%nat ->
  digit_loop fuel (pre ++ ds ++ rest) (zlen pre) (zlen ds) value base up =
    Some (zlen (ds ++ low_digits fuel base value), pre ++ (ds ++ (digit_char up <$> low_digits fuel base value)) ++ drop (length (low_digits fuel base value)) rest).
Proof.
  intros Hb. induction fuel as [|fuel IH]; intros ds rest value Hv Hl; simpl in Hl |- *.
  { change (2 ^ Z.of_nat 0) with 1 in Hv. replace value with 0 in * by lia. simpl. by rewrite !app_nil_r. }
  destruct (Z.ltb_spec 0 value); [|simpl; by rewrite !app_nil_r]. destruct rest as [|x rest]; [simpl in Hl; lia|]. simpl in Hl.
  assert (0 <= value `div` base < 2 ^ Z.of_nat fuel) as Hd.
  { split; [apply Z.div_pos; lia|]. apply Z.div_lt_upper_bound; [lia|]. rewrite Nat2Z.inj_succ, Z.pow_succ_r in Hv by lia. nia. }
  assert (seti (pre ++ ds ++ x :: rest) (zlen pre + zlen ds) (digit_char up (value `mod` base)) =
    Some (pre ++ (ds ++ [digit_char up (value `mod` base)]) ++ rest)) as ->.
  { rewrite seti_Some by (rewrite !length_app; simpl; lia). f_equal. replace (Z.to_nat (zlen pre + zlen ds)) with (length pre + (length ds + 0))%nat by lia.
    rewrite !insert_app_r. by rewrite <- app_assoc. }
  cbn [mbind option_bind]. replace (zlen ds + 1) with (zlen (ds ++ [digit_char up (value `mod` base)])) by (rewrite length_app; simpl; lia).
  rewrite (IH _ rest (value `div` base) Hd ltac:(lia)). f_equal. f_equal.
  - rewrite !length_app. simpl. lia.
  - f_equal. rewrite <- (app_assoc ds). done.
Qed.
Ltac by_assoc := repeat (rewrite <- ?app_assoc; simpl); reflexivity.
Lemma reverse_loop_spec pre rest n : forall a mid c i, (length mid / 2)%nat = n -> length c = length a -> i = zlen (a ++ mid ++ c) ->
  reverse_loop n (pre ++ (a ++ mid ++ c) ++ rest) (zlen pre) i (zlen a) = Some (pre ++ (a ++ rev mid ++ c) ++ rest).
Proof.
  induction n as [|n IH]; intros a mid c i Hn Hc ->; cbn [reverse_loop].
  { assert (rev mid = mid) as -> by (destruct mid as [|x [|y mid]]; [done|done|pose proof (Nat.div_str_pos (length (x :: y :: mid)) 2 ltac:(simpl; lia)); lia]). done. }
  destruct mid as [|x mid]; [done|]. destruct mid as [|y m _] using rev_ind; [done|].
  assert (length m / 2 = n)%nat as Hn'.
  { rewrite length_cons, length_app in Hn. simpl length in Hn. replace (S (length m + 1)) with (length m + 1 * 2)%nat in Hn by lia. rewrite Nat.div_add in Hn by lia. lia. }
  assert (zlen pre + (zlen (a ++ (x :: m ++ [y]) ++ c) - 1 - zlen a) = zlen (pre ++ a ++ x :: m)) as ->.
  { rewrite !length_app. simpl length. rewrite length_app. simpl length. lia. }
  assert (pre ++ (a ++ (x :: m ++ [y]) ++ c) ++ rest = (pre ++ a) ++ x :: (m ++ [y] ++ c ++ rest)) as E1 by by_assoc.
  assert (pre ++ (a ++ (x :: m ++ [y]) ++ c) ++ rest = (pre ++ a ++ x :: m) ++ y :: (c ++ rest)) as E2 by by_assoc.
  assert (forall (l1 : list Z) z l2, geti (l1 ++ z :: l2) (zlen l1) = Some z) as Hget.
  { intros l1 z l2. unfold geti. destruct (Z.ltb_spec (zlen l1) 0); [lia|]. rewrite Nat2Z.id. by apply list_lookup_middle. }
  assert (forall (l1 : list Z) z l2 w, seti (l1 ++ z :: l2) (zlen l1) w = Some (l1 ++ w :: l2)) as Hset.
  { intros l1 z l2 w. rewrite seti_Some by (rewrite length_app; simpl; lia). f_equal. rewrite Nat2Z.id. rewrite <- (Nat.add_0_r (length l1)), insert_app_r. done. }
  replace (zlen pre + zlen a) with (zlen (pre ++ a)) by (rewrite length_app; lia).
  rewrite E1 at 1. rewrite Hget. cbn [mbind option_bind]. rewrite E2 at 1. rewrite Hget. cbn [mbind option_bind]. rewrite E1, Hset. cbn [mbind option_bind].
  replace ((pre ++ a) ++ y :: m ++ [y] ++ c ++ rest) with ((pre ++ a ++ y :: m) ++ y :: (c ++ rest)) by by_assoc.
  replace (zlen (pre ++ a ++ x :: m)) with (zlen (pre ++ a ++ y :: m)) by (rewrite !length_app; simpl; lia). rewrite Hset. cbn [mbind option_bind].
  specialize (IH (a ++ [y]) m (x :: c) (zlen (a ++ (x :: m ++ [y]) ++ c)) Hn' ltac:(rewrite length_app; simpl; lia) ltac:(rewrite !length_app; simpl; rewrite !length_app; simpl; lia)).
  replace (zlen a + 1) with (zlen (a ++ [y])) by (rewrite length_app; simpl; lia).
  assert ((pre ++ a ++ y :: m) ++ x :: c ++ rest = pre ++ ((a ++ [y]) ++ m ++ x :: c) ++ rest) as -> by by_assoc.
  rewrite IH. f_equal. simpl rev. rewrite rev_app_distr. by_assoc.
Qed.
(** A number is printed at its place in the buffer, and nowhere else. *)
Lemma fmt_uint_spec pre old rest v base up : 1 < base -> 0 <= v < 2 ^ 64 -> length old = length (digits base v) ->
  printk_fmt_uint (pre ++ old ++ rest) (zlen pre) v base up = Some (zlen (digits base v), pre ++ code_text base v up ++ rest).
Proof.
  intros Hb Hv Hl. unfold printk_fmt_uint, code_text, digits in *. destruct (Z.eqb_spec v 0) as [->|].
  - destruct old as [|x [|]]; try done. simpl. rewrite seti_Some by (rewrite !length_app; simpl; lia). cbn [mbind option_bind]. do 2 f_equal.
    rewrite Nat2Z.id. rewrite <- (Nat.add_0_r (length pre)), insert_app_r. done.
  - rewrite length_rev in Hl. pose proof (digit_loop_spec base up pre 64 Hb [] (old ++ rest) v Hv ltac:(rewrite length_app; lia)) as E. rewrite !app_nil_l in E.
    change (zlen []) with 0 in E. rewrite E. cbn [mbind option_bind]. rewrite drop_app_length' by lia.
    pose proof (reverse_loop_spec pre rest _ [] (digit_char up <$> low_digits 64 base v) [] (zlen (low_digits 64 base v)) eq_refl eq_refl) as R.
    rewrite !app_nil_l, !app_nil_r, length_fmap in R. change (zlen []) with 0 in R.
    replace (Z.to_nat (zlen (low_digits 64 base v) `div` 2)) with (length (low_digits 64 base v) / 2)%nat by (rewrite <- (Nat2Z.inj_div _ 2); lia).
    rewrite R by done. cbn [mbind option_bind]. rewrite length_rev. do 4 f_equal. symmetry. apply map_rev.
Qed.
Lemma digits_length base v : base = 10 \/ base = 16 -> 0 <= v < 2 ^ 64 -> (1 <= length (digits base v) <= 20)%nat.
Proof.
  intros Hb Hv. unfold digits. destruct (Z.eqb_spec v 0); [simpl; lia|]. rewrite length_rev. split.
  - destruct (low_digits_value base 64 ltac:(lia) v Hv) as (_ & _ & H). destruct (H ltac:(lia)) as (d & E & _). destruct (low_digits 64 base v); [done|simpl; lia].
  - apply low_digits_length; [lia|]. destruct Hb as [->| ->]; lia.
Qed.
Lemma put_uint_text v base up : base = 10 \/ base = 16 -> 0 <= v < 2 ^ 64 -> printk_put_uint v base up = Some (num_text base v up).
Proof.
  intros Hb Hv. unfold printk_put_uint. pose proof (digits_length base v Hb Hv) as Hl. unfold number_buf.
  assert (replicate 32 0 = [] ++ replicate (length (digits base v)) 0 ++ replicate (32 - length (digits base v)) 0) as ->.
  { simpl app. rewrite <- replicate_add. f_equal. lia. }
  change 0 with (zlen (@nil Z)) at 3. rewrite fmt_uint_spec, code_num_text by (done || rewrite ?length_replicate; lia). cbn [mbind option_bind].
  apply read_run_app; [done|]. unfold num_text. by rewrite length_fmap.
Qed.

(** ** Dates *)

(** Days from 1 January 1970 to 1 January of a year, and from there to the first of a month. *)
Definition year_start (y : Z) : Z := 365 * (y - 1970) + ((y - 1) `div` 4 - (y - 1) `div` 100 + (y - 1) `div` 400 - 477).
Definition leap_year (y : Z) : bool := if y `mod` 100 =? 0 then y `mod` 400 =? 0 else y `mod` 4 =? 0.
Definition month_lengths (leap : bool) : list Z := [31; if leap then 29 else 28; 31; 30; 31; 30; 31; 31; 30; 31; 30; 31].
Definition month_start (leap : bool) (m : Z) : Z := fold_right Z.add 0 (take (Z.to_nat (m - 1)) (month_lengths leap)).
Definition unix_of (c : civil) : Z :=
  (year_start (c_year c) + month_start (leap_year (c_year c)) (c_month c) + (c_day c - 1)) * 86400 + c_hour c * 3600 + c_min c * 60 + c_sec c.
Definition valid_civil (c : civil) : Prop :=
  1970 <= c_year c /\ 1 <= c_month c <= 12 /\
  1 <= c_day c <= month_start (leap_year (c_year c)) (c_month c + 1) - month_start (leap_year (c_year c)) (c_month c) /\
  0 <= c_hour c < 24 /\ 0 <= c_min c < 60 /\ 0 <= c_sec c < 60.

Lemma leap_code y : is_leap y = leap_year y.
Proof. unfold is_leap, leap_year. destruct (Z.eqb_spec (y `mod` 4) 0), (Z.eqb_spec (y `mod` 100) 0), (Z.eqb_spec (y `mod` 400) 0); simpl; try done; zmod. Qed.
(** The table of the code counts the days before a month of a common year. *)
Lemma month_table leap m : 1 <= m <= 13 ->
  month_start leap m = nth (Z.to_nat (m - 1)) (s_days_before_month ++ [365]) 0 + (if leap && (3 <=? m) then 1 else 0).
Proof.
  intros Hm. assert (exists k, (k < 13)%nat /\ m = Z.of_nat k + 1) as (k & Hk & ->) by (exists (Z.to_nat (m - 1)); lia).
  destruct leap; do 13 (destruct k as [|k]; [done|]); lia.
Qed.
Lemma year_start_next y : year_start (y + 1) = year_start y + (if is_leap y then 366 else 365).
Proof.
  unfold year_start, is_leap. replace (y + 1 - 1) with y by lia.
  destruct (Z.eqb_spec (y `mod` 4) 0), (Z.eqb_spec (y `mod` 100) 0), (Z.eqb_spec (y `mod` 400) 0); simpl; zmod.
Qed.
Lemma year_loop_spec fuel : forall days y, 0 <= days < 365 * (Z.of_nat fuel + 1) ->
  exists d y', year_loop fuel days y = Some (d, y') /\ y <= y' /\ year_start y' + d = year_start y + days /\ 0 <= d < (if is_leap y' then 366 else 365).
Proof.
  induction fuel as [|fuel IH]; intros days y Hd; cbn [year_loop]; cbv zeta.
  - destruct (Z.ltb_spec days (if is_leap y then 366 else 365)) as [Hl|Hl]; [exists days, y; split_and!; done || lia|]. destruct (is_leap y); lia.
  - destruct (Z.ltb_spec days (if is_leap y then 366 else 365)) as [Hl|Hl]; [exists days, y; split_and!; done || lia|].
    destruct (IH (days - (if is_leap y then 366 else 365)) (y + 1)) as (d & y' & E & H1 & H2 & H3); [destruct (is_leap y); lia|].
    exists d, y'. split_and!; [done|lia| |lia|lia]. rewrite year_start_next in H2. lia.
Qed.
Lemma month_days m : 0 <= m < 12 -> geti s_days_before_month m = Some (nth (Z.to_nat m) (s_days_before_month ++ [365]) 0).
Proof.
  intros Hm. assert (exists k, (k < 12)%nat /\ m = Z.of_nat k) as (k & Hk & ->) by (exists (Z.to_nat m); lia).
  do 12 (destruct k as [|k]; [done|]). lia.
Qed.
Lemma month_loop_spec days leap fuel : forall m, 1 <= m <= 12 -> 12 - m <= Z.of_nat fuel -> month_start leap m <= days -> days < (if leap then 366 else 365) ->
  exists m', month_loop fuel days leap m = Some m' /\ 1 <= m' <= 12 /\ month_start leap m' <= days < month_start leap (m' + 1).
Proof.
  assert (forall m, 1 <= m <= 12 -> month_start leap (m + 1) = nth (Z.to_nat m) (s_days_before_month ++ [365]) 0 + (if leap && (2 <=? m) then 1 else 0)) as Hms.
  { intros m Hm. rewrite month_table by lia. replace (m + 1 - 1) with m by lia. destruct leap; [|done]. cbn [andb]. by zcases; try lia. }
  induction fuel as [|fuel IH]; intros m Hm Hf Hlo Hhi; cbn [month_loop].
  - assert (m = 12) as -> by lia. rewrite Z.ltb_irrefl. exists 12. split_and!; [done|lia|lia|done|]. by destruct leap.
  - destruct (Z.ltb_spec m 12) as [Hlt|Hge].
    + rewrite month_days by lia. cbn [mbind option_bind]. cbv zeta. rewrite <- Hms by lia. destruct (Z.ltb_spec days (month_start leap (m + 1))).
      * exists m. split_and!; done || lia.
      * apply IH; lia.
    + assert (m = 12) as -> by lia. exists 12. split_and!; [done|lia|lia|done|]. by destruct leap.
Qed.
(** The date of a number of seconds is a date, and the one with that number of seconds. *)
Lemma civil_of_spec t : 0 <= t < 2 ^ 32 -> exists c, civil_of t = Some c /\ valid_civil c /\ unix_of c = t.
Proof.
  intros Ht. unfold civil_of. cbv zeta. assert (0 <= t `div` 86400 < 365 * (Z.of_nat 200 + 1)) as Hd by zmod.
  destruct (year_loop_spec 200 _ 1970 Hd) as (d & y & E & Hy & Hs & Hr). rewrite E. cbn [mbind option_bind].
  destruct (month_loop_spec d (is_leap y) 12 1 ltac:(lia) ltac:(lia)) as (m & Em & Hm & Hlo & Hhi).
  { assert (month_start (is_leap y) 1 = 0) by (by destruct (is_leap y)). lia. }
  { destruct (is_leap y); lia. }
  rewrite Em. cbn [mbind option_bind]. rewrite month_days by lia. cbn [mbind option_bind]. eexists. split; [done|].
  assert (nth (Z.to_nat (m - 1)) (s_days_before_month ++ [365]) 0 + (if is_leap y && (2 <=? m - 1) then 1 else 0) = month_start (is_leap y) m) as Hms.
  { rewrite month_table by lia. destruct (is_leap y); [|done]. cbn [andb]. by zcases; try lia. }
  change (year_start 1970) with 0 in Hs. split.
  - unfold valid_civil. cbn [c_year c_month c_day c_hour c_min c_sec]. rewrite <- leap_code. split_and!; try lia; zmod.
  - unfold unix_of. rewrite <- leap_code. cbn [c_year c_month c_day c_hour c_min c_sec]. clear Hr Hlo Hhi. zmod.
Qed.

(** ** Format strings *)

Definition two_digits (v : Z) : list Z := [48 + v `div` 10; 48 + v `mod` 10].
Lemma put_padded_text v : 0 <= v < 100 -> printk_put_uint_padded v 2 = Some (two_digits v).
Proof.
  intros Hv. unfold printk_put_uint_padded, two_digits. cbn [padded_digits]. cbv zeta. destruct (Z.ltb_spec 0 (v `div` 10)) as [H|H].
  - assert ((v `div` 10) `div` 10 = 0) as -> by zmod. assert ((v `div` 10) `mod` 10 = v `div` 10) as -> by zmod. done.
  - assert (v `div` 10 = 0) as -> by zmod. done.
Qed.
(** [\[2026-01-31 23:59:59\] ]. *)
Definition date_text (c : civil) : list Z :=
  [91] ++ num_text 10 (c_year c) false ++ [45] ++ two_digits (c_month c) ++ [45] ++ two_digits (c_day c) ++ [32] ++
  two_digits (c_hour c) ++ [58] ++ two_digits (c_min c) ++ [58] ++ two_digits (c_sec c) ++ [93; 32].
Lemma month_length leap m : 1 <= m <= 12 -> month_start leap (m + 1) - month_start leap m <= 31.
Proof.
  intros Hm. assert (exists k, (k < 12)%nat /\ m = Z.of_nat k + 1) as (k & Hk & ->) by (exists (Z.to_nat (m - 1)); lia).
  destruct leap; do 12 (destruct k as [|k]; [vm_compute; congruence|]); lia.
Qed.
(** The date shown for a clock of [ns] nanoseconds. *)
Definition date_of (ns : Z) : civil := default (Civil 0 0 0 0 0 0) (civil_of (u32 (u32 (ns `div` 1000000000) + JLOS_WALLCLOCK_UTC_OFFSET_SEC))).
Lemma month_start_pos leap m : 0 <= month_start leap m.
Proof.
  unfold month_start. assert (Forall (fun x => 0 <= x) (take (Z.to_nat (m - 1)) (month_lengths leap))) as HF
    by (apply Forall_take; destruct leap; repeat constructor; lia).
  induction HF; simpl; lia.
Qed.
Lemma realtime_text ns : printk_put_realtime ns = Some (date_text (date_of ns)) /\ valid_civil (date_of ns) /\
  unix_of (date_of ns) = (ns `div` 1000000000 + 8 * 3600) `mod` 2 ^ 32.
Proof.
  unfold printk_put_realtime, date_of. cbv zeta. set (t := u32 (u32 _ + _)). assert (0 <= t < 2 ^ 32) as Ht by (unfold t; zmod).
  assert ((ns `div` 1000000000 + 8 * 3600) `mod` 2 ^ 32 = t) as -> by (unfold t, u32, wrap; rewrite Zplus_mod_idemp_l; done).
  destruct (civil_of_spec t Ht) as (c & E & Hv & Hu). rewrite E. simpl default. split; [|done]. cbn [mbind option_bind].
  destruct Hv as (Hy & Hm & Hd & Hh & Hmi & Hs). pose proof (month_length (leap_year (c_year c)) _ Hm).
  assert (c_year c < 2 ^ 64) as Hy2.
  { pose proof (month_start_pos (leap_year (c_year c)) (c_month c)). unfold unix_of, year_start in Hu. zmod. }
  rewrite put_uint_text by lia. cbn [mbind option_bind]. rewrite !put_padded_text by lia. done.
Qed.

Inductive conversion := CDec | CUns | CHexLow | CHexUp | CPtr | CStr | CChar | CPercent.
Inductive piece := PLit (c : Z) | PNewline | PConv (left_align zero_pad : bool) (width : Z) (l : length_mod) (cv : conversion).
Definition conv_char (cv : conversion) : Z :=
  match cv with CDec => 100 | CUns => 117 | CHexLow => 120 | CHexUp => 88 | CPtr => 112 | CStr => 115 | CChar => 99 | CPercent => 37 end.
Definition length_text (l : length_mod) : list Z := match l with LInt => [] | LLong => [108] | LLongLong => [108; 108] | LSize => [122] end.
Definition piece_text (p : piece) : list Z :=
  match p with
  | PLit c => [c]
  | PNewline => [10]
  | PConv left_align zero_pad width l cv =>
    [37] ++ (if left_align then [45] else []) ++ (if zero_pad then [48] else []) ++ (if width =? 0 then [] else num_text 10 width false) ++ length_text l ++ [conv_char cv]
  end.
Definition piece_ok (p : piece) : Prop :=
  match p with PLit c => c <> 37 /\ c <> 10 | PNewline => True | PConv _ _ width _ _ => 0 <= width < 2 ^ 31 end.
(** The value of an argument of a type with so many bits. *)
Definition bits_of (l : length_mod) : Z := match l with LLongLong => 64 | _ => 32 end.
Definition as_unsigned (l : length_mod) (v : Z) : Z := v `mod` 2 ^ bits_of l.
Definition as_signed (l : length_mod) (v : Z) : Z := (v + 2 ^ (bits_of l - 1)) `mod` 2 ^ bits_of l - 2 ^ (bits_of l - 1).
(** A sign and a text in a field of at least [width] columns, as in C: filled with blanks behind it when
    it is aligned to the left, else before it, or with zeros between the sign and the text. *)
Definition field (sign body : list Z) (width : Z) (left_align zero_pad : bool) : list Z :=
  let missing := Z.to_nat (width - zlen (sign ++ body)) in
  if left_align then sign ++ body ++ replicate missing 32
  else if zero_pad then sign ++ replicate missing 48 ++ body
  else replicate missing 32 ++ sign ++ body.
Definition minus (v : Z) : list Z := if v <? 0 then codes "-" else [].
(** What a directive prints; [%c] and [%%] have no field. *)
Definition conv_text (cv : conversion) (l : length_mod) (width : Z) (left_align zero_pad : bool) (args : list karg) : option (list Z * list karg) :=
  match cv, args with
  | CDec, KNum v :: args => Some (field (minus (as_signed l v)) (num_text 10 (Z.abs (as_signed l v)) false) width left_align zero_pad, args)
  | CUns, KNum v :: args => Some (field [] (num_text 10 (as_unsigned l v) false) width left_align zero_pad, args)
  | CHexLow, KNum v :: args => Some (field [] (num_text 16 (as_unsigned l v) false) width left_align zero_pad, args)
  | CHexUp, KNum v :: args => Some (field [] (num_text 16 (as_unsigned l v) true) width left_align zero_pad, args)
  | CPtr, KNum v :: args => Some (field [] (codes "0x" ++ num_text 16 (v `mod` 2 ^ 32) false) width left_align zero_pad, args)
  | CStr, KStr s :: args => Some (field [] s width left_align false, args)
  | CChar, KNum v :: args => Some ([v `mod` 256], args)
  | CPercent, args => Some (codes "%", args)
  | _, _ => None
  end.
(** No negative number is filled up with zeros. *)
Definition sign_ok (cv : conversion) (l : length_mod) (width : Z) (left_align zero_pad : bool) (args : list karg) : Prop :=
  match cv, args with
  | CDec, KNum v :: _ => left_align = false -> zero_pad = true -> as_signed l v < 0 -> width <= 1 + zlen (num_text 10 (Z.abs (as_signed l v)) false)
  | _, _ => True
  end.
Fixpoint signs_ok (ps : list piece) (args : list karg) : Prop :=
  match ps with
  | [] => True
  | PConv la zp width l cv :: ps =>
    sign_ok cv l width la zp args /\ match conv_text cv l width la zp args with Some (_, args) => signs_ok ps args | None => True end
  | _ :: ps => signs_ok ps args
  end.
Lemma field_length sign body width la zp : zlen (field sign body width la zp) = Z.max width (zlen (sign ++ body)).
Proof. unfold field. destruct la, zp; rewrite !length_app, ?length_replicate; lia. Qed.
(** The code fills up before the sign. *)
Lemma emit_field sign body width la zp : (la = false -> zp = true -> sign = [] \/ width <= zlen (sign ++ body)) ->
  printk_emit_padded (sign ++ body) width la zp = field sign body width la zp.
Proof.
  intros H. unfold printk_emit_padded, field. destruct la; [by rewrite <- app_assoc|]. destruct zp; [|done].
  destruct (H eq_refl eq_refl) as [->|Hw]; [done|]. replace (Z.to_nat (width - zlen (sign ++ body))) with 0%nat by lia. done.
Qed.

Lemma skip_flags_text (la zp : bool) rest : match rest with c :: _ => c <> 45 /\ c <> 48 | [] => True end ->
  skip_flags ((if la then [45] else []) ++ (if zp then [48] else []) ++ rest) false false = (rest, la, zp).
Proof.
  intros H. assert (forall a b, skip_flags rest a b = (rest, a, b)) as K.
  { intros a b. destruct rest as [|c rest]; [done|]. destruct H as [H1 H2]. simpl. by rewrite (proj2 (Z.eqb_neq _ _) H1), (proj2 (Z.eqb_neq _ _) H2). }
  destruct la, zp; simpl; apply K.
Qed.
Lemma value_mono ds : Forall (fun d => 0 <= d < 10) ds -> forall acc, 0 <= acc -> acc <= fold_left (fun acc d => acc * 10 + d) ds acc.
Proof. induction 1 as [|d ds Hd _ IH]; intros acc Ha; simpl; [lia|]. specialize (IH (acc * 10 + d) ltac:(lia)). lia. Qed.
Lemma skip_width_text ds rest : Forall (fun d => 0 <= d < 10) ds -> match rest with c :: _ => c < 48 \/ 57 < c | [] => True end ->
  forall acc, 0 <= acc -> fold_left (fun acc d => acc * 10 + d) ds acc < 2 ^ 31 ->
  skip_width (((fun d => alphabet false !!! Z.to_nat d) <$> ds) ++ rest) acc = Some (rest, fold_left (fun acc d => acc * 10 + d) ds acc).
Proof.
  intros Hds Hrest. induction Hds as [|d ds Hd Hds IH]; intros acc Ha Hlt; simpl.
  - destruct rest as [|c rest]; [done|]. simpl. destruct (Z.leb_spec 48 c), (Z.leb_spec c 57); try done. lia.
  - assert (alphabet false !!! Z.to_nat d = 48 + d) as -> by (rewrite <- digit_sign by lia; unfold digit_char; rewrite (proj2 (Z.ltb_lt d 10)) by lia; done). rewrite (proj2 (Z.leb_le 48 (48 + d))), (proj2 (Z.leb_le (48 + d) 57)) by lia. cbn [andb].
    replace (acc * 10 + (48 + d - 48)) with (acc * 10 + d) by lia. simpl in Hlt. pose proof (value_mono ds Hds (acc * 10 + d) ltac:(lia)).
    rewrite (proj2 (Z.ltb_lt _ _)) by lia. apply IH; lia.
Qed.
Lemma skip_length_text l cv rest : skip_length (length_text l ++ conv_char cv :: rest) = (conv_char cv :: rest, l).
Proof. destruct l, cv; done. Qed.
(** A number behind [pre] in a buffer of 32 bytes. *)
Lemma fmt_behind pre k v base up : base = 10 \/ base = 16 -> 0 <= v < 2 ^ 64 -> (20 <= k)%nat ->
  exists rest, printk_fmt_uint (pre ++ replicate k 0) (zlen pre) v base up = Some (zlen (num_text base v up), pre ++ num_text base v up ++ rest).
Proof.
  intros Hb Hv Hk. pose proof (digits_length base v Hb Hv) as Hl. exists (replicate (k - length (digits base v)) 0).
  replace (replicate k 0) with (replicate (length (digits base v)) 0 ++ replicate (k - length (digits base v)) 0) by (rewrite <- replicate_add; f_equal; lia).
  rewrite fmt_uint_spec, code_num_text by (done || rewrite ?length_replicate; lia). unfold num_text. by rewrite length_fmap.
Qed.
Lemma fmt_int_text v : - 2 ^ 63 <= v < 2 ^ 63 -> ('(n, buf) ← printk_fmt_int number_buf 0 v 10; read_run buf 0 n) = Some (minus v ++ num_text 10 (Z.abs v) false).
Proof.
  intros Hv. unfold printk_fmt_int, minus. destruct (Z.ltb_spec v 0) as [Hn|Hn]; cbn [andb Z.eqb].
  - change (10 =? 10) with true. cbv iota. change (seti number_buf 0 45) with (Some ([45] ++ replicate 31 0)). cbn [mbind option_bind].
    change (0 + 1) with (zlen [45]). rewrite u64_small by lia.
    destruct (fmt_behind [45] 31 (- v) 10 false) as (rest & ->); [by left|lia|lia|]. cbn [mbind option_bind].
    replace (Z.abs v) with (- v) by lia. change (codes "-") with [45]. rewrite app_assoc. rewrite <- (app_nil_l (_ ++ rest)).
    apply read_run_app; [done|]. rewrite length_app. simpl length. lia.
  - rewrite u64_small by lia. replace (Z.abs v) with v by lia. apply (put_uint_text v 10 false); lia.
Qed.
Lemma ptr_text v : 0 <= v < 2 ^ 64 ->
  (buf ← seti number_buf 0 48; buf ← seti buf 1 120; '(n, buf) ← printk_fmt_uint buf 2 v 16 false; read_run buf 0 (2 + n)) = Some ([48; 120] ++ num_text 16 v false).
Proof.
  intros Hv. change (seti number_buf 0 48) with (Some ([48] ++ replicate 31 0)). cbn [mbind option_bind].
  change (seti ([48] ++ replicate 31 0) 1 120) with (Some ([48; 120] ++ replicate 30 0)). cbn [mbind option_bind].
  destruct (fmt_behind [48; 120] 30 v 16 false) as (rest & E); [by right|lia|lia|]. change (zlen [48; 120]) with 2 in E. rewrite E. cbn [mbind option_bind].
  rewrite app_assoc. rewrite <- (app_nil_l (_ ++ rest)). apply read_run_app; [done|]. rewrite length_app. simpl length. lia.
Qed.
Lemma arg_unsigned_range l v : 0 <= arg_unsigned l v < 2 ^ 64.
Proof. unfold arg_unsigned. destruct l; zmod. Qed.
Lemma arg_signed_range l v : - 2 ^ 63 <= arg_signed l v < 2 ^ 63.
Proof.
  unfold arg_signed. destruct l; cbv zeta; try (destruct (Z.ltb_spec (u64 v) (2 ^ 63)); zmod);
    unfold s32, sgn; (destruct (_ <? _)%Z eqn:E || idtac); zmod.
Qed.
Lemma arg_code l v : arg_signed l v = as_signed l v /\ arg_unsigned l v = as_unsigned l v.
Proof.
  split; [|by destruct l]. unfold arg_signed, as_signed. destruct l; cbn [bits_of]; cbv zeta; unfold s32, sgn;
    (destruct (_ <? _)%Z eqn:E; [apply Z.ltb_lt in E|apply Z.ltb_ge in E]); change (32 - 1) with 31 in *; change (64 - 1) with 63 in *; zmod.
Qed.
Lemma convert_text cv l width la zp args : sign_ok cv l width la zp args -> convert (conv_char cv) l width la zp args = conv_text cv l width la zp args.
Proof.
  unfold convert, conv_text. cbv zeta. pose proof (arg_unsigned_range l) as Hu. pose proof (arg_signed_range l) as Hs.
  destruct cv; cbn [conv_char]; cbn [Z.eqb Pos.eqb]; try done; destruct args as [|[v|s] args]; try done; intros H; simpl in H;
    destruct (arg_code l v) as [Es Eu] || idtac.
  - rewrite fmt_int_text by apply Hs. rewrite Es. cbn [mbind option_bind]. rewrite emit_field; [done|]. intros Ha Hz. unfold minus in *.
    destruct (Z.ltb_spec (as_signed l v) 0); [right|by left]. rewrite length_app. simpl length. specialize (H Ha Hz ltac:(lia)). lia.
  - rewrite put_uint_text by (lia || apply Hu). rewrite Eu. cbn [mbind option_bind]. by rewrite <- emit_field by auto.
  - rewrite put_uint_text by (lia || apply Hu). rewrite Eu. cbn [mbind option_bind]. by rewrite <- emit_field by auto.
  - rewrite put_uint_text by (lia || apply Hu). rewrite Eu. cbn [mbind option_bind]. by rewrite <- emit_field by auto.
  - rewrite ptr_text by zmod. cbn [mbind option_bind]. by rewrite <- emit_field by auto.
Qed.

(** The prefix of a line that begins at [ns] nanoseconds. *)
Definition line_prefix (ns level : Z) (subsys func : option (list Z)) : list Z :=
  if level <? 0 then [] else
  date_text (date_of ns) ++ codes "[" ++ [default 63 (codes "PACEWNID" !! Z.to_nat level)] ++ codes "] [" ++ default [] subsys ++ codes "] " ++
  match func with Some f => codes "[" ++ f ++ codes "] " | None => [] end.
Lemma level_letter level : 0 <= level -> printk_level_char level = default 63 (codes "PACEWNID" !! Z.to_nat level).
Proof.
  intros Hl. destruct (Z_lt_dec level 8).
  - assert (exists k, (k < 8)%nat /\ level = Z.of_nat k) as (k & Hk & ->) by (exists (Z.to_nat level); lia). rewrite Nat2Z.id.
    do 8 (destruct k as [|k]; [done|]). lia.
  - rewrite lookup_ge_None_2 by (change (length (codes "PACEWNID")) with 8%nat; lia). unfold printk_level_char.
    destruct level as [|p|]; try lia. do 3 (destruct p as [p|p|]; try done; try lia).
Qed.
Lemma prefix_text ns level subsys func : printk_print_prefix ns level subsys func = Some (line_prefix ns level subsys func).
Proof.
  unfold printk_print_prefix, line_prefix. destruct (Z.ltb_spec level 0); [done|]. destruct (realtime_text ns) as [-> _].
  rewrite level_letter by lia. done.
Qed.

(** What a list of directives prints, with the prefix of each line where its first character is printed. *)
Fixpoint render (prefix : nat -> list Z) (ps : list piece) (start : bool) (lines : nat) (args : list karg) : option (list Z) :=
  match ps with
  | [] => Some []
  | PNewline :: ps => out ← render prefix ps true lines args; Some (10 :: out)
  | PLit c :: ps =>
    out ← render prefix ps false (if start then S lines else lines) args;
    Some ((if start then prefix lines else []) ++ c :: out)
  | PConv la zp width l cv :: ps =>
    '(s, args) ← conv_text cv l width la zp args;
    out ← render prefix ps false (if start then S lines else lines) args;
    Some ((if start then prefix lines else []) ++ s ++ out)
  end.
Lemma digits_head base v : 1 < base -> 0 <= v < 2 ^ 64 -> head (digits base v) = Some 0 -> digits base v = [0].
Proof.
  intros Hb Hv. unfold digits. destruct (Z.eqb_spec v 0); [done|]. destruct (low_digits_value base 64 Hb v Hv) as (_ & _ & HL).
  destruct (HL ltac:(lia)) as (d & El & Hd). rewrite head_lookup. destruct (low_digits 64 base v) as [|x l] using rev_ind; [done|].
  rewrite last_snoc in El. injection El as ->. rewrite rev_app_distr. simpl. congruence.
Qed.
Lemma num_text_head w : 0 < w < 2 ^ 31 -> exists c cs, num_text 10 w false = c :: cs /\ 48 < c <= 57.
Proof.
  intros Hw. unfold num_text, digits. rewrite (proj2 (Z.eqb_neq w 0)) by lia. destruct (low_digits_value 10 64 ltac:(lia) w ltac:(lia)) as (_ & HF & HL).
  destruct (HL ltac:(lia)) as (d & El & Hd). destruct (low_digits 64 10 w) as [|x l] using rev_ind; [done|]. rewrite last_snoc in El. injection El as ->.
  rewrite rev_app_distr. apply Forall_app in HF as [_ HF]. inversion_clear HF. simpl. eexists _, _. split; [done|]. cbn beta. rewrite <- digit_sign by lia. unfold digit_char. rewrite (proj2 (Z.ltb_lt d 10)) by lia. lia.
Qed.
Lemma parse_directive (la zp : bool) width l cv rest : 0 <= width < 2 ^ 31 ->
  let fmt := (if la then [45] else []) ++ (if zp then [48] else []) ++ (if width =? 0 then [] else num_text 10 width false) ++ length_text l ++ conv_char cv :: rest in
  exists fmt', skip_flags fmt false false = (fmt', la, zp) /\ skip_width fmt' 0 = Some (length_text l ++ conv_char cv :: rest, width).
Proof.
  intros Hw. cbv zeta. assert (match length_text l ++ conv_char cv :: rest with c :: _ => c < 48 \/ 57 < c | [] => True end) as Hl by (destruct l, cv; simpl; lia).
  assert (match length_text l ++ conv_char cv :: rest with c :: _ => c <> 45 /\ c <> 48 | [] => True end) as Hl2 by (destruct l, cv; simpl; lia).
  eexists. split.
  - apply skip_flags_text. destruct (Z.eqb_spec width 0); [exact Hl2|]. destruct (num_text_head width ltac:(lia)) as (c & cs & -> & Hc). simpl. lia.
  - destruct (Z.eqb_spec width 0) as [->|]; [apply (skip_width_text [] _); [constructor|done|lia|simpl; lia]|].
    destruct (digits_value 10 width ltac:(lia) ltac:(lia)) as [Hv Hd]. unfold num_value in Hv. unfold num_text. rewrite <- Hv at 2. apply skip_width_text; [done|done|lia|rewrite Hv; lia].
Qed.
Section printk_spec.
Context (clock : nat -> Z) (level : Z) (subsys func : option (list Z)).
Lemma printk_loop_spec ps : Forall piece_ok ps -> forall fuel start lines args, signs_ok ps args -> (length (concat (piece_text <$> ps)) <= fuel)%nat ->
  printk_loop clock level subsys func fuel (concat (piece_text <$> ps)) start lines args =
  render (fun k => line_prefix (clock k) level subsys func) ps start lines args.
Proof.
  induction 1 as [|p ps Hp _ IH]; intros fuel start lines args Hsg Hf; [by destruct fuel|].
  assert ((if start then printk_print_prefix (clock lines) level subsys func else Some []) = Some (if start then line_prefix (clock lines) level subsys func else [])) as Hpre.
  { destruct start; [apply prefix_text|done]. }
  destruct p as [c| |la zp width l cv]; cbn [fmap list_fmap concat piece_text] in Hf |- *; rewrite ?length_app in Hf; simpl length in Hf; (destruct fuel as [|fuel]; [lia|]).
  - destruct Hp as [H1 H2]. cbn [app printk_loop]. rewrite (proj2 (Z.eqb_neq _ _) H2), Hpre. cbn [mbind option_bind]. cbv zeta.
    rewrite (proj2 (Z.eqb_neq _ _) H1). rewrite IH by (done || lia). done.
  - cbn [app printk_loop]. rewrite IH by (done || lia). done.
  - cbn [app printk_loop]. cbv zeta. change (37 =? 10) with false. cbv iota. rewrite Hpre. cbn [mbind option_bind]. change (37 =? 37) with true. cbv iota.
    destruct (parse_directive la zp width l cv (concat (piece_text <$> ps)) Hp) as (fmt' & E1 & E2). cbv zeta in E1.
    rewrite <- !app_assoc. cbn [app] in E1 |- *. rewrite E1, E2. cbn [mbind option_bind]. destruct Hsg as [Hs1 Hs2]. rewrite skip_length_text, convert_text by done.
    cbn [render]. destruct (conv_text cv l width la zp args) as [[s args']|]; [|done]. cbn [mbind option_bind]. rewrite IH; [done|done|].
    rewrite ?length_app in Hf. simpl length in Hf. lia.
Qed.
End printk_spec.

(** C38. A format string prints as the C directives it is written from say, for the conversions the code knows,
    with flags, width and length.  A number prints as the shortest text in its base with its value, in a field of
    exactly the larger of its width and its length, filled with blanks behind it or before it, or with zeros;
    excepted are negative numbers that zeros have to fill up ([zeros_before_sign]).  [%c] and [%%] ignore the width, and
    a long has 32 bits.  Each line begins, where its first character is printed, with its prefix: a date that is one and stands for the clock
    eight hours east, the letter of the level, the subsystem and the function.  Messages above the log level print nothing. *)
Theorem printk_correct clock level subsys func loglevel ps args : Forall piece_ok ps -> signs_ok ps args ->
  printk clock level subsys func loglevel (concat (piece_text <$> ps)) args =
    (if (loglevel <? level) && (0 <=? level) then Some [] else render (fun k => line_prefix (clock k) level subsys func) ps true 0 args) /\
  (forall k, valid_civil (date_of (clock k)) /\
    unix_of (date_of (clock k)) = (clock k `div` 1000000000 + 8 * 3600) `mod` 2 ^ 32) /\
  (forall base v, base = 10 \/ base = 16 -> 0 <= v < 2 ^ 64 ->
    num_value base (digits base v) = v /\ Forall (fun d => 0 <= d < base) (digits base v) /\ (head (digits base v) = Some 0 -> digits base v = [0])) /\
  (forall sign body width left zero, zlen (field sign body width left zero) = Z.max width (zlen (sign ++ body))).
Proof.
  intros H Hs. split_and!.
  - unfold printk. destruct (_ && _); [done|]. by apply printk_loop_spec.
  - intros k. apply realtime_text.
  - intros base v Hb Hv. destruct (digits_value base v ltac:(lia) Hv) as [H1 H2]. split_and!; [done|done|]. apply digits_head; lia.
  - apply field_length.
Qed.

(** ["%-4u|%05d %3d\n"]. *)
Definition sample_pieces : list piece :=
  [PConv true false 4 LInt CUns; PLit 124; PConv false true 5 LInt CDec; PLit 32; PConv false false 3 LInt CDec; PNewline].
Lemma printk_correct_witness : printk (fun _ => 0) (-1) None None 7 (concat (piece_text <$> sample_pieces)) [KNum 7; KNum 42; KNum (-5)] =
  Some (codes "7   |00042  -5" ++ [10]).
Proof.
  destruct (printk_correct (fun _ => 0) (-1) None None 7 sample_pieces [KNum 7; KNum 42; KNum (-5)]) as [E _].
  - repeat constructor; simpl; lia.
  - cbn. split_and!; try done.
  - rewrite E. vm_compute. reflexivity.
Defined.
(** A negative number filled up with zeros has them before its sign. *)
Example zeros_before_sign : printk (fun _ => 0) (-1) None None 7 (codes "%05d") [KNum (-42)] = Some (codes "00-42") /\
  conv_text CDec LInt 5 false true [KNum (-42)] = Some (codes "-0042", []).
Proof. vm_compute. done. Qed.
(** A format that ends in a directive without its letter is read behind its end. *)
Example format_overrun : printk (fun _ => 0) (-1) None None 7 [49; 48; 48; 37] [] = None.
Proof. vm_compute. done. Qed.
