(* ===== verification/Fdt.v ===== *)
(** * The flattened device tree ([common/hardware/fdt.c])

    The blob is the list of its bytes; an access outside it is [None].  Offsets are
    32-bit words; a result of -1 or a null pointer is an inner [None], and pointers into the
    blob are the indices of its bytes. *)
From S2P Require Import Prelude Bytes.

Definition JLOS_FDT_MAGIC : Z := 0xD00DFEED.
Definition JLOS_FDT_BEGIN_NODE : Z := 1.
Definition JLOS_FDT_END_NODE : Z := 2.
Definition JLOS_FDT_PROP : Z := 3.
Definition JLOS_FDT_NOP : Z := 4.
Definition JLOS_FDT_TOKEN_SIZE : Z := 4.
Definition JLOS_FDT_PROP_HEADER_SIZE : Z := 3 * JLOS_FDT_TOKEN_SIZE.
(** JLOS_ALIGN_UP to JLOS_FDT_ALIGN. *)
Definition align4 (x : Z) : Z := Z.land (u32 (x + 3)) (not32 3).

(** [s_dtb], [s_struct_off], [s_struct_size] and [s_strings_off]. *)
Record fdt := Fdt { s_dtb : list Z; s_struct_off : Z; s_struct_size : Z; s_strings_off : Z }.

Definition fdt_addr (f : fdt) (off : Z) : Z := u32 (s_struct_off f + off).
Definition fdt_str (f : fdt) (off : Z) : Z := u32 (s_strings_off f + off).
Definition fdt_be32 (m : list Z) (a : Z) : option Z :=
  b3 ← geti m a; b2 ← geti m (a + 1); b1 ← geti m (a + 2); b0 ← geti m (a + 3); Some (le32 b0 b1 b2 b3).
Definition fdt_tag (f : fdt) (off : Z) : option Z := fdt_be32 (s_dtb f) (fdt_addr f off).

(** [jlos_strlen] of the string at an address; the blob is longer than any string in it. *)
Fixpoint strlen_at (fuel : nat) (m : list Z) (a : Z) : option Z :=
  c ← geti m a;
  if c =? 0 then Some 0 else match fuel with O => None | S fuel => n ← strlen_at fuel m (a + 1); Some (n + 1) end.
Definition fdt_node_name_end (f : fdt) (node : Z) : option Z :=
  n ← strlen_at (length (s_dtb f)) (s_dtb f) (fdt_addr f (u32 (node + JLOS_FDT_TOKEN_SIZE)));
  Some (align4 (u32 (node + JLOS_FDT_TOKEN_SIZE) + n + 1)).
(** [jlos_strncmp] of the string at an address with [name], and the character behind. *)
Fixpoint name_eq_at (m : list Z) (a : Z) (name : list Z) : option bool :=
  c ← geti m a;
  match name with
  | [] => Some ((c =? 0) || (c =? 64))
  | x :: name => if negb (c =? 0) && (c =? x) then name_eq_at m (a + 1) name else Some false
  end.
Definition fdt_node_name_eq (f : fdt) (node : Z) (name : list Z) : option bool :=
  name_eq_at (s_dtb f) (fdt_addr f (u32 (node + JLOS_FDT_TOKEN_SIZE))) name.
(** [jlos_strcmp] of the string at an address with [name] is 0. *)
Fixpoint str_eq_at (m : list Z) (a : Z) (name : list Z) : option bool :=
  c ← geti m a;
  match name with
  | [] => Some (c =? 0)
  | x :: name => if negb (c =? 0) && (c =? x) then str_eq_at m (a + 1) name else Some false
  end.

(** The offset behind a property. *)
Definition prop_end (f : fdt) (off : Z) : option Z :=
  len ← fdt_be32 (s_dtb f) (fdt_addr f (u32 (off + JLOS_FDT_TOKEN_SIZE)));
  Some (u32 (off + u32 (JLOS_FDT_PROP_HEADER_SIZE + align4 len))).
Definition more (f : fdt) (off : Z) : bool := u32 (off + JLOS_FDT_TOKEN_SIZE) <=? s_struct_size f.

(** The loop of [fdt_skip_subtree]. *)
Fixpoint subtree_loop (fuel : nat) (f : fdt) (off depth : Z) : option Z :=
  if more f off then
    match fuel with
    | O => None
    | S fuel =>
      tag ← fdt_tag f off;
      if tag =? JLOS_FDT_BEGIN_NODE then off ← fdt_node_name_end f off; subtree_loop fuel f off (u32 (depth + 1))
      else if tag =? JLOS_FDT_END_NODE then
        let depth := u32 (depth - 1) in let off := u32 (off + JLOS_FDT_TOKEN_SIZE) in
        if depth =? 0 then Some off else subtree_loop fuel f off depth
      else if tag =? JLOS_FDT_PROP then off ← prop_end f off; subtree_loop fuel f off depth
      else if tag =? JLOS_FDT_NOP then subtree_loop fuel f (u32 (off + JLOS_FDT_TOKEN_SIZE)) depth
      else Some (s_struct_size f)
    end
  else Some (s_struct_size f).
Definition fdt_skip_subtree (fuel : nat) (f : fdt) (node : Z) : option Z :=
  off ← fdt_node_name_end f node; subtree_loop fuel f off 1.

Fixpoint child_loop (fuel : nat) (f : fdt) (off : Z) : option Z :=
  if more f off then
    match fuel with
    | O => None
    | S fuel =>
      tag ← fdt_tag f off;
      if tag =? JLOS_FDT_BEGIN_NODE then Some off
      else if tag =? JLOS_FDT_END_NODE then Some 0
      else if tag =? JLOS_FDT_PROP then off ← prop_end f off; child_loop fuel f off
      else if tag =? JLOS_FDT_NOP then child_loop fuel f (u32 (off + JLOS_FDT_TOKEN_SIZE))
      else Some 0
    end
  else Some 0.
Definition fdt_first_child (fuel : nat) (f : fdt) (parent : Z) : option Z :=
  off ← fdt_node_name_end f parent; child_loop fuel f off.
Definition fdt_next_sibling (fuel : nat) (f : fdt) (node : Z) : option Z :=
  off ← fdt_skip_subtree fuel f node;
  if more f off then tag ← fdt_tag f off; Some (if tag =? JLOS_FDT_BEGIN_NODE then off else 0) else Some 0.

(** -1 is [Some None]. *)
Definition jlos_fdt_init (dtb : list Z) : option (option fdt) :=
  magic ← fdt_be32 dtb 0;
  if negb (magic =? JLOS_FDT_MAGIC) then Some None else
  totalsize ← fdt_be32 dtb 4;
  struct_off ← fdt_be32 dtb 8;
  struct_size ← fdt_be32 dtb 36;
  strings_off ← fdt_be32 dtb 12;
  if (struct_off =? 0) || (totalsize <=? struct_off) || (totalsize <=? strings_off) then Some None else
  let struct_size := if struct_size =? 0 then totalsize - struct_off else struct_size in
  if totalsize <? u32 (struct_off + struct_size) then Some None else
  Some (Some (Fdt dtb struct_off struct_size strings_off)).

(** The loop over the children from [c] on: the one with the name, or 0. *)
Fixpoint find_child (fuel : nat) (f : fdt) (c : Z) (name : list Z) : option Z :=
  if c =? 0 then Some 0 else
  match fuel with
  | O => None
  | S fuel' =>
    eq ← fdt_node_name_eq f c name;
    if eq : bool then Some c else c ← fdt_next_sibling fuel f c; find_child fuel' f c name
  end.
Fixpoint skip_slashes (p : list Z) : list Z := match p with c :: p' => if c =? 47 then skip_slashes p' else p | [] => [] end.
Fixpoint take_segment (p : list Z) : list Z * list Z :=
  match p with c :: p' => if c =? 47 then ([], p) else let '(s, r) := take_segment p' in (c :: s, r) | [] => ([], []) end.
(** The loop over the segments of the path; there are fewer than characters. *)
Fixpoint path_loop (n fuel : nat) (f : fdt) (node : Z) (p : list Z) : option (option Z) :=
  match p with
  | [] => Some (Some node)
  | _ =>
    match n with
    | O => None
    | S n =>
      let '(seg, rest) := take_segment p in
      c ← fdt_first_child fuel f node;
      found ← find_child fuel f c seg;
      if found =? 0 then Some None else path_loop n fuel f found (skip_slashes rest)
    end
  end.
Definition jlos_fdt_find_node (fuel : nat) (f : fdt) (path : list Z) : option (option Z) :=
  match path with
  | c :: _ => if c =? 47 then path_loop (length path) fuel f 0 (skip_slashes path) else Some None
  | [] => Some None
  end.
Definition jlos_fdt_find_subnode (fuel : nat) (f : fdt) (parent : Z) (name : list Z) : option (option Z) :=
  if parent <? 0 then Some None else
  c ← fdt_first_child fuel f parent; c ← find_child fuel f c name; Some (if c =? 0 then None else Some c).
Definition jlos_fdt_first_subnode (fuel : nat) (f : fdt) (parent : Z) : option (option Z) :=
  if parent <? 0 then Some None else c ← fdt_first_child fuel f parent; Some (if c =? 0 then None else Some c).
Definition jlos_fdt_next_subnode (fuel : nat) (f : fdt) (node : Z) : option (option Z) :=
  if node <? 0 then Some None else n ← fdt_next_sibling fuel f node; Some (if n =? 0 then None else Some n).
Definition jlos_fdt_get_node_name (f : fdt) (node : Z) : option Z :=
  if node <? 0 then None else Some (fdt_addr f (u32 (node + JLOS_FDT_TOKEN_SIZE))).

(** The address and length of the value. *)
Fixpoint prop_loop (fuel : nat) (f : fdt) (off : Z) (name : list Z) : option (option (Z * Z)) :=
  if more f off then
    match fuel with
    | O => None
    | S fuel =>
      tag ← fdt_tag f off;
      if tag =? JLOS_FDT_PROP then
        len32 ← fdt_be32 (s_dtb f) (fdt_addr f (u32 (off + JLOS_FDT_TOKEN_SIZE)));
        name_off ← fdt_be32 (s_dtb f) (fdt_addr f (u32 (off + 2 * JLOS_FDT_TOKEN_SIZE)));
        eq ← str_eq_at (s_dtb f) (fdt_str f name_off) name;
        if eq : bool then Some (Some (fdt_addr f (u32 (off + JLOS_FDT_PROP_HEADER_SIZE)), len32))
        else prop_loop fuel f (u32 (off + u32 (JLOS_FDT_PROP_HEADER_SIZE + align4 len32))) name
      else if tag =? JLOS_FDT_NOP then prop_loop fuel f (u32 (off + JLOS_FDT_TOKEN_SIZE)) name
      else Some None
    end
  else Some None.
Definition jlos_fdt_get_prop (fuel : nat) (f : fdt) (node : Z) (name : list Z) : option (option (Z * Z)) :=
  if node <? 0 then Some None else off ← fdt_node_name_end f node; prop_loop fuel f off name.
Definition jlos_fdt_read_u32 (f : fdt) (prop : Z) : option Z := fdt_be32 (s_dtb f) prop.
Definition jlos_fdt_read_u64 (f : fdt) (prop : Z) : option Z :=
  hi ← fdt_be32 (s_dtb f) prop; lo ← fdt_be32 (s_dtb f) (prop + 4); Some (Z.lor (Z.shiftl hi 32) lo).
Definition jlos_fdt_get_prop_u32 (fuel : nat) (f : fdt) (node : Z) (name : list Z) : option (option Z) :=
  p ← jlos_fdt_get_prop fuel f node name;
  match p with None => Some None | Some (a, _) => v ← jlos_fdt_read_u32 f a; Some (Some v) end.
