(* ===== verification/FdtInv.v ===== *)
(** * The flattened device tree: reading what was written

    A tree of nodes with properties is laid out as the format says ([encode]); walking,
    finding nodes by path and reading properties then agree with the tree. *)
From S2P Require Import Prelude Bytes Fdt.

(** ** Trees and their encoding *)

#[local] Set Warnings "-register-all".
Record prop := Prop_ { p_name : list Z; p_off : Z; p_value : list Z }.
Inductive tree := Tree (name : list Z) (props : list prop) (kids : list tree).
Definition t_name (t : tree) : list Z := let '(Tree n _ _) := t in n.
Definition t_props (t : tree) : list prop := let '(Tree _ p _) := t in p.
Definition t_kids (t : tree) : list tree := let '(Tree _ _ k) := t in k.
Lemma tree_ind' (P : tree -> Prop) : (forall n p k, Forall P k -> P (Tree n p k)) -> forall t, P t.
Proof.
  intros H. fix F 1. intros [n p k]. apply H. induction k as [|t k IH]; constructor; [apply F|exact IH].
Qed.

Definition be32 (v : Z) : list Z := [byte_of v 3; byte_of v 2; byte_of v 1; byte_of v 0].
(** Filled up to a multiple of four. *)
Definition fill4 (s : list Z) : list Z := s ++ replicate (Z.to_nat ((- zlen s) `mod` 4)) 0.
Definition encode_name (n : list Z) : list Z := fill4 (n ++ [0]).
Definition encode_prop (p : prop) : list Z := be32 JLOS_FDT_PROP ++ be32 (zlen (p_value p)) ++ be32 (p_off p) ++ fill4 (p_value p).
Fixpoint encode (t : tree) : list Z :=
  let '(Tree n ps ks) := t in
  be32 JLOS_FDT_BEGIN_NODE ++ encode_name n ++ concat (encode_prop <$> ps) ++ concat (map encode ks) ++ be32 JLOS_FDT_END_NODE.
Lemma encode_eq n ps ks : encode (Tree n ps ks) =
  be32 JLOS_FDT_BEGIN_NODE ++ encode_name n ++ concat (encode_prop <$> ps) ++ concat (map encode ks) ++ be32 JLOS_FDT_END_NODE.
Proof. done. Qed.
(** The number of tokens. *)
Fixpoint tokens (t : tree) : nat := let '(Tree _ ps ks) := t in (2 + length ps + sum_list (map tokens ks))%nat.

Definition no_nul (s : list Z) : Prop := Forall (fun c => 0 < c < 256) s.

Lemma fill4_length s : zlen (fill4 s) = zlen s + (- zlen s) `mod` 4 /\ zlen (fill4 s) `mod` 4 = 0 /\ zlen s <= zlen (fill4 s) < zlen s + 4.
Proof. unfold fill4. rewrite length_app, length_replicate. rewrite Nat2Z.inj_add, Z2Nat.id by (apply Z.mod_pos_bound; lia). zmod. Qed.
Lemma align4_up x : 0 <= x < 2 ^ 32 - 3 -> align4 x = x + (- x) `mod` 4.
Proof.
  intros Hx. unfold align4. rewrite u32_small by lia. change (not32 3) with (not32 (2 ^ 2 - 1)). rewrite land_not_mask by lia. change (2 ^ 2) with 4. zmod.
Qed.
Lemma be32_length v : length (be32 v) = 4%nat.
Proof. done. Qed.

(** ** Bytes at an offset of the structure block *)

Section fdt.
Context (f : fdt).
(** The bytes [bs] lie at offset [off]. *)
Definition at_off (off : Z) (bs : list Z) : Prop :=
  0 <= off /\ off + zlen bs <= s_struct_size f /\ exists pre post, s_dtb f = pre ++ bs ++ post /\ zlen pre = s_struct_off f + off.
Definition sound : Prop := 0 <= s_struct_off f /\ s_struct_off f + s_struct_size f <= zlen (s_dtb f) /\ zlen (s_dtb f) < 2 ^ 31.
Context (Hf : sound).

Lemma at_off_app off a c : at_off off (a ++ c) -> at_off off a /\ at_off (off + zlen a) c.
Proof.
  intros (H0 & Hs & pre & post & E & Hp). rewrite length_app in Hs. split.
  - split; [done|]. split; [lia|]. exists pre, (c ++ post). by rewrite E, <- app_assoc.
  - split; [lia|]. split; [lia|]. exists (pre ++ a), post. rewrite E, length_app. split; [by rewrite <- !app_assoc|lia].
Qed.
Lemma at_addr off bs : at_off off bs -> fdt_addr f off = s_struct_off f + off /\ s_struct_off f + off + zlen bs <= zlen (s_dtb f) /\ 0 <= off /\ off + zlen bs <= s_struct_size f < 2 ^ 31.
Proof.
  intros (H0 & Hs & pre & post & E & Hp). destruct Hf as (H1 & H2 & H3). split; [apply u32_small; lia|]. lia.
Qed.
Lemma at_geti off bs i : at_off off bs -> 0 <= i < zlen bs -> geti (s_dtb f) (s_struct_off f + off + i) = geti bs i.
Proof.
  intros (H0 & Hs & pre & post & E & Hp) Hi. rewrite E. destruct (geti_Some bs i Hi) as (c & Ec & _). rewrite Ec.
  apply (geti_mid pre bs post _ i c); [lia|done].
Qed.
Lemma be32_read (m : list Z) a v : 0 <= v < 2 ^ 32 -> (forall i, 0 <= i < 4 -> geti m (a + i) = geti (be32 v) i) -> fdt_be32 m a = Some v.
Proof.
  intros Hv H. unfold fdt_be32. pose proof (H 0 ltac:(lia)) as H0. rewrite Z.add_0_r in H0. rewrite H0, (H 1), (H 2), (H 3) by lia.
  change (geti (be32 v) 0) with (Some (byte_of v 3)). change (geti (be32 v) 1) with (Some (byte_of v 2)).
  change (geti (be32 v) 2) with (Some (byte_of v 1)). change (geti (be32 v) 3) with (Some (byte_of v 0)).
  cbn [mbind option_bind]. f_equal. by apply le32_bytes.
Qed.
Lemma word_at off v bs : 0 <= v < 2 ^ 32 -> at_off off (be32 v ++ bs) -> fdt_be32 (s_dtb f) (fdt_addr f off) = Some v.
Proof.
  intros Hv Ha. destruct (at_off_app _ _ _ Ha) as [H1 _]. destruct (at_addr _ _ H1) as (-> & _). apply be32_read; [done|].
  intros i Hi. by apply at_geti.
Qed.
Lemma more_at off bs : at_off off bs -> 4 <= zlen bs -> more f off = true.
Proof. intros Ha Hl. destruct (at_addr _ _ Ha) as (_ & _ & H1 & H2). unfold more, JLOS_FDT_TOKEN_SIZE. rewrite u32_small by lia. apply Z.leb_le. lia. Qed.
Lemma tag_at off v bs : 0 <= v < 2 ^ 32 -> at_off off (be32 v ++ bs) -> fdt_tag f off = Some v /\ more f off = true.
Proof. intros Hv Ha. split; [by apply (word_at off v bs)|]. apply (more_at off _ Ha). rewrite length_app, be32_length. lia. Qed.

(** Strings. *)
Definition str_here (a : Z) (s : list Z) : Prop := 0 <= a /\ exists pre post, s_dtb f = pre ++ (s ++ [0]) ++ post /\ zlen pre = a.
Lemma str_here_cons a c s : str_here a (c :: s) -> geti (s_dtb f) a = Some c /\ str_here (a + 1) s.
Proof.
  intros (H0 & pre & post & E & Hp). split.
  - rewrite E. apply (geti_mid pre ((c :: s) ++ [0]) post a 0 c); [lia|done].
  - split; [lia|]. exists (pre ++ [c]), post. rewrite E, length_app. split; [rewrite <- !app_assoc; done|simpl; lia].
Qed.
Lemma str_here_nil a : str_here a [] -> geti (s_dtb f) a = Some 0.
Proof. intros (H0 & pre & post & E & Hp). rewrite E. apply (geti_mid pre ([] ++ [0]) post a 0 0); [lia|done]. Qed.
Lemma strlen_here s : no_nul s -> forall a fuel, str_here a s -> (length s <= fuel)%nat -> strlen_at fuel (s_dtb f) a = Some (zlen s).
Proof.
  induction 1 as [|c s Hc _ IH]; intros a fuel Ha Hl.
  - destruct fuel; cbn [strlen_at]; rewrite (str_here_nil a Ha); done.
  - destruct fuel as [|fuel]; [simpl in Hl; lia|]. cbn [strlen_at]. destruct (str_here_cons _ _ _ Ha) as [-> Ha']. cbn [mbind option_bind].
    rewrite (proj2 (Z.eqb_neq c 0)) by lia. rewrite (IH _ fuel Ha') by (simpl in Hl; lia). cbn [mbind option_bind]. f_equal. simpl length. lia.
Qed.
Lemma str_eq_here name : no_nul name -> forall a s, no_nul s -> str_here a s -> str_eq_at (s_dtb f) a name = Some (bool_decide (s = name)).
Proof.
  induction 1 as [|x name Hx _ IH]; intros a s Hs Ha; cbn [str_eq_at].
  - destruct s as [|c s]; [rewrite (str_here_nil a Ha); done|]. destruct (str_here_cons _ _ _ Ha) as [-> _]. cbn [mbind option_bind].
    inversion_clear Hs. rewrite (proj2 (Z.eqb_neq c 0)) by lia. by rewrite bool_decide_eq_false_2.
  - destruct s as [|c s]; [rewrite (str_here_nil a Ha); cbn [mbind option_bind]; by rewrite bool_decide_eq_false_2|].
    destruct (str_here_cons _ _ _ Ha) as [-> Ha']. cbn [mbind option_bind]. inversion_clear Hs as [|? ? Hc Hs']. rewrite (proj2 (Z.eqb_neq c 0)) by lia. cbn [negb andb].
    destruct (Z.eqb_spec c x) as [->|Hne].
    + rewrite (IH _ s Hs' Ha'). f_equal. apply bool_decide_ext. split; congruence.
    + rewrite bool_decide_eq_false_2 by congruence. done.
Qed.

(** ** Steps over names and properties *)

Definition prop_ok (p : prop) : Prop := 0 <= p_off p < 2 ^ 32 /\ no_nul (p_name p) /\ str_here (fdt_str f (p_off p)) (p_name p).
Inductive tree_ok : tree -> Prop :=
  | tree_ok_intro n ps ks : no_nul n -> Forall prop_ok ps -> Forall tree_ok ks -> tree_ok (Tree n ps ks).

Lemma encode_name_length n : zlen (encode_name n) `mod` 4 = 0 /\ 1 <= zlen (encode_name n).
Proof. unfold encode_name. destruct (fill4_length (n ++ [0])) as (_ & H2 & H3). rewrite length_app in H3. simpl length in H3. lia. Qed.
Lemma encode_prop_length p : zlen (encode_prop p) = 12 + zlen (fill4 (p_value p)) /\ zlen (encode_prop p) `mod` 4 = 0.
Proof. unfold encode_prop. rewrite !length_app, !be32_length. destruct (fill4_length (p_value p)) as (_ & H2 & _). split; [lia|]. zmod. Qed.
Lemma concat_aligned {A} (g : A -> list Z) l : (forall x, x ∈ l -> zlen (g x) `mod` 4 = 0) -> zlen (concat (map g l)) `mod` 4 = 0.
Proof.
  induction l as [|x l IH]; intros H; [done|]. simpl. rewrite length_app. pose proof (H x ltac:(apply elem_of_cons; by left)).
  pose proof (IH ltac:(intros y Hy; apply H, elem_of_cons; by right)). zmod.
Qed.
Lemma encode_length t : zlen (encode t) `mod` 4 = 0 /\ 8 <= zlen (encode t).
Proof.
  induction t as [n ps ks IH] using tree_ind'. rewrite encode_eq, !length_app. rewrite Forall_forall in IH.
  destruct (encode_name_length n). pose proof (concat_aligned encode_prop ps (fun p _ => proj2 (encode_prop_length p))) as Hp.
  pose proof (concat_aligned encode ks (fun k Hk => proj1 (IH k Hk))) as Hk. change (encode_prop <$> ps) with (map encode_prop ps). rewrite !be32_length. split; [zmod|lia].
Qed.
Lemma name_end_at off n bs : no_nul n -> off `mod` 4 = 0 -> at_off off (be32 JLOS_FDT_BEGIN_NODE ++ encode_name n ++ bs) ->
  fdt_node_name_end f off = Some (off + 4 + zlen (encode_name n)) /\ str_here (fdt_addr f (u32 (off + 4))) n.
Proof.
  intros Hn Ho Ha. destruct (at_off_app _ _ _ Ha) as [_ H1]. rewrite be32_length in H1. change (Z.of_nat 4) with 4 in H1.
  destruct (at_off_app _ _ _ H1) as [H2 _]. destruct (at_addr _ _ H2) as (Ead & _ & Hlo & Hhi). pose proof (at_addr _ _ Ha) as (_ & _ & Hoff & _).
  assert (str_here (fdt_addr f (u32 (off + 4))) n) as Hs.
  { rewrite u32_small by lia. rewrite Ead. destruct Hf as (? & ? & ?). split; [lia|]. destruct H2 as (_ & _ & pre & post & E & Hp). unfold encode_name, fill4 in E.
    eexists pre, _. split; [by rewrite E, <- (app_assoc (n ++ [0]))|done]. }
  split; [|done]. unfold fdt_node_name_end, JLOS_FDT_TOKEN_SIZE. destruct (fill4_length (n ++ [0])) as (Hl1 & _ & Hl2). rewrite length_app in Hl1, Hl2. simpl length in Hl1, Hl2.
  unfold encode_name in *. rewrite (strlen_here n Hn _ _ Hs).
  - cbn [mbind option_bind]. f_equal. rewrite u32_small by lia. rewrite align4_up by lia. rewrite Hl1. zmod.
  - destruct Hs as (_ & pre & post & E & _). rewrite E, !length_app. lia.
Qed.
Lemma prop_end_at off p bs : prop_ok p -> at_off off (encode_prop p ++ bs) -> prop_end f off = Some (off + zlen (encode_prop p)).
Proof.
  intros (Hp & _ & _) Ha. unfold encode_prop in Ha. rewrite <- !app_assoc in Ha. destruct (at_off_app _ _ _ Ha) as [_ H1]. rewrite be32_length in H1.
  change (Z.of_nat 4) with 4 in H1. destruct (at_addr _ _ H1) as (_ & _ & Hlo & Hhi). rewrite !length_app, !be32_length in Hhi. pose proof (at_addr _ _ Ha) as (_ & _ & Hoff & _).
  destruct (fill4_length (p_value p)) as (Hl1 & _ & Hl2). unfold prop_end, JLOS_FDT_TOKEN_SIZE, JLOS_FDT_PROP_HEADER_SIZE. rewrite (u32_small (off + 4)) by lia.
  rewrite (word_at (off + 4) (zlen (p_value p)) _ ltac:(lia) H1). cbn [mbind option_bind]. f_equal. rewrite align4_up by lia.
  destruct (encode_prop_length p) as [-> _]. rewrite Hl1. unfold JLOS_FDT_TOKEN_SIZE. rewrite (u32_small (3 * 4 + _)) by lia. rewrite u32_small by lia. lia.
Qed.

(** ** Walking *)

Lemma skip_props ps : Forall prop_ok ps -> forall fuel off d bs, at_off off (concat (encode_prop <$> ps) ++ bs) ->
  subtree_loop (length ps + fuel) f off d = subtree_loop fuel f (off + zlen (concat (encode_prop <$> ps))) d.
Proof.
  induction 1 as [|p ps Hp _ IH]; intros fuel off d bs Ha; [simpl; by rewrite Z.add_0_r|].
  cbn [fmap list_fmap concat length Nat.add] in *. rewrite <- app_assoc in Ha. pose proof Ha as Ha2. unfold encode_prop in Ha2 at 1. rewrite <- !app_assoc in Ha2.
  destruct (tag_at off JLOS_FDT_PROP _ ltac:(done) Ha2) as [Et Em]. cbn [subtree_loop]. rewrite Em, Et. cbn [mbind option_bind].
  change (JLOS_FDT_PROP =? JLOS_FDT_BEGIN_NODE) with false. change (JLOS_FDT_PROP =? JLOS_FDT_END_NODE) with false. change (JLOS_FDT_PROP =? JLOS_FDT_PROP) with true. cbv iota.
  rewrite (prop_end_at off p _ Hp Ha). cbn [mbind option_bind]. destruct (at_off_app _ _ _ Ha) as [_ H1]. rewrite (IH fuel _ d bs H1). f_equal. rewrite length_app. lia.
Qed.
Lemma skip_tree t : tree_ok t -> forall fuel off d bs, off `mod` 4 = 0 -> 1 <= d -> d + zlen (encode t) < 2 ^ 32 -> at_off off (encode t ++ bs) ->
  subtree_loop (tokens t + fuel) f off d = subtree_loop fuel f (off + zlen (encode t)) d.
Proof.
  induction t as [n ps ks IH] using tree_ind'. intros Hok fuel off d bs Ho Hd Hb Ha. inversion_clear Hok as [? ? ? Hn Hps Hks].
  rewrite encode_eq in *. rewrite <- !app_assoc in Ha. destruct (tag_at off JLOS_FDT_BEGIN_NODE _ ltac:(done) Ha) as [Et Em]. simpl tokens.
  replace (S (S (length ps + sum_list (map tokens ks))) + fuel)%nat with (S (length ps + (sum_list (map tokens ks) + S fuel)))%nat by lia.
  cbn [subtree_loop]. rewrite Em, Et. cbn [mbind option_bind]. change (JLOS_FDT_BEGIN_NODE =? JLOS_FDT_BEGIN_NODE) with true. cbv iota.
  destruct (name_end_at off n _ Hn Ho Ha) as [-> _]. cbn [mbind option_bind].
  destruct (at_off_app _ _ _ Ha) as [_ H1]. destruct (at_off_app _ _ _ H1) as [_ H2]. rewrite be32_length in H2. change (Z.of_nat 4) with 4 in H2.
  rewrite !length_app, !be32_length in Hb. rewrite u32_small by lia. rewrite (skip_props ps Hps _ _ _ _ H2). destruct (at_off_app _ _ _ H2) as [_ H3].
  assert ((off + 4 + zlen (encode_name n) + zlen (concat (encode_prop <$> ps))) `mod` 4 = 0) as Ho3.
  { destruct (encode_name_length n) as [? _]. pose proof (concat_aligned encode_prop ps (fun p _ => proj2 (encode_prop_length p))) as Hp. change (map encode_prop ps) with (encode_prop <$> ps) in Hp. zmod. }
  remember (off + 4 + zlen (encode_name n) + zlen (concat (encode_prop <$> ps))) as o3 eqn:Eo3.
  assert (forall o, o `mod` 4 = 0 -> at_off o (concat (map encode ks) ++ be32 JLOS_FDT_END_NODE ++ bs) ->
    subtree_loop (sum_list (map tokens ks) + S fuel) f o (d + 1) = subtree_loop (S fuel) f (o + zlen (concat (map encode ks))) (d + 1)) as Hkids.
  { assert (d + 1 + zlen (concat (map encode ks)) < 2 ^ 32) as Hb2 by lia. clear - IH Hks Hd Hb2. revert Hb2. generalize (S fuel). intros fu.
    induction IH as [|k ks Hk _ IHk]; intros Hb2 o Ho Ha; [simpl; by rewrite Z.add_0_r|]. apply Forall_cons in Hks as [Hk1 Hks]. simpl in Ha, Hb2 |- *. rewrite length_app in Hb2 |- *.
    rewrite <- app_assoc in Ha. rewrite <- Nat.add_assoc. rewrite (Hk Hk1 _ o (d + 1) _ Ho ltac:(lia) ltac:(lia) Ha). destruct (at_off_app _ _ _ Ha) as [_ Ha'].
    destruct (encode_length k) as [Hl _]. rewrite (IHk Hks ltac:(lia) (o + zlen (encode k)) ltac:(zmod) Ha'). f_equal. lia. }
  rewrite (Hkids o3 Ho3 H3). destruct (at_off_app _ _ _ H3) as [_ H4]. destruct (tag_at _ JLOS_FDT_END_NODE _ ltac:(done) H4) as [Et4 Em4]. cbn [subtree_loop]. rewrite Em4, Et4. cbn [mbind option_bind].
  change (JLOS_FDT_END_NODE =? JLOS_FDT_BEGIN_NODE) with false. change (JLOS_FDT_END_NODE =? JLOS_FDT_END_NODE) with true. cbv iota zeta.
  replace (d + 1 - 1) with d by lia. rewrite (u32_small d) by lia. rewrite (proj2 (Z.eqb_neq d 0)) by lia. f_equal.
  destruct (at_addr _ _ H4) as (_ & _ & ? & Hhi). rewrite length_app, be32_length in Hhi. unfold JLOS_FDT_TOKEN_SIZE. rewrite u32_small by lia. rewrite !length_app, !be32_length. lia.
Qed.
Lemma skip_kids ks : Forall tree_ok ks -> forall fuel o d bs, o `mod` 4 = 0 -> 1 <= d -> d + zlen (concat (map encode ks)) < 2 ^ 32 -> at_off o (concat (map encode ks) ++ bs) ->
  subtree_loop (sum_list (map tokens ks) + fuel) f o d = subtree_loop fuel f (o + zlen (concat (map encode ks))) d.
Proof.
  induction 1 as [|k ks Hk _ IH]; intros fuel o d bs Ho Hd Hb Ha; [simpl; by rewrite Z.add_0_r|]. simpl in Ha, Hb |- *. rewrite length_app in Hb |- *.
  rewrite <- app_assoc in Ha. rewrite <- Nat.add_assoc. rewrite (skip_tree k Hk _ o d _ Ho Hd ltac:(lia) Ha). destruct (at_off_app _ _ _ Ha) as [_ Ha'].
  destruct (encode_length k) as [Hl _]. rewrite (IH fuel (o + zlen (encode k)) d bs ltac:(zmod) Hd ltac:(lia) Ha'). f_equal. lia.
Qed.
(** The offset behind the name and behind the properties. *)
Definition name_off (off : Z) (t : tree) : Z := off + 4 + zlen (encode_name (t_name t)).
Definition kids_off (off : Z) (t : tree) : Z := name_off off t + zlen (concat (encode_prop <$> t_props t)).
(** A node of the tree at an offset. *)
Record node_at (off : Z) (t : tree) : Prop := {
  na_ok : tree_ok t;
  na_aligned : off `mod` 4 = 0;
  na_at : exists bs, at_off off (encode t ++ bs)
}.
Lemma node_parts off t : node_at off t -> exists bs, fdt_node_name_end f off = Some (name_off off t) /\ str_here (fdt_addr f (u32 (off + 4))) (t_name t) /\
  no_nul (t_name t) /\ Forall prop_ok (t_props t) /\ Forall tree_ok (t_kids t) /\ kids_off off t `mod` 4 = 0 /\ 0 <= off /\
  at_off (name_off off t) (concat (encode_prop <$> t_props t) ++ concat (map encode (t_kids t)) ++ be32 JLOS_FDT_END_NODE ++ bs) /\
  at_off (kids_off off t) (concat (map encode (t_kids t)) ++ be32 JLOS_FDT_END_NODE ++ bs).
Proof.
  intros [Hok Ho [bs Ha]]. destruct t as [n ps ks]. inversion_clear Hok as [? ? ? Hn Hps Hks]. rewrite encode_eq, <- !app_assoc in Ha. exists bs. cbn [t_name t_props t_kids] in *.
  destruct (name_end_at off n _ Hn Ho Ha) as [E Hs]. destruct (at_off_app _ _ _ Ha) as [_ H1]. destruct (at_off_app _ _ _ H1) as [_ H2].
  rewrite be32_length in H2. change (Z.of_nat 4) with 4 in H2. destruct (at_off_app _ _ _ H2) as [_ H3]. pose proof (at_addr _ _ Ha) as (_ & _ & Hoff & _). split_and!; try done.
  unfold kids_off, name_off. cbn [t_name t_props]. destruct (encode_name_length n) as [? _].
  pose proof (concat_aligned encode_prop ps (fun p _ => proj2 (encode_prop_length p))) as Hp. change (map encode_prop ps) with (encode_prop <$> ps) in Hp. zmod.
Qed.
Lemma subtree_end off t fuel : node_at off t -> (tokens t <= fuel)%nat -> fdt_skip_subtree fuel f off = Some (off + zlen (encode t)).
Proof.
  intros Hnode Hfu. destruct (node_parts off t Hnode) as (bs & En & _ & _ & Hps & Hks & Ho & H0 & H2 & H3). unfold fdt_skip_subtree. rewrite En. cbn [mbind option_bind].
  destruct t as [n ps ks]. cbn [t_props t_kids] in *. simpl tokens in Hfu.
  replace fuel with (length ps + (sum_list (map tokens ks) + S (fuel - 1 - length ps - sum_list (map tokens ks))))%nat by lia.
  rewrite (skip_props ps Hps _ _ _ _ H2). fold (kids_off off (Tree n ps ks)). pose proof (at_addr _ _ H3) as (_ & _ & Hlo & Hhi). rewrite !length_app, be32_length in Hhi.
  change (name_off off (Tree n ps ks) + zlen (concat (encode_prop <$> ps))) with (kids_off off (Tree n ps ks)).
  rewrite (skip_kids ks Hks _ _ 1 _ Ho ltac:(lia) ltac:(lia) H3). destruct (at_off_app _ _ _ H3) as [_ H4].
  destruct (tag_at _ JLOS_FDT_END_NODE _ ltac:(done) H4) as [Et Em]. cbn [subtree_loop]. rewrite Em, Et. cbn [mbind option_bind].
  change (JLOS_FDT_END_NODE =? JLOS_FDT_BEGIN_NODE) with false. change (JLOS_FDT_END_NODE =? JLOS_FDT_END_NODE) with true. cbv iota zeta.
  change (u32 (1 - 1) =? 0) with true. cbv iota. f_equal. unfold JLOS_FDT_TOKEN_SIZE. rewrite u32_small by lia. rewrite encode_eq. unfold kids_off, name_off. cbn [t_name t_props].
  rewrite !length_app, !be32_length. lia.
Qed.
Lemma child_props ps : Forall prop_ok ps -> forall fuel off bs, at_off off (concat (encode_prop <$> ps) ++ bs) ->
  child_loop (length ps + fuel) f off = child_loop fuel f (off + zlen (concat (encode_prop <$> ps))).
Proof.
  induction 1 as [|p ps Hp _ IH]; intros fuel off bs Ha; [simpl; by rewrite Z.add_0_r|].
  cbn [fmap list_fmap concat length Nat.add] in *. rewrite <- app_assoc in Ha. pose proof Ha as Ha2. unfold encode_prop in Ha2 at 1. rewrite <- !app_assoc in Ha2.
  destruct (tag_at off JLOS_FDT_PROP _ ltac:(done) Ha2) as [Et Em]. cbn [child_loop]. rewrite Em, Et. cbn [mbind option_bind].
  change (JLOS_FDT_PROP =? JLOS_FDT_BEGIN_NODE) with false. change (JLOS_FDT_PROP =? JLOS_FDT_END_NODE) with false. change (JLOS_FDT_PROP =? JLOS_FDT_PROP) with true. cbv iota.
  rewrite (prop_end_at off p _ Hp Ha). cbn [mbind option_bind]. destruct (at_off_app _ _ _ Ha) as [_ H1]. rewrite (IH fuel _ bs H1). f_equal. rewrite length_app. lia.
Qed.
(** The first byte of a list of nodes and the token behind it. *)
Lemma kids_tag ks o bs : at_off o (concat (map encode ks) ++ be32 JLOS_FDT_END_NODE ++ bs) ->
  more f o = true /\ fdt_tag f o = Some (match ks with [] => JLOS_FDT_END_NODE | _ => JLOS_FDT_BEGIN_NODE end).
Proof.
  intros Ha. destruct ks as [|[n ps kk] ks]; [apply and_comm; by apply (tag_at o JLOS_FDT_END_NODE bs)|]. cbn [map concat] in Ha. rewrite encode_eq, <- !app_assoc in Ha.
  apply and_comm. by eapply (tag_at o JLOS_FDT_BEGIN_NODE).
Qed.
Lemma first_child_at off t fuel : node_at off t -> (tokens t <= fuel)%nat ->
  fdt_first_child fuel f off = Some (match t_kids t with [] => 0 | _ => kids_off off t end).
Proof.
  intros Hnode Hfu. destruct (node_parts off t Hnode) as (bs & En & _ & _ & Hps & Hks & Ho & H0 & H2 & H3). unfold fdt_first_child. rewrite En. cbn [mbind option_bind].
  destruct t as [n ps ks]. cbn [t_props t_kids] in *. simpl tokens in Hfu. replace fuel with (length ps + S (fuel - 1 - length ps))%nat by lia.
  rewrite (child_props ps Hps _ _ _ H2). change (name_off off (Tree n ps ks) + zlen (concat (encode_prop <$> ps))) with (kids_off off (Tree n ps ks)).
  destruct (kids_tag ks _ bs H3) as [Em Et]. cbn [child_loop]. rewrite Em, Et. cbn [mbind option_bind]. by destruct ks.
Qed.

(** ** Finding nodes *)

(** The name up to its end or its unit address. *)
Fixpoint name_matches (seg n : list Z) : bool :=
  match seg, n with
  | [], [] => true
  | [], c :: _ => c =? 64
  | x :: seg, c :: n => (c =? x) && name_matches seg n
  | _ :: _, [] => false
  end.
Lemma name_eq_here seg : forall a n, no_nul n -> str_here a n -> name_eq_at (s_dtb f) a seg = Some (name_matches seg n).
Proof.
  induction seg as [|x seg IH]; intros a n Hn Ha; cbn [name_eq_at]; (destruct n as [|c n]; [rewrite (str_here_nil a Ha); done|]);
    destruct (str_here_cons _ _ _ Ha) as [-> Ha']; cbn [mbind option_bind]; inversion_clear Hn as [|? ? Hc Hn']; rewrite (proj2 (Z.eqb_neq c 0)) by lia; [done|].
  cbn [negb andb]. simpl. destruct (c =? x); [|done]. by apply IH.
Qed.
Lemma name_eq_at_node off t seg : node_at off t -> fdt_node_name_eq f off seg = Some (name_matches seg (t_name t)).
Proof. intros Hnode. destruct (node_parts off t Hnode) as (bs & _ & Hs & Hn & _). by apply name_eq_here. Qed.
Lemma next_sibling_at o k ks bs fuel : node_at o k -> at_off o (concat (map encode (k :: ks)) ++ be32 JLOS_FDT_END_NODE ++ bs) -> (tokens k <= fuel)%nat ->
  fdt_next_sibling fuel f o = Some (match ks with [] => 0 | _ => o + zlen (encode k) end).
Proof.
  intros Hk Ha Hfu. unfold fdt_next_sibling. rewrite (subtree_end o k fuel Hk Hfu). cbn [mbind option_bind]. cbn [map concat] in Ha. rewrite <- app_assoc in Ha.
  destruct (at_off_app _ _ _ Ha) as [_ H1]. destruct (kids_tag ks _ bs H1) as [-> ->]. cbn [mbind option_bind]. by destruct ks.
Qed.
Lemma find_child_at ks seg : Forall tree_ok ks -> forall fuel o bs, 0 < o -> o `mod` 4 = 0 -> at_off o (concat (map encode ks) ++ be32 JLOS_FDT_END_NODE ++ bs) ->
  (sum_list (map tokens ks) <= fuel)%nat ->
  exists r, find_child fuel f (match ks with [] => 0 | _ => o end) seg = Some r /\
    match find (fun k => name_matches seg (t_name k)) ks with Some k => 0 < r /\ node_at r k | None => r = 0 end.
Proof.
  induction 1 as [|k ks Hk Hks IH]; intros fuel o bs Hpos Ho Ha Hfu; [exists 0; by destruct fuel|].
  assert (node_at o k) as Hnode by (split; [done|done|]; cbn [map concat] in Ha; rewrite <- app_assoc in Ha; by eexists).
  assert (2 <= tokens k)%nat as Ht by (destruct k; simpl; lia). simpl in Hfu. destruct fuel as [|fuel]; [lia|]. cbn [find_child]. rewrite (proj2 (Z.eqb_neq o 0)) by lia.
  rewrite (name_eq_at_node o k seg Hnode). cbn [mbind option_bind find]. destruct (name_matches seg (t_name k)); [by exists o|].
  rewrite (next_sibling_at o k ks bs (S fuel) Hnode Ha) by lia. cbn [mbind option_bind]. cbn [map concat] in Ha. rewrite <- app_assoc in Ha.
  destruct (at_off_app _ _ _ Ha) as [_ Ha']. destruct (encode_length k) as [Hl Hl8]. apply (IH fuel (o + zlen (encode k)) bs); [lia|zmod|done|lia].
Qed.
(** The node of a path below a node. *)
Fixpoint lookup_path (t : tree) (segs : list (list Z)) : option tree :=
  match segs with [] => Some t | seg :: segs => k ← find (fun k => name_matches seg (t_name k)) (t_kids t); lookup_path k segs end.
Definition seg_ok (s : list Z) : Prop := s <> [] /\ Forall (fun c => c <> 47) s.
(** The path as it is written, without and with the first slash. *)
Definition rest_text (segs : list (list Z)) : list Z := concat (map (fun s => 47 :: s) segs).
Lemma take_segment_text s rest : Forall (fun c => c <> 47) s -> match rest with c :: _ => c = 47 | [] => True end -> take_segment (s ++ rest) = (s, rest).
Proof.
  induction 1 as [|c s Hc _ IH]; intros Hr; simpl.
  - destruct rest as [|c rest]; [done|]. subst. done.
  - rewrite (proj2 (Z.eqb_neq _ _) Hc). by rewrite (IH Hr).
Qed.
Lemma skip_slashes_text segs : Forall seg_ok segs -> skip_slashes (rest_text segs) = match segs with [] => [] | s :: segs => s ++ rest_text segs end.
Proof.
  intros H. destruct segs as [|s segs]; [done|]. inversion_clear H as [|? ? [Hs Hc] _]. unfold rest_text. simpl. destruct s as [|c s]; [done|]. simpl.
  inversion_clear Hc. by rewrite (proj2 (Z.eqb_neq c 47)).
Qed.
Lemma kid_tokens t k : k ∈ t_kids t -> (tokens k < tokens t)%nat.
Proof.
  destruct t as [n ps ks]. cbn [t_kids]. intros Hk. simpl tokens. enough (tokens k <= sum_list (map tokens ks))%nat by lia.
  induction ks as [|x ks IH]; [by apply elem_of_nil in Hk|]. simpl. apply elem_of_cons in Hk as [->|Hk]; [lia|]. specialize (IH Hk). lia.
Qed.
Lemma path_loop_at segs : Forall seg_ok segs -> forall n fuel off t, node_at off t -> (tokens t <= fuel)%nat -> (length segs <= n)%nat ->
  exists r, path_loop n fuel f off (skip_slashes (rest_text segs)) = Some r /\
    match lookup_path t segs with Some t' => exists off', r = Some off' /\ node_at off' t' | None => r = None end.
Proof.
  induction 1 as [|s segs Hs Hsegs IH]; intros n fuel off t Hnode Hfu Hn; [exists (Some off); split; [by destruct n|by eexists]|].
  rewrite skip_slashes_text by (by constructor). destruct n as [|n]; [simpl in Hn; lia|]. destruct Hs as [Hne Hc]. cbn [path_loop].
  destruct (s ++ rest_text segs) as [|c0 l0] eqn:Es; [by destruct s|]. rewrite <- Es. rewrite take_segment_text; [|done|by destruct segs].
  rewrite (first_child_at off t fuel Hnode Hfu). cbn [mbind option_bind]. destruct (node_parts off t Hnode) as (bs & _ & _ & _ & _ & Hks & Ho & H0 & _ & H3).
  assert (0 < kids_off off t) as Hpos by (unfold kids_off, name_off; lia).
  destruct (find_child_at (t_kids t) s Hks fuel (kids_off off t) bs Hpos Ho H3) as (r & Er & Hr).
  { destruct t. simpl in Hfu |- *. lia. }
  rewrite Er. cbn [mbind option_bind lookup_path]. destruct (find _ (t_kids t)) as [k|] eqn:Ef; cbn [mbind option_bind].
  - destruct Hr as [Hr Hk]. rewrite (proj2 (Z.eqb_neq r 0)) by lia. apply find_some in Ef as [Hin _]. apply list_elem_of_In in Hin. pose proof (kid_tokens t k Hin).
    apply IH; [done|lia|simpl in Hn; lia].
  - subst r. by exists None.
Qed.

(** ** Properties *)

Lemma prop_value_at off p bs : prop_ok p -> at_off off (encode_prop p ++ bs) ->
  fdt_be32 (s_dtb f) (fdt_addr f (u32 (off + JLOS_FDT_TOKEN_SIZE))) = Some (zlen (p_value p)) /\
  fdt_be32 (s_dtb f) (fdt_addr f (u32 (off + 2 * JLOS_FDT_TOKEN_SIZE))) = Some (p_off p) /\
  read_run (s_dtb f) (fdt_addr f (u32 (off + JLOS_FDT_PROP_HEADER_SIZE))) (zlen (p_value p)) = Some (p_value p).
Proof.
  intros (Hp & _ & _) Ha. unfold encode_prop in Ha. rewrite <- !app_assoc in Ha. destruct (at_off_app _ _ _ Ha) as [_ H1]. rewrite be32_length in H1.
  change (Z.of_nat 4) with 4 in H1. pose proof (at_addr _ _ H1) as (_ & _ & Hlo & Hhi). rewrite !length_app, !be32_length in Hhi. pose proof (at_addr _ _ Ha) as (_ & _ & Hoff & _).
  destruct (at_off_app _ _ _ H1) as [_ H2]. rewrite be32_length in H2. change (Z.of_nat 4) with 4 in H2. destruct (at_off_app _ _ _ H2) as [_ H3]. rewrite be32_length in H3. change (Z.of_nat 4) with 4 in H3.
  destruct (fill4_length (p_value p)) as (_ & _ & Hl). unfold JLOS_FDT_PROP_HEADER_SIZE, JLOS_FDT_TOKEN_SIZE. rewrite !u32_small by lia. split_and!.
  - apply (word_at (off + 4) (zlen (p_value p)) _ ltac:(lia) H1).
  - replace (off + 2 * 4) with (off + 4 + 4) by lia. apply (word_at (off + 4 + 4) _ _ Hp H2).
  - replace (off + 3 * 4) with (off + 4 + 4 + 4) by lia. destruct (at_addr _ _ H3) as (-> & _). destruct H3 as (_ & _ & pre & post & E & Hpre). unfold fill4 in E.
    rewrite E, <- !app_assoc. by apply read_run_app.
Qed.
Lemma prop_loop_at name ps : no_nul name -> Forall prop_ok ps -> forall fuel off tag bs, (tag = JLOS_FDT_BEGIN_NODE \/ tag = JLOS_FDT_END_NODE) ->
  at_off off (concat (encode_prop <$> ps) ++ be32 tag ++ bs) -> (length ps < fuel)%nat ->
  exists r, prop_loop fuel f off name = Some r /\
    match find (fun p => bool_decide (p_name p = name)) ps with
    | Some p => exists a, r = Some (a, zlen (p_value p)) /\ read_run (s_dtb f) a (zlen (p_value p)) = Some (p_value p)
    | None => r = None
    end.
Proof.
  intros Hn. induction 1 as [|p ps Hp _ IH]; intros fuel off tag bs Ht Ha Hfu; (destruct fuel as [|fuel]; [simpl in Hfu; lia|]); cbn [prop_loop].
  - exists None. split; [|done]. cbn [fmap list_fmap concat app] in Ha. destruct (tag_at off tag bs ltac:(destruct Ht as [-> | ->]; done) Ha) as [Et Em]. rewrite Em, Et. cbn [mbind option_bind].
    by destruct Ht as [-> | ->].
  - cbn [fmap list_fmap concat] in Ha. rewrite <- app_assoc in Ha. pose proof Ha as Ha2. unfold encode_prop in Ha2 at 1. rewrite <- !app_assoc in Ha2.
    destruct (tag_at off JLOS_FDT_PROP _ ltac:(done) Ha2) as [Et Em]. rewrite Em, Et. cbn [mbind option_bind]. change (JLOS_FDT_PROP =? JLOS_FDT_PROP) with true. cbv iota.
    destruct (prop_value_at off p _ Hp Ha) as (E1 & E2 & E3). rewrite E1, E2. cbn [mbind option_bind]. pose proof Hp as (_ & Hpn & Hst).
    rewrite (str_eq_here name Hn _ _ Hpn Hst). cbn [mbind option_bind find]. destruct (bool_decide (p_name p = name)); [eexists; split; [done|]; by eexists|].
    pose proof (prop_end_at off p _ Hp Ha) as E. unfold prop_end in E. rewrite E1 in E. cbn [mbind option_bind] in E. injection E as E. rewrite E.
    destruct (at_off_app _ _ _ Ha) as [_ H1]. apply (IH fuel _ tag bs Ht H1). simpl in Hfu. lia.
Qed.
Lemma get_prop_at off t name fuel : node_at off t -> no_nul name -> (tokens t <= fuel)%nat ->
  exists r, jlos_fdt_get_prop fuel f off name = Some r /\
    match find (fun p => bool_decide (p_name p = name)) (t_props t) with
    | Some p => exists a, r = Some (a, zlen (p_value p)) /\ read_run (s_dtb f) a (zlen (p_value p)) = Some (p_value p)
    | None => r = None
    end.
Proof.
  intros Hnode Hn Hfu. destruct (node_parts off t Hnode) as (bs & En & _ & _ & Hps & _ & _ & H0 & H2 & _). unfold jlos_fdt_get_prop. rewrite (proj2 (Z.ltb_ge off 0)) by lia.
  rewrite En. cbn [mbind option_bind]. assert (length (t_props t) < fuel)%nat as Hl by (destruct t; simpl in Hfu |- *; lia).
  destruct t as [n ps ks]. cbn [t_props t_kids] in *. destruct ks as [|[n' ps' ks'] ks].
  - apply (prop_loop_at name ps Hn Hps fuel _ JLOS_FDT_END_NODE bs); [by right|exact H2|done].
  - cbn [map concat] in H2. rewrite encode_eq, <- !app_assoc in H2. eapply (prop_loop_at name ps Hn Hps fuel _ JLOS_FDT_BEGIN_NODE); [by left|exact H2|done].
Qed.
End fdt.

(** ** The whole blob *)

Definition prop_in (strings : list Z) (p : prop) : Prop :=
  no_nul (p_name p) /\ exists pre post, strings = pre ++ (p_name p ++ [0]) ++ post /\ zlen pre = p_off p.
Inductive tree_wf (strings : list Z) : tree -> Prop :=
  | tree_wf_intro n ps ks : no_nul n -> Forall (prop_in strings) ps -> Forall (tree_wf strings) ks -> tree_wf strings (Tree n ps ks).
Definition body (t : tree) : list Z := encode t ++ be32 9.
Definition header (t : tree) (strings : list Z) : list Z :=
  concat (map be32 [JLOS_FDT_MAGIC; 40 + zlen (body t) + zlen strings; 40; 40 + zlen (body t); 40; 17; 16; 0; zlen strings; zlen (body t)]).
Definition flatten (t : tree) (strings : list Z) : list Z := header t strings ++ body t ++ strings.
Definition path_text (segs : list (list Z)) : list Z := match segs with [] => [47] | _ => rest_text segs end.

Lemma lookup_tokens segs : forall t t', lookup_path t segs = Some t' -> (tokens t' <= tokens t)%nat.
Proof.
  induction segs as [|s segs IH]; intros t t' H; simpl in H; [injection H as <-; lia|]. destruct (find _ (t_kids t)) as [k|] eqn:E; [|done].
  apply find_some in E as [Hin _]. apply list_elem_of_In, kid_tokens in Hin. specialize (IH k t' H). lia.
Qed.
Lemma header_word l1 v l2 rest : 0 <= v < 2 ^ 32 -> fdt_be32 (concat (map be32 (l1 ++ v :: l2)) ++ rest) (4 * zlen l1) = Some v.
Proof.
  intros Hv. apply be32_read; [done|]. intros i Hi. rewrite map_app, concat_app. cbn [map concat]. rewrite <- !app_assoc.
  assert (zlen (concat (map be32 l1)) = 4 * zlen l1) as Hl by (induction l1 as [|x l1 IH]; [done|]; cbn [map concat]; rewrite length_app, be32_length; simpl length; lia).
  destruct (geti_Some (be32 v) i Hi) as (c & E & _). rewrite E. apply (geti_mid _ (be32 v) _ _ i c); [lia|done].
Qed.
Lemma init_flatten t strings : 40 + zlen (body t) + zlen strings < 2 ^ 31 ->
  jlos_fdt_init (flatten t strings) = Some (if zlen strings =? 0 then None else Some (Fdt (flatten t strings) 40 (zlen (body t)) (40 + zlen (body t)))).
Proof.
  intros Hs. assert (8 <= zlen (encode t)) as Hl by apply encode_length. assert (zlen (body t) = zlen (encode t) + 4) as Hb by (unfold body; rewrite length_app, be32_length; lia).
  remember (40 + zlen (body t) + zlen strings) as total eqn:Et. set (hdr := [JLOS_FDT_MAGIC; total; 40; 40 + zlen (body t); 40; 17; 16; 0; zlen strings; zlen (body t)]).
  assert (forall l1 v l2, hdr = l1 ++ v :: l2 -> 0 <= v < 2 ^ 32 -> fdt_be32 (flatten t strings) (4 * zlen l1) = Some v) as Hw.
  { intros l1 v l2 E Hv. unfold flatten, header. rewrite <- Et. fold hdr. rewrite E. by apply header_word. }
  unfold jlos_fdt_init. rewrite (Hw [] JLOS_FDT_MAGIC _ eq_refl ltac:(done) : fdt_be32 _ 0 = _). cbn [mbind option_bind]. change (negb (JLOS_FDT_MAGIC =? JLOS_FDT_MAGIC)) with false. cbv iota.
  rewrite (Hw [JLOS_FDT_MAGIC] total _ eq_refl ltac:(lia) : fdt_be32 _ 4 = _). cbn [mbind option_bind].
  rewrite (Hw [JLOS_FDT_MAGIC; total] 40 _ eq_refl ltac:(lia) : fdt_be32 _ 8 = _). cbn [mbind option_bind].
  rewrite (Hw [JLOS_FDT_MAGIC; total; 40; 40 + zlen (body t); 40; 17; 16; 0; zlen strings] (zlen (body t)) _ eq_refl ltac:(lia) : fdt_be32 _ 36 = _). cbn [mbind option_bind].
  rewrite (Hw [JLOS_FDT_MAGIC; total; 40] (40 + zlen (body t)) _ eq_refl ltac:(lia) : fdt_be32 _ 12 = _). cbn [mbind option_bind].
  change (40 =? 0) with false. rewrite (proj2 (Z.leb_gt total 40)) by lia. cbn [orb]. cbv zeta.
  destruct (Z.eqb_spec (zlen strings) 0) as [E0|E0]; [rewrite (proj2 (Z.leb_le _ _)) by lia; done|]. rewrite (proj2 (Z.leb_gt total _)) by lia.
  rewrite (proj2 (Z.eqb_neq (zlen (body t)) 0)) by lia. rewrite u32_small by lia. rewrite (proj2 (Z.ltb_ge _ _)) by lia. done.
Qed.
Lemma header_length t strings : zlen (header t strings) = 40.
Proof. done. Qed.
Lemma flatten_node t strings : tree_wf strings t -> 40 + zlen (body t) + zlen strings < 2 ^ 31 ->
  let f := Fdt (flatten t strings) 40 (zlen (body t)) (40 + zlen (body t)) in sound f /\ node_at f 0 t.
Proof.
  intros Hwf Hs f. assert (zlen (flatten t strings) = 40 + zlen (body t) + zlen strings) as Hl by (unfold flatten; rewrite !length_app; pose proof (header_length t strings); lia).
  split; [unfold sound, f; cbn [s_dtb s_struct_off s_struct_size]; lia|]. split.
  - assert (forall p, prop_in strings p -> prop_ok f p) as Hp.
    { intros p [Hn (pre & post & E & Hpre)]. assert (zlen pre <= zlen strings) by (rewrite E, length_app; lia). split; [lia|]. split; [done|].
      unfold fdt_str, f. cbn [s_strings_off]. rewrite u32_small by lia. split; [lia|]. exists (header t strings ++ body t ++ pre), post. cbn [s_dtb]. unfold flatten. rewrite E at 2.
      split; [by rewrite <- !app_assoc|]. rewrite !length_app. pose proof (header_length t strings). lia. }
    clear - Hwf Hp. clearbody f. induction t as [n ps ks IH] using tree_ind'. inversion_clear Hwf as [? ? ? Hn Hps Hks]. constructor; [done| |].
    + eapply Forall_impl; [exact Hps|done].
    + rewrite Forall_forall in *. auto.
  - done.
  - exists (be32 9). split; [lia|]. split; [unfold f; cbn [s_struct_size]; unfold body; lia|]. exists (header t strings), strings. split; [done|]. done.
Qed.

(** C39. A device tree that was flattened is read back: the blob is accepted, a path leads to the node it
    names in the tree, whose properties are found with exactly their bytes, and to nothing when there
    is no such node or property. *)
Theorem fdt_roundtrip t strings segs name fuel : tree_wf strings t -> strings <> [] -> 40 + zlen (body t) + zlen strings < 2 ^ 31 ->
  Forall seg_ok segs -> no_nul name -> (tokens t <= fuel)%nat ->
  exists f, jlos_fdt_init (flatten t strings) = Some (Some f) /\
    match lookup_path t segs with
    | None => jlos_fdt_find_node fuel f (path_text segs) = Some None
    | Some t' => exists off, jlos_fdt_find_node fuel f (path_text segs) = Some (Some off) /\
        match find (fun p => bool_decide (p_name p = name)) (t_props t') with
        | None => jlos_fdt_get_prop fuel f off name = Some None
        | Some p => exists a, jlos_fdt_get_prop fuel f off name = Some (Some (a, zlen (p_value p))) /\
            read_run (flatten t strings) a (zlen (p_value p)) = Some (p_value p)
        end
    end.
Proof.
  intros Hwf Hne Hs Hsegs Hn Hfu. destruct (flatten_node t strings Hwf Hs) as [Hso Hnode]. set (f := Fdt _ _ _ _) in *. exists f. split.
  { rewrite init_flatten by done. by rewrite (proj2 (Z.eqb_neq (zlen strings) 0)) by (destruct strings; [done|simpl; lia]). }
  assert (exists r, jlos_fdt_find_node fuel f (path_text segs) = Some r /\
    match lookup_path t segs with Some t' => exists off', r = Some off' /\ node_at f off' t' | None => r = None end) as (r & Er & Hr).
  { destruct segs as [|s segs]; [exists (Some 0); split; [done|]; by exists 0|].
    assert (jlos_fdt_find_node fuel f (path_text (s :: segs)) = path_loop (length (rest_text (s :: segs))) fuel f 0 (skip_slashes (rest_text (s :: segs)))) as -> by done.
    apply (path_loop_at f Hso); [done|done|done|]. clear. induction (s :: segs) as [|x l IH]; [done|]. unfold rest_text in *. simpl. rewrite length_app. lia. }
  rewrite Er. destruct (lookup_path t segs) as [t'|] eqn:El; [|by rewrite Hr]. destruct Hr as (off & -> & Hnode'). exists off. split; [done|].
  pose proof (lookup_tokens _ _ _ El). destruct (get_prop_at f Hso off t' name fuel Hnode' Hn ltac:(lia)) as (q & Eq & Hq). rewrite Eq.
  destruct (find _ (t_props t')) as [p|]; [destruct Hq as (a & -> & Hrd); by exists a|by rewrite Hq].
Qed.

(** ** A tree *)

(** A root with the node [cpu@0], which has the property [reg] with value 7. *)
Definition sample_strings : list Z := [114; 101; 103; 0].
Definition sample_tree : tree := Tree [] [] [Tree [99; 112; 117; 64; 48] [Prop_ [114; 101; 103] 0 [0; 0; 0; 7]] []].
Lemma sample_tree_wf : tree_wf sample_strings sample_tree.
Proof.
  constructor; [constructor|constructor|]. constructor; [|constructor]. constructor; [repeat (constructor; [lia|]); constructor| |constructor].
  constructor; [|constructor]. split; [repeat (constructor; [simpl; lia|]); constructor|]. by exists [], [].
Qed.
Lemma fdt_roundtrip_witness : exists f off a, jlos_fdt_init (flatten sample_tree sample_strings) = Some (Some f) /\
  jlos_fdt_find_node 10 f [47; 99; 112; 117] = Some (Some off) /\ jlos_fdt_get_prop 10 f off [114; 101; 103] = Some (Some (a, 4)) /\
  read_run (flatten sample_tree sample_strings) a 4 = Some [0; 0; 0; 7].
Proof.
  destruct (fdt_roundtrip sample_tree sample_strings [[99; 112; 117]] [114; 101; 103] 10 sample_tree_wf) as (f & Ef & off & Eo & a & Ep & Er).
  - discriminate.
  - vm_compute. reflexivity.
  - constructor; [|constructor]. split; [discriminate|]. repeat (constructor; [lia|]). constructor.
  - repeat (constructor; [lia|]). constructor.
  - simpl. lia.
  - exists f, off, a. split; [exact Ef|]. split; [exact Eo|]. split; [exact Ep|exact Er].
Defined.
(** A NOP token between two nodes hides those behind it: the first child is found, it has no next
    sibling, and the second node is there. *)
Definition nop_body : list Z := be32 1 ++ be32 0 ++ (be32 1 ++ [97; 0; 0; 0] ++ be32 2) ++ be32 4 ++ (be32 1 ++ [98; 0; 0; 0] ++ be32 2) ++ be32 2.
Definition nop_fdt : fdt := Fdt nop_body 0 (zlen nop_body) 0.
Example nop_hides_sibling : jlos_fdt_first_subnode 10 nop_fdt 0 = Some (Some 8) /\ jlos_fdt_next_subnode 10 nop_fdt 8 = Some None /\
  jlos_fdt_find_subnode 10 nop_fdt 0 [98] = Some None /\ fdt_tag nop_fdt 24 = Some JLOS_FDT_BEGIN_NODE /\ fdt_node_name_eq nop_fdt 24 [98] = Some true.
Proof. vm_compute. done. Qed.
(** A length of 0xFFFFFFF4 sends the walk back to the property it is at; no number of steps is enough. *)
Definition loop_body : list Z := be32 1 ++ be32 0 ++ be32 3 ++ be32 0xFFFFFFF4 ++ be32 0 ++ be32 2.
Lemma property_loops fuel : jlos_fdt_first_subnode fuel (Fdt loop_body 0 (zlen loop_body) 0) 0 = None.
Proof.
  unfold jlos_fdt_first_subnode, fdt_first_child. change (0 <? 0) with false. cbv iota.
  change (fdt_node_name_end (Fdt loop_body 0 (zlen loop_body) 0) 0) with (Some 8). cbn [mbind option_bind].
  enough (child_loop fuel (Fdt loop_body 0 (zlen loop_body) 0) 8 = None) as -> by done. induction fuel as [|fuel IH]; [done|]. cbn [child_loop].
  change (more (Fdt loop_body 0 (zlen loop_body) 0) 8) with true. change (fdt_tag (Fdt loop_body 0 (zlen loop_body) 0) 8) with (Some 3). cbv iota. cbn [mbind option_bind].
  change (3 =? JLOS_FDT_BEGIN_NODE) with false. change (3 =? JLOS_FDT_END_NODE) with false. change (3 =? JLOS_FDT_PROP) with true. cbv iota.
  change (prop_end (Fdt loop_body 0 (zlen loop_body) 0) 8) with (Some 8). cbn [mbind option_bind]. exact IH.
Qed.
