(* ===== verification/Console.v ===== *)
(** * The console ([kernel/console.c])

    The display and the serial line are the list of calls made to them.  The history is
    the two-dimensional array of the code; a write outside it is [None].  The ghost
    argument of the invariant is the text: the lines printed since the start, the
    current one last. *)
From S2P Require Import Prelude.

Definition JLOS_CONSOLE_HISTORY_LINES : Z := 512.
Definition JLOS_CONSOLE_MAX_COLS : Z := 256.
Definition JLOS_CONSOLE_DEFAULT_COLS : Z := 80.
Definition JLOS_CONSOLE_DEFAULT_ROWS : Z := 25.
Definition JLOS_HAL_DISPLAY_ATTR_DEFAULT : Z := 7.

#[local] Abbreviation cell := (Z * Z)%type.
Inductive event :=
  | EPut (col row ch attr : Z) | EClear (attr : Z) | EScroll (attr : Z) | EErase (col row : Z) | EDraw (col row : Z) | ESerial (ch : Z).
Record console := Console {
  s_cursor_col : Z; s_cursor_row : Z; s_attr : Z; s_cols : Z; s_rows : Z;
  s_history : list (list cell); s_history_write_idx : Z; s_history_line_count : Z; s_view_scoll : Z }.
Definition set_cursor (k : console) (col row : Z) : console :=
  Console col row (s_attr k) (s_cols k) (s_rows k) (s_history k) (s_history_write_idx k) (s_history_line_count k) (s_view_scoll k).
Definition set_history (k : console) (h : list (list cell)) (idx count : Z) : console :=
  Console (s_cursor_col k) (s_cursor_row k) (s_attr k) (s_cols k) (s_rows k) h idx count (s_view_scoll k).
Definition set_view (k : console) (v : Z) : console :=
  Console (s_cursor_col k) (s_cursor_row k) (s_attr k) (s_cols k) (s_rows k) (s_history k) (s_history_write_idx k) (s_history_line_count k) v.

Definition history_write_cell (k : console) (col ch attr : Z) : option console :=
  if s_cols k <=? col then Some k else
  line ← geti (s_history k) (s_history_write_idx k);
  line ← seti line col (ch, attr);
  h ← seti (s_history k) (s_history_write_idx k) line;
  Some (set_history k h (s_history_write_idx k) (s_history_line_count k)).
Definition history_newline (k : console) : option console :=
  let idx := u32 (s_history_write_idx k + 1) `mod` JLOS_CONSOLE_HISTORY_LINES in
  let count := if s_history_line_count k <? JLOS_CONSOLE_HISTORY_LINES then s_history_line_count k + 1 else s_history_line_count k in
  h ← seti (s_history k) idx (replicate (Z.to_nat JLOS_CONSOLE_MAX_COLS) (32, s_attr k));
  Some (set_history k h idx count).

(** The character, before the two wraps at the end. *)
Definition putc_char (k : console) (c : Z) : option (console * list event) :=
  if c =? 10 then
    k ← history_newline (set_cursor k 0 (u32 (s_cursor_row k + 1)));
    Some (k, [ESerial 10])
  else if c =? 8 then
    let k := if 0 <? s_cursor_col k then set_cursor k (s_cursor_col k - 1) (s_cursor_row k)
      else if 0 <? s_cursor_row k then set_cursor k (JLOS_CONSOLE_MAX_COLS - 1) (s_cursor_row k - 1) else k in
    let e := EPut (s_cursor_col k) (s_cursor_row k) 32 (s_attr k) in
    k ← history_write_cell k (s_cursor_col k) 32 (s_attr k);
    Some (k, [e])
  else
    let e := EPut (s_cursor_col k) (s_cursor_row k) c (s_attr k) in
    k ← history_write_cell k (s_cursor_col k) c (s_attr k);
    Some (set_cursor k (u32 (s_cursor_col k + 1)) (s_cursor_row k), [e; ESerial c]).
Definition console_putc_locked (k : console) (c : Z) : option (console * list event) :=
  '(k, es) ← putc_char k c;
  k ← (if s_cols k <=? s_cursor_col k then history_newline (set_cursor k 0 (u32 (s_cursor_row k + 1))) else Some k);
  if s_rows k <=? s_cursor_row k then Some (set_cursor k 0 (s_rows k - 1), es ++ [EScroll (s_attr k)]) else Some (k, es).

(** The row of [console_render_view] that shows line [hist_row] of the history. *)
Definition render_row (k : console) (eff_count start base_idx row : Z) : option (list event) :=
  if eff_count <=? start + row then Some [EPut 0 row 32 (s_attr k)] else
  line ← geti (s_history k) ((base_idx + row) `mod` JLOS_CONSOLE_HISTORY_LINES);
  mapM (fun col => '(ch, attr) ← geti line col; Some (EPut col row ch attr)) (seqZ 0 (s_cols k)).
Definition render_start (k : console) : Z :=
  let latest := s_history_line_count k in
  let start := latest - s_view_scoll k - s_rows k + 1 in if start <? 0 then 0 else start.
Definition console_render_view (k : console) : option (list event) :=
  let eff_count := s_history_line_count k + 1 in
  let start := render_start k in
  let base_idx := (s_history_write_idx k + JLOS_CONSOLE_HISTORY_LINES - s_history_line_count k + start) `mod` JLOS_CONSOLE_HISTORY_LINES in
  rows ← mapM (render_row k eff_count start base_idx) (seqZ 0 (s_rows k));
  Some (concat rows).

(** The view goes back to the end before anything is printed. *)
Definition leave_view (k : console) : option (console * list event) :=
  if 0 <? s_view_scoll k then let k := set_view k 0 in es ← console_render_view k; Some (k, es) else Some (k, []).
Definition erase_cursor (k : console) : event := EErase (s_cursor_col k) (s_cursor_row k).
Definition draw_cursor (k : console) : event := EDraw (s_cursor_col k) (s_cursor_row k).
Definition jlos_console_putc (k : console) (c : Z) : option (console * list event) :=
  '(k, e1) ← leave_view k;
  let er := erase_cursor k in
  '(k, e2) ← console_putc_locked k c;
  Some (k, e1 ++ [er] ++ e2 ++ [draw_cursor k]).
Fixpoint puts_loop (k : console) (str : list Z) : option (console * list event) :=
  match str with
  | [] => Some (k, [])
  | c :: str => '(k, e1) ← console_putc_locked k c; '(k, e2) ← puts_loop k str; Some (k, e1 ++ e2)
  end.
Definition jlos_console_puts (k : console) (str : option (list Z)) : option (console * list event) :=
  match str with
  | None => Some (k, [])
  | Some str =>
    '(k, e1) ← leave_view k;
    let er := erase_cursor k in
    '(k, e2) ← puts_loop k str;
    Some (k, e1 ++ [er] ++ e2 ++ [draw_cursor k])
  end.

(** The display's [cols] and [rows], or the defaults. *)
Definition jlos_console_reinit (k : console) (cols rows : Z) : console * list event :=
  let cols := if JLOS_CONSOLE_MAX_COLS <? cols then JLOS_CONSOLE_MAX_COLS else cols in
  (Console 0 0 (s_attr k) cols rows (s_history k) (s_history_write_idx k) (s_history_line_count k) (s_view_scoll k), [EDraw 0 0]).
Definition jlos_console_init (k : console) (cols rows : Z) : console * list event :=
  let cols := if JLOS_CONSOLE_MAX_COLS <? cols then JLOS_CONSOLE_MAX_COLS else cols in
  let attr := JLOS_HAL_DISPLAY_ATTR_DEFAULT in
  (Console 0 0 attr cols rows (s_history k) (s_history_write_idx k) (s_history_line_count k) (s_view_scoll k), [EClear attr; EDraw 0 0]).
Definition jlos_console_clear (k : console) : console * list event := (set_cursor k 0 0, [EClear (s_attr k); EDraw 0 0]).
Definition jlos_console_set_attr (k : console) (attr : Z) : console :=
  Console (s_cursor_col k) (s_cursor_row k) attr (s_cols k) (s_rows k) (s_history k) (s_history_write_idx k) (s_history_line_count k) (s_view_scoll k).
Definition jlos_console_set_cursor (k : console) (col row : Z) : console * list event :=
  let er := erase_cursor k in
  let k := set_cursor k (if col <? s_cols k then col else s_cursor_col k) (if row <? s_rows k then row else s_cursor_row k) in
  (k, [er; draw_cursor k]).
Definition jlos_console_scroll_view (k : console) (delta : Z) : option (console * list event) :=
  let er := erase_cursor k in
  let v := s32 (s_view_scoll k + delta) in
  let v := if v <? 0 then 0 else v in
  let max_scroll := s_history_line_count k + 1 - s_rows k in
  let max_scroll := if max_scroll <? 0 then 0 else max_scroll in
  let v := if max_scroll <? v then max_scroll else v in
  let k := set_view k v in
  es ← console_render_view k;
  Some (k, [er] ++ es ++ (if v =? 0 then [draw_cursor k] else [])).
Definition jlos_console_reset_view (k : console) : option (console * list event) :=
  let k := set_view k 0 in
  es ← console_render_view k;
  Some (k, es ++ [draw_cursor k]).

(** ** The text *)

(** The ring holds the last lines of the text. *)
Record ring_ok (k : console) (text : list (list cell)) : Prop := {
  ok_hist : length (s_history k) = Z.to_nat JLOS_CONSOLE_HISTORY_LINES;
  ok_idx : 0 <= s_history_write_idx k < JLOS_CONSOLE_HISTORY_LINES;
  ok_text : text <> [];
  ok_count : s_history_line_count k = Z.min (zlen text - 1) JLOS_CONSOLE_HISTORY_LINES;
  ok_width : Forall (fun l => length l = Z.to_nat JLOS_CONSOLE_MAX_COLS) text;
  ok_ring i : 0 <= i < JLOS_CONSOLE_HISTORY_LINES -> i < zlen text ->
    geti (s_history k) ((s_history_write_idx k - i) `mod` JLOS_CONSOLE_HISTORY_LINES) = geti text (zlen text - 1 - i)
}.
(** The screen as a specification: the history is unbounded text. *)
Definition blank (attr : Z) : list cell := replicate (Z.to_nat JLOS_CONSOLE_MAX_COLS) (32, attr).
Record screen := Screen { c_text : list (list cell); c_col : Z; c_row : Z; c_attr : Z; c_cols : Z; c_rows : Z; c_view : Z }.
Definition at_cursor (s : screen) (col row : Z) : screen := Screen (c_text s) col row (c_attr s) (c_cols s) (c_rows s) (c_view s).
Definition at_view (s : screen) (v : Z) : screen := Screen (c_text s) (c_col s) (c_row s) (c_attr s) (c_cols s) (c_rows s) v.
Definition with_text (s : screen) (text : list (list cell)) : screen := Screen text (c_col s) (c_row s) (c_attr s) (c_cols s) (c_rows s) (c_view s).
Definition sp_newline (s : screen) : screen := Screen (c_text s ++ [blank (c_attr s)]) 0 (c_row s + 1) (c_attr s) (c_cols s) (c_rows s) (c_view s).
Definition write_last (text : list (list cell)) (col : Z) (x : cell) : list (list cell) := removelast text ++ [<[Z.to_nat col := x]> (List.last text [])].
Definition sp_write (s : screen) (c : Z) : screen :=
  if c_cols s <=? c_col s then s else with_text s (write_last (c_text s) (c_col s) (c, c_attr s)).
(** The intended behaviour, and with [as_code] the one of the code where it differs: a
    backspace at the start of a row leaves the row, and the line 512 above the current
    one is shown as the current one. *)
Section spec.
Context (as_code : bool).
Definition sp_char (s : screen) (c : Z) : screen * list event :=
  if c =? 10 then (sp_newline s, [ESerial 10])
  else if c =? 8 then
    let s := if 0 <? c_col s then at_cursor s (c_col s - 1) (c_row s)
      else if as_code && (0 <? c_row s) then at_cursor s (JLOS_CONSOLE_MAX_COLS - 1) (c_row s - 1) else s in
    (sp_write s 32, [EPut (c_col s) (c_row s) 32 (c_attr s)])
  else (at_cursor (sp_write s c) (c_col s + 1) (c_row s), [EPut (c_col s) (c_row s) c (c_attr s); ESerial c]).
Definition sp_putc (s : screen) (c : Z) : screen * list event :=
  let '(s, es) := sp_char s c in
  let s := if c_cols s <=? c_col s then sp_newline s else s in
  if c_rows s <=? c_row s then (at_cursor s 0 (c_rows s - 1), es ++ [EScroll (c_attr s)]) else (s, es).
Fixpoint sp_puts (s : screen) (str : list Z) : screen * list event :=
  match str with
  | [] => (s, [])
  | c :: str => let '(s, e1) := sp_putc s c in let '(s, e2) := sp_puts s str in (s, e1 ++ e2)
  end.
(** The lines above the current one that the view can reach, and the first of them shown. *)
Definition sp_count (s : screen) : Z := Z.min (zlen (c_text s) - 1) JLOS_CONSOLE_HISTORY_LINES.
Definition sp_start (s : screen) : Z := Z.max 0 (sp_count s - c_view s - c_rows s + 1).
(** Row [r] shows the line [i] above the current one. *)
Definition sp_row (s : screen) (r : Z) : list event :=
  let i := sp_count s - sp_start s - r in
  if i <? 0 then [EPut 0 r 32 (c_attr s)] else
  match geti (c_text s) (zlen (c_text s) - 1 - (if as_code then i `mod` JLOS_CONSOLE_HISTORY_LINES else i)) with
  | Some line => zip_with (fun col x => EPut col r x.1 x.2) (seqZ 0 (c_cols s)) line
  | None => []
  end.
Definition sp_view (s : screen) : list event := concat (map (sp_row s) (seqZ 0 (c_rows s))).
Definition sp_leave (s : screen) : screen * list event := if 0 <? c_view s then (at_view s 0, sp_view (at_view s 0)) else (s, []).
Definition sp_print (s : screen) (str : list Z) : screen * list event :=
  let '(s, e1) := sp_leave s in
  let '(s', e2) := sp_puts s str in
  (s', e1 ++ [EErase (c_col s) (c_row s)] ++ e2 ++ [EDraw (c_col s') (c_row s')]).
Definition sp_scroll (s : screen) (delta : Z) : screen * list event :=
  let s := at_view s (Z.min (Z.max 0 (c_view s + delta)) (Z.max 0 (sp_count s + 1 - c_rows s))) in
  (s, [EErase (c_col s) (c_row s)] ++ sp_view s ++ (if c_view s =? 0 then [EDraw (c_col s) (c_row s)] else [])).

End spec.

(** The console shows the screen. *)
Record shows (k : console) (s : screen) : Prop := {
  ok_cols : s_cols k = c_cols s /\ 0 < c_cols s <= JLOS_CONSOLE_MAX_COLS;
  ok_rows : s_rows k = c_rows s /\ 0 < c_rows s < 2 ^ 30;
  ok_col : s_cursor_col k = c_col s /\ 0 <= c_col s < c_cols s;
  ok_row : s_cursor_row k = c_row s /\ 0 <= c_row s < c_rows s;
  ok_attr : s_attr k = c_attr s;
  ok_view : s_view_scoll k = c_view s /\ 0 <= c_view s <= JLOS_CONSOLE_HISTORY_LINES;
  ok_lines : ring_ok k (c_text s)
}.
(** Everything but the history is the same. *)
Definition same_screen (k k' : console) : Prop :=
  s_cursor_col k' = s_cursor_col k /\ s_cursor_row k' = s_cursor_row k /\ s_attr k' = s_attr k /\ s_cols k' = s_cols k /\ s_rows k' = s_rows k /\ s_view_scoll k' = s_view_scoll k.
Lemma ring_cursor k col row text : ring_ok k text -> ring_ok (set_cursor k col row) text.
Proof. intros []. by split. Qed.
Lemma ring_view k v text : ring_ok k text -> ring_ok (set_view k v) text.
Proof. intros []. by split. Qed.
Lemma geti_seti {A} (l : list A) i x : 0 <= i < zlen l -> exists l', seti l i x = Some l' /\ length l' = length l /\ geti l' i = Some x /\ forall j, j <> i -> geti l' j = geti l j.
Proof.
  intros Hi. rewrite seti_Some by done. eexists. split; [done|]. split; [apply length_insert|]. unfold geti. split.
  - destruct (Z.ltb_spec i 0); [lia|]. apply list_lookup_insert_eq. lia.
  - intros j Hj. destruct (Z.ltb_spec j 0); [done|]. apply list_lookup_insert_ne. lia.
Qed.
Lemma geti_last {A} (l : list A) x : geti (l ++ [x]) (zlen (l ++ [x]) - 1) = Some x.
Proof.
  rewrite length_app. simpl length. unfold geti. destruct (Z.ltb_spec (Z.of_nat (length l + 1) - 1) 0); [lia|].
  apply list_lookup_middle. lia.
Qed.
Lemma geti_init {A} (l : list A) x y i : i < zlen l -> geti (l ++ [x]) i = geti (l ++ [y]) i.
Proof. intros Hi. unfold geti. destruct (Z.ltb_spec i 0); [done|]. rewrite !lookup_app_l by lia. done. Qed.

Lemma newline_spec k text : ring_ok k text ->
  exists k', history_newline k = Some k' /\ same_screen k k' /\ ring_ok k' (text ++ [replicate (Z.to_nat JLOS_CONSOLE_MAX_COLS) (32, s_attr k)]).
Proof.
  intros [Hh Hi Ht Hc Hw Hr]. unfold history_newline. unfold JLOS_CONSOLE_HISTORY_LINES in *. set (blank := replicate _ _).
  rewrite u32_small by lia. set (idx := (s_history_write_idx k + 1) `mod` 512). assert (0 <= idx < 512) as Hidx by (apply Z.mod_pos_bound; lia).
  destruct (geti_seti (s_history k) idx blank ltac:(lia)) as (h & E & Lh & Gn & Go). rewrite E. cbn [mbind option_bind]. eexists. split; [done|]. split; [done|].
  split; cbn; unfold JLOS_CONSOLE_HISTORY_LINES.
  - by rewrite Lh.
  - done.
  - by destruct text.
  - rewrite length_app. simpl length. zcases; lia.
  - apply Forall_app. split; [done|]. constructor; [apply length_replicate|constructor].
  - intros i Hi0 Hlt. destruct (decide (i = 0)) as [->|Hne].
    + rewrite Z.sub_0_r, Z.mod_small by lia. rewrite Z.sub_0_r. rewrite Gn. symmetry. apply geti_last.
    + rewrite length_app in Hlt |- *. simpl length in Hlt |- *. assert ((idx - i) `mod` 512 = (s_history_write_idx k - (i - 1)) `mod` 512) as ->.
      { unfold idx. rewrite <- Zminus_mod_idemp_l, Zminus_mod_idemp_l. unfold idx. rewrite Zminus_mod_idemp_l. f_equal. lia. }
      rewrite Go.
      * rewrite (Hr (i - 1)) by lia. unfold geti. destruct (Z.ltb_spec (zlen text - 1 - (i - 1)) 0), (Z.ltb_spec (Z.of_nat (length text + 1) - 1 - i) 0); try lia.
        rewrite lookup_app_l by lia. f_equal. lia.
      * unfold idx. intros E2. zmod.
Qed.
Lemma write_cell_spec k text col ch attr : ring_ok k text -> 0 <= col -> s_cols k <= JLOS_CONSOLE_MAX_COLS ->
  exists k', history_write_cell k col ch attr = Some k' /\ same_screen k k' /\ ring_ok k' (if s_cols k <=? col then text else write_last text col (ch, attr)).
Proof.
  intros [Hh Hi Ht Hc Hw Hr] H0 Hcols. unfold history_write_cell. destruct (Z.leb_spec (s_cols k) col); [exists k; by split_and!|].
  destruct text as [|cur t0 _] using rev_ind; [done|]. clear Ht. unfold JLOS_CONSOLE_HISTORY_LINES, JLOS_CONSOLE_MAX_COLS in *.
  pose proof (Hr 0 ltac:(lia) ltac:(rewrite length_app; simpl; lia)) as E0. rewrite Z.sub_0_r, Z.mod_small, Z.sub_0_r, geti_last in E0 by lia. rewrite E0. cbn [mbind option_bind].
  apply Forall_app in Hw as [Hw0 Hwc]. inversion_clear Hwc as [|? ? Hlc _].
  rewrite seti_Some by lia. cbn [mbind option_bind]. set (cur' := <[Z.to_nat col:=(ch, attr)]> cur). assert (length cur' = length cur) as L1 by apply length_insert.
  destruct (geti_seti (s_history k) (s_history_write_idx k) cur' ltac:(lia)) as (h & E2 & L2 & G2 & O2). rewrite E2. cbn [mbind option_bind].
  eexists _. split; [done|]. split; [done|]. unfold write_last. rewrite removelast_last, List.last_last. fold cur'.
  rewrite !length_app in *. simpl length in *. split; cbn; unfold JLOS_CONSOLE_HISTORY_LINES.
  - by rewrite L2.
  - done.
  - by destruct t0.
  - rewrite length_app. simpl length. done.
  - apply Forall_app. split; [done|]. constructor; [by rewrite L1|constructor].
  - intros i Hi0 Hlt. rewrite length_app in Hlt |- *. simpl length in Hlt |- *. destruct (decide (i = 0)) as [->|Hne].
    + rewrite Z.sub_0_r, Z.mod_small, Z.sub_0_r, G2 by lia. symmetry. pose proof (geti_last t0 cur') as G. rewrite length_app in G. exact G.
    + rewrite O2 by zmod. rewrite (Hr i) by lia. apply geti_init. lia.
Qed.

(** During a character the cursor may be off the screen. *)
Definition printing (k : console) (s : screen) : Prop :=
  s_cols k = c_cols s /\ 0 < c_cols s <= JLOS_CONSOLE_MAX_COLS /\ s_rows k = c_rows s /\ 0 < c_rows s < 2 ^ 30 /\
  s_cursor_col k = c_col s /\ 0 <= c_col s < 2 ^ 31 /\ s_cursor_row k = c_row s /\ 0 <= c_row s <= c_rows s /\ s_attr k = c_attr s /\
  s_view_scoll k = c_view s /\ 0 <= c_view s <= JLOS_CONSOLE_HISTORY_LINES /\ ring_ok k (c_text s).
Lemma printing_newline k s : printing k s -> exists k', history_newline (set_cursor k 0 (u32 (s_cursor_row k + 1))) = Some k' /\
  ring_ok k' (c_text (sp_newline s)) /\ s_cols k' = c_cols s /\ s_rows k' = c_rows s /\ s_cursor_col k' = 0 /\ s_cursor_row k' = c_row s + 1 /\ s_attr k' = c_attr s /\ s_view_scoll k' = c_view s.
Proof.
  intros (Ec & Hc & Er & Hr & Ecol & Hcol & Erow & Hrow & Ea & Ev & Hv & Hring).
  destruct (newline_spec _ _ (ring_cursor k 0 (u32 (s_cursor_row k + 1)) _ Hring)) as (k1 & E & (S1 & S2 & S3 & S4 & S5 & S6) & Hr1). cbn in *.
  exists k1. split; [exact E|]. rewrite Ea in Hr1. split; [exact Hr1|]. rewrite u32_small in S2 by lia. split_and!; congruence.
Qed.
Lemma printing_write k s c : printing k s -> exists k', history_write_cell k (s_cursor_col k) c (s_attr k) = Some k' /\ printing k' (sp_write s c).
Proof.
  intros (Ec & Hc & Er & Hr & Ecol & Hcol & Erow & Hrow & Ea & Ev & Hv & Hring).
  destruct (write_cell_spec k (c_text s) (s_cursor_col k) c (s_attr k) Hring ltac:(lia) ltac:(lia)) as (k1 & E & (S1 & S2 & S3 & S4 & S5 & S6) & Hr1).
  exists k1. split; [exact E|]. rewrite Ec, Ecol, Ea in Hr1. unfold sp_write, printing. revert Hr1. destruct (c_cols s <=? c_col s); intros Hr1; cbn; rewrite S1, S2, S3, S4, S5, S6; split_and!; done || lia.
Qed.
Lemma printing_char k s c : shows k s -> exists k' s' es, putc_char k c = Some (k', es) /\ sp_char true s c = (s', es) /\ printing k' s'.
Proof.
  intros [[Ec Hc] [Er Hr] [Ecol Hcol] [Erow Hrow] Ea [Ev Hv] Hring]. unfold JLOS_CONSOLE_MAX_COLS in Hc. assert (printing k s) as Hp by (unfold printing, JLOS_CONSOLE_MAX_COLS; split_and!; done || lia).
  unfold putc_char, sp_char. destruct (c =? 10); [|destruct (c =? 8); cbv zeta].
  - destruct (printing_newline k s Hp) as (k1 & -> & H1 & H2 & H3 & H4 & H5 & H6 & H7). cbn [mbind option_bind]. eexists k1, _, _. split; [done|]. split; [done|].
    unfold printing, JLOS_CONSOLE_MAX_COLS. cbn in H1 |- *. split_and!; done || lia.
  - set (k0 := if 0 <? s_cursor_col k then _ else _). set (s0 := if 0 <? c_col s then _ else _).
    assert (printing k0 s0) as Hp0.
    { unfold k0, s0. rewrite Ecol, Erow. destruct (Z.ltb_spec 0 (c_col s)); [|destruct (Z.ltb_spec 0 (c_row s)); [|done]];
        unfold printing, JLOS_CONSOLE_MAX_COLS; cbn; split_and!; try done; try apply ring_cursor; try done; lia. }
    destruct (printing_write k0 s0 32 Hp0) as (k1 & E & Hp1). rewrite E. cbn [mbind option_bind]. destruct Hp0 as (_ & _ & _ & _ & -> & _ & -> & _ & -> & _).
    eexists k1, _, _. split; [done|]. split; [done|]. exact Hp1.
  - destruct (printing_write k s c Hp) as (k1 & E & Hp1). rewrite E. cbn [mbind option_bind]. rewrite Ecol, Erow, Ea. eexists _, _, _. split; [done|]. split; [done|].
    destruct Hp1 as (P1 & P2 & P3 & P4 & P5 & P6 & P7 & P8 & P9 & P10 & P11 & P12).
    assert (c_col (sp_write s c) = c_col s /\ c_row (sp_write s c) = c_row s) as [W1 W2] by (unfold sp_write; by destruct (c_cols s <=? c_col s)).
    rewrite W1 in *. rewrite W2 in *. unfold printing. cbn. rewrite P5, P7. rewrite u32_small by lia. split_and!; try done; try lia. by apply ring_cursor.
Qed.
Lemma putc_shows k s c : shows k s -> exists k' s' es, console_putc_locked k c = Some (k', es) /\ sp_putc true s c = (s', es) /\ shows k' s'.
Proof.
  intros Hs. destruct (printing_char k s c Hs) as (k1 & s1 & es & E1 & F1 & Hp). unfold console_putc_locked, sp_putc. rewrite E1, F1. cbn [mbind option_bind]. cbv zeta.
  assert (exists k2, (if s_cols k1 <=? s_cursor_col k1 then history_newline (set_cursor k1 0 (u32 (s_cursor_row k1 + 1))) else Some k1) = Some k2 /\
    let s2 := if c_cols s1 <=? c_col s1 then sp_newline s1 else s1 in ring_ok k2 (c_text s2) /\ s_cols k2 = c_cols s2 /\ s_rows k2 = c_rows s2 /\ s_cursor_col k2 = c_col s2 /\ 0 <= c_col s2 < c_cols s2 /\
    s_cursor_row k2 = c_row s2 /\ 0 <= c_row s2 /\ s_attr k2 = c_attr s2 /\ s_view_scoll k2 = c_view s2 /\ c_cols s2 = c_cols s1 /\ c_rows s2 = c_rows s1 /\ c_view s2 = c_view s1)
    as (k2 & -> & Hr2 & C2 & R2 & L2 & HL2 & W2 & HW2 & A2 & V2 & Q1 & Q2 & Q3).
  { pose proof Hp as (Ec & Hc & Er & Hr & Ecol & Hcol & Erow & Hrow & Ea & Ev & Hv & Hring). rewrite Ec, Ecol. destruct (Z.leb_spec (c_cols s1) (c_col s1)).
    - destruct (printing_newline k1 s1 Hp) as (k2 & E2 & H1 & H2 & H3 & H4 & H5 & H6 & H7). exists k2. split; [exact E2|]. cbn in H1 |- *. split_and!; done || lia.
    - exists k1. split; [done|]. cbn. split_and!; done || lia. }
  cbn [mbind option_bind]. set (s2 := if c_cols s1 <=? c_col s1 then _ else _) in *. rewrite R2, W2, A2.
  destruct Hp as (Ec & Hc & Er & Hr & Ecol & Hcol & Erow & Hrow & Ea & Ev & Hv & Hring).
  destruct (Z.leb_spec (c_rows s2) (c_row s2)); eexists _, _, _; (split; [done|]; split; [done|]); split; cbn; rewrite ?Q1, ?Q2, ?Q3 in *; try (split; [done|]); try done; try lia. by apply ring_cursor.
Qed.
Lemma puts_shows str : forall k s, shows k s -> exists k' s' es, puts_loop k str = Some (k', es) /\ sp_puts true s str = (s', es) /\ shows k' s'.
Proof.
  induction str as [|c str IH]; intros k s Hk; [by exists k, s, []|].
  destruct (putc_shows k s c Hk) as (k1 & s1 & e1 & E1 & F1 & H1). destruct (IH k1 s1 H1) as (k2 & s2 & e2 & E2 & F2 & H2). cbn [puts_loop sp_puts].
  rewrite E1, F1. cbn [mbind option_bind]. rewrite E2, F2. by exists k2, s2, (e1 ++ e2).
Qed.

(** ** The view *)
Lemma line_events line row n : 0 <= n <= zlen line ->
  mapM (fun col => '(ch, attr) ← geti line col; Some (EPut col row ch attr)) (seqZ 0 n) = Some (zip_with (fun col x => EPut col row x.1 x.2) (seqZ 0 n) line).
Proof.
  intros Hn. apply mapM_Some_2. apply Forall2_same_length_lookup_2; [rewrite length_zip_with, length_seqZ; lia|].
  intros i col e Hcol He. apply lookup_seqZ in Hcol as [-> Hi]. apply lookup_zip_with_Some in He as (col & x & -> & Hc & Hx). apply lookup_seqZ in Hc as [-> _].
  unfold geti. destruct (Z.ltb_spec (0 + Z.of_nat i) 0); [lia|]. replace (Z.to_nat (0 + Z.of_nat i)) with i by lia. rewrite Hx. by destruct x.
Qed.
Lemma geti_inside {A} (l : list A) i : 0 <= i < zlen l -> exists x, geti l i = Some x.
Proof. intros Hi. unfold geti. destruct (Z.ltb_spec i 0); [lia|]. apply lookup_lt_is_Some_2. lia. Qed.
Lemma render_start_spec k s : shows k s -> s_history_line_count k = sp_count s /\ render_start k = sp_start s /\ 0 <= sp_count s <= 512 /\ 0 <= sp_start s <= sp_count s.
Proof.
  intros [[Ec Hc] [Er Hr] [Ecol Hcol] [Erow Hrow] Ea [Ev Hv] [Hh Hi Ht Hcnt Hw Hring]]. fold (sp_count s) in Hcnt.
  assert (0 <= sp_count s <= 512) as H. { unfold sp_count, JLOS_CONSOLE_HISTORY_LINES. destruct (c_text s); [done|]. cbn [length]. lia. }
  unfold render_start. rewrite Hcnt, Er, Ev. unfold sp_start, JLOS_CONSOLE_HISTORY_LINES in *. cbv zeta. destruct (Z.ltb_spec (sp_count s - c_view s - c_rows s + 1) 0); split_and!; done || lia.
Qed.
Lemma render_view_spec k s : shows k s -> console_render_view k = Some (sp_view true s).
Proof.
  intros Hs. destruct (render_start_spec k s Hs) as (Hcnt & Est & Hc512 & Hst). unfold console_render_view, sp_view. cbv zeta. rewrite Est.
  destruct Hs as [[Ec Hc] [Er Hr] [Ecol Hcol] [Erow Hrow] Ea [Ev Hv] [Hh Hi Ht _ Hw Hring]]. rewrite Er, Hcnt. unfold JLOS_CONSOLE_HISTORY_LINES, JLOS_CONSOLE_MAX_COLS in *.
  rewrite (mapM_Some_2 _ _ (map (sp_row true s) (seqZ 0 (c_rows s)))); [done|]. apply Forall2_same_length_lookup_2; [by rewrite length_map|].
  intros i r e Hr0 He. change (map (sp_row true s) (seqZ 0 (c_rows s)) !! i) with ((sp_row true s <$> seqZ 0 (c_rows s)) !! i) in He. rewrite list_lookup_fmap, Hr0 in He. injection He as <-.
  apply lookup_seqZ in Hr0 as [-> Hir]. set (r := 0 + Z.of_nat i). unfold render_row, sp_row. rewrite Ea, Ec.
  destruct (Z.leb_spec (sp_count s + 1) (sp_start s + r)), (Z.ltb_spec (sp_count s - sp_start s - r) 0); try lia; [done|].
  unfold JLOS_CONSOLE_HISTORY_LINES. set (d := sp_count s - sp_start s - r) in *.
  assert (((s_history_write_idx k + 512 - sp_count s + sp_start s) `mod` 512 + r) `mod` 512 = (s_history_write_idx k - d `mod` 512) `mod` 512) as ->.
  { rewrite Zplus_mod_idemp_l, Zminus_mod_idemp_r. rewrite <- (Z_mod_plus_full (s_history_write_idx k - d) 1 512). f_equal. unfold d. lia. }
  assert (0 <= d <= sp_count s) as Hd by (unfold d, r; lia). pose proof (Z.mod_pos_bound d 512 ltac:(lia)) as Hm.
  assert (d `mod` 512 < zlen (c_text s)) as Hlt. { pose proof (Z.mod_le d 512 ltac:(lia) ltac:(lia)). unfold sp_count in Hd. lia. }
  rewrite (Hring (d `mod` 512) Hm Hlt). destruct (geti_inside (c_text s) (zlen (c_text s) - 1 - d `mod` 512) ltac:(lia)) as [line Hl]. rewrite Hl. cbn [mbind option_bind].
  apply line_events. assert (length line = 256%nat) as ->; [|lia].
  unfold geti in Hl. destruct (Z.ltb_spec (zlen (c_text s) - 1 - d `mod` 512) 0); [done|]. by apply (Forall_lookup_1 _ _ _ _ Hw Hl).
Qed.
Lemma shows_view k s v : shows k s -> 0 <= v <= JLOS_CONSOLE_HISTORY_LINES -> shows (set_view k v) (at_view s v).
Proof. intros [] Hv. split; cbn; try done. by apply ring_view. Qed.
Lemma shows_cursor k s col row : shows k s -> 0 <= col < c_cols s -> 0 <= row < c_rows s -> shows (set_cursor k col row) (at_cursor s col row).
Proof. intros [] H1 H2. split; cbn; try done. by apply ring_cursor. Qed.
Lemma leave_shows k s : shows k s -> exists k' s' es, leave_view k = Some (k', es) /\ sp_leave true s = (s', es) /\ shows k' s'.
Proof.
  intros Hs. pose proof (ok_view _ _ Hs) as [Ev _]. unfold leave_view, sp_leave. rewrite Ev. destruct (0 <? c_view s); [|by exists k, s, []].
  assert (shows (set_view k 0) (at_view s 0)) as H0 by (apply shows_view; [done|by unfold JLOS_CONSOLE_HISTORY_LINES]).
  cbv zeta. rewrite (render_view_spec _ _ H0). by eexists _, _, _.
Qed.

(** ** Every operation *)
Inductive cop :=
  | OPutc (c : Z) | OPuts (str : option (list Z)) | OClear | OSetAttr (attr : Z) | OSetCursor (col row : Z)
  | OScroll (delta : Z) | OReset | OReinit (cols rows : Z).
Definition console_op (k : console) (o : cop) : option (console * list event) :=
  match o with
  | OPutc c => jlos_console_putc k c
  | OPuts str => jlos_console_puts k str
  | OClear => Some (jlos_console_clear k)
  | OSetAttr attr => Some (jlos_console_set_attr k attr, [])
  | OSetCursor col row => Some (jlos_console_set_cursor k col row)
  | OScroll delta => jlos_console_scroll_view k delta
  | OReset => jlos_console_reset_view k
  | OReinit cols rows => Some (jlos_console_reinit k cols rows)
  end.
Definition sp_op (as_code : bool) (s : screen) (o : cop) : screen * list event :=
  match o with
  | OPutc c => sp_print as_code s [c]
  | OPuts None => (s, [])
  | OPuts (Some str) => sp_print as_code s str
  | OClear => (at_cursor s 0 0, [EClear (c_attr s); EDraw 0 0])
  | OSetAttr attr => (Screen (c_text s) (c_col s) (c_row s) attr (c_cols s) (c_rows s) (c_view s), [])
  | OSetCursor col row =>
    let col := if col <? c_cols s then col else c_col s in let row := if row <? c_rows s then row else c_row s in
    (at_cursor s col row, [EErase (c_col s) (c_row s); EDraw col row])
  | OScroll delta => sp_scroll as_code s delta
  | OReset => (at_view s 0, sp_view as_code (at_view s 0) ++ [EDraw (c_col s) (c_row s)])
  | OReinit cols rows => (Screen (c_text s) 0 0 (c_attr s) (Z.min cols JLOS_CONSOLE_MAX_COLS) rows (c_view s), [EDraw 0 0])
  end.
(** The ranges of the arguments: positions are unsigned, and adding the scroll to the view
    does not overflow. *)
Definition op_valid (o : cop) : Prop :=
  match o with
  | OSetCursor col row => 0 <= col /\ 0 <= row
  | OScroll delta => - 2 ^ 31 <= delta < 2 ^ 31 - JLOS_CONSOLE_HISTORY_LINES
  | OReinit cols rows => 0 < cols /\ 0 < rows < 2 ^ 30
  | _ => True
  end.
Fixpoint console_run (k : console) (ops : list cop) : option (console * list event) :=
  match ops with
  | [] => Some (k, [])
  | o :: ops => '(k, e1) ← console_op k o; '(k, e2) ← console_run k ops; Some (k, e1 ++ e2)
  end.
Fixpoint sp_run (as_code : bool) (s : screen) (ops : list cop) : screen * list event :=
  match ops with
  | [] => (s, [])
  | o :: ops => let '(s, e1) := sp_op as_code s o in let '(s, e2) := sp_run as_code s ops in (s, e1 ++ e2)
  end.

Lemma print_shows k s str : shows k s -> exists k' s' es,
  jlos_console_puts k (Some str) = Some (k', es) /\ sp_print true s str = (s', es) /\ shows k' s'.
Proof.
  intros Hs. destruct (leave_shows k s Hs) as (k1 & s1 & e1 & E1 & F1 & H1). destruct (puts_shows str k1 s1 H1) as (k2 & s2 & e2 & E2 & F2 & H2).
  unfold jlos_console_puts, sp_print. rewrite E1, F1. cbn [mbind option_bind]. cbv zeta. rewrite E2, F2. cbn [mbind option_bind].
  unfold erase_cursor, draw_cursor. destruct (ok_col _ _ H1) as [-> _], (ok_row _ _ H1) as [-> _], (ok_col _ _ H2) as [-> _], (ok_row _ _ H2) as [-> _]. by eexists _, _, _.
Qed.
Lemma putc_puts k c : jlos_console_putc k c = jlos_console_puts k (Some [c]).
Proof.
  unfold jlos_console_putc, jlos_console_puts. destruct (leave_view k) as [[k1 e1]|]; [|done]. cbn [mbind option_bind puts_loop]. cbv zeta.
  destruct (console_putc_locked k1 c) as [[k2 e2]|]; [|done]. cbn [mbind option_bind]. by rewrite app_nil_r.
Qed.
Lemma scroll_shows k s delta : shows k s -> op_valid (OScroll delta) -> exists k' s' es,
  jlos_console_scroll_view k delta = Some (k', es) /\ sp_scroll true s delta = (s', es) /\ shows k' s'.
Proof.
  intros Hs Hd. cbn in Hd. pose proof (render_start_spec k s Hs) as (Ecnt & _ & Hcnt & _). pose proof (ok_view _ _ Hs) as [Ev Hv]. pose proof (ok_rows _ _ Hs) as [Er Hr].
  unfold JLOS_CONSOLE_HISTORY_LINES in *. unfold jlos_console_scroll_view, sp_scroll. cbv zeta. rewrite Ev, Ecnt, Er.
  assert (s32 (c_view s + delta) = c_view s + delta) as -> by (apply s32_small; lia).
  set (v := Z.min _ _). set (v' := if _ <? (if _ <? 0 then _ else _) then _ else _).
  assert (v' = v) as -> by (unfold v', v; zcases; lia). assert (0 <= v <= 512) as Hv' by (unfold v; lia). clearbody v.
  pose proof (shows_view k s v Hs ltac:(unfold JLOS_CONSOLE_HISTORY_LINES; lia)) as H1. rewrite (render_view_spec _ _ H1). cbn [mbind option_bind].
  unfold erase_cursor, draw_cursor. cbn [s_cursor_col s_cursor_row set_view c_col c_row c_view at_view]. destruct (ok_col _ _ Hs) as [-> _], (ok_row _ _ Hs) as [-> _].
  by eexists _, _, _.
Qed.
Lemma op_shows k s o : shows k s -> op_valid o -> exists k' s' es, console_op k o = Some (k', es) /\ sp_op true s o = (s', es) /\ shows k' s'.
Proof.
  intros Hs Ho. pose proof (ok_col _ _ Hs) as [Ecol Hcol]. pose proof (ok_row _ _ Hs) as [Erow Hrow]. pose proof (ok_cols _ _ Hs) as [Ec Hc]. pose proof (ok_rows _ _ Hs) as [Er Hr].
  pose proof (ok_attr _ _ Hs) as Ea. destruct o as [c|[str|]| |attr|col row|delta| |cols rows]; cbn [console_op sp_op op_valid] in *.
  - rewrite putc_puts. by apply print_shows.
  - by apply print_shows.
  - by eexists _, _, _.
  - unfold jlos_console_clear. rewrite Ea. eexists _, _, _. split; [done|]. split; [done|]. apply shows_cursor; [done|lia..].
  - eexists _, _, _. split; [done|]. split; [done|]. destruct Hs as [? ? ? ? ? ? []]. by split.
  - unfold jlos_console_set_cursor, erase_cursor, draw_cursor. cbn. rewrite Ecol, Erow, Ec, Er. eexists _, _, _. split; [done|]. split; [done|]. apply shows_cursor; [done|zcases; lia..].
  - by apply scroll_shows.
  - unfold jlos_console_reset_view. cbv zeta. pose proof (shows_view k s 0 Hs ltac:(unfold JLOS_CONSOLE_HISTORY_LINES; lia)) as H1. rewrite (render_view_spec _ _ H1). cbn [mbind option_bind].
    unfold draw_cursor. cbn [s_cursor_col s_cursor_row set_view]. rewrite Ecol, Erow. by eexists _, _, _.
  - unfold jlos_console_reinit, JLOS_CONSOLE_MAX_COLS in *. cbv zeta. eexists _, _, _. split; [done|]. split; [done|]. destruct Hs as [? ? ? ? ? ? []].
    split; cbn; unfold JLOS_CONSOLE_MAX_COLS; try done; zcases; lia.
Qed.
Lemma run_shows ops : forall k s, shows k s -> Forall op_valid ops -> exists k' s' es, console_run k ops = Some (k', es) /\ sp_run true s ops = (s', es) /\ shows k' s'.
Proof.
  induction ops as [|o ops IH]; intros k s Hs Ho; [by exists k, s, []|]. inversion_clear Ho as [|? ? Ho1 Ho2].
  destruct (op_shows k s o Hs Ho1) as (k1 & s1 & e1 & E1 & F1 & H1). destruct (IH k1 s1 H1 Ho2) as (k2 & s2 & e2 & E2 & F2 & H2).
  cbn [console_run sp_run]. rewrite E1, F1. cbn [mbind option_bind]. rewrite E2, F2. by exists k2, s2, (e1 ++ e2).
Qed.

(** The static data, and the screen after the initialisation. *)
Definition boot_console : console :=
  Console 0 0 JLOS_HAL_DISPLAY_ATTR_DEFAULT JLOS_CONSOLE_DEFAULT_COLS JLOS_CONSOLE_DEFAULT_ROWS (replicate (Z.to_nat JLOS_CONSOLE_HISTORY_LINES) (replicate (Z.to_nat JLOS_CONSOLE_MAX_COLS) (0, 0))) 0 0 0.
Definition boot_screen (cols rows : Z) : screen :=
  Screen [replicate (Z.to_nat JLOS_CONSOLE_MAX_COLS) (0, 0)] 0 0 JLOS_HAL_DISPLAY_ATTR_DEFAULT (Z.min cols JLOS_CONSOLE_MAX_COLS) rows 0.
Lemma boot_shows cols rows : 0 < cols -> 0 < rows < 2 ^ 30 -> shows (jlos_console_init boot_console cols rows).1 (boot_screen cols rows).
Proof.
  intros Hc Hr. split; cbn -[replicate]; unfold JLOS_CONSOLE_MAX_COLS, JLOS_CONSOLE_HISTORY_LINES; try done; try lia; [split; zcases; lia|].
  split; cbn -[replicate]; unfold JLOS_CONSOLE_MAX_COLS, JLOS_CONSOLE_HISTORY_LINES; try done; [by repeat constructor|].
  intros i Hi Hlt. simpl in Hlt. assert (i = 0) as -> by lia. done.
Qed.

(** A plain line printed from column 0 is the next line of the text, padded with blanks. *)
Definition plain (str : list Z) : Prop := Forall (fun c => c <> 10 /\ c <> 8) str.
Lemma putc_plain s c t done rest : c <> 10 -> c <> 8 -> 0 <= c_row s < c_rows s -> c_col s = zlen done -> zlen done + 1 < c_cols s <= zlen (done ++ rest) ->
  c_text s = t ++ [done ++ rest] -> (sp_putc true s c).1 = at_cursor (with_text s (t ++ [done ++ (c, c_attr s) :: tail rest])) (zlen done + 1) (c_row s).
Proof.
  intros H10 H8 Hrow Hcol Hlt Ht. unfold sp_putc, sp_char. rewrite (proj2 (Z.eqb_neq _ _) H10), (proj2 (Z.eqb_neq _ _) H8). unfold sp_write.
  destruct (Z.leb_spec (c_cols s) (c_col s)); [lia|]. rewrite Ht. cbn. rewrite Hcol. destruct (Z.leb_spec (c_cols s) (zlen done + 1)); [lia|]. cbn.
  destruct (Z.leb_spec (c_rows s) (c_row s)); [lia|]. cbn. unfold write_last. rewrite removelast_last, List.last_last. rewrite Nat2Z.id.
  destruct rest as [|y rest]; [rewrite app_nil_r in Hlt; lia|]. by rewrite insert_app_r_alt, Nat.sub_diag by lia.
Qed.
Lemma puts_plain str : forall s t done rest, plain str -> 0 <= c_row s < c_rows s -> c_col s = zlen done -> zlen done + zlen str < c_cols s <= zlen (done ++ rest) ->
  c_text s = t ++ [done ++ rest] ->
  (sp_puts true s str).1 = at_cursor (with_text s (t ++ [done ++ map (fun c => (c, c_attr s)) str ++ drop (length str) rest])) (zlen done + zlen str) (c_row s).
Proof.
  induction str as [|c str IH]; intros s t dn rest Hp Hrow Hcol Hlt Ht; cbn [sp_puts map length] in *.
  - cbn [app fst drop]. rewrite Z.add_0_r, <- Hcol. change (drop 0 rest) with rest. rewrite <- Ht. by destruct s.
  - inversion_clear Hp as [|? ? [H10 H8] Hp']. pose proof (putc_plain s c t dn rest H10 H8 Hrow Hcol ltac:(lia) Ht) as E. destruct (sp_putc true s c) as [s1 e1]. cbn in E. subst s1.
    assert (rest <> []) as Hne by (intros ->; rewrite app_nil_r in Hlt; lia).
    specialize (IH (at_cursor (with_text s (t ++ [dn ++ (c, c_attr s) :: tail rest])) (zlen dn + 1) (c_row s)) t (dn ++ [(c, c_attr s)]) (tail rest) Hp').
    rewrite <- !app_assoc in IH. cbn [app c_row c_col c_rows c_cols c_text c_attr at_cursor with_text] in IH. rewrite length_app in IH. cbn [length] in IH.
    destruct (sp_puts true _ str) as [s2 e2]. cbn in IH |- *. rewrite IH; [|done|lia| |done].
    + destruct rest as [|y rest]; [done|]. cbn. unfold at_cursor, with_text. cbn. f_equal. lia.
    + destruct rest as [|y rest]; [done|]. cbn. rewrite length_app in Hlt |- *. cbn [length] in *. lia.
Qed.
Definition padded_line (attr : Z) (str : list Z) : list cell := map (fun c => (c, attr)) str ++ replicate (Z.to_nat JLOS_CONSOLE_MAX_COLS - length str) (32, attr).
Lemma puts_app s1 s2 : forall s, (sp_puts true s (s1 ++ s2)).1 = (sp_puts true (sp_puts true s s1).1 s2).1.
Proof.
  induction s1 as [|c s1 IH]; intros s; [done|]. cbn [app sp_puts]. destruct (sp_putc true s c) as [s' e]. specialize (IH s').
  destruct (sp_puts true s' (s1 ++ s2)), (sp_puts true s' s1). exact IH.
Qed.
Lemma newline_text s : 0 < c_cols s -> c_text (sp_puts true s [10]).1 = c_text s ++ [blank (c_attr s)].
Proof.
  intros Hc. cbn. destruct (Z.leb_spec (c_cols s) 0); [lia|]. cbn. by destruct (c_rows s <=? c_row s + 1).
Qed.
Lemma print_line k s t str : shows k s -> c_col s = 0 -> c_text s = t ++ [blank (c_attr s)] -> plain str -> zlen str < c_cols s ->
  exists k' s' es, jlos_console_puts k (Some (str ++ [10])) = Some (k', es) /\ shows k' s' /\ c_text s' = t ++ [padded_line (c_attr s) str; blank (c_attr s)].
Proof.
  intros Hs Hcol Ht Hp Hlt. destruct (print_shows k s (str ++ [10]) Hs) as (k' & s' & es & E & F & H). exists k', s', es. split; [exact E|]. split; [exact H|].
  pose proof (ok_row _ _ Hs) as [_ Hrow]. pose proof (ok_cols _ _ Hs) as [_ Hc]. unfold sp_print in F.
  destruct (sp_leave true s) as [s0 e0] eqn:E0. assert (exists v, s0 = at_view s v) as [v ->].
  { unfold sp_leave in E0. destruct (0 <? c_view s); simplify_eq; [by exists 0|]. exists (c_view s0). by destruct s0. }
  pose proof (puts_app str [10] (at_view s v)) as Ea. destruct (sp_puts true (at_view s v) (str ++ [10])) as [s2 e2]. simplify_eq. cbn [fst] in Ea. rewrite Ea.
  rewrite (puts_plain str (at_view s v) t [] (blank (c_attr s))); [|done|exact Hrow|exact Hcol| |exact Ht].
  - rewrite newline_text by (cbn; lia). cbn. unfold blank at 1. rewrite drop_replicate. by rewrite <- app_assoc.
  - unfold blank. cbn [app length c_cols at_view]. rewrite length_replicate. lia.
Qed.

(** ** The intended behaviour *)

(** No backspace at the start of a row below the first. *)
Definition char_clean (s : screen) (c : Z) : Prop := c = 8 -> 0 < c_col s \/ c_row s <= 0.
Fixpoint puts_clean (s : screen) (str : list Z) : Prop :=
  match str with [] => True | c :: str => char_clean s c /\ puts_clean (sp_putc false s c).1 str end.
(** The first line shown is fewer than 512 lines above the current one. *)
Definition view_clean (s : screen) : Prop := sp_count s - sp_start s < JLOS_CONSOLE_HISTORY_LINES.
Definition op_clean (s : screen) (o : cop) : Prop :=
  match o with
  | OPutc c => (0 < c_view s -> view_clean (at_view s 0)) /\ puts_clean (sp_leave false s).1 [c]
  | OPuts (Some str) => (0 < c_view s -> view_clean (at_view s 0)) /\ puts_clean (sp_leave false s).1 str
  | OScroll delta => view_clean (sp_scroll false s delta).1
  | OReset => view_clean (at_view s 0)
  | _ => True
  end.
Fixpoint run_clean (s : screen) (ops : list cop) : Prop :=
  match ops with [] => True | o :: ops => op_clean s o /\ run_clean (sp_op false s o).1 ops end.

Lemma view_intended s : view_clean s -> sp_view true s = sp_view false s.
Proof.
  unfold view_clean, sp_view. intros Hv. f_equal. apply map_ext_in. intros r Hr%list_elem_of_In%elem_of_seqZ. unfold sp_row, JLOS_CONSOLE_HISTORY_LINES in *.
  destruct (Z.ltb_spec (sp_count s - sp_start s - r) 0); [done|]. by rewrite Z.mod_small by lia.
Qed.
Lemma putc_intended s c : char_clean s c -> sp_putc true s c = sp_putc false s c.
Proof.
  intros Hc. unfold sp_putc. assert (sp_char true s c = sp_char false s c) as ->; [|done]. unfold sp_char. destruct (c =? 10); [done|].
  destruct (Z.eqb_spec c 8) as [E|]; [|done]. destruct (Z.ltb_spec 0 (c_col s)); [done|]. destruct (Hc E); [lia|].
  by destruct (Z.ltb_spec 0 (c_row s)); [lia|].
Qed.
Lemma puts_intended str : forall s, puts_clean s str -> sp_puts true s str = sp_puts false s str.
Proof.
  induction str as [|c str IH]; intros s H; [done|]. destruct H as [H1 H2]. cbn [sp_puts]. rewrite putc_intended by done.
  destruct (sp_putc false s c) as [s1 e1]. by rewrite IH.
Qed.
Lemma print_intended s str : (0 < c_view s -> view_clean (at_view s 0)) -> puts_clean (sp_leave false s).1 str -> sp_print true s str = sp_print false s str.
Proof.
  intros Hv Hp. unfold sp_print. assert (sp_leave true s = sp_leave false s) as ->.
  { unfold sp_leave. destruct (Z.ltb_spec 0 (c_view s)); [|done]. by rewrite view_intended by auto. }
  destruct (sp_leave false s) as [s1 e1]. by rewrite puts_intended.
Qed.
Lemma op_intended s o : op_clean s o -> sp_op true s o = sp_op false s o.
Proof.
  destruct o as [c|[str|]| |attr|col row|delta| |cols rows]; cbn [op_clean sp_op]; try done.
  - intros []. by apply print_intended.
  - intros []. by apply print_intended.
  - unfold sp_scroll. cbn [fst]. intros Hv. by rewrite view_intended.
  - intros Hv. by rewrite view_intended.
Qed.
Lemma run_intended ops : forall s, run_clean s ops -> sp_run true s ops = sp_run false s ops.
Proof.
  induction ops as [|o ops IH]; intros s H; [done|]. destruct H as [H1 H2]. cbn [sp_run]. rewrite op_intended by done.
  destruct (sp_op false s o) as [s1 e1]. by rewrite IH.
Qed.

(** C40. After the initialisation every sequence of console operations returns, with all
    accesses to the history inside the array, the cursor on the screen and the ring
    holding the last 512 lines of some text.  A sequence that has no backspace at the
    start of a row below the first and never shows the line 512 above the current one
    does what the specification with an unbounded text does: the same calls to the
    display and the serial line in the same order, with the ring holding the last 512
    lines of that text and the view showing the lines that end where it was scrolled to.
    Then a line without newlines and backspaces that is shorter than the screen is wide
    and is printed, with a newline, at the start of a blank current line becomes that line
    of the text, padded with blanks, followed by a blank line. *)
Theorem console_correct cols rows ops : 0 < cols -> 0 < rows < 2 ^ 30 -> Forall op_valid ops ->
  exists k es, console_run (jlos_console_init boot_console cols rows).1 ops = Some (k, es) /\ (exists s, shows k s) /\
    (run_clean (boot_screen cols rows) ops ->
     let s := (sp_run false (boot_screen cols rows) ops).1 in
     es = (sp_run false (boot_screen cols rows) ops).2 /\ shows k s /\
     (view_clean s -> console_render_view k = Some (sp_view false s)) /\
     forall t str, c_col s = 0 -> c_text s = t ++ [blank (c_attr s)] -> plain str -> zlen str < c_cols s ->
       exists k' s' es', jlos_console_puts k (Some (str ++ [10])) = Some (k', es') /\ shows k' s' /\ c_text s' = t ++ [padded_line (c_attr s) str; blank (c_attr s)]).
Proof.
  intros Hc Hr Ho. destruct (run_shows ops _ _ (boot_shows cols rows Hc Hr) Ho) as (k & s & es & E & F & H). exists k, es.
  split; [done|]. split; [by exists s|]. intros Hcl. rewrite run_intended in F by done. rewrite F. cbn [fst snd]. split_and!; [done|done| |].
  - intros Hv. rewrite <- view_intended by done. by apply render_view_spec.
  - intros t str. by apply print_line.
Qed.
Lemma console_correct_witness : let ops := [OPuts (Some [65; 10; 66; 8]); OScroll 3; OPutc 67] in exists k es,
  console_run (jlos_console_init boot_console 80 25).1 ops = Some (k, es) /\ es = (sp_run false (boot_screen 80 25) ops).2.
Proof.
  destruct (console_correct 80 25 [OPuts (Some [65; 10; 66; 8]); OScroll 3; OPutc 67]) as (k & es & E & _ & H); [lia|lia|repeat constructor; cbn; lia|].
  exists k, es. split; [exact E|]. apply H. clear. vm_compute.
  repeat match goal with |- _ /\ _ => split | |- True => exact I | |- Lt = Lt => reflexivity | |- _ -> _ => let E := fresh in intros E; try discriminate E end.
  left. reflexivity.
Defined.

(** After 512 complete lines the view scrolled to its top shows the current line, "B", in
    its first row, where the line 512 above it is "A". *)
Definition deep_scroll : list cop := [OPuts (Some (65 :: replicate 512 10 ++ [66])); OScroll 512].
Lemma view_top_overwritten :
  ('(k, _) ← console_run (jlos_console_init boot_console 80 25).1 deep_scroll; rows ← console_render_view k; head rows) = Some (EPut 0 0 66 7) /\
  head (sp_view false (sp_run false (boot_screen 80 25) deep_scroll).1) = Some (EPut 0 0 65 7).
Proof. split; vm_compute; reflexivity. Qed.

(** A backspace at column 0 of a screen of 80 columns puts the cursor at column 255: the
    cell drawn is off the screen, and the wrap that follows adds a line to the text and
    leaves the cursor where it was. *)
Lemma backspace_off_screen : exists k es, console_run (jlos_console_init boot_console 80 25).1 [OPutc 10; OPutc 8] = Some (k, es) /\
  EPut 255 0 32 7 ∈ es /\ s_cursor_col k = 0 /\ s_cursor_row k = 1 /\ s_history_line_count k = 2.
Proof. vm_compute. eexists _, _. split; [reflexivity|]. split; [|done]. repeat (first [apply list_elem_of_here | apply list_elem_of_further]). Qed.
